(* ===== verification/_CoqProject ===== *)
-Q . S2P
Prelude.v
Errors.v
FpCore.v
Fp.v
PoolTypes.v
RatesCurve.v
RatesScaling.v
RatesAccrual.v
PoolCache.v
PoolInterest.v
PoolOps.v
PoolSafety.v
PoolContract.v
PoolSolvency.v
ControllerTypes.v
Risk.v
LiqCurve.v
Payments.v
LiqMath.v
LiqTrim.v
LiqPlan.v
Sample.v
PoolView.v
Account.v
SpokeUsage.v
RiskParams.v
LiqProps.v
CoreProps.v
PoolProps.v
OracleMath.v
LpMath.v
AggState.v
AggEngine.v
AggContract.v
AggReference.v
AggResolve.v
AggRegistry.v
AggProps.v
XoxnoStore.v
XoxnoContract.v
XoxnoSteps.v
XoxnoReach.v
XoxnoProps.v
SwapProgram.v
SwapStore.v
SwapRouter.v
SwapSteps.v
SwapBacking.v
SwapProps.v
PoolMoves.v
PositionNft.v
CtlState.v
CtlContext.v
CtlBooks.v
CtlFlows.v
CtlLegs.v
CtlKeep.v
CtlSteps.v
CtlLiq.v
CtlLiqSteps.v
CtlStrategies.v
CtlStrategySteps.v
CtlConfig.v
CtlAdminSteps.v
CtlContract.v
GovOps.v
GovContract.v
GovReach.v
GovProps.v
CtlReach.v
CtlSample.v
CtlHealth.v
CtlViews.v
Defindex.v
CtlProps.v
KeeperKeys.v
Keeper.v
KeeperProps.v
Exporter.v
ExporterProps.v
