(* ===== verification/Prelude.v ===== *)
(** * XOXNO Lending: a verification of the lending core

    The program is a lending protocol for Stellar written as Soroban contracts.
    One [pool] contract holds every market: it keeps shares, indexes and cash per
    (hub, asset) key, accrues interest, and moves tokens.  One [controller] owns
    the pool: it keeps accounts (each one an NFT of a third contract), listings and
    spoke usage, values accounts with prices from a price aggregator and indexes from
    the pool, gates every risky flow on the resulting totals, and plans and executes
    liquidations and leveraged strategies.  A governance contract owns the controller and the
    aggregator and changes them through a timelock; an oracle of its own (XOXNO) aggregates
    signed submissions for the price aggregator; a swap aggregator runs the routes strategies
    use; a DeFindex strategy holds accounts for vaults.  The crate [common] holds the
    arithmetic, rates, types and errors they share.  Beside the contracts, a keeper service
    keeps their storage alive and their indexes fresh by transactions of its own, and an
    exporter service publishes gauges of what it reads from them.
    A failing call panics and the host reverts the transaction, so fallible code is a [result]
    (this file) and an error carries no state.

    ** Files, and the code each one models (paths under src/)

    - [Prelude]: results and their sequencing, machine integers, the three rounded
      quotients, sums over lists, automation.
    - [Errors]: common/src/errors.rs, one constructor per error, with its code.
    - [FpCore]: common/src/math/fp_core.rs, each routine with its [i128] fast path
      and its [I256] fallback, and the exact rational value each one rounds.
    - [Fp]: common/src/math/fp.rs (modules [Ray], [Wad], [Bps]), constants, and the
      conversions between token units and 18- or 27-decimal values.
    - [PoolTypes]: common/src/types/pool.rs, common/src/types/shared.rs.
    - [RatesCurve]: common/src/rates/curve.rs, compound.rs.
    - [RatesScaling]: common/src/rates/scaling.rs, value.rs.
    - [RatesAccrual]: common/src/rates/index.rs, simulate.rs.
    - [PoolCache]: contracts/pool/src/storage.rs, cache/, time.rs, events.rs.  [Pool]
      is the contract's storage (parameters and state per market, the owner) with
      the log of its effects: token transfers and events, in order.
    - [PoolInterest]: contracts/pool/src/interest.rs and guards.rs, and [market_inv],
      the well-formedness of a market.
    - [PoolOps]: contracts/pool/src/ops/, one module per file, the batching loop of
      ops/mod.rs included.
    - [PoolContract]: ops/flash.rs over [Host], an interface of the token and receiver
      calls the contract makes; contracts/pool/src/lib.rs and views.rs, and [pool_step] and
      [reachable]: any sequence of entrypoint calls from deployment.
    - [PoolSafety], [PoolSolvency]: what one call does to
      one market ([leg_effect]), what its guards ensure, and what holds of every
      reachable pool; an abstract book of user positions whose sums are the pool's totals.
    - [ControllerTypes]: common/src/types/controller.rs, types/oracle.rs, and the
      reads of contracts/controller/src/context.rs as a record [Context].
    - [PoolView]: [MarketView], what the controller relies on from the pool, the
      proof that the pool's projected indexes provide it, and what the results of single and
      batched pool calls tell their caller; [PoolMoves]: the totals such calls move.
    - [Account]: the sorted position maps of contracts/controller/src/account.rs.
    - [SpokeUsage]: contracts/controller/src/spoke_usage.rs, with the usage rows of
      storage/spoke.rs.
    - [Risk]: contracts/controller/src/risk/totals.rs and validation.rs.
    - [RiskParams]: contracts/controller/src/risk/params.rs.
    - [Payments]: contracts/controller/src/payments.rs.
    - [LiqCurve], [LiqMath], [LiqPlan]: positions/liquidation/curve.rs, math.rs and
      plan.rs, and the halt flags of positions/mod.rs.
    - [LiqTrim]: lemmas on the two halves of math.rs (module [LiqSeize] the second).
    - [Sample]: concrete markets, pools and accounts.
    - [CoreProps], [PoolProps], [LiqProps]: the properties, each with an
      application to the concrete states.
    - [PositionNft]: contracts/position-nft/src/contract.rs over [NftLib], the token library
      with its documented laws [NftLaws]; modules [NftReach] (any sequence of calls) and
      [NftUri] (the writer of the token URI).
    - [CtlState]: contracts/controller/src/storage/ and events/, the NFT and aggregator
      adapters of external/.  [Controller] is the contract's storage; [Sys] is the
      controller, the pool and the rest of the ledger, [Chain] the interface of that rest
      (NFT, aggregator, router), [SequentialIds] what is relied on of the NFT.
    - [CtlContext]: context.rs as a buffer beside the system ([Flow]): price and index
      caches, usage and event buffers, the pool calls of external/pool.rs, payments.rs;
      account.rs, the account lifecycle, rights and delegates.
    - [CtlFlows]: positions/mod.rs, supply.rs, debt.rs.
    - [CtlLiq]: positions/liquidation/mod.rs, apply.rs, bad_debt.rs.
    - [CtlStrategies]: strategies/ and external/blend.rs over [Venues], the interface of
      Blend pools and flash-position receivers.
    - [CtlConfig]: the bulk re-stamping of risk/params.rs, config/, governance.rs, markets.rs, strategies/flash_loan.rs and the
      setters of storage/.
    - [CtlContract]: lib.rs, every entrypoint that changes state with its guards, as
      values of [Call] run by [dispatch].
    - [CtlBooks], [CtlLegs], [CtlKeep], [CtlSteps], [CtlLiqSteps], [CtlStrategySteps],
      [CtlAdminSteps]: the invariant [sane] (books, well-formed maps, issued ids) and
      that each flow keeps it and touches only the accounts it is about ([beside]).
    - [CtlReach]: [sys_step] and [sys_reachable], any sequence of calls, token movements
      and clock ticks from deployment.  [CtlHealth]: the risk gate in the ledger a call
      leaves behind (module [Health]); rights, pause, guard and flag ratchet (module [Access]).
    - [CtlViews]: views.rs and the reading entrypoints of lib.rs, and that a liquidation makes
      the reads the views make.
    - [OracleMath]: common/src/types/oracle.rs and composable_oracle.rs, oracle/observation.rs, lp.rs, lp_stable.rs over [U256];
      [LpMath]: its loops terminate and its prices are exact.
    - [AggState]: contracts/price-aggregator/src/session.rs, registry.rs, observation.rs,
      tolerance.rs and the reads of providers/; [Providers] is the interface of the external
      feeds and pools, [TypedProviders] and [ConsistentFeeds] what is relied on of it.
    - [AggEngine]: engine.rs, the nested reads of aquarius.rs and curve.rs, the warming of
      session.rs.  [AggContract]: properties.rs, validation.rs, admin.rs, lib.rs.
    - [AggReference], [AggResolve], [AggRegistry]: the cache-free reference of
      resolution and that no read traps (module [AggTotal]), that the caching engine computes the reference, and
      what every reachable registry satisfies.  [AggProps]: the aggregator's properties and
      the price client of contracts/controller/src/external/price_aggregator.rs.
    - [XoxnoStore]: contracts/xoxno-oracle/src/storage/ and the errors of lib.rs.
      [XoxnoContract]: aggregation.rs, submit.rs, admin.rs, reads.rs and lib.rs.
      [XoxnoSteps]: sorting, medians, votes and quorums; [XoxnoReach]: the invariant
      of the oracle's storage over any sequence of calls; [XoxnoProps]: its properties, and that
      it serves the price aggregator as a feed.
    - [GovOps]: interfaces/governance/src/lib.rs and, of contracts/governance/src/, storage.rs,
      access.rs, validate/, and the helpers of timelock/mod.rs and op.rs.  [GovContract]: op.rs,
      timelock/, deploy.rs and api.rs.  [GovReach]: the invariant of roles and pending
      operations over any sequence of calls; [GovProps]: concrete libraries and a history
      (module [GovSample]), and the properties.
    - [SwapProgram]: program.rs, types.rs, errors.rs and constants.rs of
      contracts/swap-aggregator/src/, and the parser as the inverse of the serializer.
      [SwapStore]: storage.rs, math.rs, vault.rs, fees.rs.  [SwapRouter]: venues/, execute/,
      lib.rs.  [SwapSteps]: what the storage operations keep; [SwapBacking]: what every step
      keeps of a token that honours its interface; [SwapProps]: reachable routers, a concrete
      ledger, the properties.
    - [CtlSample]: a concrete ledger implementing every interface, deployed, configured
      and used by calls.  [CtlProps]: the properties of the whole system.
    - [Defindex]: contracts/defindex-strategy/src/lib.rs over [LendingClient], what it calls of
      the controller, with its laws [LendingLaws]; module [CtlClient] is the controller as such
      a client, [StrategyReach] any sequence of strategy calls and transactions of others.
    - [KeeperKeys]: services/keeper/src/keys.rs and classify.rs, storage keys as ledger values
      and back.  [Keeper]: config.rs, stellar/, discovery.rs, policy.rs and scheduler/ in a
      monad of the service's state (module [Svc]) over [Rpc], the nodes it asks, and [Codec], the string forms of keys.
      [KeeperProps]: what a tick plans, reads and sends.
    - [Exporter]: services/lending-exporter/src/, in a monad of the registry of metrics and
      the cache of unlisted pairs, over [Node], the node it asks, and [Lib].  Floats are the
      binary64 numbers of [SpecFloat].  [ExporterProps]: what the gauges say, and the encoding
      of the contracts' types (module [Abi]).

    ** Correspondence

    An [i128] is a [Z]; plain arithmetic traps on overflow (the release profile
    sets overflow-checks), [checked_*] returns an option, [saturating_*] clamps.
    The newtypes [Ray], [Wad] and [Bps] are erased.  A storage map is a [gmap]; a
    Soroban map that is iterated is an association list in key order.  An
    [assert_with_error!] is [require]; a loop over entries is [rfold].  The pool
    cache is loaded, changed and committed explicitly, as in the source.  What the
    contracts call but do not define is a parameter: token contracts and flash-loan
    receivers through [Host], prices through [ctx_token_prices].  [NoReentry] states
    the host's documented rule that a contract on the call stack cannot be called
    again; the same rule makes calls out of the controller atomic for it, and the receivers
    of flash loans and positions act on the rest of the ledger only.  A transaction is one
    [dispatch]; a failed one changes nothing.  The access-control and timelock libraries of
    governance are the interfaces [AccessLib] and [TimelockLib] with their documented laws
    ([AccessLaws], [TimelockLaws]; an operation is identified by its hash, which is assumed
    free of collisions where two operations are told apart), the contracts governance calls
    [GovHost].  The swap aggregator treats every token and pool as code that may do anything
    ([SwapHost]); only the token whose fees are to be backed is assumed to honour SEP-41 and
    the host's authorisation rule ([FeeToken]).

    ** What the theorems show

    - Arithmetic ([CoreProps]): the multiply-divide and rescale routines equal the
      exact rounded quotient or report overflow, on both paths; rate curve bounds
      and monotonicity; the compound factor; accrual creates no value; supplying
      then withdrawing, or borrowing then repaying, is never a profit.
    - Pool ([PoolProps]): every reachable market is well formed; supplier claims
      never exceed debt plus cash as long as no index hit its floor; totals are the
      sums of positions; the effect of each operation on every branch that
      succeeds, with its guards; flash loans return principal and fee; projected
      indexes are the ones accrual stores; only the owner can change state.
    - Risk and liquidation ([LiqProps]): totals are consistent; an account inside
      its gates is not liquidatable against any reachable pool; a plan neither
      creates nor loses a token, seizes only held shares, pays a bounded bonus, and
      asks an insolvent account for no more than its collateral backs; share splits
      and scaling to receipts are exact or round against the liquidator.
    - Usage and parameters ([LiqProps]): stored spoke usage is what a flow entered
      and left, entries stay within their caps, and refreshing a position's risk
      tuple never makes a healthy account liquidatable.
    - System ([CtlProps]): in every reachable system account shares add up to the pool's
      totals and to the spoke usage, and storage is well formed; a call changes only the
      accounts it names, settings change only for the owner, positions move only for the
      holder of the account token or an active delegate, outsiders only top up; borrows
      and withdrawals end within their limits and cannot be liquidated in the same
      ledger; listing flags are a ratchet; cleanup needs bad debt; the reentrancy guard
      and the pause flag stop what they must; swaps spend at most their input; the views
      announce which accounts a liquidation accepts and what it may take.
    - Prices ([AggProps]): whatever was cached on the way, the aggregator returns the
      reference price of each key; prices are positive, fresh, inside their band and their
      legs agree; quotes never trap; registries reached through any ledgers, whose provider
      answers need not be related, have no cycle, missing dependency or over-deep composition; fair share prices are exact; and the aggregator provides
      what the controller assumes of its prices.
    - Oracle ([XoxnoProps]): a published price lies between honest submissions as long as the
      faulty signers are fewer than the quorum allows; storage stays well formed; submissions
      touch only the signer's own votes; the oracle serves the aggregator.
    - Governance ([GovProps]): what is executed was proposed, waited for its delay and was not
      cancelled; role separation holds in every reachable state; recovery operations cannot be
      cancelled by those they remove; an operation is accepted exactly within the written
      bounds, resolves to the entrypoint and tier it stands for, and self operations change
      what they name and nothing else.
    - Swaps ([SwapProps]): a byte string decodes exactly when it serializes a legal program; a
      strategy pays at least its minimum; reserved totals are sums of buckets and stay backed by
      the router's balance whatever venues do; claims fail only if the token refuses; the
      constant-product quote is the largest the pair accepts.
    - Tokens of accounts ([PositionNft]): ids are issued in sequence, from 1, by the controller
      alone, and never again; the URI of a token is its base, its id in decimal and the suffix,
      within the fixed buffers.
    - DeFindex ([Defindex]): vaults never share an account; a call reaches only the vault that
      authorized it; the mapping of a vault is dropped only when its account is gone or emptied.
    - Keeper ([KeeperKeys], [KeeperProps]): keys of distinct entries are distinct and are
      classified as what they are; the rotating scan reaches every account, a snapshot every
      row it promises; plans restore what lapsed and extend what is about to, exactly; a tick
      keeps its budget; only simulated transactions that need no other authorization are sent,
      once, signed as they are sent; one live node is enough for a read.
    - Exporter ([ExporterProps]): a scrape never panics; index rows stay with their markets; the
      staleness countdown is the worst leg's, negative exactly when a timestamp it probed is
      older than its limit; pairs known to
      be unlisted have no series; what the contracts encode is what the decoders return.

    ** Fuel

    The only loop without a structural bound is the accrual loop, which advances by
    at most a year per turn.  [accrue_loop] gives it one turn per started year, and
    [accrue_loop_unfold] shows that it satisfies the loop's own equation, so fuel
    never runs out.  The trimming loop of liquidations recurses on the index it
    decrements.  Resolution recurses on [resolution_fuel] = 4 levels, one more than
    [MAX_RESOLUTION_DEPTH], so the depth check fires first; [sqrt_fuel] = 130 halves the
    distance of a 256-bit Newton iterate to its root ([newton_sqrt_Ok]); [depends_fuel]
    exceeds the number of configured keys, which bounds a path of distinct keys.
    [push_digits] has eleven turns for at most ten digits; the keeper's [chunks] recurses on the
    length of the list it splits, its failover on the number of nodes left to try, and trimming a string on its length.

    ** Not modelled

    Storage TTL (it changes no value), contract upgrades, the two-step ownership
    transfer of the access library (the owner of pool, controller and oracles is a stored
    address), and event fields that only repeat arguments.  Of the services, the process around
    their loops: command line, YAML, HTTP server, key vault, signals and logs.  Mocks, test
    harnesses and scripts. *)

From stdpp Require Import base list numbers option.
From Stdlib Require Import ZArith Lia Bool.

Open Scope Z_scope.

(** ** Results of fallible code

    A contract call either returns a value or panics; a panic reverts every
    write of the transaction, so it carries the error only.  [result E A] is
    that sum, [let*] its sequencing. *)

Inductive result (E A : Type) : Type :=
| Ok (a : A)
| Err (e : E).

Arguments Ok {E A} a.
Arguments Err {E A} e.

Definition rbind {E A B : Type} (c : result E A) (k : A -> result E B) : result E B :=
  match c with
  | Ok a => k a
  | Err e => Err e
  end.

Definition of_option {E A : Type} (e : E) (o : option A) : result E A :=
  match o with
  | Some a => Ok a
  | None => Err e
  end.

(** [require b e] is [assert_with_error!(env, b, e)]. *)
Definition require {E : Type} (b : bool) (e : E) : result E unit :=
  if b then Ok tt else Err e.

Definition is_ok {E A : Type} (r : result E A) : bool :=
  match r with
  | Ok _ => true
  | Err _ => false
  end.

Declare Scope res_scope.
Delimit Scope res_scope with res.

Notation "'let*' x ':=' c 'in' k" := (rbind c (fun x => k))
  (at level 10, x pattern, c at level 100, k at level 200,
   format "'[v' 'let*'  x  ':='  c  'in' '/' k ']'") : res_scope.
Notation "'do!' c 'in' k" := (rbind c (fun _ => k))
  (at level 10, c at level 100, k at level 200,
   format "'[v' 'do!'  c  'in' '/' k ']'") : res_scope.

Open Scope res_scope.

(** Left-to-right traversal of a list, stopping at the first error: the shape
    of the contracts' [for entry in entries.iter()] loops. *)
Fixpoint rfold {E A B : Type} (f : A -> B -> result E A) (a : A) (l : list B) : result E A :=
  match l with
  | [] => Ok a
  | x :: l' => let* a' := f a x in rfold f a' l'
  end.

Section Result.
Context {E : Type}.

Lemma rbind_Ok {A B} (c : result E A) (k : A -> result E B) b :
  rbind c k = Ok b <-> exists a, c = Ok a /\ k a = Ok b.
Proof.
  destruct c as [a|e]; simpl; split.
  - eauto.
  - intros (a' & Ha & Hk). congruence.
  - discriminate.
  - intros (a' & Ha & _). discriminate.
Qed.

Lemma rbind_Err {A B} (c : result E A) (k : A -> result E B) e :
  rbind c k = Err e <-> c = Err e \/ exists a, c = Ok a /\ k a = Err e.
Proof.
  destruct c as [a|e']; simpl; split.
  - eauto.
  - intros [?|(a' & Ha & Hk)]; congruence.
  - intros H. left. congruence.
  - intros [?|(a' & Ha & Hk)]; congruence.
Qed.

Lemma rbind_assoc {A B C} (c : result E A) (f : A -> result E B) (g : B -> result E C) :
  rbind (rbind c f) g = rbind c (fun a => rbind (f a) g).
Proof. by destruct c. Qed.

Lemma require_Ok (b : bool) (e : E) u : require b e = Ok u <-> b = true.
Proof. destruct u, b; simpl; split; congruence. Qed.

Lemma of_option_Ok {A} (e : E) (o : option A) a : of_option e o = Ok a <-> o = Some a.
Proof. destruct o; simpl; split; congruence. Qed.

Lemma rfold_app {A B} (f : A -> B -> result E A) a l1 l2 :
  rfold f a (l1 ++ l2) = rbind (rfold f a l1) (fun a' => rfold f a' l2).
Proof.
  revert a; induction l1 as [|x l1 IH]; intros a; [done|].
  simpl. destruct (f a x) as [a'|]; simpl; [apply IH|done].
Qed.

(** An invariant kept by every step of a loop holds at its end. *)
Lemma rfold_inv {A B} (P : A -> Prop) (f : A -> B -> result E A) l :
  (forall a x a', In x l -> P a -> f a x = Ok a' -> P a') ->
  forall a a', P a -> rfold f a l = Ok a' -> P a'.
Proof.
  induction l as [|x l IH]; simpl; intros Hstep a a' Ha H.
  - congruence.
  - apply rbind_Ok in H as (a1 & H1 & H2).
    eapply (IH (fun a x a' Hin => Hstep a x a' (or_intror Hin))); [|exact H2].
    eapply Hstep; eauto.
Qed.

(** A loop that pushes one computed element per entry. *)
Lemma rfold_collect {A B} (step : list B -> A -> result E (list B)) (f : A -> result E B) l :
  (forall acc x, step acc x = rbind (f x) (fun y => Ok (acc ++ [y]))) ->
  forall acc r, rfold step acc l = Ok r ->
  exists ys, r = acc ++ ys /\ Forall2 (fun x y => f x = Ok y) l ys.
Proof.
  intros Hstep. induction l as [|x l IH]; simpl; intros acc r H.
  - injection H as <-. exists []. by rewrite app_nil_r.
  - apply rbind_Ok in H as (acc1 & H1 & H). rewrite Hstep in H1.
    apply rbind_Ok in H1 as (y & Hy & H1). injection H1 as <-.
    apply IH in H as (ys & -> & Hys). exists (y :: ys). rewrite <- app_assoc. auto.
Qed.

(** A loop without state passes exactly when every turn does. *)
Lemma rfold_unit {B} (f : B -> result E unit) l :
  rfold (fun _ x => f x) tt l = Ok tt <-> Forall (fun x => f x = Ok tt) l.
Proof.
  split.
  - induction l as [|x l IH]; cbn; intros H; [constructor|].
    apply rbind_Ok in H as ([] & Hx & H). constructor; auto.
  - induction 1 as [|x l Hx _ IH]; cbn; [done|]. by rewrite Hx.
Qed.
End Result.

(** [ok_inv H] turns [H : body = Ok r], [body] a [let*] chain of requires,
    options and results, into one hypothesis [Hv], [Hv0], ... per step that was
    passed; [H] becomes the equation of the last step. *)
Ltac ok_inv_step H :=
  lazymatch type of H with
  | rbind _ _ = Ok _ =>
      let a := fresh "v" in
      let H1 := fresh "Hv" in
      apply rbind_Ok in H as (a & H1 & H); cbv beta in H;
      ok_inv_step H1; ok_inv_step H
  | require _ _ = Ok ?u => apply require_Ok in H; try clear u
  | of_option _ _ = Ok _ => apply of_option_Ok in H
  | Ok _ = Ok _ =>
      first [ injection H as <- <- <- <- | injection H as <- <- <- | injection H as <- <-
            | injection H as <- | injection H as H ]
  | Err _ = Ok _ => discriminate H
  | _ => idtac
  end.
Ltac ok_inv H := ok_inv_step H.

(** Case analysis on the first [if] or [match] of a hypothesis or of the goal. *)
Ltac case_in H :=
  match type of H with
  | context [match ?b with _ => _ end] => destruct b eqn:?
  end.

(** Comparison of closed integers by evaluation. *)
Ltac zconst := solve [ vm_compute; first [ reflexivity | discriminate | intro; discriminate ] ].

(** Boolean tests to propositions. *)
Ltac b2p :=
  repeat match goal with
  | H : (_ && _)%bool = true |- _ => apply andb_true_iff in H as [? ?]
  | H : (_ || _)%bool = false |- _ => apply orb_false_iff in H as [? ?]
  | H : negb _ = true |- _ => apply negb_true_iff in H
  | H : negb _ = false |- _ => apply negb_false_iff in H
  | H : (_ =? _) = true |- _ => apply Z.eqb_eq in H
  | H : (_ =? _) = false |- _ => apply Z.eqb_neq in H
  | H : (_ <? _) = true |- _ => apply Z.ltb_lt in H
  | H : (_ <? _) = false |- _ => apply Z.ltb_ge in H
  | H : (_ <=? _) = true |- _ => apply Z.leb_le in H
  | H : (_ <=? _) = false |- _ => apply Z.leb_gt in H
  end.

(** ** Machine integers

    An integer of width [w] is a [Z] kept inside its range.  The workspace's
    release profile sets [overflow-checks = true], so plain arithmetic traps
    on overflow and [checked_*] returns [None]. *)

Definition i128_min : Z := -170141183460469231731687303715884105728.
Definition i128_max : Z := 170141183460469231731687303715884105727.
Definition u64_max : Z := 18446744073709551615.
Definition u32_max : Z := 4294967295.
Definition i256_min : Z := -57896044618658097711785492504343953926634992332820282019728792003956564819968.
Definition i256_max : Z := 57896044618658097711785492504343953926634992332820282019728792003956564819967.

Definition in_i128 (z : Z) : bool := (i128_min <=? z) && (z <=? i128_max).
Definition in_i256 (z : Z) : bool := (i256_min <=? z) && (z <=? i256_max).

Abbreviation is_i128 z := (i128_min <= z <= i128_max).

Definition i128_checked (z : Z) : option Z := if in_i128 z then Some z else None.

Definition i128_checked_add (a b : Z) : option Z := i128_checked (a + b).
Definition i128_checked_sub (a b : Z) : option Z := i128_checked (a - b).
Definition i128_checked_mul (a b : Z) : option Z := i128_checked (a * b).
(** Rust division truncates toward zero. *)
Definition i128_checked_div (a b : Z) : option Z :=
  if b =? 0 then None else i128_checked (Z.quot a b).
Definition i128_checked_pow (a n : Z) : option Z := i128_checked (a ^ n).

Definition i128_saturating_sub (a b : Z) : Z :=
  Z.max i128_min (Z.min i128_max (a - b)).
Definition i128_saturating_mul (a b : Z) : Z :=
  Z.max i128_min (Z.min i128_max (a * b)).
Definition u64_saturating_sub (a b : Z) : Z := Z.max 0 (a - b).

Lemma in_i128_spec z : in_i128 z = true <-> is_i128 z.
Proof. unfold in_i128. rewrite andb_true_iff, !Z.leb_le. lia. Qed.

Lemma in_i256_spec z : in_i256 z = true <-> i256_min <= z <= i256_max.
Proof. unfold in_i256. rewrite andb_true_iff, !Z.leb_le. lia. Qed.

Lemma i128_checked_Some z v : i128_checked z = Some v <-> v = z /\ is_i128 z.
Proof.
  unfold i128_checked. destruct (in_i128 z) eqn:Hz.
  - apply in_i128_spec in Hz. split; [intros [= <-]|intros [-> _]]; done.
  - split; [done|]. intros [_ H]. apply in_i128_spec in H. congruence.
Qed.

Lemma i128_checked_None z : i128_checked z = None <-> ~ is_i128 z.
Proof.
  unfold i128_checked. rewrite <- in_i128_spec.
  destruct (in_i128 z); naive_solver.
Qed.

Lemma i128_checked_in z : is_i128 z -> i128_checked z = Some z.
Proof. intros H. by apply i128_checked_Some. Qed.

Lemma i128_range_const : i128_min = - 2 ^ 127 /\ i128_max = 2 ^ 127 - 1
  /\ i256_min = - 2 ^ 255 /\ i256_max = 2 ^ 255 - 1.
Proof. vm_compute. done. Qed.

(** Products of two [i128] values always fit [I256]. *)
Lemma i128_mul_in_i256 x y : is_i128 x -> is_i128 y -> in_i256 (x * y) = true.
Proof.
  intros Hx Hy. apply in_i256_spec.
  assert (Z.abs x <= 2 ^ 127) by (unfold i128_min, i128_max in *; lia).
  assert (Z.abs y <= 2 ^ 127) by (unfold i128_min, i128_max in *; lia).
  assert (Z.abs (x * y) <= 2 ^ 127 * 2 ^ 127).
  { rewrite Z.abs_mul. apply Z.mul_le_mono_nonneg; lia. }
  assert (2 ^ 127 * 2 ^ 127 < i256_max) by zconst.
  unfold i256_min, i256_max in *. lia.
Qed.

(** ** Rounded quotients

    The reference definitions of the three rounding modes for a positive
    divisor: floor, ceiling and half-up. *)

Definition floor_div (p d : Z) : Z := p / d.
Definition ceil_div (p d : Z) : Z := - (- p / d).
Definition half_up_div (p d : Z) : Z := (p + d / 2) / d.

Lemma floor_div_bounds p d : 0 < d -> floor_div p d * d <= p < (floor_div p d + 1) * d.
Proof.
  intros Hd. unfold floor_div.
  pose proof (Z.mul_div_le p d Hd). pose proof (Z.mul_succ_div_gt p d Hd). lia.
Qed.

Lemma ceil_div_bounds p d : 0 < d -> (ceil_div p d - 1) * d < p <= ceil_div p d * d.
Proof.
  intros Hd. unfold ceil_div.
  pose proof (Z.mul_div_le (- p) d Hd). pose proof (Z.mul_succ_div_gt (- p) d Hd). lia.
Qed.

(** Half-up keeps the result within half a divisor of the exact value. *)
Lemma half_up_div_bounds p d :
  0 < d -> (2 * half_up_div p d - 1) * d <= 2 * p < (2 * half_up_div p d + 1) * d + 1.
Proof.
  intros Hd. unfold half_up_div.
  pose proof (Z.mul_div_le (p + d / 2) d Hd).
  pose proof (Z.mul_succ_div_gt (p + d / 2) d Hd).
  pose proof (Z.div_mod d 2 ltac:(lia)). pose proof (Z.mod_pos_bound d 2 ltac:(lia)). lia.
Qed.

Lemma floor_div_le_iff p d n : 0 < d -> n <= floor_div p d <-> n * d <= p.
Proof.
  intros Hd. pose proof (floor_div_bounds p d Hd). split; intros H1; nia.
Qed.

Lemma ceil_div_le_iff p d n : 0 < d -> ceil_div p d <= n <-> p <= n * d.
Proof.
  intros Hd. pose proof (ceil_div_bounds p d Hd). split; intros H1; nia.
Qed.

Lemma half_up_div_le_iff p d n :
  0 < d -> half_up_div p d <= n <-> p + d / 2 < (n + 1) * d.
Proof.
  intros Hd. unfold half_up_div. split; intros H.
  - pose proof (Z.mul_succ_div_gt (p + d / 2) d Hd). nia.
  - apply Z.lt_succ_r. apply Z.div_lt_upper_bound; lia.
Qed.

Lemma half_up_div_ge_iff p d n :
  0 < d -> n <= half_up_div p d <-> n * d <= p + d / 2.
Proof.
  intros Hd. unfold half_up_div. split; intros H.
  - pose proof (Z.mul_div_le (p + d / 2) d Hd). nia.
  - apply Z.div_le_lower_bound; lia.
Qed.

Lemma floor_div_mono p q d : 0 < d -> p <= q -> floor_div p d <= floor_div q d.
Proof. intros. by apply Z.div_le_mono. Qed.

Lemma ceil_div_mono p q d : 0 < d -> p <= q -> ceil_div p d <= ceil_div q d.
Proof.
  intros. unfold ceil_div. apply Z.opp_le_mono. rewrite !Z.opp_involutive.
  apply Z.div_le_mono; lia.
Qed.

Lemma half_up_div_mono p q d : 0 < d -> p <= q -> half_up_div p d <= half_up_div q d.
Proof. intros. apply Z.div_le_mono; lia. Qed.

Lemma floor_le_half_up p d : 0 < d -> floor_div p d <= half_up_div p d.
Proof.
  intros. apply Z.div_le_mono; [done|].
  assert (0 <= d / 2) by (apply Z.div_pos; lia). lia.
Qed.

Lemma half_up_le_ceil p d : 0 < d -> half_up_div p d <= ceil_div p d.
Proof.
  intros Hd. apply half_up_div_le_iff; [done|].
  pose proof (ceil_div_bounds p d Hd).
  assert (d / 2 < d) by (apply Z.div_lt; lia). nia.
Qed.

Lemma half_up_div_add p n d : 0 < d -> half_up_div (p + n * d) d = half_up_div p d + n.
Proof.
  intros Hd. unfold half_up_div.
  replace (p + n * d + d / 2) with (p + d / 2 + n * d) by lia.
  apply Z.div_add. lia.
Qed.

Lemma floor_div_nonneg p d : 0 < d -> 0 <= p -> 0 <= floor_div p d.
Proof. intros. by apply Z.div_pos. Qed.

Lemma ceil_div_nonneg p d : 0 < d -> 0 <= p -> 0 <= ceil_div p d.
Proof. intros Hd Hp. pose proof (ceil_div_bounds p d Hd). nia. Qed.

Lemma half_up_div_nonneg p d : 0 < d -> 0 <= p -> 0 <= half_up_div p d.
Proof.
  intros. apply Z.div_pos; [|done].
  assert (0 <= d / 2) by (apply Z.div_pos; lia). lia.
Qed.

(** ** Sums over lists *)

Definition zsum {A : Type} (f : A -> Z) (l : list A) : Z := foldr (fun x n => f x + n) 0 l.

Lemma zsum_app {A} (f : A -> Z) l1 l2 : zsum f (l1 ++ l2) = zsum f l1 + zsum f l2.
Proof. induction l1 as [|x l1 IH]; simpl; [done|]. rewrite IH. lia. Qed.

Lemma zsum_zero {A} (f : A -> Z) l : (forall x, x ∈ l -> f x = 0) -> zsum f l = 0.
Proof.
  induction l as [|x l IH]; simpl; intros H; [done|].
  rewrite H by apply list_elem_of_here. rewrite IH; [done|].
  intros y Hy. apply H. by apply list_elem_of_further.
Qed.

Lemma zsum_nonneg {A} (f : A -> Z) l : Forall (fun x => 0 <= f x) l -> 0 <= zsum f l.
Proof. induction 1; simpl; lia. Qed.

Lemma zsum_insert {A} (f : A -> Z) l i x y :
  l !! i = Some x -> zsum f (<[i := y]> l) = zsum f l - f x + f y.
Proof.
  revert i. induction l as [|z l IH]; intros [|i] H; simpl in *; try done.
  - injection H as ->. lia.
  - rewrite (IH i H). lia.
Qed.

Lemma zsum_delete {A} (f : A -> Z) l i x :
  l !! i = Some x -> zsum f (delete i l) = zsum f l - f x.
Proof.
  revert i. induction l as [|z l IH]; intros [|i] H; simpl in *; try done.
  - injection H as ->. lia.
  - rewrite (IH i H). lia.
Qed.

(** The lemmas above as hints for the common side conditions. *)
Create HintDb fp discriminated.
#[export] Hint Resolve floor_div_nonneg ceil_div_nonneg half_up_div_nonneg : fp.
#[export] Hint Resolve floor_div_mono ceil_div_mono half_up_div_mono : fp.
#[export] Hint Resolve floor_le_half_up half_up_le_ceil : fp.
#[export] Hint Resolve Z.mul_nonneg_nonneg Z.add_nonneg_nonneg : fp.
#[export] Hint Extern 5 (_ < _) => lia : fp.
#[export] Hint Extern 5 (_ <= _) => lia : fp.
