(* ===== verification/Errors.v ===== *)
(** * Error codes of the protocol (common/src/errors.rs)

    The six [contracterror] enums with their constructors, their [u32] codes,
    and the one error type of the model: a protocol error, or a host trap (an
    arithmetic or host failure without a protocol code). *)

From S2P Require Import Prelude.
From stdpp Require Import base list.
From Stdlib Require Import ZArith Lia.

Open Scope Z_scope.

Inductive GenericError : Type :=
| AssetNotSupported
| AssetAlreadySupported
| InvalidTicker
| PoolAlreadyDeployed
| InvalidAsset
| AssetsAreTheSame
| WrongToken
| InvalidWasmHash
| InvalidExchangeSrc
| PairNotActive
| AccountNotInMarket
| AmountMustBePositive
| InvalidPayments
| NotSmartContract
| AccountNotFound
| AccountModeMismatch
| AggregatorNotSet
| PositionLimitsNotSet
| PoolNotInitialized
| OwnerNotSet
| MathOverflow
| InternalError
| InvalidPositionLimits
| SpotOnlyNotProductionSafe
| InvalidTimelockDelay
| TimelockOperationExpired
| InvalidRole
| BlendPoolNotApproved
| HubNotActive
| NotAuthorized
| RegistryCapReached
| OperationNotCancellable
| BorrowRoundsToZeroShares
| CannotRemoveLastProposer
| WithdrawRoundsToZeroShares
| NetSettleRoundsToZeroShares
| SupplyRoundsToZeroShares
| RepayRoundsToZeroShares
| PositionNftNotSet
| PositionNftAlreadyDeployed
| DivisionByZero.

Inductive CollateralError : Type :=
| InsufficientCollateral
| HealthFactorTooHigh
| HealthFactorTooLow
| NotCollateral
| AssetNotBorrowable
| PositionLimitExceeded
| PositionNotFound
| InvalidPositionMode
| InsufficientLiquidity
| InvalidLiqThreshold
| CannotCleanBadDebt
| WithdrawLessThanFee
| InvalidBorrowParams
| InvalidUtilRange
| OptUtilTooHigh
| InvalidReserveFactor
| DebtPositionNotFound
| CollateralPositionNotFound
| CannotCloseWithRemainingDebt
| PoolInsolvent
| MinBorrowCollateralNotMet
| UtilizationAboveMax
| BaseRateNegative
| SlopeNonMonotonic
| MaxRateBelowBase
| MaxBorrowRateTooHigh
| AssetDecimalsTooHigh
| SelfLiquidationNotAllowed
| InvalidLiquidationCurve
| FullCloseRequired.

Inductive OracleError : Type :=
| InvalidAggregator
| InvalidOracleTokenType
| UnsafePriceNotAllowed
| PriceFeedStale
| BadLastTolerance
| NoLastPrice
| NoAccumulator
| ReflectorHistoryEmpty
| OracleNotConfigured
| InvalidPrice
| InvalidStalenessConfig
| TwapInsufficientObservations
| InvalidOracleBase
| InvalidOracleDecimals
| InvalidOracleResolution
| SanityBoundViolated
| InvalidSanityBounds
| OracleCycleDetected
| SanityBandTooWideForSingleSource
| SanityBandMustTighten
| TwapRecordsOutOfRange
| OracleDepthExceeded
| FactorOutOfBounds
| SourceCountOutOfRange
| IndependenceNotDeclared
| UnsupportedAquariusPool
| InsufficientAquariusLiquidity
| UnsupportedCurvePool
| InsufficientCurveLiquidity.

Inductive SpokeError : Type :=
| SpokeNotFound
| SpokeDeprecated
| AssetNotInSpoke
| AssetAlreadyInSpoke
| SpokeAssetInUse
| SpokeMismatch
| SpokeSupplyCapReached
| SpokeBorrowCapReached
| SpokeAssetPaused
| SpokeAssetFrozen
| SpokeAssetFlagRelaxation
| SpokeAssetSeizureHalted
| SpokeFlagsEpochMismatch
| SpokeAssetFlagsUnchanged.

Inductive FlashLoanError : Type :=
| FlashLoanOngoing
| FlashloanNotEnabled
| InvalidFlashloanRepay
| StrategyFeeExceeds
| InvalidFlashloanReceiver.

Inductive StrategyError : Type :=
| ConvertStepsRequired
| RouterOverspend
| NoSwapOutput
| CollateralRequired
| CollateralMinimumNotMet
| FlashPositionClosed.

Definition GenericError_code (e : GenericError) : Z :=
  match e with
  | AssetNotSupported => 1
  | AssetAlreadySupported => 2
  | InvalidTicker => 3
  | PoolAlreadyDeployed => 5
  | InvalidAsset => 6
  | AssetsAreTheSame => 7
  | WrongToken => 8
  | InvalidWasmHash => 10
  | InvalidExchangeSrc => 11
  | PairNotActive => 12
  | AccountNotInMarket => 13
  | AmountMustBePositive => 14
  | InvalidPayments => 16
  | NotSmartContract => 18
  | AccountNotFound => 24
  | AccountModeMismatch => 25
  | AggregatorNotSet => 27
  | PositionLimitsNotSet => 29
  | PoolNotInitialized => 30
  | OwnerNotSet => 32
  | MathOverflow => 33
  | InternalError => 34
  | InvalidPositionLimits => 36
  | SpotOnlyNotProductionSafe => 38
  | InvalidTimelockDelay => 39
  | TimelockOperationExpired => 40
  | InvalidRole => 41
  | BlendPoolNotApproved => 42
  | HubNotActive => 43
  | NotAuthorized => 44
  | RegistryCapReached => 45
  | OperationNotCancellable => 46
  | BorrowRoundsToZeroShares => 47
  | CannotRemoveLastProposer => 48
  | WithdrawRoundsToZeroShares => 49
  | NetSettleRoundsToZeroShares => 50
  | SupplyRoundsToZeroShares => 51
  | RepayRoundsToZeroShares => 52
  | PositionNftNotSet => 53
  | PositionNftAlreadyDeployed => 54
  | DivisionByZero => 55
  end.

Definition CollateralError_code (e : CollateralError) : Z :=
  match e with
  | InsufficientCollateral => 100
  | HealthFactorTooHigh => 101
  | HealthFactorTooLow => 102
  | NotCollateral => 104
  | AssetNotBorrowable => 107
  | PositionLimitExceeded => 109
  | PositionNotFound => 110
  | InvalidPositionMode => 111
  | InsufficientLiquidity => 112
  | InvalidLiqThreshold => 113
  | CannotCleanBadDebt => 114
  | WithdrawLessThanFee => 115
  | InvalidBorrowParams => 116
  | InvalidUtilRange => 117
  | OptUtilTooHigh => 118
  | InvalidReserveFactor => 119
  | DebtPositionNotFound => 120
  | CollateralPositionNotFound => 121
  | CannotCloseWithRemainingDebt => 122
  | PoolInsolvent => 123
  | MinBorrowCollateralNotMet => 126
  | UtilizationAboveMax => 127
  | BaseRateNegative => 128
  | SlopeNonMonotonic => 129
  | MaxRateBelowBase => 130
  | MaxBorrowRateTooHigh => 131
  | AssetDecimalsTooHigh => 132
  | SelfLiquidationNotAllowed => 133
  | InvalidLiquidationCurve => 134
  | FullCloseRequired => 135
  end.

Definition OracleError_code (e : OracleError) : Z :=
  match e with
  | InvalidAggregator => 201
  | InvalidOracleTokenType => 204
  | UnsafePriceNotAllowed => 205
  | PriceFeedStale => 206
  | BadLastTolerance => 208
  | NoLastPrice => 210
  | NoAccumulator => 211
  | ReflectorHistoryEmpty => 212
  | OracleNotConfigured => 216
  | InvalidPrice => 217
  | InvalidStalenessConfig => 218
  | TwapInsufficientObservations => 219
  | InvalidOracleBase => 220
  | InvalidOracleDecimals => 221
  | InvalidOracleResolution => 222
  | SanityBoundViolated => 223
  | InvalidSanityBounds => 224
  | OracleCycleDetected => 225
  | SanityBandTooWideForSingleSource => 226
  | SanityBandMustTighten => 227
  | TwapRecordsOutOfRange => 228
  | OracleDepthExceeded => 229
  | FactorOutOfBounds => 230
  | SourceCountOutOfRange => 231
  | IndependenceNotDeclared => 232
  | UnsupportedAquariusPool => 234
  | InsufficientAquariusLiquidity => 235
  | UnsupportedCurvePool => 236
  | InsufficientCurveLiquidity => 237
  end.

Definition SpokeError_code (e : SpokeError) : Z :=
  match e with
  | SpokeNotFound => 300
  | SpokeDeprecated => 301
  | AssetNotInSpoke => 307
  | AssetAlreadyInSpoke => 308
  | SpokeAssetInUse => 309
  | SpokeMismatch => 310
  | SpokeSupplyCapReached => 311
  | SpokeBorrowCapReached => 312
  | SpokeAssetPaused => 315
  | SpokeAssetFrozen => 316
  | SpokeAssetFlagRelaxation => 317
  | SpokeAssetSeizureHalted => 318
  | SpokeFlagsEpochMismatch => 319
  | SpokeAssetFlagsUnchanged => 320
  end.

Definition FlashLoanError_code (e : FlashLoanError) : Z :=
  match e with
  | FlashLoanOngoing => 400
  | FlashloanNotEnabled => 401
  | InvalidFlashloanRepay => 402
  | StrategyFeeExceeds => 409
  | InvalidFlashloanReceiver => 412
  end.

Definition StrategyError_code (e : StrategyError) : Z :=
  match e with
  | ConvertStepsRequired => 500
  | RouterOverspend => 501
  | NoSwapOutput => 502
  | CollateralRequired => 503
  | CollateralMinimumNotMet => 504
  | FlashPositionClosed => 505
  end.

(** [HostTrap] is a failure with no protocol code: an [overflow-checks] trap,
    a host [I256] overflow, or a failed call into another contract. *)
Inductive Error : Type :=
| EGeneric (e : GenericError)
| ECollateral (e : CollateralError)
| EOracle (e : OracleError)
| ESpoke (e : SpokeError)
| EFlashLoan (e : FlashLoanError)
| EStrategy (e : StrategyError)
| HostTrap.

Definition error_code (e : Error) : option Z :=
  match e with
  | EGeneric e => Some (GenericError_code e)
  | ECollateral e => Some (CollateralError_code e)
  | EOracle e => Some (OracleError_code e)
  | ESpoke e => Some (SpokeError_code e)
  | EFlashLoan e => Some (FlashLoanError_code e)
  | EStrategy e => Some (StrategyError_code e)
  | HostTrap => None
  end.

Abbreviation res := (result Error).

Definition MathOverflow_ {A} : res A := Err (EGeneric MathOverflow).

#[export] Instance GenericError_eq_dec : EqDecision GenericError.
Proof. solve_decision. Defined.
#[export] Instance CollateralError_eq_dec : EqDecision CollateralError.
Proof. solve_decision. Defined.
#[export] Instance OracleError_eq_dec : EqDecision OracleError.
Proof. solve_decision. Defined.
#[export] Instance SpokeError_eq_dec : EqDecision SpokeError.
Proof. solve_decision. Defined.
#[export] Instance FlashLoanError_eq_dec : EqDecision FlashLoanError.
Proof. solve_decision. Defined.
#[export] Instance StrategyError_eq_dec : EqDecision StrategyError.
Proof. solve_decision. Defined.
#[export] Instance Error_eq_dec : EqDecision Error.
Proof. solve_decision. Defined.
