(* ===== verification/FpCore.v ===== *)
(** * Raw fixed-point arithmetic (common/src/math/fp_core.rs)

    Every multiply-divide tries the computation in [i128] and widens to [I256]
    when the product does not fit.  The definitions follow both paths; the
    theorems show each routine equal to its one-line mathematical reference on
    every [i128] input, overflow behaviour included, so the fast path is never
    observable. *)

From S2P Require Import Prelude Errors.
From stdpp Require Import base numbers option.
From Stdlib Require Import ZArith Lia Bool.

Open Scope Z_scope.

Module FpCore.

(** ** Host [I256] arithmetic

    Add, sub and mul trap when the result leaves 256 bits; division truncates;
    [rem_euclid] is non-negative. *)

Definition i256 (z : Z) : res Z := if in_i256 z then Ok z else Err HostTrap.
Definition i256_mul (a b : Z) : res Z := i256 (a * b).
Definition i256_add (a b : Z) : res Z := i256 (a + b).
Definition i256_sub (a b : Z) : res Z := i256 (a - b).
Definition i256_div (a b : Z) : res Z :=
  if b =? 0 then Err HostTrap else i256 (Z.quot a b).
Definition i256_rem_euclid (a b : Z) : res Z :=
  if b =? 0 then Err HostTrap else Ok (a mod Z.abs b).
Definition i256_to_i128 (z : Z) : option Z := i128_checked z.

(** ** The routines *)

Definition require_nonzero_divisor (d : Z) : res unit :=
  if d =? 0 then Err (EGeneric DivisionByZero) else Ok tt.

Definition quotient_is_negative (x y d : Z) : bool :=
  if (x =? 0) || (y =? 0) then false
  else xorb (xorb (x <? 0) (y <? 0)) (d <? 0).

Definition quotient_is_nonnegative (x y d : Z) : bool :=
  negb (quotient_is_negative x y d).

Definition div_floor_i128 (p d : Z) : option Z :=
  match i128_checked_div p d with
  | None => None
  | Some quotient =>
      if negb (Z.rem p d =? 0) && xorb (p <? 0) (d <? 0)
      then i128_checked_sub quotient 1
      else Some quotient
  end.

Definition div_ceil_i128 (p d : Z) : option Z :=
  match i128_checked_div p d with
  | None => None
  | Some quotient =>
      if negb (Z.rem p d =? 0) && Bool.eqb (p <? 0) (d <? 0)
      then i128_checked_add quotient 1
      else Some quotient
  end.

Definition div_floor_i256 (p d : Z) (nonneg : bool) : res Z :=
  if nonneg then i256_div p d
  else
    let* quotient := i256_div p d in
    let* rem := i256_rem_euclid p d in
    if negb (rem =? 0) && xorb (p <? 0) (d <? 0)
    then i256_sub quotient 1
    else Ok quotient.

Definition div_ceil_i256 (p d : Z) (nonneg : bool) : res Z :=
  let* quotient := i256_div p d in
  let* rem := i256_rem_euclid p d in
  let remainder_is_nonzero := negb (rem =? 0) in
  let round_up :=
    if nonneg then remainder_is_nonzero
    else remainder_is_nonzero && Bool.eqb (p <? 0) (d <? 0) in
  if round_up then i256_add quotient 1 else Ok quotient.

Definition to_i128 (z : Z) : res Z := of_option (EGeneric MathOverflow) (i256_to_i128 z).

(** [try_mul_div_half_up]: the outer [res] carries host traps of the widened
    path, the inner option is the function's own result. *)
Definition try_mul_div_half_up (x y d : Z) : res (option Z) :=
  if (x <? 0) || (y <? 0) || (d <=? 0) then Ok None
  else
    let half := Z.quot d 2 in
    match (match i128_checked_mul x y with
           | Some product => i128_checked_add product half
           | None => None
           end) with
    | Some biased => Ok (Some (Z.quot biased d))
    | None =>
        let* product := i256_mul x y in
        let* biased := i256_add product half in
        let* quotient := i256_div biased d in
        Ok (i256_to_i128 quotient)
    end.

(** Release builds drop the [debug_assert]; the check order is the source's. *)
Definition mul_div_half_up (x y d : Z) : res Z :=
  do! require_nonzero_divisor d in
  let* r := try_mul_div_half_up x y d in
  of_option (EGeneric MathOverflow) r.

Definition mul_div_floor (x y d : Z) : res Z :=
  do! require_nonzero_divisor d in
  match (match i128_checked_mul x y with
         | Some product => div_floor_i128 product d
         | None => None
         end) with
  | Some quotient => Ok quotient
  | None =>
      let* product := i256_mul x y in
      let* quotient := div_floor_i256 product d (quotient_is_nonnegative x y d) in
      to_i128 quotient
  end.

Definition mul_div_ceil (x y d : Z) : res Z :=
  do! require_nonzero_divisor d in
  match (match i128_checked_mul x y with
         | Some product => div_ceil_i128 product d
         | None => None
         end) with
  | Some quotient => Ok quotient
  | None =>
      let* product := i256_mul x y in
      let* quotient := div_ceil_i256 product d (quotient_is_nonnegative x y d) in
      to_i128 quotient
  end.

Definition mul_div_floor_saturating (x y d : Z) : res Z :=
  do! require_nonzero_divisor d in
  match (match i128_checked_mul x y with
         | Some product => div_floor_i128 product d
         | None => None
         end) with
  | Some quotient => Ok quotient
  | None =>
      let* product := i256_mul x y in
      let* quotient := div_floor_i256 product d (quotient_is_nonnegative x y d) in
      match i256_to_i128 quotient with
      | Some q => Ok q
      | None => Ok (if quotient_is_negative x y d then i128_min else i128_max)
      end
  end.

Definition div_by_int_half_up (a b : Z) : res Z :=
  do! require_nonzero_divisor b in
  if b <? 0 then Err (EGeneric MathOverflow)
  else
    let quotient := Z.quot a b in
    let remainder := Z.rem a b in
    let half := Z.quot b 2 + Z.rem b 2 in
    if half <=? remainder then of_option HostTrap (i128_checked_add quotient 1)
    else if remainder <=? - half then of_option HostTrap (i128_checked_sub quotient 1)
    else Ok quotient.

Definition rescale (a from_decimals to_decimals : Z)
    (round_down : Z -> option Z -> res Z) : res Z :=
  if from_decimals =? to_decimals then Ok a
  else
    let factor := i128_checked_pow 10 (Z.abs (to_decimals - from_decimals)) in
    if from_decimals <? to_decimals then
      of_option (EGeneric MathOverflow)
        (match factor with
         | Some f => i128_checked_mul a f
         | None => None
         end)
    else round_down a factor.

Definition rescale_half_up (a from_decimals to_decimals : Z) : res Z :=
  rescale a from_decimals to_decimals (fun a factor =>
    match factor with
    | None => Ok 0
    | Some factor => div_by_int_half_up a factor
    end).

Definition rescale_floor (a from_decimals to_decimals : Z) : res Z :=
  rescale a from_decimals to_decimals (fun a factor =>
    match factor with
    | None => Ok 0
    | Some factor => Ok (Z.quot a factor)
    end).

Definition rescale_ceil (a from_decimals to_decimals : Z) : res Z :=
  rescale a from_decimals to_decimals (fun a factor =>
    match factor with
    | None => Ok (if 0 <? a then 1 else 0)
    | Some factor =>
        let quotient := Z.quot a factor in
        if (0 <=? a) && negb (Z.rem a factor =? 0)
        then of_option HostTrap (i128_checked_add quotient 1)
        else Ok quotient
    end).

(** ** Truncated division against floor and ceiling *)

Lemma rem_facts p d :
  d <> 0 ->
  p = d * Z.quot p d + Z.rem p d /\ Z.abs (Z.rem p d) < Z.abs d
  /\ (0 <= p -> 0 <= Z.rem p d) /\ (p <= 0 -> Z.rem p d <= 0).
Proof.
  intros Hd. repeat split.
  - by apply Z.quot_rem.
  - by apply Z.rem_bound_abs.
  - intros. by apply Z.rem_nonneg.
  - intros. by apply Z.rem_nonpos.
Qed.

Lemma quot_floor p d :
  d <> 0 ->
  p / d = if negb (Z.rem p d =? 0) && xorb (p <? 0) (d <? 0)
          then Z.quot p d - 1 else Z.quot p d.
Proof.
  intros Hd. destruct (rem_facts p d Hd) as (Hqr & Hb & Hp & Hn). symmetry.
  destruct (Z.rem p d =? 0) eqn:E1, (p <? 0) eqn:E2, (d <? 0) eqn:E3;
    simpl; b2p;
    first [ apply (Z.div_unique p d _ (Z.rem p d)); lia
          | apply (Z.div_unique p d _ (Z.rem p d + d)); lia ].
Qed.

Lemma quot_ceil p d :
  d <> 0 ->
  ceil_div p d = if negb (Z.rem p d =? 0) && Bool.eqb (p <? 0) (d <? 0)
                 then Z.quot p d + 1 else Z.quot p d.
Proof.
  intros Hd. destruct (rem_facts p d Hd) as (Hqr & Hb & Hp & Hn).
  unfold ceil_div. symmetry. apply Z.eq_opp_r.
  destruct (Z.rem p d =? 0) eqn:E1, (p <? 0) eqn:E2, (d <? 0) eqn:E3;
    simpl; b2p;
    first [ apply (Z.div_unique (- p) d _ (- Z.rem p d)); lia
          | apply (Z.div_unique (- p) d _ (- Z.rem p d + d)); lia ].
Qed.

(** The Euclidean remainder vanishes exactly when the truncated one does. *)
Lemma rem_euclid_zero p d : d <> 0 -> (p mod Z.abs d =? 0) = (Z.rem p d =? 0).
Proof.
  intros Hd. apply eq_bool_prop_intro. rewrite !Is_true_true, !Z.eqb_eq.
  rewrite Z.mod_divide, Z.divide_abs_l, Z.rem_divide by lia. done.
Qed.

(** The sign test of the source decides the sign of the exact quotient. *)
Lemma quotient_sign x y d :
  d <> 0 ->
  quotient_is_negative x y d = xorb (x * y <? 0) (d <? 0) && negb (x * y =? 0).
Proof.
  intros Hd. unfold quotient_is_negative.
  destruct (Z.eqb_spec x 0) as [->|Hx]; [by rewrite andb_false_r|].
  destruct (Z.eqb_spec y 0) as [->|Hy]; [rewrite Z.mul_0_r; by rewrite andb_false_r|].
  simpl. assert ((x * y =? 0) = false) as -> by (apply Z.eqb_neq; nia).
  rewrite andb_true_r. f_equal.
  destruct (Z.ltb_spec x 0), (Z.ltb_spec y 0), (Z.ltb_spec (x * y) 0); simpl; nia.
Qed.

Lemma quotient_trunc x y d :
  d <> 0 -> quotient_is_nonnegative x y d = true -> Z.quot (x * y) d = x * y / d.
Proof.
  unfold quotient_is_nonnegative. intros Hd. rewrite quotient_sign, quot_floor by done.
  destruct (Z.eqb_spec (x * y) 0) as [->|].
  - rewrite Z.rem_0_l by done. done.
  - destruct (xorb _ _); simpl; [done|]. by rewrite andb_false_r.
Qed.

(** ** Both paths of each routine *)

Lemma quot_abs_le p d : d <> 0 -> Z.abs (Z.quot p d) <= Z.abs p.
Proof.
  intros Hd. rewrite <- Z.quot_abs by done.
  rewrite Z.quot_div_nonneg by lia. apply Z.div_le_upper_bound; nia.
Qed.

Lemma div_floor_i128_spec p d : d <> 0 -> div_floor_i128 p d = i128_checked (p / d).
Proof.
  intros Hd. unfold div_floor_i128, i128_checked_div, i128_checked_sub.
  rewrite (quot_floor p d Hd). destruct (Z.eqb_spec d 0) as [|_]; [done|].
  destruct (rem_facts p d Hd) as (Hqr & Hb & Hp & Hn).
  destruct (_ && _)%bool eqn:Hc; [|by destruct (i128_checked _)].
  assert (Z.quot p d <= 0).
  { apply andb_true_iff in Hc as [_ Hc].
    destruct (p <? 0) eqn:E1, (d <? 0) eqn:E2; try discriminate Hc; b2p; nia. }
  destruct (i128_checked (Z.quot p d)) as [q|] eqn:E.
  - apply i128_checked_Some in E as [-> _]. done.
  - symmetry. apply i128_checked_None. apply i128_checked_None in E.
    unfold i128_min, i128_max in *. lia.
Qed.

Lemma div_ceil_i128_spec p d : d <> 0 -> div_ceil_i128 p d = i128_checked (ceil_div p d).
Proof.
  intros Hd. unfold div_ceil_i128, i128_checked_div, i128_checked_add.
  rewrite (quot_ceil p d Hd). destruct (Z.eqb_spec d 0) as [|_]; [done|].
  destruct (rem_facts p d Hd) as (Hqr & Hb & Hp & Hn).
  destruct (_ && _)%bool eqn:Hc; [|by destruct (i128_checked _)].
  assert (0 <= Z.quot p d).
  { apply andb_true_iff in Hc as [_ Hc].
    destruct (p <? 0) eqn:E1, (d <? 0) eqn:E2; try discriminate Hc; b2p; nia. }
  destruct (i128_checked (Z.quot p d)) as [q|] eqn:E.
  - apply i128_checked_Some in E as [-> _]. done.
  - symmetry. apply i128_checked_None. apply i128_checked_None in E.
    unfold i128_min, i128_max in *. lia.
Qed.

Lemma i256_in z : Z.abs z <= 2 ^ 254 -> i256 z = Ok z.
Proof.
  intros H. unfold i256.
  assert (in_i256 z = true) as ->; [|done].
  apply in_i256_spec. unfold i256_min, i256_max. lia.
Qed.

(** [I256] intermediate values of [i128] operands stay far from the trap. *)
Lemma i256_mul_i128 x y :
  is_i128 x -> is_i128 y -> i256_mul x y = Ok (x * y) /\ Z.abs (x * y) <= 2 ^ 254.
Proof.
  intros Hx Hy.
  assert (Z.abs (x * y) <= 2 ^ 254).
  { rewrite Z.abs_mul. change (2 ^ 254) with (2 ^ 127 * 2 ^ 127).
    apply Z.mul_le_mono_nonneg; unfold i128_min, i128_max in *; lia. }
  split; [by apply i256_in|done].
Qed.

Lemma i256_div_in p d : d <> 0 -> Z.abs p <= 2 ^ 254 -> i256_div p d = Ok (Z.quot p d).
Proof.
  intros Hd Hp. unfold i256_div. destruct (Z.eqb_spec d 0) as [|_]; [done|].
  apply i256_in. pose proof (quot_abs_le p d Hd). lia.
Qed.

Lemma i256_step_in p d k :
  d <> 0 -> Z.abs p <= 2 ^ 254 -> Z.abs k <= 1 -> i256 (Z.quot p d + k) = Ok (Z.quot p d + k).
Proof.
  intros Hd Hp Hk. pose proof (quot_abs_le p d Hd). unfold i256.
  assert (in_i256 (Z.quot p d + k) = true) as ->; [|done].
  apply in_i256_spec. unfold i256_min, i256_max. lia.
Qed.

Lemma div_floor_i256_spec p d nonneg :
  d <> 0 -> Z.abs p <= 2 ^ 254 -> (nonneg = true -> Z.quot p d = p / d) ->
  div_floor_i256 p d nonneg = Ok (p / d).
Proof.
  intros Hd Hp Hn. unfold div_floor_i256, i256_rem_euclid.
  rewrite !i256_div_in by done. destruct nonneg; [by rewrite Hn|]. simpl.
  destruct (Z.eqb_spec d 0) as [|_]; [done|]. simpl.
  rewrite rem_euclid_zero, (quot_floor p d Hd) by done.
  destruct (_ && _)%bool; [|done]. by apply (i256_step_in p d (-1)).
Qed.

Lemma div_ceil_i256_spec p d nonneg :
  d <> 0 -> Z.abs p <= 2 ^ 254 ->
  (nonneg = true -> negb (Z.rem p d =? 0) = true -> Bool.eqb (p <? 0) (d <? 0) = true) ->
  div_ceil_i256 p d nonneg = Ok (ceil_div p d).
Proof.
  intros Hd Hp Hn. unfold div_ceil_i256, i256_rem_euclid.
  rewrite !i256_div_in by done. simpl.
  destruct (Z.eqb_spec d 0) as [|_]; [done|]. simpl.
  rewrite rem_euclid_zero, (quot_ceil p d Hd) by done.
  destruct (Z.rem p d =? 0) eqn:Er; simpl in *; [by destruct nonneg|].
  destruct nonneg; [rewrite Hn by done|destruct (Bool.eqb _ _); [|done]];
    by apply (i256_step_in p d 1).
Qed.

(** ** Equivalence of the two-path routines with their references *)

Definition checked_or_overflow (z : Z) : res Z :=
  of_option (EGeneric MathOverflow) (i128_checked z).

Lemma mul_div_floor_ref x y d :
  is_i128 x -> is_i128 y -> is_i128 d ->
  mul_div_floor x y d =
    if d =? 0 then Err (EGeneric DivisionByZero) else checked_or_overflow (x * y / d).
Proof.
  intros Hx Hy Hd. unfold mul_div_floor, require_nonzero_divisor, checked_or_overflow.
  destruct (Z.eqb_spec d 0) as [|Hd0]; [done|]. simpl.
  destruct (i256_mul_i128 x y Hx Hy) as [-> Hp]. simpl.
  rewrite (div_floor_i256_spec _ d) by (done || by apply quotient_trunc). simpl.
  unfold i128_checked_mul. destruct (i128_checked (x * y)) as [p|] eqn:Ep; [|done].
  apply i128_checked_Some in Ep as [-> _]. rewrite div_floor_i128_spec by done.
  unfold to_i128, i256_to_i128. by destruct (i128_checked _).
Qed.

Lemma mul_div_ceil_ref x y d :
  is_i128 x -> is_i128 y -> is_i128 d ->
  mul_div_ceil x y d =
    if d =? 0 then Err (EGeneric DivisionByZero)
    else checked_or_overflow (ceil_div (x * y) d).
Proof.
  intros Hx Hy Hd. unfold mul_div_ceil, require_nonzero_divisor, checked_or_overflow.
  destruct (Z.eqb_spec d 0) as [|Hd0]; [done|]. simpl.
  destruct (i256_mul_i128 x y Hx Hy) as [-> Hp]. simpl.
  rewrite (div_ceil_i256_spec _ d); [|done|done|].
  2:{ unfold quotient_is_nonnegative. rewrite quotient_sign by done.
      destruct (Z.eqb_spec (x * y) 0) as [->|]; [by rewrite Z.rem_0_l|].
      rewrite andb_true_r. by destruct (x * y <? 0), (d <? 0). }
  simpl. unfold i128_checked_mul. destruct (i128_checked (x * y)) as [p|] eqn:Ep; [|done].
  apply i128_checked_Some in Ep as [-> _]. rewrite div_ceil_i128_spec by done.
  unfold to_i128, i256_to_i128. by destruct (i128_checked _).
Qed.

Lemma try_mul_div_half_up_ref x y d :
  is_i128 x -> is_i128 y -> is_i128 d ->
  try_mul_div_half_up x y d =
    Ok (if (x <? 0) || (y <? 0) || (d <=? 0) then None
        else i128_checked (half_up_div (x * y) d)).
Proof.
  intros Hx Hy Hd. unfold try_mul_div_half_up.
  destruct (_ || _)%bool eqn:Hc; [done|]. b2p.
  destruct (i256_mul_i128 x y Hx Hy) as [-> Hp].
  assert (Z.quot d 2 = d / 2) as -> by (apply Z.quot_div_nonneg; lia).
  assert (0 <= d / 2 <= i128_max).
  { split; [apply Z.div_pos; lia|]. pose proof (Z.div_le_upper_bound d 2 i128_max). lia. }
  assert (0 <= x * y) by (apply Z.mul_nonneg_nonneg; lia).
  assert (in_i256 (x * y + d / 2) = true) as Hin.
  { apply in_i256_spec. unfold i256_min, i256_max, i128_max in *. lia. }
  assert (Z.quot (x * y + d / 2) d = half_up_div (x * y) d) as Hq
    by (apply Z.quot_div_nonneg; lia).
  assert (0 <= half_up_div (x * y) d) by (apply half_up_div_nonneg; lia).
  assert (half_up_div (x * y) d <= x * y + d / 2)
    by (apply Z.div_le_upper_bound; nia).
  unfold i128_checked_mul, i128_checked_add, i256_add, i256_div.
  destruct (Z.eqb_spec d 0) as [|_]; [lia|].
  destruct (i128_checked (x * y)) as [p|] eqn:Ep.
  1: apply i128_checked_Some in Ep as [-> _];
     destruct (i128_checked (x * y + d / 2)) as [b|] eqn:Eb.
  1: { apply i128_checked_Some in Eb as [-> Hb]. rewrite Hq.
       rewrite i128_checked_in; [done|]. unfold i128_min in *. lia. }
  all: unfold i256 at 1; cbn [rbind]; rewrite Hin; cbn [rbind]; rewrite Hq; unfold i256;
    assert (in_i256 (half_up_div (x * y) d) = true) as ->
      by (apply in_i256_spec; apply in_i256_spec in Hin; unfold i256_min in *; lia); done.
Qed.

Lemma mul_div_half_up_ref x y d :
  is_i128 x -> is_i128 y -> is_i128 d ->
  mul_div_half_up x y d =
    if d =? 0 then Err (EGeneric DivisionByZero)
    else if (x <? 0) || (y <? 0) || (d <? 0) then Err (EGeneric MathOverflow)
    else checked_or_overflow (half_up_div (x * y) d).
Proof.
  intros Hx Hy Hd. unfold mul_div_half_up, require_nonzero_divisor, checked_or_overflow.
  destruct (Z.eqb_spec d 0) as [|Hd0]; [done|]. cbn [rbind].
  rewrite try_mul_div_half_up_ref by done.
  assert ((d <=? 0) = (d <? 0)) as -> by lia.
  by destruct (_ || _)%bool.
Qed.

(** Floor division clamped to the [i128] range. *)
Definition clamp_i128 (z : Z) : Z := Z.max i128_min (Z.min i128_max z).

Lemma quotient_negative_spec x y d :
  d <> 0 -> quotient_is_negative x y d = true <-> x * y / d < 0.
Proof.
  intros Hd. rewrite quotient_sign by done.
  destruct (Z.eqb_spec (x * y) 0) as [->|Hn].
  { rewrite Z.div_0_l, andb_false_r by done. split; [done|lia]. }
  rewrite andb_true_r.
  destruct (Z.ltb_spec (x * y) 0), (Z.ltb_spec d 0); simpl; (split; [intros H'|done || intros H']);
    try discriminate H'; try lia.
  - pose proof (Z.div_pos (- (x * y)) (- d)). rewrite Z.div_opp_opp in * by lia. lia.
  - apply Z.div_lt_upper_bound; lia.
  - rewrite <- Z.div_opp_opp by lia. apply Z.div_lt_upper_bound; lia.
  - pose proof (Z.div_pos (x * y) d). lia.
Qed.

Lemma mul_div_floor_saturating_ref x y d :
  is_i128 x -> is_i128 y -> is_i128 d ->
  mul_div_floor_saturating x y d =
    if d =? 0 then Err (EGeneric DivisionByZero) else Ok (clamp_i128 (x * y / d)).
Proof.
  intros Hx Hy Hd. unfold mul_div_floor_saturating, require_nonzero_divisor.
  destruct (Z.eqb_spec d 0) as [|Hd0]; [done|]. cbn [rbind].
  destruct (i256_mul_i128 x y Hx Hy) as [-> Hp]. cbn [rbind].
  rewrite (div_floor_i256_spec _ d) by (done || by apply quotient_trunc). cbn [rbind].
  assert (forall q, i128_checked (x * y / d) = Some q -> q = clamp_i128 (x * y / d)) as Hin.
  { intros q [-> Hq]%i128_checked_Some. unfold clamp_i128. lia. }
  assert (i128_checked (x * y / d) = None ->
          (if quotient_is_negative x y d then i128_min else i128_max)
          = clamp_i128 (x * y / d)) as Hout.
  { intros Hq%i128_checked_None. pose proof (quotient_negative_spec x y d Hd0).
    unfold clamp_i128, i128_min, i128_max in *.
    destruct (quotient_is_negative x y d).
    - assert (x * y / d < 0) by by apply H. lia.
    - assert (~ x * y / d < 0) by (intros ?%H; done). lia. }
  unfold i128_checked_mul, i256_to_i128.
  destruct (i128_checked (x * y)) as [p|] eqn:Ep.
  1: apply i128_checked_Some in Ep as [-> _]; rewrite div_floor_i128_spec by done.
  all: destruct (i128_checked (x * y / d)) as [q|] eqn:Eq;
    f_equal; first [by apply Hin | by apply Hout].
Qed.

(** ** What a successful call returned

    Inversion lemmas: no range hypothesis on the operands, because a call that
    returned did not trap. *)

Lemma require_nonzero_Ok d u : require_nonzero_divisor d = Ok u -> d <> 0.
Proof. unfold require_nonzero_divisor. destruct (Z.eqb_spec d 0); done. Qed.

Lemma i256_Ok z v : i256 z = Ok v -> v = z.
Proof. unfold i256. destruct (in_i256 z); congruence. Qed.

Lemma to_i128_Ok z v : to_i128 z = Ok v -> v = z /\ is_i128 v.
Proof.
  unfold to_i128. rewrite of_option_Ok. unfold i256_to_i128.
  rewrite i128_checked_Some. intros [-> H]. done.
Qed.

Lemma div_floor_i256_Ok p d nonneg q :
  d <> 0 -> (nonneg = true -> Z.quot p d = p / d) ->
  div_floor_i256 p d nonneg = Ok q -> q = p / d.
Proof.
  intros Hd Hn. unfold div_floor_i256, i256_div, i256_rem_euclid, i256_sub.
  destruct (Z.eqb_spec d 0) as [|_]; [done|].
  destruct nonneg; [intros H%i256_Ok; rewrite H; by apply Hn|].
  intros H. ok_inv H. apply i256_Ok in Hv as ->.
  rewrite rem_euclid_zero in H by done. rewrite (quot_floor p d Hd).
  destruct (_ && _)%bool; [by apply i256_Ok in H|congruence].
Qed.

Lemma div_ceil_i256_Ok p d nonneg q :
  d <> 0 ->
  (nonneg = true -> negb (Z.rem p d =? 0) = true -> Bool.eqb (p <? 0) (d <? 0) = true) ->
  div_ceil_i256 p d nonneg = Ok q -> q = ceil_div p d.
Proof.
  intros Hd Hn. unfold div_ceil_i256, i256_div, i256_rem_euclid, i256_add.
  destruct (Z.eqb_spec d 0) as [|_]; [done|].
  intros H. ok_inv H. apply i256_Ok in Hv as ->.
  rewrite rem_euclid_zero in H by done. rewrite (quot_ceil p d Hd).
  destruct (Z.rem p d =? 0) eqn:Er; simpl in *.
  - destruct nonneg; congruence.
  - destruct nonneg; [rewrite Hn by done; by apply i256_Ok in H|].
    destruct (Bool.eqb _ _); [by apply i256_Ok in H|congruence].
Qed.

Lemma mul_div_floor_Ok x y d q :
  mul_div_floor x y d = Ok q -> d <> 0 /\ q = floor_div (x * y) d /\ is_i128 q.
Proof.
  unfold mul_div_floor, floor_div. intros H.
  apply rbind_Ok in H as (u & Hd%require_nonzero_Ok & H).
  unfold i128_checked_mul in H.
  destruct (match i128_checked (x * y) with Some _ => _ | None => _ end) as [q'|] eqn:Ef.
  - destruct (i128_checked (x * y)) as [p|] eqn:Ep; [|done].
    apply i128_checked_Some in Ep as [-> _].
    rewrite div_floor_i128_spec in Ef by done.
    apply i128_checked_Some in Ef as [-> Hr]. injection H as <-. done.
  - ok_inv H. apply i256_Ok in Hv as ->. apply to_i128_Ok in H as [-> Hr].
    apply div_floor_i256_Ok in Hv0; [subst; done|done|by apply quotient_trunc].
Qed.

Lemma mul_div_ceil_Ok x y d q :
  mul_div_ceil x y d = Ok q -> d <> 0 /\ q = ceil_div (x * y) d /\ is_i128 q.
Proof.
  unfold mul_div_ceil. intros H.
  apply rbind_Ok in H as (u & Hd%require_nonzero_Ok & H).
  unfold i128_checked_mul in H.
  destruct (match i128_checked (x * y) with Some _ => _ | None => _ end) as [q'|] eqn:Ef.
  - destruct (i128_checked (x * y)) as [p|] eqn:Ep; [|done].
    apply i128_checked_Some in Ep as [-> _].
    rewrite div_ceil_i128_spec in Ef by done.
    apply i128_checked_Some in Ef as [-> Hr]. injection H as <-. done.
  - ok_inv H. apply i256_Ok in Hv as ->. apply to_i128_Ok in H as [-> Hr].
    apply div_ceil_i256_Ok in Hv0; [subst; done|done|].
    unfold quotient_is_nonnegative. rewrite quotient_sign by done.
    destruct (Z.eqb_spec (x * y) 0) as [->|]; [by rewrite Z.rem_0_l|].
    rewrite andb_true_r. by destruct (x * y <? 0), (d <? 0).
Qed.

Lemma mul_div_half_up_Ok x y d q :
  mul_div_half_up x y d = Ok q ->
  0 <= x /\ 0 <= y /\ 0 < d /\ q = half_up_div (x * y) d /\ 0 <= q <= i128_max.
Proof.
  unfold mul_div_half_up. intros H.
  apply rbind_Ok in H as (u & Hd%require_nonzero_Ok & H). ok_inv H. subst v.
  unfold try_mul_div_half_up in Hv.
  destruct (_ || _)%bool eqn:Hc; [congruence|]. b2p.
  assert (Z.quot d 2 = d / 2) as Hh by (apply Z.quot_div_nonneg; lia).
  rewrite Hh in Hv.
  assert (0 <= d / 2) by (apply Z.div_pos; lia).
  assert (0 <= x * y) by (apply Z.mul_nonneg_nonneg; lia).
  assert (Z.quot (x * y + d / 2) d = half_up_div (x * y) d) as Hq
    by (apply Z.quot_div_nonneg; lia).
  assert (0 <= half_up_div (x * y) d) by (apply half_up_div_nonneg; lia).
  assert (half_up_div (x * y) d <= x * y + d / 2) by (apply Z.div_le_upper_bound; nia).
  cut (q = half_up_div (x * y) d /\ q <= i128_max); [intros [-> ?]; lia|].
  unfold i128_checked_mul, i128_checked_add in Hv.
  destruct (match i128_checked (x * y) with Some _ => _ | None => _ end) as [b|] eqn:Ef.
  - destruct (i128_checked (x * y)) as [p|] eqn:Ep; [|done].
    apply i128_checked_Some in Ep as [-> _]. apply i128_checked_Some in Ef as [-> Hr].
    rewrite Hq in Hv. injection Hv as <-. lia.
  - ok_inv Hv. apply i256_Ok in Hv0 as ->. apply i256_Ok in Hv1 as ->.
    unfold i256_div in Hv2. destruct (d =? 0); [done|]. apply i256_Ok in Hv2 as ->.
    rewrite Hq in Hv. apply i128_checked_Some in Hv as [-> Hr]. lia.
Qed.

Lemma mul_div_floor_saturating_Ok x y d q :
  mul_div_floor_saturating x y d = Ok q ->
  d <> 0 /\ q = clamp_i128 (floor_div (x * y) d).
Proof.
  unfold mul_div_floor_saturating, floor_div. intros H.
  apply rbind_Ok in H as (u & Hd%require_nonzero_Ok & H). split; [done|].
  assert (forall v, i128_checked (x * y / d) = Some v -> v = clamp_i128 (x * y / d)) as Hin.
  { intros v [-> Hq]%i128_checked_Some. unfold clamp_i128. lia. }
  unfold i128_checked_mul in H.
  destruct (match i128_checked (x * y) with Some _ => _ | None => _ end) as [q'|] eqn:Ef.
  - destruct (i128_checked (x * y)) as [p|] eqn:Ep; [|done].
    apply i128_checked_Some in Ep as [-> _].
    rewrite div_floor_i128_spec in Ef by done. injection H as <-. by apply Hin.
  - ok_inv H. apply i256_Ok in Hv as ->.
    apply div_floor_i256_Ok in Hv0; [subst|done|by apply quotient_trunc].
    destruct (i256_to_i128 _) as [w|] eqn:Ew; [injection H as <-; by apply Hin|].
    apply i128_checked_None in Ew. injection H as <-.
    pose proof (quotient_negative_spec x y d Hd) as Hs.
    unfold clamp_i128, i128_min, i128_max in *.
    destruct (quotient_is_negative x y d).
    + assert (x * y / d < 0) by by apply Hs. lia.
    + assert (~ x * y / d < 0) by (intros ?%Hs; done). lia.
Qed.

(** Enough for a call to return: operands and result in range. *)
Lemma mul_div_half_up_total x y d :
  0 <= x <= i128_max -> 0 <= y <= i128_max -> 0 < d <= i128_max ->
  half_up_div (x * y) d <= i128_max ->
  mul_div_half_up x y d = Ok (half_up_div (x * y) d).
Proof.
  intros Hx Hy Hd Hr. assert (i128_min <= 0) by zconst.
  rewrite mul_div_half_up_ref by lia. unfold checked_or_overflow.
  destruct (Z.eqb_spec d 0), (Z.ltb_spec x 0), (Z.ltb_spec y 0), (Z.ltb_spec d 0);
    try lia; simpl.
  rewrite i128_checked_in; [done|].
  pose proof (half_up_div_nonneg (x * y) d). nia.
Qed.

Lemma mul_div_floor_total x y d :
  0 <= x <= i128_max -> 0 <= y <= i128_max -> 0 < d <= i128_max ->
  floor_div (x * y) d <= i128_max ->
  mul_div_floor x y d = Ok (floor_div (x * y) d).
Proof.
  intros Hx Hy Hd Hr. assert (i128_min <= 0) by zconst.
  rewrite mul_div_floor_ref by lia. unfold checked_or_overflow.
  destruct (Z.eqb_spec d 0); [lia|]. fold (floor_div (x * y) d).
  rewrite i128_checked_in; [done|].
  pose proof (floor_div_nonneg (x * y) d). nia.
Qed.

Lemma mul_div_ceil_total x y d :
  0 <= x <= i128_max -> 0 <= y <= i128_max -> 0 < d <= i128_max ->
  ceil_div (x * y) d <= i128_max ->
  mul_div_ceil x y d = Ok (ceil_div (x * y) d).
Proof.
  intros Hx Hy Hd Hr. assert (i128_min <= 0) by zconst.
  rewrite mul_div_ceil_ref by lia. unfold checked_or_overflow.
  destruct (Z.eqb_spec d 0); [lia|].
  rewrite i128_checked_in; [done|].
  pose proof (ceil_div_nonneg (x * y) d). nia.
Qed.

Lemma mul_div_floor_saturating_total x y d :
  0 <= x <= i128_max -> 0 <= y <= i128_max -> 0 < d <= i128_max ->
  mul_div_floor_saturating x y d = Ok (Z.min i128_max (floor_div (x * y) d)).
Proof.
  intros Hx Hy Hd. assert (i128_min <= 0) by zconst.
  rewrite mul_div_floor_saturating_ref by lia.
  destruct (Z.eqb_spec d 0); [lia|]. f_equal. unfold clamp_i128, floor_div.
  pose proof (Z.div_pos (x * y) d). nia.
Qed.

(** ** Division by an integer and rescaling *)

(** Nearest integer, exact halves away from zero. *)
Definition half_away_div (a b : Z) : Z :=
  if 0 <=? a then half_up_div a b else - half_up_div (- a) b.

Lemma half_up_div_unique p d q r :
  0 < d -> p = d * q + r -> - (d / 2) <= r -> r < d - d / 2 -> half_up_div p d = q.
Proof.
  intros Hd Hp Hl Hu. unfold half_up_div. symmetry.
  apply (Z.div_unique_pos _ d q (r + d / 2)); lia.
Qed.

Lemma div_by_int_half_up_value a b :
  0 < b ->
  half_away_div a b =
    let quotient := Z.quot a b in
    let remainder := Z.rem a b in
    let half := Z.quot b 2 + Z.rem b 2 in
    if half <=? remainder then quotient + 1
    else if remainder <=? - half then quotient - 1 else quotient.
Proof.
  intros Hb. destruct (rem_facts a b) as (Hqr & Hab & Hp & Hn); [lia|].
  assert (Z.quot b 2 + Z.rem b 2 = b - b / 2) as Hh.
  { rewrite Z.quot_div_nonneg, Z.rem_mod_nonneg by lia.
    pose proof (Z.div_mod b 2). lia. }
  cbv zeta. rewrite Hh. unfold half_away_div.
  pose proof (Z.div_mod b 2). pose proof (Z.mod_pos_bound b 2).
  destruct (Z.leb_spec 0 a).
  - destruct (Z.leb_spec (b - b / 2) (Z.rem a b)).
    + apply (half_up_div_unique _ _ _ (Z.rem a b - b)); lia.
    + destruct (Z.leb_spec (Z.rem a b) (- (b - b / 2))); [lia|].
      apply (half_up_div_unique _ _ _ (Z.rem a b)); lia.
  - destruct (Z.leb_spec (b - b / 2) (Z.rem a b)); [lia|].
    apply Z.eq_opp_l.
    destruct (Z.leb_spec (Z.rem a b) (- (b - b / 2))).
    + rewrite (half_up_div_unique _ _ (- (Z.quot a b - 1)) (- Z.rem a b - b)); lia.
    + rewrite (half_up_div_unique _ _ (- Z.quot a b) (- Z.rem a b)); lia.
Qed.

Lemma half_away_div_bound a b :
  0 < b -> (0 <= a -> 0 <= half_away_div a b <= a) /\ (a <= 0 -> a <= half_away_div a b <= 0).
Proof.
  intros Hb. unfold half_away_div.
  assert (forall p, 0 <= p -> 0 <= half_up_div p b <= p) as Hp.
  { intros p Hp. split; [by apply half_up_div_nonneg|].
    apply half_up_div_le_iff; [done|].
    assert (b / 2 < b) by (apply Z.div_lt; lia). nia. }
  destruct (Z.leb_spec 0 a) as [Ha|Ha].
  - specialize (Hp a Ha). lia.
  - specialize (Hp (- a)). lia.
Qed.

Lemma half_away_div_i128 a b : 0 < b -> is_i128 a -> is_i128 (half_away_div a b).
Proof.
  intros Hb Ha. destruct (half_away_div_bound a b Hb).
  destruct (Z.le_ge_cases 0 a); unfold i128_min, i128_max in *; lia.
Qed.

Lemma div_by_int_half_up_ref a b :
  is_i128 a -> is_i128 b ->
  div_by_int_half_up a b =
    if b =? 0 then Err (EGeneric DivisionByZero)
    else if b <? 0 then Err (EGeneric MathOverflow)
    else Ok (half_away_div a b).
Proof.
  intros Ha Hb. unfold div_by_int_half_up, require_nonzero_divisor.
  destruct (Z.eqb_spec b 0); [done|]. cbn [rbind].
  destruct (Z.ltb_spec b 0); [done|].
  pose proof (half_away_div_i128 a b ltac:(lia) Ha) as Hr.
  rewrite div_by_int_half_up_value in * by lia. cbv zeta in *.
  unfold i128_checked_add, i128_checked_sub.
  repeat case_match; try done; by rewrite i128_checked_in.
Qed.

Lemma div_by_int_half_up_Ok a b q :
  div_by_int_half_up a b = Ok q -> 0 < b /\ q = half_away_div a b.
Proof.
  unfold div_by_int_half_up. intros H.
  apply rbind_Ok in H as (u & Hb%require_nonzero_Ok & H).
  destruct (Z.ltb_spec b 0); [done|]. split; [lia|].
  rewrite div_by_int_half_up_value by lia. cbv zeta.
  unfold i128_checked_add, i128_checked_sub in H.
  repeat case_match; ok_inv H; try done; by apply i128_checked_Some in H as [-> _].
Qed.

(** Reference of the three rescalings: exact upscale, or a rounded quotient by
    the power of ten. *)
Definition rescale_ref (round : Z -> Z -> Z) (a from_decimals to_decimals : Z) : res Z :=
  if from_decimals =? to_decimals then Ok a
  else if from_decimals <? to_decimals then
    let factor := 10 ^ (to_decimals - from_decimals) in
    if in_i128 factor then checked_or_overflow (a * factor) else MathOverflow_
  else Ok (round a (10 ^ (from_decimals - to_decimals))).

(** Truncation with a round up of positive remainders only, as [rescale_ceil]
    documents: a negative value truncates toward zero. *)
Definition ceil_toward_zero (a d : Z) : Z := if 0 <=? a then ceil_div a d else Z.quot a d.

Lemma pow10_pos n : 0 <= n -> 0 < 10 ^ n.
Proof. intros. apply Z.pow_pos_nonneg; lia. Qed.

Lemma pow10_big n : 0 <= n -> ~ is_i128 (10 ^ n) -> 4 * i128_max < 10 ^ n.
Proof.
  intros Hn Hb. pose proof (pow10_pos n Hn).
  destruct (Z.le_gt_cases n 38) as [H1|H1].
  - exfalso. apply Hb. pose proof (Z.pow_le_mono_r 10 n 38).
    assert (10 ^ 38 <= i128_max) by zconst. unfold i128_min. lia.
  - pose proof (Z.pow_le_mono_r 10 39 n).
    assert (4 * i128_max < 10 ^ 39) by zconst. lia.
Qed.

Lemma rescale_matches_ref round rd a f t :
  is_i128 a ->
  (forall d, 0 < d -> is_i128 d -> rd a (Some d) = Ok (round a d)) ->
  (forall d, 4 * i128_max < d -> rd a None = Ok (round a d)) ->
  rescale a f t rd = rescale_ref round a f t.
Proof.
  intros Ha Hs Hn. unfold rescale, rescale_ref, i128_checked_pow, MathOverflow_.
  destruct (Z.eqb_spec f t); [done|]. destruct (Z.ltb_spec f t).
  - rewrite Z.abs_eq by lia. cbv zeta. unfold i128_checked at 1.
    by destruct (in_i128 _).
  - rewrite Z.abs_neq, Z.opp_sub_distr by lia.
    replace (- t + f) with (f - t) by lia.
    destruct (i128_checked (10 ^ (f - t))) as [d|] eqn:Ed.
    + apply i128_checked_Some in Ed as [-> Hd]. apply Hs; [apply pow10_pos; lia|done].
    + apply i128_checked_None in Ed. apply Hn. apply pow10_big; [lia|done].
Qed.

Lemma rescale_half_up_ref a f t :
  is_i128 a -> rescale_half_up a f t = rescale_ref half_away_div a f t.
Proof.
  intros Ha. apply rescale_matches_ref; [done| |].
  - intros d Hd Hr. rewrite div_by_int_half_up_ref by done.
    destruct (Z.eqb_spec d 0), (Z.ltb_spec d 0); (lia || done).
  - intros d Hd. f_equal. unfold half_away_div.
    assert (forall p, 0 <= p <= i128_max + 1 -> half_up_div p d = 0) as Hz.
    { intros p Hp. apply (half_up_div_unique _ _ _ p); unfold i128_max in *; try lia.
      - pose proof (Z.div_pos d 2). lia.
      - pose proof (Z.div_mod d 2). pose proof (Z.mod_pos_bound d 2). lia. }
    destruct (Z.leb_spec 0 a); rewrite Hz; unfold i128_min, i128_max in *; lia.
Qed.

Lemma rescale_floor_ref a f t :
  is_i128 a -> rescale_floor a f t = rescale_ref Z.quot a f t.
Proof.
  intros Ha. apply rescale_matches_ref; [done|done|].
  intros d Hd. f_equal. symmetry. apply Z.quot_small_iff; [unfold i128_max in Hd; lia|].
  unfold i128_min, i128_max in *. lia.
Qed.

Lemma rescale_ceil_ref a f t :
  is_i128 a -> rescale_ceil a f t = rescale_ref ceil_toward_zero a f t.
Proof.
  intros Ha. apply rescale_matches_ref; [done| |].
  - intros d Hd Hr. unfold ceil_toward_zero. rewrite quot_ceil by lia.
    pose proof (quot_abs_le a d).
    destruct (Z.leb_spec 0 a); simpl; [|done].
    assert ((a <? 0) = false) as -> by lia. assert ((d <? 0) = false) as -> by lia.
    simpl. rewrite andb_true_r. destruct (Z.rem a d =? 0) eqn:Er; simpl; [done|].
    unfold i128_checked_add. rewrite i128_checked_in; [done|]. b2p.
    destruct (rem_facts a d) as (Hqr & Hb & Hp & Hn); [lia|].
    unfold i128_min, i128_max in *. nia.
  - intros d Hd. unfold ceil_toward_zero. f_equal.
    destruct (Z.ltb_spec 0 a), (Z.leb_spec 0 a); try lia.
    + unfold ceil_div. symmetry. apply Z.eq_opp_l.
      symmetry. apply (Z.div_unique_pos _ d _ (d - a)); unfold i128_max in *; lia.
    + assert (a = 0) as -> by lia. unfold ceil_div. by rewrite Z.div_0_l by (unfold i128_max in *; lia).
    + symmetry. apply Z.quot_small_iff; unfold i128_min, i128_max in *; lia.
Qed.

End FpCore.
