(* ===== verification/Fp.v ===== *)
(** * Protocol constants and the fixed-point newtypes
    (common/src/constants, common/src/math/fp.rs)

    [Ray], [Wad] and [Bps] are [i128] values at 27, 18 and 4 decimals.  The
    newtypes are erased: each is an abbreviation of [Z], with the operations of
    its [impl] block in a module of the same name. *)

From S2P Require Import Prelude Errors FpCore.
From stdpp Require Import base numbers option.
From Stdlib Require Import ZArith Lia Bool.

Open Scope Z_scope.

(** ** Constants *)

Definition RAY : Z := 1000000000000000000000000000.
Definition WAD : Z := 1000000000000000000.
Definition BPS : Z := 10000.
Definition RAY_DECIMALS : Z := 27.
Definition WAD_DECIMALS : Z := 18.
Definition MIN_BORROWABLE_ASSET_DECIMALS : Z := 3.
Definition MIN_WHOLE_UNIT_COLLATERAL : Z := 2.
Definition MAX_ASSET_DECIMALS : Z := 18.
Definition MILLISECONDS_PER_YEAR : Z := 31556926000.
Definition MAX_REASONABLE_PRICE_WAD : Z := 1000000000 * WAD.
Definition MAX_LIQUIDATION_TARGET_HF_WAD : Z := 10 * WAD.
Definition MAX_FLASHLOAN_FEE_BPS : Z := 500.
Definition MIN_TOLERANCE : Z := 150.
Definition MAX_TOLERANCE : Z := 2500.
Definition MIN_SANITY_BAND_BPS : Z := 50.
Definition MS_PER_SECOND : Z := 1000.

Definition SUPPLY_INDEX_FLOOR_RAW : Z := RAY / 1000.
Definition MAX_BORROW_RATE_RAY : Z := 2 * RAY.
Definition LIQUIDATION_BUFFER_BPS : Z := 200.
Definition MAX_BORROW_INDEX_RAY : Z := 1000000000000000000000000000000000000.
Definition MAX_SUPPLY_INDEX_RAY : Z := MAX_BORROW_INDEX_RAY.

Abbreviation Ray := Z (only parsing).
Abbreviation Wad := Z (only parsing).
Abbreviation Bps := Z (only parsing).

Definition checked_add_raw (a b : Z) : res Z :=
  of_option (EGeneric MathOverflow) (i128_checked_add a b).

Definition checked_sub_nonneg (a b : Z) : res Z :=
  if (a <? 0) || (b <? 0) || (a <? b) then Err (EGeneric MathOverflow) else Ok (a - b).

(** ** [impl Ray] *)

Module Ray.

Definition ONE : Ray := RAY.
Definition ZERO : Ray := 0.
Definition mul (a b : Ray) : res Ray := FpCore.mul_div_half_up a b RAY.
Definition div (a b : Ray) : res Ray := FpCore.mul_div_half_up a RAY b.
Definition div_floor (a b : Ray) : res Ray := FpCore.mul_div_floor a RAY b.
Definition div_ceil (a b : Ray) : res Ray := FpCore.mul_div_ceil a RAY b.
Definition div_by_int (a : Ray) (n : Z) : res Ray := FpCore.div_by_int_half_up a n.
Definition mul_floor (a b : Ray) : res Ray := FpCore.mul_div_floor a b RAY.
Definition mul_ceil (a b : Ray) : res Ray := FpCore.mul_div_ceil a b RAY.
Definition mul_ratio_ceil (a : Ray) (numerator denominator : Z) : res Ray :=
  FpCore.mul_div_ceil a numerator denominator.
Definition to_wad (a : Ray) : res Wad := FpCore.rescale_half_up a RAY_DECIMALS WAD_DECIMALS.
Definition to_wad_floor (a : Ray) : res Wad := FpCore.rescale_floor a RAY_DECIMALS WAD_DECIMALS.
Definition to_wad_ceil (a : Ray) : res Wad := FpCore.rescale_ceil a RAY_DECIMALS WAD_DECIMALS.
Definition to_asset (a : Ray) (asset_decimals : Z) : res Z :=
  FpCore.rescale_half_up a RAY_DECIMALS asset_decimals.
Definition to_asset_floor (a : Ray) (asset_decimals : Z) : res Z :=
  FpCore.rescale_floor a RAY_DECIMALS asset_decimals.
Definition to_asset_ceil (a : Ray) (asset_decimals : Z) : res Z :=
  FpCore.rescale_ceil a RAY_DECIMALS asset_decimals.
Definition from_fraction (numerator denominator : Z) : res Ray :=
  FpCore.mul_div_half_up numerator RAY denominator.
Definition from_asset (amount asset_decimals : Z) : res Ray :=
  FpCore.rescale_half_up amount asset_decimals RAY_DECIMALS.
Definition checked_sub (a b : Ray) : res Ray := checked_sub_nonneg a b.
Definition checked_add (a b : Ray) : res Ray := checked_add_raw a b.

End Ray.

(** ** [impl Wad] *)

Module Wad.

Definition ONE : Wad := WAD.
Definition ZERO : Wad := 0.
Definition mul (a b : Wad) : res Wad := FpCore.mul_div_half_up a b WAD.
Definition try_mul (a b : Wad) : res (option Wad) := FpCore.try_mul_div_half_up a b WAD.
Definition div (a b : Wad) : res Wad := FpCore.mul_div_half_up a WAD b.
Definition div_floor (a b : Wad) : res Wad := FpCore.mul_div_floor a WAD b.
Definition div_floor_saturating (a b : Wad) : res Wad :=
  FpCore.mul_div_floor_saturating a WAD b.
Definition mul_floor (a b : Wad) : res Wad := FpCore.mul_div_floor a b WAD.
Definition mul_ceil (a b : Wad) : res Wad := FpCore.mul_div_ceil a b WAD.
Definition from_token (amount decimals : Z) : res Wad :=
  FpCore.rescale_half_up amount decimals WAD_DECIMALS.
Definition to_token (a : Wad) (decimals : Z) : res Z :=
  FpCore.rescale_half_up a WAD_DECIMALS decimals.
Definition to_token_floor (a : Wad) (decimals : Z) : res Z :=
  FpCore.rescale_floor a WAD_DECIMALS decimals.
Definition to_ray (a : Wad) : res Ray := FpCore.rescale_half_up a WAD_DECIMALS RAY_DECIMALS.
Definition checked_add (a b : Wad) : res Wad := checked_add_raw a b.
Definition checked_sub (a b : Wad) : res Wad := checked_sub_nonneg a b.

End Wad.

(** ** [impl Bps] *)

Module Bps.

Definition ONE : Bps := BPS.
Definition to_wad (b : Bps) : res Wad := FpCore.mul_div_half_up b WAD BPS.
Definition apply_to (b : Bps) (amount : Z) : res Z := FpCore.mul_div_half_up amount b BPS.
Definition flash_loan_fee_on (b : Bps) (amount : Z) : res Z :=
  let* fee_amount := apply_to b amount in
  Ok (if (0 <? b) && (fee_amount =? 0) then 1 else fee_amount).
Definition apply_to_wad (b : Bps) (value : Wad) : res Wad :=
  let* ratio := to_wad b in Wad.mul value ratio.
Definition apply_to_wad_floor (b : Bps) (value : Wad) : res Wad :=
  let* ratio := to_wad b in Wad.mul_floor value ratio.
Definition apply_to_ray (b : Bps) (value : Ray) : res Ray :=
  FpCore.mul_div_half_up value b BPS.
Definition checked_add (a b : Bps) : res Bps := checked_add_raw a b.
Definition checked_sub (a b : Bps) : res Bps := checked_sub_nonneg a b.

End Bps.

(** ** Inversion of successful calls *)

Lemma RAY_pos : 0 < RAY. Proof. zconst. Qed.
Lemma WAD_pos : 0 < WAD. Proof. zconst. Qed.
Lemma BPS_pos : 0 < BPS. Proof. zconst. Qed.
#[export] Hint Resolve RAY_pos WAD_pos BPS_pos : fp.

Lemma checked_add_Ok a b r : checked_add_raw a b = Ok r -> r = a + b /\ is_i128 r.
Proof.
  unfold checked_add_raw, i128_checked_add. rewrite of_option_Ok, i128_checked_Some.
  intros [-> ?]. done.
Qed.

Lemma checked_sub_Ok a b r : checked_sub_nonneg a b = Ok r -> r = a - b /\ 0 <= b <= a.
Proof. unfold checked_sub_nonneg. case_match eqn:E; [done|]. intros [= <-]. b2p. lia. Qed.

Lemma checked_sub_total a b : 0 <= b <= a -> checked_sub_nonneg a b = Ok (a - b).
Proof.
  intros. unfold checked_sub_nonneg.
  destruct (Z.ltb_spec a 0), (Z.ltb_spec b 0), (Z.ltb_spec a b); (done || lia).
Qed.

Lemma checked_add_total a b : is_i128 (a + b) -> checked_add_raw a b = Ok (a + b).
Proof. intros. unfold checked_add_raw, i128_checked_add. by rewrite i128_checked_in. Qed.

(** [fp_inv] replaces every [op = Ok r] of the context, [op] an operation of
    this file, by what the result is. *)
Ltac fp_unfold H :=
  cbv [Ray.mul Ray.div Ray.div_floor Ray.div_ceil Ray.div_by_int Ray.mul_floor
       Ray.mul_ceil Ray.mul_ratio_ceil Ray.from_fraction Ray.checked_sub Ray.checked_add
       Wad.mul Wad.div Wad.div_floor Wad.div_floor_saturating Wad.mul_floor Wad.mul_ceil
       Wad.checked_add Wad.checked_sub
       Bps.to_wad Bps.apply_to Bps.apply_to_ray Bps.checked_add Bps.checked_sub] in H.

Ltac fp_inv1 H :=
  fp_unfold H;
  lazymatch type of H with
  | FpCore.mul_div_half_up _ _ _ = Ok _ =>
      apply FpCore.mul_div_half_up_Ok in H as (? & ? & ? & ? & ?)
  | FpCore.mul_div_floor _ _ _ = Ok _ => apply FpCore.mul_div_floor_Ok in H as (? & ? & ?)
  | FpCore.mul_div_ceil _ _ _ = Ok _ => apply FpCore.mul_div_ceil_Ok in H as (? & ? & ?)
  | FpCore.mul_div_floor_saturating _ _ _ = Ok _ =>
      apply FpCore.mul_div_floor_saturating_Ok in H as (? & ?)
  | FpCore.div_by_int_half_up _ _ = Ok _ =>
      apply FpCore.div_by_int_half_up_Ok in H as (? & ?)
  | checked_add_raw _ _ = Ok _ => apply checked_add_Ok in H as (? & ?)
  | checked_sub_nonneg _ _ = Ok _ => apply checked_sub_Ok in H as (? & ?)
  end.
Ltac fp_inv := repeat match goal with H : _ = Ok _ |- _ => fp_inv1 H end.

(** ** Token amounts and RAY values

    [unit_of d] is the RAY value of one base unit of a token with [d]
    decimals.  Listed decimals are at most 18 ([MarketParamsRaw::verify]). *)

Definition unit_of (decimals : Z) : Z := 10 ^ (RAY_DECIMALS - decimals).

Abbreviation valid_decimals d := (0 <= d <= WAD_DECIMALS).

Lemma unit_of_range d : valid_decimals d -> 10 ^ 9 <= unit_of d <= RAY.
Proof.
  unfold unit_of, WAD_DECIMALS, RAY_DECIMALS. intros Hd.
  change RAY with (10 ^ 27). split; apply Z.pow_le_mono_r; lia.
Qed.

Lemma unit_of_pos d : valid_decimals d -> 0 < unit_of d.
Proof. intros Hd. pose proof (unit_of_range d Hd). lia. Qed.
#[export] Hint Resolve unit_of_pos : fp.

Lemma unit_of_i128 d : valid_decimals d -> in_i128 (unit_of d) = true.
Proof.
  intros Hd. apply in_i128_spec. pose proof (unit_of_range d Hd).
  assert (RAY <= i128_max) by zconst. assert (i128_min <= 0) by zconst. lia.
Qed.

Lemma from_asset_eq a d :
  is_i128 a -> valid_decimals d ->
  Ray.from_asset a d = FpCore.checked_or_overflow (a * unit_of d).
Proof.
  intros Ha Hd. unfold Ray.from_asset. rewrite FpCore.rescale_half_up_ref by done.
  unfold FpCore.rescale_ref. fold (unit_of d). cbv zeta.
  rewrite unit_of_i128 by done. unfold WAD_DECIMALS, RAY_DECIMALS in *.
  destruct (Z.eqb_spec d 27), (Z.ltb_spec d 27); (lia || done).
Qed.

Lemma from_asset_Ok a d r :
  valid_decimals d -> Ray.from_asset a d = Ok r -> r = a * unit_of d /\ is_i128 r.
Proof.
  intros Hd H. unfold Ray.from_asset, FpCore.rescale_half_up, FpCore.rescale in H.
  unfold WAD_DECIMALS, RAY_DECIMALS, i128_checked_pow, i128_checked_mul in *.
  destruct (Z.eqb_spec d 27), (Z.ltb_spec d 27); try lia.
  rewrite Z.abs_eq in H by lia.
  destruct (i128_checked (10 ^ (27 - d))) as [f|] eqn:Ef; [|done].
  apply i128_checked_Some in Ef as [-> _]. ok_inv H.
  by apply i128_checked_Some in H as [-> ?].
Qed.

Lemma to_asset_floor_eq a d :
  is_i128 a -> valid_decimals d -> Ray.to_asset_floor a d = Ok (Z.quot a (unit_of d)).
Proof.
  intros Ha Hd. unfold Ray.to_asset_floor. rewrite FpCore.rescale_floor_ref by done.
  unfold FpCore.rescale_ref, WAD_DECIMALS, RAY_DECIMALS in *.
  destruct (Z.eqb_spec 27 d), (Z.ltb_spec 27 d); (lia || done).
Qed.

Lemma to_asset_ceil_eq a d :
  is_i128 a -> valid_decimals d ->
  Ray.to_asset_ceil a d = Ok (FpCore.ceil_toward_zero a (unit_of d)).
Proof.
  intros Ha Hd. unfold Ray.to_asset_ceil. rewrite FpCore.rescale_ceil_ref by done.
  unfold FpCore.rescale_ref, WAD_DECIMALS, RAY_DECIMALS in *.
  destruct (Z.eqb_spec 27 d), (Z.ltb_spec 27 d); (lia || done).
Qed.

Lemma to_asset_eq a d :
  is_i128 a -> valid_decimals d ->
  Ray.to_asset a d = Ok (FpCore.half_away_div a (unit_of d)).
Proof.
  intros Ha Hd. unfold Ray.to_asset. rewrite FpCore.rescale_half_up_ref by done.
  unfold FpCore.rescale_ref, WAD_DECIMALS, RAY_DECIMALS in *.
  destruct (Z.eqb_spec 27 d), (Z.ltb_spec 27 d); (lia || done).
Qed.

(** Non-negative values: the three conversions are the rounded quotients. *)
Lemma to_asset_floor_nonneg a d :
  0 <= a <= i128_max -> valid_decimals d ->
  Ray.to_asset_floor a d = Ok (floor_div a (unit_of d)).
Proof.
  intros Ha Hd. pose proof (unit_of_pos d Hd). assert (i128_min <= 0) by zconst.
  rewrite to_asset_floor_eq by lia. by rewrite Z.quot_div_nonneg by lia.
Qed.

Lemma to_asset_ceil_nonneg a d :
  0 <= a <= i128_max -> valid_decimals d ->
  Ray.to_asset_ceil a d = Ok (ceil_div a (unit_of d)).
Proof.
  intros Ha Hd. assert (i128_min <= 0) by zconst. rewrite to_asset_ceil_eq by lia.
  unfold FpCore.ceil_toward_zero. by destruct (Z.leb_spec 0 a); [|lia].
Qed.

Lemma to_asset_nonneg a d :
  0 <= a <= i128_max -> valid_decimals d ->
  Ray.to_asset a d = Ok (half_up_div a (unit_of d)).
Proof.
  intros Ha Hd. assert (i128_min <= 0) by zconst. rewrite to_asset_eq by lia.
  unfold FpCore.half_away_div. by destruct (Z.leb_spec 0 a); [|lia].
Qed.

(** ** Token amounts and WAD amounts *)

Definition token_unit (decimals : Z) : Z := 10 ^ (WAD_DECIMALS - decimals).

Lemma token_unit_pos d : valid_decimals d -> 0 < token_unit d.
Proof. unfold token_unit. intros. apply Z.pow_pos_nonneg; lia. Qed.
#[export] Hint Resolve token_unit_pos : fp.

Lemma from_token_Ok a d r :
  valid_decimals d -> Wad.from_token a d = Ok r -> r = a * token_unit d.
Proof.
  intros Hd H. unfold Wad.from_token, FpCore.rescale_half_up, FpCore.rescale in H.
  unfold token_unit, WAD_DECIMALS, i128_checked_pow, i128_checked_mul in *.
  destruct (Z.eqb_spec d 18) as [->|]; [injection H as <-; lia|].
  destruct (Z.ltb_spec d 18); [|lia]. rewrite Z.abs_eq in H by lia.
  destruct (i128_checked (10 ^ (18 - d))) as [f|] eqn:Ef; [|done].
  apply i128_checked_Some in Ef as [-> _]. ok_inv H.
  by apply i128_checked_Some in H as [-> ?].
Qed.

Lemma to_token_floor_Ok a d r :
  0 <= a -> valid_decimals d -> Wad.to_token_floor a d = Ok r ->
  0 <= r /\ r * token_unit d <= a.
Proof.
  intros Ha Hd H. unfold Wad.to_token_floor, FpCore.rescale_floor, FpCore.rescale in H.
  unfold token_unit, WAD_DECIMALS, i128_checked_pow in *.
  destruct (Z.eqb_spec 18 d) as [<-|]; [injection H as <-; simpl; lia|].
  destruct (Z.ltb_spec 18 d); [lia|]. rewrite Z.abs_neq in H by lia.
  replace (- (d - 18)) with (18 - d) in H by lia.
  destruct (i128_checked (10 ^ (18 - d))) as [f|] eqn:Ef; injection H as <-; [|lia].
  apply i128_checked_Some in Ef as [-> _].
  pose proof (Z.pow_pos_nonneg 10 (18 - d) ltac:(lia) ltac:(lia)).
  rewrite Z.quot_div_nonneg by lia.
  pose proof (Z.mul_div_le a (10 ^ (18 - d)) ltac:(lia)).
  pose proof (Z.div_pos a (10 ^ (18 - d)) ltac:(lia) ltac:(lia)). lia.
Qed.
