(* ===== verification/PoolTypes.v ===== *)
(** * Types of the pool (common/src/types/pool.rs, common/src/types/shared.rs)

    Market parameters and state in wire ([Raw]) and typed form, positions,
    requests and results of the pool operations, and the validation of rate
    models. *)

From S2P Require Import Prelude Errors FpCore Fp.
From stdpp Require Import base numbers countable gmap.
From Stdlib Require Import ZArith Lia Bool.

Open Scope Z_scope.

(** Soroban addresses are opaque identifiers with decidable equality. *)
Record Address : Type := mkAddress { address_id : N }.

#[export] Instance Address_eq_dec : EqDecision Address.
Proof. solve_decision. Defined.
#[export] Instance Address_countable : Countable Address :=
  inj_countable' address_id mkAddress ltac:(by intros []).

Record HubAssetKey : Type := mkHubAssetKey { hub_id : Z; asset : Address }.

#[export] Instance HubAssetKey_eq_dec : EqDecision HubAssetKey.
Proof. solve_decision. Defined.
#[export] Instance HubAssetKey_countable : Countable HubAssetKey :=
  inj_countable' (fun k => (hub_id k, asset k)) (fun p => mkHubAssetKey p.1 p.2)
    ltac:(by intros []).

Inductive AccountPositionType : Type := Deposit | Borrow.
Inductive PositionMode : Type := Normal | Multiply | Long | Short.

#[export] Instance AccountPositionType_eq_dec : EqDecision AccountPositionType.
Proof. solve_decision. Defined.

(** ** Market parameters *)

Record InterestRateModel : Type := mkInterestRateModel {
  irm_max_borrow_rate : Z;
  irm_base_borrow_rate : Z;
  irm_slope1 : Z;
  irm_slope2 : Z;
  irm_slope3 : Z;
  irm_mid_utilization : Z;
  irm_optimal_utilization : Z;
  irm_max_utilization : Z;
  irm_reserve_factor : Z;
  irm_is_flashloanable : bool;
  irm_flashloan_fee : Z
}.

Record MarketParamsRaw : Type := mkMarketParamsRaw {
  rp_max_borrow_rate : Z;
  rp_base_borrow_rate : Z;
  rp_slope1 : Z;
  rp_slope2 : Z;
  rp_slope3 : Z;
  rp_mid_utilization : Z;
  rp_optimal_utilization : Z;
  rp_max_utilization : Z;
  rp_reserve_factor : Z;
  rp_is_flashloanable : bool;
  rp_flashloan_fee : Z;
  rp_asset_id : Address;
  rp_asset_decimals : Z
}.

Record MarketParams : Type := mkMarketParams {
  max_borrow_rate : Ray;
  base_borrow_rate : Ray;
  slope1 : Ray;
  slope2 : Ray;
  slope3 : Ray;
  mid_utilization : Ray;
  optimal_utilization : Ray;
  max_utilization : Ray;
  reserve_factor : Bps;
  is_flashloanable : bool;
  flashloan_fee : Z;
  asset_id : Address;
  asset_decimals : Z
}.

Definition rate_model_view (p : MarketParamsRaw) : InterestRateModel :=
  {| irm_max_borrow_rate := rp_max_borrow_rate p;
     irm_base_borrow_rate := rp_base_borrow_rate p;
     irm_slope1 := rp_slope1 p;
     irm_slope2 := rp_slope2 p;
     irm_slope3 := rp_slope3 p;
     irm_mid_utilization := rp_mid_utilization p;
     irm_optimal_utilization := rp_optimal_utilization p;
     irm_max_utilization := rp_max_utilization p;
     irm_reserve_factor := rp_reserve_factor p;
     irm_is_flashloanable := rp_is_flashloanable p;
     irm_flashloan_fee := rp_flashloan_fee p |}.

(** [InterestRateModel::verify] *)
Definition rate_model_verify (m : InterestRateModel) : res unit :=
  do! require (0 <=? irm_base_borrow_rate m) (ECollateral BaseRateNegative) in
  do! (if (irm_slope1 m <? irm_base_borrow_rate m)
          || (irm_slope2 m <? irm_slope1 m)
          || (irm_slope3 m <? irm_slope2 m)
          || (irm_max_borrow_rate m <? irm_slope3 m)
       then Err (ECollateral SlopeNonMonotonic) else Ok tt) in
  do! require (irm_base_borrow_rate m <? irm_max_borrow_rate m)
        (ECollateral MaxRateBelowBase) in
  do! require (irm_max_borrow_rate m <=? MAX_BORROW_RATE_RAY)
        (ECollateral MaxBorrowRateTooHigh) in
  do! require (0 <? irm_mid_utilization m) (ECollateral InvalidUtilRange) in
  do! require (irm_mid_utilization m <? irm_optimal_utilization m)
        (ECollateral InvalidUtilRange) in
  do! require (irm_optimal_utilization m <? RAY) (ECollateral OptUtilTooHigh) in
  do! (if (irm_max_utilization m <? irm_optimal_utilization m)
          || (RAY <? irm_max_utilization m)
       then Err (ECollateral InvalidUtilRange) else Ok tt) in
  do! require (irm_reserve_factor m <? BPS) (ECollateral InvalidReserveFactor) in
  require (irm_flashloan_fee m <=? MAX_FLASHLOAN_FEE_BPS) (ECollateral InvalidBorrowParams).

(** [MarketParamsRaw::verify] *)
Definition market_params_verify (p : MarketParamsRaw) : res unit :=
  do! require (rp_asset_decimals p <=? WAD_DECIMALS) (ECollateral AssetDecimalsTooHigh) in
  do! require (negb (rp_is_flashloanable p)
               || (MIN_BORROWABLE_ASSET_DECIMALS <=? rp_asset_decimals p))
        (ECollateral InvalidBorrowParams) in
  rate_model_verify (rate_model_view p).

(** [impl From<&MarketParamsRaw> for MarketParams] *)
Definition params_of_raw (r : MarketParamsRaw) : MarketParams :=
  {| max_borrow_rate := rp_max_borrow_rate r;
     base_borrow_rate := rp_base_borrow_rate r;
     slope1 := rp_slope1 r;
     slope2 := rp_slope2 r;
     slope3 := rp_slope3 r;
     mid_utilization := rp_mid_utilization r;
     optimal_utilization := rp_optimal_utilization r;
     max_utilization := rp_max_utilization r;
     reserve_factor := rp_reserve_factor r;
     is_flashloanable := rp_is_flashloanable r;
     flashloan_fee := rp_flashloan_fee r;
     asset_id := rp_asset_id r;
     asset_decimals := rp_asset_decimals r |}.

(** Rust's [as u32] keeps the low 32 bits. *)
Definition as_u32 (z : Z) : Z := z mod 2 ^ 32.

(** [impl From<&MarketParams> for MarketParamsRaw] *)
Definition raw_of_params (t : MarketParams) : MarketParamsRaw :=
  {| rp_max_borrow_rate := max_borrow_rate t;
     rp_base_borrow_rate := base_borrow_rate t;
     rp_slope1 := slope1 t;
     rp_slope2 := slope2 t;
     rp_slope3 := slope3 t;
     rp_mid_utilization := mid_utilization t;
     rp_optimal_utilization := optimal_utilization t;
     rp_max_utilization := max_utilization t;
     rp_reserve_factor := as_u32 (reserve_factor t);
     rp_is_flashloanable := is_flashloanable t;
     rp_flashloan_fee := flashloan_fee t;
     rp_asset_id := asset_id t;
     rp_asset_decimals := asset_decimals t |}.

(** ** Market state, indexes and positions *)

Record PoolStateRaw : Type := mkPoolStateRaw {
  rs_supplied : Z;
  rs_borrowed : Z;
  rs_revenue : Z;
  rs_borrow_index : Z;
  rs_supply_index : Z;
  rs_last_timestamp : Z;
  rs_cash : Z
}.

Record PoolState : Type := mkPoolState {
  ps_supplied : Ray;
  ps_borrowed : Ray;
  ps_revenue : Ray;
  ps_borrow_index : Ray;
  ps_supply_index : Ray;
  ps_last_timestamp : Z;
  ps_cash : Z
}.

Definition pool_state_of_raw (r : PoolStateRaw) : PoolState :=
  {| ps_supplied := rs_supplied r;
     ps_borrowed := rs_borrowed r;
     ps_revenue := rs_revenue r;
     ps_borrow_index := rs_borrow_index r;
     ps_supply_index := rs_supply_index r;
     ps_last_timestamp := rs_last_timestamp r;
     ps_cash := rs_cash r |}.

Definition raw_of_pool_state (t : PoolState) : PoolStateRaw :=
  {| rs_supplied := ps_supplied t;
     rs_borrowed := ps_borrowed t;
     rs_revenue := ps_revenue t;
     rs_borrow_index := ps_borrow_index t;
     rs_supply_index := ps_supply_index t;
     rs_last_timestamp := ps_last_timestamp t;
     rs_cash := ps_cash t |}.

Record MarketIndex : Type := mkMarketIndex { borrow_index : Ray; supply_index : Ray }.
Record MarketIndexRaw : Type := mkMarketIndexRaw { mi_borrow_index : Z; mi_supply_index : Z }.

Definition market_index_raw_of (t : MarketIndex) : MarketIndexRaw :=
  {| mi_borrow_index := borrow_index t; mi_supply_index := supply_index t |}.

Record ScaledPositionRaw : Type := mkScaledPosition { scaled_amount : Z }.

Record PoolSyncData : Type := mkPoolSyncData {
  sync_params : MarketParamsRaw;
  sync_state : PoolStateRaw
}.

Record MarketStateSnapshot : Type := mkMarketStateSnapshot {
  snap_hub_asset : HubAssetKey;
  snap_timestamp : Z;
  snap_supply_index : Z;
  snap_borrow_index : Z;
  snap_cash : Z;
  snap_supplied : Z;
  snap_borrowed : Z;
  snap_revenue : Z
}.

(** ** Requests and results of the pool operations *)

Record PoolAction : Type := mkPoolAction {
  pa_position : ScaledPositionRaw;
  pa_amount : Z;
  pa_hub_asset : HubAssetKey
}.

Record PoolSupplyEntry : Type := mkPoolSupplyEntry { se_action : PoolAction }.
Record PoolBorrowEntry : Type := mkPoolBorrowEntry { be_action : PoolAction }.
Record PoolWithdrawEntry : Type := mkPoolWithdrawEntry {
  we_action : PoolAction;
  we_protocol_fee : Z
}.
Record PoolSeizeEntry : Type := mkPoolSeizeEntry {
  sz_hub_asset : HubAssetKey;
  sz_side : AccountPositionType;
  sz_position : ScaledPositionRaw
}.
Record PoolNetSettleEntry : Type := mkPoolNetSettleEntry {
  ns_hub_asset : HubAssetKey;
  ns_amount : Z;
  ns_supply_position : ScaledPositionRaw;
  ns_debt_position : ScaledPositionRaw
}.

Record PoolPositionMutation : Type := mkPoolPositionMutation {
  pm_position : ScaledPositionRaw;
  pm_market_index : MarketIndexRaw;
  pm_actual_amount : Z;
  pm_asset_decimals : Z
}.
Record PoolStrategyMutation : Type := mkPoolStrategyMutation {
  sm_position : ScaledPositionRaw;
  sm_market_index : MarketIndexRaw;
  sm_actual_amount : Z;
  sm_amount_received : Z;
  sm_asset_decimals : Z
}.
Record PoolNetSettleResult : Type := mkPoolNetSettleResult {
  nr_supply_position : ScaledPositionRaw;
  nr_debt_position : ScaledPositionRaw;
  nr_market_index : MarketIndexRaw;
  nr_settled_amount : Z
}.
Record PoolAmountMutation : Type := mkPoolAmountMutation { am_actual_amount : Z }.

(** [impl From<&PoolStrategyMutation> for PoolPositionMutation] *)
Definition position_of_strategy_mutation (m : PoolStrategyMutation) : PoolPositionMutation :=
  {| pm_position := sm_position m;
     pm_market_index := sm_market_index m;
     pm_actual_amount := sm_actual_amount m;
     pm_asset_decimals := sm_asset_decimals m |}.

(** ** Validated parameters

    What [verify] guarantees, over the typed record; field ranges of [u32]
    fields are part of their type. *)

Record valid_params (p : MarketParams) : Prop := {
  vp_base : 0 <= base_borrow_rate p;
  vp_s1 : base_borrow_rate p <= slope1 p;
  vp_s2 : slope1 p <= slope2 p;
  vp_s3 : slope2 p <= slope3 p;
  vp_max : slope3 p <= max_borrow_rate p;
  vp_base_max : base_borrow_rate p < max_borrow_rate p;
  vp_max_bound : max_borrow_rate p <= MAX_BORROW_RATE_RAY;
  vp_mid : 0 < mid_utilization p;
  vp_opt : mid_utilization p < optimal_utilization p;
  vp_opt_ray : optimal_utilization p < RAY;
  vp_maxu : optimal_utilization p <= max_utilization p <= RAY;
  vp_rf : 0 <= reserve_factor p < BPS;
  vp_fee : 0 <= flashloan_fee p <= MAX_FLASHLOAN_FEE_BPS;
  vp_dec : valid_decimals (asset_decimals p)
}.

(** The [u32] fields of the wire form. *)
Definition raw_params_typed (r : MarketParamsRaw) : Prop :=
  0 <= rp_reserve_factor r <= u32_max /\ 0 <= rp_flashloan_fee r <= u32_max
  /\ 0 <= rp_asset_decimals r <= u32_max.

Lemma verify_valid r u :
  raw_params_typed r -> market_params_verify r = Ok u -> valid_params (params_of_raw r).
Proof.
  intros (Hrf & Hfee & Hdec) H. unfold market_params_verify, rate_model_verify in H.
  ok_inv H. simpl in *.
  destruct (_ || _)%bool eqn:Hs in Hv2; [done|].
  destruct (_ || _)%bool eqn:Hm in Hv8; [done|].
  b2p. split; simpl; lia.
Qed.
