(* ===== verification/RatesCurve.v ===== *)
(** * Interest-rate curve and compounding
    (common/src/rates/curve.rs, common/src/rates/compound.rs) *)

From S2P Require Import Prelude Errors FpCore Fp PoolTypes.
From stdpp Require Import base numbers list.
From Stdlib Require Import ZArith Lia Bool.

Open Scope Z_scope.

Module RatesCurve.

(** ** The three-segment borrow-rate curve *)

Definition calculate_annual_borrow_rate (utilization : Ray) (params : MarketParams) : res Ray :=
  let utilization := if Ray.ONE <? utilization then Ray.ONE else utilization in
  let* annual_rate :=
    (if utilization <? mid_utilization params then
       let* m := Ray.mul utilization (slope1 params) in
       let* contribution := Ray.div m (mid_utilization params) in
       Ray.checked_add (base_borrow_rate params) contribution
     else if utilization <? optimal_utilization params then
       let* excess := Ray.checked_sub utilization (mid_utilization params) in
       let* range := Ray.checked_sub (optimal_utilization params) (mid_utilization params) in
       let* m := Ray.mul excess (slope2 params) in
       let* contribution := Ray.div m range in
       let* b := Ray.checked_add (base_borrow_rate params) (slope1 params) in
       Ray.checked_add b contribution
     else
       let* b := Ray.checked_add (base_borrow_rate params) (slope1 params) in
       let* base_rate := Ray.checked_add b (slope2 params) in
       let* excess := Ray.checked_sub utilization (optimal_utilization params) in
       let* range := Ray.checked_sub Ray.ONE (optimal_utilization params) in
       let* m := Ray.mul excess (slope3 params) in
       let* contribution := Ray.div m range in
       Ray.checked_add base_rate contribution) in
  Ok (if max_borrow_rate params <? annual_rate then max_borrow_rate params else annual_rate).

Definition calculate_borrow_rate (utilization : Ray) (params : MarketParams) : res Ray :=
  let* annual := calculate_annual_borrow_rate utilization params in
  Ray.div_by_int annual MILLISECONDS_PER_YEAR.

Definition calculate_deposit_rate (utilization borrow_rate : Ray) (reserve_factor : Bps)
    : res Ray :=
  if utilization =? Ray.ZERO then Ok Ray.ZERO
  else if negb ((0 <=? reserve_factor) && (reserve_factor <? BPS)) then Ok Ray.ZERO
  else
    let* rate_x_util := Ray.mul utilization borrow_rate in
    Bps.apply_to_ray (BPS - reserve_factor) rate_x_util.

Definition utilization (borrowed supplied : Ray) : res Ray :=
  if supplied =? Ray.ZERO then Ok Ray.ZERO else Ray.div borrowed supplied.

(** ** Compounding: the Taylor series of [e^x] through the eighth order *)

Definition MAX_COMPOUND_DELTA_MS : Z := MILLISECONDS_PER_YEAR.

Definition taylor_step (x : Ray) (acc : Ray * Ray) (divisor : Z) : res (Ray * Ray) :=
  let '(sum, pow) := acc in
  let* pow := Ray.mul pow x in
  let* term := Ray.div_by_int pow divisor in
  let* sum := Ray.checked_add sum term in
  Ok (sum, pow).

Definition taylor_divisors : list Z := [2; 6; 24; 120; 720; 5040; 40320].

Definition compound_interest (rate : Ray) (delta_ms : Z) : res Ray :=
  if delta_ms =? 0 then Ok Ray.ONE
  else
    let* p := FpCore.i256_mul rate delta_ms in
    let* x := of_option (EGeneric MathOverflow) (FpCore.i256_to_i128 p) in
    let* sum := Ray.checked_add Ray.ONE x in
    let* r := rfold (taylor_step x) (sum, x) taylor_divisors in
    Ok r.1.

(** ** The curve is total, bounded and monotone on each segment *)

(** One ramp of the curve: [e] of [r] along slope [s], rounded twice. *)
Definition ramp (e s r : Z) : Z := half_up_div (half_up_div (e * s) RAY * RAY) r.

Lemma ramp_bounds e s r :
  0 <= e <= r -> 0 < r <= RAY -> 0 <= s <= MAX_BORROW_RATE_RAY ->
  0 <= half_up_div (e * s) RAY <= s + 1 /\ 0 <= ramp e s r <= s + RAY.
Proof.
  intros He Hr Hs. unfold ramp.
  assert (0 <= e * s) by nia.
  pose proof (half_up_div_nonneg (e * s) RAY RAY_pos ltac:(done)) as Hm0.
  pose proof (half_up_div_bounds (e * s) RAY RAY_pos) as Hm.
  set (m := half_up_div (e * s) RAY) in *.
  assert (0 <= m * RAY) by (unfold RAY; lia).
  pose proof (half_up_div_nonneg (m * RAY) r ltac:(lia) ltac:(done)) as Hc0.
  pose proof (half_up_div_bounds (m * RAY) r ltac:(lia)) as Hc.
  set (c := half_up_div (m * RAY) r) in *.
  assert (e * s <= r * s) by nia. assert (r * s <= RAY * s) by nia.
  unfold RAY in *. split; [lia|]. split; [done|]. nia.
Qed.

Lemma ramp_total e s r :
  0 <= e <= r -> 0 < r <= RAY -> 0 <= s <= MAX_BORROW_RATE_RAY ->
  Ray.mul e s = Ok (half_up_div (e * s) RAY)
  /\ Ray.div (half_up_div (e * s) RAY) r = Ok (ramp e s r).
Proof.
  intros He Hr Hs. destruct (ramp_bounds e s r He Hr Hs) as [Hm Hc].
  assert (MAX_BORROW_RATE_RAY + RAY + 1 <= i128_max) by zconst.
  assert (0 < RAY) by zconst.
  split; apply FpCore.mul_div_half_up_total; unfold ramp in *; lia.
Qed.

Lemma ramp_mono e e' s r :
  0 <= s -> 0 < r -> e <= e' -> ramp e s r <= ramp e' s r.
Proof.
  intros Hs Hr He. unfold ramp. apply half_up_div_mono; [done|].
  apply Z.mul_le_mono_nonneg_r; [zconst|]. apply half_up_div_mono; [zconst|]. nia.
Qed.

Lemma ramp_zero s r : 0 < r -> ramp 0 s r = 0.
Proof.
  intros Hr. unfold ramp. rewrite Z.mul_0_l.
  change (half_up_div 0 RAY * RAY) with 0. unfold half_up_div. rewrite Z.add_0_l.
  apply Z.div_small. split; [apply Z.div_pos; lia|apply Z.div_lt; lia].
Qed.

(** Closed form of the curve: the uncapped rate by segment. *)
Definition curve_value (u : Z) (p : MarketParams) : Z :=
  if u <? mid_utilization p then
    base_borrow_rate p + ramp u (slope1 p) (mid_utilization p)
  else if u <? optimal_utilization p then
    base_borrow_rate p + slope1 p
    + ramp (u - mid_utilization p) (slope2 p) (optimal_utilization p - mid_utilization p)
  else
    base_borrow_rate p + slope1 p + slope2 p
    + ramp (u - optimal_utilization p) (slope3 p) (RAY - optimal_utilization p).

Lemma annual_rate_value p u :
  valid_params p -> 0 <= u ->
  calculate_annual_borrow_rate u p
  = Ok (Z.min (max_borrow_rate p) (curve_value (Z.min RAY u) p)).
Proof.
  intros [] Hu. unfold calculate_annual_borrow_rate, Ray.ONE, curve_value.
  assert ((if RAY <? u then RAY else u) = Z.min RAY u) as -> by (destruct (Z.ltb_spec RAY u); lia).
  assert (0 <= Z.min RAY u <= RAY) as Hv by (assert (0 < RAY) by zconst; lia).
  set (v := Z.min RAY u) in *. clearbody v. clear u Hu.
  assert (5 * MAX_BORROW_RATE_RAY <= i128_max) by zconst.
  assert (i128_min <= 0) by zconst. assert (RAY <= MAX_BORROW_RATE_RAY) by zconst.
  assert (forall r, Z.min (max_borrow_rate p) r
                    = if max_borrow_rate p <? r then max_borrow_rate p else r) as Hmin.
  { intros r. destruct (Z.ltb_spec (max_borrow_rate p) r); lia. }
  unfold Ray.checked_add, Ray.checked_sub.
  destruct (Z.ltb_spec v (mid_utilization p)).
  - destruct (ramp_total v (slope1 p) (mid_utilization p)) as [-> Hd]; try lia.
    cbn [rbind]. rewrite Hd. cbn [rbind].
    pose proof (ramp_bounds v (slope1 p) (mid_utilization p)).
    rewrite checked_add_total by lia. cbn [rbind]. by rewrite Hmin.
  - destruct (Z.ltb_spec v (optimal_utilization p)).
    + rewrite !checked_sub_total by lia. cbn [rbind].
      destruct (ramp_total (v - mid_utilization p) (slope2 p)
                  (optimal_utilization p - mid_utilization p)) as [-> Hd]; try lia.
      cbn [rbind]. rewrite Hd. cbn [rbind].
      pose proof (ramp_bounds (v - mid_utilization p) (slope2 p)
                    (optimal_utilization p - mid_utilization p)).
      rewrite checked_add_total by lia. cbn [rbind].
      rewrite checked_add_total by lia. cbn [rbind]. by rewrite Hmin.
    + rewrite !checked_add_total by lia. cbn [rbind].
      rewrite !checked_add_total by lia. cbn [rbind].
      rewrite !checked_sub_total by lia. cbn [rbind].
      destruct (ramp_total (v - optimal_utilization p) (slope3 p)
                  (RAY - optimal_utilization p)) as [-> Hd]; try lia.
      cbn [rbind]. rewrite Hd. cbn [rbind].
      pose proof (ramp_bounds (v - optimal_utilization p) (slope3 p)
                    (RAY - optimal_utilization p)).
      rewrite checked_add_total by lia. cbn [rbind]. by rewrite Hmin.
Qed.

Lemma curve_value_base p u :
  valid_params p -> 0 <= u <= RAY -> base_borrow_rate p <= curve_value u p.
Proof.
  intros [] Hu. unfold curve_value. assert (RAY <= MAX_BORROW_RATE_RAY) by zconst.
  destruct (Z.ltb_spec u (mid_utilization p));
    [|destruct (Z.ltb_spec u (optimal_utilization p))].
  - pose proof (ramp_bounds u (slope1 p) (mid_utilization p)). lia.
  - pose proof (ramp_bounds (u - mid_utilization p) (slope2 p)
                  (optimal_utilization p - mid_utilization p)). lia.
  - pose proof (ramp_bounds (u - optimal_utilization p) (slope3 p)
                  (RAY - optimal_utilization p)). lia.
Qed.

(** For every validated model and every non-negative utilization the curve
    returns a rate, between the base rate and the maximum. *)
Lemma annual_rate_bounds p u :
  valid_params p -> 0 <= u ->
  exists r, calculate_annual_borrow_rate u p = Ok r
            /\ base_borrow_rate p <= r <= max_borrow_rate p.
Proof.
  intros Hp Hu. rewrite annual_rate_value by done. eexists; split; [done|].
  assert (0 < RAY) by zconst.
  pose proof (curve_value_base p (Z.min RAY u) Hp ltac:(lia)). destruct Hp. lia.
Qed.

(** The per-millisecond rate: bounded so that one chunk compounds [x <= 3 RAY]. *)
Lemma borrow_rate_bounds p u :
  valid_params p -> 0 <= u ->
  exists r, calculate_borrow_rate u p = Ok r
            /\ 0 <= r /\ r * MAX_COMPOUND_DELTA_MS <= 3 * RAY.
Proof.
  intros Hp Hu. destruct (annual_rate_bounds p u Hp Hu) as (a & Ha & Hb).
  unfold calculate_borrow_rate. rewrite Ha. cbn [rbind].
  pose proof (vp_base p Hp). pose proof (vp_max_bound p Hp).
  assert (MAX_BORROW_RATE_RAY <= i128_max) by zconst. assert (i128_min <= 0) by zconst.
  unfold Ray.div_by_int. rewrite FpCore.div_by_int_half_up_ref by (lia || (split; zconst)).
  change (MILLISECONDS_PER_YEAR =? 0) with false.
  change (MILLISECONDS_PER_YEAR <? 0) with false. cbv iota.
  eexists; split; [done|]. unfold FpCore.half_away_div.
  destruct (Z.leb_spec 0 a); [|lia].
  pose proof (half_up_div_bounds a MILLISECONDS_PER_YEAR ltac:(zconst)).
  pose proof (half_up_div_nonneg a MILLISECONDS_PER_YEAR ltac:(zconst) ltac:(done)).
  unfold MAX_COMPOUND_DELTA_MS, MILLISECONDS_PER_YEAR, MAX_BORROW_RATE_RAY, RAY in *. lia.
Qed.

(** Within a segment the uncapped curve is monotone; the capped rate too. *)
Definition same_segment (p : MarketParams) (u v : Z) : Prop :=
  (v < mid_utilization p)
  \/ (mid_utilization p <= u /\ v < optimal_utilization p)
  \/ (optimal_utilization p <= u).

Lemma annual_rate_segment_mono p u v ru rv :
  valid_params p -> 0 <= u <= v -> same_segment p u v ->
  calculate_annual_borrow_rate u p = Ok ru ->
  calculate_annual_borrow_rate v p = Ok rv -> ru <= rv.
Proof.
  intros Hp Huv Hs. rewrite !annual_rate_value by (done || lia).
  intros [= <-] [= <-]. apply Z.min_le_compat_l. unfold curve_value.
  destruct Hp, Hs as [H|[H|H]]; assert (0 < RAY) by zconst.
  - destruct (Z.ltb_spec (Z.min RAY u) (mid_utilization p)); [|lia].
    destruct (Z.ltb_spec (Z.min RAY v) (mid_utilization p)); [|lia].
    apply Z.add_le_mono_l. apply ramp_mono; lia.
  - destruct (Z.ltb_spec (Z.min RAY u) (mid_utilization p)); [lia|].
    destruct (Z.ltb_spec (Z.min RAY v) (mid_utilization p)); [lia|].
    destruct (Z.ltb_spec (Z.min RAY u) (optimal_utilization p)); [|lia].
    destruct (Z.ltb_spec (Z.min RAY v) (optimal_utilization p)); [|lia].
    apply Z.add_le_mono_l. apply ramp_mono; lia.
  - destruct (Z.ltb_spec (Z.min RAY u) (mid_utilization p)); [lia|].
    destruct (Z.ltb_spec (Z.min RAY v) (mid_utilization p)); [lia|].
    destruct (Z.ltb_spec (Z.min RAY u) (optimal_utilization p)); [lia|].
    destruct (Z.ltb_spec (Z.min RAY v) (optimal_utilization p)); [lia|].
    apply Z.add_le_mono_l. apply ramp_mono; lia.
Qed.

(** ** Compounding is total on the accrual domain and never below [1 + x] *)

Lemma taylor_step_total x sum pow divisor B :
  0 <= x <= 3 * RAY -> 0 <= pow <= B -> RAY <= B <= 65536 * RAY ->
  0 <= sum <= 100 * RAY -> 2 <= divisor <= 40320 ->
  exists sum' pow',
    taylor_step x (sum, pow) divisor = Ok (sum', pow')
    /\ 0 <= pow' <= 4 * B /\ sum <= sum' /\ divisor * (sum' - sum) <= 4 * B + divisor.
Proof.
  intros Hx Hp HB Hs Hd. unfold taylor_step.
  assert (0 <= pow * x) by nia.
  pose proof (half_up_div_bounds (pow * x) RAY RAY_pos) as Hm.
  pose proof (half_up_div_nonneg (pow * x) RAY RAY_pos ltac:(done)) as Hm0.
  assert (pow * x <= B * (3 * RAY)) by nia.
  assert (half_up_div (pow * x) RAY <= 4 * B) as Hm4 by (unfold RAY in *; nia).
  assert (262144 * RAY + 100 * RAY + 1 <= i128_max) by zconst.
  assert (i128_min <= 0) by zconst. assert (40320 < RAY) by zconst.
  unfold Ray.mul. rewrite FpCore.mul_div_half_up_total by lia. cbn [rbind].
  set (m := half_up_div (pow * x) RAY) in *.
  unfold Ray.div_by_int. rewrite FpCore.div_by_int_half_up_ref by lia.
  destruct (Z.eqb_spec divisor 0), (Z.ltb_spec divisor 0); try lia. cbn [rbind].
  unfold FpCore.half_away_div. destruct (Z.leb_spec 0 m); [|lia].
  pose proof (half_up_div_bounds m divisor ltac:(lia)) as Ht.
  pose proof (half_up_div_nonneg m divisor ltac:(lia) ltac:(done)) as Ht0.
  assert (half_up_div m divisor <= m + 1) by nia.
  unfold Ray.checked_add. rewrite checked_add_total by lia. cbn [rbind].
  do 2 eexists. split; [done|]. repeat split; lia.
Qed.

(** The accrual paths call [compound_interest] with [rate * delta <= 3 RAY]
    ([borrow_rate_bounds] at chunks of at most one year). *)
Lemma compound_interest_total rate delta :
  0 <= rate -> 0 <= delta -> rate * delta <= 3 * RAY ->
  exists f, compound_interest rate delta = Ok f /\ RAY + rate * delta <= f <= 60 * RAY.
Proof.
  intros Hr Hd Hx. unfold compound_interest, Ray.ONE.
  destruct (Z.eqb_spec delta 0) as [->|Hd0].
  { exists RAY. split; [done|]. unfold RAY. lia. }
  assert (0 <= rate * delta) as Hx0 by nia. set (x := rate * delta) in *.
  assert (100 * RAY <= i128_max) by zconst. assert (i128_min <= 0) by zconst.
  unfold FpCore.i256_mul. fold x. rewrite FpCore.i256_in.
  2:{ assert (3 * RAY <= 2 ^ 254) by zconst. lia. }
  cbn [rbind]. unfold FpCore.i256_to_i128.
  rewrite i128_checked_in by (unfold RAY in *; lia). cbn [rbind of_option].
  unfold Ray.checked_add. rewrite checked_add_total by (unfold RAY in *; lia). cbn [rbind].
  unfold taylor_divisors. cbn [rfold].
  assert (0 < RAY) by zconst.
  destruct (taylor_step_total x (RAY + x) x 2 (4 * RAY)) as (s1 & p1 & -> & ? & ? & ?);
    try lia. cbn [rbind].
  destruct (taylor_step_total x s1 p1 6 (16 * RAY)) as (s2 & p2 & -> & ? & ? & ?);
    try lia. cbn [rbind].
  destruct (taylor_step_total x s2 p2 24 (64 * RAY)) as (s3 & p3 & -> & ? & ? & ?);
    try lia. cbn [rbind].
  destruct (taylor_step_total x s3 p3 120 (256 * RAY)) as (s4 & p4 & -> & ? & ? & ?);
    try lia. cbn [rbind].
  destruct (taylor_step_total x s4 p4 720 (1024 * RAY)) as (s5 & p5 & -> & ? & ? & ?);
    try lia. cbn [rbind].
  destruct (taylor_step_total x s5 p5 5040 (4096 * RAY)) as (s6 & p6 & -> & ? & ? & ?);
    try lia. cbn [rbind].
  destruct (taylor_step_total x s6 p6 40320 (16384 * RAY)) as (s7 & p7 & -> & ? & ? & ?);
    try lia. cbn [rbind fst].
  exists s7. split; [done|]. unfold RAY in *. lia.
Qed.

(** Utilization of non-negative totals is non-negative. *)
Lemma utilization_Ok b s u : utilization b s = Ok u -> 0 <= u.
Proof.
  unfold utilization. case_match; intros H'; [injection H' as <-; done|]. fp_inv. lia.
Qed.

End RatesCurve.
