(* ===== verification/RatesScaling.v ===== *)
(** * Token amounts, scaled shares and USD values
    (common/src/rates/scaling.rs, common/src/rates/value.rs)

    Supply shares are minted down and burned up, debt shares minted up and
    burned down.  The theorems state the directions as exact inequalities on
    [shares * index] against [amount * unit * RAY], so that no operation can
    hand out more than it takes. *)

From S2P Require Import Prelude Errors FpCore Fp PoolTypes.
From stdpp Require Import base numbers.
From Stdlib Require Import ZArith Lia Bool.

Open Scope Z_scope.

Module RatesScaling.

Definition scaled_to_original (scaled index : Ray) : res Ray := Ray.mul scaled index.

Definition calculate_scaled_cap (cap decimals : Z) (index : Ray) : res Ray :=
  let* r := Ray.from_asset cap decimals in
  FpCore.mul_div_floor_saturating r RAY index.

Definition calculate_scaled_supply (amount decimals : Z) (supply_index : Ray) : res Ray :=
  let* r := Ray.from_asset amount decimals in Ray.div_floor r supply_index.

Definition calculate_scaled_supply_ceil (amount decimals : Z) (supply_index : Ray) : res Ray :=
  let* r := Ray.from_asset amount decimals in Ray.div_ceil r supply_index.

Definition calculate_scaled_borrow (amount decimals : Z) (borrow_index : Ray) : res Ray :=
  let* r := Ray.from_asset amount decimals in Ray.div_ceil r borrow_index.

Definition calculate_scaled_borrow_floor (amount decimals : Z) (borrow_index : Ray) : res Ray :=
  let* r := Ray.from_asset amount decimals in Ray.div_floor r borrow_index.

Definition unscale_supply (scaled supply_index : Ray) (decimals : Z) : res Z :=
  let* r := scaled_to_original scaled supply_index in Ray.to_asset r decimals.

Definition unscale_supply_floor (scaled supply_index : Ray) (decimals : Z) : res Z :=
  let* r := Ray.mul_floor scaled supply_index in Ray.to_asset_floor r decimals.

Definition unscale_borrow (scaled borrow_index : Ray) (decimals : Z) : res Z :=
  let* r := scaled_to_original scaled borrow_index in Ray.to_asset r decimals.

Definition unscale_borrow_ceil (scaled borrow_index : Ray) (decimals : Z) : res Z :=
  let* r := Ray.mul_ceil scaled borrow_index in Ray.to_asset_ceil r decimals.

Definition resolve_withdrawal (amount : Z) (pos_scaled supply_index : Ray) (decimals : Z)
    : res (Ray * Z) :=
  let* current_supply_actual := unscale_supply pos_scaled supply_index decimals in
  let* current_supply_floor := unscale_supply_floor pos_scaled supply_index decimals in
  if current_supply_actual <=? amount then Ok (pos_scaled, current_supply_floor)
  else
    let* s := calculate_scaled_supply_ceil amount decimals supply_index in
    Ok (s, amount).

Definition resolve_net_settle (amount : Z)
    (supply_scaled debt_scaled supply_index borrow_index : Ray) (decimals : Z)
    : res (Ray * Ray * Z) :=
  let* supply_floor := unscale_supply_floor supply_scaled supply_index decimals in
  let* debt_ceil := unscale_borrow_ceil debt_scaled borrow_index decimals in
  let settle := Z.min (Z.min amount supply_floor) debt_ceil in
  if settle <=? 0 then Ok (Ray.ZERO, Ray.ZERO, 0)
  else
    let* burned_supply :=
      (if settle =? supply_floor then Ok supply_scaled
       else let* s := calculate_scaled_supply_ceil settle decimals supply_index in
            Ok (Z.min s supply_scaled)) in
    let* burned_debt :=
      (if settle =? debt_ceil then Ok debt_scaled
       else let* s := calculate_scaled_borrow_floor settle decimals borrow_index in
            Ok (Z.min s debt_scaled)) in
    Ok (burned_supply, burned_debt, settle).

Definition resolve_repay (amount : Z) (pos_scaled borrow_index : Ray) (decimals : Z)
    : res (Ray * Z) :=
  let* current_debt_ceil := unscale_borrow_ceil pos_scaled borrow_index decimals in
  if current_debt_ceil <=? amount then
    let* excess := of_option (EGeneric MathOverflow)
                     (i128_checked_sub amount current_debt_ceil) in
    Ok (pos_scaled, excess)
  else
    let* s := calculate_scaled_borrow_floor amount decimals borrow_index in
    Ok (s, 0).

(** ** USD value of a position (value.rs) *)

Definition position_value (scaled index : Ray) (price : Wad) : res Wad :=
  let* actual := Ray.mul scaled index in
  let* actual_wad := Ray.to_wad actual in
  Wad.mul actual_wad price.

Definition position_value_floor (scaled index : Ray) (price : Wad) : res Wad :=
  let* actual := Ray.mul_floor scaled index in
  let* actual_wad := Ray.to_wad_floor actual in
  Wad.mul_floor actual_wad price.

Definition position_value_ceil (scaled index : Ray) (price : Wad) : res Wad :=
  let* actual := Ray.mul_ceil scaled index in
  let* actual_wad := Ray.to_wad_ceil actual in
  Wad.mul_ceil actual_wad price.

(** ** Directions of the conversions *)

Lemma scaled_supply_Ok a d si r :
  valid_decimals d -> 0 <= a -> 0 < si ->
  calculate_scaled_supply a d si = Ok r ->
  0 <= r <= i128_max /\ r * si <= a * unit_of d * RAY < (r + 1) * si.
Proof.
  intros Hd Ha Hsi H. unfold calculate_scaled_supply in H. ok_inv H.
  apply from_asset_Ok in Hv as [-> Hr]; [|done]. fp_inv. subst r.
  pose proof (unit_of_pos d Hd). assert (0 <= a * unit_of d) by nia.
  pose proof RAY_pos.
  assert (0 <= a * unit_of d * RAY) by nia.
  pose proof (floor_div_bounds (a * unit_of d * RAY) si Hsi).
  pose proof (floor_div_nonneg (a * unit_of d * RAY) si Hsi ltac:(done)). lia.
Qed.

Lemma scaled_ceil_Ok a d ix r :
  valid_decimals d -> 0 <= a -> 0 < ix ->
  (let* v := Ray.from_asset a d in Ray.div_ceil v ix) = Ok r ->
  0 <= r <= i128_max /\ (r - 1) * ix < a * unit_of d * RAY <= r * ix.
Proof.
  intros Hd Ha Hsi H. ok_inv H.
  apply from_asset_Ok in Hv as [-> Hr]; [|done]. fp_inv. subst r.
  pose proof (unit_of_pos d Hd). assert (0 <= a * unit_of d) by nia.
  pose proof RAY_pos.
  assert (0 <= a * unit_of d * RAY) by nia.
  pose proof (ceil_div_bounds (a * unit_of d * RAY) ix Hsi).
  pose proof (ceil_div_nonneg (a * unit_of d * RAY) ix Hsi ltac:(done)). lia.
Qed.

Lemma unscale_supply_floor_Ok s si d r :
  valid_decimals d -> 0 <= s -> 0 <= si ->
  unscale_supply_floor s si d = Ok r ->
  0 <= r /\ r * unit_of d * RAY <= s * si
  /\ (forall n, n * unit_of d * RAY <= s * si -> n <= r).
Proof.
  intros Hd Hs Hsi H. unfold unscale_supply_floor in H. ok_inv H. fp_inv.
  pose proof RAY_pos. assert (0 <= s * si) by nia.
  pose proof (floor_div_nonneg (s * si) RAY RAY_pos ltac:(done)).
  pose proof (floor_div_bounds (s * si) RAY RAY_pos).
  subst v. rewrite to_asset_floor_nonneg in H by (lia || done). injection H as <-.
  pose proof (unit_of_pos d Hd).
  set (v := floor_div (s * si) RAY) in *.
  pose proof (floor_div_bounds v (unit_of d) ltac:(done)).
  pose proof (floor_div_nonneg v (unit_of d) ltac:(done) ltac:(done)).
  set (r := floor_div v (unit_of d)) in *. split; [done|]. split; [nia|].
  intros n Hn. apply floor_div_le_iff; [done|]. apply floor_div_le_iff; [done|]. lia.
Qed.

Lemma unscale_borrow_ceil_Ok s bi d r :
  valid_decimals d -> 0 <= s -> 0 <= bi ->
  unscale_borrow_ceil s bi d = Ok r ->
  0 <= r /\ s * bi <= r * unit_of d * RAY
  /\ (forall n, s * bi <= n * unit_of d * RAY -> r <= n).
Proof.
  intros Hd Hs Hbi H. unfold unscale_borrow_ceil in H. ok_inv H. fp_inv.
  pose proof RAY_pos. assert (0 <= s * bi) by nia.
  pose proof (ceil_div_nonneg (s * bi) RAY RAY_pos ltac:(done)).
  pose proof (ceil_div_bounds (s * bi) RAY RAY_pos).
  subst v. rewrite to_asset_ceil_nonneg in H by (lia || done). injection H as <-.
  pose proof (unit_of_pos d Hd).
  set (v := ceil_div (s * bi) RAY) in *.
  pose proof (ceil_div_bounds v (unit_of d) ltac:(done)).
  pose proof (ceil_div_nonneg v (unit_of d) ltac:(done) ltac:(done)).
  set (r := ceil_div v (unit_of d)) in *. split; [done|]. split; [nia|].
  intros n Hn. apply ceil_div_le_iff; [done|]. apply ceil_div_le_iff; [done|]. lia.
Qed.

(** Half-up asset value: a strictly smaller amount is below the exact value. *)
Lemma unscale_half_up_Ok s ix d r :
  valid_decimals d -> 0 <= s -> 0 <= ix ->
  unscale_supply s ix d = Ok r ->
  0 <= r /\ (forall n, n < r -> n * unit_of d * RAY <= s * ix)
  /\ (forall n, n * unit_of d * RAY <= s * ix -> n <= r).
Proof.
  intros Hd Hs Hix H. unfold unscale_supply, scaled_to_original in H. ok_inv H. fp_inv.
  pose proof RAY_pos. assert (0 <= s * ix) by nia.
  pose proof (half_up_div_bounds (s * ix) RAY RAY_pos).
  subst v. rewrite to_asset_nonneg in H by (lia || done). injection H as <-.
  pose proof (unit_of_range d Hd). assert (10 ^ 9 = 1000000000) by done.
  set (v := half_up_div (s * ix) RAY) in *.
  pose proof (half_up_div_bounds v (unit_of d) ltac:(lia)).
  pose proof (half_up_div_nonneg v (unit_of d) ltac:(lia) ltac:(lia)).
  set (r := half_up_div v (unit_of d)) in *. split; [done|]. split.
  - intros n Hn. assert ((2 * n + 1) * unit_of d <= 2 * v + 0) by nia.
    assert (2 * n * unit_of d <= 2 * v - 2) by lia. nia.
  - intros n Hn. subst r v. apply half_up_div_ge_iff; [lia|].
    pose proof (Z.div_pos (unit_of d) 2).
    cut (n * unit_of d <= half_up_div (s * ix) RAY); [lia|].
    apply half_up_div_ge_iff; [lia|]. assert (0 <= RAY / 2) by zconst. lia.
Qed.

(** ** Withdrawals never burn more than held nor pay more than the burn *)

Lemma resolve_withdrawal_spec amount pos si d burned gross :
  valid_decimals d -> 0 <= amount -> 0 <= pos -> 0 < si ->
  resolve_withdrawal amount pos si d = Ok (burned, gross) ->
  0 <= burned <= pos /\ 0 <= gross <= amount /\ gross * unit_of d * RAY <= burned * si.
Proof.
  intros Hd Ha Hp Hsi H. unfold resolve_withdrawal in H. ok_inv H.
  apply unscale_half_up_Ok in Hv as (Hh & Hhl & Hhu); [|done|lia|lia].
  apply unscale_supply_floor_Ok in Hv0 as (Hf & Hfl & Hfu); [|done|lia|lia].
  destruct (Z.leb_spec v amount).
  - injection H as <- <-. specialize (Hhu _ Hfl). lia.
  - ok_inv H. apply scaled_ceil_Ok in Hv as (Hr & Hl & Hu); [|done..].
    specialize (Hhl amount ltac:(lia)). split; [nia|]. lia.
Qed.

(** ** Repayments never forgive more than they take *)

Lemma resolve_repay_spec amount pos bi d burned over :
  valid_decimals d -> 0 <= amount -> 0 <= pos -> 0 < bi ->
  resolve_repay amount pos bi d = Ok (burned, over) ->
  0 <= burned <= pos /\ 0 <= over <= amount
  /\ burned * bi <= (amount - over) * unit_of d * RAY.
Proof.
  intros Hd Ha Hp Hbi H. unfold resolve_repay in H. ok_inv H.
  apply unscale_borrow_ceil_Ok in Hv as (Hc & Hcl & Hcu); [|done|lia|lia].
  destruct (Z.leb_spec v amount).
  - ok_inv H.
    unfold i128_checked_sub in Hv. apply i128_checked_Some in Hv as [-> _].
    replace (amount - (amount - v)) with v by lia. lia.
  - ok_inv H.
    apply scaled_supply_Ok in Hv as (Hr & Hl & Hu); [|done..].
    assert (~ pos * bi <= amount * unit_of d * RAY) by (intros ?%Hcu; lia).
    rewrite Z.sub_0_r. split; [nia|]. lia.
Qed.

(** ** Net settlement matches both sides conservatively *)

Lemma resolve_net_settle_spec amount sup debt si bi d bs bd settle :
  valid_decimals d -> 0 <= amount -> 0 <= sup -> 0 <= debt -> 0 < si -> 0 < bi ->
  resolve_net_settle amount sup debt si bi d = Ok (bs, bd, settle) ->
  0 <= bs <= sup /\ 0 <= bd <= debt /\ 0 <= settle <= amount
  /\ settle * unit_of d * RAY <= bs * si /\ bd * bi <= settle * unit_of d * RAY.
Proof.
  intros Hd Ha Hs Hdb Hsi Hbi H. unfold resolve_net_settle in H. ok_inv H.
  apply unscale_supply_floor_Ok in Hv as (Hf & Hfl & Hfu); [|done|lia|lia].
  apply unscale_borrow_ceil_Ok in Hv0 as (Hc & Hcl & Hcu); [|done|lia|lia].
  destruct (Z.leb_spec (Z.min (Z.min amount v) v0) 0).
  { injection H as <- <- <-. unfold Ray.ZERO. lia. }
  apply rbind_Ok in H as (bs' & Hbs & H). apply rbind_Ok in H as (bd' & Hbd & H).
  injection H as <- <- <-.
  pose proof (unit_of_pos d Hd) as Hu. pose proof RAY_pos as HR.
  set (st := Z.min (Z.min amount v) v0) in *.
  assert (0 < st <= amount /\ st <= v /\ st <= v0) as (Hst & Hst1 & Hst2) by lia.
  assert (Hsup : st * unit_of d * RAY <= v * unit_of d * RAY) by nia. clearbody st.
  assert (0 <= bs' <= sup /\ st * unit_of d * RAY <= bs' * si) as [? ?].
  { destruct (Z.eqb_spec st v) as [E|]; ok_inv Hbs; [lia|].
    apply scaled_ceil_Ok in Hv as (Hr & Hl & Hu'); [|done|lia|done].
    destruct (Z.min_spec v1 sup) as [[? ->]|[? ->]]; split; lia. }
  assert (0 <= bd' <= debt /\ bd' * bi <= st * unit_of d * RAY) as [? ?].
  { destruct (Z.eqb_spec st v0) as [E|]; ok_inv Hbd; [subst; lia|].
    apply scaled_supply_Ok in Hv as (Hr & Hl & Hu'); [|done|lia|done].
    destruct (Z.min_spec v1 debt) as [[? ->]|[? ->]]; split; nia. }
  repeat split; lia.
Qed.

(** ** No free round trip at fixed indexes *)

(** Supplying [amount] and withdrawing from the shares it minted, whatever is
    requested, never returns more than [amount]. *)
Lemma supply_withdraw_no_gain amount request d si minted burned gross :
  valid_decimals d -> 0 <= amount -> 0 <= request -> 0 < si ->
  calculate_scaled_supply amount d si = Ok minted ->
  resolve_withdrawal request minted si d = Ok (burned, gross) ->
  gross <= amount.
Proof.
  intros Hd Ha Hr Hsi Hm Hw.
  apply scaled_supply_Ok in Hm as (Hm0 & Hm1 & _); [|done..].
  apply resolve_withdrawal_spec in Hw as (Hb & _ & Hg); [|done..|lia|done].
  pose proof (unit_of_pos d Hd) as Hu. pose proof RAY_pos as HR.
  assert (burned * si <= minted * si) by nia.
  assert (gross * unit_of d * RAY <= amount * unit_of d * RAY) by lia.
  apply (Z.mul_le_mono_pos_r _ _ (unit_of d * RAY)); [nia|lia].
Qed.

(** Borrowing [amount] and repaying the shares it minted in full costs at least
    [amount]. *)
Lemma borrow_repay_no_gain amount paid d bi minted over :
  valid_decimals d -> 0 <= amount -> 0 <= paid -> 0 < bi ->
  calculate_scaled_borrow amount d bi = Ok minted ->
  resolve_repay paid minted bi d = Ok (minted, over) ->
  amount <= paid - over.
Proof.
  intros Hd Ha Hr Hbi Hm Hw.
  apply scaled_ceil_Ok in Hm as (Hm0 & _ & Hm1); [|done..].
  apply resolve_repay_spec in Hw as (Hb & _ & Hg); [|done..|lia|done].
  pose proof (unit_of_pos d Hd) as Hu. pose proof RAY_pos as HR.
  assert (amount * unit_of d * RAY <= (paid - over) * unit_of d * RAY) by lia.
  apply (Z.mul_le_mono_pos_r _ _ (unit_of d * RAY)); [nia|lia].
Qed.

(** ** Directed USD values bracket the half-up value *)

Lemma to_wad_nonneg a :
  0 <= a <= i128_max ->
  Ray.to_wad a = Ok (half_up_div a (10 ^ 9)) /\ Ray.to_wad_floor a = Ok (floor_div a (10 ^ 9))
  /\ Ray.to_wad_ceil a = Ok (ceil_div a (10 ^ 9)).
Proof.
  intros Ha. split; [|split].
  - exact (to_asset_nonneg a 18 Ha ltac:(unfold WAD_DECIMALS; lia)).
  - exact (to_asset_floor_nonneg a 18 Ha ltac:(unfold WAD_DECIMALS; lia)).
  - exact (to_asset_ceil_nonneg a 18 Ha ltac:(unfold WAD_DECIMALS; lia)).
Qed.

Lemma position_value_bracket scaled index price lo mid hi :
  0 <= scaled -> 0 <= index -> 0 <= price ->
  position_value_floor scaled index price = Ok lo ->
  position_value scaled index price = Ok mid ->
  position_value_ceil scaled index price = Ok hi ->
  0 <= lo <= mid /\ mid <= hi.
Proof.
  intros Hs Hi Hp Hlo Hmid Hhi.
  unfold position_value, position_value_floor, position_value_ceil in *.
  apply rbind_Ok in Hlo as (a1 & H1 & Hlo). apply rbind_Ok in Hlo as (w1 & W1 & Hlo).
  apply rbind_Ok in Hmid as (a2 & H2 & Hmid). apply rbind_Ok in Hmid as (w2 & W2 & Hmid).
  apply rbind_Ok in Hhi as (a3 & H3 & Hhi). apply rbind_Ok in Hhi as (w3 & W3 & Hhi).
  fp_inv. assert (0 <= scaled * index) by nia. pose proof RAY_pos. pose proof WAD_pos.
  assert (0 < 10 ^ 9) by done.
  assert (0 <= a1 <= a2 /\ a2 <= a3) as [? ?] by (subst; split; [split|]; auto with fp).
  rewrite (proj1 (proj2 (to_wad_nonneg a1 ltac:(lia)))) in W1. injection W1 as W1.
  rewrite (proj1 (to_wad_nonneg a2 ltac:(lia))) in W2. injection W2 as W2.
  rewrite (proj2 (proj2 (to_wad_nonneg a3 ltac:(lia)))) in W3. injection W3 as W3.
  assert (0 <= w1 <= w2 /\ w2 <= w3) as [? ?].
  { rewrite <- W1, <- W2, <- W3. split; [split; [apply floor_div_nonneg; lia|]|].
    - etrans; [by apply floor_le_half_up|]. apply half_up_div_mono; lia.
    - etrans; [apply (half_up_div_mono _ a3); lia|]. by apply half_up_le_ceil. }
  assert (w1 * price <= w2 * price) by nia. assert (w2 * price <= w3 * price) by nia.
  subst lo mid hi. split; [split; [apply floor_div_nonneg; nia|]|].
  - etrans; [by apply floor_le_half_up|]. apply half_up_div_mono; lia.
  - etrans; [apply (half_up_div_mono _ (w3 * price)); lia|]. apply half_up_le_ceil; lia.
Qed.

(** The floored value alone is at most the half-up one. *)
Lemma position_value_floor_le scaled index price lo mid :
  0 <= scaled -> 0 <= index -> 0 <= price ->
  position_value_floor scaled index price = Ok lo ->
  position_value scaled index price = Ok mid -> 0 <= lo <= mid.
Proof.
  intros Hs Hi Hp Hlo Hmid. unfold position_value, position_value_floor in *.
  apply rbind_Ok in Hlo as (a1 & H1 & Hlo). apply rbind_Ok in Hlo as (w1 & W1 & Hlo).
  apply rbind_Ok in Hmid as (a2 & H2 & Hmid). apply rbind_Ok in Hmid as (w2 & W2 & Hmid).
  fp_inv. assert (0 <= scaled * index) by nia. pose proof RAY_pos. pose proof WAD_pos.
  assert (0 <= a1 <= a2) as Ha by (subst; split; auto with fp).
  rewrite (proj1 (proj2 (to_wad_nonneg a1 ltac:(lia)))) in W1. injection W1 as W1.
  rewrite (proj1 (to_wad_nonneg a2 ltac:(lia))) in W2. injection W2 as W2.
  assert (0 <= w1 <= w2).
  { rewrite <- W1, <- W2. split; [apply floor_div_nonneg; lia|].
    etrans; [by apply floor_le_half_up|]. apply half_up_div_mono; lia. }
  subst lo mid. split; [apply floor_div_nonneg; nia|].
  etrans; [by apply floor_le_half_up|]. apply half_up_div_mono; nia.
Qed.

Lemma position_value_ceil_nonneg scaled index price hi :
  0 <= scaled -> 0 <= index -> 0 <= price ->
  position_value_ceil scaled index price = Ok hi -> 0 <= hi.
Proof.
  intros Hs Hi Hp H. unfold position_value_ceil in H.
  apply rbind_Ok in H as (a & Ha & H). apply rbind_Ok in H as (w & Hw & H). fp_inv.
  assert (0 <= scaled * index) by nia. pose proof RAY_pos. pose proof WAD_pos.
  assert (0 <= a) by (subst; auto with fp).
  rewrite (proj2 (proj2 (to_wad_nonneg a ltac:(lia)))) in Hw. injection Hw as Hw.
  assert (0 <= w) by (rewrite <- Hw; apply ceil_div_nonneg; lia).
  subst hi. apply ceil_div_nonneg; nia.
Qed.

Lemma position_value_floor_nonneg scaled index price lo :
  0 <= scaled -> 0 <= index -> 0 <= price ->
  position_value_floor scaled index price = Ok lo -> 0 <= lo.
Proof.
  intros Hs Hi Hp H. unfold position_value_floor in H.
  apply rbind_Ok in H as (a & Ha & H). apply rbind_Ok in H as (w & Hw & H). fp_inv.
  assert (0 <= scaled * index) by nia. pose proof RAY_pos. pose proof WAD_pos.
  assert (0 <= a) by (subst; auto with fp).
  rewrite (proj1 (proj2 (to_wad_nonneg a ltac:(lia)))) in Hw. injection Hw as Hw.
  assert (0 <= w) by (rewrite <- Hw; apply floor_div_nonneg; lia).
  subst lo. apply floor_div_nonneg; nia.
Qed.

End RatesScaling.
