(* ===== verification/RatesAccrual.v ===== *)
(** * Interest accrual (common/src/rates/index.rs, common/src/rates/simulate.rs)

    Index updates, the split of accrued interest, one compounding step, and the
    read-only projection over a long interval.  The central result is
    [accrue_step_conserves]: over one step supplier claims, protocol revenue
    included, grow by at most what borrowers owe more. *)

From S2P Require Import Prelude Errors FpCore Fp PoolTypes RatesCurve RatesScaling.
From stdpp Require Import base numbers.
From Stdlib Require Import ZArith Lia Bool.

Open Scope Z_scope.

Module RatesAccrual.

Import RatesCurve RatesScaling.

(** ** Index updates (index.rs) *)

Definition update_borrow_index (old_index interest_factor : Ray) : res Ray :=
  let* new_index := Ray.mul old_index interest_factor in
  Ok (if MAX_BORROW_INDEX_RAY <? new_index then MAX_BORROW_INDEX_RAY else new_index).

Definition update_supply_index (supplied old_index rewards_increase : Ray) : res Ray :=
  if (supplied =? Ray.ZERO) || (rewards_increase =? Ray.ZERO) then Ok old_index
  else
    let* total_supplied_value := Ray.mul supplied old_index in
    if total_supplied_value =? Ray.ZERO then Ok old_index
    else
      let* new_value := Ray.checked_add total_supplied_value rewards_increase in
      let* grown := FpCore.mul_div_floor_saturating new_value RAY supplied in
      let bounded_old := Z.min old_index MAX_SUPPLY_INDEX_RAY in
      Ok (Z.max (Z.min grown MAX_SUPPLY_INDEX_RAY) bounded_old).

Definition supply_index_reward_shortfall
    (supplied old_index new_index rewards_increase : Ray) : res Ray :=
  let* new_value := Ray.mul supplied new_index in
  let* old_value := Ray.mul supplied old_index in
  let* distributed := Ray.checked_sub new_value old_value in
  Ray.checked_sub rewards_increase distributed.

Definition calculate_supplier_rewards (params : MarketParams)
    (borrowed new_borrow_index old_borrow_index : Ray) : res (Ray * Ray) :=
  let* old_total_debt := Ray.mul borrowed old_borrow_index in
  let* new_total_debt := Ray.mul borrowed new_borrow_index in
  let* accrued_interest := Ray.checked_sub new_total_debt old_total_debt in
  let* protocol_fee := Bps.apply_to_ray (reserve_factor params) accrued_interest in
  let* supplier_rewards := Ray.checked_sub accrued_interest protocol_fee in
  Ok (supplier_rewards, protocol_fee).

Definition protocol_fee_shares (fee supply_index supplied : Ray) : res Ray :=
  let* raw := FpCore.mul_div_floor_saturating fee RAY supply_index in
  let headroom := i128_saturating_sub i128_max supplied in
  Ok (Z.min raw headroom).

(** ** One compounding step (simulate.rs) *)

Record AccrualStep : Type := mkAccrualStep {
  as_borrow_index : Ray;
  as_supply_index : Ray;
  as_revenue_shares : Ray
}.

Definition accrue_step (params : MarketParams)
    (borrowed supplied borrow_index supply_index : Ray) (delta_ms : Z) : res AccrualStep :=
  let* borrowed_original := scaled_to_original borrowed borrow_index in
  let* supplied_original := scaled_to_original supplied supply_index in
  let* util := utilization borrowed_original supplied_original in
  let* borrow_rate := calculate_borrow_rate util params in
  let* interest_factor := compound_interest borrow_rate delta_ms in
  let* new_borrow_index := update_borrow_index borrow_index interest_factor in
  let* (supplier_rewards, protocol_fee) :=
    calculate_supplier_rewards params borrowed new_borrow_index borrow_index in
  let* new_supply_index := update_supply_index supplied supply_index supplier_rewards in
  let* supplier_shortfall :=
    supply_index_reward_shortfall supplied supply_index new_supply_index supplier_rewards in
  let* protocol_reward := Ray.checked_add protocol_fee supplier_shortfall in
  let* revenue_shares :=
    (if protocol_reward =? Ray.ZERO then Ok Ray.ZERO
     else protocol_fee_shares protocol_reward new_supply_index supplied) in
  Ok {| as_borrow_index := new_borrow_index;
        as_supply_index := new_supply_index;
        as_revenue_shares := revenue_shares |}.

(** ** The chunked accrual loop

    [while remaining > 0 { chunk = min(remaining, one year); step; remaining -=
    chunk }].  Each turn consumes a full year except the last, so
    [ceil(remaining / year)] turns of fuel are enough; [accrue_loop_unfold] is
    the loop's own equation and holds without fuel. *)

Fixpoint accrue_loop_fuel {A : Type} (step : A -> Z -> res A) (fuel : nat)
    (a : A) (remaining : Z) : res A :=
  if remaining <=? 0 then Ok a
  else
    match fuel with
    | O => Err HostTrap
    | S fuel' =>
        let chunk := Z.min remaining MAX_COMPOUND_DELTA_MS in
        let* a' := step a chunk in
        accrue_loop_fuel step fuel' a' (remaining - chunk)
    end.

Definition chunk_fuel (remaining : Z) : nat :=
  Z.to_nat (ceil_div remaining MAX_COMPOUND_DELTA_MS).

Definition accrue_loop {A : Type} (step : A -> Z -> res A) (a : A) (remaining : Z) : res A :=
  accrue_loop_fuel step (chunk_fuel remaining) a remaining.

(** The simulator's loop state: the running supply and both indexes. *)
Record SimState : Type := mkSimState {
  sim_supplied : Ray;
  sim_borrow_index : Ray;
  sim_supply_index : Ray
}.

Definition simulate_step (params : MarketParams) (borrowed : Ray) (s : SimState) (chunk : Z)
    : res SimState :=
  let* step := accrue_step params borrowed (sim_supplied s) (sim_borrow_index s)
                 (sim_supply_index s) chunk in
  let* supplied := Ray.checked_add (sim_supplied s) (as_revenue_shares step) in
  Ok {| sim_supplied := supplied;
        sim_borrow_index := as_borrow_index step;
        sim_supply_index := as_supply_index step |}.

Definition simulate_update_indexes (current_timestamp : Z) (sync : PoolSyncData)
    : res MarketIndex :=
  let state := pool_state_of_raw (sync_state sync) in
  let total_delta_ms := u64_saturating_sub current_timestamp (ps_last_timestamp state) in
  if total_delta_ms =? 0 then
    Ok {| borrow_index := ps_borrow_index state; supply_index := ps_supply_index state |}
  else
    let params := params_of_raw (sync_params sync) in
    let* s := accrue_loop (simulate_step params (ps_borrowed state))
                {| sim_supplied := ps_supplied state;
                   sim_borrow_index := ps_borrow_index state;
                   sim_supply_index := ps_supply_index state |}
                total_delta_ms in
    Ok {| borrow_index := sim_borrow_index s; supply_index := sim_supply_index s |}.

(** ** The loop's equation *)

Lemma chunk_fuel_step r :
  0 < r -> exists n, chunk_fuel r = S n
    /\ n = chunk_fuel (r - Z.min r MAX_COMPOUND_DELTA_MS).
Proof.
  intros Hr. unfold chunk_fuel.
  assert (HM : 0 < MAX_COMPOUND_DELTA_MS) by zconst.
  set (M := MAX_COMPOUND_DELTA_MS) in *. clearbody M.
  pose proof (ceil_div_bounds r M HM).
  exists (Z.to_nat (ceil_div r M - 1)).
  assert (1 <= ceil_div r M) by nia. split; [lia|]. f_equal.
  destruct (Z.min_spec r M) as [[Hlt ->]|[Hle ->]].
  - rewrite Z.sub_diag. assert (ceil_div r M = 1) by nia.
    unfold ceil_div at 2. rewrite Z.div_0_l by lia. lia.
  - unfold ceil_div. replace (- (r - M)) with (- r + 1 * M) by lia.
    rewrite Z.div_add by lia. lia.
Qed.

Lemma accrue_loop_unfold {A} (step : A -> Z -> res A) a r :
  accrue_loop step a r =
    if r <=? 0 then Ok a
    else let* a' := step a (Z.min r MAX_COMPOUND_DELTA_MS) in
         accrue_loop step a' (r - Z.min r MAX_COMPOUND_DELTA_MS).
Proof.
  unfold accrue_loop. destruct (Z.leb_spec r 0) as [H|H].
  - unfold chunk_fuel. assert (ceil_div r MAX_COMPOUND_DELTA_MS <= 0).
    { apply ceil_div_le_iff; [zconst|]. lia. }
    assert (Z.to_nat (ceil_div r MAX_COMPOUND_DELTA_MS) = 0%nat) as -> by lia.
    simpl. destruct (Z.leb_spec r 0); [done|lia].
  - destruct (chunk_fuel_step r H) as (n & -> & ->).
    cbn [accrue_loop_fuel]. destruct (Z.leb_spec r 0); [lia|]. done.
Qed.

(** Induction over the turns of the loop. *)
Lemma turns_ind (P : Z -> Prop) :
  (forall r, (0 < r -> P (r - Z.min r MAX_COMPOUND_DELTA_MS)) -> P r) -> forall r, P r.
Proof.
  intros H r. assert (0 < MAX_COMPOUND_DELTA_MS) by zconst.
  assert (forall n : nat, forall r, r <= Z.of_nat n -> P r) as Hn.
  { induction n as [|n IHn]; intros z Hz; apply H; intros Hpos; [lia|].
    apply IHn. lia. }
  apply (Hn (Z.to_nat r)). lia.
Qed.

Lemma accrue_loop_ind {A} (step : A -> Z -> res A) (P : A -> Prop) :
  (forall a c a', 0 < c <= MAX_COMPOUND_DELTA_MS -> P a -> step a c = Ok a' -> P a') ->
  forall r a a', P a -> accrue_loop step a r = Ok a' -> P a'.
Proof.
  intros Hstep r. induction r as [r IH] using turns_ind.
  intros a a' Ha. rewrite accrue_loop_unfold. destruct (Z.leb_spec r 0); [congruence|].
  intros (a1 & H1 & H2)%rbind_Ok.
  assert (0 < MAX_COMPOUND_DELTA_MS) by zconst.
  eapply IH; [done| |exact H2].
  eapply Hstep; [|exact Ha|exact H1]. lia.
Qed.

(** Two loops whose steps agree through a projection, under an invariant of the
    first, agree through it. *)
Lemma accrue_loop_rel {A B} (f : A -> Z -> res A) (g : B -> Z -> res B) (h : A -> B)
    (P : A -> Prop) :
  (forall a c a', 0 < c <= MAX_COMPOUND_DELTA_MS -> P a -> f a c = Ok a' -> P a') ->
  (forall a c, 0 < c <= MAX_COMPOUND_DELTA_MS -> P a ->
     (let* a' := f a c in Ok (h a')) = g (h a) c) ->
  forall r a, P a -> (let* a' := accrue_loop f a r in Ok (h a')) = accrue_loop g (h a) r.
Proof.
  intros Hinv Hfg r. induction r as [r IH] using turns_ind.
  intros a Ha. rewrite !accrue_loop_unfold. destruct (Z.leb_spec r 0); [done|].
  assert (0 < MAX_COMPOUND_DELTA_MS) by zconst.
  rewrite <- Hfg by (lia || done). destruct (f a _) as [a'|e] eqn:E; [|done]. cbn [rbind].
  apply IH; [done|]. eapply Hinv; [|exact Ha|exact E]. lia.
Qed.

(** ** Values of scaled totals

    [claim s i] is the RAY value of [s] shares at index [i], as [Ray::mul]
    rounds it. *)

Definition claim (s i : Z) : Z := half_up_div (s * i) RAY.

Lemma claim_nonneg s i : 0 <= s -> 0 <= i -> 0 <= claim s i.
Proof. intros. unfold claim. auto with fp. Qed.

Lemma claim_mono s s' i i' :
  0 <= s <= s' -> 0 <= i <= i' -> claim s i <= claim s' i'.
Proof. intros. unfold claim. apply half_up_div_mono; [zconst|]. nia. Qed.

(** Claims of two blocks of shares: the second block's value rounds away. *)
Lemma claim_add_le s s' i n :
  s' * i <= n * RAY -> claim (s + s') i <= claim s i + n.
Proof.
  intros H. unfold claim. rewrite <- half_up_div_add by zconst.
  apply half_up_div_mono; [zconst|]. lia.
Qed.

Lemma claim_add_ge s s' i n :
  n * RAY <= s' * i -> claim s i + n <= claim (s + s') i.
Proof.
  intros H. unfold claim. rewrite <- half_up_div_add by zconst.
  apply half_up_div_mono; [zconst|]. lia.
Qed.

Lemma ray_mul_claim s i v : Ray.mul s i = Ok v -> v = claim s i /\ 0 <= v <= i128_max.
Proof. intros H. fp_inv. done. Qed.

Lemma ray_mul_total s i :
  0 <= s <= i128_max -> 0 <= i <= i128_max -> claim s i <= i128_max ->
  Ray.mul s i = Ok (claim s i).
Proof.
  intros. by apply FpCore.mul_div_half_up_total.
Qed.

(** ** What each part of a step returns *)

Lemma update_borrow_index_Ok old f new :
  0 <= old <= MAX_BORROW_INDEX_RAY -> RAY <= f ->
  update_borrow_index old f = Ok new -> old <= new <= MAX_BORROW_INDEX_RAY.
Proof.
  intros Ho Hf H. unfold update_borrow_index in H. ok_inv H. fp_inv. subst v.
  assert (old <= half_up_div (old * f) RAY).
  { apply half_up_div_ge_iff; [zconst|]. assert (0 <= RAY / 2) by zconst. nia. }
  destruct (Z.ltb_spec MAX_BORROW_INDEX_RAY (half_up_div (old * f) RAY)); lia.
Qed.

Lemma update_supply_index_Ok s old r new :
  0 <= s -> 0 < old <= MAX_SUPPLY_INDEX_RAY -> 0 <= r ->
  update_supply_index s old r = Ok new ->
  old <= new <= MAX_SUPPLY_INDEX_RAY /\ claim s new <= claim s old + r.
Proof.
  intros Hs Ho Hr H. unfold update_supply_index, Ray.ZERO in H.
  destruct (_ || _)%bool eqn:E in H; [ok_inv H; lia|]. b2p.
  apply rbind_Ok in H as (V & HV & H). apply ray_mul_claim in HV as [-> HV].
  destruct (Z.eqb_spec (claim s old) 0); [ok_inv H; lia|].
  ok_inv H. fp_inv. subst v v0.
  set (g := floor_div ((claim s old + r) * RAY) s) in *.
  assert (FpCore.clamp_i128 g <= g).
  { assert (0 <= g) by (apply floor_div_nonneg; [lia|]; assert (0 < RAY) by zconst; nia).
    unfold FpCore.clamp_i128, i128_min, i128_max. lia. }
  split; [lia|].
  rewrite (Z.min_l old) by lia.
  destruct (Z.max_spec (Z.min (FpCore.clamp_i128 g) MAX_SUPPLY_INDEX_RAY) old)
    as [[_ ->]|[_ ->]]; [lia|].
  assert (s * Z.min (FpCore.clamp_i128 g) MAX_SUPPLY_INDEX_RAY <= (claim s old + r) * RAY).
  { assert (s * g <= (claim s old + r) * RAY).
    { pose proof (floor_div_bounds ((claim s old + r) * RAY) s ltac:(lia)). subst g. lia. }
    nia. }
  unfold claim at 1. apply half_up_div_le_iff; [zconst|].
  assert (RAY / 2 < RAY) by zconst. lia.
Qed.

Lemma supplier_rewards_Ok p b nbi obi sr fee :
  calculate_supplier_rewards p b nbi obi = Ok (sr, fee) ->
  0 <= sr /\ 0 <= fee /\ sr + fee = claim b nbi - claim b obi.
Proof.
  intros H. unfold calculate_supplier_rewards in H. ok_inv H.
  apply ray_mul_claim in Hv as [-> ?], Hv0 as [-> ?]. fp_inv. lia.
Qed.

Lemma shortfall_Ok s oi ni r sf :
  supply_index_reward_shortfall s oi ni r = Ok sf ->
  0 <= sf /\ sf = r - (claim s ni - claim s oi).
Proof.
  intros H. unfold supply_index_reward_shortfall in H. ok_inv H.
  apply ray_mul_claim in Hv as [-> ?], Hv0 as [-> ?]. fp_inv. lia.
Qed.

Lemma protocol_fee_shares_Ok fee si s r :
  0 <= fee -> 0 < si -> 0 <= s <= i128_max ->
  protocol_fee_shares fee si s = Ok r ->
  0 <= r /\ s + r <= i128_max /\ r * si <= fee * RAY.
Proof.
  intros Hf Hsi Hs H. unfold protocol_fee_shares in H. ok_inv H. fp_inv. subst v.
  assert (0 <= fee * RAY) by (assert (0 < RAY) by zconst; nia).
  pose proof (floor_div_nonneg (fee * RAY) si Hsi ltac:(done)).
  pose proof (floor_div_bounds (fee * RAY) si Hsi).
  assert (FpCore.clamp_i128 (floor_div (fee * RAY) si) <= floor_div (fee * RAY) si
          /\ 0 <= FpCore.clamp_i128 (floor_div (fee * RAY) si))
    by (unfold FpCore.clamp_i128, i128_min, i128_max; lia).
  unfold i128_saturating_sub. assert (i128_min <= 0) by zconst.
  split; [lia|]. split; [lia|]. nia.
Qed.

(** ** Conservation over one step *)

Section Step.

Context (p : MarketParams) (b s bi si delta : Z).
Context (Hp : valid_params p).
Context (Hb : 0 <= b) (Hs : 0 <= s <= i128_max).
Context (Hbi : 0 <= bi <= MAX_BORROW_INDEX_RAY) (Hsi : 0 < si <= MAX_SUPPLY_INDEX_RAY).
Context (Hdelta : 0 <= delta <= MAX_COMPOUND_DELTA_MS).

Lemma accrue_step_facts st :
  accrue_step p b s bi si delta = Ok st ->
  bi <= as_borrow_index st <= MAX_BORROW_INDEX_RAY
  /\ si <= as_supply_index st <= MAX_SUPPLY_INDEX_RAY
  /\ 0 <= as_revenue_shares st /\ s + as_revenue_shares st <= i128_max
  /\ claim (s + as_revenue_shares st) (as_supply_index st) - claim s si
     <= claim b (as_borrow_index st) - claim b bi.
Proof using All.
  intros H. unfold accrue_step in H.
  apply rbind_Ok in H as (bo & _ & H). apply rbind_Ok in H as (so & _ & H).
  apply rbind_Ok in H as (u & Hu & H). apply rbind_Ok in H as (rt & Hrt & H).
  apply rbind_Ok in H as (f & Hf & H). apply rbind_Ok in H as (nbi & Hnbi & H).
  apply rbind_Ok in H as ([sr fee] & Hrew & H). apply rbind_Ok in H as (nsi & Hnsi & H).
  apply rbind_Ok in H as (sf & Hsf & H). apply rbind_Ok in H as (pr & Hpr & H).
  apply rbind_Ok in H as (rev & Hrev & H). ok_inv H. simpl.
  apply utilization_Ok in Hu.
  destruct (borrow_rate_bounds p u Hp Hu) as (rt' & Hrt' & Hr0 & Hr1).
  rewrite Hrt' in Hrt. injection Hrt as ->.
  destruct (compound_interest_total rt delta) as (f' & Hf' & Hf0); [done|lia|nia|].
  rewrite Hf' in Hf. injection Hf as ->.
  apply update_borrow_index_Ok in Hnbi; [|done|nia].
  apply supplier_rewards_Ok in Hrew as (Hsr & Hfee & Hsum).
  apply update_supply_index_Ok in Hnsi as [Hnsi Hcl]; [|lia|done|done].
  apply shortfall_Ok in Hsf as [Hsf0 Hsf]. unfold Ray.checked_add in Hpr.
  apply checked_add_Ok in Hpr as [-> _].
  assert (0 <= rev /\ s + rev <= i128_max /\ rev * nsi <= (fee + sf) * RAY)
    as (Hr' & Hrs & Hrv).
  { destruct (Z.eqb_spec (fee + sf) Ray.ZERO) as [E|].
    - ok_inv Hrev. unfold Ray.ZERO in *. lia.
    - apply protocol_fee_shares_Ok in Hrev; [done|lia|lia|done]. }
  pose proof (claim_add_le s rev nsi (fee + sf) Hrv).
  repeat split; lia.
Qed.

(** Enough headroom for a step to return: debt and supply values well inside
    [i128], and debt at most [10^10] times the supply it was drawn from. *)
Context (Hb' : b <= i128_max).
Context (HD : 200 * claim b bi <= i128_max) (HS : 2 * claim s si <= i128_max).
Context (HU : claim s si = 0 \/ claim b bi <= 10 ^ 10 * claim s si).

Lemma utilization_total : exists u, utilization (claim b bi) (claim s si) = Ok u.
Proof using Hb Hs Hbi Hsi HD HS HU.
  unfold utilization, Ray.ZERO. pose proof (claim_nonneg b bi ltac:(lia) ltac:(lia)).
  pose proof (claim_nonneg s si ltac:(lia) ltac:(lia)).
  destruct (Z.eqb_spec (claim s si) 0) as [|Hne]; [eauto|].
  destruct HU as [|HU']; [done|]. assert (RAY <= i128_max) by zconst.
  eexists. apply FpCore.mul_div_half_up_total; try lia; [split; [zconst|done]|].
  apply half_up_div_le_iff; [lia|].
  assert (claim s si / 2 <= claim s si) by (apply Z.div_le_upper_bound; lia).
  assert (10 ^ 10 * RAY + 1 <= i128_max) by zconst.
  assert (claim b bi * RAY <= 10 ^ 10 * claim s si * RAY) by (assert (0 < RAY) by zconst; nia).
  nia.
Qed.

Lemma grown_debt_bound f :
  RAY <= f <= 60 * RAY ->
  exists nbi, update_borrow_index bi f = Ok nbi /\ bi <= nbi <= MAX_BORROW_INDEX_RAY
    /\ claim b nbi <= 60 * claim b bi + 31.
Proof using Hb Hbi.
  intros Hf. unfold update_borrow_index.
  assert (half_up_div (bi * f) RAY <= 60 * bi) as Hle.
  { apply half_up_div_le_iff; [zconst|]. assert (RAY / 2 < RAY) by zconst. nia. }
  assert (60 * MAX_BORROW_INDEX_RAY <= i128_max) by zconst.
  assert (60 * RAY <= i128_max) by zconst. assert (0 < RAY) by zconst.
  assert (bi <= half_up_div (bi * f) RAY).
  { apply half_up_div_ge_iff; [done|]. assert (0 <= RAY / 2) by zconst. nia. }
  unfold Ray.mul. rewrite FpCore.mul_div_half_up_total by lia. cbn [rbind].
  eexists; split; [done|].
  assert (forall n, bi <= n <= 60 * bi -> claim b n <= 60 * claim b bi + 31) as Hc.
  { intros n Hn. unfold claim. apply half_up_div_le_iff; [done|].
    pose proof (half_up_div_bounds (b * bi) RAY RAY_pos).
    assert (b * n <= 60 * (b * bi)) by nia. assert (RAY / 2 * 2 <= RAY) by zconst. lia. }
  destruct (Z.ltb_spec MAX_BORROW_INDEX_RAY (half_up_div (bi * f) RAY)); split;
    try lia; apply Hc; lia.
Qed.

Lemma supplier_rewards_total nbi :
  bi <= nbi <= MAX_BORROW_INDEX_RAY -> claim b nbi <= 60 * claim b bi + 31 ->
  exists sr fee, calculate_supplier_rewards p b nbi bi = Ok (sr, fee).
Proof using Hp Hb Hb' Hbi HD.
  intros Hn Hc. unfold calculate_supplier_rewards.
  assert (MAX_BORROW_INDEX_RAY <= i128_max) by zconst.
  pose proof (claim_nonneg b bi ltac:(lia) ltac:(lia)).
  pose proof (claim_mono b b bi nbi ltac:(lia) ltac:(lia)).
  assert (1000 <= i128_max) by zconst.
  rewrite ray_mul_total by lia. cbn [rbind]. rewrite ray_mul_total by lia. cbn [rbind].
  unfold Ray.checked_sub. rewrite checked_sub_total by lia. cbn [rbind].
  pose proof (vp_rf p Hp) as Hrf. assert (BPS <= i128_max) by zconst.
  set (acc := claim b nbi - claim b bi) in *. assert (0 <= acc) by lia.
  assert (half_up_div (acc * reserve_factor p) BPS <= acc).
  { apply half_up_div_le_iff; [zconst|]. assert (BPS / 2 < BPS) by zconst. nia. }
  pose proof (half_up_div_nonneg (acc * reserve_factor p) BPS BPS_pos ltac:(nia)).
  unfold Bps.apply_to_ray.
  rewrite FpCore.mul_div_half_up_total by (lia || (split; [zconst|done])). cbn [rbind].
  rewrite checked_sub_total by lia. cbn [rbind]. eauto.
Qed.

Lemma update_supply_index_total sr :
  0 <= sr -> claim s si + sr <= i128_max -> exists nsi, update_supply_index s si sr = Ok nsi.
Proof using Hs Hsi HS.
  intros Hsr Hr. unfold update_supply_index, Ray.ZERO.
  destruct (_ || _)%bool eqn:E; [eauto|]. b2p.
  assert (MAX_SUPPLY_INDEX_RAY <= i128_max) by zconst.
  pose proof (claim_nonneg s si ltac:(lia) ltac:(lia)).
  rewrite ray_mul_total by lia. cbn [rbind].
  destruct (Z.eqb_spec (claim s si) 0); [eauto|].
  assert (i128_min <= 0) by zconst. unfold Ray.checked_add.
  rewrite checked_add_total by lia. cbn [rbind].
  rewrite FpCore.mul_div_floor_saturating_total by (lia || (split; [zconst|done])).
  cbn [rbind]. eauto.
Qed.

(** The split never over-distributes: the shortfall subtraction cannot panic on
    an index produced by [update_supply_index]. *)
Lemma shortfall_total sr nsi :
  0 <= sr -> claim s si + sr <= i128_max -> update_supply_index s si sr = Ok nsi ->
  exists sf, supply_index_reward_shortfall s si nsi sr = Ok sf /\ 0 <= sf <= sr.
Proof using Hs Hsi HS.
  intros Hsr Hr Hn.
  apply update_supply_index_Ok in Hn as [Hn Hc]; [|lia|done|done].
  assert (MAX_SUPPLY_INDEX_RAY <= i128_max) by zconst.
  pose proof (claim_nonneg s si ltac:(lia) ltac:(lia)).
  pose proof (claim_mono s s si nsi ltac:(lia) ltac:(lia)).
  unfold supply_index_reward_shortfall, Ray.checked_sub.
  rewrite ray_mul_total by lia. cbn [rbind]. rewrite ray_mul_total by lia. cbn [rbind].
  rewrite checked_sub_total by lia. cbn [rbind]. rewrite checked_sub_total by lia.
  eexists; split; [done|]. lia.
Qed.

Lemma accrue_step_returns : exists st, accrue_step p b s bi si delta = Ok st.
Proof using All.
  unfold accrue_step, scaled_to_original.
  assert (MAX_BORROW_INDEX_RAY <= i128_max) by zconst.
  assert (MAX_SUPPLY_INDEX_RAY <= i128_max) by zconst.
  assert (i128_min <= 0) by zconst. assert (100000 <= i128_max) by zconst.
  pose proof (claim_nonneg b bi ltac:(lia) ltac:(lia)).
  pose proof (claim_nonneg s si ltac:(lia) ltac:(lia)).
  rewrite !ray_mul_total by lia. cbn [rbind].
  destruct utilization_total as [u Hu]. rewrite Hu. cbn [rbind].
  apply utilization_Ok in Hu.
  destruct (borrow_rate_bounds p u Hp Hu) as (rt & -> & Hr0 & Hr1). cbn [rbind].
  destruct (compound_interest_total rt delta) as (f & -> & Hf); [done|lia|nia|]. cbn [rbind].
  destruct (grown_debt_bound f) as (nbi & -> & Hnbi & Hnd); [nia|]. cbn [rbind].
  destruct (supplier_rewards_total nbi Hnbi Hnd) as (sr & fee & Hrew).
  rewrite Hrew. cbn [rbind]. apply supplier_rewards_Ok in Hrew as (Hsr & Hfee & Hsum).
  destruct (update_supply_index_total sr) as [nsi Hnsi]; [done|lia|].
  rewrite Hnsi. cbn [rbind].
  destruct (shortfall_total sr nsi) as (sf & -> & Hsf); [done|lia|done|]. cbn [rbind].
  unfold Ray.checked_add. rewrite checked_add_total by lia. cbn [rbind].
  destruct (Z.eqb_spec (fee + sf) Ray.ZERO); cbn [rbind]; [eauto|].
  apply update_supply_index_Ok in Hnsi as [Hnsi _]; [|lia|done|done].
  unfold protocol_fee_shares.
  rewrite FpCore.mul_div_floor_saturating_total by (lia || (split; [zconst|done])).
  cbn [rbind]. eauto.
Qed.

End Step.

End RatesAccrual.
