(* ===== verification/PoolCache.v ===== *)
(** * The market cache of the pool
    (contracts/pool/src/cache, contracts/pool/src/storage.rs, contracts/pool/src/time.rs)

    [Cache] is the working copy of one market: loaded from storage, mutated by
    an operation, written back by [commit].  The fields [env] and the TTL
    renewals of the source carry no market data and are left out. *)

From S2P Require Import Prelude Errors FpCore Fp PoolTypes RatesCurve RatesScaling RatesAccrual.
From stdpp Require Import base numbers gmap.
From Stdlib Require Import ZArith Lia Bool.

Open Scope Z_scope.

(** ** Persistent storage and the ledger *)

(** What the pool can do to the outside: token transfers from the pool and
    events, in call order.  A failed token call reverts the transaction, so a
    completed operation is one whose transfers succeeded; [TryTransferOut] is
    [try_transfer], whose failure the source ignores. *)
Inductive Effect : Type :=
| TransferOut (token recipient : Address) (amount : Z)
| TryTransferOut (token recipient : Address) (amount : Z)
| EmitMarketStates (updates : list MarketStateSnapshot)
| EmitMarketParams (hub : Z) (token : Address) (params : MarketParamsRaw)
| EmitStrategyFee (hub : Z) (token : Address) (amount fee amount_sent : Z).

Record Pool : Type := mkPool {
  pool_params : gmap HubAssetKey MarketParamsRaw;
  pool_state : gmap HubAssetKey PoolStateRaw;
  pool_owner : option Address;
  pool_log : list Effect
}.

(** The host side of a call: [env.ledger().timestamp()] in seconds, the contract's
    own address, and the addresses that authorized it ([require_auth]). *)
Record Env : Type := mkEnv {
  ledger_timestamp : Z;
  current_contract_address : Address;
  authorized : Address -> bool
}.

(** [time::now_ms] *)
Definition now_ms (env : Env) : res Z :=
  let t := ledger_timestamp env * MS_PER_SECOND in
  if t <=? u64_max then Ok t else Err (EGeneric MathOverflow).

Module Storage.

Definition market_exists (w : Pool) (h : HubAssetKey) : bool :=
  match pool_params w !! h with Some _ => true | None => false end.

Definition read_params (w : Pool) (h : HubAssetKey) : res MarketParamsRaw :=
  of_option (EGeneric PoolNotInitialized) (pool_params w !! h).

Definition read_state (w : Pool) (h : HubAssetKey) : res PoolStateRaw :=
  of_option (EGeneric PoolNotInitialized) (pool_state w !! h).

Definition load_sync_data (w : Pool) (h : HubAssetKey) : res PoolSyncData :=
  let* params := read_params w h in
  let* state := read_state w h in
  Ok {| sync_params := params; sync_state := state |}.

Definition write_params (w : Pool) (h : HubAssetKey) (p : MarketParamsRaw) : Pool :=
  {| pool_params := <[h := p]> (pool_params w); pool_state := pool_state w;
     pool_owner := pool_owner w; pool_log := pool_log w |}.

Definition write_state (w : Pool) (h : HubAssetKey) (s : PoolStateRaw) : Pool :=
  {| pool_params := pool_params w; pool_state := <[h := s]> (pool_state w);
     pool_owner := pool_owner w; pool_log := pool_log w |}.

Definition write_rate_model (w : Pool) (h : HubAssetKey) (m : InterestRateModel)
    : res (MarketParamsRaw * Pool) :=
  let* p := read_params w h in
  let params :=
    {| rp_max_borrow_rate := irm_max_borrow_rate m;
       rp_base_borrow_rate := irm_base_borrow_rate m;
       rp_slope1 := irm_slope1 m;
       rp_slope2 := irm_slope2 m;
       rp_slope3 := irm_slope3 m;
       rp_mid_utilization := irm_mid_utilization m;
       rp_optimal_utilization := irm_optimal_utilization m;
       rp_max_utilization := irm_max_utilization m;
       rp_reserve_factor := irm_reserve_factor m;
       rp_is_flashloanable := irm_is_flashloanable m;
       rp_flashloan_fee := irm_flashloan_fee m;
       rp_asset_id := rp_asset_id p;
       rp_asset_decimals := rp_asset_decimals p |} in
  Ok (params, write_params w h params).

Definition emit (w : Pool) (e : Effect) : Pool :=
  {| pool_params := pool_params w; pool_state := pool_state w;
     pool_owner := pool_owner w; pool_log := pool_log w ++ [e] |}.

End Storage.

(** [events::emit_market_state_batch], [emit_strategy_fee] *)
Definition emit_market_state_batch (w : Pool) (snapshots : list MarketStateSnapshot) : Pool :=
  match snapshots with
  | [] => w
  | _ => Storage.emit w (EmitMarketStates snapshots)
  end.

Definition emit_market_state (w : Pool) (snapshot : MarketStateSnapshot) : Pool :=
  emit_market_state_batch w [snapshot].

Definition emit_strategy_fee (w : Pool) (hub : Z) (token : Address)
    (amount fee amount_sent : Z) : Pool :=
  if fee =? 0 then w else Storage.emit w (EmitStrategyFee hub token amount fee amount_sent).

(** [validation::require_positive_amount], [require_nonneg_amount] *)
Definition require_positive_amount (amount : Z) : res unit :=
  require (0 <? amount) (EGeneric AmountMustBePositive).

Definition require_nonneg_amount (amount : Z) : res unit :=
  require (0 <=? amount) (EGeneric AmountMustBePositive).

(** ** The cache *)

Record Cache : Type := mkCache {
  c_hub_asset : HubAssetKey;
  c_params : MarketParams;
  c_last_timestamp : Z;
  c_current_timestamp : Z;
  c_supplied : Ray;
  c_borrowed : Ray;
  c_revenue : Ray;
  c_borrow_index : Ray;
  c_supply_index : Ray;
  c_cash : Z
}.

Module Cache.

Definition load (env : Env) (w : Pool) (h : HubAssetKey) : res Cache :=
  let* raw_params := Storage.read_params w h in
  let* raw_state := Storage.read_state w h in
  let state := pool_state_of_raw raw_state in
  let* time := now_ms env in
  Ok {| c_hub_asset := h;
        c_params := params_of_raw raw_params;
        c_last_timestamp := ps_last_timestamp state;
        c_current_timestamp := time;
        c_supplied := ps_supplied state;
        c_borrowed := ps_borrowed state;
        c_revenue := ps_revenue state;
        c_borrow_index := ps_borrow_index state;
        c_supply_index := ps_supply_index state;
        c_cash := ps_cash state |}.

Definition snapshot (c : Cache) : MarketStateSnapshot :=
  {| snap_hub_asset := c_hub_asset c;
     snap_timestamp := c_current_timestamp c;
     snap_supply_index := c_supply_index c;
     snap_borrow_index := c_borrow_index c;
     snap_cash := c_cash c;
     snap_supplied := c_supplied c;
     snap_borrowed := c_borrowed c;
     snap_revenue := c_revenue c |}.

Definition to_state (c : Cache) : PoolStateRaw :=
  {| rs_supplied := c_supplied c;
     rs_borrowed := c_borrowed c;
     rs_revenue := c_revenue c;
     rs_borrow_index := c_borrow_index c;
     rs_supply_index := c_supply_index c;
     rs_last_timestamp := c_last_timestamp c;
     rs_cash := c_cash c |}.

Definition commit (c : Cache) (w : Pool) : Pool * MarketStateSnapshot :=
  (Storage.write_state w (c_hub_asset c) (to_state c), snapshot c).

Definition elapsed_ms (c : Cache) : Z :=
  u64_saturating_sub (c_current_timestamp c) (c_last_timestamp c).

Definition needs_accrual (c : Cache) : bool := 0 <? elapsed_ms c.

(** Field updates, [self.field = v]. *)
Definition set_last_timestamp (c : Cache) (v : Z) : Cache :=
  mkCache (c_hub_asset c) (c_params c) v (c_current_timestamp c) (c_supplied c)
    (c_borrowed c) (c_revenue c) (c_borrow_index c) (c_supply_index c) (c_cash c).
Definition set_supplied (c : Cache) (v : Ray) : Cache :=
  mkCache (c_hub_asset c) (c_params c) (c_last_timestamp c) (c_current_timestamp c) v
    (c_borrowed c) (c_revenue c) (c_borrow_index c) (c_supply_index c) (c_cash c).
Definition set_borrowed (c : Cache) (v : Ray) : Cache :=
  mkCache (c_hub_asset c) (c_params c) (c_last_timestamp c) (c_current_timestamp c)
    (c_supplied c) v (c_revenue c) (c_borrow_index c) (c_supply_index c) (c_cash c).
Definition set_revenue (c : Cache) (v : Ray) : Cache :=
  mkCache (c_hub_asset c) (c_params c) (c_last_timestamp c) (c_current_timestamp c)
    (c_supplied c) (c_borrowed c) v (c_borrow_index c) (c_supply_index c) (c_cash c).
Definition set_borrow_index (c : Cache) (v : Ray) : Cache :=
  mkCache (c_hub_asset c) (c_params c) (c_last_timestamp c) (c_current_timestamp c)
    (c_supplied c) (c_borrowed c) (c_revenue c) v (c_supply_index c) (c_cash c).
Definition set_supply_index (c : Cache) (v : Ray) : Cache :=
  mkCache (c_hub_asset c) (c_params c) (c_last_timestamp c) (c_current_timestamp c)
    (c_supplied c) (c_borrowed c) (c_revenue c) (c_borrow_index c) v (c_cash c).
Definition set_cash (c : Cache) (v : Z) : Cache :=
  mkCache (c_hub_asset c) (c_params c) (c_last_timestamp c) (c_current_timestamp c)
    (c_supplied c) (c_borrowed c) (c_revenue c) (c_borrow_index c) (c_supply_index c) v.

Definition mark_accrued (c : Cache) : Cache := set_last_timestamp c (c_current_timestamp c).

(** *** cash.rs *)

Definition require_reserves (c : Cache) (amount : Z) : res unit :=
  require (amount <=? c_cash c) (ECollateral InsufficientLiquidity).

Definition credit_cash (c : Cache) (amount : Z) : res Cache :=
  do! require_nonneg_amount amount in
  let* cash := of_option (EGeneric MathOverflow) (i128_checked_add (c_cash c) amount) in
  Ok (set_cash c cash).

Definition debit_cash (c : Cache) (amount : Z) : res Cache :=
  do! require_nonneg_amount amount in
  do! require_reserves c amount in
  let* cash := of_option (EGeneric MathOverflow) (i128_checked_sub (c_cash c) amount) in
  Ok (set_cash c cash).

Definition transfer_out (c : Cache) (w : Pool) (recipient : Address) (amount : Z) : res Pool :=
  do! require_nonneg_amount amount in
  Ok (if amount =? 0 then w
      else Storage.emit w (TransferOut (asset_id (c_params c)) recipient amount)).

(** *** scale.rs *)

Definition calculate_utilization (c : Cache) : res Ray :=
  if c_supplied c =? Ray.ZERO then Ok Ray.ZERO
  else
    let* total_borrowed := RatesScaling.scaled_to_original (c_borrowed c) (c_borrow_index c) in
    let* total_supplied := RatesScaling.scaled_to_original (c_supplied c) (c_supply_index c) in
    RatesCurve.utilization total_borrowed total_supplied.

Definition calculate_scaled_supply (c : Cache) (amount : Z) : res Ray :=
  RatesScaling.calculate_scaled_supply amount (asset_decimals (c_params c)) (c_supply_index c).

Definition calculate_scaled_borrow (c : Cache) (amount : Z) : res Ray :=
  RatesScaling.calculate_scaled_borrow amount (asset_decimals (c_params c)) (c_borrow_index c).

Definition unscale_supply (c : Cache) (scaled : Ray) : res Z :=
  RatesScaling.unscale_supply scaled (c_supply_index c) (asset_decimals (c_params c)).

Definition unscale_supply_floor (c : Cache) (scaled : Ray) : res Z :=
  RatesScaling.unscale_supply_floor scaled (c_supply_index c) (asset_decimals (c_params c)).

Definition unscale_borrow (c : Cache) (scaled : Ray) : res Z :=
  RatesScaling.unscale_borrow scaled (c_borrow_index c) (asset_decimals (c_params c)).

Definition unscale_borrow_ceil_ray (c : Cache) (scaled : Ray) : res Ray :=
  Ray.mul_ceil scaled (c_borrow_index c).

Definition resolve_withdrawal (c : Cache) (amount : Z) (pos_scaled : Ray) : res (Ray * Z) :=
  RatesScaling.resolve_withdrawal amount pos_scaled (c_supply_index c)
    (asset_decimals (c_params c)).

Definition resolve_repay (c : Cache) (amount : Z) (pos_scaled : Ray) : res (Ray * Z) :=
  RatesScaling.resolve_repay amount pos_scaled (c_borrow_index c)
    (asset_decimals (c_params c)).

Definition resolve_net_settle (c : Cache) (amount : Z) (supply_scaled debt_scaled : Ray)
    : res (Ray * Ray * Z) :=
  RatesScaling.resolve_net_settle amount supply_scaled debt_scaled
    (c_supply_index c) (c_borrow_index c) (asset_decimals (c_params c)).

(** *** shares.rs *)

Definition require_revenue_backed (c : Cache) : res unit :=
  require (c_revenue c <=? c_supplied c) (EGeneric InternalError).

Definition mint_supply (c : Cache) (scaled : Ray) : res Cache :=
  let* v := Ray.checked_add (c_supplied c) scaled in Ok (set_supplied c v).

Definition burn_supply (c : Cache) (scaled : Ray) : res Cache :=
  let* v := Ray.checked_sub (c_supplied c) scaled in
  let c := set_supplied c v in
  do! require_revenue_backed c in
  Ok c.

Definition mint_debt (c : Cache) (scaled : Ray) : res Cache :=
  let* v := Ray.checked_add (c_borrowed c) scaled in Ok (set_borrowed c v).

Definition burn_debt (c : Cache) (scaled : Ray) : res Cache :=
  let* v := Ray.checked_sub (c_borrowed c) scaled in Ok (set_borrowed c v).

Definition accrue_revenue (c : Cache) (scaled : Ray) : res Cache :=
  let* r := Ray.checked_add (c_revenue c) scaled in
  let* s := Ray.checked_add (c_supplied c) scaled in
  Ok (set_supplied (set_revenue c r) s).

Definition absorb_supply_as_revenue (c : Cache) (scaled : Ray) : res Cache :=
  let* r := Ray.checked_add (c_revenue c) scaled in
  let c := set_revenue c r in
  do! require_revenue_backed c in
  Ok c.

Definition burn_claimable_revenue (c : Cache) : res (Z * Cache) :=
  let* treasury_actual := unscale_supply_floor c (c_revenue c) in
  let amount := Z.min (c_cash c) treasury_actual in
  if amount <=? 0 then Ok (0, c)
  else
    let* scaled_to_burn :=
      (if treasury_actual <=? amount then Ok (c_revenue c)
       else Ray.mul_ratio_ceil (c_revenue c) amount treasury_actual) in
    do! require (negb (scaled_to_burn =? Ray.ZERO)) (EGeneric InternalError) in
    let* r := Ray.checked_sub (c_revenue c) scaled_to_burn in
    let* s := Ray.checked_sub (c_supplied c) scaled_to_burn in
    Ok (amount, set_supplied (set_revenue c r) s).

(** *** report.rs *)

Definition market_index (c : Cache) : MarketIndexRaw :=
  {| mi_borrow_index := c_borrow_index c; mi_supply_index := c_supply_index c |}.

Definition position_mutation (c : Cache) (scaled : Ray) (actual_amount : Z)
    : PoolPositionMutation :=
  {| pm_position := mkScaledPosition scaled;
     pm_market_index := market_index c;
     pm_actual_amount := actual_amount;
     pm_asset_decimals := asset_decimals (c_params c) |}.

Definition strategy_mutation (c : Cache) (scaled : Ray) (actual_amount amount_received : Z)
    : PoolStrategyMutation :=
  {| sm_position := mkScaledPosition scaled;
     sm_market_index := market_index c;
     sm_actual_amount := actual_amount;
     sm_amount_received := amount_received;
     sm_asset_decimals := asset_decimals (c_params c) |}.

End Cache.
