(* ===== verification/PoolInterest.v ===== *)
(** * Accrual, revenue, bad debt and guards of the pool
    (contracts/pool/src/interest.rs, contracts/pool/src/guards.rs)

    Also the two notions every pool theorem is about: [market_inv], the
    well-formedness of a market, and [gap], supplier claims minus the cash and
    debt that back them. *)

From S2P Require Import Prelude Errors FpCore Fp PoolTypes RatesCurve RatesScaling RatesAccrual PoolCache.
From stdpp Require Import base numbers.
From Stdlib Require Import ZArith Lia Bool.

Open Scope Z_scope.

Module Interest.

Import RatesAccrual.

Definition accrue_chunk (c : Cache) (delta_ms : Z) : res Cache :=
  let* step := accrue_step (c_params c) (c_borrowed c) (c_supplied c)
                 (c_borrow_index c) (c_supply_index c) delta_ms in
  let c := Cache.set_borrow_index c (as_borrow_index step) in
  let c := Cache.set_supply_index c (as_supply_index step) in
  Cache.accrue_revenue c (as_revenue_shares step).

Definition global_sync (c : Cache) : res Cache :=
  if negb (Cache.needs_accrual c) then Ok c
  else
    let* c := accrue_loop accrue_chunk c (Cache.elapsed_ms c) in
    Ok (Cache.mark_accrued c).

Definition add_protocol_revenue (c : Cache) (fee : Ray) : res Cache :=
  if fee =? Ray.ZERO then Ok c
  else
    let* fee_scaled := protocol_fee_shares fee (c_supply_index c) (c_supplied c) in
    Cache.accrue_revenue c fee_scaled.

Definition apply_bad_debt_to_supply_index (c : Cache) (bad_debt : Ray) : res Cache :=
  let* total_supplied_value := Ray.mul (c_supplied c) (c_supply_index c) in
  if total_supplied_value =? Ray.ZERO then Ok c
  else
    let capped := Z.min bad_debt total_supplied_value in
    let* remaining := Ray.checked_sub total_supplied_value capped in
    let* reduction_factor := Ray.div_floor remaining total_supplied_value in
    let* new_supply_index := Ray.mul_floor (c_supply_index c) reduction_factor in
    Ok (Cache.set_supply_index c (Z.max new_supply_index SUPPLY_INDEX_FLOOR_RAW)).

End Interest.

Module Guards.

Definition require_utilization_below_max (c : Cache) : res unit :=
  if (c_supplied c =? Ray.ZERO) || (Ray.ONE <=? max_utilization (c_params c)) then Ok tt
  else
    let* borrowed := Ray.mul_ceil (c_borrowed c) (c_borrow_index c) in
    if borrowed =? Ray.ZERO then Ok tt
    else
      let* supplied := Ray.mul_floor (c_supplied c) (c_supply_index c) in
      if Ray.ZERO <? supplied then
        let* u := Ray.div_ceil borrowed supplied in
        require (u <=? max_utilization (c_params c)) (ECollateral UtilizationAboveMax)
      else Err (ECollateral UtilizationAboveMax).

Definition require_liquidation_buffer (c : Cache) (draw : Z) : res unit :=
  let* supplied := Cache.unscale_supply_floor c (c_supplied c) in
  let* reserved := FpCore.mul_div_ceil supplied LIQUIDATION_BUFFER_BPS BPS in
  require (reserved <=? i128_saturating_sub (c_cash c) draw)
    (ECollateral InsufficientLiquidity).

Definition backing_shortfall (c : Cache) : res Z :=
  let* claims := Ray.mul_floor (c_supplied c) (c_supply_index c) in
  let* debt := Cache.unscale_borrow_ceil_ray c (c_borrowed c) in
  if claims <=? debt then Ok 0
  else
    let* diff := Ray.checked_sub claims debt in
    let* uncovered := Ray.to_asset_floor diff (asset_decimals (c_params c)) in
    Ok (Z.max (i128_saturating_sub uncovered (c_cash c)) 0).

Definition require_backed_market (c : Cache) : res unit :=
  let* shortfall := backing_shortfall c in
  require (shortfall =? 0) (ECollateral PoolInsolvent).

Definition require_supply_for_debt (c : Cache) : res unit :=
  if (c_supplied c =? Ray.ZERO) && negb (c_borrowed c =? Ray.ZERO)
  then Err (ECollateral PoolInsolvent) else Ok tt.

End Guards.

(** ** Well-formed markets *)

Record market_inv (c : Cache) : Prop := {
  mi_params : valid_params (c_params c);
  mi_supplied : c_supplied c <= i128_max;
  mi_borrowed : 0 <= c_borrowed c <= i128_max;
  mi_revenue : 0 <= c_revenue c <= c_supplied c;
  mi_bi : RAY <= c_borrow_index c <= MAX_BORROW_INDEX_RAY;
  mi_si : SUPPLY_INDEX_FLOOR_RAW <= c_supply_index c <= MAX_SUPPLY_INDEX_RAY;
  mi_cash : 0 <= c_cash c <= i128_max
}.

(** Supplier claims minus debt and cash, in RAY units of the asset.  Claims and
    debt are valued as [Ray::mul] values them.  [gap <= 0]: every claim,
    protocol revenue included, is covered. *)
Definition claims (c : Cache) : Z := RatesAccrual.claim (c_supplied c) (c_supply_index c).
Definition debts (c : Cache) : Z := RatesAccrual.claim (c_borrowed c) (c_borrow_index c).
Definition cash_ray (c : Cache) : Z := c_cash c * unit_of (asset_decimals (c_params c)).
Definition gap (c : Cache) : Z := claims c - debts c - cash_ray c.

(** The parts of a market that accrual never touches. *)
Definition same_book (c c' : Cache) : Prop :=
  c_hub_asset c' = c_hub_asset c /\ c_params c' = c_params c
  /\ c_current_timestamp c' = c_current_timestamp c
  /\ c_borrowed c' = c_borrowed c /\ c_cash c' = c_cash c.

Lemma same_book_refl c : same_book c c.
Proof. done. Qed.

Lemma same_book_trans c1 c2 c3 : same_book c1 c2 -> same_book c2 c3 -> same_book c1 c3.
Proof. unfold same_book. intros (->&->&->&->&->). done. Qed.

Lemma floor_pos : 0 < SUPPLY_INDEX_FLOOR_RAW.
Proof. zconst. Qed.

(** Ranges of the fields as [lia] uses them. *)
Ltac inv_ranges H :=
  let Hvp := fresh "Hvp" in
  destruct H as [Hvp ? ? ? ? ? ?]; pose proof (vp_dec _ Hvp);
  pose proof floor_pos; pose proof RAY_pos.

Section Sync.

Import RatesAccrual Interest.

(** Growth of a market: what accrual may do to it. *)
Definition accrued (c c' : Cache) : Prop :=
  same_book c c' /\ market_inv c' /\ gap c' <= gap c
  /\ c_borrow_index c <= c_borrow_index c' /\ c_supply_index c <= c_supply_index c'
  /\ c_supplied c <= c_supplied c' /\ c_revenue c <= c_revenue c'
  /\ c_supplied c' - c_revenue c' = c_supplied c - c_revenue c.

Lemma accrued_refl c : market_inv c -> accrued c c.
Proof. intros. unfold accrued. split_and!; try done; lia. Qed.

Lemma accrued_trans c1 c2 c3 : accrued c1 c2 -> accrued c2 c3 -> accrued c1 c3.
Proof.
  intros (Hb1&?&?&?&?&?&?&?) (Hb2&?&?&?&?&?&?&?).
  split; [by eapply same_book_trans|]. split_and!; try done; lia.
Qed.

Lemma accrue_revenue_Ok c x c' :
  Cache.accrue_revenue c x = Ok c' ->
  c' = Cache.set_supplied (Cache.set_revenue c (c_revenue c + x)) (c_supplied c + x)
  /\ c_supplied c + x <= i128_max.
Proof.
  intros H. unfold Cache.accrue_revenue in H. ok_inv H. fp_inv. subst. split; [done|lia].
Qed.

Lemma accrue_chunk_Ok c d c' :
  market_inv c -> 0 <= d <= RatesCurve.MAX_COMPOUND_DELTA_MS ->
  accrue_chunk c d = Ok c' -> accrued c c'.
Proof.
  intros Hc Hd H. pose proof Hc as Hc'. inv_ranges Hc'. unfold accrue_chunk in H.
  apply rbind_Ok in H as (st & Hst & H).
  apply accrue_step_facts in Hst as (Hbi & Hsi & Hr & Hrs & Hcons); [|lia || done..].
  apply accrue_revenue_Ok in H as [-> Hmax]. simpl in *.
  unfold accrued, same_book. split_and!; simpl; try reflexivity; try lia.
  - split; simpl; lia || assumption.
  - unfold gap, claims, debts, cash_ray. simpl. lia.
Qed.

(** Accrual keeps a market well formed, never lowers an index, leaves cash and
    debt shares alone, books its revenue as supply shares one for one, and never
    widens the gap. *)
Lemma global_sync_accrued c c' :
  market_inv c -> global_sync c = Ok c' -> accrued c c'.
Proof.
  intros Hc H. unfold global_sync in H. destruct (negb _); ok_inv H.
  { by apply accrued_refl. }
  assert (accrued c v) as Hv'.
  { eapply (accrue_loop_ind accrue_chunk (fun x => accrued c x)); [|by apply accrued_refl|exact Hv].
    intros a d a' Hd Ha Hstep. eapply accrued_trans; [exact Ha|].
    apply (accrue_chunk_Ok a d a'); [apply Ha|lia|done]. }
  destruct Hv' as (Hb & Hi & Hrest). split_and!; [done| |apply Hrest..].
  destruct Hi. split; simpl; lia || assumption.
Qed.

Lemma global_sync_timestamp c c' :
  global_sync c = Ok c' -> c_last_timestamp c' = Z.max (c_last_timestamp c) (c_current_timestamp c).
Proof.
  unfold global_sync, Cache.needs_accrual, Cache.elapsed_ms, u64_saturating_sub.
  destruct (Z.ltb_spec 0 (Z.max 0 (c_current_timestamp c - c_last_timestamp c))); simpl;
    intros H'; ok_inv H'; [|lia].
  assert (same_ts : c_current_timestamp v = c_current_timestamp c).
  { eapply (accrue_loop_ind accrue_chunk
              (fun x => c_current_timestamp x = c_current_timestamp c)); [|done|exact Hv].
    intros a d a' _ Ha Hstep. unfold accrue_chunk in Hstep.
    apply rbind_Ok in Hstep as (st & _ & Hstep).
    apply accrue_revenue_Ok in Hstep as [-> _]. done. }
  simpl. lia.
Qed.

(** The mutator and the read-only projection agree: syncing a market yields
    exactly the indexes [simulate_update_indexes] predicts. *)
Definition sim_of (c : Cache) : SimState :=
  {| sim_supplied := c_supplied c;
     sim_borrow_index := c_borrow_index c;
     sim_supply_index := c_supply_index c |}.

Lemma accrue_chunk_sim c d :
  market_inv c -> 0 <= d <= RatesCurve.MAX_COMPOUND_DELTA_MS ->
  (let* c' := accrue_chunk c d in Ok (sim_of c'))
  = simulate_step (c_params c) (c_borrowed c) (sim_of c) d.
Proof.
  intros Hc Hd. inv_ranges Hc. unfold accrue_chunk, simulate_step. simpl.
  destruct (accrue_step _ _ _ _ _ _) as [st|e] eqn:Hst; [|done]. cbn [rbind].
  apply accrue_step_facts in Hst as (_ & _ & Hr & Hrs & _); [|lia || done..].
  unfold Cache.accrue_revenue, Ray.checked_add. simpl.
  assert (i128_min <= 0) by zconst.
  rewrite !checked_add_total by lia. done.
Qed.

(** [global_sync] and [simulate_update_indexes] compute the same indexes, or fail
    with the same error. *)
Lemma global_sync_simulates env w h c sync t :
  market_inv c -> Cache.load env w h = Ok c ->
  Storage.load_sync_data w h = Ok sync -> now_ms env = Ok t ->
  (let* c' := global_sync c in Ok (Cache.market_index c'))
  = (let* m := simulate_update_indexes t sync in Ok (market_index_raw_of m)).
Proof.
  intros Hc Hl Hsd Ht. unfold Cache.load, Storage.load_sync_data in *.
  destruct (Storage.read_params w h) as [rp|]; [|done].
  destruct (Storage.read_state w h) as [rs|]; [|done].
  cbn [rbind] in *. injection Hsd as <-. rewrite Ht in Hl. cbn [rbind] in Hl.
  injection Hl as <-. set (c := mkCache _ _ _ _ _ _ _ _ _ _) in *.
  unfold global_sync, simulate_update_indexes, Cache.needs_accrual, Cache.elapsed_ms.
  simpl. fold (u64_saturating_sub t (rs_last_timestamp rs)).
  set (r := u64_saturating_sub t (rs_last_timestamp rs)).
  assert (0 <= r) by (unfold r, u64_saturating_sub; lia).
  destruct (Z.ltb_spec 0 r), (Z.eqb_spec r 0); try lia; [|done].
  cbn [negb]. rewrite !rbind_assoc. cbn [rbind].
  change (mkSimState _ _ _) with (sim_of c).
  rewrite <- (accrue_loop_rel accrue_chunk _ sim_of
    (fun a => market_inv a /\ c_params a = c_params c /\ c_borrowed a = c_borrowed c)).
  - rewrite rbind_assoc. by destruct (accrue_loop accrue_chunk c r).
  - intros a d a' Hd (Ha & Hap & Hab) Hstep.
    apply accrue_chunk_Ok in Hstep as (Hb & Hi & _); [|done|lia].
    destruct Hb as (_ & Hbp & _ & Hbb & _). split_and!; [done|congruence|congruence].
  - intros a d Hd (Ha & Hap & Hab). rewrite accrue_chunk_sim by (lia || done).
    by rewrite Hap, Hab.
  - done.
Qed.

(** Accrual over at most a year returns, given headroom: debt and supply values
    well inside [i128] and debt at most [10^10] times supply. *)
Definition headroom (c : Cache) : Prop :=
  200 * debts c <= i128_max /\ 2 * claims c <= i128_max
  /\ (claims c = 0 \/ debts c <= 10 ^ 10 * claims c).

Lemma global_sync_returns c :
  market_inv c -> headroom c -> Cache.elapsed_ms c <= RatesCurve.MAX_COMPOUND_DELTA_MS ->
  exists c', global_sync c = Ok c'.
Proof.
  intros Hc (HD & HS & HU) He. inv_ranges Hc. unfold global_sync.
  destruct (Cache.needs_accrual c) eqn:Hn; simpl; [|eauto].
  unfold Cache.needs_accrual in Hn. b2p. rewrite accrue_loop_unfold.
  destruct (Z.leb_spec (Cache.elapsed_ms c) 0); [lia|]. rewrite Z.min_l by lia.
  unfold accrue_chunk.
  destruct (accrue_step_returns (c_params c) (c_borrowed c) (c_supplied c) (c_borrow_index c)
    (c_supply_index c) (Cache.elapsed_ms c)) as [st Hst]; [lia || assumption..|].
  rewrite Hst. cbn [rbind].
  apply accrue_step_facts in Hst as (_ & _ & Hr & Hrs & _); [|lia || assumption..].
  assert (i128_min <= 0) by zconst. unfold Cache.accrue_revenue, Ray.checked_add. simpl.
  rewrite !checked_add_total by lia. cbn [rbind].
  rewrite accrue_loop_unfold, Z.sub_diag. simpl. eauto.
Qed.

End Sync.

(** ** The primitive mutations, by what they do to the record *)

Section Primitives.

Import RatesAccrual Interest.

Lemma credit_cash_Ok c a c' :
  Cache.credit_cash c a = Ok c' ->
  c' = Cache.set_cash c (c_cash c + a) /\ 0 <= a /\ c_cash c + a <= i128_max.
Proof.
  intros H. unfold Cache.credit_cash, require_nonneg_amount in H. ok_inv H. b2p.
  apply i128_checked_Some in Hv0 as [-> ?]. split_and!; [done|lia|lia].
Qed.

Lemma debit_cash_Ok c a c' :
  Cache.debit_cash c a = Ok c' ->
  c' = Cache.set_cash c (c_cash c - a) /\ 0 <= a <= c_cash c.
Proof.
  intros H. unfold Cache.debit_cash, require_nonneg_amount, Cache.require_reserves in H.
  ok_inv H. b2p. apply i128_checked_Some in Hv1 as [-> ?]. split_and!; [done|lia|lia].
Qed.

Lemma mint_supply_Ok c x c' :
  Cache.mint_supply c x = Ok c' ->
  c' = Cache.set_supplied c (c_supplied c + x) /\ c_supplied c + x <= i128_max.
Proof. intros H. unfold Cache.mint_supply in H. ok_inv H. fp_inv. subst. split; [done|lia]. Qed.

Lemma burn_supply_Ok c x c' :
  Cache.burn_supply c x = Ok c' ->
  c' = Cache.set_supplied c (c_supplied c - x) /\ 0 <= x <= c_supplied c
  /\ c_revenue c <= c_supplied c - x.
Proof.
  intros H. unfold Cache.burn_supply, Cache.require_revenue_backed in H.
  ok_inv H. fp_inv. subst. simpl in *. b2p. split_and!; [done|lia..].
Qed.

Lemma mint_debt_Ok c x c' :
  Cache.mint_debt c x = Ok c' ->
  c' = Cache.set_borrowed c (c_borrowed c + x) /\ c_borrowed c + x <= i128_max.
Proof. intros H. unfold Cache.mint_debt in H. ok_inv H. fp_inv. subst. split; [done|lia]. Qed.

Lemma burn_debt_Ok c x c' :
  Cache.burn_debt c x = Ok c' ->
  c' = Cache.set_borrowed c (c_borrowed c - x) /\ 0 <= x <= c_borrowed c.
Proof. intros H. unfold Cache.burn_debt in H. ok_inv H. fp_inv. subst. split; [done|lia]. Qed.

(** Booking a fee of [fee] RAY units adds at most [fee] to the claims. *)
Lemma add_protocol_revenue_Ok c fee c' :
  0 <= fee -> 0 <= c_supplied c <= i128_max -> 0 < c_supply_index c ->
  add_protocol_revenue c fee = Ok c' ->
  exists x, c' = Cache.set_supplied (Cache.set_revenue c (c_revenue c + x)) (c_supplied c + x)
    /\ 0 <= x /\ c_supplied c + x <= i128_max /\ claims c' <= claims c + fee.
Proof.
  intros Hf Hs Hsi H. unfold add_protocol_revenue in H.
  destruct (Z.eqb_spec fee Ray.ZERO) as [E|]; ok_inv H.
  - exists 0. unfold Ray.ZERO in E. rewrite !Z.add_0_r. split_and!; [|lia..].
    by destruct c.
  - apply protocol_fee_shares_Ok in Hv as (Hx & Hmax & Hle); [|lia..].
    apply accrue_revenue_Ok in H as [-> _]. exists v. split_and!; [done|lia|lia|].
    unfold claims. simpl. by apply claim_add_le.
Qed.

(** The share price after socialization, before the floor. *)
Lemma bad_debt_factor v S rem factor ix new :
  0 < S -> 0 <= rem < S -> 0 <= ix -> 0 <= v -> v * ix < S * RAY + RAY / 2 ->
  factor = floor_div (rem * RAY) S -> new = floor_div (ix * factor) RAY ->
  claim v new <= rem.
Proof.
  intros HS Hrem Hix Hv Hval Hf Hn.
  pose proof (floor_div_bounds (rem * RAY) S HS) as Bf.
  pose proof (floor_div_bounds (ix * factor) RAY RAY_pos) as Bn. rewrite <- Hf in Bf.
  rewrite <- Hn in Bn. unfold claim. apply half_up_div_le_iff; [zconst|].
  assert (0 <= factor) by (subst factor; apply floor_div_nonneg; [lia|]; pose proof RAY_pos; nia).
  assert (H1 : v * new * RAY <= v * ix * factor) by nia.
  assert (H2 : v * ix * (factor * S) <= v * ix * (rem * RAY)) by nia.
  assert (H3 : v * new * RAY * S <= v * ix * rem * RAY).
  { assert (v * new * RAY * S <= v * ix * factor * S) by nia. lia. }
  assert (H4 : v * new * S <= v * ix * rem).
  { apply (Z.mul_le_mono_pos_r _ _ RAY); [zconst|]. lia. }
  assert (H5 : v * ix * rem <= (S * RAY + RAY / 2) * rem) by nia.
  assert (H6 : RAY / 2 * rem < RAY / 2 * S) by (assert (0 < RAY / 2) by zconst; nia).
  assert (HR : RAY / 2 + RAY / 2 <= RAY) by zconst.
  assert (v * new * S + (RAY / 2) * S < (rem + 1) * RAY * S) by nia. nia.
Qed.

(** Socializing [bad] RAY of debt takes [min bad claims] off the claims, unless
    the index floor stops it. *)
Lemma apply_bad_debt_Ok c bad c' :
  market_inv c -> 0 <= bad -> apply_bad_debt_to_supply_index c bad = Ok c' ->
  exists ix, c' = Cache.set_supply_index c ix
    /\ SUPPLY_INDEX_FLOOR_RAW <= ix <= c_supply_index c
    /\ (ix = SUPPLY_INDEX_FLOOR_RAW \/ claims c' <= Z.max 0 (claims c - bad)).
Proof.
  intros Hc Hbad H. inv_ranges Hc. unfold apply_bad_debt_to_supply_index in H.
  apply rbind_Ok in H as (S & HS & H). apply ray_mul_claim in HS as [HSc HS].
  fold (claims c) in HSc.
  destruct (Z.eqb_spec S Ray.ZERO) as [E|E]; ok_inv H.
  { exists (c_supply_index c). unfold Ray.ZERO in E. split_and!; [by destruct c|lia|lia|].
    right. lia. }
  fp_inv. unfold Ray.ZERO in E. set (ix := c_supply_index c) in *.
  assert (0 <= v * RAY) by nia.
  assert (v1 <= ix).
  { assert (v0 <= RAY).
    { subst v0. pose proof (floor_div_bounds (v * RAY) S ltac:(lia)). nia. }
    subst v1. pose proof (floor_div_bounds (ix * v0) RAY RAY_pos). nia. }
  exists (Z.max v1 SUPPLY_INDEX_FLOOR_RAW). split_and!; [done|lia|lia|].
  destruct (Z.max_spec v1 SUPPLY_INDEX_FLOOR_RAW) as [[? ->]|[? ->]]; [by left|right].
  unfold claims at 1. simpl.
  assert (c_supplied c * ix + RAY / 2 < (claims c + 1) * RAY) as Bh
    by (by apply half_up_div_le_iff; [zconst|]).
  assert (RAY / 2 + RAY / 2 = RAY) as HR2 by zconst.
  destruct (Z.eq_dec bad 0) as [->|Hb0].
  - rewrite Z.min_l in * by lia.
    assert (claim (c_supplied c) v1 <= claims c) by (apply claim_mono; lia). lia.
  - assert (claim (c_supplied c) v1 <= v).
    { apply (bad_debt_factor _ S v v0 ix v1); lia. }
    lia.
Qed.

End Primitives.
