(* ===== verification/PoolOps.v ===== *)
(** * Operations of the pool (contracts/pool/src/ops)

    One definition per source function: an [accounting] half that mutates the
    market and an [apply] half that moves tokens and emits events.  Each takes
    the pool before the call and returns its result with the pool after it. *)

From S2P Require Import Prelude Errors FpCore Fp PoolTypes RatesCurve RatesScaling RatesAccrual PoolCache PoolInterest.
From stdpp Require Import base numbers list gmap.
From Stdlib Require Import ZArith Lia Bool.

Open Scope Z_scope.

Module Ops.

(** ** Shared helpers (ops/mod.rs) *)

Definition synced_market (env : Env) (w : Pool) (h : HubAssetKey) : res Cache :=
  let* c := Cache.load env w h in
  Interest.global_sync c.

(** [renewed_market] also extends the instance TTL. *)
Definition renewed_market (env : Env) (w : Pool) (h : HubAssetKey) : res Cache :=
  synced_market env w h.

Definition load_leg (env : Env) (w : Pool) (action : PoolAction) : res (Cache * Ray) :=
  do! require_nonneg_amount (pa_amount action) in
  do! require_nonneg_amount (scaled_amount (pa_position action)) in
  let* cache := synced_market env w (pa_hub_asset action) in
  Ok (cache, scaled_amount (pa_position action)).

(** A batch of legs: results and snapshots in entry order, one batch event. *)
Record BatchState (R : Type) : Type := mkBatchState {
  bs_pool : Pool;
  bs_results : list R;
  bs_snapshots : list MarketStateSnapshot;
  bs_markets : list HubAssetKey
}.
Arguments mkBatchState {R}.
Arguments bs_pool {R}.
Arguments bs_results {R}.
Arguments bs_snapshots {R}.
Arguments bs_markets {R}.

Definition batch_step {E R : Type} (unique_markets : bool)
    (leg : Pool -> E -> res (R * MarketStateSnapshot * Pool))
    (b : BatchState R) (entry : E) : res (BatchState R) :=
  let* (rs, w) := leg (bs_pool b) entry in
  let (result, snapshot) := rs in
  let* markets :=
    (if unique_markets then
       do! require (negb (bool_decide (snap_hub_asset snapshot ∈ bs_markets b)))
             (EGeneric InvalidPayments) in
       Ok (bs_markets b ++ [snap_hub_asset snapshot])
     else Ok (bs_markets b)) in
  Ok {| bs_pool := w;
        bs_results := bs_results b ++ [result];
        bs_snapshots := bs_snapshots b ++ [snapshot];
        bs_markets := markets |}.

Definition run_batch {E R : Type} (w : Pool) (entries : list E) (unique_markets : bool)
    (leg : Pool -> E -> res (R * MarketStateSnapshot * Pool)) : res (list R * Pool) :=
  let* b := rfold (batch_step unique_markets leg) (mkBatchState w [] [] []) entries in
  Ok (bs_results b, emit_market_state_batch (bs_pool b) (bs_snapshots b)).

(** ** Supply (ops/supply.rs) *)

Module Supply.

Definition apply (env : Env) (w : Pool) (entry : PoolSupplyEntry)
    : res (PoolPositionMutation * MarketStateSnapshot * Pool) :=
  let* (cache, position) := load_leg env w (se_action entry) in
  let amount := pa_amount (se_action entry) in
  do! Guards.require_backed_market cache in
  let* minted := Cache.calculate_scaled_supply cache amount in
  do! require ((amount =? 0) || (0 <? minted)) (EGeneric SupplyRoundsToZeroShares) in
  let* position := Ray.checked_add position minted in
  let* cache := Cache.mint_supply cache minted in
  let* cache := Cache.credit_cash cache amount in
  let (w, snapshot) := Cache.commit cache w in
  Ok (Cache.position_mutation cache position amount, snapshot, w).

End Supply.

(** ** Borrow (ops/borrow.rs) *)

Module Borrow.

Definition mint_debt (cache : Cache) (position : Ray) (amount : Z) : res (Cache * Ray) :=
  do! require_positive_amount amount in
  do! Cache.require_reserves cache amount in
  do! Guards.require_liquidation_buffer cache amount in
  let* minted := Cache.calculate_scaled_borrow cache amount in
  do! require (0 <? minted) (EGeneric BorrowRoundsToZeroShares) in
  let* position := Ray.checked_add position minted in
  let* cache := Cache.mint_debt cache minted in
  do! Guards.require_utilization_below_max cache in
  Ok (cache, position).

Record BorrowOutcome : Type := mkBorrowOutcome {
  bo_cache : Cache;
  bo_mutation : PoolPositionMutation;
  bo_snapshot : MarketStateSnapshot
}.

Definition accounting (env : Env) (w : Pool) (entry : PoolBorrowEntry)
    : res (BorrowOutcome * Pool) :=
  let* (cache, position) := load_leg env w (be_action entry) in
  let amount := pa_amount (be_action entry) in
  let* (cache, position) := mint_debt cache position amount in
  let* cache := Cache.debit_cash cache amount in
  let (w, snapshot) := Cache.commit cache w in
  Ok ({| bo_cache := cache;
         bo_mutation := Cache.position_mutation cache position amount;
         bo_snapshot := snapshot |}, w).

Definition apply (env : Env) (receiver : Address) (w : Pool) (entry : PoolBorrowEntry)
    : res (PoolPositionMutation * MarketStateSnapshot * Pool) :=
  let* (outcome, w) := accounting env w entry in
  let* w := Cache.transfer_out (bo_cache outcome) w receiver
              (pm_actual_amount (bo_mutation outcome)) in
  Ok (bo_mutation outcome, bo_snapshot outcome, w).

End Borrow.

(** ** Repay (ops/repay.rs) *)

Module Repay.

Record RepayOutcome : Type := mkRepayOutcome {
  ro_cache : Cache;
  ro_mutation : PoolPositionMutation;
  ro_snapshot : MarketStateSnapshot;
  ro_overpayment : Z
}.

Definition accounting (env : Env) (w : Pool) (action : PoolAction)
    : res (RepayOutcome * Pool) :=
  let* (cache, position) := load_leg env w action in
  let amount := pa_amount action in
  let* (burned, overpayment) := Cache.resolve_repay cache amount position in
  let* net_repay := of_option (EGeneric MathOverflow) (i128_checked_sub amount overpayment) in
  do! require ((net_repay =? 0) || (0 <? burned)) (EGeneric RepayRoundsToZeroShares) in
  let* position := Ray.checked_sub position burned in
  let* cache := Cache.burn_debt cache burned in
  let* cache := Cache.credit_cash cache net_repay in
  let (w, snapshot) := Cache.commit cache w in
  Ok ({| ro_cache := cache;
         ro_mutation := Cache.position_mutation cache position net_repay;
         ro_snapshot := snapshot;
         ro_overpayment := overpayment |}, w).

Definition apply (env : Env) (payer : Address) (w : Pool) (action : PoolAction)
    : res (PoolPositionMutation * MarketStateSnapshot * Pool) :=
  let* (outcome, w) := accounting env w action in
  let* w := Cache.transfer_out (ro_cache outcome) w payer (ro_overpayment outcome) in
  Ok (ro_mutation outcome, ro_snapshot outcome, w).

End Repay.

(** ** Withdraw (ops/withdraw.rs) *)

Module Withdraw.

Definition resolve_close_or_partial (cache : Cache) (amount : Z) (position : Ray)
    : res (Ray * Z) :=
  let* (burned, gross_amount) := Cache.resolve_withdrawal cache amount position in
  do! require ((gross_amount =? 0) || (0 <? burned)) (EGeneric WithdrawRoundsToZeroShares) in
  Ok (burned, gross_amount).

Definition burn_position (cache : Cache) (position burned : Ray) : res (Cache * Ray) :=
  let* cache := Cache.burn_supply cache burned in
  let* remaining := Ray.checked_sub position burned in
  Ok (cache, remaining).

Definition withhold_liquidation_fee (cache : Cache) (gross_amount : Z)
    (is_liquidation : bool) (protocol_fee : Z) : res (Cache * Z) :=
  if negb is_liquidation || (protocol_fee =? 0) then Ok (cache, gross_amount)
  else
    do! require (protocol_fee <=? gross_amount) (ECollateral WithdrawLessThanFee) in
    let* fee := Ray.from_asset protocol_fee (asset_decimals (c_params cache)) in
    let* cache := Interest.add_protocol_revenue cache fee in
    let* net := of_option (EGeneric MathOverflow)
                  (i128_checked_sub gross_amount protocol_fee) in
    Ok (cache, net).

Definition gate_and_debit (cache : Cache) (net_transfer : Z) (skip_utilization_check : bool)
    : res Cache :=
  do! Cache.require_reserves cache net_transfer in
  do! (if negb skip_utilization_check
       then Guards.require_utilization_below_max cache else Ok tt) in
  do! Guards.require_supply_for_debt cache in
  Cache.debit_cash cache net_transfer.

Record WithdrawOutcome : Type := mkWithdrawOutcome {
  wo_cache : Cache;
  wo_mutation : PoolPositionMutation;
  wo_snapshot : MarketStateSnapshot;
  wo_net_transfer : Z
}.

Definition accounting (env : Env) (is_liquidation : bool) (w : Pool)
    (entry : PoolWithdrawEntry) : res (WithdrawOutcome * Pool) :=
  do! require_nonneg_amount (we_protocol_fee entry) in
  let* (cache, position) := load_leg env w (we_action entry) in
  let amount := pa_amount (we_action entry) in
  let* (burned, gross_amount) := resolve_close_or_partial cache amount position in
  let* (cache, remaining) := burn_position cache position burned in
  let* (cache, net_transfer) :=
    withhold_liquidation_fee cache gross_amount is_liquidation (we_protocol_fee entry) in
  let empty_close := (position =? 0) && (amount =? i128_max) in
  let* cache := gate_and_debit cache net_transfer (is_liquidation || empty_close) in
  let (w, snapshot) := Cache.commit cache w in
  Ok ({| wo_cache := cache;
         wo_mutation := Cache.position_mutation cache remaining gross_amount;
         wo_snapshot := snapshot;
         wo_net_transfer := net_transfer |}, w).

Definition apply (env : Env) (receiver : Address) (is_liquidation : bool) (w : Pool)
    (entry : PoolWithdrawEntry) : res (PoolPositionMutation * MarketStateSnapshot * Pool) :=
  let* (outcome, w) := accounting env is_liquidation w entry in
  let* w :=
    (if (wo_net_transfer outcome =? 0)
        && ((0 <? scaled_amount (pa_position (we_action entry)))
            || (pa_amount (we_action entry) =? i128_max))
        && (scaled_amount (pm_position (wo_mutation outcome)) =? 0)
     then Ok (Storage.emit w
                (TryTransferOut (asset_id (c_params (wo_cache outcome))) receiver 0))
     else Cache.transfer_out (wo_cache outcome) w receiver (wo_net_transfer outcome)) in
  Ok (wo_mutation outcome, wo_snapshot outcome, w).

End Withdraw.

(** ** Strategy opening (ops/strategy.rs) *)

Module Strategy.

Definition compute_fee (cache : Cache) (amount : Z) (charge_fee : bool) : res Z :=
  if negb charge_fee then Ok 0
  else
    let* fee := Bps.flash_loan_fee_on (flashloan_fee (c_params cache)) amount in
    do! require (fee <=? amount) (EFlashLoan StrategyFeeExceeds) in
    Ok fee.

Record StrategyOutcome : Type := mkStrategyOutcome {
  so_cache : Cache;
  so_mutation : PoolStrategyMutation;
  so_fee : Z
}.

Definition accounting (env : Env) (w : Pool) (action : PoolAction) (charge_fee : bool)
    : res (StrategyOutcome * Pool) :=
  let amount := pa_amount action in
  do! require_nonneg_amount amount in
  do! require_nonneg_amount (scaled_amount (pa_position action)) in
  let* cache := renewed_market env w (pa_hub_asset action) in
  let* fee := compute_fee cache amount charge_fee in
  let position := scaled_amount (pa_position action) in
  let* (cache, position) := Borrow.mint_debt cache position amount in
  let* protocol_fee := Ray.from_asset fee (asset_decimals (c_params cache)) in
  let* cache := Interest.add_protocol_revenue cache protocol_fee in
  let* amount_to_send := of_option (EGeneric MathOverflow) (i128_checked_sub amount fee) in
  let* cache := Cache.debit_cash cache amount_to_send in
  let (w, _) := Cache.commit cache w in
  Ok ({| so_cache := cache;
         so_mutation := Cache.strategy_mutation cache position amount amount_to_send;
         so_fee := fee |}, w).

Definition apply (env : Env) (w : Pool) (receiver : Address) (action : PoolAction)
    (charge_fee : bool) : res (PoolStrategyMutation * Pool) :=
  let* (outcome, w) := accounting env w action charge_fee in
  let cache := so_cache outcome in
  let m := so_mutation outcome in
  let* w := Cache.transfer_out cache w receiver (sm_amount_received m) in
  let w := emit_strategy_fee w (hub_id (c_hub_asset cache)) (asset (c_hub_asset cache))
             (sm_actual_amount m) (so_fee outcome) (sm_amount_received m) in
  Ok (m, emit_market_state w (Cache.snapshot cache)).

End Strategy.

(** ** Net settlement (ops/net_settle.rs) *)

Module NetSettle.

Definition apply (env : Env) (w : Pool) (entry : PoolNetSettleEntry)
    : res (PoolNetSettleResult * MarketStateSnapshot * Pool) :=
  do! require_nonneg_amount (ns_amount entry) in
  do! require_nonneg_amount (scaled_amount (ns_supply_position entry)) in
  do! require_nonneg_amount (scaled_amount (ns_debt_position entry)) in
  let* cache := synced_market env w (ns_hub_asset entry) in
  let supply_position := scaled_amount (ns_supply_position entry) in
  let debt_position := scaled_amount (ns_debt_position entry) in
  let* (burned, gross_amount) :=
    Cache.resolve_net_settle cache (ns_amount entry) supply_position debt_position in
  let (burned_supply, burned_debt) := burned in
  do! require ((gross_amount =? 0) || ((0 <? burned_supply) && (0 <? burned_debt)))
        (EGeneric NetSettleRoundsToZeroShares) in
  let* cache := Cache.burn_supply cache burned_supply in
  let* cache := Cache.burn_debt cache burned_debt in
  do! Guards.require_supply_for_debt cache in
  let (w, snapshot) := Cache.commit cache w in
  let* supply_left := Ray.checked_sub supply_position burned_supply in
  let* debt_left := Ray.checked_sub debt_position burned_debt in
  Ok ({| nr_supply_position := mkScaledPosition supply_left;
         nr_debt_position := mkScaledPosition debt_left;
         nr_market_index := Cache.market_index cache;
         nr_settled_amount := gross_amount |}, snapshot, w).

End NetSettle.

(** ** Seizure (ops/seize.rs) *)

Module Seize.

Definition apply (env : Env) (w : Pool) (entry : PoolSeizeEntry)
    : res (unit * MarketStateSnapshot * Pool) :=
  do! require_nonneg_amount (scaled_amount (sz_position entry)) in
  let* cache := synced_market env w (sz_hub_asset entry) in
  let position := scaled_amount (sz_position entry) in
  let* cache :=
    match sz_side entry with
    | PoolTypes.Borrow =>
        let* bad_debt := Cache.unscale_borrow_ceil_ray cache position in
        let* cache := Interest.apply_bad_debt_to_supply_index cache bad_debt in
        Cache.burn_debt cache position
    | PoolTypes.Deposit => Cache.absorb_supply_as_revenue cache position
    end in
  let (w, snapshot) := Cache.commit cache w in
  Ok (tt, snapshot, w).

End Seize.

(** ** Recapitalization (ops/recapitalize.rs) *)

Module Recapitalize.

Record RecapitalizationOutcome : Type := mkRecapitalizationOutcome {
  rc_cache : Cache;
  rc_mutation : PoolAmountMutation;
  rc_refund : Z
}.

Definition accounting (env : Env) (w : Pool) (h : HubAssetKey) (amount : Z)
    : res (RecapitalizationOutcome * Pool) :=
  do! require_nonneg_amount amount in
  let* cache := renewed_market env w h in
  let* shortfall := Guards.backing_shortfall cache in
  let applied := Z.min amount shortfall in
  let* refund := of_option (EGeneric MathOverflow) (i128_checked_sub amount applied) in
  let* cache := Cache.credit_cash cache applied in
  let (w, _) := Cache.commit cache w in
  Ok ({| rc_cache := cache;
         rc_mutation := mkPoolAmountMutation applied;
         rc_refund := refund |}, w).

Definition apply (env : Env) (w : Pool) (h : HubAssetKey) (payer : Address) (amount : Z)
    : res (PoolAmountMutation * Pool) :=
  let* (outcome, w) := accounting env w h amount in
  let* w := Cache.transfer_out (rc_cache outcome) w payer (rc_refund outcome) in
  Ok (rc_mutation outcome, emit_market_state w (Cache.snapshot (rc_cache outcome))).

End Recapitalize.

(** ** Revenue claim (ops/revenue.rs) *)

Module Revenue.

Definition accounting (env : Env) (w : Pool) (h : HubAssetKey)
    : res (Cache * PoolAmountMutation * Pool) :=
  let* cache := renewed_market env w h in
  let* (net_transfer, cache) := Cache.burn_claimable_revenue cache in
  do! Guards.require_utilization_below_max cache in
  do! Guards.require_supply_for_debt cache in
  let* cache := Cache.debit_cash cache net_transfer in
  let (w, _) := Cache.commit cache w in
  Ok (cache, mkPoolAmountMutation net_transfer, w).

Definition apply (env : Env) (w : Pool) (h : HubAssetKey) : res (PoolAmountMutation * Pool) :=
  let* (cm, w) := accounting env w h in
  let (cache, mutation) := cm in
  let* w :=
    (if negb (am_actual_amount mutation =? 0) then
       let* owner := of_option (EGeneric OwnerNotSet) (pool_owner w) in
       Cache.transfer_out cache w owner (am_actual_amount mutation)
     else Ok w) in
  Ok (mutation, emit_market_state w (Cache.snapshot cache)).

End Revenue.

(** ** Market lifecycle (ops/market.rs) *)

Module Market.

Definition initial_state (now : Z) : PoolStateRaw :=
  {| rs_supplied := 0; rs_borrowed := 0; rs_revenue := 0;
     rs_borrow_index := RAY; rs_supply_index := RAY;
     rs_last_timestamp := now; rs_cash := 0 |}.

Definition create (env : Env) (w : Pool) (hub : Z) (params : MarketParamsRaw) : res Pool :=
  do! market_params_verify params in
  let h := {| hub_id := hub; asset := rp_asset_id params |} in
  do! require (negb (Storage.market_exists w h)) (EGeneric AssetAlreadySupported) in
  let w := Storage.write_params w h params in
  let* now := now_ms env in
  let w := Storage.write_state w h (initial_state now) in
  Ok (Storage.emit w (EmitMarketParams hub (asset h) params)).

Definition replace_rate_model (env : Env) (w : Pool) (h : HubAssetKey) (m : InterestRateModel)
    : res Pool :=
  let* cache := renewed_market env w h in
  let (w, _) := Cache.commit cache w in
  let* (params, w) := Storage.write_rate_model w h m in
  do! market_params_verify params in
  Ok (Storage.emit w (EmitMarketParams (hub_id h) (asset h) params)).

Definition accrue_one (env : Env) (w : Pool) (h : HubAssetKey) : res Pool :=
  let* cache := Cache.load env w h in
  let* cache := Interest.global_sync cache in
  let (w, snapshot) := Cache.commit cache w in
  Ok (emit_market_state w snapshot).

Definition accrue (env : Env) (w : Pool) (hub_assets : list HubAssetKey) : res Pool :=
  rfold (accrue_one env) w hub_assets.

End Market.

End Ops.
