(* ===== verification/PoolSafety.v ===== *)
(** * What every pool operation does to the book

    [leg_effect] is the contract of one operation on one market, stated over the
    stored pool before and after: the market stays well formed, its gap does not
    widen, supplier shares, debt shares and cash move by exactly the amounts the
    operation reports, the tokens it sends out are accounted for, and no other
    market changes.  One lemma per operation discharges it.

    The last section is what the guards (contracts/pool/src/guards.rs) enforce: utilization
    cap, liquidation buffer and backing of a market, as inequalities over the exact values
    the guards round. *)

From S2P Require Import Prelude Errors FpCore Fp PoolTypes RatesCurve RatesScaling RatesAccrual PoolCache PoolInterest PoolOps.
From stdpp Require Import base numbers list gmap.
From Stdlib Require Import ZArith Lia Bool.

Open Scope Z_scope.

(** ** The stored markets *)

Definition stored_market (h : HubAssetKey) (p : MarketParamsRaw) (s : PoolStateRaw) : Cache :=
  {| c_hub_asset := h;
     c_params := params_of_raw p;
     c_last_timestamp := rs_last_timestamp s;
     c_current_timestamp := rs_last_timestamp s;
     c_supplied := rs_supplied s;
     c_borrowed := rs_borrowed s;
     c_revenue := rs_revenue s;
     c_borrow_index := rs_borrow_index s;
     c_supply_index := rs_supply_index s;
     c_cash := rs_cash s |}.

Definition market_of (w : Pool) (h : HubAssetKey) : option Cache :=
  match pool_params w !! h, pool_state w !! h with
  | Some p, Some s => Some (stored_market h p s)
  | _, _ => None
  end.

(** Every stored state has parameters, and the market they make is well formed. *)
Definition pool_inv (w : Pool) : Prop :=
  (forall h, is_Some (pool_state w !! h) <-> is_Some (pool_params w !! h))
  /\ (forall h c, market_of w h = Some c -> market_inv c)
  /\ (forall h p, pool_params w !! h = Some p -> raw_params_typed p).

(** Shares held by suppliers, protocol revenue excluded. *)
Definition user_shares (c : Cache) : Z := c_supplied c - c_revenue c.

(** Tokens leaving the pool through logged transfers. *)
Definition outflow1 (e : Effect) : Z :=
  match e with
  | TransferOut _ _ a => a
  | TryTransferOut _ _ a => a
  | _ => 0
  end.
Definition outflow (l : list Effect) : Z := foldr (fun e n => outflow1 e + n) 0 l.

Lemma outflow_app l1 l2 : outflow (l1 ++ l2) = outflow l1 + outflow l2.
Proof. induction l1; simpl; [done|]. rewrite IHl1. lia. Qed.

(** [cap] is what the new gap is bounded by: the old gap, or, for a seizure that
    wipes out all claims, zero. *)
Record leg_effect (cap : Z -> Z) (w : Pool) (h : HubAssetKey) (w' : Pool)
    (d_shares d_debt d_cash out : Z) : Prop := {
  le_market : exists c c',
    market_of w h = Some c /\ market_of w' h = Some c' /\ market_inv c'
    /\ gap c' <= cap (gap c)
    /\ user_shares c' = user_shares c + d_shares
    /\ c_borrowed c' = c_borrowed c + d_debt
    /\ c_cash c' = c_cash c + d_cash
    /\ c_borrow_index c <= c_borrow_index c';
  le_params : pool_params w' = pool_params w;
  le_state : forall h', h' <> h -> pool_state w' !! h' = pool_state w !! h';
  le_owner : pool_owner w' = pool_owner w;
  le_log : exists l, pool_log w' = pool_log w ++ l /\ outflow l = out
}.

Abbreviation keep := (fun g : Z => g).
Abbreviation keep0 := (fun g : Z => Z.max 0 g).

(** Timestamps play no part in the invariant, the gap or the share counts. *)
Definition same_market (c c' : Cache) : Prop :=
  c_params c' = c_params c /\ c_supplied c' = c_supplied c /\ c_borrowed c' = c_borrowed c
  /\ c_revenue c' = c_revenue c /\ c_borrow_index c' = c_borrow_index c
  /\ c_supply_index c' = c_supply_index c /\ c_cash c' = c_cash c.

Lemma same_market_inv c c' : same_market c c' -> market_inv c -> market_inv c'.
Proof.
  intros (Hp&Hs&Hb&Hr&Hbi&Hsi&Hc) [].
  split; rewrite ?Hp, ?Hs, ?Hb, ?Hr, ?Hbi, ?Hsi, ?Hc; assumption.
Qed.

Lemma same_market_gap c c' : same_market c c' -> gap c' = gap c.
Proof.
  intros (Hp&Hs&Hb&Hr&Hbi&Hsi&Hc). unfold gap, claims, debts, cash_ray.
  by rewrite Hp, Hs, Hb, Hbi, Hsi, Hc.
Qed.

Lemma load_market env w h c :
  Cache.load env w h = Ok c ->
  exists c0, market_of w h = Some c0 /\ same_market c0 c /\ c_hub_asset c = h.
Proof.
  intros H. unfold Cache.load, Storage.read_params, Storage.read_state in H. ok_inv H.
  exists (stored_market h v v0). unfold market_of. rewrite Hv, Hv0. done.
Qed.

(** A synced market is the stored one, grown. *)
Lemma synced_market_Ok env w h c :
  pool_inv w -> Ops.synced_market env w h = Ok c ->
  exists c0, market_of w h = Some c0 /\ market_inv c0 /\ market_inv c
    /\ gap c <= gap c0 /\ user_shares c = user_shares c0
    /\ c_borrowed c = c_borrowed c0 /\ c_cash c = c_cash c0
    /\ c_borrow_index c0 <= c_borrow_index c
    /\ c_params c = c_params c0 /\ c_hub_asset c = h.
Proof.
  intros Hw H. unfold Ops.synced_market in H. apply rbind_Ok in H as (c1 & Hl & Hs).
  apply load_market in Hl as (c0 & Hm & Hsame & Hh).
  pose proof (proj1 (proj2 Hw) _ _ Hm) as Hi.
  pose proof (same_market_inv _ _ Hsame Hi) as Hi1.
  destruct (global_sync_accrued _ _ Hi1 Hs) as (Hb & Hi2 & Hg & Hbi & _ & _ & _ & Hu).
  rewrite (same_market_gap _ _ Hsame) in Hg.
  destruct Hsame as (Hp&Hsu&Hbo&Hre&Hbi'&_&Hca), Hb as (Hh' & Hp' & _ & Hb' & Hc').
  exists c0. split_and!; try done; try congruence; try lia.
  unfold user_shares. lia.
Qed.

(** Committing a market reached from the stored one. *)
Lemma commit_effect cap w h c0 c' ds db dc l out w' :
  market_of w h = Some c0 -> c_hub_asset c' = h -> c_params c' = c_params c0 ->
  c_borrow_index c0 <= c_borrow_index c' -> market_inv c' ->
  gap c' <= cap (gap c0) ->
  user_shares c' = user_shares c0 + ds -> c_borrowed c' = c_borrowed c0 + db ->
  c_cash c' = c_cash c0 + dc ->
  pool_params w' = pool_params w ->
  pool_state w' = <[h := Cache.to_state c']> (pool_state w) ->
  pool_owner w' = pool_owner w -> pool_log w' = pool_log w ++ l -> outflow l = out ->
  leg_effect cap w h w' ds db dc out.
Proof.
  intros Hm Hh Hp Hbi Hi Hg Hds Hdb Hdc Hpar Hst Hown Hlog Hout.
  assert (exists p, pool_params w !! h = Some p /\ c_params c0 = params_of_raw p) as (p & Hp0 & Hpr).
  { unfold market_of in Hm. destruct (pool_params w !! h) as [p|]; [|done].
    destruct (pool_state w !! h); [|done]. exists p. injection Hm as <-. done. }
  assert (market_of w' h = Some (stored_market h p (Cache.to_state c'))) as Hm'.
  { unfold market_of. by rewrite Hpar, Hp0, Hst, lookup_insert_eq. }
  assert (same_market c' (stored_market h p (Cache.to_state c'))) as Hsame.
  { unfold same_market. simpl. split_and!; try done. congruence. }
  split; try done.
  - exists c0, (stored_market h p (Cache.to_state c')). split_and!; try done.
    + by apply (same_market_inv c').
    + by rewrite (same_market_gap _ _ Hsame).
  - intros h' Hne. rewrite Hst. by rewrite lookup_insert_ne.
  - eauto.
Qed.

Lemma transfer_out_Ok c w r a w' :
  Cache.transfer_out c w r a = Ok w' ->
  0 <= a /\ pool_params w' = pool_params w /\ pool_state w' = pool_state w
  /\ pool_owner w' = pool_owner w
  /\ exists l, pool_log w' = pool_log w ++ l /\ outflow l = a.
Proof.
  intros H. unfold Cache.transfer_out, require_nonneg_amount in H. ok_inv H. b2p.
  destruct (Z.eqb_spec a 0) as [->|]; (split; [lia|]); split_and!; try done.
  - exists []. by rewrite app_nil_r.
  - eexists. split; [done|]. simpl. lia.
Qed.

(** ** Preservation of the pool invariant *)

Lemma leg_effect_inv cap w h w' ds db dc out :
  pool_inv w -> leg_effect cap w h w' ds db dc out -> pool_inv w'.
Proof.
  intros (Hdom & Hinv & Hty) [(c & c' & Hm & Hm' & Hi & _) Hp Hs _ _].
  split_and!.
  - intros h'. rewrite Hp. destruct (decide (h' = h)) as [->|Hne].
    + unfold market_of in Hm'. rewrite Hp in Hm'.
      destruct (pool_params w !! h); [|done]. destruct (pool_state w' !! h); [|done].
      split; eauto.
    + rewrite (Hs _ Hne). apply Hdom.
  - intros h' c1 Hc1. destruct (decide (h' = h)) as [->|Hne]; [congruence|].
    apply (Hinv h'). unfold market_of in *. by rewrite <- Hp, <- (Hs _ Hne).
  - intros h' p'. rewrite Hp. apply Hty.
Qed.

(** Markets an operation does not name are untouched. *)
Lemma leg_effect_other cap w h w' ds db dc out h' :
  leg_effect cap w h w' ds db dc out -> h' <> h -> market_of w' h' = market_of w h'.
Proof. intros [_ Hp Hs _ _] Hne. unfold market_of. by rewrite Hp, (Hs _ Hne). Qed.

(** Later transfers and events extend the log only. *)
Lemma leg_effect_log cap w h w1 w2 ds db dc out l :
  leg_effect cap w h w1 ds db dc out ->
  pool_params w2 = pool_params w1 -> pool_state w2 = pool_state w1 ->
  pool_owner w2 = pool_owner w1 -> pool_log w2 = pool_log w1 ++ l ->
  leg_effect cap w h w2 ds db dc (out + outflow l).
Proof.
  intros [(c & c' & Hm & Hm' & Hr) Hp Hs Ho (l1 & Hl & Hout)] Ep Es Eo El. split.
  - exists c, c'. split; [done|]. split; [|done]. unfold market_of in *. by rewrite Ep, Es.
  - congruence.
  - intros h' Hne. rewrite Es. by apply Hs.
  - congruence.
  - exists (l1 ++ l). rewrite El, Hl, app_assoc, outflow_app. split; [done|lia].
Qed.

Lemma leg_effect_transfer cap w h w1 w2 ds db dc out c r a :
  leg_effect cap w h w1 ds db dc out -> Cache.transfer_out c w1 r a = Ok w2 ->
  leg_effect cap w h w2 ds db dc (out + a).
Proof.
  intros He Ht. apply transfer_out_Ok in Ht as (_ & Hp & Hs & Ho & l & Hl & <-).
  by eapply leg_effect_log.
Qed.

Lemma leg_effect_emit cap w h w1 ds db dc out e :
  leg_effect cap w h w1 ds db dc out ->
  leg_effect cap w h (Storage.emit w1 e) ds db dc (out + outflow1 e).
Proof.
  intros He. replace (outflow1 e) with (outflow [e]) by (simpl; lia).
  by eapply leg_effect_log.
Qed.

Lemma leg_effect_event cap w h w1 ds db dc out e :
  outflow1 e = 0 -> leg_effect cap w h w1 ds db dc out ->
  leg_effect cap w h (Storage.emit w1 e) ds db dc out.
Proof.
  intros H0 He. rewrite <- (Z.add_0_r out), <- H0. by apply leg_effect_emit.
Qed.

(** ** One lemma per operation *)

Section Legs.

Import RatesScaling RatesAccrual.

Context (env : Env) (w : Pool) (Hw : pool_inv w).

(** The synced market of a leg, with the ranges [lia] needs. *)
Lemma load_leg_Ok a c pos :
  Ops.load_leg env w a = Ok (c, pos) ->
  Ops.synced_market env w (pa_hub_asset a) = Ok c
  /\ pos = scaled_amount (pa_position a) /\ 0 <= pa_amount a /\ 0 <= pos.
Proof using.
  intros H. unfold Ops.load_leg, require_nonneg_amount in H. ok_inv H. b2p.
  split_and!; (done || lia).
Qed.

(** Committing a market reached from the synced one. *)
Lemma leg_commit cap h c c' ds db dc l out w' :
  (forall a b, a <= b -> cap a <= cap b) ->
  Ops.synced_market env w h = Ok c ->
  c_hub_asset c' = c_hub_asset c -> c_params c' = c_params c ->
  c_borrow_index c' = c_borrow_index c -> market_inv c' -> gap c' <= cap (gap c) ->
  user_shares c' = user_shares c + ds -> c_borrowed c' = c_borrowed c + db ->
  c_cash c' = c_cash c + dc ->
  pool_params w' = pool_params w ->
  pool_state w' = <[c_hub_asset c' := Cache.to_state c']> (pool_state w) ->
  pool_owner w' = pool_owner w -> pool_log w' = pool_log w ++ l -> outflow l = out ->
  leg_effect cap w h w' ds db dc out.
Proof using Hw.
  intros Hcap Hs Hh' Hp' Hbi' Hi' Hg' Hu' Hb' Hc' Hwp Hws Hwo Hwl Hout.
  destruct (synced_market_Ok _ _ _ _ Hw Hs)
    as (c0 & Hm & _ & Hi & Hg & Hu & Hb & Hc & Hbi & Hp & Hh).
  assert (c_hub_asset c' = h) as Hhh by congruence. rewrite Hhh in Hws.
  apply (commit_effect cap w h c0 c' ds db dc l out w' Hm Hhh).
  - congruence.
  - lia.
  - exact Hi'.
  - specialize (Hcap _ _ Hg). lia.
  - lia.
  - lia.
  - lia.
  - exact Hwp.
  - exact Hws.
  - exact Hwo.
  - exact Hwl.
  - exact Hout.
Qed.

Lemma synced_inv h c : Ops.synced_market env w h = Ok c -> market_inv c.
Proof using Hw. intros H. by destruct (synced_market_Ok _ _ _ _ Hw H) as (? & _ & _ & Hi & _). Qed.

Lemma keep_mono (a b : Z) : a <= b -> keep a <= keep b.
Proof using. auto. Qed.
Lemma keep0_mono (a b : Z) : a <= b -> keep0 a <= keep0 b.
Proof using. simpl. lia. Qed.

(** Closes a [leg_effect] goal over a synced market: every side condition but the
    gap, which is left unfolded. *)
Ltac leg_done Hmono Hsync c' :=
  eapply (leg_commit _ _ _ c' _ _ _ _ _ _ Hmono Hsync);
  [ | | | | | | | | reflexivity | reflexivity | reflexivity
  | first [ reflexivity | simpl; symmetry; apply app_nil_r ] | reflexivity ];
  subst; simpl in *;
  [ reflexivity | reflexivity | reflexivity
  | split; simpl; lia || assumption
  | unfold gap, claims, debts, cash_ray; simpl
  | unfold user_shares; simpl; lia | simpl; lia | simpl; lia ].

Lemma supply_effect e m s w' :
  Ops.Supply.apply env w e = Ok (m, s, w') ->
  leg_effect keep w (pa_hub_asset (se_action e)) w'
    (scaled_amount (pm_position m) - scaled_amount (pa_position (se_action e)))
    0 (pa_amount (se_action e)) 0
  /\ 0 <= scaled_amount (pm_position m)
  /\ pm_actual_amount m = pa_amount (se_action e).
Proof using Hw.
  intros H. unfold Ops.Supply.apply in H.
  apply rbind_Ok in H as ([c pos] & Hl & H). cbv beta iota in H.
  apply load_leg_Ok in Hl as (Hl & -> & Ha & Hpos).
  pose proof (synced_inv _ _ Hl) as Hi. inv_ranges Hi.
  apply rbind_Ok in H as (_ & _ & H). apply rbind_Ok in H as (x & Hx & H).
  apply rbind_Ok in H as (_ & _ & H). apply rbind_Ok in H as (pos' & Hpos' & H).
  apply rbind_Ok in H as (c1 & Hc1 & H). apply rbind_Ok in H as (c2 & Hc2 & H).
  apply scaled_supply_Ok in Hx as (Hx0 & Hx1 & _); [|lia..].
  apply mint_supply_Ok in Hc1 as [Hc1 Hs1]. apply credit_cash_Ok in Hc2 as (Hc2 & _ & Hs2).
  simpl in H. ok_inv H. fp_inv. subst pos'. simpl.
  split; [|lia].
  leg_done keep_mono Hl c2.
  pose proof (claim_add_le (c_supplied c) x (c_supply_index c)
    (pa_amount (se_action e) * unit_of (asset_decimals (c_params c))) Hx1). lia.
Qed.

(** Minting debt for [amount]: shares worth at least [amount], and the guards. *)
Lemma mint_debt_amount_Ok c pos amount c' pos' :
  market_inv c -> Ops.Borrow.mint_debt c pos amount = Ok (c', pos') ->
  exists x, c' = Cache.set_borrowed c (c_borrowed c + x) /\ pos' = pos + x /\ 0 < x
    /\ 0 < amount <= c_cash c /\ c_borrowed c + x <= i128_max
    /\ amount * unit_of (asset_decimals (c_params c)) * RAY <= x * c_borrow_index c
    /\ Guards.require_liquidation_buffer c amount = Ok tt
    /\ Guards.require_utilization_below_max c' = Ok tt.
Proof using.
  intros Hi H. inv_ranges Hi.
  unfold Ops.Borrow.mint_debt, require_positive_amount, Cache.require_reserves in H.
  apply rbind_Ok in H as (u1 & Ha & H). apply rbind_Ok in H as (u2 & Hr & H).
  apply rbind_Ok in H as ([] & Hbuf & H). apply rbind_Ok in H as (x & Hx & H).
  apply rbind_Ok in H as (u3 & Hpos & H). apply rbind_Ok in H as (p1 & Hp1 & H).
  apply rbind_Ok in H as (c1 & Hc1 & H). apply rbind_Ok in H as ([] & Hut & H).
  ok_inv H. apply require_Ok in Ha, Hr, Hpos. b2p.
  apply scaled_ceil_Ok in Hx as (Hx0 & _ & Hx1); [|lia..].
  apply mint_debt_Ok in Hc1 as [-> Hs1]. fp_inv.
  exists x. split_and!; (lia || assumption || reflexivity).
Qed.

Lemma borrow_accounting_effect e o w' :
  Ops.Borrow.accounting env w e = Ok (o, w') ->
  leg_effect keep w (pa_hub_asset (be_action e)) w' 0
    (scaled_amount (pm_position (Ops.Borrow.bo_mutation o))
     - scaled_amount (pa_position (be_action e)))
    (- pa_amount (be_action e)) 0
  /\ 0 <= scaled_amount (pm_position (Ops.Borrow.bo_mutation o))
  /\ pm_actual_amount (Ops.Borrow.bo_mutation o) = pa_amount (be_action e).
Proof using Hw.
  intros H. unfold Ops.Borrow.accounting in H.
  apply rbind_Ok in H as ([c pos] & Hl & H). cbv beta iota in H.
  apply load_leg_Ok in Hl as (Hl & -> & Ha & Hpos).
  pose proof (synced_inv _ _ Hl) as Hi.
  apply rbind_Ok in H as ([c1 pos'] & Hc1 & H). apply rbind_Ok in H as (c2 & Hc2 & H).
  apply (mint_debt_amount_Ok _ _ _ _ _ Hi) in Hc1
    as (x & Hc1 & Hp1 & Hx0 & Ha' & Hx1 & Hx2 & _).
  apply debit_cash_Ok in Hc2 as (Hc2 & Hs2). inv_ranges Hi.
  simpl in H. ok_inv H. subst pos'. simpl. split; [|lia].
  leg_done keep_mono Hl c2.
  pose proof (claim_add_ge (c_borrowed c) x (c_borrow_index c)
    (pa_amount (be_action e) * unit_of (asset_decimals (c_params c))) Hx2). lia.
Qed.

Lemma borrow_effect r e m s w' :
  Ops.Borrow.apply env r w e = Ok (m, s, w') ->
  leg_effect keep w (pa_hub_asset (be_action e)) w' 0
    (scaled_amount (pm_position m) - scaled_amount (pa_position (be_action e)))
    (- pa_amount (be_action e)) (pa_amount (be_action e))
  /\ 0 <= scaled_amount (pm_position m)
  /\ pm_actual_amount m = pa_amount (be_action e).
Proof using Hw.
  intros H. unfold Ops.Borrow.apply in H.
  apply rbind_Ok in H as ([o w1] & Hacc & H). apply rbind_Ok in H as (w2 & Ht & H).
  apply borrow_accounting_effect in Hacc as (He & Hpos & Hact). ok_inv H.
  split; [|done]. rewrite Hact in Ht. exact (leg_effect_transfer _ _ _ _ _ _ _ _ _ _ _ _ He Ht).
Qed.

Lemma repay_accounting_effect a o w' :
  Ops.Repay.accounting env w a = Ok (o, w') ->
  leg_effect keep w (pa_hub_asset a) w' 0
    (scaled_amount (pm_position (Ops.Repay.ro_mutation o)) - scaled_amount (pa_position a))
    (pm_actual_amount (Ops.Repay.ro_mutation o)) 0
  /\ 0 <= scaled_amount (pm_position (Ops.Repay.ro_mutation o)) <= scaled_amount (pa_position a)
  /\ 0 <= Ops.Repay.ro_overpayment o
  /\ 0 <= pm_actual_amount (Ops.Repay.ro_mutation o)
  /\ pm_actual_amount (Ops.Repay.ro_mutation o) + Ops.Repay.ro_overpayment o = pa_amount a.
Proof using Hw.
  intros H. unfold Ops.Repay.accounting in H.
  apply rbind_Ok in H as ([c pos] & Hl & H). cbv beta iota in H.
  apply load_leg_Ok in Hl as (Hl & -> & Ha & Hpos).
  pose proof (synced_inv _ _ Hl) as Hi. inv_ranges Hi.
  apply rbind_Ok in H as ([burned over] & Hr & H). apply rbind_Ok in H as (net & Hnet & H).
  apply rbind_Ok in H as (u & _ & H). apply rbind_Ok in H as (pos' & Hpos' & H).
  apply rbind_Ok in H as (c1 & Hc1 & H). apply rbind_Ok in H as (c2 & Hc2 & H).
  apply resolve_repay_spec in Hr as (Hb & Ho & Hval); [|lia..].
  apply of_option_Ok, i128_checked_Some in Hnet as [Hnet _].
  apply burn_debt_Ok in Hc1 as (Hc1 & Hb1). apply credit_cash_Ok in Hc2 as (Hc2 & Hn & Hs2).
  simpl in H. ok_inv H. fp_inv. simpl. split; [|lia].
  rewrite <- Hnet in Hval.
  pose proof (claim_add_le (c_borrowed c - burned) burned (c_borrow_index c)
    (net * unit_of (asset_decimals (c_params c))) Hval) as Hcl.
  replace (c_borrowed c - burned + burned) with (c_borrowed c) in Hcl by lia.
  leg_done keep_mono Hl c2. lia.
Qed.

Lemma repay_effect p a m s w' :
  Ops.Repay.apply env p w a = Ok (m, s, w') ->
  leg_effect keep w (pa_hub_asset a) w' 0
    (scaled_amount (pm_position m) - scaled_amount (pa_position a))
    (pm_actual_amount m) (pa_amount a - pm_actual_amount m)
  /\ 0 <= scaled_amount (pm_position m) <= scaled_amount (pa_position a)
  /\ 0 <= pm_actual_amount m <= pa_amount a.
Proof using Hw.
  intros H. unfold Ops.Repay.apply in H.
  apply rbind_Ok in H as ([o w1] & Hacc & H). apply rbind_Ok in H as (w2 & Ht & H).
  apply repay_accounting_effect in Hacc as (He & Hpos & Ho & Hn & Hsum). ok_inv H.
  split; [|lia].
  pose proof (leg_effect_transfer _ _ _ _ _ _ _ _ _ _ _ _ He Ht) as HeT.
  replace (pa_amount a - pm_actual_amount (Ops.Repay.ro_mutation o))
    with (0 + Ops.Repay.ro_overpayment o) by lia. exact HeT.
Qed.

(** The fee kept back in a liquidation withdrawal. *)
Definition kept_fee (is_liquidation : bool) (e : PoolWithdrawEntry) : Z :=
  if is_liquidation then we_protocol_fee e else 0.

Lemma withhold_fee_Ok c gross liq fee c' net :
  0 <= fee -> 0 <= c_supplied c <= i128_max -> 0 < c_supply_index c ->
  valid_decimals (asset_decimals (c_params c)) ->
  Ops.Withdraw.withhold_liquidation_fee c gross liq fee = Ok (c', net) ->
  exists x, c' = Cache.set_supplied (Cache.set_revenue c (c_revenue c + x)) (c_supplied c + x)
    /\ 0 <= x /\ c_supplied c + x <= i128_max
    /\ net = gross - (if liq then fee else 0)
    /\ claims c' <= claims c + (if liq then fee else 0) * unit_of (asset_decimals (c_params c)).
Proof using.
  intros Hf Hs Hsi Hd H. unfold Ops.Withdraw.withhold_liquidation_fee in H.
  destruct (_ || _)%bool eqn:E in H.
  - ok_inv H. exists 0. rewrite !Z.add_0_r.
    assert ((if liq then fee else 0) = 0) as ->
      by (destruct liq; simpl in E; b2p; lia).
    split_and!; [by destruct c|lia..].
  - b2p. subst liq. ok_inv H. apply from_asset_Ok in Hv0 as [-> _]; [|done].
    apply i128_checked_Some in Hv2 as [-> _]. pose proof (unit_of_pos _ Hd).
    apply add_protocol_revenue_Ok in Hv1 as (x & -> & Hx & Hmax & Hcl); [|nia|lia|lia].
    exists x. split_and!; [done|lia|lia|lia|exact Hcl].
Qed.

Lemma gate_and_debit_Ok c net skip c' :
  Ops.Withdraw.gate_and_debit c net skip = Ok c' ->
  c' = Cache.set_cash c (c_cash c - net) /\ 0 <= net <= c_cash c
  /\ (skip = false -> Guards.require_utilization_below_max c = Ok tt).
Proof using.
  intros H. unfold Ops.Withdraw.gate_and_debit in H.
  apply rbind_Ok in H as (u1 & _ & H). apply rbind_Ok in H as ([] & Hu & H).
  apply rbind_Ok in H as (u3 & _ & H). apply debit_cash_Ok in H as (-> & Hn).
  split_and!; [done|lia|lia|]. intros ->. exact Hu.
Qed.

Lemma withdraw_accounting_effect liq e o w' :
  Ops.Withdraw.accounting env liq w e = Ok (o, w') ->
  leg_effect keep w (pa_hub_asset (we_action e)) w'
    (scaled_amount (pm_position (Ops.Withdraw.wo_mutation o))
     - scaled_amount (pa_position (we_action e)))
    0 (- Ops.Withdraw.wo_net_transfer o) 0
  /\ 0 <= scaled_amount (pm_position (Ops.Withdraw.wo_mutation o))
        <= scaled_amount (pa_position (we_action e))
  /\ 0 <= Ops.Withdraw.wo_net_transfer o
  /\ pm_actual_amount (Ops.Withdraw.wo_mutation o) <= pa_amount (we_action e)
  /\ Ops.Withdraw.wo_net_transfer o
     = pm_actual_amount (Ops.Withdraw.wo_mutation o) - kept_fee liq e.
Proof using Hw.
  intros H. unfold Ops.Withdraw.accounting, require_nonneg_amount in H.
  apply rbind_Ok in H as (u & Hfee & H). apply require_Ok in Hfee. b2p.
  apply rbind_Ok in H as ([c pos] & Hl & H). cbv beta iota in H.
  apply load_leg_Ok in Hl as (Hl & -> & Ha & Hpos).
  pose proof (synced_inv _ _ Hl) as Hi. inv_ranges Hi.
  apply rbind_Ok in H as ([burned gross] & Hr & H). apply rbind_Ok in H as ([c1 rem] & Hc1 & H).
  apply rbind_Ok in H as ([c2 net] & Hc2 & H). apply rbind_Ok in H as (c3 & Hc3 & H).
  unfold Ops.Withdraw.resolve_close_or_partial in Hr.
  apply rbind_Ok in Hr as ([b g] & Hr & Hr2). ok_inv Hr2.
  apply resolve_withdrawal_spec in Hr as (Hb & Hg & Hval); [|lia..].
  unfold Ops.Withdraw.burn_position in Hc1.
  apply rbind_Ok in Hc1 as (c1' & Hc1 & Hc1r). apply rbind_Ok in Hc1r as (rem' & Hrem & Hc1r).
  ok_inv Hc1r. apply burn_supply_Ok in Hc1 as (Hc1 & Hb1 & Hrev). fp_inv. subst rem'.
  apply withhold_fee_Ok in Hc2 as (x & Hc2 & Hx & Hmax & Hnet & Hcl);
    [|lia|subst c1'; simpl; lia|subst c1'; simpl; lia|subst c1'; simpl; lia].
  apply gate_and_debit_Ok in Hc3 as (Hc3 & Hn & _).
  simpl in H. ok_inv H. simpl. fold (kept_fee liq e) in *. split; [|lia].
  pose proof (claim_add_ge (c_supplied c - b) b (c_supply_index c)
    (g * unit_of (asset_decimals (c_params c))) Hval) as Hcb.
  replace (c_supplied c - b + b) with (c_supplied c) in Hcb by lia.
  leg_done keep_mono Hl c3. unfold claims in Hcl. simpl in Hcl. nia.
Qed.

Lemma withdraw_effect r liq e m s w' :
  Ops.Withdraw.apply env r liq w e = Ok (m, s, w') ->
  exists net,
    leg_effect keep w (pa_hub_asset (we_action e)) w'
      (scaled_amount (pm_position m) - scaled_amount (pa_position (we_action e)))
      0 (- net) net
    /\ 0 <= scaled_amount (pm_position m) <= scaled_amount (pa_position (we_action e))
    /\ 0 <= net /\ pm_actual_amount m <= pa_amount (we_action e)
    /\ net = pm_actual_amount m - kept_fee liq e.
Proof using Hw.
  intros H. unfold Ops.Withdraw.apply in H.
  apply rbind_Ok in H as ([o w1] & Hacc & H). apply rbind_Ok in H as (w2 & Ht & H).
  apply withdraw_accounting_effect in Hacc as (He & Hpos & Hn & Hle & Hnet). ok_inv H.
  exists (Ops.Withdraw.wo_net_transfer o). split; [|lia].
  destruct (_ && _ && _)%bool eqn:E in Ht.
  - b2p. ok_inv Ht. pose proof (leg_effect_emit _ _ _ _ _ _ _ _
      (TryTransferOut (asset_id (c_params (Ops.Withdraw.wo_cache o))) r 0) He) as HeT.
    replace (Ops.Withdraw.wo_net_transfer o) with 0 in * by lia. exact HeT.
  - exact (leg_effect_transfer _ _ _ _ _ _ _ _ _ _ _ _ He Ht).
Qed.

Lemma strategy_accounting_effect a charge o w' :
  Ops.Strategy.accounting env w a charge = Ok (o, w') ->
  leg_effect keep w (pa_hub_asset a) w' 0
    (scaled_amount (sm_position (Ops.Strategy.so_mutation o)) - scaled_amount (pa_position a))
    (- sm_amount_received (Ops.Strategy.so_mutation o)) 0
  /\ 0 <= scaled_amount (sm_position (Ops.Strategy.so_mutation o))
  /\ 0 <= sm_amount_received (Ops.Strategy.so_mutation o)
  /\ 0 <= Ops.Strategy.so_fee o
  /\ sm_actual_amount (Ops.Strategy.so_mutation o) = pa_amount a
  /\ sm_amount_received (Ops.Strategy.so_mutation o) + Ops.Strategy.so_fee o = pa_amount a.
Proof using Hw.
  intros H. unfold Ops.Strategy.accounting, require_nonneg_amount, Ops.renewed_market in H.
  apply rbind_Ok in H as (u1 & Ha & H). apply rbind_Ok in H as (u2 & Hp & H).
  apply require_Ok in Ha, Hp. b2p.
  apply rbind_Ok in H as (c & Hl & H). apply rbind_Ok in H as (fee & Hfee & H).
  pose proof (synced_inv _ _ Hl) as Hi.
  apply rbind_Ok in H as ([c1 pos'] & Hc1 & H). apply rbind_Ok in H as (pf & Hpf & H).
  apply rbind_Ok in H as (c2 & Hc2 & H). apply rbind_Ok in H as (snd & Hsnd & H).
  apply rbind_Ok in H as (c3 & Hc3 & H).
  apply (mint_debt_amount_Ok _ _ _ _ _ Hi) in Hc1
    as (x & Hc1 & Hp1 & Hx0 & Ha' & Hx1 & Hx2 & _).
  apply debit_cash_Ok in Hc3 as (Hc3 & Hs3). inv_ranges Hi.
  assert (0 <= fee) as Hf0.
  { unfold Ops.Strategy.compute_fee, Bps.flash_loan_fee_on in Hfee.
    destruct (negb _); ok_inv Hfee; [lia|]. fp_inv. destruct (_ && _)%bool in *; lia. }
  pose proof (unit_of_pos (asset_decimals (c_params c)) ltac:(lia)).
  apply from_asset_Ok in Hpf as [Hpf _]; [|subst c1; simpl; lia].
  apply add_protocol_revenue_Ok in Hc2 as (y & Hc2 & Hy & Hmax & Hcl);
    [|subst; simpl; nia|subst; simpl; lia|subst; simpl; lia].
  apply of_option_Ok, i128_checked_Some in Hsnd as [Hsnd _].
  simpl in H. ok_inv H. simpl. split; [|lia].
  pose proof (claim_add_ge (c_borrowed c) x (c_borrow_index c)
    (pa_amount a * unit_of (asset_decimals (c_params c))) Hx2).
  leg_done keep_mono Hl c3. unfold claims in Hcl. simpl in Hcl. nia.
Qed.

Lemma strategy_effect r a charge m w' :
  Ops.Strategy.apply env w r a charge = Ok (m, w') ->
  leg_effect keep w (pa_hub_asset a) w' 0
    (scaled_amount (sm_position m) - scaled_amount (pa_position a))
    (- sm_amount_received m) (sm_amount_received m)
  /\ 0 <= scaled_amount (sm_position m)
  /\ 0 <= sm_amount_received m <= sm_actual_amount m
  /\ sm_actual_amount m = pa_amount a.
Proof using Hw.
  intros H. unfold Ops.Strategy.apply in H.
  apply rbind_Ok in H as ([o w1] & Hacc & H). apply rbind_Ok in H as (w2 & Ht & H).
  apply strategy_accounting_effect in Hacc as (He & Hpos & Hn & Hf & Hact & Hsum).
  injection H as <- <-. split; [|lia].
  pose proof (leg_effect_transfer _ _ _ _ _ _ _ _ _ _ _ _ He Ht) as HeT.
  unfold emit_strategy_fee, emit_market_state, emit_market_state_batch.
  apply leg_effect_event; [done|]. destruct (_ =? 0); [exact HeT|].
  by apply leg_effect_event.
Qed.

Lemma net_settle_effect e m s w' :
  Ops.NetSettle.apply env w e = Ok (m, s, w') ->
  leg_effect keep w (ns_hub_asset e) w'
    (scaled_amount (nr_supply_position m) - scaled_amount (ns_supply_position e))
    (scaled_amount (nr_debt_position m) - scaled_amount (ns_debt_position e)) 0 0
  /\ 0 <= scaled_amount (nr_supply_position m) <= scaled_amount (ns_supply_position e)
  /\ 0 <= scaled_amount (nr_debt_position m) <= scaled_amount (ns_debt_position e)
  /\ 0 <= nr_settled_amount m <= ns_amount e.
Proof using Hw.
  intros H. unfold Ops.NetSettle.apply, require_nonneg_amount in H.
  apply rbind_Ok in H as (u1 & Ha & H). apply rbind_Ok in H as (u2 & Hs & H).
  apply rbind_Ok in H as (u3 & Hd & H). apply require_Ok in Ha, Hs, Hd. b2p.
  apply rbind_Ok in H as (c & Hl & H). pose proof (synced_inv _ _ Hl) as Hi. inv_ranges Hi.
  apply rbind_Ok in H as ([[bs bd] g] & Hr & H). cbv beta iota in H.
  apply rbind_Ok in H as (u4 & _ & H). apply rbind_Ok in H as (c1 & Hc1 & H).
  apply rbind_Ok in H as (c2 & Hc2 & H). apply rbind_Ok in H as (u5 & _ & H).
  cbn [Cache.commit] in H.
  apply rbind_Ok in H as (sl & Hsl & H). apply rbind_Ok in H as (dl & Hdl & H).
  apply resolve_net_settle_spec in Hr as (Hbs & Hbd & Hg & Hvs & Hvd); [|lia..].
  apply burn_supply_Ok in Hc1 as (Hc1 & Hb1 & Hrev). apply burn_debt_Ok in Hc2 as (Hc2 & Hb2).
  ok_inv H. fp_inv. simpl. split; [|lia].
  pose proof (claim_add_ge (c_supplied c - bs) bs (c_supply_index c)
    (g * unit_of (asset_decimals (c_params c))) Hvs) as Hns.
  pose proof (claim_add_le (c_borrowed c - bd) bd (c_borrow_index c)
    (g * unit_of (asset_decimals (c_params c))) Hvd) as Hnd.
  replace (c_supplied c - bs + bs) with (c_supplied c) in Hns by lia.
  replace (c_borrowed c - bd + bd) with (c_borrowed c) in Hnd by lia.
  leg_done keep_mono Hl c2. lia.
Qed.

Lemma seize_deposit_effect e s w' :
  sz_side e = Deposit -> Ops.Seize.apply env w e = Ok (tt, s, w') ->
  leg_effect keep w (sz_hub_asset e) w' (- scaled_amount (sz_position e)) 0 0 0
  /\ 0 <= scaled_amount (sz_position e).
Proof using Hw.
  intros Hside H. unfold Ops.Seize.apply, require_nonneg_amount in H. rewrite Hside in H.
  apply rbind_Ok in H as (u1 & Ha & H). apply require_Ok in Ha. b2p.
  apply rbind_Ok in H as (c & Hl & H). pose proof (synced_inv _ _ Hl) as Hi. inv_ranges Hi.
  apply rbind_Ok in H as (c1 & Hc1 & H).
  unfold Cache.absorb_supply_as_revenue, Cache.require_revenue_backed in Hc1.
  apply rbind_Ok in Hc1 as (r & Hr & Hc1). apply rbind_Ok in Hc1 as (u2 & Hb & Hc1).
  apply require_Ok in Hb. simpl in Hb. b2p. injection Hc1 as Hc1. fp_inv.
  simpl in H. injection H as <- <-. split; [|lia]. symmetry in Hc1.
  leg_done keep_mono Hl c1. lia.
Qed.

Lemma keep_plus_mono k (a b : Z) :
  a <= b -> (fun g => keep0 g + k) a <= (fun g => keep0 g + k) b.
Proof using. simpl. lia. Qed.

(** Seizing a debt: the burned debt is taken off supplier claims, down to the
    index floor.  [k] is what the floor keeps from being written down; away from
    the floor it is zero and the gap does not widen, except that a market whose
    claims are wiped out ends with no gap. *)
Lemma seize_borrow_effect e s w' :
  sz_side e = PoolTypes.Borrow -> Ops.Seize.apply env w e = Ok (tt, s, w') ->
  exists k, 0 <= k /\ (snap_supply_index s <> SUPPLY_INDEX_FLOOR_RAW -> k = 0)
    /\ leg_effect (fun g => keep0 g + k) w (sz_hub_asset e) w' 0
         (- scaled_amount (sz_position e)) 0 0
    /\ 0 <= scaled_amount (sz_position e).
Proof using Hw.
  intros Hside H. unfold Ops.Seize.apply, require_nonneg_amount in H. rewrite Hside in H.
  apply rbind_Ok in H as (u1 & Ha & H). apply require_Ok in Ha. b2p.
  apply rbind_Ok in H as (c & Hl & H). pose proof (synced_inv _ _ Hl) as Hi.
  apply rbind_Ok in H as (c2 & Hc2 & H).
  apply rbind_Ok in Hc2 as (bad & Hbad & Hc2). apply rbind_Ok in Hc2 as (c1 & Hc1 & Hc2).
  unfold Cache.unscale_borrow_ceil_ray in Hbad. fp_inv. inv_ranges Hi.
  set (pos := scaled_amount (sz_position e)) in *.
  assert (0 <= bad) as Hbad0.
  { subst bad. apply ceil_div_nonneg; [zconst|]. nia. }
  apply apply_bad_debt_Ok in Hc1 as (ix & Hc1 & Hix & Hcl); [|split; lia || assumption|lia].
  apply burn_debt_Ok in Hc2 as (Hc2 & Hb2).
  simpl in H. injection H as <- <-.
  assert (pos * c_borrow_index c <= bad * RAY) as Hbv.
  { subst bad. apply (ceil_div_bounds _ RAY). zconst. }
  pose proof (claim_add_le (c_borrowed c - pos) pos (c_borrow_index c) bad Hbv) as Hcd.
  replace (c_borrowed c - pos + pos) with (c_borrowed c) in Hcd by lia.
  assert (0 <= claim (c_borrowed c - pos) (c_borrow_index c)) as Hd0
    by (apply claim_nonneg; subst c1; simpl in Hb2; lia).
  assert (0 <= c_cash c * unit_of (asset_decimals (c_params c))) as Hk0.
  { pose proof (unit_of_pos (asset_decimals (c_params c)) ltac:(lia)). nia. }
  assert (claim (c_supplied c) ix <= claim (c_supplied c) (c_supply_index c)) as Hdown
    by (apply claim_mono; lia).
  unfold claims in Hcl.
  assert (exists k, 0 <= k /\ (ix <> SUPPLY_INDEX_FLOOR_RAW -> k = 0)
    /\ claim (c_supplied c) ix <= Z.max 0 (claim (c_supplied c) (c_supply_index c) - bad) + k)
    as (k & Hk & Hkf & Hck).
  { destruct (Z.eq_dec ix SUPPLY_INDEX_FLOOR_RAW) as [E|E].
    - exists bad. lia.
    - exists 0. destruct Hcl as [Hcl|Hcl]; subst c1; simpl in Hcl; lia. }
  exists k. split; [exact Hk|]. split; [by subst c1 c2|]. split; [|lia].
  leg_done (keep_plus_mono k) Hl c2. lia.
Qed.

Lemma recapitalize_effect h p a m w' :
  Ops.Recapitalize.apply env w h p a = Ok (m, w') ->
  leg_effect keep w h w' 0 0 (am_actual_amount m) (a - am_actual_amount m)
  /\ 0 <= am_actual_amount m <= a.
Proof using Hw.
  intros H. unfold Ops.Recapitalize.apply, Ops.Recapitalize.accounting in H.
  apply rbind_Ok in H as ([o w1] & Hacc & H). apply rbind_Ok in H as (w2 & Ht & H).
  unfold require_nonneg_amount, Ops.renewed_market in Hacc.
  apply rbind_Ok in Hacc as (u1 & Ha & Hacc). apply require_Ok in Ha. b2p.
  apply rbind_Ok in Hacc as (c & Hl & Hacc). pose proof (synced_inv _ _ Hl) as Hi. inv_ranges Hi.
  apply rbind_Ok in Hacc as (sf & Hsf & Hacc). apply rbind_Ok in Hacc as (rf & Hrf & Hacc).
  apply rbind_Ok in Hacc as (c1 & Hc1 & Hacc).
  apply of_option_Ok, i128_checked_Some in Hrf as [Hrf _].
  apply credit_cash_Ok in Hc1 as (Hc1 & Happ & Hmax).
  simpl in Hacc. injection Hacc as <- <-. simpl in *. injection H as <- <-. simpl.
  split; [|lia]. apply leg_effect_event; [done|]. rewrite <- Hrf.
  assert (leg_effect keep w h (Storage.write_state w (c_hub_asset c1) (Cache.to_state c1))
    0 0 (Z.min a sf) 0) as He.
  { pose proof (unit_of_pos (asset_decimals (c_params c)) ltac:(lia)).
    leg_done keep_mono Hl c1. nia. }
  exact (leg_effect_transfer _ _ _ _ _ _ _ _ _ _ _ _ He Ht).
Qed.

(** Shares burned for claimed revenue are worth at least what is paid out. *)
Lemma burn_claimable_Ok c amount c' :
  market_inv c -> Cache.burn_claimable_revenue c = Ok (amount, c') ->
  exists x, c' = Cache.set_supplied (Cache.set_revenue c (c_revenue c - x)) (c_supplied c - x)
    /\ 0 <= x <= c_revenue c /\ 0 <= amount <= c_cash c
    /\ amount * unit_of (asset_decimals (c_params c)) * RAY <= x * c_supply_index c.
Proof using.
  intros Hi H. inv_ranges Hi. unfold Cache.burn_claimable_revenue in H.
  apply rbind_Ok in H as (act & Hact & H).
  apply unscale_supply_floor_Ok in Hact as (Ha0 & Ha1 & _); [|lia..].
  destruct (Z.leb_spec (Z.min (c_cash c) act) 0).
  { ok_inv H. exists 0. rewrite !Z.sub_0_r. split_and!; [by destruct c|lia..]. }
  apply rbind_Ok in H as (x & Hx & H). apply rbind_Ok in H as (u & _ & H).
  apply rbind_Ok in H as (r & Hr & H). apply rbind_Ok in H as (s & Hs & H).
  ok_inv H. fp_inv. exists x. split_and!; [congruence|lia..|].
  destruct (Z.leb_spec act (Z.min (c_cash c) act)).
  - ok_inv Hx. replace (Z.min (c_cash c) act) with act by lia. lia.
  - fp_inv. set (a := Z.min (c_cash c) act) in *.
    pose proof (unit_of_pos (asset_decimals (c_params c)) ltac:(lia)).
    assert (c_revenue c * a <= x * act) as Hxa
      by (subst x; apply (ceil_div_bounds _ act); lia).
    apply (Z.mul_le_mono_pos_r _ _ act); [lia|].
    assert (act * unit_of (asset_decimals (c_params c)) * RAY * a
            <= c_revenue c * c_supply_index c * a) by nia.
    assert (c_revenue c * a * c_supply_index c <= x * act * c_supply_index c) by nia. lia.
Qed.

Lemma revenue_accounting_effect h c' m w' :
  Ops.Revenue.accounting env w h = Ok (c', m, w') ->
  leg_effect keep w h w' 0 0 (- am_actual_amount m) 0 /\ 0 <= am_actual_amount m.
Proof using Hw.
  intros H. unfold Ops.Revenue.accounting, Ops.renewed_market in H.
  apply rbind_Ok in H as (c & Hl & H). pose proof (synced_inv _ _ Hl) as Hi.
  apply rbind_Ok in H as ([net c1] & Hc1 & H). apply rbind_Ok in H as (u1 & _ & H).
  apply rbind_Ok in H as (u2 & _ & H). apply rbind_Ok in H as (c2 & Hc2 & H).
  apply (burn_claimable_Ok _ _ _ Hi) in Hc1 as (x & Hc1 & Hx & Hn & Hval).
  apply debit_cash_Ok in Hc2 as (Hc2 & Hs2). inv_ranges Hi.
  simpl in H. injection H as <- <- <-. simpl. split; [|lia].
  pose proof (claim_add_ge (c_supplied c - x) x (c_supply_index c)
    (net * unit_of (asset_decimals (c_params c))) Hval) as Hcb.
  replace (c_supplied c - x + x) with (c_supplied c) in Hcb by lia.
  leg_done keep_mono Hl c2. lia.
Qed.

Lemma revenue_effect h m w' :
  Ops.Revenue.apply env w h = Ok (m, w') ->
  leg_effect keep w h w' 0 0 (- am_actual_amount m) (am_actual_amount m)
  /\ 0 <= am_actual_amount m.
Proof using Hw.
  intros H. unfold Ops.Revenue.apply in H.
  apply rbind_Ok in H as ([[c mm] w1] & Hacc & H). cbv beta iota in H.
  apply rbind_Ok in H as (w2 & Ht & H). injection H as -> <-.
  apply revenue_accounting_effect in Hacc as (He & Hn). split; [|done].
  apply leg_effect_event; [done|]. destruct (Z.eqb_spec (am_actual_amount m) 0) as [E|]; simpl in Ht.
  - ok_inv Ht. rewrite E in *. exact He.
  - apply rbind_Ok in Ht as (o & _ & Ht).
    exact (leg_effect_transfer _ _ _ _ _ _ _ _ _ _ _ _ He Ht).
Qed.

Lemma accrue_one_effect h w' :
  Ops.Market.accrue_one env w h = Ok w' -> leg_effect keep w h w' 0 0 0 0.
Proof using Hw.
  intros H. unfold Ops.Market.accrue_one in H.
  apply rbind_Ok in H as (c0 & Hld & H). apply rbind_Ok in H as (c & Hsy & H).
  assert (Ops.synced_market env w h = Ok c) as Hl
    by (unfold Ops.synced_market; by rewrite Hld).
  pose proof (synced_inv _ _ Hl) as Hi. inv_ranges Hi. simpl in H. injection H as <-.
  apply leg_effect_event; [done|]. leg_done keep_mono Hl c. lia.
Qed.

End Legs.

(** ** What the guards enforce *)

Section Utilization.

(** Debt, rounded up, is at most [max_utilization] of the claims, rounded down. *)
Definition within_max_utilization (c : Cache) : Prop :=
  c_supplied c = 0 \/ RAY <= max_utilization (c_params c)
  \/ ceil_div (c_borrowed c * c_borrow_index c) RAY * RAY
     <= max_utilization (c_params c) * floor_div (c_supplied c * c_supply_index c) RAY.

Lemma utilization_guard c :
  market_inv c -> Guards.require_utilization_below_max c = Ok tt -> within_max_utilization c.
Proof.
  intros Hi H. inv_ranges Hi. unfold Guards.require_utilization_below_max, Ray.ZERO, Ray.ONE in H.
  destruct (_ || _)%bool eqn:E in H.
  { apply orb_true_iff in E as [E|E]; b2p; unfold within_max_utilization; auto. }
  right; right. apply rbind_Ok in H as (b & Hb & H). fp_inv.
  assert (0 <= floor_div (c_supplied c * c_supply_index c) RAY)
    by (apply floor_div_nonneg; [zconst|nia]).
  destruct Hvp.
  destruct (Z.eqb_spec b 0) as [E0|].
  { replace (ceil_div (c_borrowed c * c_borrow_index c) RAY) with 0 by congruence. nia. }
  apply rbind_Ok in H as (s & Hs & H). fp_inv.
  destruct (Z.ltb_spec 0 s); [|discriminate].
  apply rbind_Ok in H as (u & Hu & H). apply require_Ok in H. b2p. fp_inv.
  assert (b * RAY <= u * s) by (subst u; apply (ceil_div_bounds _ s); lia). nia.
Qed.

(** The cash left after a draw covers the liquidation buffer, 2% of supply. *)
Lemma buffer_guard c draw :
  market_inv c -> 0 <= draw <= c_cash c ->
  Guards.require_liquidation_buffer c draw = Ok tt ->
  exists supplied, Cache.unscale_supply_floor c (c_supplied c) = Ok supplied
    /\ LIQUIDATION_BUFFER_BPS * supplied <= (c_cash c - draw) * BPS.
Proof.
  intros Hi Hd H. inv_ranges Hi. unfold Guards.require_liquidation_buffer in H. ok_inv H.
  b2p. exists v. split; [done|]. fp_inv.
  unfold i128_saturating_sub in *. assert (i128_min <= 0) by zconst.
  rewrite Z.min_r, Z.max_r in * by lia.
  pose proof (ceil_div_bounds (v * LIQUIDATION_BUFFER_BPS) BPS BPS_pos).
  assert (0 < BPS) by zconst. nia.
Qed.

End Utilization.

Section Backing.

(** A market whose claims are covered reports no shortfall. *)
Lemma covered_no_shortfall c :
  market_inv c -> gap c <= 0 -> claims c <= i128_max ->
  ceil_div (c_borrowed c * c_borrow_index c) RAY <= i128_max ->
  Guards.backing_shortfall c = Ok 0.
Proof.
  intros Hi Hg Hcl Hdb. inv_ranges Hi. unfold Guards.backing_shortfall.
  assert (MAX_SUPPLY_INDEX_RAY <= i128_max) by zconst.
  assert (MAX_BORROW_INDEX_RAY <= i128_max) by zconst. assert (i128_min <= 0) by zconst.
  assert (RAY <= i128_max) by zconst.
  pose proof (floor_le_half_up (c_supplied c * c_supply_index c) RAY ltac:(zconst)) as Hfh.
  fold (RatesAccrual.claim (c_supplied c) (c_supply_index c)) in Hfh. fold (claims c) in Hfh.
  pose proof (half_up_le_ceil (c_borrowed c * c_borrow_index c) RAY ltac:(zconst)) as Hhc.
  fold (RatesAccrual.claim (c_borrowed c) (c_borrow_index c)) in Hhc. fold (debts c) in Hhc.
  assert (0 <= floor_div (c_supplied c * c_supply_index c) RAY) as Hf0
    by (apply floor_div_nonneg; [zconst|nia]).
  unfold Ray.mul_floor. rewrite FpCore.mul_div_floor_total by lia. cbn [rbind].
  unfold Cache.unscale_borrow_ceil_ray, Ray.mul_ceil.
  rewrite FpCore.mul_div_ceil_total by lia. cbn [rbind].
  destruct (Z.leb_spec (floor_div (c_supplied c * c_supply_index c) RAY)
    (ceil_div (c_borrowed c * c_borrow_index c) RAY)); [done|].
  assert (0 <= ceil_div (c_borrowed c * c_borrow_index c) RAY) as Hc0
    by (apply ceil_div_nonneg; [zconst|nia]).
  unfold Ray.checked_sub. rewrite checked_sub_total by lia. cbn [rbind].
  rewrite to_asset_floor_nonneg by lia. cbn [rbind]. f_equal.
  pose proof (unit_of_pos (asset_decimals (c_params c)) ltac:(lia)) as Hu.
  set (d := floor_div (c_supplied c * c_supply_index c) RAY
    - ceil_div (c_borrowed c * c_borrow_index c) RAY) in *.
  pose proof (floor_div_bounds d _ Hu). unfold gap, cash_ray in Hg.
  assert (floor_div d (unit_of (asset_decimals (c_params c))) <= c_cash c) by nia.
  unfold i128_saturating_sub. lia.
Qed.

(** A reported shortfall is a real one: the gap is at least that many base units. *)
Lemma shortfall_is_gap c n :
  market_inv c -> Guards.backing_shortfall c = Ok n -> 0 < n ->
  n * unit_of (asset_decimals (c_params c)) <= gap c.
Proof.
  intros Hi H Hn. inv_ranges Hi. unfold Guards.backing_shortfall, Cache.unscale_borrow_ceil_ray in H.
  apply rbind_Ok in H as (cl & Hcl & H). apply rbind_Ok in H as (db & Hdb & H).
  destruct (Z.leb_spec cl db); [ok_inv H; lia|].
  apply rbind_Ok in H as (df & Hdf & H). apply rbind_Ok in H as (un & Hun & H).
  fp_inv. injection H as <-. assert (i128_min <= 0) by zconst.
  rewrite to_asset_floor_nonneg in Hun by lia. injection Hun as <-.
  pose proof (unit_of_pos (asset_decimals (c_params c)) ltac:(lia)) as Hu.
  pose proof (floor_div_bounds df _ Hu).
  assert (cl <= claims c) by (subst cl; apply floor_le_half_up; zconst).
  assert (debts c <= db) by (subst db; apply half_up_le_ceil; zconst).
  unfold gap, cash_ray, i128_saturating_sub in *. nia.
Qed.

End Backing.

(** ** The stored market after a guarded leg *)

Section Committed.

Context (env : Env) (w : Pool) (Hw : pool_inv w).

(** Cash covers the liquidation buffer: 2% of the supply's floored token value. *)
Definition buffered (c : Cache) : Prop :=
  exists supplied, Cache.unscale_supply_floor c (c_supplied c) = Ok supplied
    /\ LIQUIDATION_BUFFER_BPS * supplied <= c_cash c * BPS.

Lemma same_market_within c c' :
  same_market c c' -> within_max_utilization c -> within_max_utilization c'.
Proof using.
  intros (Hp&Hs&Hb&_&Hbi&Hsi&_). unfold within_max_utilization.
  by rewrite Hp, Hs, Hb, Hbi, Hsi.
Qed.

Lemma same_market_buffered c c' : same_market c c' -> buffered c -> buffered c'.
Proof using.
  intros (Hp&Hs&_&_&_&Hsi&Hc). unfold buffered, Cache.unscale_supply_floor.
  by rewrite Hp, Hs, Hsi, Hc.
Qed.

(** What [commit] stored is what was committed. *)
Lemma committed_market h c c' w' :
  Ops.synced_market env w h = Ok c -> c_hub_asset c' = c_hub_asset c ->
  c_params c' = c_params c -> pool_params w' = pool_params w ->
  pool_state w' = <[c_hub_asset c' := Cache.to_state c']> (pool_state w) ->
  exists c1, market_of w' h = Some c1 /\ same_market c' c1.
Proof using Hw.
  intros Hl Hh' Hp' Hwp Hws.
  destruct (synced_market_Ok _ _ _ _ Hw Hl)
    as (c0 & Hm & _ & _ & _ & _ & _ & _ & _ & Hp & Hh).
  unfold market_of in *. rewrite Hwp, Hws, Hh', Hh, lookup_insert_eq.
  destruct (pool_params w !! h) as [p|]; [|done]. destruct (pool_state w !! h); [|done].
  injection Hm as <-. eexists. split; [done|]. unfold same_market. simpl in *.
  split_and!; (reflexivity || congruence).
Qed.

Lemma borrow_limits r e m s w' :
  Ops.Borrow.apply env r w e = Ok (m, s, w') ->
  exists c', market_of w' (pa_hub_asset (be_action e)) = Some c'
    /\ within_max_utilization c' /\ buffered c'.
Proof using Hw.
  intros H. unfold Ops.Borrow.apply, Ops.Borrow.accounting in H.
  apply rbind_Ok in H as ([o w1] & Hacc & H). apply rbind_Ok in H as (w2 & Ht & H).
  injection H as _ _ <-.
  apply rbind_Ok in Hacc as ([c pos] & Hl & Hacc). cbv beta iota in Hacc.
  apply load_leg_Ok in Hl as (Hl & _ & Ha & _).
  apply rbind_Ok in Hacc as ([c1 pos'] & Hc1 & Hacc). apply rbind_Ok in Hacc as (c2 & Hc2 & Hacc).
  pose proof (synced_inv _ _ Hw _ _ Hl) as Hi.
  apply (mint_debt_amount_Ok _ _ _ _ _ Hi) in Hc1 as (x & -> & _ & Hx & Ha' & Hx1 & _ & Hbuf & Hut).
  apply debit_cash_Ok in Hc2 as (-> & Hs2). simpl in Hacc. injection Hacc as <- <-.
  apply transfer_out_Ok in Ht as (_ & Hwp & Hws & _).
  destruct (committed_market _ c (Cache.set_cash (Cache.set_borrowed c (c_borrowed c + x))
    (c_cash c - pa_amount (be_action e))) w2 Hl eq_refl eq_refl Hwp Hws) as (c' & Hm' & Hsame).
  exists c'. split; [exact Hm'|].
  apply buffer_guard in Hbuf as (sup & Hsup & Hle); [|exact Hi|lia]. inv_ranges Hi. split.
  - apply (same_market_within _ _ Hsame). apply utilization_guard in Hut; [exact Hut|].
    split; simpl; lia || assumption.
  - apply (same_market_buffered _ _ Hsame). exists sup. split; [exact Hsup|exact Hle].
Qed.

Lemma withdraw_limits r e m s w' :
  Ops.Withdraw.apply env r false w e = Ok (m, s, w') ->
  0 < scaled_amount (pa_position (we_action e)) ->
  exists c', market_of w' (pa_hub_asset (we_action e)) = Some c' /\ within_max_utilization c'.
Proof using Hw.
  intros H Hpos. unfold Ops.Withdraw.apply, Ops.Withdraw.accounting in H.
  apply rbind_Ok in H as ([o w1] & Hacc & H). apply rbind_Ok in H as (w2 & Ht & H).
  injection H as _ _ <-.
  apply rbind_Ok in Hacc as (u & _ & Hacc). apply rbind_Ok in Hacc as ([c pos] & Hl & Hacc).
  apply load_leg_Ok in Hl as (Hl & -> & Ha & _). cbv beta iota in Hacc.
  apply rbind_Ok in Hacc as ([b g] & Hr & Hacc). apply rbind_Ok in Hacc as ([c1 rem] & Hc1 & Hacc).
  apply rbind_Ok in Hacc as ([c2 net] & Hc2 & Hacc). apply rbind_Ok in Hacc as (c3 & Hc3 & Hacc).
  simpl in Hc2. injection Hc2 as <- <-.
  unfold Ops.Withdraw.burn_position in Hc1. apply rbind_Ok in Hc1 as (c1' & Hc1 & Hrem).
  apply rbind_Ok in Hrem as (? & _ & Hrem). injection Hrem as <- _.
  apply burn_supply_Ok in Hc1 as (-> & Hb & Hrev).
  apply gate_and_debit_Ok in Hc3 as (-> & Hn & Hut). simpl in Hacc. injection Hacc as <- <-.
  assert (pool_params w2 = pool_params w
    /\ pool_state w2 = <[c_hub_asset c := Cache.to_state (Cache.set_cash
         (Cache.set_supplied c (c_supplied c - b)) (c_cash c - g))]> (pool_state w)) as [Hwp Hws].
  { destruct (_ && _ && _)%bool in Ht.
    - by injection Ht as <-.
    - by apply transfer_out_Ok in Ht as (_ & ? & ? & _). }
  destruct (committed_market _ c (Cache.set_cash (Cache.set_supplied c (c_supplied c - b))
    (c_cash c - g)) w2 Hl eq_refl eq_refl Hwp Hws) as (c' & Hm' & Hsame).
  exists c'. split; [exact Hm'|]. apply (same_market_within _ _ Hsame).
  pose proof (synced_inv _ _ Hw _ _ Hl) as Hi. inv_ranges Hi.
  assert (Guards.require_utilization_below_max (Cache.set_supplied c (c_supplied c - b)) = Ok tt)
    as Hut'.
  { apply Hut. by destruct (Z.eqb_spec (scaled_amount (pa_position (we_action e))) 0); [lia|]. }
  apply utilization_guard in Hut'; [exact Hut'|]. split; simpl; lia || assumption.
Qed.

(** After a recapitalization that covers it, the shortfall is gone. *)
Lemma recapitalized_backing c n c' :
  market_inv c -> Guards.backing_shortfall c = Ok n -> Cache.credit_cash c n = Ok c' ->
  Guards.backing_shortfall c' = Ok 0.
Proof using.
  intros Hi H Hc. apply credit_cash_Ok in Hc as (-> & Hn & Hmax). inv_ranges Hi.
  unfold Guards.backing_shortfall, Cache.unscale_borrow_ceil_ray in *. simpl.
  destruct (Ray.mul_floor _ _) as [cl|] eqn:Hcl; [|done]. cbn [rbind] in *.
  destruct (Ray.mul_ceil _ _) as [db|] eqn:Hdb; [|done]. cbn [rbind] in *.
  destruct (Z.leb_spec cl db); [done|].
  destruct (Ray.checked_sub cl db) as [df|] eqn:Hdf; [|done]. cbn [rbind] in *. fp_inv.
  assert (i128_min <= 0) by zconst.
  rewrite to_asset_floor_nonneg in * by lia. cbn [rbind] in *. injection H as <-. f_equal.
  pose proof (unit_of_pos (asset_decimals (c_params c)) ltac:(lia)) as Hu.
  pose proof (floor_div_bounds df _ Hu). set (f := floor_div df _) in *.
  assert (0 <= f <= i128_max) by nia. assert (i128_min <= - i128_max) by zconst.
  unfold i128_saturating_sub in *. lia.
Qed.

Lemma same_market_shortfall c c' :
  same_market c c' -> Guards.backing_shortfall c' = Guards.backing_shortfall c.
Proof using.
  intros (Hp&Hs&Hb&_&Hbi&Hsi&Hc).
  unfold Guards.backing_shortfall, Cache.unscale_borrow_ceil_ray.
  by rewrite Hp, Hs, Hb, Hbi, Hsi, Hc.
Qed.

Lemma recapitalize_restores h p a m w' c n :
  Ops.Recapitalize.apply env w h p a = Ok (m, w') ->
  Ops.synced_market env w h = Ok c -> Guards.backing_shortfall c = Ok n -> n <= a ->
  exists c', market_of w' h = Some c' /\ Guards.backing_shortfall c' = Ok 0.
Proof using Hw.
  intros H Hl Hn Hle. unfold Ops.Recapitalize.apply, Ops.Recapitalize.accounting in H.
  unfold Ops.renewed_market in H. rewrite Hl in H. cbn [rbind] in H.
  apply rbind_Ok in H as ([o w1] & Hacc & H). apply rbind_Ok in H as (w2 & Ht & H).
  apply rbind_Ok in Hacc as (u & _ & Hacc). rewrite Hn in Hacc. cbn [rbind] in Hacc.
  replace (Z.min a n) with n in Hacc by lia.
  apply rbind_Ok in Hacc as (rf & _ & Hacc). apply rbind_Ok in Hacc as (c1 & Hc1 & Hacc).
  simpl in Hacc. injection Hacc as <- <-. injection H as _ <-.
  apply transfer_out_Ok in Ht as (_ & Hwp & Hws & _).
  pose proof (recapitalized_backing _ _ _ (synced_inv _ _ Hw _ _ Hl) Hn Hc1) as H0.
  apply credit_cash_Ok in Hc1 as [Hc1 _].
  destruct (committed_market h c c1 w2 Hl) as (c' & Hm' & Hsame); try (by subst c1); try done.
  exists c'. split; [exact Hm'|]. rewrite (same_market_shortfall _ _ Hsame). exact H0.
Qed.

End Committed.
