(* ===== verification/PoolContract.v ===== *)
(** * Flash loans (contracts/pool/src/ops/flash.rs)

    The token contract and the loan receiver are not part of the repository:
    [Host] is their interface, over an abstract ledger state [W].  The callback
    runs arbitrary code, so it may change [W] at will and is handed the pool
    too; [NoReentry] is the host's rule that a contract on the call stack cannot
    be entered again. *)

From S2P Require Import Prelude Errors FpCore Fp PoolTypes RatesCurve RatesScaling RatesAccrual PoolCache PoolInterest PoolOps PoolSafety.
From stdpp Require Import base numbers list gmap.
From Stdlib Require Import ZArith Lia Bool.

Open Scope Z_scope.

(** Ledger state outside the pool, with the calls a flash loan makes. *)
Class Host (W : Type) : Type := {
  token_balance : W -> Address -> Address -> Z;
  token_transfer : W -> Address -> Address -> Address -> Z -> res W;
  token_allowance : W -> Address -> Address -> Address -> Z;
  token_transfer_from : W -> Address -> Address -> Address -> Address -> Z -> res W;
  is_wasm_contract : W -> Address -> bool;
  execute_flash_loan : Address -> Address -> Address -> Z -> Z -> Address -> list N ->
    Pool * W -> res (Pool * W)
}.

Class NoReentry (W : Type) `{Host W} : Prop := {
  callback_keeps_pool : forall receiver initiator asset amount fee pool data p w p' w',
    execute_flash_loan receiver initiator asset amount fee pool data (p, w) = Ok (p', w') ->
    p' = p
}.

Module Flash.

Record FlashTerms : Type := mkFlashTerms {
  ft_fee : Z;
  ft_total_repayment : Z;
  ft_balance_after_payout : Z;
  ft_balance_after_repayment : Z
}.

Definition prepare (env : Env) (p : Pool) (h : HubAssetKey) (amount : Z) : res Cache :=
  do! require_positive_amount amount in
  let* cache := Ops.renewed_market env p h in
  do! require (is_flashloanable (c_params cache)) (EFlashLoan FlashloanNotEnabled) in
  do! Cache.require_reserves cache amount in
  Ok cache.

Definition terms (amount fee_bps pre_balance : Z) : res FlashTerms :=
  let* fee := Bps.flash_loan_fee_on fee_bps amount in
  let* total := of_option (EGeneric MathOverflow) (i128_checked_add amount fee) in
  let* payout := of_option (EGeneric MathOverflow) (i128_checked_sub pre_balance amount) in
  let* repaid := of_option (EGeneric MathOverflow) (i128_checked_add pre_balance fee) in
  Ok {| ft_fee := fee;
        ft_total_repayment := total;
        ft_balance_after_payout := payout;
        ft_balance_after_repayment := repaid |}.

Definition book_fee (cache : Cache) (fee : Z) : res Cache :=
  let* protocol_fee := Ray.from_asset fee (asset_decimals (c_params cache)) in
  let* cache := Interest.add_protocol_revenue cache protocol_fee in
  Cache.credit_cash cache fee.

Definition finalize (p : Pool) (cache : Cache) (fee : Z) : res Pool :=
  let* cache := book_fee cache fee in
  let (p, snapshot) := Cache.commit cache p in
  Ok (emit_market_state p snapshot).

Section Apply.

Context {W : Type} `{Host W}.

Definition require_balance (w : W) (token pool : Address) (expected : Z) : res unit :=
  require (token_balance w token pool =? expected) (EFlashLoan InvalidFlashloanRepay).

(** [common::validation::require_wasm_receiver] *)
Definition require_wasm_receiver (w : W) (receiver : Address) : res unit :=
  require (is_wasm_contract w receiver) (EFlashLoan InvalidFlashloanReceiver).

Definition collect_repayment (w : W) (token pool receiver : Address) (t : FlashTerms)
    : res W :=
  do! require (ft_total_repayment t <=? token_allowance w token receiver pool)
        (EFlashLoan InvalidFlashloanRepay) in
  let* w := token_transfer_from w token pool receiver pool (ft_total_repayment t) in
  do! require_balance w token pool (ft_balance_after_repayment t) in
  Ok w.

Definition apply (env : Env) (p : Pool) (w : W) (h : HubAssetKey)
    (initiator receiver : Address) (amount : Z) (data : list N) : res (Z * Pool * W) :=
  let* cache := prepare env p h amount in
  do! require_wasm_receiver w receiver in
  let pool := current_contract_address env in
  let token := asset_id (c_params cache) in
  let* t := terms amount (flashloan_fee (c_params cache)) (token_balance w token pool) in
  let* w := token_transfer w token pool receiver amount in
  do! require_balance w token pool (ft_balance_after_payout t) in
  let* (p, w) :=
    execute_flash_loan receiver initiator token amount (ft_fee t) pool data (p, w) in
  do! require_balance w token pool (ft_balance_after_payout t) in
  let* w := collect_repayment w token pool receiver t in
  let* p := finalize p cache (ft_fee t) in
  Ok (ft_fee t, p, w).

End Apply.

(** ** Fee and terms *)

(** The fee of a loan: the rate of the amount, rounded half up, and a unit at least where
    there is a rate. *)
Definition charged_fee (bps amount : Z) : Z :=
  let fee := half_up_div (amount * bps) BPS in
  if bps =? 0 then fee else Z.max 1 fee.

(** The shares a fee mints for the protocol: its worth in RAY at the supply index, rounded
    down, within what the share total can still take. *)
Definition fee_shares (c : Cache) (fee : Z) : Z :=
  Z.min (floor_div (fee * unit_of (asset_decimals (c_params c)) * RAY) (c_supply_index c))
    (i128_max - c_supplied c).

Lemma terms_Ok amount bps pre t :
  0 <= amount -> 0 <= bps -> terms amount bps pre = Ok t ->
  0 <= ft_fee t /\ (0 < bps -> 0 < ft_fee t)
  /\ ft_fee t = charged_fee bps amount
  /\ ft_total_repayment t = amount + ft_fee t
  /\ ft_balance_after_payout t = pre - amount
  /\ ft_balance_after_repayment t = pre + ft_fee t.
Proof.
  intros Ha Hb H. unfold terms, Bps.flash_loan_fee_on in H.
  apply rbind_Ok in H as (fee & Hfee & H). ok_inv H.
  apply i128_checked_Some in Hv as [-> _], Hv0 as [-> _], Hv1 as [-> _].
  apply rbind_Ok in Hfee as (f & Hf & Hfee). fp_inv. injection Hfee as <-. simpl.
  unfold charged_fee.
  split_and!; try lia; destruct (Z.ltb_spec 0 bps), (Z.eqb_spec f 0), (Z.eqb_spec bps 0); simpl; lia.
Qed.

(** A booked fee is minted as revenue shares and credited in cash; nothing else moves. *)
Lemma book_fee_exact c fee c' :
  market_inv c -> 0 <= fee -> book_fee c fee = Ok c' ->
  c' = Cache.set_cash (Cache.set_supplied (Cache.set_revenue c (c_revenue c + fee_shares c fee))
         (c_supplied c + fee_shares c fee)) (c_cash c + fee).
Proof.
  intros Hi Hf H. inv_ranges Hi. unfold book_fee in H.
  apply rbind_Ok in H as (pf & Hpf & H). apply rbind_Ok in H as (c1 & Hc1 & H).
  apply from_asset_Ok in Hpf as [-> _]; [|lia]. apply credit_cash_Ok in H as (-> & _ & Hc).
  pose proof (unit_of_pos (asset_decimals (c_params c)) ltac:(lia)). pose proof RAY_pos.
  set (u := unit_of _) in *. assert (0 <= fee * u) as Hu by nia.
  pose proof (floor_div_nonneg (fee * u * RAY) (c_supply_index c) ltac:(lia) ltac:(nia)) as Hn.
  unfold Interest.add_protocol_revenue in Hc1. unfold fee_shares. fold u.
  destruct (Z.eqb_spec (fee * u) Ray.ZERO) as [E|].
  - injection Hc1 as <-. rewrite E. unfold Ray.ZERO, floor_div. rewrite Z.mul_0_l, Z.div_0_l by lia.
    rewrite Z.min_l, !Z.add_0_r by lia. by destruct c.
  - apply rbind_Ok in Hc1 as (x & Hx & Hc1). apply accrue_revenue_Ok in Hc1 as [-> _].
    unfold RatesAccrual.protocol_fee_shares in Hx. apply rbind_Ok in Hx as (raw & Hraw & [= <-]).
    apply FpCore.mul_div_floor_saturating_Ok in Hraw as [_ ->].
    match goal with |- context [c_revenue c + Z.min ?r ?l] =>
      replace (Z.min r l) with (Z.min (floor_div (fee * u * RAY) (c_supply_index c))
                                  (i128_max - c_supplied c)); [done|] end.
    unfold FpCore.clamp_i128, i128_saturating_sub. assert (i128_min <= 0) by zconst. lia.
Qed.

Lemma book_fee_Ok c fee c' :
  market_inv c -> 0 <= fee -> book_fee c fee = Ok c' ->
  market_inv c' /\ gap c' <= gap c /\ user_shares c' = user_shares c
  /\ c_borrowed c' = c_borrowed c /\ c_cash c' = c_cash c + fee
  /\ c_hub_asset c' = c_hub_asset c /\ c_params c' = c_params c
  /\ c_borrow_index c' = c_borrow_index c.
Proof.
  intros Hi Hf H. inv_ranges Hi. unfold book_fee in H.
  apply rbind_Ok in H as (pf & Hpf & H). apply rbind_Ok in H as (c1 & Hc1 & H).
  apply from_asset_Ok in Hpf as [-> _]; [|lia].
  pose proof (unit_of_pos (asset_decimals (c_params c)) ltac:(lia)).
  apply add_protocol_revenue_Ok in Hc1 as (x & -> & Hx & Hmax & Hcl); [|nia|lia|lia].
  apply credit_cash_Ok in H as (-> & _ & Hc). simpl in *.
  split_and!; try reflexivity.
  - split; simpl; lia || assumption.
  - unfold gap, claims, debts, cash_ray in *. simpl in *. nia.
  - unfold user_shares. simpl. lia.
Qed.

(** ** A completed loan *)

Section Loan.

Context {W : Type} `{HW : Host W} `{HN : !NoReentry W}.
Context (env : Env) (p : Pool) (Hp : pool_inv p).

Lemma flash_effect w h initiator receiver amount data fee p' w' :
  apply env p w h initiator receiver amount data = Ok (fee, p', w') ->
  leg_effect keep p h p' 0 0 fee 0 /\ 0 <= fee
  /\ exists c, Ops.synced_market env p h = Ok c
     /\ is_flashloanable (c_params c) = true
     /\ amount <= c_cash c
     /\ (0 < flashloan_fee (c_params c) -> 0 < fee)
     /\ fee = charged_fee (flashloan_fee (c_params c)) amount
     /\ pool_state p' !! h = Some {|
          rs_supplied := c_supplied c + fee_shares c fee;
          rs_borrowed := c_borrowed c;
          rs_revenue := c_revenue c + fee_shares c fee;
          rs_borrow_index := c_borrow_index c;
          rs_supply_index := c_supply_index c;
          rs_last_timestamp := c_last_timestamp c;
          rs_cash := c_cash c + fee |}
     /\ token_balance w' (asset_id (c_params c)) (current_contract_address env)
        = token_balance w (asset_id (c_params c)) (current_contract_address env) + fee.
Proof using Hp HN.
  intros H. unfold apply in H.
  apply rbind_Ok in H as (c & Hprep & H).
  unfold prepare, require_positive_amount, Cache.require_reserves, Ops.renewed_market in Hprep.
  ok_inv Hprep. b2p. rename v into c. pose proof (synced_inv _ _ Hp _ _ Hv0) as Hi.
  assert (0 <= flashloan_fee (c_params c)) by (destruct Hi as [[] _ _ _ _ _ _]; lia).
  apply rbind_Ok in H as (u1 & _ & H). apply rbind_Ok in H as (t & Ht & H).
  apply terms_Ok in Ht as (Hf & Hfp & Hfee & Htot & Hpay & Hrep); [|lia|lia].
  apply rbind_Ok in H as (w1 & Hw1 & H). apply rbind_Ok in H as (u2 & _ & H).
  apply rbind_Ok in H as ([p1 w2] & Hcb & H). cbv beta iota in H.
  apply callback_keeps_pool in Hcb. subst p1.
  apply rbind_Ok in H as (u3 & _ & H). apply rbind_Ok in H as (w3 & Hcol & H).
  apply rbind_Ok in H as (p2 & Hfin & H). injection H as <- <- <-.
  unfold collect_repayment, require_balance in Hcol. ok_inv Hcol. b2p.
  unfold finalize in Hfin. apply rbind_Ok in Hfin as (c2 & Hc2 & Hfin).
  simpl in Hfin. injection Hfin as <-.
  pose proof (book_fee_exact _ _ _ Hi Hf Hc2) as Hx.
  apply (book_fee_Ok _ _ _ Hi Hf) in Hc2 as (Hi2 & Hg & Hu & Hb & Hc & Hh & Hpar & Hbi).
  split; [|split; [done|]].
  - apply leg_effect_event; [done|].
    eapply (leg_commit env p Hp keep _ c c2 0 0 (ft_fee t) [] 0); try (lia || assumption || reflexivity).
    simpl. symmetry. apply app_nil_r.
  - exists c. split_and!; [done|done|lia|done|done| |congruence].
    destruct (synced_market_Ok _ _ _ _ Hp Hv0) as (_ & _ & _ & _ & _ & _ & _ & _ & _ & _ & Hh').
    rewrite Hx, <- Hh'. apply lookup_insert_eq.
Qed.

End Loan.

End Flash.

(** ** The pool contract (contracts/pool/src/lib.rs, contracts/pool/src/views.rs)

    The owner gate, the entrypoints over [Ops], the read-only views, and the
    transition relation of the deployed contract. *)

(** ** Views (views.rs) *)

Module Views.

Definition utilization (env : Env) (w : Pool) (h : HubAssetKey) : res Z :=
  let* c := Cache.load env w h in Cache.calculate_utilization c.

Definition reserves (w : Pool) (h : HubAssetKey) : res Z :=
  let* s := Storage.read_state w h in Ok (rs_cash s).

Definition deposit_rate (env : Env) (w : Pool) (h : HubAssetKey) : res Z :=
  let* c := Cache.load env w h in
  let* util := Cache.calculate_utilization c in
  let* borrow := RatesCurve.calculate_annual_borrow_rate util (c_params c) in
  RatesCurve.calculate_deposit_rate util borrow (reserve_factor (c_params c)).

Definition borrow_rate (env : Env) (w : Pool) (h : HubAssetKey) : res Z :=
  let* c := Cache.load env w h in
  let* util := Cache.calculate_utilization c in
  RatesCurve.calculate_annual_borrow_rate util (c_params c).

Definition protocol_revenue (env : Env) (w : Pool) (h : HubAssetKey) : res Z :=
  let* c := Cache.load env w h in Cache.unscale_supply_floor c (c_revenue c).

Definition supplied_amount (env : Env) (w : Pool) (h : HubAssetKey) : res Z :=
  let* c := Cache.load env w h in Cache.unscale_supply c (c_supplied c).

Definition borrowed_amount (env : Env) (w : Pool) (h : HubAssetKey) : res Z :=
  let* c := Cache.load env w h in Cache.unscale_borrow c (c_borrowed c).

Definition delta_time (env : Env) (w : Pool) (h : HubAssetKey) : res Z :=
  let* c := Cache.load env w h in Ok (Cache.elapsed_ms c).

End Views.

(** ** Entrypoints (lib.rs) *)

Module LiquidityPool.

Definition constructor (admin : Address) : Pool :=
  {| pool_params := ∅; pool_state := ∅; pool_owner := Some admin; pool_log := [] |}.

(** [#[only_owner]]: the stored owner must authorize the call; a missing owner
    or a missing authorization aborts it. *)
Definition only_owner {A : Type} (env : Env) (w : Pool) (body : res A) : res A :=
  match pool_owner w with
  | Some o => if authorized env o then body else Err HostTrap
  | None => Err HostTrap
  end.

Definition create_market (env : Env) (w : Pool) (hub : Z) (p : MarketParamsRaw) : res Pool :=
  only_owner env w (Ops.Market.create env w hub p).

Definition update_params (env : Env) (w : Pool) (h : HubAssetKey) (m : InterestRateModel)
    : res Pool :=
  only_owner env w (Ops.Market.replace_rate_model env w h m).

Definition supply (env : Env) (w : Pool) (entries : list PoolSupplyEntry)
    : res (list PoolPositionMutation * Pool) :=
  only_owner env w (Ops.run_batch w entries true (Ops.Supply.apply env)).

Definition borrow (env : Env) (w : Pool) (receiver : Address)
    (entries : list PoolBorrowEntry) : res (list PoolPositionMutation * Pool) :=
  only_owner env w (Ops.run_batch w entries true (Ops.Borrow.apply env receiver)).

Definition withdraw (env : Env) (w : Pool) (receiver : Address) (is_liquidation : bool)
    (entries : list PoolWithdrawEntry) : res (list PoolPositionMutation * Pool) :=
  only_owner env w
    (Ops.run_batch w entries true (Ops.Withdraw.apply env receiver is_liquidation)).

Definition repay (env : Env) (w : Pool) (payer : Address) (actions : list PoolAction)
    : res (list PoolPositionMutation * Pool) :=
  only_owner env w (Ops.run_batch w actions true (Ops.Repay.apply env payer)).

Definition update_indexes (env : Env) (w : Pool) (hub_assets : list HubAssetKey) : res Pool :=
  only_owner env w (Ops.Market.accrue env w hub_assets).

Definition recapitalize (env : Env) (w : Pool) (h : HubAssetKey) (payer : Address)
    (amount : Z) : res (PoolAmountMutation * Pool) :=
  only_owner env w (Ops.Recapitalize.apply env w h payer amount).

Definition flash_loan {W : Type} `{Host W} (env : Env) (p : Pool) (w : W) (h : HubAssetKey)
    (initiator receiver : Address) (amount : Z) (data : list N) : res (Z * Pool * W) :=
  only_owner env p (Flash.apply env p w h initiator receiver amount data).

Definition create_strategy (env : Env) (w : Pool) (receiver : Address) (action : PoolAction)
    (charge_fee : bool) : res (PoolStrategyMutation * Pool) :=
  only_owner env w (Ops.Strategy.apply env w receiver action charge_fee).

Definition seize_positions (env : Env) (w : Pool) (entries : list PoolSeizeEntry) : res Pool :=
  only_owner env w
    (let* (_, w) := Ops.run_batch w entries false (Ops.Seize.apply env) in Ok w).

Definition net_settle (env : Env) (w : Pool) (entry : PoolNetSettleEntry)
    : res (PoolNetSettleResult * Pool) :=
  only_owner env w
    (let* (rs, w) := Ops.NetSettle.apply env w entry in
     let (result, snapshot) := rs in
     Ok (result, emit_market_state w snapshot)).

Definition claim_revenue (env : Env) (w : Pool) (h : HubAssetKey)
    : res (PoolAmountMutation * Pool) :=
  only_owner env w (Ops.Revenue.apply env w h).

(** [get_bulk_indexes] *)
Definition get_bulk_indexes (env : Env) (w : Pool) (hub_assets : list HubAssetKey)
    : res (list MarketIndexRaw) :=
  let* now := now_ms env in
  rfold (fun indexes h =>
    let* sync := Storage.load_sync_data w h in
    let* m := RatesAccrual.simulate_update_indexes now sync in
    Ok (indexes ++ [market_index_raw_of m])) [] hub_assets.

Lemma only_owner_Ok {A} env w (body : res A) a :
  only_owner env w body = Ok a ->
  body = Ok a /\ exists o, pool_owner w = Some o /\ authorized env o = true.
Proof.
  unfold only_owner. destruct (pool_owner w) as [o|]; [|done].
  destruct (authorized env o) eqn:E; [|done]. eauto.
Qed.

End LiquidityPool.

(** ** Transitions of the contract *)

Section Transitions.

Import LiquidityPool.

Context {W : Type} `{Host W}.

(** One successful call of a mutating entrypoint; a failed call reverts. *)
Inductive pool_step (w : Pool) : Pool -> Prop :=
| step_create env hub p w' :
    raw_params_typed p -> create_market env w hub p = Ok w' -> pool_step w w'
| step_update_params env h m w' :
    0 <= irm_reserve_factor m <= u32_max -> 0 <= irm_flashloan_fee m <= u32_max ->
    update_params env w h m = Ok w' -> pool_step w w'
| step_supply env es r w' : supply env w es = Ok (r, w') -> pool_step w w'
| step_borrow env a es r w' : borrow env w a es = Ok (r, w') -> pool_step w w'
| step_withdraw env a l es r w' : withdraw env w a l es = Ok (r, w') -> pool_step w w'
| step_repay env a es r w' : repay env w a es = Ok (r, w') -> pool_step w w'
| step_update_indexes env hs w' : update_indexes env w hs = Ok w' -> pool_step w w'
| step_recapitalize env h a n r w' : recapitalize env w h a n = Ok (r, w') -> pool_step w w'
| step_flash env (x x' : W) h i a n d r w' :
    flash_loan env w x h i a n d = Ok (r, w', x') -> pool_step w w'
| step_strategy env a act f r w' : create_strategy env w a act f = Ok (r, w') -> pool_step w w'
| step_seize env es w' : seize_positions env w es = Ok w' -> pool_step w w'
| step_net_settle env e r w' : net_settle env w e = Ok (r, w') -> pool_step w w'
| step_claim env h r w' : claim_revenue env w h = Ok (r, w') -> pool_step w w'.

(** The states a deployed pool can be in. *)
Inductive reachable : Pool -> Prop :=
| reach_deploy admin : reachable (constructor admin)
| reach_step w w' : reachable w -> pool_step w w' -> reachable w'.

End Transitions.

(** ** Batches that name each market once *)

Section Unique.

Context {E R : Type} (leg : Pool -> E -> res (R * MarketStateSnapshot * Pool)).
Context (key : E -> HubAssetKey).
Context (Hkey : forall w e r s w', leg w e = Ok (r, s, w') -> snap_hub_asset s = key e).

Lemma batch_fold_unique entries b b' :
  rfold (Ops.batch_step true leg) b entries = Ok b' -> NoDup (Ops.bs_markets b) ->
  NoDup (Ops.bs_markets b') /\ Ops.bs_markets b' = Ops.bs_markets b ++ map key entries
  /\ length (Ops.bs_results b') = (length (Ops.bs_results b) + length entries)%nat.
Proof using Hkey.
  revert b. induction entries as [|e es IH]; intros b H Hnd; simpl in *.
  - injection H as <-. rewrite app_nil_r. split_and!; (done || lia).
  - apply rbind_Ok in H as (b1 & Hb1 & H). unfold Ops.batch_step in Hb1.
    apply rbind_Ok in Hb1 as ([[r s] w1] & Hl & Hb1). cbv beta iota in Hb1.
    apply rbind_Ok in Hb1 as (ms & Hms & Hb1). apply rbind_Ok in Hms as (u & Hu & Hms).
    apply require_Ok in Hu. injection Hms as <-. injection Hb1 as <-.
    apply negb_true_iff, bool_decide_eq_false in Hu.
    apply Hkey in Hl. apply IH in H as (H1 & H2 & H3); simpl in *.
    + rewrite H2, Hl, <- app_assoc in *. rewrite H3, length_app. simpl. split_and!; (done || lia).
    + apply NoDup_app. split_and!; [done| |apply NoDup_singleton].
      intros x Hx Hx'. apply list_elem_of_singleton in Hx'. by subst.
Qed.

Lemma run_batch_unique w entries rs w' :
  Ops.run_batch w entries true leg = Ok (rs, w') ->
  NoDup (map key entries) /\ length rs = length entries.
Proof using Hkey.
  intros H. unfold Ops.run_batch in H. apply rbind_Ok in H as (b & Hb & H).
  injection H as <- <-. apply batch_fold_unique in Hb as (H1 & H2 & H3); [|apply NoDup_nil_2].
  simpl in *. by rewrite <- H2.
Qed.

End Unique.

(** The snapshot a leg returns is of the market its entry names. *)
Section Keys.

Lemma synced_hub env w h c : Ops.synced_market env w h = Ok c -> c_hub_asset c = h.
Proof.
  intros H. unfold Ops.synced_market in H. apply rbind_Ok in H as (c0 & Hl & H).
  apply load_market in Hl as (_ & _ & _ & Hh). unfold Interest.global_sync in H.
  destruct (negb _); ok_inv H; [done|]. simpl.
  eapply (RatesAccrual.accrue_loop_ind Interest.accrue_chunk (fun x => c_hub_asset x = h));
    [|exact Hh|exact Hv].
  intros a d a' _ Ha Hs. unfold Interest.accrue_chunk in Hs.
  apply rbind_Ok in Hs as (st & _ & Hs). by apply accrue_revenue_Ok in Hs as [-> _].
Qed.

Lemma leg_hub env w a c pos : Ops.load_leg env w a = Ok (c, pos) -> c_hub_asset c = pa_hub_asset a.
Proof. intros H. apply load_leg_Ok in H as (H & _). by apply synced_hub in H. Qed.

Lemma supply_key env w e r s w' :
  Ops.Supply.apply env w e = Ok (r, s, w') -> snap_hub_asset s = pa_hub_asset (se_action e).
Proof.
  intros H. unfold Ops.Supply.apply in H. apply rbind_Ok in H as ([c pos] & Hl & H).
  apply leg_hub in Hl. cbv beta iota in H. do 4 apply rbind_Ok in H as (? & _ & H).
  apply rbind_Ok in H as (c1 & Hc1 & H). apply rbind_Ok in H as (c2 & Hc2 & H).
  apply mint_supply_Ok in Hc1 as [-> _]. apply credit_cash_Ok in Hc2 as [-> _].
  by injection H as <- <- <-.
Qed.

Lemma borrow_key env a w e r s w' :
  Ops.Borrow.apply env a w e = Ok (r, s, w') -> snap_hub_asset s = pa_hub_asset (be_action e).
Proof.
  intros H. unfold Ops.Borrow.apply in H. apply rbind_Ok in H as ([o w1] & Ho & H).
  apply rbind_Ok in H as (? & _ & H). injection H as <- <- <-.
  unfold Ops.Borrow.accounting in Ho. apply rbind_Ok in Ho as ([c pos] & Hl & H).
  apply leg_hub in Hl. apply rbind_Ok in H as ([c1 p1] & Hc1 & H).
  apply rbind_Ok in H as (c2 & Hc2 & H). apply debit_cash_Ok in Hc2 as [-> _].
  unfold Ops.Borrow.mint_debt in Hc1. do 6 apply rbind_Ok in Hc1 as (? & _ & Hc1).
  apply rbind_Ok in Hc1 as (c3 & Hc3 & Hc1). apply rbind_Ok in Hc1 as (? & _ & Hc1).
  apply mint_debt_Ok in Hc3 as [-> _]. injection Hc1 as <- <-. by injection H as <- <-.
Qed.

Lemma repay_key env p w a r s w' :
  Ops.Repay.apply env p w a = Ok (r, s, w') -> snap_hub_asset s = pa_hub_asset a.
Proof.
  intros H. unfold Ops.Repay.apply in H. apply rbind_Ok in H as ([o w1] & Ho & H).
  apply rbind_Ok in H as (? & _ & H). injection H as <- <- <-.
  unfold Ops.Repay.accounting in Ho. apply rbind_Ok in Ho as ([c pos] & Hl & H).
  apply leg_hub in Hl. apply rbind_Ok in H as ([bu ov] & _ & H).
  do 3 apply rbind_Ok in H as (? & _ & H).
  apply rbind_Ok in H as (c1 & Hc1 & H). apply rbind_Ok in H as (c2 & Hc2 & H).
  apply burn_debt_Ok in Hc1 as [-> _]. apply credit_cash_Ok in Hc2 as [-> _].
  by injection H as <- <-.
Qed.

Lemma withdraw_key env a l w e r s w' :
  Ops.Withdraw.apply env a l w e = Ok (r, s, w') -> snap_hub_asset s = pa_hub_asset (we_action e).
Proof.
  intros H. unfold Ops.Withdraw.apply in H. apply rbind_Ok in H as ([o w1] & Ho & H).
  apply rbind_Ok in H as (? & _ & H). injection H as <- <- <-.
  unfold Ops.Withdraw.accounting in Ho. apply rbind_Ok in Ho as (? & _ & H).
  apply rbind_Ok in H as ([c pos] & Hl & H). apply leg_hub in Hl.
  apply rbind_Ok in H as ([b g] & _ & H). apply rbind_Ok in H as ([c1 rem] & Hc1 & H).
  apply rbind_Ok in H as ([c2 net] & Hc2 & H). apply rbind_Ok in H as (c3 & Hc3 & H).
  unfold Ops.Withdraw.burn_position in Hc1. apply rbind_Ok in Hc1 as (c1' & Hc1 & Hr).
  apply rbind_Ok in Hr as (? & _ & Hr). injection Hr as <- _.
  apply burn_supply_Ok in Hc1 as [-> _]. apply gate_and_debit_Ok in Hc3 as [-> _].
  assert (c_hub_asset c2 = c_hub_asset c) as Hh.
  { unfold Ops.Withdraw.withhold_liquidation_fee, Interest.add_protocol_revenue in Hc2.
    destruct (_ || _)%bool; [by injection Hc2 as <- _|].
    do 2 apply rbind_Ok in Hc2 as (? & _ & Hc2). apply rbind_Ok in Hc2 as (c4 & Hc4 & Hc2).
    apply rbind_Ok in Hc2 as (? & _ & Hc2). injection Hc2 as <- _.
    destruct (_ =? _); [by injection Hc4 as <-|]. apply rbind_Ok in Hc4 as (? & _ & Hc4).
    by apply accrue_revenue_Ok in Hc4 as [-> _]. }
  injection H as <- <-. simpl. congruence.
Qed.

End Keys.
