(* ===== verification/PoolSolvency.v ===== *)
(** * Solvency of every reachable pool

    [solvent]: in every market supplier claims, protocol revenue included, are
    covered by debt and cash.  It holds in every reachable state as long as no
    socialization was stopped by the supply-index floor. *)

From S2P Require Import Prelude Errors FpCore Fp PoolTypes RatesCurve RatesScaling RatesAccrual PoolCache PoolInterest PoolOps PoolSafety PoolContract.
From stdpp Require Import base numbers list gmap fin_maps.
From Stdlib Require Import ZArith Lia Bool.

Open Scope Z_scope.

Definition solvent (w : Pool) : Prop := forall h c, market_of w h = Some c -> gap c <= 0.

(** No published market state has its supply index at the floor. *)
Definition floor_free (l : list Effect) : Prop :=
  forall updates s, EmitMarketStates updates ∈ l -> s ∈ updates ->
    snap_supply_index s <> SUPPLY_INDEX_FLOOR_RAW.

Lemma floor_free_app l1 l2 : floor_free (l1 ++ l2) <-> floor_free l1 /\ floor_free l2.
Proof.
  unfold floor_free. split.
  - intros H. split; intros u s Hu Hs; apply (H u s); auto; apply elem_of_app; auto.
  - intros [H1 H2] u s Hu Hs. apply elem_of_app in Hu as [Hu|Hu]; eauto.
Qed.

(** How a call may change a pool; [F] is what keeps it solvent. *)
Record evolves (F : Prop) (w w' : Pool) : Prop := {
  ev_inv : pool_inv w';
  ev_solvent : F -> solvent w -> solvent w';
  ev_owner : pool_owner w' = pool_owner w;
  ev_log : exists l, pool_log w' = pool_log w ++ l
}.

Lemma evolves_refl F w : pool_inv w -> evolves F w w.
Proof. intros Hw. split; try done. exists []. by rewrite app_nil_r. Qed.

Lemma evolves_trans (F1 F2 F : Prop) w1 w2 w3 :
  evolves F1 w1 w2 -> evolves F2 w2 w3 -> (F -> F1 /\ F2) -> evolves F w1 w3.
Proof.
  intros [Hi1 Hs1 Ho1 [l1 Hl1]] [Hi2 Hs2 Ho2 [l2 Hl2]] HF. split; [done| |congruence|].
  - intros [HF1 HF2]%HF Hs. auto.
  - exists (l1 ++ l2). by rewrite Hl2, Hl1, app_assoc.
Qed.

Lemma evolves_weaken (F F' : Prop) w w' : (F' -> F) -> evolves F w w' -> evolves F' w w'.
Proof. intros HF []. split; auto. Qed.

Lemma leg_effect_evolves (F : Prop) cap w h w' ds db dc out :
  pool_inv w -> leg_effect cap w h w' ds db dc out ->
  (F -> forall g, g <= 0 -> cap g <= 0) -> evolves F w w'.
Proof.
  intros Hw He Hcap. split.
  - by eapply leg_effect_inv.
  - intros HF Hs h' c' Hm'. specialize (Hcap HF). destruct (decide (h' = h)) as [->|Hne].
    + destruct He as [(c & c1 & Hm & Hm1 & _ & Hg & _) _ _ _ _].
      assert (c1 = c') as -> by congruence. specialize (Hcap _ (Hs _ _ Hm)). lia.
    + rewrite (leg_effect_other _ _ _ _ _ _ _ _ _ He Hne) in Hm'. eauto.
  - by destruct He.
  - destruct He as [_ _ _ _ (l & Hl & _)]. eauto.
Qed.

Lemma keep_evolves w h w' ds db dc out :
  pool_inv w -> leg_effect keep w h w' ds db dc out -> evolves True w w'.
Proof. intros Hw He. eapply leg_effect_evolves; [done|exact He|]. auto. Qed.

Lemma emit_evolves w e : pool_inv w -> evolves True w (Storage.emit w e).
Proof. intros Hw. split; try done. by exists [e]. Qed.

(** ** Batches *)

Section Batch.

Context {E R : Type} (leg : Pool -> E -> res (R * MarketStateSnapshot * Pool)).
Context (Hleg : forall w e r s w', pool_inv w -> leg w e = Ok (r, s, w') ->
  evolves (snap_supply_index s <> SUPPLY_INDEX_FLOOR_RAW) w w').

Definition off_floor (ss : list MarketStateSnapshot) : Prop :=
  forall s, s ∈ ss -> snap_supply_index s <> SUPPLY_INDEX_FLOOR_RAW.

Lemma batch_fold_evolves unique w entries b :
  pool_inv w -> rfold (Ops.batch_step unique leg) (Ops.mkBatchState w [] [] []) entries = Ok b ->
  evolves (off_floor (Ops.bs_snapshots b)) w (Ops.bs_pool b).
Proof using Hleg.
  intros Hw. apply (rfold_inv (fun b => evolves (off_floor (Ops.bs_snapshots b)) w (Ops.bs_pool b))).
  - intros b1 e b2 _ Hb1 Hstep. unfold Ops.batch_step in Hstep.
    apply rbind_Ok in Hstep as ([[r s] w2] & Hl & Hstep). cbv beta iota in Hstep.
    apply rbind_Ok in Hstep as (ms & _ & Hstep). injection Hstep as <-. simpl.
    apply Hleg in Hl; [|apply Hb1]. apply (evolves_trans _ _ _ _ _ _ Hb1 Hl).
    intros Hoff. split.
    + intros s' Hs'. apply Hoff, elem_of_app. by left.
    + apply Hoff, elem_of_app. right. by apply list_elem_of_singleton.
  - by apply evolves_refl.
Qed.

Lemma run_batch_evolves unique w entries rs w' :
  pool_inv w -> Ops.run_batch w entries unique leg = Ok (rs, w') ->
  evolves (floor_free (pool_log w')) w w'.
Proof using Hleg.
  intros Hw H. unfold Ops.run_batch in H. apply rbind_Ok in H as (b & Hb & H).
  apply batch_fold_evolves in Hb; [|done]. injection H as <- <-.
  unfold emit_market_state_batch. destruct (Ops.bs_snapshots b) as [|s ss] eqn:Ess.
  - eapply evolves_weaken; [|exact Hb]. intros _ s Hs. by apply elem_of_nil in Hs.
  - eapply (evolves_trans _ True); [exact Hb|apply emit_evolves, Hb|].
    intros Hf. split; [|done]. intros s' Hs'. apply (Hf (s :: ss)); [|done].
    simpl. apply elem_of_app. right. by apply list_elem_of_singleton.
Qed.

End Batch.

(** ** Market lifecycle *)

Lemma market_of_insert_ne w h h' (p : MarketParamsRaw) (s : PoolStateRaw) o l :
  h <> h' ->
  market_of (mkPool (<[h := p]> (pool_params w)) (<[h := s]> (pool_state w)) o l) h'
  = market_of w h'.
Proof. intros. unfold market_of. simpl. by rewrite !lookup_insert_ne. Qed.

(** Writing params and state of one market, the market they make being given. *)
Lemma install_evolves w h p s o l :
  pool_inv w -> raw_params_typed p -> market_inv (stored_market h p s) ->
  o = pool_owner w ->
  (solvent w -> gap (stored_market h p s) <= 0) ->
  evolves True w (mkPool (<[h := p]> (pool_params w)) (<[h := s]> (pool_state w)) o
                    (pool_log w ++ l)).
Proof.
  intros (Hdom & Hinv & Hty) Hp Hi -> Hg. split; [split_and!| |done|by exists l].
  - intros h'. simpl. destruct (decide (h = h')) as [<-|Hne].
    + rewrite !lookup_insert_eq. split; eauto.
    + rewrite !lookup_insert_ne by done. apply Hdom.
  - intros h' c. destruct (decide (h = h')) as [<-|Hne].
    + unfold market_of. simpl. rewrite !lookup_insert_eq. by intros [= <-].
    + rewrite market_of_insert_ne by done. apply Hinv.
  - intros h' p'. simpl. destruct (decide (h = h')) as [<-|Hne].
    + rewrite lookup_insert_eq. by intros [= <-].
    + rewrite lookup_insert_ne by done. apply Hty.
  - intros _ Hs h' c. destruct (decide (h = h')) as [<-|Hne].
    + unfold market_of. simpl. rewrite !lookup_insert_eq. intros [= <-]. auto.
    + rewrite market_of_insert_ne by done. apply Hs.
Qed.

Lemma initial_market_inv h p now :
  valid_params (params_of_raw p) ->
  market_inv (stored_market h p (Ops.Market.initial_state now)).
Proof.
  intros Hv.
  assert (RAY <= MAX_BORROW_INDEX_RAY) by zconst. assert (0 <= i128_max) by zconst.
  assert (SUPPLY_INDEX_FLOOR_RAW <= RAY <= MAX_SUPPLY_INDEX_RAY) by (split; zconst).
  split; simpl; lia || assumption.
Qed.

Lemma create_evolves env w hub p w' :
  pool_inv w -> raw_params_typed p -> Ops.Market.create env w hub p = Ok w' ->
  evolves True w w'.
Proof.
  intros Hw Hp H. unfold Ops.Market.create in H.
  apply rbind_Ok in H as (u & Hv & H). apply rbind_Ok in H as (u2 & _ & H).
  apply rbind_Ok in H as (now & _ & H). injection H as <-.
  apply verify_valid in Hv; [|done].
  apply (install_evolves w (mkHubAssetKey hub (rp_asset_id p)) p);
    [exact Hw|exact Hp|by apply initial_market_inv|reflexivity|].
  intros _. unfold gap, claims, debts, cash_ray, RatesAccrual.claim. simpl. zconst.
Qed.

Lemma replace_rate_model_evolves env w h m w' :
  pool_inv w -> 0 <= irm_reserve_factor m <= u32_max -> 0 <= irm_flashloan_fee m <= u32_max ->
  Ops.Market.replace_rate_model env w h m = Ok w' -> evolves True w w'.
Proof.
  intros Hw Hrf Hfee H. unfold Ops.Market.replace_rate_model, Ops.renewed_market in H.
  apply rbind_Ok in H as (c & Hl & H). cbn [Cache.commit] in H.
  unfold Storage.write_rate_model, Storage.read_params in H. simpl in H.
  apply rbind_Ok in H as ([ps w1] & Hps & H). apply rbind_Ok in Hps as (p & Hp & Hps).
  apply of_option_Ok in Hp. injection Hps as <- <-.
  apply rbind_Ok in H as (u & Hv & H). injection H as <-.
  destruct (synced_market_Ok _ _ _ _ Hw Hl)
    as (c0 & Hm & _ & Hi & Hg & _ & _ & _ & _ & Hpar & Hh).
  pose proof (proj2 (proj2 Hw) _ _ Hp) as (_ & _ & Hdec).
  apply verify_valid in Hv; [|by repeat split; simpl; lia].
  rewrite Hh. set (p' := mkMarketParamsRaw _ _ _ _ _ _ _ _ _ _ _ _ _) in *.
  apply (install_evolves w h p' (Cache.to_state c) (pool_owner w)
           [EmitMarketParams (hub_id h) (asset h) p']); [exact Hw| | |reflexivity|].
  - by repeat split; simpl; lia.
  - inv_ranges Hi. split; simpl; lia || assumption.
  - intros Hs. specialize (Hs _ _ Hm). etrans; [|exact Hs]. etrans; [|exact Hg].
    assert (asset_decimals (c_params c) = rp_asset_decimals p) as Hd.
    { rewrite Hpar. unfold market_of in Hm. rewrite Hp in Hm.
      destruct (pool_state w !! h); [|done]. by injection Hm as <-. }
    unfold gap, claims, debts, cash_ray. simpl. rewrite Hd. lia.
Qed.

Lemma accrue_evolves env w hs w' :
  pool_inv w -> Ops.Market.accrue env w hs = Ok w' -> evolves True w w'.
Proof.
  intros Hw. apply (rfold_inv (fun x => evolves True w x)); [|by apply evolves_refl].
  intros w1 h w2 _ H1 H2. apply accrue_one_effect in H2; [|apply H1].
  eapply (evolves_trans True True); [exact H1| |done].
  eapply keep_evolves; [apply H1|exact H2].
Qed.

(** ** Every call *)

Section Calls.

Import LiquidityPool.

Context {W : Type} `{HW : Host W} `{HN : !NoReentry W}.

Lemma seize_leg_evolves env w e r s w' :
  pool_inv w -> Ops.Seize.apply env w e = Ok (r, s, w') ->
  evolves (snap_supply_index s <> SUPPLY_INDEX_FLOOR_RAW) w w'.
Proof using.
  intros Hw H. destruct r, (sz_side e) eqn:Hside.
  - apply seize_deposit_effect in H as [He _]; [|done..].
    apply (evolves_weaken True); [done|]. by eapply keep_evolves.
  - apply seize_borrow_effect in H as (k & Hk & Hkf & He & _); [|done..].
    eapply leg_effect_evolves; [done|exact He|]. intros HF%Hkf g Hg. lia.
Qed.

Lemma log_free w w' F : evolves F w w' -> floor_free (pool_log w') -> floor_free (pool_log w).
Proof using. intros [_ _ _ [l ->]] [H _]%floor_free_app. done. Qed.

Lemma step_evolves w w' :
  pool_inv w -> pool_step (W := W) w w' -> evolves (floor_free (pool_log w')) w w'.
Proof using HN.
  intros Hw Hstep.
  assert (evolves True w w' -> evolves (floor_free (pool_log w')) w w') as weaken
    by (intros He; by apply (evolves_weaken True)).
  destruct Hstep; match goal with H : _ = Ok _ |- _ => apply only_owner_Ok in H as [H _] end;
    try (eapply run_batch_evolves; [|done|eassumption]; cbv beta;
         intros w1 e1 r1 s1 w2 Hw1 Hl; apply (evolves_weaken True); [done|]).
  - apply weaken. by eapply create_evolves.
  - apply weaken. by eapply replace_rate_model_evolves.
  - apply supply_effect in Hl as [He _]; [|done]. by eapply keep_evolves.
  - apply borrow_effect in Hl as [He _]; [|done]. by eapply keep_evolves.
  - apply withdraw_effect in Hl as (net & He & _); [|done]. by eapply keep_evolves.
  - apply repay_effect in Hl as [He _]; [|done]. by eapply keep_evolves.
  - apply weaken. by eapply accrue_evolves.
  - apply weaken. apply recapitalize_effect in H as [He _]; [|done]. by eapply keep_evolves.
  - apply weaken. apply Flash.flash_effect in H as [He _]; [|done]. by eapply keep_evolves.
  - apply weaken. apply strategy_effect in H as [He _]; [|done]. by eapply keep_evolves.
  - apply rbind_Ok in H as ([rs w1] & H & Hr). injection Hr as <-.
    eapply run_batch_evolves; [|done|exact H]. intros. by eapply seize_leg_evolves.
  - apply weaken. apply rbind_Ok in H as ([[rs s] w1] & H & Hr). injection Hr as <- <-.
    apply net_settle_effect in H as [He _]; [|done]. apply keep_evolves in He; [|done].
    eapply (evolves_trans True True); [exact He|apply emit_evolves, He|done].
  - apply weaken. apply revenue_effect in H as [He _]; [|done]. by eapply keep_evolves.
Qed.

Lemma deployed_inv admin : pool_inv (constructor admin).
Proof using.
  split_and!.
  - intros h. simpl. by rewrite !lookup_empty.
  - intros h c. unfold market_of. simpl. by rewrite lookup_empty.
  - intros h p. simpl. by rewrite lookup_empty.
Qed.

Lemma reachable_inv w : reachable (W := W) w -> pool_inv w.
Proof using HN.
  induction 1 as [admin|w w' _ IH Hstep]; [apply deployed_inv|].
  by apply (step_evolves w w').
Qed.

Lemma reachable_solvency w : reachable (W := W) w -> floor_free (pool_log w) -> solvent w.
Proof using HN.
  induction 1 as [admin|w w' Hr IH Hstep]; intros Hf.
  - intros h c. unfold market_of. simpl. by rewrite lookup_empty.
  - pose proof (step_evolves _ _ (reachable_inv _ Hr) Hstep) as Hev.
    apply Hev; [done|]. apply IH. by eapply log_free.
Qed.

End Calls.

(** ** The position book beside the pool

    The pool stores market totals only; its owner keeps the positions, passes the
    stored one with every leg and writes back the one it is handed
    (INV-ACCT-10).  A [Book] kept that way always sums to the pool's totals:
    deposits to [supplied - revenue], debts to [borrowed]. *)

#[export] Instance AccountPositionType_countable : Countable AccountPositionType :=
  inj_countable' (fun t => match t with Deposit => true | PoolTypes.Borrow => false end)
    (fun b => if b then Deposit else PoolTypes.Borrow) ltac:(by intros []).

(** Side, market and account of a position. *)
Abbreviation PositionKey := (AccountPositionType * HubAssetKey * N)%type.
Abbreviation Book := (gmap PositionKey Z).

Definition position (b : Book) (k : PositionKey) : Z := default 0 (b !! k).

Definition counts (t : AccountPositionType) (h : HubAssetKey) (k : PositionKey) : bool :=
  bool_decide (k.1 = (t, h)).

Definition book_total (t : AccountPositionType) (h : HubAssetKey) (b : Book) : Z :=
  map_fold (fun k v acc => (if counts t h k then v else 0) + acc) 0 b.

Lemma total_empty t h : book_total t h ∅ = 0.
Proof. apply map_fold_empty. Qed.

Lemma total_insert_new t h b k v :
  b !! k = None -> book_total t h (<[k := v]> b) = (if counts t h k then v else 0) + book_total t h b.
Proof.
  intros Hk. unfold book_total. rewrite map_fold_insert_L; [done| |done].
  intros; lia.
Qed.

Lemma total_delete t h b k :
  book_total t h b = (if counts t h k then position b k else 0) + book_total t h (delete k b).
Proof.
  unfold position. destruct (b !! k) as [v|] eqn:Hk; simpl.
  - rewrite <- (insert_delete_id b k v Hk) at 1.
    apply total_insert_new. by rewrite lookup_delete_eq.
  - rewrite delete_id by done. by destruct (counts t h k).
Qed.

(** Writing one position moves its market's total by the change. *)
Lemma total_insert t h b k v :
  book_total t h (<[k := v]> b)
  = book_total t h b + (if counts t h k then v - position b k else 0).
Proof.
  rewrite (total_delete t h b k), <- insert_delete_eq.
  rewrite total_insert_new by (by rewrite lookup_delete_eq).
  destruct (counts t h k); lia.
Qed.

Lemma counts_same t h a : counts t h (t, h, a) = true.
Proof. unfold counts. by rewrite bool_decide_true. Qed.

Lemma counts_other t h t' h' a : t' <> t \/ h' <> h -> counts t h (t', h', a) = false.
Proof. intros Hne. unfold counts. rewrite bool_decide_false; [done|]. simpl. intros [=]. naive_solver. Qed.

(** ** Clients *)

Section Ledger.

Context {W : Type} `{HW : Host W} `{HN : !NoReentry W}.

(** One leg, with the position read from and written back to the book. *)
Inductive ledger_step : Pool * Book -> Pool * Book -> Prop :=
| ls_supply env w b e m s w' acct :
    Ops.Supply.apply env w e = Ok (m, s, w') ->
    scaled_amount (pa_position (se_action e))
      = position b (Deposit, pa_hub_asset (se_action e), acct) ->
    ledger_step (w, b)
      (w', <[(Deposit, pa_hub_asset (se_action e), acct) := scaled_amount (pm_position m)]> b)
| ls_withdraw env w b r l e m s w' acct :
    Ops.Withdraw.apply env r l w e = Ok (m, s, w') ->
    scaled_amount (pa_position (we_action e))
      = position b (Deposit, pa_hub_asset (we_action e), acct) ->
    ledger_step (w, b)
      (w', <[(Deposit, pa_hub_asset (we_action e), acct) := scaled_amount (pm_position m)]> b)
| ls_borrow env w b r e m s w' acct :
    Ops.Borrow.apply env r w e = Ok (m, s, w') ->
    scaled_amount (pa_position (be_action e))
      = position b (PoolTypes.Borrow, pa_hub_asset (be_action e), acct) ->
    ledger_step (w, b)
      (w', <[(PoolTypes.Borrow, pa_hub_asset (be_action e), acct) := scaled_amount (pm_position m)]> b)
| ls_repay env w b p a m s w' acct :
    Ops.Repay.apply env p w a = Ok (m, s, w') ->
    scaled_amount (pa_position a) = position b (PoolTypes.Borrow, pa_hub_asset a, acct) ->
    ledger_step (w, b)
      (w', <[(PoolTypes.Borrow, pa_hub_asset a, acct) := scaled_amount (pm_position m)]> b)
| ls_strategy env w b r a charge m w' acct :
    Ops.Strategy.apply env w r a charge = Ok (m, w') ->
    scaled_amount (pa_position a) = position b (PoolTypes.Borrow, pa_hub_asset a, acct) ->
    ledger_step (w, b)
      (w', <[(PoolTypes.Borrow, pa_hub_asset a, acct) := scaled_amount (sm_position m)]> b)
| ls_net_settle env w b e m s w' acct :
    Ops.NetSettle.apply env w e = Ok (m, s, w') ->
    scaled_amount (ns_supply_position e) = position b (Deposit, ns_hub_asset e, acct) ->
    scaled_amount (ns_debt_position e) = position b (PoolTypes.Borrow, ns_hub_asset e, acct) ->
    ledger_step (w, b)
      (w', <[(Deposit, ns_hub_asset e, acct) := scaled_amount (nr_supply_position m)]>
             (<[(PoolTypes.Borrow, ns_hub_asset e, acct)
                 := scaled_amount (nr_debt_position m)]> b))
| ls_seize env w b e s w' acct :
    Ops.Seize.apply env w e = Ok (tt, s, w') ->
    scaled_amount (sz_position e) = position b (sz_side e, sz_hub_asset e, acct) ->
    ledger_step (w, b) (w', <[(sz_side e, sz_hub_asset e, acct) := 0]> b)
| ls_recapitalize env w b h p a m w' :
    Ops.Recapitalize.apply env w h p a = Ok (m, w') -> ledger_step (w, b) (w', b)
| ls_claim env w b h m w' :
    Ops.Revenue.apply env w h = Ok (m, w') -> ledger_step (w, b) (w', b)
| ls_accrue env w b h w' :
    Ops.Market.accrue_one env w h = Ok w' -> ledger_step (w, b) (w', b)
| ls_flash env w b (x x' : W) h i a n d fee w' :
    Flash.apply env w x h i a n d = Ok (fee, w', x') -> ledger_step (w, b) (w', b)
| ls_create env w b hub p w' :
    raw_params_typed p -> Ops.Market.create env w hub p = Ok w' -> ledger_step (w, b) (w', b)
| ls_update_params env w b h m w' :
    0 <= irm_reserve_factor m <= u32_max -> 0 <= irm_flashloan_fee m <= u32_max ->
    Ops.Market.replace_rate_model env w h m = Ok w' -> ledger_step (w, b) (w', b).

Inductive ledger_reachable : Pool * Book -> Prop :=
| lr_deploy admin : ledger_reachable (LiquidityPool.constructor admin, ∅)
| lr_step s s' : ledger_reachable s -> ledger_step s s' -> ledger_reachable s'.

(** The book's totals are the pool's; markets that do not exist hold nothing. *)
Definition tracks (s : Pool * Book) : Prop :=
  pool_inv s.1 /\ forall h,
    match market_of s.1 h with
    | Some c => book_total Deposit h s.2 = user_shares c /\ book_total PoolTypes.Borrow h s.2 = c_borrowed c
    | None => book_total Deposit h s.2 = 0 /\ book_total PoolTypes.Borrow h s.2 = 0
    end.

Lemma tracks_leg cap w b h w' ds db dc out b' :
  tracks (w, b) -> leg_effect cap w h w' ds db dc out ->
  (forall h', book_total Deposit h' b' = book_total Deposit h' b + (if bool_decide (h' = h) then ds else 0)) ->
  (forall h', book_total PoolTypes.Borrow h' b'
     = book_total PoolTypes.Borrow h' b + (if bool_decide (h' = h) then db else 0)) ->
  tracks (w', b').
Proof using.
  intros [Hw Ht] He Hd Hb. split; [by eapply leg_effect_inv|]. intros h'. simpl in *.
  rewrite Hd, Hb. specialize (Ht h'). destruct (decide (h' = h)) as [->|Hne].
  - rewrite bool_decide_true by done.
    destruct He as [(c & c' & Hm & Hm' & _ & _ & Hu & Hbo & _) _ _ _ _].
    rewrite Hm in Ht. rewrite Hm'. lia.
  - rewrite bool_decide_false by done. rewrite (leg_effect_other _ _ _ _ _ _ _ _ _ He Hne).
    destruct (market_of w h'); lia.
Qed.

(** One written position. *)
Lemma tracks_write cap w b t h acct w' v dc out :
  tracks (w, b) ->
  leg_effect cap w h w'
    (match t with Deposit => v - position b (t, h, acct) | PoolTypes.Borrow => 0 end)
    (match t with Deposit => 0 | PoolTypes.Borrow => v - position b (t, h, acct) end) dc out ->
  tracks (w', <[(t, h, acct) := v]> b).
Proof using.
  intros Ht He. eapply tracks_leg; [exact Ht|exact He|..]; intros h'; rewrite total_insert;
    (destruct (decide (h' = h)) as [->|Hne];
      [rewrite bool_decide_true by done|rewrite bool_decide_false by done;
       rewrite counts_other by auto; lia]);
    destruct t; rewrite ?counts_same, ?counts_other by auto; lia.
Qed.

Lemma tracks_keep cap w b h w' dc out :
  tracks (w, b) -> leg_effect cap w h w' 0 0 dc out -> tracks (w', b).
Proof using.
  intros Ht He. eapply tracks_leg; [exact Ht|exact He|..]; intros h'; destruct (bool_decide _); lia.
Qed.

Lemma tracks_create env w b hub p w' :
  tracks (w, b) -> raw_params_typed p -> Ops.Market.create env w hub p = Ok w' ->
  tracks (w', b).
Proof using.
  intros [Hw Ht] Hp H. split; [by eapply create_evolves|].
  unfold Ops.Market.create in H.
  apply rbind_Ok in H as (u & _ & H). apply rbind_Ok in H as (u2 & Hex & H).
  apply rbind_Ok in H as (now & _ & H). injection H as <-. apply require_Ok in Hex.
  intros h. specialize (Ht h). simpl in *. unfold market_of in *. simpl.
  destruct (decide (mkHubAssetKey hub (rp_asset_id p) = h)) as [<-|Hne].
  - rewrite !lookup_insert_eq. unfold Storage.market_exists in Hex.
    destruct (pool_params w !! _); [done|]. unfold user_shares. simpl. lia.
  - by rewrite !lookup_insert_ne.
Qed.

Lemma tracks_update_params env w b h m w' :
  tracks (w, b) -> 0 <= irm_reserve_factor m <= u32_max -> 0 <= irm_flashloan_fee m <= u32_max ->
  Ops.Market.replace_rate_model env w h m = Ok w' -> tracks (w', b).
Proof using.
  intros [Hw Ht] Hrf Hfee H. split; [by eapply replace_rate_model_evolves|].
  unfold Ops.Market.replace_rate_model, Ops.renewed_market in H.
  apply rbind_Ok in H as (c & Hl & H). cbn [Cache.commit] in H.
  apply rbind_Ok in H as ([ps w1] & Hps & H). apply rbind_Ok in H as (u & _ & H).
  unfold Storage.write_rate_model in Hps. apply rbind_Ok in Hps as (p & _ & Hps).
  injection Hps as <- <-. injection H as <-.
  destruct (synced_market_Ok _ _ _ _ Hw Hl)
    as (c0 & Hm & _ & _ & _ & Hu & Hb & _ & _ & _ & Hh).
  intros h'. specialize (Ht h'). simpl in *. rewrite Hh.
  destruct (decide (h = h')) as [<-|Hne].
  - rewrite Hm in Ht. unfold market_of. simpl. rewrite !lookup_insert_eq.
    unfold user_shares in *. simpl. lia.
  - unfold market_of in *. simpl. by rewrite !lookup_insert_ne.
Qed.

Lemma ledger_step_tracks s s' : tracks s -> ledger_step s s' -> tracks s'.
Proof using HN.
  intros Ht Hs. destruct Hs; pose proof (proj1 Ht) as Hw; simpl in Hw.
  - apply supply_effect in H as [He _]; [|done]. rewrite H0 in He.
    eapply (tracks_write _ _ _ Deposit); [exact Ht|exact He].
  - apply withdraw_effect in H as (net & He & _); [|done]. rewrite H0 in He.
    eapply (tracks_write _ _ _ Deposit); [exact Ht|exact He].
  - apply borrow_effect in H as [He _]; [|done]. rewrite H0 in He.
    eapply (tracks_write _ _ _ PoolTypes.Borrow); [exact Ht|exact He].
  - apply repay_effect in H as [He _]; [|done]. rewrite H0 in He.
    eapply (tracks_write _ _ _ PoolTypes.Borrow); [exact Ht|exact He].
  - apply strategy_effect in H as [He _]; [|done]. rewrite H0 in He.
    eapply (tracks_write _ _ _ PoolTypes.Borrow); [exact Ht|exact He].
  - apply net_settle_effect in H as [He _]; [|done]. rewrite H0, H1 in He.
    eapply tracks_leg; [exact Ht|exact He|..]; intros h'; rewrite !total_insert;
      (destruct (decide (h' = ns_hub_asset e)) as [->|Hne];
        [rewrite bool_decide_true by done|rewrite bool_decide_false by done;
         rewrite !counts_other by auto; lia]);
      rewrite counts_same, counts_other by auto;
      unfold position; rewrite ?lookup_insert_ne by done; lia.
  - destruct (sz_side e) eqn:Hside.
    + apply seize_deposit_effect in H as [He _]; [|done..]. rewrite H0 in He.
      eapply (tracks_write _ _ _ Deposit); [exact Ht|exact He].
    + apply seize_borrow_effect in H as (k & _ & _ & He & _); [|done..]. rewrite H0 in He.
      eapply (tracks_write _ _ _ PoolTypes.Borrow); [exact Ht|exact He].
  - apply recapitalize_effect in H as [He _]; [|done]. by eapply tracks_keep.
  - apply revenue_effect in H as [He _]; [|done]. by eapply tracks_keep.
  - apply accrue_one_effect in H; [|done]. by eapply tracks_keep.
  - apply Flash.flash_effect in H as [He _]; [|done]. by eapply tracks_keep.
  - by eapply tracks_create.
  - by eapply tracks_update_params.
Qed.

Lemma ledger_reachable_tracks s : ledger_reachable s -> tracks s.
Proof using HN.
  induction 1 as [admin|s s' _ IH Hstep]; [|by eapply ledger_step_tracks].
  split; [apply deployed_inv|]. intros h. unfold market_of. simpl.
  by rewrite lookup_empty, !total_empty.
Qed.

End Ledger.
