(* ===== verification/ControllerTypes.v ===== *)
(** * Accounts, price feeds and listings of the controller
    (common/src/types/controller.rs, common/src/types/oracle.rs,
    common/src/types/pool.rs, contracts/controller/src/context.rs)

    A Soroban [Map] is an association list in the host's key order: lookups take
    the entry of the key, iteration follows the list. *)

From S2P Require Import Prelude Errors FpCore Fp PoolTypes.
From stdpp Require Import base numbers list gmap.
From Stdlib Require Import ZArith Lia Bool.

Open Scope Z_scope.

(** ** Positions *)

Record AccountPositionRaw : Type := mkAccountPositionRaw {
  apr_scaled_amount : Z;
  apr_liquidation_threshold : Z;
  apr_liquidation_bonus : Z;
  apr_loan_to_value : Z;
  apr_liquidation_fees : Z
}.

Record AccountPosition : Type := mkAccountPosition {
  ap_scaled_amount : Ray;
  ap_liquidation_threshold : Bps;
  ap_liquidation_bonus : Bps;
  ap_loan_to_value : Bps;
  ap_liquidation_fees : Bps
}.

#[export] Instance AccountPosition_eq_dec : EqDecision AccountPosition.
Proof. solve_decision. Defined.

Definition account_position_of_raw (r : AccountPositionRaw) : AccountPosition :=
  {| ap_scaled_amount := apr_scaled_amount r;
     ap_liquidation_threshold := apr_liquidation_threshold r;
     ap_liquidation_bonus := apr_liquidation_bonus r;
     ap_loan_to_value := apr_loan_to_value r;
     ap_liquidation_fees := apr_liquidation_fees r |}.

Definition raw_of_account_position (t : AccountPosition) : AccountPositionRaw :=
  {| apr_scaled_amount := ap_scaled_amount t;
     apr_liquidation_threshold := as_u32 (ap_liquidation_threshold t);
     apr_liquidation_bonus := as_u32 (ap_liquidation_bonus t);
     apr_loan_to_value := as_u32 (ap_loan_to_value t);
     apr_liquidation_fees := as_u32 (ap_liquidation_fees t) |}.

Record DebtPositionRaw : Type := mkDebtPositionRaw { dpr_scaled_amount : Z }.
Record DebtPosition : Type := mkDebtPosition { dp_scaled_amount : Ray }.

Definition debt_position_of_raw (r : DebtPositionRaw) : DebtPosition :=
  mkDebtPosition (dpr_scaled_amount r).

(** ** Association lists keyed by market *)

Abbreviation PositionMap V := (list (HubAssetKey * V)).

Fixpoint map_get {V : Type} (m : PositionMap V) (k : HubAssetKey) : option V :=
  match m with
  | [] => None
  | (k', v) :: m' => if bool_decide (k' = k) then Some v else map_get m' k
  end.

Definition map_keys {V : Type} (m : PositionMap V) : list HubAssetKey := map fst m.

(** [storage::iter_typed_positions], [iter_debt_positions] *)
Definition iter_typed_positions (m : PositionMap AccountPositionRaw)
    : PositionMap AccountPosition :=
  map (fun e => (e.1, account_position_of_raw e.2)) m.

Definition iter_debt_positions (m : PositionMap DebtPositionRaw) : PositionMap DebtPosition :=
  map (fun e => (e.1, debt_position_of_raw e.2)) m.

(** ** Accounts *)

Record Account : Type := mkAccount {
  acc_owner : Address;
  acc_spoke_id : Z;
  acc_mode : PositionMode;
  supply_positions : PositionMap AccountPositionRaw;
  borrow_positions : PositionMap DebtPositionRaw
}.

Definition debt_free (a : Account) : bool :=
  match borrow_positions a with [] => true | _ => false end.

(** ** Price feeds *)

Record PriceFeedRaw : Type := mkPriceFeedRaw {
  pfr_price_wad : Z;
  pfr_asset_decimals : Z;
  pfr_timestamp : Z
}.

Record PriceFeed : Type := mkPriceFeed {
  pf_price : Wad;
  pf_asset_decimals : Z;
  pf_timestamp : Z
}.

Definition price_feed_of_raw (r : PriceFeedRaw) : PriceFeed :=
  {| pf_price := pfr_price_wad r;
     pf_asset_decimals := pfr_asset_decimals r;
     pf_timestamp := pfr_timestamp r |}.

Definition raw_of_price_feed (t : PriceFeed) : PriceFeedRaw :=
  {| pfr_price_wad := pf_price t;
     pfr_asset_decimals := pf_asset_decimals t;
     pfr_timestamp := pf_timestamp t |}.

Definition usd_value_wad (f : PriceFeed) (token_amount : Z) : res Wad :=
  let* w := Wad.from_token token_amount (pf_asset_decimals f) in
  Wad.mul w (pf_price f).

Definition market_index_of_raw (r : MarketIndexRaw) : MarketIndex :=
  {| borrow_index := mi_borrow_index r; supply_index := mi_supply_index r |}.

(** ** Configuration *)

Record SpokeConfig : Type := mkSpokeConfig {
  sc_is_deprecated : bool;
  sc_liquidation_target_hf_wad : Z;
  sc_hf_for_max_bonus_wad : Z;
  sc_liquidation_bonus_factor_bps : Z
}.

Record SpokeAssetConfig : Type := mkSpokeAssetConfig {
  sa_is_collateralizable : bool;
  sa_is_borrowable : bool;
  sa_paused : bool;
  sa_frozen : bool;
  sa_no_seize : bool;
  sa_loan_to_value : Z;
  sa_liquidation_threshold : Z;
  sa_liquidation_bonus : Z;
  sa_liquidation_fees : Z;
  sa_supply_cap : Z;
  sa_borrow_cap : Z
}.

Record AssetConfig : Type := mkAssetConfig {
  ac_loan_to_value : Bps;
  ac_liquidation_threshold : Bps;
  ac_liquidation_bonus : Bps;
  ac_liquidation_fees : Bps;
  ac_is_collateralizable : bool;
  ac_is_borrowable : bool
}.

Definition asset_config_of (c : SpokeAssetConfig) : AssetConfig :=
  {| ac_loan_to_value := sa_loan_to_value c;
     ac_liquidation_threshold := sa_liquidation_threshold c;
     ac_liquidation_bonus := sa_liquidation_bonus c;
     ac_liquidation_fees := sa_liquidation_fees c;
     ac_is_collateralizable := sa_is_collateralizable c;
     ac_is_borrowable := sa_is_borrowable c |}.

(** ** Liquidation entries *)

Abbreviation HubPayment := (HubAssetKey * Z)%type.

Record PaymentTuple : Type := mkPaymentTuple { pt_asset : Address; pt_amount : Z }.

Record SeizeEntry : Type := mkSeizeEntry {
  szn_hub_asset : HubAssetKey;
  szn_amount : Z;
  szn_protocol_fee : Z;
  szn_scaled_amount : Z;
  szn_bonus_scaled : Z;
  szn_liquidation_fees : Z;
  szn_feed : PriceFeedRaw;
  szn_market_index : MarketIndexRaw
}.

Record RepayEntry : Type := mkRepayEntry {
  re_hub_asset : HubAssetKey;
  re_amount : Z;
  re_usd_wad : Z;
  re_feed : PriceFeedRaw;
  re_market_index : MarketIndexRaw
}.

Record LiquidationResult : Type := mkLiquidationResult {
  lr_seized : list SeizeEntry;
  lr_repaid : list RepayEntry;
  lr_refunds : list PaymentTuple;
  lr_max_debt_usd : Z;
  lr_bonus_bps : Z
}.

(** ** The invocation context

    What a controller flow reads: the prices loaded from the price aggregator,
    the pool's projected indexes, the stored spokes and their listings, and the
    stored collateral floor.  Nothing it reads changes while a plan is built, so
    the source's memo maps return what the first read returned; a plan reads one
    spoke, so [ensure_spoke_context] never rejects. *)

Record Context : Type := mkContext {
  ctx_token_prices : gmap Address PriceFeedRaw;
  ctx_market_index : HubAssetKey -> res MarketIndexRaw;
  ctx_spoke_assets : Z -> HubAssetKey -> option SpokeAssetConfig;
  ctx_spokes : Z -> option SpokeConfig;
  ctx_min_borrow_collateral_usd_wad : Z
}.

Definition cached_price (cache : Context) (asset : Address) : res PriceFeed :=
  let* raw := of_option (EOracle OracleNotConfigured) (ctx_token_prices cache !! asset) in
  Ok (price_feed_of_raw raw).

Definition cached_market_index (cache : Context) (h : HubAssetKey) : res MarketIndex :=
  let* raw := ctx_market_index cache h in
  Ok (market_index_of_raw raw).

Definition cached_spoke_asset (cache : Context) (spoke_id : Z) (h : HubAssetKey)
    : option SpokeAssetConfig := ctx_spoke_assets cache spoke_id h.

Definition require_spoke_asset_config (cache : Context) (spoke_id : Z) (h : HubAssetKey)
    : res SpokeAssetConfig :=
  of_option (ESpoke AssetNotInSpoke) (cached_spoke_asset cache spoke_id h).

Definition require_spoke_asset (cache : Context) (spoke_id : Z) (h : HubAssetKey)
    : res AssetConfig :=
  let* asset := require_spoke_asset_config cache spoke_id h in
  Ok (asset_config_of asset).

Definition spoke_config (cache : Context) (spoke_id : Z) : res SpokeConfig :=
  of_option (ESpoke SpokeNotFound) (ctx_spokes cache spoke_id).

Definition active_spoke (cache : Context) (spoke_id : Z) : res SpokeConfig :=
  let* spoke := spoke_config cache spoke_id in
  do! require (negb (sc_is_deprecated spoke)) (ESpoke SpokeDeprecated) in
  Ok spoke.

Definition require_listed_active_config (cache : Context) (spoke_id : Z) (h : HubAssetKey)
    : res AssetConfig :=
  do! active_spoke cache spoke_id in
  require_spoke_asset cache spoke_id h.

(** ** Plain [i128] arithmetic, which traps on overflow *)

Definition i128_sub (a b : Z) : res Z := of_option HostTrap (i128_checked_sub a b).
Definition i128_mul (a b : Z) : res Z := of_option HostTrap (i128_checked_mul a b).

Lemma i128_sub_Ok a b r : i128_sub a b = Ok r -> r = a - b.
Proof.
  unfold i128_sub, i128_checked_sub. rewrite of_option_Ok, i128_checked_Some. by intros [-> _].
Qed.

Lemma i128_mul_Ok a b r : i128_mul a b = Ok r -> r = a * b.
Proof.
  unfold i128_mul, i128_checked_mul. rewrite of_option_Ok, i128_checked_Some. by intros [-> _].
Qed.

(** ** What the planning code relies on

    Prices are positive with listed decimals, and indexes are positive. *)
Record context_ok (cache : Context) : Prop := {
  co_price : forall a f, cached_price cache a = Ok f ->
    0 < pf_price f /\ valid_decimals (pf_asset_decimals f);
  co_index : forall h m, cached_market_index cache h = Ok m ->
    0 < borrow_index m /\ 0 < supply_index m
}.

(** Stored positions: non-negative shares, thresholds at most one, fees below. *)
Definition position_ok (p : AccountPositionRaw) : Prop :=
  0 <= apr_scaled_amount p <= i128_max /\ 0 <= apr_liquidation_threshold p <= BPS
  /\ 0 <= apr_liquidation_bonus p /\ 0 <= apr_loan_to_value p
  /\ 0 <= apr_liquidation_fees p < BPS.

Record account_ok (a : Account) : Prop := {
  ao_supply : Forall (fun e => position_ok e.2) (supply_positions a);
  ao_borrow : Forall (fun e => 0 <= dpr_scaled_amount e.2 <= i128_max) (borrow_positions a)
}.
