(* ===== verification/Risk.v ===== *)
(** * Account risk (contracts/controller/src/risk/totals.rs, risk/validation.rs)

    USD totals of an account's positions, its health factor, and the gates every
    risk-increasing flow ends with. *)

From S2P Require Import Prelude Errors FpCore Fp PoolTypes RatesCurve RatesScaling ControllerTypes.
From stdpp Require Import base numbers list gmap.
From Stdlib Require Import ZArith Lia Bool.

Open Scope Z_scope.

Module Risk.

Import RatesScaling.

(** ** Totals (totals.rs) *)

Definition portfolio_hub_keys (supply_keys borrow_keys : list HubAssetKey) : list HubAssetKey :=
  supply_keys ++ borrow_keys.

Definition debt_step (cache : Context) (value : Ray -> Ray -> Wad -> res Wad)
    (total : Wad) (e : HubAssetKey * DebtPosition) : res Wad :=
  let* feed := cached_price cache (asset e.1) in
  let* market_index := cached_market_index cache e.1 in
  let* v := value (dp_scaled_amount e.2) (borrow_index market_index) (pf_price feed) in
  Wad.checked_add total v.

Definition sum_debt_usd_loaded (cache : Context) (positions : PositionMap DebtPositionRaw)
    (value : Ray -> Ray -> Wad -> res Wad) : res Wad :=
  rfold (debt_step cache value) Wad.ZERO (iter_debt_positions positions).

Definition sum_debt_usd (cache : Context) (positions : PositionMap DebtPositionRaw) : res Wad :=
  sum_debt_usd_loaded cache positions position_value.

Definition ltv_step (cache : Context) (ltv : Wad) (e : HubAssetKey * AccountPosition) : res Wad :=
  let* feed := cached_price cache (asset e.1) in
  let* market_index := cached_market_index cache e.1 in
  let* value := position_value_floor (ap_scaled_amount e.2) (supply_index market_index)
                  (pf_price feed) in
  let effective_ltv := Z.min (ap_loan_to_value e.2) (ap_liquidation_threshold e.2) in
  let* w := Bps.apply_to_wad_floor effective_ltv value in
  Wad.checked_add ltv w.

Definition calculate_ltv_collateral_wad (cache : Context)
    (positions : PositionMap AccountPositionRaw) : res Wad :=
  rfold (ltv_step cache) Wad.ZERO (iter_typed_positions positions).

Record AccountRiskTotals : Type := mkAccountRiskTotals {
  rt_total_collateral : Wad;
  rt_ltv_collateral : Wad;
  rt_weighted_collateral : Wad;
  rt_total_debt : Wad;
  rt_health_factor : Wad
}.

(** The collateral loop's accumulators. *)
Record CollateralSums : Type := mkCollateralSums {
  cs_total : Wad;
  cs_ltv : Wad;
  cs_weighted : Wad
}.

Definition collateral_step (cache : Context) (s : CollateralSums)
    (e : HubAssetKey * AccountPosition) : res CollateralSums :=
  let (hub_asset, position) := e in
  let* feed := cached_price cache (asset hub_asset) in
  let* market_index := cached_market_index cache hub_asset in
  let* value := position_value (ap_scaled_amount position) (supply_index market_index)
                  (pf_price feed) in
  let* gate_value := position_value_floor (ap_scaled_amount position)
                       (supply_index market_index) (pf_price feed) in
  let* total := Wad.checked_add (cs_total s) value in
  let effective_ltv := Z.min (ap_loan_to_value position) (ap_liquidation_threshold position) in
  let* l := Bps.apply_to_wad_floor effective_ltv gate_value in
  let* ltv := Wad.checked_add (cs_ltv s) l in
  let* t := Bps.apply_to_wad_floor (ap_liquidation_threshold position) gate_value in
  let* weighted := Wad.checked_add (cs_weighted s) t in
  Ok {| cs_total := total; cs_ltv := ltv; cs_weighted := weighted |}.

Definition calculate_account_risk_totals (cache : Context)
    (supply : PositionMap AccountPositionRaw) (borrow : PositionMap DebtPositionRaw)
    : res AccountRiskTotals :=
  let* s := rfold (collateral_step cache) (mkCollateralSums Wad.ZERO Wad.ZERO Wad.ZERO)
              (iter_typed_positions supply) in
  let* total_debt := sum_debt_usd_loaded cache borrow position_value_ceil in
  let* health_factor :=
    (if total_debt =? Wad.ZERO then Ok i128_max
     else Wad.div_floor_saturating (cs_weighted s) total_debt) in
  Ok {| rt_total_collateral := cs_total s;
        rt_ltv_collateral := cs_ltv s;
        rt_weighted_collateral := cs_weighted s;
        rt_total_debt := total_debt;
        rt_health_factor := health_factor |}.

(** ** Gates (validation.rs) *)

Definition whole_unit_step (cache : Context) (e : HubAssetKey * AccountPosition) : res unit :=
  let (hub_asset, position) := e in
  let* feed := cached_price cache (asset hub_asset) in
  if MIN_BORROWABLE_ASSET_DECIMALS <=? pf_asset_decimals feed then Ok tt
  else
    let* market_index := cached_market_index cache hub_asset in
    let* value := Ray.mul (ap_scaled_amount position) (supply_index market_index) in
    let* units := Ray.to_asset_floor value (pf_asset_decimals feed) in
    require (MIN_WHOLE_UNIT_COLLATERAL <=? units) (ECollateral MinBorrowCollateralNotMet).

Definition require_whole_unit_collateral_floor (cache : Context) (account : Account) : res unit :=
  rfold (fun _ e => whole_unit_step cache e) tt (iter_typed_positions (supply_positions account)).

Definition require_post_pool_risk_gates (cache : Context) (account : Account) : res unit :=
  if debt_free account then Ok tt
  else
    let* totals := calculate_account_risk_totals cache (supply_positions account)
                     (borrow_positions account) in
    do! require (rt_total_debt totals <=? rt_ltv_collateral totals)
          (ECollateral InsufficientCollateral) in
    do! require (Wad.ONE <=? rt_health_factor totals) (ECollateral InsufficientCollateral) in
    let floor := ctx_min_borrow_collateral_usd_wad cache in
    do! (if negb (floor =? 0) && (rt_ltv_collateral totals <? floor)
         then Err (ECollateral MinBorrowCollateralNotMet) else Ok tt) in
    require_whole_unit_collateral_floor cache account.

(** [PositionLimits], read from storage *)
Record PositionLimits : Type := mkPositionLimits {
  max_borrow_positions : Z;
  max_supply_positions : Z
}.

(** The first-seen assets of a request that the account does not hold yet. *)
Definition count_new {V : Type} (held : PositionMap V) (aggregated : list HubPayment) : Z :=
  (fold_left (fun (acc : list HubAssetKey * Z) p =>
     if bool_decide (p.1 ∈ acc.1) then acc
     else (acc.1 ++ [p.1],
           match map_get held p.1 with Some _ => acc.2 | None => acc.2 + 1 end))
   aggregated ([], 0)).2.

Definition validate_bulk_position_limits (limits : PositionLimits) (account : Account)
    (position_type : AccountPositionType) (aggregated : list HubPayment) : res unit :=
  let '(current_count, max_allowed, new_count) :=
    match position_type with
    | Deposit => (Z.of_nat (length (supply_positions account)), max_supply_positions limits,
                  count_new (supply_positions account) aggregated)
    | PoolTypes.Borrow => (Z.of_nat (length (borrow_positions account)),
                  max_borrow_positions limits, count_new (borrow_positions account) aggregated)
    end in
  if new_count =? 0 then Ok tt
  else
    do! require (current_count + new_count <=? u32_max) (EGeneric MathOverflow) in
    require (current_count + new_count <=? max_allowed) (ECollateral PositionLimitExceeded).

(** [require_whole_unit_isolation]; [decimals] reads the pool's stored params. *)
Definition require_whole_unit_isolation (decimals : HubAssetKey -> res Z) (account : Account)
    (aggregated : list HubPayment) : res unit :=
  let existing := map_keys (supply_positions account) in
  let checked := fold_left (fun acc p =>
    if bool_decide (p.1 ∈ existing) || bool_decide (p.1 ∈ acc) then acc else acc ++ [p.1])
    aggregated [] in
  if (match checked with [] => true | _ => false end)
     || (length existing + length checked <=? 1)%nat
  then Ok tt
  else
    let checked :=
      match existing with
      | [k] => checked ++ [k]
      | _ => checked
      end in
    rfold (fun _ h =>
      let* d := decimals h in
      require (MIN_BORROWABLE_ASSET_DECIMALS <=? d) (ECollateral PositionLimitExceeded))
      tt checked.

(** ** Lemmas *)

Lemma apply_to_wad_floor_Ok b v r :
  0 <= v -> Bps.apply_to_wad_floor b v = Ok r ->
  0 <= b /\ r = floor_div (v * half_up_div (b * WAD) BPS) WAD.
Proof.
  intros Hv H. unfold Bps.apply_to_wad_floor in H. ok_inv H. fp_inv. subst. done.
Qed.

(** Weighting by a smaller rate gives no more, and never more than the value. *)
Lemma apply_to_wad_floor_mono b1 b2 v r1 r2 :
  0 <= v -> b1 <= b2 -> Bps.apply_to_wad_floor b1 v = Ok r1 ->
  Bps.apply_to_wad_floor b2 v = Ok r2 -> 0 <= r1 <= r2.
Proof.
  intros Hv Hb H1 H2. apply apply_to_wad_floor_Ok in H1 as [H0 ->]; [|done].
  apply apply_to_wad_floor_Ok in H2 as [_ ->]; [|done]. pose proof WAD_pos. pose proof BPS_pos.
  assert (0 <= half_up_div (b1 * WAD) BPS) by (apply half_up_div_nonneg; [done|nia]).
  split; [apply floor_div_nonneg; nia|]. apply floor_div_mono; [done|].
  assert (half_up_div (b1 * WAD) BPS <= half_up_div (b2 * WAD) BPS)
    by (apply half_up_div_mono; nia). nia.
Qed.

Lemma apply_to_wad_floor_le b v r :
  0 <= v -> b <= BPS -> Bps.apply_to_wad_floor b v = Ok r -> r <= v.
Proof.
  intros Hv Hb H. apply apply_to_wad_floor_Ok in H as [H0 ->]; [|done]. pose proof WAD_pos.
  assert (half_up_div (b * WAD) BPS <= WAD).
  { apply half_up_div_le_iff; [zconst|]. assert (BPS / 2 < BPS) by zconst.
    assert (0 < BPS) by zconst. nia. }
  pose proof (floor_div_bounds (v * half_up_div (b * WAD) BPS) WAD ltac:(done)). nia.
Qed.

Section Totals.

Context (cache : Context) (Hcache : context_ok cache).

Definition sums_ok (s : CollateralSums) : Prop :=
  0 <= cs_ltv s <= cs_weighted s /\ cs_weighted s <= cs_total s.


Lemma collateral_step_ok s h p s' :
  sums_ok s -> 0 <= ap_scaled_amount p -> ap_liquidation_threshold p <= BPS ->
  collateral_step cache s (h, p) = Ok s' -> sums_ok s'.
Proof using Hcache.
  intros (Hs1 & Hs2) Hp0 Hlt H. unfold collateral_step in H.
  apply rbind_Ok in H as (f & Hf & H). apply rbind_Ok in H as (m & Hm & H).
  apply rbind_Ok in H as (v & Hv & H). apply rbind_Ok in H as (g & Hg & H).
  apply rbind_Ok in H as (t & Ht & H). apply rbind_Ok in H as (l & Hl & H).
  apply rbind_Ok in H as (l' & Hl' & H). apply rbind_Ok in H as (w & Hw & H).
  apply rbind_Ok in H as (w' & Hw' & H). injection H as <-.
  destruct (co_price _ Hcache _ _ Hf) as [Hpr _]. destruct (co_index _ Hcache _ _ Hm) as [_ Hsi].
  assert (0 <= g <= v) as Hgv by (eapply position_value_floor_le; [..|exact Hg|exact Hv]; lia).
  pose proof (apply_to_wad_floor_mono _ (ap_liquidation_threshold p) g _ _ ltac:(lia)
    (Z.le_min_r _ _) Hl Hw).
  pose proof (apply_to_wad_floor_le _ g _ ltac:(lia) Hlt Hw). fp_inv. subst.
  unfold sums_ok. simpl. lia.
Qed.

Lemma collateral_fold_ok l s s' :
  Forall (fun e => position_ok e.2) l -> sums_ok s ->
  rfold (collateral_step cache) s (iter_typed_positions l) = Ok s' -> sums_ok s'.
Proof using Hcache.
  intros Hl. revert s s'.
  apply (rfold_inv sums_ok). intros s [h p] s' Hin Hs Hstep.
  apply in_map_iff in Hin as ([h0 r] & [= <- <-] & Hin).
  rewrite Forall_forall in Hl. apply list_elem_of_In in Hin.
  destruct (Hl _ Hin) as (H1 & H2 & _).
  exact (collateral_step_ok s h0 (account_position_of_raw r) s' Hs (proj1 H1) (proj2 H2) Hstep).
Qed.

Lemma debt_fold_nonneg l t :
  Forall (fun e => 0 <= dpr_scaled_amount e.2 <= i128_max) l ->
  sum_debt_usd_loaded cache l position_value_ceil = Ok t -> 0 <= t.
Proof using Hcache.
  intros Hl. unfold sum_debt_usd_loaded, Wad.ZERO.
  apply (rfold_inv (fun t => 0 <= t)); [|lia].
  intros a [h p] a' Hin Ha Hstep.
  apply in_map_iff in Hin as ([h0 r] & [= <- <-] & Hin).
  rewrite Forall_forall in Hl. apply list_elem_of_In in Hin. specialize (Hl _ Hin). simpl in *.
  unfold debt_step in Hstep. apply rbind_Ok in Hstep as (f & Hf & Hstep).
  apply rbind_Ok in Hstep as (m & Hm & Hstep). apply rbind_Ok in Hstep as (v & Hv & Hstep).
  destruct (co_price _ Hcache _ _ Hf) as [Hpr _]. destruct (co_index _ Hcache _ _ Hm) as [Hbi _].
  simpl in *. apply position_value_ceil_nonneg in Hv; [|lia..]. fp_inv. lia.
Qed.

(** The three collateral totals are ordered, and an account is liquidatable
    exactly when its weighted collateral does not cover its debt. *)
Lemma risk_totals_facts a t :
  account_ok a ->
  calculate_account_risk_totals cache (supply_positions a) (borrow_positions a) = Ok t ->
  0 <= rt_ltv_collateral t <= rt_weighted_collateral t
  /\ rt_weighted_collateral t <= rt_total_collateral t
  /\ 0 <= rt_total_debt t
  /\ 0 <= rt_health_factor t
  /\ (rt_health_factor t < WAD <-> rt_weighted_collateral t < rt_total_debt t).
Proof using Hcache.
  intros [Hs Hb] H. unfold calculate_account_risk_totals in H.
  apply rbind_Ok in H as (s & Hsum & H). apply rbind_Ok in H as (d & Hd & H).
  apply rbind_Ok in H as (hf & Hhf & H). injection H as <-. simpl.
  apply (collateral_fold_ok _ _ _ Hs) in Hsum as (H1 & H2);
    [|unfold sums_ok, Wad.ZERO; simpl; lia].
  apply (debt_fold_nonneg _ _ Hb) in Hd. unfold Wad.ZERO in Hhf.
  assert (WAD <= i128_max) by zconst. assert (0 < WAD) by zconst.
  destruct (Z.eqb_spec d 0) as [E|E].
  - injection Hhf as <-. split_and!; try lia.
  - fp_inv. assert (0 <= cs_weighted s * WAD) by nia.
    pose proof (floor_div_nonneg (cs_weighted s * WAD) d ltac:(lia) ltac:(lia)).
    pose proof (floor_div_le_iff (cs_weighted s * WAD) d WAD ltac:(lia)) as Hiff.
    assert (hf = Z.min i128_max (floor_div (cs_weighted s * WAD) d)) as ->.
    { subst hf. unfold FpCore.clamp_i128. assert (i128_min <= 0) by zconst. lia. }
    split_and!; try lia. rewrite (Z.mul_comm WAD d) in Hiff.
    assert (d * WAD <= cs_weighted s * WAD <-> d <= cs_weighted s)
      by (symmetry; apply Z.mul_le_mono_pos_r; lia). lia.
Qed.

(** An account that passes the gates has no positive debt beyond its LTV limit, and
    is not liquidatable at the same prices. *)
Lemma gates_pass a t :
  account_ok a -> debt_free a = false -> require_post_pool_risk_gates cache a = Ok tt ->
  calculate_account_risk_totals cache (supply_positions a) (borrow_positions a) = Ok t ->
  rt_total_debt t <= rt_ltv_collateral t /\ WAD <= rt_health_factor t
  /\ (ctx_min_borrow_collateral_usd_wad cache <> 0 ->
      ctx_min_borrow_collateral_usd_wad cache <= rt_ltv_collateral t).
Proof using Hcache.
  intros Ha Hd H Ht. unfold require_post_pool_risk_gates in H. rewrite Hd, Ht in H.
  cbn [rbind] in H. apply rbind_Ok in H as (u1 & H1 & H). apply rbind_Ok in H as (u2 & H2 & H).
  apply rbind_Ok in H as (u3 & H3 & _). apply require_Ok in H1, H2. unfold Wad.ONE in H2. b2p.
  split_and!; [lia|lia|]. intros Hf.
  destruct (Z.eqb_spec (ctx_min_borrow_collateral_usd_wad cache) 0); [done|].
  destruct (Z.ltb_spec (rt_ltv_collateral t) (ctx_min_borrow_collateral_usd_wad cache)); [done|lia].
Qed.

(** The health-factor gate never rejects what the LTV gate accepts. *)
Lemma ltv_gate_implies_hf a t :
  account_ok a ->
  calculate_account_risk_totals cache (supply_positions a) (borrow_positions a) = Ok t ->
  rt_total_debt t <= rt_ltv_collateral t -> WAD <= rt_health_factor t.
Proof using Hcache.
  intros Ha Ht Hle. destruct (risk_totals_facts a t Ha Ht) as (H1 & H2 & H3 & H4 & H5). lia.
Qed.

End Totals.

End Risk.
