(* ===== verification/LiqCurve.v ===== *)
(** * Liquidation curve (contracts/controller/src/positions/liquidation/curve.rs)

    The bonus paid to a liquidator and the repayment that moves an account back
    to its target health factor. *)

From S2P Require Import Prelude Errors FpCore Fp PoolTypes ControllerTypes.
From stdpp Require Import base numbers list.
From Stdlib Require Import ZArith Lia Bool.

Open Scope Z_scope.

Module LiqCurve.

(** [DEFAULT_MIN_BORROW_COLLATERAL_USD_WAD], five dollars *)
Definition BAD_DEBT_USD_THRESHOLD : Z := 5 * WAD.

Record LiquidationSnapshot : Type := mkLiquidationSnapshot {
  ls_total_debt : Wad;
  ls_total_collateral : Wad;
  ls_weighted_collateral : Wad;
  ls_proportion_seized : Wad;
  ls_hf : Wad
}.

Record BonusBounds : Type := mkBonusBounds { bb_base : Bps; bb_max : Bps }.

Definition is_socializable_bad_debt (total_debt total_collateral : Wad) : bool :=
  (total_collateral <? total_debt) && (total_collateral <=? BAD_DEBT_USD_THRESHOLD).

Record LiquidationCurve : Type := mkLiquidationCurve {
  lc_target_hf : Wad;
  lc_hf_for_max_bonus : Wad;
  lc_bonus_factor : Bps
}.

Definition from_config (cfg : SpokeConfig) : LiquidationCurve :=
  {| lc_target_hf := sc_liquidation_target_hf_wad cfg;
     lc_hf_for_max_bonus := sc_hf_for_max_bonus_wad cfg;
     lc_bonus_factor := sc_liquidation_bonus_factor_bps cfg |}.

Definition bonus_scale (c : LiquidationCurve) (hf target : Wad) : res Wad :=
  if target <=? lc_hf_for_max_bonus c then Ok Wad.ONE
  else
    let* num := Wad.checked_sub target hf in
    let* den := Wad.checked_sub target (lc_hf_for_max_bonus c) in
    let* q := Wad.div num den in
    Ok (Z.min q Wad.ONE).

Definition calculate_linear_bonus_with_target (hf : Wad) (base max : Bps)
    (curve : LiquidationCurve) (target : Wad) : res Bps :=
  if target <=? hf then Ok base
  else
    let* scale := bonus_scale curve hf target in
    let* bonus_range := Bps.checked_sub max base in
    let* bonus_increment := Wad.mul bonus_range scale in
    let* scaled_increment := Bps.apply_to (lc_bonus_factor curve) bonus_increment in
    of_option (EGeneric MathOverflow) (i128_checked_add base scaled_increment).

Definition max_hf_preserving_bonus_bps (snap : LiquidationSnapshot) : res (option Z) :=
  let proportion := ls_proportion_seized snap in
  if (proportion <=? 0) || (WAD <=? ls_hf snap) then Ok None
  else
    let* p := i128_mul (ls_hf snap) BPS in
    let* r := i128_sub (Z.quot p proportion) BPS in
    Ok (Some r).

(** The target-HF repayment, capped by collateral backing and total debt. *)
Definition liquidation_at_target (snap : LiquidationSnapshot) (bonus : Bps) (target_hf : Wad)
    : res Wad :=
  let* b := Bps.to_wad bonus in
  let* one_plus_bonus := Wad.checked_add Wad.ONE b in
  let* d_max := Wad.div (ls_total_collateral snap) one_plus_bonus in
  let* denom_term := Wad.mul (ls_proportion_seized snap) one_plus_bonus in
  let* target_debt := Wad.mul target_hf (ls_total_debt snap) in
  if (target_hf <=? denom_term) || (target_debt <=? ls_weighted_collateral snap) then
    Ok (Z.min d_max (ls_total_debt snap))
  else
    let* numerator := Wad.checked_sub target_debt (ls_weighted_collateral snap) in
    let* denominator := Wad.checked_sub target_hf denom_term in
    let* q := Wad.div numerator denominator in
    Ok (Z.min (Z.min q d_max) (ls_total_debt snap)).

(** The quote at a settled bonus: a target quote that would leave dust debt
    becomes the full debt. *)
Definition quote_at (snap : LiquidationSnapshot) (bonus : Bps) (curve : LiquidationCurve)
    : res (Wad * Bps) :=
  let* ideal := liquidation_at_target snap bonus (lc_target_hf curve) in
  let* remaining_debt := Wad.checked_sub (ls_total_debt snap) ideal in
  if (Wad.ZERO <? remaining_debt) && (remaining_debt <? BAD_DEBT_USD_THRESHOLD)
  then Ok (ls_total_debt snap, bonus)
  else Ok (ideal, bonus).

Definition estimate_liquidation_amount (snap : LiquidationSnapshot) (bounds : BonusBounds)
    (curve : LiquidationCurve) : res (Wad * Bps) :=
  let* scaled_bonus :=
    calculate_linear_bonus_with_target (ls_hf snap) (bb_base bounds) (bb_max bounds) curve
      (lc_target_hf curve) in
  let* cap := max_hf_preserving_bonus_bps snap in
  match cap with
  | None => quote_at snap scaled_bonus curve
  | Some cap =>
      if ls_total_collateral snap <? ls_total_debt snap then
        let* b := Bps.to_wad (bb_base bounds) in
        let* one_plus_base := Wad.checked_add Wad.ONE b in
        let* backed := Wad.div_floor (ls_total_collateral snap) one_plus_base in
        Ok (Z.min backed (ls_total_debt snap), bb_base bounds)
      else if cap <? bb_base bounds then Ok (ls_total_debt snap, Z.max cap 0)
      else quote_at snap (Z.min scaled_bonus cap) curve
  end.

Definition max_bonus_for_threshold (proportion_seized : Wad) : res Bps :=
  if proportion_seized <=? Wad.ZERO then Ok 0
  else
    let* c := FpCore.mul_div_ceil proportion_seized BPS WAD in
    let eff_thr_bps := Z.max 1 (Z.min BPS c) in
    let* numerator :=
      of_option (EGeneric MathOverflow) (i128_checked_mul BPS (BPS - eff_thr_bps)) in
    Ok (Z.quot numerator eff_thr_bps).

(** ** Bonus bounds *)

Lemma bonus_scale_Ok c hf target s : bonus_scale c hf target = Ok s -> 0 <= s <= WAD.
Proof.
  unfold bonus_scale, Wad.ONE. assert (0 < WAD) by zconst.
  destruct (target <=? _); intros H'; ok_inv H'; [lia|]. fp_inv. lia.
Qed.

Lemma hu_le_of_ratio x y d : 0 <= x -> 0 <= y <= d -> 0 < d -> 0 <= half_up_div (x * y) d <= x.
Proof.
  intros Hx Hy Hd. split; [apply half_up_div_nonneg; nia|].
  apply half_up_div_le_iff; [done|].
  assert (d / 2 < d) by (apply Z.div_lt; lia). nia.
Qed.

(** The curve stays between the account's base and maximum bonus. *)
Lemma linear_bonus_bounds hf base max c target b :
  0 <= base <= max -> 0 <= lc_bonus_factor c <= BPS ->
  calculate_linear_bonus_with_target hf base max c target = Ok b -> base <= b <= max.
Proof.
  intros Hb Hf H. unfold calculate_linear_bonus_with_target in H.
  destruct (target <=? hf); [injection H as <-; lia|].
  apply rbind_Ok in H as (s & Hs & H). apply rbind_Ok in H as (rg & Hrg & H).
  apply rbind_Ok in H as (inc & Hinc & H). apply rbind_Ok in H as (sinc & Hsinc & H).
  apply bonus_scale_Ok in Hs. apply of_option_Ok, i128_checked_Some in H as [-> _].
  fp_inv. pose proof WAD_pos. pose proof BPS_pos.
  pose proof (hu_le_of_ratio rg s WAD ltac:(lia) Hs ltac:(lia)).
  pose proof (hu_le_of_ratio inc (lc_bonus_factor c) BPS ltac:(lia) Hf ltac:(lia)). lia.
Qed.

(** Paying the maximum bonus never takes more than the whole collateral per unit of
    weighted debt: [(1 + max) * proportion <= 1]. *)
Lemma max_bonus_Ok p b :
  p <= WAD -> max_bonus_for_threshold p = Ok b ->
  0 <= b /\ (0 < p -> (BPS + b) * p <= BPS * WAD).
Proof.
  intros Hp1 H. unfold max_bonus_for_threshold, Wad.ZERO in H.
  destruct (Z.leb_spec p 0); [injection H as <-; lia|].
  ok_inv H. fp_inv. apply i128_checked_Some in Hv0 as [-> _].
  assert (0 < BPS) by zconst. assert (0 < WAD) by zconst.
  assert (0 < v <= BPS) as Hc.
  { pose proof (ceil_div_bounds (p * BPS) WAD ltac:(done)). nia. }
  rewrite Z.min_r, Z.max_r in * by lia.
  rewrite Z.quot_div_nonneg by nia.
  pose proof (Z.mul_div_le (BPS * (BPS - v)) v ltac:(lia)).
  assert (0 <= BPS * (BPS - v) / v) by (apply Z.div_pos; nia).
  split; [lia|]. intros _.
  set (b := BPS * (BPS - v) / v) in *.
  assert (p * BPS <= v * WAD) by (subst v; apply (ceil_div_bounds _ WAD); zconst).
  assert ((BPS + b) * v <= BPS * BPS) by nia.
  assert ((BPS + b) * (p * BPS) <= (BPS + b) * (v * WAD)) by nia. nia.
Qed.

(** A bonus within the cap takes at most [hf] of weighted collateral per unit of
    debt repaid, so the health factor does not fall. *)
Lemma hf_cap_Ok snap cap :
  0 <= ls_hf snap -> max_hf_preserving_bonus_bps snap = Ok (Some cap) ->
  0 < ls_proportion_seized snap /\ ls_hf snap < WAD
  /\ forall b, b <= cap -> (BPS + b) * ls_proportion_seized snap <= ls_hf snap * BPS.
Proof.
  intros Hhf H. unfold max_hf_preserving_bonus_bps in H.
  destruct (_ || _)%bool eqn:E in H; [done|]. b2p.
  apply rbind_Ok in H as (p & Hp & H). apply rbind_Ok in H as (r & Hr & H).
  injection H as <-. apply i128_mul_Ok in Hp. apply i128_sub_Ok in Hr. subst p r.
  split_and!; [lia|lia|]. intros b Hb. assert (0 < BPS) by zconst.
  rewrite Z.quot_div_nonneg in Hb by nia.
  pose proof (Z.mul_div_le (ls_hf snap * BPS) (ls_proportion_seized snap) ltac:(lia)). nia.
Qed.

(** ** The quote *)

Lemma at_target_bounds snap b target r :
  0 <= ls_total_debt snap -> liquidation_at_target snap b target = Ok r ->
  0 <= r <= ls_total_debt snap.
Proof.
  intros Hd H. unfold liquidation_at_target in H.
  apply rbind_Ok in H as (bw & Hbw & H). apply rbind_Ok in H as (opb & Hopb & H).
  apply rbind_Ok in H as (dm & Hdm & H). apply rbind_Ok in H as (dt & Hdt & H).
  apply rbind_Ok in H as (td & Htd & H). fp_inv.
  destruct (_ || _)%bool in H; [injection H as <-; lia|].
  apply rbind_Ok in H as (n & Hn & H). apply rbind_Ok in H as (de & Hde & H).
  apply rbind_Ok in H as (q & Hq & H). injection H as <-. fp_inv. lia.
Qed.

Lemma quote_at_bounds snap b curve q b' :
  0 <= ls_total_debt snap -> quote_at snap b curve = Ok (q, b') ->
  0 <= q <= ls_total_debt snap /\ b' = b
  /\ (q = ls_total_debt snap \/ ls_total_debt snap - q >= BAD_DEBT_USD_THRESHOLD).
Proof.
  intros Hd H. unfold quote_at, Wad.ZERO in H.
  apply rbind_Ok in H as (i & Hi & H). apply rbind_Ok in H as (rm & Hrm & H).
  apply at_target_bounds in Hi; [|done]. fp_inv.
  destruct (Z.ltb_spec 0 rm), (Z.ltb_spec rm BAD_DEBT_USD_THRESHOLD); simpl in H;
    injection H as <- <-; split_and!; try lia; auto; right; lia.
Qed.

(** Every quote repays between nothing and the whole debt, never leaves a dust debt,
    pays at most the account's maximum bonus, and on an insolvent account is backed
    by its collateral. *)
Lemma estimate_bounds snap bounds curve q b :
  0 <= ls_total_debt snap -> 0 <= ls_total_collateral snap -> 0 <= ls_hf snap ->
  0 <= bb_base bounds <= bb_max bounds -> 0 <= lc_bonus_factor curve <= BPS ->
  estimate_liquidation_amount snap bounds curve = Ok (q, b) ->
  0 <= q <= ls_total_debt snap /\ 0 <= b <= bb_max bounds
  /\ (ls_total_collateral snap < ls_total_debt snap ->
      max_hf_preserving_bonus_bps snap <> Ok None ->
      q * (WAD + half_up_div (b * WAD) BPS) <= ls_total_collateral snap * WAD)
  /\ (ls_total_debt snap <= ls_total_collateral snap ->
      q = ls_total_debt snap \/ ls_total_debt snap - q >= BAD_DEBT_USD_THRESHOLD).
Proof.
  intros Hd Hc Hhf Hbb Hf H. unfold estimate_liquidation_amount in H.
  apply rbind_Ok in H as (sb & Hsb & H). apply rbind_Ok in H as (cap & Hcap & H).
  apply linear_bonus_bounds in Hsb; [|done..]. destruct cap as [cap|].
  - destruct (Z.ltb_spec (ls_total_collateral snap) (ls_total_debt snap)).
    + apply rbind_Ok in H as (bw & Hbw & H). apply rbind_Ok in H as (opb & Hopb & H).
      apply rbind_Ok in H as (bk & Hbk & H). injection H as <- <-. fp_inv. unfold Wad.ONE in *.
      assert (0 < opb) by (assert (0 < WAD) by zconst; lia).
      pose proof (floor_div_bounds (ls_total_collateral snap * WAD) opb ltac:(lia)).
      pose proof (floor_div_nonneg (ls_total_collateral snap * WAD) opb ltac:(lia)
        ltac:(assert (0 < WAD) by zconst; nia)).
      split_and!; try lia. intros _ _.
      replace (WAD + half_up_div (bb_base bounds * WAD) BPS) with opb by lia. nia.
    + destruct (Z.ltb_spec cap (bb_base bounds)).
      * injection H as <- <-. split_and!; try lia.
      * apply quote_at_bounds in H as (Hq & -> & Hdust); [|done].
        split_and!; lia.
  - apply quote_at_bounds in H as (Hq & -> & Hdust); [|done]. split_and!; try lia.
    intros _ Hne. done.
Qed.

(** On a solvent account whose health factor can be preserved, the bonus stays under
    the cap, or it is zero and the whole debt is quoted. *)
Lemma estimate_preserves_hf snap bounds curve q b cap :
  0 <= ls_total_debt snap -> 0 <= ls_hf snap ->
  ls_total_debt snap <= ls_total_collateral snap ->
  max_hf_preserving_bonus_bps snap = Ok (Some cap) ->
  estimate_liquidation_amount snap bounds curve = Ok (q, b) ->
  (BPS + b) * ls_proportion_seized snap <= ls_hf snap * BPS
  \/ b = 0 /\ q = ls_total_debt snap.
Proof.
  intros Hd Hhf Hs Hcap H. unfold estimate_liquidation_amount in H.
  apply rbind_Ok in H as (sb & Hsb & H). rewrite Hcap in H. cbn [rbind] in H.
  destruct (Z.ltb_spec (ls_total_collateral snap) (ls_total_debt snap)); [lia|].
  destruct (hf_cap_Ok _ _ Hhf Hcap) as (Hp & Hlt & Hb).
  destruct (Z.ltb_spec cap (bb_base bounds)).
  - injection H as <- <-. destruct (Z.le_ge_cases cap 0).
    + right. split; [lia|done].
    + left. apply Hb. lia.
  - apply quote_at_bounds in H as (_ & -> & _); [|done]. left. apply Hb. lia.
Qed.

End LiqCurve.
