(* ===== verification/Payments.v ===== *)
(** * Payment aggregation (contracts/controller/src/payments.rs) *)

From S2P Require Import Prelude Errors FpCore Fp PoolTypes PoolCache ControllerTypes.
From stdpp Require Import base numbers list gmap.
From Stdlib Require Import ZArith Lia Bool.

Open Scope Z_scope.

Module Payments.

(** [common::validation::expect_invariant], [require_non_empty_payments] *)
Definition expect_invariant {A : Type} (o : option A) : res A :=
  of_option (EGeneric InternalError) o.

Definition require_non_empty_payments (payments : list HubPayment) : res unit :=
  match payments with [] => Err (EGeneric InvalidPayments) | _ => Ok tt end.

Inductive ZeroLeg : Type := Rejected | MeansAll.

Definition aggregate_payment_amount (previous : option Z) (amount : Z) (zero_leg : ZeroLeg)
    : res Z :=
  do! require_nonneg_amount amount in
  let add := of_option (EGeneric MathOverflow) (i128_checked_add (default 0 previous) amount) in
  match zero_leg with
  | Rejected => if amount =? 0 then Err (EGeneric AmountMustBePositive) else add
  | MeansAll =>
      match previous with
      | None => if amount =? 0 then Ok 0 else add
      | Some p =>
          if amount =? 0
          then (if p =? 0 then Ok 0 else Err (EGeneric InvalidPayments))
          else (if p =? 0 then Err (EGeneric InvalidPayments) else add)
      end
  end.

Definition aggregate_step (zero_leg : ZeroLeg)
    (acc : list HubAssetKey * gmap HubAssetKey Z) (p : HubPayment)
    : res (list HubAssetKey * gmap HubAssetKey Z) :=
  let (order, totals) := acc in
  let (hub_asset, amount) := p in
  let previous := totals !! hub_asset in
  let* next := aggregate_payment_amount previous amount zero_leg in
  let order := match previous with None => order ++ [hub_asset] | Some _ => order end in
  Ok (order, <[hub_asset := next]> totals).

Definition aggregate_payments (payments : list HubPayment) (zero_leg : ZeroLeg)
    : res (list HubPayment) :=
  do! require_non_empty_payments payments in
  let* (order, totals) := rfold (aggregate_step zero_leg) ([], ∅) payments in
  rfold (fun result hub_asset =>
    let* amount := expect_invariant (totals !! hub_asset) in
    Ok (result ++ [(hub_asset, amount)])) [] order.

Definition aggregate_positive_payments (payments : list HubPayment) : res (list HubPayment) :=
  aggregate_payments payments Rejected.

(** ** What aggregation preserves *)

(** The amounts paid for one market. *)
Definition paid (h : HubAssetKey) (l : list HubPayment) : Z :=
  zsum (fun p => if bool_decide (p.1 = h) then p.2 else 0) l.

Definition agg_inv (seen : list HubPayment) (acc : list HubAssetKey * gmap HubAssetKey Z) : Prop :=
  NoDup acc.1 /\ (forall h, h ∈ acc.1 <-> is_Some (acc.2 !! h))
  /\ (forall h, h ∈ acc.1 <-> h ∈ map fst seen)
  /\ (forall h v, acc.2 !! h = Some v -> v = paid h seen /\ 0 < v).

Lemma aggregate_amount_Ok o a v :
  aggregate_payment_amount o a Rejected = Ok v -> 0 < a /\ v = default 0 o + a.
Proof.
  intros H. unfold aggregate_payment_amount, require_nonneg_amount in H.
  apply rbind_Ok in H as (u & Hu & H). apply require_Ok in Hu.
  destruct (Z.eqb_spec a 0); [done|]. apply of_option_Ok, i128_checked_Some in H as [-> _].
  b2p. lia.
Qed.

Lemma aggregate_step_inv seen acc p acc' :
  agg_inv seen acc -> aggregate_step Rejected acc p = Ok acc' -> agg_inv (seen ++ [p]) acc'.
Proof.
  destruct acc as [order totals], p as [h a]. intros (Hnd & Hdom & Hseen & Hval) H.
  unfold aggregate_step in H. apply rbind_Ok in H as (n & Hn & H). injection H as <-.
  apply aggregate_amount_Ok in Hn as (Ha & ->). simpl in *.
  assert (paid h seen = default 0 (totals !! h)) as Hp.
  { destruct (totals !! h) as [v|] eqn:E; simpl; [symmetry; by apply Hval|].
    apply zsum_zero. intros q Hq. case_bool_decide as Eq; [|done]. exfalso.
    assert (h ∈ order) as Ho by (apply Hseen; apply list_elem_of_fmap; eauto).
    apply Hdom in Ho. rewrite E in Ho. by destruct Ho. }
  assert (forall k, k ∈ match totals !! h with None => order ++ [h] | Some _ => order end
    <-> k ∈ order \/ k = h) as Hord.
  { intros k. destruct (totals !! h) eqn:E.
    - split; [auto|]. intros [?| ->]; [done|]. apply Hdom. eauto.
    - rewrite elem_of_app, list_elem_of_singleton. done. }
  split_and!; simpl.
  - destruct (totals !! h) eqn:E; [done|]. apply NoDup_app. split_and!; [done| |apply NoDup_singleton].
    intros x Hx ->%list_elem_of_singleton. apply Hdom in Hx. rewrite E in Hx. by destruct Hx.
  - intros k. rewrite Hord, Hdom. destruct (decide (h = k)) as [<-|Hne].
    + rewrite lookup_insert_eq. split; eauto.
    + rewrite lookup_insert_ne by done. naive_solver.
  - intros k. rewrite Hord, Hseen, map_app, elem_of_app. simpl. by rewrite list_elem_of_singleton.
  - intros k v. unfold paid. rewrite zsum_app. simpl. fold (paid k seen).
    destruct (decide (h = k)) as [<-|Hne].
    + rewrite lookup_insert_eq, bool_decide_true by done. intros [= <-].
      rewrite Hp. destruct (totals !! h) as [v0|] eqn:E; simpl; [|lia].
      apply Hval in E. lia.
    + rewrite lookup_insert_ne, bool_decide_false by done. intros Hv%Hval. lia.
Qed.

Lemma aggregate_positive_Ok l r :
  aggregate_positive_payments l = Ok r ->
  NoDup (map fst r) /\ Forall (fun p => 0 < p.2 /\ p.2 = paid p.1 l) r
  /\ (forall h, h ∈ map fst r <-> h ∈ map fst l).
Proof.
  intros H. unfold aggregate_positive_payments, aggregate_payments in H.
  apply rbind_Ok in H as (u & _ & H). apply rbind_Ok in H as ([order totals] & Hf & H).
  assert (agg_inv l (order, totals)) as (Hnd & Hdom & Hseen & Hval).
  { assert (forall l0 seen acc acc', agg_inv seen acc ->
      rfold (aggregate_step Rejected) acc l0 = Ok acc' -> agg_inv (seen ++ l0) acc') as Hgen.
    { induction l0 as [|p l0 IH]; simpl; intros seen acc acc' Hi Hr.
      - injection Hr as <-. by rewrite app_nil_r.
      - apply rbind_Ok in Hr as (a1 & H1 & Hr).
        replace (seen ++ p :: l0) with ((seen ++ [p]) ++ l0) by (by rewrite <- app_assoc).
        eapply IH; [|exact Hr]. by eapply aggregate_step_inv. }
    apply (Hgen l [] ([], ∅)); [|exact Hf].
    split_and!; simpl; [apply NoDup_nil_2|..].
    - intros h. rewrite lookup_empty. split; [by intros ?%elem_of_nil|by intros []].
    - done.
    - intros h v. by rewrite lookup_empty. }
  simpl in *.
  apply (rfold_collect _ (fun h => let* a := expect_invariant (totals !! h) in Ok (h, a))) in H
    as (ys & -> & Hys); [|intros acc h; by destruct (expect_invariant (totals !! h))].
  simpl. assert (map fst ys = order /\ Forall (fun p => totals !! p.1 = Some p.2) ys) as [Hk Hv].
  { clear -Hys. induction Hys as [|h y order ys Hy _ [IH1 IH2]]; [done|]. simpl.
    apply rbind_Ok in Hy as (a & Ha & Hy). injection Hy as <-. apply of_option_Ok in Ha. simpl.
    split; [by rewrite IH1|]. by constructor. }
  rewrite Hk. split_and!; [done| |done].
  eapply Forall_impl; [exact Hv|]. intros [h a] Ha. simpl in *. by apply Hval in Ha as [-> ?].
Qed.

End Payments.
