(* ===== verification/LiqMath.v ===== *)
(** * Liquidation arithmetic
    (contracts/controller/src/positions/liquidation/math.rs)

    Planned repayments, the trimming of excess, pro-rata seizures, their
    scaling to receipts and the split of credited shares. *)

From S2P Require Import Prelude Errors FpCore Fp PoolTypes RatesCurve RatesScaling ControllerTypes Risk LiqCurve Payments.
From stdpp Require Import base numbers list gmap.
From Stdlib Require Import ZArith Lia Bool.

Open Scope Z_scope.

Module LiqMath.

Import RatesScaling LiqCurve Payments.

Record NormalizedRepaymentPlan : Type := mkNormalizedRepaymentPlan {
  nrp_repaid : list RepayEntry;
  nrp_refunds : list PaymentTuple;
  nrp_repay_usd : Wad;
  nrp_bonus : Bps;
  nrp_full_close : bool;
  nrp_repays_all_debt : bool;
  nrp_seize_all : bool
}.

Record LiquidationPlan : Type := mkLiquidationPlan {
  lp_repayment : NormalizedRepaymentPlan;
  lp_seized : list SeizeEntry
}.

(** ** Sums over entries *)

Definition sum_repaid_usd (repaid : list RepayEntry) : res Wad :=
  rfold (fun total entry => Wad.checked_add total (re_usd_wad entry)) Wad.ZERO repaid.

Definition one_unit_per_leg_usd (repaid : list RepayEntry) : res Wad :=
  rfold (fun total entry =>
    let* w := Wad.from_token 1 (pfr_asset_decimals (re_feed entry)) in
    let* unit := Wad.mul w (pfr_price_wad (re_feed entry)) in
    Wad.checked_add total unit) Wad.ZERO repaid.

Definition one_unit_per_debt_leg_usd (account : Account) (cache : Context) : res Wad :=
  rfold (fun total hub_asset =>
    let* feed := cached_price cache (asset hub_asset) in
    let* w := Wad.from_token 1 (pf_asset_decimals feed) in
    let* unit := Wad.mul w (pf_price feed) in
    Wad.checked_add total unit) Wad.ZERO (map_keys (borrow_positions account)).

Definition repays_debt_leg (account : Account) (cache : Context) (entry : RepayEntry)
    : res bool :=
  match map_get (borrow_positions account) (re_hub_asset entry) with
  | None => Ok false
  | Some raw =>
      let* market_index := cached_market_index cache (re_hub_asset entry) in
      let* debt := unscale_borrow_ceil (dp_scaled_amount (debt_position_of_raw raw))
                     (borrow_index market_index) (pfr_asset_decimals (re_feed entry)) in
      Ok (debt <=? re_amount entry)
  end.

(** [iter().all(..)] stops at the first failing entry. *)
Fixpoint repays_all_legs (account : Account) (cache : Context) (repaid : list RepayEntry)
    : res bool :=
  match repaid with
  | [] => Ok true
  | entry :: repaid' =>
      let* b := repays_debt_leg account cache entry in
      if b then repays_all_legs account cache repaid' else Ok false
  end.

Definition repays_every_debt_leg (account : Account) (repaid : list RepayEntry)
    (cache : Context) : res bool :=
  if negb (length repaid =? length (borrow_positions account))%nat then Ok false
  else repays_all_legs account cache repaid.

(** ** Bonus parameters *)

Definition bonus_step (cache : Context) (sum : Z) (e : HubAssetKey * AccountPosition) : res Z :=
  let (hub_asset, position) := e in
  let* feed := cached_price cache (asset hub_asset) in
  let* market_index := cached_market_index cache hub_asset in
  let* value := position_value (ap_scaled_amount position) (supply_index market_index)
                  (pf_price feed) in
  let* product := of_option (EGeneric MathOverflow)
                    (i128_checked_mul value (ap_liquidation_bonus position)) in
  of_option (EGeneric MathOverflow) (i128_checked_add sum product).

Definition get_account_bonus_params (cache : Context)
    (positions : PositionMap AccountPositionRaw) (total_collateral proportion_seized : Wad)
    : res BonusBounds :=
  let* max := max_bonus_for_threshold proportion_seized in
  if total_collateral =? Wad.ZERO then Ok {| bb_base := 0; bb_max := max |}
  else
    let* sum := rfold (bonus_step cache) 0 (iter_typed_positions positions) in
    let* weighted_bonus_bps := FpCore.div_by_int_half_up sum total_collateral in
    Ok {| bb_base := Z.min weighted_bonus_bps max; bb_max := max |}.

Definition calculate_seizure_proportions (account : Account)
    (total_collateral weighted_collateral : Wad) (cache : Context) : res (Wad * BonusBounds) :=
  let* proportion_seized :=
    (if Wad.ZERO <? total_collateral then Wad.div weighted_collateral total_collateral
     else Ok Wad.ZERO) in
  let* bounds := get_account_bonus_params cache (supply_positions account) total_collateral
                   proportion_seized in
  Ok (proportion_seized, bounds).

(** ** Repayment amounts *)

Record RepayState : Type := mkRepayState {
  rps_total_usd : Wad;
  rps_repaid : list RepayEntry;
  rps_refunds : list PaymentTuple
}.

Definition repay_step (account : Account) (cache : Context) (s : RepayState) (p : HubPayment)
    : res RepayState :=
  let (hub_asset, amount) := p in
  let* feed := cached_price cache (asset hub_asset) in
  let* market_index := cached_market_index cache hub_asset in
  let* raw := of_option (ECollateral DebtPositionNotFound)
                (map_get (borrow_positions account) hub_asset) in
  let scaled := dp_scaled_amount (debt_position_of_raw raw) in
  let* actual_debt := unscale_borrow_ceil scaled (borrow_index market_index)
                        (pf_asset_decimals feed) in
  let* (payment_amount, refunds) :=
    (if actual_debt <? amount then
       let* excess := i128_sub amount actual_debt in
       Ok (actual_debt, rps_refunds s ++ [mkPaymentTuple (asset hub_asset) excess])
     else Ok (amount, rps_refunds s)) in
  let* payment_usd :=
    (if payment_amount =? actual_debt
     then position_value_floor scaled (borrow_index market_index) (pf_price feed)
     else usd_value_wad feed payment_amount) in
  let* total := Wad.checked_add (rps_total_usd s) payment_usd in
  Ok {| rps_total_usd := total;
        rps_repaid := rps_repaid s ++
          [{| re_hub_asset := hub_asset;
              re_amount := payment_amount;
              re_usd_wad := payment_usd;
              re_feed := raw_of_price_feed feed;
              re_market_index := market_index_raw_of market_index |}];
        rps_refunds := refunds |}.

Definition calculate_repayment_amounts (raw_payments : list HubPayment) (account : Account)
    (refunds : list PaymentTuple) (cache : Context) : res RepayState :=
  let* merged := aggregate_positive_payments raw_payments in
  rfold (repay_step account cache) (mkRepayState Wad.ZERO [] refunds) merged.

(** ** Trimming *)

Record ExcessState : Type := mkExcessState {
  xs_repaid : list RepayEntry;
  xs_refunds : list PaymentTuple;
  xs_remaining : Wad
}.

(** The kept amount of a partial trim, in both rounding modes. *)
Definition trimmed (keep_within_quote : bool) (remaining : Wad) (entry : RepayEntry) : res Z :=
  let usd := re_usd_wad entry in
  let decimals := pfr_asset_decimals (re_feed entry) in
  if keep_within_quote then
    let* kept := Wad.checked_sub usd remaining in
    let* tokens := Wad.div_floor kept (pfr_price_wad (re_feed entry)) in
    let* units := Wad.to_token_floor tokens decimals in
    Ok (Z.min units (re_amount entry))
  else
    let* ratio := Wad.div_floor remaining usd in
    let* w := Wad.from_token (re_amount entry) decimals in
    let* cut := Wad.mul_floor w ratio in
    let* units := Wad.to_token_floor cut decimals in
    i128_sub (re_amount entry) units.

(** One turn at [index], which holds [entry]. *)
Definition excess_turn (keep_within_quote : bool) (s : ExcessState) (index : nat)
    (entry : RepayEntry) : res ExcessState :=
  let remaining := xs_remaining s in
  let usd := re_usd_wad entry in
  if (re_amount entry <=? 0) || (usd =? Wad.ZERO) then Ok s
  else if remaining <? usd then
    let decimals := pfr_asset_decimals (re_feed entry) in
    let price := pfr_price_wad (re_feed entry) in
    let* new_amount := trimmed keep_within_quote remaining entry in
    let* nw := Wad.from_token new_amount decimals in
    let* nv := Wad.mul nw price in
    let new_usd := Z.min nv usd in
    let* refund := i128_sub (re_amount entry) new_amount in
    let refunds := xs_refunds s ++ [mkPaymentTuple (asset (re_hub_asset entry)) refund] in
    let repaid :=
      if new_amount =? 0 then delete index (xs_repaid s)
      else <[index := {| re_hub_asset := re_hub_asset entry;
                         re_amount := new_amount;
                         re_usd_wad := new_usd;
                         re_feed := re_feed entry;
                         re_market_index := re_market_index entry |}]> (xs_repaid s) in
    let* remaining :=
      (if keep_within_quote then
         let* removed := Wad.checked_sub usd new_usd in
         if remaining <=? removed then Ok Wad.ZERO else Wad.checked_sub remaining removed
       else Ok Wad.ZERO) in
    Ok {| xs_repaid := repaid; xs_refunds := refunds; xs_remaining := remaining |}
  else
    let* remaining := Wad.checked_sub remaining usd in
    Ok {| xs_repaid := delete index (xs_repaid s);
          xs_refunds := xs_refunds s
            ++ [mkPaymentTuple (asset (re_hub_asset entry)) (re_amount entry)];
          xs_remaining := remaining |}.

(** [while remaining > 0 && current_index > 0], from the last entry backward. *)
Fixpoint excess_loop (keep_within_quote : bool) (current_index : nat) (s : ExcessState)
    : res ExcessState :=
  match current_index with
  | O => Ok s
  | S index =>
      if xs_remaining s <=? Wad.ZERO then Ok s
      else
        let* entry := expect_invariant (xs_repaid s !! index) in
        let* s := excess_turn keep_within_quote s index entry in
        excess_loop keep_within_quote index s
  end.

Definition process_excess_payment (repaid : list RepayEntry) (refunds : list PaymentTuple)
    (excess_usd : Wad) (keep_within_quote : bool) : res (list RepayEntry * list PaymentTuple) :=
  let* s := excess_loop keep_within_quote (length repaid)
              (mkExcessState repaid refunds excess_usd) in
  Ok (xs_repaid s, xs_refunds s).

(** ** The repayment plan *)

Definition whole_unit_repayment (account : Account) (snap : LiquidationSnapshot)
    (quote_usd : Wad) (bonus : Bps) (cache : Context) : res Wad :=
  match iter_typed_positions (supply_positions account) with
  | [(hub_asset, position)] =>
      let* feed := cached_price cache (asset hub_asset) in
      if MIN_BORROWABLE_ASSET_DECIMALS <=? pf_asset_decimals feed then Ok quote_usd
      else
        let* market_index := cached_market_index cache hub_asset in
        let* value := Ray.mul (ap_scaled_amount position) (supply_index market_index) in
        let* held_units := Ray.to_asset_floor value (pf_asset_decimals feed) in
        if held_units <? 1 then Ok quote_usd
        else
          let* b := Bps.to_wad bonus in
          let* one_plus_bonus := Wad.checked_add Wad.ONE b in
          let* one := Wad.from_token 1 (pf_asset_decimals feed) in
          let* unit_usd := Wad.mul one (pf_price feed) in
          let* unit_with_margin :=
            Wad.checked_add unit_usd (Z.max (Z.quot unit_usd 1000000) 1) in
          let* quoted := Wad.mul quote_usd one_plus_bonus in
          if unit_with_margin <=? quoted then Ok quote_usd
          else
            let* unit_at_bonus := FpCore.mul_div_floor unit_usd Wad.ONE one_plus_bonus in
            let* legs := one_unit_per_debt_leg_usd account cache in
            let* full_close_ceiling := Wad.checked_add (ls_total_debt snap) legs in
            if full_close_ceiling <=? unit_at_bonus then Ok (ls_total_debt snap)
            else
              let* unit_repayment :=
                FpCore.mul_div_ceil unit_with_margin Wad.ONE one_plus_bonus in
              if ls_total_debt snap <=? unit_repayment then Ok quote_usd
              else Ok unit_repayment
  | _ => Ok quote_usd
  end.

Definition normalize_repayment_plan (account : Account) (raw_payments : list HubPayment)
    (snap : LiquidationSnapshot) (bonus_bounds : BonusBounds) (curve : LiquidationCurve)
    (cache : Context) : res NormalizedRepaymentPlan :=
  let* rs := calculate_repayment_amounts raw_payments account [] cache in
  let total_debt_payment_usd := rps_total_usd rs in
  let* (curve_repayment_usd, bonus) := estimate_liquidation_amount snap bonus_bounds curve in
  let insolvent := ls_total_collateral snap <? ls_total_debt snap in
  let* ideal_repayment_usd :=
    (if insolvent || (ls_total_debt snap <=? curve_repayment_usd) then Ok curve_repayment_usd
     else whole_unit_repayment account snap curve_repayment_usd bonus cache) in
  let full_close := ls_total_debt snap <=? ideal_repayment_usd in
  let* (final_repayment_tokens, refunds) :=
    (if negb full_close && (ideal_repayment_usd <? total_debt_payment_usd) then
       let* excess_usd := Wad.checked_sub total_debt_payment_usd ideal_repayment_usd in
       process_excess_payment (rps_repaid rs) (rps_refunds rs) excess_usd insolvent
     else Ok (rps_repaid rs, rps_refunds rs)) in
  let* repay_usd := sum_repaid_usd final_repayment_tokens in
  let* seize_all :=
    (if insolvent && (Wad.ZERO <? repay_usd) then
       let* unit := one_unit_per_leg_usd final_repayment_tokens in
       let* reach := Wad.checked_add repay_usd unit in
       Ok (ideal_repayment_usd <=? reach)
     else Ok false) in
  let* repays_all_debt :=
    (if full_close then repays_every_debt_leg account final_repayment_tokens cache
     else Ok false) in
  Ok {| nrp_repaid := final_repayment_tokens;
        nrp_refunds := refunds;
        nrp_repay_usd := repay_usd;
        nrp_bonus := bonus;
        nrp_full_close := full_close;
        nrp_repays_all_debt := repays_all_debt;
        nrp_seize_all := seize_all |}.

Definition release_unbacked_repayment (repayment : NormalizedRepaymentPlan) (excess_usd : Wad)
    : res NormalizedRepaymentPlan :=
  if excess_usd <=? Wad.ZERO then Ok repayment
  else
    let* (repaid, refunds) :=
      process_excess_payment (nrp_repaid repayment) (nrp_refunds repayment) excess_usd false in
    let* repay_usd := sum_repaid_usd repaid in
    Ok {| nrp_repaid := repaid;
          nrp_refunds := refunds;
          nrp_repay_usd := repay_usd;
          nrp_bonus := nrp_bonus repayment;
          nrp_full_close := false;
          nrp_repays_all_debt := false;
          nrp_seize_all := nrp_seize_all repayment |}.

(** ** Seizures *)

(** The request against one collateral leg in RAY value, before the cap at the held
    balance; a leg in whole units is rounded, and what it cannot take is counted. *)
Definition request_ray (repayment : NormalizedRepaymentPlan) (feed : PriceFeed)
    (seizure_ray actual_ray : Ray) (seizure_for_asset_usd unseized_usd : Wad)
    : res (Ray * Wad) :=
  if negb (nrp_seize_all repayment)
     && (pf_asset_decimals feed <? MIN_BORROWABLE_ASSET_DECIMALS)
     && (seizure_ray <? actual_ray)
  then
    if nrp_repays_all_debt repayment then
      let* whole := Ray.to_asset_ceil seizure_ray (pf_asset_decimals feed) in
      let* r := Ray.from_asset whole (pf_asset_decimals feed) in
      Ok (Z.min r actual_ray, unseized_usd)
    else
      let* whole := Ray.to_asset_floor seizure_ray (pf_asset_decimals feed) in
      let* r := Ray.from_asset whole (pf_asset_decimals feed) in
      let* w := Ray.to_wad r in
      let* whole_usd := Wad.mul w (pf_price feed) in
      if whole_usd <? seizure_for_asset_usd then
        let* diff := Wad.checked_sub seizure_for_asset_usd whole_usd in
        let* unseized := Wad.checked_add unseized_usd diff in
        Ok (r, unseized)
      else Ok (r, unseized_usd)
  else Ok (seizure_ray, unseized_usd).

(** The entry of a leg whose request is [seizure_ray], or none when nothing whole
    can be taken. *)
Definition seize_leg (repayment : NormalizedRepaymentPlan) (one_plus_bonus : Wad)
    (hub_asset : HubAssetKey) (position : AccountPosition) (feed : PriceFeed)
    (market_index : MarketIndex) (seizure_ray actual_ray : Ray) : res (option SeizeEntry) :=
  if seizure_ray <=? Ray.ZERO then Ok None
  else
    let capped_ray :=
      if nrp_seize_all repayment then actual_ray else Z.min seizure_ray actual_ray in
    if capped_ray <=? Ray.ZERO then Ok None
    else
      let is_full_close := capped_ray =? actual_ray in
      let* opb_ray := Wad.to_ray one_plus_bonus in
      let* base_ray := Ray.div_floor seizure_ray opb_ray in
      let* bonus_ray :=
        (if base_ray <? capped_ray then Ray.checked_sub capped_ray base_ray
         else Ok Ray.ZERO) in
      let* protocol_fee_ray := Bps.apply_to_ray (ap_liquidation_fees position) bonus_ray in
      let* seized_scaled :=
        (if is_full_close then Ok (ap_scaled_amount position)
         else Ray.div_floor capped_ray (supply_index market_index)) in
      let* bonus_shares := Ray.div_floor bonus_ray (supply_index market_index) in
      let bonus_scaled := Z.min bonus_shares seized_scaled in
      if seized_scaled <=? Ray.ZERO then Ok None
      else
        let* capped_amount :=
          (if is_full_close then Ray.to_asset capped_ray (pf_asset_decimals feed)
           else Ray.to_asset_floor capped_ray (pf_asset_decimals feed)) in
        if capped_amount <=? 0 then Ok None
        else
          let* (_, pool_gross) :=
            resolve_withdrawal capped_amount (ap_scaled_amount position)
              (supply_index market_index) (pf_asset_decimals feed) in
          let* fee_asset := Ray.to_asset_floor protocol_fee_ray (pf_asset_decimals feed) in
          let bumped_fee :=
            if (Ray.ZERO <? protocol_fee_ray) && (fee_asset =? 0) then 1 else fee_asset in
          let* paid_ray := Ray.from_asset pool_gross (pf_asset_decimals feed) in
          let* realised_excess :=
            (if base_ray <? paid_ray then
               let* d := Ray.checked_sub paid_ray base_ray in
               Ray.to_asset_floor d (pf_asset_decimals feed)
             else Ok 0) in
          Ok (Some {| szn_hub_asset := hub_asset;
                      szn_amount := capped_amount;
                      szn_protocol_fee := Z.min bumped_fee realised_excess;
                      szn_scaled_amount := seized_scaled;
                      szn_bonus_scaled := bonus_scaled;
                      szn_liquidation_fees := as_u32 (ap_liquidation_fees position);
                      szn_feed := raw_of_price_feed feed;
                      szn_market_index := market_index_raw_of market_index |}).

Definition seize_step (repayment : NormalizedRepaymentPlan)
    (total_collateral one_plus_bonus total_seizure_usd : Wad) (cache : Context)
    (s : list SeizeEntry * Wad) (e : HubAssetKey * AccountPosition)
    : res (list SeizeEntry * Wad) :=
  let (seized, unseized_usd) := s in
  let (hub_asset, position) := e in
  let* feed := cached_price cache (asset hub_asset) in
  let* market_index := cached_market_index cache hub_asset in
  let* actual_ray := Ray.mul (ap_scaled_amount position) (supply_index market_index) in
  let* asset_value := position_value (ap_scaled_amount position) (supply_index market_index)
                        (pf_price feed) in
  let* share := Wad.div asset_value total_collateral in
  let* seizure_for_asset_usd := Wad.mul total_seizure_usd share in
  let* seizure_amount_wad := Wad.div seizure_for_asset_usd (pf_price feed) in
  let seizure_ray := i128_saturating_mul seizure_amount_wad (RAY / WAD) in
  let* (seizure_ray, unseized_usd) :=
    request_ray repayment feed seizure_ray actual_ray seizure_for_asset_usd unseized_usd in
  let* entry := seize_leg repayment one_plus_bonus hub_asset position feed market_index
                  seizure_ray actual_ray in
  Ok (match entry with None => seized | Some e => seized ++ [e] end, unseized_usd).

Definition calculate_seized_collateral (account : Account) (total_collateral : Wad)
    (repayment : NormalizedRepaymentPlan) (cache : Context) : res (list SeizeEntry * Wad) :=
  if total_collateral <=? Wad.ZERO then Ok ([], Wad.ZERO)
  else
    let* b := Bps.to_wad (nrp_bonus repayment) in
    let* one_plus_bonus := Wad.checked_add Wad.ONE b in
    let* total_seizure_usd := Wad.mul (nrp_repay_usd repayment) one_plus_bonus in
    let* (seized, unseized_usd) :=
      rfold (seize_step repayment total_collateral one_plus_bonus total_seizure_usd cache)
        ([], Wad.ZERO) (iter_typed_positions (supply_positions account)) in
    let* unbacked := Wad.div_floor unseized_usd one_plus_bonus in
    Ok (seized, unbacked).

(** ** Splits and scaling *)

Definition split_seized_shares (seized_scaled bonus_scaled : Ray) (liquidation_fees_bps : Z)
    : res (Ray * Ray) :=
  let fees := liquidation_fees_bps in
  do! (if (seized_scaled <? Ray.ZERO) || (bonus_scaled <? Ray.ZERO)
          || (seized_scaled <? bonus_scaled) || (BPS <=? fees)
       then Err (EGeneric InternalError) else Ok tt) in
  let* fee_scaled := FpCore.mul_div_ceil bonus_scaled fees BPS in
  do! (if seized_scaled <? fee_scaled then Err (EGeneric InternalError) else Ok tt) in
  let* liquidator_scaled := Ray.checked_sub seized_scaled fee_scaled in
  let* total := Ray.checked_add fee_scaled liquidator_scaled in
  do! (if negb (total =? seized_scaled) then Err (EGeneric InternalError) else Ok tt) in
  Ok (fee_scaled, liquidator_scaled).

Definition scale_entry (num den : Z) (entry : SeizeEntry) : res SeizeEntry :=
  let decimals := pfr_asset_decimals (szn_feed entry) in
  do! require (MIN_BORROWABLE_ASSET_DECIMALS <=? decimals) (EGeneric InvalidPayments) in
  let* scaled_amount := FpCore.mul_div_floor (szn_scaled_amount entry) num den in
  let* value := Ray.mul_floor scaled_amount (mi_supply_index (szn_market_index entry)) in
  let* shares_amount := Ray.to_asset_floor value decimals in
  let* a := FpCore.mul_div_floor (szn_amount entry) num den in
  let amount := Z.min a shares_amount in
  let* fee := FpCore.mul_div_floor (szn_protocol_fee entry) num den in
  let* bonus := FpCore.mul_div_floor (szn_bonus_scaled entry) num den in
  Ok {| szn_hub_asset := szn_hub_asset entry;
        szn_amount := amount;
        szn_protocol_fee := Z.min fee amount;
        szn_scaled_amount := scaled_amount;
        szn_bonus_scaled := bonus;
        szn_liquidation_fees := szn_liquidation_fees entry;
        szn_feed := szn_feed entry;
        szn_market_index := szn_market_index entry |}.

Definition scale_seizures_to_received (seized : list SeizeEntry)
    (received_usd planned_usd : Wad) : res (list SeizeEntry) :=
  if (planned_usd <=? Wad.ZERO) || (planned_usd <=? received_usd) then Ok seized
  else
    rfold (fun scaled entry =>
      let* e := scale_entry received_usd planned_usd entry in Ok (scaled ++ [e])) [] seized.

(** ** Validation *)

Definition repayment_validate (plan : NormalizedRepaymentPlan) : res unit :=
  let* sum := sum_repaid_usd (nrp_repaid plan) in
  if negb (sum =? nrp_repay_usd plan) then Err (EGeneric InternalError) else Ok tt.

Definition validate_entry (entry : SeizeEntry) : res unit :=
  do! (if (szn_amount entry <=? 0) || (szn_protocol_fee entry <? 0)
          || (szn_amount entry <? szn_protocol_fee entry)
       then Err (EGeneric InternalError) else Ok tt) in
  if (szn_scaled_amount entry <=? 0) || (szn_bonus_scaled entry <? 0)
     || (szn_scaled_amount entry <? szn_bonus_scaled entry)
     || (BPS <=? szn_liquidation_fees entry)
  then Err (EGeneric InternalError) else Ok tt.

Definition plan_validate (plan : LiquidationPlan) : res unit :=
  do! repayment_validate (lp_repayment plan) in
  rfold (fun _ entry => validate_entry entry) tt (lp_seized plan).

Definition into_result (plan : LiquidationPlan) : LiquidationResult :=
  {| lr_seized := lp_seized plan;
     lr_repaid := nrp_repaid (lp_repayment plan);
     lr_refunds := nrp_refunds (lp_repayment plan);
     lr_max_debt_usd := nrp_repay_usd (lp_repayment plan);
     lr_bonus_bps := nrp_bonus (lp_repayment plan) |}.

End LiqMath.
