(* ===== verification/LiqTrim.v ===== *)
(** * Repayments and seizures of a liquidation

    Lemmas on contracts/controller/src/positions/liquidation/math.rs.  [LiqTrim.]: merged
    payments are capped at the debt, excess is trimmed from the last leg backward, and every
    token offered ends in exactly one of the two lists.  [LiqSeize.]: each seizure is within
    its position, its fee within the seizure, the checks of [LiquidationPlan::validate] hold
    by construction, and the share split and the scaling to receipts conserve them. *)

From S2P Require Import Prelude Errors FpCore Fp PoolTypes RatesCurve RatesScaling ControllerTypes LiqCurve Payments LiqMath.
From stdpp Require Import base numbers list gmap.
From Stdlib Require Import ZArith Lia Bool.

Open Scope Z_scope.

Module LiqTrim.

Import RatesScaling LiqCurve Payments LiqMath.

(** ** Token and value totals *)

(** The units of token [a] a plan keeps for repayment, hands back, or was offered. *)
Definition kept (a : Address) (l : list RepayEntry) : Z :=
  zsum (fun e => if bool_decide (asset (re_hub_asset e) = a) then re_amount e else 0) l.
Definition refunded (a : Address) (l : list PaymentTuple) : Z :=
  zsum (fun p => if bool_decide (pt_asset p = a) then pt_amount p else 0) l.
Definition offered (a : Address) (l : list HubPayment) : Z :=
  zsum (fun p => if bool_decide (asset p.1 = a) then p.2 else 0) l.

(** The dollars credited for the kept amounts. *)
Definition credited (l : list RepayEntry) : Z := zsum re_usd_wad l.

(** Kept entries: positive amounts, non-negative credit, feeds as quoted. *)
Definition entry_ok (e : RepayEntry) : Prop :=
  0 < re_amount e /\ 0 <= re_usd_wad e
  /\ 0 < pfr_price_wad (re_feed e) /\ valid_decimals (pfr_asset_decimals (re_feed e)).

Lemma sum_repaid_Ok l r : sum_repaid_usd l = Ok r -> r = credited l.
Proof.
  unfold sum_repaid_usd, credited.
  assert (forall acc, rfold (fun t e => Wad.checked_add t (re_usd_wad e)) acc l = Ok r ->
    r = acc + zsum re_usd_wad l) as Hgen; [|intros H; by apply Hgen in H].
  induction l as [|e l IH]; simpl; intros acc H; [injection H as <-; lia|].
  apply rbind_Ok in H as (t & Ht & H). apply IH in H. fp_inv. lia.
Qed.

(** ** Merging does not change the tokens offered *)

Lemma paid_cons h p l :
  paid h (p :: l) = (if bool_decide (p.1 = h) then p.2 else 0) + paid h l.
Proof. done. Qed.

Lemma offered_cons a p l :
  offered a (p :: l) = (if bool_decide (asset p.1 = a) then p.2 else 0) + offered a l.
Proof. done. Qed.

Lemma zsum_plus {A} (f g : A -> Z) l : zsum (fun x => f x + g x) l = zsum f l + zsum g l.
Proof. induction l as [|x l IH]; simpl; [done|]. rewrite IH. lia. Qed.

Lemma zsum_ext {A} (f g : A -> Z) l : (forall x, x ∈ l -> f x = g x) -> zsum f l = zsum g l.
Proof.
  induction l as [|x l IH]; simpl; intros H; [done|].
  rewrite H by apply list_elem_of_here. rewrite IH; [done|].
  intros y Hy. apply H. by apply list_elem_of_further.
Qed.

Lemma zsum_map {A B} (f : B -> Z) (g : A -> B) l : zsum f (map g l) = zsum (fun x => f (g x)) l.
Proof. induction l as [|x l IH]; simpl; [done|]. by rewrite IH. Qed.

(** A key occurring once picks exactly its own term. *)
Lemma zsum_pick (k : HubAssetKey) (v : Z) ks :
  NoDup ks -> k ∈ ks -> zsum (fun h => if bool_decide (k = h) then v else 0) ks = v.
Proof.
  induction 1 as [|h ks Hh Hnd IH]; [by intros ?%elem_of_nil|]. simpl.
  intros [->|Hin]%elem_of_cons.
  - rewrite bool_decide_true by done. rewrite zsum_zero; [lia|].
    intros x Hx. rewrite bool_decide_false; [done|]. by intros ->.
  - rewrite IH by done. rewrite bool_decide_false; [lia|]. by intros ->.
Qed.

Lemma offered_by_key a l ks :
  NoDup ks -> (forall p, p ∈ l -> p.1 ∈ ks) ->
  zsum (fun h => if bool_decide (asset h = a) then paid h l else 0) ks = offered a l.
Proof.
  intros Hnd. induction l as [|p l IH]; intros Hin.
  - apply zsum_zero. intros h _. by case_bool_decide.
  - rewrite offered_cons, <- IH.
    2: { intros q Hq. apply Hin. by apply list_elem_of_further. }
    rewrite <- (zsum_pick p.1 (if bool_decide (asset p.1 = a) then p.2 else 0) ks);
      [|done|apply Hin, list_elem_of_here].
    rewrite <- zsum_plus. apply zsum_ext. intros h _. rewrite paid_cons.
    repeat case_bool_decide; try congruence; lia.
Qed.

Lemma offered_merged a l r :
  aggregate_positive_payments l = Ok r -> offered a r = offered a l.
Proof.
  intros H. apply aggregate_positive_Ok in H as (Hnd & Hall & Hdom).
  rewrite <- (offered_by_key a l (map fst r) Hnd).
  - rewrite zsum_map. apply zsum_ext. intros p Hp.
    rewrite Forall_forall in Hall. destruct (Hall p Hp) as [_ ->]. done.
  - intros p Hp. apply Hdom. apply list_elem_of_fmap. eauto.
Qed.

(** ** Capping at the debt *)

Section Repay.
Context (account : Account) (cache : Context) (Hcache : context_ok cache).
Context (Hdebt : Forall (fun e => 0 < dpr_scaled_amount e.2 <= i128_max)
                   (borrow_positions account)).

Lemma map_get_in {V} (m : PositionMap V) k v : map_get m k = Some v -> (k, v) ∈ m.
Proof.
  clear. induction m as [|[k' v'] m IH]; simpl; [done|]. case_bool_decide as E.
  - intros [= <-]. subst. apply list_elem_of_here.
  - intros H. apply list_elem_of_further. auto.
Qed.

(** One merged payment: the kept part and the refund make it up, and the kept part
    is positive and never above the ceiling-rounded debt. *)
Lemma repay_step_Ok s p s' a :
  0 < p.2 -> repay_step account cache s p = Ok s' ->
  exists e, rps_repaid s' = rps_repaid s ++ [e] /\ entry_ok e
  /\ re_hub_asset e = p.1 /\ re_amount e <= p.2
  /\ kept a (rps_repaid s') + refunded a (rps_refunds s')
     = kept a (rps_repaid s) + refunded a (rps_refunds s)
       + (if bool_decide (asset p.1 = a) then p.2 else 0)
  /\ rps_total_usd s' = rps_total_usd s + re_usd_wad e.
Proof using Hcache Hdebt.
  destruct p as [h amount]. simpl. intros Hp H. unfold repay_step in H.
  apply rbind_Ok in H as (f & Hf & H). apply rbind_Ok in H as (m & Hm & H).
  apply rbind_Ok in H as (raw & Hraw & H). apply rbind_Ok in H as (debt & Hd & H).
  apply rbind_Ok in H as ([pay refunds] & Hpay & H). apply rbind_Ok in H as (usd & Husd & H).
  apply rbind_Ok in H as (tot & Htot & H). injection H as <-. simpl.
  destruct (co_price _ Hcache _ _ Hf) as [Hpr Hdec].
  destruct (co_index _ Hcache _ _ Hm) as [Hbi _].
  apply of_option_Ok, map_get_in in Hraw. rewrite Forall_forall in Hdebt.
  specialize (Hdebt _ Hraw). simpl in Hdebt.
  apply unscale_borrow_ceil_Ok in Hd as (Hd0 & Hd1 & _); [|done|simpl; lia|lia].
  assert (0 < debt) as Hdpos.
  { simpl in Hd1. pose proof (unit_of_pos _ Hdec). pose proof RAY_pos.
    assert (0 < dpr_scaled_amount raw * borrow_index m) by nia.
    destruct (Z.eq_dec debt 0); [subst debt; lia|lia]. }
  assert (0 < pay <= amount /\ forall a, refunded a refunds = refunded a (rps_refunds s)
    + (if bool_decide (asset h = a) then amount - pay else 0)) as (Hpay1 & Href).
  { destruct (Z.ltb_spec debt amount).
    - apply rbind_Ok in Hpay as (ex & Hex & Hpay). injection Hpay as <- <-.
      apply i128_sub_Ok in Hex. split; [lia|]. intros b. unfold refunded.
      rewrite zsum_app. simpl. subst ex. lia.
    - injection Hpay as <- <-. split; [lia|]. intros b. case_bool_decide; lia. }
  assert (0 <= usd).
  { destruct (Z.eqb_spec pay debt).
    - eapply position_value_floor_nonneg; [..|exact Husd]; simpl; lia.
    - unfold usd_value_wad in Husd. apply rbind_Ok in Husd as (w & Hw & Husd).
      fp_inv. lia. }
  eexists. split; [done|]. unfold entry_ok. simpl. fp_inv.
  split_and!; [lia|lia|lia|lia|lia|done|lia| |lia].
  rewrite Href. unfold kept. rewrite zsum_app. simpl. case_bool_decide; lia.
Qed.

Lemma repay_fold_Ok l s s' :
  Forall (fun p => 0 < p.2) l -> Forall entry_ok (rps_repaid s) ->
  rps_total_usd s = credited (rps_repaid s) ->
  rfold (repay_step account cache) s l = Ok s' ->
  Forall entry_ok (rps_repaid s') /\ rps_total_usd s' = credited (rps_repaid s')
  /\ forall a, kept a (rps_repaid s') + refunded a (rps_refunds s')
     = kept a (rps_repaid s) + refunded a (rps_refunds s) + offered a l.
Proof using Hcache Hdebt.
  intros Hl. revert s s'. induction Hl as [|p l Hp Hl IH]; simpl; intros s s' Hs Ht H.
  - injection H as <-. split_and!; [done|done|]. intros a. unfold offered. simpl. lia.
  - apply rbind_Ok in H as (s1 & H1 & H).
    destruct (repay_step_Ok s p s1 (asset p.1) Hp H1) as (e & He & Hok & _ & _ & _ & Htot).
    apply IH in H as (Ha & Hb & Hc).
    + split_and!; [done|done|]. intros a. rewrite Hc.
      destruct (repay_step_Ok s p s1 a Hp H1) as (_ & _ & _ & _ & _ & -> & _).
      unfold offered. simpl. lia.
    + rewrite He. apply Forall_app. by split; [|constructor].
    + rewrite Htot, Ht, He. unfold credited. rewrite zsum_app. simpl. lia.
Qed.

(** Every token offered is kept or refunded, and the quoted total is what the kept
    entries are credited. *)
Lemma repayment_amounts_Ok l refunds s :
  calculate_repayment_amounts l account refunds cache = Ok s ->
  Forall entry_ok (rps_repaid s) /\ rps_total_usd s = credited (rps_repaid s)
  /\ forall a, kept a (rps_repaid s) + refunded a (rps_refunds s)
     = refunded a refunds + offered a l.
Proof using Hcache Hdebt.
  intros H. unfold calculate_repayment_amounts in H. apply rbind_Ok in H as (m & Hm & H).
  pose proof (aggregate_positive_Ok _ _ Hm) as (_ & Hall & _).
  apply repay_fold_Ok in H as (H1 & H2 & H3); [|..].
  - split_and!; [done|done|]. intros a. rewrite H3, (offered_merged a _ _ Hm). done.
  - eapply Forall_impl; [exact Hall|]. by intros p [? _].
  - constructor.
  - done.
Qed.

End Repay.

(** ** Trimming *)

Lemma trimmed_range k rem e n :
  entry_ok e -> 0 < rem < re_usd_wad e -> trimmed k rem e = Ok n -> 0 <= n <= re_amount e.
Proof.
  intros (Ha & Hu & Hp & Hd) Hr H. unfold trimmed in H. pose proof WAD_pos.
  destruct k; ok_inv H.
  - fp_inv. assert (0 <= v0) by (subst; apply floor_div_nonneg; nia).
    apply to_token_floor_Ok in Hv1 as [? _]; [lia|done|done].
  - fp_inv. apply i128_sub_Ok in H. apply from_token_Ok in Hv0; [|done].
    pose proof (token_unit_pos _ Hd) as Htu.
    assert (0 <= v <= WAD).
    { subst v. split; [apply floor_div_nonneg; nia|].
      pose proof (floor_div_bounds (rem * WAD) (re_usd_wad e) ltac:(lia)). nia. }
    assert (0 <= v1 <= v0).
    { subst v1. split; [apply floor_div_nonneg; nia|].
      pose proof (floor_div_bounds (v0 * v) WAD ltac:(lia)). nia. }
    apply to_token_floor_Ok in Hv2 as [? ?]; [|lia|done]. nia.
Qed.

(** Kept within the quote: the value of the kept units is at most what remains of
    the credit. *)
Lemma trimmed_value rem e n w v :
  entry_ok e -> 0 < rem < re_usd_wad e -> trimmed true rem e = Ok n ->
  Wad.from_token n (pfr_asset_decimals (re_feed e)) = Ok w ->
  Wad.mul w (pfr_price_wad (re_feed e)) = Ok v -> v <= re_usd_wad e - rem.
Proof.
  intros (Ha & Hu & Hp & Hd) Hr H Hw Hm. unfold trimmed in H. pose proof WAD_pos.
  ok_inv H. apply from_token_Ok in Hw; [|done]. fp_inv.
  assert (0 <= v1) by (subst; apply floor_div_nonneg; nia).
  apply to_token_floor_Ok in Hv1 as [? ?]; [|done|done].
  pose proof (token_unit_pos _ Hd) as Htu.
  assert (w <= v1) by nia.
  pose proof (floor_div_bounds (v0 * WAD) (pfr_price_wad (re_feed e)) ltac:(lia)).
  assert (w * pfr_price_wad (re_feed e) <= v0 * WAD) by nia.
  subst v. apply half_up_div_le_iff; [lia|]. assert (WAD / 2 < WAD) by zconst. lia.
Qed.

(** Both forms of a shortened entry: replaced, or dropped at zero. *)
Lemma shorten_Ok l i e n usd a :
  l !! i = Some e -> Forall entry_ok l -> 0 <= n -> 0 <= usd ->
  let e' := mkRepayEntry (re_hub_asset e) n usd (re_feed e) (re_market_index e) in
  let l' := if n =? 0 then delete i l else <[i := e']> l in
  Forall entry_ok l' /\ take i l' = take i l
  /\ kept a l' = kept a l - (if bool_decide (asset (re_hub_asset e) = a)
                            then re_amount e - n else 0)
  /\ credited l' <= credited l - re_usd_wad e + usd.
Proof.
  intros Hi Hl Hn Hu e' l'. subst l'. pose proof (Forall_lookup_1 _ _ _ _ Hl Hi) as He.
  unfold kept, credited. destruct (Z.eqb_spec n 0) as [->|].
  - rewrite !(zsum_delete _ _ _ _ Hi). split_and!; [by apply Forall_delete|..|lia].
    + rewrite delete_take_drop, take_app_length'; [done|].
      apply lookup_lt_Some in Hi. rewrite length_take. lia.
    + case_bool_decide; lia.
  - rewrite !(zsum_insert _ _ _ _ _ Hi). split_and!; [..|simpl; lia].
    + apply Forall_insert; [done|]. destruct He as (? & ? & ? & ?). by repeat split; simpl; try lia.
    + by rewrite take_insert_ge by lia.
    + simpl. case_bool_decide; lia.
Qed.

(** One turn conserves tokens, shortens only entries at or after its own, and takes
    the whole credit of its entry or ends the trim. *)
Lemma excess_turn_Ok k s i e s' :
  Forall entry_ok (xs_repaid s) -> xs_repaid s !! i = Some e -> 0 < xs_remaining s ->
  excess_turn k s i e = Ok s' ->
  Forall entry_ok (xs_repaid s') /\ take i (xs_repaid s') = take i (xs_repaid s)
  /\ (forall a, kept a (xs_repaid s') + refunded a (xs_refunds s')
       = kept a (xs_repaid s) + refunded a (xs_refunds s))
  /\ credited (xs_repaid s') <= credited (xs_repaid s)
  /\ (if re_usd_wad e <=? xs_remaining s
      then xs_remaining s' = xs_remaining s - re_usd_wad e
           /\ credited (xs_repaid s') = credited (xs_repaid s) - re_usd_wad e
      else xs_remaining s' = 0
           /\ (k = true -> credited (xs_repaid s') <= credited (xs_repaid s) - xs_remaining s)).
Proof.
  intros Hl Hi Hr H. pose proof (Forall_lookup_1 _ _ _ _ Hl Hi) as He.
  pose proof He as (Ha & Hu & Hp & Hd). unfold excess_turn, Wad.ZERO in H.
  destruct (Z.leb_spec (re_amount e) 0); [lia|]. cbn [orb] in H.
  destruct (Z.eqb_spec (re_usd_wad e) 0) as [E|E].
  { injection H as <-. rewrite E. destruct (Z.leb_spec 0 (xs_remaining s)); [|lia].
    split_and!; (done || lia). }
  destruct (Z.ltb_spec (xs_remaining s) (re_usd_wad e)), (Z.leb_spec (re_usd_wad e) (xs_remaining s));
    try lia.
  - apply rbind_Ok in H as (n & Hn & H). apply rbind_Ok in H as (w & Hw & H).
    apply rbind_Ok in H as (v & Hv & H). apply rbind_Ok in H as (rf & Hrf & H).
    apply rbind_Ok in H as (rem & Hrem & H). injection H as <-. apply i128_sub_Ok in Hrf.
    pose proof (trimmed_range k (xs_remaining s) e n He ltac:(lia) Hn) as Hrange.
    assert (0 <= v) by (clear Hn Hrem; fp_inv; lia).
    assert (k = true -> v <= re_usd_wad e - xs_remaining s) as Hkeep.
    { intros ->. exact (trimmed_value (xs_remaining s) e n w v He ltac:(lia) Hn Hw Hv). }
    pose proof (fun a => shorten_Ok _ i e n (Z.min v (re_usd_wad e)) a Hi Hl ltac:(lia) ltac:(lia))
      as Hs. cbv zeta in Hs. simpl.
    destruct (Hs (asset (re_hub_asset e))) as (BH1 & BH2 & _ & BH4).
    split_and!; [exact BH1|exact BH2| |lia| |].
    + intros a. destruct (Hs a) as (_ & _ & -> & _). unfold refunded. rewrite zsum_app. simpl.
      case_bool_decide; lia.
    + destruct k; [|by injection Hrem as <-]. specialize (Hkeep eq_refl).
      apply rbind_Ok in Hrem as (x & Hx & Hrem). apply checked_sub_Ok in Hx.
      destruct (Z.leb_spec (xs_remaining s) x); [by injection Hrem as <-|lia].
    + intros Hk. specialize (Hkeep Hk). lia.
  - apply rbind_Ok in H as (rem & Hrem & H). injection H as <-. simpl.
    apply checked_sub_Ok in Hrem.
    destruct (shorten_Ok _ i e 0 0 (asset (re_hub_asset e)) Hi Hl ltac:(lia) ltac:(lia))
      as (BH1 & BH2 & _). simpl in BH1, BH2.
    unfold kept, credited, refunded. rewrite (zsum_delete _ _ _ _ Hi).
    split_and!; [exact BH1|exact BH2| |lia|lia|lia].
    intros a. rewrite (zsum_delete _ _ _ _ Hi), zsum_app. simpl. lia.
Qed.

(** The loop, from [n] backward: tokens are conserved and the credit never grows;
    when the entries cover the excess, the kept-within-quote trim removes it all. *)
Lemma excess_loop_Ok k n s s' :
  Forall entry_ok (xs_repaid s) -> 0 <= xs_remaining s ->
  (n <= length (xs_repaid s))%nat ->
  excess_loop k n s = Ok s' ->
  Forall entry_ok (xs_repaid s')
  /\ (forall a, kept a (xs_repaid s') + refunded a (xs_refunds s')
       = kept a (xs_repaid s) + refunded a (xs_refunds s))
  /\ credited (xs_repaid s') <= credited (xs_repaid s)
  /\ (k = true -> xs_remaining s <= credited (take n (xs_repaid s)) ->
      credited (xs_repaid s') <= credited (xs_repaid s) - xs_remaining s).
Proof.
  revert s s'. induction n as [|i IH]; cbn [excess_loop]; intros s s' Hl Hr Hn H.
  { injection H as <-. split_and!; try (done || lia). unfold credited at 1. simpl. lia. }
  unfold Wad.ZERO in H. destruct (Z.leb_spec (xs_remaining s) 0).
  { injection H as <-. split_and!; (done || lia). }
  apply rbind_Ok in H as (e & He & H). apply rbind_Ok in H as (s1 & H1 & H).
  apply of_option_Ok in He.
  pose proof (Forall_lookup_1 _ _ _ _ Hl He) as (_ & Hu & _ & _).
  apply (excess_turn_Ok _ _ _ _ _ Hl He ltac:(lia)) in H1 as (Hl1 & Ht & Hc & Hm & Hrem).
  assert (0 <= xs_remaining s1) by (destruct (Z.leb_spec (re_usd_wad e) (xs_remaining s)); lia).
  apply IH in H as (A1 & A2 & A3 & A4); [|done|done|].
  2: { apply (f_equal length) in Ht. rewrite !length_take in Ht. lia. }
  split_and!; [done| |lia|].
  - intros a. by rewrite A2.
  - intros Hk Hcov. specialize (A4 Hk). rewrite Ht in A4.
    rewrite (take_S_r _ _ _ He) in Hcov. unfold credited in Hcov at 1.
    rewrite zsum_app in Hcov. fold (credited (take i (xs_repaid s))) in Hcov. simpl in Hcov.
    assert (0 <= credited (take i (xs_repaid s))).
    { apply zsum_nonneg. apply Forall_take. eapply Forall_impl; [exact Hl|].
      by intros x (_ & ? & _). }
    destruct (Z.leb_spec (re_usd_wad e) (xs_remaining s)) as [|].
    + destruct Hrem as [Hr1 Hr2]. specialize (A4 ltac:(lia)). lia.
    + destruct Hrem as [Hr1 Hr2]. specialize (Hr2 Hk). lia.
Qed.

Lemma process_excess_Ok k l rf excess l' rf' :
  Forall entry_ok l -> 0 <= excess ->
  process_excess_payment l rf excess k = Ok (l', rf') ->
  Forall entry_ok l' /\ (forall a, kept a l' + refunded a rf' = kept a l + refunded a rf)
  /\ credited l' <= credited l
  /\ (k = true -> excess <= credited l -> credited l' <= credited l - excess).
Proof.
  intros Hl He H. unfold process_excess_payment in H. apply rbind_Ok in H as (s & Hs & H).
  injection H as <- <-.
  apply excess_loop_Ok in Hs as (H1 & H2 & H3 & H4); simpl in *; [|done|done|done].
  rewrite firstn_all in H4. done.
Qed.

End LiqTrim.

(** ** Seizures *)

Module LiqSeize.

Import RatesScaling LiqCurve Payments LiqMath.

(** What [LiquidationPlan::validate] requires of an entry. *)
Definition seizure_ok (e : SeizeEntry) : Prop :=
  0 < szn_amount e /\ 0 <= szn_protocol_fee e <= szn_amount e
  /\ 0 < szn_scaled_amount e /\ 0 <= szn_bonus_scaled e <= szn_scaled_amount e
  /\ 0 <= szn_liquidation_fees e < BPS.

Lemma validate_entry_total e : seizure_ok e -> validate_entry e = Ok tt.
Proof.
  intros (H1 & H2 & H3 & H4 & H5). unfold validate_entry.
  destruct (Z.leb_spec (szn_amount e) 0), (Z.ltb_spec (szn_protocol_fee e) 0),
    (Z.ltb_spec (szn_amount e) (szn_protocol_fee e)), (Z.leb_spec (szn_scaled_amount e) 0),
    (Z.ltb_spec (szn_bonus_scaled e) 0), (Z.ltb_spec (szn_scaled_amount e) (szn_bonus_scaled e)),
    (Z.leb_spec BPS (szn_liquidation_fees e)); (lia || reflexivity).
Qed.

Lemma validate_entries_total l :
  Forall seizure_ok l -> rfold (fun _ entry => validate_entry entry) tt l = Ok tt.
Proof.
  induction 1 as [|e l He _ IH]; cbn [rfold]; [done|]. by rewrite validate_entry_total.
Qed.

(** ** The share split *)

(** The split is total on valid entries and exact: no share is created or lost, and
    the fee is taken from the bonus. *)
Lemma split_Ok seized bonus fees fee liq :
  split_seized_shares seized bonus fees = Ok (fee, liq) -> 0 <= fees ->
  fee + liq = seized /\ 0 <= fee <= bonus /\ 0 <= liq /\ (0 < bonus -> 0 < fees -> 0 < fee).
Proof.
  intros H Hf. unfold split_seized_shares, Ray.ZERO in H.
  apply rbind_Ok in H as (u & Hu & H). apply rbind_Ok in H as (f & Hfee & H).
  apply rbind_Ok in H as (u2 & Hu2 & H). apply rbind_Ok in H as (l & Hl & H).
  apply rbind_Ok in H as (t & Ht & H). apply rbind_Ok in H as (u3 & _ & H).
  injection H as <- <-. destruct (_ || _)%bool eqn:E in Hu; [done|]. b2p. fp_inv.
  pose proof (ceil_div_bounds (bonus * fees) BPS BPS_pos).
  split_and!; try nia.
Qed.

Lemma split_total seized bonus fees :
  0 <= bonus <= seized -> seized <= i128_max -> 0 <= fees < BPS ->
  exists fee liq, split_seized_shares seized bonus fees = Ok (fee, liq).
Proof.
  intros Hb Hs Hf. unfold split_seized_shares, Ray.ZERO, Ray.checked_sub, Ray.checked_add.
  pose proof BPS_pos. assert (BPS <= i128_max) by zconst.
  pose proof (ceil_div_bounds (bonus * fees) BPS BPS_pos) as Hc.
  pose proof (ceil_div_nonneg (bonus * fees) BPS BPS_pos ltac:(nia)).
  assert (ceil_div (bonus * fees) BPS <= bonus) by nia. assert (i128_min <= 0) by zconst.
  destruct (Z.ltb_spec seized 0), (Z.ltb_spec bonus 0), (Z.ltb_spec seized bonus),
    (Z.leb_spec BPS fees); try lia. cbn [orb rbind].
  rewrite FpCore.mul_div_ceil_total by lia. cbn [rbind].
  destruct (Z.ltb_spec seized (ceil_div (bonus * fees) BPS)); [lia|]. cbn [rbind].
  rewrite checked_sub_total by lia. cbn [rbind]. rewrite checked_add_total by lia. cbn [rbind].
  destruct (Z.eqb_spec (ceil_div (bonus * fees) BPS + (seized - ceil_div (bonus * fees) BPS))
    seized); [|lia]. cbn [negb rbind]. eauto.
Qed.

(** ** One leg *)

Lemma as_u32_small z : 0 <= z <= u32_max -> as_u32 z = z.
Proof. intros Hz. unfold as_u32, u32_max in *. apply Z.mod_small. lia. Qed.

(** Shares of a partial seizure stay within the position. *)
Lemma partial_shares scaled si actual capped r :
  0 <= scaled -> 0 < si -> Ray.mul scaled si = Ok actual -> 0 <= capped < actual ->
  Ray.div_floor capped si = Ok r -> 0 <= r <= scaled.
Proof.
  intros Hs Hsi Ha Hc Hr. fp_inv. pose proof RAY_pos.
  pose proof (half_up_div_bounds (scaled * si) RAY RAY_pos) as Hb.
  subst r actual. split; [apply floor_div_nonneg; nia|].
  pose proof (floor_div_bounds (capped * RAY) si Hsi). nia.
Qed.

(** The fee is at most the whole units the pool pays above the repayment share. *)
Lemma fee_range prot fee_asset bumped paid base d gross realised :
  valid_decimals d -> 0 <= prot <= i128_max -> 0 <= gross ->
  Ray.to_asset_floor prot d = Ok fee_asset ->
  bumped = (if (0 <? prot) && (fee_asset =? 0) then 1 else fee_asset) ->
  Ray.from_asset gross d = Ok paid ->
  (if base <? paid then let* x := Ray.checked_sub paid base in Ray.to_asset_floor x d
   else Ok 0) = Ok realised ->
  0 <= Z.min bumped realised <= gross.
Proof.
  intros Hd Hp Hg Hf Hb Hpaid Hr. pose proof (unit_of_pos d Hd).
  rewrite to_asset_floor_nonneg in Hf by done. injection Hf as Hf.
  pose proof (floor_div_nonneg prot (unit_of d) ltac:(lia) ltac:(lia)).
  assert (0 <= bumped) by (destruct (_ && _)%bool in Hb; lia).
  apply from_asset_Ok in Hpaid as [-> Hi]; [|done].
  assert (0 <= realised <= gross); [|lia]. destruct (base <? _); [|injection Hr as <-; lia].
  apply rbind_Ok in Hr as (x & Hx & Hr). fp_inv.
  rewrite to_asset_floor_nonneg in Hr by (lia || done). injection Hr as <-.
  pose proof (floor_div_bounds x (unit_of d) ltac:(lia)).
  pose proof (floor_div_nonneg x (unit_of d) ltac:(lia) ltac:(lia)). nia.
Qed.

Lemma seize_leg_Ok rp opb h p f m sr ar e :
  0 <= ap_scaled_amount p -> 0 <= ap_liquidation_fees p < BPS ->
  valid_decimals (pf_asset_decimals f) -> 0 < supply_index m ->
  Ray.mul (ap_scaled_amount p) (supply_index m) = Ok ar ->
  seize_leg rp opb h p f m sr ar = Ok (Some e) ->
  seizure_ok e /\ szn_hub_asset e = h /\ szn_scaled_amount e <= ap_scaled_amount p.
Proof.
  intros Hs Hfee Hd Hsi Har H. unfold seize_leg, Ray.ZERO in H.
  destruct (Z.leb_spec sr 0); [done|].
  set (capped := if nrp_seize_all rp then ar else Z.min sr ar) in *.
  assert (capped <= ar) as Hcap by (subst capped; destruct (nrp_seize_all rp); lia).
  destruct (Z.leb_spec capped 0); [done|].
  apply rbind_Ok in H as (opbr & Hopbr & H). apply rbind_Ok in H as (base & Hbase & H).
  apply rbind_Ok in H as (bonus & Hbonus & H). apply rbind_Ok in H as (prot & Hprot & H).
  apply rbind_Ok in H as (ss & Hss & H). apply rbind_Ok in H as (bs & Hbs & H).
  destruct (Z.leb_spec ss 0); [done|]. apply rbind_Ok in H as (amt & Hamt & H).
  destruct (Z.leb_spec amt 0); [done|]. apply rbind_Ok in H as ([burned gross] & Hres & H).
  apply rbind_Ok in H as (fa & Hfa & H). apply rbind_Ok in H as (paid & Hpaid & H).
  apply rbind_Ok in H as (re & Hre & H). injection H as <-.
  assert (0 <= bonus).
  { destruct (base <? capped); [|injection Hbonus as <-; lia]. apply checked_sub_Ok in Hbonus. lia. }
  assert (0 <= ss <= ap_scaled_amount p) as Hshares.
  { destruct (Z.eqb_spec capped ar); [injection Hss as <-; lia|].
    eapply partial_shares; [exact Hs|exact Hsi|exact Har| |exact Hss]. lia. }
  apply resolve_withdrawal_spec in Hres as (_ & Hg & _); [|done|lia|done|done].
  assert (0 <= prot <= i128_max) as Hprot' by (clear Hbonus Hss Hamt Hre; fp_inv; lia).
  pose proof (fee_range _ _ _ _ _ _ _ _ Hd Hprot' (proj1 Hg) Hfa eq_refl Hpaid Hre).
  assert (0 <= bs).
  { clear Hbonus Hss Hamt Hre. fp_inv. subst bs. apply floor_div_nonneg; [done|].
    pose proof RAY_pos. nia. }
  unfold seizure_ok. simpl. rewrite as_u32_small.
  2: { assert (BPS <= u32_max) by zconst. lia. }
  split_and!; (lia || reflexivity).
Qed.

(** ** Every leg *)

(** [e] takes shares of the position held at its market. *)
Definition within_position (l : PositionMap AccountPosition) (e : SeizeEntry) : Prop :=
  exists p, (szn_hub_asset e, p) ∈ l /\ szn_scaled_amount e <= ap_scaled_amount p.

Section Legs.
Context (cache : Context) (Hcache : context_ok cache).

Lemma seize_step_Ok rp total opb usd s h p s' :
  0 <= ap_scaled_amount p -> 0 <= ap_liquidation_fees p < BPS ->
  seize_step rp total opb usd cache s (h, p) = Ok s' ->
  s'.1 = s.1 \/ exists e, s'.1 = s.1 ++ [e] /\ seizure_ok e /\ szn_hub_asset e = h
                       /\ szn_scaled_amount e <= ap_scaled_amount p.
Proof using Hcache.
  intros Hs Hfee H. destruct s as [seized un]. unfold seize_step in H.
  apply rbind_Ok in H as (f & Hf & H). apply rbind_Ok in H as (m & Hm & H).
  apply rbind_Ok in H as (ar & Har & H). apply rbind_Ok in H as (av & Hav & H).
  apply rbind_Ok in H as (sh & Hsh & H). apply rbind_Ok in H as (su & Hsu & H).
  apply rbind_Ok in H as (sa & Hsa & H). apply rbind_Ok in H as ([sr un'] & Hsr & H).
  apply rbind_Ok in H as (en & Hen & H). injection H as <-.
  destruct (co_price _ Hcache _ _ Hf) as [_ Hd]. destruct (co_index _ Hcache _ _ Hm) as [_ Hsi].
  destruct en as [e|]; [|by left]. right. exists e.
  split; [done|]. eapply seize_leg_Ok; eauto.
Qed.

Lemma seize_fold_Ok rp total opb usd l l0 s s' :
  Forall (fun e => 0 <= ap_scaled_amount e.2 /\ 0 <= ap_liquidation_fees e.2 < BPS) l ->
  (forall e, e ∈ l -> e ∈ l0) ->
  Forall seizure_ok s.1 -> Forall (within_position l0) s.1 ->
  rfold (seize_step rp total opb usd cache) s l = Ok s' ->
  Forall seizure_ok s'.1 /\ Forall (within_position l0) s'.1
  /\ exists ks, map szn_hub_asset s'.1 = map szn_hub_asset s.1 ++ ks
               /\ ks `sublist_of` map fst l.
Proof using Hcache.
  intros Hl. revert s s'. induction Hl as [|[h p] l [Hp1 Hp2] Hl IH]; simpl;
    intros s s' Hin H1 H2 H.
  { injection H as <-. split_and!; [done|done|]. exists []. by rewrite app_nil_r. }
  apply rbind_Ok in H as (s1 & Hstep & H). simpl in Hp1, Hp2.
  apply (seize_step_Ok _ _ _ _ _ _ _ _ Hp1 Hp2) in Hstep.
  assert (forall e, e ∈ l -> e ∈ l0) as Hin' by (intros e He; apply Hin; by apply list_elem_of_further).
  destruct Hstep as [E|(e & E & He1 & He2 & He3)].
  - apply IH in H as (A1 & A2 & ks & A3 & A4); [|done|by rewrite E|by rewrite E].
    rewrite E in A3. split_and!; [done|done|]. exists ks. split; [done|]. by constructor.
  - apply IH in H as (A1 & A2 & ks & A3 & A4); [|done|rewrite E; apply Forall_app..].
    + rewrite E, map_app, <- app_assoc in A3. split_and!; [done|done|].
      exists (szn_hub_asset e :: ks). split; [done|]. rewrite He2. by constructor.
    + by split; [|constructor].
    + split; [done|]. constructor; [|done]. exists p. rewrite He2. split; [|done].
      apply Hin, list_elem_of_here.
Qed.

(** Seizures of a well-formed account pass [validate], take each market at most once
    and in order, and never more shares than the position holds. *)
Lemma seized_collateral_Ok account total rp seized un :
  Forall (fun e => position_ok e.2) (supply_positions account) ->
  calculate_seized_collateral account total rp cache = Ok (seized, un) ->
  Forall seizure_ok seized
  /\ Forall (within_position (iter_typed_positions (supply_positions account))) seized
  /\ map szn_hub_asset seized `sublist_of` map_keys (supply_positions account).
Proof using Hcache.
  intros Hpos H. unfold calculate_seized_collateral in H.
  destruct (total <=? Wad.ZERO).
  { injection H as <- <-. split_and!; [constructor|constructor|apply sublist_nil_l]. }
  apply rbind_Ok in H as (b & Hb & H). apply rbind_Ok in H as (opb & Hopb & H).
  apply rbind_Ok in H as (usd & Husd & H). apply rbind_Ok in H as ([sz u] & Hf & H).
  apply rbind_Ok in H as (ub & Hub & H). injection H as <- <-.
  apply (seize_fold_Ok _ _ _ _ _ (iter_typed_positions (supply_positions account))) in Hf
    as (H1 & H2 & ks & H3 & H4); simpl in *; [| |auto|constructor|constructor].
  - split_and!; [done|done|]. rewrite H3. unfold iter_typed_positions, map_keys in *.
    by rewrite map_map in H4.
  - unfold iter_typed_positions. apply Forall_map. eapply Forall_impl; [exact Hpos|].
    intros [h r] (Ha & _ & _ & _ & Hb'). simpl in *. lia.
Qed.

End Legs.

(** ** Scaling to receipts *)

(** A short receipt shrinks every figure of an entry, keeps the bonus within the
    shares and the fee within the amount, and the amount within the shares' value. *)
Lemma scale_entry_Ok num den e e' :
  0 <= num < den -> seizure_ok e ->
  valid_decimals (pfr_asset_decimals (szn_feed e)) -> 0 < mi_supply_index (szn_market_index e) ->
  scale_entry num den e = Ok e' ->
  0 <= szn_scaled_amount e' <= szn_scaled_amount e /\ 0 <= szn_amount e' <= szn_amount e
  /\ 0 <= szn_bonus_scaled e' <= szn_scaled_amount e'
  /\ 0 <= szn_protocol_fee e' <= szn_amount e'
  /\ szn_amount e' * unit_of (pfr_asset_decimals (szn_feed e)) * RAY
     <= szn_scaled_amount e' * mi_supply_index (szn_market_index e)
  /\ szn_scaled_amount e' * den <= szn_scaled_amount e * num.
Proof.
  intros Hn (H1 & H2 & H3 & H4 & H5) Hd Hsi H. unfold scale_entry in H.
  apply rbind_Ok in H as (u & Hu & H). apply rbind_Ok in H as (sa & Hsa & H).
  apply rbind_Ok in H as (v & Hv & H). apply rbind_Ok in H as (sh & Hsh & H).
  apply rbind_Ok in H as (a & Ha & H). apply rbind_Ok in H as (fee & Hfee & H).
  apply rbind_Ok in H as (bo & Hbo & H). injection H as <-. simpl.
  assert (Hshr : unscale_supply_floor sa (mi_supply_index (szn_market_index e))
    (pfr_asset_decimals (szn_feed e)) = Ok sh) by (unfold unscale_supply_floor; by rewrite Hv).
  clear Hv Hsh.
  assert (forall x y r, 0 <= y <= x -> FpCore.mul_div_floor y num den = Ok r ->
    0 <= r <= y /\ r * den <= y * num /\ r <= floor_div (x * num) den) as Hfl.
  { intros x y r Hy Hr. apply FpCore.mul_div_floor_Ok in Hr as (_ & -> & _).
    pose proof (floor_div_bounds (y * num) den ltac:(lia)).
    split_and!; [apply floor_div_nonneg; nia|nia|nia|apply floor_div_mono; nia]. }
  pose proof (Hfl _ _ _ (conj (Z.lt_le_incl _ _ H3) (Z.le_refl _)) Hsa) as (Q1 & Q2 & _).
  pose proof (Hfl _ _ _ (conj (Z.lt_le_incl _ _ H1) (Z.le_refl _)) Ha) as (Q3 & _).
  pose proof (Hfl _ _ _ H2 Hfee) as (Q4 & _). pose proof (Hfl _ _ _ H4 Hbo) as (Q5 & _ & Q6).
  apply FpCore.mul_div_floor_Ok in Hsa as (_ & Hsa & _). rewrite <- Hsa in Q6.
  apply unscale_supply_floor_Ok in Hshr as (S1 & S2 & _); [|done|lia|lia].
  pose proof (unit_of_pos _ Hd) as Hup. pose proof RAY_pos.
  split_and!; try lia.
  etrans; [|exact S2]. apply Z.mul_le_mono_nonneg_r; [lia|]. apply Z.mul_le_mono_nonneg_r; lia.
Qed.


(** What holds between an entry and its scaled form. *)
Definition scaled_down (received planned : Wad) (e e' : SeizeEntry) : Prop :=
  szn_hub_asset e' = szn_hub_asset e
  /\ 0 <= szn_scaled_amount e' <= szn_scaled_amount e
  /\ 0 <= szn_amount e' <= szn_amount e
  /\ 0 <= szn_bonus_scaled e' <= szn_scaled_amount e'
  /\ 0 <= szn_protocol_fee e' <= szn_amount e'
  /\ (received < planned -> szn_scaled_amount e' * planned <= szn_scaled_amount e * received
      /\ szn_amount e' * unit_of (pfr_asset_decimals (szn_feed e)) * RAY
         <= szn_scaled_amount e' * mi_supply_index (szn_market_index e)).

Lemma scale_seizures_Ok seized received planned r :
  Forall (fun e => seizure_ok e /\ valid_decimals (pfr_asset_decimals (szn_feed e))
                   /\ 0 < mi_supply_index (szn_market_index e)) seized ->
  0 <= received -> 0 < planned ->
  scale_seizures_to_received seized received planned = Ok r ->
  Forall2 (scaled_down received planned) seized r.
Proof.
  intros Hs Hr Hp H. unfold scale_seizures_to_received, Wad.ZERO in H.
  destruct (Z.leb_spec planned 0); [lia|]. cbn [orb] in H.
  destruct (Z.leb_spec planned received).
  - injection H as <-. induction Hs as [|e l ((? & ? & ? & ? & ?) & _) _ IH]; constructor; [|done].
    unfold scaled_down. split_and!; (lia || done).
  - apply (rfold_collect _ (scale_entry received planned)) in H as (ys & -> & Hys); [|done].
    cbn [app]. induction Hys as [|e e' l ys He _ IH]; [constructor|].
    apply Forall_cons in Hs as [(E1 & E2 & E3) Hs]. constructor; [|auto].
    assert (szn_hub_asset e' = szn_hub_asset e) as Hk.
    { unfold scale_entry in He. repeat (apply rbind_Ok in He as (? & _ & He)). by injection He as <-. }
    assert (0 <= received < planned) as Hrange by lia.
    destruct (scale_entry_Ok _ _ _ _ Hrange E1 E2 E3 He) as (S1 & S2 & S3 & S4 & S5 & S6).
    unfold scaled_down. split_and!; (lia || done || auto).
Qed.

End LiqSeize.
