(* ===== verification/LiqPlan.v ===== *)
(** * Liquidation plans (contracts/controller/src/positions/liquidation/plan.rs,
    contracts/controller/src/positions/mod.rs)

    The plan an execution and an estimate share: listing flags, the health-factor
    gate, the quote, the seizures and the release of what they do not back. *)

From S2P Require Import Prelude Errors FpCore Fp PoolTypes RatesCurve RatesScaling ControllerTypes Risk LiqCurve Payments LiqMath LiqTrim.
From stdpp Require Import base numbers list gmap.
From Stdlib Require Import ZArith Lia Bool.

Open Scope Z_scope.

Module LiqPlan.

Import RatesScaling Risk LiqCurve Payments LiqMath LiqTrim LiqSeize.

Inductive FreezePolicy : Type := BlockOnEntry | AllowOnExit | SeizureLeg.

#[export] Instance FreezePolicy_eq_dec : EqDecision FreezePolicy.
Proof. solve_decision. Defined.

Definition enforce_spoke_asset_flags (cache : Context) (spoke_id : Z) (hub_asset : HubAssetKey)
    (freeze : FreezePolicy) : res unit :=
  match cached_spoke_asset cache spoke_id hub_asset with
  | None => Ok tt
  | Some sa =>
      match freeze with
      | BlockOnEntry =>
          do! require (negb (sa_paused sa)) (ESpoke SpokeAssetPaused) in
          require (negb (sa_frozen sa)) (ESpoke SpokeAssetFrozen)
      | AllowOnExit => require (negb (sa_paused sa)) (ESpoke SpokeAssetPaused)
      | SeizureLeg => require (negb (sa_no_seize sa)) (ESpoke SpokeAssetSeizureHalted)
      end
  end.

Definition snapshot_of (totals : AccountRiskTotals) (proportion_seized : Wad)
    : LiquidationSnapshot :=
  {| ls_total_debt := rt_total_debt totals;
     ls_total_collateral := rt_total_collateral totals;
     ls_weighted_collateral := rt_weighted_collateral totals;
     ls_proportion_seized := proportion_seized;
     ls_hf := rt_health_factor totals |}.

Definition build_liquidation_plan (account : Account) (raw_payments : list HubPayment)
    (cache : Context) : res LiquidationPlan :=
  do! (if debt_free account then Err (ECollateral HealthFactorTooHigh) else Ok tt) in
  do! rfold (fun _ p =>
        enforce_spoke_asset_flags cache (acc_spoke_id account) p.1 AllowOnExit) tt raw_payments in
  let* totals := calculate_account_risk_totals cache (supply_positions account)
                   (borrow_positions account) in
  do! require (rt_health_factor totals <? Wad.ONE) (ECollateral HealthFactorTooHigh) in
  let* (proportion_seized, bonus_bounds) :=
    calculate_seizure_proportions account (rt_total_collateral totals)
      (rt_weighted_collateral totals) cache in
  let snap := snapshot_of totals proportion_seized in
  let* cfg := spoke_config cache (acc_spoke_id account) in
  let curve := from_config cfg in
  let* repayment :=
    normalize_repayment_plan account raw_payments snap bonus_bounds curve cache in
  let* (seized_collaterals, unbacked_usd) :=
    calculate_seized_collateral account (rt_total_collateral totals) repayment cache in
  let* repayment := release_unbacked_repayment repayment unbacked_usd in
  let* repayment :=
    (if (Wad.ZERO <? unbacked_usd) && (match seized_collaterals with [] => true | _ => false end)
     then release_unbacked_repayment repayment (nrp_repay_usd repayment)
     else Ok repayment) in
  do! rfold (fun _ entry =>
        enforce_spoke_asset_flags cache (acc_spoke_id account) (szn_hub_asset entry) SeizureLeg)
        tt seized_collaterals in
  let plan := mkLiquidationPlan repayment seized_collaterals in
  do! plan_validate plan in
  Ok plan.

(** ** Halt flags *)

Lemma flags_fold_Ok {A} (key : A -> HubAssetKey) cache spoke policy l :
  rfold (fun _ x => enforce_spoke_asset_flags cache spoke (key x) policy) tt l = Ok tt ->
  Forall (fun x => enforce_spoke_asset_flags cache spoke (key x) policy = Ok tt) l.
Proof.
  induction l as [|x l IH]; cbn [rfold]; intros H; [constructor|].
  apply rbind_Ok in H as ([] & Hx & H). constructor; [done|auto].
Qed.

(** ** Bonus bounds of an account *)

Section Plans.
Context (cache : Context) (Hcache : context_ok cache).

Lemma bonus_fold_nonneg l r :
  Forall (fun e => 0 <= apr_liquidation_bonus e.2) l ->
  rfold (bonus_step cache) 0 (iter_typed_positions l) = Ok r -> 0 <= r.
Proof using Hcache.
  intros Hl. apply (rfold_inv (fun z => 0 <= z)); [|lia].
  intros a [h p] a' Hin Ha H. apply in_map_iff in Hin as ([h0 r0] & [= <- <-] & Hin).
  rewrite Forall_forall in Hl. apply list_elem_of_In in Hin. specialize (Hl _ Hin). simpl in Hl.
  unfold bonus_step in H. apply rbind_Ok in H as (f & Hf & H). apply rbind_Ok in H as (m & Hm & H).
  apply rbind_Ok in H as (v & Hv & H). apply rbind_Ok in H as (pr & Hpr & H).
  apply of_option_Ok, i128_checked_Some in H as [-> _].
  apply of_option_Ok, i128_checked_Some in Hpr as [-> _]. unfold position_value in Hv.
  apply rbind_Ok in Hv as (x & _ & Hv). apply rbind_Ok in Hv as (y & _ & Hv). fp_inv.
  simpl. nia.
Qed.

(** The proportion is at most one, and the base bonus is within the maximum that the
    thresholds allow. *)
Lemma seizure_proportions_Ok account total weighted p bb :
  Forall (fun e => position_ok e.2) (supply_positions account) ->
  0 <= weighted <= total ->
  calculate_seizure_proportions account total weighted cache = Ok (p, bb) ->
  0 <= p <= WAD /\ 0 <= bb_base bb <= bb_max bb
  /\ (0 < p -> (BPS + bb_max bb) * p <= BPS * WAD).
Proof using Hcache.
  intros Hpos Hw H. unfold calculate_seizure_proportions, Wad.ZERO in H.
  apply rbind_Ok in H as (p' & Hp & H). apply rbind_Ok in H as (b & Hb & H).
  injection H as <- <-. pose proof WAD_pos.
  assert (0 <= p' <= WAD) as Hpr.
  { destruct (Z.ltb_spec 0 total); [|injection Hp as <-; lia]. fp_inv. split; [lia|].
    subst p'. apply half_up_div_le_iff; [lia|].
    assert (total / 2 < total) by (apply Z.div_lt; lia). nia. }
  unfold get_account_bonus_params, Wad.ZERO in Hb. apply rbind_Ok in Hb as (mx & Hmx & Hb).
  apply max_bonus_Ok in Hmx as [Hm1 Hm2]; [|lia].
  destruct (Z.eqb_spec total 0); [injection Hb as <-; simpl; split_and!; (lia || done)|].
  apply rbind_Ok in Hb as (sm & Hsm & Hb). apply rbind_Ok in Hb as (w & Hwb & Hb).
  injection Hb as <-. simpl.
  apply bonus_fold_nonneg in Hsm.
  2: { eapply Forall_impl; [exact Hpos|]. by intros e (_ & _ & ? & _). }
  apply FpCore.div_by_int_half_up_Ok in Hwb as (Hd & ->).
  assert (0 <= FpCore.half_away_div sm total).
  { unfold FpCore.half_away_div. destruct (Z.leb_spec 0 sm); [|lia].
    apply half_up_div_nonneg; lia. }
  split_and!; (lia || done).
Qed.

(** ** The repayment side *)

(** What a repayment plan keeps: valid entries, their credit as the total, and every
    offered token kept or refunded. *)
Definition repayment_ok (payments : list HubPayment) (r : NormalizedRepaymentPlan) : Prop :=
  Forall entry_ok (nrp_repaid r) /\ nrp_repay_usd r = credited (nrp_repaid r)
  /\ forall a, kept a (nrp_repaid r) + refunded a (nrp_refunds r) = offered a payments.

Lemma normalize_Ok account payments snap bb curve r :
  Forall (fun e => 0 < dpr_scaled_amount e.2 <= i128_max) (borrow_positions account) ->
  normalize_repayment_plan account payments snap bb curve cache = Ok r ->
  repayment_ok payments r
  /\ exists q, estimate_liquidation_amount snap bb curve = Ok (q, nrp_bonus r)
  /\ (ls_total_collateral snap < ls_total_debt snap -> q < ls_total_debt snap ->
      nrp_repay_usd r <= q).
Proof using Hcache.
  intros Hdebt H. unfold normalize_repayment_plan in H.
  apply rbind_Ok in H as (rs & Hrs & H). apply rbind_Ok in H as ([q b] & Hq & H).
  apply rbind_Ok in H as (ideal & Hideal & H). apply rbind_Ok in H as ([fin rf] & Hfin & H).
  apply rbind_Ok in H as (usd & Husd & H). apply rbind_Ok in H as (sa & _ & H).
  apply rbind_Ok in H as (ra & _ & H). injection H as <-. unfold repayment_ok. simpl.
  apply (repayment_amounts_Ok _ _ Hcache Hdebt) in Hrs as (R1 & R2 & R3).
  apply sum_repaid_Ok in Husd. subst usd.
  destruct (ls_total_debt snap <=? ideal) eqn:Efc, (ideal <? rps_total_usd rs) eqn:Et; b2p;
    cbn [negb andb] in Hfin.
  all: try (injection Hfin as <- <-; split;
    [split_and!; [done|done|intros a; rewrite R3; done]|]).
  3: { apply rbind_Ok in Hfin as (ex & Hex & Hfin). apply checked_sub_Ok in Hex as [-> Hex].
       assert (0 <= rps_total_usd rs - ideal) as Hx0 by lia.
       apply (process_excess_Ok _ _ _ _ _ _ R1 Hx0) in Hfin as (P1 & P2 & P3 & P4).
       split; [split_and!; [done|done|intros a; rewrite P2, R3; done]|].
       exists q. split; [done|]. intros Hins Hqd.
       destruct (Z.ltb_spec (ls_total_collateral snap) (ls_total_debt snap)); [|lia].
       cbn [orb] in Hideal. injection Hideal as <-. specialize (P4 eq_refl). lia. }
  all: exists q; split; [done|]; intros Hins Hqd;
       destruct (Z.ltb_spec (ls_total_collateral snap) (ls_total_debt snap)); [|lia];
       cbn [orb] in Hideal; injection Hideal as <-; lia.
Qed.

Lemma release_Ok payments r excess r' :
  repayment_ok payments r -> release_unbacked_repayment r excess = Ok r' ->
  repayment_ok payments r' /\ nrp_repay_usd r' <= nrp_repay_usd r /\ nrp_bonus r' = nrp_bonus r.
Proof.
  intros Hr H. unfold release_unbacked_repayment, Wad.ZERO in H.
  destruct (Z.leb_spec excess 0); [injection H as <-; split_and!; [done|lia|done]|].
  apply rbind_Ok in H as ([l rf] & Hx & H). apply rbind_Ok in H as (u & Hu & H).
  injection H as <-. destruct Hr as (R1 & R2 & R3).
  assert (0 <= excess) as Hx0 by lia.
  apply (process_excess_Ok _ _ _ _ _ _ R1 Hx0) in Hx as (P1 & P2 & P3 & _).
  apply sum_repaid_Ok in Hu. unfold repayment_ok. simpl.
  split_and!; [done|done| |lia|done]. intros a. by rewrite P2, R3.
Qed.

(** ** Whole plans *)

Record plan_facts (account : Account) (payments : list HubPayment) (plan : LiquidationPlan)
    : Prop := {
  pl_repayment : repayment_ok payments (lp_repayment plan);
  pl_seized : Forall seizure_ok (lp_seized plan);
  pl_within : Forall (within_position (iter_typed_positions (supply_positions account)))
                (lp_seized plan);
  pl_keys : map szn_hub_asset (lp_seized plan) `sublist_of` map_keys (supply_positions account);
  pl_halts : Forall (fun e => enforce_spoke_asset_flags cache (acc_spoke_id account)
                       (szn_hub_asset e) SeizureLeg = Ok tt) (lp_seized plan)
}.

Lemma build_plan_Ok account payments plan :
  account_ok account ->
  Forall (fun e => 0 < dpr_scaled_amount e.2 <= i128_max) (borrow_positions account) ->
  build_liquidation_plan account payments cache = Ok plan ->
  plan_facts account payments plan
  /\ exists totals p bb cfg q,
       calculate_account_risk_totals cache (supply_positions account)
         (borrow_positions account) = Ok totals
       /\ rt_health_factor totals < WAD
       /\ calculate_seizure_proportions account (rt_total_collateral totals)
            (rt_weighted_collateral totals) cache = Ok (p, bb)
       /\ spoke_config cache (acc_spoke_id account) = Ok cfg
       /\ estimate_liquidation_amount (snapshot_of totals p) bb (from_config cfg)
          = Ok (q, nrp_bonus (lp_repayment plan))
       /\ (rt_total_collateral totals < rt_total_debt totals -> q < rt_total_debt totals ->
           nrp_repay_usd (lp_repayment plan) <= q).
Proof using Hcache.
  intros Hacc Hdebt H. unfold build_liquidation_plan in H.
  apply rbind_Ok in H as (u1 & _ & H). apply rbind_Ok in H as (u2 & _ & H).
  apply rbind_Ok in H as (t & Ht & H). apply rbind_Ok in H as (u3 & Hhf & H).
  apply rbind_Ok in H as ([p bb] & Hp & H). apply rbind_Ok in H as (cfg & Hcfg & H).
  apply rbind_Ok in H as (rp & Hrp & H). apply rbind_Ok in H as ([sz ub] & Hsz & H).
  apply rbind_Ok in H as (rp1 & Hrp1 & H). apply rbind_Ok in H as (rp2 & Hrp2 & H).
  apply rbind_Ok in H as ([] & Hfl & H). apply rbind_Ok in H as (u5 & _ & H).
  injection H as <-. simpl.
  apply normalize_Ok in Hrp as (N1 & q & N2 & N3); [|done].
  apply (release_Ok _ _ _ _ N1) in Hrp1 as (R1 & R2 & R3).
  assert (repayment_ok payments rp2 /\ nrp_repay_usd rp2 <= nrp_repay_usd rp1
    /\ nrp_bonus rp2 = nrp_bonus rp1) as (S1 & S2 & S3).
  { destruct (_ && _)%bool in Hrp2; [by apply (release_Ok _ _ _ _ R1) in Hrp2|].
    injection Hrp2 as <-. split_and!; [done|lia|done]. }
  apply (seized_collateral_Ok _ Hcache) in Hsz as (Z1 & Z2 & Z3); [|apply Hacc].
  split; [by constructor; try exact (flags_fold_Ok _ _ _ _ _ Hfl)|].
  exists t, p, bb, cfg, q. apply require_Ok in Hhf. unfold Wad.ONE in Hhf. b2p.
  split_and!; [done|lia|done|done|by rewrite S3, R3|].
  simpl in N3. intros Hi Hq. specialize (N3 Hi Hq). lia.
Qed.

(** An account inside its gates is not liquidatable at the same prices. *)
Lemma gated_plan_fails account payments :
  account_ok account -> require_post_pool_risk_gates cache account = Ok tt ->
  Forall (fun p => enforce_spoke_asset_flags cache (acc_spoke_id account) p.1 AllowOnExit = Ok tt)
    payments ->
  build_liquidation_plan account payments cache = Err (ECollateral HealthFactorTooHigh).
Proof using Hcache.
  intros Ha Hg Hf. unfold build_liquidation_plan.
  destruct (debt_free account) eqn:Ed; [done|]. cbn [rbind].
  assert (rfold (fun _ p => enforce_spoke_asset_flags cache (acc_spoke_id account) p.1 AllowOnExit)
    tt payments = Ok tt) as ->.
  { clear -Hf. induction Hf as [|p l Hp _ IH]; cbn [rfold]; [done|]. by rewrite Hp. }
  cbn [rbind].
  destruct (calculate_account_risk_totals cache _ _) as [t|e] eqn:Et.
  - cbn [rbind]. destruct (gates_pass _ Hcache _ _ Ha Ed Hg Et) as (_ & Hhf & _). unfold Wad.ONE.
    destruct (Z.ltb_spec (rt_health_factor t) WAD); [lia|done].
  - unfold require_post_pool_risk_gates in Hg. rewrite Ed, Et in Hg. done.
Qed.

End Plans.

End LiqPlan.
