(* ===== verification/Sample.v ===== *)
(** * A concrete market

    A seven-decimal asset on hub 1, taken through creation, supply, borrowing and
    a year of accrual by running the contract's entrypoints, and a concrete token
    ledger with a flash-loan receiver that repays.  The theorems about the pool
    are applied to these states. *)

From S2P Require Import Prelude Errors FpCore Fp PoolTypes RatesCurve RatesScaling RatesAccrual PoolCache PoolInterest PoolOps PoolSafety PoolContract PoolSolvency ControllerTypes Risk LiqCurve LiqMath LiqPlan.
From stdpp Require Import base numbers list gmap.
From Stdlib Require Import ZArith Lia Bool.

Open Scope Z_scope.

Module Sample.

Definition controller : Address := mkAddress 1.
Definition usdc : Address := mkAddress 2.
Definition pool_address : Address := mkAddress 3.
Definition alice : Address := mkAddress 4.
Definition bot : Address := mkAddress 5.

Definition env_at (t : Z) : Env :=
  {| ledger_timestamp := t;
     current_contract_address := pool_address;
     authorized := fun a => bool_decide (a = controller) |}.

(** 2%/8%/60%/80% curve with kinks at 50% and 80%, cap at 95%, 10% reserve. *)
Definition params : MarketParamsRaw :=
  {| rp_max_borrow_rate := RAY;
     rp_base_borrow_rate := RAY / 100;
     rp_slope1 := RAY / 50;
     rp_slope2 := RAY / 10;
     rp_slope3 := RAY * 4 / 5;
     rp_mid_utilization := RAY / 2;
     rp_optimal_utilization := RAY * 4 / 5;
     rp_max_utilization := RAY * 19 / 20;
     rp_reserve_factor := 1000;
     rp_is_flashloanable := true;
     rp_flashloan_fee := 9;
     rp_asset_id := usdc;
     rp_asset_decimals := 7 |}.

Definition market : HubAssetKey := mkHubAssetKey 1 usdc.
Definition action (pos amount : Z) : PoolAction :=
  {| pa_position := mkScaledPosition pos; pa_amount := amount; pa_hub_asset := market |}.

Definition ok_or {A : Type} (d : A) (r : res A) : A :=
  match r with Ok a => a | Err _ => d end.

Definition pool0 : Pool := LiquidityPool.constructor controller.
Definition pool1 : Pool := ok_or pool0 (LiquidityPool.create_market (env_at 1000) pool0 1 params).

Definition supply_entry : PoolSupplyEntry := mkPoolSupplyEntry (action 0 10000000000).
Definition supplied := ok_or ([], pool1) (LiquidityPool.supply (env_at 1000) pool1 [supply_entry]).
Definition pool2 : Pool := supplied.2.

Definition borrow_entry : PoolBorrowEntry := mkPoolBorrowEntry (action 0 6000000000).
Definition borrowed := ok_or ([], pool2) (LiquidityPool.borrow (env_at 2000) pool2 alice [borrow_entry]).
Definition pool3 : Pool := borrowed.2.

(** A year later. *)
Definition year_later : Env := env_at 31558926.

(** ** A token ledger *)

Record TokenLedger : Type := mkTokenLedger {
  tl_balances : gmap (Address * Address) Z;
  tl_allowances : gmap (Address * Address * Address) Z
}.

Definition tl_balance (w : TokenLedger) (t a : Address) : Z := default 0 (tl_balances w !! (t, a)).

Definition tl_transfer (w : TokenLedger) (t from to : Address) (n : Z) : res TokenLedger :=
  if tl_balance w t from <? n then Err HostTrap
  else
    let b := <[(t, from) := tl_balance w t from - n]> (tl_balances w) in
    let w := mkTokenLedger b (tl_allowances w) in
    Ok (mkTokenLedger (<[(t, to) := tl_balance w t to + n]> b) (tl_allowances w)).

(** The receiver keeps the loan and approves principal plus fee. *)
#[export] Instance ledger_host : Host TokenLedger := {
  token_balance := tl_balance;
  token_transfer := tl_transfer;
  token_allowance := fun w t o s => default 0 (tl_allowances w !! (t, o, s));
  token_transfer_from := fun w t _ from to n => tl_transfer w t from to n;
  is_wasm_contract := fun _ a => bool_decide (a = bot);
  execute_flash_loan := fun r _ t amount fee pool _ pw =>
    Ok (pw.1, mkTokenLedger (tl_balances pw.2)
                (<[(t, r, pool) := amount + fee]> (tl_allowances pw.2)))
}.

#[export] Instance ledger_no_reentry : NoReentry TokenLedger.
Proof. split. simpl. congruence. Defined.

Definition tokens : TokenLedger :=
  mkTokenLedger (<[(usdc, pool_address) := 4000000000]> {[ (usdc, bot) := 5000000 ]}) ∅.

Lemma pool2_reachable : reachable (W := TokenLedger) pool2.
Proof.
  eapply reach_step; [eapply reach_step; [apply (reach_deploy controller)|]|].
  - eapply (step_create _ (env_at 1000) 1 params pool1); [|vm_compute; reflexivity].
    by vm_compute.
  - apply (step_supply _ (env_at 1000) [supply_entry] supplied.1). vm_compute. reflexivity.
Defined.

Lemma pool3_reachable : reachable (W := TokenLedger) pool3.
Proof.
  eapply reach_step; [apply pool2_reachable|].
  apply (step_borrow _ (env_at 2000) alice [borrow_entry] borrowed.1). vm_compute. reflexivity.
Defined.

Lemma pool2_inv : pool_inv pool2.
Proof. exact (reachable_inv (W := TokenLedger) _ pool2_reachable). Defined.

Lemma pool3_inv : pool_inv pool3.
Proof. exact (reachable_inv (W := TokenLedger) _ pool3_reachable). Defined.

End Sample.

(** ** Concrete liquidations

    An eight-decimal collateral and a seven-decimal debt asset at fixed prices, with
    a healthy, an unhealthy and an insolvent account.  The theorems about
    liquidations are applied to these. *)

Module LiqSample.

Definition btc : HubAssetKey := mkHubAssetKey 1 (mkAddress 10).
Definition usd : HubAssetKey := mkHubAssetKey 1 (mkAddress 11).
Definition spoke : Z := 7.

Definition spoke_cfg : SpokeConfig :=
  {| sc_is_deprecated := false;
     sc_liquidation_target_hf_wad := WAD * 105 / 100;
     sc_hf_for_max_bonus_wad := WAD * 8 / 10;
     sc_liquidation_bonus_factor_bps := 10000 |}.

(** [btc] costs 50,000 dollars, [usd] one. *)
Definition prices : gmap Address PriceFeedRaw :=
  <[asset btc := mkPriceFeedRaw (50000 * WAD) 8 0]> (<[asset usd := mkPriceFeedRaw WAD 7 0]> ∅).

Definition cache : Context :=
  {| ctx_token_prices := prices;
     ctx_market_index := fun _ => Ok (mkMarketIndexRaw (RAY * 12 / 10) (RAY * 11 / 10));
     ctx_spoke_assets := fun _ _ => None;
     ctx_spokes := fun id => if id =? spoke then Some spoke_cfg else None;
     ctx_min_borrow_collateral_usd_wad := 5 * WAD |}.

(** One supplied [btc] share at 75% LTV, 80% threshold, 5% bonus and 10% fees; its
    index makes it worth 55,000 dollars. *)
Definition collateral : AccountPositionRaw := mkAccountPositionRaw RAY 8000 500 7500 1000.

Definition account (debt : Z) : Account :=
  {| acc_owner := mkAddress 4;
     acc_spoke_id := spoke;
     acc_mode := Normal;
     supply_positions := [(btc, collateral)];
     borrow_positions := [(usd, mkDebtPositionRaw (debt * RAY))] |}.

(** Debts of 36,000, 45,600 and 60,000 dollars against a 44,000 dollar limit. *)
Definition healthy : Account := account 30000.
Definition unhealthy : Account := account 38000.
Definition insolvent : Account := account 50000.

(** Offers, in seven-decimal units. *)
Definition offer (amount : Z) : list HubPayment := [(usd, amount * 10000000)].
Definition small_offer : list HubPayment := [(usd, 10000000000); (usd, 25000000000)].

Definition plan_of (a : Account) (l : list HubPayment) : LiqMath.LiquidationPlan :=
  match LiqPlan.build_liquidation_plan a l cache with
  | Ok p => p
  | Err _ => LiqMath.mkLiquidationPlan (LiqMath.mkNormalizedRepaymentPlan [] [] 0 0 false false false) []
  end.

Lemma cache_ok : context_ok cache.
Proof.
  split.
  - intros a f H. unfold cached_price in H.
    apply rbind_Ok in H as (r & Hr & H). injection H as <-. apply of_option_Ok in Hr.
    change (ctx_token_prices cache) with prices in Hr. unfold prices in Hr.
    destruct (decide (a = asset btc)) as [->|N1].
    { rewrite lookup_insert_eq in Hr. injection Hr as <-. split; [zconst|]. split; zconst. }
    rewrite lookup_insert_ne in Hr by congruence.
    destruct (decide (a = asset usd)) as [->|N2].
    { rewrite lookup_insert_eq in Hr. injection Hr as <-. split; [zconst|]. split; zconst. }
    rewrite lookup_insert_ne in Hr by congruence. by rewrite lookup_empty in Hr.
  - intros h m H. unfold cached_market_index in H. simpl in H. injection H as <-.
    split; zconst.
Defined.

Lemma account_is_ok d : 0 <= d <= 100000 -> account_ok (account d).
Proof.
  intros Hd. split; simpl.
  - constructor; [|constructor]. unfold position_ok. simpl.
    assert (RAY <= i128_max) by zconst. assert (0 < RAY) by zconst. assert (BPS = 10000) by done.
    split_and!; lia.
  - constructor; [|constructor]. simpl. assert (0 < RAY) by zconst.
    assert (100000 * RAY <= i128_max) by zconst. nia.
Defined.

Lemma account_debts d :
  0 < d <= 100000 ->
  Forall (fun e => 0 < dpr_scaled_amount e.2 <= i128_max) (borrow_positions (account d)).
Proof.
  intros Hd. constructor; [|constructor]. simpl. assert (0 < RAY) by zconst.
  assert (100000 * RAY <= i128_max) by zconst. nia.
Defined.

End LiqSample.
