(* ===== verification/PoolView.v ===== *)
(** * The pool as the controller sees it
    (contracts/controller/src/context.rs, contracts/controller/src/external/pool.rs)

    Planning code reads indexes only.  [MarketView] is what it relies on, and the
    pool's [get_bulk_indexes] provides it in every well-formed state, so a context
    over a live pool needs nothing but sane prices. *)

From S2P Require Import Prelude Errors FpCore Fp PoolTypes RatesCurve RatesScaling RatesAccrual PoolCache PoolInterest PoolOps PoolSafety PoolContract PoolSolvency ControllerTypes.
From stdpp Require Import base numbers list gmap.
From Stdlib Require Import ZArith Lia Bool.

Open Scope Z_scope.

Class MarketView (view : HubAssetKey -> res MarketIndexRaw) : Prop := {
  mv_range : forall h m, view h = Ok m ->
    RAY <= mi_borrow_index m <= MAX_BORROW_INDEX_RAY
    /\ SUPPLY_INDEX_FLOOR_RAW <= mi_supply_index m <= MAX_SUPPLY_INDEX_RAY
}.

(** What the price aggregator documents of the feeds it returns. *)
Definition prices_ok (prices : gmap Address PriceFeedRaw) : Prop :=
  forall a f, prices !! a = Some f -> 0 < pfr_price_wad f /\ valid_decimals (pfr_asset_decimals f).

Lemma view_context_ok cache :
  MarketView (ctx_market_index cache) -> prices_ok (ctx_token_prices cache) -> context_ok cache.
Proof.
  intros Hv Hp. split.
  - intros a f H. unfold cached_price in H. apply rbind_Ok in H as (r & Hr & H).
    injection H as <-. apply of_option_Ok in Hr. exact (Hp _ _ Hr).
  - intros h m H. unfold cached_market_index in H. apply rbind_Ok in H as (r & Hr & H).
    injection H as <-. destruct (mv_range _ _ Hr) as [Hb Hs]. simpl.
    assert (0 < RAY) by zconst. assert (0 < SUPPLY_INDEX_FLOOR_RAW) by zconst. lia.
Qed.

(** [cached_market_index] on a miss: one [get_bulk_indexes] call, element 0. *)
Definition pool_view (env : Env) (w : Pool) (h : HubAssetKey) : res MarketIndexRaw :=
  let* indexes := LiquidityPool.get_bulk_indexes env w [h] in
  of_option HostTrap (indexes !! 0%nat).

Section View.
Context (env : Env) (w : Pool) (Hw : pool_inv w).

Lemma pool_view_range h m :
  pool_view env w h = Ok m ->
  RAY <= mi_borrow_index m <= MAX_BORROW_INDEX_RAY
  /\ SUPPLY_INDEX_FLOOR_RAW <= mi_supply_index m <= MAX_SUPPLY_INDEX_RAY.
Proof using Hw.
  intros H. unfold pool_view, LiquidityPool.get_bulk_indexes in H. cbn [rfold] in H.
  apply rbind_Ok in H as (l & Hl & H). apply rbind_Ok in Hl as (t & Ht & Hl).
  apply rbind_Ok in Hl as (l' & Hl' & Hl). injection Hl as ->.
  apply rbind_Ok in Hl' as (sync & Hsync & Hl'). apply rbind_Ok in Hl' as (ix & Hix & Hl').
  injection Hl' as <-. simpl in H. injection H as <-.
  assert (exists c, Cache.load env w h = Ok c) as (c & Hc).
  { unfold Cache.load, Storage.load_sync_data in *.
    destruct (Storage.read_params w h); [|done]. destruct (Storage.read_state w h); [|done].
    cbn [rbind]. rewrite Ht. cbn [rbind]. eauto. }
  assert (market_inv c) as Hi.
  { destruct (load_market _ _ _ _ Hc) as (c0 & Hm & Hsame & _).
    apply (same_market_inv c0); [exact Hsame|]. exact (proj1 (proj2 Hw) _ _ Hm). }
  pose proof (PoolInterest.global_sync_simulates env w h c sync t Hi Hc Hsync Ht) as Hs.
  rewrite Hix in Hs. cbn [rbind] in Hs. apply rbind_Ok in Hs as (c' & Hg & Hs).
  assert (Cache.market_index c' = market_index_raw_of ix) as <- by congruence.
  destruct (PoolInterest.global_sync_accrued _ _ Hi Hg) as (_ & Hi' & _).
  inv_ranges Hi'. unfold Cache.market_index. simpl. lia.
Qed.

#[export] Instance pool_market_view : MarketView (pool_view env w).
Proof using Hw. constructor. exact pool_view_range. Qed.

End View.

(** ** What the pool reports back (contracts/pool/src/ops/, contracts/pool/src/cache/report.rs)

    A leg returns the index it committed.  Whoever keeps that index reads what the
    pool itself would answer for the rest of the same ledger: [reported] states it. *)

(** The market of [h] committed at this ledger's time, with the index and decimals
    handed to the caller. *)
Record reported (env : Env) (w' : Pool) (h : HubAssetKey) (m : MarketIndexRaw) (decimals : Z)
    : Prop := {
  rp_view : pool_view env w' h = Ok m;
  rp_decimals : valid_decimals decimals
}.

Lemma reported_index env w' h m dec :
  pool_inv w' -> reported env w' h m dec ->
  RAY <= mi_borrow_index m <= MAX_BORROW_INDEX_RAY
  /\ SUPPLY_INDEX_FLOOR_RAW <= mi_supply_index m <= MAX_SUPPLY_INDEX_RAY.
Proof. intros Hw [Hv _]. exact (pool_view_range env w' Hw h m Hv). Qed.

(** A view depends on the stored market and the time only. *)
Lemma pool_view_same env env' w w' h :
  ledger_timestamp env' = ledger_timestamp env ->
  pool_params w' !! h = pool_params w !! h -> pool_state w' !! h = pool_state w !! h ->
  pool_view env' w' h = pool_view env w h.
Proof.
  intros Ht Hp Hs. unfold pool_view, LiquidityPool.get_bulk_indexes, now_ms. rewrite Ht.
  unfold rfold, Storage.load_sync_data, Storage.read_params, Storage.read_state.
  by rewrite Hp, Hs.
Qed.

Section Results.

Context (env : Env) (w : Pool) (Hw : pool_inv w).

(** A market committed from a synced one. *)
Record committed (h : HubAssetKey) (w' : Pool) (c' : Cache) : Prop := {
  cm_synced : exists c, Ops.synced_market env w h = Ok c
    /\ c_last_timestamp c' = c_last_timestamp c /\ c_params c' = c_params c;
  cm_params : pool_params w' = pool_params w;
  cm_state : pool_state w' = <[h := Cache.to_state c']> (pool_state w)
}.

Lemma committed_reported h w' c' :
  committed h w' c' ->
  reported env w' h (Cache.market_index c') (asset_decimals (c_params c')).
Proof using Hw.
  intros [(c & Hc & Ht & Hp) Hpp Hps]. split.
  - unfold Ops.synced_market in Hc. apply rbind_Ok in Hc as (c0 & Hl & Hg).
    apply PoolInterest.global_sync_timestamp in Hg. unfold Cache.load in Hl.
    apply rbind_Ok in Hl as (rp & Hrp & Hl). apply rbind_Ok in Hl as (rs & Hrs & Hl).
    apply rbind_Ok in Hl as (now & Hnow & Hl). injection Hl as <-. simpl in Hg.
    unfold pool_view, LiquidityPool.get_bulk_indexes. rewrite Hnow. cbn [rbind rfold].
    unfold Storage.load_sync_data, Storage.read_params, Storage.read_state in *.
    rewrite Hpp, Hrp, Hps, lookup_insert_eq. cbn [rbind of_option].
    unfold RatesAccrual.simulate_update_indexes. simpl.
    unfold u64_saturating_sub. rewrite (Z.max_l 0) by lia. reflexivity.
  - apply (vp_dec (c_params c')). rewrite Hp. apply mi_params.
    by eapply synced_inv.
Qed.

(** Transfers and events after the commit change neither parameters nor state. *)
Lemma committed_log h w1 w2 c' :
  committed h w1 c' -> pool_params w2 = pool_params w1 -> pool_state w2 = pool_state w1 ->
  committed h w2 c'.
Proof using. intros [Hs Hp Ht] Hp2 Hs2. split; [done|congruence|congruence]. Qed.

Lemma committed_transfer h w1 w2 c c' r a :
  committed h w1 c' -> Cache.transfer_out c w1 r a = Ok w2 -> committed h w2 c'.
Proof using.
  intros Hc Ht. apply transfer_out_Ok in Ht as (_ & Hp & Hs & _). by eapply committed_log.
Qed.

Lemma committed_write h c c' h' :
  Ops.synced_market env w h = Ok c -> c_last_timestamp c' = c_last_timestamp c ->
  c_params c' = c_params c -> h' = c_hub_asset c ->
  committed h (Storage.write_state w h' (Cache.to_state c')) c'.
Proof using.
  intros Hs Ht Hp ->. split; [by exists c|done|]. simpl. by rewrite (synced_hub _ _ _ _ Hs).
Qed.

Lemma supply_reported e m s w' :
  Ops.Supply.apply env w e = Ok (m, s, w') ->
  reported env w' (pa_hub_asset (se_action e)) (pm_market_index m) (pm_asset_decimals m).
Proof using Hw.
  intros H. unfold Ops.Supply.apply in H. apply rbind_Ok in H as ([c pos] & Hl & H).
  apply load_leg_Ok in Hl as (Hl & _). cbv beta iota in H.
  do 4 apply rbind_Ok in H as (? & _ & H).
  apply rbind_Ok in H as (c1 & Hc1 & H). apply rbind_Ok in H as (c2 & Hc2 & H).
  apply mint_supply_Ok in Hc1 as [-> _]. apply credit_cash_Ok in Hc2 as [-> _].
  simpl in H. injection H as <- <- <-. apply committed_reported.
  by eapply (committed_write _ c).
Qed.

Lemma mint_debt_keeps c pos amount c' pos' :
  Ops.Borrow.mint_debt c pos amount = Ok (c', pos') ->
  c_last_timestamp c' = c_last_timestamp c /\ c_params c' = c_params c
  /\ c_hub_asset c' = c_hub_asset c.
Proof using.
  intros H. unfold Ops.Borrow.mint_debt in H. do 6 apply rbind_Ok in H as (? & _ & H).
  apply rbind_Ok in H as (c3 & Hc3 & H). apply rbind_Ok in H as (? & _ & H).
  apply mint_debt_Ok in Hc3 as [-> _]. by injection H as <- <-.
Qed.

Lemma borrow_reported r e m s w' :
  Ops.Borrow.apply env r w e = Ok (m, s, w') ->
  reported env w' (pa_hub_asset (be_action e)) (pm_market_index m) (pm_asset_decimals m).
Proof using Hw.
  intros H. unfold Ops.Borrow.apply in H. apply rbind_Ok in H as ([o w1] & Ho & H).
  apply rbind_Ok in H as (w2 & Ht & H). injection H as <- <- <-.
  unfold Ops.Borrow.accounting in Ho. apply rbind_Ok in Ho as ([c pos] & Hl & H).
  apply load_leg_Ok in Hl as (Hl & _). apply rbind_Ok in H as ([c1 p1] & Hc1 & H).
  apply rbind_Ok in H as (c2 & Hc2 & H). apply debit_cash_Ok in Hc2 as [-> _].
  apply mint_debt_keeps in Hc1 as (K1 & K2 & K3). simpl in H. injection H as <- <-.
  apply committed_reported. refine (committed_transfer _ _ _ _ _ _ _ _ Ht).
  by eapply (committed_write _ c).
Qed.

Lemma repay_reported p a m s w' :
  Ops.Repay.apply env p w a = Ok (m, s, w') ->
  reported env w' (pa_hub_asset a) (pm_market_index m) (pm_asset_decimals m).
Proof using Hw.
  intros H. unfold Ops.Repay.apply in H. apply rbind_Ok in H as ([o w1] & Ho & H).
  apply rbind_Ok in H as (w2 & Ht & H). injection H as <- <- <-.
  unfold Ops.Repay.accounting in Ho. apply rbind_Ok in Ho as ([c pos] & Hl & H).
  apply load_leg_Ok in Hl as (Hl & _). apply rbind_Ok in H as ([bu ov] & _ & H).
  do 3 apply rbind_Ok in H as (? & _ & H).
  apply rbind_Ok in H as (c1 & Hc1 & H). apply rbind_Ok in H as (c2 & Hc2 & H).
  apply burn_debt_Ok in Hc1 as [-> _]. apply credit_cash_Ok in Hc2 as [-> _].
  simpl in H. injection H as <- <-. apply committed_reported.
  refine (committed_transfer _ _ _ _ _ _ _ _ Ht). by eapply (committed_write _ c).
Qed.

Lemma add_revenue_keeps c fee c' :
  Interest.add_protocol_revenue c fee = Ok c' ->
  c_last_timestamp c' = c_last_timestamp c /\ c_params c' = c_params c
  /\ c_hub_asset c' = c_hub_asset c.
Proof using.
  intros H. unfold Interest.add_protocol_revenue in H.
  destruct (_ =? _); [by injection H as <-|]. apply rbind_Ok in H as (? & _ & H).
  by apply accrue_revenue_Ok in H as [-> _].
Qed.

Lemma withdraw_reported r liq e m s w' :
  Ops.Withdraw.apply env r liq w e = Ok (m, s, w') ->
  reported env w' (pa_hub_asset (we_action e)) (pm_market_index m) (pm_asset_decimals m).
Proof using Hw.
  intros H. unfold Ops.Withdraw.apply in H. apply rbind_Ok in H as ([o w1] & Ho & H).
  apply rbind_Ok in H as (w2 & Ht & H). injection H as <- <- <-.
  unfold Ops.Withdraw.accounting in Ho. apply rbind_Ok in Ho as (? & _ & H).
  apply rbind_Ok in H as ([c pos] & Hl & H). apply load_leg_Ok in Hl as (Hl & _).
  apply rbind_Ok in H as ([b g] & _ & H). apply rbind_Ok in H as ([c1 rem] & Hc1 & H).
  apply rbind_Ok in H as ([c2 net] & Hc2 & H). apply rbind_Ok in H as (c3 & Hc3 & H).
  unfold Ops.Withdraw.burn_position in Hc1. apply rbind_Ok in Hc1 as (c1' & Hc1 & Hr).
  apply rbind_Ok in Hr as (? & _ & Hr). injection Hr as <- _.
  apply burn_supply_Ok in Hc1 as [-> _]. apply gate_and_debit_Ok in Hc3 as [-> _].
  assert (c_last_timestamp c2 = c_last_timestamp c /\ c_params c2 = c_params c
    /\ c_hub_asset c2 = c_hub_asset c) as (K1 & K2 & K3).
  { unfold Ops.Withdraw.withhold_liquidation_fee in Hc2.
    destruct (_ || _)%bool; [by injection Hc2 as <- _|].
    do 2 apply rbind_Ok in Hc2 as (? & _ & Hc2). apply rbind_Ok in Hc2 as (c4 & Hc4 & Hc2).
    apply rbind_Ok in Hc2 as (? & _ & Hc2). injection Hc2 as <- _.
    by apply add_revenue_keeps in Hc4. }
  simpl in H. injection H as <- <-. apply committed_reported.
  assert (committed (pa_hub_asset (we_action e))
    (Storage.write_state w (c_hub_asset c2)
      (Cache.to_state (Cache.set_cash c2 (c_cash c2 - net)))) (Cache.set_cash c2 (c_cash c2 - net)))
    as Hcm by (by eapply (committed_write _ c)).
  simpl in Ht. destruct (_ && _ && _)%bool.
  - injection Ht as <-. by eapply committed_log.
  - exact (committed_transfer _ _ _ _ _ _ _ Hcm Ht).
Qed.

Lemma strategy_reported r a charge m w' :
  Ops.Strategy.apply env w r a charge = Ok (m, w') ->
  reported env w' (pa_hub_asset a) (sm_market_index m) (sm_asset_decimals m).
Proof using Hw.
  intros H. unfold Ops.Strategy.apply in H.
  apply rbind_Ok in H as ([o w1] & Ho & H). apply rbind_Ok in H as (w2 & Ht & H).
  injection H as <- <-.
  unfold Ops.Strategy.accounting, Ops.renewed_market in Ho.
  do 2 apply rbind_Ok in Ho as (? & _ & Ho). apply rbind_Ok in Ho as (c & Hl & Ho).
  apply rbind_Ok in Ho as (fee & _ & Ho). apply rbind_Ok in Ho as ([c1 pos'] & Hc1 & Ho).
  apply rbind_Ok in Ho as (pf & _ & Ho). apply rbind_Ok in Ho as (c2 & Hc2 & Ho).
  apply rbind_Ok in Ho as (snd & _ & Ho). apply rbind_Ok in Ho as (c3 & Hc3 & Ho).
  apply mint_debt_keeps in Hc1 as (K1 & K2 & K3). apply add_revenue_keeps in Hc2 as (L1 & L2 & L3).
  apply debit_cash_Ok in Hc3 as [-> _]. simpl in Ho. injection Ho as <- <-.
  apply committed_reported. eapply committed_log;
    [refine (committed_transfer _ _ _ _ _ _ _ _ Ht); eapply (committed_write _ c);
      simpl; try congruence; exact Hl|..];
    unfold emit_strategy_fee, emit_market_state, emit_market_state_batch;
    destruct (_ =? 0); reflexivity.
Qed.

Lemma net_settle_reported e m s w' :
  Ops.NetSettle.apply env w e = Ok (m, s, w') ->
  exists dec, reported env w' (ns_hub_asset e) (nr_market_index m) dec.
Proof using Hw.
  intros H. unfold Ops.NetSettle.apply in H.
  do 3 apply rbind_Ok in H as (? & _ & H). apply rbind_Ok in H as (c & Hl & H).
  apply rbind_Ok in H as ([[bs bd] g] & Hr & H). cbv beta iota in H.
  apply rbind_Ok in H as (u4 & _ & H). apply rbind_Ok in H as (c1 & Hc1 & H).
  apply rbind_Ok in H as (c2 & Hc2 & H). apply rbind_Ok in H as (u5 & _ & H).
  cbn [Cache.commit] in H. do 2 apply rbind_Ok in H as (? & _ & H).
  apply burn_supply_Ok in Hc1 as [-> _]. apply burn_debt_Ok in Hc2 as [-> _].
  injection H as <- <- <-. eexists. apply committed_reported. by eapply (committed_write _ c).
Qed.

End Results.

(** ** Batches of the pool, seen by their caller

    [backed] relates a pool to the shares someone else keeps: per market, supply
    shares sum to [supplied - revenue] and debts to [borrowed].  A batch is a [chain]
    of legs; it moves the backing by the changes its results report, and every index
    it reports is the one the pool would answer afterwards. *)

Definition backed (w : Pool) (fs fb : HubAssetKey -> Z) : Prop :=
  pool_inv w /\ forall h,
    match market_of w h with
    | Some c => fs h = user_shares c /\ fb h = c_borrowed c
    | None => fs h = 0 /\ fb h = 0
    end.

Lemma backed_ext w fs fb fs' fb' :
  (forall h, fs' h = fs h) -> (forall h, fb' h = fb h) -> backed w fs fb -> backed w fs' fb'.
Proof.
  intros Hs Hb [Hw H]. split; [done|]. intros h. rewrite Hs, Hb. apply H.
Qed.

Lemma backed_same w w' fs fb :
  pool_params w' = pool_params w -> pool_state w' = pool_state w ->
  backed w fs fb -> backed w' fs fb.
Proof.
  intros Hp Hs [(H1 & H2 & H3) H]. unfold market_of in *. split; [split_and!|]; unfold market_of;
    rewrite ?Hp, ?Hs; auto.
Qed.

Definition at_key (k h : HubAssetKey) (d : Z) : Z := if decide (k = h) then d else 0.

Lemma at_key_same h d : at_key h h d = d.
Proof. unfold at_key. by rewrite decide_True. Qed.
Lemma at_key_other k h d : k <> h -> at_key k h d = 0.
Proof. intros Hne. unfold at_key. by rewrite decide_False. Qed.

Lemma backed_leg cap w h w' ds db dc out fs fb :
  backed w fs fb -> leg_effect cap w h w' ds db dc out ->
  backed w' (fun k => fs k + at_key h k ds) (fun k => fb k + at_key h k db).
Proof.
  intros [Hw Ht] He. split; [by eapply leg_effect_inv|]. intros k. specialize (Ht k).
  unfold at_key. destruct (decide (h = k)) as [<-|Hne].
  - destruct He as [(c & c' & Hm & Hm' & _ & _ & Hu & Hbo & _) _ _ _ _].
    rewrite Hm in Ht. rewrite Hm'. lia.
  - rewrite (leg_effect_other _ _ _ _ _ _ _ _ _ He) by congruence.
    destruct (market_of w k); lia.
Qed.

(** The totals of a market fit [i128] and are not negative. *)
Lemma backed_range w fs fb h :
  backed w fs fb -> 0 <= fs h <= i128_max /\ 0 <= fb h <= i128_max.
Proof.
  intros [(_ & Hi & _) H]. specialize (H h). specialize (Hi h).
  assert (0 <= i128_max) by zconst.
  destruct (market_of w h) as [c|]; [|lia]. destruct H as [-> ->].
  destruct (Hi c eq_refl) as [_ H1 H2 H3 _ _ _]. unfold user_shares. lia.
Qed.

Section Chain.

Context {E R : Type} (leg : Pool -> E -> res (R * MarketStateSnapshot * Pool)).

Inductive chain : Pool -> list E -> list R -> Pool -> Prop :=
| chain_nil w : chain w [] [] w
| chain_cons w e es r s w1 rs w' :
    leg w e = Ok (r, s, w1) -> chain w1 es rs w' -> chain w (e :: es) (r :: rs) w'.

Lemma batch_chain u entries b b' :
  rfold (Ops.batch_step u leg) b entries = Ok b' ->
  exists rs, Ops.bs_results b' = Ops.bs_results b ++ rs
    /\ chain (Ops.bs_pool b) entries rs (Ops.bs_pool b').
Proof using.
  revert b. induction entries as [|e es IH]; simpl; intros b H.
  - injection H as <-. exists []. rewrite app_nil_r. split; [done|constructor].
  - apply rbind_Ok in H as (b1 & Hb1 & H). unfold Ops.batch_step in Hb1.
    apply rbind_Ok in Hb1 as ([[r s] w1] & Hl & Hb1). cbv beta iota in Hb1.
    apply rbind_Ok in Hb1 as (ms & _ & Hb1). injection Hb1 as <-.
    apply IH in H as (rs & Hr & Hc). simpl in *. exists (r :: rs).
    rewrite Hr, <- app_assoc. split; [done|]. by econstructor.
Qed.

Lemma run_batch_chain w entries u rs w' :
  Ops.run_batch w entries u leg = Ok (rs, w') ->
  exists w1, chain w entries rs w1 /\ pool_params w' = pool_params w1
    /\ pool_state w' = pool_state w1 /\ pool_owner w' = pool_owner w1.
Proof using.
  intros H. unfold Ops.run_batch in H. apply rbind_Ok in H as (b & Hb & H).
  apply batch_chain in Hb as (rs' & Hr & Hc). simpl in *. injection H as <- <-. subst rs'.
  exists (Ops.bs_pool b). unfold emit_market_state_batch.
  destruct (Ops.bs_snapshots b); done.
Qed.

Lemma chain_length w es rs w' : chain w es rs w' -> length rs = length es.
Proof using. induction 1; simpl; congruence. Qed.

Context (key : E -> HubAssetKey) (ds db : E -> R -> Z).
Context (Heff : forall w e r s w', pool_inv w -> leg w e = Ok (r, s, w') ->
  exists cap dc out, leg_effect cap w (key e) w' (ds e r) (db e r) dc out).

Definition pending (d : E -> R -> Z) (l : list (E * R)) (h : HubAssetKey) : Z :=
  zsum (fun p => at_key (key p.1) h (d p.1 p.2)) l.

Lemma chain_backed w es rs w' :
  chain w es rs w' -> forall fs fb, backed w fs fb ->
  backed w' (fun h => fs h + pending ds (zip es rs) h) (fun h => fb h + pending db (zip es rs) h).
Proof using Heff.
  induction 1 as [w|w e es r s w1 rs w' Hl Hc IH]; intros fs fb Hb.
  - eapply backed_ext; [| |exact Hb]; intros; unfold pending; simpl; lia.
  - destruct (Heff _ _ _ _ _ (proj1 Hb) Hl) as (cap & dc & out & He).
    pose proof (IH _ _ (backed_leg _ _ _ _ _ _ _ _ _ _ Hb He)) as Hb'.
    eapply backed_ext; [| |exact Hb']; intros h; unfold pending; simpl; lia.
Qed.

Lemma chain_inv w es rs w' : pool_inv w -> chain w es rs w' -> pool_inv w'.
Proof using Heff.
  intros Hw Hc. induction Hc as [w|w e es r s w1 rs w' Hl Hc IH]; [done|]. apply IH.
  destruct (Heff _ _ _ _ _ Hw Hl) as (cap & dc & out & He). by eapply leg_effect_inv.
Qed.

(** Markets no leg names keep their parameters and state. *)
Lemma chain_other w es rs w' h :
  pool_inv w -> chain w es rs w' -> h ∉ map key es ->
  pool_params w' !! h = pool_params w !! h /\ pool_state w' !! h = pool_state w !! h.
Proof using Heff.
  intros Hw Hc. induction Hc as [w|w e es r s w1 rs w' Hl Hc IH]; [done|].
  simpl. rewrite not_elem_of_cons. intros [Hne Hnin].
  destruct (Heff _ _ _ _ _ Hw Hl) as (cap & dc & out & He).
  destruct (IH (leg_effect_inv _ _ _ _ _ _ _ _ Hw He) Hnin) as [-> ->].
  by rewrite (le_params _ _ _ _ _ _ _ _ He), (le_state _ _ _ _ _ _ _ _ He).
Qed.

Lemma chain_owner w es rs w' : pool_inv w -> chain w es rs w' -> pool_owner w' = pool_owner w.
Proof using Heff.
  intros Hw Hc. induction Hc as [w|w e es r s w1 rs w' Hl Hc IH]; [done|].
  destruct (Heff _ _ _ _ _ Hw Hl) as (cap & dc & out & He).
  rewrite IH by (by eapply leg_effect_inv). by apply (le_owner _ _ _ _ _ _ _ _ He).
Qed.

(** What the results report holds at the end of the batch. *)
Context (env : Env) (idx : R -> MarketIndexRaw) (dec : R -> Z).
Context (Hrep : forall w e r s w', pool_inv w -> leg w e = Ok (r, s, w') ->
  reported env w' (key e) (idx r) (dec r)).

Lemma chain_reported w es rs w' :
  pool_inv w -> chain w es rs w' -> NoDup (map key es) ->
  Forall (fun p => reported env w' (key p.1) (idx p.2) (dec p.2)) (zip es rs).
Proof using Heff Hrep.
  intros Hw Hc. induction Hc as [w|w e es r s w1 rs w' Hl Hc IH]; intros Hnd; [constructor|].
  simpl in *. apply NoDup_cons in Hnd as [Hnin Hnd].
  destruct (Heff _ _ _ _ _ Hw Hl) as (cap & dc & out & He).
  pose proof (leg_effect_inv _ _ _ _ _ _ _ _ Hw He) as Hw1.
  constructor; [|by apply IH]. simpl.
  destruct (Hrep _ _ _ _ _ Hw Hl) as [Hv Hd]. split; [|done].
  destruct (chain_other _ _ _ _ _ Hw1 Hc Hnin) as [Hp Hs].
  by rewrite (pool_view_same env env w1).
Qed.

(** A property of each leg's request and result. *)
Context (Q : E -> R -> Prop).
Context (HQ : forall w e r s w', pool_inv w -> leg w e = Ok (r, s, w') -> Q e r).

Lemma chain_each w es rs w' :
  pool_inv w -> chain w es rs w' -> Forall (fun p => Q p.1 p.2) (zip es rs).
Proof using Heff HQ.
  intros Hw Hc. induction Hc as [w|w e es r s w1 rs w' Hl Hc IH]; [constructor|].
  destruct (Heff _ _ _ _ _ Hw Hl) as (cap & dc & out & He).
  constructor; [by eapply HQ|]. apply IH. by eapply leg_effect_inv.
Qed.

End Chain.
