(* ===== verification/Account.v ===== *)
(** * Position maps of an account (contracts/controller/src/account.rs,
    common/src/types/controller.rs)

    A Soroban map keeps its keys sorted; [map_set] inserts in key order and
    [map_remove] deletes.  The host compares a struct by its fields in name order,
    the token before the hub; addresses are compared by their identifiers. *)

From S2P Require Import Prelude Errors FpCore Fp PoolTypes ControllerTypes.
From stdpp Require Import base numbers list gmap sorting.
From Stdlib Require Import ZArith Lia Bool.

Open Scope Z_scope.

(** ** Ordered association lists *)

Definition key_ltb (k1 k2 : HubAssetKey) : bool :=
  (address_id (asset k1) <? address_id (asset k2))%N
  || (address_id (asset k1) =? address_id (asset k2))%N && (hub_id k1 <? hub_id k2).

Definition key_lt (k1 k2 : HubAssetKey) : Prop := key_ltb k1 k2 = true.

Fixpoint map_set {V : Type} (m : PositionMap V) (k : HubAssetKey) (v : V) : PositionMap V :=
  match m with
  | [] => [(k, v)]
  | (k', v') :: m' =>
      if bool_decide (k' = k) then (k, v) :: m'
      else if key_ltb k k' then (k, v) :: m
      else (k', v') :: map_set m' k v
  end.

Fixpoint map_remove {V : Type} (m : PositionMap V) (k : HubAssetKey) : PositionMap V :=
  match m with
  | [] => []
  | (k', v') :: m' => if bool_decide (k' = k) then m' else (k', v') :: map_remove m' k
  end.

Definition map_sorted {V : Type} (m : PositionMap V) : Prop :=
  StronglySorted key_lt (map_keys m).

(** ** Operations on accounts *)

Definition upsert_or_remove_position {V : Type} (m : PositionMap V) (h : HubAssetKey)
    (value : option V) : PositionMap V :=
  match value with
  | None => map_remove m h
  | Some v => map_set m h v
  end.

Definition with_supply (a : Account) (m : PositionMap AccountPositionRaw) : Account :=
  {| acc_owner := acc_owner a; acc_spoke_id := acc_spoke_id a; acc_mode := acc_mode a;
     supply_positions := m; borrow_positions := borrow_positions a |}.

Definition with_borrow (a : Account) (m : PositionMap DebtPositionRaw) : Account :=
  {| acc_owner := acc_owner a; acc_spoke_id := acc_spoke_id a; acc_mode := acc_mode a;
     supply_positions := supply_positions a; borrow_positions := m |}.

Definition update_or_remove_supply_position (a : Account) (h : HubAssetKey)
    (position : AccountPosition) : Account :=
  with_supply a (upsert_or_remove_position (supply_positions a) h
    (if negb (ap_scaled_amount position =? Ray.ZERO)
     then Some (raw_of_account_position position) else None)).

Definition raw_of_debt_position (p : DebtPosition) : DebtPositionRaw :=
  mkDebtPositionRaw (dp_scaled_amount p).

Definition update_or_remove_debt_position (a : Account) (h : HubAssetKey)
    (position : DebtPosition) : Account :=
  with_borrow a (upsert_or_remove_position (borrow_positions a) h
    (if negb (dp_scaled_amount position =? Ray.ZERO)
     then Some (raw_of_debt_position position) else None)).

Definition get_or_create_supply_position (a : Account) (h : HubAssetKey) (config : AssetConfig)
    : AccountPosition :=
  match map_get (supply_positions a) h with
  | Some raw => account_position_of_raw raw
  | None =>
      {| ap_scaled_amount := Ray.ZERO;
         ap_liquidation_threshold := ac_liquidation_threshold config;
         ap_liquidation_bonus := ac_liquidation_bonus config;
         ap_loan_to_value := ac_loan_to_value config;
         ap_liquidation_fees := ac_liquidation_fees config |}
  end.

Definition get_or_create_debt_position (a : Account) (h : HubAssetKey) : DebtPosition :=
  match map_get (borrow_positions a) h with
  | Some raw => debt_position_of_raw raw
  | None => mkDebtPosition Ray.ZERO
  end.

Definition account_is_empty (a : Account) : bool :=
  match supply_positions a, borrow_positions a with [], [] => true | _, _ => false end.

(** ** Lemmas *)

Lemma key_lt_spec k1 k2 :
  key_lt k1 k2 <-> (address_id (asset k1) < address_id (asset k2))%N
    \/ address_id (asset k1) = address_id (asset k2) /\ hub_id k1 < hub_id k2.
Proof.
  unfold key_lt, key_ltb. by rewrite orb_true_iff, andb_true_iff, Z.ltb_lt, N.eqb_eq, N.ltb_lt.
Qed.

Lemma key_lt_irrefl k : ~ key_lt k k.
Proof. rewrite key_lt_spec. lia. Qed.

Lemma key_lt_trans k1 k2 k3 : key_lt k1 k2 -> key_lt k2 k3 -> key_lt k1 k3.
Proof. rewrite !key_lt_spec. lia. Qed.

Lemma key_lt_total k1 k2 : k1 <> k2 -> key_ltb k1 k2 = false -> key_lt k2 k1.
Proof.
  intros Hne H. assert (~ key_lt k1 k2) as Hn by (unfold key_lt; congruence).
  rewrite key_lt_spec in *. destruct k1 as [h1 [a1]], k2 as [h2 [a2]]. simpl in *.
  destruct (N.lt_trichotomy a1 a2) as [?|[->|?]]; [lia| |lia].
  assert (h1 <> h2) by congruence. lia.
Qed.

Section Maps.
Context {V : Type}.
Implicit Types m : PositionMap V.

Lemma map_get_None m k : map_get m k = None <-> k ∉ map_keys m.
Proof.
  induction m as [|[k' v'] m IH]; simpl; [split; [by intros _ ?%elem_of_nil|done]|].
  rewrite not_elem_of_cons. case_bool_decide as E; [naive_solver|]. rewrite IH. naive_solver.
Qed.

Lemma map_get_set m k v k' :
  map_get (map_set m k v) k' = if decide (k = k') then Some v else map_get m k'.
Proof.
  induction m as [|[a w] m IH]; simpl.
  { destruct (decide (k = k')); case_bool_decide; done. }
  case_bool_decide as E; [subst a|destruct (key_ltb k a)]; simpl;
    repeat case_bool_decide; repeat destruct (decide _); try rewrite IH; try congruence;
    repeat destruct (decide _); congruence.
Qed.

Lemma map_get_remove_ne m k k' : k <> k' -> map_get (map_remove m k) k' = map_get m k'.
Proof.
  intros Hne. induction m as [|[a w] m IH]; simpl; [done|].
  case_bool_decide; simpl; repeat case_bool_decide; congruence.
Qed.

Lemma map_get_remove_eq m k : map_sorted m -> map_get (map_remove m k) k = None.
Proof.
  unfold map_sorted. induction m as [|[a w] m IH]; simpl; intros Hs; [done|].
  inversion Hs as [|? ? Hs' Hall]; subst. case_bool_decide as E; simpl.
  - subst a. apply map_get_None. intros Hin. rewrite Forall_forall in Hall.
    exact (key_lt_irrefl k (Hall _ Hin)).
  - rewrite bool_decide_false by done. auto.
Qed.

(** Writing an existing key replaces its entry in place. *)
Lemma map_set_replace m k v0 :
  map_sorted m -> map_get m k = Some v0 ->
  exists m1 m2, m = m1 ++ (k, v0) :: m2 /\ forall v, map_set m k v = m1 ++ (k, v) :: m2.
Proof.
  unfold map_sorted. induction m as [|[a w] m IH]; simpl; intros Hs Hg; [done|].
  inversion Hs as [|? ? Hs' Hall]; subst. case_bool_decide as E.
  - injection Hg as ->. subst a. by exists [], m.
  - destruct (key_ltb k a) eqn:Ek.
    + exfalso. assert (map_get m k <> None) as Hin by (by rewrite Hg).
      rewrite map_get_None in Hin. apply dec_stable in Hin.
      rewrite Forall_forall in Hall. specialize (Hall _ Hin).
      exact (key_lt_irrefl k (key_lt_trans _ _ _ Ek Hall)).
    + destruct (IH Hs' Hg) as (m1 & m2 & -> & Hset). exists ((a, w) :: m1), m2.
      split; [done|]. intros v. by rewrite Hset.
Qed.

Lemma map_keys_set m k v k' : k' ∈ map_keys (map_set m k v) <-> k' = k \/ k' ∈ map_keys m.
Proof.
  induction m as [|[a w] m IH]; simpl; [by rewrite list_elem_of_singleton, elem_of_nil; naive_solver|].
  case_bool_decide as E; [subst; simpl|destruct (key_ltb k a); simpl];
    rewrite ?elem_of_cons, ?IH; naive_solver.
Qed.

Lemma map_set_sorted m k v : map_sorted m -> map_sorted (map_set m k v).
Proof.
  unfold map_sorted. induction m as [|[a w] m IH]; simpl; intros Hs.
  { repeat constructor. }
  inversion Hs as [|? ? Hs' Hall]; subst. case_bool_decide as E; [by subst|].
  destruct (key_ltb k a) eqn:Ek; simpl.
  - constructor; [done|]. constructor; [done|]. eapply Forall_impl; [exact Hall|].
    intros x Hx. exact (key_lt_trans _ _ _ Ek Hx).
  - constructor; [auto|]. apply Forall_forall. intros x Hx.
    apply map_keys_set in Hx as [->|Hx]; [|by rewrite Forall_forall in Hall; auto].
    apply key_lt_total; congruence.
Qed.

Lemma map_remove_sorted m k : map_sorted m -> map_sorted (map_remove m k).
Proof.
  unfold map_sorted. induction m as [|[a w] m IH]; simpl; intros Hs; [done|].
  inversion Hs as [|? ? Hs' Hall]; subst. case_bool_decide; [done|]. simpl.
  constructor; [auto|]. apply Forall_forall. intros x Hx. rewrite Forall_forall in Hall.
  apply Hall. clear -Hx. induction m as [|[b u] m IH]; simpl in *; [done|].
  case_bool_decide; [by right|]. apply elem_of_cons in Hx as [->|Hx]; [by left|right; auto].
Qed.

End Maps.
