(* ===== verification/SpokeUsage.v ===== *)
(** * Spoke usage and caps (contracts/controller/src/spoke_usage.rs,
    contracts/controller/src/storage/spoke.rs)

    A flow buffers the usage of one spoke in memory, checks caps on entries, and
    writes the buffer back at its end; rows that reach zero are deleted. *)

From S2P Require Import Prelude Errors FpCore Fp PoolTypes RatesScaling ControllerTypes.
From stdpp Require Import base numbers list gmap.
From Stdlib Require Import ZArith Lia Bool.

Open Scope Z_scope.

Module SpokeUsage.

Import RatesScaling.

Record SpokeUsageRaw : Type := mkSpokeUsageRaw {
  supplied_scaled_ray : Z;
  borrowed_scaled_ray : Z
}.

(** [unwrap_or_default] *)
Definition no_usage : SpokeUsageRaw := mkSpokeUsageRaw 0 0.

Inductive UsageSide : Type := SupplySide | BorrowSide.

#[export] Instance UsageSide_eq_dec : EqDecision UsageSide.
Proof. solve_decision. Defined.

Definition scaled (side : UsageSide) (usage : SpokeUsageRaw) : Z :=
  match side with
  | SupplySide => supplied_scaled_ray usage
  | BorrowSide => borrowed_scaled_ray usage
  end.

Definition set_scaled (side : UsageSide) (usage : SpokeUsageRaw) (value : Z) : SpokeUsageRaw :=
  match side with
  | SupplySide => mkSpokeUsageRaw value (borrowed_scaled_ray usage)
  | BorrowSide => mkSpokeUsageRaw (supplied_scaled_ray usage) value
  end.

Definition cap (side : UsageSide) (cfg : SpokeAssetConfig) : Z :=
  match side with SupplySide => sa_supply_cap cfg | BorrowSide => sa_borrow_cap cfg end.

Definition index (side : UsageSide) (market_index : MarketIndexRaw) : Ray :=
  match side with
  | SupplySide => mi_supply_index market_index
  | BorrowSide => mi_borrow_index market_index
  end.

Definition cap_error (side : UsageSide) : SpokeError :=
  match side with SupplySide => SpokeSupplyCapReached | BorrowSide => SpokeBorrowCapReached end.

(** ** The stored rows *)

Abbreviation UsageStore := (gmap (Z * HubAssetKey) SpokeUsageRaw).

Definition get_spoke_usage (st : UsageStore) (spoke_id : Z) (h : HubAssetKey)
    : option SpokeUsageRaw := st !! (spoke_id, h).

Definition set_spoke_usage (st : UsageStore) (spoke_id : Z) (h : HubAssetKey)
    (usage : SpokeUsageRaw) : UsageStore :=
  if (supplied_scaled_ray usage =? 0) && (borrowed_scaled_ray usage =? 0)
  then delete (spoke_id, h) st
  else <[(spoke_id, h) := usage]> st.

(** ** The buffer *)

Record SpokeUsageContext : Type := mkSpokeUsageContext {
  suc_spoke_id : Z;
  suc_usage : gmap HubAssetKey SpokeUsageRaw
}.

Definition new (spoke_id : Z) : SpokeUsageContext := mkSpokeUsageContext spoke_id ∅.

Definition set_row (ctx : SpokeUsageContext) (h : HubAssetKey) (usage : SpokeUsageRaw)
    : SpokeUsageContext := mkSpokeUsageContext (suc_spoke_id ctx) (<[h := usage]> (suc_usage ctx)).

Definition load_usage_row (st : UsageStore) (ctx : SpokeUsageContext) (h : HubAssetKey)
    : option SpokeUsageRaw * SpokeUsageContext :=
  match suc_usage ctx !! h with
  | Some usage => (Some usage, ctx)
  | None =>
      match get_spoke_usage st (suc_spoke_id ctx) h with
      | None => (None, ctx)
      | Some loaded => (Some loaded, set_row ctx h loaded)
      end
  end.

Definition enforce_spoke_cap (side : UsageSide) (usage : SpokeUsageRaw) (delta_scaled : Ray)
    (cap : Z) (index : Ray) (decimals : Z) : res Ray :=
  let* cap_scaled := calculate_scaled_cap cap decimals index in
  let* next_scaled := Ray.checked_add (scaled side usage) delta_scaled in
  do! require (next_scaled <=? cap_scaled) (ESpoke (cap_error side)) in
  Ok next_scaled.

Definition apply_entry (st : UsageStore) (ctx : SpokeUsageContext) (side : UsageSide)
    (h : HubAssetKey) (delta_scaled : Ray) (cap : Z) (index : Ray) (decimals : Z)
    : res SpokeUsageContext :=
  let (row, ctx) := load_usage_row st ctx h in
  let usage := default no_usage row in
  let* next := enforce_spoke_cap side usage delta_scaled cap index decimals in
  Ok (set_row ctx h (set_scaled side usage next)).

Definition apply_exit (st : UsageStore) (ctx : SpokeUsageContext) (side : UsageSide)
    (h : HubAssetKey) (delta_scaled : Ray) : res SpokeUsageContext :=
  if delta_scaled =? Ray.ZERO then Ok ctx
  else
    let (row, ctx) := load_usage_row st ctx h in
    match row with
    | None => Ok ctx
    | Some usage =>
        let* next := of_option (EGeneric MathOverflow)
                       (i128_checked_sub (scaled side usage) delta_scaled) in
        do! require (0 <=? next) (EGeneric InternalError) in
        Ok (set_row ctx h (set_scaled side usage next))
    end.

Definition persist (st : UsageStore) (ctx : SpokeUsageContext) : UsageStore :=
  map_fold (fun h usage st => set_spoke_usage st (suc_spoke_id ctx) h usage) st (suc_usage ctx).

(** [Context::apply_spoke_entry]: the cap and index of the listing. *)
Definition apply_spoke_entry (cache : Context) (st : UsageStore) (ctx : SpokeUsageContext)
    (side : UsageSide) (h : HubAssetKey) (delta_scaled : Ray) (market_index : MarketIndexRaw)
    (decimals : Z) : res SpokeUsageContext :=
  let* cfg := require_spoke_asset_config cache (suc_spoke_id ctx) h in
  apply_entry st ctx side h delta_scaled (cap side cfg) (index side market_index) decimals.

(** ** Usage as a function of market and side *)

(** What a row is worth: absent rows are zero. *)
Definition used (st : UsageStore) (spoke : Z) (h : HubAssetKey) (side : UsageSide) : Z :=
  scaled side (default no_usage (get_spoke_usage st spoke h)).

(** The row a flow sees: the buffer shadows the store. *)
Definition row_of (st : UsageStore) (ctx : SpokeUsageContext) (h : HubAssetKey)
    : option SpokeUsageRaw :=
  match suc_usage ctx !! h with
  | Some u => Some u
  | None => get_spoke_usage st (suc_spoke_id ctx) h
  end.

Definition seen (st : UsageStore) (ctx : SpokeUsageContext) (h : HubAssetKey) (side : UsageSide)
    : Z := scaled side (default no_usage (row_of st ctx h)).

Lemma scaled_set side side' u v :
  scaled side' (set_scaled side u v) = if decide (side' = side) then v else scaled side' u.
Proof. by destruct side, side'. Qed.

Lemma load_row_Ok st ctx h row ctx' :
  load_usage_row st ctx h = (row, ctx') ->
  row = row_of st ctx h /\ suc_spoke_id ctx' = suc_spoke_id ctx
  /\ (forall k, row_of st ctx' k = row_of st ctx k).
Proof.
  unfold load_usage_row, row_of. destruct (suc_usage ctx !! h) as [u|] eqn:E.
  { intros [= <- <-]. done. }
  destruct (get_spoke_usage st (suc_spoke_id ctx) h) as [u|] eqn:E2; intros [= <- <-]; [|done].
  split_and!; [done|done|]. intros k. simpl. destruct (decide (h = k)) as [<-|].
  - by rewrite lookup_insert_eq, E, E2.
  - by rewrite lookup_insert_ne by done.
Qed.

Lemma row_of_set st ctx h u k :
  row_of st (set_row ctx h u) k = if decide (h = k) then Some u else row_of st ctx k.
Proof.
  unfold row_of. simpl. destruct (decide (h = k)) as [<-|].
  - by rewrite lookup_insert_eq.
  - by rewrite lookup_insert_ne by done.
Qed.

(** An entry adds its delta to one side of one market, and only while the new usage,
    at the market's index, is worth at most the cap. *)
Lemma apply_entry_Ok st ctx side h d c ix dec ctx' :
  valid_decimals dec -> 0 <= c -> 0 < ix ->
  apply_entry st ctx side h d c ix dec = Ok ctx' ->
  suc_spoke_id ctx' = suc_spoke_id ctx
  /\ (forall k s, seen st ctx' k s
       = seen st ctx k s + if decide (k = h /\ s = side) then d else 0)
  /\ seen st ctx' h side * ix <= c * unit_of dec * RAY.
Proof.
  intros Hdec Hc Hix H. unfold apply_entry in H.
  destruct (load_usage_row st ctx h) as [row ctx1] eqn:E.
  apply load_row_Ok in E as (-> & Hid & Hrow).
  apply rbind_Ok in H as (n & Hn & H). injection H as <-. unfold enforce_spoke_cap in Hn.
  apply rbind_Ok in Hn as (cs & Hcs & Hn). apply rbind_Ok in Hn as (nx & Hnx & Hn).
  apply rbind_Ok in Hn as (u & Hu & Hn). injection Hn as <-. apply require_Ok in Hu.
  unfold calculate_scaled_cap in Hcs. apply rbind_Ok in Hcs as (r & Hr & Hcs).
  apply from_asset_Ok in Hr as [-> _]; [|done]. fp_inv. b2p.
  pose proof (unit_of_pos dec Hdec). pose proof RAY_pos. assert (0 <= c * unit_of dec) by nia.
  assert (cs * ix <= c * unit_of dec * RAY) as Hcap.
  { pose proof (floor_div_bounds (c * unit_of dec * RAY) ix Hix).
    pose proof (floor_div_nonneg (c * unit_of dec * RAY) ix Hix ltac:(nia)).
    assert (cs <= floor_div (c * unit_of dec * RAY) ix); [|nia].
    subst cs. unfold FpCore.clamp_i128. assert (i128_min <= 0) by zconst. lia. }
  split_and!; [exact Hid| |].
  - intros k s. unfold seen. rewrite row_of_set, Hrow. destruct (decide (h = k)) as [<-|Hne].
    + simpl. rewrite scaled_set. destruct (decide (s = side)) as [->|].
      * rewrite decide_True by done. lia.
      * rewrite decide_False by naive_solver. lia.
    + rewrite decide_False by naive_solver. lia.
  - unfold seen. rewrite row_of_set, decide_True by done. simpl.
    rewrite scaled_set, decide_True by done. nia.
Qed.

(** An exit removes its delta where the market has a row and does nothing elsewhere;
    it never drives usage negative. *)
Lemma apply_exit_Ok st ctx side h d ctx' :
  apply_exit st ctx side h d = Ok ctx' ->
  suc_spoke_id ctx' = suc_spoke_id ctx
  /\ (forall k s, seen st ctx' k s = seen st ctx k s
       - if decide (k = h /\ s = side /\ row_of st ctx h <> None) then d else 0)
  /\ (d <> 0 -> row_of st ctx h <> None -> 0 <= seen st ctx' h side).
Proof.
  intros H. unfold apply_exit, Ray.ZERO in H. destruct (Z.eqb_spec d 0) as [->|Hd].
  { injection H as <-. split_and!; [done| |lia]. intros k s. destruct (decide _); lia. }
  destruct (load_usage_row st ctx h) as [row ctx1] eqn:E.
  apply load_row_Ok in E as (-> & Hid & Hrow).
  destruct (row_of st ctx h) as [usage|] eqn:Er.
  - apply rbind_Ok in H as (n & Hn & H). apply rbind_Ok in H as (u & Hu & H). injection H as <-.
    apply of_option_Ok, i128_checked_Some in Hn as [-> _]. apply require_Ok in Hu. b2p.
    split_and!; [exact Hid| |].
    + intros k s. unfold seen. rewrite row_of_set, Hrow. destruct (decide (h = k)) as [<-|Hne].
      * simpl. rewrite Er, scaled_set. simpl. destruct (decide (s = side)) as [->|].
        -- rewrite decide_True by done. lia.
        -- rewrite decide_False by naive_solver. lia.
      * rewrite decide_False by naive_solver. lia.
    + intros _ _. unfold seen. rewrite row_of_set, decide_True by done. simpl.
      rewrite scaled_set, decide_True by done. lia.
  - injection H as <-. split_and!; [exact Hid| |done]. intros k s. unfold seen. rewrite Hrow.
    rewrite decide_False by naive_solver. lia.
Qed.

(** Writing the buffer back publishes exactly what the flow saw, and touches no other
    spoke. *)
Lemma persist_Ok st ctx :
  (forall h s, used (persist st ctx) (suc_spoke_id ctx) h s = seen st ctx h s)
  /\ (forall spoke h s, spoke <> suc_spoke_id ctx -> used (persist st ctx) spoke h s = used st spoke h s).
Proof.
  unfold persist, seen, row_of.
  apply (map_fold_weak_ind (fun st' m =>
    (forall h s, used st' (suc_spoke_id ctx) h s
       = scaled s (default no_usage (match m !! h with Some u => Some u
                                     | None => get_spoke_usage st (suc_spoke_id ctx) h end)))
    /\ (forall spoke h s, spoke <> suc_spoke_id ctx -> used st' spoke h s = used st spoke h s))).
  - split; [|done]. intros h s. by rewrite lookup_empty.
  - intros h u m st' Hm [IH1 IH2]. unfold set_spoke_usage, used, get_spoke_usage in *. split.
    + intros k s. destruct (decide (h = k)) as [<-|Hne].
      * rewrite lookup_insert_eq. destruct (_ && _)%bool eqn:E.
        -- rewrite lookup_delete_eq. b2p. destruct u, s; simpl in *; lia.
        -- by rewrite lookup_insert_eq.
      * rewrite lookup_insert_ne by done. rewrite <- IH1.
        destruct (_ && _)%bool; [rewrite lookup_delete_ne by congruence|
          rewrite lookup_insert_ne by congruence]; done.
    + intros spoke k s Hne. rewrite <- (IH2 spoke k s Hne).
      destruct (_ && _)%bool; [rewrite lookup_delete_ne by congruence|
        rewrite lookup_insert_ne by congruence]; done.
Qed.

(** ** Flows *)

(** The usage changes a flow makes, in order. *)
Inductive UsageOp : Type :=
| Enter (side : UsageSide) (h : HubAssetKey) (delta cap : Z) (index : Ray) (decimals : Z)
| Leave (side : UsageSide) (h : HubAssetKey) (delta : Z).

Definition apply_op (st : UsageStore) (ctx : SpokeUsageContext) (op : UsageOp)
    : res SpokeUsageContext :=
  match op with
  | Enter side h d c ix dec => apply_entry st ctx side h d c ix dec
  | Leave side h d => apply_exit st ctx side h d
  end.

(** A whole flow: a fresh buffer, the changes, the write-back. *)
Definition run_flow (st : UsageStore) (spoke : Z) (ops : list UsageOp) : res UsageStore :=
  let* ctx := rfold (apply_op st) (new spoke) ops in
  Ok (persist st ctx).

Definition delta_of (h : HubAssetKey) (s : UsageSide) (op : UsageOp) : Z :=
  match op with
  | Enter side k d _ _ _ => if decide (h = k /\ s = side) then d else 0
  | Leave side k d => if decide (h = k /\ s = side) then - d else 0
  end.

Definition op_ok (op : UsageOp) : Prop :=
  match op with
  | Enter _ _ _ c ix dec => 0 <= c /\ 0 < ix /\ valid_decimals dec
  | Leave _ _ _ => True
  end.

Lemma row_kept_entry st ctx side h d c ix dec ctx' k :
  apply_entry st ctx side h d c ix dec = Ok ctx' ->
  row_of st ctx k <> None -> row_of st ctx' k <> None.
Proof.
  intros H Hk. unfold apply_entry in H. destruct (load_usage_row st ctx h) as [row ctx1] eqn:E.
  apply load_row_Ok in E as (-> & _ & Hrow). apply rbind_Ok in H as (n & _ & H).
  injection H as <-. rewrite row_of_set, Hrow. by destruct (decide (h = k)).
Qed.

Lemma row_kept_exit st ctx side h d ctx' k :
  apply_exit st ctx side h d = Ok ctx' ->
  row_of st ctx k <> None -> row_of st ctx' k <> None.
Proof.
  intros H Hk. unfold apply_exit in H. destruct (d =? Ray.ZERO); [by injection H as <-|].
  destruct (load_usage_row st ctx h) as [row ctx1] eqn:E.
  apply load_row_Ok in E as (-> & _ & Hrow). destruct (row_of st ctx h).
  - apply rbind_Ok in H as (n & _ & H). apply rbind_Ok in H as (u & _ & H).
    injection H as <-. rewrite row_of_set, Hrow. by destruct (decide (h = k)).
  - injection H as <-. by rewrite Hrow.
Qed.

Lemma ops_seen st ops ctx ctx' h s :
  Forall op_ok ops -> row_of st ctx h <> None ->
  rfold (apply_op st) ctx ops = Ok ctx' ->
  suc_spoke_id ctx' = suc_spoke_id ctx
  /\ seen st ctx' h s = seen st ctx h s + zsum (delta_of h s) ops.
Proof.
  intros Hops. revert ctx. induction Hops as [|op ops Hop _ IH]; simpl; intros ctx Hrow H.
  { injection H as <-. split; [done|lia]. }
  apply rbind_Ok in H as (c1 & H1 & H). destruct op as [side k d c ix dec|side k d]; simpl in *.
  - destruct Hop as (O1 & O2 & O3).
    pose proof (row_kept_entry _ _ _ _ _ _ _ _ _ h H1 Hrow) as Hrow1.
    apply apply_entry_Ok in H1 as (Hid & Hseen & _); [|done..].
    destruct (IH c1 Hrow1 H) as [Hid' ->]. rewrite Hid', Hid, Hseen. split; [done|lia].
  - pose proof (row_kept_exit _ _ _ _ _ _ h H1 Hrow) as Hrow1.
    apply apply_exit_Ok in H1 as (Hid & Hseen & _).
    destruct (IH c1 Hrow1 H) as [Hid' ->]. rewrite Hid', Hid, Hseen. split; [done|].
    destruct (decide (h = k /\ s = side)) as [[-> ->]|Hne].
    + rewrite decide_True by done. lia.
    + rewrite decide_False by naive_solver. lia.
Qed.

End SpokeUsage.
