(* ===== verification/RiskParams.v ===== *)
(** * Stored risk parameters (contracts/controller/src/risk/params.rs)

    A supply position carries the risk tuple it was last stamped with.  A refresh
    always adopts the listing's LTV; it adopts the liquidation tuple unless that
    would favour liquidators of an indebted account that is not safely healthy. *)

From S2P Require Import Prelude Errors FpCore Fp PoolTypes RatesCurve RatesScaling ControllerTypes Account Risk.
From stdpp Require Import base numbers list gmap.
From Stdlib Require Import ZArith Lia Bool.

Open Scope Z_scope.

Module RiskParams.

Import RatesScaling Risk.

(** [constants.rs] *)
Definition THRESHOLD_UPDATE_MIN_HF_RAW : Z := 1050000000000000000.

Inductive RiskRefreshScope : Type := LtvOnly | FullTuple.

#[export] Instance RiskRefreshScope_eq_dec : EqDecision RiskRefreshScope.
Proof. solve_decision. Defined.

Definition favors_liquidator (position : AccountPosition) (cfg : AssetConfig) : bool :=
  (ac_liquidation_threshold cfg <? ap_liquidation_threshold position)
  || (ap_liquidation_bonus position <? ac_liquidation_bonus cfg)
  || (ac_liquidation_fees cfg <? ap_liquidation_fees position).

Definition with_ltv (p : AccountPosition) (ltv : Bps) : AccountPosition :=
  {| ap_scaled_amount := ap_scaled_amount p;
     ap_liquidation_threshold := ap_liquidation_threshold p;
     ap_liquidation_bonus := ap_liquidation_bonus p;
     ap_loan_to_value := ltv;
     ap_liquidation_fees := ap_liquidation_fees p |}.

Definition with_tuple (p : AccountPosition) (threshold bonus fees : Bps) : AccountPosition :=
  {| ap_scaled_amount := ap_scaled_amount p;
     ap_liquidation_threshold := threshold;
     ap_liquidation_bonus := bonus;
     ap_loan_to_value := ap_loan_to_value p;
     ap_liquidation_fees := fees |}.

Definition clears_min_hf (cache : Context) (account : Account) (h : HubAssetKey)
    (position : AccountPosition) (new_lt : Bps) : res bool :=
  let hypothetical :=
    with_tuple position new_lt (ap_liquidation_bonus position) (ap_liquidation_fees position) in
  let supply := map_set (supply_positions account) h (raw_of_account_position hypothetical) in
  let* totals := calculate_account_risk_totals cache supply (borrow_positions account) in
  Ok (THRESHOLD_UPDATE_MIN_HF_RAW <=? rt_health_factor totals).

Definition apply_gated_liquidation_params (cache : Context) (account : Account)
    (h : HubAssetKey) (position : AccountPosition) (cfg : AssetConfig) : res AccountPosition :=
  let* blocked :=
    (if favors_liquidator position cfg && negb (debt_free account) then
       let* clears := clears_min_hf cache account h position (ac_liquidation_threshold cfg) in
       Ok (negb clears)
     else Ok false) in
  Ok (if blocked : bool then position
      else with_tuple position (ac_liquidation_threshold cfg) (ac_liquidation_bonus cfg)
             (ac_liquidation_fees cfg)).

Definition refresh_supply_risk_params (cache : Context) (account : Account) (h : HubAssetKey)
    (position : AccountPosition) (cfg : AssetConfig) (scope : RiskRefreshScope)
    : res (AccountPosition * bool) :=
  let before := position in
  let position := with_ltv position (ac_loan_to_value cfg) in
  let* position :=
    (if bool_decide (scope = FullTuple)
     then apply_gated_liquidation_params cache account h position cfg
     else Ok position) in
  Ok (position, negb (bool_decide (position = before))).

(** A buffered [ParamUpd] record: market, supply index, position. *)
Record ParamUpdate : Type := mkParamUpdate {
  pu_hub_asset : HubAssetKey;
  pu_supply_index : Z;
  pu_position : AccountPosition
}.

Record RestampState : Type := mkRestampState {
  rst_account : Account;
  rst_updates : list ParamUpdate;
  rst_changed : bool
}.

(** One leg; the first change fetches the indexes of the whole portfolio, whose keys
    are [keys] and the debts. *)
Definition restamp_step (cache : Context) (keys : list HubAssetKey) (s : RestampState)
    (h : HubAssetKey) : res RestampState :=
  let account := rst_account s in
  match cached_spoke_asset cache (acc_spoke_id account) h with
  | None => Ok s
  | Some listed =>
      let config := asset_config_of listed in
      match map_get (supply_positions account) h with
      | None => Ok s
      | Some raw =>
          let position := account_position_of_raw raw in
          if ap_loan_to_value position =? ac_loan_to_value config then Ok s
          else
            let position := with_ltv position (ac_loan_to_value config) in
            let account := update_or_remove_supply_position account h position in
            do! (if rst_changed s then Ok tt
                 else rfold (fun _ k => let* _ := cached_market_index cache k in Ok tt) tt
                        (portfolio_hub_keys keys (map_keys (borrow_positions account)))) in
            let* market_index := cached_market_index cache h in
            Ok {| rst_account := account;
                  rst_updates := rst_updates s
                    ++ [mkParamUpdate h (supply_index market_index) position];
                  rst_changed := true |}
      end
  end.

Definition restamp_listed_supply_ltv (cache : Context) (account : Account)
    : res RestampState :=
  let keys := map_keys (supply_positions account) in
  rfold (restamp_step cache keys) (mkRestampState account [] false) keys.

(** [positions/mod.rs]: the gates, over freshly stamped LTVs. *)
Definition enforce_post_pool_solvency (cache : Context) (account : Account)
    : res RestampState :=
  let* s := restamp_listed_supply_ltv cache account in
  do! require_post_pool_risk_gates cache (rst_account s) in
  Ok s.

(** ** Weighted collateral grows with thresholds *)

(** Same market and shares, at least the threshold. *)
Definition leg_le (e1 e2 : HubAssetKey * AccountPositionRaw) : Prop :=
  e1.1 = e2.1 /\ apr_scaled_amount e1.2 = apr_scaled_amount e2.2
  /\ apr_liquidation_threshold e1.2 <= apr_liquidation_threshold e2.2.

Section Mono.
Context (cache : Context) (Hcache : context_ok cache).

Lemma collateral_step_weighted s h p s' :
  collateral_step cache s (h, p) = Ok s' ->
  exists f m g w, cached_price cache (asset h) = Ok f /\ cached_market_index cache h = Ok m
    /\ position_value_floor (ap_scaled_amount p) (supply_index m) (pf_price f) = Ok g
    /\ Bps.apply_to_wad_floor (ap_liquidation_threshold p) g = Ok w
    /\ cs_weighted s' = cs_weighted s + w.
Proof.
  intros H. unfold collateral_step in H.
  apply rbind_Ok in H as (f & Hf & H). apply rbind_Ok in H as (m & Hm & H).
  apply rbind_Ok in H as (v & Hv & H). apply rbind_Ok in H as (g & Hg & H).
  apply rbind_Ok in H as (t & Ht & H). apply rbind_Ok in H as (l & Hl & H).
  apply rbind_Ok in H as (l' & Hl' & H). apply rbind_Ok in H as (w & Hw & H).
  apply rbind_Ok in H as (w' & Hw' & H). injection H as <-. apply checked_add_Ok in Hw' as [-> _].
  exists f, m, g, w. done.
Qed.

Lemma collateral_fold_weighted l1 l2 s1 s2 r1 r2 :
  Forall2 leg_le l1 l2 -> Forall (fun e => 0 <= apr_scaled_amount e.2) l1 ->
  cs_weighted s1 <= cs_weighted s2 ->
  rfold (collateral_step cache) s1 (iter_typed_positions l1) = Ok r1 ->
  rfold (collateral_step cache) s2 (iter_typed_positions l2) = Ok r2 ->
  cs_weighted r1 <= cs_weighted r2.
Proof using Hcache.
  intros Hl. revert s1 s2. induction Hl as [|[h1 p1] [h2 p2] l1 l2 (Hk & Hs & Ht) _ IH];
    cbn [iter_typed_positions map rfold]; intros s1 s2 Hp Hle H1 H2.
  { injection H1 as <-. injection H2 as <-. done. }
  apply rbind_Ok in H1 as (t1 & T1 & H1). apply rbind_Ok in H2 as (t2 & T2 & H2).
  apply Forall_cons in Hp as [Hp0 Hp]. cbn [fst snd] in *. subst h2.
  apply collateral_step_weighted in T1 as (f & m & g & w & Hf & Hm & Hg & Hw & E1).
  apply collateral_step_weighted in T2 as (f' & m' & g' & w' & Hf' & Hm' & Hg' & Hw' & E2).
  rewrite Hf in Hf'. injection Hf' as <-. rewrite Hm in Hm'. injection Hm' as <-.
  cbn [account_position_of_raw ap_scaled_amount ap_liquidation_threshold] in *.
  rewrite <- Hs, Hg in Hg'. injection Hg' as <-.
  destruct (co_price _ Hcache _ _ Hf) as [Hpr _]. destruct (co_index _ Hcache _ _ Hm) as [_ Hsi].
  assert (0 <= g) by (eapply position_value_floor_nonneg; [..|exact Hg]; lia).
  pose proof (apply_to_wad_floor_mono _ _ g _ _ ltac:(lia) Ht Hw Hw').
  eapply IH; [exact Hp| |exact H1|exact H2]. lia.
Qed.

(** Raising thresholds keeps a healthy account healthy. *)
Lemma health_monotone a1 a2 t1 t2 :
  account_ok a1 -> account_ok a2 -> borrow_positions a2 = borrow_positions a1 ->
  Forall2 leg_le (supply_positions a1) (supply_positions a2) ->
  calculate_account_risk_totals cache (supply_positions a1) (borrow_positions a1) = Ok t1 ->
  calculate_account_risk_totals cache (supply_positions a2) (borrow_positions a2) = Ok t2 ->
  WAD <= rt_health_factor t1 -> WAD <= rt_health_factor t2.
Proof using Hcache.
  intros Ha1 Ha2 Hb Hl H1 H2 Hhf.
  destruct (risk_totals_facts _ Hcache _ _ Ha1 H1) as (_ & _ & _ & _ & F1).
  destruct (risk_totals_facts _ Hcache _ _ Ha2 H2) as (_ & _ & _ & _ & F2).
  assert (rt_weighted_collateral t1 <= rt_weighted_collateral t2
    /\ rt_total_debt t2 = rt_total_debt t1) as [Hw Hd]; [|lia].
  unfold calculate_account_risk_totals in H1, H2. rewrite Hb in H2.
  apply rbind_Ok in H1 as (s1 & S1 & H1). apply rbind_Ok in H1 as (d1 & D1 & H1).
  apply rbind_Ok in H1 as (h1 & _ & H1). injection H1 as <-.
  apply rbind_Ok in H2 as (s2 & S2 & H2). apply rbind_Ok in H2 as (d2 & D2 & H2).
  apply rbind_Ok in H2 as (h2 & _ & H2). injection H2 as <-. simpl.
  rewrite D1 in D2. injection D2 as <-. split; [|done].
  refine (collateral_fold_weighted _ _ _ _ _ _ Hl _ _ S1 S2); [|lia].
  eapply Forall_impl; [apply Ha1|]. by intros e ([? _] & _).
Qed.

(** ** A refresh never makes a healthy account liquidatable *)

(** Listings are validated: thresholds at most one, fees below, all of them [u32]. *)
Definition config_ok (cfg : AssetConfig) : Prop :=
  0 <= ac_liquidation_threshold cfg <= BPS /\ 0 <= ac_liquidation_bonus cfg <= u32_max
  /\ 0 <= ac_loan_to_value cfg <= u32_max /\ 0 <= ac_liquidation_fees cfg < BPS.

Lemma as_u32_id z : 0 <= z <= BPS -> as_u32 z = z.
Proof. clear. intros Hz. unfold as_u32. apply Z.mod_small. assert (BPS < 2 ^ 32) by zconst. lia. Qed.

Lemma as_u32_nonneg z : 0 <= as_u32 z.
Proof. clear. unfold as_u32. apply Z.mod_pos_bound. zconst. Qed.

(** Stamped positions are well formed whatever tuple they carry. *)
Lemma stamped_ok p :
  0 <= ap_scaled_amount p <= i128_max -> 0 <= ap_liquidation_threshold p <= BPS ->
  0 <= ap_liquidation_fees p < BPS -> position_ok (raw_of_account_position p).
Proof.
  clear. intros Hs Ht Hf. unfold position_ok, raw_of_account_position. simpl.
  rewrite (as_u32_id (ap_liquidation_threshold p)), (as_u32_id (ap_liquidation_fees p)) by lia.
  pose proof (as_u32_nonneg (ap_liquidation_bonus p)).
  pose proof (as_u32_nonneg (ap_loan_to_value p)). split_and!; lia.
Qed.

(** What a full refresh does to a leg: shares stay, LTV follows the listing, and the
    threshold either does not fall or was checked against the health factor. *)
Lemma refresh_Ok account h p cfg p' ch :
  refresh_supply_risk_params cache account h p cfg FullTuple = Ok (p', ch) ->
  ap_scaled_amount p' = ap_scaled_amount p
  /\ (ap_liquidation_threshold p' = ap_liquidation_threshold p
        /\ ap_liquidation_fees p' = ap_liquidation_fees p
      \/ ap_liquidation_threshold p' = ac_liquidation_threshold cfg
        /\ ap_liquidation_fees p' = ac_liquidation_fees cfg)
  /\ (ap_liquidation_threshold p <= ap_liquidation_threshold p' \/ debt_free account = true
      \/ exists q t, ap_scaled_amount q = ap_scaled_amount p
           /\ ap_liquidation_threshold q = ap_liquidation_threshold p'
           /\ ap_liquidation_fees q = ap_liquidation_fees p
           /\ calculate_account_risk_totals cache
                (map_set (supply_positions account) h (raw_of_account_position q))
                (borrow_positions account) = Ok t
           /\ WAD <= rt_health_factor t).
Proof using.
  clear Hcache. intros H. unfold refresh_supply_risk_params in H.
  rewrite bool_decide_true in H by done. apply rbind_Ok in H as (x & Hx & H).
  injection H as <- _. unfold apply_gated_liquidation_params in Hx.
  apply rbind_Ok in Hx as (b & Hb & Hx). injection Hx as <-.
  destruct b; simpl; [split_and!; [done|by left|left; lia]|].
  split_and!; [done|by right|].
  destruct (favors_liquidator _ cfg) eqn:Ef.
  - destruct (debt_free account) eqn:Ed; [by right; left|]. right. right. simpl in Hb.
    apply rbind_Ok in Hb as (c & Hc & Hb). injection Hb as Hb. unfold clears_min_hf in Hc.
    apply rbind_Ok in Hc as (t & Ht & Hc). injection Hc as <-. apply negb_false_iff in Hb.
    eexists _, t. split_and!; [..|exact Ht|]; [done|done|done|].
    assert (WAD <= THRESHOLD_UPDATE_MIN_HF_RAW) by zconst. b2p. lia.
  - left. unfold favors_liquidator in Ef. simpl in Ef. b2p. lia.
Qed.

(** The accounts of two stamps of the same leg compare leg by leg. *)
Lemma stamped_le m h raw p q :
  map_sorted m -> map_get m h = Some raw ->
  ap_scaled_amount p = ap_scaled_amount q ->
  0 <= ap_liquidation_threshold p <= ap_liquidation_threshold q ->
  ap_liquidation_threshold q <= BPS ->
  Forall2 leg_le (map_set m h (raw_of_account_position p)) (map_set m h (raw_of_account_position q)).
Proof using.
  clear Hcache. intros Hs Hg Hsc Ht Hq.
  destruct (map_set_replace m h raw Hs Hg) as (m1 & m2 & _ & Hset). rewrite !Hset.
  apply Forall2_app; [apply Forall_Forall2_diag; apply Forall_true; repeat split; lia|].
  constructor; [|apply Forall_Forall2_diag; apply Forall_true; repeat split; lia].
  unfold leg_le, raw_of_account_position. simpl. rewrite !as_u32_id by lia.
  split_and!; [done|done|lia].
Qed.

Lemma stamped_account_ok account h raw p :
  account_ok account -> map_sorted (supply_positions account) ->
  map_get (supply_positions account) h = Some raw ->
  0 <= ap_scaled_amount p <= i128_max -> 0 <= ap_liquidation_threshold p <= BPS ->
  0 <= ap_liquidation_fees p < BPS ->
  account_ok (with_supply account
    (map_set (supply_positions account) h (raw_of_account_position p))).
Proof using.
  clear Hcache. intros [Ha Hb] Hs Hg H1 H2 H3. split; [|done]. simpl.
  destruct (map_set_replace _ h raw Hs Hg) as (m1 & m2 & E & Hset). rewrite Hset.
  rewrite E in Ha. apply Forall_app in Ha as [A1 A2]. apply Forall_cons in A2 as [_ A2].
  apply Forall_app. split; [done|]. constructor; [|done]. simpl. by apply stamped_ok.
Qed.

Lemma refresh_safe account h raw cfg p' ch t t' :
  account_ok account -> map_sorted (supply_positions account) ->
  map_get (supply_positions account) h = Some raw -> 0 < apr_scaled_amount raw ->
  config_ok cfg ->
  refresh_supply_risk_params cache account h (account_position_of_raw raw) cfg FullTuple
    = Ok (p', ch) ->
  calculate_account_risk_totals cache (supply_positions account) (borrow_positions account)
    = Ok t -> WAD <= rt_health_factor t ->
  let account' := update_or_remove_supply_position account h p' in
  calculate_account_risk_totals cache (supply_positions account') (borrow_positions account')
    = Ok t' -> WAD <= rt_health_factor t'.
Proof using Hcache.
  intros Ha Hs Hg Hsc (C1 & _ & _ & C4) Hr Ht Hhf account' Ht'.
  assert (position_ok raw) as (P1 & P2 & _ & _ & P5).
  { pose proof (ao_supply _ Ha) as Hall. destruct (map_set_replace _ h raw Hs Hg) as (m1 & m2 & E & _).
    rewrite E in Hall. apply Forall_app in Hall as [_ Hall]. by apply Forall_cons in Hall as [? _]. }
  apply refresh_Ok in Hr as (R1 & R2 & R3). simpl in R1, R2, R3.
  assert (account' = with_supply account
    (map_set (supply_positions account) h (raw_of_account_position p'))) as ->.
  { subst account'. unfold update_or_remove_supply_position, Ray.ZERO. rewrite R1.
    destruct (Z.eqb_spec (apr_scaled_amount raw) 0); [lia|done]. }
  assert (0 <= ap_liquidation_threshold p' <= BPS /\ 0 <= ap_liquidation_fees p' < BPS) as [T1 T2]
    by (destruct R2 as [[-> ->]|[-> ->]]; lia).
  pose proof (stamped_account_ok _ _ _ p' Ha Hs Hg ltac:(lia) T1 T2) as Ha'. simpl in Ht'.
  destruct R3 as [Hle|[Hfree|(q & tq & Q1 & Q2 & Q3 & Q4 & Q5)]].
  - refine (health_monotone account _ t t' Ha Ha' eq_refl _ Ht Ht' Hhf). simpl.
    destruct (map_set_replace _ h raw Hs Hg) as (m1 & m2 & E & Hset). rewrite Hset. rewrite E at 1.
    apply Forall2_app; [apply Forall_Forall2_diag; apply Forall_true; repeat split; lia|].
    constructor; [|apply Forall_Forall2_diag; apply Forall_true; repeat split; lia].
    unfold leg_le, raw_of_account_position. simpl. rewrite as_u32_id by lia.
    split_and!; [done|done|lia].
  - destruct (risk_totals_facts _ Hcache _ _ Ha' Ht') as (F1 & _ & _ & _ & F5).
    assert (rt_total_debt t' = 0); [|lia]. unfold debt_free in Hfree. simpl in Ht'.
    destruct (borrow_positions account); [|done]. unfold calculate_account_risk_totals in Ht'.
    apply rbind_Ok in Ht' as (s & _ & Ht'). apply rbind_Ok in Ht' as (d & Hd & Ht').
    apply rbind_Ok in Ht' as (hf & _ & Ht'). injection Ht' as <-. simpl. by injection Hd as <-.
  - refine (health_monotone (with_supply account
      (map_set (supply_positions account) h (raw_of_account_position q))) _ tq t' _ Ha' eq_refl _
      Q4 Ht' Q5); simpl.
    + apply (stamped_account_ok _ _ raw); try done; lia.
    + apply (stamped_le _ _ raw); try done; lia.
Qed.

End Mono.

End RiskParams.
