(* ===== verification/LiqProps.v ===== *)
(** * What risk gates and liquidation plans guarantee

    The properties of the controller's risk and liquidation arithmetic, each
    applied to a concrete account. *)

From S2P Require Import Prelude Errors FpCore Fp PoolTypes RatesScaling PoolCache PoolContract PoolSolvency ControllerTypes Risk LiqCurve Payments LiqMath LiqTrim LiqPlan Sample PoolView Account SpokeUsage RiskParams.
From stdpp Require Import base numbers list gmap.
From Stdlib Require Import ZArith Lia Bool.

Open Scope Z_scope.

Import Risk LiqCurve LiqMath LiqTrim LiqSeize LiqPlan LiqSample.

(** Hypotheses on a concrete account, by evaluation. *)
Ltac run := solve [ vm_compute; reflexivity | zconst ].

(** C36: a liquidation plan keeps every token accounted for.  For each token, the
    units it keeps as repayment and the units it refunds add up to the units
    offered; every kept entry has a positive amount; and the dollar value the
    seizure is sized by is exactly what the kept entries are credited. *)
Theorem plan_conserves_payments cache account payments plan a :
  context_ok cache -> account_ok account ->
  Forall (fun e => 0 < dpr_scaled_amount e.2 <= i128_max) (borrow_positions account) ->
  build_liquidation_plan account payments cache = Ok plan ->
  let r := lp_repayment plan in
  kept a (nrp_repaid r) + refunded a (nrp_refunds r) = offered a payments
  /\ Forall (fun e => 0 < re_amount e /\ 0 <= re_usd_wad e) (nrp_repaid r)
  /\ nrp_repay_usd r = credited (nrp_repaid r).
Proof.
  intros Hc Ha Hd H. destruct (build_plan_Ok _ Hc _ _ _ Ha Hd H) as ([(R1 & R2 & R3) _ _ _ _] & _).
  cbv zeta. split_and!; [apply R3| |done].
  eapply Forall_impl; [exact R1|]. intros e (? & ? & _). done.
Qed.

Lemma plan_conserves_payments_witness :
  let r := lp_repayment (plan_of unhealthy (offer 100000)) in
  kept (asset usd) (nrp_repaid r) + refunded (asset usd) (nrp_refunds r) = 1000000000000
  /\ Forall (fun e => 0 < re_amount e /\ 0 <= re_usd_wad e) (nrp_repaid r)
  /\ nrp_repay_usd r = credited (nrp_repaid r).
Proof.
  apply (plan_conserves_payments cache unhealthy (offer 100000) _ (asset usd) cache_ok
           (account_is_ok 38000 ltac:(lia)) (account_debts 38000 ltac:(lia))).
  run.
Defined.

(** Every seizure of a plan is a valid claim on the account's own collateral.
    It names a position of the account, each position at most once and in storage
    order, takes a positive amount and no more shares than the position holds, its
    protocol fee is within the amount and its bonus within the shares, and its
    listing does not halt seizures. *)
Theorem plan_seizures_within_positions cache account payments plan :
  context_ok cache -> account_ok account ->
  Forall (fun e => 0 < dpr_scaled_amount e.2 <= i128_max) (borrow_positions account) ->
  build_liquidation_plan account payments cache = Ok plan ->
  Forall (fun e =>
    0 < szn_amount e /\ 0 <= szn_protocol_fee e <= szn_amount e
    /\ 0 < szn_scaled_amount e /\ 0 <= szn_bonus_scaled e <= szn_scaled_amount e
    /\ (exists p, (szn_hub_asset e, p) ∈ iter_typed_positions (supply_positions account)
                  /\ szn_scaled_amount e <= ap_scaled_amount p)
    /\ (forall sa, cached_spoke_asset cache (acc_spoke_id account) (szn_hub_asset e) = Some sa ->
          sa_no_seize sa = false)) (lp_seized plan)
  /\ map szn_hub_asset (lp_seized plan) `sublist_of` map_keys (supply_positions account).
Proof.
  intros Hc Ha Hd H. destruct (build_plan_Ok _ Hc _ _ _ Ha Hd H) as ([_ S1 S2 S3 S4] & _).
  split; [|done]. rewrite !Forall_forall in *. intros e He.
  destruct (S1 e He) as (? & ? & ? & ? & _). destruct (S2 e He) as (p & ? & ?).
  split_and!; try lia; [eauto|]. intros sa Hsa. specialize (S4 e He). simpl in S4.
  unfold enforce_spoke_asset_flags in S4. rewrite Hsa in S4. apply require_Ok in S4. by b2p.
Qed.

Lemma plan_seizures_within_positions_witness :
  Forall (fun e =>
    0 < szn_amount e /\ 0 <= szn_protocol_fee e <= szn_amount e
    /\ 0 < szn_scaled_amount e /\ 0 <= szn_bonus_scaled e <= szn_scaled_amount e
    /\ (exists p, (szn_hub_asset e, p) ∈ iter_typed_positions (supply_positions unhealthy)
                  /\ szn_scaled_amount e <= ap_scaled_amount p)
    /\ (forall sa, cached_spoke_asset cache spoke (szn_hub_asset e) = Some sa ->
          sa_no_seize sa = false)) (lp_seized (plan_of unhealthy (offer 1000)))
  /\ map szn_hub_asset (lp_seized (plan_of unhealthy (offer 1000))) `sublist_of` [btc].
Proof.
  apply (plan_seizures_within_positions cache unhealthy (offer 1000) _ cache_ok
           (account_is_ok 38000 ltac:(lia)) (account_debts 38000 ltac:(lia))).
  run.
Defined.

(** an account that passes the gates every borrow, withdrawal and strategy ends
    with cannot be liquidated at the same prices, against the indexes any reachable
    pool projects in the same ledger: for any payments in listings that are not
    paused, planning fails with [HealthFactorTooHigh]. *)
Theorem gated_account_not_liquidatable {W : Type} `{HW : Host W} `{HN : !NoReentry W}
    env w cache account payments :
  reachable (W := W) w -> ctx_market_index cache = pool_view env w ->
  prices_ok (ctx_token_prices cache) -> account_ok account ->
  require_post_pool_risk_gates cache account = Ok tt ->
  Forall (fun p => enforce_spoke_asset_flags cache (acc_spoke_id account) p.1 AllowOnExit = Ok tt)
    payments ->
  build_liquidation_plan account payments cache = Err (ECollateral HealthFactorTooHigh).
Proof.
  intros Hr Hv Hp Ha Hg Hf. apply gated_plan_fails; try done.
  apply view_context_ok; [|done]. rewrite Hv. exact (pool_market_view env w (reachable_inv _ Hr)).
Qed.

(** The sample market of the pool at a dollar, one spoke without listings. *)
Definition live_cache : Context :=
  {| ctx_token_prices := <[Sample.usdc := mkPriceFeedRaw WAD 7 0]> ∅;
     ctx_market_index := pool_view Sample.year_later Sample.pool3;
     ctx_spoke_assets := fun _ _ => None;
     ctx_spokes := fun id => if id =? spoke then Some spoke_cfg else None;
     ctx_min_borrow_collateral_usd_wad := 5 * WAD |}.

Definition live_account : Account :=
  {| acc_owner := mkAddress 4;
     acc_spoke_id := spoke;
     acc_mode := Normal;
     supply_positions := [(Sample.market, mkAccountPositionRaw (1000 * RAY) 8000 500 7500 1000)];
     borrow_positions := [(Sample.market, mkDebtPositionRaw (600 * RAY))] |}.

Lemma gated_account_not_liquidatable_witness :
  build_liquidation_plan live_account [(Sample.market, 10000000)] live_cache
    = Err (ECollateral HealthFactorTooHigh).
Proof.
  apply (gated_account_not_liquidatable (W := Sample.TokenLedger) (HW := Sample.ledger_host)
           (HN := Sample.ledger_no_reentry) Sample.year_later Sample.pool3
           live_cache live_account _ Sample.pool3_reachable eq_refl).
  - intros a f H. unfold live_cache, ctx_token_prices in H. apply lookup_insert_Some in H as [[_ <-]|[_ H]]; [|done].
    split; [run|]. split; run.
  - split; (constructor; [|constructor]); [unfold position_ok; split_and!; run|]. split; run.
  - run.
  - constructor; [run|constructor].
Defined.

(** C35: an insolvent account whose collateral carries liquidation weight is never asked for
    more than its collateral backs.  When the account's debt exceeds its collateral and its
    seizure proportion [p], the weighted over the total collateral rounded to a wad, is
    positive, the repayment of its plan, grossed up by the bonus the liquidator is paid, is at
    most the value of the account's collateral.  With a zero proportion (every threshold zero)
    the plan may repay the whole debt: see [zero_threshold_plan_unbacked]. *)
Theorem insolvent_plan_is_backed cache account payments plan t cfg p bb :
  context_ok cache -> account_ok account ->
  Forall (fun e => 0 < dpr_scaled_amount e.2 <= i128_max) (borrow_positions account) ->
  calculate_account_risk_totals cache (supply_positions account) (borrow_positions account)
    = Ok t ->
  rt_total_collateral t < rt_total_debt t ->
  calculate_seizure_proportions account (rt_total_collateral t) (rt_weighted_collateral t) cache
    = Ok (p, bb) ->
  0 < p ->
  spoke_config cache (acc_spoke_id account) = Ok cfg ->
  0 <= sc_liquidation_bonus_factor_bps cfg <= BPS ->
  build_liquidation_plan account payments cache = Ok plan ->
  nrp_repay_usd (lp_repayment plan)
    * (WAD + half_up_div (nrp_bonus (lp_repayment plan) * WAD) BPS)
  <= rt_total_collateral t * WAD.
Proof.
  intros Hc Ha Hd Ht Hins Hp Hpos Hcfg Hf H.
  destruct (build_plan_Ok _ Hc _ _ _ Ha Hd H)
    as (_ & t' & p' & bb' & cfg' & q & Ht' & Hhf & Hp' & Hcfg' & Hq & Hle).
  assert (t' = t) as -> by congruence. assert (cfg' = cfg) as -> by congruence.
  rewrite Hp in Hp'. injection Hp' as <- <-.
  destruct (risk_totals_facts _ Hc _ _ Ha Ht) as (F1 & F2 & F3 & F4 & _).
  assert (0 <= rt_weighted_collateral t <= rt_total_collateral t) as Hw by lia.
  destruct (seizure_proportions_Ok _ Hc _ _ _ _ _ (ao_supply _ Ha) Hw Hp) as (P1 & P2 & _).
  set (b := nrp_bonus (lp_repayment plan)) in *.
  assert (max_hf_preserving_bonus_bps (snapshot_of t p) <> Ok None) as Hcap.
  { unfold max_hf_preserving_bonus_bps. simpl.
    destruct (Z.leb_spec p 0), (Z.leb_spec WAD (rt_health_factor t)); try lia. cbn [orb].
    intros E. apply rbind_Ok in E as (x & _ & E). by apply rbind_Ok in E as (y & _ & E). }
  destruct (estimate_bounds (snapshot_of t p) bb (from_config cfg) q b) as (Q1 & Q2 & Q3 & _);
    simpl in *; [lia..|done|done|].
  specialize (Q3 Hins Hcap). pose proof WAD_pos. pose proof BPS_pos.
  pose proof (half_up_div_nonneg (b * WAD) BPS BPS_pos ltac:(nia)).
  assert (q < rt_total_debt t) as Hqd by nia. specialize (Hle Hins Hqd). nia.
Qed.

Definition or_default {A : Type} (d : A) (r : res A) : A :=
  match r with Ok a => a | Err _ => d end.
Definition totals_of (a : Account) : AccountRiskTotals :=
  or_default (mkAccountRiskTotals 0 0 0 0 0)
    (calculate_account_risk_totals cache (supply_positions a) (borrow_positions a)).
Definition proportions_of (a : Account) : Wad * BonusBounds :=
  or_default (0, mkBonusBounds 0 0)
    (calculate_seizure_proportions a (rt_total_collateral (totals_of a))
       (rt_weighted_collateral (totals_of a)) cache).

Lemma insolvent_plan_is_backed_witness :
  52380952380900000000000 * (WAD + half_up_div (500 * WAD) BPS)
  <= rt_total_collateral (totals_of insolvent) * WAD.
Proof.
  apply (insolvent_plan_is_backed cache insolvent (offer 100000)
           (plan_of insolvent (offer 100000)) (totals_of insolvent) spoke_cfg
           (proportions_of insolvent).1 (proportions_of insolvent).2 cache_ok
           (account_is_ok 50000 ltac:(lia)) (account_debts 50000 ltac:(lia))).
  - run.
  - run.
  - run.
  - run.
  - run.
  - split; run.
  - run.
Defined.

(** A zero threshold on collateral of 55,000 dollars, and a debt a few dollars above it: what
    would remain is dust, so the plan repays the whole debt. *)
Definition weightless : Account :=
  {| acc_owner := mkAddress 4;
     acc_spoke_id := spoke;
     acc_mode := Normal;
     supply_positions := [(btc, mkAccountPositionRaw RAY 0 500 0 1000)];
     borrow_positions := [(usd, mkDebtPositionRaw (45836 * RAY))] |}.

Lemma zero_threshold_plan_unbacked :
  (proportions_of weightless).1 = 0
  /\ rt_total_collateral (totals_of weightless)
     < nrp_repay_usd (lp_repayment (plan_of weightless (offer 100000))).
Proof. split; vm_compute; reflexivity. Qed.

(** The bonus of a plan is within what the account's thresholds allow: it is
    not negative, at most the account's maximum, and paying it never takes more
    collateral than covers the weighted debt.  On a solvent account whose whole
    debt is not closed it also stays under the bonus that would lower the health
    factor: the weighted collateral lost per unit repaid is at most the health
    factor itself. *)
Theorem plan_bonus_bounded cache account payments plan t cfg p bb :
  context_ok cache -> account_ok account ->
  Forall (fun e => 0 < dpr_scaled_amount e.2 <= i128_max) (borrow_positions account) ->
  calculate_account_risk_totals cache (supply_positions account) (borrow_positions account)
    = Ok t ->
  calculate_seizure_proportions account (rt_total_collateral t) (rt_weighted_collateral t) cache
    = Ok (p, bb) ->
  spoke_config cache (acc_spoke_id account) = Ok cfg ->
  0 <= sc_liquidation_bonus_factor_bps cfg <= BPS ->
  build_liquidation_plan account payments cache = Ok plan ->
  let b := nrp_bonus (lp_repayment plan) in
  0 <= b <= bb_max bb
  /\ (0 < p -> (BPS + b) * p <= BPS * WAD)
  /\ (rt_total_debt t <= rt_total_collateral t -> 0 < p ->
      (BPS + b) * p <= rt_health_factor t * BPS \/ b = 0).
Proof.
  intros Hc Ha Hd Ht Hp Hcfg Hf H b.
  destruct (build_plan_Ok _ Hc _ _ _ Ha Hd H)
    as (_ & t' & p' & bb' & cfg' & q & Ht' & Hhf & Hp' & Hcfg' & Hq & _).
  assert (t' = t) as -> by congruence. assert (cfg' = cfg) as -> by congruence.
  rewrite Hp in Hp'. injection Hp' as <- <-.
  destruct (risk_totals_facts _ Hc _ _ Ha Ht) as (F1 & F2 & F3 & F4 & _).
  assert (0 <= rt_weighted_collateral t <= rt_total_collateral t) as Hw by lia.
  destruct (seizure_proportions_Ok _ Hc _ _ _ _ _ (ao_supply _ Ha) Hw Hp) as (P1 & P2 & P3).
  fold b in Hq.
  destruct (estimate_bounds (snapshot_of t p) bb (from_config cfg) q b) as (_ & Q2 & _);
    simpl in *; [lia..|done|done|].
  split_and!; [lia|lia| |].
  - intros Hpos. specialize (P3 Hpos). nia.
  - intros Hs Hpos.
    destruct (max_hf_preserving_bonus_bps (snapshot_of t p)) as [[cap|]|e] eqn:Hcap.
    + edestruct (estimate_preserves_hf (snapshot_of t p)) as [?|[? _]]; [..|exact Hq| |];
        simpl in *; eauto; lia.
    + unfold max_hf_preserving_bonus_bps in Hcap. simpl in Hcap.
      destruct (Z.leb_spec p 0), (Z.leb_spec WAD (rt_health_factor t)); try lia.
      cbn [orb] in Hcap. apply rbind_Ok in Hcap as (x & _ & E).
      by apply rbind_Ok in E as (y & _ & E).
    + unfold estimate_liquidation_amount in Hq. apply rbind_Ok in Hq as (sb & _ & Hq).
      rewrite Hcap in Hq. done.
Qed.

Lemma plan_bonus_bounded_witness :
  0 <= 1181 <= bb_max (proportions_of unhealthy).2
  /\ (0 < (proportions_of unhealthy).1 -> (BPS + 1181) * (proportions_of unhealthy).1 <= BPS * WAD)
  /\ (rt_total_debt (totals_of unhealthy) <= rt_total_collateral (totals_of unhealthy) ->
      0 < (proportions_of unhealthy).1 ->
      (BPS + 1181) * (proportions_of unhealthy).1 <= rt_health_factor (totals_of unhealthy) * BPS
      \/ 1181 = 0).
Proof.
  apply (plan_bonus_bounded cache unhealthy (offer 1000) (plan_of unhealthy (offer 1000))
           (totals_of unhealthy) spoke_cfg (proportions_of unhealthy).1
           (proportions_of unhealthy).2 cache_ok
           (account_is_ok 38000 ltac:(lia)) (account_debts 38000 ltac:(lia))).
  - run.
  - run.
  - run.
  - split; run.
  - run.
Defined.

(** Splitting credited shares always returns on a valid seizure, creates and
    loses no share, and takes the protocol fee out of the bonus only, at least one
    unit whenever a fee is due. *)
Theorem share_split_exact e :
  seizure_ok e -> szn_scaled_amount e <= i128_max ->
  exists fee liquidator,
    split_seized_shares (szn_scaled_amount e) (szn_bonus_scaled e) (szn_liquidation_fees e)
      = Ok (fee, liquidator)
    /\ fee + liquidator = szn_scaled_amount e
    /\ 0 <= fee <= szn_bonus_scaled e /\ 0 <= liquidator
    /\ (0 < szn_bonus_scaled e -> 0 < szn_liquidation_fees e -> 0 < fee).
Proof.
  intros (H1 & H2 & H3 & H4 & H5) Hm.
  destruct (split_total _ _ _ H4 Hm H5) as (fee & liq & E). exists fee, liq.
  destruct (split_Ok _ _ _ _ _ E (proj1 H5)) as (? & ? & ? & ?). split_and!; (done || lia).
Qed.

Definition seizure_of (a : Account) : SeizeEntry :=
  hd (mkSeizeEntry btc 0 0 0 0 0 (mkPriceFeedRaw 0 0 0) (mkMarketIndexRaw 0 0))
    (lp_seized (plan_of a (offer 100000))).

Lemma share_split_exact_witness :
  let e := seizure_of unhealthy in
  exists fee liquidator,
    split_seized_shares (szn_scaled_amount e) (szn_bonus_scaled e) (szn_liquidation_fees e)
      = Ok (fee, liquidator)
    /\ fee + liquidator = szn_scaled_amount e
    /\ 0 <= fee <= szn_bonus_scaled e /\ 0 <= liquidator
    /\ (0 < szn_bonus_scaled e -> 0 < szn_liquidation_fees e -> 0 < fee).
Proof.
  apply (share_split_exact (seizure_of unhealthy)).
  - unfold seizure_ok. split_and!; run.
  - run.
Defined.

(** Trimming excess repayment conserves tokens and never raises the credited
    value; when it must stay within a quote and the entries are worth the excess,
    what is left is worth at most the total minus the excess. *)
Theorem excess_trim_correct repaid refunds excess keep repaid' refunds' :
  Forall entry_ok repaid -> 0 <= excess ->
  process_excess_payment repaid refunds excess keep = Ok (repaid', refunds') ->
  (forall a, kept a repaid' + refunded a refunds' = kept a repaid + refunded a refunds)
  /\ Forall entry_ok repaid'
  /\ credited repaid' <= credited repaid
  /\ (keep = true -> excess <= credited repaid -> credited repaid' <= credited repaid - excess).
Proof.
  intros Hl He H. destruct (process_excess_Ok _ _ _ _ _ _ Hl He H) as (H1 & H2 & H3 & H4).
  split_and!; (done || lia || auto).
Qed.

Definition two_legs : list RepayEntry :=
  [ mkRepayEntry usd 10000000 WAD (mkPriceFeedRaw WAD 7 0) (mkMarketIndexRaw RAY RAY);
    mkRepayEntry btc 100000000 (50000 * WAD) (mkPriceFeedRaw (50000 * WAD) 8 0)
      (mkMarketIndexRaw RAY RAY) ].

Lemma excess_trim_correct_witness :
  let r := or_default ([], []) (process_excess_payment two_legs [] (20000 * WAD) true) in
  (forall a, kept a r.1 + refunded a r.2 = kept a two_legs + refunded a [])
  /\ Forall entry_ok r.1
  /\ credited r.1 <= credited two_legs
  /\ (true = true -> 20000 * WAD <= credited two_legs ->
      credited r.1 <= credited two_legs - 20000 * WAD).
Proof.
  apply (excess_trim_correct two_legs [] (20000 * WAD) true).
  - constructor; [|constructor; [|constructor]]; unfold entry_ok; split_and!; run.
  - run.
  - run.
Defined.

(** Scaling seizures to a short receipt keeps every entry's market, shrinks its
    shares and amount, keeps the bonus within the shares and the fee within the
    amount; on a short receipt the shares are at most the received share of the
    planned ones and the paid amount is at most what those shares are worth. *)
Theorem short_receipt_scaling seized received planned r :
  Forall (fun e => seizure_ok e /\ valid_decimals (pfr_asset_decimals (szn_feed e))
                   /\ 0 < mi_supply_index (szn_market_index e)) seized ->
  0 <= received -> 0 < planned ->
  scale_seizures_to_received seized received planned = Ok r ->
  Forall2 (scaled_down received planned) seized r.
Proof. exact (scale_seizures_Ok seized received planned r). Qed.

Lemma short_receipt_scaling_witness :
  Forall2 (scaled_down (400 * WAD) (1000 * WAD)) [seizure_of unhealthy]
    (or_default [] (scale_seizures_to_received [seizure_of unhealthy] (400 * WAD) (1000 * WAD))).
Proof.
  apply (short_receipt_scaling [seizure_of unhealthy] (400 * WAD) (1000 * WAD)).
  - constructor; [|constructor]. unfold seizure_ok. split_and!; run.
  - run.
  - run.
  - run.
Defined.

(** The totals an account is judged by are ordered, LTV-weighted below
    threshold-weighted below plain collateral, its health factor is not negative,
    and it is below one exactly when the weighted collateral is below the debt, so
    rounding never makes a covered account liquidatable. *)
Theorem risk_totals_consistent cache account t :
  context_ok cache -> account_ok account ->
  calculate_account_risk_totals cache (supply_positions account) (borrow_positions account)
    = Ok t ->
  0 <= rt_ltv_collateral t <= rt_weighted_collateral t
  /\ rt_weighted_collateral t <= rt_total_collateral t
  /\ 0 <= rt_total_debt t /\ 0 <= rt_health_factor t
  /\ (rt_health_factor t < WAD <-> rt_weighted_collateral t < rt_total_debt t).
Proof. intros Hc Ha H. exact (risk_totals_facts cache Hc account t Ha H). Qed.

Lemma risk_totals_consistent_witness :
  let t := totals_of unhealthy in
  0 <= rt_ltv_collateral t <= rt_weighted_collateral t
  /\ rt_weighted_collateral t <= rt_total_collateral t
  /\ 0 <= rt_total_debt t /\ 0 <= rt_health_factor t
  /\ (rt_health_factor t < WAD <-> rt_weighted_collateral t < rt_total_debt t).
Proof.
  apply (risk_totals_consistent cache unhealthy _ cache_ok (account_is_ok 38000 ltac:(lia))).
  run.
Defined.

(** ** What usage caps and parameter refreshes guarantee *)

Import SpokeUsage Risk RiskParams.

(** The usage a flow stores is the usage it found plus its entries minus its
    exits, side by side, for every market that had a row; the usage of other spokes
    is untouched. *)
Theorem spoke_usage_tracks_flow st spoke ops st' :
  Forall op_ok ops -> run_flow st spoke ops = Ok st' ->
  (forall h s, get_spoke_usage st spoke h <> None ->
     used st' spoke h s = used st spoke h s + zsum (delta_of h s) ops)
  /\ (forall other h s, other <> spoke -> used st' other h s = used st other h s).
Proof.
  intros Hops H. unfold run_flow in H. apply rbind_Ok in H as (ctx & Hr & H). injection H as <-.
  assert (suc_spoke_id ctx = spoke) as Hid.
  { apply (rfold_inv (fun c => suc_spoke_id c = spoke)) in Hr; [done| |done].
    intros c op c' Hin Hc Hstep. rewrite <- Hc. destruct op; simpl in Hstep.
    - rewrite Forall_forall in Hops. apply list_elem_of_In in Hin.
      destruct (Hops _ Hin) as (? & ? & ?). by apply apply_entry_Ok in Hstep as [? _].
    - by apply apply_exit_Ok in Hstep as [? _]. }
  destruct (persist_Ok st ctx) as [P1 P2]. rewrite Hid in *. split.
  - intros h s Hrow. rewrite P1.
    apply (ops_seen st ops (new spoke) ctx h s) in Hr as [_ ->]; [done|done|].
    unfold row_of. simpl. by rewrite lookup_empty.
  - intros other h s Hne. by apply P2.
Qed.

Definition row : UsageStore :=
  <[(LiqSample.spoke, LiqSample.btc) := mkSpokeUsageRaw (3 * RAY) RAY]> ∅.
Definition flow : list UsageOp :=
  [ Enter SupplySide LiqSample.btc (2 * RAY) 1000000000 RAY 8;
    Leave BorrowSide LiqSample.btc RAY;
    Leave SupplySide LiqSample.btc (4 * RAY) ].
Definition stored : UsageStore :=
  match run_flow row LiqSample.spoke flow with Ok st => st | Err _ => row end.

Lemma spoke_usage_tracks_flow_witness :
  (forall h s, get_spoke_usage row LiqSample.spoke h <> None ->
     used stored LiqSample.spoke h s = used row LiqSample.spoke h s + zsum (delta_of h s) flow)
  /\ (forall other h s, other <> LiqSample.spoke -> used stored other h s = used row other h s).
Proof.
  apply (spoke_usage_tracks_flow row LiqSample.spoke flow).
  - repeat constructor; zconst.
  - vm_compute. reflexivity.
Defined.

(** an accepted entry raises the usage of its own market and side by its delta,
    changes no other, and the raised usage, valued at the market's index, is at most
    the listing's cap. *)
Theorem spoke_entry_within_cap cache cfg st ctx side h d m dec ctx' :
  valid_decimals dec -> 0 < index side m ->
  require_spoke_asset_config cache (suc_spoke_id ctx) h = Ok cfg -> 0 <= cap side cfg ->
  apply_spoke_entry cache st ctx side h d m dec = Ok ctx' ->
  (forall k s, seen st ctx' k s
     = seen st ctx k s + if decide (k = h /\ s = side) then d else 0)
  /\ seen st ctx' h side * index side m <= cap side cfg * unit_of dec * RAY.
Proof.
  intros Hd Hi Hcfg Hc H. unfold apply_spoke_entry in H. rewrite Hcfg in H. cbn [rbind] in H.
  by apply apply_entry_Ok in H as (_ & ? & ?).
Qed.

Definition listing : SpokeAssetConfig :=
  mkSpokeAssetConfig true true false false false 7500 8000 500 1000 1000000000 500000000.
Definition listed_cache : Context :=
  {| ctx_token_prices := LiqSample.prices;
     ctx_market_index := ctx_market_index LiqSample.cache;
     ctx_spoke_assets := fun _ _ => Some listing;
     ctx_spokes := ctx_spokes LiqSample.cache;
     ctx_min_borrow_collateral_usd_wad := 5 * WAD |}.
Definition two_more : SpokeUsageContext :=
  match apply_spoke_entry listed_cache row (new LiqSample.spoke) SupplySide LiqSample.btc
          (2 * RAY) (mkMarketIndexRaw RAY RAY) 8 with Ok c => c | Err _ => new 0 end.

Lemma spoke_entry_within_cap_witness :
  (forall k s, seen row two_more k s
     = seen row (new LiqSample.spoke) k s
       + if decide (k = LiqSample.btc /\ s = SupplySide) then 2 * RAY else 0)
  /\ seen row two_more LiqSample.btc SupplySide * RAY <= 1000000000 * unit_of 8 * RAY.
Proof.
  apply (spoke_entry_within_cap listed_cache listing row (new LiqSample.spoke) SupplySide
           LiqSample.btc (2 * RAY) (mkMarketIndexRaw RAY RAY) 8).
  - split; zconst.
  - zconst.
  - reflexivity.
  - zconst.
  - vm_compute. reflexivity.
Defined.

(** refreshing the stored risk tuple of a position from its listing never makes
    an account liquidatable that was not: whatever the listing's new threshold, if
    the health factor was at least one before, it is at least one after. *)
Theorem refresh_keeps_account_healthy cache account h raw cfg p' ch t t' :
  context_ok cache -> account_ok account -> map_sorted (supply_positions account) ->
  map_get (supply_positions account) h = Some raw -> 0 < apr_scaled_amount raw ->
  config_ok cfg ->
  refresh_supply_risk_params cache account h (account_position_of_raw raw) cfg FullTuple
    = Ok (p', ch) ->
  calculate_account_risk_totals cache (supply_positions account) (borrow_positions account)
    = Ok t -> WAD <= rt_health_factor t ->
  let account' := update_or_remove_supply_position account h p' in
  calculate_account_risk_totals cache (supply_positions account') (borrow_positions account')
    = Ok t' -> WAD <= rt_health_factor t'.
Proof. intros Hc. exact (refresh_safe cache Hc account h raw cfg p' ch t t'). Qed.

(** A listing lowered to a 70% threshold: the healthy account keeps 55,000 x 0.7 over
    36,000, above 1.05, and adopts it. *)
Definition lowered : AssetConfig := mkAssetConfig 6000 7000 600 1000 true true.
Definition refreshed : AccountPosition :=
  match refresh_supply_risk_params LiqSample.cache LiqSample.healthy LiqSample.btc
          (account_position_of_raw LiqSample.collateral) lowered FullTuple with
  | Ok (p, _) => p
  | Err _ => account_position_of_raw LiqSample.collateral
  end.
Definition account_totals (a : Account) : AccountRiskTotals :=
  match calculate_account_risk_totals LiqSample.cache (supply_positions a) (borrow_positions a) with
  | Ok t => t
  | Err _ => mkAccountRiskTotals 0 0 0 0 0
  end.
Definition after_refresh : Account :=
  update_or_remove_supply_position LiqSample.healthy LiqSample.btc refreshed.

Lemma refresh_keeps_account_healthy_witness :
  WAD <= rt_health_factor (account_totals after_refresh)
  /\ ap_liquidation_threshold refreshed = 7000.
Proof.
  split; [|vm_compute; reflexivity].
  apply (refresh_keeps_account_healthy LiqSample.cache LiqSample.healthy LiqSample.btc
           LiqSample.collateral lowered refreshed true (account_totals LiqSample.healthy) _
           LiqSample.cache_ok (LiqSample.account_is_ok 30000 ltac:(lia))).
  - repeat constructor.
  - reflexivity.
  - zconst.
  - unfold config_ok. split_and!; zconst.
  - vm_compute. reflexivity.
  - vm_compute. reflexivity.
  - zconst.
  - vm_compute. reflexivity.
Defined.
