(* ===== verification/CoreProps.v ===== *)
(** * What the fixed-point and interest-rate code guarantees *)

From S2P Require Import Prelude Errors FpCore Fp PoolTypes RatesCurve RatesScaling RatesAccrual Sample.
From stdpp Require Import base numbers list.
From Stdlib Require Import ZArith Lia Bool.

Open Scope Z_scope.

Import Sample.

Ltac by_eval := solve [ vm_compute; reflexivity | vm_compute; repeat split; discriminate
                      | vm_compute; discriminate | vm_compute; tauto ].

(** ** Fixed-point arithmetic *)

(** C39: the three multiply-divide routines, with their [i128] fast path and 256-bit
    fallback, compute the exactly rounded quotient of the mathematical product or
    report division by zero or overflow, on every [i128] input. *)
Theorem mul_div_exact x y d :
  is_i128 x -> is_i128 y -> is_i128 d ->
  FpCore.mul_div_floor x y d
  = (if d =? 0 then Err (EGeneric DivisionByZero) else FpCore.checked_or_overflow (x * y / d))
  /\ FpCore.mul_div_ceil x y d
     = (if d =? 0 then Err (EGeneric DivisionByZero)
        else FpCore.checked_or_overflow (ceil_div (x * y) d))
  /\ FpCore.mul_div_half_up x y d
     = (if d =? 0 then Err (EGeneric DivisionByZero)
        else if (x <? 0) || (y <? 0) || (d <? 0) then Err (EGeneric MathOverflow)
        else FpCore.checked_or_overflow (half_up_div (x * y) d)).
Proof.
  intros. split_and!; [by apply FpCore.mul_div_floor_ref|by apply FpCore.mul_div_ceil_ref|].
  by apply FpCore.mul_div_half_up_ref.
Qed.

Lemma mul_div_exact_witness :
  FpCore.mul_div_ceil i128_max 3 4 = FpCore.checked_or_overflow (ceil_div (i128_max * 3) 4).
Proof. apply (mul_div_exact i128_max 3 4); by_eval. Defined.

(** The saturating routine returns the floored quotient clamped to [i128]; it
    fails only on a zero divisor. *)
Theorem mul_div_saturates x y d :
  is_i128 x -> is_i128 y -> is_i128 d ->
  FpCore.mul_div_floor_saturating x y d
  = if d =? 0 then Err (EGeneric DivisionByZero)
    else Ok (Z.max i128_min (Z.min i128_max (x * y / d))).
Proof. apply FpCore.mul_div_floor_saturating_ref. Qed.

Lemma mul_div_saturates_witness : FpCore.mul_div_floor_saturating i128_max RAY 1 = Ok i128_max.
Proof.
  rewrite (mul_div_saturates i128_max RAY 1); by_eval.
Defined.

(** Rescaling between decimal precisions multiplies by, or divides with the
    named rounding by, the power of ten between them, also where that power does
    not fit [i128]. *)
Theorem rescale_exact a f t :
  is_i128 a ->
  FpCore.rescale_half_up a f t = FpCore.rescale_ref FpCore.half_away_div a f t
  /\ FpCore.rescale_floor a f t = FpCore.rescale_ref Z.quot a f t
  /\ FpCore.rescale_ceil a f t = FpCore.rescale_ref FpCore.ceil_toward_zero a f t.
Proof.
  intros. split_and!; [by apply FpCore.rescale_half_up_ref|by apply FpCore.rescale_floor_ref|].
  by apply FpCore.rescale_ceil_ref.
Qed.

Lemma rescale_exact_witness : FpCore.rescale_ceil 1234567 7 3 = Ok 124.
Proof. rewrite (proj2 (proj2 (rescale_exact 1234567 7 3 ltac:(by_eval)))). by_eval. Defined.

(** A token amount converted to RAY and back, with any of the three roundings,
    is the same amount. *)
Theorem asset_ray_round_trip a d r :
  0 <= a -> 0 <= d <= WAD_DECIMALS -> Ray.from_asset a d = Ok r ->
  Ray.to_asset_floor r d = Ok a /\ Ray.to_asset r d = Ok a /\ Ray.to_asset_ceil r d = Ok a.
Proof.
  intros Ha Hd H. apply from_asset_Ok in H as [-> Hr]; [|done].
  pose proof (unit_of_pos d Hd) as Hu. assert (0 <= a * unit_of d <= i128_max) by (split; [nia|lia]).
  rewrite to_asset_floor_nonneg, to_asset_nonneg, to_asset_ceil_nonneg by done.
  unfold floor_div, half_up_div, ceil_div.
  rewrite <- Z.mul_opp_l, !Z.div_mul by lia. rewrite Z.add_comm, Z.div_add by lia.
  rewrite (Z.div_small (unit_of d / 2)) by (split; [apply Z.div_pos; lia|apply Z.div_lt; lia]).
  split_and!; f_equal; lia.
Qed.

Lemma asset_ray_round_trip_witness : Ray.to_asset_ceil (123456789 * 10 ^ 20) 7 = Ok 123456789.
Proof. apply (asset_ray_round_trip 123456789 7); by_eval. Defined.

(** ** Interest rates *)

(** Under verified parameters the annual borrow rate is defined at every
    utilization, equals the three-segment curve capped at the maximum rate, and
    lies between the base and the maximum rate. *)
Theorem annual_rate_is_capped_curve p u :
  valid_params p -> 0 <= u ->
  RatesCurve.calculate_annual_borrow_rate u p
  = Ok (Z.min (max_borrow_rate p) (RatesCurve.curve_value (Z.min RAY u) p))
  /\ base_borrow_rate p
     <= Z.min (max_borrow_rate p) (RatesCurve.curve_value (Z.min RAY u) p)
     <= max_borrow_rate p.
Proof.
  intros Hp Hu. rewrite (RatesCurve.annual_rate_value p u Hp Hu). split; [done|].
  destruct (RatesCurve.annual_rate_bounds p u Hp Hu) as (r & Hr & Hb).
  rewrite (RatesCurve.annual_rate_value p u Hp Hu) in Hr. by injection Hr as ->.
Qed.

Lemma sample_params_valid : valid_params (params_of_raw params).
Proof. apply (verify_valid params tt); by_eval. Defined.

Lemma annual_rate_is_capped_curve_witness :
  RatesCurve.calculate_annual_borrow_rate (RAY * 9 / 10) (params_of_raw params)
  = Ok (530000000000000000000000000).
Proof.
  rewrite (proj1 (annual_rate_is_capped_curve (params_of_raw params) (RAY * 9 / 10)
    sample_params_valid ltac:(by_eval))). by_eval.
Defined.

(** Within a segment of the curve the rate does not fall as utilization rises. *)
Theorem annual_rate_monotone p u v ru rv :
  valid_params p -> 0 <= u <= v -> RatesCurve.same_segment p u v ->
  RatesCurve.calculate_annual_borrow_rate u p = Ok ru ->
  RatesCurve.calculate_annual_borrow_rate v p = Ok rv -> ru <= rv.
Proof. apply RatesCurve.annual_rate_segment_mono. Qed.

Lemma annual_rate_monotone_witness : 22000000000000000000000000 <= 26000000000000000000000000.
Proof.
  apply (annual_rate_monotone (params_of_raw params) (RAY * 3 / 10) (RAY * 4 / 10));
    [apply sample_params_valid|by_eval|left; by_eval|by_eval|by_eval].
Defined.

(** Compounding any rate the curve can give over at most a year returns a factor
    of at least one plus simple interest and at most sixty, without overflow. *)
Theorem compound_factor_bounds p u delta :
  valid_params p -> 0 <= u -> 0 <= delta <= RatesCurve.MAX_COMPOUND_DELTA_MS ->
  exists rate f, RatesCurve.calculate_borrow_rate u p = Ok rate
    /\ RatesCurve.compound_interest rate delta = Ok f
    /\ RAY + rate * delta <= f <= 60 * RAY.
Proof.
  intros Hp Hu Hd. destruct (RatesCurve.borrow_rate_bounds p u Hp Hu) as (r & Hr & H0 & Hb).
  destruct (RatesCurve.compound_interest_total r delta) as (f & Hf & Hf'); [done|lia|nia|].
  eauto.
Qed.

Lemma compound_factor_bounds_witness :
  exists rate f, RatesCurve.calculate_borrow_rate (RAY / 2) (params_of_raw params) = Ok rate
    /\ RatesCurve.compound_interest rate 31556926000 = Ok f
    /\ RAY + rate * 31556926000 <= f <= 60 * RAY.
Proof. apply compound_factor_bounds; [apply sample_params_valid|by_eval|by_eval]. Defined.

(** C38: over one accrual step indexes only rise and stay under their caps, and the
    claims of suppliers and protocol together grow by at most what borrowers owe
    more. *)
Theorem accrual_conserves_value p b s bi si delta st :
  valid_params p -> 0 <= b -> 0 <= s <= i128_max ->
  0 <= bi <= MAX_BORROW_INDEX_RAY -> 0 < si <= MAX_SUPPLY_INDEX_RAY ->
  0 <= delta <= RatesCurve.MAX_COMPOUND_DELTA_MS ->
  RatesAccrual.accrue_step p b s bi si delta = Ok st ->
  bi <= RatesAccrual.as_borrow_index st <= MAX_BORROW_INDEX_RAY
  /\ si <= RatesAccrual.as_supply_index st <= MAX_SUPPLY_INDEX_RAY
  /\ RatesAccrual.claim (s + RatesAccrual.as_revenue_shares st) (RatesAccrual.as_supply_index st)
     - RatesAccrual.claim s si
     <= RatesAccrual.claim b (RatesAccrual.as_borrow_index st) - RatesAccrual.claim b bi.
Proof.
  intros Hp Hb Hs Hbi Hsi Hd H.
  destruct (RatesAccrual.accrue_step_facts p b s bi si delta Hp Hb Hs Hbi Hsi Hd st H)
    as (H1 & H2 & _ & _ & H3). exact (conj H1 (conj H2 H3)).
Qed.

Definition step_run :=
  ok_or (RatesAccrual.mkAccrualStep 0 0 0)
    (RatesAccrual.accrue_step (params_of_raw params) (600 * RAY) (1000 * RAY) RAY RAY 86400000).

Lemma accrual_conserves_value_witness :
  RatesAccrual.claim (1000 * RAY + RatesAccrual.as_revenue_shares step_run)
    (RatesAccrual.as_supply_index step_run) - RatesAccrual.claim (1000 * RAY) RAY
  <= RatesAccrual.claim (600 * RAY) (RatesAccrual.as_borrow_index step_run)
     - RatesAccrual.claim (600 * RAY) RAY.
Proof.
  apply (accrual_conserves_value (params_of_raw params) (600 * RAY) (1000 * RAY) RAY RAY 86400000
    step_run); [apply sample_params_valid|by_eval..].
Defined.

(** ** Shares and amounts *)

(** supplying an amount and withdrawing from the shares it minted, in any
    pattern of request, never returns more than the amount. *)
Theorem supply_withdraw_no_profit amount request d si minted burned gross :
  0 <= d <= WAD_DECIMALS -> 0 <= amount -> 0 <= request -> 0 < si ->
  RatesScaling.calculate_scaled_supply amount d si = Ok minted ->
  RatesScaling.resolve_withdrawal request minted si d = Ok (burned, gross) ->
  gross <= amount.
Proof. apply RatesScaling.supply_withdraw_no_gain. Qed.

Definition minted_run := ok_or 0 (RatesScaling.calculate_scaled_supply 1000 7 (RAY * 3 / 2)).
Definition burned_run :=
  ok_or (0, 0) (RatesScaling.resolve_withdrawal 5000 minted_run (RAY * 3 / 2) 7).

Lemma supply_withdraw_no_profit_witness : burned_run.2 <= 1000.
Proof.
  apply (supply_withdraw_no_profit 1000 5000 7 (RAY * 3 / 2) minted_run burned_run.1); by_eval.
Defined.

(** closing a debt position in full costs at least what was borrowed. *)
Theorem borrow_repay_no_profit amount paid d bi minted over :
  0 <= d <= WAD_DECIMALS -> 0 <= amount -> 0 <= paid -> 0 < bi ->
  RatesScaling.calculate_scaled_borrow amount d bi = Ok minted ->
  RatesScaling.resolve_repay paid minted bi d = Ok (minted, over) ->
  amount <= paid - over.
Proof. apply RatesScaling.borrow_repay_no_gain. Qed.

Definition debt_run := ok_or 0 (RatesScaling.calculate_scaled_borrow 1000 7 (RAY * 3 / 2)).

Lemma borrow_repay_no_profit_witness : 1000 <= 5000 - 3999.
Proof.
  apply (borrow_repay_no_profit 1000 5000 7 (RAY * 3 / 2) debt_run 3999); by_eval.
Defined.

(** The floored, half-up and ceiled USD values of a position are in that order. *)
Theorem position_values_ordered scaled index price lo mid hi :
  0 <= scaled -> 0 <= index -> 0 <= price ->
  RatesScaling.position_value_floor scaled index price = Ok lo ->
  RatesScaling.position_value scaled index price = Ok mid ->
  RatesScaling.position_value_ceil scaled index price = Ok hi ->
  0 <= lo <= mid /\ mid <= hi.
Proof. apply RatesScaling.position_value_bracket. Qed.

Definition value_run :=
  (ok_or 0 (RatesScaling.position_value_floor (7 * RAY) (RAY * 4 / 3) (WAD / 7)),
   ok_or 0 (RatesScaling.position_value (7 * RAY) (RAY * 4 / 3) (WAD / 7)),
   ok_or 0 (RatesScaling.position_value_ceil (7 * RAY) (RAY * 4 / 3) (WAD / 7))).

Lemma position_values_ordered_witness :
  0 <= value_run.1.1 <= value_run.1.2 /\ value_run.1.2 <= value_run.2.
Proof. apply (position_values_ordered (7 * RAY) (RAY * 4 / 3) (WAD / 7)); by_eval. Defined.

(** Parameters survive the conversion from wire to typed form and back. *)
Theorem params_round_trip r :
  0 <= rp_reserve_factor r <= u32_max -> raw_of_params (params_of_raw r) = r.
Proof.
  intros H. destruct r. unfold raw_of_params, params_of_raw, as_u32, u32_max in *. simpl in *.
  rewrite Z.mod_small by lia. done.
Qed.

Lemma params_round_trip_witness : raw_of_params (params_of_raw params) = params.
Proof. apply params_round_trip. by_eval. Defined.
