(* ===== verification/PoolProps.v ===== *)
(** * What the pool guarantees

    The properties of the pool contract, each applied to a concrete state. *)

From S2P Require Import Prelude Errors FpCore Fp PoolTypes RatesCurve RatesScaling RatesAccrual PoolCache PoolInterest PoolOps PoolSafety PoolContract PoolSolvency Sample.
From stdpp Require Import base numbers list gmap.
From Stdlib Require Import ZArith Lia Bool.

Open Scope Z_scope.

Import Sample.

(** Hypotheses of a property on a concrete state, by evaluation. *)
Ltac by_run := solve [ vm_compute; reflexivity | vm_compute; discriminate | vm_compute; tauto ].

(** C2: in every reachable pool whose published states never touched the supply
    index floor, the value of all supply shares of a market, protocol revenue
    included, is at most its outstanding debt plus its cash. *)
Theorem pool_solvency {W : Type} `{HW : Host W} `{HN : !NoReentry W} w h c :
  reachable (W := W) w -> floor_free (pool_log w) -> market_of w h = Some c ->
  RatesAccrual.claim (c_supplied c) (c_supply_index c)
  <= RatesAccrual.claim (c_borrowed c) (c_borrow_index c) + c_cash c * unit_of (asset_decimals (c_params c)).
Proof.
  intros Hr Hf Hm. pose proof (reachable_solvency _ Hr Hf _ _ Hm) as Hg.
  unfold gap, claims, debts, cash_ray in Hg. lia.
Qed.

Definition market_at (w : Pool) : Cache :=
  match market_of w market with
  | Some c => c
  | None => stored_market market params (Ops.Market.initial_state 0)
  end.

Lemma pool3_floor_free : floor_free (pool_log pool3).
Proof.
  intros u s Hu Hs. apply list_elem_of_In in Hu. vm_compute in Hu.
  repeat (destruct Hu as [Hu|Hu]; [try discriminate Hu; injection Hu as <-|]);
    [apply list_elem_of_In in Hs; destruct Hs as [<-|[]]; vm_compute; discriminate..|destruct Hu].
Defined.

Lemma pool_solvency_witness :
  RatesAccrual.claim (c_supplied (market_at pool3)) (c_supply_index (market_at pool3))
  <= RatesAccrual.claim (c_borrowed (market_at pool3)) (c_borrow_index (market_at pool3))
     + c_cash (market_at pool3) * unit_of 7.
Proof.
  apply (pool_solvency (W := TokenLedger) pool3 market (market_at pool3) pool3_reachable
           pool3_floor_free).
  vm_compute. reflexivity.
Defined.

(** every market of a reachable pool has valid parameters, shares and cash in
    the [i128] range, revenue within supply, and indexes between their floors and
    caps, whatever calls were made. *)
Theorem reachable_markets_well_formed {W : Type} `{HW : Host W} `{HN : !NoReentry W} w h c :
  reachable (W := W) w -> market_of w h = Some c -> market_inv c.
Proof. intros Hr Hm. exact (proj1 (proj2 (reachable_inv _ Hr)) _ _ Hm). Qed.

Lemma reachable_markets_well_formed_witness : market_inv (market_at pool3).
Proof.
  apply (reachable_markets_well_formed (W := TokenLedger) pool3 market _ pool3_reachable).
  vm_compute. reflexivity.
Defined.

(** C3: an owner that passes each stored position with its leg and writes back the
    returned one keeps a book whose deposits sum to supplied minus revenue and
    whose debts sum to borrowed, in every market and after any history. *)
Theorem totals_are_book_sums {W : Type} `{HW : Host W} `{HN : !NoReentry W} w b h c :
  ledger_reachable (W := W) (w, b) -> market_of w h = Some c ->
  book_total Deposit h b = c_supplied c - c_revenue c
  /\ book_total PoolTypes.Borrow h b = c_borrowed c.
Proof.
  intros Hr Hm. destruct (ledger_reachable_tracks _ Hr) as [_ Ht].
  specialize (Ht h). simpl in Ht. rewrite Hm in Ht. exact Ht.
Qed.

Definition book_supply :=
  ok_or (mkPoolPositionMutation (mkScaledPosition 0) (mkMarketIndexRaw 0 0) 0 0,
         mkMarketStateSnapshot market 0 0 0 0 0 0 0, pool1)
    (Ops.Supply.apply (env_at 1000) pool1 supply_entry).

Lemma totals_are_book_sums_witness :
  let b : Book := {[ (Deposit, market, 7%N) := 1000 * RAY ]} in
  book_total Deposit market b
  = c_supplied (market_at book_supply.2) - c_revenue (market_at book_supply.2)
  /\ book_total PoolTypes.Borrow market b = c_borrowed (market_at book_supply.2).
Proof.
  apply (totals_are_book_sums (W := TokenLedger) book_supply.2 _ market); [|by_run].
  eapply lr_step; [eapply lr_step; [apply (lr_deploy controller)|]|].
  - apply (ls_create (env_at 1000) _ _ 1 params pool1); [by vm_compute|by_run].
  - refine (ls_supply (env_at 1000) pool1 ∅ supply_entry book_supply.1.1 book_supply.1.2
      book_supply.2 7%N _ _); by_run.
Defined.

(** A supply leg credits exactly the supplied amount to cash, mints to the
    market exactly the shares it adds to the position, sends nothing out, leaves
    every other market alone and does not widen the gap. *)
Theorem supply_leg_correct env w e m s w' :
  pool_inv w -> Ops.Supply.apply env w e = Ok (m, s, w') ->
  leg_effect keep w (pa_hub_asset (se_action e)) w'
    (scaled_amount (pm_position m) - scaled_amount (pa_position (se_action e)))
    0 (pa_amount (se_action e)) 0.
Proof. intros Hw H. by apply (supply_effect env w Hw e m s). Qed.

Lemma supply_leg_correct_witness :
  leg_effect keep pool1 market book_supply.2
    (scaled_amount (pm_position book_supply.1.1) - 0) 0 10000000000 0.
Proof.
  apply (supply_leg_correct (env_at 1000) pool1 supply_entry book_supply.1.1 book_supply.1.2);
    [|by_run].
  apply (reachable_inv (W := TokenLedger)). eapply reach_step; [apply (reach_deploy controller)|].
  eapply (step_create _ (env_at 1000) 1 params pool1); [by vm_compute|by_run].
Defined.

(** The market a leg leaves behind. *)
Lemma leg_market cap w h w' ds db dc out c' :
  leg_effect cap w h w' ds db dc out -> market_of w' h = Some c' -> market_inv c'.
Proof. intros [(c & c1 & _ & Hm & Hi & _) _ _ _ _] Hm'. congruence. Qed.

(** a borrow leg sends exactly the borrowed amount out of cash and adds to the
    market's debt the shares it adds to the position; it leaves the market within
    its utilization cap and with the liquidation buffer in cash. *)
Theorem borrow_leg_correct env w r e m s w' :
  pool_inv w -> Ops.Borrow.apply env r w e = Ok (m, s, w') ->
  leg_effect keep w (pa_hub_asset (be_action e)) w' 0
    (scaled_amount (pm_position m) - scaled_amount (pa_position (be_action e)))
    (- pa_amount (be_action e)) (pa_amount (be_action e))
  /\ exists c', market_of w' (pa_hub_asset (be_action e)) = Some c'
     /\ within_max_utilization c' /\ buffered c'.
Proof.
  intros Hw H. split; [|by apply (borrow_limits env w Hw r e m s)].
  by apply (borrow_effect env w Hw r e m s).
Qed.

Definition no_mutation : PoolPositionMutation :=
  mkPoolPositionMutation (mkScaledPosition 0) (mkMarketIndexRaw 0 0) 0 0.
Definition no_snapshot : MarketStateSnapshot := mkMarketStateSnapshot market 0 0 0 0 0 0 0.
Definition borrow_run :=
  ok_or (no_mutation, no_snapshot, pool2) (Ops.Borrow.apply (env_at 2000) alice pool2 borrow_entry).

Lemma borrow_leg_correct_witness :
  exists c', market_of borrow_run.2 market = Some c' /\ within_max_utilization c' /\ buffered c'.
Proof.
  apply (borrow_leg_correct (env_at 2000) pool2 alice borrow_entry
           borrow_run.1.1 borrow_run.1.2); [apply pool2_inv|by_run].
Defined.

(** a withdrawal pays out what it takes from cash, at most the requested amount;
    in a liquidation the protocol fee stays behind; an ordinary withdrawal from a
    held position leaves the market within its utilization cap. *)
Theorem withdraw_leg_correct env w r liq e m s w' :
  pool_inv w -> Ops.Withdraw.apply env r liq w e = Ok (m, s, w') ->
  (let net := pm_actual_amount m - kept_fee liq e in
   leg_effect keep w (pa_hub_asset (we_action e)) w'
     (scaled_amount (pm_position m) - scaled_amount (pa_position (we_action e))) 0 (- net) net
   /\ 0 <= net)
  /\ 0 <= scaled_amount (pm_position m) <= scaled_amount (pa_position (we_action e))
  /\ pm_actual_amount m <= pa_amount (we_action e)
  /\ (liq = false -> 0 < scaled_amount (pa_position (we_action e)) ->
      exists c', market_of w' (pa_hub_asset (we_action e)) = Some c' /\ within_max_utilization c').
Proof.
  intros Hw H. destruct (withdraw_effect env w Hw r liq e m s w' H) as (net & He & Hp & Hn & Ha & ->).
  cbv zeta. split_and!; [exact He|lia..|].
  intros ->. by apply (withdraw_limits env w Hw r e m s).
Qed.

Definition withdraw_entry : PoolWithdrawEntry := mkPoolWithdrawEntry (action (1000 * RAY) 1000000000) 0.
Definition withdraw_run :=
  ok_or (no_mutation, no_snapshot, pool3)
    (Ops.Withdraw.apply year_later alice false pool3 withdraw_entry).

Lemma withdraw_leg_correct_witness :
  0 <= scaled_amount (pm_position withdraw_run.1.1) <= 1000 * RAY
  /\ pm_actual_amount withdraw_run.1.1 <= 1000000000.
Proof.
  destruct (withdraw_leg_correct year_later pool3 alice false withdraw_entry
    withdraw_run.1.1 withdraw_run.1.2 withdraw_run.2 pool3_inv) as (_ & H1 & H2 & _); [by_run|].
  exact (conj H1 H2).
Defined.

(** A repayment credits cash with the amount it keeps, returns the rest to the
    payer, burns from the market the debt shares it takes off the position and
    never more than the position holds. *)
Theorem repay_leg_correct env w p a m s w' :
  pool_inv w -> Ops.Repay.apply env p w a = Ok (m, s, w') ->
  leg_effect keep w (pa_hub_asset a) w' 0
    (scaled_amount (pm_position m) - scaled_amount (pa_position a))
    (pm_actual_amount m) (pa_amount a - pm_actual_amount m)
  /\ 0 <= scaled_amount (pm_position m) <= scaled_amount (pa_position a)
  /\ 0 <= pm_actual_amount m <= pa_amount a.
Proof. intros Hw H. exact (repay_effect env w Hw p a m s w' H). Qed.

Definition debt_shares : Z := 599999809867442432854103416005.
Definition repay_run :=
  ok_or (no_mutation, no_snapshot, pool3)
    (Ops.Repay.apply year_later alice pool3 (action debt_shares 7000000000)).

Lemma repay_leg_correct_witness :
  0 <= scaled_amount (pm_position repay_run.1.1) <= debt_shares
  /\ 0 <= pm_actual_amount repay_run.1.1 <= 7000000000.
Proof.
  apply (repay_leg_correct year_later pool3 alice (action debt_shares 7000000000)
    repay_run.1.1 repay_run.1.2 repay_run.2 pool3_inv). by_run.
Defined.

(** Opening a strategy mints debt for the full amount, sends the amount less
    the fee, keeps the fee in cash as protocol revenue and does not widen the gap. *)
Theorem strategy_leg_correct env w r a charge m w' :
  pool_inv w -> Ops.Strategy.apply env w r a charge = Ok (m, w') ->
  leg_effect keep w (pa_hub_asset a) w' 0
    (scaled_amount (sm_position m) - scaled_amount (pa_position a))
    (- sm_amount_received m) (sm_amount_received m)
  /\ 0 <= sm_amount_received m <= sm_actual_amount m
  /\ sm_actual_amount m = pa_amount a.
Proof.
  intros Hw H. destruct (strategy_effect env w Hw r a charge m w' H) as (He & _ & Hn & Ha).
  exact (conj He (conj Hn Ha)).
Qed.

Definition strategy_run :=
  ok_or (mkPoolStrategyMutation (mkScaledPosition 0) (mkMarketIndexRaw 0 0) 0 0 0, pool3)
    (Ops.Strategy.apply (env_at 2000) pool3 alice (action 0 1000000000) true).

Lemma strategy_leg_correct_witness :
  0 <= sm_amount_received strategy_run.1 <= sm_actual_amount strategy_run.1
  /\ sm_actual_amount strategy_run.1 = 1000000000.
Proof.
  apply (strategy_leg_correct (env_at 2000) pool3 alice (action 0 1000000000) true
    strategy_run.1 strategy_run.2 pool3_inv). by_run.
Defined.

(** Net settlement burns supply and debt shares of one market against each
    other, moves no cash, stays within both positions and the requested amount,
    and does not widen the gap. *)
Theorem net_settle_leg_correct env w e m s w' :
  pool_inv w -> Ops.NetSettle.apply env w e = Ok (m, s, w') ->
  leg_effect keep w (ns_hub_asset e) w'
    (scaled_amount (nr_supply_position m) - scaled_amount (ns_supply_position e))
    (scaled_amount (nr_debt_position m) - scaled_amount (ns_debt_position e)) 0 0
  /\ 0 <= scaled_amount (nr_supply_position m) <= scaled_amount (ns_supply_position e)
  /\ 0 <= scaled_amount (nr_debt_position m) <= scaled_amount (ns_debt_position e)
  /\ 0 <= nr_settled_amount m <= ns_amount e.
Proof. intros Hw H. exact (net_settle_effect env w Hw e m s w' H). Qed.

Definition settle_entry : PoolNetSettleEntry :=
  mkPoolNetSettleEntry market 2000000000 (mkScaledPosition (500 * RAY)) (mkScaledPosition (300 * RAY)).
Definition settle_run :=
  ok_or (mkPoolNetSettleResult (mkScaledPosition 0) (mkScaledPosition 0) (mkMarketIndexRaw 0 0) 0,
         no_snapshot, pool3)
    (Ops.NetSettle.apply year_later pool3 settle_entry).

Lemma net_settle_leg_correct_witness :
  0 <= nr_settled_amount settle_run.1.1 <= 2000000000.
Proof.
  destruct (net_settle_leg_correct year_later pool3 settle_entry settle_run.1.1 settle_run.1.2
    settle_run.2 pool3_inv) as (_ & _ & _ & H); [by_run|]. exact H.
Defined.

(** seizing a debt burns it from the market and takes its value, rounded up,
    off supplier claims through the supply index; as long as the index floor does
    not stop the write-down, a covered market stays covered. *)
Theorem seize_debt_socializes env w e s w' :
  pool_inv w -> sz_side e = PoolTypes.Borrow -> Ops.Seize.apply env w e = Ok (tt, s, w') ->
  exists k, leg_effect (fun g => Z.max 0 g + k) w (sz_hub_asset e) w' 0
              (- scaled_amount (sz_position e)) 0 0
    /\ 0 <= k /\ (snap_supply_index s <> SUPPLY_INDEX_FLOOR_RAW -> k = 0).
Proof.
  intros Hw Hs H.
  destruct (seize_borrow_effect env w Hw e s w' Hs H) as (k & Hk & Hf & He & _).
  exists k. exact (conj He (conj Hk Hf)).
Qed.

Definition seize_entry : PoolSeizeEntry :=
  mkPoolSeizeEntry market PoolTypes.Borrow (mkScaledPosition (100 * RAY)).
Definition seize_run :=
  ok_or (tt, no_snapshot, pool3) (Ops.Seize.apply year_later pool3 seize_entry).

Lemma seize_debt_socializes_witness :
  exists k, leg_effect (fun g => Z.max 0 g + k) pool3 market seize_run.2 0 (- (100 * RAY)) 0 0
    /\ k = 0.
Proof.
  destruct (seize_debt_socializes year_later pool3 seize_entry seize_run.1.2 seize_run.2
    pool3_inv eq_refl) as (k & He & _ & Hk); [by_run|].
  exists k. split; [exact He|]. apply Hk. vm_compute. discriminate.
Defined.

(** Seizing a deposit moves its shares from the suppliers to protocol revenue:
    total supply, debt, cash and the gap stay. *)
Theorem seize_deposit_becomes_revenue env w e s w' :
  pool_inv w -> sz_side e = Deposit -> Ops.Seize.apply env w e = Ok (tt, s, w') ->
  leg_effect keep w (sz_hub_asset e) w' (- scaled_amount (sz_position e)) 0 0 0.
Proof. intros Hw Hs H. exact (proj1 (seize_deposit_effect env w Hw e s w' Hs H)). Qed.

Definition seize_deposit_entry : PoolSeizeEntry :=
  mkPoolSeizeEntry market Deposit (mkScaledPosition (100 * RAY)).
Definition seize_deposit_run :=
  ok_or (tt, no_snapshot, pool3) (Ops.Seize.apply year_later pool3 seize_deposit_entry).

Lemma seize_deposit_becomes_revenue_witness :
  leg_effect keep pool3 market seize_deposit_run.2 (- (100 * RAY)) 0 0 0.
Proof.
  apply (seize_deposit_becomes_revenue year_later pool3 seize_deposit_entry
    seize_deposit_run.1.2 seize_deposit_run.2 pool3_inv eq_refl). by_run.
Defined.

(** Claiming revenue pays out of cash an amount worth no more than the revenue
    shares it burns, and takes nothing from suppliers. *)
Theorem revenue_claim_correct env w h m w' :
  pool_inv w -> Ops.Revenue.apply env w h = Ok (m, w') ->
  leg_effect keep w h w' 0 0 (- am_actual_amount m) (am_actual_amount m)
  /\ 0 <= am_actual_amount m.
Proof. intros Hw H. exact (revenue_effect env w Hw h m w' H). Qed.

Definition revenue_run :=
  ok_or (mkPoolAmountMutation 0, pool3) (Ops.Revenue.apply year_later pool3 market).

Lemma revenue_claim_correct_witness :
  leg_effect keep pool3 market revenue_run.2 0 0 (- am_actual_amount revenue_run.1)
    (am_actual_amount revenue_run.1)
  /\ 0 <= am_actual_amount revenue_run.1.
Proof.
  apply (revenue_claim_correct year_later pool3 market revenue_run.1 revenue_run.2 pool3_inv).
  by_run.
Defined.

(** Recapitalization keeps at most the amount given, returns the rest, and a
    market that receives its whole shortfall reports none afterwards. *)
Theorem recapitalize_correct env w h p a m w' :
  pool_inv w -> Ops.Recapitalize.apply env w h p a = Ok (m, w') ->
  leg_effect keep w h w' 0 0 (am_actual_amount m) (a - am_actual_amount m)
  /\ 0 <= am_actual_amount m <= a
  /\ (forall c n, Ops.synced_market env w h = Ok c -> Guards.backing_shortfall c = Ok n ->
      n <= a -> exists c', market_of w' h = Some c' /\ Guards.backing_shortfall c' = Ok 0).
Proof.
  intros Hw H. destruct (recapitalize_effect env w Hw h p a m w' H) as (He & Ha).
  split_and!; [exact He|lia..|]. intros c n.
  exact (recapitalize_restores env w Hw h p a m w' c n H).
Qed.

Definition recapitalize_run :=
  ok_or (mkPoolAmountMutation 0, pool3) (Ops.Recapitalize.apply year_later pool3 market alice 500).

Lemma recapitalize_correct_witness : 0 <= am_actual_amount recapitalize_run.1 <= 500.
Proof.
  destruct (recapitalize_correct year_later pool3 market alice 500 recapitalize_run.1
    recapitalize_run.2 pool3_inv) as (_ & H & _); [by_run|]. exact H.
Defined.

(** a market whose claims are covered is never refused a supply for lack of
    backing: the shortfall it computes is zero. *)
Theorem covered_market_accepts_supply c :
  market_inv c -> gap c <= 0 -> claims c <= i128_max ->
  ceil_div (c_borrowed c * c_borrow_index c) RAY <= i128_max ->
  Guards.require_backed_market c = Ok tt.
Proof.
  intros Hi Hg Hc Hd. unfold Guards.require_backed_market.
  by rewrite (covered_no_shortfall c Hi Hg Hc Hd).
Qed.

Lemma covered_market_accepts_supply_witness :
  Guards.require_backed_market (market_at pool3) = Ok tt.
Proof.
  apply covered_market_accepts_supply; [|by_run..].
  apply (proj1 (proj2 pool3_inv) market). by_run.
Defined.

(** C37: a completed flash loan moves the fee and nothing else.  The market, accrued to
    the ledger, is flashloanable and has the amount in cash; the fee is the configured rate of
    the amount rounded half up, one unit at least where there is a rate.  The pool's token
    balance rises by exactly the fee, and the stored market is the accrued one with the fee
    added to cash and the fee's shares at the supply index, rounded down, minted as revenue:
    revenue and supplied shares rise by the same [fee_shares], suppliers' shares, debt and
    indexes stay, and claims do not outgrow what backs them. *)
Theorem flash_loan_correct {W : Type} `{HW : Host W} `{HN : !NoReentry W}
    env p (w : W) h initiator receiver amount data fee p' w' :
  pool_inv p ->
  Flash.apply env p w h initiator receiver amount data = Ok (fee, p', w') ->
  leg_effect keep p h p' 0 0 fee 0
  /\ exists c, Ops.synced_market env p h = Ok c
     /\ is_flashloanable (c_params c) = true /\ amount <= c_cash c
     /\ (0 < flashloan_fee (c_params c) -> 0 < fee)
     /\ fee = Flash.charged_fee (flashloan_fee (c_params c)) amount
     /\ pool_state p' !! h = Some {|
          rs_supplied := c_supplied c + Flash.fee_shares c fee;
          rs_borrowed := c_borrowed c;
          rs_revenue := c_revenue c + Flash.fee_shares c fee;
          rs_borrow_index := c_borrow_index c;
          rs_supply_index := c_supply_index c;
          rs_last_timestamp := c_last_timestamp c;
          rs_cash := c_cash c + fee |}
     /\ token_balance w' (asset_id (c_params c)) (current_contract_address env)
        = token_balance w (asset_id (c_params c)) (current_contract_address env) + fee.
Proof.
  intros Hp H.
  destruct (Flash.flash_effect env p Hp w h initiator receiver amount data fee p' w' H)
    as (He & _ & Hc). exact (conj He Hc).
Qed.

Definition flash_run :=
  ok_or (0, pool3, tokens)
    (Flash.apply year_later pool3 tokens market alice bot 1000000000 []).

Lemma flash_loan_correct_witness : leg_effect keep pool3 market flash_run.1.2 0 0 900000 0.
Proof.
  apply (flash_loan_correct year_later pool3 tokens market alice bot 1000000000 [] 900000
    flash_run.1.2 flash_run.2 pool3_inv). by_run.
Defined.

(** the read-only [get_bulk_indexes] returns, market by market, exactly the
    indexes that accruing the market in the same ledger stores. *)
Theorem projected_indexes_are_committed env w hs ixs :
  pool_inv w -> LiquidityPool.get_bulk_indexes env w hs = Ok ixs ->
  Forall2 (fun h ix => forall w', Ops.Market.accrue_one env w h = Ok w' ->
    exists c', market_of w' h = Some c' /\ Cache.market_index c' = ix) hs ixs.
Proof.
  intros Hw H. unfold LiquidityPool.get_bulk_indexes in H.
  apply rbind_Ok in H as (t & Ht & H).
  apply (rfold_collect _ (fun h =>
    let* sync := Storage.load_sync_data w h in
    let* m := RatesAccrual.simulate_update_indexes t sync in Ok (market_index_raw_of m))) in H
    as (ys & -> & Hys);
    [|intros acc h; by destruct (Storage.load_sync_data w h) as [d|]; simpl;
      [destruct (RatesAccrual.simulate_update_indexes t d)|]].
  simpl. eapply Forall2_impl; [exact Hys|]. intros h ix Hix w' Hacc. cbv beta in Hix.
  apply rbind_Ok in Hix as (sync & Hsync & Hix).
  pose proof Hacc as Hacc'. unfold Ops.Market.accrue_one in Hacc'.
  apply rbind_Ok in Hacc' as (c0 & Hl & Hacc'). apply rbind_Ok in Hacc' as (c & Hg & Hacc').
  simpl in Hacc'. injection Hacc' as <-.
  assert (market_inv c0) as Hi.
  { destruct (load_market _ _ _ _ Hl) as (cs & Hm & Hsame & _).
    apply (same_market_inv cs); [exact Hsame|]. exact (proj1 (proj2 Hw) _ _ Hm). }
  pose proof (global_sync_simulates env w h c0 sync t Hi Hl Hsync Ht) as Hsim.
  rewrite Hg, Hix in Hsim. simpl in Hsim. injection Hsim as Hsim.
  assert (Ops.synced_market env w h = Ok c) as Hsy by (unfold Ops.synced_market; by rewrite Hl).
  destruct (committed_market env w Hw h c c (Storage.write_state w (c_hub_asset c) (Cache.to_state c))
    Hsy eq_refl eq_refl eq_refl eq_refl) as (c1 & Hm1 & (_ & _ & _ & _ & Hbi & Hsi & _)).
  exists c1. split; [exact Hm1|]. rewrite <- Hsim. unfold Cache.market_index. by rewrite Hbi, Hsi.
Qed.

Definition bulk_run := ok_or [] (LiquidityPool.get_bulk_indexes year_later pool3 [market]).

Lemma projected_indexes_are_committed_witness :
  Forall2 (fun h ix => forall w', Ops.Market.accrue_one year_later pool3 h = Ok w' ->
    exists c', market_of w' h = Some c' /\ Cache.market_index c' = ix) [market] bulk_run.
Proof. apply (projected_indexes_are_committed year_later pool3 [market]); [apply pool3_inv|by_run]. Defined.

(** C40: accruing a well-formed market over at most a year always returns when debt
    and supply values have headroom, so calls cannot be blocked by overflow there. *)
Theorem yearly_accrual_returns c :
  market_inv c -> headroom c -> Cache.elapsed_ms c <= RatesCurve.MAX_COMPOUND_DELTA_MS ->
  exists c', Interest.global_sync c = Ok c'.
Proof. apply global_sync_returns. Qed.

Definition loaded := ok_or (market_at pool3) (Cache.load year_later pool3 market).

Lemma yearly_accrual_returns_witness : exists c', Interest.global_sync loaded = Ok c'.
Proof.
  apply yearly_accrual_returns; [| |by_run].
  - destruct (load_market year_later pool3 market loaded) as (cs & Hm & Hsame & _); [by_run|].
    apply (same_market_inv cs); [exact Hsame|]. exact (proj1 (proj2 pool3_inv) _ _ Hm).
  - split; [by_run|]. split; [by_run|]. right. by_run.
Defined.

(** Batches of supplies, borrows, withdrawals and repayments that succeed name
    every market at most once and return one result per entry. *)
Theorem batches_name_markets_once env w r :
  (forall es rs w', LiquidityPool.supply env w es = Ok (rs, w') ->
     NoDup (map (fun e => pa_hub_asset (se_action e)) es) /\ length rs = length es)
  /\ (forall es rs w', LiquidityPool.borrow env w r es = Ok (rs, w') ->
     NoDup (map (fun e => pa_hub_asset (be_action e)) es) /\ length rs = length es)
  /\ (forall l es rs w', LiquidityPool.withdraw env w r l es = Ok (rs, w') ->
     NoDup (map (fun e => pa_hub_asset (we_action e)) es) /\ length rs = length es)
  /\ (forall es rs w', LiquidityPool.repay env w r es = Ok (rs, w') ->
     NoDup (map pa_hub_asset es) /\ length rs = length es).
Proof.
  split_and!; intros * H; apply LiquidityPool.only_owner_Ok in H as [H _].
  - eapply run_batch_unique; [|exact H]. apply supply_key.
  - eapply run_batch_unique; [|exact H]. apply borrow_key.
  - eapply run_batch_unique; [|exact H]. apply withdraw_key.
  - eapply run_batch_unique; [|exact H]. apply repay_key.
Qed.

(** Without the stored owner's authorization no mutating entrypoint returns,
    whatever its arguments. *)
Theorem mutators_need_owner {W : Type} `{HW : Host W} env w :
  (forall o, pool_owner w = Some o -> authorized env o = false) ->
  (forall hub p, LiquidityPool.create_market env w hub p = Err HostTrap)
  /\ (forall h m, LiquidityPool.update_params env w h m = Err HostTrap)
  /\ (forall es, LiquidityPool.supply env w es = Err HostTrap)
  /\ (forall r es, LiquidityPool.borrow env w r es = Err HostTrap)
  /\ (forall r l es, LiquidityPool.withdraw env w r l es = Err HostTrap)
  /\ (forall p es, LiquidityPool.repay env w p es = Err HostTrap)
  /\ (forall hs, LiquidityPool.update_indexes env w hs = Err HostTrap)
  /\ (forall h p a, LiquidityPool.recapitalize env w h p a = Err HostTrap)
  /\ (forall (x : W) h i r a d, LiquidityPool.flash_loan env w x h i r a d = Err HostTrap)
  /\ (forall r a f, LiquidityPool.create_strategy env w r a f = Err HostTrap)
  /\ (forall es, LiquidityPool.seize_positions env w es = Err HostTrap)
  /\ (forall e, LiquidityPool.net_settle env w e = Err HostTrap)
  /\ (forall h, LiquidityPool.claim_revenue env w h = Err HostTrap).
Proof.
  intros Hauth.
  assert (forall A (body : res A), LiquidityPool.only_owner env w body = Err HostTrap) as Hg.
  { intros A body. unfold LiquidityPool.only_owner.
    destruct (pool_owner w) as [o|]; [|done]. by rewrite (Hauth o). }
  split_and!; intros; apply Hg.
Qed.

Definition stranger_env : Env := mkEnv 1000 pool_address (fun a => bool_decide (a = alice)).

Lemma mutators_need_owner_witness : LiquidityPool.supply stranger_env pool1 [supply_entry] = Err HostTrap.
Proof.
  destruct (mutators_need_owner (W := TokenLedger) stranger_env pool1) as (_ & _ & H & _).
  - vm_compute. intros o [= <-]. reflexivity.
  - apply H.
Defined.

Lemma batches_name_markets_once_witness :
  NoDup (map (fun e => pa_hub_asset (se_action e)) [supply_entry]) /\ length supplied.1 = 1%nat.
Proof.
  apply (proj1 (batches_name_markets_once (env_at 1000) pool1 alice) [supply_entry] supplied.1
           supplied.2). by_run.
Defined.
