(* ===== verification/OracleMath.v ===== *)
(** * Oracle types (common/src/types/oracle.rs, common/src/types/composable_oracle.rs)

    How the price of a key is assembled from one or two sources, and the detailed status
    a price query returns.  Symbols and strings are strings; a 32-byte identifier is a
    number. *)

From S2P Require Import Prelude Errors FpCore Fp PoolTypes ControllerTypes.
From stdpp Require Import base numbers list gmap strings.
From Stdlib Require Import ZArith Lia Bool.

Open Scope Z_scope.

(** ** types/oracle.rs *)

Inductive OracleAssetRef : Type :=
| AssetStellar (a : Address)
| AssetSymbol (s : string)
| AssetString (s : string).

Record OracleTolerance : Type := mkOracleTolerance {
  upper_ratio_bps : Z;
  lower_ratio_bps : Z
}.

Inductive OracleReadMode : Type :=
| Spot
| Twap (records : Z).

Record PriceStatus : Type := mkPriceStatus {
  final_wad : Z;
  primary_wad : Z;
  secondary_wad : Z;
  price_timestamp : Z;
  ps_stale : bool;
  ps_deviation : bool;
  ps_valid : bool;
  ps_error_code : option Z
}.

(** [PriceStatus::unusable] *)
Definition unusable : PriceStatus :=
  {| final_wad := 0; primary_wad := 0; secondary_wad := 0; price_timestamp := 0;
     ps_stale := false; ps_deviation := false; ps_valid := false; ps_error_code := None |}.

(** ** types/composable_oracle.rs *)

Definition MAX_RESOLUTION_DEPTH : Z := 3.
Definition MIN_SOURCES : Z := 1.
Definition MAX_SOURCES : Z := 2.
Definition MAX_CURVE_COINS : Z := 3.

Inductive PriceKey : Type :=
| Token (a : Address)
| Ref (s : string).

#[export] Instance PriceKey_eq_dec : EqDecision PriceKey.
Proof. solve_decision. Defined.
#[export] Instance PriceKey_countable : Countable PriceKey :=
  inj_countable' (fun k => match k with Token a => inl a | Ref s => inr s end)
    (fun x => match x with inl a => Token a | inr s => Ref s end) ltac:(by intros []).

Record ReflectorFeedRef : Type := mkReflectorFeedRef {
  rf_contract : Address;
  rf_asset : OracleAssetRef;
  rf_read_mode : OracleReadMode
}.

Record ChainlinkFeedRef : Type := mkChainlinkFeedRef {
  cf_contract : Address;
  cf_data_id : N
}.

Inductive FeedNature : Type := Market | Fundamental.

#[export] Instance FeedNature_eq_dec : EqDecision FeedNature.
Proof. solve_decision. Defined.

Record MultiFeedRef : Type := mkMultiFeedRef {
  mf_contract : Address;
  mf_feed_id : string;
  mf_nature : FeedNature
}.

Inductive ProviderRef : Type :=
| Reflector (r : ReflectorFeedRef)
| RedStone (r : MultiFeedRef)
| Xoxno (r : MultiFeedRef)
| Chainlink (r : ChainlinkFeedRef).

(** [ProviderRef::contract] *)
Definition provider_contract (p : ProviderRef) : Address :=
  match p with
  | Reflector r => rf_contract r
  | RedStone r | Xoxno r => mf_contract r
  | Chainlink r => cf_contract r
  end.

Definition is_smoothed (p : ProviderRef) : bool :=
  match p with
  | Reflector r => match rf_read_mode r with Twap _ => true | Spot => false end
  | RedStone _ | Xoxno _ | Chainlink _ => false
  end.

Definition nature (p : ProviderRef) : FeedNature :=
  match p with
  | Reflector _ => Market
  | RedStone r | Xoxno r => mf_nature r
  | Chainlink _ => Market
  end.

Definition is_unsmoothed_market_leg (p : ProviderRef) : bool :=
  bool_decide (nature p = Market) && negb (is_smoothed p).

Record FeedSource : Type := mkFeedSource {
  fs_provider : ProviderRef;
  fs_decimals : Z;
  fs_max_stale_seconds : Z
}.

Record ScaledSource : Type := mkScaledSource {
  ss_factor : FeedSource;
  ss_quote : PriceKey;
  ss_min_factor_wad : Z;
  ss_max_factor_wad : Z
}.

Record AquariusLpSource : Type := mkAquariusLpSource {
  aq_pool : Address;
  aq_token_a : Address;
  aq_token_b : Address;
  aq_key_a : PriceKey;
  aq_key_b : PriceKey;
  aq_reserve_a_decimals : Z;
  aq_reserve_b_decimals : Z;
  aq_min_pool_value_wad : Z
}.

Record CurveStableLpSource : Type := mkCurveStableLpSource {
  cu_pool : Address;
  cu_coins : list Address;
  cu_wasm_hash : N;
  cu_min_pool_value_wad : Z
}.

Inductive PriceSource : Type :=
| Feed (f : FeedSource)
| Scaled (s : ScaledSource)
| AquariusLp (lp : AquariusLpSource)
| AquariusStableLp (lp : AquariusLpSource)
| CurveStableLp (lp : CurveStableLpSource).

Definition is_lp (s : PriceSource) : bool :=
  match s with
  | AquariusLp _ | AquariusStableLp _ | CurveStableLp _ => true
  | Feed _ | Scaled _ => false
  end.

Inductive IndependencePolicy : Type :=
| RequireDisjoint
| AllowShared (declared : list Address).

Record AssetOracle : Type := mkAssetOracle {
  ao_asset_decimals : Z;
  ao_max_price_stale_seconds : Z;
  ao_sources : list PriceSource;
  ao_tolerance : OracleTolerance;
  ao_independence : IndependencePolicy;
  ao_min_sanity_price_wad : Z;
  ao_max_sanity_price_wad : Z
}.

Definition is_dual (o : AssetOracle) : bool := (length (ao_sources o) =? 2)%nat.

Definition has_lp_source (o : AssetOracle) : bool :=
  match ao_sources o with
  | source :: _ => is_lp source
  | [] => false
  end.

(** ** Oracle arithmetic (common/src/oracle/observation.rs, lp.rs, lp_stable.rs)

    Normalisation of provider prices, and the fair value of liquidity-pool shares.  An
    oracle function either traps the host or returns a value or an [OracleError]; [let?]
    sequences the latter inside the former. *)

Abbreviation ores A := (res (result OracleError A)).

Definition obind {A B : Type} (c : ores A) (k : A -> ores B) : ores B :=
  let* r := c in
  match r with
  | Ok a => k a
  | Err e => Ok (Err e)
  end.

Notation "'let?' x ':=' c 'in' k" := (obind c (fun x => k))
  (at level 200, x pattern, c at level 100, k at level 200, only parsing).

(** [ok_or] on the option inside a computation *)
Definition ok_or {A : Type} (c : res (option A)) (e : OracleError) : ores A :=
  let* o := c in
  Ok (of_option e o).

Definition oreturn {A : Type} (a : A) : ores A := Ok (Ok a).
Definition ofail {A : Type} (e : OracleError) : ores A := Ok (Err e).

Lemma obind_Ok {A B} (c : ores A) (k : A -> ores B) r :
  obind c k = Ok r ->
  (exists a, c = Ok (Ok a) /\ k a = Ok r) \/ (exists e, c = Ok (Err e) /\ r = Err e).
Proof.
  unfold obind. intros H. apply rbind_Ok in H as ([a|e] & Hc & H); [left; eauto|].
  right. exists e. split; [done|congruence].
Qed.

(** ** U256 arithmetic: the host traps outside the range *)

Definition u256_max : Z := 2 ^ 256 - 1.
Definition u256 (z : Z) : res Z :=
  if (0 <=? z) && (z <=? u256_max) then Ok z else Err HostTrap.
Definition u256_add (a b : Z) : res Z := u256 (a + b).
Definition u256_sub (a b : Z) : res Z := u256 (a - b).
Definition u256_mul (a b : Z) : res Z := u256 (a * b).
Definition u256_div (a b : Z) : res Z :=
  if b =? 0 then Err HostTrap else u256 (a / b).

Lemma u256_in z : 0 <= z <= u256_max -> u256 z = Ok z.
Proof. intros H. unfold u256. by rewrite (proj2 (Z.leb_le 0 z)), (proj2 (Z.leb_le z _)) by lia. Qed.

Lemma u256_div_in a b : 0 <= a <= u256_max -> 0 < b -> u256_div a b = Ok (a / b).
Proof.
  intros Ha Hb. unfold u256_div. rewrite (proj2 (Z.eqb_neq b 0)) by lia. apply u256_in.
  pose proof (Z.div_pos a b ltac:(lia) Hb). pose proof (Z.div_le_upper_bound a b a Hb ltac:(nia)). lia.
Qed.

(** ** observation.rs *)

Module Observation.

Definition MAX_FUTURE_SKEW_SECONDS : Z := 60.
Definition MAX_TWAP_RECORDS : Z := 12.
Definition MIN_PRICE_STALE_SECONDS : Z := 60.
Definition MAX_PRICE_STALE_SECONDS : Z := 93600.
Definition MIN_ORACLE_RESOLUTION_SECONDS : Z := 60.
Definition MIN_ORACLE_DECIMALS : Z := 1.
Definition MAX_ORACLE_DECIMALS : Z := 18.
Definition MAX_SINGLE_SOURCE_SANITY_BAND_BPS : Z := 1000.
Definition MAX_LEG_AGE_SPREAD_SECONDS : Z := 3600.
Definition MAX_LP_SANITY_BAND_BPS : Z := 8182.
Definition MS_PER_SECOND : Z := 1000.

Definition try_normalize_positive_price (price decimals : Z) : option Z :=
  if (price <=? 0) || (WAD_DECIMALS <? decimals) then None
  else
    match i128_checked_pow 10 (WAD_DECIMALS - decimals) with
    | Some factor => i128_checked_mul price factor
    | None => None
    end.

Definition is_stale (now_secs feed_ts max_stale : Z) : bool :=
  (feed_ts <? now_secs) && (max_stale <? now_secs - feed_ts).

Definition is_future_at (now_secs feed_ts : Z) : bool :=
  if now_secs + MAX_FUTURE_SKEW_SECONDS <=? u64_max
  then now_secs + MAX_FUTURE_SKEW_SECONDS <? feed_ts else false.

Definition check_not_future_at (now_secs feed_ts : Z) : res unit :=
  do! require (now_secs + MAX_FUTURE_SKEW_SECONDS <=? u64_max) (EGeneric MathOverflow) in
  require (feed_ts <=? now_secs + MAX_FUTURE_SKEW_SECONDS) (EOracle PriceFeedStale).

(** The value fits [u128], then [i128]. *)
Definition try_u256_to_i128 (value : Z) : option Z :=
  if value <=? i128_max then Some value else None.

Definition u256_to_i128 (value : Z) : res Z :=
  of_option (EGeneric MathOverflow) (try_u256_to_i128 value).

Definition try_amount_to_wad (amount decimals : Z) : ores Z :=
  match (if decimals <=? WAD_DECIMALS then i128_checked_pow 10 (WAD_DECIMALS - decimals)
         else None) with
  | Some scale => ok_or (FpCore.try_mul_div_half_up amount scale 1) InvalidPrice
  | None => ofail InvalidPrice
  end.

Definition millis_to_seconds (timestamp_ms : Z) : Z := timestamp_ms / MS_PER_SECOND.

End Observation.

(** ** lp.rs *)

Module Lp.

Import Observation.

(** The Newton loop of [isqrt_of_product]: [x] the current iterate. *)
Fixpoint newton_sqrt (fuel : nat) (n x : Z) : res (option Z) :=
  let* q := u256_div n x in
  let* sum := u256_add x q in
  let* y := u256_div sum 2 in
  if y <? x then
    match fuel with
    | O => Ok None
    | S fuel => newton_sqrt fuel n y
    end
  else Ok (Some x).

Definition sqrt_fuel : nat := 130.

Definition u128_max : Z := 2 ^ 128 - 1.

(** [u128::isqrt] rounds down; [saturating_add] clamps at the maximum. *)
Definition isqrt_of_product (a b : Z) : res Z :=
  let* n := u256_mul a b in
  if n <=? 1 then Ok n
  else
    let* seed := u256_mul (Z.min (Z.sqrt a + 1) u128_max) (Z.min (Z.sqrt b + 1) u128_max) in
    let* x := newton_sqrt sqrt_fuel n seed in
    of_option HostTrap x.

Record LpLeg : Type := mkLpLeg {
  lg_reserve : Z;
  lg_decimals : Z;
  lg_price_wad : Z
}.

Record LpSupply : Type := mkLpSupply {
  sl_total_shares : Z;
  sl_decimals : Z
}.

Definition reserve_value_wad (leg : LpLeg) : ores Z :=
  match i128_checked_pow 10 (lg_decimals leg) with
  | Some denom => ok_or (FpCore.try_mul_div_half_up (lg_reserve leg) (lg_price_wad leg) denom)
                    InvalidPrice
  | None => ofail InvalidPrice
  end.

Definition not_positive (a b : LpLeg) (supply : LpSupply) : bool :=
  (lg_reserve a <=? 0) || (lg_reserve b <=? 0) || (lg_price_wad a <=? 0)
  || (lg_price_wad b <=? 0) || (sl_total_shares supply <=? 0).

Definition fair_lp_price_wad (a b : LpLeg) (supply : LpSupply) : ores Z :=
  if not_positive a b supply then ofail InvalidPrice
  else
    let? value_a := reserve_value_wad a in
    let? value_b := reserve_value_wad b in
    let* root := isqrt_of_product value_a value_b in
    let* total_value := u256_mul root 2 in
    let? share_supply_wad := try_amount_to_wad (sl_total_shares supply) (sl_decimals supply) in
    if share_supply_wad <=? 0 then ofail InvalidPrice
    else
      let* scaled := u256_mul total_value WAD in
      let* fair := u256_div scaled share_supply_wad in
      Ok (of_option InvalidPrice (try_u256_to_i128 fair)).

End Lp.

(** ** lp_stable.rs *)

Module LpStable.

Import Observation Lp.

Definition N_COINS : Z := 2.
Definition MIN_AMP : Z := 1.
Definition MAX_AMP : Z := 1000000.
Definition MAX_D_ITERATIONS : nat := 255.
Definition MAX_NORMALIZED_RESERVE_WAD : Z := 10 ^ 34.

Definition checked_mul (a b : Z) : ores Z :=
  Ok (if a * b <=? u256_max then Ok (a * b) else Err InvalidPrice).

(** One turn of the loop: the next iterate. *)
Definition d_step (x_smaller x_larger sum ann d : Z) : ores Z :=
  let* dd := u256_mul d d in
  let* sn := u256_mul x_smaller N_COINS in
  let* d_p := u256_div dd sn in
  let? dpd := checked_mul d_p d in
  let* ln := u256_mul x_larger N_COINS in
  let* d_p := u256_div dpd ln in
  let* as_ := u256_mul ann sum in
  let* ndp := u256_mul N_COINS d_p in
  let* top := u256_add as_ ndp in
  let? numerator := checked_mul top d in
  let* ann1 := u256_sub ann 1 in
  let* left_part := u256_mul ann1 d in
  let* n1 := u256_add N_COINS 1 in
  let* right_part := u256_mul n1 d_p in
  let* denominator := u256_add left_part right_part in
  let* next := u256_div numerator denominator in
  oreturn next.

Fixpoint d_loop (turns : nat) (x_smaller x_larger sum ann d : Z) : ores Z :=
  match turns with
  | O => ofail InvalidPrice
  | S turns =>
      let? next := d_step x_smaller x_larger sum ann d in
      if Z.abs (next - d) <=? 1 then oreturn next
      else d_loop turns x_smaller x_larger sum ann next
  end.

Definition solve_stable_d (xa_wad xb_wad amp : Z) : ores Z :=
  if (xa_wad <=? 0) || (xb_wad <=? 0) || negb ((MIN_AMP <=? amp) && (amp <=? MAX_AMP))
     || (MAX_NORMALIZED_RESERVE_WAD <? xa_wad) || (MAX_NORMALIZED_RESERVE_WAD <? xb_wad)
  then ofail InvalidPrice
  else
    let x_smaller := Z.min xa_wad xb_wad in
    let x_larger := Z.max xa_wad xb_wad in
    let* sum := u256_add x_smaller x_larger in
    let* ann := u256_mul amp N_COINS in
    d_loop MAX_D_ITERATIONS x_smaller x_larger sum ann sum.

Definition fair_stable_lp_price_wad (a b : LpLeg) (supply : LpSupply) (amp : Z) : ores Z :=
  if not_positive a b supply then ofail InvalidPrice
  else
    let? xa_wad := try_amount_to_wad (lg_reserve a) (lg_decimals a) in
    let? xb_wad := try_amount_to_wad (lg_reserve b) (lg_decimals b) in
    let? d := solve_stable_d xa_wad xb_wad amp in
    let min_price := Z.min (lg_price_wad a) (lg_price_wad b) in
    let? share_supply_wad := try_amount_to_wad (sl_total_shares supply) (sl_decimals supply) in
    if share_supply_wad <=? 0 then ofail InvalidPrice
    else
      let* scaled := u256_mul d min_price in
      let* fair := u256_div scaled share_supply_wad in
      Ok (of_option InvalidPrice (try_u256_to_i128 fair)).

End LpStable.
