(* ===== verification/LpMath.v ===== *)
(** * Facts about liquidity-pool valuation

    The Newton root is the integer square root, the invariant solver neither traps nor
    reports zero, and fair prices are exact quotients. *)

From S2P Require Import Prelude Errors FpCore Fp OracleMath.
From stdpp Require Import base numbers list.
From Stdlib Require Import ZArith Lia Bool.

Open Scope Z_scope.

Module LpMath.

Import Observation Lp LpStable.

(** ** The square root *)

(** A step from above the root halves the distance to it; the root is a fixed point. *)
Lemma newton_step n x :
  1 <= n -> Z.sqrt n <= x ->
  let y := (x + n / x) / 2 in
  Z.sqrt n <= y /\ (x = Z.sqrt n -> x <= y)
  /\ (Z.sqrt n < x -> y < x /\ 2 * (y - Z.sqrt n) <= x - Z.sqrt n).
Proof.
  intros Hn Hx y. pose proof (Z.sqrt_spec n ltac:(lia)) as [S1 S2].
  set (s := Z.sqrt n) in *. rewrite Z.mul_succ_l, Z.mul_succ_r in S2.
  assert (1 <= s) by (destruct (Z.eq_dec s 0) as [E|]; [rewrite E in S2|pose proof (Z.sqrt_nonneg n)]; lia).
  pose proof (Z.div_mod n x ltac:(lia)) as Hd. pose proof (Z.mod_pos_bound n x ltac:(lia)) as Hm.
  pose proof (Z.div_mod (x + n / x) 2 ltac:(lia)) as Hd2.
  pose proof (Z.mod_pos_bound (x + n / x) 2 ltac:(lia)) as Hm2. fold y in Hd2.
  set (q := n / x) in *.
  assert (2 * s <= x + q) as Hamgm.
  { destruct (Z.le_gt_cases (2 * s) (x + q)); [done|exfalso].
    assert (q + 1 <= 2 * s - x) by lia. assert (n < x * (q + 1)) by nia.
    assert (x * (2 * s - x) <= s * s) by nia. nia. }
  split; [lia|]. split; [lia|]. intros Hlt.
  assert (q <= s). { destruct (Z.le_gt_cases q s); [done|exfalso]. nia. }
  lia.
Qed.

Lemma newton_quotient n x : 1 <= n -> Z.sqrt n <= x -> n / x <= x + 2.
Proof.
  intros Hn Hx. pose proof (Z.sqrt_spec n ltac:(lia)) as [_ S].
  assert (1 <= Z.sqrt n) by (apply Z.sqrt_le_square; lia).
  apply Z.div_le_upper_bound; [lia|]. unfold Z.succ in S. nia.
Qed.

Lemma newton_sqrt_Ok fuel n x :
  1 <= n <= u256_max -> Z.sqrt n <= x <= 2 ^ 129 -> x - Z.sqrt n < 2 ^ Z.of_nat fuel ->
  newton_sqrt fuel n x = Ok (Some (Z.sqrt n)).
Proof.
  revert x. induction fuel as [|fuel IH]; intros x Hn Hx Hf;
    (assert (1 <= Z.sqrt n) by (apply Z.sqrt_le_square; lia));
    destruct (newton_step n x ltac:(lia) ltac:(lia)) as (Y1 & Y2 & Y3); cbv zeta in *;
    pose proof (Z.div_pos n x ltac:(lia) ltac:(lia));
    pose proof (newton_quotient n x ltac:(lia) ltac:(lia));
    assert (x + n / x <= u256_max) by (assert (3 * 2 ^ 129 + 2 <= u256_max) by zconst; lia);
    cbn [newton_sqrt]; rewrite u256_div_in by lia; cbn [rbind];
    unfold u256_add; rewrite u256_in by lia; cbn [rbind]; rewrite u256_div_in by lia; cbn [rbind].
  - simpl in Hf. assert (x = Z.sqrt n) as E by lia. specialize (Y2 E).
    rewrite (proj2 (Z.ltb_ge _ _)) by lia. by rewrite E.
  - destruct (Z.eq_dec x (Z.sqrt n)) as [E|E].
    + specialize (Y2 E). rewrite (proj2 (Z.ltb_ge _ _)) by lia. by rewrite E.
    + destruct Y3 as [Y3 Y4]; [lia|]. rewrite (proj2 (Z.ltb_lt _ _)) by lia.
      apply IH; [done|lia|]. rewrite Nat2Z.inj_succ, Z.pow_succ_r in Hf by lia. lia.
Qed.

(** The seed is above the root: [floor(sqrt a) + 1] bounds [sqrt a]. *)
Lemma sqrt_seed a b :
  0 <= a -> 0 <= b -> Z.sqrt (a * b) <= (Z.sqrt a + 1) * (Z.sqrt b + 1).
Proof.
  intros Ha Hb. pose proof (Z.sqrt_spec a Ha) as [_ A]. pose proof (Z.sqrt_spec b Hb) as [_ B].
  pose proof (Z.sqrt_nonneg a). pose proof (Z.sqrt_nonneg b).
  unfold Z.succ in *. set (u := Z.sqrt a + 1) in *. set (v := Z.sqrt b + 1) in *.
  rewrite <- (Z.sqrt_square (u * v)) by nia. apply Z.sqrt_le_mono.
  transitivity ((u * u) * (v * v)); [|lia]. apply Z.mul_le_mono_nonneg; lia.
Qed.

Lemma sqrt_u128 a : 0 <= a <= u128_max -> Z.sqrt a + 1 <= 2 ^ 64.
Proof.
  intros Ha. assert (Z.sqrt a <= Z.sqrt u128_max) by (apply Z.sqrt_le_mono; lia).
  assert (Z.sqrt u128_max + 1 <= 2 ^ 64) by zconst. lia.
Qed.

Lemma isqrt_Ok a b :
  0 <= a <= u128_max -> 0 <= b <= u128_max -> isqrt_of_product a b = Ok (Z.sqrt (a * b)).
Proof.
  intros Ha Hb. unfold isqrt_of_product, u256_mul.
  assert (u128_max * u128_max <= u256_max) by zconst. assert (2 ^ 64 <= u128_max) by zconst.
  assert (0 <= a * b <= u256_max) as Hn by nia. rewrite (u256_in (a * b)) by done. cbn [rbind].
  destruct (Z.leb_spec (a * b) 1) as [H1|H1].
  { assert (a * b = 0 \/ a * b = 1) as [-> | ->] by lia; done. }
  pose proof (sqrt_u128 a Ha). pose proof (sqrt_u128 b Hb).
  pose proof (Z.sqrt_nonneg a). pose proof (Z.sqrt_nonneg b).
  rewrite !Z.min_l by lia. pose proof (sqrt_seed a b ltac:(lia) ltac:(lia)) as Hs.
  set (seed := (Z.sqrt a + 1) * (Z.sqrt b + 1)) in *.
  assert (0 <= seed <= 2 ^ 64 * 2 ^ 64) as Hseed by (unfold seed; nia).
  assert (2 ^ 64 * 2 ^ 64 <= u256_max) by zconst. assert (2 ^ 64 * 2 ^ 64 < 2 ^ 129) by zconst.
  rewrite u256_in by lia. cbn [rbind]. pose proof (Z.sqrt_nonneg (a * b)).
  rewrite newton_sqrt_Ok; [done|lia|lia|]. assert (2 ^ 129 <= 2 ^ Z.of_nat sqrt_fuel) by zconst. lia.
Qed.

(** ** The StableSwap invariant *)

(** The next iterate stays between one and twice the sum: it is an average, weighted by
    [(ann - 1) d] and [3 dp], of values below [2 sum] and [2 d / 3]. *)
Lemma d_next_range sum ann d dp :
  2 <= ann -> 1 <= sum -> 1 <= d <= 2 * sum -> 0 <= dp -> (d = 1 -> dp = 0) ->
  0 < (ann - 1) * d + 3 * dp
  /\ 1 <= ((ann * sum + 2 * dp) * d) / ((ann - 1) * d + 3 * dp) <= 2 * sum.
Proof.
  intros Ha Hs Hd Hp H1. assert (0 < (ann - 1) * d + 3 * dp) as Hden by nia.
  split; [done|]. split.
  - apply Z.div_le_lower_bound; [done|]. destruct (Z.eq_dec d 1) as [->|]; [specialize (H1 eq_refl); nia|].
    assert (ann * d <= ann * sum * d) by nia. assert (4 * dp <= 2 * dp * d) by nia. nia.
  - apply Z.div_le_upper_bound; [done|].
    assert (ann * sum * d <= 2 * sum * ((ann - 1) * d)).
    { assert (ann <= 2 * (ann - 1)) by lia. nia. }
    assert (2 * dp * d <= 2 * sum * (3 * dp)) by nia. nia.
Qed.

Lemma d_step_Ok xs xl ann d :
  1 <= xs <= xl -> xl <= MAX_NORMALIZED_RESERVE_WAD -> 2 <= ann <= 2 * MAX_AMP ->
  1 <= d <= 2 * (xs + xl) ->
  d_step xs xl (xs + xl) ann d = Ok (Err InvalidPrice)
  \/ exists d', d_step xs xl (xs + xl) ann d = Ok (Ok d') /\ 1 <= d' <= 2 * (xs + xl).
Proof.
  intros Hx Hl Ha Hd. unfold d_step, checked_mul, u256_mul, u256_add, u256_sub, N_COINS.
  unfold MAX_AMP in *. set (M := MAX_NORMALIZED_RESERVE_WAD) in *.
  assert ((4 * M) * (4 * M) <= u256_max) as B1 by zconst.
  assert (4 * M <= u256_max) as B0 by zconst. assert (2000000 * (2 * M) <= 2 ^ 250) as B2 by zconst.
  assert (2000000 * (4 * M) <= 2 ^ 250) as B3 by zconst.
  assert (u256_max < 4 * 2 ^ 254) as B4 by zconst.
  assert (2 ^ 250 + 3 * 2 ^ 254 <= u256_max) as B5 by zconst.
  assert (0 <= d * d <= u256_max) as Hdd by nia. rewrite (u256_in (d * d)) by done. cbn [rbind].
  rewrite (u256_in (xs * 2)) by nia. cbn [rbind]. rewrite u256_div_in by lia. cbn [rbind].
  pose proof (Z.div_pos (d * d) (xs * 2) ltac:(lia) ltac:(lia)) as Hp1.
  set (p1 := d * d / (xs * 2)) in *.
  assert (d = 1 -> p1 = 0) as Hp1z by (intros E; unfold p1; rewrite E; apply Z.div_small; lia).
  assert (p1 <= d * d) as Hp1u by (apply Z.div_le_upper_bound; nia).
  destruct (Z.leb_spec (p1 * d) u256_max) as [Hc|]; [|by left]. cbn [obind rbind].
  rewrite (u256_in (xl * 2)) by nia. cbn [rbind]. rewrite u256_div_in by nia. cbn [rbind].
  pose proof (Z.div_pos (p1 * d) (xl * 2) ltac:(nia) ltac:(lia)) as Hp.
  set (p := p1 * d / (xl * 2)) in *.
  assert (p < 2 ^ 254) as Hpu.
  { unfold p. apply Z.div_lt_upper_bound; [lia|]. destruct (Z.eq_dec xl 1) as [E|E].
    - assert (xs = 1) by lia. assert (d <= 4) by lia. assert (p1 * d <= 64) by nia.
      assert (64 < xl * 2 * 2 ^ 254) by (subst xl; zconst). lia.
    - assert (4 * 2 ^ 254 <= xl * 2 * 2 ^ 254) by (apply Z.mul_le_mono_nonneg_r; [zconst|lia]). lia. }
  assert (d = 1 -> p = 0) as Hpz by (intros E; unfold p; rewrite (Hp1z E); apply Z.div_0_l; lia).
  assert (0 <= ann * (xs + xl) <= 2 ^ 250) as Hnm.
  { split; [apply Z.mul_nonneg_nonneg; lia|]. etransitivity; [|exact B2].
    apply Z.mul_le_mono_nonneg; lia. }
  assert (0 <= (ann - 1) * d <= 2 ^ 250) as Hdm.
  { split; [apply Z.mul_nonneg_nonneg; lia|]. etransitivity; [|exact B3].
    apply Z.mul_le_mono_nonneg; lia. }
  rewrite (u256_in (ann * (xs + xl))) by lia. cbn [rbind]. rewrite (u256_in (2 * p)) by lia.
  cbn [rbind]. rewrite (u256_in (ann * (xs + xl) + 2 * p)) by lia. cbn [rbind].
  destruct (Z.leb_spec ((ann * (xs + xl) + 2 * p) * d) u256_max) as [Hn|]; [|by left].
  cbn [obind rbind]. rewrite (u256_in (ann - 1)) by lia. cbn [rbind].
  rewrite (u256_in ((ann - 1) * d)) by lia. cbn [rbind]. rewrite (u256_in (2 + 1)) by (split; zconst). cbn [rbind].
  change (2 + 1) with 3. rewrite (u256_in (3 * p)) by lia. cbn [rbind].
  rewrite (u256_in ((ann - 1) * d + 3 * p)) by lia. cbn [rbind].
  destruct (d_next_range (xs + xl) ann d p ltac:(lia) ltac:(lia) Hd Hp Hpz) as [Hden Hr].
  rewrite u256_div_in; [right; eexists; split; [done|exact Hr]| |done].
  split; [|done]. apply Z.mul_nonneg_nonneg; lia.
Qed.

(** The solver returns: an invariant between one and twice the sum of the reserves, or
    [InvalidPrice]; the host never traps. *)
Lemma solve_stable_d_Ok xa xb amp :
  solve_stable_d xa xb amp = Ok (Err InvalidPrice)
  \/ exists d, solve_stable_d xa xb amp = Ok (Ok d) /\ 1 <= d <= 2 * (xa + xb)
      /\ xa <= MAX_NORMALIZED_RESERVE_WAD /\ xb <= MAX_NORMALIZED_RESERVE_WAD.
Proof.
  unfold solve_stable_d.
  match goal with |- context [if ?b then _ else _] => destruct b eqn:Hb end; [by left|]. b2p.
  set (xs := Z.min xa xb). set (xl := Z.max xa xb). assert (xs + xl = xa + xb) as Hsum by lia.
  unfold MIN_AMP, MAX_AMP in *. unfold u256_add, u256_mul, N_COINS.
  assert (4 * MAX_NORMALIZED_RESERVE_WAD <= u256_max) by zconst.
  rewrite u256_in by lia. cbn [rbind]. assert (2000000 <= u256_max) by zconst.
  rewrite u256_in by lia. cbn [rbind]. rewrite <- Hsum.
  assert (forall n d, 1 <= d <= 2 * (xs + xl) ->
    d_loop n xs xl (xs + xl) (amp * 2) d = Ok (Err InvalidPrice)
    \/ exists d', d_loop n xs xl (xs + xl) (amp * 2) d = Ok (Ok d') /\ 1 <= d' <= 2 * (xs + xl)) as Hl.
  { induction n as [|n IH]; intros d Hd; [by left|]. cbn [d_loop].
    destruct (d_step_Ok xs xl (amp * 2) d) as [E|(d' & E & Hd')];
      [lia|lia|unfold MAX_AMP; lia|done|..]; rewrite E; cbn [obind rbind]; [by left|].
    destruct (Z.abs (d' - d) <=? 1); [right; by eexists|by apply IH]. }
  destruct (Hl MAX_D_ITERATIONS (xs + xl) ltac:(lia)) as [E|(d & E & Hd)]; rewrite E; [by left|].
  right. exists d. split_and!; [done|lia|lia|lia|lia].
Qed.

Lemma solve_stable_d_comm xa xb amp : solve_stable_d xa xb amp = solve_stable_d xb xa amp.
Proof.
  unfold solve_stable_d. rewrite (Z.min_comm xa xb), (Z.max_comm xa xb).
  destruct (xa <=? 0), (xb <=? 0), (_ <? xa), (_ <? xb); cbn [orb]; rewrite ?orb_true_r, ?orb_false_r;
    done.
Qed.

(** ** Fair prices *)

Lemma pow10_i128 n d : 0 <= n -> i128_checked_pow 10 n = Some d -> d = 10 ^ n /\ 0 < d <= i128_max.
Proof.
  intros Hn H. unfold i128_checked_pow in H. apply i128_checked_Some in H as [-> Hd].
  pose proof (FpCore.pow10_pos n Hn). lia.
Qed.

(** Inputs of a conversion: not negative and in range. *)
Lemma try_mul_div_total x y d :
  0 <= x <= i128_max -> 0 <= y <= i128_max -> 0 < d <= i128_max ->
  FpCore.try_mul_div_half_up x y d = Ok (i128_checked (half_up_div (x * y) d))
  /\ 0 <= half_up_div (x * y) d.
Proof.
  intros Hx Hy Hd. assert (i128_min <= 0) by zconst. rewrite FpCore.try_mul_div_half_up_ref by lia.
  rewrite (proj2 (Z.ltb_ge x 0)), (proj2 (Z.ltb_ge y 0)), (proj2 (Z.leb_gt d 0)) by lia.
  split; [done|]. apply half_up_div_nonneg; [lia|nia].
Qed.

Lemma amount_to_wad_Ok amount decimals :
  0 <= amount <= i128_max -> 0 <= decimals ->
  try_amount_to_wad amount decimals = Ok (Err InvalidPrice)
  \/ decimals <= WAD_DECIMALS
     /\ try_amount_to_wad amount decimals = Ok (Ok (amount * 10 ^ (WAD_DECIMALS - decimals)))
     /\ 0 <= amount * 10 ^ (WAD_DECIMALS - decimals) <= i128_max.
Proof.
  intros Ha Hd. unfold try_amount_to_wad.
  destruct (Z.leb_spec decimals WAD_DECIMALS) as [Hl|]; [|by left].
  destruct (i128_checked_pow _ _) as [k|] eqn:E; [|by left].
  apply pow10_i128 in E as [-> Hk]; [|lia]. assert (1 <= i128_max) by zconst.
  destruct (try_mul_div_total amount (10 ^ (WAD_DECIMALS - decimals)) 1) as [E H0]; [lia..|].
  unfold ok_or. rewrite E. unfold half_up_div in *. cbn [rbind].
  change (1 / 2) with 0 in *. rewrite Z.add_0_r, Z.div_1_r in *.
  destruct (i128_checked _) as [v|] eqn:Ev; [|by left].
  apply i128_checked_Some in Ev as [-> Hv]. right. split_and!; [done|done|lia|lia].
Qed.

Lemma reserve_value_Ok leg :
  0 <= lg_reserve leg <= i128_max -> 0 <= lg_price_wad leg <= i128_max -> 0 <= lg_decimals leg ->
  reserve_value_wad leg = Ok (Err InvalidPrice)
  \/ exists v, reserve_value_wad leg = Ok (Ok v) /\ 0 <= v <= i128_max
      /\ v = half_up_div (lg_reserve leg * lg_price_wad leg) (10 ^ lg_decimals leg).
Proof.
  intros Hr Hp Hd. unfold reserve_value_wad.
  destruct (i128_checked_pow _ _) as [k|] eqn:E; [|by left]. apply pow10_i128 in E as [-> Hk]; [|done].
  destruct (try_mul_div_total (lg_reserve leg) (lg_price_wad leg) (10 ^ lg_decimals leg)) as [E H0]; [done..|].
  unfold ok_or. rewrite E. cbn [rbind]. destruct (i128_checked _) as [v|] eqn:Ev; [|by left].
  apply i128_checked_Some in Ev as [-> Hv]. right. eexists. split_and!; [done|lia|lia|done].
Qed.

Record legs_typed (a b : LpLeg) (supply : LpSupply) : Prop := {
  lt_a : lg_reserve a <= i128_max /\ lg_price_wad a <= i128_max /\ 0 <= lg_decimals a;
  lt_b : lg_reserve b <= i128_max /\ lg_price_wad b <= i128_max /\ 0 <= lg_decimals b;
  lt_supply : sl_total_shares supply <= i128_max /\ 0 <= sl_decimals supply
}.

Lemma fair_lp_price_Ok a b supply :
  legs_typed a b supply ->
  fair_lp_price_wad a b supply = Ok (Err InvalidPrice)
  \/ exists va vb,
       0 < lg_reserve a /\ 0 < lg_reserve b /\ 0 < sl_total_shares supply
       /\ va = half_up_div (lg_reserve a * lg_price_wad a) (10 ^ lg_decimals a)
       /\ vb = half_up_div (lg_reserve b * lg_price_wad b) (10 ^ lg_decimals b)
       /\ let price := (2 * Z.sqrt (va * vb) * WAD)
                         / (sl_total_shares supply * 10 ^ (WAD_DECIMALS - sl_decimals supply)) in
          fair_lp_price_wad a b supply = Ok (Ok price) /\ 0 <= price <= i128_max.
Proof.
  intros [(A1 & A2 & A3) (B1 & B2 & B3) (S1 & S2)]. unfold fair_lp_price_wad.
  destruct (not_positive a b supply) eqn:Hb; [by left|]. unfold not_positive in Hb. b2p.
  destruct (reserve_value_Ok a) as [E|(va & E & Ra & Va)]; [lia..|by left; rewrite E|]. rewrite E.
  cbn [obind rbind].
  destruct (reserve_value_Ok b) as [E'|(vb & E' & Rb & Vb)]; [lia..|by left; rewrite E'|]. rewrite E'.
  cbn [obind rbind]. assert (i128_max <= u128_max) as Hmx by zconst.
  rewrite isqrt_Ok by lia. cbn [rbind]. pose proof (Z.sqrt_nonneg (va * vb)) as Hs0.
  assert (Z.sqrt (va * vb) <= i128_max) as Hs1.
  { rewrite <- (Z.sqrt_square i128_max) by zconst. apply Z.sqrt_le_mono. nia. }
  assert (i128_max * 2 * WAD <= u256_max) as Hw by zconst. assert (0 < WAD) by zconst.
  unfold u256_mul. rewrite u256_in by nia. cbn [rbind].
  destruct (amount_to_wad_Ok (sl_total_shares supply) (sl_decimals supply)) as [E2|(Hdl & E2 & Rs)];
    [lia..|by left; rewrite E2|]. rewrite E2. cbn [obind rbind].
  assert (0 < 10 ^ (WAD_DECIMALS - sl_decimals supply)) by (apply FpCore.pow10_pos; lia).
  set (S := sl_total_shares supply * 10 ^ (WAD_DECIMALS - sl_decimals supply)) in *.
  assert (0 < S) as HS by (unfold S; nia). rewrite (proj2 (Z.leb_gt S 0)) by done.
  assert (0 <= Z.sqrt (va * vb) * 2 * WAD <= u256_max) as Hsc by nia.
  rewrite u256_in by done. cbn [rbind]. rewrite u256_div_in by done. cbn [rbind].
  unfold try_u256_to_i128. rewrite (Z.mul_comm (Z.sqrt (va * vb)) 2).
  destruct (Z.leb_spec (2 * Z.sqrt (va * vb) * WAD / S) i128_max) as [Hf|]; [|by left].
  right. exists va, vb. split_and!; [lia|lia|lia|done|done|done| |done].
  apply Z.div_pos; lia.
Qed.

(** ** The price as an equation, for at most 18 decimals *)

Lemma pow10_wad n : 0 <= n <= WAD_DECIMALS -> i128_checked_pow 10 n = Some (10 ^ n) /\ 0 < 10 ^ n <= i128_max.
Proof.
  intros Hn. pose proof (FpCore.pow10_pos n ltac:(lia)).
  assert (10 ^ n <= 10 ^ WAD_DECIMALS) by (apply Z.pow_le_mono_r; lia).
  assert (10 ^ WAD_DECIMALS <= i128_max) by zconst. assert (i128_min <= 0) by zconst.
  split; [|lia]. apply i128_checked_in. lia.
Qed.

Lemma i128_fits v : 0 <= v -> i128_checked v = if v <=? i128_max then Some v else None.
Proof.
  intros Hv. assert (i128_min <= 0) by zconst. destruct (Z.leb_spec v i128_max).
  - apply i128_checked_in. lia.
  - apply i128_checked_None. lia.
Qed.

Lemma amount_to_wad_eq amount decimals :
  0 <= amount <= i128_max -> 0 <= decimals <= WAD_DECIMALS ->
  let v := amount * 10 ^ (WAD_DECIMALS - decimals) in
  try_amount_to_wad amount decimals = Ok (if v <=? i128_max then Ok v else Err InvalidPrice).
Proof.
  intros Ha Hd v. unfold try_amount_to_wad. rewrite (proj2 (Z.leb_le _ _)) by lia.
  destruct (pow10_wad (WAD_DECIMALS - decimals) ltac:(lia)) as [-> Hk]. assert (1 <= i128_max) by zconst.
  destruct (try_mul_div_total amount (10 ^ (WAD_DECIMALS - decimals)) 1) as [E H0]; [lia..|].
  unfold ok_or. rewrite E. unfold half_up_div in *. cbn [rbind].
  change (1 / 2) with 0 in *. rewrite Z.add_0_r, Z.div_1_r in *. fold v in H0 |- *.
  rewrite i128_fits by done. by destruct (v <=? i128_max).
Qed.

Lemma reserve_value_eq leg :
  0 <= lg_reserve leg <= i128_max -> 0 <= lg_price_wad leg <= i128_max ->
  0 <= lg_decimals leg <= WAD_DECIMALS ->
  let v := half_up_div (lg_reserve leg * lg_price_wad leg) (10 ^ lg_decimals leg) in
  reserve_value_wad leg = Ok (if v <=? i128_max then Ok v else Err InvalidPrice).
Proof.
  intros Hr Hp Hd v. unfold reserve_value_wad. destruct (pow10_wad _ Hd) as [-> Hk].
  destruct (try_mul_div_total (lg_reserve leg) (lg_price_wad leg) (10 ^ lg_decimals leg)) as [E H0]; [done..|].
  unfold ok_or. rewrite E. cbn [rbind]. fold v in H0 |- *. rewrite i128_fits by done.
  by destruct (v <=? i128_max).
Qed.

Lemma doubled_root va vb :
  0 <= va <= i128_max -> 0 <= vb <= i128_max ->
  isqrt_of_product va vb = Ok (Z.sqrt (va * vb))
  /\ u256_mul (Z.sqrt (va * vb)) 2 = Ok (2 * Z.sqrt (va * vb))
  /\ 0 <= 2 * Z.sqrt (va * vb) * WAD <= u256_max.
Proof.
  intros Ha Hb. assert (i128_max <= u128_max) by zconst. rewrite isqrt_Ok by lia.
  pose proof (Z.sqrt_nonneg (va * vb)).
  assert (Z.sqrt (va * vb) <= i128_max).
  { rewrite <- (Z.sqrt_square i128_max) by zconst. apply Z.sqrt_le_mono. nia. }
  assert (i128_max * 2 * WAD <= u256_max) by zconst. assert (0 < WAD) by zconst.
  split; [done|]. unfold u256_mul. rewrite u256_in by nia. rewrite Z.mul_comm. split; [done|nia].
Qed.

Lemma fair_lp_price_eq a b supply :
  legs_typed a b supply ->
  lg_decimals a <= WAD_DECIMALS -> lg_decimals b <= WAD_DECIMALS -> sl_decimals supply <= WAD_DECIMALS ->
  let va := half_up_div (lg_reserve a * lg_price_wad a) (10 ^ lg_decimals a) in
  let vb := half_up_div (lg_reserve b * lg_price_wad b) (10 ^ lg_decimals b) in
  let shares := sl_total_shares supply * 10 ^ (WAD_DECIMALS - sl_decimals supply) in
  let price := 2 * Z.sqrt (va * vb) * WAD / shares in
  fair_lp_price_wad a b supply =
    Ok (if negb (not_positive a b supply)
           && (Z.max va vb <=? i128_max) && (Z.max shares price <=? i128_max)
        then Ok price else Err InvalidPrice).
Proof.
  intros [(A1 & A2 & A3) (B1 & B2 & B3) (S1 & S2)] Da Db Ds va vb shares price.
  unfold fair_lp_price_wad. destruct (not_positive a b supply) eqn:Hn; [done|]. unfold not_positive in Hn.
  b2p. cbn [negb andb].
  assert (0 <= va) by (apply half_up_div_nonneg; [by apply FpCore.pow10_pos|nia]).
  assert (0 <= vb) by (apply half_up_div_nonneg; [by apply FpCore.pow10_pos|nia]).
  assert (0 < shares) as Hs.
  { unfold shares. pose proof (FpCore.pow10_pos (WAD_DECIMALS - sl_decimals supply) ltac:(lia)). nia. }
  rewrite reserve_value_eq by lia. fold va. destruct (Z.leb_spec va i128_max);
    [|by rewrite (proj2 (Z.leb_gt (Z.max va vb) _)) by lia]. cbn [obind rbind].
  rewrite reserve_value_eq by lia. fold vb. destruct (Z.leb_spec vb i128_max);
    [|by rewrite (proj2 (Z.leb_gt (Z.max va vb) _)) by lia]. cbn [obind rbind].
  rewrite (proj2 (Z.leb_le (Z.max va vb) _)) by lia. cbn [andb].
  destruct (doubled_root va vb) as (-> & E & Hw); [lia..|]. cbn [rbind]. rewrite E. cbn [rbind].
  rewrite amount_to_wad_eq by lia. fold shares. destruct (Z.leb_spec shares i128_max);
    [|by rewrite (proj2 (Z.leb_gt (Z.max shares price) _)) by lia]. cbn [obind rbind].
  rewrite (proj2 (Z.leb_gt shares 0)) by done. unfold u256_mul. rewrite u256_in by lia. cbn [rbind].
  rewrite u256_div_in by lia. cbn [rbind]. fold price. unfold try_u256_to_i128.
  destruct (Z.leb_spec price i128_max).
  - by rewrite (proj2 (Z.leb_le (Z.max shares price) _)) by lia.
  - by rewrite (proj2 (Z.leb_gt (Z.max shares price) _)) by lia.
Qed.

Lemma fair_stable_lp_price_Ok a b supply amp :
  legs_typed a b supply ->
  fair_stable_lp_price_wad a b supply amp = Ok (Err InvalidPrice)
  \/ exists price, fair_stable_lp_price_wad a b supply amp = Ok (Ok price)
      /\ 0 <= price <= i128_max.
Proof.
  intros [(A1 & A2 & A3) (B1 & B2 & B3) (S1 & S2)]. unfold fair_stable_lp_price_wad.
  destruct (not_positive a b supply) eqn:Hb; [by left|]. unfold not_positive in Hb. b2p.
  destruct (amount_to_wad_Ok (lg_reserve a) (lg_decimals a)) as [E|(_ & E & Ra)];
    [lia..|by left; rewrite E|]. rewrite E. cbn [obind rbind].
  destruct (amount_to_wad_Ok (lg_reserve b) (lg_decimals b)) as [E1|(_ & E1 & Rb)];
    [lia..|by left; rewrite E1|]. rewrite E1. cbn [obind rbind].
  match goal with |- context [solve_stable_d ?x ?y _] =>
    destruct (solve_stable_d_Ok x y amp) as [E2|(d & E2 & Hd & Hx & Hy)] end;
    rewrite E2; cbn [obind rbind]; [by left|].
  destruct (amount_to_wad_Ok (sl_total_shares supply) (sl_decimals supply)) as [E3|(Hdl & E3 & Rs)];
    [lia..|by left; rewrite E3|]. rewrite E3. cbn [obind rbind].
  match goal with |- context [?x <=? 0] => set (S := x) in * end.
  destruct (Z.leb_spec S 0); [by left|].
  assert (4 * MAX_NORMALIZED_RESERVE_WAD * i128_max <= u256_max) as Hw by zconst.
  unfold u256_mul. assert (0 <= d * Z.min (lg_price_wad a) (lg_price_wad b) <= u256_max) as Hm.
  { split; [apply Z.mul_nonneg_nonneg; lia|]. etransitivity; [|exact Hw].
    apply Z.mul_le_mono_nonneg; lia. }
  rewrite u256_in by done. cbn [rbind]. rewrite u256_div_in by done. cbn [rbind].
  unfold try_u256_to_i128. destruct (Z.leb_spec (d * Z.min (lg_price_wad a) (lg_price_wad b) / S) i128_max);
    [|by left].
  right. eexists. split_and!; [done| |done]. apply Z.div_pos; lia.
Qed.

End LpMath.
