(* ===== verification/AggState.v ===== *)
(** * State and providers of the price aggregator
    (contracts/price-aggregator/src/session.rs, registry.rs, observation.rs, tolerance.rs,
    providers/, and common/src/oracle/providers/)

    The stored oracle configurations, the per-call session with its caches and resolution
    stack, and the reads of the external price providers.  A provider's answer is a value of
    the ledger the call runs in: [None] where the cross-contract call fails. *)

From S2P Require Import Prelude Errors FpCore Fp PoolTypes ControllerTypes OracleMath.
From stdpp Require Import base numbers list gmap strings.
From Stdlib Require Import ZArith Lia Bool.

Open Scope Z_scope.

(** ** What providers answer (common/src/oracle/providers/) *)

Record ChainlinkRound : Type := mkChainlinkRound {
  cr_round_id : Z;
  cr_answer : Z;
  cr_timestamp : Z
}.

Inductive ReflectorAsset : Type :=
| Stellar (a : Address)
| Other (s : string).

#[export] Instance ReflectorAsset_eq_dec : EqDecision ReflectorAsset.
Proof. solve_decision. Defined.

Record ReflectorPriceData : Type := mkReflectorPriceData {
  rd_price : Z;
  rd_timestamp : Z
}.

Record RedStonePriceData : Type := mkRedStonePriceData {
  rs_price : Z;
  rs_package_timestamp : Z;
  rs_write_timestamp : Z
}.

(** [CurvePoolInfo], the fields the aggregator reads. *)
Record CurvePoolInfo : Type := mkCurvePoolInfo {
  ci_coins : list Address;
  ci_coin_decimals : list Z;
  ci_rates : list Z;
  ci_precision : Z
}.

Class Providers : Type := {
  chainlink_latest_round : Address -> N -> Z -> option ChainlinkRound;
  reflector_base : Address -> option ReflectorAsset;
  reflector_decimals : Address -> option Z;
  reflector_resolution : Address -> option Z;
  reflector_lastprice : Address -> ReflectorAsset -> option ReflectorPriceData;
  reflector_history : Address -> ReflectorAsset -> Z -> option (list ReflectorPriceData);
  redstone_feed : Address -> string -> option RedStonePriceData;
  redstone_feeds : Address -> list string -> option (list RedStonePriceData);
  xoxno_max_submission_age : Address -> option Z;
  aquarius_total_shares : Address -> option Z;
  aquarius_reserves : Address -> option (list Z);
  aquarius_tokens : Address -> option (list Address);
  aquarius_pool_type : Address -> option string;
  aquarius_share_id : Address -> option Address;
  aquarius_amp : Address -> option Z;
  token_decimals : Address -> option Z;
  curve_executable : Address -> option N;
  curve_pool_info : Address -> option CurvePoolInfo;
  curve_decimals : Address -> option Z;
  curve_virtual_price : Address -> option Z;
  curve_total_supply : Address -> option Z
}.

(** The machine types of the answers. *)
Class TypedProviders `{Providers} : Prop := {
  typed_round : forall c i d r, chainlink_latest_round c i d = Some r -> 0 <= cr_timestamp r <= u64_max;
  typed_last : forall c a p, reflector_lastprice c a = Some p ->
    is_i128 (rd_price p) /\ 0 <= rd_timestamp p <= u64_max;
  typed_history : forall c a n l, reflector_history c a n = Some l ->
    Forall (fun p => is_i128 (rd_price p) /\ 0 <= rd_timestamp p <= u64_max) l;
  typed_feed : forall c f d, redstone_feed c f = Some d ->
    0 <= rs_price d /\ 0 <= rs_package_timestamp d <= u64_max /\ 0 <= rs_write_timestamp d <= u64_max;
  typed_feeds : forall c l ds, redstone_feeds c l = Some ds ->
    Forall (fun d => 0 <= rs_price d /\ 0 <= rs_package_timestamp d <= u64_max
                     /\ 0 <= rs_write_timestamp d <= u64_max) ds;
  typed_reserves : forall p l, aquarius_reserves p = Some l -> Forall (fun r => 0 <= r) l;
  typed_shares : forall p n, aquarius_total_shares p = Some n -> 0 <= n;
  typed_virtual : forall p v, curve_virtual_price p = Some v -> is_i128 v;
  typed_supply : forall p v, curve_total_supply p = Some v -> is_i128 v
}.

(** A bulk read of a multi-feed contract returns what the single reads return, in order. *)
Class ConsistentFeeds `{Providers} : Prop := {
  bulk_feeds : forall c l ds, redstone_feeds c l = Some ds -> length ds = length l ->
    forall i f d, l !! i = Some f -> ds !! i = Some d -> redstone_feed c f = Some d
}.

(** ** The registry (registry.rs) *)

Record Registry : Type := mkRegistry {
  reg_owner : option Address;
  reg_oracles : gmap PriceKey AssetOracle;
  reg_keys : list PriceKey;
  reg_log : list (PriceKey * AssetOracle)
}.

Definition get_oracle (r : Registry) (key : PriceKey) : option AssetOracle := reg_oracles r !! key.

Definition oracle_keys (r : Registry) : list PriceKey := reg_keys r.

Definition store_oracle (r : Registry) (key : PriceKey) (oracle : AssetOracle) : Registry :=
  mkRegistry (reg_owner r) (<[key := oracle]> (reg_oracles r))
    (if bool_decide (key ∈ reg_keys r) then reg_keys r else reg_keys r ++ [key]) (reg_log r).

(** [UpdateAssetOracleEvent] *)
Definition emit (r : Registry) (key : PriceKey) (oracle : AssetOracle) : Registry :=
  mkRegistry (reg_owner r) (reg_oracles r) (reg_keys r) (reg_log r ++ [(key, oracle)]).

Definition commit (r : Registry) (key : PriceKey) (oracle : AssetOracle) : Registry :=
  emit (store_oracle r key oracle) key oracle.

(** ** The session (session.rs) *)

Record Session : Type := mkSession {
  feed_cache : gmap (Address * string) RedStonePriceData;
  resolving_keys : list PriceKey;
  key_prices : gmap PriceKey PriceFeedRaw;
  key_errors : gmap PriceKey OracleError;
  key_statuses : gmap PriceKey PriceStatus;
  now_secs : Z
}.

Definition new_session (now : Z) : Session := mkSession ∅ [] ∅ ∅ ∅ now.

Definition get_feed (s : Session) (adapter : Address) (feed_id : string)
    : option RedStonePriceData := feed_cache s !! (adapter, feed_id).

Definition set_feed (s : Session) (adapter : Address) (feed_id : string)
    (data : RedStonePriceData) : Session :=
  mkSession (<[(adapter, feed_id) := data]> (feed_cache s)) (resolving_keys s) (key_prices s)
    (key_errors s) (key_statuses s) (now_secs s).

Definition is_resolving (s : Session) (key : PriceKey) : bool :=
  bool_decide (key ∈ resolving_keys s).

Definition set_stack (s : Session) (l : list PriceKey) : Session :=
  mkSession (feed_cache s) l (key_prices s) (key_errors s) (key_statuses s) (now_secs s).

Definition push_key (s : Session) (key : PriceKey) : res Session :=
  if is_resolving s key then Err (EOracle OracleCycleDetected)
  else Ok (set_stack s (resolving_keys s ++ [key])).

Definition pop_key (s : Session) : Session := set_stack s (removelast (resolving_keys s)).

Definition cached_price (s : Session) (key : PriceKey) : option PriceFeedRaw := key_prices s !! key.
Definition cached_error (s : Session) (key : PriceKey) : option OracleError := key_errors s !! key.
Definition cached_status (s : Session) (key : PriceKey) : option PriceStatus :=
  key_statuses s !! key.

Definition store_price (s : Session) (key : PriceKey) (feed : PriceFeedRaw) : Session :=
  mkSession (feed_cache s) (resolving_keys s) (<[key := feed]> (key_prices s)) (key_errors s)
    (key_statuses s) (now_secs s).
Definition store_error (s : Session) (key : PriceKey) (e : OracleError) : Session :=
  mkSession (feed_cache s) (resolving_keys s) (key_prices s) (<[key := e]> (key_errors s))
    (key_statuses s) (now_secs s).
Definition store_status (s : Session) (key : PriceKey) (status : PriceStatus) : Session :=
  mkSession (feed_cache s) (resolving_keys s) (key_prices s) (key_errors s)
    (<[key := status]> (key_statuses s)) (now_secs s).

(** ** Observations (observation.rs) *)

Import Observation.

Record OracleObservation : Type := mkOracleObservation {
  ob_price_wad : Z;
  ob_timestamp : Z
}.

Definition from_chainlink (now : Z) (round : ChainlinkRound) (decimals : Z)
    : option OracleObservation :=
  if is_future_at now (cr_timestamp round) then None
  else
    match i128_checked (cr_answer round) with
    | None => None
    | Some answer =>
        match try_normalize_positive_price answer decimals with
        | None => None
        | Some p => Some (mkOracleObservation p (cr_timestamp round))
        end
    end.

Definition from_multi_feed (now : Z) (data : RedStonePriceData) (decimals : Z)
    : option OracleObservation :=
  let package_ts := millis_to_seconds (rs_package_timestamp data) in
  let write_ts := millis_to_seconds (rs_write_timestamp data) in
  if is_future_at now package_ts || is_future_at now write_ts then None
  else
    match try_u256_to_i128 (rs_price data) with
    | None => None
    | Some raw =>
        match try_normalize_positive_price raw decimals with
        | None => None
        | Some p => Some (mkOracleObservation p (Z.min write_ts package_ts))
        end
    end.

Definition from_reflector (now : Z) (data : ReflectorPriceData) (decimals : Z)
    : option OracleObservation :=
  if is_future_at now (rd_timestamp data) then None
  else
    match try_normalize_positive_price (rd_price data) decimals with
    | None => None
    | Some p => Some (mkOracleObservation p (rd_timestamp data))
    end.

(** ** Two legs (tolerance.rs) *)

Definition within_tolerance_band (anchor primary : Z) (tolerance : OracleTolerance) : res bool :=
  let high := Z.max anchor primary in
  let low := Z.min anchor primary in
  let* ratio := FpCore.try_mul_div_half_up high BPS low in
  Ok (match ratio with
      | None => false
      | Some r => r <=? upper_ratio_bps tolerance
      end).

Definition midpoint_price_or_zero (anchor_price primary_price : Z) : Z :=
  match i128_checked_add anchor_price primary_price with
  | Some sum => Z.quot sum 2
  | None => 0
  end.

(** ** Provider reads (providers/) *)

Section Reads.

Context `{Providers}.

(** chainlink.rs *)
Definition read_chainlink_source (s : Session) (feed : ChainlinkFeedRef) (decimals : Z)
    : option OracleObservation :=
  match chainlink_latest_round (cf_contract feed) (cf_data_id feed) decimals with
  | None => None
  | Some round => from_chainlink (now_secs s) round decimals
  end.

(** multi_feed.rs: the session cache first, then the contract. *)
Definition read_price_data (s : Session) (contract : Address) (feed_id : string)
    : option RedStonePriceData * Session :=
  match get_feed s contract feed_id with
  | Some data => (Some data, s)
  | None =>
      match redstone_feed contract feed_id with
      | None => (None, s)
      | Some data => (Some data, set_feed s contract feed_id data)
      end
  end.

Definition read_multi_feed_source (s : Session) (feed : MultiFeedRef) (decimals : Z)
    : option OracleObservation * Session :=
  let (data, s) := read_price_data s (mf_contract feed) (mf_feed_id feed) in
  (match data with
   | None => None
   | Some d => from_multi_feed (now_secs s) d decimals
   end, s).

Definition read_price_data_bulk (contract : Address) (feed_ids : list string)
    : option (list RedStonePriceData) :=
  match redstone_feeds contract feed_ids with
  | Some data => if (length data =? length feed_ids)%nat then Some data else None
  | None => None
  end.

(** reflector.rs *)
Definition to_reflector_asset (a : OracleAssetRef) : res ReflectorAsset :=
  match a with
  | AssetStellar addr => Ok (Stellar addr)
  | AssetSymbol sym => Ok (Other sym)
  | AssetString _ => Err (EOracle InvalidOracleTokenType)
  end.

Definition validate_twap_records (records : Z) : res unit :=
  do! require (negb (records =? 0)) (EOracle TwapInsufficientObservations) in
  require (records <=? MAX_TWAP_RECORDS) (EOracle TwapRecordsOutOfRange).

Definition twap_required_span (records resolution : Z) : Z :=
  Z.min (Z.max 0 (records - 1) * resolution) u64_max.

Definition try_twap_mean_price (history : list ReflectorPriceData) : option Z :=
  match fold_left (fun (acc : option Z) pd =>
          match acc with
          | None => None
          | Some sum => if rd_price pd <=? 0 then None else i128_checked_add sum (rd_price pd)
          end) history (Some 0) with
  | None => None
  | Some sum =>
      match history with
      | [] => None
      | _ => Some (Z.quot sum (Z.of_nat (length history)))
      end
  end.

(** The spacing loop of [read_twap]: [previous] the timestamp of the newer record. *)
Fixpoint twap_oldest (now resolution : Z) (previous : option Z) (oldest : Z)
    (history : list ReflectorPriceData) : result OracleError Z :=
  match history with
  | [] => Ok oldest
  | pd :: rest =>
      let ts := rd_timestamp pd in
      if is_future_at now ts then Err PriceFeedStale
      else if (match previous with
               | None => false
               | Some newer => (newer <? ts) || (newer - ts <? resolution)
               end)
      then Err TwapInsufficientObservations
      else twap_oldest now resolution (Some ts) ts rest
  end.

Definition read_twap (s : Session) (feed : ReflectorFeedRef) (decimals records : Z)
    : ores OracleObservation :=
  do! validate_twap_records records in
  let* a := to_reflector_asset (rf_asset feed) in
  match reflector_history (rf_contract feed) a records with
  | None | Some [] => ofail ReflectorHistoryEmpty
  | Some ((newest :: _) as history) =>
      if records + 1 <? Z.of_nat (length history) then ofail TwapInsufficientObservations
      else
        match reflector_resolution (rf_contract feed) with
        | None => ofail InvalidOracleResolution
        | Some resolution =>
            if resolution <? MIN_ORACLE_RESOLUTION_SECONDS then ofail InvalidOracleResolution
            else
              let? oldest_ts := Ok (twap_oldest (now_secs s) resolution None u64_max history) in
              if Z.max 0 (rd_timestamp newest - oldest_ts) <? twap_required_span records resolution
              then ofail TwapInsufficientObservations
              else
                match try_twap_mean_price history with
                | None => ofail InvalidPrice
                | Some raw =>
                    match try_normalize_positive_price raw decimals with
                    | None => ofail InvalidPrice
                    | Some p => oreturn (mkOracleObservation p oldest_ts)
                    end
                end
        end
  end.

Definition read_spot (s : Session) (feed : ReflectorFeedRef) (decimals : Z)
    : res (option OracleObservation) :=
  let* a := to_reflector_asset (rf_asset feed) in
  Ok (match reflector_lastprice (rf_contract feed) a with
      | None => None
      | Some data => from_reflector (now_secs s) data decimals
      end).

Definition read_reflector_source (s : Session) (feed : ReflectorFeedRef) (decimals : Z)
    : res (option OracleObservation) :=
  match rf_read_mode feed with
  | Spot => read_spot s feed decimals
  | Twap records =>
      let* r := read_twap s feed decimals records in
      Ok (match r with Ok o => Some o | Err _ => None end)
  end.

(** aquarius.rs (common): calls that fail or answer out of range are [None]. *)
Definition aquarius_amp_call (pool : Address) : option Z :=
  match aquarius_amp pool with
  | Some amp => if 0 <? amp then Some amp else None
  | None => None
  end.

Definition aquarius_is_stable_call (pool : Address) : bool :=
  bool_decide (aquarius_pool_type pool = Some "stable"%string).

Definition aquarius_is_constant_product_call (pool : Address) : bool :=
  bool_decide (aquarius_pool_type pool = Some "constant_product"%string).

Definition aquarius_pool_reserves_call (pool : Address) : option (Z * Z) :=
  match aquarius_reserves pool with
  | Some [a; b] => if (a <=? i128_max) && (b <=? i128_max) then Some (a, b) else None
  | _ => None
  end.

Definition aquarius_total_shares_call (pool : Address) : option Z :=
  match aquarius_total_shares pool with
  | Some shares => if shares <=? i128_max then Some shares else None
  | None => None
  end.

(** aquarius.rs (aggregator) *)
Definition pool_kind_matches (lp : AquariusLpSource) (stable : bool) : bool :=
  if stable then aquarius_is_stable_call (aq_pool lp)
  else aquarius_is_constant_product_call (aq_pool lp).

Definition bound_tokens (key : PriceKey) (lp : AquariusLpSource) : option (list Address) :=
  match key with
  | Ref _ => None
  | Token share =>
      if negb (bool_decide (aquarius_share_id (aq_pool lp) = Some share)) then None
      else
        match aquarius_tokens (aq_pool lp) with
        | Some [a; b] =>
            if bool_decide (a = aq_token_a lp) && bool_decide (b = aq_token_b lp)
            then Some [a; b] else None
        | _ => None
        end
  end.

Definition decimals_match (share : Address) (tokens : list Address) (share_decimals : Z)
    (lp : AquariusLpSource) : bool :=
  match tokens with
  | [a; b] =>
      bool_decide (token_decimals share = Some share_decimals)
      && bool_decide (token_decimals a = Some (aq_reserve_a_decimals lp))
      && bool_decide (token_decimals b = Some (aq_reserve_b_decimals lp))
  | _ => false
  end.

(** curve.rs: the pool still matches its configured binding. *)
Fixpoint coins_match (coins : list Address) (coin_decimals rates : list Z) : bool :=
  match coins, coin_decimals, rates with
  | [], _, _ => true
  | coin :: coins, d :: coin_decimals, rate :: rates =>
      (d <=? 18) && bool_decide (token_decimals coin = Some d) && (rate =? 10 ^ (36 - d))
      && coins_match coins coin_decimals rates
  | _, _, _ => false
  end.

Definition bound_pool (key : PriceKey) (lp : CurveStableLpSource) (decimals : Z) : bool :=
  bool_decide (key = Token (cu_pool lp)) && (decimals =? 18)
  && bool_decide (curve_executable (cu_pool lp) = Some (cu_wasm_hash lp))
  && match curve_pool_info (cu_pool lp) with
     | None => false
     | Some info =>
         bool_decide (curve_decimals (cu_pool lp) = Some 18)
         && bool_decide (ci_coins info = cu_coins lp) && (ci_precision info =? WAD)
         && coins_match (cu_coins lp) (ci_coin_decimals info) (ci_rates info)
     end.

End Reads.
