(* ===== verification/AggEngine.v ===== *)
(** * The resolution engine of the price aggregator
    (contracts/price-aggregator/src/engine.rs, the reads of providers/aquarius.rs and
    providers/curve.rs, session.rs warm, properties.rs dependencies)

    Sources may quote other keys, so resolution recurses; [MAX_RESOLUTION_DEPTH] bounds it,
    and the session's stack detects cycles.  A computation returns a value or an
    [OracleError] together with the session, or traps the call. *)

From S2P Require Import Prelude Errors FpCore Fp PoolTypes ControllerTypes OracleMath AggState.
From stdpp Require Import base numbers list gmap strings.
From Stdlib Require Import ZArith Lia Bool.

Open Scope Z_scope.

Abbreviation Step A := (res (result OracleError A * Session)).

Definition sbind {A B : Type} (c : Step A) (k : A -> Session -> Step B) : Step B :=
  let* (r, s) := c in
  match r with
  | Ok a => k a s
  | Err e => Ok (Err e, s)
  end.

Notation "'try!' ( x , s ) ':=' c 'in' k" := (sbind c (fun x s => k))
  (at level 200, x name, s name, c at level 100, k at level 200, only parsing).

(** A computation that leaves the session alone. *)
Definition on_session {A : Type} (s : Session) (c : ores A) : Step A :=
  let* r := c in
  Ok (r, s).

Definition dependencies (source : PriceSource) : list PriceKey :=
  match source with
  | Feed _ => []
  | Scaled scaled => [ss_quote scaled]
  | AquariusLp lp | AquariusStableLp lp => [aq_key_a lp; aq_key_b lp]
  | CurveStableLp lp => map Token (cu_coins lp)
  end.

Module Engine.

Import Observation Lp LpStable.

Record Reading : Type := mkReading {
  rg_price_wad : Z;
  rg_timestamp : Z;
  rg_stale : bool;
  rg_nature : FeedNature
}.

Inductive LegSlot : Type := Primary | Secondary.

Inductive Legs : Type :=
| One (r : Reading)
| Two (primary anchor : Reading)
| Partial (r : Reading) (slot : LegSlot)
| Empty.

Record Outcome : Type := mkOutcome {
  oc_price_wad : Z;
  oc_timestamp : Z;
  oc_first_wad : Z;
  oc_second_wad : Z;
  oc_stale : bool;
  oc_deviation : bool;
  oc_err : option OracleError
}.

Definition blank : Outcome := mkOutcome 0 0 0 0 false false None.
Definition with_err (e : OracleError) : Outcome := mkOutcome 0 0 0 0 false false (Some e).
Definition unreadable : Outcome := with_err NoLastPrice.

Definition one (r : Reading) : Outcome :=
  mkOutcome (rg_price_wad r) (rg_timestamp r) (rg_price_wad r) (rg_price_wad r) (rg_stale r)
    false None.

Definition partial_outcome (r : Reading) (slot : LegSlot) : Outcome :=
  let (first_wad, second_wad) :=
    match slot with
    | Primary => (rg_price_wad r, 0)
    | Secondary => (0, rg_price_wad r)
    end in
  mkOutcome 0 (rg_timestamp r) first_wad second_wad (rg_stale r) true None.

Definition failure (o : Outcome) (oracle : option AssetOracle) : option OracleError :=
  match oc_err o with
  | Some err => Some err
  | None =>
      match oracle with
      | None => Some OracleNotConfigured
      | Some oracle =>
          if oc_stale o then Some PriceFeedStale
          else if oc_deviation o then Some UnsafePriceNotAllowed
          else if oc_price_wad o <=? 0 then Some InvalidPrice
          else if (oc_price_wad o <? ao_min_sanity_price_wad oracle)
                  || (ao_max_sanity_price_wad oracle <? oc_price_wad o)
          then Some SanityBoundViolated
          else None
      end
  end.

Definition config_failure (o : Outcome) : option OracleError :=
  match oc_err o with
  | Some ((OracleCycleDetected | OracleDepthExceeded | SourceCountOutOfRange
          | OracleNotConfigured) as err) => Some err
  | _ => None
  end.

Definition to_feed (o : Outcome) (asset_decimals : Z) : PriceFeedRaw :=
  mkPriceFeedRaw (oc_price_wad o) asset_decimals (oc_timestamp o).

Definition force (o : Outcome) (oracle : option AssetOracle) : res PriceFeedRaw :=
  match failure o oracle with
  | Some err => Err (EOracle err)
  | None =>
      match oracle with
      | None => Err (EOracle OracleNotConfigured)
      | Some oracle => Ok (to_feed o (ao_asset_decimals oracle))
      end
  end.

Definition with_code (status : PriceStatus) (code : option Z) : PriceStatus :=
  mkPriceStatus (final_wad status) (primary_wad status) (secondary_wad status)
    (price_timestamp status) (ps_stale status) (ps_deviation status) (ps_valid status) code.

Definition to_status (o : Outcome) (oracle : option AssetOracle) : PriceStatus :=
  let fail := failure o oracle in
  let error_code := OracleError_code <$> fail in
  match oc_err o with
  | Some _ => with_code unusable error_code
  | None =>
      {| final_wad := oc_price_wad o;
         primary_wad := oc_first_wad o;
         secondary_wad := oc_second_wad o;
         price_timestamp := oc_timestamp o;
         ps_stale := oc_stale o;
         ps_deviation := oc_deviation o;
         ps_valid := match fail with None => true | Some _ => false end;
         ps_error_code := error_code |}
  end.

Definition blend (oracle : AssetOracle) (legs : Legs) : res Outcome :=
  match legs with
  | Empty => Ok unreadable
  | One r => Ok (one r)
  | Partial r slot => Ok (partial_outcome r slot)
  | Two primary anchor =>
      let spread_bounded := bool_decide (rg_nature primary = Market)
                            && bool_decide (rg_nature anchor = Market) in
      let age_spread := Z.abs (rg_timestamp primary - rg_timestamp anchor) in
      let stale := rg_stale primary || rg_stale anchor
                   || (spread_bounded && (MAX_LEG_AGE_SPREAD_SECONDS <? age_spread)) in
      let* within := within_tolerance_band (rg_price_wad anchor) (rg_price_wad primary)
                       (ao_tolerance oracle) in
      Ok {| oc_price_wad := midpoint_price_or_zero (rg_price_wad anchor) (rg_price_wad primary);
            oc_timestamp := Z.min (rg_timestamp primary) (rg_timestamp anchor);
            oc_first_wad := rg_price_wad primary;
            oc_second_wad := rg_price_wad anchor;
            oc_stale := stale;
            oc_deviation := negb within;
            oc_err := None |}
  end.

Definition source_nature (source : PriceSource) : FeedNature :=
  match source with
  | Feed feed => nature (fs_provider feed)
  | Scaled scaled => nature (fs_provider (ss_factor scaled))
  | AquariusLp _ | AquariusStableLp _ | CurveStableLp _ => Market
  end.

Section Resolve.

Context `{Providers}.
Context (reg : Registry).

Definition read_feed (s : Session) (feed : FeedSource)
    : res (option (OracleObservation * bool) * Session) :=
  let d := fs_decimals feed in
  let* (observation, s) :=
    (match fs_provider feed with
     | Chainlink c => Ok (read_chainlink_source s c d, s)
     | Reflector r => let* o := read_reflector_source s r d in Ok (o, s)
     | RedStone r => Ok (read_multi_feed_source s r d)
     | Xoxno x => Ok (read_multi_feed_source s x d)
     end) in
  Ok (match observation with
      | None => None
      | Some o => Some (o, is_stale (now_secs s) (ob_timestamp o) (fs_max_stale_seconds feed))
      end, s).

(** ** Sources that quote other keys

    [nested] is [resolve_nested] one level down. *)
Section Nested.

Context (nested : Session -> PriceKey -> Step PriceFeedRaw).

Definition read_scaled (s : Session) (scaled : ScaledSource)
    : Step (option (OracleObservation * bool)) :=
  let* (o, s) := read_feed s (ss_factor scaled) in
  match o with
  | None => Ok (Ok None, s)
  | Some (factor, factor_stale) =>
      if (ob_price_wad factor <? ss_min_factor_wad scaled)
         || (ss_max_factor_wad scaled <? ob_price_wad factor)
      then Ok (Err FactorOutOfBounds, s)
      else
        try! (quote, s) := nested s (ss_quote scaled) in
        let* price := Wad.try_mul (ob_price_wad factor) (pfr_price_wad quote) in
        Ok (match price with
            | None => Err InvalidPrice
            | Some p => Ok (Some (mkOracleObservation p
                              (Z.min (ob_timestamp factor) (pfr_timestamp quote)), factor_stale))
            end, s)
  end.

Definition aquarius_read (s : Session) (key : PriceKey) (lp : AquariusLpSource)
    (share_decimals : Z) (stable : bool) : Step (option (OracleObservation * bool)) :=
  match bound_tokens key lp with
  | None => Ok (Err NoLastPrice, s)
  | Some tokens =>
      if negb (pool_kind_matches lp stable) then Ok (Err NoLastPrice, s)
      else
        match key with
        | Ref _ => Ok (Err NoLastPrice, s)
        | Token share =>
            if negb (decimals_match share tokens share_decimals lp) then Ok (Err NoLastPrice, s)
            else
              try! (price_a, s) := nested s (aq_key_a lp) in
              try! (price_b, s) := nested s (aq_key_b lp) in
              match aquarius_pool_reserves_call (aq_pool lp),
                    aquarius_total_shares_call (aq_pool lp) with
              | Some (reserve_a, reserve_b), Some total_shares =>
                  let leg_a := mkLpLeg reserve_a (aq_reserve_a_decimals lp)
                                 (pfr_price_wad price_a) in
                  let leg_b := mkLpLeg reserve_b (aq_reserve_b_decimals lp)
                                 (pfr_price_wad price_b) in
                  let supply := mkLpSupply total_shares share_decimals in
                  on_session s (
                    let? price_wad :=
                      (if stable then
                         match aquarius_amp_call (aq_pool lp) with
                         | None => ofail NoLastPrice
                         | Some amp => fair_stable_lp_price_wad leg_a leg_b supply amp
                         end
                       else fair_lp_price_wad leg_a leg_b supply) in
                    match i128_checked_pow 10 share_decimals with
                    | None => ofail InvalidPrice
                    | Some share_unit =>
                        let? pool_value_wad :=
                          ok_or (FpCore.try_mul_div_half_up price_wad total_shares share_unit)
                            InvalidPrice in
                        if pool_value_wad <? aq_min_pool_value_wad lp
                        then ofail InsufficientAquariusLiquidity
                        else oreturn (Some (mkOracleObservation price_wad
                               (Z.min (pfr_timestamp price_a) (pfr_timestamp price_b)), false))
                    end)
              | _, _ => Ok (Err NoLastPrice, s)
              end
        end
  end.

(** The coin loop of [curve::read]: the lowest price and the oldest timestamp. *)
Fixpoint curve_coins (s : Session) (coins : list Address) (minimum timestamp : Z)
    : Step (Z * Z) :=
  match coins with
  | [] => Ok (Ok (minimum, timestamp), s)
  | coin :: coins =>
      try! (price, s) := nested s (Token coin) in
      curve_coins s coins (Z.min minimum (pfr_price_wad price))
        (Z.min timestamp (pfr_timestamp price))
  end.

Definition curve_read (s : Session) (key : PriceKey) (lp : CurveStableLpSource) (decimals : Z)
    : Step (option (OracleObservation * bool)) :=
  if negb (bound_pool key lp decimals) then Ok (Err UnsupportedCurvePool, s)
  else
    try! (mt, s) := curve_coins s (cu_coins lp) i128_max (now_secs s) in
    match curve_virtual_price (cu_pool lp), curve_total_supply (cu_pool lp) with
    | Some virtual_price, Some supply =>
        on_session s (
          let* price_wad := FpCore.mul_div_floor_saturating virtual_price mt.1 WAD in
          let* value := FpCore.mul_div_floor_saturating price_wad supply WAD in
          if value <? cu_min_pool_value_wad lp then ofail InsufficientCurveLiquidity
          else oreturn (Some (mkOracleObservation price_wad mt.2, false)))
    | _, _ => Ok (Err NoLastPrice, s)
    end.

Definition evaluate_source (s : Session) (key : PriceKey) (source : PriceSource)
    (asset_decimals : Z) : Step (option (OracleObservation * bool)) :=
  match source with
  | Feed feed => let* (o, s) := read_feed s feed in Ok (Ok o, s)
  | Scaled scaled => read_scaled s scaled
  | AquariusLp lp => aquarius_read s key lp asset_decimals false
  | AquariusStableLp lp => aquarius_read s key lp asset_decimals true
  | CurveStableLp lp => curve_read s key lp asset_decimals
  end.

Definition read_source (s : Session) (key : PriceKey) (oracle : AssetOracle)
    (source : PriceSource) : Step (option Reading) :=
  try! (o, s) := evaluate_source s key source (ao_asset_decimals oracle) in
  Ok (Ok (match o with
          | None => None
          | Some (observation, component_stale) =>
              let timestamp := ob_timestamp observation in
              Some (mkReading (ob_price_wad observation) timestamp
                      (component_stale
                       || is_stale (now_secs s) timestamp (ao_max_price_stale_seconds oracle))
                      (source_nature source))
          end), s).

Definition compose (s : Session) (key : PriceKey) (oracle : AssetOracle) : Step Legs :=
  match ao_sources oracle with
  | [source] =>
      try! (first, s) := read_source s key oracle source in
      Ok (Ok (match first with Some r => One r | None => Empty end), s)
  | [source; source'] =>
      try! (first, s) := read_source s key oracle source in
      try! (second, s) := read_source s key oracle source' in
      Ok (Ok (match first, second with
              | Some primary, Some anchor => Two primary anchor
              | Some r, None => Partial r Primary
              | None, Some r => Partial r Secondary
              | None, None => Empty
              end), s)
  | _ => Ok (Err SourceCountOutOfRange, s)
  end.

(** [compose] and [blend] under the key's stack entry. *)
Definition outcome_of (s : Session) (key : PriceKey) (oracle : AssetOracle)
    : res (Outcome * Session) :=
  let* (legs, s) := compose s key oracle in
  let* outcome := (match legs with
                   | Ok legs => blend oracle legs
                   | Err err => Ok (with_err err)
                   end) in
  Ok (outcome, pop_key s).

Definition resolve_outcome (s : Session) (key : PriceKey) (depth : Z)
    (override_oracle : option AssetOracle) : res (Outcome * option AssetOracle * Session) :=
  if MAX_RESOLUTION_DEPTH <? depth then Ok (with_err OracleDepthExceeded, None, s)
  else if is_resolving s key then Ok (with_err OracleCycleDetected, None, s)
  else
    let* s := push_key s key in
    match (match override_oracle with Some o => Some o | None => get_oracle reg key end) with
    | None => Ok (with_err OracleNotConfigured, None, pop_key s)
    | Some oracle =>
        let* (outcome, s) := outcome_of s key oracle in
        Ok (outcome, Some oracle, s)
    end.

End Nested.

(** ** Cached paths *)

(** [validate_cached_path], the loop over dependencies: [rec] checks one of them. *)
Fixpoint each_ok {A : Type} (rec : Session -> A -> Step unit) (s : Session) (l : list A)
    : Step unit :=
  match l with
  | [] => Ok (Ok tt, s)
  | x :: l => try! (u, s) := rec s x in each_ok rec s l
  end.

Fixpoint validate_cached_path (fuel : nat) (s : Session) (key : PriceKey) (depth : Z)
    : Step unit :=
  if MAX_RESOLUTION_DEPTH <? depth then Ok (Err OracleDepthExceeded, s)
  else if is_resolving s key then Ok (Err OracleCycleDetected, s)
  else
    match get_oracle reg key with
    | None => Ok (Err OracleNotConfigured, s)
    | Some oracle =>
        let* s := push_key s key in
        let* (result, s) :=
          (match fuel with
           | O => Ok (Err OracleDepthExceeded, s)
           | S fuel =>
               each_ok (fun s source =>
                 each_ok (fun s dependency => validate_cached_path fuel s dependency (depth + 1))
                   s (dependencies source)) s (ao_sources oracle)
           end) in
        Ok (result, pop_key s)
    end.

(** ** Resolution *)

(** Depth 4 fails at once, so four levels of fuel reach every depth below it. *)
Fixpoint resolve_nested (fuel : nat) (s : Session) (key : PriceKey) (depth : Z)
    : Step PriceFeedRaw :=
  match cached_price s key with
  | Some cached =>
      try! (u, s) := validate_cached_path fuel s key depth in
      Ok (Ok cached, s)
  | None =>
      match cached_error s key with
      | Some cached =>
          try! (u, s) := validate_cached_path fuel s key depth in
          Ok (Err cached, s)
      | None =>
          let nested :=
            match fuel with
            | O => fun s _ => Ok (Err OracleDepthExceeded, s)
            | S fuel => fun s k => resolve_nested fuel s k (depth + 1)
            end in
          let* (oo, s) := resolve_outcome nested s key depth None in
          let (outcome, oracle) := oo in
          match failure outcome oracle with
          | Some err =>
              Ok (Err err, match config_failure outcome with
                           | None => store_error s key err
                           | Some _ => s
                           end)
          | None =>
              match oracle with
              | None => Ok (Err OracleNotConfigured, s)
              | Some oracle =>
                  let feed := to_feed outcome (ao_asset_decimals oracle) in
                  Ok (Ok feed, store_price s key feed)
              end
          end
      end
  end.

Definition resolution_fuel : nat := 4.

(** [resolve_outcome] as the entrypoints call it, at depth 0. *)
Definition resolve_at_top (s : Session) (key : PriceKey) (override_oracle : option AssetOracle)
    : res (Outcome * option AssetOracle * Session) :=
  resolve_outcome (fun s k => resolve_nested resolution_fuel s k 1) s key 0 override_oracle.

Definition compute_hard (s : Session) (key : PriceKey) (override_oracle : option AssetOracle)
    : res (PriceFeedRaw * Outcome * Session) :=
  let* (oo, s) := resolve_at_top s key override_oracle in
  let* feed := force oo.1 oo.2 in
  Ok (feed, oo.1, s).

Definition resolve (s : Session) (key : PriceKey) : res (PriceFeedRaw * Session) :=
  match cached_price s key with
  | Some cached => Ok (cached, s)
  | None =>
      let* (fo, s) := compute_hard s key None in
      Ok (fo.1, store_price s key fo.1)
  end.

Definition resolve_detailed (s : Session) (key : PriceKey)
    : res (PriceFeedRaw * Outcome * Session) :=
  let* (fo, s) := compute_hard s key None in
  Ok (fo, store_price s key fo.1).

Definition resolve_status (s : Session) (key : PriceKey) : res (PriceStatus * Session) :=
  match cached_status s key with
  | Some cached => Ok (cached, s)
  | None =>
      let* (oo, s) := resolve_at_top s key None in
      let status := to_status oo.1 oo.2 in
      Ok (status, store_status s key status)
  end.

Definition probe_priceable (s : Session) (key : PriceKey) (oracle : AssetOracle) : res unit :=
  let* (oo, _) := resolve_at_top s key (Some oracle) in
  do! force oo.1 (match oo.2 with Some o => Some o | None => Some oracle end) in
  Ok tt.

Definition probe (s : Session) (key : PriceKey) (oracle : AssetOracle) : res unit :=
  let* (oo, _) := resolve_at_top s key (Some oracle) in
  match config_failure oo.1 with
  | Some err => Err (EOracle err)
  | None => Ok tt
  end.

(** ** Warming (session.rs) *)

Definition FeedMap : Type := list (Address * list string).

(** A Soroban map keeps its keys sorted; the adapters are read in that order. *)
Fixpoint add_feed (m : FeedMap) (adapter : Address) (feed_id : string) : FeedMap :=
  match m with
  | [] => [(adapter, [feed_id])]
  | (a, feeds) :: rest =>
      if bool_decide (a = adapter)
      then (a, if bool_decide (feed_id ∈ feeds) then feeds else feeds ++ [feed_id]) :: rest
      else if (address_id adapter <? address_id a)%N then (adapter, [feed_id]) :: m
      else (a, feeds) :: add_feed rest adapter feed_id
  end.

Definition collect_provider (m : FeedMap) (provider : ProviderRef) : FeedMap :=
  match provider with
  | RedStone f | Xoxno f => add_feed m (mf_contract f) (mf_feed_id f)
  | Chainlink _ | Reflector _ => m
  end.

Fixpoint collect_key (fuel : nat) (st : FeedMap * list PriceKey) (key : PriceKey) (depth : Z)
    : FeedMap * list PriceKey :=
  let (by_adapter, visited) := st in
  if (MAX_RESOLUTION_DEPTH <? depth) || bool_decide (key ∈ visited) then st
  else
    let visited := visited ++ [key] in
    match get_oracle reg key with
    | None => (by_adapter, visited)
    | Some oracle =>
        fold_left (fun (st : FeedMap * list PriceKey) source =>
          let m := match source with
                   | Feed feed => collect_provider st.1 (fs_provider feed)
                   | Scaled scaled => collect_provider st.1 (fs_provider (ss_factor scaled))
                   | _ => st.1
                   end in
          match fuel with
          | O => (m, st.2)
          | S fuel => fold_left (fun st d => collect_key fuel st d (depth + 1)) (dependencies source)
                        (m, st.2)
          end) (ao_sources oracle) (by_adapter, visited)
    end.

Definition MIN_BULK_FEEDS : nat := 2.

Definition warm_adapter (s : Session) (e : Address * list string) : Session :=
  if (length e.2 <? MIN_BULK_FEEDS)%nat then s
  else
    match read_price_data_bulk e.1 e.2 with
    | None => s
    | Some payloads =>
        fold_left (fun s p => set_feed s e.1 p.1 p.2) (zip e.2 payloads) s
    end.

Definition warm (s : Session) (keys : list PriceKey) : Session :=
  fold_left warm_adapter
    (fold_left (fun st k => collect_key resolution_fuel st k 0) keys ([], [])).1 s.

End Resolve.

End Engine.
