(* ===== verification/AggContract.v ===== *)
(** * Configuration and entrypoints of the price aggregator
    (contracts/price-aggregator/src/properties.rs, validation.rs, admin.rs, lib.rs, the
    attestations of providers/, and the oracle checks of common/src/validation.rs) *)

From S2P Require Import Prelude Errors FpCore Fp PoolTypes PoolCache ControllerTypes OracleMath AggState AggEngine.
From stdpp Require Import base numbers list gmap strings.
From Stdlib Require Import ZArith Lia Bool.

Open Scope Z_scope.

(** ** Bounds of a configuration (common/src/validation.rs) *)

Module OracleBounds.

Import Observation.

Definition MIN_ASSET_DECIMALS : Z := 0.

Definition validate_oracle_tolerance (t : OracleTolerance) : res unit :=
  do! require ((BPS + MIN_TOLERANCE <=? upper_ratio_bps t)
               && (upper_ratio_bps t <=? BPS + MAX_TOLERANCE)
               && (BPS - MAX_TOLERANCE <=? lower_ratio_bps t) && (lower_ratio_bps t <=? BPS))
        (EOracle BadLastTolerance) in
  let* expected_lower := FpCore.mul_div_half_up BPS BPS (upper_ratio_bps t) in
  require (lower_ratio_bps t =? expected_lower) (EOracle BadLastTolerance).

Definition validate_sanity_bounds (min_wad max_wad : Z) : res unit :=
  do! require ((0 <? min_wad) && (0 <? max_wad) && (min_wad <? max_wad)
               && (max_wad <=? MAX_REASONABLE_PRICE_WAD)) (EOracle InvalidSanityBounds) in
  let* half_width_bps := FpCore.mul_div_floor (max_wad - min_wad) BPS (max_wad + min_wad) in
  require (MIN_SANITY_BAND_BPS <=? half_width_bps) (EOracle InvalidSanityBounds).

Definition validate_single_source_sanity_band (is_dual : bool) (min_wad max_wad : Z) : res unit :=
  if is_dual then Ok tt
  else
    let* band_bps := FpCore.mul_div_ceil (max_wad - min_wad) BPS (max_wad + min_wad) in
    require (band_bps <=? MAX_SINGLE_SOURCE_SANITY_BAND_BPS)
      (EOracle SanityBandTooWideForSingleSource).

Definition validate_lp_sanity_band (min_wad max_wad : Z) : res unit :=
  let* band_bps := FpCore.mul_div_ceil (max_wad - min_wad) BPS (max_wad + min_wad) in
  require (band_bps <=? MAX_LP_SANITY_BAND_BPS) (EOracle SanityBandTooWideForSingleSource).

End OracleBounds.

(** ** Structure of a composition (properties.rs) *)

Module Properties.

Record SourceProperties : Type := mkSourceProperties {
  has_unsmoothed_market_leg : bool;
  trust : list Address;
  loosest_max_stale_seconds : Z;
  sp_depth : Z
}.

(** [SourceProperties::empty] *)
Definition no_properties : SourceProperties := mkSourceProperties false [] 0 0.

Definition of_feed (feed : FeedSource) : SourceProperties :=
  mkSourceProperties (is_unsmoothed_market_leg (fs_provider feed))
    [provider_contract (fs_provider feed)] (fs_max_stale_seconds feed) 0.

Definition join (x y : SourceProperties) : SourceProperties :=
  {| has_unsmoothed_market_leg := has_unsmoothed_market_leg x || has_unsmoothed_market_leg y;
     trust := fold_left (fun t c => if bool_decide (c ∈ t) then t else t ++ [c]) (trust y) (trust x);
     loosest_max_stale_seconds :=
       Z.max (loosest_max_stale_seconds x) (loosest_max_stale_seconds y);
     sp_depth := Z.max (sp_depth x) (sp_depth y) |}.

Definition shared_contracts_with (x y : SourceProperties) : list Address :=
  fold_left (fun shared c =>
    if bool_decide (c ∈ trust y) && negb (bool_decide (c ∈ shared)) then shared ++ [c] else shared)
    (trust x) [].

Definition local_properties (source : PriceSource) : SourceProperties :=
  match source with
  | Feed feed => of_feed feed
  | Scaled scaled => of_feed (ss_factor scaled)
  | AquariusLp _ | AquariusStableLp _ | CurveStableLp _ => mkSourceProperties true [] 0 0
  end.

Definition require_depth (depth : Z) : res unit :=
  require (depth <=? MAX_RESOLUTION_DEPTH) (EOracle OracleDepthExceeded).

Section Walk.

Context (reg : Registry).

(** [properties_of_source], over the properties of its dependencies. *)
Definition properties_of_source_with
    (of_key : Session -> PriceKey -> res (SourceProperties * Session)) (s : Session)
    (source : PriceSource) (depth : Z) : res (SourceProperties * Session) :=
  do! require_depth depth in
  let* (p, s) :=
    rfold (fun (ps : SourceProperties * Session) key =>
      let* (d, s) := of_key ps.2 key in
      Ok (join ps.1 d, s)) (local_properties source, s) (dependencies source) in
  Ok (mkSourceProperties (has_unsmoothed_market_leg p) (trust p) (loosest_max_stale_seconds p)
        (Z.max (sp_depth p) depth), s).

(** Depth 4 fails at once; four levels of fuel from depth 1 reach every depth below it. *)
Fixpoint properties_of_key (fuel : nat) (s : Session) (key : PriceKey) (depth : Z)
    : res (SourceProperties * Session) :=
  do! require_depth depth in
  let* s := push_key s key in
  let* oracle := of_option (EOracle OracleNotConfigured) (get_oracle reg key) in
  let of_key :=
    match fuel with
    | O => fun _ _ => Err (EOracle OracleDepthExceeded)
    | S fuel => fun s k => properties_of_key fuel s k (depth + 1)
    end in
  let* (joined, s) :=
    rfold (fun (ps : SourceProperties * Session) source =>
      let* (p, s) := properties_of_source_with of_key ps.2 source depth in
      Ok (join ps.1 p, s)) (no_properties, s) (ao_sources oracle) in
  Ok (joined, pop_key s).

(** At depth 0, as [properties_of_config] calls it. *)
Definition properties_of_source (s : Session) (source : PriceSource)
    : res (SourceProperties * Session) :=
  properties_of_source_with (fun s k => properties_of_key Engine.resolution_fuel s k 1) s source 0.

Record ConfigProperties : Type := mkConfigProperties {
  cp_first : SourceProperties;
  cp_second : option SourceProperties
}.

Definition combined (c : ConfigProperties) : SourceProperties :=
  match cp_second c with
  | Some second => join (cp_first c) second
  | None => cp_first c
  end.

(** validation.rs *)
Definition source_count (count : Z) : res unit :=
  require ((MIN_SOURCES <=? count) && (count <=? MAX_SOURCES)) (EOracle SourceCountOutOfRange).

Definition properties_of_config (s : Session) (sources : list PriceSource)
    : res (ConfigProperties * Session) :=
  do! source_count (Z.of_nat (length sources)) in
  match sources with
  | [x] =>
      let* (first, s) := properties_of_source s x in
      Ok (mkConfigProperties first None, s)
  | [x; y] =>
      let* (first, s) := properties_of_source s x in
      let* (second, s) := properties_of_source s y in
      Ok (mkConfigProperties first (Some second), s)
  | _ => Err HostTrap
  end.

End Walk.

End Properties.

(** ** Checks of a configuration (validation.rs) *)

Module Validation.

Import Observation OracleBounds Properties.

Definition MIN_SMOOTHING_TWAP_RECORDS : Z := 3.

Definition composition_depth (p : SourceProperties) : res unit :=
  require (sp_depth p <=? MAX_RESOLUTION_DEPTH) (EOracle OracleDepthExceeded).

Definition stale_bound_ok (n : Z) : bool :=
  (MIN_PRICE_STALE_SECONDS <=? n) && (n <=? MAX_PRICE_STALE_SECONDS).

Definition staleness_envelope (asset_max_stale_seconds : Z) (p : SourceProperties) : res unit :=
  require (stale_bound_ok asset_max_stale_seconds
           && (loosest_max_stale_seconds p <=? asset_max_stale_seconds))
    (EOracle InvalidStalenessConfig).

Definition smoothing (first : SourceProperties) (second : option SourceProperties) : res unit :=
  require (negb (has_unsmoothed_market_leg first
                 && match second with
                    | None => true
                    | Some p => has_unsmoothed_market_leg p
                    end)) (EGeneric SpotOnlyNotProductionSafe).

Definition covers (outer inner : list Address) : bool :=
  forallb (fun a => bool_decide (a ∈ outer)) inner.

Definition same_address_set (x y : list Address) : bool := covers x y && covers y x.

Definition independence (first second : SourceProperties) (policy : IndependencePolicy)
    (exact : bool) : res unit :=
  let shared := shared_contracts_with first second in
  match policy with
  | RequireDisjoint =>
      require (match shared with [] => true | _ => false end) (EOracle IndependenceNotDeclared)
  | AllowShared declared =>
      require (negb ((match declared with [] => true | _ => false end)
                     || negb (covers declared shared) || (exact && negb (covers shared declared))))
        (EOracle IndependenceNotDeclared)
  end.

Definition key_prices_token (key : PriceKey) (token : Address) : bool :=
  match key with
  | Token a => bool_decide (a = token)
  | Ref _ => true
  end.

Definition asset_decimals_ok (d : Z) : bool := (MIN_ASSET_DECIMALS <=? d) && (d <=? MAX_ASSET_DECIMALS).

Definition aquarius_lp_shape (lp : AquariusLpSource) : res unit :=
  do! require (asset_decimals_ok (aq_reserve_a_decimals lp)
               && asset_decimals_ok (aq_reserve_b_decimals lp)) (EOracle InvalidOracleDecimals) in
  require (negb (bool_decide (aq_token_a lp = aq_token_b lp)
                 || bool_decide (aq_key_a lp = aq_key_b lp)
                 || negb (key_prices_token (aq_key_a lp) (aq_token_a lp))
                 || negb (key_prices_token (aq_key_b lp) (aq_token_b lp))
                 || (aq_min_pool_value_wad lp <=? 0))) (EOracle InvalidOracleBase).

Definition feed_shape (feed : FeedSource) : res unit :=
  do! require ((MIN_ORACLE_DECIMALS <=? fs_decimals feed) && (fs_decimals feed <=? MAX_ORACLE_DECIMALS))
        (EOracle InvalidOracleDecimals) in
  do! require (stale_bound_ok (fs_max_stale_seconds feed)) (EOracle InvalidStalenessConfig) in
  match fs_provider feed with
  | Reflector r =>
      do! (match rf_asset r with
           | AssetString _ => Err (EOracle InvalidOracleTokenType)
           | _ => Ok tt
           end) in
      match rf_read_mode r with
      | Twap records =>
          do! validate_twap_records records in
          require (MIN_SMOOTHING_TWAP_RECORDS <=? records) (EOracle TwapInsufficientObservations)
      | Spot => Ok tt
      end
  | _ => Ok tt
  end.

Definition factor_bounds (scaled : ScaledSource) : res unit :=
  require (negb ((ss_min_factor_wad scaled <=? 0)
                 || (ss_max_factor_wad scaled <? ss_min_factor_wad scaled)
                 || (MAX_REASONABLE_PRICE_WAD <? ss_max_factor_wad scaled)))
    (EOracle InvalidSanityBounds).

Definition source_shape (source : PriceSource) : res unit :=
  match source with
  | Feed feed => feed_shape feed
  | Scaled scaled =>
      do! feed_shape (ss_factor scaled) in
      factor_bounds scaled
  | AquariusLp lp | AquariusStableLp lp => aquarius_lp_shape lp
  | CurveStableLp lp =>
      require ((2 <=? Z.of_nat (length (cu_coins lp)))
               && (Z.of_nat (length (cu_coins lp)) <=? MAX_CURVE_COINS)
               && (0 <? cu_min_pool_value_wad lp)) (EOracle InvalidOracleBase)
  end.

Definition asset_decimals (key : PriceKey) (decimals : Z) : res unit :=
  require (match key with
           | Token _ => asset_decimals_ok decimals
           | Ref _ => decimals =? 0
           end) (EOracle InvalidOracleDecimals).

End Validation.

(** ** Administration (admin.rs) *)

Module AggAdmin.

Import Observation OracleBounds Properties Validation Engine.

Section Admin.

Context `{Providers}.

Definition REDSTONE_DECIMALS : Z := 8.
Definition CHAINLINK_DECIMALS : Z := 18.

(** reflector.rs; a failing [base], [decimals] or [resolution] call traps. *)
Definition attest_base (base : ReflectorAsset) (quote : option PriceKey) : res unit :=
  require (match base, quote with
           | Other symbol, None => bool_decide (symbol = "USD"%string)
           | Stellar base_asset, Some (Token quote_asset) => bool_decide (base_asset = quote_asset)
           | _, _ => false
           end) (EOracle InvalidOracleBase).

Definition reflector_attest (feed : ReflectorFeedRef) (decimals max_stale : Z)
    (quote : option PriceKey) : res unit :=
  let* base := of_option HostTrap (reflector_base (rf_contract feed)) in
  do! attest_base base quote in
  let* d := of_option HostTrap (reflector_decimals (rf_contract feed)) in
  do! require (d =? decimals) (EOracle InvalidOracleDecimals) in
  let* resolution := of_option HostTrap (reflector_resolution (rf_contract feed)) in
  do! require ((MIN_ORACLE_RESOLUTION_SECONDS <=? resolution) && (resolution <=? max_stale))
        (EOracle InvalidOracleResolution) in
  match rf_read_mode feed with
  | Twap records => require (twap_required_span records resolution <=? max_stale)
                      (EOracle InvalidOracleResolution)
  | Spot => Ok tt
  end.

(** aquarius.rs *)
Definition aquarius_attest (key : PriceKey) (oracle : AssetOracle) (lp : AquariusLpSource)
    (stable : bool) : res unit :=
  let* tokens := of_option (EOracle InvalidOracleBase) (bound_tokens key lp) in
  do! require (pool_kind_matches lp stable
               && (negb stable
                   || match aquarius_amp_call (aq_pool lp) with Some _ => true | None => false end)
               && match aquarius_pool_reserves_call (aq_pool lp) with
                  | Some (a, b) => (0 <? a) && (0 <? b)
                  | None => false
                  end) (EOracle UnsupportedAquariusPool) in
  do! require (match aquarius_total_shares_call (aq_pool lp) with
               | Some shares => 0 <? shares
               | None => false
               end) (EOracle UnsupportedAquariusPool) in
  match key with
  | Ref _ => Err (EOracle InvalidOracleBase)
  | Token share =>
      require (decimals_match share tokens (ao_asset_decimals oracle) lp)
        (EOracle InvalidOracleDecimals)
  end.

Definition attest_feed (feed : FeedSource) (quote : option PriceKey) : res unit :=
  match fs_provider feed with
  | Reflector r => reflector_attest r (fs_decimals feed) (fs_max_stale_seconds feed) quote
  | RedStone _ => require (fs_decimals feed =? REDSTONE_DECIMALS) (EOracle InvalidOracleDecimals)
  | Chainlink _ => require (fs_decimals feed =? CHAINLINK_DECIMALS) (EOracle InvalidOracleDecimals)
  | Xoxno x =>
      let* d := of_option HostTrap (reflector_decimals (mf_contract x)) in
      do! require (d =? fs_decimals feed) (EOracle InvalidOracleDecimals) in
      let* age := of_option HostTrap (xoxno_max_submission_age (mf_contract x)) in
      require (age <=? fs_max_stale_seconds feed) (EOracle InvalidStalenessConfig)
  end.

Definition attest_sources (key : PriceKey) (oracle : AssetOracle) : res unit :=
  rfold (fun _ source =>
    match source with
    | Feed feed => attest_feed feed None
    | Scaled scaled => attest_feed (ss_factor scaled) (Some (ss_quote scaled))
    | AquariusLp lp => aquarius_attest key oracle lp false
    | AquariusStableLp lp => aquarius_attest key oracle lp true
    | CurveStableLp _ => Ok tt
    end) tt (ao_sources oracle).

Definition validate_oracle (reg : Registry) (now : Z) (key : PriceKey) (oracle : AssetOracle)
    (exact_independence : bool) : res unit :=
  let* s := push_key (new_session now) key in
  let* (derived, _) := properties_of_config reg s (ao_sources oracle) in
  let lo := ao_min_sanity_price_wad oracle in
  let hi := ao_max_sanity_price_wad oracle in
  do! validate_sanity_bounds lo hi in
  do! (if has_lp_source oracle then validate_lp_sanity_band lo hi
       else
         let exempt_from_band_cap :=
           match cp_second derived with
           | Some second => negb (same_address_set (trust (cp_first derived)) (trust second))
           | None => false
           end in
         validate_single_source_sanity_band exempt_from_band_cap lo hi) in
  do! asset_decimals key (ao_asset_decimals oracle) in
  do! rfold (fun _ source => source_shape source) tt (ao_sources oracle) in
  do! require (negb (existsb is_lp (ao_sources oracle)
                     && negb (length (ao_sources oracle) =? 1)%nat)) (EOracle SourceCountOutOfRange) in
  do! composition_depth (cp_first derived) in
  do! (match cp_second derived with Some second => composition_depth second | None => Ok tt end) in
  do! staleness_envelope (ao_max_price_stale_seconds oracle) (combined derived) in
  do! (if has_lp_source oracle then Ok tt
       else
         do! smoothing (cp_first derived) (cp_second derived) in
         validate_oracle_tolerance (ao_tolerance oracle)) in
  match cp_second derived with
  | Some second => independence (cp_first derived) second (ao_independence oracle) exact_independence
  | None => Ok tt
  end.

Definition validate_asset_oracle (reg : Registry) (now : Z) (key : PriceKey)
    (oracle : AssetOracle) : res unit := validate_oracle reg now key oracle true.

(** [visiting] grows along a path of distinct configured keys. *)
Fixpoint depends_on (fuel : nat) (reg : Registry) (root target : PriceKey)
    (visiting : list PriceKey) : bool :=
  match fuel with
  | O => false
  | S fuel =>
      if bool_decide (root ∈ visiting) then false
      else
        match get_oracle reg root with
        | None => false
        | Some oracle =>
            existsb (fun source =>
              existsb (fun d =>
                bool_decide (d = target) || depends_on fuel reg d target (visiting ++ [root]))
                (dependencies source)) (ao_sources oracle)
        end
  end.

(** One more than the configured keys: a longer path repeats a key. *)
Definition depends_fuel (reg : Registry) : nat := S (S (size (reg_oracles reg))).

Definition revalidate_dependents (reg : Registry) (now : Z) (changed : PriceKey) : res unit :=
  rfold (fun _ candidate =>
    if bool_decide (candidate = changed)
       || negb (depends_on (depends_fuel reg) reg candidate changed [])
    then Ok tt
    else
      let* oracle := of_option (EOracle OracleNotConfigured) (get_oracle reg candidate) in
      validate_oracle reg now candidate oracle false) tt (oracle_keys reg).

Definition set_oracle (reg : Registry) (now : Z) (key : PriceKey) (oracle : AssetOracle)
    : res Registry :=
  do! (match get_oracle reg key with
       | Some stored => require (ao_asset_decimals stored =? ao_asset_decimals oracle)
                          (EOracle InvalidOracleDecimals)
       | None => Ok tt
       end) in
  do! validate_asset_oracle reg now key oracle in
  do! attest_sources key oracle in
  do! (if has_lp_source oracle then probe_priceable reg (new_session now) key oracle
       else probe reg (new_session now) key oracle) in
  let reg := store_oracle reg key oracle in
  do! revalidate_dependents reg now key in
  Ok (emit reg key oracle).

Definition with_band (o : AssetOracle) (min_wad max_wad : Z) : AssetOracle :=
  mkAssetOracle (ao_asset_decimals o) (ao_max_price_stale_seconds o) (ao_sources o)
    (ao_tolerance o) (ao_independence o) min_wad max_wad.

Definition with_tolerance (o : AssetOracle) (t : OracleTolerance) : AssetOracle :=
  mkAssetOracle (ao_asset_decimals o) (ao_max_price_stale_seconds o) (ao_sources o) t
    (ao_independence o) (ao_min_sanity_price_wad o) (ao_max_sanity_price_wad o).

Definition set_sanity_band (reg : Registry) (now : Z) (key : PriceKey) (min_wad max_wad : Z)
    : res Registry :=
  let* oracle := of_option (EOracle OracleNotConfigured) (get_oracle reg key) in
  do! require ((ao_min_sanity_price_wad oracle <=? min_wad)
               && (max_wad <=? ao_max_sanity_price_wad oracle)) (EOracle SanityBandMustTighten) in
  let oracle := with_band oracle min_wad max_wad in
  do! validate_oracle reg now key oracle false in
  do! probe reg (new_session now) key oracle in
  Ok (commit reg key oracle).

Definition set_tolerance (reg : Registry) (now : Z) (key : PriceKey) (tolerance : OracleTolerance)
    : res Registry :=
  let* oracle := of_option (EOracle OracleNotConfigured) (get_oracle reg key) in
  do! require (negb (has_lp_source oracle)) (EOracle SourceCountOutOfRange) in
  do! validate_oracle_tolerance tolerance in
  let oracle := with_tolerance oracle tolerance in
  do! probe reg (new_session now) key oracle in
  Ok (commit reg key oracle).

End Admin.

End AggAdmin.

(** ** Entrypoints (lib.rs) *)

Module PriceAggregator.

Import Engine.

Section Entry.

Context `{Providers}.

Definition constructor (owner : Address) : Registry := mkRegistry (Some owner) ∅ [] [].

Definition warmed_session (reg : Registry) (now : Z) (keys : list PriceKey) : Session :=
  warm reg (new_session now) keys.

Definition prices (reg : Registry) (now : Z) (keys : list PriceKey)
    : res (gmap PriceKey PriceFeedRaw) :=
  let* (out, _) :=
    rfold (fun (st : gmap PriceKey PriceFeedRaw * Session) key =>
      let* (feed, s) := resolve reg st.2 key in
      Ok (<[key := feed]> st.1, s)) (∅, warmed_session reg now keys) keys in
  Ok out.

Definition quotes (reg : Registry) (now : Z) (keys : list PriceKey)
    : res (gmap PriceKey PriceStatus) :=
  let* (out, _) :=
    rfold (fun (st : gmap PriceKey PriceStatus * Session) key =>
      let* (status, s) := resolve_status reg st.2 key in
      Ok (<[key := status]> st.1, s)) (∅, warmed_session reg now keys) keys in
  Ok out.

Definition price_spread (reg : Registry) (now : Z) (key : PriceKey) : res (Z * Z) :=
  let* (fo, _) := resolve_detailed reg (warmed_session reg now [key]) key in
  let o := fo.2 in
  Ok (Z.min (oc_first_wad o) (oc_second_wad o), Z.max (oc_first_wad o) (oc_second_wad o)).

(** [only_owner] *)
Definition only_owner (env : Env) (reg : Registry) : res unit :=
  match reg_owner reg with
  | Some owner => require (authorized env owner) HostTrap
  | None => Err HostTrap
  end.

Definition set_oracle (env : Env) (reg : Registry) (key : PriceKey) (oracle : AssetOracle)
    : res Registry :=
  do! only_owner env reg in
  AggAdmin.set_oracle reg (ledger_timestamp env) key oracle.

Definition set_sanity_band (env : Env) (reg : Registry) (key : PriceKey) (min_wad max_wad : Z)
    : res Registry :=
  do! only_owner env reg in
  AggAdmin.set_sanity_band reg (ledger_timestamp env) key min_wad max_wad.

Definition set_tolerance (env : Env) (reg : Registry) (key : PriceKey)
    (tolerance : OracleTolerance) : res Registry :=
  do! only_owner env reg in
  AggAdmin.set_tolerance reg (ledger_timestamp env) key tolerance.

End Entry.

End PriceAggregator.
