(* ===== verification/AggReference.v ===== *)
(** * Resolution without caches: the reference of the price aggregator

    [reference n stack key] prices [key] from the registry and the providers alone, [n]
    resolutions deep and below the keys of [stack]: no session survives from one key to the
    next.  The engine of [AggEngine] resolves against a session of cached prices and errors;
    [simulates] compares one evaluation of a configuration in a session with one against a
    plain function of prices, and is the only lemma about the bodies of the sources that
    memoisation needs. *)

From S2P Require Import Prelude Errors FpCore Fp PoolTypes ControllerTypes OracleMath LpMath AggState AggEngine AggContract.
From stdpp Require Import base numbers list gmap strings.
From Stdlib Require Import ZArith Lia Bool.

Open Scope Z_scope.

Module Reference.

Import Observation Lp LpStable Engine.

Section Plain.

Context `{Providers}.
Context (reg : Registry) (now : Z).

(** A resolver that looks prices up. *)
Definition looked_up (q : PriceKey -> option PriceFeedRaw) (s : Session) (key : PriceKey)
    : Step PriceFeedRaw := Ok (of_option OracleNotConfigured (q key), s).

(** The price a configuration yields over the prices [q] of the keys it quotes. *)
Definition priced (q : PriceKey -> option PriceFeedRaw) (key : PriceKey) (oracle : AssetOracle)
    : option PriceFeedRaw :=
  match outcome_of (looked_up q) (new_session now) key oracle with
  | Ok (outcome, _) =>
      match failure outcome (Some oracle) with
      | None => Some (to_feed outcome (ao_asset_decimals oracle))
      | Some _ => None
      end
  | Err _ => None
  end.

Fixpoint reference (n : nat) (stack : list PriceKey) (key : PriceKey) : option PriceFeedRaw :=
  match n with
  | O => None
  | S n =>
      if bool_decide (key ∈ stack) then None
      else
        match get_oracle reg key with
        | None => None
        | Some oracle => priced (reference n (stack ++ [key])) key oracle
        end
  end.

(** Keys every source of a configuration quotes. *)
Definition quoted (oracle : AssetOracle) : list PriceKey := mjoin (map dependencies (ao_sources oracle)).

(** The compositions below [key] are configured, without a cycle and at most [n] deep. *)
Fixpoint composed (n : nat) (stack : list PriceKey) (key : PriceKey) : Prop :=
  match n with
  | O => False
  | S n =>
      (key ∉ stack) /\ exists oracle, get_oracle reg key = Some oracle
      /\ Forall (composed n (stack ++ [key])) (quoted oracle)
  end.

(** ** Sessions that read the providers of this ledger *)

Definition live (s : Session) : Prop :=
  now_secs s = now
  /\ forall c f d, feed_cache s !! (c, f) = Some d -> redstone_feed c f = Some d.

Lemma live_new : live (new_session now).
Proof. split; [done|]. intros c f d Hl. cbn in Hl. by rewrite lookup_empty in Hl. Qed.

Lemma live_set_feed s c f d : live s -> redstone_feed c f = Some d -> live (set_feed s c f d).
Proof.
  intros [Hn Hf] Hd. split; [done|]. intros c' f' d'. cbn.
  rewrite lookup_insert_Some. intros [[Hk <-]|[_ Hl]]; [by simplify_eq|eauto].
Qed.

(** ** Simulation *)

Section Simulate.

Context (nested : Session -> PriceKey -> Step PriceFeedRaw) (q : PriceKey -> option PriceFeedRaw).
Context (fine : Session -> Prop) (failed : PriceKey -> OracleError -> Prop).
Context (keys : list PriceKey).
Hypothesis fine_live : forall s, fine s -> live s.
Hypothesis fine_feed : forall s c f d,
  fine s -> redstone_feed c f = Some d -> fine (set_feed s c f d).
Hypothesis nested_answers : forall s d, fine s -> d ∈ keys ->
  exists r s', nested s d = Ok (r, s') /\ fine s'
  /\ match r with Ok g => q d = Some g | Err e => failed d e end.

(** The run in the session gives what the looked-up run gives, or the error of a key it
    resolves. *)
Definition simulates {A : Type} (c pure : Step A) : Prop :=
  forall r s2, pure = Ok (r, s2) ->
  live s2 /\ exists r' s', c = Ok (r', s') /\ fine s'
    /\ (r' = r \/ exists d e, d ∈ keys /\ r' = Err e /\ failed d e).

Lemma simulates_done {A} (x : result OracleError A) s s2 :
  fine s -> live s2 -> simulates (Ok (x, s)) (Ok (x, s2)).
Proof. intros Hs H2 r t [= <- <-]. split; [done|]. eauto 8. Qed.

Lemma simulates_call {A} s s2 d (k k2 : PriceFeedRaw -> Session -> Step A) :
  fine s -> live s2 -> d ∈ keys ->
  (forall g s', q d = Some g -> fine s' -> simulates (k g s') (k2 g s2)) ->
  simulates (sbind (nested s d) k) (sbind (looked_up q s2 d) k2).
Proof using nested_answers.
  intros Hs H2 Hd Hk r t Ht. destruct (nested_answers s d Hs Hd) as (x & s' & Hn & Hf & Hx).
  rewrite Hn. unfold sbind at 1. cbn [rbind]. unfold looked_up, sbind in Ht. cbn [rbind] in Ht.
  destruct x as [g|e].
  - rewrite Hx in Ht. cbn in Ht. by apply (Hk g s').
  - split.
    + destruct (q d) as [g|] eqn:Hq; cbn in Ht; [|by simplify_eq].
      by apply (Hk g s eq_refl Hs) in Ht as [? _].
    + exists (Err e), s'. split_and!; [done..|]. right. by exists d, e.
Qed.

(** Past a simulated step. *)
Lemma simulates_bind {A B} (c p : Step A) (k k2 : A -> Session -> Step B) :
  simulates c p ->
  (forall a s s2, fine s -> live s2 -> simulates (k a s) (k2 a s2)) ->
  simulates (sbind c k) (sbind p k2).
Proof.
  intros Hc Hk r t Ht. unfold sbind in Ht. apply rbind_Ok in Ht as ([x s2] & Hp & Ht).
  destruct (Hc x s2 Hp) as (H2 & x' & s' & Hc' & Hs & Hx). rewrite Hc'. unfold sbind. cbn [rbind].
  destruct Hx as [->|(d & e & Hd & -> & He)].
  - destruct x as [a|e]; [by apply (Hk a s' s2)|]. simplify_eq. split; [done|]. eauto 8.
  - split; [destruct x as [a|e']; [by apply (Hk a s' s2) in Ht as [? _]|by simplify_eq]|].
    exists (Err e), s'. split_and!; [done..|]. right. by exists d, e.
Qed.

Lemma simulates_on_session {A} (c : ores A) s s2 :
  fine s -> live s2 -> simulates (on_session s c) (on_session s2 c).
Proof.
  intros Hs H2 r t Ht. unfold on_session in *. apply rbind_Ok in Ht as (x & Hx & [= -> ->]).
  rewrite Hx. split; [done|]. eauto 8.
Qed.

Lemma multi_feed_same s s2 f d :
  fine s -> live s2 -> exists o s' s2',
    read_multi_feed_source s f d = (o, s') /\ fine s'
    /\ read_multi_feed_source s2 f d = (o, s2') /\ live s2'.
Proof using fine_live fine_feed.
  assert (forall s, live s -> exists s', read_price_data s (mf_contract f) (mf_feed_id f)
            = (redstone_feed (mf_contract f) (mf_feed_id f), s')
            /\ (s' = s \/ exists x, redstone_feed (mf_contract f) (mf_feed_id f) = Some x
                             /\ s' = set_feed s (mf_contract f) (mf_feed_id f) x)) as Hread.
  { intros t [_ Ht]. unfold read_price_data, get_feed.
    destruct (feed_cache t !! _) as [x|] eqn:Hx; [rewrite (Ht _ _ _ Hx); eauto|].
    destruct (redstone_feed _ _) as [x|]; eauto 6. }
  intros Hs H2. pose proof (fine_live s Hs) as H1.
  destruct (Hread s H1) as (s' & E1 & D1), (Hread s2 H2) as (s2' & E2 & D2).
  assert (fine s') as F1 by (destruct D1 as [->|(x & Hx & ->)]; eauto).
  assert (live s2') as F2 by (destruct D2 as [->|(x & Hx & ->)]; eauto using live_set_feed).
  unfold read_multi_feed_source. rewrite E1, E2.
  rewrite (proj1 (fine_live s' F1)), (proj1 F2). eauto 8.
Qed.

Lemma read_feed_simulates {A} s s2 feed (k k2 : option (OracleObservation * bool) -> Session -> Step A) :
  fine s -> live s2 ->
  (forall o s s2, fine s -> live s2 -> simulates (k o s) (k2 o s2)) ->
  simulates (let* (o, s) := read_feed s feed in k o s) (let* (o, s) := read_feed s2 feed in k2 o s).
Proof using fine_live fine_feed.
  intros Hs H2 Hk. pose proof (fine_live s Hs) as [Hn _]. pose proof H2 as [Hn2 _].
  unfold read_feed. destruct (fs_provider feed) as [r|m|m|c]; cbn [rbind].
  - assert (read_reflector_source s r (fs_decimals feed)
            = read_reflector_source s2 r (fs_decimals feed)) as ->.
    { unfold read_reflector_source, read_spot, read_twap. by rewrite Hn, Hn2. }
    destruct (read_reflector_source s2 r (fs_decimals feed)) as [o|e]; cbn [rbind]; [|done].
    rewrite Hn, Hn2. by apply Hk.
  - destruct (multi_feed_same s s2 m (fs_decimals feed) Hs H2) as (o & s' & s2' & -> & F1 & -> & F2).
    cbn [rbind]. rewrite (proj1 (fine_live s' F1)), (proj1 F2). by apply Hk.
  - destruct (multi_feed_same s s2 m (fs_decimals feed) Hs H2) as (o & s' & s2' & -> & F1 & -> & F2).
    cbn [rbind]. rewrite (proj1 (fine_live s' F1)), (proj1 F2). by apply Hk.
  - unfold read_chainlink_source. rewrite Hn, Hn2. by apply Hk.
Qed.

Lemma curve_coins_simulates s s2 coins m t :
  fine s -> live s2 -> (forall c, c ∈ coins -> Token c ∈ keys) ->
  simulates (curve_coins nested s coins m t) (curve_coins (looked_up q) s2 coins m t).
Proof using nested_answers.
  revert s m t. induction coins as [|c coins IH]; intros s m t Hs H2 Hk; cbn [curve_coins].
  - by apply simulates_done.
  - apply simulates_call; [done|done|apply Hk; left|]. intros g s' _ Hs'. apply IH; [done|done|].
    intros c' Hc'. apply Hk. by right.
Qed.

Lemma aquarius_simulates s s2 key lp dec stable :
  fine s -> live s2 -> aq_key_a lp ∈ keys -> aq_key_b lp ∈ keys ->
  simulates (aquarius_read nested s key lp dec stable)
    (aquarius_read (looked_up q) s2 key lp dec stable).
Proof using nested_answers.
  intros Hs H2 Ha Hb. unfold aquarius_read.
  destruct (bound_tokens key lp) as [tokens|]; [|by apply simulates_done].
  destruct (negb (pool_kind_matches lp stable)); [by apply simulates_done|].
  destruct key as [share|]; [|by apply simulates_done].
  destruct (negb (decimals_match share tokens dec lp)); [by apply simulates_done|].
  apply simulates_call; [done..|]. intros pa s' _ Hs'.
  apply simulates_call; [done..|]. intros pb s'' _ Hs''.
  destruct (aquarius_pool_reserves_call (aq_pool lp)) as [[ra rb]|]; [|by apply simulates_done].
  destruct (aquarius_total_shares_call (aq_pool lp)); [|by apply simulates_done].
  by apply simulates_on_session.
Qed.

Lemma curve_simulates s s2 key lp dec :
  fine s -> live s2 -> (forall c, c ∈ cu_coins lp -> Token c ∈ keys) ->
  simulates (curve_read nested s key lp dec) (curve_read (looked_up q) s2 key lp dec).
Proof using fine_live nested_answers.
  intros Hs H2 Hk. unfold curve_read. destruct (negb _); [by apply simulates_done|].
  rewrite (proj1 (fine_live s Hs)), (proj1 H2).
  apply simulates_bind; [by apply curve_coins_simulates|]. intros [m t] s' s2' Hs' H2'.
  destruct (curve_virtual_price (cu_pool lp)) as [v|]; [|by apply simulates_done].
  destruct (curve_total_supply (cu_pool lp)) as [n|]; [|by apply simulates_done].
  by apply simulates_on_session.
Qed.

Lemma scaled_simulates s s2 sc :
  fine s -> live s2 -> ss_quote sc ∈ keys ->
  simulates (read_scaled nested s sc) (read_scaled (looked_up q) s2 sc).
Proof using fine_live fine_feed nested_answers.
  intros Hs H2 Hk. unfold read_scaled. apply read_feed_simulates; [done|done|].
  intros [[o b]|] t t2 Ht Ht2; [|by apply simulates_done].
  destruct (_ || _); [by apply simulates_done|].
  apply simulates_call; [done..|]. intros g s' _ Hs'.
  destruct (Wad.try_mul _ _) as [price|]; cbn [rbind]; [by apply simulates_done|done].
Qed.

Lemma evaluate_simulates s s2 key source dec :
  fine s -> live s2 -> (forall d, d ∈ dependencies source -> d ∈ keys) ->
  simulates (evaluate_source nested s key source dec)
    (evaluate_source (looked_up q) s2 key source dec).
Proof using fine_live fine_feed nested_answers.
  intros Hs H2 Hk. destruct source as [f|sc|lp|lp|lp]; cbn [evaluate_source dependencies] in *.
  - apply read_feed_simulates; [done|done|]. intros. by apply simulates_done.
  - apply scaled_simulates; [done|done|]. apply Hk. left.
  - apply aquarius_simulates; [done|done|apply Hk..]; set_solver.
  - apply aquarius_simulates; [done|done|apply Hk..]; set_solver.
  - apply curve_simulates; [done|done|]. intros c Hc. apply Hk.
    apply list_elem_of_In, in_map, list_elem_of_In, Hc.
Qed.

Lemma read_source_simulates s s2 key oracle source :
  fine s -> live s2 -> (forall d, d ∈ dependencies source -> d ∈ keys) ->
  simulates (read_source nested s key oracle source)
    (read_source (looked_up q) s2 key oracle source).
Proof using fine_live fine_feed nested_answers.
  intros Hs H2 Hk. apply simulates_bind; [by apply evaluate_simulates|]. intros o s' s2' Hs' H2'.
  rewrite (proj1 (fine_live s' Hs')), (proj1 H2'). by apply simulates_done.
Qed.

Lemma compose_simulates s s2 key oracle :
  fine s -> live s2 -> (forall d, d ∈ quoted oracle -> d ∈ keys) ->
  simulates (compose nested s key oracle) (compose (looked_up q) s2 key oracle).
Proof using fine_live fine_feed nested_answers.
  intros Hs H2 Hk. unfold compose, quoted in *.
  destruct (ao_sources oracle) as [|x [|y [|z l]]]; [by apply simulates_done| | |by apply simulates_done];
    cbn in Hk.
  - apply simulates_bind; [apply read_source_simulates; set_solver|].
    intros o s' s2' Hs' H2'. by apply simulates_done.
  - apply simulates_bind; [apply read_source_simulates; set_solver|].
    intros o s' s2' Hs' H2'. apply simulates_bind; [apply read_source_simulates; set_solver|].
    intros o' s'' s2'' Hs'' H2''. by apply simulates_done.
Qed.

(** One configuration: the same outcome, or the error of a key it quotes. *)
Lemma outcome_simulates s key oracle outcome s2 :
  fine s -> (forall d, d ∈ quoted oracle -> d ∈ keys) ->
  outcome_of (looked_up q) (new_session now) key oracle = Ok (outcome, s2) ->
  exists outcome' s', outcome_of nested s key oracle = Ok (outcome', pop_key s') /\ fine s'
  /\ (outcome' = outcome \/ exists d e, d ∈ keys /\ outcome' = with_err e /\ failed d e).
Proof using fine_live fine_feed nested_answers.
  intros Hs Hk Ho. unfold outcome_of in Ho. apply rbind_Ok in Ho as ([legs t] & Hc & Ho).
  apply rbind_Ok in Ho as (oc & Hb & [= -> <-]).
  destruct (compose_simulates s _ key oracle Hs live_new Hk _ _ Hc)
    as (_ & legs' & s' & Hc' & Hs' & [->|(d & e & Hd & -> & He)]); unfold outcome_of; rewrite Hc';
    cbn [rbind].
  - rewrite Hb. cbn [rbind]. eauto 6.
  - exists (with_err e), s'. split_and!; [done..|]. right. by exists d, e.
Qed.

End Simulate.

(** ** A price needs every quoted key, and nothing else of the resolver *)

Lemma curve_needs q s coins m t r s' :
  curve_coins (looked_up q) s coins m t = Ok (Ok r, s') ->
  Forall (fun c => is_Some (q (Token c))) coins.
Proof.
  revert m t. induction coins as [|c coins IH]; intros m t Hr; [constructor|].
  cbn [curve_coins] in Hr. unfold looked_up, sbind in Hr. cbn [rbind] in Hr.
  destruct (q (Token c)) as [g|] eqn:Hq; cbn in Hr; [|done]. constructor; [eauto|by eapply IH].
Qed.

Lemma aquarius_needs q s key lp dec stable o s' :
  aquarius_read (looked_up q) s key lp dec stable = Ok (Ok (Some o), s') ->
  is_Some (q (aq_key_a lp)) /\ is_Some (q (aq_key_b lp)).
Proof.
  unfold aquarius_read. intros Hr. destruct (bound_tokens key lp); [|done].
  destruct (negb (pool_kind_matches lp stable)); [done|]. destruct key; [|done].
  destruct (negb _); [done|]. unfold looked_up, sbind in Hr. cbn [rbind] in Hr.
  destruct (q (aq_key_a lp)); cbn in Hr; [|done]. by destruct (q (aq_key_b lp)).
Qed.

Lemma evaluate_needs q s key source dec o s' :
  evaluate_source (looked_up q) s key source dec = Ok (Ok (Some o), s') ->
  Forall (fun d => is_Some (q d)) (dependencies source).
Proof.
  destruct source as [f|sc|lp|lp|lp]; cbn [evaluate_source dependencies]; intros Hr.
  - constructor.
  - unfold read_scaled in Hr. apply rbind_Ok in Hr as ([[[x b]|] t] & _ & Hr); [|done].
    destruct (_ || _); [done|]. unfold looked_up, sbind in Hr. cbn [rbind] in Hr.
    destruct (q (ss_quote sc)) eqn:Hq; [|done]. repeat constructor. by rewrite Hq.
  - apply aquarius_needs in Hr as [Ha Hb]. by repeat constructor.
  - apply aquarius_needs in Hr as [Ha Hb]. by repeat constructor.
  - unfold curve_read in Hr. destruct (negb _); [done|].
    unfold sbind in Hr. apply rbind_Ok in Hr as ([[mt|e] t] & Hc & Hr); [|done].
    apply curve_needs in Hc. by apply Forall_map.
Qed.

Lemma read_source_needs q s key oracle source r s' :
  read_source (looked_up q) s key oracle source = Ok (Ok (Some r), s') ->
  Forall (fun d => is_Some (q d)) (dependencies source).
Proof.
  unfold read_source, sbind. intros Hr. apply rbind_Ok in Hr as ([[[o|]|e] t] & He & Hr); [|done..].
  by apply evaluate_needs in He.
Qed.

(** Two legs, or the one leg of a single source. *)
Inductive full : Legs -> Prop :=
| full_one r : full (One r)
| full_two r r' : full (Two r r').

Lemma compose_needs q s key oracle legs s' :
  compose (looked_up q) s key oracle = Ok (Ok legs, s') -> full legs ->
  Forall (fun d => is_Some (q d)) (quoted oracle).
Proof.
  unfold compose, quoted. intros Hc Hf.
  destruct (ao_sources oracle) as [|x [|y [|z l]]]; [done| | |done]; cbn [map].
  - unfold sbind in Hc. apply rbind_Ok in Hc as ([[[r|]|e] t] & Hx & Hc); simplify_eq; [|inversion Hf].
    apply read_source_needs in Hx. cbn. by rewrite app_nil_r.
  - unfold sbind in Hc. apply rbind_Ok in Hc as ([[o|e] t] & Hx & Hc); [|done].
    apply rbind_Ok in Hc as ([[o'|e] t'] & Hy & Hc); [|done]. simplify_eq.
    destruct o as [r|], o' as [r'|]; try by inversion Hf.
    apply read_source_needs in Hx, Hy. cbn. rewrite app_nil_r. by apply Forall_app.
Qed.

Lemma blend_failure oracle legs outcome :
  blend oracle legs = Ok outcome -> failure outcome (Some oracle) = None -> full legs.
Proof.
  destruct legs as [r|r r'|r slot|]; cbn [blend]; intros Hb Hf; [constructor..| |].
  - injection Hb as <-. unfold failure, partial_outcome in Hf.
    destruct slot; cbn in Hf; by destruct (rg_stale r).
  - by injection Hb as <-.
Qed.

Lemma priced_Some q key oracle f :
  priced q key oracle = Some f <->
  exists outcome s, outcome_of (looked_up q) (new_session now) key oracle = Ok (outcome, s)
    /\ failure outcome (Some oracle) = None /\ f = to_feed outcome (ao_asset_decimals oracle).
Proof.
  unfold priced. split.
  - destruct (outcome_of _ _ _ _) as [[oc s]|]; [|done]. destruct (failure oc _) eqn:Hf; [done|].
    intros [= <-]. eauto.
  - intros (oc & s & -> & -> & ->). done.
Qed.

Lemma priced_legs q key oracle f :
  priced q key oracle = Some f ->
  exists legs outcome s, compose (looked_up q) (new_session now) key oracle = Ok (Ok legs, s)
    /\ full legs /\ blend oracle legs = Ok outcome /\ failure outcome (Some oracle) = None
    /\ f = to_feed outcome (ao_asset_decimals oracle).
Proof.
  intros (oc & s & Ho & Hf & ->)%priced_Some. unfold outcome_of in Ho.
  apply rbind_Ok in Ho as ([[legs|e] t] & Hc & Ho);
    apply rbind_Ok in Ho as (oc' & Hb & [= <- <-]).
  - exists legs, oc', t. split_and!; [done|by eapply blend_failure|done..].
  - by injection Hb as <-.
Qed.

Lemma priced_needs q key oracle f :
  priced q key oracle = Some f -> Forall (fun d => is_Some (q d)) (quoted oracle).
Proof. intros (legs & oc & s & Hc & Hl & _)%priced_legs. by eapply compose_needs. Qed.

Lemma priced_mono q q' key oracle f :
  priced q key oracle = Some f ->
  (forall d g, d ∈ quoted oracle -> q d = Some g -> q' d = Some g) ->
  priced q' key oracle = Some f.
Proof.
  intros Hp Hq. pose proof (priced_needs _ _ _ _ Hp) as Hn. rewrite Forall_forall in Hn.
  apply priced_Some in Hp as (oc & s & Ho & Hf & ->). apply priced_Some.
  destruct (outcome_simulates (looked_up q') q live (fun _ _ => False) (quoted oracle))
    with (s := new_session now) (key := key) (oracle := oracle) (outcome := oc) (s2 := s)
    as (oc' & s' & Ho' & _ & [->|(d & e & _ & _ & [])]); [done| | |apply live_new|done|done|eauto].
  - intros. by apply live_set_feed.
  - intros t d Ht Hd. destruct (Hn d Hd) as [g Hg]. exists (Ok g), t. split_and!; [|done|done].
    unfold looked_up. by rewrite (Hq d g Hd Hg).
Qed.

(** ** Compositions *)

Lemma reference_composed n stack key f : reference n stack key = Some f -> composed n stack key.
Proof.
  revert stack key f. induction n as [|n IH]; intros stack key f Hr; [done|]. cbn in Hr |- *.
  destruct (bool_decide_reflect (key ∈ stack)) as [|Hk]; [done|]. split; [done|].
  destruct (get_oracle reg key) as [oracle|]; [|done]. exists oracle. split; [done|].
  apply priced_needs in Hr. eapply Forall_impl; [exact Hr|]. intros d [g Hg]. by eapply IH.
Qed.

Lemma composed_weaken n n' stack stack' key :
  composed n stack key -> (n <= n')%nat -> (forall k, k ∈ stack' -> k ∈ stack) ->
  composed n' stack' key.
Proof.
  revert n' stack stack' key. induction n as [|n IH]; intros n' stack stack' key Hc Hn Hs; [done|].
  destruct n' as [|n']; [lia|]. cbn in Hc |- *. destruct Hc as [Hk (o & Ho & Hd)].
  split; [by intros ?%Hs|]. exists o. split; [done|]. eapply Forall_impl; [exact Hd|].
  intros d Hc. eapply IH; [exact Hc|lia|]. intros k. rewrite !elem_of_app. naive_solver.
Qed.

(** A price that resolved anywhere resolves wherever its composition fits. *)
Lemma reference_transfer n n' stack stack' key f :
  reference n stack key = Some f -> composed n' stack' key -> reference n' stack' key = Some f.
Proof.
  revert n' stack stack' key f. induction n as [|n IH]; intros n' stack stack' key f Hr Hc; [done|].
  destruct n' as [|n']; [done|]. cbn in Hr, Hc |- *. destruct Hc as [Hk (o & Ho & Hd)].
  rewrite bool_decide_eq_false_2 by done. destruct (bool_decide _); [done|].
  rewrite Ho in Hr |- *. eapply priced_mono; [exact Hr|]. intros d g Hq Hg.
  rewrite Forall_forall in Hd. eauto.
Qed.

Lemma reference_unique n n' stack stack' key f f' :
  reference n stack key = Some f -> reference n' stack' key = Some f' -> f = f'.
Proof.
  intros Hf Hf'. pose proof (reference_composed _ _ _ _ Hf) as Hc.
  pose proof (reference_composed _ _ _ _ Hf') as Hc'.
  assert (composed (n + n') [] key) as Ht
    by (apply (composed_weaken n _ stack); [done|lia|by intros k ?%elem_of_nil]).
  pose proof (reference_transfer _ _ _ _ _ _ Hf Ht). pose proof (reference_transfer _ _ _ _ _ _ Hf' Ht).
  congruence.
Qed.

End Plain.

End Reference.

(** ** The aggregator never traps on a validated registry

    Every read of a well-formed source over sane prices returns a value or an oracle error,
    never a host trap, and its observation fits an [i128] and lies at most the allowed clock
    skew in the future.  Hence [priced] and [reference] are sane, fresh and inside the
    configured band. *)

Module AggTotal.

Import Observation Lp LpStable LpMath Engine Reference OracleBounds Properties Validation.

(** What [validate_oracle] leaves of a stored configuration. *)
Record oracle_ok (key : PriceKey) (oracle : AssetOracle) : Prop := {
  ok_count : source_count (Z.of_nat (length (ao_sources oracle))) = Ok tt;
  ok_shape : Forall (fun source => source_shape source = Ok tt) (ao_sources oracle);
  ok_decimals : asset_decimals key (ao_asset_decimals oracle) = Ok tt;
  ok_bounds : validate_sanity_bounds (ao_min_sanity_price_wad oracle)
                (ao_max_sanity_price_wad oracle) = Ok tt;
  ok_stale : stale_bound_ok (ao_max_price_stale_seconds oracle) = true;
  ok_lp : existsb is_lp (ao_sources oracle) = true -> length (ao_sources oracle) = 1%nat;
  ok_tolerance : has_lp_source oracle = false -> validate_oracle_tolerance (ao_tolerance oracle) = Ok tt
}.

Definition registry_ok (reg : Registry) : Prop :=
  forall key oracle, get_oracle reg key = Some oracle -> oracle_ok key oracle.

Lemma oracle_ok_bounds key oracle :
  oracle_ok key oracle ->
  0 < ao_min_sanity_price_wad oracle < ao_max_sanity_price_wad oracle
  /\ ao_max_sanity_price_wad oracle <= MAX_REASONABLE_PRICE_WAD.
Proof.
  intros [_ _ _ Hb _ _ _]. unfold validate_sanity_bounds in Hb. apply rbind_Ok in Hb as (u & Hr & _).
  apply require_Ok in Hr. b2p. lia.
Qed.

Lemma oracle_ok_decimals key oracle : oracle_ok key oracle -> 0 <= ao_asset_decimals oracle <= 18.
Proof.
  intros [_ _ Hd _ _ _ _]. unfold asset_decimals in Hd. apply require_Ok in Hd.
  destruct key; unfold asset_decimals_ok, MIN_ASSET_DECIMALS, MAX_ASSET_DECIMALS in Hd; b2p; lia.
Qed.

Section Total.

Context `{HP : Providers} {HT : TypedProviders}.
Context (reg : Registry) (now : Z).

Record sound (ob : OracleObservation) : Prop := {
  sound_price : is_i128 (ob_price_wad ob);
  sound_time : ob_timestamp ob <= now + MAX_FUTURE_SKEW_SECONDS
}.

Record sane (f : PriceFeedRaw) : Prop := {
  sane_price : 0 < pfr_price_wad f <= MAX_REASONABLE_PRICE_WAD;
  sane_time : pfr_timestamp f <= now + MAX_FUTURE_SKEW_SECONDS
}.

Lemma reasonable_i128 : MAX_REASONABLE_PRICE_WAD <= i128_max.
Proof. zconst. Qed.

(** ** Steps that return *)

Definition returns {A : Type} (P : A -> Prop) (c : Step A) : Prop :=
  exists r s, c = Ok (r, s) /\ live now s /\ forall a, r = Ok a -> P a.

Lemma returns_done {A} (P : A -> Prop) r s :
  live now s -> (forall a, r = Ok a -> P a) -> returns P (Ok (r, s)).
Proof. intros Hs Hr. by exists r, s. Qed.

Lemma returns_bind {A B} (P : A -> Prop) (Q : B -> Prop) (c : Step A) k :
  returns P c -> (forall a s, P a -> live now s -> returns Q (k a s)) -> returns Q (sbind c k).
Proof.
  intros (r & s & -> & Hs & Hr) Hk. unfold sbind. cbn [rbind].
  destruct r as [a|e]; [by apply Hk; auto|]. by apply returns_done.
Qed.

Lemma returns_on_session {A} (P : A -> Prop) (c : ores A) s :
  live now s -> (exists r, c = Ok r /\ forall a, r = Ok a -> P a) -> returns P (on_session s c).
Proof. intros Hs (r & -> & Hr). by apply returns_done. Qed.

Lemma returns_looked_up q d s :
  live now s -> (forall f, q d = Some f -> sane f) -> returns sane (looked_up q s d).
Proof.
  intros Hs Hq. apply returns_done; [done|]. intros f. rewrite of_option_Ok. auto.
Qed.

(** ** Feeds *)

Lemma normalize_positive price d p :
  try_normalize_positive_price price d = Some p -> is_i128 p /\ 0 < p.
Proof.
  unfold try_normalize_positive_price. destruct (_ || _) eqn:Hb; [done|]. b2p.
  destruct (i128_checked_pow 10 _) as [x|] eqn:Hx; [|done]. apply pow10_i128 in Hx as [_ Hx]; [|lia].
  intros [-> Hp]%i128_checked_Some. split; [done|]. nia.
Qed.

Lemma not_future ts : is_future_at now ts = false -> 0 <= ts <= u64_max ->
  ts <= now + MAX_FUTURE_SKEW_SECONDS.
Proof.
  unfold is_future_at. destruct (Z.leb_spec (now + MAX_FUTURE_SKEW_SECONDS) u64_max); [|lia].
  intros Hf _. b2p. lia.
Qed.

Definition positive (ob : OracleObservation) : Prop := sound ob /\ 0 < ob_price_wad ob.

Lemma normalized price d p ts :
  try_normalize_positive_price price d = Some p -> is_future_at now ts = false ->
  0 <= ts <= u64_max -> positive (mkOracleObservation p ts).
Proof.
  intros [Hp H0]%normalize_positive Hf Ht. split; [|done]. split; [done|]. by apply not_future.
Qed.

Lemma chainlink_positive r d ob :
  0 <= cr_timestamp r <= u64_max -> from_chainlink now r d = Some ob -> positive ob.
Proof.
  intros Ht. unfold from_chainlink. destruct (is_future_at _ _) eqn:Hf; [done|].
  destruct (i128_checked _); [|done]. destruct (try_normalize_positive_price _ _) eqn:Hp; [|done].
  intros [= <-]. by eapply normalized.
Qed.

Lemma multi_feed_positive x d ob :
  0 <= rs_package_timestamp x <= u64_max -> 0 <= rs_write_timestamp x <= u64_max ->
  from_multi_feed now x d = Some ob -> positive ob.
Proof.
  intros Hp Hw. unfold from_multi_feed. destruct (_ || _) eqn:Hf; [done|].
  destruct (try_u256_to_i128 _); [|done].
  destruct (try_normalize_positive_price _ _) eqn:Hn; [|done]. intros [= <-]. b2p.
  assert (forall t, 0 <= t <= u64_max -> 0 <= millis_to_seconds t <= u64_max) as Hm.
  { intros t Ht. unfold millis_to_seconds, MS_PER_SECOND. split; [apply Z.div_pos; lia|].
    apply Z.div_le_upper_bound; lia. }
  pose proof (Hm _ Hp). pose proof (Hm _ Hw).
  apply (normalized _ _ _ _ Hn); [|lia]. by destruct (Z.min_spec (millis_to_seconds (rs_write_timestamp x))
    (millis_to_seconds (rs_package_timestamp x))) as [[_ ->]|[_ ->]].
Qed.

Lemma reflector_positive x d ob :
  0 <= rd_timestamp x <= u64_max -> from_reflector now x d = Some ob -> positive ob.
Proof.
  intros Ht. unfold from_reflector. destruct (is_future_at _ _) eqn:Hf; [done|].
  destruct (try_normalize_positive_price _ _) eqn:Hp; [|done]. intros [= <-]. by eapply normalized.
Qed.

Lemma twap_oldest_bound resolution previous oldest history ts :
  Forall (fun x => 0 <= rd_timestamp x <= u64_max) history ->
  twap_oldest now resolution previous oldest history = Ok ts ->
  (history <> [] \/ oldest <= now + MAX_FUTURE_SKEW_SECONDS) ->
  ts <= now + MAX_FUTURE_SKEW_SECONDS.
Proof.
  revert previous oldest. induction history as [|x history IH]; intros previous oldest Hh Ho Hd;
    cbn in Ho.
  - destruct Hd as [|Hd]; [done|]. by simplify_eq.
  - inversion Hh; subst. destruct (is_future_at _ _) eqn:Hf; [done|]. apply not_future in Hf; [|done].
    destruct (match previous with Some _ => _ | None => _ end); [done|]. eapply IH; eauto.
Qed.

Lemma twap_sound s feed d n :
  live now s -> validate_twap_records n = Ok tt -> (forall a, rf_asset feed <> AssetString a) ->
  exists r, read_twap s feed d n = Ok r /\ forall ob, r = Ok ob -> positive ob.
Proof using HT.
  intros [Hn _] Hv Ha. unfold read_twap. rewrite Hv. cbn [rbind].
  destruct (to_reflector_asset (rf_asset feed)) as [a|] eqn:Ea;
    [|destruct (rf_asset feed); by try specialize (Ha s0)]. cbn [rbind].
  destruct (reflector_history _ a n) as [[|x l]|] eqn:Hh; [by eexists|..|by eexists].
  destruct (_ <? _); [by eexists|]. destruct (reflector_resolution _) as [res|]; [|by eexists].
  destruct (_ <? _); [by eexists|]. rewrite Hn.
  destruct (twap_oldest now res None u64_max (x :: l)) as [ts|e] eqn:Ht; cbn [obind rbind];
    [|by eexists].
  destruct (_ <? _); [by eexists|]. destruct (try_twap_mean_price _) as [raw|]; [|by eexists].
  destruct (try_normalize_positive_price raw d) as [p|] eqn:Hp; [|by eexists].
  eexists. split; [done|]. intros ob [= <-]. apply normalize_positive in Hp as [Hp H0].
  split; [|done]. split; [done|]. eapply twap_oldest_bound; [|exact Ht|by left].
  eapply Forall_impl; [exact (typed_history _ _ _ _ Hh)|]. tauto.
Qed.

(** What [feed_shape] says of a Reflector feed. *)
Lemma feed_shape_reflector feed r :
  feed_shape feed = Ok tt -> fs_provider feed = Reflector r ->
  (forall a, rf_asset r <> AssetString a)
  /\ forall n, rf_read_mode r = Twap n -> validate_twap_records n = Ok tt.
Proof.
  unfold feed_shape. intros Hs Hp. rewrite Hp in Hs.
  apply rbind_Ok in Hs as (u & _ & Hs). apply rbind_Ok in Hs as (u' & _ & Hs).
  apply rbind_Ok in Hs as (u'' & Ha & Hs). split; [by intros a Hr; rewrite Hr in Ha|].
  intros n Hm. rewrite Hm in Hs. by apply rbind_Ok in Hs as ([] & Hv & _).
Qed.

Lemma reflector_sound s feed r :
  live now s -> feed_shape feed = Ok tt -> fs_provider feed = Reflector r ->
  exists o, read_reflector_source s r (fs_decimals feed) = Ok o
  /\ forall ob, o = Some ob -> positive ob.
Proof using HT.
  intros Hs Hf Hp. destruct (feed_shape_reflector _ _ Hf Hp) as [Ha Hm].
  unfold read_reflector_source. destruct (rf_read_mode r) as [|n] eqn:Er.
  - unfold read_spot. destruct (to_reflector_asset (rf_asset r)) as [a|] eqn:Ea;
      [|destruct (rf_asset r); by try specialize (Ha s0)]. cbn [rbind].
    destruct (reflector_lastprice _ a) as [x|] eqn:Hx; [|by eexists].
    eexists. split; [done|]. rewrite (proj1 Hs). intros ob. apply reflector_positive.
    apply (typed_last _ _ _ Hx).
  - destruct (twap_sound s r (fs_decimals feed) n Hs (Hm n eq_refl) Ha) as (x & -> & Hx). cbn [rbind].
    eexists. split; [done|]. destruct x; [|done]. intros ob [= <-]. auto.
Qed.

Lemma multi_feed_sound s f d :
  live now s -> exists o s', read_multi_feed_source s f d = (o, s') /\ live now s'
  /\ forall ob, o = Some ob -> positive ob.
Proof using HT.
  intros Hs. destruct (multi_feed_same now (live now) (fun _ h => h)
    ltac:(intros; by apply live_set_feed) s s f d Hs Hs) as (o & s' & _ & E & Hs' & _).
  exists o, s'. split_and!; [done|done|]. intros ob ->. revert E. unfold read_multi_feed_source.
  destruct (read_price_data s (mf_contract f) (mf_feed_id f)) as [x t] eqn:Ex. intros [= Hx ->].
  destruct x as [x|]; [|done]. rewrite (proj1 Hs') in Hx.
  assert (redstone_feed (mf_contract f) (mf_feed_id f) = Some x) as Hr%typed_feed.
  { unfold read_price_data, get_feed in Ex. destruct (feed_cache s !! _) as [y|] eqn:Hy.
    - simplify_eq. by apply Hs in Hy.
    - destruct (redstone_feed _ _); by simplify_eq. }
  destruct Hr as (_ & Hp & Hw). by eapply multi_feed_positive.
Qed.

Lemma read_feed_sound s feed :
  live now s -> feed_shape feed = Ok tt ->
  exists o s', read_feed s feed = Ok (o, s') /\ live now s'
  /\ forall ob b, o = Some (ob, b) -> positive ob.
Proof using HT.
  intros Hs Hf. unfold read_feed. destruct (fs_provider feed) as [r|m|m|c] eqn:Hp; cbn [rbind].
  - destruct (reflector_sound s feed r Hs Hf Hp) as (o & -> & Ho). cbn [rbind].
    eexists _, s. split_and!; [done|done|]. intros ob b. destruct o; [|done]. intros [= <- <-]. auto.
  - destruct (multi_feed_sound s m (fs_decimals feed) Hs) as (o & s' & -> & Hs' & Ho). cbn [rbind].
    eexists _, s'. split_and!; [done|done|]. intros ob b. destruct o; [|done]. intros [= <- <-]. auto.
  - destruct (multi_feed_sound s m (fs_decimals feed) Hs) as (o & s' & -> & Hs' & Ho). cbn [rbind].
    eexists _, s'. split_and!; [done|done|]. intros ob b. destruct o; [|done]. intros [= <- <-]. auto.
  - eexists _, s. split_and!; [done|done|]. intros ob b. unfold read_chainlink_source.
    destruct (chainlink_latest_round _ _ _) as [x|] eqn:Hx; [|done]. rewrite (proj1 Hs).
    destruct (from_chainlink _ _ _) as [y|] eqn:Hy; [|done]. intros [= <- <-].
    apply typed_round in Hx. by eapply chainlink_positive.
Qed.

(** ** Sources *)

(** The observation of a source that produced one. *)
Definition observed (o : option (OracleObservation * bool)) : Prop :=
  forall ob b, o = Some (ob, b) -> sound ob.

Definition quotes_sane (q : PriceKey -> option PriceFeedRaw) : Prop := forall d f, q d = Some f -> sane f.

Lemma scaled_returns q s sc :
  live now s -> quotes_sane q -> source_shape (Scaled sc) = Ok tt ->
  returns observed (read_scaled (looked_up q) s sc).
Proof using HT.
  intros Hs Hq Hsh. cbn in Hsh. apply rbind_Ok in Hsh as ([] & Hf & _). unfold read_scaled.
  destruct (read_feed_sound s _ Hs Hf) as (o & s' & -> & Hs' & Ho). cbn [rbind].
  destruct o as [[ob b]|]; [|by apply returns_done; [|intros ? [= <-]]].
  destruct (_ || _); [by apply returns_done|].
  apply (returns_bind sane); [by apply returns_looked_up; [|apply Hq]|].
  intros g t Hg Ht. destruct (Ho _ _ eq_refl) as [[Hp Hts] H0]. destruct Hg as [Hg _].
  pose proof reasonable_i128.
  destruct (try_mul_div_total (ob_price_wad ob) (pfr_price_wad g) WAD) as [E Hn]; [lia|lia|split; zconst|].
  unfold Wad.try_mul. rewrite E. cbn [rbind].
  destruct (i128_checked _) as [p|] eqn:Hc; [|by apply returns_done].
  apply i128_checked_Some in Hc as [-> Hc]. apply returns_done; [done|]. intros x [= <-] y c [= <- <-].
  split; cbn; [done|]. lia.
Qed.

Lemma aquarius_shape lp :
  aquarius_lp_shape lp = Ok tt -> 0 <= aq_reserve_a_decimals lp /\ 0 <= aq_reserve_b_decimals lp.
Proof.
  unfold aquarius_lp_shape. intros Hs. apply rbind_Ok in Hs as (u & Hr%require_Ok & _).
  unfold asset_decimals_ok, MIN_ASSET_DECIMALS in Hr. b2p. lia.
Qed.

(** The price of a share and its pool's value, once the pool is read. *)
Lemma share_price_returns a b supply (stable : bool) (pool : Address) :
  legs_typed a b supply ->
  exists r : result OracleError Z, (if stable then
               match aquarius_amp_call pool with
               | None => ofail NoLastPrice
               | Some amp => fair_stable_lp_price_wad a b supply amp
               end
             else fair_lp_price_wad a b supply) = Ok r
  /\ forall p, r = Ok p -> 0 <= p <= i128_max.
Proof.
  intros Hl. destruct stable.
  - destruct (aquarius_amp_call pool) as [amp|]; [|by eexists].
    destruct (fair_stable_lp_price_Ok a b supply amp Hl) as [->|(p & -> & Hp)]; [by eexists|].
    eexists. split; [done|]. by intros ? [= <-].
  - destruct (fair_lp_price_Ok a b supply Hl) as [->|(va & vb & _ & _ & _ & _ & _ & -> & Hp)];
      [by eexists|]. eexists. split; [done|]. by intros ? [= <-].
Qed.

Lemma pool_value_total p shares dec :
  0 <= p <= i128_max -> 0 <= shares <= i128_max -> 0 <= dec ->
  forall unit_, i128_checked_pow 10 dec = Some unit_ ->
  exists o, FpCore.try_mul_div_half_up p shares unit_ = Ok o.
Proof.
  intros Hp Hs Hd u Hu%pow10_i128; [|done].
  destruct (try_mul_div_total p shares u) as [-> _]; [lia..|by eexists].
Qed.

Lemma aquarius_returns q s key lp dec stable :
  live now s -> quotes_sane q -> aquarius_lp_shape lp = Ok tt -> 0 <= dec ->
  returns observed (aquarius_read (looked_up q) s key lp dec stable).
Proof using HT.
  intros Hs Hq [Ha Hb]%aquarius_shape Hd. unfold aquarius_read.
  destruct (bound_tokens key lp) as [tokens|]; [|by apply returns_done].
  destruct (negb _); [by apply returns_done|]. destruct key as [share|]; [|by apply returns_done].
  destruct (negb _); [by apply returns_done|].
  apply (returns_bind sane); [by apply returns_looked_up; [|apply Hq]|]. intros pa t [Pa Ta] Ht.
  apply (returns_bind sane); [by apply returns_looked_up; [|apply Hq]|]. intros pb t' [Pb Tb] Ht'.
  destruct (aquarius_pool_reserves_call (aq_pool lp)) as [[ra rb]|] eqn:Hr; [|by apply returns_done].
  destruct (aquarius_total_shares_call (aq_pool lp)) as [n|] eqn:Hn; [|by apply returns_done].
  apply returns_on_session; [done|]. pose proof reasonable_i128.
  assert (ra <= i128_max /\ rb <= i128_max) as [].
  { unfold aquarius_pool_reserves_call in Hr.
    destruct (aquarius_reserves _) as [[|? [|? [|]]]|]; try done. case_in Hr; [|done]. simplify_eq.
    b2p. lia. }
  assert (0 <= n <= i128_max) as Hn'.
  { unfold aquarius_total_shares_call in Hn. destruct (aquarius_total_shares _) as [m|] eqn:Hm; [|done].
    apply typed_shares in Hm. case_in Hn; [|done]. simplify_eq. b2p. lia. }
  destruct (share_price_returns (mkLpLeg ra (aq_reserve_a_decimals lp) (pfr_price_wad pa))
    (mkLpLeg rb (aq_reserve_b_decimals lp) (pfr_price_wad pb)) (mkLpSupply n dec) stable (aq_pool lp))
    as ([p|e] & -> & Hp); [split; cbn; lia| |by eexists].
  cbn [obind rbind]. specialize (Hp p eq_refl).
  destruct (i128_checked_pow 10 dec) as [u|] eqn:Hu; [|by eexists].
  destruct (pool_value_total p n dec Hp Hn' Hd u Hu) as [o ->]. unfold ok_or. cbn [rbind obind].
  destruct o as [v|]; cbn [of_option rbind]; [|by eexists]. destruct (_ <? _); [by eexists|].
  eexists. split; [done|]. intros x [= <-] ob b [= <- <-]. assert (i128_min <= 0) by zconst.
  split; cbn; lia.
Qed.

Lemma curve_coins_returns q s coins m t :
  live now s -> quotes_sane q ->
  returns (fun mt => mt.1 <= m /\ mt.2 <= t /\ (0 < m -> 0 < mt.1))
    (curve_coins (looked_up q) s coins m t).
Proof.
  revert s m t. induction coins as [|c coins IH]; intros s m t Hs Hq; cbn [curve_coins].
  - apply returns_done; [done|]. intros mt [= <-]. cbn. lia.
  - apply (returns_bind sane); [by apply returns_looked_up; [|apply Hq]|]. intros g s' [Hg _] Hs'.
    destruct (IH s' (Z.min m (pfr_price_wad g)) (Z.min t (pfr_timestamp g)) Hs' Hq)
      as (r & s'' & E & Hl & Hr). exists r, s''. split_and!; [done|done|].
    intros mt Hmt. specialize (Hr mt Hmt). lia.
Qed.

Lemma curve_returns q s key lp dec :
  live now s -> quotes_sane q -> returns observed (curve_read (looked_up q) s key lp dec).
Proof using HT.
  intros Hs Hq. unfold curve_read. destruct (negb _); [by apply returns_done|].
  eapply returns_bind; [by apply curve_coins_returns|]. intros [m t] s' (Hm & Ht & Hp) Hs'.
  cbn in Hm, Ht, Hp. assert (0 < i128_max) as Hx by zconst. specialize (Hp Hx).
  destruct (curve_virtual_price _) as [v|] eqn:Hv; [|by apply returns_done].
  destruct (curve_total_supply _) as [n|] eqn:Hn; [|by apply returns_done].
  apply returns_on_session; [done|]. apply typed_virtual in Hv. apply typed_supply in Hn.
  assert (i128_min <= 0) by zconst.
  assert (forall z, is_i128 (FpCore.clamp_i128 z)) as Hc by (intros z; unfold FpCore.clamp_i128; lia).
  cbn [fst snd]. rewrite FpCore.mul_div_floor_saturating_ref by (lia || (split; zconst)).
  destruct (Z.eqb_spec WAD 0) as [E|_]; [discriminate E|]. cbn [rbind].
  rewrite FpCore.mul_div_floor_saturating_ref by (apply Hc || lia || (split; zconst)).
  destruct (Z.eqb_spec WAD 0) as [E|_]; [discriminate E|]. cbn [rbind].
  destruct (_ <? _); [by eexists|]. eexists. split; [done|]. intros x [= <-] ob b [= <- <-].
  split; cbn; [apply Hc|]. rewrite (proj1 Hs) in Ht. unfold MAX_FUTURE_SKEW_SECONDS. lia.
Qed.

Lemma evaluate_returns q s key source dec :
  live now s -> quotes_sane q -> source_shape source = Ok tt -> 0 <= dec ->
  returns observed (evaluate_source (looked_up q) s key source dec).
Proof using HT.
  intros Hs Hq Hsh Hd. destruct source as [f|sc|lp|lp|lp]; cbn [evaluate_source].
  - destruct (read_feed_sound s f Hs Hsh) as (o & s' & -> & Hs' & Ho). cbn [rbind].
    apply returns_done; [done|]. intros x [= <-] ob b Hob. by destruct (Ho ob b Hob).
  - by apply scaled_returns.
  - by apply aquarius_returns.
  - by apply aquarius_returns.
  - by apply curve_returns.
Qed.

(** ** Configurations *)

(** A reading the blend can use: its staleness is its own and the configuration's. *)
Definition read_well (oracle : AssetOracle) (r : Reading) : Prop :=
  is_i128 (rg_price_wad r) /\ rg_timestamp r <= now + MAX_FUTURE_SKEW_SECONDS
  /\ (rg_stale r = false -> now - rg_timestamp r <= Z.max 0 (ao_max_price_stale_seconds oracle)).

Lemma read_source_returns q s key oracle source :
  live now s -> quotes_sane q -> source_shape source = Ok tt -> 0 <= ao_asset_decimals oracle ->
  returns (fun o => forall r, o = Some r -> read_well oracle r)
    (read_source (looked_up q) s key oracle source).
Proof using HT.
  intros Hs Hq Hsh Hd. eapply returns_bind; [by apply evaluate_returns|]. intros o s' Ho Hs'.
  apply returns_done; [done|]. intros x [= <-] r. destruct o as [[ob b]|]; [|done]. intros [= <-].
  destruct (Ho ob b eq_refl) as [Hp Ht]. split; [exact Hp|]. split; [exact Ht|]. cbn.
  rewrite (proj1 Hs').
  unfold is_stale. intros Hf. b2p. lia.
Qed.

Definition legs_well (oracle : AssetOracle) (legs : Legs) : Prop :=
  match legs with
  | One r | Partial r _ => read_well oracle r
  | Two r r' => read_well oracle r /\ read_well oracle r'
  | Empty => True
  end.

Lemma compose_returns q key oracle :
  quotes_sane q -> oracle_ok key oracle ->
  returns (legs_well oracle) (compose (looked_up q) (new_session now) key oracle).
Proof using HT.
  intros Hq Hok. pose proof (proj1 (oracle_ok_decimals _ _ Hok)) as Hd.
  pose proof (ok_shape _ _ Hok) as Hsh. unfold compose.
  destruct (ao_sources oracle) as [|x [|y [|z l]]]; [apply returns_done; auto using live_new| | |
    apply returns_done; auto using live_new]; [done| | |done].
  - inversion Hsh; subst. eapply returns_bind; [by apply read_source_returns; auto using live_new|].
    intros o s Ho Hs. apply returns_done; [done|]. intros legs [= <-]. destruct o; cbn; auto.
  - inversion Hsh as [|? ? Hx Hsh']; subst. inversion Hsh'; subst.
    eapply returns_bind; [by apply read_source_returns; auto using live_new|]. intros o s Ho Hs.
    eapply returns_bind; [by apply read_source_returns|]. intros o' s' Ho' Hs'.
    apply returns_done; [done|]. intros legs [= <-]. destruct o, o'; cbn; auto.
Qed.

Lemma blend_total oracle legs :
  legs_well oracle legs -> exists outcome, blend oracle legs = Ok outcome.
Proof.
  destruct legs as [r|r r'|r slot|]; cbn [blend legs_well]; [by eexists| |by eexists..].
  intros [[Hp _] [Hp' _]]. unfold within_tolerance_band.
  rewrite FpCore.try_mul_div_half_up_ref by (lia || (split; zconst)). cbn [rbind]. by eexists.
Qed.

Lemma outcome_total q key oracle :
  quotes_sane q -> oracle_ok key oracle ->
  exists outcome s, outcome_of (looked_up q) (new_session now) key oracle = Ok (outcome, s).
Proof using HT.
  intros Hq Hok. destruct (compose_returns q key oracle Hq Hok) as (r & s & Hc & _ & Hl).
  unfold outcome_of. rewrite Hc. cbn [rbind]. destruct r as [legs|e]; [|by eexists _, _].
  destruct (blend_total oracle legs (Hl _ eq_refl)) as [oc ->]. by eexists _, _.
Qed.

(** ** Prices *)

(** What a price in use satisfies. *)
Record acceptable (oracle : AssetOracle) (f : PriceFeedRaw) : Prop := {
  ac_positive : 0 < pfr_price_wad f;
  ac_band : ao_min_sanity_price_wad oracle <= pfr_price_wad f <= ao_max_sanity_price_wad oracle;
  ac_decimals : pfr_asset_decimals f = ao_asset_decimals oracle;
  ac_fresh : now - pfr_timestamp f <= ao_max_price_stale_seconds oracle;
  ac_not_future : pfr_timestamp f <= now + MAX_FUTURE_SKEW_SECONDS
}.

Lemma failure_None outcome oracle :
  failure outcome (Some oracle) = None ->
  oc_err outcome = None /\ oc_stale outcome = false /\ oc_deviation outcome = false
  /\ 0 < oc_price_wad outcome
  /\ ao_min_sanity_price_wad oracle <= oc_price_wad outcome <= ao_max_sanity_price_wad oracle.
Proof.
  unfold failure. destruct (oc_err outcome); [done|]. destruct (oc_stale outcome); [done|].
  destruct (oc_deviation outcome); [done|]. destruct (Z.leb_spec (oc_price_wad outcome) 0); [done|].
  destruct (_ || _) eqn:Hb; [done|]. b2p. intros _. split_and!; (done || lia).
Qed.

Lemma blend_acceptable oracle legs outcome :
  legs_well oracle legs -> full legs -> blend oracle legs = Ok outcome ->
  0 <= ao_max_price_stale_seconds oracle -> failure outcome (Some oracle) = None ->
  acceptable oracle (to_feed outcome (ao_asset_decimals oracle)).
Proof.
  intros Hl Hf Hb Hm (_ & Hst & _ & Hp & Hband)%failure_None.
  assert (now - oc_timestamp outcome <= ao_max_price_stale_seconds oracle
          /\ oc_timestamp outcome <= now + MAX_FUTURE_SKEW_SECONDS) as [];
    [|by split].
  inversion Hf; subst; cbn [blend legs_well] in *.
  - injection Hb as <-. destruct Hl as (_ & Ht & Hs). cbn in Hst. specialize (Hs Hst). cbn. lia.
  - apply rbind_Ok in Hb as (w & _ & [= <-]). destruct Hl as [(_ & Ht & Hs) (_ & Ht' & Hs')].
    cbn in Hst. b2p. cbn. specialize (Hs ltac:(assumption)). specialize (Hs' ltac:(assumption)). lia.
Qed.

Lemma priced_acceptable q key oracle f :
  quotes_sane q -> oracle_ok key oracle -> priced now q key oracle = Some f -> acceptable oracle f.
Proof using HT.
  intros Hq Hok (legs & oc & s & Hc & Hf & Hb & Hn & ->)%priced_legs.
  destruct (compose_returns q key oracle Hq Hok) as (r & t & Hc' & _ & Hl). rewrite Hc in Hc'.
  simplify_eq. eapply blend_acceptable; eauto. pose proof (ok_stale _ _ Hok) as Hs.
  unfold stale_bound_ok, MIN_PRICE_STALE_SECONDS in Hs. b2p. lia.
Qed.

Lemma acceptable_sane key oracle f : oracle_ok key oracle -> acceptable oracle f -> sane f.
Proof. intros Hok [Hp Hb _ _ Ht]. pose proof (oracle_ok_bounds _ _ Hok). split; [lia|done]. Qed.

Lemma reference_acceptable n stack key f :
  registry_ok reg -> reference reg now n stack key = Some f ->
  exists oracle, get_oracle reg key = Some oracle /\ acceptable oracle f.
Proof using HT.
  intros Hreg. revert stack key f. induction n as [|n IH]; intros stack key f Hr; [done|].
  cbn in Hr. destruct (bool_decide _); [done|]. destruct (get_oracle reg key) as [o|] eqn:Ho; [|done].
  exists o. split; [done|]. eapply priced_acceptable; [|by apply Hreg|exact Hr].
  intros d g Hg. destruct (IH _ _ _ Hg) as (o' & Ho' & Ha). eapply acceptable_sane; eauto.
Qed.

Lemma reference_sane n stack : registry_ok reg -> quotes_sane (reference reg now n stack).
Proof using HT.
  intros Hreg d f Hf. destruct (reference_acceptable _ _ _ _ Hreg Hf) as (o & Ho & Ha).
  eapply acceptable_sane; eauto.
Qed.

End Total.

End AggTotal.
