(* ===== verification/AggResolve.v ===== *)
(** * The engine computes the reference

    [resolve_nested] consults prices and errors cached earlier in the call, and
    [validate_cached_path] re-checks depth and cycles for a cached answer.  On a validated
    registry it returns exactly the cache-free [reference] of the key in the current context,
    never traps and leaves a session whose caches are still right; so do the entrypoints. *)

From S2P Require Import Prelude Errors FpCore Fp PoolTypes ControllerTypes OracleMath AggState AggEngine AggContract AggReference.
From stdpp Require Import base numbers list gmap strings.
From Stdlib Require Import ZArith Lia Bool.

Open Scope Z_scope.

Module AggResolve.

Import Engine Reference AggTotal.

(** Errors of the composition, not of the market; they are never cached. *)
Definition config_error (e : OracleError) : bool :=
  match e with
  | OracleCycleDetected | OracleDepthExceeded | SourceCountOutOfRange | OracleNotConfigured => true
  | _ => false
  end.

Section Resolve.

Context `{HP : Providers} {HT : TypedProviders}.
Context (reg : Registry) (now : Z).
Hypothesis reg_ok : registry_ok reg.

Abbreviation priced_at n st k := (reference reg now n st k).

(** [key] has no price in any context. *)
Definition dead (key : PriceKey) : Prop := forall n st, priced_at n st key = None.

(** What a status says of a key's price. *)
Definition reports (key : PriceKey) (x : PriceStatus) : Prop :=
  match priced_at resolution_fuel [] key with
  | Some f => ps_valid x = true /\ ps_error_code x = None
      /\ final_wad x = pfr_price_wad f /\ price_timestamp x = pfr_timestamp f
  | None => ps_valid x = false /\ is_Some (ps_error_code x)
  end.

Record cached_well (s : Session) : Prop := {
  cw_live : live now s;
  cw_status : forall k x, key_statuses s !! k = Some x -> reports k x;
  cw_price : forall k f, key_prices s !! k = Some f ->
    exists n st, (n <= resolution_fuel)%nat /\ priced_at n st k = Some f;
  cw_error : forall k e, key_errors s !! k = Some e -> dead k /\ config_error e = false
}.

Definition at_stack (st : list PriceKey) (s : Session) : Prop :=
  cached_well s /\ resolving_keys s = st.

Lemma at_stack_feed st s c f d :
  at_stack st s -> redstone_feed c f = Some d -> at_stack st (set_feed s c f d).
Proof. intros [[Hl Hx Hp He] Hs] Hd. split; [|done]. split; [by apply live_set_feed|done..]. Qed.

Lemma at_stack_set st st' s : at_stack st s -> at_stack st' (set_stack s st').
Proof. intros [[[Hn Hf] Hx Hp He] Hs]. split; [|done]. by split. Qed.

Lemma at_stack_price st s k f n st' :
  at_stack st s -> (n <= resolution_fuel)%nat -> priced_at n st' k = Some f ->
  at_stack st (store_price s k f).
Proof.
  intros [[[Hn Hf] Hx Hp He] Hs] Hle Hr. split; [|done]. split; [done|done| |done].
  intros k' f'. cbn. rewrite lookup_insert_Some. intros [[<- <-]|[_ Hk]]; eauto.
Qed.

Lemma at_stack_error st s k e :
  at_stack st s -> dead k -> config_error e = false -> at_stack st (store_error s k e).
Proof.
  intros [[[Hn Hf] Hx Hp He] Hs] Hd Hc. split; [|done]. split; [done|done|done|].
  intros k' e'. cbn. rewrite lookup_insert_Some. intros [[<- <-]|[_ Hk]]; eauto.
Qed.

Lemma at_stack_status st s k x :
  at_stack st s -> reports k x -> at_stack st (store_status s k x).
Proof.
  intros [[[Hn Hf] Hx Hp He] Hs] Hr. split; [|done]. split; [done| |done..].
  intros k' x'. cbn. rewrite lookup_insert_Some. intros [[<- <-]|[_ Hk]]; eauto.
Qed.

Lemma set_stack_same s : set_stack s (resolving_keys s) = s.
Proof. by destruct s. Qed.

Lemma set_stack_twice s l l' : set_stack (set_stack s l) l' = set_stack s l'.
Proof. done. Qed.

Lemma pop_pushed s key st : resolving_keys s = st ++ [key] -> pop_key s = set_stack s st.
Proof. intros Hs. unfold pop_key. by rewrite Hs, removelast_last. Qed.

Lemma push_fresh s key :
  key ∉ resolving_keys s -> push_key s key = Ok (set_stack s (resolving_keys s ++ [key])).
Proof. intros Hk. unfold push_key, is_resolving. by rewrite bool_decide_eq_false_2. Qed.

(** ** Cached paths *)

(** [P] decides each check, and none of them changes the session. *)
Lemma each_ok_decides {A} (P : A -> Prop) rec s (l : list A) :
  (forall x, x ∈ l -> exists r, rec s x = Ok (r, s)
     /\ match r with Ok _ => P x | Err e => ~ P x /\ config_error e = true end) ->
  exists r, each_ok rec s l = Ok (r, s)
  /\ match r with Ok _ => Forall P l | Err e => ~ Forall P l /\ config_error e = true end.
Proof.
  induction l as [|x l IH]; intros Hl; cbn [each_ok].
  - exists (Ok tt). split; [done|constructor].
  - destruct (Hl x ltac:(left)) as ([u|e] & E & Hx); rewrite E; unfold sbind; cbn [rbind].
    + destruct IH as (r & Hr & Hd); [intros y Hy; apply Hl; by right|]. rewrite Hr. exists r.
      split; [done|]. destruct r; [by constructor|]. destruct Hd as [Hn ?]. split; [|done].
      by intros [_ ?]%Forall_cons.
    + exists (Err e). split; [done|]. destruct Hx as [Hn ?]. split; [|done]. by intros [? _]%Forall_cons.
Qed.

Lemma composed_sources n st (sources : list PriceSource) :
  Forall (fun source => Forall (composed reg n st) (dependencies source)) sources
  <-> Forall (composed reg n st) (mjoin (map dependencies sources)).
Proof.
  induction sources as [|x l IH]; cbn; [by split; constructor|]. rewrite Forall_cons, Forall_app. tauto.
Qed.

Lemma validate_decides n fuel s key :
  (n <= fuel)%nat -> exists r,
    validate_cached_path reg fuel s key (4 - Z.of_nat n) = Ok (r, s)
    /\ match r with
       | Ok _ => composed reg n (resolving_keys s) key
       | Err e => ~ composed reg n (resolving_keys s) key /\ config_error e = true
       end.
Proof.
  revert fuel s key. induction n as [|n IH]; intros fuel s key Hf.
  - destruct fuel; cbn; eexists; (split; [done|]; split; [tauto|done]).
  - destruct fuel as [|fuel]; [lia|]. cbn [validate_cached_path composed].
    destruct (Z.ltb_spec MAX_RESOLUTION_DEPTH (4 - Z.of_nat (S n))) as [Hd|_];
      [unfold MAX_RESOLUTION_DEPTH in Hd; lia|].
    unfold is_resolving. destruct (bool_decide_reflect (key ∈ resolving_keys s)) as [Hk|Hk].
    { eexists. split; [done|]. split; [tauto|done]. }
    destruct (get_oracle reg key) as [o|] eqn:Ho;
      [|eexists; split; [done|]; split; [by intros (_ & ? & ? & _)|done]].
    rewrite push_fresh by done. cbn [rbind].
    set (s' := set_stack s (resolving_keys s ++ [key])).
    destruct (each_ok_decides (fun source => Forall (composed reg n (resolving_keys s ++ [key]))
                (dependencies source))
                (fun s source => each_ok (fun s d => validate_cached_path reg fuel s d
                   (4 - Z.of_nat (S n) + 1)) s (dependencies source)) s' (ao_sources o))
      as (r & Hr & Hd).
    { intros source _. apply (each_ok_decides (composed reg n (resolving_keys s ++ [key]))).
      intros d _. destruct (IH fuel s' d ltac:(lia)) as (r & Hr & Hd).
      replace (4 - Z.of_nat (S n) + 1) with (4 - Z.of_nat n) by lia. by exists r. }
    rewrite Hr. cbn [rbind]. exists r.
    rewrite (pop_pushed s' key (resolving_keys s)) by done. unfold s'.
    rewrite set_stack_twice, set_stack_same. split; [done|].
    destruct r; [split; [done|]; exists o; split; [done|]; by apply composed_sources|].
    destruct Hd as [Hn He]. split; [|done]. intros (_ & o' & Ho' & Hc). simplify_eq.
    by apply composed_sources in Hc.
Qed.

(** ** One configuration *)

(** What a resolver of the keys below [st] answers. *)
Definition answers (n : nat) (st : list PriceKey) (key : PriceKey) (r : result OracleError PriceFeedRaw)
    : Prop :=
  match r with
  | Ok f => priced_at n st key = Some f
  | Err e => priced_at n st key = None /\ (config_error e = false -> dead key)
  end.

Section Configuration.

Context (nested : Session -> PriceKey -> Step PriceFeedRaw) (n : nat) (st : list PriceKey).
Hypothesis nested_answers : forall s d, at_stack st s ->
  exists r s', nested s d = Ok (r, s') /\ at_stack st s' /\ answers n st d r.

Definition broken (d : PriceKey) (e : OracleError) : Prop :=
  priced_at n st d = None /\ (config_error e = false -> dead d).

Lemma outcome_against q s key oracle outcome s2 :
  at_stack st s ->
  (forall d g, d ∈ quoted oracle -> priced_at n st d = Some g -> q d = Some g) ->
  outcome_of (looked_up q) (new_session now) key oracle = Ok (outcome, s2) ->
  exists outcome' s', outcome_of nested s key oracle = Ok (outcome', pop_key s') /\ at_stack st s'
  /\ (outcome' = outcome
      \/ exists d e, d ∈ quoted oracle /\ outcome' = with_err e /\ broken d e).
Proof using nested_answers.
  intros Hs Hq Ho.
  refine (outcome_simulates now nested q (at_stack st) broken (quoted oracle) _ _ _
            s key oracle outcome s2 Hs _ Ho); [by intros t [[? _ _ _] _]|by apply at_stack_feed| |done].
  intros t d Ht Hd. destruct (nested_answers t d Ht) as (r & t' & Hn & Ht' & Hr).
  exists r, t'. split_and!; [done|done|]. destruct r; [by apply Hq|done].
Qed.

Lemma outcome_in_context s key oracle :
  at_stack st s -> oracle_ok key oracle ->
  exists outcome s', outcome_of nested s key oracle = Ok (outcome, pop_key s') /\ at_stack st s'
  /\ match failure outcome (Some oracle) with
     | None => priced now (reference reg now n st) key oracle
               = Some (to_feed outcome (ao_asset_decimals oracle))
         /\ exists s2, outcome_of (looked_up (reference reg now n st)) (new_session now) key oracle
                      = Ok (outcome, s2)
     | Some _ => priced now (reference reg now n st) key oracle = None
     end.
Proof using HT reg_ok nested_answers.
  intros Hs Hok.
  destruct (outcome_total now (reference reg now n st) key oracle) as (oc & s2 & Ho);
    [by apply reference_sane|done|].
  destruct (outcome_against (reference reg now n st) s key oracle oc s2 Hs (fun d g _ Hg => Hg) Ho)
    as (oc' & s' & Ho' & Hs' & Hoc).
  exists oc', s'. split_and!; [done|done|].
  destruct Hoc as [->|(d & e & Hd & -> & [Hn _])].
  - unfold priced. rewrite Ho. destruct (failure oc (Some oracle)); eauto.
  - cbn [failure with_err oc_err]. destruct (priced now _ key oracle) as [f|] eqn:Hf; [|done].
    apply priced_needs in Hf. rewrite Forall_forall in Hf. destruct (Hf d Hd) as [g Hg]. congruence.
Qed.

(** A failure that is not of the composition holds in every context. *)
Lemma outcome_dead s key oracle outcome s' e n' st' :
  at_stack st s -> outcome_of nested s key oracle = Ok (outcome, s') ->
  failure outcome (Some oracle) = Some e -> config_failure outcome = None ->
  priced now (reference reg now n' st') key oracle = None.
Proof using nested_answers.
  intros Hs Ho Hf Hc. destruct (priced now _ key oracle) as [f|] eqn:Hp; [exfalso|done].
  pose proof (priced_needs _ _ _ _ _ Hp) as Hn. rewrite Forall_forall in Hn.
  apply priced_Some in Hp as (oc & s2 & Hoc & Hfo & _).
  destruct (outcome_against (reference reg now n' st') s key oracle oc s2 Hs)
    as (oc' & t & Ho' & _ & Hoc'); [|done|].
  { intros d g Hd Hg. destruct (Hn d Hd) as [g' Hg']. rewrite Hg'. f_equal.
    by eapply reference_unique. }
  rewrite Ho in Ho'. simplify_eq. destruct Hoc' as [->|(d & e' & Hd & -> & [_ Hdead])]; [congruence|].
  destruct (Hn d Hd) as [g Hg].
  assert (config_error e' = false) as Hce by (by destruct e'). rewrite (Hdead Hce) in Hg. done.
Qed.

End Configuration.

(** ** Nested resolution *)

Lemma reference_step n st key oracle :
  key ∉ st -> get_oracle reg key = Some oracle ->
  priced_at (S n) st key = priced now (reference reg now n (st ++ [key])) key oracle.
Proof. intros Hk Ho. cbn. by rewrite bool_decide_eq_false_2, Ho. Qed.

Lemma failure_error outcome oracle e :
  failure outcome (Some oracle) = Some e -> config_failure outcome = None -> config_error e = false.
Proof.
  unfold failure, config_failure. destruct (oc_err outcome) as [x|]; [intros [= ->]; by destruct e|].
  intros Hf _. by repeat case_in Hf; simplify_eq.
Qed.

Lemma dead_priced key oracle :
  get_oracle reg key = Some oracle ->
  (forall n st, priced now (reference reg now n st) key oracle = None) -> dead key.
Proof.
  intros Ho Hp [|n] st; [done|]. cbn. destruct (bool_decide _); [done|]. by rewrite Ho.
Qed.

(** The checks before a configuration is composed. *)
Lemma outcome_guards nested s key depth :
  (MAX_RESOLUTION_DEPTH < depth \/ key ∈ resolving_keys s \/ get_oracle reg key = None) ->
  exists e, resolve_outcome reg nested s key depth None = Ok (with_err e, None, s)
  /\ config_error e = true.
Proof.
  intros Hg. unfold resolve_outcome.
  destruct (Z.ltb_spec MAX_RESOLUTION_DEPTH depth) as [|Hd]; [by eexists|].
  unfold is_resolving. destruct (bool_decide_reflect (key ∈ resolving_keys s)) as [|Hk]; [by eexists|].
  rewrite push_fresh by done. cbn [rbind]. destruct Hg as [?|[?|Hg]]; [lia|done|]. rewrite Hg.
  rewrite (pop_pushed _ key (resolving_keys s)) by done. rewrite set_stack_twice, set_stack_same.
  by eexists.
Qed.

(** A configured key at an admissible depth, off the stack. *)
Lemma outcome_reached nested n s key depth override oracle :
  depth <= MAX_RESOLUTION_DEPTH -> key ∉ resolving_keys s ->
  (match override with Some o => Some o | None => get_oracle reg key end) = Some oracle ->
  cached_well s -> oracle_ok key oracle ->
  (forall s' d, at_stack (resolving_keys s ++ [key]) s' ->
     exists r s'', nested s' d = Ok (r, s'') /\ at_stack (resolving_keys s ++ [key]) s''
       /\ answers n (resolving_keys s ++ [key]) d r) ->
  exists outcome s', resolve_outcome reg nested s key depth override = Ok (outcome, Some oracle, s')
  /\ at_stack (resolving_keys s) s'
  /\ match failure outcome (Some oracle) with
     | None => priced now (reference reg now n (resolving_keys s ++ [key])) key oracle
               = Some (to_feed outcome (ao_asset_decimals oracle))
         /\ exists s2, outcome_of (looked_up (reference reg now n (resolving_keys s ++ [key])))
                      (new_session now) key oracle = Ok (outcome, s2)
     | Some e => priced now (reference reg now n (resolving_keys s ++ [key])) key oracle = None
         /\ (config_failure outcome = None -> config_error e = false
             /\ forall n' st', priced now (reference reg now n' st') key oracle = None)
     end.
Proof using HT reg_ok.
  intros Hd Hk Ho Hs Hok Hn. unfold resolve_outcome, is_resolving.
  rewrite (proj2 (Z.ltb_ge _ _)) by lia. rewrite bool_decide_eq_false_2 by done.
  rewrite push_fresh by done. cbn [rbind]. rewrite Ho.
  set (st := resolving_keys s ++ [key]) in *.
  assert (at_stack st (set_stack s st)) as Hs'
    by (apply (at_stack_set (resolving_keys s)); by split).
  destruct (outcome_in_context nested n st Hn _ key oracle Hs' Hok) as (oc & s' & Hoc & Hs'' & Hf).
  rewrite Hoc. cbn [rbind]. exists oc, (pop_key s'). split; [done|].
  rewrite (pop_pushed s' key (resolving_keys s)) by apply Hs''.
  split; [exact (at_stack_set _ _ _ Hs'')|].
  destruct (failure oc (Some oracle)) as [e|] eqn:Hfe; [|done]. split; [done|]. intros Hc.
  split; [by eapply failure_error|]. intros n' st'. exact (outcome_dead nested n st Hn _ _ _ _ _ _ n' st' Hs' Hoc Hfe Hc).
Qed.

(** One level of [resolve_nested]. *)
Definition deeper (fuel : nat) (depth : Z) : Session -> PriceKey -> Step PriceFeedRaw :=
  match fuel with
  | O => fun s _ => Ok (Err OracleDepthExceeded, s)
  | S fuel => fun s k => resolve_nested reg fuel s k (depth + 1)
  end.

(** What it stores and returns of an outcome. *)
Definition settled (key : PriceKey) (c : res (Outcome * option AssetOracle * Session))
    : Step PriceFeedRaw :=
  let* (oo, s) := c in
  let (outcome, oracle) := oo in
  match failure outcome oracle with
  | Some err =>
      Ok (Err err, match config_failure outcome with
                   | None => store_error s key err
                   | Some _ => s
                   end)
  | None =>
      match oracle with
      | None => Ok (Err OracleNotConfigured, s)
      | Some oracle =>
          let feed := to_feed outcome (ao_asset_decimals oracle) in
          Ok (Ok feed, store_price s key feed)
      end
  end.

Lemma resolve_nested_fresh fuel s key depth :
  cached_price s key = None -> cached_error s key = None ->
  resolve_nested reg fuel s key depth =
    settled key (resolve_outcome reg (deeper fuel depth) s key depth None).
Proof. intros Hp He. destruct fuel; cbn [resolve_nested]; by rewrite Hp, He. Qed.

(** A cached answer. *)
Lemma resolve_nested_cached n fuel s key :
  (n <= fuel)%nat -> cached_well s ->
  (cached_price s key <> None \/ cached_error s key <> None) ->
  exists r, resolve_nested reg fuel s key (4 - Z.of_nat n) = Ok (r, s)
  /\ answers n (resolving_keys s) key r.
Proof.
  intros Hf Hs Hc. destruct (validate_decides n fuel s key Hf) as (v & Hv & Hd).
  assert (resolve_nested reg fuel s key (4 - Z.of_nat n) =
    match cached_price s key with
    | Some f => Ok (match v with Ok _ => Ok f | Err e => Err e end, s)
    | None => match cached_error s key with
              | Some e => Ok (match v with Ok _ => Err e | Err e' => Err e' end, s)
              | None => resolve_nested reg fuel s key (4 - Z.of_nat n)
              end
    end) as E.
  { destruct fuel; cbn [resolve_nested] in *; destruct (cached_price s key);
      [|destruct (cached_error s key); [|done]| |destruct (cached_error s key); [|done]];
      rewrite Hv; by destruct v. }
  rewrite E. clear E. unfold cached_price, cached_error in *.
  destruct (key_prices s !! key) as [f|] eqn:Hp.
  - eexists. split; [done|]. destruct (cw_price _ Hs _ _ Hp) as (n' & st' & _ & Hr).
    destruct v as [u|e]; [by eapply reference_transfer|]. destruct Hd as [Hd He].
    split; [|by rewrite He]. destruct (priced_at n _ key) eqn:Hx; [|done].
    by apply reference_composed in Hx.
  - destruct (key_errors s !! key) as [e|] eqn:He; [|tauto]. eexists. split; [done|].
    destruct (cw_error _ Hs _ _ He) as [Hdead _]. by destruct v.
Qed.

Lemma config_failed outcome oracle c :
  config_failure outcome = Some c -> failure outcome oracle = Some c /\ config_error c = true.
Proof.
  unfold config_failure, failure. destruct (oc_err outcome) as [[]|]; intros Hc; by simplify_eq.
Qed.

Lemma settled_guard nested n s key depth :
  (MAX_RESOLUTION_DEPTH < depth \/ key ∈ resolving_keys s \/ get_oracle reg key = None) ->
  cached_well s -> priced_at n (resolving_keys s) key = None ->
  exists r s', settled key (resolve_outcome reg nested s key depth None) = Ok (r, s')
  /\ at_stack (resolving_keys s) s' /\ answers n (resolving_keys s) key r.
Proof.
  intros Hg Hs Hr. destruct (outcome_guards nested s key depth Hg) as (e & -> & Hc).
  exists (Err e), s. unfold settled. cbn [rbind].
  assert (config_failure (with_err e) = Some e) as Hcf by (by destruct e).
  rewrite Hcf, (proj1 (config_failed _ None _ Hcf)). split_and!; [done|done|].
  split; [done|by rewrite Hc].
Qed.

Lemma settled_reached nested n s key depth oracle :
  (S n <= resolution_fuel)%nat -> depth <= MAX_RESOLUTION_DEPTH -> key ∉ resolving_keys s ->
  get_oracle reg key = Some oracle -> cached_well s ->
  (forall s' d, at_stack (resolving_keys s ++ [key]) s' ->
     exists r s'', nested s' d = Ok (r, s'') /\ at_stack (resolving_keys s ++ [key]) s''
       /\ answers n (resolving_keys s ++ [key]) d r) ->
  exists r s', settled key (resolve_outcome reg nested s key depth None) = Ok (r, s')
  /\ at_stack (resolving_keys s) s' /\ answers (S n) (resolving_keys s) key r.
Proof using HT reg_ok.
  intros Hle Hd Hk Ho Hs Hn.
  destruct (outcome_reached nested n s key depth None oracle) as (oc & s' & -> & Hs' & Hfail);
    [done..|by apply reg_ok|done|].
  unfold settled. cbn [rbind]. pose proof (reference_step n _ _ _ Hk Ho) as Hstep.
  destruct (failure oc (Some oracle)) as [e|] eqn:Hf.
  - destruct Hfail as [Hnone Hdead]. eexists _, _. split; [done|].
    destruct (config_failure oc) as [c|] eqn:Hcf.
    + destruct (config_failed _ (Some oracle) _ Hcf) as [Hf' Hce]. simplify_eq.
      split; [done|]. split; [by rewrite Hstep|by rewrite Hce].
    + destruct (Hdead eq_refl) as [Hce Hall]. assert (dead key) by (by eapply dead_priced).
      split; [by apply at_stack_error|]. split; [by rewrite Hstep|done].
  - destruct Hfail as [Hsome _]. eexists _, _. split; [done|].
    split; [|unfold answers; by rewrite Hstep]. apply (at_stack_price _ _ _ _ (S n) (resolving_keys s)); [done|done|]. by rewrite Hstep.
Qed.

(** The engine answers with the reference of the key in its context. *)
Lemma resolve_nested_reference n fuel s key :
  (n <= resolution_fuel)%nat -> (n <= fuel)%nat -> cached_well s ->
  exists r s', resolve_nested reg fuel s key (4 - Z.of_nat n) = Ok (r, s')
  /\ at_stack (resolving_keys s) s' /\ answers n (resolving_keys s) key r.
Proof using HT reg_ok.
  revert fuel s key. induction n as [|n IH]; intros fuel s key Hle Hf Hs;
    destruct (decide (cached_price s key <> None \/ cached_error s key <> None)) as [Hc|Hc];
    try (destruct (resolve_nested_cached _ fuel s key Hf Hs Hc) as (r & Hr & Ha); by exists r, s);
    rewrite resolve_nested_fresh by (destruct (cached_price s key), (cached_error s key); naive_solver).
  - apply settled_guard; [left; unfold MAX_RESOLUTION_DEPTH; lia|done|done].
  - destruct (decide (key ∈ resolving_keys s)) as [Hk|Hk];
      [apply settled_guard; [by right; left|done|]; cbn; by rewrite bool_decide_eq_true_2|].
    destruct (get_oracle reg key) as [o|] eqn:Ho;
      [|apply settled_guard; [by right; right|done|]; cbn; rewrite Ho; by destruct (bool_decide _)].
    destruct fuel as [|fuel]; [lia|].
    apply (settled_reached _ n s key _ o); [done|unfold MAX_RESOLUTION_DEPTH; lia|done..|].
    intros t d [Ht Hst]. cbn [deeper]. rewrite <- Hst.
    replace (4 - Z.of_nat (S n) + 1) with (4 - Z.of_nat n) by lia. apply IH; [lia|lia|done].
Qed.

(** ** At the top *)

Abbreviation price_of key := (reference reg now resolution_fuel [] key).

Lemma top_resolves s key override oracle :
  at_stack [] s -> oracle_ok key oracle ->
  (match override with Some o => Some o | None => get_oracle reg key end) = Some oracle ->
  exists outcome s', resolve_at_top reg s key override = Ok (outcome, Some oracle, s')
  /\ at_stack [] s'
  /\ match failure outcome (Some oracle) with
     | None => priced now (reference reg now 3 [key]) key oracle
               = Some (to_feed outcome (ao_asset_decimals oracle))
         /\ exists s2, outcome_of (looked_up (reference reg now 3 [key])) (new_session now) key oracle
                      = Ok (outcome, s2)
     | Some _ => priced now (reference reg now 3 [key]) key oracle = None
     end.
Proof using HT reg_ok.
  intros [Hs Hst] Hok Ho.
  destruct (outcome_reached (fun s k => resolve_nested reg resolution_fuel s k 1) 3 s key 0 override oracle)
    as (oc & s' & E & Hs' & Hf); rewrite ?Hst; [done|by apply not_elem_of_nil|done|done|done| |].
  { intros t d [Ht Htk]. rewrite <- Htk.
    exact (resolve_nested_reference 3 resolution_fuel t d ltac:(unfold resolution_fuel; lia)
      ltac:(unfold resolution_fuel; lia) Ht). }
  rewrite Hst in Hs', Hf. exists oc, s'. split_and!; [done|done|].
  destruct (failure oc (Some oracle)); [exact (proj1 Hf)|done].
Qed.

Lemma price_of_configured key oracle :
  get_oracle reg key = Some oracle ->
  price_of key = priced now (reference reg now 3 [key]) key oracle.
Proof. intros Ho. apply reference_step; [by apply not_elem_of_nil|done]. Qed.

Lemma top_reference s key :
  at_stack [] s ->
  exists outcome oracle s', resolve_at_top reg s key None = Ok (outcome, oracle, s')
  /\ at_stack [] s'
  /\ match failure outcome oracle with
     | None => exists o, oracle = Some o /\ get_oracle reg key = Some o
         /\ price_of key = Some (to_feed outcome (ao_asset_decimals o))
         /\ exists s2, outcome_of (looked_up (reference reg now 3 [key])) (new_session now) key o
                      = Ok (outcome, s2)
     | Some _ => price_of key = None
     end.
Proof using HT reg_ok.
  intros Hs. destruct (get_oracle reg key) as [o|] eqn:Ho.
  - destruct (top_resolves s key None o Hs (reg_ok _ _ Ho) Ho) as (oc & s' & E & Hs' & Hf).
    exists oc, (Some o), s'. split_and!; [done|done|]. rewrite (price_of_configured _ _ Ho).
    destruct (failure oc (Some o)); [done|]. exists o. tauto.
  - destruct (outcome_guards (fun s k => resolve_nested reg resolution_fuel s k 1) s key 0)
      as (e & E & Hc); [by right; right|].
    exists (with_err e), None, s. split_and!; [done|done|]. cbn. by rewrite Ho.
Qed.

Lemma resolve_reference s key :
  at_stack [] s ->
  match price_of key with
  | Some f => exists s', resolve reg s key = Ok (f, s') /\ at_stack [] s'
  | None => exists e, resolve reg s key = Err (EOracle e)
  end.
Proof using HT reg_ok.
  intros Hs. unfold resolve, cached_price. destruct (key_prices s !! key) as [f|] eqn:Hp.
  - destruct (cw_price _ (proj1 Hs) _ _ Hp) as (n & st & Hle & Hr).
    assert (price_of key = Some f) as ->; [|by exists s].
    eapply reference_transfer; [exact Hr|]. apply (composed_weaken reg n _ st);
      [by eapply reference_composed|done|]. by intros k ?%elem_of_nil.
  - unfold compute_hard. destruct (top_reference s key Hs) as (oc & o & s' & -> & Hs' & Hf).
    cbn [rbind fst snd]. unfold force. destruct (failure oc o) as [e|]; [rewrite Hf; by exists e|].
    destruct Hf as (o' & -> & Ho & Hr & _). rewrite Hr. cbn [rbind fst snd].
    eexists. split; [done|]. by eapply at_stack_price.
Qed.

Lemma status_reports outcome oracle key o :
  match failure outcome oracle with
  | None => oracle = Some o /\ price_of key = Some (to_feed outcome (ao_asset_decimals o))
  | Some _ => price_of key = None
  end -> reports key (to_status outcome oracle).
Proof.
  intros Hf. unfold reports, to_status. destruct (failure outcome oracle) as [e|] eqn:He.
  - rewrite Hf. destruct (oc_err outcome); cbn; eauto.
  - destruct Hf as [-> ->]. unfold failure in He. destruct (oc_err outcome); [done|]. by cbn.
Qed.

Lemma status_reference s key :
  at_stack [] s -> exists x s', resolve_status reg s key = Ok (x, s') /\ at_stack [] s' /\ reports key x.
Proof using HT reg_ok.
  intros Hs. unfold resolve_status, cached_status.
  destruct (key_statuses s !! key) as [x|] eqn:Hx;
    [exists x, s; split_and!; [done|done|by eapply (cw_status _ (proj1 Hs))]|].
  destruct (top_reference s key Hs) as (oc & o & s' & -> & Hs' & Hf). cbn [rbind fst snd].
  assert (reports key (to_status oc o)) as Hr.
  { destruct (failure oc o) eqn:He.
    - apply (status_reports _ _ _ (mkAssetOracle 0 0 [] (mkOracleTolerance 0 0) RequireDisjoint 0 0)).
      by rewrite He.
    - destruct Hf as (o' & -> & _ & Hr & _). apply (status_reports _ _ _ o'). by rewrite He. }
  eexists _, _. split_and!; [done|by apply at_stack_status|done].
Qed.

(** ** Warming *)

Context {HF : ConsistentFeeds}.

Lemma at_stack_new : at_stack [] (new_session now).
Proof.
  split; [|done]. split; [apply live_new|..]; intros k x Hk; cbn in Hk; by rewrite lookup_empty in Hk.
Qed.

Lemma warm_feeds_well st s adapter l :
  at_stack st s -> Forall (fun p => redstone_feed adapter p.1 = Some p.2) l ->
  at_stack st (fold_left (fun s p => set_feed s adapter p.1 p.2) l s).
Proof.
  intros Hs Hl. revert s Hs. induction Hl as [|p l Hp _ IH]; intros s Hs; [done|].
  cbn. apply IH. by apply at_stack_feed.
Qed.

Lemma warm_adapter_well st s e : at_stack st s -> at_stack st (warm_adapter s e).
Proof using HF.
  intros Hs. unfold warm_adapter. destruct (_ <? _)%nat; [done|].
  unfold read_price_data_bulk. destruct (redstone_feeds e.1 e.2) as [l|] eqn:Hl; [|done].
  destruct (Nat.eqb_spec (length l) (length e.2)) as [Hlen|]; [|done].
  apply warm_feeds_well; [done|]. apply Forall_lookup. intros i [f d] Hi.
  apply lookup_zip_with_Some in Hi as (f' & d' & [= <- <-] & Hf & Hd).
  by eapply bulk_feeds.
Qed.

Lemma warm_well keys : at_stack [] (warm reg (new_session now) keys).
Proof using HF.
  unfold warm. generalize (fold_left (fun st k => collect_key reg resolution_fuel st k 0) keys ([], [])).1.
  intros l. assert (forall s, at_stack [] s -> at_stack [] (fold_left warm_adapter l s)) as Hw.
  { induction l as [|e l IH]; intros s Hs; [done|]. cbn. by apply IH, warm_adapter_well. }
  apply Hw, at_stack_new.
Qed.

(** ** Entrypoints *)

Import PriceAggregator.

Lemma prices_reference keys :
  match prices reg now keys with
  | Ok out => (forall k, k ∈ keys -> is_Some (price_of k))
      /\ forall k, out !! k = if bool_decide (k ∈ keys) then price_of k else None
  | Err e => exists k o, k ∈ keys /\ price_of k = None /\ e = EOracle o
  end.
Proof using HT reg_ok HF.
  unfold prices, warmed_session.
  assert (forall l s out seen, at_stack [] s ->
    (forall k, k ∈ seen -> is_Some (price_of k)) ->
    (forall k, out !! k = if bool_decide (k ∈ seen) then price_of k else None) ->
    match rfold (fun (st : gmap PriceKey PriceFeedRaw * Session) key =>
            let* (feed, s) := resolve reg st.2 key in Ok (<[key := feed]> st.1, s)) (out, s) l with
    | Ok (out, _) => (forall k, k ∈ seen ++ l -> is_Some (price_of k))
        /\ forall k, out !! k = if bool_decide (k ∈ seen ++ l) then price_of k else None
    | Err e => exists k o, k ∈ l /\ price_of k = None /\ e = EOracle o
    end) as Hgen.
  { induction l as [|key l IH]; intros s out seen Hs Hseen Hout; cbn [rfold fst snd].
    { by rewrite app_nil_r. }
    pose proof (resolve_reference s key Hs) as Hr. destruct (price_of key) as [f|] eqn:Hf.
    - destruct Hr as (s' & -> & Hs'). cbn [rbind fst].
      specialize (IH s' (<[key := f]> out) (seen ++ [key]) Hs'). rewrite <- app_assoc in IH.
      cbn [app] in IH.
      destruct (rfold _ _ l) as [[out' s'']|e]; [apply IH|destruct IH as (k & o & Hk & Hn & He)].
      1,3: intros k; rewrite elem_of_app, list_elem_of_singleton; intros [Hk| ->]; eauto.
      1,2: intros k; destruct (decide (k = key)) as [->|Hne];
        [rewrite lookup_insert_eq, bool_decide_eq_true_2; [done|set_solver]
        |rewrite lookup_insert_ne, Hout by done;
         rewrite (bool_decide_ext (k ∈ seen ++ [key]) (k ∈ seen)); [done|set_solver]].
      exists k, o. split_and!; [by right|done|done].
    - destruct Hr as [e ->]. cbn [rbind]. exists key, e. split_and!; [left|done|done]. }
  specialize (Hgen keys (warm reg (new_session now) keys) ∅ [] (warm_well keys)).
  destruct (rfold _ _ keys) as [[out s]|e]; cbn [rbind]; apply Hgen;
    try (by intros k ?%elem_of_nil); intros k; by rewrite lookup_empty, bool_decide_eq_false_2
      by apply not_elem_of_nil.
Qed.

Lemma quotes_reference keys :
  exists out, quotes reg now keys = Ok out
  /\ forall k, match out !! k with Some x => k ∈ keys /\ reports k x | None => k ∉ keys end.
Proof using HT reg_ok HF.
  unfold quotes, warmed_session.
  assert (forall l s out seen, at_stack [] s ->
    (forall k, match out !! k with Some x => k ∈ seen /\ reports k x | None => k ∉ seen end) ->
    exists out' s', rfold (fun (st : gmap PriceKey PriceStatus * Session) key =>
            let* (x, s) := resolve_status reg st.2 key in Ok (<[key := x]> st.1, s)) (out, s) l
      = Ok (out', s')
    /\ forall k, match out' !! k with Some x => k ∈ seen ++ l /\ reports k x | None => k ∉ seen ++ l end)
    as Hgen.
  { induction l as [|key l IH]; intros s out seen Hs Hout; cbn [rfold fst snd].
    { rewrite app_nil_r. by eexists _, _. }
    destruct (status_reference s key Hs) as (x & s' & -> & Hs' & Hx). cbn [rbind fst].
    destruct (IH s' (<[key := x]> out) (seen ++ [key]) Hs') as (out' & s'' & -> & Ho).
    - intros k. destruct (decide (k = key)) as [->|Hne];
        [rewrite lookup_insert_eq; split; [set_solver|done]|].
      rewrite lookup_insert_ne by done. specialize (Hout k). destruct (out !! k); set_solver.
    - rewrite <- app_assoc in Ho. by eexists _, _. }
  destruct (Hgen keys (warm reg (new_session now) keys) ∅ [] (warm_well keys)) as (out & s & -> & Ho).
  - intros k. rewrite lookup_empty. by apply not_elem_of_nil.
  - cbn [rbind]. by eexists.
Qed.

(** ** The spread of the legs *)

(** The legs of an outcome: ordered around its price, and apart by the tolerance at most. *)
Definition spread_ok (oracle : AssetOracle) (price low high : Z) : Prop :=
  0 < low <= price /\ price <= high
  /\ (length (ao_sources oracle) = 2%nat ->
      half_up_div (high * BPS) low <= upper_ratio_bps (ao_tolerance oracle)).

Lemma two_legs_spread oracle r r' outcome :
  read_well now oracle r -> read_well now oracle r' -> blend oracle (Two r r') = Ok outcome ->
  failure outcome (Some oracle) = None ->
  spread_ok oracle (oc_price_wad outcome) (Z.min (oc_first_wad outcome) (oc_second_wad outcome))
    (Z.max (oc_first_wad outcome) (oc_second_wad outcome)).
Proof.
  intros [Hp _] [Hp' _] Hb (_ & _ & Hd & H0 & _)%failure_None. cbn [blend] in Hb.
  apply rbind_Ok in Hb as (w & Hw & [= <-]). cbn in Hd, H0 |- *. destruct w; [clear Hd|done].
  unfold within_tolerance_band in Hw.
  rewrite FpCore.try_mul_div_half_up_ref in Hw by (lia || (split; zconst)). cbn [rbind] in Hw.
  rewrite (Z.max_comm (rg_price_wad r)), (Z.min_comm (rg_price_wad r)).
  destruct (_ || _) eqn:Hneg; [done|]. b2p. injection Hw as Hw.
  destruct (i128_checked _) as [ratio|] eqn:Hr; [|done]. apply i128_checked_Some in Hr as [-> _].
  apply Z.leb_le in Hw. unfold midpoint_price_or_zero in *.
  destruct (i128_checked_add _ _) as [sum|] eqn:Hs; [|lia].
  apply i128_checked_Some in Hs as [-> _]. rewrite Z.quot_div_nonneg in * by lia.
  split; [|split; [|done]]; [split; [lia|]|].
  - apply Z.div_le_lower_bound; lia.
  - apply Z.div_le_upper_bound; lia.
Qed.

Lemma outcome_spread q key oracle outcome s :
  quotes_sane now q -> oracle_ok key oracle ->
  outcome_of (looked_up q) (new_session now) key oracle = Ok (outcome, s) ->
  failure outcome (Some oracle) = None ->
  spread_ok oracle (oc_price_wad outcome) (Z.min (oc_first_wad outcome) (oc_second_wad outcome))
    (Z.max (oc_first_wad outcome) (oc_second_wad outcome)).
Proof using HT.
  intros Hq Hok Ho Hf. unfold outcome_of in Ho.
  apply rbind_Ok in Ho as ([[legs|e] t] & Hc & Ho);
    apply rbind_Ok in Ho as (oc' & Hb & [= <- <-]); [|by injection Hb as <-].
  destruct (compose_returns now q key oracle Hq Hok) as (x & t' & Hc' & _ & Hl).
  rewrite Hc in Hc'. simplify_eq. specialize (Hl _ eq_refl).
  pose proof (blend_failure _ _ _ Hb Hf) as Hfull. inversion Hfull; subst; cbn [legs_well] in Hl.
  - injection Hb as <-. apply failure_None in Hf as (_ & _ & _ & H0 & _). cbn in *.
    rewrite Z.min_id, Z.max_id. split; [lia|]. split; [lia|]. intros H2. exfalso.
    unfold compose in Hc. destruct (ao_sources oracle) as [|x [|y [|z l]]]; try done.
    unfold sbind in Hc. apply rbind_Ok in Hc as ([[o|e] u] & _ & Hc); [|done].
    apply rbind_Ok in Hc as ([[o'|e] u'] & _ & Hc); [|done].
    destruct o, o'; discriminate Hc.
  - destruct Hl as [Hr Hr2]. exact (two_legs_spread _ _ _ _ Hr Hr2 Hb Hf).
Qed.

Lemma spread_reference key :
  match price_of key with
  | Some f => exists oracle low high, get_oracle reg key = Some oracle
      /\ price_spread reg now key = Ok (low, high) /\ spread_ok oracle (pfr_price_wad f) low high
  | None => exists e, price_spread reg now key = Err (EOracle e)
  end.
Proof using HT reg_ok HF.
  unfold price_spread, resolve_detailed, compute_hard, warmed_session.
  destruct (top_reference _ key (warm_well [key])) as (oc & o & s' & -> & _ & Hf).
  cbn [rbind fst snd]. unfold force. destruct (failure oc o) as [e|] eqn:He; [rewrite Hf; by exists e|].
  destruct Hf as (o' & -> & Ho & -> & s2 & Hoc). cbn [rbind fst snd].
  eexists o', _, _. split_and!; [done|done|].
  eapply outcome_spread; [by apply reference_sane|by apply reg_ok|exact Hoc|done].
Qed.

End Resolve.

End AggResolve.
