(* ===== verification/AggRegistry.v ===== *)
(** * Registries the administration can reach

    Every configuration an owner can store is well formed ([oracle_ok]), and its
    composition is configured, acyclic and at most [MAX_RESOLUTION_DEPTH] deep ([composed]):
    [set_oracle] walks the new configuration before storing it and re-validates every stored
    configuration that depends on the key. *)

From S2P Require Import Prelude Errors FpCore Fp PoolTypes PoolCache ControllerTypes OracleMath AggState AggEngine AggContract AggReference AggResolve.
From stdpp Require Import base numbers list gmap strings.
From Stdlib Require Import ZArith Lia Bool.

Open Scope Z_scope.

Module AggRegistry.

Import Engine Reference OracleBounds Properties Validation AggAdmin AggTotal AggResolve.

Section Registry.

Context `{HP : Providers}.

Record registry_inv (reg : Registry) : Prop := {
  ri_ok : registry_ok reg;
  ri_composed : forall key oracle, get_oracle reg key = Some oracle -> composed reg resolution_fuel [] key;
  ri_keys : forall key, key ∈ reg_keys reg <-> is_Some (get_oracle reg key)
}.

(** ** Calls *)

Inductive AdminCall : Type :=
| SetOracle (key : PriceKey) (oracle : AssetOracle)
| SetSanityBand (key : PriceKey) (min_wad max_wad : Z)
| SetTolerance (key : PriceKey) (tolerance : OracleTolerance).

Definition dispatch (env : Env) (reg : Registry) (call : AdminCall) : res Registry :=
  match call with
  | SetOracle key oracle => PriceAggregator.set_oracle env reg key oracle
  | SetSanityBand key lo hi => PriceAggregator.set_sanity_band env reg key lo hi
  | SetTolerance key t => PriceAggregator.set_tolerance env reg key t
  end.

(** ** The property walk proves the composition *)

Definition same_stack (s s' : Session) : Prop := resolving_keys s' = resolving_keys s.

Lemma source_walk (P : PriceKey -> Prop) of_key s source depth p s' :
  (forall t d x t', same_stack s t -> of_key t d = Ok (x, t') -> P d /\ same_stack s t') ->
  properties_of_source_with of_key s source depth = Ok (p, s') ->
  Forall P (dependencies source) /\ same_stack s s'.
Proof.
  intros Hk H. unfold properties_of_source_with in H. apply rbind_Ok in H as (u & _ & H).
  apply rbind_Ok in H as ([p' t] & Hf & [= _ <-]). revert Hf.
  assert (same_stack s s) as Hs by done. revert Hs. generalize (local_properties source).
  generalize s at 2 3. induction (dependencies source) as [|d l IH]; intros t0 x Ht0 Hf; cbn [rfold] in Hf.
  - by simplify_eq.
  - apply rbind_Ok in Hf as ([y t1] & Hy & Hf). cbn in Hy. apply rbind_Ok in Hy as ([z t2] & Hz & [= <- <-]).
    destruct (Hk _ _ _ _ Ht0 Hz) as [Hd Ht1]. destruct (IH _ _ Ht1 Hf). split; [by constructor|done].
Qed.

Lemma sources_walk (P : PriceKey -> Prop) of_key s depth sources p p' s' :
  (forall t d x t', same_stack s t -> of_key t d = Ok (x, t') -> P d /\ same_stack s t') ->
  rfold (fun (ps : SourceProperties * Session) source =>
    let* (p, s) := properties_of_source_with of_key ps.2 source depth in
    Ok (join ps.1 p, s)) (p, s) sources = Ok (p', s') ->
  Forall P (mjoin (map dependencies sources)) /\ same_stack s s'.
Proof.
  intros Hk. assert (same_stack s s) as Hs by done. revert Hs. generalize s at 2 3. revert p.
  induction sources as [|source l IH]; intros p t0 Ht0 Hf; cbn [rfold] in Hf.
  - simplify_eq. split; [constructor|done].
  - apply rbind_Ok in Hf as ([y t1] & Hy & Hf). apply rbind_Ok in Hy as ([z t2] & Hz & [= <- <-]).
    destruct (source_walk P of_key t0 source depth z t2) as [Hd Ht2]; [|done|].
    { intros t d x t' Ht. intros Hd. unfold same_stack in *. destruct (Hk t d x t'); [congruence|done|].
      split; [done|congruence]. }
    destruct (IH _ t2 ltac:(unfold same_stack in *; congruence) Hf). cbn. split; [|done].
    by apply Forall_app.
Qed.

Lemma key_walk reg n fuel s key p s' :
  properties_of_key reg fuel s key (4 - Z.of_nat n) = Ok (p, s') ->
  composed reg n (resolving_keys s) key /\ same_stack s s'.
Proof.
  revert n s key p s'. induction fuel as [|fuel IH]; intros n s key p s' H.
  all: cbn [properties_of_key] in H; apply rbind_Ok in H as (u & Hd%require_Ok & H); b2p;
    destruct n as [|n]; [unfold MAX_RESOLUTION_DEPTH in Hd; lia|];
    apply rbind_Ok in H as (t & Hp & H); unfold push_key, is_resolving in Hp;
    destruct (bool_decide_reflect (key ∈ resolving_keys s)) as [|Hk]; [done|]; injection Hp as <-;
    apply rbind_Ok in H as (o & Ho%of_option_Ok & H);
    apply rbind_Ok in H as ([j t] & Hj & [= <- <-]);
    apply (sources_walk (composed reg n (resolving_keys s ++ [key]))) in Hj as [Hc Ht]; [|].
  1,3: split; [split; [done|by exists o]|]; unfold same_stack, pop_key in *; rewrite Ht; cbn;
    by rewrite removelast_last.
  - done.
  - intros t0 d x t' Ht0 Hx. replace (4 - Z.of_nat (S n) + 1) with (4 - Z.of_nat n) in Hx by lia.
    apply IH in Hx as [Hx Ht']. unfold same_stack in *. rewrite Ht0 in Hx. cbn in Hx.
    split; [done|congruence].
Qed.

Lemma config_walk reg s sources d s' :
  properties_of_config reg s sources = Ok (d, s') ->
  source_count (Z.of_nat (length sources)) = Ok tt
  /\ Forall (composed reg 3 (resolving_keys s)) (mjoin (map dependencies sources)).
Proof.
  assert (forall s x p s', properties_of_source reg s x = Ok (p, s') ->
    Forall (composed reg 3 (resolving_keys s)) (dependencies x) /\ same_stack s s') as Hone.
  { intros t x p t' Hp. apply (source_walk (composed reg 3 (resolving_keys t))) in Hp; [exact Hp|]. intros t0 k y t1 Ht0 Hy.
    apply (key_walk reg 3) in Hy as [Hy Ht1]. unfold same_stack in *. rewrite Ht0 in Hy.
    split; [done|congruence]. }
  unfold properties_of_config. intros H. apply rbind_Ok in H as ([] & Hc & H). split; [done|].
  destruct sources as [|x [|y [|z l]]]; [done| | |done]; cbn [map].
  - apply rbind_Ok in H as ([p t] & Hx & _). apply Hone in Hx as [Hx _]. cbn. by rewrite app_nil_r.
  - apply rbind_Ok in H as ([p t] & Hx & H). apply rbind_Ok in H as ([p' t'] & Hy & _).
    apply Hone in Hx as [Hx Ht]. apply Hone in Hy as [Hy _]. rewrite Ht in Hy. cbn. rewrite app_nil_r.
    by apply Forall_app.
Qed.

(** What [validate_oracle] establishes. *)
Lemma validate_oracle_Ok reg now key oracle exact u :
  validate_oracle reg now key oracle exact = Ok u ->
  oracle_ok key oracle /\ Forall (composed reg 3 [key]) (quoted oracle).
Proof.
  unfold validate_oracle. intros H. apply rbind_Ok in H as (s & Hs & H).
  unfold push_key, is_resolving in Hs. cbn in Hs. destruct (bool_decide _); [done|]. injection Hs as <-.
  apply rbind_Ok in H as ([d t] & Hd & H). apply config_walk in Hd as [Hcount Hcomp].
  apply rbind_Ok in H as ([] & Hbounds & H). apply rbind_Ok in H as ([] & _ & H).
  apply rbind_Ok in H as ([] & Hdec & H). apply rbind_Ok in H as ([] & Hshape%rfold_unit & H).
  apply rbind_Ok in H as ([] & Hlp%require_Ok & H). apply rbind_Ok in H as ([] & _ & H).
  apply rbind_Ok in H as ([] & _ & H). apply rbind_Ok in H as ([] & Hstale%require_Ok & H).
  apply rbind_Ok in H as ([] & Htol & H). split; [|exact Hcomp].
  split; [done|done|done|done|by apply andb_true_iff in Hstale as [? _]| |].
  - intros He. rewrite He in Hlp. cbn in Hlp. rewrite negb_involutive in Hlp. by apply Nat.eqb_eq in Hlp.
  - intros Hl. rewrite Hl in Htol. by apply rbind_Ok in Htol as ([] & _ & Htol).
Qed.

(** ** Compositions under a changed key *)

(** Below a stack that holds the key, its configuration is never read. *)
Lemma composed_below reg reg' x n st key :
  (forall k, k <> x -> get_oracle reg' k = get_oracle reg k) -> x ∈ st ->
  composed reg n st key -> composed reg' n st key.
Proof.
  intros Hsame. revert st key. induction n as [|n IH]; intros st key Hx Hc; [done|].
  cbn in Hc |- *. destruct Hc as [Hk (o & Ho & Hd)]. split; [done|]. exists o.
  rewrite Hsame by (intros ->; done). split; [done|].
  eapply Forall_impl; [exact Hd|]. intros d Hdc. apply IH; [|done]. apply elem_of_app. by left.
Qed.

(** The quoted keys decide a composition. *)
Lemma composed_quoted reg reg' n st key :
  (forall k, quoted <$> get_oracle reg' k = quoted <$> get_oracle reg k) ->
  composed reg n st key -> composed reg' n st key.
Proof.
  intros Hsame. revert st key. induction n as [|n IH]; intros st key Hc; [done|].
  cbn in Hc |- *. destruct Hc as [Hk (o & Ho & Hd)]. split; [done|].
  specialize (Hsame key). rewrite Ho in Hsame. destruct (get_oracle reg' key) as [o'|]; [|done].
  injection Hsame as Hq. exists o'. split; [done|]. rewrite Hq. eapply Forall_impl; [exact Hd|]. auto.
Qed.

(** ** Keys that do not depend on the changed one *)

Lemma stack_bound reg st key :
  NoDup st -> Forall (fun k => is_Some (get_oracle reg k)) st -> key ∉ st ->
  is_Some (get_oracle reg key) -> (length st < size (reg_oracles reg))%nat.
Proof.
  intros Hn Hf Hk Hx. assert (NoDup (key :: st)) as Hn' by (by constructor).
  pose proof (size_list_to_set (C := gset PriceKey) _ Hn') as Hs. cbn [length] in Hs.
  assert (size (list_to_set (C := gset PriceKey) (key :: st)) <= size (dom (reg_oracles reg)))%nat as Hle.
  { apply subseteq_size. intros k. rewrite elem_of_list_to_set, elem_of_dom, elem_of_cons.
    rewrite Forall_forall in Hf. intros [->|Hin]; [exact Hx|exact (Hf k Hin)]. }
  rewrite size_dom in Hle. lia.
Qed.

Lemma existsb_not {A} (f : A -> bool) l : existsb f l = false <-> Forall (fun x => f x = false) l.
Proof.
  induction l as [|x l IH]; cbn; [by split; [constructor|]|].
  rewrite orb_false_iff, Forall_cons, IH. tauto.
Qed.

Lemma independent_composed reg reg' x fuel n st root :
  (forall k, k <> x -> get_oracle reg' k = get_oracle reg k) ->
  (size (reg_oracles reg) < fuel + length st)%nat ->
  NoDup st -> Forall (fun k => is_Some (get_oracle reg k)) st ->
  root <> x -> depends_on fuel reg' root x st = false ->
  composed reg n st root -> composed reg' n st root.
Proof.
  intros Hsame. revert fuel st root. induction n as [|n IH]; intros fuel st root Hf Hn Hst Hx Hdep Hc;
    [done|].
  cbn in Hc |- *. destruct Hc as [Hk (o & Ho & Hd)]. split; [done|]. exists o.
  rewrite Hsame by done. split; [done|].
  pose proof (stack_bound reg st root Hn Hst Hk ltac:(by rewrite Ho)).
  destruct fuel as [|fuel]; [lia|]. cbn [depends_on] in Hdep.
  rewrite bool_decide_eq_false_2, Hsame, Ho in Hdep by done.
  unfold quoted in Hd |- *. apply existsb_not in Hdep. clear -Hdep Hd IH Hf Hn Hst Ho Hk.
  induction (ao_sources o) as [|source l IHl]; [constructor|]. cbn in Hd |- *.
  apply Forall_cons in Hdep as [Hs Hdep]. apply Forall_app in Hd as [Hd Hd'].
  apply Forall_app. split; [|by apply IHl]. apply existsb_not in Hs.
  rewrite Forall_forall in Hs, Hd |- *. intros d Hin. specialize (Hs d Hin).
  apply orb_false_iff in Hs as [Hne Hs]. apply bool_decide_eq_false in Hne.
  apply (IH fuel); [rewrite length_app; cbn; lia| | |done|done|by apply Hd].
  - apply NoDup_app. split; [done|]. split; [|apply NoDup_singleton].
    intros k Hk1 Hk2%list_elem_of_singleton. by subst.
  - apply Forall_app. split; [done|]. constructor; [by rewrite Ho|constructor].
Qed.

(** ** Preservation *)

Lemma store_lookup reg key oracle k :
  get_oracle (store_oracle reg key oracle) k = if decide (k = key) then Some oracle else get_oracle reg k.
Proof.
  unfold get_oracle, store_oracle. cbn. destruct (decide (k = key)) as [->|Hne];
    [apply lookup_insert_eq|by apply lookup_insert_ne].
Qed.

Lemma store_keys reg key oracle :
  (forall k, k ∈ reg_keys reg <-> is_Some (get_oracle reg k)) ->
  forall k, k ∈ reg_keys (store_oracle reg key oracle)
            <-> is_Some (get_oracle (store_oracle reg key oracle) k).
Proof.
  intros Hk k. rewrite store_lookup. unfold store_oracle. cbn.
  destruct (bool_decide_reflect (key ∈ reg_keys reg)) as [Hin|Hin];
    destruct (decide (k = key)) as [->|Hne]; rewrite ?elem_of_app, ?list_elem_of_singleton, ?Hk; naive_solver.
Qed.

(** A stored configuration with the quoted keys of the one it replaces. *)
Lemma replace_inv reg key oracle oracle' :
  registry_inv reg -> get_oracle reg key = Some oracle -> oracle_ok key oracle' ->
  ao_sources oracle' = ao_sources oracle -> registry_inv (commit reg key oracle').
Proof.
  intros [Hok Hc Hk] Ho Hok' Hsrc.
  assert (forall k, quoted <$> get_oracle (store_oracle reg key oracle') k = quoted <$> get_oracle reg k)
    as Hq.
  { intros k. rewrite store_lookup. destruct (decide (k = key)) as [->|]; [|done]. rewrite Ho. cbn.
    unfold quoted. by rewrite Hsrc. }
  split.
  - intros k o. change (get_oracle (store_oracle reg key oracle') k = Some o -> oracle_ok k o).
    rewrite store_lookup. destruct (decide (k = key)) as [->|]; [by intros [= <-]|apply Hok].
  - intros k o Hko. change (composed (store_oracle reg key oracle') resolution_fuel [] k).
    apply (composed_quoted reg); [done|]. specialize (Hq k).
    change (get_oracle (store_oracle reg key oracle') k = Some o) in Hko. rewrite Hko in Hq.
    destruct (get_oracle reg k) eqn:Hr; [by eapply Hc|done].
  - exact (store_keys reg key oracle' Hk).
Qed.

Lemma composed_top reg key oracle :
  get_oracle reg key = Some oracle -> Forall (composed reg 3 [key]) (quoted oracle) ->
  composed reg resolution_fuel [] key.
Proof. intros Ho Hc. split; [apply not_elem_of_nil|]. by exists oracle. Qed.

Lemma set_oracle_inv reg now key oracle reg' :
  registry_inv reg -> AggAdmin.set_oracle reg now key oracle = Ok reg' -> registry_inv reg'.
Proof.
  intros [Hok Hc Hk] H. unfold AggAdmin.set_oracle in H. apply rbind_Ok in H as (u & _ & H).
  apply rbind_Ok in H as ([] & Hv & H). apply rbind_Ok in H as ([] & _ & H).
  apply rbind_Ok in H as ([] & _ & H). apply rbind_Ok in H as ([] & Hr & [= <-]).
  apply validate_oracle_Ok in Hv as [Hnew Hcomp].
  set (stored := store_oracle reg key oracle) in *.
  assert (forall k, k <> key -> get_oracle stored k = get_oracle reg k) as Hsame.
  { intros k Hne. unfold stored. rewrite store_lookup. by destruct (decide (k = key)). }
  assert (get_oracle stored key = Some oracle) as Hself.
  { unfold stored. rewrite store_lookup. by destruct (decide (key = key)). }
  pose proof (store_keys reg key oracle Hk) as Hkeys. fold stored in Hkeys.
  unfold revalidate_dependents in Hr. apply rfold_unit in Hr. rewrite Forall_forall in Hr.
  split; [intros k o Hko|intros k o Hko|exact Hkeys];
    change (get_oracle stored k = Some o) in Hko; destruct (decide (k = key)) as [->|Hne].
  - by simplify_eq.
  - rewrite Hsame in Hko by done. by apply Hok.
  - simplify_eq. apply (composed_top stored _ _ Hself). eapply Forall_impl; [exact Hcomp|].
    intros d Hd. apply (composed_below reg _ key); [done|by left|done].
  - assert (k ∈ oracle_keys stored) as Hin by (apply Hkeys; by rewrite Hko).
    specialize (Hr k Hin). cbv beta in Hr. rewrite bool_decide_eq_false_2 in Hr by done.
    destruct (depends_on _ stored k key []) eqn:Hdep; cbn [orb negb] in Hr.
    + rewrite Hko in Hr. cbn [of_option rbind] in Hr. apply validate_oracle_Ok in Hr as [_ Hr].
      by eapply composed_top.
    + eapply (independent_composed reg stored key _ _ [] k); [done| |constructor|constructor|done|exact Hdep|].
      * unfold depends_fuel, stored, store_oracle. cbn.
        destruct (get_oracle reg key) as [o'|] eqn:Ek; unfold get_oracle in Ek;
          [rewrite map_size_insert_Some by (by rewrite Ek)|rewrite map_size_insert_None by done]; lia.
      * rewrite Hsame in Hko by done. by eapply Hc.
Qed.

Lemma set_sanity_band_inv reg now key lo hi reg' :
  registry_inv reg -> AggAdmin.set_sanity_band reg now key lo hi = Ok reg' -> registry_inv reg'.
Proof.
  intros Hi H. unfold AggAdmin.set_sanity_band in H.
  apply rbind_Ok in H as (o & Ho%of_option_Ok & H). apply rbind_Ok in H as (u & _ & H).
  apply rbind_Ok in H as (u' & Hv & H). apply rbind_Ok in H as (u'' & _ & [= <-]).
  apply validate_oracle_Ok in Hv as [Hok _]. by eapply replace_inv.
Qed.

Lemma set_tolerance_inv reg now key t reg' :
  registry_inv reg -> AggAdmin.set_tolerance reg now key t = Ok reg' -> registry_inv reg'.
Proof.
  intros Hi H. unfold AggAdmin.set_tolerance in H.
  apply rbind_Ok in H as (o & Ho%of_option_Ok & H). apply rbind_Ok in H as (u & _ & H).
  apply rbind_Ok in H as ([] & Hv & H). apply rbind_Ok in H as (u'' & _ & [= <-]).
  eapply replace_inv; [done|done| |done]. destruct (ri_ok _ Hi _ _ Ho). by split.
Qed.

Lemma dispatch_inv env reg call reg' :
  registry_inv reg -> dispatch env reg call = Ok reg' -> registry_inv reg'.
Proof.
  intros Hi H. destruct call; apply rbind_Ok in H as (u & _ & H).
  - by eapply set_oracle_inv.
  - by eapply set_sanity_band_inv.
  - by eapply set_tolerance_inv.
Qed.

Lemma constructor_inv owner : registry_inv (PriceAggregator.constructor owner).
Proof.
  split.
  - intros k o Ho. unfold get_oracle in Ho. cbn in Ho. by rewrite lookup_empty in Ho.
  - intros k o Ho. unfold get_oracle in Ho. cbn in Ho. by rewrite lookup_empty in Ho.
  - intros k. unfold get_oracle. cbn. rewrite lookup_empty. split; [by intros ?%elem_of_nil|by intros [? ?]].
Qed.

End Registry.

(** ** Histories

    Every call runs in its own ledger: at its own time, with its own authorisations, and
    validated against what the providers answer in that ledger.  Nothing relates the answers
    of two ledgers, so a registry stays reachable whatever its providers answer later. *)

Inductive agg_reachable : Registry -> Prop :=
| agg_init owner : agg_reachable (PriceAggregator.constructor owner)
| agg_call (answers : Providers) reg env call reg' :
    agg_reachable reg -> dispatch (HP := answers) env reg call = Ok reg' -> agg_reachable reg'.

Lemma registry_reachable_inv reg : agg_reachable reg -> registry_inv reg.
Proof.
  induction 1 as [owner|answers reg env call reg' _ IH Hd]; [apply constructor_inv|by eapply dispatch_inv].
Qed.

End AggRegistry.
