(* ===== verification/AggProps.v ===== *)
(** * Properties of the price aggregator *)

From S2P Require Import Prelude Errors FpCore Fp PoolTypes PoolCache ControllerTypes PoolView OracleMath LpMath AggState AggEngine AggContract AggReference AggResolve AggRegistry.
From stdpp Require Import base numbers list gmap strings.
From Stdlib Require Import ZArith Lia Bool.

Open Scope Z_scope.

(** ** The controller's side of a price read (controller/src/external/price_aggregator.rs) *)

Module AggClient.

Section Client.

Context `{HP : Providers}.

Definition token_keys (assets : list Address) : list PriceKey := map Token assets.

Definition fetch_prices (reg : Registry) (now : Z) (assets : list Address)
    : res (gmap Address PriceFeedRaw) :=
  let* keyed := PriceAggregator.prices reg now (token_keys assets) in
  rfold (fun (out : gmap Address PriceFeedRaw) a =>
    match keyed !! Token a with
    | Some feed => Ok (<[a := feed]> out)
    | None => Err (EOracle OracleNotConfigured)
    end) ∅ assets.

Lemma fetched_keyed reg now assets m a f :
  fetch_prices reg now assets = Ok m -> m !! a = Some f ->
  exists keyed, PriceAggregator.prices reg now (token_keys assets) = Ok keyed
  /\ keyed !! Token a = Some f.
Proof.
  intros H Hf. apply rbind_Ok in H as (keyed & Hk & H). exists keyed. split; [done|].
  clear Hk. revert H Hf. assert (forall a f, (∅ : gmap Address PriceFeedRaw) !! a = Some f ->
    keyed !! Token a = Some f) as H0 by (intros ? ?; by rewrite lookup_empty).
  revert H0. generalize (∅ : gmap Address PriceFeedRaw).
  induction assets as [|x l IH]; intros out Hout H Hf; cbn [rfold] in H;
    [simplify_eq; by apply Hout|].
  apply rbind_Ok in H as (out' & Hx & H). destruct (keyed !! Token x) as [g|] eqn:Hg; [|done].
  injection Hx as <-. eapply IH; [|exact H|done]. intros a' f'.
  rewrite lookup_insert_Some. intros [[<- <-]|[_ ?]]; auto.
Qed.

End Client.

End AggClient.

(** ** A ledger with three providers *)

Module AggSample.

Import AggClient.

Definition addr (n : N) : Address := mkAddress n.
Definition owner : Address := addr 1.
Definition usdc : Address := addr 10.
Definition susd : Address := addr 11.
Definition xlm : Address := addr 12.
Definition redstone : Address := addr 20.
Definition reflector : Address := addr 21.
Definition now : Z := 100000.

Definition feed_data (at_ : Z) (price : Z) : RedStonePriceData :=
  mkRedStonePriceData price ((at_ - 30) * 1000) ((at_ - 20) * 1000).

(** A day earlier only two of the feeds were published, at other prices. *)
Definition day_before : Z := now - 86400.

Definition earlier_feed_of (c : Address) (id : string) : option RedStonePriceData :=
  if bool_decide (c = redstone) then
    if bool_decide (id = "USDC"%string) then Some (feed_data day_before 99980000)
    else if bool_decide (id = "SUSD"%string) then Some (feed_data day_before 104000000)
    else None
  else None.

Definition feed_of (c : Address) (id : string) : option RedStonePriceData :=
  if bool_decide (c = redstone) then
    if bool_decide (id = "USDC"%string) then Some (feed_data now 100010000)
    else if bool_decide (id = "SUSD"%string) then Some (feed_data now 105000000)
    else if bool_decide (id = "XLM"%string) then Some (feed_data now 12000000)
    else None
  else None.

Definition history (c : Address) (a : ReflectorAsset) (n : Z) : option (list ReflectorPriceData) :=
  if bool_decide (c = reflector) && bool_decide (a = Stellar xlm) && (n =? 3)
  then Some [mkReflectorPriceData 12100000000000 (now - 100);
             mkReflectorPriceData 12000000000000 (now - 400);
             mkReflectorPriceData 12200000000000 (now - 700)]
  else None.

(** Every provider gone. *)
Definition no_answers : Providers := {|
  chainlink_latest_round := fun _ _ _ => None;
  reflector_base := fun _ => None;
  reflector_decimals := fun _ => None;
  reflector_resolution := fun _ => None;
  reflector_lastprice := fun _ _ => None;
  reflector_history := fun _ _ _ => None;
  redstone_feed := fun _ _ => None;
  redstone_feeds := fun _ _ => None;
  xoxno_max_submission_age := fun _ => None;
  aquarius_total_shares := fun _ => None;
  aquarius_reserves := fun _ => None;
  aquarius_tokens := fun _ => None;
  aquarius_pool_type := fun _ => None;
  aquarius_share_id := fun _ => None;
  aquarius_amp := fun _ => None;
  token_decimals := fun _ => None;
  curve_executable := fun _ => None;
  curve_pool_info := fun _ => None;
  curve_decimals := fun _ => None;
  curve_virtual_price := fun _ => None;
  curve_total_supply := fun _ => None
|}.

Definition earlier : Providers := {|
  chainlink_latest_round := fun _ _ _ => None;
  reflector_base := fun _ => None;
  reflector_decimals := fun _ => None;
  reflector_resolution := fun _ => None;
  reflector_lastprice := fun _ _ => None;
  reflector_history := fun _ _ _ => None;
  redstone_feed := earlier_feed_of;
  redstone_feeds := fun c l => mapM (earlier_feed_of c) l;
  xoxno_max_submission_age := fun _ => None;
  aquarius_total_shares := fun _ => None;
  aquarius_reserves := fun _ => None;
  aquarius_tokens := fun _ => None;
  aquarius_pool_type := fun _ => None;
  aquarius_share_id := fun _ => None;
  aquarius_amp := fun _ => None;
  token_decimals := fun _ => None;
  curve_executable := fun _ => None;
  curve_pool_info := fun _ => None;
  curve_decimals := fun _ => None;
  curve_virtual_price := fun _ => None;
  curve_total_supply := fun _ => None
|}.

#[export] Instance ledger : Providers := {|
  chainlink_latest_round := fun _ _ _ => None;
  reflector_base := fun c => if bool_decide (c = reflector) then Some (Other "USD") else None;
  reflector_decimals := fun c => if bool_decide (c = reflector) then Some 14 else None;
  reflector_resolution := fun c => if bool_decide (c = reflector) then Some 300 else None;
  reflector_lastprice := fun _ _ => None;
  reflector_history := history;
  redstone_feed := feed_of;
  redstone_feeds := fun c l => mapM (feed_of c) l;
  xoxno_max_submission_age := fun _ => None;
  aquarius_total_shares := fun _ => None;
  aquarius_reserves := fun _ => None;
  aquarius_tokens := fun _ => None;
  aquarius_pool_type := fun _ => None;
  aquarius_share_id := fun _ => None;
  aquarius_amp := fun _ => None;
  token_decimals := fun _ => None;
  curve_executable := fun _ => None;
  curve_pool_info := fun _ => None;
  curve_decimals := fun _ => None;
  curve_virtual_price := fun _ => None;
  curve_total_supply := fun _ => None
|}.

Lemma feed_of_typed c f d :
  feed_of c f = Some d -> 0 <= rs_price d /\ 0 <= rs_package_timestamp d <= u64_max
  /\ 0 <= rs_write_timestamp d <= u64_max.
Proof.
  unfold feed_of. intros H. repeat case_in H; try done; injection H as <-; cbn;
    (split; [lia|split; split; zconst]).
Qed.

#[export] Instance ledger_typed : TypedProviders.
Proof.
  split; cbn; try done.
  - intros c a n l H. unfold history in H. case_in H; [|done]. injection H as <-.
    repeat constructor; zconst.
  - exact feed_of_typed.
  - intros c l ds Hl%mapM_Some. induction Hl; constructor; eauto using feed_of_typed.
Qed.

#[export] Instance ledger_consistent : ConsistentFeeds.
Proof.
  split. cbn. intros c l ds Hl%mapM_Some _ i f d Hf Hd.
  destruct (Forall2_lookup_l _ _ _ _ _ Hl Hf) as (d' & Hd' & E). congruence.
Qed.

Lemma no_answers_typed : @TypedProviders no_answers.
Proof. by split. Qed.

Lemma no_answers_consistent : @ConsistentFeeds no_answers.
Proof. by split. Qed.

Definition earlier_env : Env := mkEnv day_before (addr 2) (fun a => bool_decide (a = owner)).
Definition env : Env := mkEnv now (addr 2) (fun a => bool_decide (a = owner)).

Definition tolerance : OracleTolerance := mkOracleTolerance 10500 9524.

Definition redstone_source (id : string) (n : FeedNature) : FeedSource :=
  mkFeedSource (RedStone (mkMultiFeedRef redstone id n)) 8 3600.

Definition usdc_oracle : AssetOracle :=
  mkAssetOracle 6 3600 [Feed (redstone_source "USDC" Fundamental)] tolerance RequireDisjoint
    (WAD * 97 / 100) (WAD * 103 / 100).

(** A vault share: its rate times the price of the token it wraps. *)
Definition susd_oracle : AssetOracle :=
  mkAssetOracle 6 3600
    [Scaled (mkScaledSource (redstone_source "SUSD" Fundamental) (Token usdc) WAD (WAD * 2))]
    tolerance RequireDisjoint (WAD * 98 / 100) (WAD * 110 / 100).

Definition xlm_oracle : AssetOracle :=
  mkAssetOracle 7 3600
    [Feed (mkFeedSource (Reflector (mkReflectorFeedRef reflector (AssetStellar xlm) (Twap 3))) 14 3600);
     Feed (redstone_source "XLM" Market)]
    tolerance RequireDisjoint (WAD / 100) WAD.

(** The token and the vault share are configured a day before the third asset, each validated
    against the answers of its own ledger. *)
Definition calls : list (Providers * Env * AggRegistry.AdminCall) :=
  [(earlier, earlier_env, AggRegistry.SetOracle (Token usdc) usdc_oracle);
   (earlier, earlier_env, AggRegistry.SetOracle (Token susd) susd_oracle);
   (ledger, env, AggRegistry.SetOracle (Token xlm) xlm_oracle)].

Definition setup : res Registry :=
  rfold (fun reg '(answers, env, call) => AggRegistry.dispatch (HP := answers) env reg call)
    (PriceAggregator.constructor owner) calls.

Definition registry : Registry :=
  match setup with Ok r => r | Err _ => PriceAggregator.constructor owner end.

Lemma registry_reachable : AggRegistry.agg_reachable registry.
Proof.
  assert (setup = Ok registry) as H by (by vm_compute). revert H. unfold setup.
  generalize registry. generalize (AggRegistry.agg_init owner).
  generalize (PriceAggregator.constructor owner).
  induction calls as [|[[answers e] c] l IH]; intros r0 Hr r H; cbn [rfold] in H; [by simplify_eq|].
  apply rbind_Ok in H as (r' & Hr' & H). eapply IH; [|exact H]. by eapply AggRegistry.agg_call.
Qed.

End AggSample.

(** ** Theorems *)

Import Engine Reference AggAdmin AggTotal AggResolve AggRegistry AggClient.

Section Properties.

Context `{HP : Providers} {HT : TypedProviders} {HF : ConsistentFeeds}.

(** C9: on a reachable registry [prices] is the cache-free reference: it returns exactly the
    reference price of every asked key, whatever the batch, its order and what was cached on
    the way, and fails, with an oracle error, just when one of them has none.  The answers are of
    their declared types, and bulk reads of a multi-feed contract agree with its single reads. *)
Theorem prices_equal_reference reg now keys :
  agg_reachable reg ->
  match PriceAggregator.prices reg now keys with
  | Ok out => (forall k, k ∈ keys -> is_Some (reference reg now resolution_fuel [] k))
      /\ forall k, out !! k = if bool_decide (k ∈ keys) then reference reg now resolution_fuel [] k else None
  | Err e => exists k o, k ∈ keys /\ reference reg now resolution_fuel [] k = None /\ e = EOracle o
  end.
Proof using HT HF. intros Hr. exact (prices_reference reg now (ri_ok _ (registry_reachable_inv _ Hr)) keys). Qed.

(** C11: every price [prices] returns on a reachable registry is positive and at most the
    protocol's maximum, inside the sanity band of its configuration, carries the configured
    decimals, is no older than the configured staleness bound and no further ahead of the
    ledger than the clock skew. *)
Theorem prices_are_acceptable reg now keys out k f :
  agg_reachable reg -> PriceAggregator.prices reg now keys = Ok out -> out !! k = Some f ->
  exists oracle, get_oracle reg k = Some oracle /\ acceptable now oracle f
  /\ pfr_price_wad f <= MAX_REASONABLE_PRICE_WAD /\ 0 <= pfr_asset_decimals f <= 18.
Proof using HT HF.
  intros Hr Ho Hf. pose proof (ri_ok _ (registry_reachable_inv _ Hr)) as Hok.
  pose proof (prices_reference reg now Hok keys) as Hp. rewrite Ho in Hp. destruct Hp as [_ Hp].
  rewrite Hp in Hf. destruct (bool_decide _); [|done].
  destruct (reference_acceptable reg now _ _ _ _ Hok Hf) as (o & Hk & Ha). exists o.
  split; [done|]. split; [done|]. pose proof (oracle_ok_bounds _ _ (Hok _ _ Hk)).
  pose proof (oracle_ok_decimals _ _ (Hok _ _ Hk)). destruct Ha as [_ ? -> _ _]. lia.
Qed.

(** C13: on a registry the owner reached through any ledgers, [quotes] never traps, whatever
    the providers answer, or fail to answer, in the ledger of the read: the answers need only
    be of their declared types, and a bulk read of a multi-feed contract that returns one
    entry for each feed asked must return what the single reads return.  The status of a key
    is valid just when [prices] would price it in that ledger, and then reports that price and
    timestamp, and an invalid status carries an error code. *)
Theorem quotes_total_and_agree reg now keys :
  agg_reachable reg ->
  exists out, PriceAggregator.quotes reg now keys = Ok out
  /\ forall k, match out !! k with
               | None => k ∉ keys
               | Some x => k ∈ keys
                   /\ match PriceAggregator.prices reg now [k] with
                      | Ok single => ps_valid x = true /\ exists f, single !! k = Some f
                          /\ final_wad x = pfr_price_wad f /\ price_timestamp x = pfr_timestamp f
                      | Err _ => ps_valid x = false /\ is_Some (ps_error_code x)
                      end
               end.
Proof using HT HF.
  intros Hr. pose proof (ri_ok _ (registry_reachable_inv _ Hr)) as Hok.
  destruct (quotes_reference reg now Hok keys) as (out & Ho & Hx). exists out. split; [done|].
  intros k. specialize (Hx k). destruct (out !! k) as [x|]; [|done]. destruct Hx as [Hk Hx].
  split; [done|]. pose proof (prices_reference reg now Hok [k]) as Hp. unfold reports in Hx.
  destruct (PriceAggregator.prices reg now [k]) as [single|e].
  - destruct Hp as [Hs Hp]. destruct (Hs k ltac:(left)) as [f Hf]. rewrite Hf in Hx.
    split; [tauto|]. exists f. split; [|tauto]. by rewrite Hp, bool_decide_eq_true_2 by left.
  - destruct Hp as (k' & o & Hk'%list_elem_of_singleton & Hn & _). subst. by rewrite Hn in Hx.
Qed.

(** C10: every registry the owner can reach, by any sequence of authorised calls in ledgers
    whose provider answers need not be related, holds only well-formed configurations, indexes
    exactly the configured keys, and composes them soundly: below every configured key each
    quoted key is configured, no key quotes itself through others, and resolution is at most
    [MAX_RESOLUTION_DEPTH] deep. *)
Theorem reachable_registry_composed reg :
  agg_reachable reg ->
  registry_ok reg
  /\ (forall key, key ∈ oracle_keys reg <-> is_Some (get_oracle reg key))
  /\ (forall key, is_Some (get_oracle reg key) -> composed reg (Z.to_nat (MAX_RESOLUTION_DEPTH + 1)) [] key).
Proof using.
  intros [Hok Hc Hk]%registry_reachable_inv. split_and!; [done|done|]. intros key [o Ho]. by eapply Hc.
Qed.

(** the legs [price_spread] reports on a reachable registry enclose the price in use, are
    positive, and, for a two-source configuration, are apart by the configured tolerance at
    most, which never exceeds a quarter; a key without a price is an oracle error. *)
Theorem spread_within_tolerance reg now key :
  agg_reachable reg ->
  match PriceAggregator.price_spread reg now key with
  | Ok (low, high) => exists oracle f, get_oracle reg key = Some oracle
      /\ reference reg now resolution_fuel [] key = Some f
      /\ 0 < low <= pfr_price_wad f /\ pfr_price_wad f <= high
      /\ (length (ao_sources oracle) = 2%nat ->
          half_up_div (high * BPS) low <= upper_ratio_bps (ao_tolerance oracle) <= BPS + MAX_TOLERANCE)
  | Err e => reference reg now resolution_fuel [] key = None /\ exists o, e = EOracle o
  end.
Proof using HT HF.
  intros Hr. pose proof (ri_ok _ (registry_reachable_inv _ Hr)) as Hok.
  pose proof (spread_reference reg now Hok key) as Hs.
  destruct (reference reg now resolution_fuel [] key) as [f|] eqn:Hf.
  - destruct Hs as (o & low & high & Ho & -> & Hl & Hh & Ht). exists o, f. split_and!; try done; try lia.
    intros H2. split; [by apply Ht|]. assert (has_lp_source o = false) as Hlp.
    { destruct (has_lp_source o) eqn:Hlp; [|done]. pose proof (ok_lp _ _ (Hok _ _ Ho)) as H1.
      unfold has_lp_source in Hlp. destruct (ao_sources o) as [|x l]; [done|]. cbn in H1.
      rewrite Hlp in H1. specialize (H1 eq_refl). cbn in H2. lia. }
    pose proof (ok_tolerance _ _ (Hok _ _ Ho) Hlp) as Hv.
    apply rbind_Ok in Hv as (u & Hv%require_Ok & _). b2p. lia.
  - destruct Hs as [e ->]. eauto.
Qed.

(** C14: the aggregator keeps what the controller relies on: on a reachable registry the
    prices fetched for a batch of assets are positive with valid decimals, and two batches of
    one ledger quote the same price for an asset they share. *)
Theorem aggregator_serves_controller reg now :
  agg_reachable reg ->
  (forall l m, fetch_prices reg now l = Ok m -> prices_ok m)
  /\ (forall l l' m m' x p p', fetch_prices reg now l = Ok m -> fetch_prices reg now l' = Ok m' ->
        m !! x = Some p -> m' !! x = Some p' -> p = p').
Proof using HT HF.
  intros Hr. pose proof (ri_ok _ (registry_reachable_inv _ Hr)) as Hok.
  assert (forall l m x p, fetch_prices reg now l = Ok m -> m !! x = Some p ->
    reference reg now resolution_fuel [] (Token x) = Some p) as Href.
  { intros l m x p Hm Hx. destruct (fetched_keyed _ _ _ _ _ _ Hm Hx) as (keyed & Hk & Hl).
    pose proof (prices_reference reg now Hok (token_keys l)) as Hp. rewrite Hk in Hp.
    rewrite (proj2 Hp) in Hl. by destruct (bool_decide _). }
  split.
  - intros l m Hm x p Hx. apply (Href _ _ _ _ Hm) in Hx.
    destruct (reference_acceptable reg now _ _ _ _ Hok Hx) as (o & Ho & [Hp _ -> _ _]).
    pose proof (oracle_ok_decimals _ _ (Hok _ _ Ho)). split; [done|]. unfold WAD_DECIMALS. lia.
  - intros l l' m m' x p p' Hm Hm' Hx Hx'. apply (Href _ _ _ _ Hm) in Hx.
    apply (Href _ _ _ _ Hm') in Hx'. congruence.
Qed.

(** What survives of a configuration. *)
Lemma dispatch_keeps env reg call reg' key oracle :
  dispatch env reg call = Ok reg' -> get_oracle reg key = Some oracle ->
  exists oracle', get_oracle reg' key = Some oracle'
  /\ ao_asset_decimals oracle' = ao_asset_decimals oracle
  /\ ((forall k o, call <> SetOracle k o) ->
      ao_sources oracle' = ao_sources oracle
      /\ ao_min_sanity_price_wad oracle <= ao_min_sanity_price_wad oracle'
      /\ ao_max_sanity_price_wad oracle' <= ao_max_sanity_price_wad oracle).
Proof using.
  intros H Hk. destruct call as [k o|k lo hi|k t]; apply rbind_Ok in H as (u & _ & H).
  - apply rbind_Ok in H as (u1 & Hd & H). do 4 (apply rbind_Ok in H as (? & _ & H)).
    injection H as <-.
    replace (get_oracle (emit (store_oracle reg k o) k o) key)
      with (get_oracle (store_oracle reg k o) key) by done.
    rewrite store_lookup. destruct (decide (key = k)) as [->|Hne].
    + rewrite Hk in Hd. apply require_Ok in Hd. b2p. exists o. split_and!; [done|done|].
      intros Hc. by destruct (Hc k o).
    + exists oracle. split_and!; [done|done|]. intros _. split_and!; (done || lia).
  - apply rbind_Ok in H as (o & Ho%of_option_Ok & H). apply rbind_Ok in H as (u1 & Hb%require_Ok & H).
    apply rbind_Ok in H as (u2 & _ & H). apply rbind_Ok in H as (u3 & _ & [= <-]). b2p.
    exists (if decide (key = k) then with_band o lo hi else oracle).
    destruct (decide (key = k)) as [->|Hne].
    + rewrite Ho in Hk. simplify_eq. split_and!; [|done|]; [|intros _; split_and!; (done || cbn; lia)].
      apply lookup_insert_eq.
    + split_and!; [|done|]; [|intros _; split_and!; (done || lia)].
      unfold get_oracle. cbn. by rewrite lookup_insert_ne.
  - apply rbind_Ok in H as (o & Ho%of_option_Ok & H). apply rbind_Ok in H as (u1 & _ & H).
    apply rbind_Ok in H as (u2 & _ & H). apply rbind_Ok in H as (u3 & _ & [= <-]).
    exists (if decide (key = k) then with_tolerance o t else oracle).
    destruct (decide (key = k)) as [->|Hne].
    + rewrite Ho in Hk. simplify_eq. split_and!; [|done|]; [|intros _; split_and!; (done || cbn; lia)].
      apply lookup_insert_eq.
    + split_and!; [|done|]; [|intros _; split_and!; (done || lia)].
      unfold get_oracle. cbn. by rewrite lookup_insert_ne.
Qed.

(** only calls the owner authorised change the registry; no call removes a configured
    key or changes its decimals, and every call but [set_oracle] keeps the sources and can
    only narrow the sanity band. *)
Theorem oracle_changes_are_gated env reg call reg' :
  dispatch env reg call = Ok reg' ->
  (exists owner, reg_owner reg = Some owner /\ authorized env owner = true /\ reg_owner reg' = Some owner)
  /\ forall key oracle, get_oracle reg key = Some oracle ->
       exists oracle', get_oracle reg' key = Some oracle'
       /\ ao_asset_decimals oracle' = ao_asset_decimals oracle
       /\ ((forall k o, call <> SetOracle k o) ->
           ao_sources oracle' = ao_sources oracle
           /\ ao_min_sanity_price_wad oracle <= ao_min_sanity_price_wad oracle'
           /\ ao_max_sanity_price_wad oracle' <= ao_max_sanity_price_wad oracle).
Proof using.
  intros H. split; [|intros key o Hk; by eapply dispatch_keeps].
  destruct call as [k o|k lo hi|k t]; apply rbind_Ok in H as (u & Hown & H);
    unfold PriceAggregator.only_owner in Hown; destruct (reg_owner reg) as [a|] eqn:Ha; try done;
    apply require_Ok in Hown; exists a; (split_and!; [done|done|]);
    repeat (apply rbind_Ok in H as (? & _ & H)); by injection H as <-.
Qed.

(** the fair price of a constant-product share is exact and total.  With reserves,
    prices and shares of their types and at most 18 decimals, it is the integer square root
    of the product of the two reserve values, doubled, per share, rounded down once; it is an
    [InvalidPrice] just when an input is not positive or a value leaves the [i128] range, and
    no input traps. *)
Theorem fair_lp_price_exact a b supply :
  LpMath.legs_typed a b supply ->
  Lp.lg_decimals a <= WAD_DECIMALS -> Lp.lg_decimals b <= WAD_DECIMALS ->
  Lp.sl_decimals supply <= WAD_DECIMALS ->
  let va := half_up_div (Lp.lg_reserve a * Lp.lg_price_wad a) (10 ^ Lp.lg_decimals a) in
  let vb := half_up_div (Lp.lg_reserve b * Lp.lg_price_wad b) (10 ^ Lp.lg_decimals b) in
  let shares := Lp.sl_total_shares supply * 10 ^ (WAD_DECIMALS - Lp.sl_decimals supply) in
  let price := 2 * Z.sqrt (va * vb) * WAD / shares in
  Lp.fair_lp_price_wad a b supply =
    Ok (if negb (Lp.not_positive a b supply)
           && (Z.max va vb <=? i128_max) && (Z.max shares price <=? i128_max)
        then Ok price else Err InvalidPrice).
Proof using. exact (LpMath.fair_lp_price_eq a b supply). Qed.

End Properties.

(** ** Witnesses *)

Import AggSample.

Definition all_keys : list PriceKey := [Token susd; Token usdc; Token xlm].

Definition sample_prices : gmap PriceKey PriceFeedRaw :=
  match PriceAggregator.prices registry now all_keys with Ok m => m | Err _ => ∅ end.

Lemma sample_prices_Ok : PriceAggregator.prices registry now all_keys = Ok sample_prices.
Proof. by vm_compute. Qed.

Lemma prices_equal_reference_witness :
  reference registry now resolution_fuel [] (Token susd)
  = Some (mkPriceFeedRaw 1050105000000000000 6 (now - 30)).
Proof.
  pose proof (prices_equal_reference registry now all_keys registry_reachable) as H.
  rewrite sample_prices_Ok in H. destruct H as [_ H]. specialize (H (Token susd)).
  rewrite bool_decide_eq_true_2 in H by left. rewrite <- H. vm_compute. reflexivity.
Defined.

Lemma prices_are_acceptable_witness :
  exists oracle, get_oracle registry (Token xlm) = Some oracle
  /\ acceptable now oracle (mkPriceFeedRaw 120500000000000000 7 (now - 700)).
Proof.
  destruct (prices_are_acceptable registry now all_keys sample_prices (Token xlm)
    (mkPriceFeedRaw 120500000000000000 7 (now - 700)) registry_reachable sample_prices_Ok)
    as (o & Ho & Ha & _); [vm_compute; reflexivity|].
  exists o. split; [exact Ho|exact Ha].
Defined.

(** The ledger the assets were priced in, and one in which every provider is gone. *)
Lemma quotes_total_and_agree_witness :
  is_ok (PriceAggregator.quotes registry now (Ref "EUR" :: all_keys)) = true
  /\ is_ok (PriceAggregator.quotes (H := no_answers) registry now (Ref "EUR" :: all_keys)) = true.
Proof.
  split.
  - destruct (quotes_total_and_agree registry now (Ref "EUR" :: all_keys) registry_reachable)
      as (out & -> & _). reflexivity.
  - destruct (quotes_total_and_agree (HT := no_answers_typed) (HF := no_answers_consistent)
      registry now (Ref "EUR" :: all_keys) registry_reachable) as (out & -> & _). reflexivity.
Defined.

Lemma reachable_registry_composed_witness : composed registry 4 [] (Token susd).
Proof.
  apply (proj2 (proj2 (reachable_registry_composed registry registry_reachable))).
  exists susd_oracle. vm_compute. reflexivity.
Defined.

Lemma spread_within_tolerance_witness :
  exists oracle f, get_oracle registry (Token xlm) = Some oracle
  /\ reference registry now resolution_fuel [] (Token xlm) = Some f
  /\ 120000000000000000 <= pfr_price_wad f <= 121000000000000000.
Proof.
  pose proof (spread_within_tolerance registry now (Token xlm) registry_reachable) as H.
  assert (PriceAggregator.price_spread registry now (Token xlm)
          = Ok (120000000000000000, 121000000000000000)) as E by (vm_compute; reflexivity).
  rewrite E in H. destruct H as (o & f & Ho & Hf & Hl & Hh & _). exists o, f.
  split; [exact Ho|]. split; [exact Hf|]. lia.
Defined.

Definition both_fetched : gmap Address PriceFeedRaw :=
  match fetch_prices registry now [usdc; susd] with Ok m => m | Err _ => ∅ end.

Lemma aggregator_serves_controller_witness : prices_ok both_fetched /\ both_fetched !! susd <> None.
Proof.
  split; [|by vm_compute].
  apply (proj1 (aggregator_serves_controller registry now registry_reachable) [usdc; susd]).
  vm_compute. reflexivity.
Defined.

Definition narrowed : Registry :=
  match dispatch env registry (SetSanityBand (Token usdc) (WAD * 98 / 100) (WAD * 102 / 100)) with
  | Ok r => r
  | Err _ => registry
  end.

Lemma narrowed_Ok :
  dispatch env registry (SetSanityBand (Token usdc) (WAD * 98 / 100) (WAD * 102 / 100)) = Ok narrowed.
Proof. vm_compute. reflexivity. Qed.

Lemma usdc_configured : get_oracle registry (Token usdc) = Some usdc_oracle.
Proof. vm_compute. reflexivity. Qed.

Lemma oracle_changes_are_gated_witness :
  exists oracle', get_oracle narrowed (Token usdc) = Some oracle'
  /\ ao_asset_decimals oracle' = ao_asset_decimals usdc_oracle
  /\ ao_min_sanity_price_wad usdc_oracle <= ao_min_sanity_price_wad oracle'.
Proof.
  destruct (oracle_changes_are_gated _ _ _ _ narrowed_Ok) as [_ H].
  destruct (H _ _ usdc_configured) as (o & Ho & Hd & Hb).
  exists o. split; [exact Ho|]. split; [exact Hd|].
  exact (proj1 (proj2 (Hb ltac:(intros ? ?; discriminate)))).
Defined.

Lemma fair_lp_price_exact_witness :
  Lp.fair_lp_price_wad (Lp.mkLpLeg (4 * 10 ^ 9) 7 (WAD / 10)) (Lp.mkLpLeg (10 ^ 8) 6 WAD)
    (Lp.mkLpSupply (10 ^ 9) 7) = Ok (Ok 1264911064067351732).
Proof.
  rewrite fair_lp_price_exact; [by vm_compute|split; cbn; split_and!; zconst|zconst..].
Defined.
