(* ===== verification/XoxnoStore.v ===== *)
(** * Storage of the XOXNO oracle (contracts/xoxno-oracle/src/storage/, the errors of lib.rs)

    Instance configuration, the two swap-remove indexes, and the price rows.  Storage rent
    (the [renew_*] calls) changes no value and is left out. *)

From S2P Require Import Prelude Errors FpCore Fp PoolTypes PoolCache OracleMath AggState.
From stdpp Require Import base numbers list gmap strings.
From Stdlib Require Import ZArith Lia Bool.

Open Scope Z_scope.

(** ** Errors (lib.rs) *)

Module XoxnoError.

Inductive Error : Type :=
| NotAuthorizedSigner
| InvalidPrice
| InvalidThreshold
| SignerAlreadyRegistered
| SignerNotRegistered
| CannotRemoveBelowThreshold
| NoDataForFeed
| StaleData
| PriceOutOfRange
| LengthMismatch
| FutureTimestamp
| FeedAlreadyMapped
| FeedNotMapped
| FeedNotKnown
| InvalidSubmissionAge
| StaleSubmission
| FeedAlreadyRegistered
| InvalidRelativeSkew
| InvalidClusterSpread.

Definition Error_code (e : Error) : Z :=
  match e with
  | NotAuthorizedSigner => 1
  | InvalidPrice => 2
  | InvalidThreshold => 3
  | SignerAlreadyRegistered => 4
  | SignerNotRegistered => 5
  | CannotRemoveBelowThreshold => 6
  | NoDataForFeed => 7
  | StaleData => 8
  | PriceOutOfRange => 9
  | LengthMismatch => 10
  | FutureTimestamp => 11
  | FeedAlreadyMapped => 12
  | FeedNotMapped => 13
  | FeedNotKnown => 14
  | InvalidSubmissionAge => 15
  | StaleSubmission => 16
  | FeedAlreadyRegistered => 17
  | InvalidRelativeSkew => 18
  | InvalidClusterSpread => 19
  end.

End XoxnoError.

(** A call returns an error of the contract, or the host traps. *)
Inductive Failure : Type :=
| Fault (e : XoxnoError.Error)
| Trap.

Abbreviation xres A := (result Failure A).

#[export] Instance ReflectorAsset_countable : Countable ReflectorAsset :=
  inj_countable' (fun a => match a with Stellar x => inl x | Other s => inr s end)
    (fun x => match x with inl a => Stellar a | inr s => Other s end) ltac:(by intros []).

(** ** Swap-remove indexes (storage/index.rs)

    Elements sit in slots [0 .. count - 1]; [ix_index] is the reverse lookup. *)

Section Index.

Context (K : Type) `{Countable K}.

Record Index : Type := mkIndex {
  ix_count : Z;
  ix_at : gmap Z K;
  ix_index : gmap K Z
}.

Definition empty_index : Index := mkIndex 0 ∅ ∅.

Definition index_contains (ix : Index) (k : K) : bool :=
  match ix_index ix !! k with Some _ => true | None => false end.

Definition index_insert (ix : Index) (k : K) : xres Index :=
  let count := ix_count ix in
  do! require (count + 1 <=? u32_max) Trap in
  Ok (mkIndex (count + 1) (<[count := k]> (ix_at ix)) (<[k := count]> (ix_index ix))).

Definition index_remove (ix : Index) (k : K) : xres Index :=
  match ix_index ix !! k with
  | None => Ok ix
  | Some removed_at =>
      let index := delete k (ix_index ix) in
      do! require (0 <? ix_count ix) Trap in
      let last_at := ix_count ix - 1 in
      let '(slots, index) :=
        (if removed_at =? last_at then (ix_at ix, index)
         else
           match ix_at ix !! last_at with
           | Some moved => (<[removed_at := moved]> (ix_at ix), <[moved := removed_at]> index)
           | None => (ix_at ix, index)
           end) in
      Ok (mkIndex last_at (delete last_at slots) index)
  end.

(** [load_all_assets], [load_all_feeds]: the slots in order, empty ones skipped. *)
Definition index_list (ix : Index) : list K :=
  omap (fun i => ix_at ix !! Z.of_nat i) (seq 0 (Z.to_nat (ix_count ix))).

End Index.

Arguments mkIndex {K _ _}.
Arguments ix_count {K _ _}.
Arguments ix_at {K _ _}.
Arguments ix_index {K _ _}.
Arguments empty_index {K _ _}.
Arguments index_contains {K _ _}.
Arguments index_insert {K _ _}.
Arguments index_remove {K _ _}.
Arguments index_list {K _ _}.

(** ** The contract's storage (storage/mod.rs) *)

Record SignerSubmission : Type := mkSignerSubmission {
  sub_price : Z;
  sub_package_timestamp : Z
}.

Record XoxnoOracle : Type := mkXoxnoOracle {
  xo_owner : option Address;
  xo_signers : list Address;
  xo_threshold : Z;
  xo_max_stale_seconds : option Z;
  xo_max_submission_age : option Z;
  xo_max_relative_skew : option Z;
  xo_resolution : Z;
  xo_max_cluster_spread_bps : option Z;
  xo_submissions : gmap (string * Address) SignerSubmission;
  xo_signer_feeds : gmap Address (list string);
  xo_aggregates : gmap string RedStonePriceData;
  xo_histories : gmap string (list RedStonePriceData);
  xo_feed_mapping : gmap ReflectorAsset string;
  xo_feed_owner : gmap string ReflectorAsset;
  xo_assets : Index ReflectorAsset;
  xo_feeds : Index string
}.

Definition DEFAULT_MAX_STALE_SECONDS : Z := 86400.
Definition DEFAULT_MAX_SUBMISSION_AGE_SECONDS : Z := 900.
Definition MIN_SUBMISSION_AGE_SECONDS : Z := Observation.MAX_FUTURE_SKEW_SECONDS + 1.
Definition DEFAULT_MAX_RELATIVE_SKEW_SECONDS : Z := DEFAULT_MAX_SUBMISSION_AGE_SECONDS.
Definition DEFAULT_MAX_CLUSTER_SPREAD_BPS : Z := 200.

(** ** Configuration (storage/config.rs) *)

Definition load_signers (o : XoxnoOracle) : list Address := xo_signers o.
Definition load_threshold (o : XoxnoOracle) : Z := xo_threshold o.
Definition load_max_stale_seconds (o : XoxnoOracle) : Z :=
  default DEFAULT_MAX_STALE_SECONDS (xo_max_stale_seconds o).
Definition load_max_submission_age (o : XoxnoOracle) : Z :=
  default DEFAULT_MAX_SUBMISSION_AGE_SECONDS (xo_max_submission_age o).
Definition load_max_relative_skew (o : XoxnoOracle) : Z :=
  Z.min (default DEFAULT_MAX_RELATIVE_SKEW_SECONDS (xo_max_relative_skew o))
    (load_max_submission_age o).
Definition load_max_cluster_spread_bps (o : XoxnoOracle) : Z :=
  default DEFAULT_MAX_CLUSTER_SPREAD_BPS (xo_max_cluster_spread_bps o).
Definition load_resolution (o : XoxnoOracle) : Z := xo_resolution o.

Definition store_signers (o : XoxnoOracle) (l : list Address) : XoxnoOracle :=
  mkXoxnoOracle (xo_owner o) l (xo_threshold o) (xo_max_stale_seconds o) (xo_max_submission_age o)
    (xo_max_relative_skew o) (xo_resolution o) (xo_max_cluster_spread_bps o) (xo_submissions o)
    (xo_signer_feeds o) (xo_aggregates o) (xo_histories o) (xo_feed_mapping o) (xo_feed_owner o)
    (xo_assets o) (xo_feeds o).

(** The scalar settings, written together; each setter changes one of them. *)
Definition with_settings (o : XoxnoOracle) (threshold : Z) (stale age skew : option Z)
    (resolution : Z) (spread : option Z) : XoxnoOracle :=
  mkXoxnoOracle (xo_owner o) (xo_signers o) threshold stale age skew resolution spread
    (xo_submissions o) (xo_signer_feeds o) (xo_aggregates o) (xo_histories o) (xo_feed_mapping o)
    (xo_feed_owner o) (xo_assets o) (xo_feeds o).

Definition store_threshold (o : XoxnoOracle) (n : Z) : XoxnoOracle :=
  with_settings o n (xo_max_stale_seconds o) (xo_max_submission_age o) (xo_max_relative_skew o)
    (xo_resolution o) (xo_max_cluster_spread_bps o).
Definition store_max_stale_seconds (o : XoxnoOracle) (n : Z) : XoxnoOracle :=
  with_settings o (xo_threshold o) (Some n) (xo_max_submission_age o) (xo_max_relative_skew o)
    (xo_resolution o) (xo_max_cluster_spread_bps o).
Definition store_max_submission_age (o : XoxnoOracle) (n : Z) : XoxnoOracle :=
  with_settings o (xo_threshold o) (xo_max_stale_seconds o) (Some n) (xo_max_relative_skew o)
    (xo_resolution o) (xo_max_cluster_spread_bps o).
Definition store_max_relative_skew (o : XoxnoOracle) (n : Z) : XoxnoOracle :=
  with_settings o (xo_threshold o) (xo_max_stale_seconds o) (xo_max_submission_age o) (Some n)
    (xo_resolution o) (xo_max_cluster_spread_bps o).
Definition store_resolution (o : XoxnoOracle) (n : Z) : XoxnoOracle :=
  with_settings o (xo_threshold o) (xo_max_stale_seconds o) (xo_max_submission_age o)
    (xo_max_relative_skew o) n (xo_max_cluster_spread_bps o).
Definition store_max_cluster_spread_bps (o : XoxnoOracle) (n : Z) : XoxnoOracle :=
  with_settings o (xo_threshold o) (xo_max_stale_seconds o) (xo_max_submission_age o)
    (xo_max_relative_skew o) (xo_resolution o) (Some n).

(** ** Prices (storage/prices.rs) *)

(** The price rows, written together. *)
Definition with_prices (o : XoxnoOracle) (subs : gmap (string * Address) SignerSubmission)
    (aggs : gmap string RedStonePriceData) (hist : gmap string (list RedStonePriceData)) : XoxnoOracle :=
  mkXoxnoOracle (xo_owner o) (xo_signers o) (xo_threshold o) (xo_max_stale_seconds o)
    (xo_max_submission_age o) (xo_max_relative_skew o) (xo_resolution o) (xo_max_cluster_spread_bps o)
    subs (xo_signer_feeds o) aggs hist (xo_feed_mapping o) (xo_feed_owner o) (xo_assets o) (xo_feeds o).

Definition load_submission (o : XoxnoOracle) (feed : string) (signer : Address)
    : option SignerSubmission := xo_submissions o !! (feed, signer).
Definition store_submission_record (o : XoxnoOracle) (feed : string) (signer : Address)
    (price package_timestamp : Z) : XoxnoOracle :=
  with_prices o (<[(feed, signer) := mkSignerSubmission price package_timestamp]> (xo_submissions o))
    (xo_aggregates o) (xo_histories o).
Definition remove_submission (o : XoxnoOracle) (feed : string) (signer : Address) : XoxnoOracle :=
  with_prices o (delete (feed, signer) (xo_submissions o)) (xo_aggregates o) (xo_histories o).

Definition load_aggregate (o : XoxnoOracle) (feed : string) : option RedStonePriceData :=
  xo_aggregates o !! feed.
Definition store_aggregate (o : XoxnoOracle) (feed : string) (a : RedStonePriceData) : XoxnoOracle :=
  with_prices o (xo_submissions o) (<[feed := a]> (xo_aggregates o)) (xo_histories o).
Definition remove_aggregate (o : XoxnoOracle) (feed : string) : XoxnoOracle :=
  with_prices o (xo_submissions o) (delete feed (xo_aggregates o)) (xo_histories o).

Definition load_history (o : XoxnoOracle) (feed : string) : option (list RedStonePriceData) :=
  xo_histories o !! feed.
Definition store_history (o : XoxnoOracle) (feed : string) (l : list RedStonePriceData) : XoxnoOracle :=
  with_prices o (xo_submissions o) (xo_aggregates o) (<[feed := l]> (xo_histories o)).
Definition remove_history (o : XoxnoOracle) (feed : string) : XoxnoOracle :=
  with_prices o (xo_submissions o) (xo_aggregates o) (delete feed (xo_histories o)).

(** ** Feeds and signers (storage/registry.rs) *)

(** The registry rows, written together. *)
Definition with_registry (o : XoxnoOracle) (sf : gmap Address (list string))
    (fm : gmap ReflectorAsset string) (fo : gmap string ReflectorAsset)
    (assets : Index ReflectorAsset) (feeds : Index string) : XoxnoOracle :=
  mkXoxnoOracle (xo_owner o) (xo_signers o) (xo_threshold o) (xo_max_stale_seconds o)
    (xo_max_submission_age o) (xo_max_relative_skew o) (xo_resolution o) (xo_max_cluster_spread_bps o)
    (xo_submissions o) sf (xo_aggregates o) (xo_histories o) fm fo assets feeds.

Definition load_feed_id (o : XoxnoOracle) (a : ReflectorAsset) : option string := xo_feed_mapping o !! a.
Definition load_feed_owner (o : XoxnoOracle) (feed : string) : option ReflectorAsset :=
  xo_feed_owner o !! feed.
Definition has_feed_mapping (o : XoxnoOracle) (a : ReflectorAsset) : bool :=
  match load_feed_id o a with Some _ => true | None => false end.

Definition map_feed (o : XoxnoOracle) (a : ReflectorAsset) (feed : string) : XoxnoOracle :=
  with_registry o (xo_signer_feeds o) (<[a := feed]> (xo_feed_mapping o))
    (<[feed := a]> (xo_feed_owner o)) (xo_assets o) (xo_feeds o).

Definition remove_feed_mapping (o : XoxnoOracle) (a : ReflectorAsset) : XoxnoOracle :=
  with_registry o (xo_signer_feeds o) (delete a (xo_feed_mapping o)) (xo_feed_owner o) (xo_assets o)
    (xo_feeds o).

(** [DataKey::FeedOwner], removed at the end of [clear_feed_state]. *)
Definition remove_feed_owner (o : XoxnoOracle) (feed : string) : XoxnoOracle :=
  with_registry o (xo_signer_feeds o) (xo_feed_mapping o) (delete feed (xo_feed_owner o)) (xo_assets o)
    (xo_feeds o).

Definition on_assets (o : XoxnoOracle) (c : xres (Index ReflectorAsset)) : xres XoxnoOracle :=
  let* ix := c in
  Ok (with_registry o (xo_signer_feeds o) (xo_feed_mapping o) (xo_feed_owner o) ix (xo_feeds o)).
Definition on_feeds (o : XoxnoOracle) (c : xres (Index string)) : xres XoxnoOracle :=
  let* ix := c in
  Ok (with_registry o (xo_signer_feeds o) (xo_feed_mapping o) (xo_feed_owner o) (xo_assets o) ix).

Definition asset_index_insert (o : XoxnoOracle) (a : ReflectorAsset) : xres XoxnoOracle :=
  on_assets o (index_insert (xo_assets o) a).
Definition asset_index_remove (o : XoxnoOracle) (a : ReflectorAsset) : xres XoxnoOracle :=
  on_assets o (index_remove (xo_assets o) a).
Definition feed_index_contains (o : XoxnoOracle) (feed : string) : bool :=
  index_contains (xo_feeds o) feed.
Definition feed_index_insert (o : XoxnoOracle) (feed : string) : xres XoxnoOracle :=
  on_feeds o (index_insert (xo_feeds o) feed).
Definition feed_index_remove (o : XoxnoOracle) (feed : string) : xres XoxnoOracle :=
  on_feeds o (index_remove (xo_feeds o) feed).

Definition load_all_assets (o : XoxnoOracle) : list ReflectorAsset := index_list (xo_assets o).
Definition load_all_feeds (o : XoxnoOracle) : list string := index_list (xo_feeds o).

Definition ensure_known_feed (o : XoxnoOracle) (feed : string) : xres XoxnoOracle :=
  if feed_index_contains o feed then Ok o else feed_index_insert o feed.

Definition set_signer_feeds (o : XoxnoOracle) (sf : gmap Address (list string)) : XoxnoOracle :=
  with_registry o sf (xo_feed_mapping o) (xo_feed_owner o) (xo_assets o) (xo_feeds o).

Definition load_signer_feeds (o : XoxnoOracle) (signer : Address) : list string :=
  default [] (xo_signer_feeds o !! signer).

Definition record_signer_feed (o : XoxnoOracle) (signer : Address) (feed : string) : XoxnoOracle :=
  let feeds := load_signer_feeds o signer in
  if bool_decide (feed ∈ feeds) then o
  else set_signer_feeds o (<[signer := feeds ++ [feed]]> (xo_signer_feeds o)).

Definition clear_signer_feeds (o : XoxnoOracle) (signer : Address) : XoxnoOracle :=
  set_signer_feeds o (delete signer (xo_signer_feeds o)).

Definition remove_signer_feed (o : XoxnoOracle) (signer : Address) (feed : string) : XoxnoOracle :=
  match xo_signer_feeds o !! signer with
  | None => o
  | Some feeds =>
      match filter (fun f => f <> feed) feeds with
      | [] => set_signer_feeds o (delete signer (xo_signer_feeds o))
      | kept => set_signer_feeds o (<[signer := kept]> (xo_signer_feeds o))
      end
  end.

Definition clear_feed_state (o : XoxnoOracle) (feed : string) : xres XoxnoOracle :=
  let o := remove_aggregate o feed in
  let o := remove_history o feed in
  let o := fold_left (fun o signer => remove_signer_feed (remove_submission o feed signer) signer feed)
             (load_signers o) o in
  let o := remove_feed_owner o feed in
  feed_index_remove o feed.

Definition require_registered_signer (o : XoxnoOracle) (signer : Address) : xres unit :=
  require (bool_decide (signer ∈ load_signers o)) (Fault XoxnoError.NotAuthorizedSigner).

Definition require_known_feed (o : XoxnoOracle) (feed : string) : xres unit :=
  require (feed_index_contains o feed) (Fault XoxnoError.FeedNotKnown).
