(* ===== verification/XoxnoContract.v ===== *)
(** * The XOXNO oracle contract
    (contracts/xoxno-oracle/src/aggregation.rs, submit.rs, admin.rs, reads.rs, lib.rs)

    Registered signers post prices; [recompute_aggregate] keeps the fresh ones, clusters them
    by timestamp and stores their lower median. *)

From S2P Require Import Prelude Errors FpCore Fp PoolTypes PoolCache OracleMath AggState AggContract XoxnoStore.
From stdpp Require Import base numbers list gmap strings.
From Stdlib Require Import ZArith Lia Bool.

Open Scope Z_scope.

(** ** Aggregation (aggregation.rs) *)

Module Aggregation.

Import Observation.

Definition MAX_HISTORY_LEN : Z := MAX_TWAP_RECORDS.
Definition MAX_SUBMITTED_PRICE : Z := 1000000000000000000000000.

Definition require_not_future (env : Env) (package_timestamp : Z) : xres unit :=
  require (package_timestamp / MS_PER_SECOND
           <=? Z.min (ledger_timestamp env + MAX_FUTURE_SKEW_SECONDS) u64_max)
    (Fault XoxnoError.FutureTimestamp).

Definition require_fresh_submission (env : Env) (o : XoxnoOracle) (package_timestamp : Z) : xres unit :=
  require (u64_saturating_sub (ledger_timestamp env) (package_timestamp / MS_PER_SECOND)
           <=? load_max_submission_age o) (Fault XoxnoError.StaleSubmission).

Definition require_monotonic_package (o : XoxnoOracle) (feed : string) (signer : Address)
    (package_timestamp : Z) : xres unit :=
  match load_submission o feed signer with
  | Some prev => require (sub_package_timestamp prev <=? package_timestamp)
                   (Fault XoxnoError.StaleSubmission)
  | None => Ok tt
  end.

Definition store_submission (o : XoxnoOracle) (feed : string) (signer : Address)
    (price package_timestamp : Z) : XoxnoOracle :=
  store_submission_record (record_signer_feed o signer feed) feed signer price package_timestamp.

Inductive QuorumMiss : Type := Clear | Retain.

Definition apply_quorum_miss (o : XoxnoOracle) (feed : string) (on_miss : QuorumMiss) : XoxnoOracle :=
  match on_miss with
  | Clear => remove_aggregate o feed
  | Retain => o
  end.

Definition within_spread (lowest highest spread_bps : Z) : bool :=
  match i128_checked_mul highest BPS, i128_checked_mul lowest (BPS + spread_bps) with
  | Some scaled_highest, Some scaled_lowest => scaled_highest <=? scaled_lowest
  | _, _ => false
  end.

(** The inner loop of [sorted_copy]: [key] moves down from slot [j]. *)
Fixpoint sift (sorted : list Z) (key : Z) (j : nat) : list Z :=
  match j with
  | O => <[O := key]> sorted
  | S previous_index =>
      let prev := sorted !!! previous_index in
      if prev <=? key then <[j := key]> sorted
      else sift (<[j := prev]> sorted) key previous_index
  end.

Definition sorted_copy (prices : list Z) : list Z :=
  fold_left (fun sorted i => sift sorted (sorted !!! i) i) (seq 1 (length prices - 1)) prices.

(** [get_unchecked] traps out of range. *)
Definition median_of (prices : list Z) : xres Z :=
  let sorted := sorted_copy prices in
  do! require (negb (length sorted =? 0)%nat) Trap in
  of_option Trap (sorted !! ((length sorted - 1) / 2)%nat).

Definition push_history (o : XoxnoOracle) (feed : string) (aggregate : RedStonePriceData) : XoxnoOracle :=
  let history := default [] (load_history o feed) in
  let resolution_ms := load_resolution o * MS_PER_SECOND in
  let replace_last :=
    match last history with
    | Some l => rs_write_timestamp aggregate
                <? Z.min (rs_write_timestamp l + resolution_ms) u64_max
    | None => false
    end in
  store_history o feed
    (if replace_last then <[(length history - 1)%nat := aggregate]> history
     else (if MAX_HISTORY_LEN <=? Z.of_nat (length history) then tail history else history)
          ++ [aggregate]).

(** The submissions of current signers that are fresh, in signer order, and the newest of
    their timestamps. *)
Definition kept_submissions (env : Env) (o : XoxnoOracle) (feed : string)
    : list SignerSubmission * Z :=
  fold_left (fun (acc : list SignerSubmission * Z) signer =>
    match load_submission o feed signer with
    | None => acc
    | Some s =>
        if load_max_submission_age o
           <? u64_saturating_sub (ledger_timestamp env) (sub_package_timestamp s / MS_PER_SECOND)
        then acc
        else (acc.1 ++ [s], Z.max acc.2 (sub_package_timestamp s))
    end) (load_signers o) ([], 0).

Record Cluster : Type := mkCluster {
  cl_prices : list Z;
  cl_oldest : Z;
  cl_lowest : Z;
  cl_highest : Z
}.

(** The submissions within the skew window of the newest one. *)
Definition clustered (newest_ts skew_ms : Z) (kept : list SignerSubmission) : Cluster :=
  fold_left (fun c s =>
    let ts := sub_package_timestamp s in
    if skew_ms <? u64_saturating_sub newest_ts ts then c
    else mkCluster (cl_prices c ++ [sub_price s]) (Z.min (cl_oldest c) ts)
           (Z.min (cl_lowest c) (sub_price s)) (Z.max (cl_highest c) (sub_price s)))
    kept (mkCluster [] u64_max i128_max i128_min).

Definition cluster_of (env : Env) (o : XoxnoOracle) (kept : list SignerSubmission * Z) : Cluster :=
  let newest_ts := Z.min kept.2 (Z.min (ledger_timestamp env * MS_PER_SECOND) u64_max) in
  clustered newest_ts (Z.min (load_max_relative_skew o * MS_PER_SECOND) u64_max) kept.1.

(** A smaller cluster must fit the spread. *)
Definition spread_free_cluster (o : XoxnoOracle) : Z :=
  Z.min (Z.min (Z.max 0 (Z.of_nat (length (load_signers o)) - load_threshold o) * 2) u32_max + 1) u32_max.

Definition recompute_aggregate (env : Env) (o : XoxnoOracle) (feed : string) (on_miss : QuorumMiss)
    : xres XoxnoOracle :=
  let kept := kept_submissions env o feed in
  let threshold := load_threshold o in
  if Z.of_nat (length kept.1) <? threshold then Ok (apply_quorum_miss o feed on_miss)
  else
    let c := cluster_of env o kept in
    let size := Z.of_nat (length (cl_prices c)) in
    if size <? threshold then Ok (apply_quorum_miss o feed on_miss)
    else if (size <? spread_free_cluster o)
            && negb (within_spread (cl_lowest c) (cl_highest c) (load_max_cluster_spread_bps o))
    then Ok (apply_quorum_miss o feed on_miss)
    else
      let* median := median_of (cl_prices c) in
      let write_timestamp := ledger_timestamp env * MS_PER_SECOND in
      do! require (write_timestamp <=? u64_max) Trap in
      let aggregate := mkRedStonePriceData median (cl_oldest c) write_timestamp in
      Ok (push_history (store_aggregate o feed aggregate) feed aggregate).

End Aggregation.

(** ** Submissions (submit.rs) *)

Module Submit.

Import Aggregation.

Definition validate_price (price : Z) : xres unit :=
  do! require (0 <? price) (Fault XoxnoError.InvalidPrice) in
  require (price <=? MAX_SUBMITTED_PRICE) (Fault XoxnoError.PriceOutOfRange).

Definition submit_price (env : Env) (o : XoxnoOracle) (signer : Address) (feed : string)
    (price package_timestamp : Z) : xres XoxnoOracle :=
  do! require (authorized env signer) Trap in
  do! require_registered_signer o signer in
  do! require_known_feed o feed in
  do! validate_price price in
  do! require_not_future env package_timestamp in
  do! require_fresh_submission env o package_timestamp in
  do! require_monotonic_package o feed signer package_timestamp in
  let o := store_submission o feed signer price package_timestamp in
  recompute_aggregate env o feed Retain.

Definition submit_prices (env : Env) (o : XoxnoOracle) (signer : Address) (feed_ids : list string)
    (prices : list Z) (package_timestamp : Z) : xres XoxnoOracle :=
  do! require (authorized env signer) Trap in
  do! require_registered_signer o signer in
  do! require (length feed_ids =? length prices)%nat (Fault XoxnoError.LengthMismatch) in
  do! require_not_future env package_timestamp in
  do! require_fresh_submission env o package_timestamp in
  do! rfold (fun _ feed =>
        do! require_known_feed o feed in
        require_monotonic_package o feed signer package_timestamp) tt feed_ids in
  do! rfold (fun _ price => validate_price price) tt prices in
  rfold (fun o fp =>
    let o := store_submission o fp.1 signer fp.2 package_timestamp in
    recompute_aggregate env o fp.1 Retain) o (zip feed_ids prices).

End Submit.

(** ** Administration (admin.rs, lib.rs) *)

Module XoxnoAdmin.

Import Aggregation Observation.

(** [only_owner] *)
Definition only_owner (env : Env) (o : XoxnoOracle) : xres unit :=
  match xo_owner o with
  | Some owner => require (authorized env owner) Trap
  | None => Err Trap
  end.

Fixpoint has_duplicate (signers : list Address) : bool :=
  match signers with
  | [] => false
  | s :: rest => existsb (fun x => bool_decide (s = x)) rest || has_duplicate rest
  end.

Definition constructor (admin : Address) (signers : list Address) (threshold resolution : Z)
    : xres XoxnoOracle :=
  do! require (negb ((threshold =? 0) || (Z.of_nat (length signers) <? threshold)
                     || has_duplicate signers)) (Fault XoxnoError.InvalidThreshold) in
  Ok (mkXoxnoOracle (Some admin) signers threshold (Some DEFAULT_MAX_STALE_SECONDS)
        (Some DEFAULT_MAX_SUBMISSION_AGE_SECONDS) (Some DEFAULT_MAX_RELATIVE_SKEW_SECONDS) resolution
        None ∅ ∅ ∅ ∅ ∅ ∅ empty_index empty_index).

Definition add_signer (env : Env) (o : XoxnoOracle) (signer : Address) : xres XoxnoOracle :=
  do! only_owner env o in
  let signers := load_signers o in
  do! require (negb (bool_decide (signer ∈ signers))) (Fault XoxnoError.SignerAlreadyRegistered) in
  Ok (store_signers o (signers ++ [signer])).

(** [Vec::first_index_of], then [Vec::remove] *)
Fixpoint remove_first (signers : list Address) (signer : Address) : option (list Address) :=
  match signers with
  | [] => None
  | s :: rest =>
      if bool_decide (s = signer) then Some rest else (fun r => s :: r) <$> remove_first rest signer
  end.

Definition remove_signer (env : Env) (o : XoxnoOracle) (signer : Address) : xres XoxnoOracle :=
  do! only_owner env o in
  match remove_first (load_signers o) signer with
  | None => Err (Fault XoxnoError.SignerNotRegistered)
  | Some signers =>
      do! require (load_threshold o <=? Z.of_nat (length (load_signers o)) - 1)
            (Fault XoxnoError.CannotRemoveBelowThreshold) in
      let o := store_signers o signers in
      let* o := rfold (fun o feed => recompute_aggregate env (remove_submission o feed signer) feed Clear)
                  o (load_signer_feeds o signer) in
      Ok (clear_signer_feeds o signer)
  end.

Definition set_threshold (env : Env) (o : XoxnoOracle) (threshold : Z) : xres XoxnoOracle :=
  do! only_owner env o in
  do! require (negb ((threshold =? 0) || (Z.of_nat (length (load_signers o)) <? threshold)))
        (Fault XoxnoError.InvalidThreshold) in
  Ok (store_threshold o threshold).

Definition set_max_stale_seconds (env : Env) (o : XoxnoOracle) (seconds : Z) : xres XoxnoOracle :=
  do! only_owner env o in
  do! require (load_max_submission_age o <=? seconds) (Fault XoxnoError.InvalidSubmissionAge) in
  Ok (store_max_stale_seconds o seconds).

Definition set_max_submission_age_seconds (env : Env) (o : XoxnoOracle) (seconds : Z)
    : xres XoxnoOracle :=
  do! only_owner env o in
  do! require (negb ((seconds <? MIN_SUBMISSION_AGE_SECONDS) || (load_max_stale_seconds o <? seconds)))
        (Fault XoxnoError.InvalidSubmissionAge) in
  Ok (store_max_submission_age o seconds).

Definition set_max_relative_skew_seconds (env : Env) (o : XoxnoOracle) (seconds : Z)
    : xres XoxnoOracle :=
  do! only_owner env o in
  do! require (negb ((load_max_submission_age o <? seconds) || (seconds <=? MAX_FUTURE_SKEW_SECONDS)))
        (Fault XoxnoError.InvalidRelativeSkew) in
  Ok (store_max_relative_skew o seconds).

Definition set_max_cluster_spread_bps (env : Env) (o : XoxnoOracle) (bps : Z) : xres XoxnoOracle :=
  do! only_owner env o in
  do! require (negb ((bps =? 0) || (BPS <? bps))) (Fault XoxnoError.InvalidClusterSpread) in
  Ok (store_max_cluster_spread_bps o bps).

Definition recompute_feeds (env : Env) (o : XoxnoOracle) (feed_ids : list string) : xres XoxnoOracle :=
  do! only_owner env o in
  do! rfold (fun _ feed => require_known_feed o feed) tt feed_ids in
  rfold (fun o feed => recompute_aggregate env o feed Clear) o feed_ids.

Definition register_feed (env : Env) (o : XoxnoOracle) (feed : string) : xres XoxnoOracle :=
  do! only_owner env o in
  do! require (negb (feed_index_contains o feed)) (Fault XoxnoError.FeedAlreadyRegistered) in
  ensure_known_feed o feed.

Definition add_feed (env : Env) (o : XoxnoOracle) (feed : string) (a : ReflectorAsset)
    : xres XoxnoOracle :=
  do! only_owner env o in
  do! require (negb (has_feed_mapping o a)) (Fault XoxnoError.FeedAlreadyMapped) in
  do! require (match load_feed_owner o feed with Some _ => false | None => true end)
        (Fault XoxnoError.FeedAlreadyMapped) in
  let o := map_feed o a feed in
  let* o := ensure_known_feed o feed in
  asset_index_insert o a.

Definition clear_asset_and_feed (o : XoxnoOracle) (a : ReflectorAsset) (feed : string)
    : xres XoxnoOracle :=
  let o := remove_feed_mapping o a in
  let* o := asset_index_remove o a in
  clear_feed_state o feed.

Definition remove_feed (env : Env) (o : XoxnoOracle) (a : ReflectorAsset) : xres XoxnoOracle :=
  do! only_owner env o in
  match load_feed_id o a with
  | None => Err (Fault XoxnoError.FeedNotMapped)
  | Some feed => clear_asset_and_feed o a feed
  end.

Definition set_resolution (env : Env) (o : XoxnoOracle) (resolution : Z) : xres XoxnoOracle :=
  do! only_owner env o in
  Ok (store_resolution o resolution).

Definition purge_feed (env : Env) (o : XoxnoOracle) (feed : string) : xres XoxnoOracle :=
  do! only_owner env o in
  do! require (feed_index_contains o feed) (Fault XoxnoError.FeedNotKnown) in
  match load_feed_owner o feed with
  | Some a => clear_asset_and_feed o a feed
  | None => clear_feed_state o feed
  end.

End XoxnoAdmin.

(** ** Reads (reads.rs) *)

Module XoxnoReads.

Import Aggregation Observation.

Definition read_price_data_for_feed (env : Env) (o : XoxnoOracle) (feed : string)
    : xres RedStonePriceData :=
  let* aggregate := of_option (Fault XoxnoError.NoDataForFeed) (load_aggregate o feed) in
  do! require (u64_saturating_sub (ledger_timestamp env) (rs_write_timestamp aggregate / MS_PER_SECOND)
               <=? load_max_stale_seconds o) (Fault XoxnoError.StaleData) in
  Ok aggregate.

Definition read_price_data (env : Env) (o : XoxnoOracle) (feed_ids : list string)
    : xres (list RedStonePriceData) :=
  rfold (fun results feed =>
    let* d := read_price_data_for_feed env o feed in
    Ok (results ++ [d])) [] feed_ids.

Definition read_price_history (env : Env) (o : XoxnoOracle) (feed : string) (limit : Z)
    : xres (list RedStonePriceData) :=
  do! read_price_data_for_feed env o feed in
  let* history := of_option (Fault XoxnoError.NoDataForFeed) (load_history o feed) in
  do! require (negb (length history =? 0)%nat) (Fault XoxnoError.NoDataForFeed) in
  Ok (take (Z.to_nat limit) (reverse history)).

Definition base : ReflectorAsset := Other "USD".
Definition decimals : Z := AggAdmin.REDSTONE_DECIMALS.
Definition resolution (o : XoxnoOracle) : Z := load_resolution o.
Definition max_submission_age_seconds (o : XoxnoOracle) : Z := load_max_submission_age o.
Definition max_stale_seconds (o : XoxnoOracle) : Z := load_max_stale_seconds o.
Definition max_relative_skew_seconds (o : XoxnoOracle) : Z := load_max_relative_skew o.
Definition max_cluster_spread_bps (o : XoxnoOracle) : Z := load_max_cluster_spread_bps o.
Definition assets (o : XoxnoOracle) : list ReflectorAsset := load_all_assets o.
Definition feeds (o : XoxnoOracle) : list string := load_all_feeds o.

Definition to_reflector_price_data (d : RedStonePriceData) : xres ReflectorPriceData :=
  let* price := of_option Trap (try_u256_to_i128 (rs_price d)) in
  Ok (mkReflectorPriceData price (millis_to_seconds (rs_package_timestamp d))).

(** [.ok()?] turns an error into [None]; a trap still traps. *)
Definition ok_opt {A : Type} (c : xres A) : xres (option A) :=
  match c with
  | Ok a => Ok (Some a)
  | Err (Fault _) => Ok None
  | Err Trap => Err Trap
  end.

Definition lastprice (env : Env) (o : XoxnoOracle) (a : ReflectorAsset)
    : xres (option ReflectorPriceData) :=
  match load_feed_id o a with
  | None => Ok None
  | Some feed =>
      let* d := ok_opt (read_price_data_for_feed env o feed) in
      match d with
      | None => Ok None
      | Some d => let* p := to_reflector_price_data d in Ok (Some p)
      end
  end.

Definition price (env : Env) (o : XoxnoOracle) (a : ReflectorAsset) (timestamp : Z)
    : xres (option ReflectorPriceData) :=
  match load_feed_id o a with
  | None => Ok None
  | Some feed =>
      let* h := ok_opt (read_price_history env o feed MAX_HISTORY_LEN) in
      match h with
      | None => Ok None
      | Some history =>
          let best := fold_left (fun (best : option RedStonePriceData) entry =>
            if timestamp <? millis_to_seconds (rs_package_timestamp entry) then best
            else
              match best with
              | Some b => if rs_package_timestamp b <? rs_package_timestamp entry then Some entry else best
              | None => Some entry
              end) history None in
          match best with
          | None => Ok None
          | Some d => let* p := to_reflector_price_data d in Ok (Some p)
          end
      end
  end.

Definition prices (env : Env) (o : XoxnoOracle) (a : ReflectorAsset) (records : Z)
    : xres (option (list ReflectorPriceData)) :=
  match load_feed_id o a with
  | None => Ok None
  | Some feed =>
      let* h := ok_opt (read_price_history env o feed records) in
      match h with
      | None | Some [] => Ok None
      | Some history =>
          let* out := rfold (fun out entry =>
                        let* p := to_reflector_price_data entry in
                        Ok (out ++ [p])) [] history in
          Ok (Some out)
      end
  end.

End XoxnoReads.
