(* ===== verification/XoxnoSteps.v ===== *)
(** * The median and the indexes of the XOXNO oracle

    The insertion sort of [sorted_copy] yields the sorted permutation of its input; the lower
    median has enough prices on both sides; the swap-remove indexes implement finite sets. *)

From S2P Require Import Prelude Errors FpCore Fp PoolTypes PoolCache OracleMath AggState AggContract XoxnoStore XoxnoContract.
From stdpp Require Import base numbers list gmap strings sorting.
From Stdlib Require Import ZArith Lia Bool.

Open Scope Z_scope.

Module XoxnoSort.

Import Aggregation.

(** ** Insertion sort *)

(** Insertion of [key] behind the elements at most as large. *)
Fixpoint insert_sorted (key : Z) (l : list Z) : list Z :=
  match l with
  | [] => [key]
  | x :: l' => if x <=? key then x :: insert_sorted key l' else key :: l
  end.

Lemma insert_sorted_perm key l : insert_sorted key l ≡ₚ key :: l.
Proof.
  induction l as [|x l IH]; cbn; [done|]. destruct (x <=? key); [|done].
  rewrite IH. apply Permutation_swap.
Qed.

Lemma insert_sorted_sorted key l : StronglySorted Z.le l -> StronglySorted Z.le (insert_sorted key l).
Proof.
  induction 1 as [|x l Hl IH Hx]; cbn; [by repeat constructor|].
  destruct (x <=? key) eqn:Hk; b2p.
  - constructor; [done|]. rewrite insert_sorted_perm. by constructor.
  - constructor; [by constructor|]. constructor; [lia|]. eapply Forall_impl; [exact Hx|]. cbn. lia.
Qed.

Lemma insert_sorted_above key l x : StronglySorted Z.le (l ++ [x]) -> key < x ->
  insert_sorted key (l ++ [x]) = insert_sorted key l ++ [x].
Proof.
  induction l as [|y l IH]; cbn; intros Hs Hx.
  - by destruct (Z.leb_spec x key); [lia|].
  - inversion_clear Hs. destruct (y <=? key); [|done]. by rewrite IH.
Qed.

Lemma insert_sorted_below key l : Forall (fun x => x <= key) l -> insert_sorted key l = l ++ [key].
Proof.
  induction 1 as [|x l Hx Hl IH]; cbn; [done|]. destruct (Z.leb_spec x key); [|lia]. by rewrite IH.
Qed.

Lemma sorted_last_bound l x : StronglySorted Z.le (l ++ [x]) -> Forall (fun y => y <= x) (l ++ [x]).
Proof.
  intros H. apply Forall_app. split; [|by repeat constructor].
  induction l as [|y l IH]; [constructor|]. inversion_clear H. constructor; [|by apply IH].
  rewrite Forall_app in H1. destruct H1 as [_ H1]. by inversion_clear H1.
Qed.

Lemma sorted_prefix l1 l2 : StronglySorted Z.le (l1 ++ l2) -> StronglySorted Z.le l1.
Proof.
  induction l1 as [|x l1 IH]; [constructor|]. cbn. intros H. inversion_clear H. constructor; [by apply IH|].
  by apply Forall_app in H1 as [? _].
Qed.

(** One turn of the inner loop inserts the key into the sorted part before slot [j]. *)
Lemma sift_spec l key x rest : StronglySorted Z.le l ->
  sift (l ++ x :: rest) key (length l) = insert_sorted key l ++ rest.
Proof.
  revert x rest. induction l as [|y l IH] using rev_ind; intros x rest Hs; [done|].
  rewrite length_app, Nat.add_1_r, <- app_assoc. cbn [sift app].
  assert ((l ++ y :: x :: rest) !!! length l = y) as ->.
  { rewrite list_lookup_total_alt, lookup_app_r by lia. by rewrite Nat.sub_diag. }
  destruct (y <=? key) eqn:Hy; b2p.
  - rewrite insert_sorted_below.
    + rewrite insert_app_r_alt by lia. replace (S (length l) - length l)%nat with 1%nat by lia. cbn.
      by rewrite <- !app_assoc.
    + eapply Forall_impl; [apply sorted_last_bound, Hs|]. cbn. lia.
  - rewrite insert_app_r_alt by lia. replace (S (length l) - length l)%nat with 1%nat by lia. cbn.
    rewrite IH by (by apply sorted_prefix in Hs). rewrite insert_sorted_above by done.
    by rewrite <- app_assoc.
Qed.

Lemma sort_loop l rest : StronglySorted Z.le l ->
  exists l', fold_left (fun s i => sift s (s !!! i) i) (seq (length l) (length rest)) (l ++ rest) = l'
    /\ StronglySorted Z.le l' /\ l' ≡ₚ l ++ rest.
Proof.
  revert l. induction rest as [|x rest IH]; intros l Hs; cbn.
  - exists l. by rewrite app_nil_r.
  - assert ((l ++ x :: rest) !!! length l = x) as ->.
    { rewrite list_lookup_total_alt, lookup_app_r by lia. by rewrite Nat.sub_diag. }
    rewrite sift_spec by done. destruct (IH (insert_sorted x l)) as (l' & Hl & Hs' & Hp).
    { by apply insert_sorted_sorted. }
    rewrite (Permutation_length (insert_sorted_perm x l)) in Hl. cbn in Hl.
    exists l'. split; [done|]. split; [done|]. rewrite Hp, insert_sorted_perm. cbn.
    apply Permutation_middle.
Qed.

(** [sorted_copy] is the sorted permutation of its argument. *)
Lemma sorted_copy_spec l : StronglySorted Z.le (sorted_copy l) /\ sorted_copy l ≡ₚ l.
Proof.
  unfold sorted_copy. destruct l as [|x l]; cbn [length]; [by split; [constructor|]|].
  rewrite Nat.sub_succ, Nat.sub_0_r.
  destruct (sort_loop [x] l) as (l' & Hl & Hs & Hp); [by repeat constructor|].
  cbn [length] in Hl. cbn [app] in *. rewrite Hl. done.
Qed.

(** ** The lower median *)

Definition at_most (m : Z) (l : list Z) : list Z := filter (fun x => x <= m) l.
Definition at_least (m : Z) (l : list Z) : list Z := filter (fun x => m <= x) l.

Lemma sorted_split l i m : StronglySorted Z.le l -> l !! i = Some m ->
  Forall (fun x => x <= m) (take (S i) l) /\ Forall (fun x => m <= x) (drop i l).
Proof.
  intros Hs. revert i. induction Hs as [|x l Hl IH Hx]; intros [|i] Hi; [done|done| |].
  - injection Hi as ->. cbn. rewrite take_0. split; [by repeat constructor|]. by constructor.
  - cbn in Hi. destruct (IH _ Hi) as [H1 H2]. split; [|exact H2]. cbn. constructor; [|exact H1].
    rewrite Forall_forall in Hx. apply Hx. by eapply list_elem_of_lookup_2.
Qed.

Lemma filter_all {A} (P : A -> Prop) `{forall x, Decision (P x)} l : Forall P l -> filter P l = l.
Proof. induction 1; [done|]. rewrite filter_cons_True by done. by f_equal. Qed.

Lemma filter_length_sub {A} (P : A -> Prop) `{forall x, Decision (P x)} l1 l2 :
  Forall P l1 -> (length l1 <= length (filter P (l1 ++ l2)))%nat.
Proof. intros. rewrite filter_app, length_app, filter_all by done. lia. Qed.

(** At least half of the prices are on each side of the median. *)
Lemma median_spec l m : median_of l = Ok m ->
  m ∈ l /\ (length l <= 2 * length (at_most m l))%nat /\ (length l <= 2 * length (at_least m l))%nat.
Proof.
  unfold median_of. intros H. destruct (sorted_copy_spec l) as [Hs Hp].
  apply rbind_Ok in H as (u & Hn%require_Ok & Hm%of_option_Ok).
  apply negb_true_iff, Nat.eqb_neq in Hn. pose proof (Permutation_length Hp) as Hlen.
  set (s := sorted_copy l) in *. set (i := ((length s - 1) / 2)%nat) in *.
  assert (i * 2 <= length s - 1 < i * 2 + 2)%nat as Hi.
  { unfold i. pose proof (Nat.div_mod_eq (length s - 1) 2).
    pose proof (Nat.mod_upper_bound (length s - 1) 2). lia. }
  destruct (sorted_split s i m Hs Hm) as [H1 H2]. pose proof (lookup_lt_Some _ _ _ Hm).
  split; [|split].
  - rewrite <- Hp. by eapply list_elem_of_lookup_2.
  - unfold at_most. rewrite <- Hp, <- (take_drop (S i) s).
    pose proof (filter_length_sub (fun x => x <= m) (take (S i) s) (drop (S i) s) H1).
    rewrite length_take in *. rewrite !take_drop in *. lia.
  - unfold at_least. rewrite <- Hp, <- (take_drop i s), Permutation_app_comm.
    pose proof (filter_length_sub (fun x => m <= x) (drop i s) (take i s) H2).
    rewrite length_drop in *. rewrite length_app, length_take, length_drop. lia.
Qed.

Lemma median_total l : l <> [] -> exists m, median_of l = Ok m.
Proof.
  intros Hl. destruct (sorted_copy_spec l) as [_ Hp]. unfold median_of.
  assert (length (sorted_copy l) <> 0%nat) as Hn.
  { rewrite Hp. by destruct l. }
  destruct (Nat.eqb_spec (length (sorted_copy l)) 0); [done|]. cbn [negb require rbind].
  destruct (lookup_lt_is_Some_2 (sorted_copy l) ((length (sorted_copy l) - 1) / 2)) as [m Hm].
  - pose proof (Nat.Div0.div_le_mono (length (sorted_copy l) - 1) (length (sorted_copy l) - 1) 2).
    pose proof (Nat.Div0.div_le_upper_bound (length (sorted_copy l) - 1) 2 (length (sorted_copy l) - 1)). lia.
  - exists m. by rewrite Hm.
Qed.

End XoxnoSort.

(** ** Indexes as sets *)

Module XoxnoIndex.

Section IndexSet.

Context {K : Type} `{Countable K}.

(** Slots and reverse lookup are inverse, and the slots in use are the first [count]. *)
Record index_ok (ix : Index K) : Prop := {
  io_count : 0 <= ix_count ix <= u32_max;
  io_inverse : forall i k, ix_at ix !! i = Some k <-> ix_index ix !! k = Some i;
  io_slots : forall i, is_Some (ix_at ix !! i) <-> 0 <= i < ix_count ix
}.

(** The set the index stands for. *)
Definition members (ix : Index K) : gset K := dom (ix_index ix).

Lemma elem_members ix k : k ∈ members ix <-> index_contains ix k = true.
Proof.
  unfold members, index_contains. rewrite elem_of_dom.
  destruct (ix_index ix !! k); split; [done|by eauto|intros []; done|done].
Qed.

Lemma empty_index_ok : index_ok empty_index.
Proof.
  split; [split; zconst| |]; cbn; intros; [by rewrite !lookup_empty|].
  rewrite lookup_empty. split; [intros []; done|lia].
Qed.

Lemma index_insert_ok ix k ix' : index_ok ix -> index_contains ix k = false ->
  index_insert ix k = Ok ix' -> index_ok ix' /\ members ix' = {[k]} ∪ members ix.
Proof.
  intros [Hc Hi Hs] Hk Hins. unfold index_contains in Hk. unfold index_insert in Hins. ok_inv Hins. b2p.
  destruct (ix_index ix !! k) eqn:Hkk; [done|]. split.
  - split; cbn; [lia| |].
    + intros i j. rewrite !lookup_insert_Some. specialize (Hi i j).
      assert (ix_at ix !! ix_count ix = None) as Hn.
      { apply eq_None_not_Some. rewrite Hs. lia. }
      destruct (decide (k = j)) as [->|], (decide (ix_count ix = i)) as [<-|]; naive_solver congruence.
    + intros i. rewrite lookup_insert_is_Some, Hs. lia.
  - unfold members. cbn. by rewrite dom_insert_L.
Qed.

Lemma index_remove_ok ix k : index_ok ix ->
  exists ix', index_remove ix k = Ok ix' /\ index_ok ix' /\ members ix' = members ix ∖ {[k]}.
Proof.
  intros [Hc Hi Hs]. unfold index_remove. destruct (ix_index ix !! k) as [r|] eqn:Hk.
  2: { exists ix. split; [done|]. split; [done|]. apply set_eq. intros j. unfold members.
       rewrite elem_of_difference, elem_of_singleton, elem_of_dom. split; [|tauto].
       intros Hj. split; [done|]. intros ->. rewrite Hk in Hj. by destruct Hj. }
  pose proof (proj2 (Hi r k) Hk) as Hr. assert (0 <= r < ix_count ix) as Hrc by (rewrite <- Hs; eauto).
  destruct (Z.ltb_spec 0 (ix_count ix)); [|lia]. cbn [require rbind].
  destruct (Z.eqb_spec r (ix_count ix - 1)) as [->|Hne].
  - eexists. split; [reflexivity|]. split.
    + split; cbn; [lia| |].
      * intros i j. rewrite !lookup_delete_Some. specialize (Hi i j). pose proof Hk.
        destruct (decide (k = j)) as [->|], (decide (ix_count ix - 1 = i)) as [<-|];
          naive_solver congruence.
      * intros i. rewrite lookup_delete_is_Some, Hs. lia.
    + unfold members. cbn. by rewrite dom_delete_L.
  - destruct (proj2 (Hs (ix_count ix - 1))) as [m Hm]; [lia|]. rewrite Hm.
    pose proof (proj1 (Hi _ _) Hm) as Hmi.
    assert (m <> k) as Hmk by (intros ->; congruence).
    eexists. split; [reflexivity|]. split.
    + split; cbn; [lia| |].
      * intros i j. rewrite lookup_delete_Some, !lookup_insert_Some, lookup_delete_Some.
        pose proof (Hi i j) as Hij. pose proof (Hi r j). pose proof (Hi i k). pose proof (Hi i m).
        destruct (decide (m = j)) as [->|], (decide (k = j)) as [->|], (decide (r = i)) as [->|],
          (decide (ix_count ix - 1 = i)) as [<-|]; naive_solver congruence.
      * intros i. rewrite lookup_delete_is_Some, lookup_insert_is_Some, Hs. lia.
    + unfold members. cbn. rewrite dom_insert_L, dom_delete_L. apply set_eq. intros j.
      assert (m ∈ (dom (ix_index ix) : gset K)) by (rewrite elem_of_dom; eauto). set_solver.
Qed.

(** The listing enumerates the set without repetition. *)
Lemma index_list_spec ix : index_ok ix ->
  NoDup (index_list ix) /\ forall k, k ∈ index_list ix <-> k ∈ members ix.
Proof.
  intros [Hc Hi Hs]. unfold index_list. split.
  - assert (forall l : list nat, NoDup l -> NoDup (omap (fun i => ix_at ix !! Z.of_nat i) l)) as Hgen.
    { induction 1 as [|i l Hni Hl IH]; cbn; [constructor|].
      destruct (ix_at ix !! Z.of_nat i) as [k|] eqn:Hk; [|done]. constructor; [|done].
      rewrite list_elem_of_omap. intros (j & Hj & Hjk). apply Hni.
      apply Hi in Hk. apply Hi in Hjk. assert (Z.of_nat i = Z.of_nat j) by congruence.
      by replace i with j by lia. }
    apply Hgen, NoDup_seq.
  - intros k. rewrite list_elem_of_omap. unfold members. rewrite elem_of_dom. split.
    + intros (i & _ & Hk). apply Hi in Hk. eauto.
    + intros [i Hk]. apply Hi in Hk. assert (0 <= i < ix_count ix) by (rewrite <- Hs; eauto).
      exists (Z.to_nat i). rewrite elem_of_seq, Z2Nat.id by lia. split; [lia|done].
Qed.

End IndexSet.

End XoxnoIndex.

(** ** What each call of the XOXNO oracle does

    A recompute either misses its quorum or stores the median of the votes of current
    signers; [xo_inv] is the invariant of the contract's storage, and every call keeps it. *)

Module XoxnoVotes.

Import Aggregation Observation XoxnoSort.

(** ** Votes *)

Abbreviation Vote := (Address * SignerSubmission)%type.

Definition fresh_vote (env : Env) (o : XoxnoOracle) (feed : string) (signer : Address) : option Vote :=
  match load_submission o feed signer with
  | Some s =>
      if load_max_submission_age o
         <? u64_saturating_sub (ledger_timestamp env) (sub_package_timestamp s / MS_PER_SECOND)
      then None else Some (signer, s)
  | None => None
  end.

Definition fresh_votes (env : Env) (o : XoxnoOracle) (feed : string) : list Vote :=
  omap (fresh_vote env o feed) (load_signers o).

Definition newest_vote (env : Env) (o : XoxnoOracle) (feed : string) : Z :=
  Z.min (foldr Z.max 0 ((fun v : Vote => sub_package_timestamp v.2) <$> fresh_votes env o feed))
    (Z.min (ledger_timestamp env * MS_PER_SECOND) u64_max).

(** The fresh submissions within the skew window of the newest one. *)
Definition votes (env : Env) (o : XoxnoOracle) (feed : string) : list Vote :=
  filter (fun v : Vote => u64_saturating_sub (newest_vote env o feed) (sub_package_timestamp v.2)
                <= Z.min (load_max_relative_skew o * MS_PER_SECOND) u64_max)
    (fresh_votes env o feed).

Definition vote_prices (l : list Vote) : list Z := (fun v : Vote => sub_price v.2) <$> l.

Lemma kept_eq env o feed : kept_submissions env o feed =
  (snd <$> fresh_votes env o feed,
   foldr Z.max 0 ((fun v : Vote => sub_package_timestamp v.2) <$> fresh_votes env o feed)).
Proof.
  unfold kept_submissions, fresh_votes.
  assert (forall l acc n, 0 <= n ->
    fold_left (fun (acc : list SignerSubmission * Z) signer =>
      match load_submission o feed signer with
      | None => acc
      | Some s =>
          if load_max_submission_age o
             <? u64_saturating_sub (ledger_timestamp env) (sub_package_timestamp s / MS_PER_SECOND)
          then acc
          else (acc.1 ++ [s], Z.max acc.2 (sub_package_timestamp s))
      end) l (acc, n)
    = (acc ++ (snd <$> omap (fresh_vote env o feed) l),
       Z.max n (foldr Z.max 0
         ((fun v : Vote => sub_package_timestamp v.2) <$> omap (fresh_vote env o feed) l)))) as Hgen.
  { induction l as [|a l IH]; intros acc n Hn; cbn [fold_left].
    - cbn. rewrite app_nil_r. f_equal. lia.
    - cbn [omap list_omap]. destruct (fresh_vote env o feed a) as [v|] eqn:Hv; unfold fresh_vote in Hv;
        destruct (load_submission o feed a) as [s|]; try destruct (_ <? _); try done; try by apply IH.
      injection Hv as <-. rewrite IH by (cbn; lia). cbn. rewrite <- app_assoc. f_equal. lia. }
  rewrite Hgen by lia. cbn. f_equal.
  apply Z.max_r. induction (_ <$> _); cbn; lia.
Qed.

(** ** The cluster *)

Lemma clustered_spec newest skew kept :
  let sel := filter (fun s => u64_saturating_sub newest (sub_package_timestamp s) <= skew) kept in
  let c := clustered newest skew kept in
  cl_prices c = sub_price <$> sel
  /\ (forall s, s ∈ sel -> cl_oldest c <= sub_package_timestamp s)
  /\ (forall s, s ∈ sel -> cl_lowest c <= sub_price s <= cl_highest c)
  /\ (cl_oldest c = u64_max \/ cl_oldest c <= u64_max /\ cl_oldest c ∈ (sub_package_timestamp <$> sel)).
Proof.
  cbn zeta. unfold clustered.
  assert (forall l c0 done,
    cl_prices c0 = sub_price <$> done ->
    (forall s, s ∈ done -> cl_oldest c0 <= sub_package_timestamp s) ->
    (forall s, s ∈ done -> cl_lowest c0 <= sub_price s <= cl_highest c0) ->
    (cl_oldest c0 = u64_max \/ cl_oldest c0 <= u64_max /\ cl_oldest c0 ∈ (sub_package_timestamp <$> done)) ->
    let c := fold_left (fun c s =>
      let ts := sub_package_timestamp s in
      if skew <? u64_saturating_sub newest ts then c
      else mkCluster (cl_prices c ++ [sub_price s]) (Z.min (cl_oldest c) ts)
             (Z.min (cl_lowest c) (sub_price s)) (Z.max (cl_highest c) (sub_price s))) l c0 in
    let sel := done ++ filter (fun s => u64_saturating_sub newest (sub_package_timestamp s) <= skew) l in
    cl_prices c = sub_price <$> sel
    /\ (forall s, s ∈ sel -> cl_oldest c <= sub_package_timestamp s)
    /\ (forall s, s ∈ sel -> cl_lowest c <= sub_price s <= cl_highest c)
    /\ (cl_oldest c = u64_max \/ cl_oldest c <= u64_max /\ cl_oldest c ∈ (sub_package_timestamp <$> sel)))
    as Hgen.
  { induction l as [|s l IH]; intros c0 done H1 H2 H3 H4; cbn zeta.
    - cbn [fold_left]. rewrite filter_nil, app_nil_r. auto.
    - cbn [fold_left]. cbn zeta. destruct (skew <? _) eqn:Hs; b2p.
      + rewrite filter_cons_False by lia. by apply IH.
      + rewrite filter_cons_True by lia. rewrite (cons_middle s done), app_assoc. apply IH; cbn.
        * by rewrite H1, fmap_app.
        * intros x. rewrite elem_of_app, list_elem_of_singleton. intros [Hx| ->]; [specialize (H2 _ Hx)|]; lia.
        * intros x. rewrite elem_of_app, list_elem_of_singleton. intros [Hx| ->]; [specialize (H3 _ Hx)|]; lia.
        * rewrite fmap_app, elem_of_app. cbn. rewrite list_elem_of_singleton.
          destruct (Z.min_spec (cl_oldest c0) (sub_package_timestamp s)) as [[? ->]|[? ->]];
            [destruct H4 as [->|[? ?]]; [by left|right; tauto]|].
          destruct (decide (sub_package_timestamp s = u64_max)); [by left|right]. split; [|by right].
          destruct H4 as [H4|[? ?]]; lia. }
  apply (Hgen kept (mkCluster [] u64_max i128_max i128_min) []); cbn; [done| | |by left];
    intros s Hs; by apply elem_of_nil in Hs.
Qed.

Lemma filter_snd (P : SignerSubmission -> Prop) `{forall s, Decision (P s)} (l : list Vote) :
  filter P (snd <$> l) = snd <$> filter (fun v => P v.2) l.
Proof.
  induction l as [|v l IH]; [done|]. rewrite fmap_cons, !filter_cons. cbn.
  destruct (decide (P v.2)); by rewrite IH.
Qed.

Lemma cluster_spec env o feed :
  let c := cluster_of env o (kept_submissions env o feed) in
  cl_prices c = vote_prices (votes env o feed)
  /\ (forall v, v ∈ votes env o feed -> cl_oldest c <= sub_package_timestamp v.2)
  /\ (forall v, v ∈ votes env o feed -> cl_lowest c <= sub_price v.2 <= cl_highest c)
  /\ (cl_oldest c = u64_max \/ cl_oldest c <= u64_max
      /\ exists v, v ∈ votes env o feed /\ cl_oldest c = sub_package_timestamp v.2).
Proof.
  cbn zeta. unfold cluster_of. rewrite kept_eq. cbn [fst snd].
  fold (newest_vote env o feed).
  pose proof (clustered_spec (newest_vote env o feed)
    (Z.min (load_max_relative_skew o * MS_PER_SECOND) u64_max) (snd <$> fresh_votes env o feed)) as Hc.
  cbn zeta in Hc. rewrite filter_snd in Hc. fold (votes env o feed) in Hc.
  destruct Hc as (H1 & H2 & H3 & H4). split; [|split; [|split]].
  - rewrite H1. unfold vote_prices. by rewrite <- list_fmap_compose.
  - intros v Hv. apply H2. by apply list_elem_of_fmap_2.
  - intros v Hv. apply H3. by apply list_elem_of_fmap_2.
  - destruct H4 as [|[? Hin]]; [by left|right]. split; [done|].
    rewrite <- list_fmap_compose in Hin. apply list_elem_of_fmap in Hin as (v & -> & Hv). by exists v.
Qed.

Lemma votes_sound env o feed s x : (s, x) ∈ votes env o feed ->
  s ∈ load_signers o /\ load_submission o feed s = Some x
  /\ u64_saturating_sub (ledger_timestamp env) (sub_package_timestamp x / MS_PER_SECOND)
     <= load_max_submission_age o.
Proof.
  unfold votes. rewrite list_elem_of_filter. intros [_ Hx]. unfold fresh_votes in Hx.
  apply list_elem_of_omap in Hx as (a & Ha & Hx). unfold fresh_vote in Hx.
  destruct (load_submission o feed a) as [y|] eqn:Hy; [|done]. destruct (_ <? _) eqn:Ht; [done|].
  injection Hx as <- <-. b2p. done.
Qed.

Lemma votes_signers env o feed : fst <$> votes env o feed `sublist_of` load_signers o.
Proof.
  transitivity (fst <$> fresh_votes env o feed).
  { apply fmap_sublist. apply sublist_filter. }
  unfold fresh_votes. induction (load_signers o) as [|a l IH]; [done|].
  cbn [omap list_omap]. destruct (fresh_vote env o feed a) as [v|] eqn:Hv; [|by constructor].
  unfold fresh_vote in Hv. destruct (load_submission o feed a); [|done]. destruct (_ <? _); [done|].
  injection Hv as <-. cbn. by constructor.
Qed.

(** ** Outcomes of a recompute *)

(** What a stored aggregate rests on. *)
Record quorum (env : Env) (o : XoxnoOracle) (feed : string) (agg : RedStonePriceData) : Prop := {
  q_size : load_threshold o <= Z.of_nat (length (votes env o feed));
  q_agree : spread_free_cluster o <= Z.of_nat (length (votes env o feed))
    \/ (forall v w : Vote, v ∈ votes env o feed -> w ∈ votes env o feed ->
         sub_price v.2 * BPS <= sub_price w.2 * (BPS + load_max_cluster_spread_bps o));
  q_median : median_of (vote_prices (votes env o feed)) = Ok (rs_price agg);
  q_package : forall v : Vote, v ∈ votes env o feed -> rs_package_timestamp agg <= sub_package_timestamp v.2;
  q_oldest : rs_package_timestamp agg = u64_max \/ rs_package_timestamp agg <= u64_max
    /\ exists v : Vote, v ∈ votes env o feed /\ rs_package_timestamp agg = sub_package_timestamp v.2;
  q_write : rs_write_timestamp agg = ledger_timestamp env * MS_PER_SECOND
    /\ ledger_timestamp env * MS_PER_SECOND <= u64_max
}.

Definition stored (o : XoxnoOracle) (feed : string) (agg : RedStonePriceData) : XoxnoOracle :=
  push_history (store_aggregate o feed agg) feed agg.

Lemma within_spread_le lo hi x y bps : 0 <= bps -> within_spread lo hi bps = true ->
  lo <= x -> y <= hi -> y * BPS <= x * (BPS + bps).
Proof.
  intros Hb Hw Hx Hy. unfold within_spread, i128_checked_mul in Hw.
  destruct (i128_checked (hi * BPS)) eqn:H1; [|done]. destruct (i128_checked (lo * _)) eqn:H2; [|done].
  apply i128_checked_Some in H1 as [-> _]. apply i128_checked_Some in H2 as [-> _]. b2p.
  assert (0 < BPS) by zconst. nia.
Qed.

Lemma recompute_cases env o feed m o' : 0 <= load_max_cluster_spread_bps o ->
  recompute_aggregate env o feed m = Ok o' ->
  o' = apply_quorum_miss o feed m \/ exists agg, quorum env o feed agg /\ o' = stored o feed agg.
Proof.
  intros Hb H. unfold recompute_aggregate in H. destruct (cluster_spec env o feed) as (Hp & Hold & Hlh & Hat).
  set (c := cluster_of env o (kept_submissions env o feed)) in *.
  destruct (_ <? load_threshold o); [left; congruence|]. cbn zeta in H.
  assert (length (cl_prices c) = length (votes env o feed)) as Hlen.
  { rewrite Hp. apply length_fmap. }
  rewrite Hlen in H. destruct (_ <? load_threshold o) eqn:Hsize; [left; congruence|].
  destruct (_ && _) eqn:Hspread; [left; congruence|]. right. b2p.
  apply rbind_Ok in H as (med & Hm & H). apply rbind_Ok in H as (u & Hw%require_Ok & H). b2p.
  injection H as <-. eexists. split; [|reflexivity]. rewrite Hp in Hm. split; cbn; [done| |done|done|done|done].
  apply andb_false_iff in Hspread as [Hs|Hs]; b2p; [by left|right].
  intros v w Hv Hw'. destruct (Hlh _ Hv). destruct (Hlh _ Hw'). by eapply within_spread_le.
Qed.

(** With a positive threshold a recompute never fails before the year 584 million. *)
Lemma recompute_total env o feed m : 0 < load_threshold o ->
  ledger_timestamp env * MS_PER_SECOND <= u64_max ->
  exists o', recompute_aggregate env o feed m = Ok o'.
Proof.
  intros Ht Hn. unfold recompute_aggregate. destruct (_ <? _); [eauto|]. cbn zeta.
  destruct (_ <? load_threshold o) eqn:Hsize; [eauto|]. destruct (_ && _); [eauto|]. b2p.
  destruct (median_total (cl_prices (cluster_of env o (kept_submissions env o feed)))) as [x ->].
  { intros He. rewrite He in Hsize. cbn in Hsize. lia. }
  cbn. destruct (Z.leb_spec (ledger_timestamp env * MS_PER_SECOND) u64_max); [cbn; eauto|lia].
Qed.

(** ** Faulty signers *)

Lemma outnumbered (F l : list Address) : NoDup l -> (length F < length l)%nat ->
  exists s, s ∈ l /\ s ∉ F.
Proof.
  intros Hl Hlen. destruct (decide (Forall (fun s => s ∈ F) l)) as [HF|HF].
  - exfalso. rewrite Forall_forall in HF.
    pose proof (submseteq_length _ _ (NoDup_submseteq l F Hl HF)). lia.
  - apply not_Forall_Exists in HF; [|apply _]. by apply Exists_exists in HF.
Qed.

Lemma filter_prices (P : Z -> Prop) `{forall x, Decision (P x)} (l : list Vote) :
  length (filter P (vote_prices l)) = length (filter (fun v : Vote => P (sub_price v.2)) l).
Proof.
  unfold vote_prices. induction l as [|v l IH]; [done|]. rewrite fmap_cons, !filter_cons.
  destruct (decide (P (sub_price v.2))); cbn; by rewrite IH.
Qed.

(** More than [F] votes on one side of a price hold an honest one. *)
Lemma honest_side (P : Z -> Prop) `{forall x, Decision (P x)} env o feed F : NoDup (load_signers o) ->
  (length F < length (filter P (vote_prices (votes env o feed))))%nat ->
  exists s x, (s, x) ∈ votes env o feed /\ s ∉ F /\ P (sub_price x).
Proof.
  intros Hnd Hlen. rewrite filter_prices in Hlen.
  destruct (outnumbered F (fst <$> filter (fun v : Vote => P (sub_price v.2)) (votes env o feed)))
    as (s & Hs & HF).
  - eapply sublist_NoDup; [exact Hnd|]. etransitivity; [|apply (votes_signers env o feed)].
    apply fmap_sublist, sublist_filter.
  - by rewrite length_fmap.
  - apply list_elem_of_fmap in Hs as ([s' x] & -> & Hx). apply list_elem_of_filter in Hx as [HP Hx].
    exists s', x. auto.
Qed.

(** A cluster past the spread-free size brackets its median with honest votes. *)
Lemma honest_bracket env o feed agg F : NoDup (load_signers o) ->
  2 * Z.of_nat (length (load_signers o)) < u32_max -> 0 < load_threshold o ->
  Z.of_nat (length F) <= Z.of_nat (length (load_signers o)) - load_threshold o ->
  quorum env o feed agg -> spread_free_cluster o <= Z.of_nat (length (votes env o feed)) ->
  (exists s x, (s, x) ∈ votes env o feed /\ s ∉ F /\ sub_price x <= rs_price agg)
  /\ (exists s x, (s, x) ∈ votes env o feed /\ s ∉ F /\ rs_price agg <= sub_price x).
Proof.
  intros Hnd Hn Ht HF Hq Hsize. destruct (median_spec _ _ (q_median _ _ _ _ Hq)) as (_ & Hle & Hge).
  unfold vote_prices in Hle at 1, Hge at 1. rewrite length_fmap in Hle, Hge.
  unfold spread_free_cluster in Hsize.
  assert (Z.min (Z.min (Z.max 0 (Z.of_nat (length (load_signers o)) - load_threshold o) * 2) u32_max + 1)
    u32_max = 2 * (Z.of_nat (length (load_signers o)) - load_threshold o) + 1) as Heq by lia.
  rewrite Heq in Hsize.
  split; [apply (honest_side (fun x => x <= rs_price agg))|apply (honest_side (fun x => rs_price agg <= x))];
    try done; unfold at_most, at_least in *; lia.
Qed.

End XoxnoVotes.
