(* ===== verification/XoxnoReach.v ===== *)
(** * The invariant of the XOXNO oracle and its reachable states

    [xo_inv] splits into settings, registry rows, signer rows and price rows.
    [XoxnoInv.]: each data call of the contract keeps all four.  [XoxnoReach.]:
    administration keeps them too, so the invariant holds after any sequence of calls
    from deployment, with a clock that never goes back. *)

From S2P Require Import Prelude Errors FpCore Fp PoolTypes PoolCache OracleMath AggState AggContract XoxnoStore XoxnoContract XoxnoSteps.
From stdpp Require Import base numbers list gmap strings sorting.
From Stdlib Require Import ZArith Lia Bool.

Open Scope Z_scope.

Module XoxnoInv.

Import Aggregation Observation XoxnoSort XoxnoIndex XoxnoVotes.

(** ** The four parts *)

Definition price_ok (p : Z) : Prop := 0 < p <= MAX_SUBMITTED_PRICE.
Definition submission_ok (x : SignerSubmission) : Prop :=
  price_ok (sub_price x) /\ 0 <= sub_package_timestamp x.
Definition aggregate_ok (a : RedStonePriceData) : Prop :=
  price_ok (rs_price a) /\ 0 <= rs_package_timestamp a <= u64_max /\ 0 <= rs_write_timestamp a <= u64_max.

Record settings_inv (o : XoxnoOracle) : Prop := {
  si_nodup : NoDup (xo_signers o);
  si_threshold : 1 <= xo_threshold o <= Z.of_nat (length (xo_signers o));
  si_age : MIN_SUBMISSION_AGE_SECONDS <= load_max_submission_age o <= load_max_stale_seconds o;
  si_skew : MAX_FUTURE_SKEW_SECONDS < load_max_relative_skew o;
  si_spread : 0 < load_max_cluster_spread_bps o <= BPS
}.

Record rows_inv (o : XoxnoOracle) : Prop := {
  ro_feeds : index_ok (xo_feeds o);
  ro_assets : index_ok (xo_assets o);
  ro_owner : forall a f, xo_feed_mapping o !! a = Some f <-> xo_feed_owner o !! f = Some a;
  ro_listed : members (xo_assets o) = dom (xo_feed_mapping o);
  ro_known : forall f, is_Some (xo_feed_owner o !! f) -> f ∈ members (xo_feeds o)
}.

Record signers_inv (o : XoxnoOracle) : Prop := {
  sg_rows : forall f s, is_Some (xo_submissions o !! (f, s)) -> f ∈ load_signer_feeds o s;
  sg_current : forall s, is_Some (xo_signer_feeds o !! s) -> s ∈ xo_signers o;
  sg_known : forall s f, f ∈ load_signer_feeds o s -> f ∈ members (xo_feeds o)
}.

(** A history: at most twelve aggregates in the order they were written. *)
Record history_ok (now : Z) (h : list RedStonePriceData) : Prop := {
  hi_nonempty : h <> [];
  hi_bounded : Z.of_nat (length h) <= MAX_HISTORY_LEN;
  hi_prices : Forall aggregate_ok h;
  hi_past : Forall (fun a => rs_write_timestamp a <= now * MS_PER_SECOND) h;
  hi_order : StronglySorted (fun a b => rs_write_timestamp a <= rs_write_timestamp b) h
}.

Record prices_inv (now : Z) (o : XoxnoOracle) : Prop := {
  pr_submissions : forall k x, xo_submissions o !! k = Some x -> submission_ok x;
  pr_aggregates : forall f a, xo_aggregates o !! f = Some a ->
    exists h, xo_histories o !! f = Some h /\ last h = Some a;
  pr_histories : forall f h, xo_histories o !! f = Some h -> f ∈ members (xo_feeds o) /\ history_ok now h
}.

Record xo_inv (now : Z) (o : XoxnoOracle) : Prop := {
  xi_settings : settings_inv o;
  xi_rows : rows_inv o;
  xi_signers : signers_inv o;
  xi_prices : prices_inv now o
}.

(** ** Everything but the price rows *)

Definition unpriced (o : XoxnoOracle) : XoxnoOracle := with_prices o ∅ ∅ ∅.

Lemma base_settings o o' : unpriced o' = unpriced o -> settings_inv o -> settings_inv o'.
Proof. destruct o, o'. intros Hb []. injection Hb; intros; subst. split; assumption. Qed.

Lemma base_rows o o' : unpriced o' = unpriced o -> rows_inv o -> rows_inv o'.
Proof. destruct o, o'. intros Hb []. injection Hb; intros; subst. split; assumption. Qed.

Lemma history_mono now now' h : now <= now' -> history_ok now h -> history_ok now' h.
Proof.
  intros Hn []. split; try done. eapply Forall_impl; [done|]. cbn. intros a Ha.
  assert (0 < MS_PER_SECOND) by zconst. nia.
Qed.

Lemma prices_mono now now' o : now <= now' -> prices_inv now o -> prices_inv now' o.
Proof.
  intros Hn [H1 H2 H3]. split; [done|done|]. intros f h Hf. destruct (H3 f h Hf).
  split; [done|by eapply history_mono].
Qed.

(** ** Recomputing *)

Lemma last_snoc' {A} (l : list A) x : last (l ++ [x]) = Some x.
Proof. apply last_snoc. Qed.

Lemma replace_last {A} (l : list A) x y : <[(length (l ++ [x]) - 1)%nat := y]> (l ++ [x]) = l ++ [y].
Proof.
  rewrite length_app. cbn. rewrite Nat.add_sub. rewrite insert_app_r_alt by done. by rewrite Nat.sub_diag.
Qed.

Lemma sorted_snoc {A} (R : A -> A -> Prop) l x :
  StronglySorted R l -> Forall (fun y => R y x) l -> StronglySorted R (l ++ [x]).
Proof.
  induction 1 as [|y l Hl IH Hy]; cbn; intros HF; [by repeat constructor|].
  inversion_clear HF. constructor; [by apply IH|]. apply Forall_app. split; [done|by repeat constructor].
Qed.

Lemma sorted_unsnoc {A} (R : A -> A -> Prop) l x : StronglySorted R (l ++ [x]) -> StronglySorted R l.
Proof.
  induction l as [|y l IH]; [constructor|]. cbn. intros H. inversion_clear H. constructor; [by apply IH|].
  by apply Forall_app in H1 as [? _].
Qed.

(** The history after a write: a sublist of the old one, then the new aggregate. *)
Lemma push_history_shape o feed a :
  exists l, xo_histories (push_history o feed a) = <[feed := l ++ [a]]> (xo_histories o)
    /\ l `sublist_of` default [] (xo_histories o !! feed)
    /\ Z.of_nat (length l) + 1 <= Z.max MAX_HISTORY_LEN (Z.of_nat (length (default [] (xo_histories o !! feed)))).
Proof.
  unfold push_history, load_history. set (h := default [] (xo_histories o !! feed)). cbn.
  assert (MAX_HISTORY_LEN = 12) as HM by done.
  destruct h as [|x h0 _] eqn:Hh using rev_ind.
  { exists []. cbn. split; [done|]. split; [done|]. lia. }
  rewrite last_snoc'. destruct (_ <? _).
  - exists h0. rewrite replace_last. split; [done|]. split; [apply sublist_inserts_r; done|].
    rewrite length_app. cbn. lia.
  - destruct (_ <=? _) eqn:Hl; b2p.
    + exists (tail (h0 ++ [x])). split; [done|]. split.
      * destruct (h0 ++ [x]); [done|]. cbn. by constructor.
      * destruct h0; cbn in *; lia.
    + exists (h0 ++ [x]). split; [done|]. split; [done|]. lia.
Qed.

Lemma Forall_sublist {A} (P : A -> Prop) l k : k `sublist_of` l -> Forall P l -> Forall P k.
Proof. induction 1; intros HF; [done| |]; inversion_clear HF; auto. Qed.

Lemma sorted_sublist {A} (R : A -> A -> Prop) l k : k `sublist_of` l -> StronglySorted R l -> StronglySorted R k.
Proof.
  induction 1 as [|x k l Hkl IH|x k l Hkl IH]; intros H; [constructor| |]; inversion_clear H.
  - constructor; [by apply IH|]. by eapply Forall_sublist.
  - by apply IH.
Qed.

Lemma push_history_ok now o feed a h' : (forall h, xo_histories o !! feed = Some h -> history_ok now h) ->
  aggregate_ok a -> rs_write_timestamp a = now * MS_PER_SECOND ->
  xo_histories (push_history o feed a) !! feed = Some h' -> history_ok now h' /\ last h' = Some a.
Proof.
  intros Hh Hp Hw H. destruct (push_history_shape o feed a) as (l & Heq & Hsub & Hlen).
  rewrite Heq, lookup_insert in H. rewrite decide_True in H by done. injection H as <-.
  split; [|apply last_snoc].
  assert (Z.of_nat (length (default [] (xo_histories o !! feed))) <= MAX_HISTORY_LEN
    /\ Forall aggregate_ok (default [] (xo_histories o !! feed))
    /\ Forall (fun a => rs_write_timestamp a <= now * MS_PER_SECOND) (default [] (xo_histories o !! feed))
    /\ StronglySorted (fun a b => rs_write_timestamp a <= rs_write_timestamp b)
         (default [] (xo_histories o !! feed))) as (H1 & H2 & H3 & H4).
  { destruct (xo_histories o !! feed) as [h|]; [destruct (Hh h); done|]. cbn. split; [zconst|]. repeat constructor. }
  split.
  - by destruct l.
  - rewrite length_app. cbn. lia.
  - apply Forall_app. split; [by eapply Forall_sublist|by apply Forall_singleton].
  - apply Forall_app. split; [by eapply Forall_sublist|]. apply Forall_singleton. lia.
  - apply sorted_snoc; [by eapply sorted_sublist|]. rewrite Hw. by eapply Forall_sublist.
Qed.

(** A recompute changes the aggregate and the history of its feed only. *)
Record only_feed (feed : string) (o o' : XoxnoOracle) : Prop := {
  of_base : unpriced o' = unpriced o;
  of_subs : xo_submissions o' = xo_submissions o;
  of_aggs : forall f, f <> feed -> xo_aggregates o' !! f = xo_aggregates o !! f;
  of_hist : forall f, f <> feed -> xo_histories o' !! f = xo_histories o !! f
}.

Lemma apply_quorum_miss_only o feed m : only_feed feed o (apply_quorum_miss o feed m).
Proof.
  destruct m; [|by split]. split; cbn; [done|done| |done]. intros f Hf. by rewrite lookup_delete_ne.
Qed.

Lemma stored_only o feed agg : only_feed feed o (stored o feed agg).
Proof. split; cbn; [done|done| |]; intros f Hf; by rewrite lookup_insert_ne. Qed.

Lemma recompute_only env o feed m o' : 0 <= load_max_cluster_spread_bps o ->
  recompute_aggregate env o feed m = Ok o' -> only_feed feed o o'.
Proof.
  intros Hb H. apply recompute_cases in H as [-> | (agg & _ & ->)]; [| |done].
  - apply apply_quorum_miss_only.
  - apply stored_only.
Qed.

Lemma quorum_price env o feed agg : 0 <= ledger_timestamp env ->
  (forall k x, xo_submissions o !! k = Some x -> submission_ok x) ->
  quorum env o feed agg -> aggregate_ok agg.
Proof.
  intros Hn Hs Hq. destruct (median_spec _ _ (q_median _ _ _ _ Hq)) as (Hin & _).
  unfold vote_prices in Hin. apply list_elem_of_fmap in Hin as ([s x] & Hp & Hx).
  apply votes_sound in Hx as (_ & Hx & _). apply Hs in Hx as [Hx _]. split; [by rewrite Hp|].
  destruct (q_write _ _ _ _ Hq) as [-> ?]. split; [|unfold MS_PER_SECOND in *; lia].
  destruct (q_oldest _ _ _ _ Hq) as [->|[Hle ([s' y] & Hy & Heq)]]; [split; zconst|].
  split; [|done]. apply votes_sound in Hy as (_ & Hy & _). apply Hs in Hy as [_ Hy]. by rewrite Heq.
Qed.

Lemma stored_prices_inv env o feed agg : 0 <= ledger_timestamp env -> feed ∈ members (xo_feeds o) ->
  quorum env o feed agg -> prices_inv (ledger_timestamp env) o ->
  prices_inv (ledger_timestamp env) (stored o feed agg).
Proof.
  intros Hn Hk Hq [H1 H2 H3]. destruct (stored_only o feed agg) as [_ Hs Ha Hh].
  assert (forall h', xo_histories (stored o feed agg) !! feed = Some h' ->
    history_ok (ledger_timestamp env) h' /\ last h' = Some agg) as Hnew.
  { intros h' Hh'. eapply push_history_ok; [|by eapply quorum_price|apply Hq|exact Hh'].
    intros h Hf. by apply (H3 feed). }
  split.
  - rewrite Hs. exact H1.
  - intros f a. destruct (decide (f = feed)) as [->|Hne].
    + cbn [stored push_history store_history xo_aggregates with_prices store_aggregate].
      rewrite lookup_insert, decide_True by done. intros [= <-].
      destruct (push_history_shape (store_aggregate o feed agg) feed agg) as (l & Heq & _).
      assert (xo_histories (stored o feed agg) !! feed = Some (l ++ [agg])) as Hl.
      { unfold stored. by rewrite Heq, lookup_insert, decide_True. }
      destruct (Hnew _ Hl). eauto.
    + rewrite Ha, Hh by done. apply H2.
  - intros f h. destruct (decide (f = feed)) as [->|Hne].
    + intros Hf. split; [exact Hk|by apply Hnew].
    + rewrite Hh by done. apply H3.
Qed.

Lemma recompute_prices_inv env o feed m o' : 0 <= ledger_timestamp env -> settings_inv o -> feed ∈ members (xo_feeds o) ->
  recompute_aggregate env o feed m = Ok o' -> prices_inv (ledger_timestamp env) o ->
  prices_inv (ledger_timestamp env) o'.
Proof.
  intros Hn Hset Hk H Hp. apply recompute_cases in H as [->|(agg & Hq & ->)];
    [|by apply stored_prices_inv|pose proof (si_spread _ Hset); lia].
  destruct m; [|done]. destruct Hp as [H1 H2 H3]. split; [done| |done].
  intros f a. cbn. rewrite lookup_delete_Some. intros [_ Hf]. by apply H2.
Qed.

(** ** Submissions *)

Lemma base_signers o o' : unpriced o' = unpriced o ->
  (forall k, is_Some (xo_submissions o' !! k) -> is_Some (xo_submissions o !! k)) ->
  signers_inv o -> signers_inv o'.
Proof.
  destruct o, o'. intros Hb Hs []. injection Hb; intros; subst. split; [|assumption|assumption].
  intros f s Hk. by apply sg_rows0, Hs.
Qed.

Lemma recompute_keeps env now o feed m o' : 0 <= now -> now <= ledger_timestamp env ->
  feed ∈ members (xo_feeds o) -> recompute_aggregate env o feed m = Ok o' ->
  xo_inv now o -> xo_inv (ledger_timestamp env) o'.
Proof.
  intros H0 Hn Hk H [H1 H2 H3 H4]. pose proof (si_spread _ H1).
  destruct (recompute_only env o feed m o' ltac:(lia) H) as [Hb Hs _ _]. split.
  - by eapply base_settings.
  - by eapply base_rows.
  - eapply base_signers; [done| |done]. by rewrite Hs.
  - eapply recompute_prices_inv; [lia|done|done|done|]. by eapply prices_mono.
Qed.

Lemma recorded_feeds o signer feed s f :
  f ∈ load_signer_feeds (record_signer_feed o signer feed) s <->
  f ∈ load_signer_feeds o s \/ (s = signer /\ f = feed).
Proof.
  unfold record_signer_feed. destruct (bool_decide_reflect (feed ∈ load_signer_feeds o signer)) as [Hin|Hin].
  - split; [by left|]. by intros [|[-> ->]].
  - unfold load_signer_feeds at 1. cbn. destruct (decide (signer = s)) as [<-|Hne].
    + rewrite lookup_insert, decide_True by done. cbn. rewrite elem_of_app, list_elem_of_singleton. naive_solver.
    + rewrite lookup_insert_ne by done. naive_solver.
Qed.

Lemma record_frame o signer feed : exists sf, record_signer_feed o signer feed = set_signer_feeds o sf
  /\ forall s, is_Some (sf !! s) -> is_Some (xo_signer_feeds o !! s) \/ s = signer.
Proof.
  unfold record_signer_feed. destruct (bool_decide _).
  - exists (xo_signer_feeds o). split; [by destruct o|by left].
  - eexists. split; [done|]. intros s. rewrite lookup_insert_is_Some. naive_solver.
Qed.

Lemma store_submission_keeps now o feed signer p ts : signer ∈ xo_signers o ->
  feed ∈ members (xo_feeds o) -> price_ok p -> 0 <= ts -> xo_inv now o ->
  xo_inv now (store_submission o feed signer p ts).
Proof.
  intros Hs Hk Hp Hts [H1 H2 [Ha Hb Hc] [Hd He Hf]]. unfold store_submission.
  pose proof (recorded_feeds o signer feed) as Hrec.
  destruct (record_frame o signer feed) as (sf & Heq & Hsf). rewrite Heq in *. split.
  - destruct H1. by split.
  - destruct H2. by split.
  - split.
    + intros f s. cbn. rewrite lookup_insert_is_Some'. intros [[= -> ->]|Hx]; apply Hrec; [by right|].
      left. by apply Ha.
    + intros s Hx. cbn. destruct (Hsf s Hx) as [| ->]; [by apply Hb|done].
    + intros s f Hx. apply Hrec in Hx as [Hx|[-> ->]]; [by eapply Hc|done].
  - split; [|done|done]. intros k x. cbn. rewrite lookup_insert_Some. intros [[<- <-]|[_ Hx]]; [done|].
    by eapply Hd.
Qed.

Lemma known_members o feed u : require_known_feed o feed = Ok u -> feed ∈ members (xo_feeds o).
Proof. unfold require_known_feed. intros H%require_Ok. by apply elem_members. Qed.

Lemma registered_elem o s u : require_registered_signer o s = Ok u -> s ∈ xo_signers o.
Proof. unfold require_registered_signer. intros H%require_Ok. by apply bool_decide_eq_true in H. Qed.

Lemma validate_price_ok p u : Submit.validate_price p = Ok u -> price_ok p.
Proof. unfold Submit.validate_price. intros H. ok_inv H. b2p. done. Qed.

Lemma stored_base o feed signer p ts o' feed' : only_feed feed' (store_submission o feed signer p ts) o' ->
  xo_signers o' = xo_signers o /\ xo_feeds o' = xo_feeds o.
Proof.
  intros [Hb _ _ _]. destruct (record_frame o signer feed) as (sf & Heq & _).
  unfold store_submission in Hb. rewrite Heq in Hb. destruct o, o'. injection Hb; intros; subst. done.
Qed.

Lemma submit_step env now o feed signer p ts o' : 0 <= now -> now <= ledger_timestamp env ->
  signer ∈ xo_signers o -> feed ∈ members (xo_feeds o) -> price_ok p -> 0 <= ts -> xo_inv now o ->
  recompute_aggregate env (store_submission o feed signer p ts) feed Retain = Ok o' ->
  xo_inv (ledger_timestamp env) o' /\ xo_signers o' = xo_signers o /\ xo_feeds o' = xo_feeds o.
Proof.
  intros H0 Hn Hs Hk Hp Hts Hinv H. pose proof (store_submission_keeps now o feed signer p ts Hs Hk Hp Hts Hinv) as Hi.
  destruct (record_frame o signer feed) as (sf & Heq & _). split.
  - eapply (recompute_keeps _ _ _ feed); [exact H0|exact Hn| |exact H|exact Hi]. unfold store_submission. by rewrite Heq.
  - eapply stored_base, recompute_only; [|exact H]. pose proof (si_spread _ (xi_settings _ _ Hi)). lia.
Qed.

Lemma submit_price_keeps env now o signer feed p ts o' : 0 <= now -> 0 <= ts -> now <= ledger_timestamp env ->
  Submit.submit_price env o signer feed p ts = Ok o' -> xo_inv now o -> xo_inv (ledger_timestamp env) o'.
Proof.
  intros H0 Hts Hn H Hi. unfold Submit.submit_price in H. apply rbind_Ok in H as (u & _ & H).
  apply rbind_Ok in H as (u1 & Hs%registered_elem & H). apply rbind_Ok in H as (u2 & Hk%known_members & H).
  apply rbind_Ok in H as (u3 & Hp%validate_price_ok & H). do 3 apply rbind_Ok in H as (? & _ & H).
  eapply (submit_step env now o feed signer p ts o'); eauto.
Qed.

Lemma rfold_units {E A} (f : A -> result E unit) l u :
  rfold (fun _ x => f x) tt l = Ok u -> Forall (fun x => f x = Ok tt) l.
Proof.
  induction l as [|x l IH]; cbn [rfold]; intros H; [constructor|].
  apply rbind_Ok in H as ([] & Hx & H). constructor; auto.
Qed.

Lemma submit_prices_keeps env now o signer fs ps ts o' : 0 <= now -> 0 <= ts -> now <= ledger_timestamp env ->
  Submit.submit_prices env o signer fs ps ts = Ok o' -> xo_inv now o -> xo_inv (ledger_timestamp env) o'.
Proof.
  intros H0 Hts Hn H Hi. unfold Submit.submit_prices in H. apply rbind_Ok in H as (u & _ & H).
  apply rbind_Ok in H as (u1 & Hs%registered_elem & H). do 3 apply rbind_Ok in H as (? & _ & H).
  apply rbind_Ok in H as (u2 & Hk%rfold_units & H). apply rbind_Ok in H as (u3 & Hp%rfold_units & H).
  assert (xo_inv (ledger_timestamp env) o) as Hi'.
  { destruct Hi. split; try done. by eapply prices_mono. }
  assert (xo_inv (ledger_timestamp env) o' /\ xo_signers o' = xo_signers o /\ xo_feeds o' = xo_feeds o)
    as [? _]; [|done].
  eapply (rfold_inv (fun x => xo_inv (ledger_timestamp env) x /\ xo_signers x = xo_signers o
    /\ xo_feeds x = xo_feeds o)); [| |exact H]; [|done].
  intros a [f p] a' Hin (Ha & Has & Haf) Hstep. cbn [fst snd] in Hstep.
  rewrite Forall_forall in Hk. rewrite Forall_forall in Hp. apply list_elem_of_In in Hin.
  assert (f ∈ fs /\ p ∈ ps) as [Hf Hpp].
  { split; [by eapply elem_of_zip_l|by eapply elem_of_zip_r]. }
  apply Hk, rbind_Ok in Hf as (? & Hf%known_members & _). apply Hp, validate_price_ok in Hpp.
  destruct (submit_step env (ledger_timestamp env) a f signer p ts a') as (? & ? & ?);
    [lia|lia|congruence|congruence|done|done|done|done|]. split; [done|]. split; congruence.
Qed.

End XoxnoInv.

Module XoxnoReach.

Import Aggregation Observation XoxnoSort XoxnoIndex XoxnoVotes XoxnoInv XoxnoAdmin.

(** ** Removing a signer *)

Lemma remove_first_spec l s l' : remove_first l s = Some l' ->
  exists l1 l2, l = l1 ++ s :: l2 /\ l' = l1 ++ l2.
Proof.
  revert l'. induction l as [|x l IH]; cbn; [done|]. intros l'.
  destruct (bool_decide_reflect (x = s)) as [->|].
  - intros [= <-]. by exists [], l.
  - destruct (remove_first l s) as [r|]; [|done]. cbn. intros [= <-].
    destruct (IH r eq_refl) as (l1 & l2 & -> & ->). by exists (x :: l1), l2.
Qed.

Lemma removed_signers l s l' : NoDup l -> remove_first l s = Some l' ->
  NoDup l' /\ length l = S (length l') /\ forall x, x ∈ l' <-> x ∈ l /\ x <> s.
Proof.
  intros Hl (l1 & l2 & -> & ->)%remove_first_spec. rewrite <- Permutation_middle in Hl.
  apply NoDup_cons in Hl as [Hs Hl]. split; [done|]. split; [rewrite !length_app; cbn; lia|].
  intros x. rewrite !elem_of_app, elem_of_cons. rewrite elem_of_app in Hs. naive_solver.
Qed.

Lemma drop_submission_prices now o feed s : prices_inv now o -> prices_inv now (remove_submission o feed s).
Proof.
  intros [H1 H2 H3]. split; [|done|done]. intros k x. cbn. rewrite lookup_delete_Some. intros [_ Hx]. by eapply H1.
Qed.

Lemma removal_loop env s l x x' : 0 <= ledger_timestamp env -> settings_inv x -> (forall f, f ∈ l -> f ∈ members (xo_feeds x)) ->
  prices_inv (ledger_timestamp env) x ->
  rfold (fun o feed => recompute_aggregate env (remove_submission o feed s) feed Clear) x l = Ok x' ->
  unpriced x' = unpriced x /\ prices_inv (ledger_timestamp env) x'
  /\ (forall f s', s' <> s \/ f ∉ l -> xo_submissions x' !! (f, s') = xo_submissions x !! (f, s'))
  /\ (forall f, f ∈ l -> xo_submissions x' !! (f, s) = None).
Proof.
  intros Hn. revert x. induction l as [|f l IH]; intros x Hset Hk Hp H; cbn [rfold] in H.
  - injection H as <-. split; [done|]. split; [done|]. split; [done|]. by intros f ?%elem_of_nil.
  - apply rbind_Ok in H as (y & Hy & H).
    assert (settings_inv (remove_submission x f s)) as Hset' by (by apply (base_settings x)).
    pose proof (si_spread _ Hset').
    destruct (recompute_only env (remove_submission x f s) f Clear y ltac:(lia) Hy) as [Hb Hs _ _].
    apply recompute_prices_inv in Hy; [|done|done|apply (Hk f), list_elem_of_here|by apply drop_submission_prices].
    assert (unpriced y = unpriced x) as Hbx by (rewrite Hb; done).
    assert (xo_feeds y = xo_feeds x) as Hfe by (by apply (f_equal xo_feeds) in Hbx).
    apply IH in H as (H1 & H2 & H3 & H4); [|by apply (base_settings x)| |done].
    2: { intros g Hg. rewrite Hfe. by apply Hk, list_elem_of_further. }
    assert (forall g s', xo_submissions y !! (g, s')
      = if decide (s' = s /\ g = f) then None else xo_submissions x !! (g, s')) as Hys.
    { intros g s'. rewrite Hs. cbn. destruct (decide (s' = s /\ g = f)) as [[-> ->]|Hne].
      - apply lookup_delete_eq.
      - apply lookup_delete_ne. naive_solver. }
    split; [congruence|]. split; [done|]. split.
    + intros g s' Hor. rewrite elem_of_cons in Hor. rewrite H3 by tauto. rewrite Hys.
      rewrite decide_False by tauto. done.
    + intros g. rewrite elem_of_cons. intros [->|Hg]; [|by apply H4].
      destruct (decide (f ∈ l)); [by apply H4|]. rewrite H3 by tauto. rewrite Hys.
      by rewrite decide_True.
Qed.

Lemma with_signers_settings o l : settings_inv o -> NoDup l ->
  1 <= xo_threshold o <= Z.of_nat (length l) -> settings_inv (store_signers o l).
Proof. intros [] H1 H2. by split. Qed.

Lemma remove_signer_keeps env now o s o' : 0 <= now -> now <= ledger_timestamp env ->
  remove_signer env o s = Ok o' -> xo_inv now o -> xo_inv (ledger_timestamp env) o'.
Proof.
  intros H0 Hn H [H1 H2 [Ha Hb Hc] H4]. unfold remove_signer in H. apply rbind_Ok in H as (u & _ & H).
  destruct (remove_first (load_signers o) s) as [l|] eqn:Hl; [|done].
  apply rbind_Ok in H as (u' & Ht%require_Ok & H). b2p. apply rbind_Ok in H as (x & Hx & H).
  injection H as <-.
  destruct (removed_signers _ _ _ (si_nodup _ H1) Hl) as (Hnd & Hlen & Hel).
  assert (settings_inv (store_signers o l)) as Hset.
  { apply with_signers_settings; [done|done|]. pose proof (si_threshold _ H1).
    unfold load_signers, load_threshold in *. lia. }
  apply removal_loop in Hx as (Hbase & Hpr & Hkeep & Hgone); [|lia|done|intros f Hf; by eapply Hc|].
  2: { eapply prices_mono; [exact Hn|]. destruct H4. by split. }
  assert (xo_signer_feeds x = xo_signer_feeds o) as Hsf by (by apply (f_equal xo_signer_feeds) in Hbase).
  split.
  - eapply base_settings in Hset; [|exact Hbase]. destruct Hset. by split.
  - eapply (base_rows (store_signers o l)) in Hbase; [|by destruct H2]. destruct Hbase. by split.
  - assert (xo_signers x = l /\ xo_feeds x = xo_feeds o) as [Hxs Hxf].
    { split; [by apply (f_equal xo_signers) in Hbase|by apply (f_equal xo_feeds) in Hbase]. }
    assert (forall t, t <> s -> load_signer_feeds (clear_signer_feeds x s) t = load_signer_feeds o t) as Hld.
    { intros t Hts. unfold load_signer_feeds. cbn. rewrite lookup_delete_ne by done. by rewrite Hsf. }
    split.
    + intros f t. cbn. destruct (decide (t = s)) as [->|Hts].
      * destruct (decide (f ∈ load_signer_feeds o s)) as [Hf|Hf].
        { rewrite Hgone by done. by intros []. }
        rewrite Hkeep by tauto. cbn. intros Hx. by apply Ha in Hx.
      * rewrite Hkeep by tauto. rewrite Hld by done. apply Ha.
    + intros t. cbn. rewrite lookup_delete_is_Some, Hsf, Hxs. intros [Hts Ht']. apply Hel.
      split; [by apply Hb|done].
    + intros t f. cbn. rewrite Hxf. destruct (decide (t = s)) as [->|Hts].
      * unfold load_signer_feeds. cbn. rewrite lookup_delete_eq. cbn. by intros Hf%elem_of_nil.
      * rewrite Hld by done. apply Hc.
  - destruct Hpr. by split.
Qed.

(** ** Removing a feed *)

(** A signer's feed list without one feed; an empty list is not stored. *)
Definition without (feed : string) (l : option (list string)) : option (list string) :=
  match l with
  | Some l => match filter (fun f => f <> feed) l with [] => None | k => Some k end
  | None => None
  end.

Lemma without_spec feed l f : f ∈ default [] (without feed l) <-> f ∈ default [] l /\ f <> feed.
Proof.
  destruct l as [l|]; cbn; [|by rewrite elem_of_nil; tauto].
  assert (f ∈ filter (fun f => f <> feed) l <-> f ∈ l /\ f <> feed) as <-.
  { rewrite list_elem_of_filter. tauto. }
  by destruct (filter _ l).
Qed.

Lemma without_idemp feed l : without feed (without feed l) = without feed l.
Proof.
  destruct l as [l|]; cbn; [|done]. destruct (filter (fun f => f <> feed) l) as [|x k] eqn:Hf; [done|].
  cbn [without]. rewrite <- Hf, list_filter_filter_l by done. by rewrite Hf.
Qed.

Lemma remove_signer_feed_eq o s feed : exists sf,
  remove_signer_feed o s feed = set_signer_feeds o sf
  /\ forall t, sf !! t = if decide (t = s) then without feed (xo_signer_feeds o !! t) else xo_signer_feeds o !! t.
Proof.
  unfold remove_signer_feed. destruct (xo_signer_feeds o !! s) as [l|] eqn:Hl.
  - destruct (filter _ l) as [|x k] eqn:Hf.
    + eexists. split; [done|]. intros t. destruct (decide (t = s)) as [->|].
      * rewrite lookup_delete_eq, Hl. cbn. by rewrite Hf.
      * by rewrite lookup_delete_ne.
    + eexists. split; [done|]. intros t. destruct (decide (t = s)) as [->|].
      * rewrite lookup_insert_eq, Hl. cbn. by rewrite Hf.
      * by rewrite lookup_insert_ne.
  - exists (xo_signer_feeds o). split; [by destruct o|]. intros t. destruct (decide (t = s)) as [->|]; [|done].
    by rewrite Hl.
Qed.

Lemma clear_loop feed l o : exists subs sf,
  fold_left (fun o signer => remove_signer_feed (remove_submission o feed signer) signer feed) l o
    = set_signer_feeds (with_prices o subs (xo_aggregates o) (xo_histories o)) sf
  /\ (forall f s, subs !! (f, s) = if decide (f = feed /\ s ∈ l) then None else xo_submissions o !! (f, s))
  /\ (forall s, sf !! s = if decide (s ∈ l) then without feed (xo_signer_feeds o !! s)
                         else xo_signer_feeds o !! s).
Proof.
  revert o. induction l as [|a l IH]; intros o; cbn [fold_left].
  - exists (xo_submissions o), (xo_signer_feeds o). split; [by destruct o|]. split.
    + intros f s. rewrite decide_False; [done|]. by intros [_ ?%elem_of_nil].
    + intros s. rewrite decide_False; [done|]. apply not_elem_of_nil.
  - destruct (remove_signer_feed_eq (remove_submission o feed a) a feed) as (sf1 & -> & Hsf1).
    destruct (IH (set_signer_feeds (remove_submission o feed a) sf1)) as (subs & sf & -> & Hs & Hf).
    exists subs, sf. split; [by destruct o|]. split.
    + intros f s. rewrite Hs. cbn. destruct (decide (f = feed /\ s ∈ l)) as [[-> Hin]|Hno].
      * rewrite decide_True; [done|]. split; [done|]. by apply list_elem_of_further.
      * destruct (decide (f = feed /\ s ∈ a :: l)) as [[-> Hin]|Hno'].
        { apply elem_of_cons in Hin as [->|Hin]; [apply lookup_delete_eq|tauto]. }
        apply lookup_delete_ne. intros [= -> ->]. apply Hno'. split; [done|apply list_elem_of_here].
    + intros s. rewrite Hf. cbn [set_signer_feeds with_registry xo_signer_feeds]. rewrite Hsf1. cbn.
      destruct (decide (s = a)) as [->|Hne].
      * rewrite (decide_True (P := a ∈ a :: l)) by apply list_elem_of_here.
        destruct (decide (a ∈ l)); [apply without_idemp|done].
      * destruct (decide (s ∈ l)) as [Hin|Hin].
        { rewrite decide_True; [done|]. by apply list_elem_of_further. }
        rewrite decide_False; [done|]. rewrite elem_of_cons. tauto.
Qed.

(** Everything about the feed goes; every other row stays. *)
Record feed_cleared (feed : string) (o o' : XoxnoOracle) : Prop := {
  fc_settings : settings_inv o -> settings_inv o';
  fc_subs : forall f s, xo_submissions o' !! (f, s)
    = if decide (f = feed /\ s ∈ xo_signers o) then None else xo_submissions o !! (f, s);
  fc_signer_feeds : forall s, xo_signer_feeds o' !! s
    = if decide (s ∈ xo_signers o) then without feed (xo_signer_feeds o !! s) else xo_signer_feeds o !! s;
  fc_aggs : xo_aggregates o' = delete feed (xo_aggregates o);
  fc_hist : xo_histories o' = delete feed (xo_histories o);
  fc_owner : xo_feed_owner o' = delete feed (xo_feed_owner o);
  fc_mapping : xo_feed_mapping o' = xo_feed_mapping o;
  fc_assets : xo_assets o' = xo_assets o;
  fc_signers : xo_signers o' = xo_signers o;
  fc_feeds : index_ok (xo_feeds o') /\ members (xo_feeds o') = members (xo_feeds o) ∖ {[feed]}
}.

Lemma clear_feed_state_spec o feed : index_ok (xo_feeds o) ->
  exists o', clear_feed_state o feed = Ok o' /\ feed_cleared feed o o'.
Proof.
  intros Hix. unfold clear_feed_state. cbn [load_signers xo_signers remove_history remove_aggregate with_prices].
  destruct (clear_loop feed (xo_signers o) (remove_history (remove_aggregate o feed) feed))
    as (subs & sf & -> & Hs & Hf).
  destruct (index_remove_ok (xo_feeds o) feed Hix) as (ix & Hrm & Hok & Hmem).
  unfold feed_index_remove, on_feeds. cbn. rewrite Hrm. cbn. eexists. split; [done|].
  split; cbn; try done. intros []. by split.
Qed.

Lemma feed_cleared_keeps now feed o o' : feed_cleared feed o o' ->
  (forall a, xo_feed_mapping o !! a <> Some feed) ->
  (forall a f, f <> feed -> xo_feed_mapping o !! a = Some f <-> xo_feed_owner o !! f = Some a) ->
  index_ok (xo_assets o) -> members (xo_assets o) = dom (xo_feed_mapping o) ->
  (forall f, is_Some (xo_feed_owner o !! f) -> f ∈ members (xo_feeds o)) ->
  settings_inv o -> signers_inv o -> prices_inv now o -> xo_inv now o'.
Proof.
  intros [] Hno Hmap Has Hlist Hknown Hset [Ha Hb Hc] [Hd He Hg]. destruct fc_feeds0 as [Hfi Hfm].
  assert (forall s f, f ∈ load_signer_feeds o' s <-> f ∈ load_signer_feeds o s /\ f <> feed) as Hlf.
  { intros s f. unfold load_signer_feeds. rewrite fc_signer_feeds0.
    destruct (decide (s ∈ xo_signers o)) as [|Hs]; [apply without_spec|].
    destruct (xo_signer_feeds o !! s) eqn:Hsf; cbn; [|by rewrite elem_of_nil; tauto].
    exfalso. apply Hs, Hb. eauto. }
  split; [by apply fc_settings0| | |].
  - split; [done|congruence| | |].
    + intros a f. rewrite fc_mapping0, fc_owner0, lookup_delete_Some. destruct (decide (f = feed)) as [->|].
      * pose proof (Hno a). naive_solver.
      * rewrite Hmap by done. naive_solver.
    + by rewrite fc_assets0, fc_mapping0.
    + intros f. rewrite fc_owner0, lookup_delete_is_Some, Hfm. intros [Hne Hf]. apply Hknown in Hf. set_solver.
  - split.
    + intros f s. rewrite fc_subs0. case_decide as Hcase; [by intros []|]. intros Hx. apply Hlf.
      split; [by apply Ha|]. intros ->. apply Hcase. split; [done|]. apply Hb.
      apply Ha in Hx. unfold load_signer_feeds in Hx. destruct (xo_signer_feeds o !! s); [by eauto|].
      by apply elem_of_nil in Hx.
    + intros s. rewrite fc_signers0, fc_signer_feeds0. case_decide; [done|apply Hb].
    + intros s f [Hf Hne]%Hlf. rewrite Hfm. apply Hc in Hf. set_solver.
  - split.
    + intros [f s] x. rewrite fc_subs0. case_decide; [done|]. apply Hd.
    + intros f a. rewrite fc_aggs0, fc_hist0, !lookup_delete_Some. intros [Hne Hf].
      destruct (He _ _ Hf) as (h & Hh & Hl). exists h. by rewrite lookup_delete_ne.
    + intros f h. rewrite fc_hist0, lookup_delete_Some. intros [Hne Hf]. destruct (Hg _ _ Hf).
      rewrite Hfm. split; [set_solver|done].
Qed.

Lemma clear_asset_and_feed_keeps now o a feed : xo_feed_mapping o !! a = Some feed -> xo_inv now o ->
  exists o', clear_asset_and_feed o a feed = Ok o' /\ xo_inv now o' /\ members (xo_feeds o') = members (xo_feeds o) ∖ {[feed]}.
Proof.
  intros Hm [H1 H2 H3 H4]. unfold clear_asset_and_feed.
  destruct (index_remove_ok (xo_assets o) a (ro_assets _ H2)) as (ix & Hrm & Hok & Hmem).
  unfold asset_index_remove, on_assets. cbn. rewrite Hrm. cbn.
  match goal with |- context [clear_feed_state ?x feed] => set (o1 := x) end.
  destruct (clear_feed_state_spec o1 feed (ro_feeds _ H2)) as (o' & Ho' & Hc).
  exists o'. split; [exact Ho'|]. split; [|apply (fc_feeds _ _ _ Hc)].
  pose proof (ro_owner _ H2) as Hown.
  eapply feed_cleared_keeps; [exact Hc| | |exact Hok| | | | |].
  - intros b. cbn. rewrite lookup_delete_Some. intros [Hne Hb]. apply Hown in Hm. apply Hown in Hb. congruence.
  - intros b f Hf. cbn. rewrite lookup_delete_Some, <- Hown. split; [tauto|]. intros Hb. split; [|done]. congruence.
  - cbn. by rewrite Hmem, dom_delete_L, (ro_listed _ H2).
  - apply H2.
  - destruct H1. by split.
  - destruct H3. by split.
  - destruct H4. by split.
Qed.

Lemma clear_unmapped_keeps now o feed : xo_feed_owner o !! feed = None -> xo_inv now o ->
  exists o', clear_feed_state o feed = Ok o' /\ xo_inv now o' /\ members (xo_feeds o') = members (xo_feeds o) ∖ {[feed]}.
Proof.
  intros Hn [H1 H2 H3 H4]. destruct (clear_feed_state_spec o feed (ro_feeds _ H2)) as (o' & Ho' & Hc).
  exists o'. split; [exact Ho'|]. split; [|apply (fc_feeds _ _ _ Hc)].
  eapply feed_cleared_keeps; [exact Hc| | |by apply H2|by apply H2|by apply H2|done|done|done].
  - intros a Ha. apply (ro_owner _ H2) in Ha. congruence.
  - intros a f _. apply H2.
Qed.

(** ** Adding feeds *)

Lemma with_feeds_keeps now o ix : index_ok ix -> members (xo_feeds o) ⊆ members ix -> xo_inv now o ->
  xo_inv now (with_registry o (xo_signer_feeds o) (xo_feed_mapping o) (xo_feed_owner o) (xo_assets o) ix).
Proof.
  intros Hix Hsub [H1 [Ha Hb Hc Hd He] [Hf Hg Hh] [Hi Hj Hk]]. split.
  - destruct H1. by split.
  - split; try done. intros f Hx. cbn. by apply Hsub, He.
  - split; try done. intros s f Hx. cbn. apply Hsub. by eapply Hh.
  - split; try done. intros f h Hx. cbn. destruct (Hk _ _ Hx). auto.
Qed.

Lemma ensure_known_feed_keeps now o feed o' : ensure_known_feed o feed = Ok o' -> xo_inv now o ->
  xo_inv now o' /\ members (xo_feeds o') = {[feed]} ∪ members (xo_feeds o)
  /\ xo_feed_mapping o' = xo_feed_mapping o /\ xo_feed_owner o' = xo_feed_owner o /\ xo_assets o' = xo_assets o.
Proof.
  intros H Hi. unfold ensure_known_feed in H. destruct (feed_index_contains o feed) eqn:Hc.
  - injection H as <-. split; [done|]. split; [|done]. apply elem_members in Hc. set_solver.
  - unfold feed_index_insert, on_feeds in H. apply rbind_Ok in H as (ix & Hix & H). injection H as <-.
    apply index_insert_ok in Hix as [Hok Hm]; [|apply (xi_rows _ _ Hi)|done].
    split; [|by rewrite <- Hm]. apply with_feeds_keeps; [done|set_solver|done].
Qed.

Lemma add_feed_keeps env now o feed a o' : add_feed env o feed a = Ok o' -> xo_inv now o -> xo_inv now o'.
Proof.
  intros H Hi. unfold add_feed in H. apply rbind_Ok in H as (u & _ & H).
  apply rbind_Ok in H as (u1 & Hm%require_Ok & H). apply rbind_Ok in H as (u2 & Ho%require_Ok & H).
  apply rbind_Ok in H as (x & Hx & H).
  unfold has_feed_mapping, load_feed_id, load_feed_owner in *.
  destruct (xo_feed_mapping o !! a) eqn:Ha; [done|]. destruct (xo_feed_owner o !! feed) eqn:Hf; [done|].
  (* the feed becomes known before it is mapped or after: the rows are the same *)
  assert (exists y, ensure_known_feed o feed = Ok y /\ x = map_feed y a feed) as (y & Hy & ->).
  { unfold ensure_known_feed, feed_index_contains, feed_index_insert, on_feeds in *. cbn in Hx.
    destruct (index_contains (xo_feeds o) feed); [injection Hx as <-; eauto|].
    apply rbind_Ok in Hx as (ix & Hix & Hx). rewrite Hix. injection Hx as <-. cbn. eauto. }
  apply (ensure_known_feed_keeps now) in Hy as (Hi' & Hk & Em & Eo & Ea); [|done]. clear Hi.
  unfold asset_index_insert, on_assets in H. apply rbind_Ok in H as (ix & Hix & H). injection H as <-.
  destruct Hi' as [H1 [Hb Hc Hd He Hg] H3 H4].
  apply index_insert_ok in Hix as [Hok Hmem]; [|done|].
  2: { apply not_true_is_false. intros Hin%elem_members. cbn in Hin. rewrite He in Hin.
       apply elem_of_dom in Hin as [? Hin]. congruence. }
  split.
  - destruct H1. by split.
  - split; cbn; [done|done| | |].
    + intros b f. rewrite !lookup_insert_Some. pose proof (Hd b f). pose proof (Hd a f). pose proof (Hd b feed).
      rewrite Em, Eo in *. naive_solver congruence.
    + rewrite dom_insert_L, <- He. done.
    + intros f. rewrite lookup_insert_is_Some'. intros [<-|Hx']; [set_solver|by apply Hg].
  - destruct H3. by split.
  - destruct H4. by split.
Qed.

(** ** Calls *)

Inductive Call : Type :=
| SubmitPrice (signer : Address) (feed : string) (price package_timestamp : Z)
| SubmitPrices (signer : Address) (feed_ids : list string) (prices : list Z) (package_timestamp : Z)
| AddSigner (signer : Address)
| RemoveSigner (signer : Address)
| SetThreshold (threshold : Z)
| SetMaxStaleSeconds (seconds : Z)
| SetMaxSubmissionAgeSeconds (seconds : Z)
| SetMaxRelativeSkewSeconds (seconds : Z)
| SetMaxClusterSpreadBps (bps : Z)
| RecomputeFeeds (feed_ids : list string)
| RegisterFeed (feed : string)
| AddFeed (feed : string) (a : ReflectorAsset)
| RemoveFeed (a : ReflectorAsset)
| SetResolution (resolution : Z)
| PurgeFeed (feed : string).

Definition dispatch (env : Env) (o : XoxnoOracle) (call : Call) : xres XoxnoOracle :=
  match call with
  | SubmitPrice signer feed price ts => Submit.submit_price env o signer feed price ts
  | SubmitPrices signer fs ps ts => Submit.submit_prices env o signer fs ps ts
  | AddSigner s => add_signer env o s
  | RemoveSigner s => remove_signer env o s
  | SetThreshold n => set_threshold env o n
  | SetMaxStaleSeconds n => set_max_stale_seconds env o n
  | SetMaxSubmissionAgeSeconds n => set_max_submission_age_seconds env o n
  | SetMaxRelativeSkewSeconds n => set_max_relative_skew_seconds env o n
  | SetMaxClusterSpreadBps n => set_max_cluster_spread_bps env o n
  | RecomputeFeeds fs => recompute_feeds env o fs
  | RegisterFeed f => register_feed env o f
  | AddFeed f a => add_feed env o f a
  | RemoveFeed a => remove_feed env o a
  | SetResolution n => set_resolution env o n
  | PurgeFeed f => purge_feed env o f
  end.

(** Unsigned arguments are not negative. *)
Definition well_typed (call : Call) : Prop :=
  match call with
  | SetThreshold n | SetMaxStaleSeconds n | SetMaxSubmissionAgeSeconds n
  | SetMaxRelativeSkewSeconds n | SetMaxClusterSpreadBps n | SetResolution n => 0 <= n
  | SubmitPrice _ _ _ ts | SubmitPrices _ _ _ ts => 0 <= ts
  | _ => True
  end.

(** The owner row, which the access library changes. *)
Definition with_owner (o : XoxnoOracle) (owner : option Address) : XoxnoOracle :=
  mkXoxnoOracle owner (xo_signers o) (xo_threshold o) (xo_max_stale_seconds o)
    (xo_max_submission_age o) (xo_max_relative_skew o) (xo_resolution o) (xo_max_cluster_spread_bps o)
    (xo_submissions o) (xo_signer_feeds o) (xo_aggregates o) (xo_histories o) (xo_feed_mapping o)
    (xo_feed_owner o) (xo_assets o) (xo_feeds o).

(** [xo_reachable now o]: calls from deployment lead to [o], the last one not after [now]. *)
Inductive xo_reachable : Z -> XoxnoOracle -> Prop :=
| xo_init now admin signers threshold resolution o : 0 <= now -> 0 <= threshold ->
    constructor admin signers threshold resolution = Ok o -> xo_reachable now o
| xo_call now o env call o' : xo_reachable now o -> now <= ledger_timestamp env -> well_typed call ->
    dispatch env o call = Ok o' -> xo_reachable (ledger_timestamp env) o'
| xo_ownership now o owner : xo_reachable now o -> xo_reachable now (with_owner o owner).

Lemma has_duplicate_false l : has_duplicate l = false -> NoDup l.
Proof.
  induction l as [|s l IH]; cbn; [constructor|]. intros [H1 H2]%orb_false_iff. constructor; [|by apply IH].
  intros Hin. assert (existsb (fun x => bool_decide (s = x)) l = true) as He; [|congruence].
  apply existsb_exists. exists s. split; [by apply list_elem_of_In|by apply bool_decide_eq_true].
Qed.

Lemma oracle_constructor_inv now admin signers threshold resolution o : 0 <= threshold ->
  constructor admin signers threshold resolution = Ok o -> xo_inv now o.
Proof.
  intros Ht H. unfold constructor in H. apply rbind_Ok in H as (u & Hr%require_Ok & H). b2p. injection H as <-.
  split.
  - split; cbn; [by apply has_duplicate_false|lia|split; zconst|zconst|split; zconst].
  - split; cbn; try apply empty_index_ok.
    + intros a f. rewrite !lookup_empty. done.
    + by rewrite dom_empty_L.
    + intros f. rewrite lookup_empty. by intros [].
  - split; cbn; [intros f s|intros s|intros s f]; unfold load_signer_feeds; cbn; rewrite lookup_empty; cbn.
    + by intros [].
    + by intros [].
    + by intros ?%elem_of_nil.
  - split; cbn; intros ??; by rewrite lookup_empty.
Qed.

Lemma register_feed_keeps env now o f o' : register_feed env o f = Ok o' -> xo_inv now o -> xo_inv now o'.
Proof.
  unfold register_feed. intros H Hi. apply rbind_Ok in H as (u & _ & H). apply rbind_Ok in H as (u1 & _ & H).
  by eapply ensure_known_feed_keeps in H as [? _].
Qed.

Lemma remove_feed_keeps env now o a o' : remove_feed env o a = Ok o' -> xo_inv now o -> xo_inv now o'.
Proof.
  unfold remove_feed. intros H Hi. apply rbind_Ok in H as (u & _ & H).
  destruct (load_feed_id o a) as [f|] eqn:Hf; [|done].
  destruct (clear_asset_and_feed_keeps now o a f Hf Hi) as (x & Hx & Hi' & _). congruence.
Qed.

Lemma purge_feed_keeps env now o f o' : purge_feed env o f = Ok o' -> xo_inv now o ->
  xo_inv now o' /\ members (xo_feeds o') = members (xo_feeds o) ∖ {[f]}.
Proof.
  unfold purge_feed. intros H Hi. apply rbind_Ok in H as (u & _ & H). apply rbind_Ok in H as (u1 & _ & H).
  destruct (load_feed_owner o f) as [a|] eqn:Hf.
  - apply (ro_owner _ (xi_rows _ _ Hi)) in Hf.
    destruct (clear_asset_and_feed_keeps now o a f Hf Hi) as (x & Hx & Hi' & ?).
    rewrite Hx in H. injection H as <-. done.
  - destruct (clear_unmapped_keeps now o f Hf Hi) as (x & Hx & Hi' & ?).
    rewrite Hx in H. injection H as <-. done.
Qed.

Lemma recompute_feeds_keeps env now o fs o' : 0 <= now -> now <= ledger_timestamp env ->
  recompute_feeds env o fs = Ok o' -> xo_inv now o -> xo_inv (ledger_timestamp env) o'.
Proof.
  unfold recompute_feeds. intros H0 Hn H Hi. apply rbind_Ok in H as (u & _ & H).
  apply rbind_Ok in H as (u1 & Hk%rfold_units & H).
  assert (xo_inv (ledger_timestamp env) o' /\ xo_feeds o' = xo_feeds o) as [? _]; [|done].
  eapply (rfold_inv (fun x => xo_inv (ledger_timestamp env) x /\ xo_feeds x = xo_feeds o)); [| |exact H].
  - intros x f x' Hin [Hx Hf] Hstep. rewrite Forall_forall in Hk. apply list_elem_of_In, Hk, known_members in Hin.
    pose proof (si_spread _ (xi_settings _ _ Hx)).
    destruct (recompute_only env x f Clear x' ltac:(lia) Hstep) as [Hb _ _ _].
    split; [|rewrite <- Hf; by apply (f_equal xo_feeds) in Hb].
    eapply (recompute_keeps _ (ledger_timestamp env) x f); [lia|lia|congruence|done|done].
  - split; [|done]. destruct Hi. split; try done. by eapply prices_mono.
Qed.

(** The settings change alone. *)
Lemma settings_keep now o n st ag sk re sp : xo_inv now o ->
  settings_inv (with_settings o n st ag sk re sp) -> xo_inv now (with_settings o n st ag sk re sp).
Proof. intros [H1 H2 H3 H4] Hs. split; [done|by destruct H2; split|by destruct H3; split|by destruct H4; split]. Qed.

Lemma add_signer_keeps env now o s o' : add_signer env o s = Ok o' -> xo_inv now o -> xo_inv now o'.
Proof.
  unfold add_signer. intros H [H1 H2 H3 H4]. apply rbind_Ok in H as (u & _ & H).
  apply rbind_Ok in H as (u1 & Hs%require_Ok & H). injection H as <-.
  apply negb_true_iff, bool_decide_eq_false in Hs. unfold load_signers in *.
  split; [|by destruct H2; split| |by destruct H4; split].
  - apply with_signers_settings; [done| |].
    + apply NoDup_app. split; [apply H1|]. split; [|apply NoDup_singleton].
      intros x Hx ->%list_elem_of_singleton. done.
    + rewrite length_app. pose proof (si_threshold _ H1). cbn. lia.
  - destruct H3 as [Ha Hb Hc]. split; [done| |done]. intros t Ht. cbn. apply elem_of_app. left. by apply Hb.
Qed.

Ltac owner_call H := apply rbind_Ok in H as (? & _ & H); ok_inv H; b2p.

Theorem oracle_dispatch_keeps env now o call o' : 0 <= now -> now <= ledger_timestamp env -> well_typed call ->
  dispatch env o call = Ok o' -> xo_inv now o -> xo_inv (ledger_timestamp env) o'.
Proof.
  intros H0 Hn Hty H Hi.
  assert (xo_inv now o' -> xo_inv (ledger_timestamp env) o') as Hlater.
  { intros []. split; try done. by eapply prices_mono. }
  destruct call; cbn in H, Hty;
    [exact (submit_price_keeps _ _ _ _ _ _ _ _ H0 Hty Hn H Hi)|exact (submit_prices_keeps _ _ _ _ _ _ _ _ H0 Hty Hn H Hi)
    |apply Hlater; by eapply add_signer_keeps
    |by eapply remove_signer_keeps| | | | | |by eapply recompute_feeds_keeps
    |apply Hlater; by eapply register_feed_keeps|apply Hlater; by eapply add_feed_keeps
    |apply Hlater; by eapply remove_feed_keeps| |apply Hlater; by eapply purge_feed_keeps in H as [? _]];
    apply Hlater; owner_call H; (apply settings_keep; [exact Hi|]); destruct (xi_settings _ _ Hi);
    split; cbn; try done; unfold load_max_relative_skew, load_max_submission_age, load_max_stale_seconds,
      load_max_cluster_spread_bps, load_signers, MIN_SUBMISSION_AGE_SECONDS in *; cbn in *; lia.
Qed.

Lemma reachable_time now o : xo_reachable now o -> 0 <= now.
Proof. induction 1; lia. Qed.

Theorem xo_reachable_inv now o : xo_reachable now o -> xo_inv now o.
Proof.
  induction 1 as [|now o env call o' Hr|now o owner _ []].
  - by eapply oracle_constructor_inv.
  - eapply oracle_dispatch_keeps; [by eapply reachable_time| | | |]; done.
  - split; [by destruct xi_settings0; split|by destruct xi_rows0; split|by destruct xi_signers0; split
      |by destruct xi_prices0; split].
Qed.

End XoxnoReach.
