(* ===== verification/XoxnoProps.v ===== *)
(** * Properties of the XOXNO oracle *)

From S2P Require Import Prelude Errors FpCore Fp PoolTypes PoolCache OracleMath AggState AggContract AggProps XoxnoStore XoxnoContract XoxnoSteps XoxnoReach.
From stdpp Require Import base numbers list gmap strings sorting.
From Stdlib Require Import ZArith Lia Bool.

Open Scope Z_scope.

(** ** Reads *)

Module XoxnoServe.

Import Aggregation Observation XoxnoSort XoxnoIndex XoxnoVotes XoxnoInv XoxnoReach XoxnoReads.

Definition quoted (d : RedStonePriceData) : ReflectorPriceData :=
  mkReflectorPriceData (rs_price d) (millis_to_seconds (rs_package_timestamp d)).

Lemma to_reflector_ok d : aggregate_ok d -> to_reflector_price_data d = Ok (quoted d).
Proof.
  intros [[_ Hp] _]. unfold to_reflector_price_data, try_u256_to_i128.
  assert (MAX_SUBMITTED_PRICE <= i128_max) by zconst.
  destruct (Z.leb_spec (rs_price d) i128_max); [done|lia].
Qed.

Lemma read_cases env o f d : read_price_data_for_feed env o f = Ok d <->
  load_aggregate o f = Some d
  /\ u64_saturating_sub (ledger_timestamp env) (rs_write_timestamp d / MS_PER_SECOND) <= load_max_stale_seconds o.
Proof.
  unfold read_price_data_for_feed. rewrite rbind_Ok. split.
  - intros (x & Hx%of_option_Ok & H). ok_inv H. b2p. done.
  - intros [Hd Hs]. exists d. rewrite Hd. split; [done|]. by rewrite (proj2 (Z.leb_le _ _) Hs).
Qed.

(** No read traps. *)
Lemma read_no_trap env o f : read_price_data_for_feed env o f <> Err Trap.
Proof.
  unfold read_price_data_for_feed. destruct (load_aggregate o f); cbn; [|done]. by destruct (_ <=? _).
Qed.

Lemma history_no_trap env o f n : read_price_history env o f n <> Err Trap.
Proof.
  unfold read_price_history. pose proof (read_no_trap env o f) as Hr.
  destruct (read_price_data_for_feed env o f) as [d|[e|]]; [|done|done]. cbn.
  destruct (load_history o f); cbn; [|done]. by destruct (_ =? _)%nat.
Qed.

Section Fresh.

Context (env : Env) (now : Z) (o : XoxnoOracle) (Hinv : xo_inv now o).
Context (f : string) (d : RedStonePriceData) (Hd : read_price_data_for_feed env o f = Ok d).

Lemma read_history : exists h, load_history o f = Some (h ++ [d]) /\ history_ok now (h ++ [d]).
Proof.
  apply read_cases in Hd as [Hd' _].
  destruct (pr_aggregates _ _ (xi_prices _ _ Hinv) _ _ Hd') as (h & Hh & Hl).
  destruct (pr_histories _ _ (xi_prices _ _ Hinv) _ _ Hh) as [_ Hok].
  apply last_Some in Hl as [h' ->]. by exists h'.
Qed.

Lemma read_aggregate_ok : aggregate_ok d.
Proof.
  destruct read_history as (h & _ & Hok). pose proof (hi_prices _ _ Hok) as HF.
  apply Forall_app in HF as [_ HF]. exact (proj1 (Forall_singleton _ _) HF).
Qed.

Lemma history_reads n h : load_history o f = Some h ->
  read_price_history env o f n = Ok (take (Z.to_nat n) (reverse h)).
Proof.
  intros Hh. unfold read_price_history. rewrite Hd. cbn. rewrite Hh. cbn.
  destruct read_history as (h' & Hh' & _). rewrite Hh in Hh'. injection Hh' as ->.
  rewrite length_app, Nat.add_1_r. done.
Qed.

End Fresh.

(** The conversion loop of [prices]. *)
Lemma convert_loop l acc : Forall aggregate_ok l ->
  rfold (fun out entry => let* p := to_reflector_price_data entry in Ok (out ++ [p])) acc l
  = Ok (acc ++ (quoted <$> l)).
Proof.
  intros HF. revert acc. induction HF as [|x l Hx HF IH]; intros acc; cbn [rfold fmap list_fmap].
  - by rewrite app_nil_r.
  - rewrite to_reflector_ok by done. cbn [rbind]. rewrite IH. by rewrite <- app_assoc.
Qed.

(** The newest entry not after a time. *)
Definition best_of (t : Z) (l : list RedStonePriceData) (b : option RedStonePriceData) : Prop :=
  match b with
  | None => forall e, e ∈ l -> t < millis_to_seconds (rs_package_timestamp e)
  | Some b => b ∈ l /\ millis_to_seconds (rs_package_timestamp b) <= t
      /\ forall e, e ∈ l -> millis_to_seconds (rs_package_timestamp e) <= t ->
           rs_package_timestamp e <= rs_package_timestamp b
  end.

Lemma best_loop t l : best_of t l
  (fold_left (fun (best : option RedStonePriceData) entry =>
     if t <? millis_to_seconds (rs_package_timestamp entry) then best
     else
       match best with
       | Some b => if rs_package_timestamp b <? rs_package_timestamp entry then Some entry else best
       | None => Some entry
       end) l None).
Proof.
  induction l as [|x k IH] using rev_ind; [by intros e ?%elem_of_nil|].
  rewrite fold_left_app. cbn [fold_left].
  match goal with |- context [fold_left ?g k None] => destruct (fold_left g k None) as [b|] end;
    destruct (t <? millis_to_seconds (rs_package_timestamp x)) eqn:Hx; b2p; cbn [best_of] in *;
    try (setoid_rewrite elem_of_app; setoid_rewrite list_elem_of_singleton).
  - destruct IH as (H1 & H2 & H3). split; [by left|]. split; [done|].
    intros e [He| ->]; [by apply H3|lia].
  - destruct IH as (H1 & H2 & H3).
    destruct (rs_package_timestamp b <? rs_package_timestamp x) eqn:Hb; b2p; cbn [best_of];
      setoid_rewrite elem_of_app; setoid_rewrite list_elem_of_singleton.
    + split; [by right|]. split; [done|]. intros e [He| ->] Hle; [|lia]. specialize (H3 e He Hle). lia.
    + split; [by left|]. split; [done|]. intros e [He| ->]; [by apply H3|lia].
  - intros e [He| ->]; [by apply IH|done].
  - split; [by right|]. split; [done|]. intros e [He| ->] Hle; [|lia]. specialize (IH e He). lia.
Qed.

(** ** The oracle behind the aggregator's provider interface *)

Definition answer {A : Type} (c : xres A) : option A :=
  match c with Ok a => Some a | Err _ => None end.

Section Provider.

Context (env : Env) (oracles : Address -> option XoxnoOracle) (rest : Providers).

(** A ledger where some addresses hold XOXNO oracles. *)
Definition xoxno_providers : Providers := {|
  chainlink_latest_round := @chainlink_latest_round rest;
  reflector_base c := match oracles c with Some _ => Some XoxnoReads.base | None => @reflector_base rest c end;
  reflector_decimals c := match oracles c with Some _ => Some decimals | None => @reflector_decimals rest c end;
  reflector_resolution c :=
    match oracles c with Some o => Some (resolution o) | None => @reflector_resolution rest c end;
  reflector_lastprice c a :=
    match oracles c with Some o => mjoin (answer (lastprice env o a)) | None => @reflector_lastprice rest c a end;
  reflector_history c a n :=
    match oracles c with Some o => mjoin (answer (prices env o a n)) | None => @reflector_history rest c a n end;
  redstone_feed c f :=
    match oracles c with Some o => answer (read_price_data_for_feed env o f) | None => @redstone_feed rest c f end;
  redstone_feeds c l :=
    match oracles c with Some o => answer (read_price_data env o l) | None => @redstone_feeds rest c l end;
  xoxno_max_submission_age c :=
    match oracles c with
    | Some o => Some (max_submission_age_seconds o)
    | None => @xoxno_max_submission_age rest c
    end;
  aquarius_total_shares := @aquarius_total_shares rest;
  aquarius_reserves := @aquarius_reserves rest;
  aquarius_tokens := @aquarius_tokens rest;
  aquarius_pool_type := @aquarius_pool_type rest;
  aquarius_share_id := @aquarius_share_id rest;
  aquarius_amp := @aquarius_amp rest;
  token_decimals := @token_decimals rest;
  curve_executable := @curve_executable rest;
  curve_pool_info := @curve_pool_info rest;
  curve_decimals := @curve_decimals rest;
  curve_virtual_price := @curve_virtual_price rest;
  curve_total_supply := @curve_total_supply rest
|}.

Context (Hreach : forall c o, oracles c = Some o -> exists now, now <= ledger_timestamp env /\ xo_reachable now o).
Context (Htyped : @TypedProviders rest) (Hcons : @ConsistentFeeds rest).

Lemma quoted_typed d : aggregate_ok d -> is_i128 (rd_price (quoted d)) /\ 0 <= rd_timestamp (quoted d) <= u64_max.
Proof.
  intros (Hp & Hk & _). cbn. split.
  - unfold price_ok in Hp. assert (MAX_SUBMITTED_PRICE <= i128_max) by zconst. assert (i128_min <= 0) by zconst. lia.
  - unfold millis_to_seconds. split; [apply Z.div_pos; [lia|zconst]|].
    apply Z.div_le_upper_bound; [zconst|]. unfold MS_PER_SECOND. lia.
Qed.

Lemma served_aggregate c o f d : oracles c = Some o -> read_price_data_for_feed env o f = Ok d -> aggregate_ok d.
Proof.
  intros Hc Hd. destruct (Hreach _ _ Hc) as (now & _ & Hr). apply xo_reachable_inv in Hr.
  by eapply read_aggregate_ok.
Qed.

Lemma ok_opt_Some {A} (c : xres A) a : ok_opt c = Ok (Some a) <-> c = Ok a.
Proof. destruct c as [x|[e|]]; cbn; split; congruence. Qed.

Lemma lastprice_typed c o a p : oracles c = Some o -> lastprice env o a = Ok (Some p) ->
  is_i128 (rd_price p) /\ 0 <= rd_timestamp p <= u64_max.
Proof.
  intros Hc H. unfold lastprice in H. destruct (load_feed_id o a) as [f|]; [|done].
  apply rbind_Ok in H as ([d|] & Hd & H); [|done]. apply ok_opt_Some, (served_aggregate c) in Hd; [|done].
  rewrite to_reflector_ok in H by done. injection H as <-. by apply quoted_typed.
Qed.

Lemma read_history_ok c o f n h : oracles c = Some o -> read_price_history env o f n = Ok h -> Forall aggregate_ok h.
Proof.
  intros Hc H. destruct (Hreach _ _ Hc) as (now & _ & Hr%xo_reachable_inv). unfold read_price_history in H.
  apply rbind_Ok in H as (d & Hd & H).
  destruct (read_history env now o Hr f d Hd) as (l & Hl & Hok). rewrite Hl in H. cbn in H. ok_inv H.
  apply Forall_take. rewrite reverse_Permutation. apply Hok.
Qed.

Lemma prices_typed c o a n l : oracles c = Some o -> prices env o a n = Ok (Some l) ->
  Forall (fun p => is_i128 (rd_price p) /\ 0 <= rd_timestamp p <= u64_max) l.
Proof.
  intros Hc H. unfold prices in H. destruct (load_feed_id o a) as [f|]; [|done].
  apply rbind_Ok in H as ([h|] & Hh & H); [|done]. apply ok_opt_Some, (read_history_ok c) in Hh; [|done].
  destruct h as [|x h]; [done|]. rewrite convert_loop in H by done. injection H as <-.
  apply (proj2 (Forall_fmap quoted _ (x :: h))). eapply Forall_impl; [exact Hh|]. exact quoted_typed.
Qed.

Lemma read_all env' o l ds : read_price_data env' o l = Ok ds ->
  Forall2 (fun f d => read_price_data_for_feed env' o f = Ok d) l ds.
Proof.
  unfold read_price_data. intros H.
  by apply (rfold_collect _ (read_price_data_for_feed env' o)) in H as (ys & -> & Hys).
Qed.

Lemma xoxno_typed : @TypedProviders xoxno_providers.
Proof.
  split; cbn; try apply Htyped.
  - intros c a p. destruct (oracles c) as [o|] eqn:Hc; [|apply Htyped].
    destruct (lastprice env o a) as [[q|]|] eqn:Hl; cbn; try done. intros [= <-]. by eapply lastprice_typed.
  - intros c a n l. destruct (oracles c) as [o|] eqn:Hc; [|apply Htyped].
    destruct (prices env o a n) as [[q|]|] eqn:Hl; cbn; try done. intros [= <-]. by eapply prices_typed.
  - intros c f d. destruct (oracles c) as [o|] eqn:Hc; [|apply Htyped].
    destruct (read_price_data_for_feed env o f) as [q|] eqn:Hl; cbn; try done. intros [= <-].
    destruct (served_aggregate _ _ _ _ Hc Hl) as ([? _] & ? & ?). split; [lia|done].
  - intros c l ds. destruct (oracles c) as [o|] eqn:Hc; [|apply Htyped].
    destruct (read_price_data env o l) as [q|] eqn:Hl; cbn; try done. intros [= <-].
    apply read_all in Hl. eapply Forall2_Forall_r; [exact Hl|]. apply Forall_forall. intros f _ d Hd.
    destruct (served_aggregate _ _ _ _ Hc Hd) as ([? _] & ? & ?). split; [lia|done].
Qed.

Lemma xoxno_consistent : @ConsistentFeeds xoxno_providers.
Proof.
  split. cbn. intros c l ds. destruct (oracles c) as [o|] eqn:Hc; [|apply Hcons].
  destruct (read_price_data env o l) as [q|] eqn:Hl; cbn; [|done]. intros [= <-] _ i f d Hf Hd.
  apply read_all in Hl. by rewrite (Forall2_lookup_lr _ _ _ _ _ _ Hl Hf Hd).
Qed.

End Provider.

End XoxnoServe.

(** ** A deployed oracle: three signers, threshold two *)

Module XoxnoSample.

Import Aggregation Observation XoxnoInv XoxnoReach XoxnoReads XoxnoAdmin.

Definition addr (n : N) : Address := mkAddress n.
Definition admin : Address := addr 1.
Definition s1 : Address := addr 2.
Definition s2 : Address := addr 3.
Definition s3 : Address := addr 4.
Definition xlm : ReflectorAsset := Other "XLM".
Definition start : Z := 1700000000.

Definition at_time (t : Z) (who : Address) : Env := mkEnv t (addr 9) (fun a => bool_decide (a = who)).

Fixpoint run (o : XoxnoOracle) (l : list (Env * Call)) : xres XoxnoOracle :=
  match l with
  | [] => Ok o
  | (env, call) :: l => let* o := dispatch env o call in run o l
  end.

Lemma xo_run_reachable now o l o' : xo_reachable now o ->
  (forall env call, (env, call) ∈ l -> ledger_timestamp env = now /\ well_typed call) ->
  run o l = Ok o' -> xo_reachable now o'.
Proof.
  revert o. induction l as [|[env call] l IH]; intros o Hr Hl H; cbn [run] in H; [congruence|].
  apply rbind_Ok in H as (x & Hx & H). destruct (Hl env call) as [Ht Hty]; [apply list_elem_of_here|].
  eapply (IH x); [|intros e c Hin; by apply Hl, list_elem_of_further|done]. rewrite <- Ht.
  eapply xo_call; [exact Hr|lia|done|done].
Qed.

Definition force (c : xres XoxnoOracle) : XoxnoOracle :=
  match c with
  | Ok o => o
  | Err _ => mkXoxnoOracle None [] 0 None None None 0 None ∅ ∅ ∅ ∅ ∅ ∅ empty_index empty_index
  end.

Definition deployed : XoxnoOracle := Eval vm_compute in force (constructor admin [s1; s2; s3] 2 300).

Definition script : list (Env * Call) :=
  [(at_time start admin, AddFeed "XLM" xlm); (at_time start admin, RegisterFeed "BTC");
   (at_time start s1, SubmitPrice s1 "XLM" 40000000 (start * 1000));
   (at_time start s2, SubmitPrices s2 ["XLM"; "BTC"] [40100000; 6000000000000] (start * 1000))].

Definition live : XoxnoOracle := Eval vm_compute in force (run deployed script).

Lemma deployed_ok : XoxnoAdmin.constructor admin [s1; s2; s3] 2 300 = Ok deployed.
Proof. vm_compute. reflexivity. Qed.

Lemma script_ok : run deployed script = Ok live.
Proof. vm_compute. reflexivity. Qed.

Lemma live_reachable : xo_reachable start live.
Proof.
  apply (xo_run_reachable start deployed script); [|  |exact script_ok].
  - apply (xo_init start admin [s1; s2; s3] 2 300); [zconst|lia|exact deployed_ok].
  - intros env call Hin. unfold script in Hin. rewrite !elem_of_cons, elem_of_nil in Hin.
    destruct Hin as [[= -> ->]|[[= -> ->]|[[= -> ->]|[[= -> ->]|[]]]]]; split; try done; zconst.
Qed.

(** The third signer is off by a factor of ten. *)
Definition submitted : XoxnoOracle :=
  Eval vm_compute in force
    (Submit.submit_price (at_time (start + 60) s3) live s3 "XLM" 400000000 ((start + 60) * 1000)).

Lemma submitted_ok :
  Submit.submit_price (at_time (start + 60) s3) live s3 "XLM" 400000000 ((start + 60) * 1000) = Ok submitted.
Proof. vm_compute. reflexivity. Qed.

End XoxnoSample.

(** ** Properties *)

Module XoxnoProps.

Import Aggregation Observation XoxnoSort XoxnoIndex XoxnoVotes XoxnoInv XoxnoReach XoxnoReads XoxnoServe XoxnoSample.

(** C16: (invariant) After any sequence of calls from deployment, with a clock that never goes
    back: signers are distinct and the threshold is between one and their number; submissions
    come from current signers, for registered feeds; every stored price is positive and
    bounded; a feed's history holds at most twelve aggregates in the order they were written,
    the last one being the aggregate served; asset and feed mappings are inverse; and the
    swap-remove indexes list every registered feed and every mapped asset exactly once. *)
Theorem oracle_reachable_inv now o : xo_reachable now o ->
  xo_inv now o
  /\ NoDup (feeds o) /\ (forall f, f ∈ feeds o <-> feed_index_contains o f = true)
  /\ NoDup (assets o) /\ (forall a, a ∈ assets o <-> has_feed_mapping o a = true).
Proof.
  intros H%xo_reachable_inv. split; [done|]. destruct (xi_rows _ _ H) as [Hf Ha _ Hl _].
  destruct (index_list_spec _ Hf) as [H1 H2]. destruct (index_list_spec _ Ha) as [H3 H4].
  split; [exact H1|]. split; [intros f; etransitivity; [apply H2|apply elem_members]|]. split; [exact H3|].
  intros a. unfold assets, load_all_assets. rewrite H4, Hl, elem_of_dom. unfold has_feed_mapping, load_feed_id.
  destruct (xo_feed_mapping o !! a); split; [done|by eauto|by intros []|done].
Qed.

Lemma oracle_reachable_inv_witness :
  xo_inv start live /\ NoDup (feeds live) /\ (forall f, f ∈ feeds live <-> feed_index_contains live f = true)
  /\ NoDup (assets live) /\ (forall a, a ∈ assets live <-> has_feed_mapping live a = true).
Proof. exact (oracle_reachable_inv start live live_reachable). Defined.

Lemma same_votes feed o o' env : only_feed feed o o' ->
  votes env o' feed = votes env o feed /\ load_signers o' = load_signers o
  /\ load_threshold o' = load_threshold o
  /\ load_max_cluster_spread_bps o' = load_max_cluster_spread_bps o
  /\ (forall agg, quorum env o feed agg -> quorum env o' feed agg).
Proof.
  intros [Hb Hs _ _]. destruct o, o'. cbn in Hs. injection Hb; intros; subst. repeat split; apply H.
Qed.

Lemma median_within env o feed agg v : quorum env o feed agg -> v ∈ votes env o feed ->
  (forall v w : Vote, v ∈ votes env o feed -> w ∈ votes env o feed ->
     sub_price v.2 * BPS <= sub_price w.2 * (BPS + load_max_cluster_spread_bps o)) ->
  rs_price agg * BPS <= sub_price v.2 * (BPS + load_max_cluster_spread_bps o)
  /\ sub_price v.2 * BPS <= rs_price agg * (BPS + load_max_cluster_spread_bps o).
Proof.
  intros Hq Hv Hall. destruct (median_spec _ _ (q_median _ _ _ _ Hq)) as (Hin & _).
  unfold vote_prices in Hin. apply list_elem_of_fmap in Hin as (m & -> & Hm). split; by apply Hall.
Qed.

(** C15: (safety) A submission leaves the feed's aggregate as it was, or replaces it by the
    median of fresh submissions of at least [threshold] distinct current signers.  Whichever
    [signers - threshold] signers are faulty, that median lies between two honest
    submissions, or every submission counted is within the configured spread of it. *)
Theorem aggregate_resists_faulty env now o signer feed price ts o' agg (F : list Address) :
  xo_reachable now o -> now <= ledger_timestamp env -> 0 <= ts ->
  2 * Z.of_nat (length (load_signers o)) < u32_max ->
  Submit.submit_price env o signer feed price ts = Ok o' -> load_aggregate o' feed = Some agg ->
  Z.of_nat (length F) <= Z.of_nat (length (load_signers o)) - load_threshold o ->
  load_aggregate o feed = Some agg
  \/ quorum env o' feed agg
     /\ (((exists s x, (s, x) ∈ votes env o' feed /\ s ∉ F /\ sub_price x <= rs_price agg)
          /\ (exists s x, (s, x) ∈ votes env o' feed /\ s ∉ F /\ rs_price agg <= sub_price x))
         \/ (forall v : Vote, v ∈ votes env o' feed ->
              rs_price agg * BPS <= sub_price v.2 * (BPS + load_max_cluster_spread_bps o')
              /\ sub_price v.2 * BPS <= rs_price agg * (BPS + load_max_cluster_spread_bps o'))).
Proof.
  intros Hr%xo_reachable_inv Hn Hts Hlen H Hagg HF. unfold Submit.submit_price in H.
  apply rbind_Ok in H as (u & _ & H). apply rbind_Ok in H as (u1 & Hs%registered_elem & H).
  apply rbind_Ok in H as (u2 & Hk%known_members & H). apply rbind_Ok in H as (u3 & Hp%validate_price_ok & H).
  do 3 apply rbind_Ok in H as (? & _ & H).
  pose proof (xi_settings _ _ (store_submission_keeps now o feed signer price ts Hs Hk Hp Hts Hr)) as Hset.
  assert (load_signers (store_submission o feed signer price ts) = load_signers o
    /\ load_threshold (store_submission o feed signer price ts) = load_threshold o
    /\ load_aggregate (store_submission o feed signer price ts) feed = load_aggregate o feed) as (E1 & E2 & E3).
  { destruct (record_frame o signer feed) as (sf & Heq & _). unfold store_submission. by rewrite Heq. }
  set (o1 := store_submission o feed signer price ts) in *.
  pose proof (si_spread _ Hset) as Hsp. pose proof (si_threshold _ Hset) as Hth.
  destruct (recompute_cases _ _ _ _ _ ltac:(exact (Z.lt_le_incl _ _ (proj1 Hsp))) H) as [->|(a & Hq & ->)].
  { left. cbn in Hagg. congruence. }
  right. pose proof (stored_only o1 feed a) as Honly.
  destruct (same_votes _ _ _ env Honly) as (Ev & Es & Et & Eb & Hquorum).
  assert (a = agg) as ->.
  { unfold load_aggregate, stored in Hagg. cbn in Hagg. rewrite lookup_insert_eq in Hagg. congruence. }
  split; [by apply Hquorum|]. rewrite Ev, Eb. destruct (q_agree _ _ _ _ Hq) as [Hbig|Hclose].
  - left. apply (honest_bracket env o1 feed agg F); [apply Hset|by rewrite E1| |by rewrite E1, E2|done|done].
    change (0 < xo_threshold o1). lia.
  - right. intros v Hv. by apply (median_within env o1 feed).
Qed.

Definition submitted_env : Env := at_time (start + 60) s3.
Definition submitted_agg : RedStonePriceData :=
  mkRedStonePriceData 40100000 (start * 1000) ((start + 60) * 1000).

Lemma submitted_stored : load_aggregate submitted "XLM" = Some submitted_agg
  /\ load_aggregate live "XLM" <> Some submitted_agg.
Proof. vm_compute. split; [reflexivity|discriminate]. Qed.

Lemma aggregate_resists_faulty_witness :
  quorum submitted_env submitted "XLM" submitted_agg
  /\ (((exists s x, (s, x) ∈ votes submitted_env submitted "XLM" /\ s ∉ [s3] /\ sub_price x <= rs_price submitted_agg)
       /\ (exists s x, (s, x) ∈ votes submitted_env submitted "XLM" /\ s ∉ [s3] /\ rs_price submitted_agg <= sub_price x))
      \/ (forall v : Vote, v ∈ votes submitted_env submitted "XLM" ->
           rs_price submitted_agg * BPS <= sub_price v.2 * (BPS + load_max_cluster_spread_bps submitted)
           /\ sub_price v.2 * BPS <= rs_price submitted_agg * (BPS + load_max_cluster_spread_bps submitted))).
Proof.
  destruct (aggregate_resists_faulty submitted_env start live s3 "XLM" 400000000 ((start + 60) * 1000)
    submitted submitted_agg [s3] live_reachable ltac:(zconst) ltac:(zconst) ltac:(zconst) submitted_ok
    (proj1 submitted_stored) ltac:(zconst)) as [H|H].
  - destruct (proj2 submitted_stored H).
  - exact H.
Defined.

(** The checks of a submission. *)
Definition acceptable (env : Env) (o : XoxnoOracle) (signer : Address) (feed : string) (price ts : Z) : Prop :=
  authorized env signer = true /\ signer ∈ load_signers o /\ feed ∈ feeds o /\ price_ok price
  /\ ts / MS_PER_SECOND <= ledger_timestamp env + MAX_FUTURE_SKEW_SECONDS
  /\ ledger_timestamp env - ts / MS_PER_SECOND <= load_max_submission_age o
  /\ (forall x, load_submission o feed signer = Some x -> sub_package_timestamp x <= ts).

Lemma known_feed_Ok now o feed : xo_inv now o -> require_known_feed o feed = Ok tt <-> feed ∈ feeds o.
Proof.
  intros H. unfold require_known_feed. rewrite require_Ok. destruct (index_list_spec _ (ro_feeds _ (xi_rows _ _ H))) as [_ Hl].
  unfold feeds, load_all_feeds. rewrite Hl. symmetry. apply elem_members.
Qed.

Lemma acceptable_iff env now o signer feed price ts : xo_inv now o ->
  now <= ledger_timestamp env -> 0 <= now -> ledger_timestamp env * MS_PER_SECOND <= u64_max ->
  acceptable env o signer feed price ts <->
  exists o', Submit.submit_price env o signer feed price ts = Ok o'.
Proof.
  intros Hi Hn H0 Hu. assert (0 <= load_max_submission_age o).
  { pose proof (si_age _ (xi_settings _ _ Hi)). unfold MIN_SUBMISSION_AGE_SECONDS, MAX_FUTURE_SKEW_SECONDS in *. lia. }
  assert (ledger_timestamp env + MAX_FUTURE_SKEW_SECONDS <= u64_max) as Hu'.
  { unfold MS_PER_SECOND, MAX_FUTURE_SKEW_SECONDS, u64_max in *. lia. }
  split.
  - intros (Ha & Hs & Hf & Hp & Hfu & Hfr & Hmono). unfold Submit.submit_price.
    rewrite Ha. cbn [require rbind]. unfold require_registered_signer. rewrite bool_decide_true by done. cbn [require rbind].
    rewrite (proj2 (known_feed_Ok now o feed Hi) Hf). cbn [rbind].
    unfold Submit.validate_price. destruct Hp as [Hp1 Hp2].
    rewrite (proj2 (Z.ltb_lt _ _) Hp1), (proj2 (Z.leb_le _ _) Hp2). cbn [require rbind].
    unfold require_not_future. rewrite Z.min_l, (proj2 (Z.leb_le _ _) Hfu) by done. cbn [require rbind].
    unfold require_fresh_submission, u64_saturating_sub.
    rewrite (proj2 (Z.leb_le _ _)) by lia. cbn [require rbind].
    assert (require_monotonic_package o feed signer ts = Ok tt) as ->.
    { unfold require_monotonic_package. destruct (load_submission o feed signer) as [x|]; [|done].
      by rewrite (proj2 (Z.leb_le _ _) (Hmono x eq_refl)). }
    cbn [rbind]. apply recompute_total; [|done]. destruct (record_frame o signer feed) as (sf & Heq & _).
    unfold store_submission. rewrite Heq. cbn. pose proof (si_threshold _ (xi_settings _ _ Hi)). lia.
  - intros [o' H1]. unfold Submit.submit_price in H1. apply rbind_Ok in H1 as (u & Ha%require_Ok & H1).
    apply rbind_Ok in H1 as (u1 & Hs%registered_elem & H1). apply rbind_Ok in H1 as ([] & Hk & H1).
    apply rbind_Ok in H1 as (u3 & Hp%validate_price_ok & H1). apply rbind_Ok in H1 as (u4 & Hfu%require_Ok & H1).
    apply rbind_Ok in H1 as (u5 & Hfr%require_Ok & H1). apply rbind_Ok in H1 as (u6 & Hm & _). b2p.
    apply (known_feed_Ok now) in Hk; [|done]. unfold u64_saturating_sub in Hfr.
    split; [done|]. split; [done|]. split; [done|]. split; [done|]. split; [lia|]. split; [lia|].
    intros x Hx. unfold require_monotonic_package in Hm. rewrite Hx in Hm. apply require_Ok in Hm. by b2p.
Qed.

(** (functional) A submission succeeds exactly when a registered signer authorised it for
    a registered feed with a price in range and a timestamp that is neither future, stale
    nor older than the signer's last; it then records that submission and changes no other
    signer's row, no other feed's aggregate or history, no setting and no registration, and
    it never takes an aggregate away. *)
Theorem submission_is_confined env now o signer feed price ts :
  xo_reachable now o -> now <= ledger_timestamp env -> ledger_timestamp env * MS_PER_SECOND <= u64_max ->
  (acceptable env o signer feed price ts <-> exists o', Submit.submit_price env o signer feed price ts = Ok o')
  /\ forall o', Submit.submit_price env o signer feed price ts = Ok o' ->
     xo_submissions o' = <[(feed, signer) := mkSignerSubmission price ts]> (xo_submissions o)
     /\ (forall f, f <> feed -> load_aggregate o' f = load_aggregate o f /\ load_history o' f = load_history o f)
     /\ (is_Some (load_aggregate o feed) -> is_Some (load_aggregate o' feed))
     /\ exists sf, unpriced o' = unpriced (set_signer_feeds o sf).
Proof.
  intros Hr Hn Hu. pose proof (reachable_time _ _ Hr). apply xo_reachable_inv in Hr.
  split; [by apply (acceptable_iff env now)|]. intros o' H1. unfold Submit.submit_price in H1.
  do 7 apply rbind_Ok in H1 as (? & _ & H1). destruct (record_frame o signer feed) as (sf & Heq & _).
  unfold store_submission in H1. rewrite Heq in H1.
  assert (0 <= load_max_cluster_spread_bps o) as Hsp by (pose proof (si_spread _ (xi_settings _ _ Hr)); lia).
  pose proof (recompute_only _ (store_submission_record (set_signer_feeds o sf) feed signer price ts)
    _ _ _ Hsp H1) as [Hb Hs Ha Hh].
  split; [done|]. split; [intros f Hf; split; [by apply Ha|by apply Hh]|]. split; [|by exists sf].
  apply (recompute_cases _ (store_submission_record (set_signer_feeds o sf) feed signer price ts)) in H1
    as [-> | (a & _ & ->)]; [done| |done].
  intros _. exists a. unfold stored, load_aggregate. cbn. apply lookup_insert_eq.
Qed.

Lemma submission_is_confined_witness :
  acceptable submitted_env live s3 "XLM" 400000000 ((start + 60) * 1000)
  /\ xo_submissions submitted
     = <[("XLM", s3) := mkSignerSubmission 400000000 ((start + 60) * 1000)]> (xo_submissions live).
Proof.
  destruct (submission_is_confined submitted_env start live s3 "XLM" 400000000 ((start + 60) * 1000)
    live_reachable ltac:(zconst) ltac:(zconst)) as [H1 H2].
  split; [apply H1; exists submitted; exact submitted_ok|exact (proj1 (H2 submitted submitted_ok))].
Defined.

(** (equivalence) When a mapped feed has a fresh aggregate, every read agrees with it and
    with the stored history: the last price is the aggregate, the one-entry history is that
    price, and the price at a time is the newest entry whose timestamp is not after it. *)
Theorem oracle_reads_agree env now o a feed d h t :
  xo_reachable now o -> load_feed_id o a = Some feed -> load_history o feed = Some h ->
  read_price_data_for_feed env o feed = Ok d ->
  lastprice env o a = Ok (Some (quoted d))
  /\ prices env o a 1 = Ok (Some [quoted d])
  /\ prices env o a MAX_HISTORY_LEN = Ok (Some (quoted <$> reverse h))
  /\ exists b, price env o a t = Ok (quoted <$> b) /\ best_of t (reverse h) b.
Proof.
  intros Hr%xo_reachable_inv Ha Hh Hd. pose proof (read_aggregate_ok env now o Hr feed d Hd) as Hok.
  destruct (read_history env now o Hr feed d Hd) as (l & Hl & Hhist). rewrite Hh in Hl. injection Hl as ->.
  pose proof (hi_prices _ _ Hhist) as HF. pose proof (hi_bounded _ _ Hhist) as Hb.
  assert (take (Z.to_nat MAX_HISTORY_LEN) (reverse (l ++ [d])) = reverse (l ++ [d])) as Htake.
  { apply take_ge. rewrite length_reverse. lia. }
  assert (Forall aggregate_ok (reverse (l ++ [d]))) as HFr by (by rewrite reverse_Permutation).
  unfold lastprice, prices, price. rewrite Ha, Hd. cbn [ok_opt rbind].
  rewrite !(history_reads env now o Hr feed d Hd _ _ Hh), Htake.
  rewrite to_reflector_ok by done. cbn [rbind ok_opt]. rewrite reverse_snoc. cbn [take Z.to_nat Pos.to_nat Pos.iter_op].
  split; [done|]. split; [|split].
  - change (Z.to_nat 1) with 1%nat. cbn [take]. rewrite convert_loop by (by apply Forall_singleton). done.
  - rewrite reverse_snoc in HFr. rewrite convert_loop by done. done.
  - pose proof (best_loop t (d :: reverse l)) as Hbest. eexists. split; [|exact Hbest].
    set (b := fold_left _ _ _) in *. destruct b as [b|]; [|done].
    rewrite to_reflector_ok; [done|]. destruct Hbest as [Hin _]. rewrite reverse_snoc in HFr.
    rewrite Forall_forall in HFr. by apply HFr.
Qed.

Lemma oracle_reads_agree_witness :
  lastprice submitted_env live xlm = Ok (Some (mkReflectorPriceData 40000000 start))
  /\ exists b, price submitted_env live xlm (start + 1) = Ok (quoted <$> b)
     /\ best_of (start + 1) (reverse (default [] (load_history live "XLM"))) b.
Proof.
  destruct (oracle_reads_agree submitted_env start live xlm "XLM"
    (mkRedStonePriceData 40000000 (start * 1000) (start * 1000)) (default [] (load_history live "XLM")) (start + 1)
    live_reachable eq_refl eq_refl eq_refl) as (H1 & _ & _ & H2).
  split; [exact H1|exact H2].
Defined.

(** C17: (refinement) An oracle of this contract provides what the price aggregator relies on:
    put behind the aggregator's interface beside any other well-behaved providers, its
    answers are well typed, a bulk read equals the single reads, and a price read is
    positive, bounded, and written at most the staleness bound ago. *)
Theorem xoxno_serves_aggregator env oracles rest :
  (forall c o, oracles c = Some o -> exists now, now <= ledger_timestamp env /\ xo_reachable now o) ->
  @TypedProviders rest -> @ConsistentFeeds rest ->
  @TypedProviders (xoxno_providers env oracles rest)
  /\ @ConsistentFeeds (xoxno_providers env oracles rest)
  /\ forall c o f d, oracles c = Some o -> @redstone_feed (xoxno_providers env oracles rest) c f = Some d ->
     price_ok (rs_price d) /\ f ∈ feeds o
     /\ rs_write_timestamp d <= ledger_timestamp env * MS_PER_SECOND
     /\ ledger_timestamp env - rs_write_timestamp d / MS_PER_SECOND <= load_max_stale_seconds o.
Proof.
  intros Hr Ht Hc. split; [by apply xoxno_typed|]. split; [by apply xoxno_consistent|].
  intros c o f d Ho. cbn. rewrite Ho. destruct (read_price_data_for_feed env o f) as [x|] eqn:Hx; [|done].
  intros [= <-]. destruct (Hr _ _ Ho) as (now & Hn & Hi%xo_reachable_inv).
  destruct (read_history env now o Hi f x Hx) as (h & Hh & Hok).
  destruct (pr_histories _ _ (xi_prices _ _ Hi) _ _ Hh) as [Hk _].
  destruct (read_aggregate_ok env now o Hi f x Hx) as [Hp _]. apply read_cases in Hx as [_ Hs].
  pose proof (hi_past _ _ Hok) as Hpast. apply Forall_app in Hpast as [_ Hpast].
  apply (proj1 (Forall_singleton _ _)) in Hpast. unfold u64_saturating_sub, MS_PER_SECOND in *.
  split; [done|]. split; [|split; lia].
  destruct (index_list_spec _ (ro_feeds _ (xi_rows _ _ Hi))) as [_ Hl]. by apply Hl.
Qed.

Definition one_oracle (c : Address) : option XoxnoOracle :=
  if bool_decide (c = addr 50) then Some live else None.

Lemma one_oracle_reachable c o : one_oracle c = Some o ->
  exists now, now <= ledger_timestamp submitted_env /\ xo_reachable now o.
Proof.
  unfold one_oracle. destruct (bool_decide _); [|discriminate]. intros [= <-].
  exists start. split; [zconst|exact live_reachable].
Qed.

Lemma xoxno_serves_aggregator_witness :
  @TypedProviders (xoxno_providers submitted_env one_oracle AggSample.ledger)
  /\ @ConsistentFeeds (xoxno_providers submitted_env one_oracle AggSample.ledger).
Proof.
  destruct (xoxno_serves_aggregator submitted_env one_oracle AggSample.ledger one_oracle_reachable
    AggSample.ledger_typed AggSample.ledger_consistent) as (H1 & H2 & _).
  split; [exact H1|exact H2].
Defined.

End XoxnoProps.
