(* ===== verification/SwapProgram.v ===== *)
(** * Swap aggregator: errors and packed programs
      (contracts/swap-aggregator/src/errors.rs, types.rs, constants.rs, program.rs)

    A strategy is a packed byte string over two registries.  [decode] is the parser with its
    structural checks, [program] the serializer the source keeps beside it; a buffer access out
    of range is a trap.  The second half shows that the two are inverse on the programs
    [legal] describes, and that nothing else decodes. *)

From S2P Require Import Prelude Errors FpCore Fp PoolTypes PoolCache.
From stdpp Require Import base numbers list gmap.
From Stdlib Require Import ZArith Lia Bool.
From Stdlib Require Strings.Byte.

Open Scope Z_scope.

(** ** Errors (errors.rs) *)

Module RouterError.

Inductive Error : Type :=
| EmptyBatch
| InvalidAmount
| BrokenTokenChain
| SlippageExceeded
| ZeroOutput
| IntegerOverflow
| ZeroSplitPpm
| SplitPpmMismatch
| InvalidRouteXdr
| NotAdmin
| FeeTooHigh
| ReferralNotFound
| SameToken
| LpTokenMismatch
| MinSharesNotMet
| MinAmountsNotMet
| ExcessiveResidual
| InternalInvariant.

Definition Error_code (e : Error) : Z :=
  match e with
  | EmptyBatch => 1
  | InvalidAmount => 3
  | BrokenTokenChain => 4
  | SlippageExceeded => 5
  | ZeroOutput => 7
  | IntegerOverflow => 9
  | ZeroSplitPpm => 11
  | SplitPpmMismatch => 12
  | InvalidRouteXdr => 13
  | NotAdmin => 20
  | FeeTooHigh => 21
  | ReferralNotFound => 22
  | SameToken => 25
  | LpTokenMismatch => 26
  | MinSharesNotMet => 27
  | MinAmountsNotMet => 28
  | ExcessiveResidual => 29
  | InternalInvariant => 30
  end.

End RouterError.

(** A call fails with an error of the router, with an error of the shared crate, or in the
    host (a failed call into another contract included). *)
Inductive RouterFailure : Type :=
| RFault (e : RouterError.Error)
| RShared (e : Errors.Error)
| RTrap.

Abbreviation rres A := (result RouterFailure A).

(** ** Wire types (types.rs) *)

Inductive SwapVenue : Type :=
| Soroswap
| Aquarius
| Phoenix
| Sushi
| CometDex
| Curve.

Record SwapHop : Type := mkSwapHop {
  hop_pool : Address;
  hop_token_in : Address;
  hop_token_out : Address;
  hop_venue : SwapVenue
}.

Record StrategyPayload : Type := mkStrategyPayload {
  amounts : list Z;
  assets : list Address;
  ops : list Byte.byte
}.

(** ** Constants (constants.rs) *)

Definition PPM_DENOMINATOR : Z := 1000000.
Definition RESIDUAL_DUST_FLOOR : Z := 1000.
Definition RESIDUAL_PPM : Z := 1000000.
Definition FEE_CAP : Z := 1000.

Definition residual_allowance (credited : Z) : Z :=
  Z.max (Z.quot credited RESIDUAL_PPM) RESIDUAL_DUST_FLOOR.

(** ** Programs (program.rs) *)

Module Program.

Import RouterError.

Definition VERSION : nat := 1.
Definition HEADER_LEN : nat := 10.
Definition OP_LEN : nat := 5.
Definition WEIGHT_LEN : nat := 3.

Definition head_VERSION : nat := 0.
Definition head_TOKEN_IN : nat := 1.
Definition head_TOKEN_OUT : nat := 2.
Definition head_MIN_OUT : nat := 3.
Definition head_REFERRAL : nat := 4.
Definition head_OP_COUNT : nat := 8.
Definition head_WEIGHT_COUNT : nat := 9.

Definition field_OPCODE : nat := 0.
Definition field_MODE : nat := 1.
Definition field_POOL : nat := 2.
Definition field_TOKEN_IN : nat := 3.
Definition field_TOKEN_OUT : nat := 4.

Definition MAX_OPS : nat := 48.
Definition MAX_WEIGHTS : nat := 32.
Definition MAX_PROGRAM_BYTES : nat := HEADER_LEN + OP_LEN * MAX_OPS + WEIGHT_LEN * MAX_WEIGHTS.

Definition MODE_ALL : nat := 0.
Definition MODE_PREV : nat := 1.
Definition MODE_FIXED_BASE : nat := 2.
Definition MODE_PPM_BASE : nat := 128.

Definition MAX_ASSETS : nat := 256.
Definition MAX_AMOUNTS : nat := MODE_PPM_BASE - MODE_FIXED_BASE.

(** A byte as the index it denotes, and back (the low eight bits). *)
Definition u8 (b : Byte.byte) : nat := N.to_nat (Byte.to_N b).
Definition byte_of (n : N) : Byte.byte := default Byte.x00 (Byte.of_N (n mod 256)).

Inductive Opcode : Type :=
| Swap (venue : SwapVenue)
| Burn
| Mint.

Definition opcode_from_u8 (value : nat) : option Opcode :=
  match value with
  | 0 => Some (Swap Soroswap)
  | 1 => Some (Swap Aquarius)
  | 2 => Some (Swap Phoenix)
  | 3 => Some (Swap Sushi)
  | 4 => Some (Swap CometDex)
  | 5 => Some Burn
  | 6 => Some Mint
  | 7 => Some (Swap Curve)
  | _ => None
  end%nat.

Inductive Mode : Type :=
| All
| Prev
| Fixed (idx : nat)
| Ppm (idx : nat).

#[export] Instance Mode_eq_dec : EqDecision Mode.
Proof. solve_decision. Defined.

Definition mode_from_u8 (value : nat) : Mode :=
  if (value =? MODE_ALL)%nat then All
  else if (value =? MODE_PREV)%nat then Prev
  else if (MODE_PPM_BASE <=? value)%nat then Ppm (value - MODE_PPM_BASE)
  else Fixed (value - MODE_FIXED_BASE).

Record Op : Type := mkOp {
  opcode : Opcode;
  mode : Mode;
  idx_a : nat;
  idx_b : nat;
  idx_c : nat
}.

Record Program : Type := mkProgram {
  buf : list Byte.byte;
  op_count : nat;
  weights_at : nat;
  token_in : nat;
  token_out : nat;
  min_out : nat;
  referral_id : Z
}.

(** [buf[at]]: out of range, the indexing panics. *)
Definition byte_at (buf : list Byte.byte) (i : nat) : rres nat :=
  match buf !! i with
  | Some b => Ok (u8 b)
  | None => Err RTrap
  end.

(** [u32::from_be_bytes] *)
Definition from_be_bytes (b0 b1 b2 b3 : nat) : Z :=
  ((Z.of_nat b0 * 256 + Z.of_nat b1) * 256 + Z.of_nat b2) * 256 + Z.of_nat b3.

(** The slice of instruction [i]; a range past the buffer panics. *)
Definition raw (p : Program) (i : nat) : rres (list Byte.byte) :=
  let start := (HEADER_LEN + OP_LEN * i)%nat in
  do! require (start + OP_LEN <=? length (buf p))%nat RTrap in
  Ok (take OP_LEN (drop start (buf p))).

Definition len (p : Program) : nat := op_count p.

Definition op (p : Program) (i : nat) : rres Op :=
  let* record := raw p i in
  let* opcode_byte := byte_at record field_OPCODE in
  let* opcode := of_option (RFault InvalidRouteXdr) (opcode_from_u8 opcode_byte) in
  let* mode_byte := byte_at record field_MODE in
  let* a := byte_at record field_POOL in
  let* b := byte_at record field_TOKEN_IN in
  let* c := byte_at record field_TOKEN_OUT in
  Ok (mkOp opcode (mode_from_u8 mode_byte) a b c).

Definition weight (p : Program) (i : nat) : rres Z :=
  let start := (weights_at p + WEIGHT_LEN * i)%nat in
  let* b1 := byte_at (buf p) start in
  let* b2 := byte_at (buf p) (start + 1) in
  let* b3 := byte_at (buf p) (start + 2) in
  Ok (from_be_bytes 0 b1 b2 b3).

(** [assets.get_unchecked(i)]: out of range, the host traps. *)
Definition get_unchecked {A : Type} (l : list A) (i : nat) : rres A := of_option RTrap (l !! i).

Definition same_token (assets : list Address) (a b : nat) : rres bool :=
  if (a =? b)%nat then Ok true
  else
    let* x := get_unchecked assets a in
    let* y := get_unchecked assets b in
    Ok (bool_decide (x = y)).

(** The [Prev] link of instruction [i]. *)
Definition validate_prev (p : Program) (i : nat) (b : nat) : rres unit :=
  match i with
  | O => Err (RFault BrokenTokenChain)
  | S j =>
      let* previous := raw p j in
      let* previous_opcode := byte_at previous field_OPCODE in
      let* produced :=
        (match opcode_from_u8 previous_opcode with
         | Some (Swap _) => byte_at previous field_TOKEN_OUT
         | Some Mint => byte_at previous field_TOKEN_IN
         | _ => Err (RFault BrokenTokenChain)
         end) in
      require (b =? produced)%nat (RFault BrokenTokenChain)
  end.

(** One turn of the instruction loop of [validate]. *)
Definition validate_op (p : Program) (assets : list Address) (amounts_len weight_count : nat)
    (i : nat) : rres unit :=
  let assets_len := length assets in
  let* record := raw p i in
  let* opcode_byte := byte_at record field_OPCODE in
  let* opcode := of_option (RFault InvalidRouteXdr) (opcode_from_u8 opcode_byte) in
  let* mode_byte := byte_at record field_MODE in
  let mode := mode_from_u8 mode_byte in
  let* a := byte_at record field_POOL in
  let* b := byte_at record field_TOKEN_IN in
  let* c := byte_at record field_TOKEN_OUT in
  do! (if bool_decide (mode = Prev) then validate_prev p i b else Ok tt) in
  do! (match mode with
       | Fixed idx => require (idx <? amounts_len)%nat (RFault InvalidRouteXdr)
       | Ppm idx => require (idx <? weight_count)%nat (RFault InvalidRouteXdr)
       | _ => Ok tt
       end) in
  do! require ((a <? assets_len) && (b <? assets_len))%nat (RFault InvalidRouteXdr) in
  match opcode with
  | Swap _ =>
      do! require (c <? assets_len)%nat (RFault InvalidRouteXdr) in
      let* same := same_token assets b c in
      require (negb same) (RFault SameToken)
  | Burn | Mint =>
      do! require (bool_decide (mode = All)) (RFault InvalidRouteXdr) in
      require (c <? amounts_len)%nat (RFault InvalidRouteXdr)
  end.

(** One turn of the weight loop of [validate]. *)
Definition validate_weight (p : Program) (i : nat) : rres unit :=
  let* ppm := weight p i in
  do! require (negb (ppm =? 0)) (RFault ZeroSplitPpm) in
  require (ppm <=? PPM_DENOMINATOR) (RFault SplitPpmMismatch).

Definition validate (p : Program) (assets : list Address) (amounts_len weight_count : nat)
    : rres unit :=
  do! rfold (fun _ i => validate_op p assets amounts_len weight_count i) tt
        (seq 0 (op_count p)) in
  rfold (fun _ i => validate_weight p i) tt (seq 0 weight_count).

Definition decode (ops : list Byte.byte) (assets : list Address) (amounts_len : nat)
    : rres Program :=
  let assets_len := length assets in
  do! require (negb ((assets_len =? 0) || (MAX_ASSETS <? assets_len)
                     || (MAX_AMOUNTS <? amounts_len)))%nat (RFault InvalidRouteXdr) in
  let len := length ops in
  do! require (negb ((len <? HEADER_LEN) || (MAX_PROGRAM_BYTES <? len)))%nat
        (RFault InvalidRouteXdr) in
  let buf := ops ++ replicate (MAX_PROGRAM_BYTES - len) Byte.x00 in
  let* version := byte_at buf head_VERSION in
  do! require (version =? VERSION)%nat (RFault InvalidRouteXdr) in
  let* op_count := byte_at buf head_OP_COUNT in
  let* weight_count := byte_at buf head_WEIGHT_COUNT in
  do! require (negb ((op_count =? 0) || (MAX_OPS <? op_count) || (MAX_WEIGHTS <? weight_count)))%nat
        (RFault EmptyBatch) in
  let weights_at := (HEADER_LEN + OP_LEN * op_count)%nat in
  do! require (len =? weights_at + WEIGHT_LEN * weight_count)%nat (RFault InvalidRouteXdr) in
  let* token_in := byte_at buf head_TOKEN_IN in
  let* token_out := byte_at buf head_TOKEN_OUT in
  let* min_out := byte_at buf head_MIN_OUT in
  do! require ((token_in <? assets_len) && (token_out <? assets_len)
               && (min_out <? amounts_len))%nat (RFault InvalidRouteXdr) in
  let* same := same_token assets token_in token_out in
  do! require (negb same) (RFault SameToken) in
  let* r0 := byte_at buf head_REFERRAL in
  let* r1 := byte_at buf (head_REFERRAL + 1) in
  let* r2 := byte_at buf (head_REFERRAL + 2) in
  let* r3 := byte_at buf (head_REFERRAL + 3) in
  let p := mkProgram buf op_count weights_at token_in token_out min_out
             (from_be_bytes r0 r1 r2 r3) in
  do! validate p assets amounts_len weight_count in
  Ok p.

(** ** The serializer (program.rs, module [encode]) *)

Record RawOp : Type := mkRawOp {
  raw_opcode : Byte.byte;
  raw_mode : Byte.byte;
  raw_a : Byte.byte;
  raw_b : Byte.byte;
  raw_c : Byte.byte
}.

(** [u32::to_be_bytes] *)
Definition to_be_bytes (z : Z) : list Byte.byte :=
  [ byte_of (Z.to_N (Z.shiftr z 24)); byte_of (Z.to_N (Z.shiftr z 16));
    byte_of (Z.to_N (Z.shiftr z 8)); byte_of (Z.to_N z) ].

Definition encode_op (o : RawOp) : list Byte.byte :=
  [raw_opcode o; raw_mode o; raw_a o; raw_b o; raw_c o].

Definition encode_weight (w : Z) : list Byte.byte := drop 1 (to_be_bytes w).

Definition program (token_in token_out min_out : Byte.byte) (referral_id : Z)
    (ops : list RawOp) (weights : list Z) : list Byte.byte :=
  [byte_of (N.of_nat VERSION); token_in; token_out; min_out] ++ to_be_bytes referral_id
  ++ [byte_of (N.of_nat (length ops)); byte_of (N.of_nat (length weights))]
  ++ concat (map encode_op ops) ++ concat (map encode_weight weights).

(** [encode::fixed], [encode::ppm] *)
Definition fixed (idx : nat) : Byte.byte := byte_of (N.of_nat (MODE_FIXED_BASE + idx)).
Definition ppm (idx : nat) : Byte.byte := byte_of (N.of_nat (MODE_PPM_BASE + idx)).

End Program.

(** ** What a byte string means

    [Source] is a program before packing.  [legal] lists, without bytes or offsets, what makes
    one acceptable; [loaded] is the buffer the router keeps. *)

Module ProgramSpec.

Import Program.

Record Source : Type := mkSource {
  s_token_in : Byte.byte;
  s_token_out : Byte.byte;
  s_min_out : Byte.byte;
  s_referral : Z;
  s_ops : list RawOp;
  s_weights : list Z
}.

Definition encode (s : Source) : list Byte.byte :=
  program (s_token_in s) (s_token_out s) (s_min_out s) (s_referral s) (s_ops s) (s_weights s).

(** What the fields of the layout can carry. *)
Definition wire (s : Source) : Prop :=
  (length (s_ops s) < 256)%nat /\ (length (s_weights s) < 256)%nat
  /\ 0 <= s_referral s < 2 ^ 32 /\ Forall (fun w => 0 <= w < 2 ^ 24) (s_weights s).

(** The registry index of the single output of an instruction. *)
Definition produces (o : RawOp) : option nat :=
  match opcode_from_u8 (u8 (raw_opcode o)) with
  | Some (Swap _) => Some (u8 (raw_c o))
  | Some Mint => Some (u8 (raw_b o))
  | _ => None
  end.

Definition distinct_assets (assets : list Address) (i j : nat) : Prop :=
  exists x y, assets !! i = Some x /\ assets !! j = Some y /\ x <> y.

Definition legal_mode (s : Source) (amounts_len i : nat) (o : RawOp) : Prop :=
  match mode_from_u8 (u8 (raw_mode o)) with
  | All => True
  | Prev => exists j before, i = S j /\ s_ops s !! j = Some before
              /\ produces before = Some (u8 (raw_b o))
  | Fixed idx => (idx < amounts_len)%nat
  | Ppm idx => (idx < length (s_weights s))%nat
  end.

Definition legal_op (s : Source) (assets : list Address) (amounts_len i : nat) (o : RawOp) : Prop :=
  exists code, opcode_from_u8 (u8 (raw_opcode o)) = Some code
  /\ legal_mode s amounts_len i o
  /\ (u8 (raw_a o) < length assets)%nat /\ (u8 (raw_b o) < length assets)%nat
  /\ match code with
     | Swap _ => distinct_assets assets (u8 (raw_b o)) (u8 (raw_c o))
     | Burn | Mint => mode_from_u8 (u8 (raw_mode o)) = All /\ (u8 (raw_c o) < amounts_len)%nat
     end.

Definition legal (assets : list Address) (amounts_len : nat) (s : Source) : Prop :=
  wire s
  /\ (0 < length assets <= MAX_ASSETS)%nat /\ (amounts_len <= MAX_AMOUNTS)%nat
  /\ (0 < length (s_ops s) <= MAX_OPS)%nat /\ (length (s_weights s) <= MAX_WEIGHTS)%nat
  /\ distinct_assets assets (u8 (s_token_in s)) (u8 (s_token_out s))
  /\ (u8 (s_min_out s) < amounts_len)%nat
  /\ (forall i o, s_ops s !! i = Some o -> legal_op s assets amounts_len i o)
  /\ Forall (fun w => 0 < w <= PPM_DENOMINATOR) (s_weights s).

Definition loaded (s : Source) : Program :=
  {| buf := encode s ++ replicate (MAX_PROGRAM_BYTES - length (encode s)) Byte.x00;
     op_count := length (s_ops s);
     weights_at := HEADER_LEN + OP_LEN * length (s_ops s);
     token_in := u8 (s_token_in s);
     token_out := u8 (s_token_out s);
     min_out := u8 (s_min_out s);
     referral_id := s_referral s |}.

(** ** Bytes *)

Lemma u8_lt b : (u8 b < 256)%nat.
Proof. unfold u8. pose proof (Byte.to_N_bounded b). lia. Qed.

Lemma u8_byte_of n : u8 (byte_of n) = N.to_nat (n mod 256).
Proof.
  unfold byte_of, u8. destruct (Byte.of_N (n mod 256)) as [b|] eqn:E; cbn.
  - by apply Byte.to_of_N in E as ->.
  - apply Byte.of_N_None_iff in E. pose proof (N.mod_lt n 256). lia.
Qed.

Lemma byte_of_u8 b : byte_of (N.of_nat (u8 b)) = b.
Proof.
  unfold byte_of, u8. rewrite N2Nat.id.
  rewrite N.mod_small by (pose proof (Byte.to_N_bounded b); lia).
  by rewrite Byte.of_to_N.
Qed.

Lemma u8_byte_of_nat n : (n < 256)%nat -> u8 (byte_of (N.of_nat n)) = n.
Proof. intros H. rewrite u8_byte_of, N.mod_small by lia. lia. Qed.

Lemma u8_byte_of_Z z : 0 <= z -> Z.of_nat (u8 (byte_of (Z.to_N z))) = z mod 256.
Proof.
  intros H. rewrite u8_byte_of. rewrite N_nat_Z, N2Z.inj_mod, Z2N.id by lia. done.
Qed.

(** Shifts by whole bytes as iterated division. *)
Lemma shift_bytes z : Z.shiftr z 8 = z / 256 /\ Z.shiftr z 16 = z / 256 / 256
  /\ Z.shiftr z 24 = z / 256 / 256 / 256.
Proof.
  rewrite !Z.shiftr_div_pow2 by lia. rewrite !Z.div_div by lia. done.
Qed.

Lemma digit q r : 0 <= r < 256 -> (256 * q + r) / 256 = q /\ (256 * q + r) mod 256 = r.
Proof.
  intros H. split; symmetry.
  - apply (Z.div_unique_pos _ 256 _ r); lia.
  - apply (Z.mod_unique_pos _ 256 q); lia.
Qed.

Lemma to_from_be z : 0 <= z < 2 ^ 32 ->
  from_be_bytes (u8 (byte_of (Z.to_N (Z.shiftr z 24)))) (u8 (byte_of (Z.to_N (Z.shiftr z 16))))
    (u8 (byte_of (Z.to_N (Z.shiftr z 8)))) (u8 (byte_of (Z.to_N z))) = z.
Proof.
  intros Hz. change (2 ^ 32) with 4294967296 in Hz.
  destruct (shift_bytes z) as (-> & -> & ->).
  unfold from_be_bytes.
  assert (0 <= z) by lia. assert (0 <= z / 256) by (apply Z.div_pos; lia).
  assert (0 <= z / 256 / 256) by (apply Z.div_pos; lia).
  assert (0 <= z / 256 / 256 / 256) by (apply Z.div_pos; lia).
  assert (z / 256 / 256 / 256 < 256) by (rewrite !Z.div_div by lia; apply Z.div_lt_upper_bound; lia).
  rewrite !u8_byte_of_Z by assumption.
  rewrite (Z.mod_small (z / 256 / 256 / 256)) by done.
  pose proof (Z.div_mod z 256 ltac:(lia)).
  pose proof (Z.div_mod (z / 256) 256 ltac:(lia)).
  pose proof (Z.div_mod (z / 256 / 256) 256 ltac:(lia)). lia.
Qed.

Lemma byte_of_digit z b : 0 <= z -> z mod 256 = Z.of_nat (u8 b) -> byte_of (Z.to_N z) = b.
Proof.
  intros Hp Hm. rewrite <- (byte_of_u8 b). unfold byte_of. do 2 f_equal.
  apply N2Z.inj. rewrite !N2Z.inj_mod, Z2N.id by lia. rewrite nat_N_Z.
  rewrite (Z.mod_small (Z.of_nat (u8 b))); [done|]. pose proof (u8_lt b). lia.
Qed.

Lemma from_to_be b0 b1 b2 b3 :
  to_be_bytes (from_be_bytes (u8 b0) (u8 b1) (u8 b2) (u8 b3)) = [b0; b1; b2; b3]
  /\ 0 <= from_be_bytes (u8 b0) (u8 b1) (u8 b2) (u8 b3) < 2 ^ 32.
Proof.
  pose proof (u8_lt b0). pose proof (u8_lt b1). pose proof (u8_lt b2). pose proof (u8_lt b3).
  set (n0 := Z.of_nat (u8 b0)). set (n1 := 256 * n0 + Z.of_nat (u8 b1)).
  set (n2 := 256 * n1 + Z.of_nat (u8 b2)). set (n3 := 256 * n2 + Z.of_nat (u8 b3)).
  assert (from_be_bytes (u8 b0) (u8 b1) (u8 b2) (u8 b3) = n3) as -> by (unfold from_be_bytes; lia).
  destruct (digit n0 (Z.of_nat (u8 b1)) ltac:(lia)) as [D1 M1].
  destruct (digit n1 (Z.of_nat (u8 b2)) ltac:(lia)) as [D2 M2].
  destruct (digit n2 (Z.of_nat (u8 b3)) ltac:(lia)) as [D3 M3].
  fold n1 in D1, M1. fold n2 in D2, M2. fold n3 in D3, M3.
  split; [|lia]. unfold to_be_bytes.
  destruct (shift_bytes n3) as (-> & -> & ->). rewrite D3, D2, D1.
  rewrite (byte_of_digit n0 b0), (byte_of_digit n1 b1), (byte_of_digit n2 b2),
    (byte_of_digit n3 b3); try done; try lia.
  rewrite Z.mod_small; lia.
Qed.

(** ** Records of equal length *)

Section Chunks.

Context {A B : Type} (f : A -> list B) (k : nat) (Hk : forall x, length (f x) = k).

Lemma length_chunks l : length (concat (map f l)) = (k * length l)%nat.
Proof. induction l as [|x l IH]; cbn; [lia|]. rewrite length_app, Hk, IH. lia. Qed.

Lemma chunk_at l i x rest : l !! i = Some x ->
  take k (drop (k * i) (concat (map f l) ++ rest)) = f x.
Proof.
  revert i. induction l as [|y l IH]; intros [|i] H; cbn in *; try done.
  - injection H as ->. rewrite Nat.mul_0_r, drop_0, <- app_assoc. rewrite <- (Hk x).
    apply take_app_length.
  - rewrite <- app_assoc. replace (k * S i)%nat with (length (f y) + k * i)%nat by (rewrite Hk; lia).
    rewrite drop_app_add. by apply IH.
Qed.

Lemma chunk_lookup l i x rest j b : l !! i = Some x -> f x !! j = Some b ->
  (concat (map f l) ++ rest) !! (k * i + j)%nat = Some b.
Proof.
  intros Hi Hj. rewrite <- (chunk_at l i x rest Hi) in Hj.
  rewrite lookup_take in Hj. destruct (decide (j < k)%nat); [|done].
  by rewrite lookup_drop in Hj.
Qed.

Lemma chunks_onto (onto : forall c, length c = k -> exists x, f x = c) n (l : list B) :
  length l = (k * n)%nat -> exists xs, length xs = n /\ concat (map f xs) = l.
Proof.
  revert l. induction n as [|n IH]; intros l H.
  - exists []. destruct l; [done|]. cbn in H. lia.
  - destruct (onto (take k l)) as (x & Hx); [rewrite length_take; lia|].
    destruct (IH (drop k l)) as (xs & Hn & Hc); [rewrite length_drop; lia|].
    exists (x :: xs). cbn. rewrite Hx, Hc, take_drop. auto.
Qed.

End Chunks.

(** ** Reading a packed program *)

Definition header (s : Source) : list Byte.byte :=
  [byte_of (N.of_nat VERSION); s_token_in s; s_token_out s; s_min_out s]
  ++ to_be_bytes (s_referral s)
  ++ [byte_of (N.of_nat (length (s_ops s))); byte_of (N.of_nat (length (s_weights s)))].

Lemma encode_eq s : encode s
  = header s ++ concat (map encode_op (s_ops s)) ++ concat (map encode_weight (s_weights s)).
Proof. reflexivity. Qed.

Lemma length_header s : length (header s) = HEADER_LEN.
Proof. reflexivity. Qed.

Lemma length_op o : length (encode_op o) = OP_LEN.
Proof. reflexivity. Qed.

Lemma length_weight w : length (encode_weight w) = WEIGHT_LEN.
Proof. reflexivity. Qed.

Lemma length_encode s : length (encode s)
  = (HEADER_LEN + OP_LEN * length (s_ops s) + WEIGHT_LEN * length (s_weights s))%nat.
Proof.
  rewrite encode_eq, !length_app, length_header.
  rewrite (length_chunks encode_op OP_LEN length_op), (length_chunks encode_weight WEIGHT_LEN length_weight).
  lia.
Qed.

Lemma buf_loaded s : exists pad, buf (loaded s)
  = header s ++ concat (map encode_op (s_ops s)) ++ concat (map encode_weight (s_weights s)) ++ pad.
Proof.
  exists (replicate (MAX_PROGRAM_BYTES - length (encode s)) Byte.x00).
  cbn [buf loaded]. rewrite encode_eq at 1. by rewrite <- !app_assoc.
Qed.

Lemma raw_loaded s i o : s_ops s !! i = Some o -> raw (loaded s) i = Ok (encode_op o).
Proof.
  intros Hi. destruct (buf_loaded s) as (pad & Hbuf). unfold raw. rewrite Hbuf.
  pose proof (lookup_lt_Some _ _ _ Hi) as Hlt.
  rewrite (proj2 (Nat.leb_le _ _)).
  - cbn [rbind require]. f_equal. change HEADER_LEN with (length (header s)); rewrite drop_app_add.
    by apply (chunk_at encode_op OP_LEN length_op).
  - rewrite !length_app, length_header, (length_chunks encode_op OP_LEN length_op).
    unfold OP_LEN in *. lia.
Qed.

Lemma op_loaded s i o code : s_ops s !! i = Some o ->
  opcode_from_u8 (u8 (raw_opcode o)) = Some code ->
  op (loaded s) i = Ok (mkOp code (mode_from_u8 (u8 (raw_mode o)))
                          (u8 (raw_a o)) (u8 (raw_b o)) (u8 (raw_c o))).
Proof.
  intros Hi Hcode. unfold op. rewrite (raw_loaded s i o Hi). cbn [rbind].
  change (byte_at (encode_op o) field_OPCODE) with (Ok (E := RouterFailure) (u8 (raw_opcode o))).
  cbn [rbind]. rewrite Hcode. reflexivity.
Qed.

Lemma weight_loaded s i w : wire s -> s_weights s !! i = Some w -> weight (loaded s) i = Ok w.
Proof.
  intros (_ & _ & _ & Hw) Hi. rewrite Forall_lookup in Hw. specialize (Hw i w Hi).
  destruct (buf_loaded s) as (pad & Hbuf). unfold weight.
  assert (forall j b, encode_weight w !! j = Some b ->
    byte_at (buf (loaded s)) (weights_at (loaded s) + WEIGHT_LEN * i + j) = Ok (u8 b)) as Hat.
  { intros j b Hj. unfold byte_at. rewrite Hbuf. cbn [weights_at loaded].
    rewrite <- !Nat.add_assoc.
    rewrite lookup_app_r by (rewrite length_header; lia).
    rewrite lookup_app_r
      by (rewrite (length_chunks encode_op OP_LEN length_op), length_header; lia).
    rewrite (length_chunks encode_op OP_LEN length_op), length_header.
    replace (HEADER_LEN + (OP_LEN * length (s_ops s) + (WEIGHT_LEN * i + j)) - HEADER_LEN
             - OP_LEN * length (s_ops s))%nat with (WEIGHT_LEN * i + j)%nat by lia.
    by rewrite (chunk_lookup encode_weight WEIGHT_LEN length_weight _ _ w _ _ b Hi Hj). }
  rewrite <- (Nat.add_0_r (weights_at (loaded s) + WEIGHT_LEN * i)) at 1.
  rewrite (Hat 0%nat _ eq_refl), (Hat 1%nat _ eq_refl), (Hat 2%nat _ eq_refl). cbn [rbind].
  f_equal. rewrite <- (to_from_be w) at 4 by lia.
  assert (Z.shiftr w 24 = 0) as -> by (rewrite Z.shiftr_div_pow2 by lia; apply Z.div_small; lia).
  reflexivity.
Qed.

(** The registry comparison, on indexes that exist. *)
Lemma same_token_false assets i j : same_token assets i j = Ok false <-> distinct_assets assets i j.
Proof.
  unfold same_token, distinct_assets, get_unchecked. destruct (Nat.eqb_spec i j) as [->|Hne].
  - split; [done|]. intros (x & y & Hx & Hy & Hn). congruence.
  - split.
    + destruct (assets !! i) as [x|]; [|done]. destruct (assets !! j) as [y|]; [|done].
      cbn. intros [= H]. apply bool_decide_eq_false in H. eauto.
    + intros (x & y & -> & -> & Hn). cbn. by rewrite bool_decide_eq_false_2.
Qed.

Lemma distinct_range assets i j : distinct_assets assets i j ->
  (i < length assets)%nat /\ (j < length assets)%nat.
Proof. intros (x & y & Hx & Hy & _). split; by eapply lookup_lt_Some. Qed.

(** ** The checks accept the legal programs *)

Lemma prev_loaded s i o : s_ops s !! i = Some o ->
  validate_prev (loaded s) i (u8 (raw_b o)) = Ok tt
  <-> exists j before, i = S j /\ s_ops s !! j = Some before
                       /\ produces before = Some (u8 (raw_b o)).
Proof.
  intros Hi. unfold validate_prev. destruct i as [|j]; [split; [done|]; by intros (? & ? & ? & _)|].
  destruct (lookup_lt_is_Some_2 (s_ops s) j) as (before & Hj).
  { apply lookup_lt_Some in Hi. lia. }
  rewrite (raw_loaded s j before Hj). cbn [rbind].
  change (byte_at (encode_op before) field_OPCODE)
    with (Ok (E := RouterFailure) (u8 (raw_opcode before))). cbn [rbind].
  change (byte_at (encode_op before) field_TOKEN_OUT)
    with (Ok (E := RouterFailure) (u8 (raw_c before))).
  change (byte_at (encode_op before) field_TOKEN_IN)
    with (Ok (E := RouterFailure) (u8 (raw_b before))).
  trans (produces before = Some (u8 (raw_b o))).
  - unfold produces. destruct (opcode_from_u8 _) as [[v| |]|]; cbn [rbind];
      [| split; done | | split; done];
      rewrite require_Ok, Nat.eqb_eq; split; congruence.
  - split; [eauto|]. intros (j' & before' & [= ->] & Hj' & Hp). congruence.
Qed.

Lemma mode_loaded s amounts_len i o : s_ops s !! i = Some o ->
  let mode := mode_from_u8 (u8 (raw_mode o)) in
  legal_mode s amounts_len i o
  <-> (if bool_decide (mode = Prev) then validate_prev (loaded s) i (u8 (raw_b o)) else Ok tt) = Ok tt
      /\ match mode with
         | Fixed idx => require (idx <? amounts_len)%nat (RFault RouterError.InvalidRouteXdr)
         | Ppm idx => require (idx <? length (s_weights s))%nat (RFault RouterError.InvalidRouteXdr)
         | _ => Ok tt
         end = Ok tt.
Proof.
  intros Hi mode. unfold legal_mode. fold mode. destruct mode as [| |idx|idx].
  - done.
  - rewrite bool_decide_eq_true_2 by done. rewrite (prev_loaded s i o Hi). naive_solver.
  - rewrite bool_decide_eq_false_2 by done. rewrite require_Ok, Nat.ltb_lt. naive_solver.
  - rewrite bool_decide_eq_false_2 by done. rewrite require_Ok, Nat.ltb_lt. naive_solver.
Qed.

Lemma validate_op_loaded s assets amounts_len i o : s_ops s !! i = Some o ->
  validate_op (loaded s) assets amounts_len (length (s_weights s)) i = Ok tt
  <-> legal_op s assets amounts_len i o.
Proof.
  intros Hi. unfold validate_op, legal_op. rewrite (raw_loaded s i o Hi). cbn [rbind].
  change (byte_at (encode_op o) field_OPCODE) with (Ok (E := RouterFailure) (u8 (raw_opcode o))).
  change (byte_at (encode_op o) field_MODE) with (Ok (E := RouterFailure) (u8 (raw_mode o))).
  change (byte_at (encode_op o) field_POOL) with (Ok (E := RouterFailure) (u8 (raw_a o))).
  change (byte_at (encode_op o) field_TOKEN_IN) with (Ok (E := RouterFailure) (u8 (raw_b o))).
  change (byte_at (encode_op o) field_TOKEN_OUT) with (Ok (E := RouterFailure) (u8 (raw_c o))).
  cbn [rbind].
  destruct (opcode_from_u8 (u8 (raw_opcode o))) as [code|]; cbn [rbind of_option];
    [|split; [done|]; by intros (? & ? & _)].
  pose proof (mode_loaded s amounts_len i o Hi) as Hmode. cbv zeta in Hmode.
  split.
  - intros H. apply rbind_Ok in H as ([] & H1 & H). apply rbind_Ok in H as ([] & H2 & H).
    apply rbind_Ok in H as (u & H3 & H). apply require_Ok, andb_true_iff in H3 as [Ha Hb].
    apply Nat.ltb_lt in Ha, Hb.
    exists code. split; [done|]. split; [by apply Hmode|]. do 2 (split; [done|]).
    destruct code as [v| |].
    + apply rbind_Ok in H as (u' & _ & H). apply rbind_Ok in H as (same & Hs & H).
      apply require_Ok, negb_true_iff in H as ->. by apply same_token_false.
    + apply rbind_Ok in H as (u' & H4 & H).
      apply require_Ok, bool_decide_eq_true in H4. by apply require_Ok, Nat.ltb_lt in H.
    + apply rbind_Ok in H as (u' & H4 & H).
      apply require_Ok, bool_decide_eq_true in H4. by apply require_Ok, Nat.ltb_lt in H.
  - intros (code' & [= <-] & Hm & Ha & Hb & Hc). apply Hmode in Hm as [-> ->]. cbn [rbind].
    apply Nat.ltb_lt in Ha, Hb. rewrite Ha, Hb. cbn [rbind require andb].
    destruct code as [v| |].
    + pose proof (distinct_range _ _ _ Hc) as [_ Hr]. apply Nat.ltb_lt in Hr.
      apply same_token_false in Hc. rewrite Hr, Hc. done.
    + destruct Hc as [Hall Hc]. apply Nat.ltb_lt in Hc. rewrite bool_decide_eq_true_2, Hc; done.
    + destruct Hc as [Hall Hc]. apply Nat.ltb_lt in Hc. rewrite bool_decide_eq_true_2, Hc; done.
Qed.

Lemma validate_weight_loaded s i w : wire s -> s_weights s !! i = Some w ->
  validate_weight (loaded s) i = Ok tt <-> 0 < w <= PPM_DENOMINATOR.
Proof.
  intros Hw Hi. pose proof Hw as (_ & _ & _ & Hr). rewrite Forall_lookup in Hr.
  specialize (Hr i w Hi). unfold validate_weight. rewrite (weight_loaded s i w Hw Hi).
  cbn [rbind]. destruct (Z.eqb_spec w 0) as [->|Hne]; cbn [require rbind negb].
  - split; [done|lia].
  - rewrite require_Ok, Z.leb_le. lia.
Qed.

Lemma validate_loaded s assets amounts_len : wire s ->
  validate (loaded s) assets amounts_len (length (s_weights s)) = Ok tt
  <-> (forall i o, s_ops s !! i = Some o -> legal_op s assets amounts_len i o)
      /\ Forall (fun w => 0 < w <= PPM_DENOMINATOR) (s_weights s).
Proof.
  intros Hw. unfold validate. rewrite rbind_Ok.
  setoid_rewrite (rfold_unit (fun i => validate_weight (loaded s) i)).
  trans (Forall (fun i => validate_op (loaded s) assets amounts_len (length (s_weights s)) i = Ok tt)
           (seq 0 (length (s_ops s)))
         /\ Forall (fun i => validate_weight (loaded s) i = Ok tt) (seq 0 (length (s_weights s)))).
  { rewrite <- (rfold_unit (fun i => validate_op (loaded s) assets amounts_len (length (s_weights s)) i)). split; [intros ([] & H); exact H|intros H; exists tt; exact H]. }
  rewrite !Forall_seq. f_equiv.
  - split; intros H i.
    + intros o Hi. apply (validate_op_loaded s assets amounts_len i o Hi), H.
      apply lookup_lt_Some in Hi. lia.
    + intros Hr. destruct (lookup_lt_is_Some_2 (s_ops s) i ltac:(lia)) as (o & Hi).
      apply (validate_op_loaded s assets amounts_len i o Hi); auto.
  - rewrite Forall_lookup. split; intros H i.
    + intros w Hi. apply (validate_weight_loaded s i w Hw Hi), H. apply lookup_lt_Some in Hi. lia.
    + intros Hr. destruct (lookup_lt_is_Some_2 (s_weights s) i ltac:(lia)) as (w & Hi).
      apply (validate_weight_loaded s i w Hw Hi). eauto.
Qed.

(** ** The parser inverts the serializer *)

Lemma decode_encode_loaded s assets amounts_len : wire s ->
  decode (encode s) assets amounts_len
  = do! require (negb ((length assets =? 0) || (MAX_ASSETS <? length assets)
                       || (MAX_AMOUNTS <? amounts_len)))%nat (RFault RouterError.InvalidRouteXdr) in
    do! require (negb ((length (encode s) <? HEADER_LEN)
                       || (MAX_PROGRAM_BYTES <? length (encode s))))%nat
          (RFault RouterError.InvalidRouteXdr) in
    do! require (negb ((length (s_ops s) =? 0) || (MAX_OPS <? length (s_ops s))
                       || (MAX_WEIGHTS <? length (s_weights s))))%nat (RFault RouterError.EmptyBatch) in
    do! require ((u8 (s_token_in s) <? length assets) && (u8 (s_token_out s) <? length assets)
                 && (u8 (s_min_out s) <? amounts_len))%nat (RFault RouterError.InvalidRouteXdr) in
    let* same := same_token assets (u8 (s_token_in s)) (u8 (s_token_out s)) in
    do! require (negb same) (RFault RouterError.SameToken) in
    do! validate (loaded s) assets amounts_len (length (s_weights s)) in
    Ok (loaded s).
Proof.
  intros (Ho & Hw & Hr & _). unfold decode. do 2 (destruct (require _ _) as [[]|]; [|done]).
  cbn [rbind]. set (pad := replicate (MAX_PROGRAM_BYTES - length (encode s)) Byte.x00).
  change (byte_at (encode s ++ pad) head_VERSION) with (Ok (E := RouterFailure) 1%nat).
  change (byte_at (encode s ++ pad) head_OP_COUNT)
    with (Ok (E := RouterFailure) (u8 (byte_of (N.of_nat (length (s_ops s)))))).
  change (byte_at (encode s ++ pad) head_WEIGHT_COUNT)
    with (Ok (E := RouterFailure) (u8 (byte_of (N.of_nat (length (s_weights s)))))).
  rewrite !u8_byte_of_nat by done. cbn [rbind require Nat.eqb VERSION].
  destruct (require (negb ((length (s_ops s) =? 0) || _ || _))%nat _) as [[]|]; [|done].
  cbn [rbind]. rewrite length_encode at 1. rewrite Nat.eqb_refl. cbn [rbind require].
  change (byte_at (encode s ++ pad) head_TOKEN_IN) with (Ok (E := RouterFailure) (u8 (s_token_in s))).
  change (byte_at (encode s ++ pad) head_TOKEN_OUT) with (Ok (E := RouterFailure) (u8 (s_token_out s))).
  change (byte_at (encode s ++ pad) head_MIN_OUT) with (Ok (E := RouterFailure) (u8 (s_min_out s))).
  cbn [rbind]. destruct (require (_ && _ && _)%nat _) as [[]|]; [|done]. cbn [rbind].
  destruct (same_token _ _ _) as [same|]; [|done]. cbn [rbind].
  destruct (require (negb same) _) as [[]|]; [|done]. cbn [rbind].
  change (byte_at (encode s ++ pad) head_REFERRAL)
    with (Ok (E := RouterFailure) (u8 (byte_of (Z.to_N (Z.shiftr (s_referral s) 24))))).
  change (byte_at (encode s ++ pad) (head_REFERRAL + 1)%nat)
    with (Ok (E := RouterFailure) (u8 (byte_of (Z.to_N (Z.shiftr (s_referral s) 16))))).
  change (byte_at (encode s ++ pad) (head_REFERRAL + 2)%nat)
    with (Ok (E := RouterFailure) (u8 (byte_of (Z.to_N (Z.shiftr (s_referral s) 8))))).
  change (byte_at (encode s ++ pad) (head_REFERRAL + 3)%nat)
    with (Ok (E := RouterFailure) (u8 (byte_of (Z.to_N (s_referral s))))).
  cbn [rbind]. rewrite (to_from_be _ Hr). reflexivity.
Qed.

Lemma decode_encode s assets amounts_len p : wire s ->
  decode (encode s) assets amounts_len = Ok p <-> legal assets amounts_len s /\ p = loaded s.
Proof.
  intros Hw. rewrite (decode_encode_loaded s assets amounts_len Hw). unfold legal. split.
  - intros H. apply rbind_Ok in H as (u1 & H1 & H). apply rbind_Ok in H as (u2 & _ & H).
    apply rbind_Ok in H as (u3 & H3 & H). apply rbind_Ok in H as (u4 & H4 & H).
    apply rbind_Ok in H as (same & H5 & H). apply rbind_Ok in H as (u6 & H6 & H).
    apply rbind_Ok in H as ([] & H7 & H). injection H as <-.
    apply (validate_loaded s assets amounts_len Hw) in H7 as [Hops Hws].
    apply require_Ok, negb_true_iff in H1, H3, H6. apply require_Ok in H4. subst same.
    apply same_token_false in H5.
    rewrite !orb_false_iff, !Nat.ltb_ge, Nat.eqb_neq in H1, H3.
    rewrite !andb_true_iff, !Nat.ltb_lt in H4.
    split; [|done]. split_and!; try done; lia.
  - intros ((_ & Ha & Hn & Ho & Hws & Hd & Hm & Hops & Hppm) & ->).
    pose proof (distinct_range _ _ _ Hd) as [Hi Hj].
    assert (length (encode s) <= MAX_PROGRAM_BYTES)%nat as Hlen.
    { rewrite length_encode. unfold MAX_PROGRAM_BYTES, MAX_OPS, MAX_WEIGHTS, OP_LEN, WEIGHT_LEN in *. lia. }
    assert (HEADER_LEN <= length (encode s))%nat as Hmin by (rewrite length_encode; lia).
    rewrite (proj2 (Nat.eqb_neq (length assets) 0)) by lia.
    rewrite (proj2 (Nat.eqb_neq (length (s_ops s)) 0)) by lia.
    rewrite (proj2 (Nat.ltb_ge MAX_ASSETS _)), (proj2 (Nat.ltb_ge MAX_AMOUNTS _)),
      (proj2 (Nat.ltb_ge _ HEADER_LEN)), (proj2 (Nat.ltb_ge MAX_PROGRAM_BYTES _)),
      (proj2 (Nat.ltb_ge MAX_OPS _)), (proj2 (Nat.ltb_ge MAX_WEIGHTS _)) by lia.
    rewrite !(proj2 (Nat.ltb_lt _ _)) by lia.
    apply same_token_false in Hd. rewrite Hd. cbn [rbind require negb orb andb].
    rewrite (proj2 (validate_loaded s assets amounts_len Hw)); done.
Qed.

(** Every byte string of a consistent length is the image of some program. *)
Lemma op_onto c : length c = OP_LEN -> exists o, encode_op o = c.
Proof.
  intros H. destruct c as [|a [|b [|c0 [|d [|e [|? ?]]]]]]; try discriminate H.
  by exists (mkRawOp a b c0 d e).
Qed.

Lemma weight_onto c : length c = WEIGHT_LEN -> exists w, 0 <= w < 2 ^ 24 /\ encode_weight w = c.
Proof.
  intros H. destruct c as [|b1 [|b2 [|b3 [|? ?]]]]; try discriminate H.
  destruct (from_to_be Byte.x00 b1 b2 b3) as [E _].
  exists (from_be_bytes (u8 Byte.x00) (u8 b1) (u8 b2) (u8 b3)). split.
  - change (u8 Byte.x00) with 0%nat. unfold from_be_bytes.
    pose proof (u8_lt b1). pose proof (u8_lt b2). pose proof (u8_lt b3). lia.
  - unfold encode_weight. by rewrite E.
Qed.

Lemma weights_onto n (l : list Byte.byte) : length l = (WEIGHT_LEN * n)%nat ->
  exists ws, length ws = n /\ Forall (fun w => 0 <= w < 2 ^ 24) ws
             /\ concat (map encode_weight ws) = l.
Proof.
  revert l. induction n as [|n IH]; intros l H.
  - exists []. destruct l; [done|]. cbn in H. lia.
  - destruct (weight_onto (take WEIGHT_LEN l)) as (w & Hr & Hw); [rewrite length_take; lia|].
    destruct (IH (drop WEIGHT_LEN l)) as (ws & Hn & Hf & Hc); [rewrite length_drop; lia|].
    exists (w :: ws). cbn [map concat length]. rewrite Hw, Hc, take_drop. auto.
Qed.

Lemma decoded_is_encoded bytes assets amounts_len p : decode bytes assets amounts_len = Ok p ->
  exists s, wire s /\ encode s = bytes.
Proof.
  unfold decode. intros H. apply rbind_Ok in H as (u1 & _ & H). apply rbind_Ok in H as (u2 & H2 & H).
  apply require_Ok, negb_true_iff in H2. rewrite orb_false_iff, !Nat.ltb_ge in H2.
  destruct H2 as [Hmin _].
  assert (exists b0 b1 b2 b3 b4 b5 b6 b7 b8 b9 rest,
    bytes = b0 :: b1 :: b2 :: b3 :: b4 :: b5 :: b6 :: b7 :: b8 :: b9 :: rest)
    as (b0 & b1 & b2 & b3 & b4 & b5 & b6 & b7 & b8 & b9 & rest & ->).
  { unfold HEADER_LEN in Hmin. do 10 (destruct bytes as [|? bytes]; [cbn in Hmin; lia|]).
    do 11 eexists. reflexivity. }
  apply rbind_Ok in H as (v & Hv & H). apply rbind_Ok in H as (u3 & H3 & H).
  apply rbind_Ok in H as (oc & Hoc & H). apply rbind_Ok in H as (wc & Hwc & H).
  apply rbind_Ok in H as (u4 & _ & H). apply rbind_Ok in H as (u5 & H5 & H). clear H.
  injection Hv as <-. injection Hoc as <-. injection Hwc as <-.
  apply require_Ok, Nat.eqb_eq in H3, H5. cbn [length] in H5.
  assert (length rest = OP_LEN * u8 b8 + WEIGHT_LEN * u8 b9)%nat as Hrest
    by (unfold HEADER_LEN in H5; lia).
  destruct (chunks_onto encode_op OP_LEN op_onto (u8 b8) (take (OP_LEN * u8 b8) rest))
    as (os & Hos & Hop); [rewrite length_take; lia|].
  destruct (weights_onto (u8 b9) (drop (OP_LEN * u8 b8) rest)) as (ws & Hws & Hf & Hwt);
    [rewrite length_drop; lia|].
  destruct (from_to_be b4 b5 b6 b7) as [Hr Hrr].
  exists (mkSource b1 b2 b3 (from_be_bytes (u8 b4) (u8 b5) (u8 b6) (u8 b7)) os ws).
  split.
  - refine (conj _ (conj _ (conj Hrr Hf))); cbn [s_ops s_weights].
    + rewrite Hos. apply u8_lt.
    + rewrite Hws. apply u8_lt.
  - rewrite encode_eq. unfold header. cbn [s_token_in s_token_out s_min_out s_referral s_ops s_weights].
    rewrite Hr, Hos, Hws, !byte_of_u8, Hop, Hwt, take_drop.
    unfold VERSION in H3. rewrite <- (byte_of_u8 b0), H3. reflexivity.
Qed.

End ProgramSpec.
