(* ===== verification/SwapStore.v ===== *)
(** * Swap aggregator: storage, vault and fees
      (contracts/swap-aggregator/src/math.rs, storage.rs, vault.rs, fees.rs)

    [Router] is the contract's storage.  The fee buckets and the reserved totals share one
    keyed store, as in the source; [Vault] is the ledger of one call.  Storage rent changes no
    value and is left out.  The ownable library is the interface [OwnableLib]. *)

From S2P Require Import Prelude Errors FpCore Fp PoolTypes PoolCache SwapProgram.
From stdpp Require Import base numbers list gmap sorting.
From Stdlib Require Import ZArith Lia Bool.

Open Scope Z_scope.

(** ** Checked arithmetic (math.rs) *)

Module RouterMath.

Import RouterError.

Definition checked_add (a b : Z) : rres Z := of_option (RFault IntegerOverflow) (i128_checked_add a b).
Definition checked_mul (a b : Z) : rres Z := of_option (RFault IntegerOverflow) (i128_checked_mul a b).

End RouterMath.

(** ** Storage (types.rs, storage.rs) *)

(** The ownable library, which is not part of this repository. *)
Class OwnableLib : Type := {
  Ownership : Type;
  no_owner : Ownership;
  get_owner : Ownership -> option Address;
  set_owner : Ownership -> Address -> rres Ownership;
  transfer_ownership : Env -> Ownership -> Address -> Z -> rres Ownership;
  accept_ownership : Env -> Ownership -> rres Ownership
}.

Record ReferralConfig : Type := mkReferralConfig {
  ref_owner : Address;
  ref_fee_bps : Z;
  ref_active : bool
}.

Inductive DataKey : Type :=
| StaticFeeBps
| ReferralCounter
| Referral (id : Z)
| WhitelistedTokens
| AdminFee (token : Address)
| ReferralFee (id : Z) (token : Address)
| ReservedTotal (token : Address).

#[export] Instance DataKey_eq_dec : EqDecision DataKey.
Proof. solve_decision. Defined.

#[export] Instance DataKey_countable : Countable DataKey.
Proof.
  refine (inj_countable'
    (fun k => match k with
       | StaticFeeBps => (0, 0, None) | ReferralCounter => (1, 0, None)
       | Referral id => (2, id, None) | WhitelistedTokens => (3, 0, None)
       | AdminFee t => (4, 0, Some t) | ReferralFee id t => (5, id, Some t)
       | ReservedTotal t => (6, 0, Some t) end)
    (fun x => match x with
       | (0, _, _) => StaticFeeBps | (1, _, _) => ReferralCounter
       | (2, id, _) => Referral id | (3, _, _) => WhitelistedTokens
       | (4, _, Some t) => AdminFee t | (5, id, Some t) => ReferralFee id t
       | (6, _, Some t) => ReservedTotal t | _ => StaticFeeBps end) _).
  by intros [].
Defined.

Module RouterStore.

Import RouterError RouterMath.

Section Storage.

Context `{OwnableLib}.

Record Router : Type := mkRouter {
  r_ownership : Ownership;
  r_static_fee_bps : option Z;
  r_whitelist : option (list Address);
  r_referral_counter : option Z;
  r_referrals : gmap Z ReferralConfig;
  r_buckets : gmap DataKey Z
}.

Definition with_ownership (r : Router) (o : Ownership) : Router :=
  mkRouter o (r_static_fee_bps r) (r_whitelist r) (r_referral_counter r) (r_referrals r) (r_buckets r).
Definition with_buckets (r : Router) (b : gmap DataKey Z) : Router :=
  mkRouter (r_ownership r) (r_static_fee_bps r) (r_whitelist r) (r_referral_counter r) (r_referrals r) b.

Definition static_fee_bps (r : Router) : Z := default 0 (r_static_fee_bps r).
Definition set_static_fee_bps (r : Router) (fee_bps : Z) : Router :=
  mkRouter (r_ownership r) (Some fee_bps) (r_whitelist r) (r_referral_counter r)
    (r_referrals r) (r_buckets r).

Definition load_whitelist (r : Router) : list Address := default [] (r_whitelist r).
Definition set_whitelist (r : Router) (l : list Address) : Router :=
  mkRouter (r_ownership r) (r_static_fee_bps r) (Some l) (r_referral_counter r)
    (r_referrals r) (r_buckets r).

Definition referral_counter (r : Router) : Z := default 0 (r_referral_counter r).
Definition set_referral_counter (r : Router) (id : Z) : Router :=
  mkRouter (r_ownership r) (r_static_fee_bps r) (r_whitelist r) (Some id)
    (r_referrals r) (r_buckets r).

Definition try_load_referral (r : Router) (id : Z) : option ReferralConfig := r_referrals r !! id.
Definition load_referral (r : Router) (id : Z) : rres ReferralConfig :=
  of_option (RFault ReferralNotFound) (r_referrals r !! id).
Definition set_referral (r : Router) (id : Z) (cfg : ReferralConfig) : Router :=
  mkRouter (r_ownership r) (r_static_fee_bps r) (r_whitelist r) (r_referral_counter r)
    (<[id := cfg]> (r_referrals r)) (r_buckets r).

Definition fee_balance (r : Router) (key : DataKey) : Z := default 0 (r_buckets r !! key).

Definition bucket_token (key : DataKey) : rres Address :=
  match key with
  | AdminFee token | ReferralFee _ token => Ok token
  | _ => Err (RFault InternalInvariant)
  end.

Definition credit_bucket (r : Router) (key : DataKey) (amount : Z) : rres Router :=
  let cur := default 0 (r_buckets r !! key) in
  let* next := checked_add cur amount in
  Ok (with_buckets r (<[key := next]> (r_buckets r))).

Definition reserve (r : Router) (token : Address) (amount : Z) : rres Router :=
  do! require (negb (amount <? 0)) (RFault InternalInvariant) in
  if amount =? 0 then Ok r
  else
    let key := ReservedTotal token in
    let current := default 0 (r_buckets r !! key) in
    let* next := checked_add current amount in
    Ok (with_buckets r (<[key := next]> (r_buckets r))).

Definition release (r : Router) (token : Address) (amount : Z) : rres Router :=
  let key := ReservedTotal token in
  let current := default 0 (r_buckets r !! key) in
  do! require (negb (current <? amount)) (RFault InternalInvariant) in
  let* next := of_option RTrap (i128_checked_sub current amount) in
  if next =? 0 then Ok (with_buckets r (delete key (r_buckets r)))
  else Ok (with_buckets r (<[key := next]> (r_buckets r))).

Definition accumulate_fee (r : Router) (key : DataKey) (amount : Z) : rres Router :=
  let* token := bucket_token key in
  let* r := credit_bucket r key amount in
  reserve r token amount.

Definition accumulate_swap_fees (r : Router) (token : Address) (referral_id : Z)
    (static_amount referral_amount : Z) : rres Router :=
  let* (r, reserved) :=
    (if 0 <? static_amount then
       let* r := credit_bucket r (AdminFee token) static_amount in
       let* reserved := checked_add 0 static_amount in
       Ok (r, reserved)
     else Ok (r, 0)) in
  let* (r, reserved) :=
    (if 0 <? referral_amount then
       let* r := credit_bucket r (ReferralFee referral_id token) referral_amount in
       let* reserved := checked_add reserved referral_amount in
       Ok (r, reserved)
     else Ok (r, reserved)) in
  reserve r token reserved.

Definition take_fee_bucket (r : Router) (key : DataKey) : rres (Router * Z) :=
  let amount := default 0 (r_buckets r !! key) in
  if 0 <? amount then
    let r := with_buckets r (delete key (r_buckets r)) in
    let* token := bucket_token key in
    let* r := release r token amount in
    Ok (r, amount)
  else Ok (r, amount).

Definition reserved_fee_balance (r : Router) (token : Address) : Z :=
  default 0 (r_buckets r !! ReservedTotal token).

End Storage.

End RouterStore.

(** ** Vault (vault.rs) *)

Module Vault.

Import RouterError RouterMath.

Record Vault : Type := mkVault {
  balances : gmap Address Z;
  credited : gmap Address Z
}.

Definition new : Vault := mkVault ∅ ∅.

Definition balance_of (v : Vault) (token : Address) : Z := default 0 (balances v !! token).

(** A host map lists its keys in order. *)
Definition address_le (a b : Address) : Prop := (address_id a <= address_id b)%N.
#[export] Instance address_le_dec : RelDecision address_le.
Proof. intros a b. unfold address_le. apply _. Defined.

Definition tokens (v : Vault) : list Address := merge_sort address_le (map_to_list (balances v)).*1.

Definition credited_of (v : Vault) (token : Address) : Z := default 0 (credited v !! token).

Definition deposit (v : Vault) (token : Address) (amount : Z) : rres Vault :=
  if amount =? 0 then Ok v
  else
    do! require (negb (amount <? 0)) (RFault InvalidAmount) in
    let current := balance_of v token in
    let* next := checked_add current amount in
    let* credit := checked_add (credited_of v token) amount in
    Ok (mkVault (<[token := next]> (balances v)) (<[token := credit]> (credited v))).

Definition withdraw (v : Vault) (token : Address) (amount : Z) : rres Vault :=
  if amount =? 0 then Ok v
  else
    do! require (negb (amount <? 0)) (RFault InvalidAmount) in
    let current := balance_of v token in
    do! require (negb (current <? amount)) (RFault InvalidAmount) in
    Ok (mkVault (<[token := current - amount]> (balances v)) (credited v)).

End Vault.

(** ** Fees of a swap (fees.rs) *)

Module Fees.

Import RouterError RouterMath RouterStore Vault.

Inductive FeeBucket : Type :=
| BucketAdmin
| BucketReferral (id : Z).

Definition FeeBucket_key (b : FeeBucket) (token : Address) : DataKey :=
  match b with
  | BucketAdmin => AdminFee token
  | BucketReferral id => ReferralFee id token
  end.

Section Fees.

Context `{OwnableLib}.

Definition set_static_fee (r : Router) (fee_bps : Z) : rres Router :=
  do! require (negb (FEE_CAP <? fee_bps)) (RFault FeeTooHigh) in
  Ok (set_static_fee_bps r fee_bps).

Definition fee_amount (balance fee_bps : Z) : rres Z :=
  let* scaled := checked_mul balance fee_bps in
  Ok (Z.quot scaled BPS).

Definition apply_fees_on_token (r : Router) (v : Vault) (token : Address) (referral_id : Z)
    : rres (Router * Vault) :=
  if referral_id =? 0 then Ok (r, v)
  else
    match try_load_referral r referral_id with
    | None => Ok (r, v)
    | Some cfg =>
        if negb (ref_active cfg) then Ok (r, v)
        else
          let balance := balance_of v token in
          if balance <=? 0 then Ok (r, v)
          else
            let static_fee_bps := static_fee_bps r in
            let combined_bps := static_fee_bps + ref_fee_bps cfg in
            do! require (combined_bps <=? u32_max) (RFault IntegerOverflow) in
            if combined_bps =? 0 then Ok (r, v)
            else
              do! require (negb (FEE_CAP <? combined_bps)) (RFault FeeTooHigh) in
              let* static_fee := fee_amount balance static_fee_bps in
              let* referral_fee := fee_amount balance (ref_fee_bps cfg) in
              let* total := checked_add static_fee referral_fee in
              if total <=? 0 then Ok (r, v)
              else
                let* v := withdraw v token total in
                let* r := accumulate_swap_fees r token referral_id static_fee referral_fee in
                Ok (r, v)
    end.

End Fees.

End Fees.
