(* ===== verification/SwapRouter.v ===== *)
(** * Swap aggregator: venues, execution and entrypoints
      (contracts/swap-aggregator/src/venues/, execute/, lib.rs, fees.rs; common/src/token.rs)

    Every contract the router talks to (tokens, pools, share tokens) is untrusted code, so each
    call, a balance read included, may fail and may change the rest of the ledger [W].  What the
    router authorises for the next call is an argument of that call. *)

From S2P Require Import Prelude Errors FpCore Fp PoolTypes PoolCache SwapProgram SwapStore.
From stdpp Require Import base numbers list gmap strings.
From Stdlib Require Import ZArith Lia Bool.

Open Scope Z_scope.

(** ** Host values and calls *)

Inductive HostVal : Type :=
| HAddress (a : Address)
| HI128 (z : Z)
| HU128 (z : Z)
| HU32 (z : Z)
| HBool (b : bool)
| HU256 (z : Z)
| HVoid
| HVec (l : list HostVal)
| HMap (l : list (string * HostVal))
| HOther (n : N).

(** [InvokerContractAuthEntry::Contract]: one call made deeper on the router's behalf. *)
Inductive AuthEntry : Type :=
| mkAuthEntry (contract : Address) (fn_name : string) (args : list HostVal)
    (sub_invocations : list AuthEntry).

Class SwapHost (W : Type) : Type := {
  token_balance : W -> Address -> Address -> rres (W * Z);
  token_transfer : W -> Address -> Address -> Address -> Z -> rres W;
  token_approve : list AuthEntry -> W -> Address -> Address -> Address -> Z -> Z -> rres W;
  invoke_contract : list AuthEntry -> W -> Address -> string -> list HostVal -> rres (W * HostVal);
  ledger_sequence : W -> Z;
  (** [StrategyPayload::from_xdr] of the SDK *)
  payload_from_xdr : list Byte.byte -> option StrategyPayload
}.

(** The conversions a typed binding of a returned value makes; a vector's elements are
    converted when they are read. *)
Definition as_address (v : HostVal) : rres Address := match v with HAddress a => Ok a | _ => Err RTrap end.
Definition as_i128 (v : HostVal) : rres Z := match v with HI128 z => Ok z | _ => Err RTrap end.
Definition as_u128 (v : HostVal) : rres Z := match v with HU128 z => Ok z | _ => Err RTrap end.
Definition as_unit (v : HostVal) : rres unit := match v with HVoid => Ok tt | _ => Err RTrap end.
Definition as_vec (v : HostVal) : rres (list HostVal) := match v with HVec l => Ok l | _ => Err RTrap end.
Definition as_i128_pair (v : HostVal) : rres (Z * Z) :=
  match v with HVec [HI128 a; HI128 b] => Ok (a, b) | _ => Err RTrap end.
Definition as_deposit_result (v : HostVal) : rres unit :=
  match v with HVec [HVec _; HU128 _] => Ok tt | _ => Err RTrap end.

Definition lift_shared {A : Type} (r : res A) : rres A :=
  match r with
  | Ok a => Ok a
  | Err HostTrap => Err RTrap
  | Err e => Err (RShared e)
  end.

(** A list with the indexes of its elements, for the [for i in 0..n] loops. *)
Definition indexed {A : Type} (l : list A) : list (nat * A) := combine (seq 0 (length l)) l.

(** ** Authorisations (venues/auth.rs) *)

Module VenueAuth.

Definition auth_entry (contract : Address) (fn_name : string) (args : list HostVal)
    (sub_invocations : list AuthEntry) : AuthEntry :=
  mkAuthEntry contract fn_name args sub_invocations.

Definition authorize_as_current (contract : Address) (fn_name : string) (args : list HostVal)
    : list AuthEntry :=
  [auth_entry contract fn_name args []].

Definition authorize_token_transfer (token from to : Address) (amount : Z) : list AuthEntry :=
  authorize_as_current token "transfer" [HAddress from; HAddress to; HI128 amount].

Definition authorize_token_approve (token owner spender : Address) (amount expiration_ledger : Z)
    : list AuthEntry :=
  authorize_as_current token "approve"
    [HAddress owner; HAddress spender; HI128 amount; HU32 expiration_ledger].

End VenueAuth.

(** ** Shared hop code (venues/mod.rs) *)

Module Hop.

Import RouterError Program VenueAuth.

Abbreviation TokensCache := (gmap Address (list Address)).

Record HopContext : Type := mkHopContext {
  hc_router : Address;
  hc_hop : SwapHop;
  hc_amount_in : Z
}.

Definition HopContext_new (router : Address) (hop : SwapHop) (amount_in : Z) : rres HopContext :=
  do! require (negb (amount_in <=? 0)) (RFault InvalidAmount) in
  do! require (negb (bool_decide (hop_token_in hop = hop_token_out hop))) (RFault SameToken) in
  Ok (mkHopContext router hop amount_in).

Definition authorize_pool_pull (ctx : HopContext) : list AuthEntry :=
  authorize_token_transfer (hop_token_in (hc_hop ctx)) (hc_router ctx) (hop_pool (hc_hop ctx))
    (hc_amount_in ctx).

Definition direction_for_pair (ctx : HopContext) (token0 token1 : Address) : rres bool :=
  let hop := hc_hop ctx in
  if bool_decide (hop_token_in hop = token0) && bool_decide (hop_token_out hop = token1) then Ok true
  else if bool_decide (hop_token_in hop = token1) && bool_decide (hop_token_out hop = token0)
  then Ok false
  else Err (RFault BrokenTokenChain).

Fixpoint first_index_of {A} `{EqDecision A} (l : list A) (x : A) : option nat :=
  match l with
  | [] => None
  | y :: l' => if decide (y = x) then Some 0%nat else option_map S (first_index_of l' x)
  end.

Definition find_index (tokens : list Address) (target : Address) : rres nat :=
  of_option (RFault BrokenTokenChain) (first_index_of tokens target).

Section Hops.

Context {W : Type} `{SwapHost W}.

Definition input_balance (w : W) (ctx : HopContext) : rres (W * Z) :=
  token_balance w (hop_token_in (hc_hop ctx)) (hc_router ctx).

Definition output_balance (w : W) (ctx : HopContext) : rres (W * Z) :=
  token_balance w (hop_token_out (hc_hop ctx)) (hc_router ctx).

Definition pool_tokens (w : W) (cache : TokensCache) (pool : Address)
    (fetch : W -> Address -> rres (W * list HostVal)) : rres (W * TokensCache * list Address) :=
  match cache !! pool with
  | Some tokens => Ok (w, cache, tokens)
  | None =>
      let* (w, values) := fetch w pool in
      do! require (negb ((length values <? 2) || (MAX_ASSETS <? length values)))%nat
            (RFault BrokenTokenChain) in
      let* tokens :=
        rfold (fun seen value =>
          let* token := as_address value in
          do! require (negb (bool_decide (token = pool) || bool_decide (token ∈ seen)))
                (RFault BrokenTokenChain) in
          Ok (seen ++ [token])) [] values in
      Ok (w, <[pool := tokens]> cache, tokens)
  end.

End Hops.

End Hop.

(** ** Soroswap (venues/soroswap.rs) *)

Module SoroswapVenue.

Import RouterError RouterMath Hop.

Definition FEE_NUM : Z := 3.
Definition FEE_DEN : Z := 1000.

Definition soroswap_fee (amount_in : Z) : rres Z :=
  if amount_in <=? 0 then Ok 0
  else
    let* scaled := checked_mul amount_in FEE_NUM in
    let* biased := checked_add scaled (FEE_DEN - 1) in
    Ok (Z.quot biased FEE_DEN).

Definition soroswap_amount_out (amount_in reserve_in reserve_out : Z) : rres Z :=
  if (amount_in <=? 0) || (reserve_in <=? 0) || (reserve_out <=? 0) then Ok 0
  else
    let* fee := soroswap_fee amount_in in
    let* in_less := of_option RTrap (i128_checked_sub amount_in fee) in
    if in_less <=? 0 then Ok 0
    else
      let* denominator := checked_add reserve_in in_less in
      lift_shared (FpCore.mul_div_floor in_less reserve_out denominator).

Definition swap {W : Type} `{SwapHost W} (w : W) (ctx : HopContext) : rres W :=
  let hop := hc_hop ctx in
  let token_in_is_0 := (address_id (hop_token_in hop) <? address_id (hop_token_out hop))%N in
  let* (w, reserves) := invoke_contract [] w (hop_pool hop) "get_reserves" [] in
  let* (reserve_0, reserve_1) := as_i128_pair reserves in
  let '(reserve_in, reserve_out) :=
    (if token_in_is_0 then (reserve_0, reserve_1) else (reserve_1, reserve_0)) in
  let* requested_out := soroswap_amount_out (hc_amount_in ctx) reserve_in reserve_out in
  do! require (negb (requested_out <=? 0)) (RFault ZeroOutput) in
  let* w := token_transfer w (hop_token_in hop) (hc_router ctx) (hop_pool hop) (hc_amount_in ctx) in
  let '(amount_0_out, amount_1_out) :=
    (if token_in_is_0 then (0, requested_out) else (requested_out, 0)) in
  let* (w, out) := invoke_contract [] w (hop_pool hop) "swap"
                     [HI128 amount_0_out; HI128 amount_1_out; HAddress (hc_router ctx)] in
  do! as_unit out in
  Ok w.

End SoroswapVenue.

(** ** Phoenix (venues/phoenix.rs) *)

Module PhoenixVenue.

Import Hop.

Definition swap {W : Type} `{SwapHost W} (w : W) (ctx : HopContext) : rres W :=
  let hop := hc_hop ctx in
  let* (w, out) := invoke_contract (authorize_pool_pull ctx) w (hop_pool hop) "swap"
    [HAddress (hc_router ctx); HAddress (hop_token_in hop); HI128 (hc_amount_in ctx);
     HVoid; HVoid; HVoid; HVoid] in
  do! as_i128 out in
  Ok w.

End PhoenixVenue.

(** ** Sushi (venues/sushi.rs) *)

Module SushiVenue.

Import Hop.

Definition MIN_SQRT_RATIO_PLUS_ONE : Z := 4295128740.
Definition MAX_SQRT_RATIO_MINUS_ONE : Z := 0xfffd8963efd1fc6a506488495d951d5263988d25.

Definition sqrt_price_limit (zero_for_one : bool) : HostVal :=
  HU256 (if zero_for_one then MIN_SQRT_RATIO_PLUS_ONE else MAX_SQRT_RATIO_MINUS_ONE).

Definition swap {W : Type} `{SwapHost W} (w : W) (ctx : HopContext) : rres W :=
  let hop := hc_hop ctx in
  let* (w, v0) := invoke_contract [] w (hop_pool hop) "token0" [] in
  let* token0 := as_address v0 in
  let* (w, v1) := invoke_contract [] w (hop_pool hop) "token1" [] in
  let* token1 := as_address v1 in
  let* zero_for_one := direction_for_pair ctx token0 token1 in
  let price_limit := sqrt_price_limit zero_for_one in
  let* (w, hints) := invoke_contract [] w (hop_pool hop) "get_oracle_hints" [] in
  let* (w, _) := invoke_contract (authorize_pool_pull ctx) w (hop_pool hop) "swap"
    [HAddress (hc_router ctx); HAddress (hc_router ctx); HBool zero_for_one;
     HI128 (hc_amount_in ctx); price_limit; hints] in
  Ok w.

End SushiVenue.

(** ** Comet (venues/comet.rs) *)

Module CometVenue.

Import Hop VenueAuth.

Definition comet_approval_ledger (seq : Z) : rres Z :=
  let expiration := (seq / 100000 + 1) * 100000 in
  do! require (expiration <=? u32_max) RTrap in
  Ok expiration.

Definition swap_args (ctx : HopContext) : list HostVal :=
  let hop := hc_hop ctx in
  [HAddress (hop_token_in hop); HI128 (hc_amount_in ctx); HAddress (hop_token_out hop);
   HI128 0; HI128 i128_max; HAddress (hc_router ctx)].

Definition authorize_comet_swap (ctx : HopContext) (args : list HostVal) : list AuthEntry :=
  let hop := hc_hop ctx in
  [auth_entry (hop_pool hop) "swap_exact_amount_in" args
     [auth_entry (hop_token_in hop) "transfer_from"
        [HAddress (hop_pool hop); HAddress (hc_router ctx); HAddress (hop_pool hop);
         HI128 (hc_amount_in ctx)] []]].

Section Comet.

Context {W : Type} `{SwapHost W}.

Definition clear_comet_approval (w : W) (ctx : HopContext) : rres W :=
  let hop := hc_hop ctx in
  token_approve (authorize_token_approve (hop_token_in hop) (hc_router ctx) (hop_pool hop) 0 0)
    w (hop_token_in hop) (hc_router ctx) (hop_pool hop) 0 0.

Definition swap (w : W) (ctx : HopContext) : rres W :=
  let hop := hc_hop ctx in
  let* approval_ledger := comet_approval_ledger (ledger_sequence w) in
  let* w := token_approve
    (authorize_token_approve (hop_token_in hop) (hc_router ctx) (hop_pool hop) (hc_amount_in ctx)
       approval_ledger)
    w (hop_token_in hop) (hc_router ctx) (hop_pool hop) (hc_amount_in ctx) approval_ledger in
  let args := swap_args ctx in
  let* (w, out) := invoke_contract (authorize_comet_swap ctx args) w (hop_pool hop)
                     "swap_exact_amount_in" args in
  do! as_i128_pair out in
  clear_comet_approval w ctx.

End Comet.

End CometVenue.

(** ** Curve (venues/curve.rs) *)

Module CurveVenue.

Import RouterError Hop.

Fixpoint map_get (l : list (string * HostVal)) (k : string) : option HostVal :=
  match l with
  | [] => None
  | (k', v) :: l' => if decide (k' = k) then Some v else map_get l' k
  end.

Section Curve.

Context {W : Type} `{SwapHost W}.

Definition coins (w : W) (pool : Address) : rres (W * list HostVal) :=
  let* (w, info) := invoke_contract [] w pool "pool_info" [] in
  let* fields := (match info with HMap l => Ok l | _ => Err RTrap end) in
  let* coins := of_option (RFault BrokenTokenChain) (map_get fields "coins") in
  match coins with
  | HVec l => Ok (w, l)
  | _ => Err (RFault BrokenTokenChain)
  end.

Definition swap (w : W) (ctx : HopContext) (cache : TokensCache) : rres (W * TokensCache) :=
  let hop := hc_hop ctx in
  let pool := hop_pool hop in
  let router := HAddress (hc_router ctx) in
  let* (w, cache, tokens) := pool_tokens w cache pool coins in
  let* (auth, function, args) :=
    (if bool_decide (hop_token_in hop = pool) then
       let* j := find_index tokens (hop_token_out hop) in
       Ok ([], "remove_liquidity_one_coin"%string,
           [router; HI128 (hc_amount_in ctx); HU32 (Z.of_nat j)])
     else
       let* i := find_index tokens (hop_token_in hop) in
       let auth := authorize_pool_pull ctx in
       if bool_decide (hop_token_out hop = pool) then
         let amounts :=
           map (fun index => HI128 (if (index =? i)%nat then hc_amount_in ctx else 0))
             (seq 0 (length tokens)) in
         Ok (auth, "add_liquidity"%string, [router; HVec amounts])
       else
         let* j := find_index tokens (hop_token_out hop) in
         Ok (auth, "exchange"%string,
             [router; HU32 (Z.of_nat i); HU32 (Z.of_nat j); HI128 (hc_amount_in ctx)])) in
  let* (w, out) := invoke_contract auth w pool function (args ++ [HI128 0; router]) in
  do! as_i128 out in
  Ok (w, cache).

End Curve.

End CurveVenue.

(** ** Aquarius (venues/aquarius/) *)

Module AquariusVenue.

Import RouterError RouterMath Program Hop VenueAuth Vault.

Definition to_u128 (amount : Z) : rres Z :=
  if amount <? 0 then Err (RFault IntegerOverflow) else Ok amount.

Section Aquarius.

Context {W : Type} `{SwapHost W}.

Definition invoke_pool_swap (w : W) (router pool token_in : Address) (in_idx out_idx : nat)
    (amount_in : Z) : rres W :=
  let auth := authorize_token_transfer token_in router pool amount_in in
  let* amount := to_u128 amount_in in
  let* (w, out) := invoke_contract auth w pool "swap"
    [HAddress router; HU32 (Z.of_nat in_idx); HU32 (Z.of_nat out_idx); HU128 amount; HU128 0] in
  do! as_u128 out in
  Ok w.

Definition get_tokens (w : W) (pool : Address) : rres (W * list HostVal) :=
  let* (w, out) := invoke_contract [] w pool "get_tokens" [] in
  let* tokens := as_vec out in
  Ok (w, tokens).

Definition assert_share_token (w : W) (pool lp_token : Address) : rres W :=
  let* (w, out) := invoke_contract [] w pool "share_id" [] in
  let* share := as_address out in
  do! require (bool_decide (share = lp_token)) (RFault LpTokenMismatch) in
  Ok w.

(** swap.rs *)
Definition swap (w : W) (ctx : HopContext) (cache : TokensCache) : rres (W * TokensCache) :=
  let hop := hc_hop ctx in
  let* (w, cache, tokens) := pool_tokens w cache (hop_pool hop) get_tokens in
  let* in_idx := find_index tokens (hop_token_in hop) in
  let* out_idx := find_index tokens (hop_token_out hop) in
  let* w := invoke_pool_swap w (hc_router ctx) (hop_pool hop) (hop_token_in hop) in_idx out_idx
              (hc_amount_in ctx) in
  Ok (w, cache).

(** burn.rs: the floors and the balances before, one constituent at a time *)
Definition burn_prepare (router : Address) (amounts : list Z) (min_start : nat)
    (st : W * list Z * list Z) (it : nat * Address) : rres (W * list Z * list Z) :=
  let '(w, min_amounts, before) := st in
  let* floor := get_unchecked amounts (min_start + it.1) in
  let* floor := to_u128 floor in
  let* (w, b) := token_balance w it.2 router in
  Ok (w, min_amounts ++ [floor], before ++ [b]).

(** burn.rs: the measured receipt of one constituent *)
Definition burn_credit (router : Address) (amounts : list Z) (min_start : nat) (before : list Z)
    (st : W * Vault * Z) (it : nat * Address) : rres (W * Vault * Z) :=
  let '(w, vault, total_received) := st in
  let* (w, b) := token_balance w it.2 router in
  let* old := get_unchecked before it.1 in
  let* received := of_option (RFault IntegerOverflow) (i128_checked_sub b old) in
  let* floor := get_unchecked amounts (min_start + it.1) in
  do! require (negb (received <? floor)) (RFault MinAmountsNotMet) in
  let* total_received := of_option (RFault IntegerOverflow) (i128_checked_add total_received received) in
  let* vault := deposit vault it.2 received in
  Ok (w, vault, total_received).

Definition remove_liquidity (w : W) (router : Address) (vault : Vault) (pool lp_token : Address)
    (amounts : list Z) (min_start : nat) (cache : TokensCache) : rres (W * Vault * TokensCache) :=
  let* (w, cache, tokens) := pool_tokens w cache pool get_tokens in
  let* w := assert_share_token w pool lp_token in
  let n := length tokens in
  do! require (min_start + n <=? length amounts)%nat (RFault MinAmountsNotMet) in
  let shares := balance_of vault lp_token in
  do! require (negb (shares <=? 0)) (RFault InvalidAmount) in
  let* (w, min_amounts, before) :=
    rfold (burn_prepare router amounts min_start) (w, [], []) (indexed tokens) in
  let* (w, shares_before) := token_balance w lp_token router in
  let auth := authorize_as_current lp_token "burn" [HAddress router; HI128 shares] in
  let* shares_u128 := to_u128 shares in
  let* (w, out) := invoke_contract auth w pool "withdraw"
    [HAddress router; HU128 shares_u128; HVec (map HU128 min_amounts)] in
  do! as_vec out in
  let* (w, shares_after) := token_balance w lp_token router in
  let* burned := of_option (RFault IntegerOverflow) (i128_checked_sub shares_before shares_after) in
  do! require (burned =? shares) (RFault InvalidAmount) in
  let* vault := withdraw vault lp_token shares in
  let* (w, vault, total_received) :=
    rfold (burn_credit router amounts min_start before) (w, vault, 0) (indexed tokens) in
  do! require (negb (total_received <=? 0)) (RFault ZeroOutput) in
  Ok (w, vault, cache).

(** mint.rs: what the vault offers of one constituent, and its balance before *)
Definition mint_prepare (router : Address) (vault : Vault)
    (st : W * list Z * list Z * list Z * Z) (token : Address)
    : rres (W * list Z * list Z * list Z * Z) :=
  let '(w, amounts, before, held, total_requested) := st in
  let amount := balance_of vault token in
  let* u := to_u128 amount in
  let* (w, b) := (if 0 <? amount then token_balance w token router else Ok (w, 0)) in
  let* total_requested := of_option (RFault IntegerOverflow) (i128_checked_add total_requested amount) in
  Ok (w, amounts ++ [u], before ++ [b], held ++ [amount], total_requested).

Definition mint_auth (router pool : Address) (tokens : list Address) (held : list Z)
    : list AuthEntry :=
  omap (fun th : Address * Z =>
    if 0 <? th.2
    then Some (auth_entry th.1 "transfer" [HAddress router; HAddress pool; HI128 th.2] [])
    else None) (combine tokens held).

(** mint.rs: the measured spend of one constituent *)
Definition mint_debit (router : Address) (before held : list Z)
    (st : W * Vault) (it : nat * Address) : rres (W * Vault) :=
  let '(w, vault) := st in
  let* offered := get_unchecked held it.1 in
  if offered =? 0 then Ok (w, vault)
  else
    let* old := get_unchecked before it.1 in
    let* (w, b) := token_balance w it.2 router in
    let* spent := of_option (RFault IntegerOverflow) (i128_checked_sub old b) in
    do! require (negb (spent <? 0)) (RFault InvalidAmount) in
    let* vault := withdraw vault it.2 spent in
    Ok (w, vault).

Definition add_liquidity (w : W) (router : Address) (vault : Vault) (pool lp_token : Address)
    (min_shares : Z) (cache : TokensCache) : rres (W * Vault * TokensCache * Z) :=
  let* (w, cache, tokens) := pool_tokens w cache pool get_tokens in
  let* w := assert_share_token w pool lp_token in
  do! require (negb (min_shares <=? 0)) (RFault MinSharesNotMet) in
  let* (w, amounts, before, held, total_requested) :=
    rfold (mint_prepare router vault) (w, [], [], [], 0) tokens in
  do! require (negb (total_requested <=? 0)) (RFault InvalidAmount) in
  let auth := mint_auth router pool tokens held in
  let* (w, shares_before) := token_balance w lp_token router in
  let* min_u128 := to_u128 min_shares in
  let* (w, out) := invoke_contract auth w pool "deposit"
    [HAddress router; HVec (map HU128 amounts); HU128 min_u128] in
  do! as_deposit_result out in
  let* (w, vault) := rfold (mint_debit router before held) (w, vault) (indexed tokens) in
  let* (w, shares_after) := token_balance w lp_token router in
  let* shares := of_option (RFault IntegerOverflow) (i128_checked_sub shares_after shares_before) in
  do! require (negb (shares <? min_shares)) (RFault MinSharesNotMet) in
  let* vault := deposit vault lp_token shares in
  Ok (w, vault, cache, shares).

End Aquarius.

End AquariusVenue.

(** ** Execution (venues/mod.rs [dispatch_hop], execute/) *)

Module Execute.

Import RouterError RouterMath Program Hop RouterStore Vault Fees.

(** The constants of one run ([Ctx]). *)
Record RunContext : Type := mkRunContext {
  cx_router : Address;
  cx_assets : list Address;
  cx_amounts : list Z;
  cx_program : Program
}.

Abbreviation PrevOutput := (option (Address * Z)).

Definition resolve_amount (ctx : RunContext) (vault : Vault) (mode : Mode) (token_in : Address)
    (prev : PrevOutput) : rres Z :=
  match mode with
  | All => Ok (balance_of vault token_in)
  | Prev =>
      match prev with
      | None => Err (RFault BrokenTokenChain)
      | Some (prev_token, prev_amount) =>
          do! require (bool_decide (prev_token = token_in)) (RFault BrokenTokenChain) in
          Ok prev_amount
      end
  | Fixed idx => get_unchecked (cx_amounts ctx) idx
  | Ppm idx =>
      let available := balance_of vault token_in in
      let* ppm := weight (cx_program ctx) idx in
      let* scaled := checked_mul available ppm in
      Ok (Z.quot scaled PPM_DENOMINATOR)
  end.

Section Execute.

Context `{OwnableLib} {W : Type} `{SwapHost W}.

Definition venue_swap (w : W) (ctx : HopContext) (cache : TokensCache) : rres (W * TokensCache) :=
  match hop_venue (hc_hop ctx) with
  | Soroswap => let* w := SoroswapVenue.swap w ctx in Ok (w, cache)
  | Aquarius => AquariusVenue.swap w ctx cache
  | Phoenix => let* w := PhoenixVenue.swap w ctx in Ok (w, cache)
  | Sushi => let* w := SushiVenue.swap w ctx in Ok (w, cache)
  | CometDex => let* w := CometVenue.swap w ctx in Ok (w, cache)
  | Curve => CurveVenue.swap w ctx cache
  end.

Definition dispatch_hop (w : W) (router : Address) (hop : SwapHop) (amount_in : Z)
    (cache : TokensCache) : rres (W * TokensCache * Z) :=
  let* ctx := HopContext_new router hop amount_in in
  let* (w, before_in) := input_balance w ctx in
  let* (w, before_out) := output_balance w ctx in
  let* (w, cache) := venue_swap w ctx cache in
  let* (w, after_out) := output_balance w ctx in
  let* received := of_option (RFault ZeroOutput) (i128_checked_sub after_out before_out) in
  do! require (negb (received <=? 0)) (RFault ZeroOutput) in
  let* (w, after_in) := input_balance w ctx in
  let* spent := of_option (RFault InvalidAmount) (i128_checked_sub before_in after_in) in
  do! require (spent =? amount_in) (RFault InvalidAmount) in
  Ok (w, cache, received).

Definition execute_op (ctx : RunContext) (w : W) (vault : Vault) (op : Op) (prev : PrevOutput)
    (cache : TokensCache) : rres (W * Vault * TokensCache * PrevOutput) :=
  match opcode op with
  | Swap venue =>
      let* pool := get_unchecked (cx_assets ctx) (idx_a op) in
      let* token_in := get_unchecked (cx_assets ctx) (idx_b op) in
      let* token_out := get_unchecked (cx_assets ctx) (idx_c op) in
      let hop := mkSwapHop pool token_in token_out venue in
      let* amount_in := resolve_amount ctx vault (mode op) token_in prev in
      do! require (negb (amount_in <=? 0)) (RFault InvalidAmount) in
      let* vault := withdraw vault token_in amount_in in
      let* (w, cache, out) := dispatch_hop w (cx_router ctx) hop amount_in cache in
      do! require (negb (out <=? 0)) (RFault ZeroOutput) in
      let* vault := deposit vault token_out out in
      Ok (w, vault, cache, Some (token_out, out))
  | Burn =>
      let* pool := get_unchecked (cx_assets ctx) (idx_a op) in
      let* lp_token := get_unchecked (cx_assets ctx) (idx_b op) in
      let* (w, vault, cache) := AquariusVenue.remove_liquidity w (cx_router ctx) vault pool lp_token
                                  (cx_amounts ctx) (idx_c op) cache in
      Ok (w, vault, cache, None)
  | Mint =>
      let* lp_token := get_unchecked (cx_assets ctx) (idx_b op) in
      let* pool := get_unchecked (cx_assets ctx) (idx_a op) in
      let* min_shares := get_unchecked (cx_amounts ctx) (idx_c op) in
      let* (w, vault, cache, shares) := AquariusVenue.add_liquidity w (cx_router ctx) vault pool
                                          lp_token min_shares cache in
      Ok (w, vault, cache, Some (lp_token, shares))
  end.

(** The instruction loop of [run]. *)
Definition execute_program (ctx : RunContext) (w : W) (vault : Vault) : rres (W * Vault) :=
  let* (w, vault, _, _) :=
    rfold (fun (st : W * Vault * TokensCache * PrevOutput) i =>
      let '(w, vault, cache, prev) := st in
      let* o := op (cx_program ctx) i in
      execute_op ctx w vault o prev cache)
      (w, vault, ∅, None) (seq 0 (len (cx_program ctx))) in
  Ok (w, vault).

(** residual.rs *)
Definition accrue_residual_as_revenue (r : Router) (vault : Vault) : rres (Router * Vault) :=
  rfold (fun (st : Router * Vault) token =>
    let '(r, vault) := st in
    let amount := balance_of vault token in
    if amount <=? 0 then Ok (r, vault)
    else
      do! require (negb (residual_allowance (credited_of vault token) <? amount))
            (RFault ExcessiveResidual) in
      let* vault := withdraw vault token amount in
      let* r := accumulate_fee r (AdminFee token) amount in
      Ok (r, vault)) (r, vault) (tokens vault).

(** [transfer_amount_measured] of common/src/token.rs *)
Definition transfer_amount_measured (w : W) (asset from to : Address) (amount : Z)
    (non_positive_error : GenericError) : rres (W * Z) :=
  do! require (0 <? amount) (RShared (EGeneric non_positive_error)) in
  let* (w, pre) := token_balance w asset to in
  let* w := token_transfer w asset from to amount in
  let* (w, post) := token_balance w asset to in
  let* delta := of_option (RShared (EGeneric AmountMustBePositive)) (i128_checked_sub post pre) in
  Ok (w, delta).

Definition fee_on_input (r : Router) (referral_id : Z) (input_token output_token : Address) : bool :=
  if negb (referral_id =? 0) then
    let list := load_whitelist r in
    let in_wl := bool_decide (input_token ∈ list) in
    let out_wl := bool_decide (output_token ∈ list) in
    negb out_wl || in_wl
  else false.

Definition run (env : Env) (r : Router) (w : W) (sender : Address) (total_in : Z)
    (payload : StrategyPayload) : rres (Router * W * Z) :=
  do! require (authorized env sender) RTrap in
  do! require (negb (total_in <=? 0)) (RFault InvalidAmount) in
  let amounts := amounts payload in
  let assets := assets payload in
  let* program := decode (ops payload) assets (length amounts) in
  let* input_token := get_unchecked assets (token_in program) in
  let* output_token := get_unchecked assets (token_out program) in
  let* total_min_out := get_unchecked amounts (min_out program) in
  do! require (negb (total_min_out <=? 0)) (RFault SlippageExceeded) in
  let router := current_contract_address env in
  let* (w, credited_in) := transfer_amount_measured w input_token sender router total_in
                             AmountMustBePositive in
  let* vault := deposit Vault.new input_token credited_in in
  let referral_id := referral_id program in
  let on_input := fee_on_input r referral_id input_token output_token in
  let* (r, vault) :=
    (if on_input then apply_fees_on_token r vault input_token referral_id else Ok (r, vault)) in
  let ctx := mkRunContext router assets amounts program in
  let* (w, vault) := execute_program ctx w vault in
  let* (r, vault) :=
    (if negb on_input then apply_fees_on_token r vault output_token referral_id
     else Ok (r, vault)) in
  let total_out := balance_of vault output_token in
  do! require (negb (total_out <? total_min_out)) (RFault SlippageExceeded) in
  let* vault := withdraw vault output_token total_out in
  let* w := token_transfer w output_token router sender total_out in
  let* (r, _) := accrue_residual_as_revenue r vault in
  Ok (r, w, total_out).

End Execute.

End Execute.

(** ** Entrypoints (lib.rs, the claims of fees.rs) *)

Module Aggregator.

Import RouterError RouterStore Vault Fees Execute.

Section Entry.

Context `{OwnableLib} {W : Type} `{SwapHost W}.

Definition constructor (admin : Address) : rres Router :=
  let* o := set_owner no_owner admin in
  Ok (mkRouter o None None None ∅ ∅).

Definition only_owner (env : Env) (r : Router) : rres unit :=
  match get_owner (r_ownership r) with
  | Some owner => require (authorized env owner) RTrap
  | None => Err RTrap
  end.

Definition set_static_fee (env : Env) (r : Router) (fee_bps : Z) : rres Router :=
  do! only_owner env r in
  Fees.set_static_fee r fee_bps.

Definition add_to_whitelist (env : Env) (r : Router) (token : Address) : rres Router :=
  do! only_owner env r in
  let list := load_whitelist r in
  if bool_decide (token ∈ list) then Ok r else Ok (set_whitelist r (list ++ [token])).

Definition remove_from_whitelist (env : Env) (r : Router) (token : Address) : rres Router :=
  do! only_owner env r in
  let list := load_whitelist r in
  match Hop.first_index_of list token with
  | Some idx => Ok (set_whitelist r (delete idx list))
  | None => Ok r
  end.

Definition add_referral (env : Env) (r : Router) (owner : Address) (fee_bps : Z)
    : rres (Router * Z) :=
  do! only_owner env r in
  do! require (negb (FEE_CAP <? fee_bps)) (RFault FeeTooHigh) in
  let counter := referral_counter r in
  do! require (counter + 1 <=? u64_max) (RFault IntegerOverflow) in
  let id := counter + 1 in
  let r := set_referral_counter r id in
  Ok (set_referral r id (mkReferralConfig owner fee_bps true), id).

Definition set_referral_fee (env : Env) (r : Router) (id fee_bps : Z) : rres Router :=
  do! only_owner env r in
  do! require (negb (FEE_CAP <? fee_bps)) (RFault FeeTooHigh) in
  let* cfg := load_referral r id in
  Ok (set_referral r id (mkReferralConfig (ref_owner cfg) fee_bps (ref_active cfg))).

Definition set_referral_active (env : Env) (r : Router) (id : Z) (active : bool) : rres Router :=
  do! only_owner env r in
  let* cfg := load_referral r id in
  Ok (set_referral r id (mkReferralConfig (ref_owner cfg) (ref_fee_bps cfg) active)).

Definition set_referral_owner (env : Env) (r : Router) (id : Z) (new_owner : Address) : rres Router :=
  do! only_owner env r in
  let* cfg := load_referral r id in
  Ok (set_referral r id (mkReferralConfig new_owner (ref_fee_bps cfg) (ref_active cfg))).

Definition claim_fee_bucket (r : Router) (w : W) (router recipient : Address)
    (tokens : list Address) (bucket : FeeBucket) : rres (Router * W) :=
  rfold (fun (st : Router * W) token =>
    let '(r, w) := st in
    let* (r, amount) := take_fee_bucket r (FeeBucket_key bucket token) in
    if 0 <? amount then
      let* w := token_transfer w token router recipient amount in
      Ok (r, w)
    else Ok (r, w)) (r, w) tokens.

Definition claim_admin_fees (env : Env) (r : Router) (w : W) (recipient : Address)
    (tokens : list Address) : rres (Router * W) :=
  do! only_owner env r in
  claim_fee_bucket r w (current_contract_address env) recipient tokens BucketAdmin.

Definition claim_referral_fees (env : Env) (r : Router) (w : W) (id : Z)
    (tokens : list Address) : rres (Router * W) :=
  let* cfg := load_referral r id in
  claim_fee_bucket r w (current_contract_address env) (ref_owner cfg) tokens (BucketReferral id).

Definition sweep_balance (env : Env) (r : Router) (w : W) (recipient : Address)
    (tokens : list Address) : rres W :=
  do! only_owner env r in
  let router := current_contract_address env in
  rfold (fun w token =>
    let* (w, balance) := token_balance w token router in
    let reserved := reserved_fee_balance r token in
    if reserved <? balance then
      let* excess := of_option RTrap (i128_checked_sub balance reserved) in
      token_transfer w token router recipient excess
    else Ok w) w tokens.

Definition execute_strategy (env : Env) (r : Router) (w : W) (sender : Address) (total_in : Z)
    (swap_xdr : list Byte.byte) : rres (Router * W * Z) :=
  let* payload := of_option (RFault InvalidRouteXdr) (payload_from_xdr swap_xdr) in
  run env r w sender total_in payload.

(** Reads *)
Definition admin (r : Router) : rres Address :=
  of_option (RFault NotAdmin) (get_owner (r_ownership r)).
Definition is_whitelisted (r : Router) (token : Address) : bool :=
  bool_decide (token ∈ load_whitelist r).
Definition whitelisted_tokens (r : Router) : list Address := load_whitelist r.
Definition referral (r : Router) (id : Z) : option ReferralConfig := try_load_referral r id.
Definition admin_fee_balance (r : Router) (token : Address) : Z := fee_balance r (AdminFee token).
Definition referral_fee_balance (r : Router) (id : Z) (token : Address) : Z :=
  fee_balance r (ReferralFee id token).

(** One transaction on the router; a read changes nothing and is left out. *)
Inductive RouterCall : Type :=
| CallSetStaticFee (fee_bps : Z)
| CallAddToWhitelist (token : Address)
| CallRemoveFromWhitelist (token : Address)
| CallAddReferral (owner : Address) (fee_bps : Z)
| CallSetReferralFee (id fee_bps : Z)
| CallSetReferralActive (id : Z) (active : bool)
| CallSetReferralOwner (id : Z) (new_owner : Address)
| CallClaimAdminFees (recipient : Address) (tokens : list Address)
| CallClaimReferralFees (id : Z) (tokens : list Address)
| CallSweepBalance (recipient : Address) (tokens : list Address)
| CallExecuteStrategy (sender : Address) (total_in : Z) (swap_xdr : list Byte.byte)
| CallTransferOwnership (new_owner : Address) (live_until_ledger : Z)
| CallAcceptOwnership.

Definition beside_world (w : W) (c : rres Router) : rres (Router * W) := let* r := c in Ok (r, w).

Definition dispatch (env : Env) (r : Router) (w : W) (call : RouterCall) : rres (Router * W) :=
  match call with
  | CallSetStaticFee fee_bps => beside_world w (set_static_fee env r fee_bps)
  | CallAddToWhitelist token => beside_world w (add_to_whitelist env r token)
  | CallRemoveFromWhitelist token => beside_world w (remove_from_whitelist env r token)
  | CallAddReferral owner fee_bps =>
      let* (r, _) := add_referral env r owner fee_bps in Ok (r, w)
  | CallSetReferralFee id fee_bps => beside_world w (set_referral_fee env r id fee_bps)
  | CallSetReferralActive id active => beside_world w (set_referral_active env r id active)
  | CallSetReferralOwner id new_owner => beside_world w (set_referral_owner env r id new_owner)
  | CallClaimAdminFees recipient tokens => claim_admin_fees env r w recipient tokens
  | CallClaimReferralFees id tokens => claim_referral_fees env r w id tokens
  | CallSweepBalance recipient tokens =>
      let* w := sweep_balance env r w recipient tokens in Ok (r, w)
  | CallExecuteStrategy sender total_in swap_xdr =>
      let* (r, w, _) := execute_strategy env r w sender total_in swap_xdr in Ok (r, w)
  | CallTransferOwnership new_owner live_until_ledger =>
      beside_world w (let* o := SwapStore.transfer_ownership env (r_ownership r) new_owner live_until_ledger in
                      Ok (with_ownership r o))
  | CallAcceptOwnership =>
      beside_world w (let* o := SwapStore.accept_ownership env (r_ownership r) in
                      Ok (with_ownership r o))
  end.

End Entry.

End Aggregator.
