(* ===== verification/SwapSteps.v ===== *)
(** * Swap aggregator: what the operations keep

    [store_ok] is the well-formedness of the stored fees, with the reserved total of a token
    equal to the sum of its buckets; [FeeToken] is what is relied on of a token whose fees are
    to stay backed.  Other tokens and every pool may behave arbitrarily. *)

From S2P Require Import Prelude Errors FpCore Fp PoolTypes PoolCache SwapProgram SwapStore SwapRouter.
From stdpp Require Import base numbers list gmap strings sorting.
From Stdlib Require Import ZArith Lia Bool.

Open Scope Z_scope.

(** ** Sums over the fee buckets *)

Module Buckets.

Import RouterError RouterMath RouterStore.

Definition of_token (t : Address) (kv : DataKey * Z) : Z :=
  match kv.1 with
  | AdminFee t' | ReferralFee _ t' => if decide (t' = t) then kv.2 else 0
  | _ => 0
  end.

Definition bucket_sum (b : gmap DataKey Z) (t : Address) : Z := zsum (of_token t) (map_to_list b).

Lemma zsum_perm {A} (f : A -> Z) l1 l2 : l1 ≡ₚ l2 -> zsum f l1 = zsum f l2.
Proof. intros Hp. unfold zsum. induction Hp; cbn; lia. Qed.

Lemma zsum_cons {A} (f : A -> Z) x l : zsum f (x :: l) = f x + zsum f l.
Proof. reflexivity. Qed.

Lemma sum_delete b t k v : b !! k = Some v ->
  bucket_sum (delete k b) t = bucket_sum b t - of_token t (k, v).
Proof.
  intros Hk. unfold bucket_sum. rewrite <- (insert_delete_id b k v Hk) at 2.
  rewrite (zsum_perm _ _ _ (map_to_list_insert (delete k b) k v (lookup_delete_eq b k))).
  rewrite zsum_cons. lia.
Qed.

Lemma sum_insert b t k v :
  bucket_sum (<[k := v]> b) t
  = bucket_sum b t - of_token t (k, default 0 (b !! k)) + of_token t (k, v).
Proof.
  assert (bucket_sum (<[k := v]> b) t = bucket_sum (delete k b) t + of_token t (k, v)) as ->.
  { unfold bucket_sum. rewrite <- insert_delete_eq.
    rewrite (zsum_perm _ _ _ (map_to_list_insert (delete k b) k v (lookup_delete_eq b k))).
    rewrite zsum_cons. lia. }
  destruct (b !! k) as [o|] eqn:Hk; cbn.
  - rewrite (sum_delete b t k o Hk). lia.
  - rewrite delete_id by done. unfold of_token. cbn. destruct k; cbn; try case_decide; lia.
Qed.

Lemma sum_other b t k v : of_token t (k, v) = 0 -> of_token t (k, default 0 (b !! k)) = 0 ->
  bucket_sum (<[k := v]> b) t = bucket_sum b t.
Proof. intros H1 H2. rewrite sum_insert. lia. Qed.

Definition is_bucket (k : DataKey) : Prop :=
  match k with AdminFee _ | ReferralFee _ _ | ReservedTotal _ => True | _ => False end.

Section Store.

Context `{OwnableLib}.

Implicit Types r : Router.

Definition reserved r (t : Address) : Z := reserved_fee_balance r t.

(** Positive entries under fee keys, and totals that are the sums of their buckets. *)
Record buckets_ok r : Prop := {
  bk_pos : forall k v, r_buckets r !! k = Some v -> is_bucket k /\ 0 < v <= i128_max;
  bk_sum : forall t, reserved r t = bucket_sum (r_buckets r) t
}.

Lemma bucket_le b t k v : (forall k v, b !! k = Some v -> 0 < v) -> b !! k = Some v ->
  0 <= of_token t (k, v) <= bucket_sum b t.
Proof.
  intros Hpos Hk. pose proof (Hpos k v Hk).
  assert (0 <= of_token t (k, v)) by (unfold of_token; cbn; destruct k; try case_decide; lia).
  split; [done|].
  pose proof (sum_delete b t k v Hk).
  assert (0 <= bucket_sum (delete k b) t); [|lia].
  unfold bucket_sum. apply zsum_nonneg, Forall_forall. intros [k' v'] Hin.
  apply elem_of_map_to_list, lookup_delete_Some in Hin as [_ Hin]. apply Hpos in Hin.
  unfold of_token. cbn. destruct k'; try case_decide; lia.
Qed.

Lemma reserved_nonneg r t : buckets_ok r -> 0 <= reserved r t.
Proof.
  intros Hok. unfold reserved, reserved_fee_balance.
  destruct (r_buckets r !! ReservedTotal t) as [v|] eqn:Hv; cbn; [|lia].
  apply (bk_pos r Hok) in Hv. lia.
Qed.

(** Between a credit and its reservation the buckets of [token] run [d] ahead of the total. *)
Record buckets_ahead r (token : Address) (d : Z) : Prop := {
  ah_pos : forall k v, r_buckets r !! k = Some v -> is_bucket k /\ 0 < v <= i128_max;
  ah_sum : forall t, reserved r t + (if decide (token = t) then d else 0)
                     = bucket_sum (r_buckets r) t
}.

Lemma ahead_zero r token : buckets_ahead r token 0 <-> buckets_ok r.
Proof.
  split; intros [Hp Hs]; (split; [done|]); intros t; specialize (Hs t); case_decide; lia.
Qed.

Lemma stored_nonneg r token d k : buckets_ahead r token d -> 0 <= default 0 (r_buckets r !! k).
Proof.
  intros [Hp _]. destruct (r_buckets r !! k) eqn:E; cbn; [|lia]. apply Hp in E. lia.
Qed.

Lemma credit_bucket_ok r key token d amount r' :
  buckets_ahead r token d -> bucket_token key = Ok token -> 0 < amount ->
  credit_bucket r key amount = Ok r' ->
  buckets_ahead r' token (d + amount) /\ (forall t, reserved r' t = reserved r t).
Proof.
  intros Hok Hkey Ha Hc. unfold credit_bucket in Hc.
  apply rbind_Ok in Hc as (next & Hn & Hc). injection Hc as <-.
  apply of_option_Ok, i128_checked_Some in Hn as [-> Hn].
  pose proof (stored_nonneg r token d key Hok) as Hcur. destruct Hok as [Hpos Hsum].
  assert (forall t, reserved (with_buckets r
    (<[key := default 0 (r_buckets r !! key) + amount]> (r_buckets r))) t = reserved r t) as Hres.
  { intros t. unfold reserved, reserved_fee_balance. cbn [r_buckets with_buckets].
    rewrite lookup_insert_ne; [done|]. intros ->. discriminate Hkey. }
  split; [|exact Hres]. split; cbn [r_buckets with_buckets].
  - intros k v. rewrite lookup_insert_Some. intros [[<- <-]|[_ Hk]]; [|by apply Hpos].
    split; [destruct key; done || discriminate Hkey|lia].
  - intros t. rewrite Hres, sum_insert, <- Hsum. unfold of_token. cbn.
    destruct key; try discriminate Hkey; injection Hkey as ->; case_decide; lia.
Qed.

Lemma reserve_ok r token d amount r' :
  buckets_ahead r token d -> reserve r token amount = Ok r' ->
  buckets_ahead r' token (d - amount)
  /\ (forall t, reserved r' t = reserved r t + if decide (token = t) then amount else 0).
Proof.
  intros Hok Hr. unfold reserve in Hr. apply rbind_Ok in Hr as (u & Hnn & Hr).
  apply require_Ok, negb_true_iff, Z.ltb_ge in Hnn.
  destruct (Z.eqb_spec amount 0) as [->|Hne].
  { injection Hr as <-. rewrite Z.sub_0_r. split; [done|]. intros t. case_decide; lia. }
  apply rbind_Ok in Hr as (total & Ht & Hr). injection Hr as <-.
  apply of_option_Ok, i128_checked_Some in Ht as [-> Ht].
  pose proof (stored_nonneg r token d (ReservedTotal token) Hok) as Hcur. destruct Hok as [Hpos Hsum].
  assert (forall t, reserved (with_buckets r
    (<[ReservedTotal token := default 0 (r_buckets r !! ReservedTotal token) + amount]>
       (r_buckets r))) t = reserved r t + if decide (token = t) then amount else 0) as Hres.
  { intros t. unfold reserved, reserved_fee_balance. cbn [r_buckets with_buckets].
    destruct (decide (token = t)) as [<-|Hnt]; [by rewrite lookup_insert_eq|].
    rewrite lookup_insert_ne by congruence. lia. }
  split; [|exact Hres]. split; cbn [r_buckets with_buckets].
  - intros k v. rewrite lookup_insert_Some. intros [[<- <-]|[_ Hk]]; [split; [done|lia]|by apply Hpos].
  - intros t. rewrite Hres, sum_other by done. rewrite <- Hsum. case_decide; lia.
Qed.

Lemma accumulate_fee_ok r key token amount r' :
  buckets_ok r -> bucket_token key = Ok token -> 0 < amount ->
  accumulate_fee r key amount = Ok r' ->
  buckets_ok r' /\ (forall t, reserved r' t = reserved r t + if decide (token = t) then amount else 0).
Proof.
  intros Hok Hkey Ha Hacc. unfold accumulate_fee in Hacc. rewrite Hkey in Hacc. cbn [rbind] in Hacc.
  apply rbind_Ok in Hacc as (r1 & H1 & H2). apply (ahead_zero r token) in Hok.
  destruct (credit_bucket_ok _ _ _ _ _ _ Hok Hkey Ha H1) as [Hok1 Hr1].
  destruct (reserve_ok _ _ _ _ _ Hok1 H2) as [Hok2 Hr2].
  rewrite Z.add_0_l, Z.sub_diag in Hok2. split; [by eapply ahead_zero|].
  intros t. by rewrite Hr2, Hr1.
Qed.

(** Both buckets of one swap, reserved together. *)
Lemma accumulate_swap_fees_ok r token id static_amount referral_amount r' :
  buckets_ok r -> 0 <= static_amount -> 0 <= referral_amount ->
  accumulate_swap_fees r token id static_amount referral_amount = Ok r' ->
  buckets_ok r' /\ (forall t, reserved r' t
    = reserved r t + if decide (token = t) then static_amount + referral_amount else 0).
Proof.
  intros Hok Hs Hf Hacc. unfold accumulate_swap_fees in Hacc. apply (ahead_zero r token) in Hok.
  apply rbind_Ok in Hacc as ([r1 d1] & H1 & Hacc). apply rbind_Ok in Hacc as ([r2 d2] & H2 & Hacc).
  assert (buckets_ahead r1 token d1 /\ d1 = static_amount
          /\ forall t, reserved r1 t = reserved r t) as (Hok1 & -> & Hr1).
  { destruct (Z.ltb_spec 0 static_amount) as [Hlt|Hge].
    - apply rbind_Ok in H1 as (rc & Hc & H1). apply rbind_Ok in H1 as (n & Hn & H1).
      injection H1 as <- <-. apply of_option_Ok, i128_checked_Some in Hn as [-> _].
      destruct (credit_bucket_ok _ (AdminFee token) _ _ _ _ Hok eq_refl Hlt Hc) as [Hc1 Hc2].
      auto.
    - injection H1 as <- <-. split; [done|]. split; [lia|done]. }
  assert (buckets_ahead r2 token d2 /\ d2 = static_amount + referral_amount
          /\ forall t, reserved r2 t = reserved r1 t) as (Hok2 & -> & Hr2).
  { destruct (Z.ltb_spec 0 referral_amount) as [Hlt|Hge].
    - apply rbind_Ok in H2 as (rc & Hc & H2). apply rbind_Ok in H2 as (n & Hn & H2).
      injection H2 as <- <-. apply of_option_Ok, i128_checked_Some in Hn as [-> _].
      destruct (credit_bucket_ok _ (ReferralFee id token) _ _ _ _ Hok1 eq_refl Hlt Hc) as [Hc1 Hc2].
      auto.
    - injection H2 as <- <-. split; [done|]. split; [lia|done]. }
  destruct (reserve_ok _ _ _ _ _ Hok2 Hacc) as [Hok3 Hr3]. rewrite Z.sub_diag in Hok3.
  split; [by eapply ahead_zero|]. intros t. by rewrite Hr3, Hr2, Hr1.
Qed.

(** A taken bucket leaves the total with it. *)
Lemma take_fee_bucket_ok r key token r' amount :
  buckets_ok r -> bucket_token key = Ok token -> take_fee_bucket r key = Ok (r', amount) ->
  buckets_ok r' /\ 0 <= amount <= i128_max /\ amount = fee_balance r key
  /\ (forall t, reserved r' t = reserved r t - if decide (token = t) then amount else 0).
Proof.
  intros [Hpos Hsum] Hkey Htake. unfold take_fee_bucket, fee_balance in *.
  destruct (Z.ltb_spec 0 (default 0 (r_buckets r !! key))) as [Hlt|Hge].
  - destruct (r_buckets r !! key) as [v|] eqn:Hv; cbn in Hlt, Htake; [|lia].
    rewrite Hkey in Htake. cbn [rbind] in Htake.
    apply rbind_Ok in Htake as (r1 & Hrel & Htake). injection Htake as <- <-.
    pose proof (Hpos key v Hv) as [Hb Hv'].
    assert (key <> ReservedTotal token) as Hne by (intros ->; discriminate Hkey).
    unfold release in Hrel. cbn [r_buckets with_buckets] in Hrel.
    rewrite lookup_delete_ne in Hrel by done.
    apply rbind_Ok in Hrel as (u & Hle & Hrel). apply require_Ok, negb_true_iff, Z.ltb_ge in Hle.
    apply rbind_Ok in Hrel as (next & Hn & Hrel). apply of_option_Ok, i128_checked_Some in Hn as [-> Hn].
    set (total := default 0 (r_buckets r !! ReservedTotal token)) in *.
    assert (r1 = with_buckets r (if total - v =? 0
      then delete (ReservedTotal token) (delete key (r_buckets r))
      else <[ReservedTotal token := total - v]> (delete key (r_buckets r)))) as ->.
    { destruct (total - v =? 0); by injection Hrel as <-. }
    clear Hrel.
    assert (forall t, reserved (with_buckets r (if total - v =? 0
      then delete (ReservedTotal token) (delete key (r_buckets r))
      else <[ReservedTotal token := total - v]> (delete key (r_buckets r)))) t
      = reserved r t - if decide (token = t) then v else 0) as Hres.
    { intros t. unfold reserved, reserved_fee_balance. cbn [r_buckets with_buckets].
      destruct (decide (token = t)) as [<-|Hnt]; destruct (Z.eqb_spec (total - v) 0) as [E|E].
      - rewrite lookup_delete_eq. cbn. fold total. lia.
      - by rewrite lookup_insert_eq.
      - rewrite lookup_delete_ne by congruence.
        rewrite lookup_delete_ne by (intros ->; discriminate Hkey). lia.
      - rewrite lookup_insert_ne by congruence.
        rewrite lookup_delete_ne by (intros ->; discriminate Hkey). lia. }
    split; [|split; [lia|split; [done|exact Hres]]].
    split.
    + intros k x. cbn [r_buckets with_buckets]. destruct (Z.eqb_spec (total - v) 0) as [E|E].
      * rewrite !lookup_delete_Some. intros (_ & _ & Hx). by apply Hpos.
      * rewrite lookup_insert_Some, lookup_delete_Some. intros [[<- <-]|(_ & _ & Hx)].
        -- split; [done|lia].
        -- by apply Hpos.
    + intros t. rewrite Hres, Hsum. cbn [r_buckets with_buckets].
      transitivity (bucket_sum (delete key (r_buckets r)) t).
      * rewrite (sum_delete _ t key v Hv). unfold of_token. cbn.
        destruct key; try discriminate Hkey; injection Hkey as ->; case_decide; lia.
      * destruct (Z.eqb_spec (total - v) 0) as [E|E].
        -- destruct (delete key (r_buckets r) !! ReservedTotal token) as [x|] eqn:Hx.
           ++ rewrite (sum_delete _ t _ x Hx). unfold of_token. cbn. lia.
           ++ by rewrite (delete_id (delete key (r_buckets r)) (ReservedTotal token) Hx).
        -- symmetry. by apply sum_other.
  - injection Htake as <- <-.
    assert (default 0 (r_buckets r !! key) = 0) as Hz.
    { destruct (r_buckets r !! key) as [v|] eqn:Hv; cbn in *; [apply Hpos in Hv; lia|done]. }
    rewrite Hz. split; [done|]. split; [unfold i128_max; lia|]. split; [done|].
    intros t. case_decide; lia.
Qed.

(** A bucket is part of its token's total, so a release never underflows. *)
Lemma take_fee_bucket_total r key token : buckets_ok r -> bucket_token key = Ok token ->
  exists r', take_fee_bucket r key = Ok (r', fee_balance r key).
Proof.
  intros [Hpos Hsum] Hkey. unfold take_fee_bucket, fee_balance.
  destruct (Z.ltb_spec 0 (default 0 (r_buckets r !! key))) as [Hlt|_]; [|eauto].
  destruct (r_buckets r !! key) as [v|] eqn:Hv; cbn in Hlt; [|lia]. cbn [default].
  rewrite Hkey. cbn [rbind]. unfold release. cbn [r_buckets with_buckets].
  rewrite lookup_delete_ne by (intros ->; discriminate Hkey).
  pose proof (Hsum token) as Ht. unfold reserved, reserved_fee_balance in Ht.
  pose proof (bucket_le (r_buckets r) token key v (fun k x Hk => proj1 (proj2 (Hpos k x Hk))) Hv) as Hle.
  assert (of_token token (key, v) = v) as Hof.
  { unfold of_token. destruct key; try discriminate Hkey; injection Hkey as ->; cbn; by rewrite decide_True. }
  assert (default 0 (r_buckets r !! ReservedTotal token) <= i128_max) as Hmax.
  { destruct (r_buckets r !! ReservedTotal token) as [x|] eqn:Hx; cbn; [|unfold i128_max; lia].
    apply Hpos in Hx. lia. }
  change (id v) with v. set (total := default 0 (r_buckets r !! ReservedTotal token)) in *.
  rewrite (proj2 (Z.ltb_ge total v)) by lia. cbn [rbind require negb].
  unfold i128_checked_sub. rewrite i128_checked_in by (unfold i128_min; lia).
  cbn [rbind of_option]. destruct (_ =? 0); cbn [rbind]; eauto.
Qed.

Lemma take_empties r key token r' amount : bucket_token key = Ok token ->
  take_fee_bucket r key = Ok (r', amount) -> 0 < fee_balance r key -> fee_balance r' key = 0.
Proof.
  intros Hkey Ht Hpos. unfold take_fee_bucket, fee_balance in *.
  rewrite (proj2 (Z.ltb_lt _ _) Hpos), Hkey in Ht. cbn [rbind] in Ht.
  apply rbind_Ok in Ht as (r1 & Hr & Ht). injection Ht as <- <-. unfold release in Hr.
  apply rbind_Ok in Hr as (u & _ & Hr). apply rbind_Ok in Hr as (n & _ & Hr).
  assert (key <> ReservedTotal token) as Hne by (intros ->; discriminate Hkey).
  destruct (n =? 0); injection Hr as <-; cbn [r_buckets with_buckets].
  - rewrite lookup_delete_ne by done. by rewrite lookup_delete_eq.
  - rewrite lookup_insert_ne by done. by rewrite lookup_delete_eq.
Qed.

End Store.

End Buckets.

(** ** The stored router *)

Module RouterInv.

Import RouterError RouterMath RouterStore Vault Fees Execute Buckets.

Section Inv.

Context `{OwnableLib}.

Implicit Types (r : Router) (v : Vault).

Record router_ok r : Prop := {
  ro_buckets : buckets_ok r;
  ro_static : 0 <= static_fee_bps r <= FEE_CAP;
  ro_referrals : forall id cfg, r_referrals r !! id = Some cfg ->
    1 <= id <= referral_counter r /\ 0 <= ref_fee_bps cfg <= FEE_CAP;
  ro_counter : 0 <= referral_counter r <= u64_max;
  ro_whitelist : NoDup (load_whitelist r);
  ro_claimable : forall id t, is_Some (r_buckets r !! ReferralFee id t) ->
    is_Some (r_referrals r !! id)
}.

(** A step that moves fees only: settings stay, and new referral buckets belong to [P]. *)
Definition fee_step (P : Z -> Prop) r r' : Prop :=
  r' = with_buckets r (r_buckets r')
  /\ forall id t, is_Some (r_buckets r' !! ReferralFee id t) ->
     is_Some (r_buckets r !! ReferralFee id t) \/ P id.

Lemma fee_step_refl P r : fee_step P r r.
Proof. split; [by destruct r|auto]. Qed.

Lemma fee_step_trans P r1 r2 r3 : fee_step P r1 r2 -> fee_step P r2 r3 -> fee_step P r1 r3.
Proof.
  intros [E1 K1] [E2 K2]. split; [by rewrite E2, E1|].
  intros id t Hk. apply K2 in Hk as [Hk|Hk]; auto.
Qed.

Lemma fee_step_router r r' P : router_ok r -> fee_step P r r' -> buckets_ok r' ->
  (forall id, P id -> is_Some (r_referrals r !! id)) -> router_ok r'.
Proof.
  intros Hok [E K] Hb HP. destruct Hok as [_ H1 H2 H3 H4 H5].
  rewrite E. split; try done; [by rewrite <- E|].
  cbn [r_buckets r_referrals with_buckets]. intros id t Hk.
  apply K in Hk as [Hk|Hk]; eauto.
Qed.

Lemma insert_step r k x (P : Z -> Prop) :
  (match k with ReferralFee id _ => P id | _ => True end) ->
  fee_step P r (with_buckets r (<[k := x]> (r_buckets r))).
Proof.
  intros HP. split; [done|]. cbn [r_buckets with_buckets]. intros id t.
  rewrite lookup_insert_is_Some. intros [-> |[_ Hk]]; [right; exact HP|auto].
Qed.

Lemma delete_step r k (P : Z -> Prop) : fee_step P r (with_buckets r (delete k (r_buckets r))).
Proof.
  split; [done|]. cbn [r_buckets with_buckets]. intros id t. rewrite lookup_delete_is_Some. tauto.
Qed.

Lemma credit_step r key amount r' (P : Z -> Prop) :
  (match key with ReferralFee id _ => P id | _ => True end) ->
  credit_bucket r key amount = Ok r' -> fee_step P r r'.
Proof.
  intros HP Hc. unfold credit_bucket in Hc. apply rbind_Ok in Hc as (n & _ & Hc).
  injection Hc as <-. by apply insert_step.
Qed.

Lemma reserve_step r token amount r' P : reserve r token amount = Ok r' -> fee_step P r r'.
Proof.
  unfold reserve. intros Hr. apply rbind_Ok in Hr as (u & _ & Hr).
  destruct (amount =? 0); [injection Hr as <-; apply fee_step_refl|].
  apply rbind_Ok in Hr as (n & _ & Hr). injection Hr as <-. by apply insert_step.
Qed.

Lemma release_step r token amount r' P : release r token amount = Ok r' -> fee_step P r r'.
Proof.
  unfold release. intros Hr. apply rbind_Ok in Hr as (u & _ & Hr). apply rbind_Ok in Hr as (n & _ & Hr).
  destruct (n =? 0); injection Hr as <-; [apply delete_step|by apply insert_step].
Qed.

Lemma accumulate_fee_step r token amount r' P :
  accumulate_fee r (AdminFee token) amount = Ok r' -> fee_step P r r'.
Proof.
  unfold accumulate_fee. cbn [bucket_token rbind]. intros Ha. apply rbind_Ok in Ha as (r1 & H1 & H2).
  eapply fee_step_trans; [by eapply (credit_step r (AdminFee token))|by eapply reserve_step].
Qed.

Lemma accumulate_swap_fees_step r token id a b r' :
  accumulate_swap_fees r token id a b = Ok r' -> fee_step (fun i => i = id) r r'.
Proof.
  unfold accumulate_swap_fees. intros Ha.
  apply rbind_Ok in Ha as ([r1 d1] & H1 & Ha). apply rbind_Ok in Ha as ([r2 d2] & H2 & Ha).
  assert (fee_step (fun i => i = id) r r1) as S1.
  { destruct (0 <? a); [|injection H1 as <- <-; apply fee_step_refl].
    apply rbind_Ok in H1 as (rc & Hc & H1). apply rbind_Ok in H1 as (n & _ & H1). injection H1 as <- <-.
    by eapply (credit_step r (AdminFee token)). }
  assert (fee_step (fun i => i = id) r1 r2) as S2.
  { destruct (0 <? b); [|injection H2 as <- <-; apply fee_step_refl].
    apply rbind_Ok in H2 as (rc & Hc & H2). apply rbind_Ok in H2 as (n & _ & H2). injection H2 as <- <-.
    by eapply (credit_step r1 (ReferralFee id token)). }
  eapply fee_step_trans; [exact S1|]. eapply fee_step_trans; [exact S2|]. by eapply reserve_step.
Qed.

Lemma take_fee_bucket_step r key r' amount P :
  take_fee_bucket r key = Ok (r', amount) -> fee_step P r r'.
Proof.
  unfold take_fee_bucket. destruct (0 <? _); [|intros [= <- <-]; apply fee_step_refl].
  intros Ht. apply rbind_Ok in Ht as (token & _ & Ht). apply rbind_Ok in Ht as (r1 & H1 & Ht).
  injection Ht as <- <-. eapply fee_step_trans; [apply delete_step|by eapply release_step].
Qed.

(** ** The vault *)

Definition vault_ok v : Prop := forall t, 0 <= balance_of v t.

Lemma new_ok : vault_ok Vault.new.
Proof. intros t. unfold balance_of, new. cbn. rewrite lookup_empty. done. Qed.

Lemma balance_insert v token x c t :
  balance_of (mkVault (<[token := x]> (balances v)) c) t
  = if decide (token = t) then x else balance_of v t.
Proof.
  unfold balance_of. cbn. destruct (decide (token = t)) as [<-|Hne].
  - by rewrite lookup_insert_eq.
  - by rewrite lookup_insert_ne.
Qed.

Lemma deposit_ok v token amount v' : deposit v token amount = Ok v' ->
  0 <= amount
  /\ forall t, balance_of v' t = balance_of v t + if decide (token = t) then amount else 0.
Proof.
  unfold deposit. intros Hd. destruct (Z.eqb_spec amount 0) as [->|Hne].
  - injection Hd as <-. split; [done|]. intros t. case_decide; lia.
  - apply rbind_Ok in Hd as (u & Hnn & Hd). apply require_Ok, negb_true_iff, Z.ltb_ge in Hnn.
    apply rbind_Ok in Hd as (n & Hn & Hd). apply rbind_Ok in Hd as (c & Hc & Hd). injection Hd as <-.
    apply of_option_Ok, i128_checked_Some in Hn as [-> _].
    split; [done|]. intros t. rewrite balance_insert. case_decide; subst; lia.
Qed.

Lemma withdraw_ok v token amount v' : withdraw v token amount = Ok v' ->
  0 <= amount /\ (amount <> 0 -> amount <= balance_of v token)
  /\ forall t, balance_of v' t = balance_of v t - if decide (token = t) then amount else 0.
Proof.
  unfold withdraw. intros Hd. destruct (Z.eqb_spec amount 0) as [->|Hne].
  - injection Hd as <-. split; [done|]. split; [done|]. intros t. case_decide; lia.
  - apply rbind_Ok in Hd as (u & Hnn & Hd). apply require_Ok, negb_true_iff, Z.ltb_ge in Hnn.
    apply rbind_Ok in Hd as (u' & Hle & Hd). apply require_Ok, negb_true_iff, Z.ltb_ge in Hle.
    injection Hd as <-. split; [done|]. split; [done|].
    intros t. rewrite balance_insert. case_decide; subst; lia.
Qed.

Lemma deposit_keeps v token amount v' : vault_ok v -> deposit v token amount = Ok v' -> vault_ok v'.
Proof.
  intros Hv Hd t. apply deposit_ok in Hd as [Ha Hb]. rewrite Hb. specialize (Hv t). case_decide; lia.
Qed.

Lemma withdraw_keeps v token amount v' : vault_ok v -> withdraw v token amount = Ok v' -> vault_ok v'.
Proof.
  intros Hv Hd t. apply withdraw_ok in Hd as (Ha & Hle & Hb). rewrite Hb. specialize (Hv t).
  case_decide as E; [|lia]. subst. destruct (decide (amount = 0)); lia.
Qed.

(** ** Fees of a swap *)

Lemma fee_amount_ok balance fee_bps fee : 0 <= balance -> 0 <= fee_bps ->
  fee_amount balance fee_bps = Ok fee -> fee = floor_div (balance * fee_bps) BPS /\ 0 <= fee.
Proof.
  intros Hb Hf Hfee. unfold fee_amount in Hfee. apply rbind_Ok in Hfee as (s & Hs & Hfee).
  apply of_option_Ok, i128_checked_Some in Hs as [-> _]. injection Hfee as <-.
  assert (0 <= balance * fee_bps) by nia.
  rewrite Z.quot_div_nonneg by (done || unfold BPS; lia).
  split; [done|]. apply Z.div_pos; [done|]. unfold BPS. lia.
Qed.

(** What a swap pays: the floor of each share, at most a tenth of the balance together. *)
Lemma apply_fees_ok r v token id r' v' : router_ok r -> vault_ok v ->
  apply_fees_on_token r v token id = Ok (r', v') ->
  router_ok r' /\ vault_ok v'
  /\ exists fee, 0 <= fee /\ 10 * fee <= balance_of v token
  /\ (forall t, reserved r' t = reserved r t + if decide (token = t) then fee else 0)
  /\ (forall t, balance_of v' t = balance_of v t - if decide (token = t) then fee else 0).
Proof.
  intros Hr Hv Happ. unfold apply_fees_on_token in Happ.
  assert (router_ok r /\ vault_ok v /\ exists fee, 0 <= fee /\ 10 * fee <= balance_of v token
    /\ (forall t, reserved r t = reserved r t + if decide (token = t) then fee else 0)
    /\ (forall t, balance_of v t = balance_of v t - if decide (token = t) then fee else 0)) as Hsame.
  { split; [done|]. split; [done|]. exists 0. specialize (Hv token).
    split; [lia|]. split; [lia|]. split; intros t; case_decide; lia. }
  destruct (id =? 0); [by injection Happ as <- <-|].
  destruct (try_load_referral r id) as [cfg|] eqn:Hcfg; [|by injection Happ as <- <-].
  destruct (negb (ref_active cfg)); [by injection Happ as <- <-|].
  destruct (Z.leb_spec (balance_of v token) 0) as [Hle|Hpos]; [by injection Happ as <- <-|].
  apply rbind_Ok in Happ as (u1 & _ & Happ).
  destruct (static_fee_bps r + ref_fee_bps cfg =? 0); [by injection Happ as <- <-|].
  apply rbind_Ok in Happ as (u2 & Hcap & Happ). apply require_Ok, negb_true_iff, Z.ltb_ge in Hcap.
  apply rbind_Ok in Happ as (sf & Hsf & Happ). apply rbind_Ok in Happ as (rf & Hrf & Happ).
  apply rbind_Ok in Happ as (total & Ht & Happ). apply of_option_Ok, i128_checked_Some in Ht as [-> _].
  destruct (sf + rf <=? 0); [by injection Happ as <- <-|]. clear Hsame.
  apply rbind_Ok in Happ as (v1 & Hw & Happ). apply rbind_Ok in Happ as (r1 & Hacc & Happ).
  injection Happ as <- <-.
  pose proof (ro_static r Hr) as Hst. pose proof (ro_referrals r Hr id cfg Hcfg) as [_ Hrb].
  apply fee_amount_ok in Hsf as [Es Hs]; [|lia..]. apply fee_amount_ok in Hrf as [Er Hrf]; [|lia..].
  destruct (accumulate_swap_fees_ok _ _ _ _ _ _ (ro_buckets r Hr) Hs Hrf Hacc) as [Hb Hres].
  split.
  { eapply fee_step_router; [exact Hr|by eapply accumulate_swap_fees_step|done|].
    intros i ->. by exists cfg. }
  split; [by eapply withdraw_keeps|].
  exists (sf + rf). split; [lia|]. split.
  - pose proof (floor_div_bounds (balance_of v token * static_fee_bps r) BPS ltac:(unfold BPS; lia)).
    pose proof (floor_div_bounds (balance_of v token * ref_fee_bps cfg) BPS ltac:(unfold BPS; lia)).
    rewrite <- Es, <- Er in *. unfold BPS, FEE_CAP in *. nia.
  - split; [exact Hres|]. by apply withdraw_ok in Hw as (_ & _ & Hw).
Qed.

(** ** Residuals *)

(** Whatever is left moves from the vault to the admin buckets. *)
Lemma residual_ok r v r' v' : router_ok r -> vault_ok v ->
  accrue_residual_as_revenue r v = Ok (r', v') ->
  router_ok r' /\ vault_ok v'
  /\ (forall t, reserved r' t + balance_of v' t = reserved r t + balance_of v t).
Proof.
  unfold accrue_residual_as_revenue. intros Hr Hv Hacc.
  set (P := fun st : Router * Vault => router_ok st.1 /\ vault_ok st.2
    /\ forall t, reserved st.1 t + balance_of st.2 t = reserved r t + balance_of v t).
  change (P (r', v')). revert Hacc. apply rfold_inv; [|by split].
  clear Hr Hv. intros [r1 v1] token [r2 v2] _ (Hr & Hv & Hs) Hstep. cbn in Hr, Hv, Hs.
  destruct (Z.leb_spec (balance_of v1 token) 0) as [Hle|Hpos].
  { injection Hstep as <- <-. by split. }
  apply rbind_Ok in Hstep as (u & _ & Hstep). apply rbind_Ok in Hstep as (v3 & Hw & Hstep).
  apply rbind_Ok in Hstep as (r3 & Ha & Hstep). injection Hstep as <- <-.
  destruct (accumulate_fee_ok _ (AdminFee token) _ _ _ (ro_buckets r1 Hr) eq_refl Hpos Ha) as [Hb Hres].
  split; cbn; [|split].
  - eapply (fee_step_router r1 r3 (fun _ => False)); [done| |done|done].
    by eapply accumulate_fee_step.
  - by eapply withdraw_keeps.
  - intros t. apply withdraw_ok in Hw as (_ & _ & Hw). rewrite Hres, Hw, <- Hs. case_decide; lia.
Qed.

End Inv.

End RouterInv.
