(* ===== verification/SwapBacking.v ===== *)
(** * Swap aggregator: reserved fees stay backed

    [FeeToken] states what is relied on of one token: the documented behaviour of SEP-41
    balances and allowances under the host's authorisation rule.  Nothing is assumed of any
    other token or of any pool.  For such a token the router's balance covers what it owes:
    the reserved fees at rest, and the vault of the running strategy on top of them. *)

From S2P Require Import Prelude Errors FpCore Fp PoolTypes PoolCache SwapProgram SwapStore SwapRouter SwapSteps.
From stdpp Require Import base numbers list gmap strings.
From Stdlib Require Import ZArith Lia Bool.

Open Scope Z_scope.

(** The token functions that lower the balance of the address that authorises them, and the
    one-coin burn of a pool that is its own share token. *)
Definition debit_function (fn : string) : bool :=
  bool_decide (fn ∈ ["transfer"; "transfer_from"; "burn"; "burn_from";
                     "remove_liquidity_one_coin"]%string).

Fixpoint entry_debits (t : Address) (e : AuthEntry) : bool :=
  match e with
  | mkAuthEntry c fn _ subs =>
      (bool_decide (c = t) && debit_function fn) || existsb (entry_debits t) subs
  end.

(** Whether a call made by the router may lower its own balance of [t] by authorisation. *)
Definition call_debits (t : Address) (auth : list AuthEntry) (callee : Address) (fn : string) : bool :=
  (bool_decide (callee = t) && debit_function fn) || existsb (entry_debits t) auth.

(** How the rest of the ledger starts, and how it moves between two calls of the router. *)
Class SwapLedger (W : Type) : Type := {
  genesis : W -> Prop;
  others_act : W -> W -> Prop
}.

Class FeeToken (W : Type) `{SwapHost W, SwapLedger W} (router t : Address) : Type := {
  bal : W -> Address -> Z;
  (** what a spender may still pull from the router *)
  allow : W -> Address -> Z;
  bal_at_genesis : forall w, genesis w -> 0 <= bal w router /\ forall s, allow w s = 0;
  others_cannot_debit : forall w w', others_act w w' -> (forall s, allow w s = 0) ->
    bal w router <= bal w' router /\ forall s, allow w' s = 0;
  balance_is_read : forall w h w' z, token_balance w t h = Ok (w', z) ->
    z = bal w h /\ (forall a, bal w' a = bal w a) /\ (forall s, allow w' s = allow w s);
  other_balance_reads : forall w t' h w' z, t' <> t -> token_balance w t' h = Ok (w', z) ->
    (forall s, allow w s = 0) -> bal w router <= bal w' router /\ forall s, allow w' s = 0;
  transfer_pays : forall w to z w', token_transfer w t router to z = Ok w' ->
    (to <> router -> bal w' router = bal w router - z /\ bal w' to = bal w to + z)
    /\ (to = router -> bal w' router = bal w router)
    /\ 0 <= z /\ (forall s, allow w' s = allow w s);
  transfer_receives : forall w from z w', from <> router -> token_transfer w t from router z = Ok w' ->
    bal w router <= bal w' router /\ (forall s, allow w' s = allow w s);
  other_transfers : forall w t' from to z w', t' <> t -> token_transfer w t' from to z = Ok w' ->
    (forall s, allow w s = 0) -> bal w router <= bal w' router /\ forall s, allow w' s = 0;
  approve_sets : forall auth w spender z expiration w',
    token_approve auth w t router spender z expiration = Ok w' ->
    (forall a, bal w' a = bal w a)
    /\ allow w' spender = z /\ (forall s, s <> spender -> allow w' s = allow w s);
  other_approvals : forall auth w t' owner spender z expiration w', t' <> t ->
    token_approve auth w t' owner spender z expiration = Ok w' ->
    existsb (entry_debits t) auth = false ->
    (forall s, allow w s = 0) -> bal w router <= bal w' router /\ forall s, allow w' s = 0;
  allowance_falls : forall auth w c fn args w' v, invoke_contract auth w c fn args = Ok (w', v) ->
    forall s, 0 <= allow w s -> 0 <= allow w' s <= allow w s;
  debit_needs_authorisation : forall auth w c fn args w' v,
    invoke_contract auth w c fn args = Ok (w', v) -> call_debits t auth c fn = false ->
    (forall s, allow w s = 0) -> bal w router <= bal w' router
}.

Module Backing.

Import RouterError RouterMath RouterStore Vault Fees Program Hop Execute Buckets RouterInv VenueAuth.

Section Backing.

Context {W : Type} `{HH : SwapHost W, HL : SwapLedger W} (router t : Address).
Context `{HT : !FeeToken W router t}.

Implicit Types (w : W) (v : Vault).

Definition no_allowance w : Prop := forall s, allow w s = 0.

(** The router lost none of [t] and no pull is outstanding. *)
Definition kept w w' : Prop := bal w router <= bal w' router /\ no_allowance w'.

Lemma kept_trans w1 w2 w3 : kept w1 w2 -> kept w2 w3 -> kept w1 w3.
Proof. intros [H1 _] [H2 H3]. split; [lia|done]. Qed.

(** ** Single calls *)

Lemma read_kept w t' h w' z : no_allowance w -> token_balance w t' h = Ok (w', z) ->
  kept w w' /\ (t' = t -> z = bal w h /\ forall a, bal w' a = bal w a).
Proof.
  intros Hn Hb. destruct (decide (t' = t)) as [->|Hne].
  - apply balance_is_read in Hb as (Hz & Hbal & Hal). split; [|auto].
    split; [by rewrite Hbal|]. intros s. by rewrite Hal.
  - split; [|done]. by eapply other_balance_reads.
Qed.

Lemma invoke_allowance auth w c fn args w' x : no_allowance w ->
  invoke_contract auth w c fn args = Ok (w', x) -> no_allowance w'.
Proof.
  intros Hn Hi s. pose proof (allowance_falls _ _ _ _ _ _ _ Hi s). rewrite (Hn s) in *. lia.
Qed.

Lemma invoke_kept auth w c fn args w' x : no_allowance w -> call_debits t auth c fn = false ->
  invoke_contract auth w c fn args = Ok (w', x) -> kept w w'.
Proof.
  intros Hn Hd Hi. split; [|by eapply invoke_allowance]. by eapply debit_needs_authorisation.
Qed.

(** A call with nothing authorised, of a function that is not a debit. *)
Lemma query_kept w c fn args w' x : no_allowance w -> debit_function fn = false ->
  invoke_contract [] w c fn args = Ok (w', x) -> kept w w'.
Proof.
  intros Hn Hf. apply invoke_kept; [done|]. unfold call_debits. rewrite Hf, andb_false_r. done.
Qed.

(** ** Venue adapters *)

Definition cache_ok (cache : TokensCache) : Prop :=
  forall pool ts, cache !! pool = Some ts -> NoDup ts.

Lemma pool_tokens_ok w cache pool fetch w' cache' ts :
  no_allowance w -> cache_ok cache ->
  (forall w w' l, no_allowance w -> fetch w pool = Ok (w', l) -> kept w w') ->
  pool_tokens w cache pool fetch = Ok (w', cache', ts) ->
  no_allowance w' /\ bal w router <= bal w' router /\ cache_ok cache' /\ NoDup ts.
Proof.
  intros Hn Hc Hf Hp. unfold pool_tokens in Hp. destruct (cache !! pool) as [l|] eqn:Hl.
  { injection Hp as <- <- <-. split_and!; try done; try lia; by eapply Hc. }
  apply rbind_Ok in Hp as ([w1 vals] & H1 & Hp). apply rbind_Ok in Hp as (u & _ & Hp).
  apply rbind_Ok in Hp as (l & Hfold & Hp). injection Hp as <- <- <-.
  apply (Hf _ _ _ Hn) in H1 as [Hb Hn1].
  assert (NoDup l) as Hnd.
  { revert Hfold. apply rfold_inv; [|constructor].
    intros seen x seen' _ Hs Hstep. apply rbind_Ok in Hstep as (tok & _ & Hstep).
    apply rbind_Ok in Hstep as (u' & Hnew & Hstep). injection Hstep as <-.
    apply require_Ok, negb_true_iff, orb_false_iff in Hnew as [_ Hnew].
    apply bool_decide_eq_false in Hnew. apply NoDup_app. split; [done|]. split.
    - intros y Hy ->%list_elem_of_singleton. done.
    - apply NoDup_singleton. }
  split_and!; try done. intros q ts. rewrite lookup_insert_Some. intros [[_ <-]|[_ Hq]]; eauto.
Qed.

Lemma transfer_entry token from to amount :
  existsb (entry_debits t) (authorize_token_transfer token from to amount) = bool_decide (token = t).
Proof.
  cbn. rewrite !orb_false_r. change (debit_function "transfer") with true. apply andb_true_r.
Qed.

Lemma pull_kept ctx w c fn args w' x : no_allowance w -> debit_function fn = false ->
  invoke_contract (authorize_pool_pull ctx) w c fn args = Ok (w', x) ->
  no_allowance w' /\ (hop_token_in (hc_hop ctx) <> t -> bal w router <= bal w' router).
Proof.
  intros Hn Hf Hi. split; [by eapply invoke_allowance|]. intros Hne.
  eapply (invoke_kept _ _ _ _ _ _ _ Hn); [|exact Hi].
  unfold call_debits, authorize_pool_pull. rewrite Hf, transfer_entry, andb_false_r.
  by rewrite bool_decide_eq_false_2.
Qed.

(** Each adapter: allowances end at zero, and only the input token may fall. *)
Definition hop_effect (ctx : HopContext) w w' : Prop :=
  no_allowance w' /\ (hop_token_in (hc_hop ctx) <> t -> bal w router <= bal w' router).

Lemma kept_effect ctx w1 w2 w3 : kept w1 w2 -> hop_effect ctx w2 w3 -> hop_effect ctx w1 w3.
Proof. intros [H1 _] [H2 H3]. split; [done|]. intros Hne. specialize (H3 Hne). lia. Qed.

Lemma effect_kept ctx w1 w2 w3 : hop_effect ctx w1 w2 -> kept w2 w3 -> hop_effect ctx w1 w3.
Proof. intros [H1 H2] [H3 H4]. split; [done|]. intros Hne. specialize (H2 Hne). lia. Qed.

Lemma soroswap_effect ctx w w' : hc_router ctx = router -> no_allowance w ->
  SoroswapVenue.swap w ctx = Ok w' -> hop_effect ctx w w'.
Proof.
  intros Hr Hn Hs. unfold SoroswapVenue.swap in Hs. rewrite Hr in Hs.
  apply rbind_Ok in Hs as ([w1 x] & H1 & Hs). apply (query_kept _ _ "get_reserves" _ _ _ Hn eq_refl) in H1.
  apply rbind_Ok in Hs as ([r0 r1] & _ & Hs).
  destruct (_ <? _)%N; apply rbind_Ok in Hs as (req & _ & Hs);
    apply rbind_Ok in Hs as (u & _ & Hs); apply rbind_Ok in Hs as (w2 & H2 & Hs);
    apply rbind_Ok in Hs as ([w3 y] & H3 & Hs); apply rbind_Ok in Hs as (u' & _ & Hs);
    injection Hs as <-; (eapply kept_effect; [exact H1|]); destruct H1 as [_ Hn1].
  all: assert (hop_effect ctx w1 w2) as [Hn2 Hb2]; [
    destruct (decide (hop_token_in (hc_hop ctx) = t)) as [Heq|Hne];
    [ rewrite Heq in H2; apply transfer_pays in H2 as (_ & _ & _ & Hal);
      split; [intros s; by rewrite Hal|done]
    | destruct (other_transfers _ _ _ _ _ _ Hne H2 Hn1) as [Hb2 Hn2]; by split ]
  | eapply effect_kept; [by split|]; by eapply (query_kept _ _ "swap") ].
Qed.

Lemma phoenix_effect ctx w w' : no_allowance w -> PhoenixVenue.swap w ctx = Ok w' -> hop_effect ctx w w'.
Proof.
  intros Hn Hs. unfold PhoenixVenue.swap in Hs. apply rbind_Ok in Hs as ([w1 x] & H1 & Hs).
  apply rbind_Ok in Hs as (u & _ & Hs). injection Hs as <-. by eapply (pull_kept ctx _ _ "swap").
Qed.

Lemma sushi_effect ctx w w' : no_allowance w -> SushiVenue.swap w ctx = Ok w' -> hop_effect ctx w w'.
Proof.
  intros Hn Hs. unfold SushiVenue.swap in Hs.
  apply rbind_Ok in Hs as ([w1 x1] & H1 & Hs). apply (query_kept _ _ "token0" _ _ _ Hn eq_refl) in H1.
  apply rbind_Ok in Hs as (t0 & _ & Hs). apply rbind_Ok in Hs as ([w2 x2] & H2 & Hs).
  apply (query_kept _ _ "token1" _ _ _ (proj2 H1) eq_refl) in H2.
  apply rbind_Ok in Hs as (t1 & _ & Hs). apply rbind_Ok in Hs as (dir & _ & Hs).
  apply rbind_Ok in Hs as ([w3 x3] & H3 & Hs). apply (query_kept _ _ "get_oracle_hints" _ _ _ (proj2 H2) eq_refl) in H3.
  apply rbind_Ok in Hs as ([w4 x4] & H4 & Hs). injection Hs as <-.
  eapply kept_effect; [eapply kept_trans; [exact H1|eapply kept_trans; [exact H2|exact H3]]|].
  by eapply (pull_kept ctx _ _ "swap"); [apply H3|..].
Qed.

Lemma comet_effect ctx w w' : hc_router ctx = router -> no_allowance w ->
  CometVenue.swap w ctx = Ok w' -> hop_effect ctx w w'.
Proof.
  intros Hr Hn Hs. unfold CometVenue.swap, CometVenue.clear_comet_approval in Hs. rewrite Hr in Hs.
  apply rbind_Ok in Hs as (exp & _ & Hs). apply rbind_Ok in Hs as (w1 & H1 & Hs).
  apply rbind_Ok in Hs as ([w2 x] & H2 & Hs). apply rbind_Ok in Hs as (u & _ & Hs).
  destruct (decide (hop_token_in (hc_hop ctx) = t)) as [Heq|Hne].
  - split; [|done]. rewrite Heq in *. apply approve_sets in H1 as (_ & Hp & Ho).
    apply approve_sets in Hs as (_ & Hp' & Ho'). intros s.
    destruct (decide (s = hop_pool (hc_hop ctx))) as [->|Hns]; [done|].
    rewrite Ho' by done. pose proof (allowance_falls _ _ _ _ _ _ _ H2 s) as Hfall.
    rewrite (Ho s Hns), (Hn s) in Hfall. lia.
  - assert (forall a b sp z e, existsb (entry_debits t) (authorize_token_approve a b sp z e) = false) as Hap.
    { intros. cbn. change (debit_function "approve") with false. by rewrite andb_false_r. }
    assert (kept w w1) as Hk1 by (eapply other_approvals; eauto).
    assert (kept w1 w2) as Hk2.
    { eapply (invoke_kept _ _ _ _ _ _ _ (proj2 Hk1)); [|exact H2].
      unfold call_debits, CometVenue.authorize_comet_swap. cbn [existsb entry_debits auth_entry].
      change (debit_function "swap_exact_amount_in") with false.
      rewrite !andb_false_r, (bool_decide_eq_false_2 _ Hne). done. }
    assert (kept w2 w') as Hk3 by (eapply other_approvals; [exact Hne|exact Hs|apply Hap|apply Hk2]).
    destruct (kept_trans _ _ _ (kept_trans _ _ _ Hk1 Hk2) Hk3) as [Hb Hn3]. by split.
Qed.

Lemma coins_kept pool w w' l : no_allowance w -> CurveVenue.coins w pool = Ok (w', l) -> kept w w'.
Proof.
  intros Hn Hc. unfold CurveVenue.coins in Hc. apply rbind_Ok in Hc as ([w1 x] & H1 & Hc).
  apply rbind_Ok in Hc as (fields & _ & Hc). apply rbind_Ok in Hc as (c & _ & Hc).
  destruct c; try discriminate Hc. injection Hc as <- <-. by eapply (query_kept _ _ "pool_info").
Qed.

Lemma get_tokens_kept pool w w' l : no_allowance w -> AquariusVenue.get_tokens w pool = Ok (w', l) ->
  kept w w'.
Proof.
  intros Hn Hc. unfold AquariusVenue.get_tokens in Hc. apply rbind_Ok in Hc as ([w1 x] & H1 & Hc).
  apply rbind_Ok in Hc as (ts & _ & Hc). injection Hc as <- <-. by eapply (query_kept _ _ "get_tokens").
Qed.

Lemma curve_effect ctx cache w w' cache' : no_allowance w -> cache_ok cache ->
  CurveVenue.swap w ctx cache = Ok (w', cache') -> hop_effect ctx w w' /\ cache_ok cache'.
Proof.
  intros Hn Hc Hs. unfold CurveVenue.swap in Hs. apply rbind_Ok in Hs as ([[w1 c1] ts] & H1 & Hs).
  apply (pool_tokens_ok _ _ _ _ _ _ _ Hn Hc (coins_kept _)) in H1 as (Hn1 & Hb1 & Hc1 & _).
  apply rbind_Ok in Hs as ([[auth fn] args] & Hsel & Hs). apply rbind_Ok in Hs as ([w2 x] & H2 & Hs).
  apply rbind_Ok in Hs as (u & _ & Hs). injection Hs as <- <-. split; [|done].
  eapply kept_effect; [by split|].
  destruct (bool_decide (hop_token_in (hc_hop ctx) = hop_pool (hc_hop ctx))) eqn:Hlp.
  - apply rbind_Ok in Hsel as (j & _ & Hsel). injection Hsel as <- <- <-.
    apply bool_decide_eq_true in Hlp. split; [by eapply invoke_allowance|]. intros Hne.
    eapply (invoke_kept _ _ _ _ _ _ _ Hn1); [|exact H2].
    unfold call_debits. rewrite <- Hlp, bool_decide_eq_false_2 by done. done.
  - apply rbind_Ok in Hsel as (i & _ & Hsel).
    destruct (bool_decide (hop_token_out (hc_hop ctx) = _)).
    + injection Hsel as <- <- <-. by eapply (pull_kept ctx _ _ "add_liquidity").
    + apply rbind_Ok in Hsel as (j & _ & Hsel). injection Hsel as <- <- <-.
      by eapply (pull_kept ctx _ _ "exchange").
Qed.

Lemma aquarius_effect ctx cache w w' cache' : no_allowance w -> cache_ok cache ->
  AquariusVenue.swap w ctx cache = Ok (w', cache') -> hop_effect ctx w w' /\ cache_ok cache'.
Proof.
  intros Hn Hc Hs. unfold AquariusVenue.swap in Hs. apply rbind_Ok in Hs as ([[w1 c1] ts] & H1 & Hs).
  apply (pool_tokens_ok _ _ _ _ _ _ _ Hn Hc (get_tokens_kept _)) in H1 as (Hn1 & Hb1 & Hc1 & _).
  apply rbind_Ok in Hs as (i & _ & Hs). apply rbind_Ok in Hs as (j & _ & Hs).
  apply rbind_Ok in Hs as (w2 & H2 & Hs). injection Hs as <- <-. split; [|done].
  eapply kept_effect; [by split|]. unfold AquariusVenue.invoke_pool_swap in H2.
  apply rbind_Ok in H2 as (a & _ & H2). apply rbind_Ok in H2 as ([w3 x] & H3 & H2).
  apply rbind_Ok in H2 as (u & _ & H2). injection H2 as <-. by eapply (pull_kept ctx _ _ "swap").
Qed.

Lemma venue_effect ctx cache w w' cache' : hc_router ctx = router -> no_allowance w -> cache_ok cache ->
  venue_swap w ctx cache = Ok (w', cache') -> hop_effect ctx w w' /\ cache_ok cache'.
Proof.
  intros Hr Hn Hc Hs. unfold venue_swap in Hs. destruct (hop_venue (hc_hop ctx)).
  - apply rbind_Ok in Hs as (w1 & H1 & Hs). injection Hs as <- <-. split; [by apply soroswap_effect|done].
  - by eapply aquarius_effect.
  - apply rbind_Ok in Hs as (w1 & H1 & Hs). injection Hs as <- <-. split; [by apply phoenix_effect|done].
  - apply rbind_Ok in Hs as (w1 & H1 & Hs). injection Hs as <- <-. split; [by apply sushi_effect|done].
  - apply rbind_Ok in Hs as (w1 & H1 & Hs). injection Hs as <- <-. split; [by apply comet_effect|done].
  - by eapply curve_effect.
Qed.

(** ** A hop *)

Lemma dispatch_hop_ok w hop amount cache w' cache' received :
  no_allowance w -> cache_ok cache ->
  dispatch_hop w router hop amount cache = Ok (w', cache', received) ->
  no_allowance w' /\ cache_ok cache' /\ 0 < received
  /\ bal w router + (if decide (hop_token_out hop = t) then received else 0)
     <= bal w' router + (if decide (hop_token_in hop = t) then amount else 0).
Proof.
  intros Hn Hc Hd. unfold dispatch_hop in Hd. apply rbind_Ok in Hd as (ctx & Hctx & Hd).
  assert (hc_router ctx = router /\ hc_hop ctx = hop /\ hop_token_in hop <> hop_token_out hop)
    as (Hr & Hh & Hdiff).
  { unfold HopContext_new in Hctx. apply rbind_Ok in Hctx as (u1 & _ & Hctx).
    apply rbind_Ok in Hctx as (u2 & Hne & Hctx). injection Hctx as <-.
    apply require_Ok, negb_true_iff, bool_decide_eq_false in Hne. done. }
  unfold input_balance, output_balance in Hd. rewrite Hr, Hh in Hd.
  apply rbind_Ok in Hd as ([w1 bi] & H1 & Hd). apply rbind_Ok in Hd as ([w2 bo] & H2 & Hd).
  apply rbind_Ok in Hd as ([w3 c3] & H3 & Hd). apply rbind_Ok in Hd as ([w4 ao] & H4 & Hd).
  apply rbind_Ok in Hd as (rec & Hrec & Hd). apply rbind_Ok in Hd as (u1 & Hpos & Hd).
  apply rbind_Ok in Hd as ([w5 ai] & H5 & Hd). apply rbind_Ok in Hd as (spent & Hsp & Hd).
  apply rbind_Ok in Hd as (u2 & Heq & Hd). injection Hd as <- <- <-.
  apply of_option_Ok, i128_checked_Some in Hrec as [-> _]. apply of_option_Ok, i128_checked_Some in Hsp as [-> _].
  apply require_Ok, negb_true_iff, Z.leb_gt in Hpos. apply require_Ok, Z.eqb_eq in Heq.
  apply (read_kept _ _ _ _ _ Hn) in H1 as ([Hk1 Hn1] & Hi1).
  apply (read_kept _ _ _ _ _ Hn1) in H2 as ([Hk2 Hn2] & Ho2).
  apply (venue_effect _ _ _ _ _ Hr Hn2 Hc) in H3 as ([Hn3 Hk3] & Hc3). rewrite Hh in Hk3.
  apply (read_kept _ _ _ _ _ Hn3) in H4 as ([Hk4 Hn4] & Ho4).
  apply (read_kept _ _ _ _ _ Hn4) in H5 as ([Hk5 Hn5] & Hi5).
  split_and!; try done.
  destruct (decide (hop_token_in hop = t)) as [Ein|Nin].
  - rewrite decide_False by congruence. destruct (Hi1 Ein) as [-> _]. destruct (Hi5 Ein) as [-> Hb].
    specialize (Hb router). lia.
  - specialize (Hk3 Nin). destruct (decide (hop_token_out hop = t)) as [Eo|No]; [|lia].
    destruct (Ho2 Eo) as [-> _]. destruct (Ho4 Eo) as [-> Hb]. specialize (Hb router). lia.
Qed.

(** ** Burning and minting shares *)

(** The loops run over the constituents with their positions. *)
Lemma indexed_lookup {A} (l : list A) i x : l !! i = Some x <-> (i, x) ∈ indexed l.
Proof.
  unfold indexed. assert (forall k, l !! i = Some x <-> ((k + i)%nat, x) ∈ combine (seq k (length l)) l)
    as Hgen; [|apply (Hgen 0%nat)].
  revert i. induction l as [|y l IH]; intros i k; cbn.
  - split; [done|]. by intros ?%elem_of_nil.
  - rewrite elem_of_cons. destruct i as [|i]; cbn.
    + rewrite Nat.add_0_r. split; [intros [= ->]; by left|]. intros [[= ->]|Hin]; [done|].
      apply list_elem_of_In, in_combine_l, in_seq in Hin. lia.
    + rewrite (IH i (S k)), Nat.add_succ_comm. split; [by right|]. intros [[=]|Hin]; [lia|done].
Qed.

Lemma indexed_snd {A} (l : list A) : (indexed l).*2 = l.
Proof.
  unfold indexed. generalize 0%nat. induction l as [|x l IH]; intros k; cbn; [done|]. by rewrite IH.
Qed.

Lemma burn_prepare_ok amounts start l w mins before w' mins' before' :
  no_allowance w ->
  rfold (AquariusVenue.burn_prepare router amounts start) (w, mins, before) l = Ok (w', mins', before') ->
  kept w w' /\ exists bs, before' = before ++ bs /\ length bs = length l
  /\ forall j it, l !! j = Some it -> it.2 = t -> exists old, bs !! j = Some old /\ bal w router <= old.
Proof.
  revert w mins before. induction l as [|it l IH]; intros w mins before Hn Hf; cbn in Hf.
  - injection Hf as <- <- <-. split; [by split|]. exists []. rewrite app_nil_r. done.
  - apply rbind_Ok in Hf as ([[w1 m1] b1] & H1 & Hf). unfold AquariusVenue.burn_prepare in H1.
    apply rbind_Ok in H1 as (fl & _ & H1). apply rbind_Ok in H1 as (fl' & _ & H1).
    apply rbind_Ok in H1 as ([w2 b] & Hb & H1). injection H1 as <- <- <-.
    apply (read_kept _ _ _ _ _ Hn) in Hb as (Hk1 & Hr1).
    apply IH in Hf as (Hk2 & bs & -> & Hlen & Hold); [|apply Hk1].
    split; [by eapply kept_trans|]. exists (b :: bs). rewrite <- app_assoc. split; [done|].
    split; [cbn; lia|]. intros [|j] it' Hj Ht; cbn in *.
    + injection Hj as ->. exists b. split; [done|]. destruct (Hr1 Ht) as [-> _]. lia.
    + destruct (Hold j it' Hj Ht) as (old & Ho & Hle). exists old. split; [done|].
      destruct Hk1. lia.
Qed.

(** Credits of a burn: [t] is untouched when it is no constituent, and otherwise its credit is
    covered by the balance it had before. *)
Lemma burn_credit_ok amounts start before l w v total w' v' total' :
  no_allowance w -> vault_ok v -> NoDup l.*2 ->
  rfold (AquariusVenue.burn_credit router amounts start before) (w, v, total) l = Ok (w', v', total') ->
  kept w w' /\ vault_ok v' /\
  ((~ (t ∈ l.*2) /\ balance_of v' t = balance_of v t)
   \/ exists i old, (i, t) ∈ l /\ before !! i = Some old
      /\ old + balance_of v' t <= bal w' router + balance_of v t).
Proof.
  revert w v total. induction l as [|[i tok] l IH]; intros w v total Hn Hv Hd Hf; cbn in Hf.
  - injection Hf as <- <- <-. split; [by split|]. split; [done|]. left. split; [apply not_elem_of_nil|done].
  - apply rbind_Ok in Hf as ([[w1 v1] tot1] & H1 & Hf). cbn in Hd. apply NoDup_cons in Hd as [Hni Hd].
    unfold AquariusVenue.burn_credit in H1. cbn [fst snd] in H1.
    apply rbind_Ok in H1 as ([w2 b] & Hb & H1). apply rbind_Ok in H1 as (old & Ho & H1).
    apply rbind_Ok in H1 as (rec & Hrec & H1). apply rbind_Ok in H1 as (fl & _ & H1).
    apply rbind_Ok in H1 as (u & _ & H1). apply rbind_Ok in H1 as (tt' & _ & H1).
    apply rbind_Ok in H1 as (v2 & Hdep & H1). injection H1 as <- <- <-.
    apply of_option_Ok in Ho. apply of_option_Ok, i128_checked_Some in Hrec as [-> _].
    apply (read_kept _ _ _ _ _ Hn) in Hb as (Hk1 & Hr1).
    pose proof (deposit_keeps _ _ _ _ Hv Hdep) as Hv2. apply deposit_ok in Hdep as [_ Hdep].
    apply IH in Hf as (Hk2 & Hv' & Hcase); [|apply Hk1|done|done].
    split; [by eapply kept_trans|]. split; [done|].
    destruct (decide (tok = t)) as [->|Hne].
    + right. exists i, old. split; [apply list_elem_of_here|]. split; [done|].
      destruct Hcase as [[_ Hsame]|(i' & old' & Hin & _)].
      * rewrite Hsame, Hdep, decide_True by done. destruct (Hr1 eq_refl) as [-> Hb].
        specialize (Hb router). destruct Hk2. lia.
      * exfalso. apply Hni, list_elem_of_fmap. by exists (i', t).
    + rewrite Hdep, decide_False, Z.add_0_r in Hcase by done.
      destruct Hcase as [[Hnin Hsame]|(i' & old' & Hin & Hrest)].
      * left. split; [|done]. rewrite fmap_cons, not_elem_of_cons. by split.
      * right. exists i', old'. split; [by apply list_elem_of_further|done].
Qed.

Lemma share_token_kept w pool lp w' : no_allowance w ->
  AquariusVenue.assert_share_token w pool lp = Ok w' -> kept w w'.
Proof.
  intros Hn Ha. unfold AquariusVenue.assert_share_token in Ha. apply rbind_Ok in Ha as ([w1 x] & H1 & Ha).
  apply rbind_Ok in Ha as (s & _ & Ha). apply rbind_Ok in Ha as (u & _ & Ha). injection Ha as <-.
  by eapply (query_kept _ _ "share_id").
Qed.

(** What an instruction keeps: the balance not spoken for by the vault. *)
Definition op_keeps w v w' v' : Prop :=
  no_allowance w' /\ vault_ok v'
  /\ bal w router - balance_of v t <= bal w' router - balance_of v' t.

Lemma remove_liquidity_ok w v pool lp amounts start cache w' v' cache' :
  no_allowance w -> vault_ok v -> cache_ok cache ->
  AquariusVenue.remove_liquidity w router v pool lp amounts start cache = Ok (w', v', cache') ->
  op_keeps w v w' v' /\ cache_ok cache'.
Proof.
  intros Hn Hv Hc Hrem. unfold AquariusVenue.remove_liquidity in Hrem.
  apply rbind_Ok in Hrem as ([[w1 c1] ts] & H1 & Hrem).
  apply (pool_tokens_ok _ _ _ _ _ _ _ Hn Hc (get_tokens_kept _)) in H1 as (Hn1 & Hb1 & Hc1 & Hnd).
  apply rbind_Ok in Hrem as (w2 & H2 & Hrem). apply (share_token_kept _ _ _ _ Hn1) in H2 as [Hb2 Hn2].
  apply rbind_Ok in Hrem as (u1 & _ & Hrem). apply rbind_Ok in Hrem as (u2 & _ & Hrem).
  apply rbind_Ok in Hrem as ([[w3 mins] before] & H3 & Hrem).
  apply (burn_prepare_ok _ _ _ _ _ _ _ _ _ Hn2) in H3 as ([Hb3 Hn3] & bs & Hbs & _ & Hold).
  cbn in Hbs. subst before.
  apply rbind_Ok in Hrem as ([w4 sb] & H4 & Hrem). apply (read_kept _ _ _ _ _ Hn3) in H4 as ([Hb4 Hn4] & Hsb).
  apply rbind_Ok in Hrem as (su & _ & Hrem). apply rbind_Ok in Hrem as ([w5 x] & H5 & Hrem).
  pose proof (invoke_allowance _ _ _ _ _ _ _ Hn4 H5) as Hn5.
  apply rbind_Ok in Hrem as (u3 & _ & Hrem). apply rbind_Ok in Hrem as ([w6 sa] & H6 & Hrem).
  apply (read_kept _ _ _ _ _ Hn5) in H6 as ([Hb6 Hn6] & Hsa).
  apply rbind_Ok in Hrem as (burned & Hbu & Hrem). apply of_option_Ok, i128_checked_Some in Hbu as [-> _].
  apply rbind_Ok in Hrem as (u4 & Heq & Hrem). apply require_Ok, Z.eqb_eq in Heq.
  apply rbind_Ok in Hrem as (v1 & Hw & Hrem). pose proof (withdraw_keeps _ _ _ _ Hv Hw) as Hv1.
  apply withdraw_ok in Hw as (Hs0 & _ & Hw).
  apply rbind_Ok in Hrem as ([[w7 v2] tot] & H7 & Hrem). apply rbind_Ok in Hrem as (u5 & _ & Hrem).
  injection Hrem as <- <- <-.
  apply burn_credit_ok in H7 as ([Hb7 Hn7] & Hv2 & Hcase); [|done|done|by rewrite indexed_snd].
  split; [|done]. split; [done|]. split; [done|]. rewrite Hw in Hcase.
  destruct Hcase as [[Hnin Hsame]|(i & old & Hin & Ho & Hle)].
  - rewrite Hsame. destruct (decide (lp = t)) as [Elp|Nlp].
    + destruct (Hsb Elp) as [Esb _]. destruct (Hsa Elp) as [Esa Hsb']. specialize (Hsb' router). lia.
    + assert (bal w4 router <= bal w5 router); [|lia].
      eapply debit_needs_authorisation; [exact H5| |exact Hn4].
      unfold call_debits. change (debit_function "withdraw") with false. rewrite andb_false_r. cbn.
      by rewrite (bool_decide_eq_false_2 _ Nlp).
  - apply list_elem_of_lookup in Hin as (j & Hj).
    destruct (Hold j (i, t) Hj eq_refl) as (old' & Hj' & Hle').
    assert (j = i) as ->.
    { assert ((i, t) ∈ indexed ts) as Hi by (by eapply list_elem_of_lookup_2).
      apply indexed_lookup in Hi.
      assert (ts !! j = Some t) as Hjt.
      { rewrite <- (indexed_snd ts), list_lookup_fmap, Hj. done. }
      eapply NoDup_lookup; eauto. }
    rewrite Ho in Hj'. injection Hj' as <-. case_decide; lia.
Qed.

Lemma mint_prepare_ok v l w am before held total w' am' before' held' total' :
  no_allowance w ->
  rfold (AquariusVenue.mint_prepare router v) (w, am, before, held, total) l
    = Ok (w', am', before', held', total') ->
  kept w w' /\ held' = held ++ map (balance_of v) l
  /\ exists bs, before' = before ++ bs /\ length bs = length l
  /\ forall j, l !! j = Some t -> 0 < balance_of v t ->
     exists old, bs !! j = Some old /\ bal w router <= old.
Proof.
  revert w am before held total. induction l as [|tok l IH]; intros w am before held total Hn Hf; cbn in Hf.
  - injection Hf as <- <- <- <- <-. split; [by split|]. split; [by rewrite app_nil_r|].
    exists []. by rewrite app_nil_r.
  - apply rbind_Ok in Hf as ([[[[w1 a1] b1] h1] t1] & H1 & Hf).
    unfold AquariusVenue.mint_prepare in H1. apply rbind_Ok in H1 as (x & _ & H1).
    apply rbind_Ok in H1 as ([w2 b] & Hb & H1). apply rbind_Ok in H1 as (tot & _ & H1).
    injection H1 as <- <- <- <- <-.
    assert (kept w w2 /\ (tok = t -> 0 < balance_of v t -> b = bal w router)) as (Hk1 & Hr1).
    { destruct (0 <? balance_of v tok) eqn:Hpos.
      - apply (read_kept _ _ _ _ _ Hn) in Hb as (Hk & Hr). split; [done|]. intros E _.
        by destruct (Hr E).
      - injection Hb as <- <-. split; [by split|]. intros -> Hlt. apply Z.ltb_ge in Hpos. lia. }
    apply IH in Hf as (Hk2 & -> & bs & -> & Hlen & Hold); [|apply Hk1].
    split; [by eapply kept_trans|]. split; [cbn; by rewrite <- app_assoc|].
    exists (b :: bs). rewrite <- app_assoc. split; [done|]. split; [cbn; lia|].
    intros [|j] Hj Hlt; cbn in *.
    + injection Hj as ->. exists b. split; [done|]. rewrite (Hr1 eq_refl Hlt). lia.
    + destruct (Hold j Hj Hlt) as (old & Ho & Hle). exists old. split; [done|]. destruct Hk1. lia.
Qed.

(** Nothing of [t] is authorised when the vault offers none of it. *)
Lemma mint_auth_debits pool ts v : (t ∈ ts -> balance_of v t = 0) ->
  existsb (entry_debits t) (AquariusVenue.mint_auth router pool ts (map (balance_of v) ts)) = false.
Proof.
  intros Hz. unfold AquariusVenue.mint_auth. induction ts as [|tok ts IH]; [done|]. cbn.
  assert (t ∈ ts -> balance_of v t = 0) as Hz' by (intros ?; apply Hz; by apply list_elem_of_further).
  destruct (Z.ltb_spec 0 (balance_of v tok)) as [Hlt|Hge]; [|by apply IH].
  cbn. rewrite IH by done. rewrite bool_decide_eq_false_2; [done|].
  intros ->. rewrite Hz in Hlt by apply list_elem_of_here. lia.
Qed.

Lemma mint_debit_ok before held l w v w' v' :
  no_allowance w -> vault_ok v -> NoDup l.*2 ->
  rfold (AquariusVenue.mint_debit router before held) (w, v) l = Ok (w', v') ->
  kept w w' /\ vault_ok v' /\ balance_of v' t <= balance_of v t /\
  (balance_of v' t = balance_of v t
   \/ exists i old, (i, t) ∈ l /\ held !! i <> Some 0 /\ before !! i = Some old
      /\ old + balance_of v' t <= bal w' router + balance_of v t)
  /\ (forall i offered, (i, t) ∈ l -> held !! i = Some offered -> offered <> 0 ->
      exists old, before !! i = Some old /\ old + balance_of v' t <= bal w' router + balance_of v t).
Proof.
  revert w v. induction l as [|[i tok] l IH]; intros w v Hn Hv Hd Hf; cbn in Hf.
  - injection Hf as <- <-. split; [by split|]. split; [done|]. split; [lia|]. split; [by left|].
    by intros ? ? ?%elem_of_nil.
  - apply rbind_Ok in Hf as ([w1 v1] & H1 & Hf). cbn in Hd. apply NoDup_cons in Hd as [Hni Hd].
    unfold AquariusVenue.mint_debit in H1. cbn [fst snd] in H1.
    apply rbind_Ok in H1 as (offered & Hoff & H1). apply of_option_Ok in Hoff.
    destruct (Z.eqb_spec offered 0) as [->|Hnz].
    + injection H1 as <- <-. apply IH in Hf as (Hk & Hv' & Hle & Hcase & Hall); [|done..].
      split; [done|]. split; [done|]. split; [done|]. split.
      * destruct Hcase as [Hsame|(j & old & Hin & Hrest)]; [by left|].
        right. exists j, old. split; [by apply list_elem_of_further|done].
      * intros j off Hin Hoff' Hn0. apply elem_of_cons in Hin as [[= <- <-]|Hin]; [congruence|eauto].
    + apply rbind_Ok in H1 as (old & Ho & H1). apply of_option_Ok in Ho.
      apply rbind_Ok in H1 as ([w2 b] & Hb & H1). apply rbind_Ok in H1 as (spent & Hsp & H1).
      apply of_option_Ok, i128_checked_Some in Hsp as [-> _].
      apply rbind_Ok in H1 as (u & Hnn & H1). apply require_Ok, negb_true_iff, Z.ltb_ge in Hnn.
      apply rbind_Ok in H1 as (v2 & Hw & H1). injection H1 as <- <-.
      apply (read_kept _ _ _ _ _ Hn) in Hb as (Hk1 & Hr1).
      pose proof (withdraw_keeps _ _ _ _ Hv Hw) as Hv2. apply withdraw_ok in Hw as (_ & _ & Hw).
      apply IH in Hf as (Hk2 & Hv' & Hle & Hcase & Hall); [|apply Hk1|done|done].
      specialize (Hw t).
      split; [by eapply kept_trans|]. split; [done|].
      destruct (decide (tok = t)) as [->|Hne].
      * rewrite Hw in Hle, Hcase.
        assert (balance_of v' t = balance_of v t - (old - b)) as Hv't.
        { destruct Hcase as [Hs|(j & o & Hin & _)]; [done|]. exfalso. apply Hni, list_elem_of_fmap.
          by exists (j, t). }
        assert (old + balance_of v' t <= bal w' router + balance_of v t) as Hcov.
        { destruct (Hr1 eq_refl) as [-> Hb]. specialize (Hb router). destruct Hk2. lia. }
        split; [lia|]. split.
        -- right. exists i, old. split; [apply list_elem_of_here|]. split; [congruence|done].
        -- intros j off Hin Hoff' Hn0. apply elem_of_cons in Hin as [[= <-]|Hin]; [eauto|].
           exfalso. apply Hni, list_elem_of_fmap. by exists (j, t).
      * rewrite Z.sub_0_r in Hw. rewrite Hw in Hle, Hcase, Hall. split; [done|]. split.
        -- destruct Hcase as [Hsame|(j & o & Hin & Hrest)]; [by left|].
           right. exists j, o. split; [by apply list_elem_of_further|done].
        -- intros j off Hin Hoff' Hn0. apply elem_of_cons in Hin as [[= <- <-]|Hin]; [done|eauto].
Qed.

Lemma add_liquidity_ok w v pool lp min_shares cache w' v' cache' shares :
  no_allowance w -> vault_ok v -> cache_ok cache ->
  AquariusVenue.add_liquidity w router v pool lp min_shares cache = Ok (w', v', cache', shares) ->
  op_keeps w v w' v' /\ cache_ok cache'.
Proof.
  intros Hn Hv Hc Hadd. unfold AquariusVenue.add_liquidity in Hadd.
  apply rbind_Ok in Hadd as ([[w1 c1] ts] & H1 & Hadd).
  apply (pool_tokens_ok _ _ _ _ _ _ _ Hn Hc (get_tokens_kept _)) in H1 as (Hn1 & Hb1 & Hc1 & Hnd).
  apply rbind_Ok in Hadd as (w2 & H2 & Hadd). apply (share_token_kept _ _ _ _ Hn1) in H2 as [Hb2 Hn2].
  apply rbind_Ok in Hadd as (u1 & _ & Hadd).
  apply rbind_Ok in Hadd as ([[[[w3 am] before] held] tot] & H3 & Hadd).
  apply (mint_prepare_ok _ _ _ _ _ _ _ _ _ _ _ _ Hn2) in H3
    as ([Hb3 Hn3] & Hheld & bs & Hbs & _ & Hold). cbn in Hheld, Hbs. subst held before.
  apply rbind_Ok in Hadd as (u2 & _ & Hadd).
  apply rbind_Ok in Hadd as ([w4 sb] & H4 & Hadd). apply (read_kept _ _ _ _ _ Hn3) in H4 as ([Hb4 Hn4] & Hsb).
  apply rbind_Ok in Hadd as (mu & _ & Hadd). apply rbind_Ok in Hadd as ([w5 x] & H5 & Hadd).
  pose proof (invoke_allowance _ _ _ _ _ _ _ Hn4 H5) as Hn5.
  apply rbind_Ok in Hadd as (u3 & _ & Hadd). apply rbind_Ok in Hadd as ([w6 v6] & H6 & Hadd).
  apply mint_debit_ok in H6 as ([Hb6 Hn6] & Hv6 & Hle6 & Hcase & Hall); [|done|done|by rewrite indexed_snd].
  apply rbind_Ok in Hadd as ([w7 sa] & H7 & Hadd). apply (read_kept _ _ _ _ _ Hn6) in H7 as ([Hb7 Hn7] & Hsa).
  apply rbind_Ok in Hadd as (sh & Hsh & Hadd). apply of_option_Ok, i128_checked_Some in Hsh as [-> _].
  apply rbind_Ok in Hadd as (u4 & _ & Hadd). apply rbind_Ok in Hadd as (v7 & Hdep & Hadd).
  injection Hadd as <- <- <- <-. pose proof (deposit_keeps _ _ _ _ Hv6 Hdep) as Hv7.
  apply deposit_ok in Hdep as [_ Hdep]. split; [|done]. split; [done|]. split; [done|]. rewrite Hdep.
  destruct (decide (lp = t)) as [Elp|Nlp].
  { destruct (Hsb Elp) as [-> _]. destruct (Hsa Elp) as [-> Hb]. specialize (Hb router). lia. }
  rewrite Z.add_0_r. destruct (decide (t ∈ ts /\ 0 < balance_of v t)) as [[Hin Hlt]|Hout].
  - apply list_elem_of_lookup in Hin as (j & Hj). destruct (Hold j Hj Hlt) as (old & Ho & Hle).
    destruct (Hall j (balance_of v t)) as (old' & Ho' & Hcov).
    + by apply indexed_lookup.
    + change (map (balance_of v) ts) with (balance_of v <$> ts). by rewrite list_lookup_fmap, Hj.
    + lia.
    + rewrite Ho in Ho'. injection Ho' as <-. lia.
  - assert (t ∈ ts -> balance_of v t = 0) as Hz.
    { intros Hin. specialize (Hv t). destruct (decide (0 < balance_of v t)); [|lia]. exfalso. by apply Hout. }
    assert (bal w4 router <= bal w5 router); [|lia].
    eapply debit_needs_authorisation; [exact H5| |exact Hn4].
    unfold call_debits. change (debit_function "deposit") with false. rewrite andb_false_r.
    by apply mint_auth_debits.
Qed.

(** ** A program *)

Lemma execute_op_ok ctx w v o prev cache w' v' cache' prev' : cx_router ctx = router ->
  no_allowance w -> vault_ok v -> cache_ok cache ->
  execute_op ctx w v o prev cache = Ok (w', v', cache', prev') ->
  op_keeps w v w' v' /\ cache_ok cache'.
Proof.
  intros Hr Hn Hv Hc He. unfold execute_op in He. rewrite Hr in He.
  destruct (opcode o) as [venue| |].
  - apply rbind_Ok in He as (pool & _ & He). apply rbind_Ok in He as (ti & _ & He).
    apply rbind_Ok in He as (to & _ & He). apply rbind_Ok in He as (amt & _ & He).
    apply rbind_Ok in He as (u1 & _ & He). apply rbind_Ok in He as (v1 & Hw & He).
    apply rbind_Ok in He as ([[w2 c2] out] & Hd & He). apply rbind_Ok in He as (u2 & _ & He).
    apply rbind_Ok in He as (v2 & Hdep & He). injection He as <- <- <- <-.
    apply (dispatch_hop_ok _ _ _ _ _ _ _ Hn Hc) in Hd as (Hn2 & Hc2 & _ & Hb).
    cbn [hop_token_in hop_token_out] in Hb. split; [|done].
    pose proof (withdraw_keeps _ _ _ _ Hv Hw) as Hv1. pose proof (deposit_keeps _ _ _ _ Hv1 Hdep).
    split; [done|]. split; [done|].
    apply withdraw_ok in Hw as (_ & _ & Hw). apply deposit_ok in Hdep as [_ Hdep].
    rewrite Hdep, Hw. repeat case_decide; lia.
  - apply rbind_Ok in He as (pool & _ & He). apply rbind_Ok in He as (lp & _ & He).
    apply rbind_Ok in He as ([[w2 v2] c2] & Hrem & He). injection He as <- <- <- <-.
    by eapply remove_liquidity_ok.
  - apply rbind_Ok in He as (lp & _ & He). apply rbind_Ok in He as (pool & _ & He).
    apply rbind_Ok in He as (ms & _ & He).
    apply rbind_Ok in He as ([[[w2 v2] c2] sh] & Hadd & He). injection He as <- <- <- <-.
    by eapply add_liquidity_ok.
Qed.

Lemma execute_program_ok ctx w v w' v' : cx_router ctx = router -> no_allowance w -> vault_ok v ->
  execute_program ctx w v = Ok (w', v') -> op_keeps w v w' v'.
Proof.
  intros Hr Hn Hv He. unfold execute_program in He.
  apply rbind_Ok in He as ([[[w1 v1] c1] p1] & Hf & He). injection He as <- <-.
  set (P := fun st : W * Vault * TokensCache * PrevOutput =>
    op_keeps w v st.1.1.1 st.1.1.2 /\ cache_ok st.1.2).
  enough (P (w1, v1, c1, p1)) as [Hk _] by exact Hk. revert Hf. apply rfold_inv.
  - intros [[[wa va] ca] pa] i [[[wb vb] cb] pb] _ [(Hna & Hva & Hba) Hca] Hstep.
    cbn in Hna, Hva, Hba, Hca. apply rbind_Ok in Hstep as (o & _ & Hstep).
    apply (execute_op_ok ctx) in Hstep as [(Hnb & Hvb & Hbb) Hcb]; [|done..].
    split; [|done]. split; [done|]. split; [done|]. cbn. lia.
  - split; [|intros pool ts Hl; cbn in Hl; by rewrite lookup_empty in Hl]. split; [done|]. split; [done|]. cbn. lia.
Qed.

(** ** Settlement *)

Lemma transfer_in_ok w asset from amount e w' delta : no_allowance w ->
  transfer_amount_measured w asset from router amount e = Ok (w', delta) -> 0 <= delta ->
  no_allowance w' /\ bal w router + (if decide (asset = t) then delta else 0) <= bal w' router.
Proof.
  intros Hn Ht Hd. unfold transfer_amount_measured in Ht. apply rbind_Ok in Ht as (u & _ & Ht).
  apply rbind_Ok in Ht as ([w1 pre] & H1 & Ht). apply rbind_Ok in Ht as (w2 & H2 & Ht).
  apply rbind_Ok in Ht as ([w3 post] & H3 & Ht). apply rbind_Ok in Ht as (d & Hsub & Ht).
  injection Ht as <- <-. apply of_option_Ok, i128_checked_Some in Hsub as [-> _].
  apply (read_kept _ _ _ _ _ Hn) in H1 as ([Hb1 Hn1] & Hr1).
  assert (no_allowance w2 /\ (asset <> t -> bal w1 router <= bal w2 router)) as [Hn2 Hb2].
  { destruct (decide (asset = t)) as [->|Hne].
    - split; [|done]. destruct (decide (from = router)) as [->|Hf].
      + apply transfer_pays in H2 as (_ & _ & _ & Hal). intros s. by rewrite Hal.
      + apply (transfer_receives _ _ _ _ Hf) in H2 as [_ Hal]. intros s. by rewrite Hal.
    - destruct (other_transfers _ _ _ _ _ _ Hne H2 Hn1) as [Hb Hn2]. by split. }
  apply (read_kept _ _ _ _ _ Hn2) in H3 as ([Hb3 Hn3] & Hr3). split; [done|].
  destruct (decide (asset = t)) as [E|Hne].
  - destruct (Hr1 E) as [-> _]. destruct (Hr3 E) as [-> Hb]. specialize (Hb router). lia.
  - specialize (Hb2 Hne). lia.
Qed.

Lemma transfer_out_ok w token to amount w' : no_allowance w ->
  token_transfer w token router to amount = Ok w' ->
  no_allowance w'
  /\ bal w router <= bal w' router + (if decide (token = t) then amount else 0).
Proof.
  intros Hn Ht. destruct (decide (token = t)) as [->|Hne].
  - apply transfer_pays in Ht as (H1 & H2 & H3 & Hal). split; [intros s; by rewrite Hal|].
    destruct (decide (to = router)) as [E|E]; [rewrite (H2 E); lia|]. destruct (H1 E). lia.
  - destruct (other_transfers _ _ _ _ _ _ Hne Ht Hn). by split; [|lia].
Qed.

Section Calls.

Context `{HO : OwnableLib}.

Implicit Types r : Router.

(** The reserved fees of [t] are in the router's balance. *)
Definition backed r w : Prop := no_allowance w /\ reserved r t <= bal w router.

Lemma run_ok env r w sender total_in payload r' w' out : current_contract_address env = router ->
  router_ok r -> backed r w -> run env r w sender total_in payload = Ok (r', w', out) ->
  router_ok r' /\ backed r' w'.
Proof.
  intros Henv Hr [Hn Hb] Hrun. unfold run in Hrun. rewrite Henv in Hrun.
  apply rbind_Ok in Hrun as (u1 & _ & Hrun). apply rbind_Ok in Hrun as (u2 & _ & Hrun).
  apply rbind_Ok in Hrun as (prog & _ & Hrun). apply rbind_Ok in Hrun as (ti & _ & Hrun).
  apply rbind_Ok in Hrun as (to & _ & Hrun). apply rbind_Ok in Hrun as (mo & _ & Hrun).
  apply rbind_Ok in Hrun as (u3 & _ & Hrun). apply rbind_Ok in Hrun as ([w1 cin] & Hin & Hrun).
  apply rbind_Ok in Hrun as (v1 & Hdep & Hrun). pose proof (deposit_keeps _ _ _ _ new_ok Hdep) as Hv1.
  apply deposit_ok in Hdep as [Hcin Hv1t]. apply (transfer_in_ok _ _ _ _ _ _ _ Hn) in Hin as [Hn1 Hb1]; [|done].
  set (on_input := fee_on_input r (referral_id prog) ti to) in Hrun.
  apply rbind_Ok in Hrun as ([r2 v2] & Hfee1 & Hrun).
  assert (router_ok r2 /\ vault_ok v2
          /\ forall a, reserved r2 a + balance_of v2 a = reserved r a + balance_of v1 a)
    as (Hr2 & Hv2 & Hs2).
  { destruct on_input; [|by injection Hfee1 as <- <-].
    apply apply_fees_ok in Hfee1 as (? & ? & fee & _ & _ & Hres & Hbal); [|done..].
    split; [done|]. split; [done|]. intros a. rewrite Hres, Hbal. case_decide; lia. }
  apply rbind_Ok in Hrun as ([w3 v3] & Hprog & Hrun).
  apply execute_program_ok in Hprog as (Hn3 & Hv3 & Hb3); [|done..].
  apply rbind_Ok in Hrun as ([r4 v4] & Hfee2 & Hrun).
  assert (router_ok r4 /\ vault_ok v4
          /\ forall a, reserved r4 a + balance_of v4 a = reserved r2 a + balance_of v3 a)
    as (Hr4 & Hv4 & Hs4).
  { destruct (negb on_input); [|by injection Hfee2 as <- <-].
    apply apply_fees_ok in Hfee2 as (? & ? & fee & _ & _ & Hres & Hbal); [|done..].
    split; [done|]. split; [done|]. intros a. rewrite Hres, Hbal. case_decide; lia. }
  apply rbind_Ok in Hrun as (u4 & _ & Hrun). apply rbind_Ok in Hrun as (v5 & Hw & Hrun).
  pose proof (withdraw_keeps _ _ _ _ Hv4 Hw) as Hv5. apply withdraw_ok in Hw as (_ & _ & Hw).
  apply rbind_Ok in Hrun as (w6 & Hpay & Hrun). apply (transfer_out_ok _ _ _ _ _ Hn3) in Hpay as [Hn6 Hb6].
  apply rbind_Ok in Hrun as ([r7 v7] & Hres & Hrun). injection Hrun as <- <- <-.
  apply residual_ok in Hres as (Hr7 & Hv7 & Hs7); [|done..].
  split; [done|]. split; [done|].
  specialize (Hs2 t). specialize (Hs4 t). specialize (Hs7 t). specialize (Hv7 t).
  rewrite (Hw t) in Hs7. rewrite (Hv1t t) in Hs2.
  assert (balance_of Vault.new t = 0) as Hz by (unfold balance_of, new; cbn; by rewrite lookup_empty).
  rewrite Hz in Hs2. repeat case_decide; lia.
Qed.

Lemma claim_ok r w recipient tokens bucket r' w' : router_ok r -> backed r w ->
  Aggregator.claim_fee_bucket r w router recipient tokens bucket = Ok (r', w') ->
  router_ok r' /\ backed r' w'.
Proof.
  intros Hr Hb Hc. unfold Aggregator.claim_fee_bucket in Hc.
  set (P := fun st : Router * W => router_ok st.1 /\ backed st.1 st.2).
  change (P (r', w')). revert Hc. apply rfold_inv; [|by split].
  clear. intros [r1 w1] token [r2 w2] _ [Hr [Hn Hb]] Hstep. cbn in Hr, Hn, Hb.
  apply rbind_Ok in Hstep as ([r3 amount] & Htake & Hstep).
  pose proof (take_fee_bucket_step _ _ _ _ (fun _ => False) Htake) as Hst.
  assert (bucket_token (FeeBucket_key bucket token) = Ok token) as Hkey by (by destruct bucket).
  destruct (take_fee_bucket_ok _ _ _ _ _ (ro_buckets r1 Hr) Hkey Htake) as (Hb3 & Ha & _ & Hres).
  assert (router_ok r3) as Hr3 by (by eapply fee_step_router).
  specialize (Hres t). destruct (0 <? amount) eqn:Hpos.
  - apply rbind_Ok in Hstep as (w3 & Ht & Hstep). injection Hstep as <- <-.
    apply (transfer_out_ok _ _ _ _ _ Hn) in Ht as [Hn3 Hb3']. split; [done|]. split; [done|]. cbn.
    case_decide; lia.
  - injection Hstep as <- <-. split; [done|]. split; [done|]. cbn. case_decide; lia.
Qed.

(** A sweep takes what is above the reserve and nothing else. *)
Lemma sweep_ok env r w recipient tokens w' : current_contract_address env = router -> backed r w ->
  Aggregator.sweep_balance env r w recipient tokens = Ok w' -> backed r w'.
Proof.
  intros Henv Hb Hs. unfold Aggregator.sweep_balance in Hs. rewrite Henv in Hs.
  apply rbind_Ok in Hs as (u & _ & Hs). revert Hs. apply rfold_inv; [|done].
  clear. intros w1 token w2 _ [Hn Hb] Hstep. apply rbind_Ok in Hstep as ([w3 bal3] & H3 & Hstep).
  apply (read_kept _ _ _ _ _ Hn) in H3 as ([Hk3 Hn3] & Hr3).
  destruct (Z.ltb_spec (reserved_fee_balance r token) bal3) as [Hlt|Hge].
  - apply rbind_Ok in Hstep as (ex & Hex & Hstep). apply of_option_Ok, i128_checked_Some in Hex as [-> _].
    apply (transfer_out_ok _ _ _ _ _ Hn3) in Hstep as [Hn2 Hb2]. split; [done|].
    destruct (decide (token = t)) as [->|Hne]; [|lia].
    destruct (Hr3 eq_refl) as [-> Hall]. specialize (Hall router). unfold reserved in *. lia.
  - injection Hstep as <-. split; [done|lia].
Qed.

End Calls.

End Backing.

End Backing.
