(* ===== verification/SwapProps.v ===== *)
(** * Swap aggregator: properties

    Reachable routers, and the properties of packed programs, settlement, fees and quotes, each
    applied to a concrete ledger. *)

From S2P Require Import Prelude Errors FpCore Fp PoolTypes PoolCache SwapProgram SwapStore SwapRouter SwapSteps SwapBacking.
From stdpp Require Import base numbers list gmap strings.
From Stdlib Require Import ZArith Lia Bool.

Open Scope Z_scope.

(** ** Reachable routers *)

Module RouterReach.

Import RouterError RouterMath RouterStore Vault Fees Program Hop Execute Buckets RouterInv Aggregator.

(** What the host's types say of the arguments of a call. *)
Definition typed_call (call : RouterCall) : Prop :=
  match call with
  | CallSetStaticFee fee_bps | CallAddReferral _ fee_bps => 0 <= fee_bps <= u32_max
  | CallSetReferralFee id fee_bps => 0 <= id <= u64_max /\ 0 <= fee_bps <= u32_max
  | _ => True
  end.

Section Reach.

Context `{HO : OwnableLib} {W : Type} `{HH : SwapHost W, HL : SwapLedger W} (router : Address).

Implicit Types (r : Router) (w : W) (v : Vault).

Inductive router_reachable : Router -> W -> Prop :=
| reach_deployed admin r w :
    constructor admin = Ok r -> genesis w -> router_reachable r w
| reach_called env r w call r' w' :
    router_reachable r w -> current_contract_address env = router -> typed_call call ->
    dispatch env r w call = Ok (r', w') -> router_reachable r' w'
| reach_others r w w' :
    router_reachable r w -> others_act w w' -> router_reachable r w'.

(** ** The vault stays non-negative, whatever the venues do *)

Lemma burn_credit_vault rt am st be l w v tot w' v' tot' : vault_ok v ->
  rfold (AquariusVenue.burn_credit rt am st be) (w, v, tot) l = Ok (w', v', tot') -> vault_ok v'.
Proof.
  intros Hv Hf. set (P := fun x : W * Vault * Z => vault_ok x.1.2). change (P (w', v', tot')).
  revert Hf. apply rfold_inv; [|done]. clear. intros [[w1 v1] t1] [i tok] [[w2 v2] t2] _ Hv H1.
  unfold AquariusVenue.burn_credit in H1. apply rbind_Ok in H1 as ([w3 b] & _ & H1).
  apply rbind_Ok in H1 as (old & _ & H1). apply rbind_Ok in H1 as (rec & _ & H1).
  apply rbind_Ok in H1 as (fl & _ & H1). apply rbind_Ok in H1 as (u & _ & H1).
  apply rbind_Ok in H1 as (tt' & _ & H1). apply rbind_Ok in H1 as (v3 & Hd & H1).
  injection H1 as <- <- <-. by eapply deposit_keeps.
Qed.

Lemma mint_debit_vault rt be he l w v w' v' : vault_ok v ->
  rfold (AquariusVenue.mint_debit rt be he) (w, v) l = Ok (w', v') -> vault_ok v'.
Proof.
  intros Hv Hf. set (P := fun x : W * Vault => vault_ok x.2). change (P (w', v')).
  revert Hf. apply rfold_inv; [|done]. clear. intros [w1 v1] [i tok] [w2 v2] _ Hv H1.
  unfold AquariusVenue.mint_debit in H1. apply rbind_Ok in H1 as (o & _ & H1).
  destruct (o =? 0); [by injection H1 as <- <-|].
  apply rbind_Ok in H1 as (old & _ & H1). apply rbind_Ok in H1 as ([w3 b] & _ & H1).
  apply rbind_Ok in H1 as (sp & _ & H1). apply rbind_Ok in H1 as (u & _ & H1).
  apply rbind_Ok in H1 as (v3 & Hd & H1). injection H1 as <- <-. by eapply withdraw_keeps.
Qed.

Lemma execute_op_vault ctx w v o prev cache w' v' cache' prev' : vault_ok v ->
  execute_op ctx w v o prev cache = Ok (w', v', cache', prev') -> vault_ok v'.
Proof.
  intros Hv He. unfold execute_op in He. destruct (opcode o) as [venue| |].
  - apply rbind_Ok in He as (pool & _ & He). apply rbind_Ok in He as (ti & _ & He).
    apply rbind_Ok in He as (to & _ & He). apply rbind_Ok in He as (amt & _ & He).
    apply rbind_Ok in He as (u1 & _ & He). apply rbind_Ok in He as (v1 & Hw & He).
    apply rbind_Ok in He as ([[w2 c2] out] & _ & He). apply rbind_Ok in He as (u2 & _ & He).
    apply rbind_Ok in He as (v2 & Hdep & He). injection He as <- <- <- <-.
    eapply deposit_keeps; [|exact Hdep]. by eapply withdraw_keeps.
  - apply rbind_Ok in He as (pool & _ & He). apply rbind_Ok in He as (lp & _ & He).
    apply rbind_Ok in He as ([[w2 v2] c2] & Hrem & He). injection He as <- <- <- <-.
    unfold AquariusVenue.remove_liquidity in Hrem.
    apply rbind_Ok in Hrem as ([[? ?] ts] & _ & Hrem). apply rbind_Ok in Hrem as (? & _ & Hrem).
    apply rbind_Ok in Hrem as (? & _ & Hrem). apply rbind_Ok in Hrem as (? & _ & Hrem).
    apply rbind_Ok in Hrem as ([[? ?] ?] & _ & Hrem). apply rbind_Ok in Hrem as ([? ?] & _ & Hrem).
    apply rbind_Ok in Hrem as (? & _ & Hrem). apply rbind_Ok in Hrem as ([? ?] & _ & Hrem).
    apply rbind_Ok in Hrem as (? & _ & Hrem). apply rbind_Ok in Hrem as ([? ?] & _ & Hrem).
    apply rbind_Ok in Hrem as (? & _ & Hrem). apply rbind_Ok in Hrem as (? & _ & Hrem).
    apply rbind_Ok in Hrem as (vw & Hw & Hrem). apply rbind_Ok in Hrem as ([[wz vz] tot] & Hf & Hrem).
    apply rbind_Ok in Hrem as (? & _ & Hrem). injection Hrem as <- <- <-.
    eapply burn_credit_vault; [|exact Hf]. by eapply withdraw_keeps.
  - apply rbind_Ok in He as (lp & _ & He). apply rbind_Ok in He as (pool & _ & He).
    apply rbind_Ok in He as (ms & _ & He).
    apply rbind_Ok in He as ([[[w2 v2] c2] sh] & Hadd & He). injection He as <- <- <- <-.
    unfold AquariusVenue.add_liquidity in Hadd.
    apply rbind_Ok in Hadd as ([[? ?] ts] & _ & Hadd). apply rbind_Ok in Hadd as (? & _ & Hadd).
    apply rbind_Ok in Hadd as (? & _ & Hadd). apply rbind_Ok in Hadd as ([[[[? ?] ?] ?] ?] & _ & Hadd).
    apply rbind_Ok in Hadd as (? & _ & Hadd). apply rbind_Ok in Hadd as ([? ?] & _ & Hadd).
    apply rbind_Ok in Hadd as (? & _ & Hadd). apply rbind_Ok in Hadd as ([? ?] & _ & Hadd).
    apply rbind_Ok in Hadd as (? & _ & Hadd). apply rbind_Ok in Hadd as ([wz vz] & Hf & Hadd).
    apply rbind_Ok in Hadd as ([? ?] & _ & Hadd). apply rbind_Ok in Hadd as (? & _ & Hadd).
    apply rbind_Ok in Hadd as (? & _ & Hadd). apply rbind_Ok in Hadd as (vd & Hd & Hadd).
    injection Hadd as <- <- <- <-. eapply deposit_keeps; [|exact Hd]. by eapply mint_debit_vault.
Qed.

Lemma execute_program_vault ctx w v w' v' : vault_ok v ->
  execute_program ctx w v = Ok (w', v') -> vault_ok v'.
Proof.
  intros Hv He. unfold execute_program in He.
  apply rbind_Ok in He as ([[[w1 v1] c1] p1] & Hf & He). injection He as <- <-.
  set (P := fun st : W * Vault * TokensCache * PrevOutput => vault_ok st.1.1.2).
  change (P (w1, v1, c1, p1)). revert Hf. apply rfold_inv; [|done].
  intros [[[wa va] ca] pa] i [[[wb vb] cb] pb] _ Hva Hstep.
  apply rbind_Ok in Hstep as (o & _ & Hstep). by eapply execute_op_vault.
Qed.

(** ** Claims *)

Lemma claim_router_ok r w rt recipient tokens bucket r' w' : router_ok r ->
  claim_fee_bucket r w rt recipient tokens bucket = Ok (r', w') -> router_ok r'.
Proof.
  intros Hr Hc. unfold claim_fee_bucket in Hc.
  set (P := fun st : Router * W => router_ok st.1). change (P (r', w')).
  revert Hc. apply rfold_inv; [|done]. clear. intros [r1 w1] token [r2 w2] _ Hr Hstep.
  apply rbind_Ok in Hstep as ([r3 amount] & Htake & Hstep).
  assert (bucket_token (FeeBucket_key bucket token) = Ok token) as Hkey by (by destruct bucket).
  assert (router_ok r3) as Hr3.
  { eapply fee_step_router; [exact Hr|by eapply (take_fee_bucket_step _ _ _ _ (fun _ => False))| |done].
    by destruct (take_fee_bucket_ok _ _ _ _ _ (ro_buckets r1 Hr) Hkey Htake). }
  destruct (0 <? amount); [|by injection Hstep as <- <-].
  apply rbind_Ok in Hstep as (w3 & _ & Hstep). by injection Hstep as <- <-.
Qed.

(** ** A settled strategy *)

(** Fees and residuals leave the settings alone. *)
Lemma apply_fees_step r v token id r' v' : apply_fees_on_token r v token id = Ok (r', v') ->
  fee_step (fun _ => True) r r'.
Proof.
  unfold apply_fees_on_token. intros Ha.
  destruct (id =? 0); [injection Ha as <- <-; apply fee_step_refl|].
  destruct (try_load_referral r id) as [cfg|]; [|injection Ha as <- <-; apply fee_step_refl].
  destruct (negb (ref_active cfg)); [injection Ha as <- <-; apply fee_step_refl|].
  destruct (balance_of v token <=? 0); [injection Ha as <- <-; apply fee_step_refl|].
  apply rbind_Ok in Ha as (u1 & _ & Ha).
  destruct (static_fee_bps r + ref_fee_bps cfg =? 0); [injection Ha as <- <-; apply fee_step_refl|].
  apply rbind_Ok in Ha as (u2 & _ & Ha). apply rbind_Ok in Ha as (sf & _ & Ha).
  apply rbind_Ok in Ha as (rf & _ & Ha). apply rbind_Ok in Ha as (tot & _ & Ha).
  destruct (tot <=? 0); [injection Ha as <- <-; apply fee_step_refl|].
  apply rbind_Ok in Ha as (v1 & _ & Ha). apply rbind_Ok in Ha as (r1 & Hacc & Ha).
  injection Ha as <- <-. destruct (accumulate_swap_fees_step _ _ _ _ _ _ Hacc) as [E _]. by split; auto.
Qed.

Lemma residual_step r v r' v' : accrue_residual_as_revenue r v = Ok (r', v') ->
  fee_step (fun _ => True) r r'.
Proof.
  intros Ha. unfold accrue_residual_as_revenue in Ha.
  set (P := fun st : Router * Vault => fee_step (fun _ => True) r st.1). change (P (r', v')).
  revert Ha. apply rfold_inv; [|apply fee_step_refl]. intros [r1 v1] token [r2 v2] _ HP Hstep.
  destruct (balance_of v1 token <=? 0); [by injection Hstep as <- <-|].
  apply rbind_Ok in Hstep as (u & _ & Hstep). apply rbind_Ok in Hstep as (v3 & _ & Hstep).
  apply rbind_Ok in Hstep as (r3 & Hacc & Hstep). injection Hstep as <- <-.
  eapply fee_step_trans; [exact HP|]. by eapply accumulate_fee_step.
Qed.

(** Residuals only add to the reserve. *)
Lemma residual_grows r v r' v' a : router_ok r -> vault_ok v ->
  accrue_residual_as_revenue r v = Ok (r', v') -> reserved r a <= reserved r' a.
Proof.
  intros Hr Hv Ha. unfold accrue_residual_as_revenue in Ha.
  set (P := fun st : Router * Vault => router_ok st.1 /\ reserved r a <= reserved st.1 a).
  enough (P (r', v')) as [_ H] by exact H.
  revert Ha. apply rfold_inv; [|by split; [|cbn; lia]].
  intros [r1 v1] token [r2 v2] _ [Hr1 HP] Hstep. cbn in Hr1, HP.
  destruct (Z.leb_spec (balance_of v1 token) 0) as [Hle|Hpos]; [by injection Hstep as <- <-|].
  apply rbind_Ok in Hstep as (u & _ & Hstep). apply rbind_Ok in Hstep as (v3 & _ & Hstep).
  apply rbind_Ok in Hstep as (r3 & Hacc & Hstep). injection Hstep as <- <-.
  destruct (accumulate_fee_ok _ (AdminFee token) _ _ _ (ro_buckets r1 Hr1) eq_refl Hpos Hacc) as [Hb Hres].
  split; cbn.
  - eapply (fee_step_router r1 r3 (fun _ => False)); [done| |done|done]. by eapply accumulate_fee_step.
  - rewrite Hres. case_decide; lia.
Qed.

(** What a successful run went through, from the decoded program to the payout. *)
Record settlement (env : Env) r w (sender : Address) (payload : StrategyPayload) r' w' (out : Z)
    : Prop := {
  st_authorized : authorized env sender = true;
  st_program : exists p input output minimum,
    decode (ops payload) (assets payload) (length (amounts payload)) = Ok p
    /\ assets payload !! token_in p = Some input /\ assets payload !! token_out p = Some output
    /\ amounts payload !! min_out p = Some minimum /\ 0 < minimum <= out
    /\ exists before, token_transfer before output (current_contract_address env) sender out = Ok w';
  st_router : router_ok r';
  st_config : static_fee_bps r' = static_fee_bps r /\ r_referrals r' = r_referrals r
              /\ r_whitelist r' = r_whitelist r /\ r_ownership r' = r_ownership r;
  st_reserve : forall a, reserved r a <= reserved r' a
}.

Lemma run_settles env r w sender total_in payload r' w' out : router_ok r ->
  run env r w sender total_in payload = Ok (r', w', out) ->
  settlement env r w sender payload r' w' out.
Proof.
  intros Hr Hrun. unfold run in Hrun.
  apply rbind_Ok in Hrun as (u1 & Hauth & Hrun). apply require_Ok in Hauth.
  apply rbind_Ok in Hrun as (u2 & _ & Hrun). apply rbind_Ok in Hrun as (prog & Hdec & Hrun).
  apply rbind_Ok in Hrun as (ti & Hti & Hrun). apply rbind_Ok in Hrun as (to & Hto & Hrun).
  apply rbind_Ok in Hrun as (mo & Hmo & Hrun). apply of_option_Ok in Hti, Hto, Hmo.
  apply rbind_Ok in Hrun as (u3 & Hpos & Hrun). apply require_Ok, negb_true_iff, Z.leb_gt in Hpos.
  apply rbind_Ok in Hrun as ([w1 cin] & _ & Hrun).
  apply rbind_Ok in Hrun as (v1 & Hdep & Hrun). pose proof (deposit_keeps _ _ _ _ new_ok Hdep) as Hv1.
  set (on_input := fee_on_input r (referral_id prog) ti to) in Hrun.
  assert (forall (b : bool) ra va token rb vb, router_ok ra -> vault_ok va ->
    (if b then apply_fees_on_token ra va token (referral_id prog) else Ok (ra, va)) = Ok (rb, vb) ->
    router_ok rb /\ vault_ok vb /\ fee_step (fun _ => True) ra rb
    /\ forall a, reserved ra a <= reserved rb a) as Hfees.
  { intros b ra va token rb vb Hra Hva Happ. destruct b.
    - pose proof (apply_fees_step _ _ _ _ _ _ Happ).
      apply apply_fees_ok in Happ as (? & ? & fee & Hf & _ & Hres & _); [|done..].
      split; [done|]. split; [done|]. split; [done|]. intros a. rewrite Hres. case_decide; lia.
    - injection Happ as <- <-. split; [done|]. split; [done|]. split; [apply fee_step_refl|]. intros a. lia. }
  apply rbind_Ok in Hrun as ([r2 v2] & Hfee1 & Hrun). apply Hfees in Hfee1 as (Hr2 & Hv2 & S2 & G2); [|done..].
  apply rbind_Ok in Hrun as ([w3 v3] & Hprog & Hrun). apply execute_program_vault in Hprog as Hv3; [|done].
  apply rbind_Ok in Hrun as ([r4 v4] & Hfee2 & Hrun). apply Hfees in Hfee2 as (Hr4 & Hv4 & S4 & G4); [|done..].
  apply rbind_Ok in Hrun as (u4 & Hslip & Hrun). apply require_Ok, negb_true_iff, Z.ltb_ge in Hslip.
  apply rbind_Ok in Hrun as (v5 & Hw & Hrun). pose proof (withdraw_keeps _ _ _ _ Hv4 Hw) as Hv5.
  apply rbind_Ok in Hrun as (w6 & Hpay & Hrun). apply rbind_Ok in Hrun as ([r7 v7] & Hres & Hrun).
  injection Hrun as <- <- <-.
  destruct (residual_ok _ _ _ _ Hr4 Hv5 Hres) as (Hr7 & _ & _).
  pose proof (residual_step _ _ _ _ Hres) as S7.
  destruct (fee_step_trans _ _ _ _ (fee_step_trans _ _ _ _ S2 S4) S7) as [E _].
  split; [done| |done|rewrite E; done|].
  - exists prog, ti, to, mo. do 4 (split; [done|]). split; [lia|]. by exists w3.
  - intros a. pose proof (residual_grows _ _ _ _ a Hr4 Hv5 Hres). specialize (G2 a). specialize (G4 a). lia.
Qed.

(** ** Calls *)

Lemma buckets_same r r' : r_buckets r' = r_buckets r -> buckets_ok r -> buckets_ok r'.
Proof. intros E [H1 H2]. split; unfold reserved, reserved_fee_balance in *; by rewrite E. Qed.

Lemma settings_ok r r' : router_ok r -> r_buckets r' = r_buckets r -> r_referrals r' = r_referrals r ->
  referral_counter r' = referral_counter r -> 0 <= static_fee_bps r' <= FEE_CAP ->
  NoDup (load_whitelist r') -> router_ok r'.
Proof.
  intros [H1 H2 H3 H4 H5 H6] Eb Er Ec Hs Hw.
  split; [by apply (buckets_same r)|done|by rewrite Er, Ec|by rewrite Ec|done|by rewrite Er, Eb].
Qed.

Lemma set_referral_ok r id old cfg : router_ok r -> r_referrals r !! id = Some old ->
  0 <= ref_fee_bps cfg <= FEE_CAP -> router_ok (set_referral r id cfg).
Proof.
  intros [H1 H2 H3 H4 H5 H6] Hid Hf. split; try done; [by apply (buckets_same r)| |].
  - intros i c. cbn. rewrite lookup_insert_Some. intros [[<- <-]|[_ Hi]]; [|by apply H3].
    split; [|done]. by apply H3 in Hid as [? _].
  - cbn. intros i a Hk. rewrite lookup_insert_is_Some. apply H6 in Hk.
    destruct (decide (id = i)); [by left|by right].
Qed.

Lemma dispatch_ok env r w call r' w' : typed_call call -> router_ok r ->
  dispatch env r w call = Ok (r', w') -> router_ok r'.
Proof.
  intros Ht Hr Hd. pose proof Hr as [Hb Hs Hf Hc Hw Hk].
  destruct call; cbn in Hd; unfold beside_world in Hd; cbn in Ht.
  - apply rbind_Ok in Hd as (r1 & H1 & Hd). injection Hd as <- <-. unfold set_static_fee in H1.
    apply rbind_Ok in H1 as (u & _ & H1). unfold Fees.set_static_fee in H1.
    apply rbind_Ok in H1 as (u' & Hle & H1). apply require_Ok, negb_true_iff, Z.ltb_ge in Hle.
    injection H1 as <-. eapply settings_ok; try done. cbn. lia.
  - apply rbind_Ok in Hd as (r1 & H1 & Hd). injection Hd as <- <-. unfold add_to_whitelist in H1.
    apply rbind_Ok in H1 as (u & _ & H1). case_bool_decide as Hin; injection H1 as <-; [done|].
    eapply settings_ok; try done. cbn. apply NoDup_app. split; [done|]. split; [|apply NoDup_singleton].
    intros y Hy ->%list_elem_of_singleton. done.
  - apply rbind_Ok in Hd as (r1 & H1 & Hd). injection Hd as <- <-. unfold remove_from_whitelist in H1.
    apply rbind_Ok in H1 as (u & _ & H1). destruct (first_index_of _ _) as [i|]; injection H1 as <-; [|done].
    eapply settings_ok; try done. cbn. eapply sublist_NoDup; [exact Hw|]. apply sublist_delete.
  - apply rbind_Ok in Hd as ([r1 id] & H1 & Hd). injection Hd as <- <-. unfold add_referral in H1.
    apply rbind_Ok in H1 as (u & _ & H1). apply rbind_Ok in H1 as (u1 & Hle & H1).
    apply require_Ok, negb_true_iff, Z.ltb_ge in Hle. apply rbind_Ok in H1 as (u2 & Hmax & H1).
    apply require_Ok, Z.leb_le in Hmax. injection H1 as <- <-.
    split; try done; [by apply (buckets_same r)| | |].
    + cbn. intros i c. rewrite lookup_insert_Some. unfold referral_counter in *. cbn.
      intros [[<- <-]|[_ Hi]]; cbn; [lia|]. apply Hf in Hi. lia.
    + unfold referral_counter in *. cbn. lia.
    + cbn. intros i a Hi. rewrite lookup_insert_is_Some. apply Hk in Hi.
      destruct (decide (referral_counter r + 1 = i)); [by left|by right].
  - apply rbind_Ok in Hd as (r1 & H1 & Hd). injection Hd as <- <-. unfold set_referral_fee in H1.
    apply rbind_Ok in H1 as (u & _ & H1). apply rbind_Ok in H1 as (u1 & Hle & H1).
    apply require_Ok, negb_true_iff, Z.ltb_ge in Hle. apply rbind_Ok in H1 as (cfg & Hcfg & H1).
    apply of_option_Ok in Hcfg. injection H1 as <-. eapply set_referral_ok; [done|exact Hcfg|cbn; lia].
  - apply rbind_Ok in Hd as (r1 & H1 & Hd). injection Hd as <- <-. unfold set_referral_active in H1.
    apply rbind_Ok in H1 as (u & _ & H1). apply rbind_Ok in H1 as (cfg & Hcfg & H1).
    apply of_option_Ok in Hcfg. injection H1 as <-.
    eapply set_referral_ok; [done|exact Hcfg|]. by apply Hf in Hcfg as [_ ?].
  - apply rbind_Ok in Hd as (r1 & H1 & Hd). injection Hd as <- <-. unfold set_referral_owner in H1.
    apply rbind_Ok in H1 as (u & _ & H1). apply rbind_Ok in H1 as (cfg & Hcfg & H1).
    apply of_option_Ok in Hcfg. injection H1 as <-.
    eapply set_referral_ok; [done|exact Hcfg|]. by apply Hf in Hcfg as [_ ?].
  - unfold claim_admin_fees in Hd. apply rbind_Ok in Hd as (u & _ & Hd). by eapply claim_router_ok.
  - unfold claim_referral_fees in Hd. apply rbind_Ok in Hd as (cfg & _ & Hd). by eapply claim_router_ok.
  - apply rbind_Ok in Hd as (w1 & _ & Hd). by injection Hd as <- <-.
  - apply rbind_Ok in Hd as ([[r1 w1] out] & H1 & Hd). injection Hd as <- <-. unfold execute_strategy in H1.
    apply rbind_Ok in H1 as (pl & _ & H1). by eapply st_router, run_settles.
  - apply rbind_Ok in Hd as (r1 & H1 & Hd). injection Hd as <- <-.
    apply rbind_Ok in H1 as (o & _ & H1). injection H1 as <-. by eapply settings_ok.
  - apply rbind_Ok in Hd as (r1 & H1 & Hd). injection Hd as <- <-.
    apply rbind_Ok in H1 as (o & _ & H1). injection H1 as <-. by eapply settings_ok.
Qed.

Lemma router_deployed_ok admin r : constructor admin = Ok r -> router_ok r.
Proof.
  unfold constructor. intros Hd. apply rbind_Ok in Hd as (o & _ & Hd). injection Hd as <-.
  split; cbn.
  - split; cbn; [intros k v; by rewrite lookup_empty|]. intros t. done.
  - unfold FEE_CAP. lia.
  - intros id cfg. by rewrite lookup_empty.
  - unfold referral_counter, u64_max. cbn. lia.
  - apply NoDup_nil_2.
  - intros id t [x Hx]. by rewrite lookup_empty in Hx.
Qed.

Lemma reachable_router_ok r w : router_reachable r w -> router_ok r.
Proof.
  induction 1 as [admin r w Hd _|env r w call r' w' _ IH _ Ht Hd|r w w' _ IH _].
  - by eapply router_deployed_ok.
  - by eapply dispatch_ok.
  - done.
Qed.

End Reach.

(** ** Backing, call by call *)

Section Backed.

Context `{HO : OwnableLib} {W : Type} `{HH : SwapHost W, HL : SwapLedger W} (router t : Address).
Context `{HT : !FeeToken W router t}.

Lemma same_backed (r r' : Router) (w : W) : r_buckets r' = r_buckets r ->
  Backing.backed router t r w -> Backing.backed router t r' w.
Proof.
  intros E [Hn Hb]. split; [done|]. unfold reserved, reserved_fee_balance in *. by rewrite E.
Qed.

Lemma dispatch_backed env (r : Router) (w : W) call r' w' : current_contract_address env = router ->
  router_ok r -> Backing.backed router t r w -> dispatch env r w call = Ok (r', w') ->
  Backing.backed router t r' w'.
Proof.
  intros Henv Hr Hb Hd. destruct call; cbn in Hd; unfold beside_world in Hd.
  8: { unfold claim_admin_fees in Hd. rewrite Henv in Hd. apply rbind_Ok in Hd as (u & _ & Hd).
       by eapply Backing.claim_ok. }
  8: { unfold claim_referral_fees in Hd. rewrite Henv in Hd. apply rbind_Ok in Hd as (u & _ & Hd).
       by eapply Backing.claim_ok. }
  8: { apply rbind_Ok in Hd as (w1 & Hs & Hd). injection Hd as <- <-. by eapply Backing.sweep_ok. }
  8: { apply rbind_Ok in Hd as ([[r1 w1] out] & H1 & Hd). injection Hd as <- <-.
       unfold execute_strategy in H1. apply rbind_Ok in H1 as (pl & _ & H1). by eapply Backing.run_ok. }
  4: { apply rbind_Ok in Hd as ([r1 id] & H1 & Hd). injection Hd as <- <-. unfold add_referral in H1.
       apply rbind_Ok in H1 as (u & _ & H1). apply rbind_Ok in H1 as (u1 & _ & H1).
       apply rbind_Ok in H1 as (u2 & _ & H1). injection H1 as <- <-. by eapply same_backed. }
  all: apply rbind_Ok in Hd as (r1 & H1 & Hd); injection Hd as <- <-; eapply same_backed; [|exact Hb].
  - unfold set_static_fee, Fees.set_static_fee in H1. apply rbind_Ok in H1 as (u & _ & H1).
    apply rbind_Ok in H1 as (u' & _ & H1). by injection H1 as <-.
  - unfold add_to_whitelist in H1. apply rbind_Ok in H1 as (u & _ & H1).
    case_bool_decide; by injection H1 as <-.
  - unfold remove_from_whitelist in H1. apply rbind_Ok in H1 as (u & _ & H1).
    destruct (first_index_of _ _); by injection H1 as <-.
  - unfold set_referral_fee in H1. apply rbind_Ok in H1 as (u & _ & H1).
    apply rbind_Ok in H1 as (u' & _ & H1). apply rbind_Ok in H1 as (cfg & _ & H1). by injection H1 as <-.
  - unfold set_referral_active in H1. apply rbind_Ok in H1 as (u & _ & H1).
    apply rbind_Ok in H1 as (cfg & _ & H1). by injection H1 as <-.
  - unfold set_referral_owner in H1. apply rbind_Ok in H1 as (u & _ & H1).
    apply rbind_Ok in H1 as (cfg & _ & H1). by injection H1 as <-.
  - apply rbind_Ok in H1 as (o & _ & H1). by injection H1 as <-.
  - apply rbind_Ok in H1 as (o & _ & H1). by injection H1 as <-.
Qed.

End Backed.

End RouterReach.

(** ** A concrete ledger

    Balances and allowances in maps, one pool that swaps token 1 into token 2 at par for a
    caller that authorised the pull, and a decoder that knows one payload. *)

Module SwapSample.

Import RouterError RouterStore Vault Fees Program Execute Buckets RouterInv Aggregator RouterReach.

Definition alice : Address := mkAddress 7.
Definition owner : Address := mkAddress 8.
Definition partner : Address := mkAddress 9.
Definition self : Address := mkAddress 10.
Definition token_a : Address := mkAddress 1.
Definition token_b : Address := mkAddress 2.
Definition pool : Address := mkAddress 50.

Record World : Type := mkWorld {
  wb : gmap (Address * Address) Z;
  wa : gmap (Address * Address) Z
}.

Definition held (w : World) (t a : Address) : Z := default 0 (wb w !! (t, a)).

Definition move (w : World) (t from to : Address) (z : Z) : rres World :=
  do! require ((0 <=? z) && (z <=? held w t from)) RTrap in
  if decide (from = to) then Ok w
  else Ok (mkWorld (<[(t, to) := held w t to + z]> (<[(t, from) := held w t from - z]> (wb w))) (wa w)).

(** The pool's [swap]. *)
Definition par_swap (w : World) (auth : list AuthEntry) : rres (World * HostVal) :=
  match auth with
  | [mkAuthEntry t fn [HAddress from; HAddress to; HI128 z] []] =>
      do! require (bool_decide (fn = "transfer"%string) && bool_decide (t = token_a)
                   && bool_decide (to = pool)) RTrap in
      let* w := move w token_a from pool z in
      let* w := move w token_b pool from z in
      Ok (w, HI128 z)
  | _ => Err RTrap
  end.

Definition sample_program : list Byte.byte :=
  program (byte_of 0) (byte_of 1) (byte_of 0) 1
    [mkRawOp (byte_of 2) (byte_of 0) (byte_of 2) (byte_of 0) (byte_of 1)] [].

Definition sample_payload : StrategyPayload :=
  mkStrategyPayload [9000] [token_a; token_b; pool] sample_program.

#[export] Instance sample_host : SwapHost World := {
  token_balance w t h := Ok (w, held w t h);
  token_transfer w t from to z := move w t from to z;
  token_approve auth w t o spender z exp :=
    do! require (bool_decide (o = self) && (0 <=? z)) RTrap in
    Ok (mkWorld (wb w) (<[(t, spender) := z]> (wa w)));
  invoke_contract auth w c fn args :=
    if bool_decide (c = pool) && bool_decide (fn = "swap"%string) then par_swap w auth else Err RTrap;
  ledger_sequence _ := 1;
  payload_from_xdr _ := Some sample_payload
}.

#[export] Instance sample_ledger : SwapLedger World := {
  genesis w := wa w = ∅ /\ forall t, 0 <= held w t self;
  others_act w w' := wa w' = wa w /\ forall t, held w t self <= held w' t self
}.

#[export] Instance sample_ownable : OwnableLib := {
  Ownership := option Address;
  no_owner := None;
  get_owner o := o;
  set_owner o a := match o with None => Ok (Some a) | Some _ => Err RTrap end;
  transfer_ownership env o a live := Err RTrap;
  accept_ownership env o := Err RTrap
}.

Lemma held_move w t from to z w' t' a : move w t from to z = Ok w' ->
  0 <= z /\ wa w' = wa w
  /\ held w' t' a = held w t' a
       + (if decide (t = t' /\ a = to /\ from <> to) then z else 0)
       - (if decide (t = t' /\ a = from /\ from <> to) then z else 0).
Proof.
  unfold move. intros Hm. apply rbind_Ok in Hm as (u & Hu & Hm). apply require_Ok in Hu. b2p.
  split; [done|]. destruct (decide (from = to)) as [->|Hne].
  - injection Hm as <-. split; [done|]. rewrite !decide_False by naive_solver. lia.
  - injection Hm as <-. split; [done|]. unfold held. cbn.
    destruct (decide (t = t')) as [<-|Ht].
    + destruct (decide (a = to)) as [->|Ha].
      * rewrite lookup_insert_eq, decide_True, decide_False by naive_solver. cbn. lia.
      * rewrite lookup_insert_ne by congruence. rewrite decide_False by naive_solver.
        destruct (decide (a = from)) as [->|Hf].
        -- rewrite lookup_insert_eq, decide_True by naive_solver. cbn. lia.
        -- rewrite lookup_insert_ne by congruence. rewrite decide_False by naive_solver. lia.
    + rewrite !lookup_insert_ne by congruence. rewrite !decide_False by naive_solver. lia.
Qed.

Lemma par_swap_ok w auth w' x : par_swap w auth = Ok (w', x) ->
  wa w' = wa w /\ held w token_b self <= held w' token_b self.
Proof.
  unfold par_swap. intros Hp.
  destruct auth as [|[t fn args subs] rest]; [discriminate Hp|].
  destruct args as [|[f| | | | | | | | |] [|[to| | | | | | | | |] [|[|z| | | | | | | |] [|? ?]]]];
    try discriminate Hp.
  destruct subs; [|discriminate Hp]. destruct rest; [|discriminate Hp].
  apply rbind_Ok in Hp as (u & Hu & Hp). rewrite require_Ok, !andb_true_iff, !bool_decide_eq_true in Hu.
  destruct Hu as [[-> ->] ->].
  apply rbind_Ok in Hp as (w1 & H1 & Hp). apply rbind_Ok in Hp as (w2 & H2 & Hp). injection Hp as <- <-.
  destruct (held_move _ _ _ _ _ _ token_b self H1) as (Hz & Ha1 & Hh1).
  destruct (held_move _ _ _ _ _ _ token_b self H2) as (_ & Ha2 & Hh2).
  split; [congruence|].
  rewrite Hh2, Hh1. repeat case_decide; unfold self, pool, token_a, token_b in *; naive_solver lia.
Qed.

Definition allowed (w : World) (t s : Address) : Z := default 0 (wa w !! (t, s)).

#[export] Instance sample_fee_token : FeeToken World self token_b.
Proof.
  refine {| bal := fun w a => held w token_b a; allow := fun w s => allowed w token_b s |}.
  - intros w [Ha Hh]. split; [apply Hh|]. intros s. unfold allowed. by rewrite Ha, lookup_empty.
  - intros w w' [Ha Hh] Hn. split; [apply Hh|]. intros s. unfold allowed. rewrite Ha. apply Hn.
  - intros w h w' z [= <- <-]. done.
  - intros w t' h w' z _ [= <- <-] Hn. done.
  - intros w to z w' Hm. cbn in Hm.
    destruct (held_move _ _ _ _ _ _ token_b self Hm) as (Hz & Ha & Hs).
    destruct (held_move _ _ _ _ _ _ token_b to Hm) as (_ & _ & Ht).
    split; [|split; [|split; [done|intros s; unfold allowed; by rewrite Ha]]].
    + intros Hne. rewrite Hs, Ht. rewrite !decide_False, !decide_True by naive_solver.
      rewrite !decide_False by naive_solver. lia.
    + intros ->. rewrite Hs, !decide_False by naive_solver. lia.
  - intros w from z w' Hf Hm. cbn in Hm.
    destruct (held_move _ _ _ _ _ _ token_b self Hm) as (Hz & Ha & Hs).
    split; [|intros s; unfold allowed; by rewrite Ha]. rewrite Hs. repeat case_decide; naive_solver lia.
  - intros w t' from to z w' Hne Hm Hn. cbn in Hm.
    destruct (held_move _ _ _ _ _ _ token_b self Hm) as (Hz & Ha & Hs).
    split; [rewrite Hs, !decide_False by naive_solver; lia|].
    intros s. unfold allowed. rewrite Ha. apply Hn.
  - intros auth w sp z e w' Hap. cbn in Hap. apply rbind_Ok in Hap as (u & _ & Hap). injection Hap as <-.
    split; [done|]. unfold allowed. cbn. split; [by rewrite lookup_insert_eq|].
    intros s Hs. rewrite lookup_insert_ne by congruence. done.
  - intros auth w t' o sp z e w' Hne Hap _ Hn. cbn in Hap. apply rbind_Ok in Hap as (u & _ & Hap).
    injection Hap as <-. split; [done|]. intros s. unfold allowed. cbn.
    rewrite lookup_insert_ne by congruence. apply Hn.
  - intros auth w c fn args w' v Hi s Hs. cbn in Hi.
    destruct (bool_decide (c = pool) && bool_decide (fn = "swap"%string)); [|discriminate Hi].
    apply par_swap_ok in Hi as [Ha _]. unfold allowed in *. rewrite Ha. lia.
  - intros auth w c fn args w' v Hi _ _. cbn in Hi.
    destruct (bool_decide (c = pool) && bool_decide (fn = "swap"%string)); [|discriminate Hi].
    by apply par_swap_ok in Hi as [_ Hh].
Defined.

(** ** A history: fees and a referral are set up, then alice swaps *)

Definition env_for (who : Address) : Env := mkEnv 0 self (fun a => bool_decide (a = who)).

Definition world0 : World :=
  mkWorld (<[(token_a, alice) := 10000]> (<[(token_b, pool) := 50000]> ∅)) ∅.

Definition history : list (Env * RouterCall) :=
  [ (env_for owner, CallSetStaticFee 100); (env_for owner, CallAddReferral partner 200);
    (env_for owner, CallAddToWhitelist token_b);
    (env_for alice, CallExecuteStrategy alice 10000 []) ].

Definition play (calls : list (Env * RouterCall)) : rres (Router * World) :=
  let* r := constructor owner in
  rfold (fun (st : Router * World) ec => dispatch ec.1 st.1 st.2 ec.2) (r, world0) calls.

Definition after (calls : list (Env * RouterCall)) : Router * World :=
  match play calls with Ok st => st | Err _ => (mkRouter None None None None ∅ ∅, world0) end.

(** Alice gets 9700; 100 for the protocol and 200 for the partner stay with the router. *)
Lemma after_swap : is_ok (play history) = true
  /\ held (after history).2 token_b alice = 9700 /\ held (after history).2 token_b self = 300
  /\ reserved (after history).1 token_b = 300
  /\ fee_balance (after history).1 (AdminFee token_b) = 100
  /\ fee_balance (after history).1 (ReferralFee 1 token_b) = 200.
Proof. vm_compute. done. Qed.

Lemma play_reachable calls r w : Forall (fun ec => current_contract_address ec.1 = self /\ typed_call ec.2) calls ->
  play calls = Ok (r, w) -> router_reachable self r w.
Proof.
  intros Hf Hp. unfold play in Hp. apply rbind_Ok in Hp as (r0 & Hc & Hp).
  assert (router_reachable self r0 world0) as H0.
  { eapply reach_deployed; [exact Hc|]. split; [done|]. intros t. unfold held, world0. cbn.
    rewrite !lookup_insert_ne by (unfold self, alice, pool; congruence). rewrite lookup_empty. done. }
  clear Hc. revert r0 H0 Hp. generalize world0.
  induction Hf as [|[env call] calls [He Ht] Hf IH]; intros w0 r0 H0 Hp; cbn in Hp.
  - by injection Hp as <- <-.
  - apply rbind_Ok in Hp as ([r1 w1] & Hd & Hp). eapply IH; [|exact Hp]. by eapply reach_called.
Qed.

Lemma history_reachable : router_reachable self (after history).1 (after history).2.
Proof.
  unfold after. destruct (play history) as [[r w]|e] eqn:Hp.
  - eapply play_reachable; [|exact Hp]. repeat constructor; unfold u32_max; cbn; lia.
  - pose proof (proj1 after_swap) as Hok. rewrite Hp in Hok. discriminate Hok.
Qed.

End SwapSample.

(** ** The properties *)

Module SwapProps.

Import RouterError RouterMath RouterStore Vault Fees Program ProgramSpec Hop Execute Buckets RouterInv
  Backing Aggregator RouterReach SwapSample.

Lemma decode_legal bytes assets amounts_len p : decode bytes assets amounts_len = Ok p ->
  exists s, legal assets amounts_len s /\ bytes = encode s /\ p = loaded s.
Proof.
  intros Hd. destruct (decoded_is_encoded _ _ _ _ Hd) as (s & Hw & <-).
  apply (decode_encode s assets amounts_len p Hw) in Hd as [Hl ->]. eauto.
Qed.

(** C24: The program decoder accepts exactly the serializations of legal programs (indexes inside
    their registries, distinct tokens, chained [Prev] inputs, weights between 1 and a million,
    counts within their caps), and the program it returns is the one that was packed. *)
Theorem program_decoding_exact bytes assets amounts_len p :
  decode bytes assets amounts_len = Ok p
  <-> exists s, legal assets amounts_len s /\ bytes = encode s /\ p = loaded s.
Proof.
  split; [apply decode_legal|].
  intros (s & Hl & -> & ->). apply decode_encode; [apply Hl|done].
Qed.

(** What the executor may do with instruction [o] of a decoded program. *)
Definition readable (p : Program) (assets : list Address) (amounts_len : nat) (o : Op) : Prop :=
  is_Some (assets !! idx_a o) /\ is_Some (assets !! idx_b o)
  /\ match opcode o with
     | Swap _ => distinct_assets assets (idx_b o) (idx_c o)
     | Burn | Mint => mode o = All /\ (idx_c o < amounts_len)%nat
     end
  /\ match mode o with
     | Fixed idx => (idx < amounts_len)%nat
     | Ppm idx => exists w, weight p idx = Ok w /\ 0 < w <= PPM_DENOMINATOR
     | _ => True
     end.

(** Every instruction of a decoded program decodes again, its registry reads are in range,
    its swap tokens differ, and the weight it names exists: executing a decoded program never
    reads outside the buffer or the registries. *)
Theorem decoded_instructions_are_readable bytes assets amounts_len p i :
  decode bytes assets amounts_len = Ok p -> (i < len p)%nat ->
  exists o, op p i = Ok o /\ readable p assets amounts_len o.
Proof.
  intros Hd Hi. apply decode_legal in Hd as (s & Hl & -> & ->).
  destruct Hl as (Hw & _ & _ & _ & _ & _ & _ & Hops & Hws).
  destruct (lookup_lt_is_Some_2 (s_ops s) i Hi) as (o & Ho).
  destruct (Hops i o Ho) as (code & Hcode & Hmode & Ha & Hb & Hc).
  exists (mkOp code (mode_from_u8 (u8 (raw_mode o))) (u8 (raw_a o)) (u8 (raw_b o)) (u8 (raw_c o))).
  split; [by apply op_loaded|]. split; [by apply lookup_lt_is_Some_2|].
  split; [by apply lookup_lt_is_Some_2|]. split; [exact Hc|]. cbn [mode].
  unfold legal_mode in Hmode. destruct (mode_from_u8 (u8 (raw_mode o))) as [| |idx|idx]; try done.
  destruct (lookup_lt_is_Some_2 (s_weights s) idx Hmode) as (w & Hidx). exists w.
  split; [by apply weight_loaded|]. rewrite Forall_lookup in Hws. by eapply Hws.
Qed.

Lemma decoded_instructions_are_readable_witness :
  exists p o, decode sample_program [token_a; token_b; pool] 1 = Ok p /\ op p 0 = Ok o
  /\ readable p [token_a; token_b; pool] 1 o.
Proof.
  destruct (decode sample_program [token_a; token_b; pool] 1) as [p|e] eqn:Hd;
    [|vm_compute in Hd; discriminate Hd].
  assert (0 < len p)%nat as Hlt by (vm_compute in Hd; injection Hd as <-; vm_compute; lia).
  destruct (decoded_instructions_are_readable _ _ _ p 0 Hd Hlt) as (o & Ho & Hr). eauto.
Defined.

(** In every reachable router each fee bucket is positive, the reserved total of a token is
    the sum of its admin and referral buckets, fees stay within their cap, referral ids are the
    issued ones and every referral bucket belongs to an existing referral. *)
Theorem router_invariant `{OwnableLib} {W} `{SwapHost W, SwapLedger W} (router : Address)
    (r : Router) (w : W) :
  router_reachable router r w -> router_ok r.
Proof. apply reachable_router_ok. Qed.

Lemma router_invariant_witness :
  router_reachable self (after history).1 (after history).2 /\ router_ok (after history).1.
Proof.
  split; [exact history_reachable|].
  exact (router_invariant self _ _ history_reachable).
Defined.

(** C22: For a token that keeps its documented promises, whatever pools, other tokens and callers
    do, the router's balance always covers the fees it reserved in that token. *)
Theorem reserved_fees_stay_backed `{HO : OwnableLib} {W} `{HH : SwapHost W, HL : SwapLedger W}
    (router t : Address) `{HT : !FeeToken W router t} (r : Router) (w : W) :
  router_reachable router r w -> reserved r t <= bal w router.
Proof.
  intros Hreach. enough (backed router t r w) as [_ H] by exact H.
  induction Hreach as [admin r w Hd Hg|env r w call r' w' Hreach IH Henv Ht Hd|r w w' Hreach IH Ho].
  - unfold constructor in Hd. apply rbind_Ok in Hd as (o & _ & Hd). injection Hd as <-.
    apply bal_at_genesis in Hg as [Hb Hn]. by split.
  - apply reachable_router_ok in Hreach as Hr. by eapply dispatch_backed.
  - destruct IH as [Hn Hb]. destruct (others_cannot_debit _ _ Ho Hn) as [Hb' Hn'].
    split; [done|lia].
Qed.

Lemma reserved_fees_stay_backed_witness :
  reserved (after history).1 token_b = 300
  /\ reserved (after history).1 token_b <= bal (after history).2 self.
Proof.
  split; [apply after_swap|].
  exact (reserved_fees_stay_backed self token_b _ _ history_reachable).
Defined.

(** C23: A successful strategy was authorised by its sender and ran a legal program; its last
    external effect pays the sender at least the positive minimum the program declares; it
    leaves settings alone and reserves never shrink. *)
Theorem strategy_settles `{HO : OwnableLib} {W} `{HH : SwapHost W, HL : SwapLedger W}
    (router : Address) env (r : Router) (w : W) sender total_in swap_xdr r' w' out :
  router_reachable router r w ->
  execute_strategy env r w sender total_in swap_xdr = Ok (r', w', out) ->
  exists payload, payload_from_xdr swap_xdr = Some payload
  /\ settlement env r w sender payload r' w' out.
Proof.
  intros Hreach He. unfold execute_strategy in He. apply rbind_Ok in He as (pl & Hpl & He).
  apply of_option_Ok in Hpl. exists pl. split; [done|].
  eapply run_settles; [by eapply reachable_router_ok|exact He].
Qed.

Lemma before_swap_reachable : router_reachable self (after (take 3 history)).1 (after (take 3 history)).2.
Proof.
  unfold after. destruct (play (take 3 history)) as [[r w]|e] eqn:Hp; [|vm_compute in Hp; discriminate Hp].
  eapply play_reachable; [|exact Hp]. repeat constructor; unfold u32_max; cbn; lia.
Qed.

Lemma strategy_settles_witness : exists r' w',
  execute_strategy (env_for alice) (after (take 3 history)).1 (after (take 3 history)).2 alice 10000 []
    = Ok (r', w', 9700)
  /\ settlement (env_for alice) (after (take 3 history)).1 (after (take 3 history)).2 alice
       sample_payload r' w' 9700.
Proof.
  destruct (execute_strategy (env_for alice) (after (take 3 history)).1 (after (take 3 history)).2
              alice 10000 []) as [[[r' w'] out]|e] eqn:He; [|vm_compute in He; discriminate He].
  assert (out = 9700) as -> by (vm_compute in He; by injection He as _ _ <-).
  exists r', w'. split; [done|].
  destruct (strategy_settles self _ _ _ _ _ _ _ _ _ before_swap_reachable He) as (pl & Hpl & Hs).
  injection Hpl as <-. exact Hs.
Defined.

(** C25: Fees can always be claimed: in every reachable router a claim empties its bucket and
    releases the same amount from the reserve, so it fails only if the token refuses the
    transfer, and a referral bucket always has a referral to be paid to. *)
Theorem claims_fail_only_on_transfer `{HO : OwnableLib} {W} `{HH : SwapHost W, HL : SwapLedger W}
    (router recipient token : Address) (bucket : FeeBucket) (r : Router) (w : W) :
  router_reachable router r w -> 0 < fee_balance r (FeeBucket_key bucket token) ->
  (exists r', fee_balance r' (FeeBucket_key bucket token) = 0
   /\ reserved r' token = reserved r token - fee_balance r (FeeBucket_key bucket token)
   /\ claim_fee_bucket r w router recipient [token] bucket
      = let* w' := token_transfer w token router recipient (fee_balance r (FeeBucket_key bucket token)) in
        Ok (r', w'))
  /\ match bucket with
     | BucketAdmin => True
     | BucketReferral id => exists cfg, load_referral r id = Ok cfg
     end.
Proof.
  intros Hreach Hpos. apply reachable_router_ok in Hreach as Hr. split.
  - assert (bucket_token (FeeBucket_key bucket token) = Ok token) as Hkey by (by destruct bucket).
    destruct (take_fee_bucket_total r _ token (ro_buckets r Hr) Hkey) as (r' & Htake).
    exists r'. destruct (take_fee_bucket_ok _ _ _ _ _ (ro_buckets r Hr) Hkey Htake) as (_ & _ & _ & Hres).
    split; [by eapply take_empties|]. split; [rewrite Hres, decide_True by done; lia|].
    unfold claim_fee_bucket. cbn [rfold]. rewrite Htake. cbn [rbind].
    rewrite (proj2 (Z.ltb_lt _ _) Hpos). destruct (token_transfer _ _ _ _ _); done.
  - destruct bucket as [|id]; [done|]. unfold fee_balance in Hpos. cbn in Hpos.
    destruct (r_buckets r !! ReferralFee id token) as [x|] eqn:Hx; [|cbn in Hpos; lia].
    destruct (ro_claimable r Hr id token) as (cfg & Hcfg); [by rewrite Hx|].
    exists cfg. unfold load_referral. by rewrite Hcfg.
Qed.

Lemma claims_fail_only_on_transfer_witness :
  0 < fee_balance (after history).1 (ReferralFee 1 token_b)
  /\ exists cfg, load_referral (after history).1 1 = Ok cfg.
Proof.
  assert (0 < fee_balance (after history).1 (ReferralFee 1 token_b)) as Hpos
    by (destruct after_swap as (_ & _ & _ & _ & _ & ->); lia).
  split; [exact Hpos|].
  exact (proj2 (claims_fail_only_on_transfer self partner token_b (BucketReferral 1) _ _
                  history_reachable Hpos)).
Defined.

(** The Soroswap quote is the largest output the pair accepts: net of a fee of three per
    mille rounded up, it keeps the product of the reserves, and one unit more would not. *)
Theorem soroswap_quote_exact amount reserve_in reserve_out out :
  SoroswapVenue.soroswap_amount_out amount reserve_in reserve_out = Ok out -> 0 < out ->
  let net := amount - ceil_div (amount * 3) 1000 in
  reserve_in * reserve_out <= (reserve_in + net) * (reserve_out - out)
  /\ (reserve_in + net) * (reserve_out - (out + 1)) < reserve_in * reserve_out
  /\ out < reserve_out.
Proof.
  intros Hq Hout net. unfold SoroswapVenue.soroswap_amount_out in Hq.
  destruct (_ || _ || _) eqn:Hz; [injection Hq as <-; lia|]. b2p.
  apply rbind_Ok in Hq as (fee & Hfee & Hq). apply rbind_Ok in Hq as (net' & Hnet & Hq).
  apply of_option_Ok, i128_checked_Some in Hnet as [-> Hnet].
  assert (fee = ceil_div (amount * 3) 1000) as ->.
  { unfold SoroswapVenue.soroswap_fee in Hfee. rewrite (proj2 (Z.leb_gt amount 0)) in Hfee by lia.
    apply rbind_Ok in Hfee as (sc & Hsc & Hfee). apply rbind_Ok in Hfee as (bi & Hbi & Hfee).
    apply of_option_Ok, i128_checked_Some in Hsc as [-> _]. apply of_option_Ok, i128_checked_Some in Hbi as [-> _].
    injection Hfee as <-. unfold SoroswapVenue.FEE_NUM, SoroswapVenue.FEE_DEN.
    rewrite Z.quot_div_nonneg by lia. unfold ceil_div.
    Z.to_euclidean_division_equations. lia. }
  fold net in Hq, Hnet. destruct (Z.leb_spec net 0) as [Hle|Hpos]; [injection Hq as <-; lia|].
  apply rbind_Ok in Hq as (den & Hden & Hq). apply of_option_Ok, i128_checked_Some in Hden as [-> Hden].
  assert (out = floor_div (net * reserve_out) (reserve_in + net)) as ->.
  { unfold lift_shared in Hq. destruct (FpCore.mul_div_floor _ _ _) as [q|[]] eqn:Hm; try discriminate Hq.
    injection Hq as <-. by apply FpCore.mul_div_floor_Ok in Hm as (_ & Hm & _). }
  pose proof (floor_div_bounds (net * reserve_out) (reserve_in + net) ltac:(lia)). nia.
Qed.

Lemma soroswap_quote_exact_witness :
  SoroswapVenue.soroswap_amount_out 1000 500000 800000 = Ok 1592
  /\ 500000 * 800000 <= (500000 + (1000 - ceil_div (1000 * 3) 1000)) * (800000 - 1592).
Proof.
  assert (SoroswapVenue.soroswap_amount_out 1000 500000 800000 = Ok 1592) as Hq
    by (vm_compute; reflexivity).
  split; [exact Hq|]. exact (proj1 (soroswap_quote_exact 1000 500000 800000 1592 Hq ltac:(lia))).
Defined.

End SwapProps.
