(* ===== verification/PoolMoves.v ===== *)
(** * The pool's batches as moves of shares

    [moved] is what the controller relies on from a position batch: each market once,
    the backing moved by what the results report, the reported indexes current, and
    every other market untouched. *)

From S2P Require Import Prelude Errors FpCore Fp PoolTypes PoolCache PoolInterest PoolOps PoolSafety PoolContract PoolSolvency ControllerTypes PoolView.
From stdpp Require Import base numbers list gmap.
From Stdlib Require Import ZArith Lia Bool.

Open Scope Z_scope.

Definition nothing (_ : HubAssetKey) : Z := 0.

(** One leg: shares before and after, the index and decimals it came back with. *)
Record Leg : Type := mkLeg {
  leg_key : HubAssetKey;
  leg_old : Z;
  leg_new : Z;
  leg_index : MarketIndexRaw;
  leg_decimals : Z
}.

Definition leg_of (a : PoolAction) (m : PoolPositionMutation) : Leg :=
  mkLeg (pa_hub_asset a) (scaled_amount (pa_position a)) (scaled_amount (pm_position m))
    (pm_market_index m) (pm_asset_decimals m).

Definition moved_by (legs : list Leg) (h : HubAssetKey) : Z :=
  zsum (fun l => at_key (leg_key l) h (leg_new l - leg_old l)) legs.

Record moved (env : Env) (p p' : Pool) (legs : list Leg) (ds db : HubAssetKey -> Z) : Prop := {
  mv_once : NoDup (map leg_key legs);
  mv_backed : forall fs fb, backed p fs fb ->
    backed p' (fun h => fs h + ds h) (fun h => fb h + db h);
  mv_reported : Forall (fun l => 0 <= leg_new l
    /\ reported env p' (leg_key l) (leg_index l) (leg_decimals l)) legs;
  mv_other : forall h, h ∉ map leg_key legs ->
    pool_params p' !! h = pool_params p !! h /\ pool_state p' !! h = pool_state p !! h;
  mv_owner : pool_owner p' = pool_owner p
}.

Definition shrinks (legs : list Leg) : Prop := Forall (fun l => leg_new l <= leg_old l) legs.

Section Batch.

Context {E : Type} (leg : Pool -> E -> res (PoolPositionMutation * MarketStateSnapshot * Pool)).
Context (env : Env) (act : E -> PoolAction) (ds db : E -> PoolPositionMutation -> Z).
Context (Heff : forall w e r s w', pool_inv w -> leg w e = Ok (r, s, w') ->
  exists cap dc out, leg_effect cap w (pa_hub_asset (act e)) w' (ds e r) (db e r) dc out).
Context (Hnew : forall w e r s w', pool_inv w -> leg w e = Ok (r, s, w') ->
  0 <= scaled_amount (pm_position r)).
Context (Hrep : forall w e r s w', pool_inv w -> leg w e = Ok (r, s, w') ->
  reported env w' (pa_hub_asset (act e)) (pm_market_index r) (pm_asset_decimals r)).
Context (Hkey : forall w e r s w', leg w e = Ok (r, s, w') -> snap_hub_asset s = pa_hub_asset (act e)).

Definition legs_of (l : list (E * PoolPositionMutation)) : list Leg :=
  map (fun p => leg_of (act p.1) p.2) l.

Lemma keys_of_legs es rs :
  length rs = length es -> map leg_key (legs_of (zip es rs)) = map (fun e => pa_hub_asset (act e)) es.
Proof using.
  revert rs. induction es as [|e es IH]; intros [|r rs] Hl; simpl in *; try done.
  f_equal. apply IH. lia.
Qed.

Lemma batch_moved w entries rs w' :
  pool_inv w -> Ops.run_batch w entries true leg = Ok (rs, w') ->
  length rs = length entries
  /\ moved env w w' (legs_of (zip entries rs))
       (pending (fun e => pa_hub_asset (act e)) ds (zip entries rs))
       (pending (fun e => pa_hub_asset (act e)) db (zip entries rs)).
Proof using Heff Hnew Hrep Hkey.
  intros Hw H. pose proof (run_batch_unique leg _ Hkey _ _ _ _ H) as [Hnd Hlen].
  apply run_batch_chain in H as (w1 & Hc & Hp & Hs & Ho). split; [done|].
  assert (forall h, pool_view env w' h = pool_view env w1 h) as Hv
    by (intros h; apply pool_view_same; congruence).
  split.
  - by rewrite keys_of_legs.
  - intros fs fb Hb. eapply backed_same; [exact Hp|exact Hs|].
    by eapply (chain_backed leg (fun e => pa_hub_asset (act e)) ds db).
  - pose proof (chain_reported leg (fun e => pa_hub_asset (act e)) ds db Heff env
      pm_market_index pm_asset_decimals Hrep _ _ _ _ Hw Hc Hnd) as Hr.
    pose proof (chain_each leg (fun e => pa_hub_asset (act e)) ds db Heff
      (fun _ r => 0 <= scaled_amount (pm_position r)) Hnew _ _ _ _ Hw Hc) as Hn.
    unfold legs_of. apply Forall_map, Forall_forall. intros p Hin. simpl.
    rewrite Forall_forall in Hr, Hn. destruct (Hr p Hin) as [Rv Rd].
    split; [by apply (Hn p)|]. split; [by rewrite Hv|done].
  - intros h. rewrite keys_of_legs by done. intros Hnin.
    destruct (chain_other leg (fun e => pa_hub_asset (act e)) ds db Heff _ _ _ _ _ Hw Hc Hnin).
    split; congruence.
  - rewrite Ho. by eapply (chain_owner leg (fun e => pa_hub_asset (act e)) ds db).
Qed.

Context (Hexit : forall w e r s w', pool_inv w -> leg w e = Ok (r, s, w') ->
  scaled_amount (pm_position r) <= scaled_amount (pa_position (act e))).

Lemma batch_shrinks w entries rs w' :
  pool_inv w -> Ops.run_batch w entries true leg = Ok (rs, w') ->
  shrinks (legs_of (zip entries rs)).
Proof using Heff Hexit.
  intros Hw H. apply run_batch_chain in H as (w1 & Hc & _).
  unfold shrinks, legs_of. apply Forall_map.
  exact (chain_each leg (fun e => pa_hub_asset (act e)) ds db Heff
    (fun e r => scaled_amount (pm_position r) <= scaled_amount (pa_position (act e)))
    Hexit _ _ _ _ Hw Hc).
Qed.

End Batch.

Lemma moved_ext env p p' legs ds db ds' db' :
  (forall h, ds' h = ds h) -> (forall h, db' h = db h) ->
  moved env p p' legs ds db -> moved env p p' legs ds' db'.
Proof.
  intros Hs Hd [H1 H2 H3 H4 H5]. split; try done. intros fs fb Hb.
  eapply backed_ext; [| |by apply H2]; intros h; simpl; by rewrite ?Hs, ?Hd.
Qed.

Lemma pending_moved_by {E} (act : E -> PoolAction) l h :
  pending (fun e => pa_hub_asset (act e))
    (fun e r => scaled_amount (pm_position r) - scaled_amount (pa_position (act e))) l h
  = moved_by (legs_of act l) h.
Proof.
  unfold pending, moved_by, legs_of. induction l as [|[e r] l IH]; simpl; [done|]. by rewrite <- IH.
Qed.

Lemma pending_zero {E R} (key : E -> HubAssetKey) (l : list (E * R)) h :
  pending key (fun _ _ => 0) l h = 0.
Proof.
  unfold pending. apply zsum_zero. intros x _. unfold at_key. by destruct (decide _).
Qed.

(** ** The four batches *)

Section Calls.

Context (env : Env) (w : Pool) (Hw : pool_inv w).

Lemma supply_moved entries rs w' :
  LiquidityPool.supply env w entries = Ok (rs, w') ->
  length rs = length entries
  /\ moved env w w' (legs_of se_action (zip entries rs))
       (moved_by (legs_of se_action (zip entries rs))) nothing.
Proof using Hw.
  intros H. apply LiquidityPool.only_owner_Ok in H as [H _].
  eapply (batch_moved _ env se_action
    (fun e r => scaled_amount (pm_position r) - scaled_amount (pa_position (se_action e)))
    (fun _ _ => 0)) in H as [Hl Hm]; [|..|done].
  - split; [done|]. eapply moved_ext; [| |exact Hm]; intros h;
      [by rewrite pending_moved_by|by rewrite pending_zero].
  - intros w0 e r s w1 Hw0 He. apply supply_effect in He as (He & _); [|done]. eauto.
  - intros w0 e r s w1 Hw0 He. by apply supply_effect in He as (_ & ? & _).
  - intros w0 e r s w1 Hw0 He. by eapply supply_reported.
  - intros w0 e r s w1 He. by eapply supply_key.
Qed.

Lemma borrow_moved to entries rs w' :
  LiquidityPool.borrow env w to entries = Ok (rs, w') ->
  length rs = length entries
  /\ moved env w w' (legs_of be_action (zip entries rs)) nothing
       (moved_by (legs_of be_action (zip entries rs))).
Proof using Hw.
  intros H. apply LiquidityPool.only_owner_Ok in H as [H _].
  eapply (batch_moved _ env be_action (fun _ _ => 0)
    (fun e r => scaled_amount (pm_position r) - scaled_amount (pa_position (be_action e))))
    in H as [Hl Hm]; [|..|done].
  - split; [done|]. eapply moved_ext; [| |exact Hm]; intros h;
      [by rewrite pending_zero|by rewrite pending_moved_by].
  - intros w0 e r s w1 Hw0 He. apply borrow_effect in He as (He & _); [|done]. eauto.
  - intros w0 e r s w1 Hw0 He. by apply borrow_effect in He as (_ & ? & _).
  - intros w0 e r s w1 Hw0 He. by eapply borrow_reported.
  - intros w0 e r s w1 He. by eapply borrow_key.
Qed.

Lemma withdraw_moved to liq entries rs w' :
  LiquidityPool.withdraw env w to liq entries = Ok (rs, w') ->
  length rs = length entries
  /\ moved env w w' (legs_of we_action (zip entries rs))
       (moved_by (legs_of we_action (zip entries rs))) nothing
  /\ shrinks (legs_of we_action (zip entries rs)).
Proof using Hw.
  intros H. apply LiquidityPool.only_owner_Ok in H as [H _].
  assert (forall w0 e r s w1, pool_inv w0 ->
    Ops.Withdraw.apply env to liq w0 e = Ok (r, s, w1) ->
    exists cap dc out, leg_effect cap w0 (pa_hub_asset (we_action e)) w1
      (scaled_amount (pm_position r) - scaled_amount (pa_position (we_action e))) 0 dc out) as Heff.
  { intros w0 e r s w1 Hw0 He. apply withdraw_effect in He as (net & He & _); [|done]. eauto. }
  pose proof H as Hsh. eapply batch_shrinks in Hsh; [|exact Heff| |done].
  - eapply (batch_moved _ env we_action
      (fun e r => scaled_amount (pm_position r) - scaled_amount (pa_position (we_action e)))
      (fun _ _ => 0) Heff) in H as [Hl Hm]; [|..|done].
    + split_and!; [done| |done]. eapply moved_ext; [| |exact Hm]; intros h;
        [by rewrite pending_moved_by|by rewrite pending_zero].
    + intros w0 e r s w1 Hw0 He. by apply withdraw_effect in He as (net & _ & [? _] & _).
    + intros w0 e r s w1 Hw0 He. by eapply withdraw_reported.
    + intros w0 e r s w1 He. by eapply withdraw_key.
  - intros w0 e r s w1 Hw0 He. by apply withdraw_effect in He as (net & _ & [_ ?] & _).
Qed.

Lemma repay_moved payer actions rs w' :
  LiquidityPool.repay env w payer actions = Ok (rs, w') ->
  length rs = length actions
  /\ moved env w w' (legs_of id (zip actions rs)) nothing (moved_by (legs_of id (zip actions rs)))
  /\ shrinks (legs_of id (zip actions rs)).
Proof using Hw.
  intros H. apply LiquidityPool.only_owner_Ok in H as [H _].
  assert (forall w0 e r s w1, pool_inv w0 ->
    Ops.Repay.apply env payer w0 e = Ok (r, s, w1) ->
    exists cap dc out, leg_effect cap w0 (pa_hub_asset (id e)) w1 0
      (scaled_amount (pm_position r) - scaled_amount (pa_position (id e))) dc out) as Heff.
  { intros w0 e r s w1 Hw0 He. apply repay_effect in He as (He & _); [|done]. eauto. }
  pose proof H as Hsh. eapply batch_shrinks in Hsh; [|exact Heff| |done].
  - eapply (batch_moved _ env id (fun _ _ => 0)
      (fun e r => scaled_amount (pm_position r) - scaled_amount (pa_position (id e))) Heff)
      in H as [Hl Hm]; [|..|done].
    + split_and!; [done| |done]. eapply moved_ext; [| |exact Hm]; intros h;
        [by rewrite pending_zero|by rewrite pending_moved_by].
    + intros w0 e r s w1 Hw0 He. by apply repay_effect in He as (_ & [? _] & _).
    + intros w0 e r s w1 Hw0 He. by eapply repay_reported.
    + intros w0 e r s w1 He. by eapply repay_key.
  - intros w0 e r s w1 Hw0 He. by apply repay_effect in He as (_ & [_ ?] & _).
Qed.

(** Seizure takes the named shares off the books; legs may repeat a market. *)
Definition seized (side : AccountPositionType) (entries : list PoolSeizeEntry) (h : HubAssetKey) : Z :=
  zsum (fun e => at_key (sz_hub_asset e) h
    (if bool_decide (sz_side e = side) then - scaled_amount (sz_position e) else 0)) entries.

Lemma seize_chain_backed es rs w1 fs fb w0 :
  chain (Ops.Seize.apply env) w0 es rs w1 -> backed w0 fs fb ->
  backed w1 (fun h => fs h + seized Deposit es h) (fun h => fb h + seized PoolTypes.Borrow es h).
Proof using.
  intros Hc. revert fs fb. induction Hc as [w0|w0 e es [] s w2 rs w1 Hl Hc IH]; intros fs fb Hb.
  - eapply backed_ext; [| |exact Hb]; intros; unfold seized; simpl; lia.
  - destruct (sz_side e) eqn:Hside.
    + pose proof Hl as Hl'. apply seize_deposit_effect in Hl' as [He _]; [|apply Hb|done].
      pose proof (IH _ _ (backed_leg _ _ _ _ _ _ _ _ _ _ Hb He)) as Hb'.
      eapply backed_ext; [| |exact Hb']; intros h; unfold seized; simpl; rewrite Hside;
        unfold at_key; simpl; destruct (decide _); lia.
    + pose proof Hl as Hl'.
      apply seize_borrow_effect in Hl' as (k & _ & _ & He & _); [|apply Hb|done].
      pose proof (IH _ _ (backed_leg _ _ _ _ _ _ _ _ _ _ Hb He)) as Hb'.
      eapply backed_ext; [| |exact Hb']; intros h; unfold seized; simpl; rewrite Hside;
        unfold at_key; simpl; destruct (decide _); lia.
Qed.

Lemma seize_backed entries w' fs fb :
  LiquidityPool.seize_positions env w entries = Ok w' -> backed w fs fb ->
  backed w' (fun h => fs h + seized Deposit entries h)
    (fun h => fb h + seized PoolTypes.Borrow entries h).
Proof using.
  intros H Hb. apply LiquidityPool.only_owner_Ok in H as [H _].
  apply rbind_Ok in H as ([rs w1] & H & Hr). injection Hr as <-.
  apply run_batch_chain in H as (w2 & Hc & Hp & Hs & _).
  eapply backed_same; [exact Hp|exact Hs|]. by eapply seize_chain_backed.
Qed.

(** Calls that move no shares. *)
Lemma keep_backed cap w' h dc out fs fb :
  leg_effect cap w h w' 0 0 dc out -> backed w fs fb -> backed w' fs fb.
Proof using.
  intros He Hb. pose proof (backed_leg _ _ _ _ _ _ _ _ _ _ Hb He) as Hb'.
  eapply backed_ext; [| |exact Hb']; intros k; unfold at_key; destruct (decide _); lia.
Qed.

End Calls.

(** ** Calls that move no shares *)

Lemma accrue_backed env w hs w' fs fb :
  LiquidityPool.update_indexes env w hs = Ok w' -> backed w fs fb -> backed w' fs fb.
Proof.
  intros H Hb. apply LiquidityPool.only_owner_Ok in H as [H _]. revert H.
  apply (rfold_inv (fun x => backed x fs fb)); [|done].
  intros w1 h w2 _ H1 H2. apply accrue_one_effect in H2; [|apply H1].
  by eapply keep_backed.
Qed.

Lemma recapitalize_backed env w h payer a m w' fs fb :
  LiquidityPool.recapitalize env w h payer a = Ok (m, w') -> backed w fs fb -> backed w' fs fb.
Proof.
  intros H Hb. apply LiquidityPool.only_owner_Ok in H as [H _].
  apply recapitalize_effect in H as [He _]; [|apply Hb]. by eapply keep_backed.
Qed.

Lemma claim_backed env w h m w' fs fb :
  LiquidityPool.claim_revenue env w h = Ok (m, w') -> backed w fs fb -> backed w' fs fb.
Proof.
  intros H Hb. apply LiquidityPool.only_owner_Ok in H as [H _].
  apply revenue_effect in H as [He _]; [|apply Hb]. by eapply keep_backed.
Qed.

Lemma create_backed env w hub params w' fs fb :
  raw_params_typed params -> LiquidityPool.create_market env w hub params = Ok w' ->
  backed w fs fb -> backed w' fs fb.
Proof.
  intros Hp H [Hw Ht]. apply LiquidityPool.only_owner_Ok in H as [H _].
  split; [by eapply create_evolves|]. unfold Ops.Market.create in H.
  apply rbind_Ok in H as (u & _ & H). apply rbind_Ok in H as (u2 & Hex & H).
  apply rbind_Ok in H as (now & _ & H). injection H as <-. apply require_Ok in Hex.
  intros h. specialize (Ht h). unfold market_of in *. simpl.
  destruct (decide (mkHubAssetKey hub (rp_asset_id params) = h)) as [<-|Hne].
  - rewrite !lookup_insert_eq. unfold Storage.market_exists in Hex.
    destruct (pool_params w !! _); [done|]. unfold user_shares. simpl. lia.
  - by rewrite !lookup_insert_ne.
Qed.

Lemma update_params_backed env w h m w' fs fb :
  0 <= irm_reserve_factor m <= u32_max -> 0 <= irm_flashloan_fee m <= u32_max ->
  LiquidityPool.update_params env w h m = Ok w' -> backed w fs fb -> backed w' fs fb.
Proof.
  intros Hrf Hfee H [Hw Ht]. apply LiquidityPool.only_owner_Ok in H as [H _].
  split; [by eapply replace_rate_model_evolves|].
  unfold Ops.Market.replace_rate_model, Ops.renewed_market in H.
  apply rbind_Ok in H as (c & Hl & H). cbn [Cache.commit] in H.
  apply rbind_Ok in H as ([ps w1] & Hps & H). apply rbind_Ok in H as (u & _ & H).
  unfold Storage.write_rate_model in Hps. apply rbind_Ok in Hps as (p & _ & Hps).
  injection Hps as <- <-. injection H as <-.
  destruct (synced_market_Ok _ _ _ _ Hw Hl)
    as (c0 & Hm & _ & _ & _ & Hu & Hb & _ & _ & _ & Hh).
  intros h'. specialize (Ht h'). simpl in *. rewrite Hh.
  destruct (decide (h = h')) as [<-|Hne].
  - rewrite Hm in Ht. unfold market_of. simpl. rewrite !lookup_insert_eq.
    unfold user_shares in *. simpl. lia.
  - unfold market_of in *. simpl. by rewrite !lookup_insert_ne.
Qed.

Lemma strategy_backed env w r a charge m w' fs fb :
  LiquidityPool.create_strategy env w r a charge = Ok (m, w') -> backed w fs fb ->
  backed w' fs (fun h => fb h + at_key (pa_hub_asset a) h
                           (scaled_amount (sm_position m) - scaled_amount (pa_position a))).
Proof.
  intros H Hb. apply LiquidityPool.only_owner_Ok in H as [H _].
  apply strategy_effect in H as [He _]; [|apply Hb].
  eapply backed_ext; [| |exact (backed_leg _ _ _ _ _ _ _ _ _ _ Hb He)]; intros k; [|done].
  unfold at_key. destruct (decide _); lia.
Qed.

(** A strategy borrow as a batch of one leg. *)
Definition strategy_leg (a : PoolAction) (m : PoolStrategyMutation) : Leg :=
  mkLeg (pa_hub_asset a) (scaled_amount (pa_position a)) (scaled_amount (sm_position m))
    (sm_market_index m) (sm_asset_decimals m).

Lemma strategy_moved env w r a charge m w' :
  pool_inv w -> LiquidityPool.create_strategy env w r a charge = Ok (m, w') ->
  moved env w w' [strategy_leg a m] nothing (moved_by [strategy_leg a m]).
Proof.
  intros Hw H. pose proof H as H0. apply LiquidityPool.only_owner_Ok in H as [H _].
  pose proof (strategy_reported _ _ Hw _ _ _ _ _ H) as Hr.
  apply strategy_effect in H as (He & Hn & _); [|done]. split; simpl.
  - apply NoDup_singleton.
  - intros fs fb Hb. eapply backed_ext; [| |exact (strategy_backed _ _ _ _ _ _ _ _ _ H0 Hb)];
      intros h; unfold nothing, moved_by; simpl; lia.
  - constructor; [by split|constructor].
  - intros h Hh. apply not_elem_of_cons in Hh as [Hh _].
    by rewrite (le_params _ _ _ _ _ _ _ _ He), (le_state _ _ _ _ _ _ _ _ He).
  - exact (le_owner _ _ _ _ _ _ _ _ He).
Qed.

Lemma net_settle_backed env w e m w' fs fb :
  LiquidityPool.net_settle env w e = Ok (m, w') -> backed w fs fb ->
  backed w'
    (fun h => fs h + at_key (ns_hub_asset e) h
       (scaled_amount (nr_supply_position m) - scaled_amount (ns_supply_position e)))
    (fun h => fb h + at_key (ns_hub_asset e) h
       (scaled_amount (nr_debt_position m) - scaled_amount (ns_debt_position e))).
Proof.
  intros H Hb. apply LiquidityPool.only_owner_Ok in H as [H _].
  apply rbind_Ok in H as ([[rs s] w1] & H & Hr). injection Hr as <- <-.
  apply net_settle_effect in H as [He _]; [|apply Hb].
  eapply backed_same; [done|done|]. exact (backed_leg _ _ _ _ _ _ _ _ _ _ Hb He).
Qed.

Lemma flash_backed {W} `{NoReentry W} env p w h i r a d fee p' w' fs fb :
  LiquidityPool.flash_loan env p w h i r a d = Ok (fee, p', w') ->
  backed p fs fb -> backed p' fs fb.
Proof.
  intros H1 Hb. apply LiquidityPool.only_owner_Ok in H1 as [H1 _].
  apply Flash.flash_effect in H1 as [He _]; [|apply Hb]. by eapply keep_backed.
Qed.
