(* ===== verification/PositionNft.v ===== *)
(** * The position NFT (contracts/position-nft/src/contract.rs)

    One token per controller account; the token id is the account id.  The token standard
    itself is OpenZeppelin's library and is not part of the repository: [NftLib] is its
    interface over an abstract token state [N], [NftLaws] what its documentation promises
    and the contract relies on.

    [PositionNft.] holds the contract, [NftUri.] the rendering of [token_uri] into its
    fixed buffers, [NftReach.] the contract's lifetime.  The theorems at the end show that
    the ids count up from 1 under the controller's control only, which is what the
    controller's model assumes of its NFT ([SequentialIds] of [CtlState]), and that
    [token_uri] renders the id exactly and never leaves its buffer. *)

From S2P Require Import Prelude Errors FpCore PoolTypes PoolCache.
From stdpp Require Import base numbers list gmap strings.
From Stdlib Require Import ZArith Lia Bool.

Open Scope Z_scope.

(** Errors of the library ([NonExistentToken] and the rest, by code), and host traps. *)
Inductive NftFailure : Type :=
| NonExistentToken
| NftLibError (code : Z)
| NftTrap.

Abbreviation nres A := (result NftFailure A).

(** The calls [contract.rs] makes into [stellar_tokens::non_fungible].  Strings are their
    bytes.  [nf_stock] are the calls of the stock interface the contract inherits
    (transfers, approvals). *)
Class NftLib (N : Type) : Type := {
  nf_empty : N;
  nf_stock : Type;
  set_metadata : N -> list Z -> list Z -> list Z -> nres N;
  increment_token_id : N -> Z -> nres (Z * N);
  sequential_mint : N -> Address -> nres (Z * N);
  owner_of : N -> Z -> nres Address;
  base_update : N -> option Address -> option Address -> Z -> nres N;
  remove_from_enumerations : N -> Address -> Z -> nres N;
  base_uri : N -> list Z;
  run_stock : Env -> N -> nf_stock -> nres N
}.

(** [MAX_BASE_URI_LEN] *)
Definition MAX_BASE_URI_LEN : nat := 200.

(** What the library documents: a counter, an owner per live token, a bounded base URI. *)
Class NftLaws (N : Type) `{NftLib N} : Type := {
  nf_next : N -> Z;
  nf_owners : N -> gmap Z Address;
  empty_next : nf_next nf_empty = 0;
  empty_owners : nf_owners nf_empty = ∅;
  metadata_law n uri name symbol n' : set_metadata n uri name symbol = Ok n' ->
    nf_next n' = nf_next n /\ nf_owners n' = nf_owners n
    /\ base_uri n' = uri /\ (length uri <= MAX_BASE_URI_LEN)%nat;
  increment_law n k id n' : increment_token_id n k = Ok (id, n') ->
    id = nf_next n /\ nf_next n' = nf_next n + k /\ nf_next n + k <= u32_max
    /\ nf_owners n' = nf_owners n /\ base_uri n' = base_uri n;
  mint_law n to id n' : sequential_mint n to = Ok (id, n') ->
    id = nf_next n /\ nf_next n' = id + 1 /\ id + 1 <= u32_max
    /\ nf_owners n' = <[id := to]> (nf_owners n) /\ base_uri n' = base_uri n;
  owner_law n id a : owner_of n id = Ok a <-> nf_owners n !! id = Some a;
  missing_law n id : nf_owners n !! id = None -> owner_of n id = Err NonExistentToken;
  update_law n from id n' : base_update n (Some from) None id = Ok n' ->
    nf_next n' = nf_next n /\ nf_owners n' = delete id (nf_owners n) /\ base_uri n' = base_uri n;
  enumeration_law n o id n' : remove_from_enumerations n o id = Ok n' ->
    nf_next n' = nf_next n /\ nf_owners n' = nf_owners n /\ base_uri n' = base_uri n;
  stock_law env n c n' : run_stock env n c = Ok n' ->
    nf_next n' = nf_next n /\ dom (nf_owners n') = dom (nf_owners n) /\ base_uri n' = base_uri n
}.

Module PositionNft.

(** Instance storage ([DataKey::Controller]), the library's entries, and the burn events. *)
Record Contract (N : Type) : Type := mkContract {
  pn_controller : option Address;
  pn_tokens : N;
  pn_burned : list (Address * Z)
}.
Arguments mkContract {N}.
Arguments pn_controller {N}.
Arguments pn_tokens {N}.
Arguments pn_burned {N}.

Section Contract.

Context {N : Type} `{NftLib N}.

Definition with_tokens (c : Contract N) (n : N) : Contract N :=
  mkContract (pn_controller c) n (pn_burned c).

Definition controller (c : Contract N) : nres Address := of_option NftTrap (pn_controller c).

(** [controller(e).require_auth()] *)
Definition require_controller (env : Env) (c : Contract N) : nres unit :=
  let* a := controller c in
  require (authorized env a) NftTrap.

Definition emit_burn (c : Contract N) (owner : Address) (token_id : Z) : Contract N :=
  mkContract (pn_controller c) (pn_tokens c) (pn_burned c ++ [(owner, token_id)]).

Definition constructor (controller : Address) (uri name symbol : list Z) : nres (Contract N) :=
  let* n := set_metadata nf_empty uri name symbol in
  let* (_, n) := increment_token_id n 1 in
  Ok (mkContract (Some controller) n []).

Definition mint (env : Env) (c : Contract N) (to : Address) : nres (Z * Contract N) :=
  do! require_controller env c in
  let* (token_id, n) := sequential_mint (pn_tokens c) to in
  Ok (token_id, with_tokens c n).

Definition burn (env : Env) (c : Contract N) (token_id : Z) : nres (Contract N) :=
  do! require_controller env c in
  let* owner := owner_of (pn_tokens c) token_id in
  let* n := base_update (pn_tokens c) (Some owner) None token_id in
  let c := emit_burn (with_tokens c n) owner token_id in
  let* n := remove_from_enumerations (pn_tokens c) owner token_id in
  Ok (with_tokens c n).

Definition renew (c : Contract N) (token_id : Z) : nres (Contract N) :=
  let* _ := owner_of (pn_tokens c) token_id in
  Ok c.

(** ** [token_uri] *)

Definition ascii_bytes (s : string) : list Z :=
  map (fun a => Z.of_N (Ascii.N_of_ascii a)) (String.list_ascii_of_string s).

Definition TOKEN_URI_SUFFIX : list Z := ascii_bytes "?isStatic=true&chain=STELLAR"%string.

(** [buf[i] = b] on a fixed array. *)
Definition put (buf : list Z) (i : nat) (b : Z) : nres (list Z) :=
  if (i <? length buf)%nat then Ok (<[i := b]> buf) else Err NftTrap.

(** [base.copy_into_slice(&mut buf[..base_len])] *)
Definition copy_into (base buf : list Z) : nres (list Z) :=
  if (length base <=? length buf)%nat then Ok (base ++ drop (length base) buf) else Err NftTrap.

(** [while n > 0]: each turn fills a slot of [digits], so a turn past the array traps and
    [fuel] of one more than its length is never used up. *)
Fixpoint push_digits (fuel : nat) (digits : list Z) (count : nat) (n : Z)
    : nres (list Z * nat) :=
  if 0 <? n then
    match fuel with
    | O => Err NftTrap
    | S fuel =>
        let* digits := put digits count (48 + n mod 10) in
        push_digits fuel digits (S count) (n / 10)
    end
  else Ok (digits, count).

(** [while count > 0] *)
Fixpoint copy_digits (digits : list Z) (count : nat) (buf : list Z) (len : nat)
    : nres (list Z * nat) :=
  match count with
  | O => Ok (buf, len)
  | S count =>
      let* d := of_option NftTrap (digits !! count) in
      let* buf := put buf len d in
      copy_digits digits count buf (S len)
  end.

Definition push_byte (st : list Z * nat) (b : Z) : nres (list Z * nat) :=
  let* buf := put st.1 st.2 b in
  Ok (buf, S st.2).

Definition token_uri (c : Contract N) (token_id : Z) : nres (list Z) :=
  let* _ := owner_of (pn_tokens c) token_id in
  let base := base_uri (pn_tokens c) in
  let base_len := length base in
  let* buf := copy_into base (replicate 256 0) in
  let* (digits, count) := push_digits 11 (replicate 10 0) 0 token_id in
  let* (buf, len) := copy_digits digits count buf base_len in
  let* (buf, len) := rfold push_byte (buf, len) TOKEN_URI_SUFFIX in
  Ok (take len buf).

End Contract.

End PositionNft.

(** ** Rendering into fixed buffers *)

Module NftUri.

Import PositionNft.

(** The first [length c] slots of an array of [cap] hold [c]. *)
Definition filled (cap : nat) (buf c : list Z) : Prop :=
  length buf = cap /\ take (length c) buf = c.

Lemma put_filled cap buf c b :
  filled cap buf c -> (length c < cap)%nat ->
  exists buf', put buf (length c) b = Ok buf' /\ filled cap buf' (c ++ [b]).
Proof.
  intros [Hl Hc] Hlt. unfold put. destruct (Nat.ltb_spec (length c) (length buf)) as [Hi|]; [|lia].
  exists (<[length c := b]> buf). split; [done|]. split; [by rewrite length_insert|].
  rewrite length_app. simpl. rewrite Nat.add_1_r.
  rewrite (take_S_r _ _ b) by (by rewrite list_lookup_insert_eq).
  rewrite take_insert_ge by lia. by rewrite Hc.
Qed.

(** A decimal digit's byte, the value of a most-significant-first numeral, and the
    numerals without leading zeros. *)
Definition is_digit (b : Z) : Prop := 48 <= b <= 57.
Definition decimal_value (l : list Z) : Z := foldl (fun v b => 10 * v + (b - 48)) 0 l.
Definition canonical (l : list Z) : Prop :=
  Forall is_digit l /\ match l with b :: _ => b <> 48 | [] => False end.

Lemma decimal_snoc l b : decimal_value (l ++ [b]) = 10 * decimal_value l + (b - 48).
Proof. unfold decimal_value. by rewrite foldl_app. Qed.

Lemma canonical_snoc l b : canonical l -> is_digit b -> canonical (l ++ [b]).
Proof. intros [Hd Hh] Hb. split; [apply Forall_app; by split; [|constructor]|by destruct l]. Qed.

Lemma canonical_one b : is_digit b -> b <> 48 -> canonical [b].
Proof. intros H1 H2. split; [by constructor|done]. Qed.

(** The loop leaves the numeral of [n], least significant digit first, behind what the
    array already held. *)
Lemma push_digits_Ok fuel : forall digits c n,
  filled 10 digits c -> (length c + fuel = 11)%nat -> 0 < n < 10 ^ (10 - Z.of_nat (length c)) ->
  exists digits' ds, push_digits fuel digits (length c) n = Ok (digits', (length c + length ds)%nat)
    /\ filled 10 digits' (c ++ ds) /\ decimal_value (rev ds) = n /\ canonical (rev ds).
Proof.
  induction fuel as [|fuel IH]; intros digits c n Hf Hlen Hn.
  { exfalso. replace (10 - Z.of_nat (length c)) with (-1) in Hn by lia. simpl in Hn. lia. }
  cbn [push_digits]. destruct (Z.ltb_spec 0 n); [|lia].
  assert (length c < 10)%nat as Hc.
  { destruct (decide (length c < 10)%nat) as [|Hge]; [done|]. exfalso.
    replace (10 - Z.of_nat (length c)) with 0 in Hn by lia. simpl in Hn. lia. }
  destruct (put_filled 10 digits c (48 + n mod 10) Hf Hc) as (digits1 & -> & Hf1). cbn [rbind].
  pose proof (Z.mod_pos_bound n 10 ltac:(lia)) as Hm. pose proof (Z.div_mod n 10 ltac:(lia)) as Hdm.
  replace (S (length c)) with (length (c ++ [48 + n mod 10])) by (rewrite length_app; simpl; lia).
  destruct (decide (n / 10 = 0)) as [E|E].
  - exists digits1, [48 + n mod 10]. rewrite E. split_and!.
    + rewrite length_app. by destruct fuel.
    + done.
    + change (rev [48 + n mod 10]) with ([] ++ [48 + n mod 10]).
      rewrite decimal_snoc. change (decimal_value []) with 0. lia.
    + apply canonical_one; unfold is_digit; lia.
  - destruct (IH digits1 (c ++ [48 + n mod 10]) (n / 10)) as (digits2 & ds & -> & Hf2 & Hv & Hcan).
    + done.
    + rewrite length_app. simpl. lia.
    + pose proof (Z.div_pos n 10 ltac:(lia) ltac:(lia)). split; [lia|].
      rewrite length_app, Nat2Z.inj_add. cbn [length]. apply Z.div_lt_upper_bound; [lia|].
      replace (10 - Z.of_nat (length c)) with (Z.succ (10 - (Z.of_nat (length c) + Z.of_nat 1)))
        in Hn by lia.
      rewrite Z.pow_succ_r in Hn by lia. lia.
    + exists digits2, ((48 + n mod 10) :: ds). split_and!.
      * rewrite length_app. simpl. do 2 f_equal. lia.
      * by rewrite <- app_assoc in Hf2.
      * simpl rev. rewrite decimal_snoc, Hv. lia.
      * simpl rev. apply canonical_snoc; [done|]. unfold is_digit. lia.
Qed.

(** The second loop appends the digits in reverse. *)
Lemma copy_digits_Ok cap digits : forall ds rest buf c,
  filled 10 digits (ds ++ rest) -> filled cap buf c -> (length c + length ds <= cap)%nat ->
  exists buf', copy_digits digits (length ds) buf (length c)
      = Ok (buf', (length c + length ds)%nat) /\ filled cap buf' (c ++ rev ds).
Proof.
  induction ds as [|d ds IH] using rev_ind; intros rest buf c Hd Hf Hl.
  { exists buf. rewrite app_nil_r. split; [|done]. simpl. by rewrite Nat.add_0_r. }
  rewrite length_app in *. simpl length in *. rewrite Nat.add_1_r. cbn [copy_digits].
  assert (digits !! length ds = Some d) as ->.
  { destruct Hd as [_ Hd]. rewrite <- app_assoc in Hd. simpl in Hd.
    rewrite <- (lookup_take_lt digits (length (ds ++ d :: rest))) by (rewrite length_app; simpl; lia).
    rewrite Hd. apply list_lookup_middle. done. }
  cbn [of_option rbind]. destruct (put_filled cap buf c d Hf ltac:(lia)) as (buf1 & -> & Hf1). cbn [rbind].
  rewrite <- app_assoc in Hd.
  replace (S (length c)) with (length (c ++ [d])) by (rewrite length_app; simpl; lia).
  destruct (IH (d :: rest) buf1 (c ++ [d])) as (buf2 & -> & Hf2).
  - exact Hd.
  - done.
  - rewrite length_app. simpl. lia.
  - exists buf2. rewrite rev_unit, length_app. simpl. split; [do 2 f_equal; lia|].
    by rewrite <- app_assoc in Hf2.
Qed.

Lemma push_bytes_Ok cap : forall l buf c,
  filled cap buf c -> (length c + length l <= cap)%nat ->
  exists buf', rfold push_byte (buf, length c) l = Ok (buf', (length c + length l)%nat)
    /\ filled cap buf' (c ++ l).
Proof.
  induction l as [|b l IH]; intros buf c Hf Hl.
  { exists buf. rewrite app_nil_r. split; [|done]. simpl. by rewrite Nat.add_0_r. }
  simpl length in Hl. cbn [rfold]. unfold push_byte at 1. simpl fst. simpl snd.
  destruct (put_filled cap buf c b Hf ltac:(lia)) as (buf1 & -> & Hf1). cbn [rbind].
  replace (S (length c)) with (length (c ++ [b])) by (rewrite length_app; simpl; lia).
  destruct (IH buf1 (c ++ [b]) Hf1) as (buf2 & -> & Hf2); [rewrite length_app; simpl; lia|].
  exists buf2. rewrite <- app_assoc in Hf2. split; [|done]. rewrite length_app. simpl. do 2 f_equal. lia.
Qed.

Lemma copy_into_Ok base cap :
  (length base <= cap)%nat ->
  exists buf, copy_into base (replicate cap 0) = Ok buf /\ filled cap buf base.
Proof.
  intros H. unfold copy_into. rewrite length_replicate.
  destruct (Nat.leb_spec (length base) cap); [|lia]. eexists. split; [done|]. split.
  - rewrite length_app, length_drop, length_replicate. lia.
  - by rewrite take_app_length.
Qed.

Lemma rendered {N : Type} `{NftLib N} (c : Contract N) id a :
  owner_of (pn_tokens c) id = Ok a -> 0 < id <= u32_max ->
  (length (base_uri (pn_tokens c)) <= MAX_BASE_URI_LEN)%nat ->
  exists ds, token_uri c id = Ok (base_uri (pn_tokens c) ++ ds ++ TOKEN_URI_SUFFIX)
    /\ decimal_value ds = id /\ canonical ds.
Proof.
  intros Ho Hid Hb. unfold MAX_BASE_URI_LEN in Hb. unfold token_uri. rewrite Ho. cbv zeta. cbn [rbind].
  destruct (copy_into_Ok (base_uri (pn_tokens c)) 256 ltac:(lia)) as (buf & -> & Hf). cbn [rbind].
  assert (filled 10 (replicate 10 0) []) as H0 by done.
  assert (0 < id < 10 ^ (10 - Z.of_nat (length (@nil Z)))) as Hr
    by (unfold u32_max in Hid; simpl length; change (10 ^ (10 - Z.of_nat 0)) with 10000000000; lia).
  destruct (push_digits_Ok 11 _ [] id H0 eq_refl Hr) as (digits & ds & Hp & Hd & Hv & Hc).
  change (length (@nil Z)) with 0%nat in Hp. rewrite Hp. cbn [Nat.add]. cbn [rbind].
  assert (length ds <= 10)%nat as Hl.
  { pose proof (proj2 Hd) as Ht. simpl in Ht. apply (f_equal length) in Ht.
    rewrite length_take, (proj1 Hd) in Ht. lia. }
  rewrite <- (app_nil_r ([] ++ ds)) in Hd.
  destruct (copy_digits_Ok 256 digits ds [] buf (base_uri (pn_tokens c)) Hd Hf ltac:(lia))
    as (buf1 & -> & Hf1). cbn [rbind].
  replace (length (base_uri (pn_tokens c)) + length ds)%nat
    with (length (base_uri (pn_tokens c) ++ rev ds)) by (by rewrite length_app, length_rev).
  destruct (push_bytes_Ok 256 TOKEN_URI_SUFFIX buf1 _ Hf1) as (buf2 & -> & Hf2).
  { rewrite length_app, length_rev. change (length TOKEN_URI_SUFFIX) with 28%nat. lia. }
  cbn [rbind]. exists (rev ds). split; [|done]. f_equal.
  rewrite <- length_app, (proj2 Hf2). by rewrite <- app_assoc.
Qed.

End NftUri.

(** ** The contract's lifetime *)

Module NftReach.

Import PositionNft NftUri.

Section Reach.

Context {N : Type} {HL : NftLib N} {HN : NftLaws N}.
Implicit Types c : Contract N.

(** A transaction: [env] says who authorized it. *)
Inductive nft_call : Type :=
| CallMint (to : Address)
| CallBurn (token_id : Z)
| CallRenew (token_id : Z)
| CallStock (call : nf_stock).

Definition nft_dispatch (env : Env) (c : Contract N) (call : nft_call) : nres (Contract N) :=
  match call with
  | CallMint to => let* (_, c) := mint env c to in Ok c
  | CallBurn id => burn env c id
  | CallRenew id => renew c id
  | CallStock call => let* n := run_stock env (pn_tokens c) call in Ok (with_tokens c n)
  end.

Inductive nft_reachable : Contract N -> Prop :=
| nft_construct ctl uri name symbol c :
    constructor ctl uri name symbol = Ok c -> nft_reachable c
| nft_step env c call c' :
    nft_reachable c -> nft_dispatch env c call = Ok c' -> nft_reachable c'.

(** Ids start at 1, live tokens were minted, and the base URI is bounded. *)
Record nft_ok c : Prop := {
  no_first : 0 < nf_next (pn_tokens c) <= u32_max;
  no_minted : forall id a, nf_owners (pn_tokens c) !! id = Some a -> 0 < id < nf_next (pn_tokens c);
  no_uri : (length (base_uri (pn_tokens c)) <= MAX_BASE_URI_LEN)%nat;
  no_controller : is_Some (pn_controller c)
}.

Lemma mint_inv env c to id c' :
  mint env c to = Ok (id, c') ->
  (exists a, pn_controller c = Some a /\ authorized env a = true)
  /\ sequential_mint (pn_tokens c) to = Ok (id, pn_tokens c') /\ pn_controller c' = pn_controller c.
Proof using.
  intros H. unfold mint, require_controller, controller in H.
  apply rbind_Ok in H as (u & Hu & H). apply rbind_Ok in Hu as (a & Ha & Hu).
  apply of_option_Ok in Ha. apply require_Ok in Hu.
  apply rbind_Ok in H as ([i n] & Hm & H). injection H as <- <-. eauto.
Qed.

Lemma burn_inv env c id c' :
  burn env c id = Ok c' ->
  (exists a, pn_controller c = Some a /\ authorized env a = true)
  /\ (exists o, nf_owners (pn_tokens c) !! id = Some o /\ pn_burned c' = pn_burned c ++ [(o, id)])
  /\ nf_next (pn_tokens c') = nf_next (pn_tokens c)
  /\ nf_owners (pn_tokens c') = delete id (nf_owners (pn_tokens c))
  /\ base_uri (pn_tokens c') = base_uri (pn_tokens c) /\ pn_controller c' = pn_controller c.
Proof using.
  intros H. unfold burn, require_controller, controller in H.
  apply rbind_Ok in H as (u & Hu & H). apply rbind_Ok in Hu as (a & Ha & Hu).
  apply of_option_Ok in Ha. apply require_Ok in Hu. apply rbind_Ok in H as (o & Ho & H).
  apply rbind_Ok in H as (n1 & H1 & H). cbv zeta in H. apply rbind_Ok in H as (n2 & H2 & H).
  injection H as <-. apply owner_law in Ho. apply update_law in H1 as (A1 & A2 & A3).
  apply enumeration_law in H2 as (B1 & B2 & B3). cbn in *. split_and!; [eauto|eauto|congruence..].
Qed.

Lemma constructed_ok ctl uri name symbol c :
  constructor ctl uri name symbol = Ok c ->
  nft_ok c /\ nf_next (pn_tokens c) = 1 /\ nf_owners (pn_tokens c) = ∅
  /\ pn_controller c = Some ctl /\ base_uri (pn_tokens c) = uri.
Proof using.
  intros H. unfold constructor in H. apply rbind_Ok in H as (n1 & H1 & H).
  apply rbind_Ok in H as ([i n2] & H2 & H). injection H as <-.
  apply metadata_law in H1 as (A1 & A2 & A3 & A4). apply increment_law in H2 as (_ & B1 & B2 & B3 & B4).
  rewrite empty_next in A1. rewrite empty_owners in A2.
  assert (nf_owners n2 = ∅) as He by congruence. cbn.
  split_and!; [split; cbn|lia|done|done|congruence].
  - lia.
  - intros id a. rewrite He. by rewrite lookup_empty.
  - by rewrite B4, A3.
  - eauto.
Qed.

Lemma nft_step_ok env c call c' : nft_ok c -> nft_dispatch env c call = Ok c' ->
  nft_ok c' /\ nf_next (pn_tokens c) <= nf_next (pn_tokens c')
  /\ pn_controller c' = pn_controller c /\ base_uri (pn_tokens c') = base_uri (pn_tokens c).
Proof using.
  intros [I1 I2 I3 I4] H. destruct call as [to|id|id|call]; simpl in H.
  - apply rbind_Ok in H as ([id c1] & Hm & H). injection H as ->.
    apply mint_inv in Hm as (_ & Hm & Hc). apply mint_law in Hm as (-> & Hx & Hu & Hn & Hb).
    split_and!; [split|lia|done|done]; [lia| |by rewrite Hb|by rewrite Hc].
    intros i a. rewrite Hn. intros Hi. apply lookup_insert_Some in Hi as [[<- _]|[_ Hi]]; [lia|].
    apply I2 in Hi. lia.
  - apply burn_inv in H as (_ & _ & Hx & Hn & Hb & Hc).
    split_and!; [split|lia|done|done]; [lia| |by rewrite Hb|by rewrite Hc].
    intros i a. rewrite Hn, Hx. intros Hi. apply lookup_delete_Some in Hi as [_ Hi]. by eapply I2.
  - unfold renew in H. apply rbind_Ok in H as (o & _ & H). injection H as <-. by split_and!.
  - apply rbind_Ok in H as (n & Hs & H). injection H as <-. apply stock_law in Hs as (Hx & Hd & Hb).
    cbn. split_and!; [split; cbn|lia|done|done]; [lia| |by rewrite Hb|done].
    intros i a Hi. rewrite Hx. assert (i ∈ dom (nf_owners n)) as Hin by (by apply elem_of_dom_2 in Hi).
    rewrite Hd in Hin. apply elem_of_dom in Hin as [b Hin]. by eapply I2.
Qed.

Lemma nft_reachable_ok c : nft_reachable c -> nft_ok c.
Proof using.
  induction 1 as [ctl uri name symbol c H|env c call c' _ IH H]; [by eapply constructed_ok|].
  by eapply nft_step_ok.
Qed.

(** ** Theorems *)

(** C26: The NFT contract keeps the promise the controller relies on: in every state it can
    reach, a mint needs the controller's authorization, returns the counter's value, an id
    in 1..u32::MAX that no live token has, and moves the counter one up, giving the new
    token to the receiver and touching no other; a burn needs the controller too, removes
    exactly that token and leaves the counter; and no call of anyone moves the counter
    back or changes the controller. *)
Theorem position_ids_sequential env c :
  nft_reachable c ->
  (forall to id c', mint env c to = Ok (id, c') ->
     (exists a, pn_controller c = Some a /\ authorized env a = true)
     /\ id = nf_next (pn_tokens c) /\ 0 < id <= u32_max /\ nf_next (pn_tokens c') = id + 1
     /\ nf_owners (pn_tokens c) !! id = None
     /\ nf_owners (pn_tokens c') = <[id := to]> (nf_owners (pn_tokens c)))
  /\ (forall id c', burn env c id = Ok c' ->
     (exists a, pn_controller c = Some a /\ authorized env a = true)
     /\ is_Some (nf_owners (pn_tokens c) !! id) /\ nf_next (pn_tokens c') = nf_next (pn_tokens c)
     /\ nf_owners (pn_tokens c') = delete id (nf_owners (pn_tokens c)))
  /\ (forall call c', nft_dispatch env c call = Ok c' ->
     nf_next (pn_tokens c) <= nf_next (pn_tokens c') /\ pn_controller c' = pn_controller c).
Proof using.
  intros Hr. apply nft_reachable_ok in Hr as Hok. split_and!.
  - intros to id c' H. apply mint_inv in H as (Ha & Hm & _).
    apply mint_law in Hm as (-> & Hx & Hu & Hn & _). destruct Hok as [I1 I2 _ _].
    split_and!; [done|done|lia|lia|done| |done].
    destruct (nf_owners _ !! _) as [a|] eqn:E; [|done]. apply I2 in E. lia.
  - intros id c' H. apply burn_inv in H as (Ha & (o & Ho & _) & Hx & Hn & _). eauto.
  - intros call c' H. by eapply nft_step_ok in H as (_ & ? & ? & _).
Qed.

(** C27: In every state the contract can reach, [token_uri] of a live token returns the stored
    base URI, the token id in decimal without leading zeros, and the fixed query suffix:
    none of the writes into the 10-slot digit array or the 256-byte buffer traps, and the
    first loop needs at most ten turns.  A token that was burned or never minted fails with
    [NonExistentToken]. *)
Theorem token_uri_exact c id :
  nft_reachable c ->
  match nf_owners (pn_tokens c) !! id with
  | Some _ => exists ds, token_uri c id = Ok (base_uri (pn_tokens c) ++ ds ++ TOKEN_URI_SUFFIX)
      /\ decimal_value ds = id /\ canonical ds
  | None => token_uri c id = Err NonExistentToken
  end.
Proof using.
  intros Hr. apply nft_reachable_ok in Hr as [I1 I2 I3 _].
  destruct (nf_owners (pn_tokens c) !! id) as [a|] eqn:E.
  - pose proof (I2 _ _ E). apply owner_law in E. eapply rendered; [exact E|lia|done].
  - unfold token_uri. by rewrite (missing_law _ _ E).
Qed.

End Reach.

End NftReach.

(** ** A token library *)

Module NftSample.

Import PositionNft NftUri NftReach.

Record Tokens : Type := mkTokens {
  tk_next : Z;
  tk_owners : gmap Z Address;
  tk_uri : list Z
}.

Definition tk_increment (n : Tokens) (k : Z) : nres (Z * Tokens) :=
  if tk_next n + k <=? u32_max
  then Ok (tk_next n, mkTokens (tk_next n + k) (tk_owners n) (tk_uri n)) else Err (NftLibError 0).

Definition tk_mint (n : Tokens) (to : Address) : nres (Z * Tokens) :=
  let* (id, n) := tk_increment n 1 in
  Ok (id, mkTokens (tk_next n) (<[id := to]> (tk_owners n)) (tk_uri n)).

(** Stock calls: a transfer between holders. *)
Definition tk_transfer (env : Env) (n : Tokens) (c : Address * Address * Z) : nres Tokens :=
  let '(from, to, id) := c in
  if authorized env from && bool_decide (tk_owners n !! id = Some from)
  then Ok (mkTokens (tk_next n) (<[id := to]> (tk_owners n)) (tk_uri n)) else Err (NftLibError 1).

#[export] Instance tokens_lib : NftLib Tokens := {
  nf_empty := mkTokens 0 ∅ [];
  nf_stock := Address * Address * Z;
  set_metadata n uri _ _ :=
    if (length uri <=? MAX_BASE_URI_LEN)%nat then Ok (mkTokens (tk_next n) (tk_owners n) uri)
    else Err (NftLibError 2);
  increment_token_id := tk_increment;
  sequential_mint := tk_mint;
  owner_of n id := of_option NonExistentToken (tk_owners n !! id);
  base_update n _ _ id := Ok (mkTokens (tk_next n) (delete id (tk_owners n)) (tk_uri n));
  remove_from_enumerations n _ _ := Ok n;
  base_uri := tk_uri;
  run_stock := tk_transfer
}.

Lemma tk_increment_inv n k id n' :
  tk_increment n k = Ok (id, n') ->
  id = tk_next n /\ tk_next n + k <= u32_max /\ n' = mkTokens (tk_next n + k) (tk_owners n) (tk_uri n).
Proof.
  unfold tk_increment. destruct (Z.leb_spec (tk_next n + k) u32_max); [|done].
  intros E. by injection E as <- <-.
Qed.

#[export] Instance tokens_laws : NftLaws Tokens.
Proof.
  refine {| nf_next := tk_next; nf_owners := tk_owners |}; cbn.
  - done.
  - done.
  - intros n uri _ _ n' E. destruct (Nat.leb_spec (length uri) MAX_BASE_URI_LEN); [|done].
    by injection E as <-.
  - intros n k id n' E. by apply tk_increment_inv in E as (-> & ? & ->).
  - intros n to id n' E. unfold tk_mint in E. apply rbind_Ok in E as ([i m] & Hi & E).
    injection E as <- <-. by apply tk_increment_inv in Hi as (-> & ? & ->).
  - intros n id a. apply of_option_Ok.
  - intros n id ->. done.
  - intros n from id n' E. by injection E as <-.
  - intros n o id n' E. by injection E as <-.
  - intros env n [[from to] id] n' E. unfold tk_transfer in E. destruct (_ && _) eqn:B; [|done].
    injection E as <-. cbn. split_and!; [done| |done]. apply andb_true_iff in B as [_ B].
    apply bool_decide_eq_true in B. rewrite dom_insert_L.
    assert (id ∈ dom (tk_owners n)) by (by apply elem_of_dom_2 in B). set_solver.
Defined.

Definition ctl : Address := mkAddress 7.
Definition holder : Address := mkAddress 8.
Definition by_ctl : Env := mkEnv 0 (mkAddress 9) (fun a => bool_decide (a = ctl)).

Definition deployed : Contract Tokens :=
  mkContract (Some ctl) (mkTokens 1 ∅ (ascii_bytes "https://nft/")) [].
Definition one_minted : Contract Tokens :=
  mkContract (Some ctl) (mkTokens 2 {[1 := holder]} (ascii_bytes "https://nft/")) [].

Lemma deployed_reachable : nft_reachable deployed.
Proof. by apply (nft_construct ctl (ascii_bytes "https://nft/") [] []). Qed.

Lemma one_minted_reachable : nft_reachable one_minted.
Proof. apply (nft_step by_ctl deployed (CallMint holder)); [apply deployed_reachable|done]. Qed.

Lemma position_ids_sequential_witness :
  mint by_ctl deployed holder = Ok (1, one_minted)
  /\ nf_owners (pn_tokens one_minted) = <[1 := holder]> (nf_owners (pn_tokens deployed))
  /\ nf_next (pn_tokens one_minted) = 2.
Proof.
  assert (mint by_ctl deployed holder = Ok (1, one_minted)) as Hm by reflexivity.
  destruct (position_ids_sequential by_ctl deployed deployed_reachable) as (H & _).
  destruct (H holder 1 one_minted Hm) as (_ & _ & _ & H1 & _ & H2). done.
Defined.

Lemma token_uri_exact_witness :
  token_uri one_minted 1 = Ok (ascii_bytes "https://nft/1?isStatic=true&chain=STELLAR")
  /\ exists ds, token_uri one_minted 1
       = Ok (base_uri (pn_tokens one_minted) ++ ds ++ TOKEN_URI_SUFFIX) /\ decimal_value ds = 1.
Proof.
  split; [reflexivity|].
  destruct (token_uri_exact one_minted 1 one_minted_reachable) as (ds & H1 & H2 & _).
  exists ds. split; [exact H1|exact H2].
Defined.

(** Rendering at the ends of the range. *)
Example largest_id : (let* (ds, k) := push_digits 11 (replicate 10 0) 0 u32_max in Ok (rev (take k ds)))
  = (Ok (ascii_bytes "4294967295") : nres (list Z)).
Proof. reflexivity. Qed.

End NftSample.
