(* ===== verification/CtlState.v ===== *)
(** * Storage and surroundings of the controller
    (contracts/controller/src/storage/, contracts/controller/src/events/mod.rs,
    contracts/controller/src/external/position_nft.rs,
    contracts/controller/src/external/price_aggregator.rs, common/src/types/controller.rs)

    [Controller] is the contract's storage with the log of its events; [Sys] puts it
    beside the pool and the rest of the ledger.  Accounts are keyed by NFT id; one
    key's maps are written whole, and an empty map is deleted. *)

From S2P Require Import Prelude Errors FpCore Fp PoolTypes PoolCache PoolContract ControllerTypes SpokeUsage Risk.
From stdpp Require Import base numbers list gmap.
From Stdlib Require Import ZArith Lia Bool.

Open Scope Z_scope.

(** ** Stored records *)

Record AccountMeta : Type := mkAccountMeta {
  meta_spoke_id : Z;
  meta_mode : PositionMode
}.

Record DelegateGrant : Type := mkDelegateGrant {
  granted_by : Address;
  delegates : list Address
}.

Record HubConfig : Type := mkHubConfig { hub_is_active : bool }.
Record PositionManagerConfig : Type := mkPositionManagerConfig { manager_is_active : bool }.

Inductive SeizeMode : Type :=
| SeizeTransfer
| SeizeCredit (id : Z).

#[export] Instance SeizeMode_eq_dec : EqDecision SeizeMode.
Proof. solve_decision. Defined.
#[export] Instance PositionMode_eq_dec : EqDecision PositionMode.
Proof. solve_decision. Defined.

(** ** Events *)

Inductive EventPositionMode : Type := EvNone | EvMultiply | EvLong | EvShort.

Definition event_mode (m : PositionMode) : EventPositionMode :=
  match m with
  | Normal => EvNone
  | Multiply => EvMultiply
  | Long => EvLong
  | Short => EvShort
  end.

Record EventAccountAttributes : Type := mkEventAccountAttributes {
  ea_owner : Address;
  ea_spoke_id : Z;
  ea_mode : EventPositionMode
}.

Definition event_attributes (a : Account) : EventAccountAttributes :=
  mkEventAccountAttributes (acc_owner a) (acc_spoke_id a) (event_mode (acc_mode a)).

Inductive PositionAction : Type :=
| ActSupply | ActBorrow | ActWithdraw | ActRepay | ActLiqRepay | ActLiqSeize | ActMultiply
| ActParamUpd | ActSwDebtR | ActSwColWd | ActRpColWd | ActRpColR | ActCloseWd | ActMigrate
| ActRpColNet | ActLiqCredit | ActFlashPos.

Record EventDepositDelta : Type := mkEventDepositDelta {
  ed_action : PositionAction;
  ed_hub_id : Z;
  ed_asset : Address;
  ed_scaled_amount : Z;
  ed_index_ray : Z;
  ed_amount : Z;
  ed_liquidation_threshold : Z;
  ed_liquidation_bonus : Z;
  ed_loan_to_value : Z;
  ed_liquidation_fees : Z
}.

Definition deposit_delta (action : PositionAction) (h : HubAssetKey) (index_ray amount : Z)
    (p : AccountPosition) : EventDepositDelta :=
  {| ed_action := action;
     ed_hub_id := hub_id h;
     ed_asset := asset h;
     ed_scaled_amount := ap_scaled_amount p;
     ed_index_ray := index_ray;
     ed_amount := amount;
     ed_liquidation_threshold := as_u32 (ap_liquidation_threshold p);
     ed_liquidation_bonus := as_u32 (ap_liquidation_bonus p);
     ed_loan_to_value := as_u32 (ap_loan_to_value p);
     ed_liquidation_fees := as_u32 (ap_liquidation_fees p) |}.

Record EventBorrowDelta : Type := mkEventBorrowDelta {
  eb_action : PositionAction;
  eb_hub_id : Z;
  eb_asset : Address;
  eb_scaled_amount : Z;
  eb_index_ray : Z;
  eb_amount : Z
}.

Definition borrow_delta (action : PositionAction) (h : HubAssetKey) (index_ray amount : Z)
    (p : DebtPosition) : EventBorrowDelta :=
  {| eb_action := action;
     eb_hub_id := hub_id h;
     eb_asset := asset h;
     eb_scaled_amount := dp_scaled_amount p;
     eb_index_ray := index_ray;
     eb_amount := amount |}.

Inductive ControllerEvent : Type :=
| UpdatePositionBatchEvent (account_id : Z) (attributes : EventAccountAttributes)
    (deposits : list EventDepositDelta) (borrows : list EventBorrowDelta)
| LiquidationEvent (liquidator : Address) (account_id repaid_usd_wad bonus_bps : Z)
| CleanBadDebtEvent (account_id total_borrow_usd_wad total_collateral_usd_wad : Z)
| AccountDelegateEvent (account_id : Z) (owner delegate : Address) (granted : bool)
| UpdateSpokeAssetEvent (spoke_id : Z) (h : HubAssetKey) (config : SpokeAssetConfig)
| RemoveSpokeAssetEvent (spoke_id : Z) (h : HubAssetKey)
| UpdateSpokeEvent (spoke_id : Z) (config : SpokeConfig)
| CreateHubEvent (hub : Z)
| UpdatePositionLimitsEvent (limits : Risk.PositionLimits)
| UpdateMinBorrowCollateralEvent (floor_wad : Z)
| UpdateSwapAggregatorEvent (addr : Address)
| UpdatePriceAggregatorEvent (addr : Address)
| UpdateAccumulatorEvent (addr : Address)
| ApproveBlendPoolEvent (pool : Address) (approved : bool)
| CreateMarketEvent (hub : Z) (base_asset market_address : Address) (params : MarketParamsRaw)
| UpdateMarketParamsEvent (h : HubAssetKey) (model : InterestRateModel)
| ClaimRevenueEvent (h : HubAssetKey) (caller accumulator : Address) (amount : Z)
| FlashLoanEvent (h : HubAssetKey) (receiver caller : Address) (amount fee : Z)
| FlashPositionEvent (account_id : Z) (h : HubAssetKey) (receiver caller : Address)
    (amount amount_received fee : Z)
| InitialMultiplyPaymentEvent (token : Address) (amount account_id : Z)
| BlendMigrationEvent (account_id : Z) (blend_pool : Address)
    (collateral_count supply_count debt_count : Z).

(** ** Storage *)

Record AccountStore : Type := mkAccountStore {
  acs_meta : gmap Z AccountMeta;
  acs_supply : gmap Z (PositionMap AccountPositionRaw);
  acs_borrow : gmap Z (PositionMap DebtPositionRaw);
  acs_delegates : gmap Z DelegateGrant
}.

(** Instance storage: singletons, counters, the owner and the pause flag. *)
Record InstanceStore : Type := mkInstance {
  i_owner : option Address;
  i_paused : bool;
  i_pool : option Address;
  i_position_nft : option Address;
  i_price_aggregator : option Address;
  i_swap_aggregator : option Address;
  i_accumulator : option Address;
  i_position_limits : option Risk.PositionLimits;
  i_min_borrow_collateral : option Z;
  i_app_version : option Z;
  i_last_spoke_id : option Z;
  i_last_hub_id : option Z
}.

(** Shared persistent entries. *)
Record Registry : Type := mkRegistry {
  r_hubs : gmap Z HubConfig;
  r_spokes : gmap Z SpokeConfig;
  r_spoke_assets : gmap (Z * HubAssetKey) SpokeAssetConfig;
  r_flags_epoch : gmap (Z * HubAssetKey) Z;
  r_managers : gmap Address PositionManagerConfig;
  r_blend_pools : gmap Address bool
}.

Record Controller : Type := mkController {
  c_instance : InstanceStore;
  c_registry : Registry;
  c_accounts : AccountStore;
  c_usage : SpokeUsage.UsageStore;
  c_flash_ongoing : bool;
  c_log : list ControllerEvent
}.

Definition with_instance (c : Controller) (i : InstanceStore) : Controller :=
  mkController i (c_registry c) (c_accounts c) (c_usage c) (c_flash_ongoing c) (c_log c).
Definition with_registry (c : Controller) (r : Registry) : Controller :=
  mkController (c_instance c) r (c_accounts c) (c_usage c) (c_flash_ongoing c) (c_log c).
Definition with_accounts (c : Controller) (a : AccountStore) : Controller :=
  mkController (c_instance c) (c_registry c) a (c_usage c) (c_flash_ongoing c) (c_log c).
Definition with_usage (c : Controller) (u : SpokeUsage.UsageStore) : Controller :=
  mkController (c_instance c) (c_registry c) (c_accounts c) u (c_flash_ongoing c) (c_log c).
Definition with_flash (c : Controller) (b : bool) : Controller :=
  mkController (c_instance c) (c_registry c) (c_accounts c) (c_usage c) b (c_log c).

(** Single-entry writes. *)
Definition set_i_owner (s : InstanceStore) (v : option Address) : InstanceStore :=
  mkInstance v (i_paused s) (i_pool s) (i_position_nft s) (i_price_aggregator s)
    (i_swap_aggregator s) (i_accumulator s) (i_position_limits s) (i_min_borrow_collateral s)
    (i_app_version s) (i_last_spoke_id s) (i_last_hub_id s).
Definition set_i_paused (s : InstanceStore) (v : bool) : InstanceStore :=
  mkInstance (i_owner s) v (i_pool s) (i_position_nft s) (i_price_aggregator s)
    (i_swap_aggregator s) (i_accumulator s) (i_position_limits s) (i_min_borrow_collateral s)
    (i_app_version s) (i_last_spoke_id s) (i_last_hub_id s).
Definition set_i_pool (s : InstanceStore) (v : option Address) : InstanceStore :=
  mkInstance (i_owner s) (i_paused s) v (i_position_nft s) (i_price_aggregator s)
    (i_swap_aggregator s) (i_accumulator s) (i_position_limits s) (i_min_borrow_collateral s)
    (i_app_version s) (i_last_spoke_id s) (i_last_hub_id s).
Definition set_i_position_nft (s : InstanceStore) (v : option Address) : InstanceStore :=
  mkInstance (i_owner s) (i_paused s) (i_pool s) v (i_price_aggregator s) (i_swap_aggregator s)
    (i_accumulator s) (i_position_limits s) (i_min_borrow_collateral s) (i_app_version s)
    (i_last_spoke_id s) (i_last_hub_id s).
Definition set_i_price_aggregator (s : InstanceStore) (v : option Address) : InstanceStore :=
  mkInstance (i_owner s) (i_paused s) (i_pool s) (i_position_nft s) v (i_swap_aggregator s)
    (i_accumulator s) (i_position_limits s) (i_min_borrow_collateral s) (i_app_version s)
    (i_last_spoke_id s) (i_last_hub_id s).
Definition set_i_swap_aggregator (s : InstanceStore) (v : option Address) : InstanceStore :=
  mkInstance (i_owner s) (i_paused s) (i_pool s) (i_position_nft s) (i_price_aggregator s) v
    (i_accumulator s) (i_position_limits s) (i_min_borrow_collateral s) (i_app_version s)
    (i_last_spoke_id s) (i_last_hub_id s).
Definition set_i_accumulator (s : InstanceStore) (v : option Address) : InstanceStore :=
  mkInstance (i_owner s) (i_paused s) (i_pool s) (i_position_nft s) (i_price_aggregator s)
    (i_swap_aggregator s) v (i_position_limits s) (i_min_borrow_collateral s) (i_app_version s)
    (i_last_spoke_id s) (i_last_hub_id s).
Definition set_i_position_limits (s : InstanceStore) (v : option Risk.PositionLimits) : InstanceStore :=
  mkInstance (i_owner s) (i_paused s) (i_pool s) (i_position_nft s) (i_price_aggregator s)
    (i_swap_aggregator s) (i_accumulator s) v (i_min_borrow_collateral s) (i_app_version s)
    (i_last_spoke_id s) (i_last_hub_id s).
Definition set_i_min_borrow_collateral (s : InstanceStore) (v : option Z) : InstanceStore :=
  mkInstance (i_owner s) (i_paused s) (i_pool s) (i_position_nft s) (i_price_aggregator s)
    (i_swap_aggregator s) (i_accumulator s) (i_position_limits s) v (i_app_version s)
    (i_last_spoke_id s) (i_last_hub_id s).
Definition set_i_app_version (s : InstanceStore) (v : option Z) : InstanceStore :=
  mkInstance (i_owner s) (i_paused s) (i_pool s) (i_position_nft s) (i_price_aggregator s)
    (i_swap_aggregator s) (i_accumulator s) (i_position_limits s) (i_min_borrow_collateral s) v
    (i_last_spoke_id s) (i_last_hub_id s).
Definition set_i_last_spoke_id (s : InstanceStore) (v : option Z) : InstanceStore :=
  mkInstance (i_owner s) (i_paused s) (i_pool s) (i_position_nft s) (i_price_aggregator s)
    (i_swap_aggregator s) (i_accumulator s) (i_position_limits s) (i_min_borrow_collateral s)
    (i_app_version s) v (i_last_hub_id s).
Definition set_i_last_hub_id (s : InstanceStore) (v : option Z) : InstanceStore :=
  mkInstance (i_owner s) (i_paused s) (i_pool s) (i_position_nft s) (i_price_aggregator s)
    (i_swap_aggregator s) (i_accumulator s) (i_position_limits s) (i_min_borrow_collateral s)
    (i_app_version s) (i_last_spoke_id s) v.
Definition set_r_hubs (s : Registry) (v : gmap Z HubConfig) : Registry :=
  mkRegistry v (r_spokes s) (r_spoke_assets s) (r_flags_epoch s) (r_managers s)
    (r_blend_pools s).
Definition set_r_spokes (s : Registry) (v : gmap Z SpokeConfig) : Registry :=
  mkRegistry (r_hubs s) v (r_spoke_assets s) (r_flags_epoch s) (r_managers s) (r_blend_pools s).
Definition set_r_spoke_assets (s : Registry) (v : gmap (Z * HubAssetKey) SpokeAssetConfig) : Registry :=
  mkRegistry (r_hubs s) (r_spokes s) v (r_flags_epoch s) (r_managers s) (r_blend_pools s).
Definition set_r_flags_epoch (s : Registry) (v : gmap (Z * HubAssetKey) Z) : Registry :=
  mkRegistry (r_hubs s) (r_spokes s) (r_spoke_assets s) v (r_managers s) (r_blend_pools s).
Definition set_r_managers (s : Registry) (v : gmap Address PositionManagerConfig) : Registry :=
  mkRegistry (r_hubs s) (r_spokes s) (r_spoke_assets s) (r_flags_epoch s) v (r_blend_pools s).
Definition set_r_blend_pools (s : Registry) (v : gmap Address bool) : Registry :=
  mkRegistry (r_hubs s) (r_spokes s) (r_spoke_assets s) (r_flags_epoch s) (r_managers s) v.

Definition on_instance (c : Controller) (g : InstanceStore -> InstanceStore) : Controller :=
  with_instance c (g (c_instance c)).
Definition on_registry (c : Controller) (g : Registry -> Registry) : Controller :=
  with_registry c (g (c_registry c)).

(** [Event::publish] *)
Definition publish (c : Controller) (e : ControllerEvent) : Controller :=
  mkController (c_instance c) (c_registry c) (c_accounts c) (c_usage c) (c_flash_ongoing c)
    (c_log c ++ [e]).

(** ** The rest of the ledger

    The position NFT and the price aggregator, as the controller's clients call them.
    [nft_owner_of] is [try_owner_of] with every failure mapped to [None]. *)
Class Chain (W : Type) `{Host W} : Type := {
  nft_mint : W -> Address -> Address -> res (Z * W);
  nft_burn : W -> Address -> Z -> res W;
  nft_owner_of : W -> Address -> Z -> option Address;
  aggregator_prices : W -> Address -> list Address -> res (gmap Address PriceFeedRaw)
}.

(** What the controller relies on from token ids: the NFT contract counts them up, and
    no other call moves the counter back. *)
Class SequentialIds (W : Type) `{Chain W} : Type := {
  nft_next : W -> Address -> Z;
  mint_sequential : forall w nft to id w', nft_mint w nft to = Ok (id, w') ->
    id = nft_next w nft /\ 0 < id <= u32_max /\ nft_next w' nft = id + 1
    /\ forall nft', nft_next w nft' <= nft_next w' nft';
  burn_keeps_ids : forall w nft id w' nft', nft_burn w nft id = Ok w' ->
    nft_next w nft' <= nft_next w' nft';
  transfer_keeps_ids : forall w token from to a w' nft, token_transfer w token from to a = Ok w' ->
    nft_next w nft <= nft_next w' nft;
  pull_keeps_ids : forall w token spender from to a w' nft,
    token_transfer_from w token spender from to a = Ok w' -> nft_next w nft <= nft_next w' nft;
  callback_keeps_ids : forall receiver initiator token a fee pool data p w p' w' nft,
    execute_flash_loan receiver initiator token a fee pool data (p, w) = Ok (p', w') ->
    nft_next w nft <= nft_next w' nft
}.

Record Sys (W : Type) : Type := mkSys {
  sy_ctl : Controller;
  sy_pool : Pool;
  sy_host : W
}.
Arguments mkSys {W}.
Arguments sy_ctl {W}.
Arguments sy_pool {W}.
Arguments sy_host {W}.

Definition with_ctl {W : Type} (s : Sys W) (c : Controller) : Sys W :=
  mkSys c (sy_pool s) (sy_host s).
Definition with_host {W : Type} (s : Sys W) (w : W) : Sys W := mkSys (sy_ctl s) (sy_pool s) w.

(** ** Accessors (storage/) *)

Module Store.

(** storage/protocol.rs *)
Definition get_pool (c : Controller) : res Address :=
  of_option (EGeneric PoolNotInitialized) (i_pool (c_instance c)).
Definition get_price_aggregator (c : Controller) : res Address :=
  of_option (EGeneric AggregatorNotSet) (i_price_aggregator (c_instance c)).
Definition get_swap_aggregator (c : Controller) : res Address :=
  of_option (EGeneric AggregatorNotSet) (i_swap_aggregator (c_instance c)).
Definition get_position_nft (c : Controller) : res Address :=
  of_option (EGeneric PositionNftNotSet) (i_position_nft (c_instance c)).
Definition get_position_limits (c : Controller) : res Risk.PositionLimits :=
  of_option (EGeneric PositionLimitsNotSet) (i_position_limits (c_instance c)).

(** [constants::DEFAULT_MIN_BORROW_COLLATERAL_USD_WAD] *)
Definition DEFAULT_MIN_BORROW_COLLATERAL_USD_WAD : Z := 5 * WAD.

Definition get_min_borrow_collateral_usd_wad (c : Controller) : Z :=
  default DEFAULT_MIN_BORROW_COLLATERAL_USD_WAD (i_min_borrow_collateral (c_instance c)).
Definition get_position_manager (c : Controller) (a : Address) : option PositionManagerConfig :=
  r_managers (c_registry c) !! a.
Definition is_blend_pool_approved (c : Controller) (p : Address) : bool :=
  default false (r_blend_pools (c_registry c) !! p).

(** storage/hub.rs, storage/spoke.rs *)
Definition get_hub (c : Controller) (id : Z) : option HubConfig := r_hubs (c_registry c) !! id.
Definition try_get_spoke (c : Controller) (id : Z) : option SpokeConfig :=
  r_spokes (c_registry c) !! id.
Definition get_spoke (c : Controller) (id : Z) : res SpokeConfig :=
  of_option (ESpoke SpokeNotFound) (try_get_spoke c id).
Definition get_spoke_asset (c : Controller) (spoke : Z) (h : HubAssetKey)
    : option SpokeAssetConfig := r_spoke_assets (c_registry c) !! (spoke, h).
Definition get_spoke_flags_epoch (c : Controller) (spoke : Z) (h : HubAssetKey) : Z :=
  default 0 (r_flags_epoch (c_registry c) !! (spoke, h)).

(** storage/account.rs *)
Definition try_get_account_meta (c : Controller) (id : Z) : option AccountMeta :=
  acs_meta (c_accounts c) !! id.
Definition get_account_meta (c : Controller) (id : Z) : res AccountMeta :=
  of_option (EGeneric AccountNotInMarket) (try_get_account_meta c id).
Definition get_supply_positions (c : Controller) (id : Z) : PositionMap AccountPositionRaw :=
  default [] (acs_supply (c_accounts c) !! id).
Definition get_debt_positions (c : Controller) (id : Z) : PositionMap DebtPositionRaw :=
  default [] (acs_borrow (c_accounts c) !! id).

Definition set_account_meta (c : Controller) (id : Z) (m : AccountMeta) : Controller :=
  let a := c_accounts c in
  with_accounts c
    (mkAccountStore (<[id := m]> (acs_meta a)) (acs_supply a) (acs_borrow a) (acs_delegates a)).

Definition write_side_map {V : Type} (st : gmap Z (PositionMap V)) (id : Z) (m : PositionMap V)
    : gmap Z (PositionMap V) :=
  match m with
  | [] => delete id st
  | _ => <[id := m]> st
  end.

Definition set_supply_positions (c : Controller) (id : Z) (m : PositionMap AccountPositionRaw)
    : Controller :=
  let a := c_accounts c in
  with_accounts c (mkAccountStore (acs_meta a) (write_side_map (acs_supply a) id m)
                     (acs_borrow a) (acs_delegates a)).

Definition set_debt_positions (c : Controller) (id : Z) (m : PositionMap DebtPositionRaw)
    : Controller :=
  let a := c_accounts c in
  with_accounts c (mkAccountStore (acs_meta a) (acs_supply a)
                     (write_side_map (acs_borrow a) id m) (acs_delegates a)).

Definition remove_account_entry (c : Controller) (id : Z) : Controller :=
  let a := c_accounts c in
  with_accounts c (mkAccountStore (delete id (acs_meta a)) (delete id (acs_supply a))
                     (delete id (acs_borrow a)) (delete id (acs_delegates a))).

Definition account_from_parts (owner : Address) (m : AccountMeta)
    (supply : PositionMap AccountPositionRaw) (borrow : PositionMap DebtPositionRaw) : Account :=
  {| acc_owner := owner;
     acc_spoke_id := meta_spoke_id m;
     acc_mode := meta_mode m;
     supply_positions := supply;
     borrow_positions := borrow |}.

Definition get_delegates (c : Controller) (id : Z) (owner : Address) : list Address :=
  match acs_delegates (c_accounts c) !! id with
  | Some grant => if bool_decide (granted_by grant = owner) then delegates grant else []
  | None => []
  end.

Definition write_delegates (c : Controller) (st : gmap Z DelegateGrant) : Controller :=
  let a := c_accounts c in
  with_accounts c (mkAccountStore (acs_meta a) (acs_supply a) (acs_borrow a) st).

Definition set_delegates (c : Controller) (id : Z) (owner : Address) (l : list Address)
    : Controller :=
  match l with
  | [] => write_delegates c (delete id (acs_delegates (c_accounts c)))
  | _ => write_delegates c (<[id := mkDelegateGrant owner l]> (acs_delegates (c_accounts c)))
  end.

Definition MAX_DELEGATES : Z := 16.

Definition add_delegate (c : Controller) (id : Z) (owner delegate : Address)
    : res (bool * Controller) :=
  let l := get_delegates c id owner in
  if bool_decide (delegate ∈ l) then Ok (false, c)
  else
    do! require (Z.of_nat (length l) <? MAX_DELEGATES) (EGeneric RegistryCapReached) in
    Ok (true, set_delegates c id owner (l ++ [delegate])).

(** [Vec::first_index_of] and [remove]: the first occurrence goes. *)
Fixpoint remove_first (x : Address) (l : list Address) : list Address :=
  match l with
  | [] => []
  | y :: l' => if bool_decide (y = x) then l' else y :: remove_first x l'
  end.

Definition remove_delegate (c : Controller) (id : Z) (owner delegate : Address)
    : bool * Controller :=
  match acs_delegates (c_accounts c) !! id with
  | None => (false, c)
  | Some grant =>
      if negb (bool_decide (granted_by grant = owner))
      then (false, write_delegates c (delete id (acs_delegates (c_accounts c))))
      else if bool_decide (delegate ∈ delegates grant)
      then (true, set_delegates c id owner (remove_first delegate (delegates grant)))
      else (false, c)
  end.

Definition is_flash_loan_ongoing (c : Controller) : bool := c_flash_ongoing c.
Definition set_flash_loan_ongoing (c : Controller) (ongoing : bool) : Controller :=
  with_flash c ongoing.

Section Owners.

Context {W : Type} `{Chain W}.

(** external/position_nft.rs: ids are [u32] tokens widened to [u64] accounts. *)
Definition nft_mint_call (w : W) (nft to : Address) : res (Z * W) := nft_mint w nft to.

Definition nft_burn_call (w : W) (nft : Address) (account_id : Z) : res W :=
  do! require (account_id <=? u32_max) (EGeneric AccountNotFound) in
  nft_burn w nft account_id.

Definition nft_try_owner_of_call (w : W) (nft : Address) (account_id : Z) : option Address :=
  if account_id <=? u32_max then nft_owner_of w nft account_id else None.

Definition try_account_owner (s : Sys W) (id : Z) : option Address :=
  match i_position_nft (c_instance (sy_ctl s)) with
  | None => None
  | Some nft => nft_try_owner_of_call (sy_host s) nft id
  end.

Definition account_owner (s : Sys W) (id : Z) : res Address :=
  of_option (EGeneric AccountNotFound) (try_account_owner s id).

Definition try_get_account (s : Sys W) (id : Z) : option Account :=
  match try_get_account_meta (sy_ctl s) id with
  | None => None
  | Some m =>
      match try_account_owner s id with
      | None => None
      | Some owner =>
          Some (account_from_parts owner m (get_supply_positions (sy_ctl s) id)
                  (get_debt_positions (sy_ctl s) id))
      end
  end.

Definition get_account (s : Sys W) (id : Z) : res Account :=
  of_option (EGeneric AccountNotFound) (try_get_account s id).

(** Supply is not loaded: the empty map does not mean there is none. *)
Definition get_account_borrow_only (s : Sys W) (id : Z) : res Account :=
  let* m := get_account_meta (sy_ctl s) id in
  let* owner := account_owner s id in
  Ok (account_from_parts owner m [] (get_debt_positions (sy_ctl s) id)).

(** external/price_aggregator.rs: every requested price must come back. *)
Definition aggregator_fetch (s : Sys W) (assets : list Address) : res (gmap Address PriceFeedRaw) :=
  let* aggregator := get_price_aggregator (sy_ctl s) in
  let* keyed := aggregator_prices (sy_host s) aggregator assets in
  rfold (fun out a =>
    let* feed := of_option (EOracle OracleNotConfigured) (keyed !! a) in
    Ok (<[a := feed]> out)) ∅ assets.

End Owners.

End Store.
