(* ===== verification/CtlContext.v ===== *)
(** * The invocation context of a flow
    (contracts/controller/src/context.rs, contracts/controller/src/external/pool.rs,
    contracts/controller/src/payments.rs, common/src/token.rs, common/src/collections.rs)

    A flow runs over [Flow]: the ledger and the buffers of the source's [Context].
    Prices and indexes are fetched once and then read from the buffers; usage and
    events are buffered and written by the flow's end.  The other memo maps of the
    source (spoke, listings, hubs, market parameters) cache values that no flow
    changes, so they are read from storage.  [reads] is the read-only [Context] that
    valuation and planning code takes. *)

From S2P Require Import Prelude Errors FpCore Fp PoolTypes RatesAccrual PoolCache PoolInterest PoolOps PoolSafety PoolContract ControllerTypes Risk PoolView Account SpokeUsage CtlState.
From stdpp Require Import base numbers list gmap.
From Stdlib Require Import ZArith Lia Bool.

Open Scope Z_scope.

(** ** State of a flow *)

Record Buffers : Type := mkBuffers {
  bf_token_prices : gmap Address PriceFeedRaw;
  bf_market_indexes : gmap HubAssetKey MarketIndexRaw;
  bf_spoke_usage : option SpokeUsage.SpokeUsageContext;
  bf_supply_updates : list EventDepositDelta;
  bf_debt_updates : list EventBorrowDelta
}.

Record Flow (W : Type) : Type := mkFlow { fl_sys : Sys W; fl_buf : Buffers }.
Arguments mkFlow {W}.
Arguments fl_sys {W}.
Arguments fl_buf {W}.

Abbreviation fl_ctl f := (sy_ctl (fl_sys f)).
Abbreviation fl_pool f := (sy_pool (fl_sys f)).
Abbreviation fl_host f := (sy_host (fl_sys f)).

Definition set_prices (b : Buffers) (m : gmap Address PriceFeedRaw) : Buffers :=
  mkBuffers m (bf_market_indexes b) (bf_spoke_usage b) (bf_supply_updates b) (bf_debt_updates b).
Definition set_indexes (b : Buffers) (m : gmap HubAssetKey MarketIndexRaw) : Buffers :=
  mkBuffers (bf_token_prices b) m (bf_spoke_usage b) (bf_supply_updates b) (bf_debt_updates b).
Definition set_usage (b : Buffers) (u : option SpokeUsage.SpokeUsageContext) : Buffers :=
  mkBuffers (bf_token_prices b) (bf_market_indexes b) u (bf_supply_updates b) (bf_debt_updates b).
Definition set_updates (b : Buffers) (s : list EventDepositDelta) (d : list EventBorrowDelta)
    : Buffers :=
  mkBuffers (bf_token_prices b) (bf_market_indexes b) (bf_spoke_usage b) s d.

Definition on_ctl {W : Type} (f : Flow W) (g : Controller -> Controller) : Flow W :=
  mkFlow (with_ctl (fl_sys f) (g (fl_ctl f))) (fl_buf f).
Definition on_host {W : Type} (f : Flow W) (w : W) : Flow W :=
  mkFlow (with_host (fl_sys f) w) (fl_buf f).
Definition on_buf {W : Type} (f : Flow W) (b : Buffers) : Flow W := mkFlow (fl_sys f) b.

(** ** Collections (common/src/collections.rs) *)

Definition push_unique_address (out : list Address) (a : Address) : list Address :=
  if bool_decide (a ∈ out) then out else out ++ [a].

Definition unique_hub_tokens (hub_assets : list HubAssetKey) : list Address :=
  fold_left (fun out h => push_unique_address out (asset h)) hub_assets [].

Definition collect_uncached_keys {K V : Type} `{Countable K} (requested : list K)
    (cache : gmap K V) : list K :=
  fold_left (fun missing k =>
    match cache !! k with
    | Some _ => missing
    | None => if bool_decide (k ∈ missing) then missing else missing ++ [k]
    end) requested [].

Module Ctx.

(** [Context::new] *)
Definition new_buffers : Buffers := mkBuffers ∅ ∅ None [] [].
Definition new {W : Type} (s : Sys W) : Flow W := mkFlow s new_buffers.

Section Flow.

Context {W : Type} `{Chain W}.
Context (env : Env).

(** The host side of a call into the pool: the controller is the direct invoker. *)
Definition pool_env (pool : Address) : Env :=
  {| ledger_timestamp := ledger_timestamp env;
     current_contract_address := pool;
     authorized := fun a => bool_decide (a = current_contract_address env) || authorized env a |}.

(** ** Reads *)

Definition cached_pool_address (f : Flow W) : res Address := Store.get_pool (fl_ctl f).

(** [cached_market_index]: the buffer, or the pool's projected index. *)
Definition index_of (f : Flow W) (h : HubAssetKey) : res MarketIndexRaw :=
  match bf_market_indexes (fl_buf f) !! h with
  | Some m => Ok m
  | None =>
      let* pool := cached_pool_address f in
      pool_view (pool_env pool) (fl_pool f) h
  end.

Definition reads (f : Flow W) : Context :=
  {| ctx_token_prices := bf_token_prices (fl_buf f);
     ctx_market_index := index_of f;
     ctx_spoke_assets := Store.get_spoke_asset (fl_ctl f);
     ctx_spokes := Store.try_get_spoke (fl_ctl f);
     ctx_min_borrow_collateral_usd_wad := Store.get_min_borrow_collateral_usd_wad (fl_ctl f) |}.

(** [cached_pool_sync_data(..).params.asset_decimals] *)
Definition market_decimals (f : Flow W) (h : HubAssetKey) : res Z :=
  do! cached_pool_address f in
  let* sync := Storage.load_sync_data (fl_pool f) h in
  Ok (rp_asset_decimals (sync_params sync)).

(** [config::require_hub_active] *)
Definition require_hub_active (f : Flow W) (hub : Z) : res unit :=
  require (match Store.get_hub (fl_ctl f) hub with Some c => hub_is_active c | None => false end)
    (EGeneric HubNotActive).

(** ** Market data *)

Definition fetch_prices (f : Flow W) (assets : list Address) : res (Flow W) :=
  let missing := collect_uncached_keys assets (bf_token_prices (fl_buf f)) in
  match missing with
  | [] => Ok f
  | _ =>
      let* fetched := Store.aggregator_fetch (fl_sys f) missing in
      Ok (on_buf f (set_prices (fl_buf f) (fetched ∪ bf_token_prices (fl_buf f))))
  end.

Definition put_market_index (f : Flow W) (h : HubAssetKey) (m : MarketIndexRaw) : Flow W :=
  on_buf f (set_indexes (fl_buf f) (<[h := m]> (bf_market_indexes (fl_buf f)))).

(** [cached_market_index], which keeps what it fetches. *)
Definition load_market_index (f : Flow W) (h : HubAssetKey) : res (MarketIndexRaw * Flow W) :=
  let* m := index_of f h in
  Ok (m, put_market_index f h m).

Definition fetch_market_indexes (f : Flow W) (hub_assets : list HubAssetKey) : res (Flow W) :=
  let missing := collect_uncached_keys hub_assets (bf_market_indexes (fl_buf f)) in
  match missing with
  | [] => Ok f
  | _ =>
      let* pool := cached_pool_address f in
      let* indexes := LiquidityPool.get_bulk_indexes (pool_env pool) (fl_pool f) missing in
      Ok (fold_left (fun f p => put_market_index f p.1 p.2) (zip missing indexes) f)
  end.

Definition load_markets (f : Flow W) (hub_assets : list HubAssetKey) : res (Flow W) :=
  let* f := fetch_prices f (unique_hub_tokens hub_assets) in
  fetch_market_indexes f hub_assets.

(** [risk::calculate_account_risk_totals], market data loaded first. *)
Definition account_risk_totals (f : Flow W) (supply : PositionMap AccountPositionRaw)
    (borrow : PositionMap DebtPositionRaw) : res (Risk.AccountRiskTotals * Flow W) :=
  let* f := load_markets f (Risk.portfolio_hub_keys (map_keys supply) (map_keys borrow)) in
  let* totals := Risk.calculate_account_risk_totals (reads f) supply borrow in
  Ok (totals, f).

(** ** Spoke usage *)

Definition ensure_spoke_context (f : Flow W) (spoke : Z)
    : res (SpokeUsage.SpokeUsageContext) :=
  match bf_spoke_usage (fl_buf f) with
  | Some ctx =>
      do! require (SpokeUsage.suc_spoke_id ctx =? spoke) (ESpoke SpokeMismatch) in
      Ok ctx
  | None => Ok (SpokeUsage.new spoke)
  end.

Definition put_usage (f : Flow W) (ctx : SpokeUsage.SpokeUsageContext) : Flow W :=
  on_buf f (set_usage (fl_buf f) (Some ctx)).

Definition reset_spoke_context (f : Flow W) : Flow W := on_buf f (set_usage (fl_buf f) None).

Definition apply_spoke_entry (f : Flow W) (spoke : Z) (side : SpokeUsage.UsageSide)
    (h : HubAssetKey) (delta_scaled : Ray) (market_index : MarketIndexRaw) (decimals : Z)
    : res (Flow W) :=
  let* ctx := ensure_spoke_context f spoke in
  let* ctx := SpokeUsage.apply_spoke_entry (reads f) (c_usage (fl_ctl f)) ctx side h
                delta_scaled market_index decimals in
  Ok (put_usage f ctx).

Definition apply_spoke_exit (f : Flow W) (spoke : Z) (side : SpokeUsage.UsageSide)
    (h : HubAssetKey) (delta_scaled : Ray) : res (Flow W) :=
  let* ctx := ensure_spoke_context f spoke in
  let* ctx := SpokeUsage.apply_exit (c_usage (fl_ctl f)) ctx side h delta_scaled in
  Ok (put_usage f ctx).

Definition persist_spoke_usage (f : Flow W) : Flow W :=
  match bf_spoke_usage (fl_buf f) with
  | None => f
  | Some ctx => on_ctl f (fun c => with_usage c (SpokeUsage.persist (c_usage c) ctx))
  end.

(** ** Events *)

Definition record_supply_position_update (f : Flow W) (action : PositionAction)
    (h : HubAssetKey) (index_ray amount : Z) (p : AccountPosition) : Flow W :=
  let b := fl_buf f in
  on_buf f (set_updates b (bf_supply_updates b ++ [deposit_delta action h index_ray amount p])
              (bf_debt_updates b)).

Definition record_debt_position_update (f : Flow W) (action : PositionAction)
    (h : HubAssetKey) (index_ray amount : Z) (p : DebtPosition) : Flow W :=
  let b := fl_buf f in
  on_buf f (set_updates b (bf_supply_updates b)
              (bf_debt_updates b ++ [borrow_delta action h index_ray amount p])).

Definition emit_position_batch (f : Flow W) (account_id : Z) (account : Account) : Flow W :=
  let b := fl_buf f in
  match bf_supply_updates b, bf_debt_updates b with
  | [], [] => f
  | s, d =>
      on_buf (on_ctl f (fun c =>
                publish c (UpdatePositionBatchEvent account_id (event_attributes account) s d)))
        (set_updates b [] [])
  end.

(** ** Calls into the pool (external/pool.rs)

    The pool's token transfers, in the order it logged them, run against the token
    contracts; a failing [transfer] fails the call, a failing [try_transfer] does not. *)

Definition settle_effect (pool : Address) (w : W) (e : Effect) : res W :=
  match e with
  | TransferOut token r a => token_transfer w token pool r a
  | TryTransferOut token r a =>
      match token_transfer w token pool r a with
      | Ok w' => Ok w'
      | Err _ => Ok w
      end
  | _ => Ok w
  end.

Definition pool_call {R : Type} (f : Flow W) (call : Env -> Pool -> res (R * Pool))
    : res (R * Flow W) :=
  let* pool := cached_pool_address f in
  let p := fl_pool f in
  let* (r, p') := call (pool_env pool) p in
  let* w := rfold (settle_effect pool) (fl_host f) (drop (length (pool_log p)) (pool_log p')) in
  Ok (r, mkFlow (mkSys (fl_ctl f) p' w) (fl_buf f)).

Definition pool_supply_call (f : Flow W) (entries : list PoolSupplyEntry)
    : res (list PoolPositionMutation * Flow W) :=
  pool_call f (fun e p => LiquidityPool.supply e p entries).

Definition pool_borrow_call (f : Flow W) (receiver : Address) (entries : list PoolBorrowEntry)
    : res (list PoolPositionMutation * Flow W) :=
  pool_call f (fun e p => LiquidityPool.borrow e p receiver entries).

Definition pool_withdraw_call (f : Flow W) (receiver : Address) (is_liquidation : bool)
    (entries : list PoolWithdrawEntry) : res (list PoolPositionMutation * Flow W) :=
  pool_call f (fun e p => LiquidityPool.withdraw e p receiver is_liquidation entries).

Definition pool_repay_call (f : Flow W) (payer : Address) (actions : list PoolAction)
    : res (list PoolPositionMutation * Flow W) :=
  pool_call f (fun e p => LiquidityPool.repay e p payer actions).

Definition pool_seize_positions_call (f : Flow W) (entries : list PoolSeizeEntry)
    : res (Flow W) :=
  let* (_, f) := pool_call f (fun e p =>
    let* p := LiquidityPool.seize_positions e p entries in Ok (tt, p)) in
  Ok f.

Definition pool_create_strategy_call (f : Flow W) (receiver : Address) (action : PoolAction)
    (charge_fee : bool) : res (PoolStrategyMutation * Flow W) :=
  pool_call f (fun e p => LiquidityPool.create_strategy e p receiver action charge_fee).

Definition pool_net_settle_call (f : Flow W) (entry : PoolNetSettleEntry)
    : res (PoolNetSettleResult * Flow W) :=
  pool_call f (fun e p => LiquidityPool.net_settle e p entry).

Definition pool_update_indexes_call (f : Flow W) (hs : list HubAssetKey) : res (Flow W) :=
  let* (_, f) := pool_call f (fun e p =>
    let* p := LiquidityPool.update_indexes e p hs in Ok (tt, p)) in
  Ok f.

Definition pool_claim_revenue_call (f : Flow W) (h : HubAssetKey)
    : res (PoolAmountMutation * Flow W) :=
  pool_call f (fun e p => LiquidityPool.claim_revenue e p h).

Definition pool_recapitalize_call (f : Flow W) (h : HubAssetKey) (payer : Address) (amount : Z)
    : res (PoolAmountMutation * Flow W) :=
  pool_call f (fun e p => LiquidityPool.recapitalize e p h payer amount).

(** ** Tokens *)

(** [transfer_amount_measured]; [err] is the error for a non-positive request. *)
Definition transfer_amount_measured (f : Flow W) (token from to : Address) (amount : Z)
    (err : GenericError) : res (Z * Flow W) :=
  do! require (0 <? amount) (EGeneric err) in
  let pre := token_balance (fl_host f) token to in
  let* w := token_transfer (fl_host f) token from to amount in
  let post := token_balance w token to in
  let* received := of_option (EGeneric AmountMustBePositive) (i128_checked_sub post pre) in
  Ok (received, on_host f w).

Definition balance_delta_since (f : Flow W) (token holder : Address) (before : Z) : res Z :=
  of_option (EGeneric InternalError)
    (i128_checked_sub (token_balance (fl_host f) token holder) before).

Definition refund_controller_balance_delta (f : Flow W) (token : Address) (balance_before : Z)
    (refund_to : Address) : res (Flow W) :=
  let controller := current_contract_address env in
  let* excess := balance_delta_since f token controller balance_before in
  if 0 <? excess then
    let* w := token_transfer (fl_host f) token controller refund_to excess in
    Ok (on_host f w)
  else Ok f.

(** [with_flash_guard] *)
Definition with_flash_guard {A : Type} (f : Flow W) (body : Flow W -> res (A * Flow W))
    : res (A * Flow W) :=
  let prev := Store.is_flash_loan_ongoing (fl_ctl f) in
  let* (out, f) := body (on_ctl f (fun c => Store.set_flash_loan_ongoing c true)) in
  Ok (out, if prev then f else on_ctl f (fun c => Store.set_flash_loan_ongoing c false)).

(** ** Guards (risk/validation.rs) *)

Definition require_auth (a : Address) : res unit := require (authorized env a) HostTrap.

Definition require_not_flash_loaning (s : Sys W) : res unit :=
  require (negb (Store.is_flash_loan_ongoing (sy_ctl s))) (EFlashLoan FlashLoanOngoing).

Definition require_authorized_caller (s : Sys W) (caller : Address) : res unit :=
  do! require_auth caller in
  require_not_flash_loaning s.

End Flow.

End Ctx.

(** ** Account lifecycle (contracts/controller/src/account.rs)

    Creation mints an NFT and stores metadata; the NFT's holder owns the account, and
    an active manager the holder delegated to may act for it.  Deletion removes every
    entry and burns the NFT. *)

Module Acct.

Inductive SpokeAdmission : Type := ActiveOnly | AllowDeprecated.
Inductive AccountGuard : Type := GuardSupply | GuardMigrate | GuardMultiply.

Section Accounts.

Context {W : Type} `{Chain W}.
Context (env : Env).

Definition new_account (owner : Address) (spoke_id : Z) (mode : PositionMode) : Account :=
  {| acc_owner := owner;
     acc_spoke_id := spoke_id;
     acc_mode := mode;
     supply_positions := [];
     borrow_positions := [] |}.

Definition create_account_with (f : Flow W) (owner : Address) (spoke_id : Z)
    (mode : PositionMode) (admission : SpokeAdmission) : res (Z * Account * Flow W) :=
  do! require (1 <=? spoke_id) (ESpoke SpokeNotFound) in
  do! (match admission with
       | ActiveOnly => active_spoke (Ctx.reads env f) spoke_id
       | AllowDeprecated => spoke_config (Ctx.reads env f) spoke_id
       end) in
  let* nft := Store.get_position_nft (fl_ctl f) in
  let* (account_id, w) := Store.nft_mint_call (fl_host f) nft owner in
  let f := on_ctl (on_host f w) (fun c =>
             Store.set_account_meta c account_id (mkAccountMeta spoke_id mode)) in
  Ok (account_id, new_account owner spoke_id mode, f).

Definition create_account (f : Flow W) (owner : Address) (spoke_id : Z) (mode : PositionMode)
    : res (Z * Account * Flow W) := create_account_with f owner spoke_id mode ActiveOnly.

Definition is_owner_or_delegate (c : Controller) (account_id : Z) (caller owner : Address)
    : bool :=
  bool_decide (caller = owner)
  || (match Store.get_position_manager c caller with
      | Some config => manager_is_active config
      | None => false
      end
      && bool_decide (caller ∈ Store.get_delegates c account_id owner)).

Definition require_owner_or_delegate (c : Controller) (account_id : Z) (caller owner : Address)
    : res unit :=
  require (is_owner_or_delegate c account_id caller owner) (EGeneric NotAuthorized).

Definition require_spoke_match (account : Account) (spoke_id : Z) : res unit :=
  require (spoke_id =? acc_spoke_id account) (ESpoke SpokeMismatch).

Definition load_or_create_account (f : Flow W) (caller : Address) (account_id spoke_id : Z)
    (mode : PositionMode) (guard : AccountGuard) : res (Z * Account * Flow W) :=
  if account_id =? 0 then create_account f caller spoke_id mode
  else
    let* account := Store.get_account (fl_sys f) account_id in
    do! (match guard with
         | GuardSupply => require_spoke_match account spoke_id
         | GuardMigrate =>
             do! require_owner_or_delegate (fl_ctl f) account_id caller (acc_owner account) in
             require_spoke_match account spoke_id
         | GuardMultiply =>
             do! require_owner_or_delegate (fl_ctl f) account_id caller (acc_owner account) in
             do! require_spoke_match account spoke_id in
             require (bool_decide (acc_mode account = mode)) (EGeneric AccountModeMismatch)
         end) in
    Ok (account_id, account, f).

Definition require_account_owner (s : Sys W) (account_id : Z) (caller : Address)
    : res AccountMeta :=
  let* m := Store.get_account_meta (sy_ctl s) account_id in
  let* owner := Store.account_owner s account_id in
  do! require (bool_decide (owner = caller)) (EGeneric AccountNotInMarket) in
  Ok m.

Definition remove_account_and_burn_nft (f : Flow W) (account_id : Z) : res (Flow W) :=
  let f := on_ctl f (fun c => Store.remove_account_entry c account_id) in
  let* nft := Store.get_position_nft (fl_ctl f) in
  let* w := Store.nft_burn_call (fl_host f) nft account_id in
  Ok (on_host f w).

Definition cleanup_account_if_empty (f : Flow W) (account : Account) (account_id : Z)
    : res (Flow W) :=
  if account_is_empty account then remove_account_and_burn_nft f account_id else Ok f.

(** ** Delegates *)

Definition set_account_delegate (s : Sys W) (caller : Address) (account_id : Z)
    (delegate : Address) (add : bool) : res (Sys W) :=
  do! Ctx.require_auth env caller in
  do! require_account_owner s account_id caller in
  do! (if add then
         require (match Store.get_position_manager (sy_ctl s) delegate with
                  | Some c => manager_is_active c
                  | None => false
                  end) (EGeneric NotAuthorized)
       else Ok tt) in
  let* (changed, c) :=
    (if add then Store.add_delegate (sy_ctl s) account_id caller delegate
     else Ok (Store.remove_delegate (sy_ctl s) account_id caller delegate)) in
  Ok (with_ctl s
        (if changed : bool
         then publish c (AccountDelegateEvent account_id caller delegate add) else c)).

Definition add_delegate (s : Sys W) (caller : Address) (account_id : Z) (delegate : Address)
    : res (Sys W) := set_account_delegate s caller account_id delegate true.

Definition remove_delegate (s : Sys W) (caller : Address) (account_id : Z) (delegate : Address)
    : res (Sys W) := set_account_delegate s caller account_id delegate false.

End Accounts.

End Acct.
