(* ===== verification/CtlBooks.v ===== *)
(** * The controller's books

    Shares per market, summed over the stored accounts.  [books] says that the sums are
    what the pool has issued and what the spokes' usage rows say, and that every stored
    map is well formed; its last two arguments are the changes a flow has made in the
    pool and not yet written to its account. *)

From S2P Require Import Prelude Errors FpCore Fp PoolTypes PoolCache PoolSafety PoolContract ControllerTypes PoolView PoolMoves Account SpokeUsage Risk RiskParams CtlState CtlContext.
From stdpp Require Import base numbers list gmap fin_maps.
From Stdlib Require Import ZArith Lia Bool.

Open Scope Z_scope.

Module Books.

Import SpokeUsage.

(** ** Maps of one account *)

Definition sup (m : PositionMap AccountPositionRaw) (h : HubAssetKey) : Z :=
  from_option apr_scaled_amount 0 (map_get m h).
Definition deb (m : PositionMap DebtPositionRaw) (h : HubAssetKey) : Z :=
  from_option dpr_scaled_amount 0 (map_get m h).

Definition supply_ok (m : PositionMap AccountPositionRaw) : Prop :=
  map_sorted m /\ Forall (fun e => 0 < apr_scaled_amount e.2 /\ position_ok e.2) m.
Definition debt_ok (m : PositionMap DebtPositionRaw) : Prop :=
  map_sorted m /\ Forall (fun e => 0 < dpr_scaled_amount e.2 <= i128_max) m.

Section Maps.
Context {V : Type} (P : HubAssetKey * V -> Prop).
Implicit Types m : PositionMap V.

Lemma Forall_map_set m k v : Forall P m -> P (k, v) -> Forall P (map_set m k v).
Proof using.
  induction m as [|[a w] m IH]; simpl; intros Hm Hv; [by repeat constructor|].
  apply Forall_cons in Hm as [Ha Hm]. case_bool_decide; [by constructor|].
  destruct (key_ltb k a); repeat constructor; auto.
Qed.

Lemma Forall_map_remove m k : Forall P m -> Forall P (map_remove m k).
Proof using.
  induction m as [|[a w] m IH]; simpl; intros Hm; [done|].
  apply Forall_cons in Hm as [Ha Hm]. case_bool_decide; [done|]. constructor; auto.
Qed.

Lemma Forall_map_get m k v : Forall P m -> map_get m k = Some v -> P (k, v).
Proof using.
  induction m as [|[a w] m IH]; simpl; intros Hm Hg; [done|].
  apply Forall_cons in Hm as [Ha Hm]. case_bool_decide; [by subst; injection Hg as <-|auto].
Qed.
End Maps.

Lemma sup_nonneg m h : supply_ok m -> 0 <= sup m h.
Proof.
  intros [_ Hm]. unfold sup. destruct (map_get m h) as [p|] eqn:E; simpl; [|lia].
  apply (Forall_map_get _ _ _ _ Hm) in E. simpl in E. lia.
Qed.

Lemma deb_nonneg m h : debt_ok m -> 0 <= deb m h.
Proof.
  intros [_ Hm]. unfold deb. destruct (map_get m h) as [p|] eqn:E; simpl; [|lia].
  apply (Forall_map_get _ _ _ _ Hm) in E. simpl in E. lia.
Qed.

(** Writing a position back, or removing it at zero. *)
Lemma sup_update a h p k :
  map_sorted (supply_positions a) ->
  sup (supply_positions (update_or_remove_supply_position a h p)) k
  = if decide (h = k) then ap_scaled_amount p else sup (supply_positions a) k.
Proof.
  intros Hs. unfold sup, update_or_remove_supply_position, Ray.ZERO. simpl.
  destruct (Z.eqb_spec (ap_scaled_amount p) 0) as [E|E]; simpl.
  - destruct (decide (h = k)) as [<-|Hne]; [by rewrite map_get_remove_eq|].
    by rewrite map_get_remove_ne.
  - rewrite map_get_set. by destruct (decide (h = k)).
Qed.

Lemma deb_update a h p k :
  map_sorted (borrow_positions a) ->
  deb (borrow_positions (update_or_remove_debt_position a h p)) k
  = if decide (h = k) then dp_scaled_amount p else deb (borrow_positions a) k.
Proof.
  intros Hs. unfold deb, update_or_remove_debt_position, Ray.ZERO. simpl.
  destruct (Z.eqb_spec (dp_scaled_amount p) 0) as [E|E]; simpl.
  - destruct (decide (h = k)) as [<-|Hne]; [by rewrite map_get_remove_eq|].
    by rewrite map_get_remove_ne.
  - rewrite map_get_set. by destruct (decide (h = k)).
Qed.

Lemma supply_ok_update a h p :
  supply_ok (supply_positions a) -> 0 <= ap_scaled_amount p <= i128_max ->
  0 <= ap_liquidation_threshold p <= BPS -> 0 <= ap_liquidation_fees p < BPS ->
  supply_ok (supply_positions (update_or_remove_supply_position a h p)).
Proof.
  intros [Hs Hf] Hsc Ht Hfe. unfold update_or_remove_supply_position, Ray.ZERO. simpl.
  destruct (Z.eqb_spec (ap_scaled_amount p) 0) as [E|E]; simpl.
  - split; [by apply map_remove_sorted|by apply Forall_map_remove].
  - split; [by apply map_set_sorted|]. apply Forall_map_set; [done|]. simpl.
    split; [lia|]. by apply RiskParams.stamped_ok.
Qed.

Lemma debt_ok_update a h p :
  debt_ok (borrow_positions a) -> 0 <= dp_scaled_amount p <= i128_max ->
  debt_ok (borrow_positions (update_or_remove_debt_position a h p)).
Proof.
  intros [Hs Hf] Hsc. unfold update_or_remove_debt_position, Ray.ZERO. simpl.
  destruct (Z.eqb_spec (dp_scaled_amount p) 0) as [E|E]; simpl.
  - split; [by apply map_remove_sorted|by apply Forall_map_remove].
  - split; [by apply map_set_sorted|]. apply Forall_map_set; [done|]. simpl. lia.
Qed.

(** ** Sums over accounts *)

Section Total.
Context {V : Type} (share : PositionMap V -> HubAssetKey -> Z).
Context (Hnil : forall h, share [] h = 0).
Implicit Types st : gmap Z (PositionMap V).

Definition total (keep : Z -> bool) st (h : HubAssetKey) : Z :=
  map_fold (fun id m acc => (if keep id then share m h else 0) + acc) 0 st.

Definition own st (id : Z) (h : HubAssetKey) : Z := share (default [] (st !! id)) h.

Lemma holdings_insert_new kp st id m h :
  st !! id = None -> total kp (<[id := m]> st) h = (if kp id then share m h else 0) + total kp st h.
Proof using.
  intros Hk. unfold total. rewrite map_fold_insert_L; [done| |done]. intros; lia.
Qed.

Lemma holdings_delete kp st id h :
  total kp (delete id st) h = total kp st h - (if kp id then own st id h else 0).
Proof using Hnil.
  unfold own. destruct (st !! id) as [m|] eqn:E; simpl.
  - rewrite <- (insert_delete_id st id m E) at 2.
    rewrite holdings_insert_new by apply lookup_delete_eq. lia.
  - rewrite delete_id by done. rewrite Hnil. destruct (kp id); lia.
Qed.

Lemma holdings_insert kp st id m h :
  total kp (<[id := m]> st) h
  = total kp st h + (if kp id then share m h - own st id h else 0).
Proof using Hnil.
  rewrite <- insert_delete_eq, holdings_insert_new by apply lookup_delete_eq.
  rewrite holdings_delete. destruct (kp id); lia.
Qed.

Lemma total_write kp st id m h :
  total kp (Store.write_side_map st id m) h = total kp (<[id := m]> st) h.
Proof using Hnil.
  destruct m; [|done]. simpl. rewrite holdings_delete, holdings_insert, Hnil. destruct (kp id); lia.
Qed.

Lemma total_ext kp kp' st h :
  (forall id m, st !! id = Some m -> kp id = kp' id) -> total kp st h = total kp' st h.
Proof using.
  induction st as [|id m st Hi IH] using map_ind; intros Hk; [done|].
  rewrite !holdings_insert_new by done. rewrite (Hk id m) by apply lookup_insert_eq.
  rewrite IH; [done|]. intros id' m' Hm. apply (Hk id' m').
  rewrite lookup_insert_ne; [done|congruence].
Qed.

Lemma total_nonneg kp st h :
  (forall id m, st !! id = Some m -> 0 <= share m h) -> 0 <= total kp st h.
Proof using.
  induction st as [|id m st Hi IH] using map_ind; intros Hk; [done|].
  rewrite !holdings_insert_new by done.
  assert (0 <= share m h) by (apply (Hk id); apply lookup_insert_eq).
  assert (0 <= total kp st h); [|destruct (kp id); lia].
  apply IH. intros id' m' Hm. apply (Hk id' m'). rewrite lookup_insert_ne; [done|congruence].
Qed.

Lemma total_ge_own kp st id h :
  (forall id m, st !! id = Some m -> 0 <= share m h) -> kp id = true ->
  own st id h <= total kp st h.
Proof using Hnil.
  intros Hk Hkp. pose proof (holdings_delete kp st id h) as Hd. rewrite Hkp in Hd.
  assert (0 <= total kp (delete id st) h); [|lia]. apply total_nonneg.
  intros id' m' Hm. apply lookup_delete_Some in Hm as [_ Hm]. by apply (Hk id').
Qed.
End Total.

Lemma sup_nil h : sup [] h = 0. Proof. done. Qed.
Lemma deb_nil h : deb [] h = 0. Proof. done. Qed.

Definition everyone (_ : Z) : bool := true.
Definition in_spoke (metas : gmap Z AccountMeta) (spoke : Z) (id : Z) : bool :=
  match metas !! id with
  | Some m => meta_spoke_id m =? spoke
  | None => false
  end.

(** ** The books *)

Abbreviation UsageView := (Z -> HubAssetKey -> UsageSide -> Z).

Record books (acs : AccountStore) (u : UsageView) (p : Pool) (ds db : HubAssetKey -> Z)
    : Prop := {
  bk_backed : backed p (fun h => total sup everyone (acs_supply acs) h + ds h)
                       (fun h => total deb everyone (acs_borrow acs) h + db h);
  bk_supply_usage : forall spoke h,
    u spoke h SupplySide = total sup (in_spoke (acs_meta acs) spoke) (acs_supply acs) h;
  bk_borrow_usage : forall spoke h,
    u spoke h BorrowSide = total deb (in_spoke (acs_meta acs) spoke) (acs_borrow acs) h;
  bk_supply_ok : forall id m, acs_supply acs !! id = Some m -> supply_ok m;
  bk_debt_ok : forall id m, acs_borrow acs !! id = Some m -> debt_ok m;
  bk_meta : forall id, acs_meta acs !! id = None ->
    acs_supply acs !! id = None /\ acs_borrow acs !! id = None
}.

(** The stored books. *)
Definition stored_books (c : Controller) (p : Pool) : Prop :=
  books (c_accounts c) (used (c_usage c)) p nothing nothing.

(** The account store with the maps a flow holds for account [id]. *)
Definition put_maps (acs : AccountStore) (id : Z) (s : PositionMap AccountPositionRaw)
    (b : PositionMap DebtPositionRaw) : AccountStore :=
  mkAccountStore (acs_meta acs) (<[id := s]> (acs_supply acs)) (<[id := b]> (acs_borrow acs))
    (acs_delegates acs).

Lemma books_ext acs u u' p ds ds' db db' :
  (forall s h x, u' s h x = u s h x) -> (forall h, ds' h = ds h) -> (forall h, db' h = db h) ->
  books acs u p ds db -> books acs u' p ds' db'.
Proof.
  intros Hu Hs Hd [H1 H2 H3 H4 H5 H6]. split; try done.
  - eapply backed_ext; [| |exact H1]; intros h; simpl; rewrite ?Hs, ?Hd; done.
  - intros. rewrite Hu. apply H2.
  - intros. rewrite Hu. apply H3.
Qed.

(** Changing the supply map of the account in flight by [d] at market [h]. *)
Lemma books_set_supply acs id m s b u p ds db s' h d u' :
  acs_meta acs !! id = Some m ->
  books (put_maps acs id s b) u p ds db ->
  supply_ok s' -> (forall k, sup s' k = sup s k + at_key h k d) ->
  (forall spoke k, u' spoke k SupplySide
     = u spoke k SupplySide + if spoke =? meta_spoke_id m then at_key h k d else 0) ->
  (forall spoke k, u' spoke k BorrowSide = u spoke k BorrowSide) ->
  books (put_maps acs id s' b) u' p (fun k => ds k - at_key h k d) db.
Proof.
  intros Hm [H1 H2 H3 H4 H5 H6] Hs' Hd Hu Hu'. split; simpl in *.
  - eapply backed_ext; [| |exact H1]; intros k; simpl; [|done].
    rewrite !(holdings_insert sup sup_nil), (Hd k). simpl. lia.
  - intros spoke k. rewrite Hu, H2, !(holdings_insert sup sup_nil), (Hd k).
    unfold in_spoke. rewrite Hm, (Z.eqb_sym (meta_spoke_id m)).
    destruct (spoke =? meta_spoke_id m); lia.
  - intros spoke k. by rewrite Hu', H3.
  - intros id' m'. destruct (decide (id = id')) as [<-|Hne].
    + rewrite lookup_insert_eq. by intros [= <-].
    + rewrite lookup_insert_ne by done. intros Hl. apply (H4 id').
      by rewrite lookup_insert_ne.
  - exact H5.
  - intros id' Hn. destruct (decide (id = id')) as [<-|Hne]; [congruence|].
    specialize (H6 id' Hn). by rewrite !lookup_insert_ne in * by done.
Qed.

Lemma books_set_debt acs id m s b u p ds db b' h d u' :
  acs_meta acs !! id = Some m ->
  books (put_maps acs id s b) u p ds db ->
  debt_ok b' -> (forall k, deb b' k = deb b k + at_key h k d) ->
  (forall spoke k, u' spoke k BorrowSide
     = u spoke k BorrowSide + if spoke =? meta_spoke_id m then at_key h k d else 0) ->
  (forall spoke k, u' spoke k SupplySide = u spoke k SupplySide) ->
  books (put_maps acs id s b') u' p ds (fun k => db k - at_key h k d).
Proof.
  intros Hm [H1 H2 H3 H4 H5 H6] Hs' Hd Hu Hu'. split; simpl in *.
  - eapply backed_ext; [| |exact H1]; intros k; simpl; [done|].
    rewrite !(holdings_insert deb deb_nil), (Hd k). simpl. lia.
  - intros spoke k. by rewrite Hu', H2.
  - intros spoke k. rewrite Hu, H3, !(holdings_insert deb deb_nil), (Hd k).
    unfold in_spoke. rewrite Hm, (Z.eqb_sym (meta_spoke_id m)).
    destruct (spoke =? meta_spoke_id m); lia.
  - exact H4.
  - intros id' m'. destruct (decide (id = id')) as [<-|Hne].
    + rewrite lookup_insert_eq. by intros [= <-].
    + rewrite lookup_insert_ne by done. intros Hl. apply (H5 id').
      by rewrite lookup_insert_ne.
  - intros id' Hn. destruct (decide (id = id')) as [<-|Hne]; [congruence|].
    specialize (H6 id' Hn). by rewrite !lookup_insert_ne in * by done.
Qed.

(** The same shares under other parameters. *)
Lemma books_restamp acs id m s b u p ds db s' :
  acs_meta acs !! id = Some m -> books (put_maps acs id s b) u p ds db ->
  supply_ok s' -> (forall k, sup s' k = sup s k) -> books (put_maps acs id s' b) u p ds db.
Proof.
  intros Hm Hb Hs Hk. assert (forall h k, at_key h k 0 = 0) as Hz
    by (intros; unfold at_key; by destruct (decide _)).
  pose proof (books_set_supply _ _ _ _ _ _ _ _ _ s' (mkHubAssetKey 0 (mkAddress 0%N)) 0 u Hm Hb Hs)
    as H.
  eapply books_ext; [| | |apply H]; intros; simpl; rewrite ?Hz, ?Hk; try done; try lia.
  destruct (_ =? _); lia.
Qed.

(** What one account holds is part of its spoke's usage. *)
Lemma books_usage_ge acs id m s b u p ds db h :
  acs_meta acs !! id = Some m -> books (put_maps acs id s b) u p ds db ->
  sup s h <= u (meta_spoke_id m) h SupplySide /\ deb b h <= u (meta_spoke_id m) h BorrowSide.
Proof.
  intros Hm [_ H2 H3 H4 H5 _]. rewrite H2, H3. simpl in *.
  assert (in_spoke (acs_meta acs) (meta_spoke_id m) id = true) as Hk
    by (unfold in_spoke; rewrite Hm; apply Z.eqb_refl).
  pose proof (total_ge_own sup sup_nil _ (<[id:=s]> (acs_supply acs)) id h
    (fun i x Hx => sup_nonneg _ _ (H4 i x Hx)) Hk) as Hs.
  pose proof (total_ge_own deb deb_nil _ (<[id:=b]> (acs_borrow acs)) id h
    (fun i x Hx => deb_nonneg _ _ (H5 i x Hx)) Hk) as Hb.
  unfold own in Hs. rewrite lookup_insert_eq in Hs. simpl in Hs.
  unfold own in Hb. rewrite lookup_insert_eq in Hb. simpl in Hb. by split.
Qed.

(** The maps in flight. *)
Lemma books_maps_ok acs id s b u p ds db :
  books (put_maps acs id s b) u p ds db -> supply_ok s /\ debt_ok b.
Proof.
  intros [_ _ _ H4 H5 _]. split; [apply (H4 id)|apply (H5 id)]; apply lookup_insert_eq.
Qed.

(** ** Loading and storing *)

Lemma supply_ok_nil : supply_ok [].
Proof. split; constructor. Qed.
Lemma debt_ok_nil : debt_ok [].
Proof. split; constructor. Qed.

(** Holding an account's stored maps changes nothing. *)
Lemma books_load acs id m u p ds db :
  acs_meta acs !! id = Some m -> books acs u p ds db ->
  books (put_maps acs id (default [] (acs_supply acs !! id)) (default [] (acs_borrow acs !! id)))
    u p ds db.
Proof.
  intros Hm [H1 H2 H3 H4 H5 H6].
  assert (forall kp h, total sup kp (<[id := default [] (acs_supply acs !! id)]> (acs_supply acs)) h
    = total sup kp (acs_supply acs) h) as Es.
  { intros kp h. rewrite (holdings_insert sup sup_nil). unfold own. destruct (kp id); lia. }
  assert (forall kp h, total deb kp (<[id := default [] (acs_borrow acs !! id)]> (acs_borrow acs)) h
    = total deb kp (acs_borrow acs) h) as Eb.
  { intros kp h. rewrite (holdings_insert deb deb_nil). unfold own. destruct (kp id); lia. }
  split; simpl.
  - eapply backed_ext; [| |exact H1]; intros k; simpl; by rewrite ?Es, ?Eb.
  - intros. by rewrite Es.
  - intros. by rewrite Eb.
  - intros id' m'. destruct (decide (id = id')) as [<-|Hne].
    + rewrite lookup_insert_eq. intros [= <-]. destruct (acs_supply acs !! id) eqn:E; [eauto|].
      apply supply_ok_nil.
    + rewrite lookup_insert_ne by done. apply H4.
  - intros id' m'. destruct (decide (id = id')) as [<-|Hne].
    + rewrite lookup_insert_eq. intros [= <-]. destruct (acs_borrow acs !! id) eqn:E; [eauto|].
      apply debt_ok_nil.
    + rewrite lookup_insert_ne by done. apply H5.
  - intros id' Hn. destruct (decide (id = id')) as [<-|Hne]; [congruence|].
    rewrite !lookup_insert_ne by done. by apply H6.
Qed.

(** Writing the maps in flight to storage, empty maps as deletions. *)
Lemma books_store acs id m s b u p ds db :
  acs_meta acs !! id = Some m -> books (put_maps acs id s b) u p ds db ->
  books (mkAccountStore (acs_meta acs) (Store.write_side_map (acs_supply acs) id s)
           (Store.write_side_map (acs_borrow acs) id b) (acs_delegates acs)) u p ds db.
Proof.
  intros Hm [H1 H2 H3 H4 H5 H6]. simpl in *. split; simpl.
  - eapply backed_ext; [| |exact H1]; intros k; simpl.
    + by rewrite (total_write sup sup_nil).
    + by rewrite (total_write deb deb_nil).
  - intros. by rewrite (total_write sup sup_nil).
  - intros. by rewrite (total_write deb deb_nil).
  - intros id' m' Hl. apply (H4 id'). destruct s; [|done]. simpl in Hl.
    apply lookup_delete_Some in Hl as [Hne Hl]. by rewrite lookup_insert_ne.
  - intros id' m' Hl. apply (H5 id'). destruct b; [|done]. simpl in Hl.
    apply lookup_delete_Some in Hl as [Hne Hl]. by rewrite lookup_insert_ne.
  - intros id' Hn. destruct (decide (id = id')) as [<-|Hne]; [congruence|].
    specialize (H6 id' Hn). rewrite !lookup_insert_ne in H6 by done.
    split; [destruct s|destruct b]; simpl;
      rewrite ?lookup_delete_ne, ?lookup_insert_ne by done; tauto.
Qed.

(** Writing one side only: the other is as stored. *)
Lemma books_store_supply acs id m s u p ds db :
  acs_meta acs !! id = Some m ->
  books (put_maps acs id s (default [] (acs_borrow acs !! id))) u p ds db ->
  books (mkAccountStore (acs_meta acs) (Store.write_side_map (acs_supply acs) id s)
           (acs_borrow acs) (acs_delegates acs)) u p ds db.
Proof.
  intros Hm [H1 H2 H3 H4 H5 H6]. simpl in *.
  assert (forall kp h, total deb kp (<[id := default [] (acs_borrow acs !! id)]> (acs_borrow acs)) h
    = total deb kp (acs_borrow acs) h) as Eb.
  { intros kp h. rewrite (holdings_insert deb deb_nil). unfold own. destruct (kp id); lia. }
  split; simpl.
  - eapply backed_ext; [| |exact H1]; intros k; simpl.
    + by rewrite (total_write sup sup_nil).
    + by rewrite Eb.
  - intros. by rewrite (total_write sup sup_nil).
  - intros. by rewrite H3, Eb.
  - intros id' m' Hl. apply (H4 id'). destruct s; [|done]. simpl in Hl.
    apply lookup_delete_Some in Hl as [Hne Hl]. by rewrite lookup_insert_ne.
  - intros id' m' Hl. apply (H5 id'). destruct (decide (id = id')) as [<-|Hne].
    + by rewrite lookup_insert_eq, Hl.
    + by rewrite lookup_insert_ne.
  - intros id' Hn. destruct (decide (id = id')) as [<-|Hne]; [congruence|].
    specialize (H6 id' Hn). rewrite !lookup_insert_ne in H6 by done.
    split; [destruct s|]; simpl; rewrite ?lookup_delete_ne, ?lookup_insert_ne by done; tauto.
Qed.

Lemma books_store_debt acs id m b u p ds db :
  acs_meta acs !! id = Some m ->
  books (put_maps acs id (default [] (acs_supply acs !! id)) b) u p ds db ->
  books (mkAccountStore (acs_meta acs) (acs_supply acs)
           (Store.write_side_map (acs_borrow acs) id b) (acs_delegates acs)) u p ds db.
Proof.
  intros Hm [H1 H2 H3 H4 H5 H6]. simpl in *.
  assert (forall kp h, total sup kp (<[id := default [] (acs_supply acs !! id)]> (acs_supply acs)) h
    = total sup kp (acs_supply acs) h) as Es.
  { intros kp h. rewrite (holdings_insert sup sup_nil). unfold own. destruct (kp id); lia. }
  split; simpl.
  - eapply backed_ext; [| |exact H1]; intros k; simpl.
    + by rewrite Es.
    + by rewrite (total_write deb deb_nil).
  - intros. by rewrite H2, Es.
  - intros. by rewrite (total_write deb deb_nil).
  - intros id' m' Hl. apply (H4 id'). destruct (decide (id = id')) as [<-|Hne].
    + by rewrite lookup_insert_eq, Hl.
    + by rewrite lookup_insert_ne.
  - intros id' m' Hl. apply (H5 id'). destruct b; [|done]. simpl in Hl.
    apply lookup_delete_Some in Hl as [Hne Hl]. by rewrite lookup_insert_ne.
  - intros id' Hn. destruct (decide (id = id')) as [<-|Hne]; [congruence|].
    specialize (H6 id' Hn). rewrite !lookup_insert_ne in H6 by done.
    split; [|destruct b]; simpl; rewrite ?lookup_delete_ne, ?lookup_insert_ne by done; tauto.
Qed.

(** A call that moves the pool's backing leaves the change pending. *)
Lemma books_moved acs u p p' ds db ds' db' :
  (forall fs fb, backed p fs fb -> backed p' (fun h => fs h + ds' h) (fun h => fb h + db' h)) ->
  books acs u p ds db -> books acs u p' (fun h => ds h + ds' h) (fun h => db h + db' h).
Proof.
  intros Hm [H1 H2 H3 H4 H5 H6]. split; try done.
  eapply backed_ext; [| |exact (Hm _ _ H1)]; intros h; simpl; lia.
Qed.

(** Deleting an account whose maps are empty. *)
Lemma books_remove acs id u p ds db :
  default [] (acs_supply acs !! id) = [] -> default [] (acs_borrow acs !! id) = [] ->
  books acs u p ds db ->
  books (mkAccountStore (delete id (acs_meta acs)) (delete id (acs_supply acs))
           (delete id (acs_borrow acs)) (delete id (acs_delegates acs))) u p ds db.
Proof.
  intros Es Eb [H1 H2 H3 H4 H5 H6]. split; simpl.
  - eapply backed_ext; [| |exact H1]; intros k; simpl.
    + rewrite (holdings_delete sup sup_nil). unfold own. rewrite Es, sup_nil. simpl. lia.
    + rewrite (holdings_delete deb deb_nil). unfold own. rewrite Eb, deb_nil. simpl. lia.
  - intros spoke h. rewrite H2. rewrite <- (total_ext sup (in_spoke (acs_meta acs) spoke)
      (in_spoke (delete id (acs_meta acs)) spoke)).
    + rewrite (holdings_delete sup sup_nil). unfold own. rewrite Es, sup_nil.
      destruct (in_spoke _ _ _); lia.
    + intros id' m' Hl. apply lookup_delete_Some in Hl as [Hne _]. unfold in_spoke.
      by rewrite lookup_delete_ne.
  - intros spoke h. rewrite H3. rewrite <- (total_ext deb (in_spoke (acs_meta acs) spoke)
      (in_spoke (delete id (acs_meta acs)) spoke)).
    + rewrite (holdings_delete deb deb_nil). unfold own. rewrite Eb, deb_nil.
      destruct (in_spoke _ _ _); lia.
    + intros id' m' Hl. apply lookup_delete_Some in Hl as [Hne _]. unfold in_spoke.
      by rewrite lookup_delete_ne.
  - intros id' m' Hl. apply lookup_delete_Some in Hl as [_ Hl]. eauto.
  - intros id' m' Hl. apply lookup_delete_Some in Hl as [_ Hl]. eauto.
  - intros id' Hn. destruct (decide (id = id')) as [<-|Hne].
    + by rewrite !lookup_delete_eq.
    + rewrite lookup_delete_ne in Hn by done. rewrite !lookup_delete_ne by done. by apply H6.
Qed.

(** Deleting an account whose maps in flight are empty. *)
Lemma books_erase acs id u p ds db :
  books (put_maps acs id [] []) u p ds db ->
  books (mkAccountStore (delete id (acs_meta acs)) (delete id (acs_supply acs))
           (delete id (acs_borrow acs)) (delete id (acs_delegates acs))) u p ds db.
Proof.
  intros H. apply (books_remove _ id) in H; simpl in *; [|by rewrite lookup_insert_eq..].
  by rewrite !delete_insert_eq in H.
Qed.

(** Two accounts in flight. *)
Lemma put_maps_comm acs id id' s b s' b' :
  id <> id' ->
  put_maps (put_maps acs id s b) id' s' b' = put_maps (put_maps acs id' s' b') id s b.
Proof. intros Hne. unfold put_maps. simpl. f_equal; by apply insert_insert_ne. Qed.

Lemma write_side_insert {V} (st : gmap Z (PositionMap V)) id id' m m' :
  id <> id' -> Store.write_side_map (<[id' := m']> st) id m = <[id' := m']> (Store.write_side_map st id m).
Proof. intros Hne. destruct m; simpl; [by rewrite delete_insert_ne|by apply insert_insert_ne]. Qed.

(** Writing one of them, the other still in flight. *)
Lemma books_store_beside acs id m s b id' s' b' u p ds db :
  id <> id' -> acs_meta acs !! id = Some m ->
  books (put_maps (put_maps acs id s b) id' s' b') u p ds db ->
  books (put_maps (mkAccountStore (acs_meta acs) (Store.write_side_map (acs_supply acs) id s)
           (Store.write_side_map (acs_borrow acs) id b) (acs_delegates acs)) id' s' b') u p ds db.
Proof.
  intros Hne Hm H. rewrite put_maps_comm in H by done. eapply books_store in H; [|exact Hm].
  simpl in H. by rewrite !write_side_insert in H by done.
Qed.

(** Metadata of a new account. *)
Lemma books_create acs id m u p ds db :
  acs_meta acs !! id = None -> books acs u p ds db ->
  books (mkAccountStore (<[id := m]> (acs_meta acs)) (acs_supply acs) (acs_borrow acs)
           (acs_delegates acs)) u p ds db.
Proof.
  intros Hn [H1 H2 H3 H4 H5 H6]. destruct (H6 id Hn) as [Ns Nb].
  assert (forall (spoke id' : Z), id' <> id ->
    in_spoke (acs_meta acs) spoke id' = in_spoke (<[id := m]> (acs_meta acs)) spoke id') as Hk.
  { intros spoke id' Hne. unfold in_spoke. by rewrite lookup_insert_ne. }
  split; simpl; try done.
  - intros spoke h. rewrite H2. apply total_ext. intros id' m' Hl. apply Hk. congruence.
  - intros spoke h. rewrite H3. apply total_ext. intros id' m' Hl. apply Hk. congruence.
  - intros id'. destruct (decide (id = id')) as [<-|Hne]; [by rewrite lookup_insert_eq|].
    rewrite lookup_insert_ne by done. apply H6.
Qed.

End Books.
