(* ===== verification/CtlFlows.v ===== *)
(** * Position flows (contracts/controller/src/positions/mod.rs, positions/supply.rs,
    positions/debt.rs)

    Supply, withdrawal, borrowing and repayment: gates, the pool batch, and the merge
    of its results into the in-memory account, usage, indexes and events; the flow ends
    by writing usage and the position maps it changed. *)

From S2P Require Import Prelude Errors FpCore Fp PoolTypes PoolCache PoolOps PoolContract ControllerTypes PoolView Account SpokeUsage Risk RiskParams Payments LiqPlan CtlState CtlContext.
From stdpp Require Import base numbers list gmap.
From Stdlib Require Import ZArith Lia Bool.

Open Scope Z_scope.

Module Positions.

Import RiskParams Payments LiqPlan SpokeUsage.

(** [constants::WITHDRAW_ALL_SENTINEL] *)
Definition WITHDRAW_ALL_SENTINEL : Z := i128_max.

Record LegOutcome : Type := mkLegOutcome {
  lo_new_scaled : Ray;
  lo_market_index : MarketIndexRaw;
  lo_amount : Z
}.

Definition leg_outcome_of (m : PoolPositionMutation) : LegOutcome :=
  {| lo_new_scaled := scaled_amount (pm_position m);
     lo_market_index := pm_market_index m;
     lo_amount := pm_actual_amount m |}.

Inductive LegDirection : Type :=
| LegEntry (asset_decimals : Z)
| LegExit.

Inductive PositionSides : Type := SidesSupply | SidesDebt | SidesBoth.
Inductive WithdrawKind : Type := WithdrawNormal | WithdrawLiquidation.

#[export] Instance PositionSides_eq_dec : EqDecision PositionSides.
Proof. solve_decision. Defined.
#[export] Instance WithdrawKind_eq_dec : EqDecision WithdrawKind.
Proof. solve_decision. Defined.

(** [for_each_leg]: requests and results in order, lengths equal. *)
Definition for_each_leg {E R S : Type} (entries : list E) (results : list R)
    (step : S -> E * R -> res S) (s : S) : res S :=
  do! require (length results =? length entries)%nat (EGeneric InternalError) in
  rfold step s (zip entries results).

Definition make_pool_action (scaled amount : Z) (h : HubAssetKey) : PoolAction :=
  {| pa_position := mkScaledPosition scaled; pa_amount := amount; pa_hub_asset := h |}.

Definition get_supply_position_or_panic (account : Account) (h : HubAssetKey)
    : res AccountPosition :=
  let* raw := of_option (ECollateral CollateralPositionNotFound)
                (map_get (supply_positions account) h) in
  Ok (account_position_of_raw raw).

Definition get_debt_position_or_panic (account : Account) (h : HubAssetKey)
    : res DebtPosition :=
  let* raw := of_option (ECollateral DebtPositionNotFound)
                (map_get (borrow_positions account) h) in
  Ok (debt_position_of_raw raw).

Definition with_scaled (p : AccountPosition) (scaled : Ray) : AccountPosition :=
  {| ap_scaled_amount := scaled;
     ap_liquidation_threshold := ap_liquidation_threshold p;
     ap_liquidation_bonus := ap_liquidation_bonus p;
     ap_loan_to_value := ap_loan_to_value p;
     ap_liquidation_fees := ap_liquidation_fees p |}.

Section Flows.

Context {W : Type} `{Chain W}.
Context (env : Env).

Abbreviation FlowRes A := (res (A * Flow W)).

(** ** Shared gates (positions/mod.rs) *)

Definition require_external_recipient (f : Flow W) (recipient : Address) : res unit :=
  let* pool := Ctx.cached_pool_address f in
  require (negb (bool_decide (recipient = current_contract_address env))
           && negb (bool_decide (recipient = pool))) (EFlashLoan InvalidFlashloanReceiver).

Definition apply_leg_usage (f : Flow W) (spoke_id : Z) (side : UsageSide) (h : HubAssetKey)
    (direction : LegDirection) (old_scaled : Ray) (outcome : LegOutcome) : res (Flow W) :=
  match direction with
  | LegEntry decimals =>
      let* delta := Ray.checked_sub (lo_new_scaled outcome) old_scaled in
      Ctx.apply_spoke_entry env f spoke_id side h delta (lo_market_index outcome) decimals
  | LegExit =>
      let* delta := Ray.checked_sub old_scaled (lo_new_scaled outcome) in
      Ctx.apply_spoke_exit f spoke_id side h delta
  end.

Definition persist_account_positions (f : Flow W) (account_id : Z) (account : Account)
    (sides : PositionSides) (remove_if_empty : bool) : res (Flow W) :=
  let f := (if bool_decide (sides = SidesDebt) then f
            else on_ctl f (fun c =>
                   Store.set_supply_positions c account_id (supply_positions account))) in
  let f := (if bool_decide (sides = SidesSupply) then f
            else on_ctl f (fun c =>
                   Store.set_debt_positions c account_id (borrow_positions account))) in
  if remove_if_empty then Acct.cleanup_account_if_empty f account account_id else Ok f.

Definition finalize_position_flow (f : Flow W) (account_id : Z) (account : Account)
    (sides : PositionSides) (remove_if_empty : bool) : res (Flow W) :=
  let f := Ctx.persist_spoke_usage f in
  let* f := persist_account_positions f account_id account sides remove_if_empty in
  Ok (Ctx.emit_position_batch f account_id account).

Definition require_listed_unhalted_config (f : Flow W) (spoke_id : Z) (h : HubAssetKey)
    : res AssetConfig :=
  do! Ctx.require_hub_active f (hub_id h) in
  let* asset_config := require_listed_active_config (Ctx.reads env f) spoke_id h in
  do! enforce_spoke_asset_flags (Ctx.reads env f) spoke_id h BlockOnEntry in
  Ok asset_config.

Definition require_can_borrow (f : Flow W) (spoke_id : Z) (h : HubAssetKey) : res unit :=
  let* asset_config := require_listed_unhalted_config f spoke_id h in
  require (ac_is_borrowable asset_config) (ECollateral AssetNotBorrowable).

Definition require_can_supply (f : Flow W) (spoke_id : Z) (h : HubAssetKey) : res unit :=
  let* asset_config := require_listed_unhalted_config f spoke_id h in
  require (ac_is_collateralizable asset_config) (ECollateral NotCollateral).

Definition validate_position_entry_gates (f : Flow W) (account : Account)
    (aggregated : list HubPayment) (position_type : AccountPositionType) : res unit :=
  let* limits := Store.get_position_limits (fl_ctl f) in
  do! Risk.validate_bulk_position_limits limits account position_type aggregated in
  do! (match position_type with
       | Deposit => Risk.require_whole_unit_isolation (Ctx.market_decimals f) account aggregated
       | PoolTypes.Borrow => Ok tt
       end) in
  rfold (fun _ p =>
    match position_type with
    | Deposit => require_can_supply f (acc_spoke_id account) p.1
    | PoolTypes.Borrow => require_can_borrow f (acc_spoke_id account) p.1
    end) tt aggregated.

(** [enforce_post_pool_solvency]: a changed LTV loads the portfolio's indexes, and the
    gates of an indebted account load its markets. *)
Definition enforce_post_pool_solvency (f : Flow W) (account : Account)
    : FlowRes (Account * bool) :=
  let keys := Risk.portfolio_hub_keys (map_keys (supply_positions account))
                (map_keys (borrow_positions account)) in
  let* s := restamp_listed_supply_ltv (Ctx.reads env f) account in
  let* f := (if rst_changed s then Ctx.fetch_market_indexes env f keys else Ok f) in
  let f := fold_left (fun f u =>
             Ctx.record_supply_position_update f ActParamUpd (pu_hub_asset u)
               (pu_supply_index u) 0 (pu_position u)) (rst_updates s) f in
  let account := rst_account s in
  let* f :=
    (if debt_free account then Ok f
     else Ctx.load_markets env f (Risk.portfolio_hub_keys (map_keys (supply_positions account))
                                    (map_keys (borrow_positions account)))) in
  do! Risk.require_post_pool_risk_gates (Ctx.reads env f) account in
  Ok (account, rst_changed s, f).

(** [risk::refresh_supply_risk_params]: the health check of a change that favours
    liquidators loads the account's markets. *)
Definition refresh_supply_risk_params (f : Flow W) (account : Account) (h : HubAssetKey)
    (position : AccountPosition) (config : AssetConfig) (scope : RiskRefreshScope)
    : FlowRes (AccountPosition * bool) :=
  let stamped := with_ltv position (ac_loan_to_value config) in
  let* f :=
    (if bool_decide (scope = FullTuple) && favors_liquidator stamped config
        && negb (debt_free account)
     then Ctx.load_markets env f
            (Risk.portfolio_hub_keys
               (map_keys (map_set (supply_positions account) h (raw_of_account_position stamped)))
               (map_keys (borrow_positions account)))
     else Ok f) in
  let* r := RiskParams.refresh_supply_risk_params (Ctx.reads env f) account h position config
              scope in
  Ok (r, f).

(** ** Supply (positions/supply.rs) *)

Definition require_third_party_existing_supply (c : Controller)
    (account_id resolved_account_id : Z) (caller : Address) (account : Account)
    (aggregated : list HubPayment) : res unit :=
  if negb (account_id =? 0)
     && negb (Acct.is_owner_or_delegate c resolved_account_id caller (acc_owner account))
  then rfold (fun _ p =>
         require (match map_get (supply_positions account) p.1 with Some _ => true | None => false end)
           (EGeneric NotAuthorized)) tt aggregated
  else Ok tt.

Definition merge_supply_leg (s : Account * Flow W) (leg : PoolSupplyEntry * PoolPositionMutation)
    : FlowRes Account :=
  let (account, f) := s in
  let (entry, result) := leg in
  let action := se_action entry in
  let h := pa_hub_asset action in
  let* config := require_spoke_asset (Ctx.reads env f) (acc_spoke_id account) h in
  let position := get_or_create_supply_position account h config in
  let old_scaled := ap_scaled_amount position in
  let outcome := leg_outcome_of result in
  let position := with_scaled position (lo_new_scaled outcome) in
  let f := Ctx.put_market_index f h (lo_market_index outcome) in
  let* (r, f) := refresh_supply_risk_params f account h position config FullTuple in
  let position := r.1 in
  let* f := apply_leg_usage f (acc_spoke_id account) SupplySide h
              (LegEntry (pm_asset_decimals result)) old_scaled outcome in
  let f := Ctx.record_supply_position_update f ActSupply h
             (mi_supply_index (lo_market_index outcome)) (pa_amount action) position in
  Ok (update_or_remove_supply_position account h position, f).

(** Prices of the legs a deposit adds to an indebted account. *)
Definition fetch_new_leg_prices (f : Flow W) (account : Account) (aggregated : list HubPayment)
    : res (Flow W) :=
  if debt_free account then Ok f
  else
    Ctx.fetch_prices f
      (map (fun p => asset p.1)
         (filter (fun p => bool_decide (map_get (supply_positions account) p.1 = None)) aggregated)).

Definition deposit_entry (caller pool : Address) (account : Account)
    (s : list PoolSupplyEntry * Flow W) (p : HubPayment) : FlowRes (list PoolSupplyEntry) :=
  let (entries, f) := s in
  let (h, amount_in) := p in
  let* config := require_spoke_asset (Ctx.reads env f) (acc_spoke_id account) h in
  let* (received, f) :=
    Ctx.transfer_amount_measured f (asset h) caller pool amount_in AmountMustBePositive in
  let position := get_or_create_supply_position account h config in
  Ok (entries ++ [mkPoolSupplyEntry (make_pool_action (ap_scaled_amount position) received h)], f).

Definition process_deposit (f : Flow W) (caller : Address) (account : Account)
    (aggregated : list HubPayment) : FlowRes Account :=
  do! validate_position_entry_gates f account aggregated Deposit in
  let* f := fetch_new_leg_prices f account aggregated in
  let* pool := Ctx.cached_pool_address f in
  let* (entries, f) := rfold (deposit_entry caller pool account) ([], f) aggregated in
  let* (results, f) := Ctx.pool_supply_call env f entries in
  for_each_leg entries results merge_supply_leg (account, f).

Definition process_supply (s : Sys W) (caller : Address) (account_id spoke_id : Z)
    (assets : list HubPayment) : res (Z * Sys W) :=
  do! Ctx.require_authorized_caller env s caller in
  let* aggregated := aggregate_positive_payments assets in
  let f := Ctx.new s in
  let* (ida, f) := Acct.load_or_create_account env f caller account_id spoke_id Normal
                     Acct.GuardSupply in
  let (acct_id, account) := ida in
  do! require_third_party_existing_supply (fl_ctl f) account_id acct_id caller account
        aggregated in
  let* (account, f) := process_deposit f caller account aggregated in
  let* f := finalize_position_flow f acct_id account SidesSupply false in
  Ok (acct_id, fl_sys f).

(** ** Withdrawal (positions/supply.rs) *)

Definition leg_may_restamp_risk_params (kind : WithdrawKind) (f : Flow W) (account : Account)
    (h : HubAssetKey) (new_scaled : Ray) : bool :=
  negb (bool_decide (kind = WithdrawLiquidation))
  && (match cached_spoke_asset (Ctx.reads env f) (acc_spoke_id account) h with
      | Some _ => true
      | None => false
      end)
  && negb (new_scaled =? Ray.ZERO).

Definition merge_withdraw_leg (action : PositionAction) (kind : WithdrawKind)
    (s : Account * Flow W) (h : HubAssetKey) (outcome : LegOutcome) : FlowRes Account :=
  let (account, f) := s in
  let may_restamp := leg_may_restamp_risk_params kind f account h (lo_new_scaled outcome) in
  let* position := get_supply_position_or_panic account h in
  let old_scaled := ap_scaled_amount position in
  let position := with_scaled position (lo_new_scaled outcome) in
  let f := Ctx.put_market_index f h (lo_market_index outcome) in
  let* f := apply_leg_usage f (acc_spoke_id account) SupplySide h LegExit old_scaled outcome in
  let* (position, f) :=
    (if may_restamp && negb (ap_scaled_amount position =? Ray.ZERO) then
       let* config := require_spoke_asset (Ctx.reads env f) (acc_spoke_id account) h in
       let* (r, f) := refresh_supply_risk_params f account h position config FullTuple in
       Ok (r.1, f)
     else Ok (position, f)) in
  let account := update_or_remove_supply_position account h position in
  Ok (account, Ctx.record_supply_position_update f action h
                 (mi_supply_index (lo_market_index outcome)) (lo_amount outcome) position).

Definition apply_withdraw_batch (f : Flow W) (account : Account) (recipient : Address)
    (kind : WithdrawKind) (action : PositionAction) (entries : list PoolWithdrawEntry)
    : res (list PoolPositionMutation * Account * Flow W) :=
  let* (results, f) := Ctx.pool_withdraw_call env f recipient
                         (bool_decide (kind = WithdrawLiquidation)) entries in
  let* (account, f) :=
    for_each_leg entries results
      (fun s (leg : PoolWithdrawEntry * PoolPositionMutation) =>
         merge_withdraw_leg action kind s (pa_hub_asset (we_action leg.1)) (leg_outcome_of leg.2))
      (account, f) in
  Ok (results, account, f).

Definition withdraw_entry (f : Flow W) (account : Account) (entries : list PoolWithdrawEntry)
    (p : HubPayment) : res (list PoolWithdrawEntry) :=
  let (h, amount) := p in
  do! enforce_spoke_asset_flags (Ctx.reads env f) (acc_spoke_id account) h AllowOnExit in
  let* position := get_supply_position_or_panic account h in
  let requested := if amount =? 0 then WITHDRAW_ALL_SENTINEL else amount in
  Ok (entries ++ [mkPoolWithdrawEntry
                    (make_pool_action (ap_scaled_amount position) requested h) 0]).

Definition settle_withdraw (f : Flow W) (account : Account) (recipient : Address)
    (aggregated : list HubPayment) : res (list HubPayment * Account * Flow W) :=
  let* entries := rfold (withdraw_entry f account) [] aggregated in
  let* (ra, f) := apply_withdraw_batch f account recipient WithdrawNormal ActWithdraw entries in
  let (results, account) := ra in
  let* paid :=
    for_each_leg entries results
      (fun paid (leg : PoolWithdrawEntry * PoolPositionMutation) =>
         Ok (paid ++ [(pa_hub_asset (we_action leg.1), pm_actual_amount leg.2)])) [] in
  Ok (paid, account, f).

Definition process_withdraw (s : Sys W) (caller : Address) (account_id : Z)
    (withdrawals : list HubPayment) (to : option Address) : res (list HubPayment * Sys W) :=
  do! Ctx.require_authorized_caller env s caller in
  let* account := Store.get_account s account_id in
  do! Acct.require_owner_or_delegate (sy_ctl s) account_id caller (acc_owner account) in
  let recipient := default caller to in
  let f := Ctx.new s in
  do! require_external_recipient f recipient in
  let* aggregated := aggregate_payments withdrawals MeansAll in
  let* (pa, f) := settle_withdraw f account recipient aggregated in
  let (paid, account) := pa in
  let* (ab, f) := enforce_post_pool_solvency f account in
  let* f := finalize_position_flow f account_id ab.1 SidesSupply true in
  Ok (paid, fl_sys f).

(** ** Debt (positions/debt.rs) *)

Definition merge_debt_leg (action : PositionAction) (s : Account * Flow W) (h : HubAssetKey)
    (direction : LegDirection) (outcome : LegOutcome) : FlowRes Account :=
  let (account, f) := s in
  let* old_scaled :=
    (match direction with
     | LegEntry _ =>
         Ok (match map_get (borrow_positions account) h with
             | Some p => dpr_scaled_amount p
             | None => Ray.ZERO
             end)
     | LegExit =>
         let* p := get_debt_position_or_panic account h in Ok (dp_scaled_amount p)
     end) in
  let position := mkDebtPosition (lo_new_scaled outcome) in
  let* f := apply_leg_usage f (acc_spoke_id account) BorrowSide h direction old_scaled outcome in
  let f := Ctx.put_market_index f h (lo_market_index outcome) in
  let f := Ctx.record_debt_position_update f action h
             (mi_borrow_index (lo_market_index outcome)) (lo_amount outcome) position in
  Ok (update_or_remove_debt_position account h position, f).

Definition settle_borrow (f : Flow W) (account : Account) (recipient : Address)
    (aggregated : list HubPayment) : FlowRes Account :=
  let entries := map (fun p : HubPayment =>
    mkPoolBorrowEntry (make_pool_action
      (dp_scaled_amount (get_or_create_debt_position account p.1)) p.2 p.1)) aggregated in
  let* (results, f) := Ctx.pool_borrow_call env f recipient entries in
  for_each_leg entries results
    (fun s (leg : PoolBorrowEntry * PoolPositionMutation) =>
       merge_debt_leg ActBorrow s (pa_hub_asset (be_action leg.1))
         (LegEntry (pm_asset_decimals leg.2)) (leg_outcome_of leg.2))
    (account, f).

Definition process_borrow (s : Sys W) (caller : Address) (account_id : Z)
    (borrows : list HubPayment) (to : option Address) : res (Sys W) :=
  do! Ctx.require_authorized_caller env s caller in
  let* account := Store.get_account s account_id in
  do! Acct.require_owner_or_delegate (sy_ctl s) account_id caller (acc_owner account) in
  let recipient := default caller to in
  let f := Ctx.new s in
  do! require_external_recipient f recipient in
  let* aggregated := aggregate_positive_payments borrows in
  do! validate_position_entry_gates f account aggregated PoolTypes.Borrow in
  let* (account, f) := settle_borrow f account recipient aggregated in
  let* (ab, f) := enforce_post_pool_solvency f account in
  let (account, restamped) := ab in
  let sides := if restamped : bool then SidesBoth else SidesDebt in
  let* f := finalize_position_flow f account_id account sides false in
  Ok (fl_sys f).

Definition apply_repay_batch (f : Flow W) (account : Account) (payer : Address)
    (action : PositionAction) (actions : list PoolAction)
    : res (list PoolPositionMutation * Account * Flow W) :=
  let* (results, f) := Ctx.pool_repay_call env f payer actions in
  let* (account, f) :=
    for_each_leg actions results
      (fun s (leg : PoolAction * PoolPositionMutation) =>
         merge_debt_leg action s (pa_hub_asset leg.1) LegExit (leg_outcome_of leg.2))
      (account, f) in
  Ok (results, account, f).

Definition repay_entry (payer pool : Address) (account : Account) (s : list PoolAction * Flow W)
    (p : HubPayment) : FlowRes (list PoolAction) :=
  let (actions, f) := s in
  let (h, amount) := p in
  do! enforce_spoke_asset_flags (Ctx.reads env f) (acc_spoke_id account) h AllowOnExit in
  let* position := get_debt_position_or_panic account h in
  let* (amount_in, f) :=
    Ctx.transfer_amount_measured f (asset h) payer pool amount AmountMustBePositive in
  Ok (actions ++ [make_pool_action (dp_scaled_amount position) amount_in h], f).

Definition settle_repay (f : Flow W) (account : Account) (payer : Address)
    (aggregated : list HubPayment) : FlowRes Account :=
  let* pool := Ctx.cached_pool_address f in
  let* (actions, f) := rfold (repay_entry payer pool account) ([], f) aggregated in
  let* (ra, f) := apply_repay_batch f account payer ActRepay actions in
  Ok (ra.2, f).

Definition process_repay (s : Sys W) (caller : Address) (account_id : Z)
    (payments_in : list HubPayment) : res (Sys W) :=
  do! Ctx.require_authorized_caller env s caller in
  let* aggregated := aggregate_positive_payments payments_in in
  let* account := Store.get_account_borrow_only s account_id in
  let f := Ctx.new s in
  let* (account, f) := settle_repay f account caller aggregated in
  let* f := finalize_position_flow f account_id account SidesDebt false in
  Ok (fl_sys f).

End Flows.

End Positions.
