(* ===== verification/CtlLegs.v ===== *)
(** * Merging pool results into an account in flight

    [calm] steps touch only the flow's buffers, keeping buffered indexes equal to the
    pool's and buffered prices equal to the aggregator's.  [merged] is one leg merged
    into one side of an account and its spoke's usage; a fold of merged legs carries
    the books from "moved in the pool" to "held by the account". *)

From S2P Require Import Prelude Errors FpCore Fp PoolTypes RatesAccrual PoolCache PoolInterest PoolOps PoolSafety PoolContract ControllerTypes PoolView PoolMoves Account SpokeUsage Risk RiskParams Payments LiqPlan CtlState CtlContext CtlBooks CtlFlows.
From stdpp Require Import base numbers list gmap.
From Stdlib Require Import ZArith Lia Bool.

Open Scope Z_scope.

Module Legs.

Import SpokeUsage RiskParams Payments Positions Books.

(** Every listing carries a valid risk tuple and caps. *)
Definition listings_ok (c : Controller) : Prop :=
  forall spoke h cfg, Store.get_spoke_asset c spoke h = Some cfg -> config_ok (asset_config_of cfg).

Section Legs.

Context {W : Type} {HW : Host W} {HC : Chain W}.
Context (env : Env).
Implicit Types (f : Flow W) (a : Account) (h k : HubAssetKey).

(** ** Buffers *)

(** Usage as the flow sees it: the buffer shadows the stored rows of its spoke. *)
Definition flow_used f (spoke : Z) h (side : UsageSide) : Z :=
  match bf_spoke_usage (fl_buf f) with
  | Some ctx =>
      if spoke =? suc_spoke_id ctx then seen (c_usage (fl_ctl f)) ctx h side
      else used (c_usage (fl_ctl f)) spoke h side
  | None => used (c_usage (fl_ctl f)) spoke h side
  end.

(** Buffered indexes are what the pool would answer. *)
Definition current f : Prop :=
  forall h m, bf_market_indexes (fl_buf f) !! h = Some m -> pool_view env (fl_pool f) h = Ok m.

(** A price the aggregator gives for [x], in some request. *)
Definition quotes (s : Sys W) (x : Address) (feed : PriceFeedRaw) : Prop :=
  exists agg l keyed, Store.get_price_aggregator (sy_ctl s) = Ok agg
    /\ aggregator_prices (sy_host s) agg l = Ok keyed /\ keyed !! x = Some feed.

(** Buffered prices are quotes of the current ledger. *)
Definition quoted f : Prop :=
  forall x feed, bf_token_prices (fl_buf f) !! x = Some feed -> quotes (fl_sys f) x feed.

Record calm f f' : Prop := {
  cm_sys : fl_sys f' = fl_sys f;
  cm_current : current f -> current f';
  cm_quoted : quoted f -> quoted f'
}.

Definition quiet f f' : Prop :=
  calm f f' /\ bf_spoke_usage (fl_buf f') = bf_spoke_usage (fl_buf f).

#[export] Instance calm_preorder : PreOrder calm.
Proof using.
  split; [by split|]. intros f1 f2 f3 [A1 A2 A3] [B1 B2 B3].
  split; [congruence|auto..].
Qed.

#[export] Instance quiet_preorder : PreOrder quiet.
Proof using.
  split; [by split|]. intros f1 f2 f3 [A1 A2] [B1 B2]. split; [by transitivity f2|congruence].
Qed.

Lemma quiet_used f f' s h x : quiet f f' -> flow_used f' s h x = flow_used f s h x.
Proof using. intros [[Hs _ _] Hu]. unfold flow_used. by rewrite Hs, Hu. Qed.

Lemma view_env pool (w : Pool) h : pool_view (Ctx.pool_env env pool) w h = pool_view env w h.
Proof using. by apply pool_view_same. Qed.

(** ** Market data *)

Lemma aggregator_fetch_Ok s l m :
  Store.aggregator_fetch s l = Ok m ->
  forall x feed, m !! x = Some feed -> quotes s x feed.
Proof using.
  intros H. unfold Store.aggregator_fetch in H. apply rbind_Ok in H as (agg & Ha & H).
  apply rbind_Ok in H as (keyed & Hk & H). revert H.
  apply (rfold_inv (fun out => forall x feed, out !! x = Some feed -> quotes s x feed));
    [|intros x feed; by rewrite lookup_empty].
  intros out y out' _ IH Hs. apply rbind_Ok in Hs as (fd & Hf & Hs). injection Hs as <-.
  apply of_option_Ok in Hf. intros x feed Hx.
  destruct (decide (y = x)) as [<-|Hne].
  - rewrite lookup_insert_eq in Hx. injection Hx as <-. by exists agg, l, keyed.
  - rewrite lookup_insert_ne in Hx by done. by apply IH.
Qed.

Lemma fetch_prices_quiet f l f' : Ctx.fetch_prices f l = Ok f' -> quiet f f'.
Proof using.
  intros H. unfold Ctx.fetch_prices in H.
  destruct (collect_uncached_keys l _) as [|y ys] eqn:E; [by injection H as <-|].
  apply rbind_Ok in H as (m & Hm & H). injection H as <-. split; [|done]. split; [done|done|].
  intros Hq x feed Hx. simpl in Hx. apply lookup_union_Some_raw in Hx as [Hx|[_ Hx]].
  - by eapply aggregator_fetch_Ok.
  - by apply Hq.
Qed.

Lemma put_index_quiet f h m :
  pool_view env (fl_pool f) h = Ok m -> quiet f (Ctx.put_market_index f h m).
Proof using.
  intros Hv. split; [|done]. split; [done| |done].
  intros Hc k m' Hk. simpl in *. destruct (decide (h = k)) as [<-|Hne].
  - rewrite lookup_insert_eq in Hk. by injection Hk as <-.
  - rewrite lookup_insert_ne in Hk by done. by apply Hc.
Qed.

Lemma bulk_views (e : Env) w hs ms :
  LiquidityPool.get_bulk_indexes e w hs = Ok ms ->
  Forall2 (fun h m => pool_view e w h = Ok m) hs ms.
Proof using.
  intros H. unfold LiquidityPool.get_bulk_indexes in H.
  apply rbind_Ok in H as (now & Hnow & H).
  apply (rfold_collect _ (fun h => let* sync := Storage.load_sync_data w h in
    let* m := RatesAccrual.simulate_update_indexes now sync in Ok (market_index_raw_of m))) in H
    as (l & -> & Hl).
  - simpl. eapply Forall2_impl; [exact Hl|]. intros h m Hm. cbv beta in Hm.
    apply rbind_Ok in Hm as (sync & Hs & Hm). apply rbind_Ok in Hm as (i & Hi & Hm).
    injection Hm as <-. unfold pool_view, LiquidityPool.get_bulk_indexes. rewrite Hnow.
    cbn [rbind rfold]. by rewrite Hs; cbn [rbind]; rewrite Hi.
  - intros acc h. destruct (Storage.load_sync_data w h); [|done]. cbn [rbind].
    by destruct (RatesAccrual.simulate_update_indexes now _).
Qed.

Lemma put_indexes_quiet l f :
  Forall (fun p => pool_view env (fl_pool f) p.1 = Ok p.2) l ->
  quiet f (fold_left (fun f p => Ctx.put_market_index f p.1 p.2) l f).
Proof using.
  revert f. induction l as [|[h m] l IH]; intros f Hl; [done|].
  apply Forall_cons in Hl as [Hv Hl]. simpl. etransitivity; [by apply (put_index_quiet f h m)|].
  by apply IH.
Qed.

Lemma fetch_indexes_quiet f hs f' : Ctx.fetch_market_indexes env f hs = Ok f' -> quiet f f'.
Proof using.
  intros H. unfold Ctx.fetch_market_indexes in H.
  destruct (collect_uncached_keys hs _) as [|y ys] eqn:E; [by injection H as <-|].
  rewrite <- E in *. clear E. apply rbind_Ok in H as (pool & _ & H).
  apply rbind_Ok in H as (ms & Hm & H). injection H as <-. apply bulk_views in Hm.
  apply put_indexes_quiet. apply Forall_forall. intros [h m] Hin.
  apply elem_of_lookup_zip_with in Hin as (i & h0 & m0 & E & Hh & Hi). injection E as -> ->. simpl.
  eapply Forall2_lookup_lr in Hm; [|exact Hh|exact Hi]. by rewrite <- (view_env pool).
Qed.

Lemma load_markets_quiet f hs f' : Ctx.load_markets env f hs = Ok f' -> quiet f f'.
Proof using.
  intros H. unfold Ctx.load_markets in H. apply rbind_Ok in H as (f1 & H1 & H).
  etransitivity; [by eapply fetch_prices_quiet|by eapply fetch_indexes_quiet].
Qed.

Lemma load_index_quiet f h m f' : Ctx.load_market_index env f h = Ok (m, f') -> quiet f f'.
Proof using.
  intros H. unfold Ctx.load_market_index in H. apply rbind_Ok in H as (m' & Hm & H).
  injection H as -> <-. unfold Ctx.index_of in Hm.
  destruct (bf_market_indexes (fl_buf f) !! h) eqn:E.
  - injection Hm as ->. split; [|done]. split; [done| |done]. intros Hc k m' Hk. simpl in Hk.
    apply lookup_insert_Some in Hk as [[<- <-]|[_ Hk]]; by apply Hc.
  - apply rbind_Ok in Hm as (pool & _ & Hm). rewrite view_env in Hm. by apply put_index_quiet.
Qed.

Lemma risk_totals_quiet f s b t f' :
  Ctx.account_risk_totals env f s b = Ok (t, f') -> quiet f f'.
Proof using.
  intros H. unfold Ctx.account_risk_totals in H. apply rbind_Ok in H as (f1 & H1 & H).
  apply rbind_Ok in H as (t' & _ & H). injection H as <- <-. by eapply load_markets_quiet.
Qed.

Lemma record_supply_quiet f act h i x p : quiet f (Ctx.record_supply_position_update f act h i x p).
Proof using. by split. Qed.
Lemma record_debt_quiet f act h i x p : quiet f (Ctx.record_debt_position_update f act h i x p).
Proof using. by split. Qed.

(** ** Usage *)

Definition moves_used f f' (spoke : Z) (side : UsageSide) h (d : Z) : Prop :=
  forall s k x, flow_used f' s k x
    = flow_used f s k x + if (s =? spoke) && bool_decide (x = side) then at_key h k d else 0.

Lemma seen_fresh st spoke h x : seen st (SpokeUsage.new spoke) h x = used st spoke h x.
Proof using. unfold seen, row_of, SpokeUsage.new. simpl. by rewrite lookup_empty. Qed.

Lemma ensure_used f spoke ctx :
  Ctx.ensure_spoke_context f spoke = Ok ctx ->
  suc_spoke_id ctx = spoke
  /\ (forall h x, seen (c_usage (fl_ctl f)) ctx h x = flow_used f spoke h x)
  /\ (forall s h x, s <> spoke -> used (c_usage (fl_ctl f)) s h x = flow_used f s h x).
Proof using.
  intros H. unfold Ctx.ensure_spoke_context in H. unfold flow_used.
  destruct (bf_spoke_usage (fl_buf f)) as [c|].
  - apply rbind_Ok in H as (u & Hu & H). injection H as <-. apply require_Ok in Hu. b2p.
    split_and!; [done| |].
    + intros h x. by rewrite Hu, Z.eqb_refl.
    + intros s h x Hne. rewrite Hu. by apply Z.eqb_neq in Hne as ->.
  - injection H as <-. split_and!; [done| |done]. intros. apply seen_fresh.
Qed.

Lemma put_usage_moves f spoke ctx ctx' side h d :
  Ctx.ensure_spoke_context f spoke = Ok ctx -> suc_spoke_id ctx' = suc_spoke_id ctx ->
  (forall k x, seen (c_usage (fl_ctl f)) ctx' k x = seen (c_usage (fl_ctl f)) ctx k x
     + if bool_decide (x = side) then at_key h k d else 0) ->
  calm f (Ctx.put_usage f ctx') /\ moves_used f (Ctx.put_usage f ctx') spoke side h d.
Proof using.
  intros He Hid Hs. apply ensure_used in He as (E1 & E2 & E3). split; [by split|].
  intros s k x. unfold flow_used at 1. simpl. rewrite Hid, E1.
  destruct (Z.eqb_spec s spoke) as [->|Hne]; simpl.
  - by rewrite Hs, E2.
  - rewrite E3 by done. lia.
Qed.

Lemma entry_seen st ctx side h d c ix dec ctx' :
  apply_entry st ctx side h d c ix dec = Ok ctx' ->
  suc_spoke_id ctx' = suc_spoke_id ctx
  /\ (forall k x, seen st ctx' k x = seen st ctx k x + if bool_decide (x = side) then at_key h k d else 0)
  /\ seen st ctx' h side <= i128_max.
Proof using.
  intros H. unfold apply_entry in H. destruct (load_usage_row st ctx h) as [row ctx1] eqn:E.
  apply load_row_Ok in E as (-> & Hid & Hrow).
  apply rbind_Ok in H as (n & Hn & H). injection H as <-. unfold enforce_spoke_cap in Hn.
  apply rbind_Ok in Hn as (cs & _ & Hn). apply rbind_Ok in Hn as (nx & Hnx & Hn).
  apply rbind_Ok in Hn as (u & _ & Hn). injection Hn as <-.
  apply checked_add_Ok in Hnx as [-> [_ Hmax]]. split_and!; [exact Hid| |].
  - intros k x. unfold seen, at_key. rewrite row_of_set, Hrow.
    destruct (decide (h = k)) as [<-|Hne]; simpl.
    + rewrite scaled_set. case_bool_decide; [subst; by rewrite decide_True|].
      rewrite decide_False by done. lia.
    + destruct (bool_decide _); lia.
  - unfold seen. rewrite row_of_set, decide_True by done. simpl.
    by rewrite scaled_set, decide_True.
Qed.

Lemma usage_entry f spoke side h d m dec f' :
  Ctx.apply_spoke_entry env f spoke side h d m dec = Ok f' ->
  calm f f' /\ moves_used f f' spoke side h d /\ flow_used f' spoke h side <= i128_max.
Proof using.
  intros H. unfold Ctx.apply_spoke_entry in H. apply rbind_Ok in H as (ctx & Hc & H).
  apply rbind_Ok in H as (ctx' & Hc' & H). injection H as <-.
  unfold SpokeUsage.apply_spoke_entry in Hc'. apply rbind_Ok in Hc' as (cfg & _ & Hc').
  apply entry_seen in Hc' as (E1 & E2 & E3).
  destruct (put_usage_moves f spoke ctx ctx' side h d Hc E1 E2) as [Hq Hm].
  split_and!; [done|done|]. pose proof (ensure_used _ _ _ Hc) as (Hid & _).
  unfold flow_used. simpl. by rewrite E1, Hid, Z.eqb_refl.
Qed.

(** Where the market has no row, nothing was used: a change within the usage is none. *)
Lemma usage_exit f spoke side h d f' :
  0 <= d <= flow_used f spoke h side ->
  Ctx.apply_spoke_exit f spoke side h d = Ok f' ->
  calm f f' /\ moves_used f f' spoke side h (- d).
Proof using.
  intros Hd H. unfold Ctx.apply_spoke_exit in H. apply rbind_Ok in H as (ctx & Hc & H).
  apply rbind_Ok in H as (ctx' & Hc' & H). injection H as <-.
  apply apply_exit_Ok in Hc' as (E1 & E2 & _). apply (put_usage_moves f spoke ctx); [done|done|].
  intros k x. rewrite E2. unfold at_key.
  assert (row_of (c_usage (fl_ctl f)) ctx h = None -> d = 0) as Hz.
  { intros Hr. apply ensure_used in Hc as (_ & Hs & _). rewrite <- Hs in Hd.
    unfold seen in Hd. rewrite Hr in Hd. destruct side; simpl in Hd; lia. }
  case_bool_decide as Hx; destruct (decide (h = k)) as [->|Hk].
  - destruct (decide (row_of (c_usage (fl_ctl f)) ctx k = None)) as [Hr|Hr].
    + rewrite decide_False by naive_solver. rewrite (Hz Hr). lia.
    + rewrite decide_True by done. lia.
  - rewrite decide_False by naive_solver. lia.
  - rewrite decide_False by naive_solver. lia.
  - rewrite decide_False by naive_solver. lia.
Qed.

(** ** Merged legs *)

Definition share (side : UsageSide) a k : Z :=
  match side with
  | SupplySide => sup (supply_positions a) k
  | BorrowSide => deb (borrow_positions a) k
  end.

Definition side_ok (side : UsageSide) a : Prop :=
  match side with
  | SupplySide => supply_ok (supply_positions a)
  | BorrowSide => debt_ok (borrow_positions a)
  end.

Definition same_other (side : UsageSide) a a' : Prop :=
  match side with
  | SupplySide => borrow_positions a' = borrow_positions a
  | BorrowSide => supply_positions a' = supply_positions a
  end.

(** Owner, spoke and mode. *)
Definition same_account a a' : Prop :=
  acc_owner a' = acc_owner a /\ acc_spoke_id a' = acc_spoke_id a /\ acc_mode a' = acc_mode a.

Record merged (side : UsageSide) a f (l : Leg) a' f' : Prop := {
  mg_calm : calm f f';
  mg_used : moves_used f f' (acc_spoke_id a) side (leg_key l) (leg_new l - leg_old l);
  mg_account : same_account a a';
  mg_other : same_other side a a';
  mg_ok : side_ok side a';
  mg_share : forall k, share side a' k = share side a k + at_key (leg_key l) k (leg_new l - leg_old l)
}.

(** What a merge may assume of its leg. *)
Record mergeable (side : UsageSide) a f (l : Leg) : Prop := {
  mb_ok : side_ok side a;
  mb_old : share side a (leg_key l) = leg_old l;
  mb_used : leg_old l <= flow_used f (acc_spoke_id a) (leg_key l) side;
  mb_new : 0 <= leg_new l;
  mb_view : pool_view env (fl_pool f) (leg_key l) = Ok (leg_index l)
}.

Lemma leg_usage_entry f spoke side h dec old o f' :
  apply_leg_usage env f spoke side h (LegEntry dec) old o = Ok f' ->
  calm f f' /\ moves_used f f' spoke side h (lo_new_scaled o - old)
  /\ flow_used f spoke h side + (lo_new_scaled o - old) <= i128_max.
Proof using.
  intros H. unfold apply_leg_usage in H. apply rbind_Ok in H as (d & Hd & H).
  apply checked_sub_Ok in Hd as [-> _]. apply usage_entry in H as (Hc & Hm & Hx).
  split_and!; [done|done|]. rewrite (Hm spoke h side), Z.eqb_refl, bool_decide_true in Hx by done.
  simpl in Hx. by rewrite at_key_same in Hx.
Qed.

Lemma leg_usage_exit f spoke side h old o f' :
  0 <= lo_new_scaled o <= old -> old <= flow_used f spoke h side ->
  apply_leg_usage env f spoke side h LegExit old o = Ok f' ->
  calm f f' /\ moves_used f f' spoke side h (lo_new_scaled o - old).
Proof using.
  intros Hn Ho H. unfold apply_leg_usage in H. apply rbind_Ok in H as (d & Hd & H).
  apply checked_sub_Ok in Hd as [-> _]. apply usage_exit in H as (Hc & Hm); [|lia].
  split; [done|]. intros s k x. rewrite Hm.
  by replace (- (old - lo_new_scaled o)) with (lo_new_scaled o - old) by lia.
Qed.

Lemma moves_quiet f1 f2 f3 f4 spoke side h d :
  quiet f1 f2 -> moves_used f2 f3 spoke side h d -> quiet f3 f4 ->
  moves_used f1 f4 spoke side h d.
Proof using.
  intros H1 H2 H3 s k x. by rewrite (quiet_used _ _ _ _ _ H3), H2, (quiet_used _ _ _ _ _ H1).
Qed.

(** ** The merges of the flows *)

Definition tuple_ok (p : AccountPosition) : Prop :=
  0 <= ap_liquidation_threshold p <= BPS /\ 0 <= ap_liquidation_fees p < BPS.

Lemma held_tuple_ok m h raw :
  supply_ok m -> map_get m h = Some raw ->
  tuple_ok (account_position_of_raw raw) /\ 0 < apr_scaled_amount raw <= i128_max.
Proof using.
  intros [_ Hm] Hg. apply (Forall_map_get _ _ _ _ Hm) in Hg as [Hp (P1 & P2 & _ & _ & P5)].
  simpl in *. split; [split; simpl|]; lia.
Qed.

Lemma new_tuple_ok a h cfg :
  supply_ok (supply_positions a) -> config_ok cfg ->
  tuple_ok (get_or_create_supply_position a h cfg)
  /\ ap_scaled_amount (get_or_create_supply_position a h cfg) = share SupplySide a h.
Proof using.
  intros Ha (C1 & _ & _ & C4). unfold get_or_create_supply_position. simpl. unfold sup.
  destruct (map_get (supply_positions a) h) as [raw|] eqn:E; [|by split].
  split; [by eapply held_tuple_ok|done].
Qed.

Lemma refresh_quiet f a h p cfg scope p' ch f' :
  Positions.refresh_supply_risk_params env f a h p cfg scope = Ok (p', ch, f') ->
  config_ok cfg -> tuple_ok p ->
  quiet f f' /\ ap_scaled_amount p' = ap_scaled_amount p /\ tuple_ok p'.
Proof using.
  intros H (C1 & _ & _ & C4) [T1 T2]. unfold Positions.refresh_supply_risk_params in H.
  apply rbind_Ok in H as (f1 & H1 & H). apply rbind_Ok in H as (r & Hr & H).
  injection H as -> <-. split.
  { destruct (_ && _ && _)%bool; [by eapply load_markets_quiet|by injection H1 as <-]. }
  destruct scope.
  - unfold RiskParams.refresh_supply_risk_params in Hr. simpl in Hr. injection Hr as <- _. by split.
  - apply refresh_Ok in Hr as (R1 & R2 & _). split; [done|].
    destruct R2 as [[R2 R3]|[R2 R3]]; unfold tuple_ok; rewrite R2, R3; by split.
Qed.

Lemma listed_ok f spoke h cfg :
  listings_ok (fl_ctl f) -> require_spoke_asset (Ctx.reads env f) spoke h = Ok cfg -> config_ok cfg.
Proof using.
  intros Hl H. unfold require_spoke_asset in H. apply rbind_Ok in H as (l & Hs & H).
  injection H as <-. unfold require_spoke_asset_config in Hs. apply of_option_Ok in Hs.
  exact (Hl _ _ _ Hs).
Qed.

Lemma supply_written a h p :
  supply_ok (supply_positions a) -> 0 <= ap_scaled_amount p <= i128_max -> tuple_ok p ->
  supply_ok (supply_positions (update_or_remove_supply_position a h p))
  /\ forall k, share SupplySide (update_or_remove_supply_position a h p) k
       = share SupplySide a k + at_key h k (ap_scaled_amount p - share SupplySide a h).
Proof using.
  intros Ha Hp [T1 T2]. split; [by apply supply_ok_update|]. intros k. unfold share.
  rewrite sup_update by apply Ha. unfold at_key. destruct (decide (h = k)) as [<-|]; lia.
Qed.

Lemma debt_written a h p :
  debt_ok (borrow_positions a) -> 0 <= dp_scaled_amount p <= i128_max ->
  debt_ok (borrow_positions (update_or_remove_debt_position a h p))
  /\ forall k, share BorrowSide (update_or_remove_debt_position a h p) k
       = share BorrowSide a k + at_key h k (dp_scaled_amount p - share BorrowSide a h).
Proof using.
  intros Ha Hp. split; [by apply debt_ok_update|]. intros k. unfold share.
  rewrite deb_update by apply Ha. unfold at_key. destruct (decide (h = k)) as [<-|]; lia.
Qed.

Lemma merge_supply_Ok a f e r a' f' :
  listings_ok (fl_ctl f) -> mergeable SupplySide a f (leg_of (se_action e) r) ->
  merge_supply_leg env (a, f) (e, r) = Ok (a', f') ->
  merged SupplySide a f (leg_of (se_action e) r) a' f'.
Proof using.
  intros Hl [Hok Hold Hge Hnew Hv] H. unfold merge_supply_leg in H.
  apply rbind_Ok in H as (cfg & Hcfg & H). apply (listed_ok _ _ _ _ Hl) in Hcfg.
  apply rbind_Ok in H as ([[p1 ch] f1] & Hr & H). apply rbind_Ok in H as (f2 & Hu & H).
  injection H as <- <-. cbn [fst snd] in Hu. simpl in Hold, Hge, Hnew, Hv, Hok.
  destruct (new_tuple_ok a (pa_hub_asset (se_action e)) cfg Hok Hcfg) as [Ht Hsc].
  apply refresh_quiet in Hr as (Q1 & Q2 & Q3); [|done..]. simpl in Q2.
  pose proof (put_index_quiet f _ _ Hv) as Q0. pose proof (transitivity Q0 Q1) as Q01.
  rewrite Hsc in Hu. apply leg_usage_entry in Hu as (U1 & U2 & U3). simpl in U2, U3.
  rewrite (quiet_used _ _ _ _ _ Q01) in U3. simpl in Hold.
  destruct (supply_written a (pa_hub_asset (se_action e)) p1 Hok ltac:(lia) Q3) as [S1 S2].
  split.
  - transitivity f2; [transitivity f1; [apply Q01|done]|by apply record_supply_quiet].
  - simpl. rewrite <- Hold. by eapply moves_quiet; [exact Q01|exact U2|apply record_supply_quiet].
  - by split_and!.
  - done.
  - done.
  - intros k. rewrite S2, Q2. simpl. by rewrite Hold.
Qed.

(** The leg an outcome is, at market [h] with [old] shares before. *)
Definition outcome_leg h (old : Z) (o : LegOutcome) (dec : Z) : Leg :=
  mkLeg h old (lo_new_scaled o) (lo_market_index o) dec.

Lemma merge_withdraw_Ok action kind a f h o old dec a' f' :
  listings_ok (fl_ctl f) -> mergeable SupplySide a f (outcome_leg h old o dec) ->
  lo_new_scaled o <= old ->
  merge_withdraw_leg env action kind (a, f) h o = Ok (a', f') ->
  merged SupplySide a f (outcome_leg h old o dec) a' f'.
Proof using.
  intros Hl [Hok Hold Hge Hnew Hv] Hle H. unfold merge_withdraw_leg in H. simpl in Hok, Hold, Hge, Hnew, Hv.
  apply rbind_Ok in H as (p & Hp & H). unfold get_supply_position_or_panic in Hp.
  apply rbind_Ok in Hp as (raw & Hraw & Hp). injection Hp as <-. apply of_option_Ok in Hraw.
  destruct (held_tuple_ok _ _ _ Hok Hraw) as [Ht Hsc].
  assert (apr_scaled_amount raw = old) as Eo by (revert Hold; unfold sup; by rewrite Hraw).
  apply rbind_Ok in H as (f2 & Hu & H). apply rbind_Ok in H as ([p1 f3] & Hr & H).
  injection H as <- <-. pose proof (put_index_quiet f _ _ Hv) as Q0.
  cbn [account_position_of_raw ap_scaled_amount] in Hu. rewrite Eo in Hu.
  apply leg_usage_exit in Hu as (U1 & U2); [|lia|by rewrite (quiet_used _ _ _ _ _ Q0)].
  assert (quiet f2 f3 /\ ap_scaled_amount p1 = lo_new_scaled o /\ tuple_ok p1) as (Q2 & Q3 & Q4).
  { destruct (_ && _)%bool in Hr; [|by injection Hr as <- <-].
    apply rbind_Ok in Hr as (cfg & Hcfg & Hr). apply rbind_Ok in Hr as ([[p2 ch] f4] & Hr & Hr').
    injection Hr' as <- <-. apply listed_ok in Hcfg.
    2:{ pose proof (cm_sys _ _ U1) as ->. exact Hl. }
    apply refresh_quiet in Hr as (R1 & R2 & R3); [|done..]. by split_and!. }
  destruct (supply_written a h p1 Hok ltac:(lia) Q4) as [S1 S2]. split.
  - transitivity f3; [|by apply record_supply_quiet]. transitivity f2; [|apply Q2].
    transitivity (Ctx.put_market_index f h (lo_market_index o)); [apply Q0|done].
  - eapply moves_quiet; [exact Q0|exact U2|].
    etransitivity; [exact Q2|apply record_supply_quiet].
  - by split_and!.
  - done.
  - done.
  - intros k. rewrite S2, Q3. simpl. by rewrite Hold.
Qed.

Lemma merge_debt_Ok action a f h dir o old dec a' f' :
  mergeable BorrowSide a f (outcome_leg h old o dec) ->
  (dir = LegExit -> lo_new_scaled o <= old) ->
  merge_debt_leg env action (a, f) h dir o = Ok (a', f') ->
  merged BorrowSide a f (outcome_leg h old o dec) a' f'.
Proof using.
  intros [Hok Hold Hge Hnew Hv] Hle H. unfold merge_debt_leg in H. simpl in Hok, Hold, Hge, Hnew, Hv.
  apply rbind_Ok in H as (old' & Ho & H). apply rbind_Ok in H as (f1 & Hu & H).
  injection H as <- <-.
  assert (old' = old) as ->.
  { subst old. unfold deb. destruct dir.
    - injection Ho as <-. by destruct (map_get (borrow_positions a) h).
    - apply rbind_Ok in Ho as (p & Hp & Ho). injection Ho as <-.
      unfold get_debt_position_or_panic in Hp. apply rbind_Ok in Hp as (raw & Hraw & Hp).
      injection Hp as <-. apply of_option_Ok in Hraw. by rewrite Hraw. }
  assert (calm f f1 /\ moves_used f f1 (acc_spoke_id a) BorrowSide h (lo_new_scaled o - old)
          /\ lo_new_scaled o <= i128_max) as (U1 & U2 & U3).
  { destruct dir as [d|].
    - apply leg_usage_entry in Hu as (U1 & U2 & U3). split_and!; [done|done|lia].
    - apply leg_usage_exit in Hu as (U1 & U2); [|specialize (Hle eq_refl); lia|done].
      split_and!; [done|done|]. specialize (Hle eq_refl). revert Hold. unfold deb.
      destruct (map_get (borrow_positions a) h) as [p|] eqn:E; simpl.
      + apply (Forall_map_get _ _ _ _ (proj2 Hok)) in E. simpl in E. lia.
      + assert (0 <= i128_max) by zconst. lia. }
  destruct (debt_written a h (mkDebtPosition (lo_new_scaled o)) Hok ltac:(simpl; lia)) as [S1 S2].
  assert (quiet f1 (Ctx.put_market_index f1 h (lo_market_index o))) as Q1.
  { apply put_index_quiet. by rewrite (cm_sys _ _ U1). }
  split.
  - transitivity f1; [done|]. etransitivity; [apply Q1|by apply record_debt_quiet].
  - eapply moves_quiet; [reflexivity|exact U2|].
    etransitivity; [exact Q1|apply record_debt_quiet].
  - by split_and!.
  - done.
  - done.
  - intros k. rewrite S2. simpl. by rewrite Hold.
Qed.

(** ** Folding a batch into the books *)

(** The maps in flight: one side is the account's, the other is given. *)
Definition supply_of (side : UsageSide) a (s : PositionMap AccountPositionRaw) :=
  match side with SupplySide => supply_positions a | BorrowSide => s end.
Definition debt_of (side : UsageSide) a (b : PositionMap DebtPositionRaw) :=
  match side with SupplySide => b | BorrowSide => borrow_positions a end.

Definition on_side (side x : UsageSide) (g : HubAssetKey -> Z) : HubAssetKey -> Z :=
  fun k => if bool_decide (side = x) then g k else 0.

Definition in_flight (side : UsageSide) (acs : AccountStore) (id : Z) a f s b ds db : Prop :=
  books (put_maps acs id (supply_of side a s) (debt_of side a b)) (flow_used f) (fl_pool f) ds db.

Lemma in_flight_ok side acs id a f s b ds db : in_flight side acs id a f s b ds db -> side_ok side a.
Proof using. intros H. apply books_maps_ok in H as [H1 H2]. by destruct side. Qed.

Lemma in_flight_used side acs id m a f s b ds db k :
  acs_meta acs !! id = Some m -> meta_spoke_id m = acc_spoke_id a ->
  in_flight side acs id a f s b ds db -> share side a k <= flow_used f (acc_spoke_id a) k side.
Proof using.
  intros Hm Hs H. destruct (books_usage_ge _ _ _ _ _ _ _ _ _ k Hm H) as [H1 H2].
  rewrite Hs in *. by destruct side.
Qed.

Lemma in_flight_merged side acs id m a f l a' f' s b ds db :
  acs_meta acs !! id = Some m -> meta_spoke_id m = acc_spoke_id a ->
  merged side a f l a' f' ->
  in_flight side acs id a f s b
    (fun k => ds k + on_side side SupplySide (fun k => at_key (leg_key l) k (leg_new l - leg_old l)) k)
    (fun k => db k + on_side side BorrowSide (fun k => at_key (leg_key l) k (leg_new l - leg_old l)) k) ->
  in_flight side acs id a' f' s b ds db.
Proof using.
  intros Hm Hs [M1 M2 M3 M4 M5 M6] Hb. unfold in_flight. rewrite (cm_sys _ _ M1). rewrite <- Hs in M2.
  destruct side; simpl in *.
  - eapply (books_set_supply _ _ _ _ _ _ _ _ _ (supply_positions a') (leg_key l)
      (leg_new l - leg_old l) (flow_used f') Hm) in Hb; [|done|done| |].
    + eapply books_ext; [done| | |exact Hb]; intros; unfold on_side; simpl; lia.
    + intros spoke k. rewrite M2, bool_decide_true by done. by rewrite andb_true_r.
    + intros spoke k. rewrite M2, bool_decide_false by done. rewrite andb_false_r. lia.
  - eapply (books_set_debt _ _ _ _ _ _ _ _ _ (borrow_positions a') (leg_key l)
      (leg_new l - leg_old l) (flow_used f') Hm) in Hb; [|done|done| |].
    + eapply books_ext; [done| | |exact Hb]; intros; unfold on_side; simpl; lia.
    + intros spoke k. rewrite M2, bool_decide_true by done. by rewrite andb_true_r.
    + intros spoke k. rewrite M2, bool_decide_false by done. rewrite andb_false_r. lia.
Qed.

Section Fold.

Context {X : Type} (side : UsageSide) (lg : X -> Leg) (P : Leg -> Prop) (c : Controller).
Context (step : Account * Flow W -> X -> res (Account * Flow W)).
Context (Hstep : forall a f x a' f', fl_ctl f = c -> P (lg x) -> mergeable side a f (lg x) ->
  step (a, f) x = Ok (a', f') -> merged side a f (lg x) a' f').

Lemma fold_merged l acs id m s b ds db :
  acs_meta acs !! id = Some m -> NoDup (map leg_key (map lg l)) ->
  forall a f a' f', rfold step (a, f) l = Ok (a', f') ->
  fl_ctl f = c -> meta_spoke_id m = acc_spoke_id a ->
  Forall (fun g => 0 <= leg_new g /\ pool_view env (fl_pool f) (leg_key g) = Ok (leg_index g)
    /\ P g /\ share side a (leg_key g) = leg_old g) (map lg l) ->
  in_flight side acs id a f s b (fun k => ds k + on_side side SupplySide (moved_by (map lg l)) k)
    (fun k => db k + on_side side BorrowSide (moved_by (map lg l)) k) ->
  calm f f' /\ same_account a a' /\ same_other side a a' /\ in_flight side acs id a' f' s b ds db.
Proof using Hstep.
  intros Hm. induction l as [|x l IH]; simpl; intros Hnd a f a' f' H Hc Hs Hl Hb.
  { injection H as <- <-. split_and!; [done|by split_and!|by destruct side|].
    eapply books_ext; [done| | |exact Hb]; intros; unfold on_side, moved_by; simpl;
      destruct (bool_decide _); lia. }
  apply NoDup_cons in Hnd as [Hnin Hnd]. apply Forall_cons in Hl as [(L1 & L2 & L3 & L4) Hl].
  apply rbind_Ok in H as ([a1 f1] & H1 & H).
  assert (merged side a f (lg x) a1 f1) as Hg.
  { apply Hstep; [done|done| |done]. split; [by eapply in_flight_ok|done| |done|done].
    rewrite <- L4. by eapply in_flight_used. }
  pose proof Hg as [M1 _ M3 M4 _ M6]. pose proof M3 as (_ & M3' & _).
  apply IH in H as (R1 & R2 & R3 & R4); [|done| | | |].
  - split_and!; [by transitivity f1| | |done].
    + destruct R2 as (?&?&?), M3 as (?&?&?). split_and!; congruence.
    + destruct side; simpl in *; congruence.
  - by rewrite (cm_sys _ _ M1).
  - congruence.
  - rewrite (cm_sys _ _ M1). apply Forall_forall. intros g Hin.
    rewrite Forall_forall in Hl. destruct (Hl g Hin) as (G1 & G2 & G3 & G4).
    split_and!; [done..|]. rewrite M6, at_key_other; [lia|].
    intros E. apply Hnin. rewrite E. by apply list_elem_of_fmap_2.
  - eapply in_flight_merged; [exact Hm|exact Hs|exact Hg|].
    eapply books_ext; [done| | |exact Hb]; intros; unfold on_side, moved_by; simpl;
      destruct (bool_decide _); lia.
Qed.

End Fold.

End Legs.

End Legs.
