(* ===== verification/CtlKeep.v ===== *)
(** * The flows keep the books

    [sane] is the controller's state invariant: the books balance against the pool,
    listings are valid, and every account's id was minted.  A flow loads an account,
    moves shares in the pool, merges the results and writes them back; each part is a
    lemma here, and [CtlSteps] composes them per entrypoint. *)

From S2P Require Import Prelude Errors FpCore Fp PoolTypes PoolCache PoolOps PoolSafety PoolContract ControllerTypes PoolView PoolMoves Account SpokeUsage Risk RiskParams Payments LiqPlan CtlState CtlContext CtlBooks CtlFlows CtlLegs.
From stdpp Require Import base numbers list gmap.
From Stdlib Require Import ZArith Lia Bool.

Open Scope Z_scope.

Module Keep.

Import SpokeUsage RiskParams Payments LiqPlan Positions Books Legs.

Section Keep.

Context {W : Type} {HW : Host W} {HC : Chain W} {HS : SequentialIds W}.
Context (env : Env).
Implicit Types (f : Flow W) (a : Account) (h k : HubAssetKey) (s : Sys W).

(** ** The invariant *)

Definition minted (s : Sys W) : Prop :=
  forall id m, acs_meta (c_accounts (sy_ctl s)) !! id = Some m ->
    exists nft, i_position_nft (c_instance (sy_ctl s)) = Some nft
      /\ 0 < id < nft_next (sy_host s) nft.

Record sane (s : Sys W) : Prop := {
  sn_books : stored_books (sy_ctl s) (sy_pool s);
  sn_listings : listings_ok (sy_ctl s);
  sn_minted : minted s
}.

Definition host_le (w w' : W) : Prop := forall nft, nft_next w nft <= nft_next w' nft.

#[export] Instance host_le_preorder : PreOrder host_le.
Proof using.
  split; [by intros w nft|]. intros w1 w2 w3 H1 H2 nft. specialize (H1 nft). specialize (H2 nft). lia.
Qed.

(** ** Steps that move no shares *)

(** Storage, pool and usage buffer stay; the rest of the ledger moves on. *)
Record drift f f' : Prop := {
  dr_ctl : fl_ctl f' = fl_ctl f;
  dr_pool : fl_pool f' = fl_pool f;
  dr_usage : bf_spoke_usage (fl_buf f') = bf_spoke_usage (fl_buf f);
  dr_host : host_le (fl_host f) (fl_host f')
}.

#[export] Instance drift_preorder : PreOrder drift.
Proof using.
  split; [by split|]. intros f1 f2 f3 [A1 A2 A3 A4] [B1 B2 B3 B4].
  split; [congruence..|by transitivity (fl_host f2)].
Qed.

Lemma quiet_drift f f' : quiet env f f' -> drift f f'.
Proof using. intros [[Hs _ _] Hu]. split; [by rewrite Hs|by rewrite Hs|done|by rewrite Hs]. Qed.

Lemma drift_used f f' sp h x : drift f f' -> flow_used f' sp h x = flow_used f sp h x.
Proof using. intros [H1 _ H3 _]. unfold flow_used. by rewrite H1, H3. Qed.

Lemma transfer_drift f token from to x err r f' :
  Ctx.transfer_amount_measured f token from to x err = Ok (r, f') -> drift f f'.
Proof using.
  intros H. unfold Ctx.transfer_amount_measured in H. apply rbind_Ok in H as (u & _ & H).
  apply rbind_Ok in H as (w & Hw & H). apply rbind_Ok in H as (d & _ & H). injection H as <- <-.
  split; [done..|]. intros nft. by eapply transfer_keeps_ids.
Qed.

(** ** Calls into the pool *)

Lemma settle_le pool w e w' : Ctx.settle_effect pool w e = Ok w' -> host_le w w'.
Proof using.
  intros H nft. destruct e as [t r x|t r x| | |]; simpl in H;
    try (injection H as <-; lia).
  - by eapply transfer_keeps_ids.
  - destruct (token_transfer w t pool r x) eqn:E; injection H as <-; [|lia].
    by eapply transfer_keeps_ids.
Qed.

Lemma pool_call_Ok {R} f (call : Env -> Pool -> res (R * Pool)) r f' :
  Ctx.pool_call env f call = Ok (r, f') ->
  exists pool, call (Ctx.pool_env env pool) (fl_pool f) = Ok (r, fl_pool f')
    /\ fl_ctl f' = fl_ctl f /\ fl_buf f' = fl_buf f /\ host_le (fl_host f) (fl_host f').
Proof using.
  intros H. unfold Ctx.pool_call in H. apply rbind_Ok in H as (pool & _ & H).
  apply rbind_Ok in H as ([r' p'] & Hc & H). apply rbind_Ok in H as (w & Hw & H).
  injection H as <- <-. exists pool. split_and!; [done..|]. simpl. revert Hw.
  apply (rfold_inv (fun x => host_le (fl_host f) x)); [|done].
  intros w1 e w2 _ H1 H2. transitivity w1; [done|]. by eapply settle_le.
Qed.

Lemma called_used f f' sp h x :
  fl_ctl f' = fl_ctl f -> fl_buf f' = fl_buf f -> flow_used f' sp h x = flow_used f sp h x.
Proof using. intros H1 H2. unfold flow_used. by rewrite H1, H2. Qed.

(** ** A batch merged into an account *)

Section Batch.

Context {X : Type} (side : UsageSide) (lg : X -> Leg) (P : Leg -> Prop) (c : Controller).
Context (step : Account * Flow W -> X -> res (Account * Flow W)).
Context (Hstep : forall a f x a' f', fl_ctl f = c -> P (lg x) -> mergeable env side a f (lg x) ->
  step (a, f) x = Ok (a', f') -> merged env side a f (lg x) a' f').

Lemma batch_merged pool l acs id m sm bm ds db a f f1 a' f' :
  acs_meta acs !! id = Some m -> meta_spoke_id m = acc_spoke_id a -> fl_ctl f = c ->
  in_flight side acs id a f sm bm ds db ->
  fl_ctl f1 = fl_ctl f -> fl_buf f1 = fl_buf f ->
  moved (Ctx.pool_env env pool) (fl_pool f) (fl_pool f1) (map lg l)
    (on_side side SupplySide (moved_by (map lg l))) (on_side side BorrowSide (moved_by (map lg l))) ->
  Forall (fun g => P g /\ share side a (leg_key g) = leg_old g) (map lg l) ->
  rfold step (a, f1) l = Ok (a', f') ->
  calm env f1 f' /\ same_account a a' /\ same_other side a a'
  /\ in_flight side acs id a' f' sm bm ds db.
Proof using Hstep.
  intros Hm Hs Hc Hb Hctl Hbuf [M1 M2 M3 M4 M5] Hl H.
  eapply (fold_merged env side lg P c step Hstep l acs id m sm bm ds db Hm M1) in H;
    [exact H|congruence|done| |].
  - apply Forall_forall. intros g Hg. rewrite Forall_forall in M3, Hl.
    destruct (M3 g Hg) as [G1 [G2 _]]. destruct (Hl g Hg) as [G3 G4].
    rewrite view_env in G2. done.
  - unfold in_flight in *. eapply books_ext; [| | |exact (books_moved _ _ _ _ _ _ _ _ M2 Hb)];
      [|done|done]. intros. by apply called_used.
Qed.

End Batch.

Lemma on_side_same side g h : on_side side side g h = g h.
Proof using. unfold on_side. by rewrite bool_decide_true. Qed.
Lemma on_side_other side x g h : side <> x -> on_side side x g h = 0.
Proof using. intros Hne. unfold on_side. by rewrite bool_decide_false. Qed.

(** [moved] as [batch_merged] takes it. *)
Lemma moved_supply e p p' legs :
  moved e p p' legs (moved_by legs) nothing ->
  moved e p p' legs (on_side SupplySide SupplySide (moved_by legs))
    (on_side SupplySide BorrowSide (moved_by legs)).
Proof using. apply moved_ext; intros h; [by rewrite on_side_same|by rewrite on_side_other]. Qed.

Lemma moved_debt e p p' legs :
  moved e p p' legs nothing (moved_by legs) ->
  moved e p p' legs (on_side BorrowSide SupplySide (moved_by legs))
    (on_side BorrowSide BorrowSide (moved_by legs)).
Proof using. apply moved_ext; intros h; [by rewrite on_side_other|by rewrite on_side_same]. Qed.

(** ** Opening an account *)

(** Account [id] is stored, and [a] holds what is stored of it. *)
Record opened (c : Controller) (id : Z) (m : AccountMeta) a : Prop := {
  op_meta : acs_meta (c_accounts c) !! id = Some m;
  op_spoke : meta_spoke_id m = acc_spoke_id a;
  op_supply : supply_positions a = Store.get_supply_positions c id;
  op_borrow : borrow_positions a = Store.get_debt_positions c id
}.

Lemma get_account_opened s id a :
  Store.get_account s id = Ok a -> exists m, opened (sy_ctl s) id m a.
Proof using.
  intros H. unfold Store.get_account, Store.try_get_account, Store.try_get_account_meta in H.
  apply of_option_Ok in H. destruct (acs_meta _ !! id) as [m|] eqn:E; [|done].
  destruct (Store.try_account_owner s id); [|done]. injection H as <-. by exists m.
Qed.

Lemma opened_in_flight side (f : Flow W) id m a :
  opened (fl_ctl f) id m a -> stored_books (fl_ctl f) (fl_pool f) ->
  bf_spoke_usage (fl_buf f) = None ->
  in_flight side (c_accounts (fl_ctl f)) id a f (Store.get_supply_positions (fl_ctl f) id)
    (Store.get_debt_positions (fl_ctl f) id) nothing nothing.
Proof using.
  intros [O1 O2 O3 O4] Hb Hu. unfold in_flight.
  replace (supply_of side a _) with (Store.get_supply_positions (fl_ctl f) id) by (by destruct side).
  replace (debt_of side a _) with (Store.get_debt_positions (fl_ctl f) id) by (by destruct side).
  eapply books_ext; [|done|done|by eapply books_load]. intros. unfold flow_used. by rewrite Hu.
Qed.

(** Entries of accounts outside [l]. *)
Definition others (l : list Z) (a a' : AccountStore) : Prop :=
  forall i, i ∉ l ->
    acs_meta a' !! i = acs_meta a !! i /\ acs_supply a' !! i = acs_supply a !! i
    /\ acs_borrow a' !! i = acs_borrow a !! i /\ acs_delegates a' !! i = acs_delegates a !! i.

(** Only entries of the accounts in [l], usage rows and the log changed. *)
Record beside (l : list Z) (c c' : Controller) : Prop := {
  be_others : others l (c_accounts c) (c_accounts c');
  be_instance : c_instance c' = c_instance c;
  be_registry : c_registry c' = c_registry c;
  be_guard : c_flash_ongoing c' = c_flash_ongoing c
}.

#[export] Instance others_preorder l : PreOrder (others l).
Proof using.
  split; [by intros c i _|]. intros c1 c2 c3 H1 H2 i Hi.
  destruct (H1 i Hi) as (A1 & A2 & A3 & A4), (H2 i Hi) as (B1 & B2 & B3 & B4).
  split_and!; congruence.
Qed.

#[export] Instance beside_preorder l : PreOrder (beside l).
Proof using.
  split; [by split|]. intros c1 c2 c3 [A1 A2 A3 A4] [B1 B2 B3 B4].
  split; [by transitivity (c_accounts c2)|congruence..].
Qed.

(** The same up to usage rows and the log. *)
Lemma beside_same l c c' :
  c_accounts c' = c_accounts c -> c_instance c' = c_instance c -> c_registry c' = c_registry c ->
  c_flash_ongoing c' = c_flash_ongoing c -> beside l c c'.
Proof using. intros E E1 E2 E3. split; [|done..]. intros i _. by rewrite E. Qed.

Lemma beside_mono l l' c c' : l ⊆ l' -> beside l c c' -> beside l' c c'.
Proof using. intros Hl [H H1 H2 H3]. split; [|done..]. intros i Hi. apply H. set_solver. Qed.

(** Every stored account was minted before the next id. *)
Lemma minted_fresh s nft :
  minted s -> i_position_nft (c_instance (sy_ctl s)) = Some nft ->
  acs_meta (c_accounts (sy_ctl s)) !! nft_next (sy_host s) nft = None.
Proof using.
  intros Hm Hn. destruct (acs_meta _ !! _) as [m|] eqn:E; [|done].
  apply Hm in E as (nft' & Hn' & Hlt). rewrite Hn in Hn'. injection Hn' as <-. lia.
Qed.

Lemma minted_le s s' :
  c_instance (sy_ctl s') = c_instance (sy_ctl s) ->
  acs_meta (c_accounts (sy_ctl s')) ⊆ acs_meta (c_accounts (sy_ctl s)) ->
  host_le (sy_host s) (sy_host s') -> minted s -> minted s'.
Proof using.
  intros Hi Hm Hh H id m Hid. apply (lookup_weaken _ _ _ _ Hid) in Hm.
  apply H in Hm as (nft & Hn & Hlt). exists nft. rewrite Hi. split; [done|].
  specialize (Hh nft). lia.
Qed.

(** Creating an account keeps the invariant and opens it. *)
Lemma create_account_sane f owner spoke mode adm id a f' :
  sane (fl_sys f) -> Acct.create_account_with env f owner spoke mode adm = Ok (id, a, f') ->
  sane (fl_sys f') /\ fl_buf f' = fl_buf f /\ c_registry (fl_ctl f') = c_registry (fl_ctl f)
  /\ exists m, opened (fl_ctl f') id m a.
Proof using.
  intros [S1 S2 S3] H. unfold Acct.create_account_with in H.
  apply rbind_Ok in H as (u & _ & H). apply rbind_Ok in H as (sc & _ & H).
  apply rbind_Ok in H as (nft & Hn & H). apply rbind_Ok in H as ([id' w] & Hw & H).
  injection H as <- <- <-. apply of_option_Ok in Hn.
  apply mint_sequential in Hw as (-> & Hpos & Hnext & Hmono).
  pose proof (minted_fresh _ _ S3 Hn) as Hfresh. simpl in Hfresh.
  destruct (bk_meta _ _ _ _ _ S1 _ Hfresh) as [Fs Fb].
  split_and!; [split| | |].
  - exact (books_create _ _ _ _ _ _ _ Hfresh S1).
  - exact S2.
  - intros id' m' Hm'. simpl in *. exists nft. split; [done|].
    destruct (decide (nft_next (fl_host f) nft = id')) as [<-|Hne]; [lia|].
    rewrite lookup_insert_ne in Hm' by done. apply S3 in Hm' as (nft' & Hn' & Hlt).
    simpl in Hn'. rewrite Hn in Hn'. injection Hn' as <-. simpl in Hlt. lia.
  - done.
  - done.
  - eexists. split; [by simpl; rewrite lookup_insert_eq|done| |];
      unfold Store.get_supply_positions, Store.get_debt_positions; simpl; [by rewrite Fs|by rewrite Fb].
Qed.

Lemma load_or_create_sane f caller id0 spoke mode guard id a f' :
  sane (fl_sys f) ->
  Acct.load_or_create_account env f caller id0 spoke mode guard = Ok (id, a, f') ->
  sane (fl_sys f') /\ fl_buf f' = fl_buf f /\ c_registry (fl_ctl f') = c_registry (fl_ctl f)
  /\ exists m, opened (fl_ctl f') id m a.
Proof using.
  intros Hs H. unfold Acct.load_or_create_account in H. destruct (id0 =? 0).
  - by eapply create_account_sane.
  - apply rbind_Ok in H as (a0 & Ha & H). apply rbind_Ok in H as (u & _ & H).
    injection H as <- <- <-. split_and!; [done..|]. by eapply get_account_opened.
Qed.

Lemma create_account_beside f owner spoke mode adm id a f' :
  Acct.create_account_with env f owner spoke mode adm = Ok (id, a, f') ->
  beside [id] (fl_ctl f) (fl_ctl f').
Proof using.
  intros H. unfold Acct.create_account_with in H. do 2 apply rbind_Ok in H as (? & _ & H).
  apply rbind_Ok in H as (nft & _ & H). apply rbind_Ok in H as ([id' w] & _ & H).
  injection H as <- <- <-. split; [|done..]. intros i Hi. simpl.
  rewrite lookup_insert_ne by set_solver. done.
Qed.

Lemma load_or_create_beside f caller id0 spoke mode guard id a f' :
  Acct.load_or_create_account env f caller id0 spoke mode guard = Ok (id, a, f') ->
  beside [id] (fl_ctl f) (fl_ctl f').
Proof using.
  intros H. unfold Acct.load_or_create_account in H. destruct (id0 =? 0);
    [by eapply create_account_beside|].
  apply rbind_Ok in H as (a0 & Ha & H). apply rbind_Ok in H as (u & _ & H). by injection H as <- <- <-.
Qed.

(** A created account takes an id that no stored account has. *)
Lemma create_account_id f owner spoke mode adm id a f' :
  minted (fl_sys f) -> Acct.create_account_with env f owner spoke mode adm = Ok (id, a, f') ->
  acs_meta (c_accounts (fl_ctl f)) !! id = None.
Proof using.
  intros Hm H. unfold Acct.create_account_with in H. do 2 apply rbind_Ok in H as (? & _ & H).
  apply rbind_Ok in H as (nft & Hn & H). apply rbind_Ok in H as ([id' w] & Hw & H).
  injection H as <- <- <-. apply of_option_Ok in Hn. apply mint_sequential in Hw as (-> & _).
  by apply (minted_fresh (fl_sys f)).
Qed.

Lemma load_or_create_id f caller id0 spoke mode guard id a f' :
  minted (fl_sys f) ->
  Acct.load_or_create_account env f caller id0 spoke mode guard = Ok (id, a, f') ->
  id = id0 \/ acs_meta (c_accounts (fl_ctl f)) !! id = None.
Proof using.
  intros Hm H. unfold Acct.load_or_create_account in H. destruct (id0 =? 0).
  - right. by eapply create_account_id.
  - left. apply rbind_Ok in H as (a0 & Ha & H). apply rbind_Ok in H as (u & _ & H). by injection H as <- <- <-.
Qed.

(** ** Closing a flow *)

Lemma persist_usage_used f sp h x :
  used (c_usage (fl_ctl (Ctx.persist_spoke_usage f))) sp h x = flow_used f sp h x.
Proof using.
  unfold Ctx.persist_spoke_usage, flow_used. destruct (bf_spoke_usage (fl_buf f)) as [ctx|]; [|done].
  simpl. destruct (persist_Ok (c_usage (fl_ctl f)) ctx) as [P1 P2].
  destruct (Z.eqb_spec sp (suc_spoke_id ctx)) as [->|Hne]; [apply P1|by apply P2].
Qed.

(** Nothing but usage rows and one account's entries changed since [f]. *)
Record settled (f f' : Flow W) : Prop := {
  st_instance : c_instance (fl_ctl f') = c_instance (fl_ctl f);
  st_registry : c_registry (fl_ctl f') = c_registry (fl_ctl f);
  st_meta : acs_meta (c_accounts (fl_ctl f')) ⊆ acs_meta (c_accounts (fl_ctl f));
  st_pool : fl_pool f' = fl_pool f;
  st_host : host_le (fl_host f) (fl_host f')
}.

#[export] Instance settled_preorder : PreOrder settled.
Proof using.
  split; [by split|]. intros f1 f2 f3 [A1 A2 A3 A4 A5] [B1 B2 B3 B4 B5].
  split; [congruence|congruence|by etransitivity|congruence|by transitivity (fl_host f2)].
Qed.

Lemma emit_batch_ctl f id a :
  c_instance (fl_ctl (Ctx.emit_position_batch f id a)) = c_instance (fl_ctl f)
  /\ c_registry (fl_ctl (Ctx.emit_position_batch f id a)) = c_registry (fl_ctl f)
  /\ c_accounts (fl_ctl (Ctx.emit_position_batch f id a)) = c_accounts (fl_ctl f)
  /\ c_usage (fl_ctl (Ctx.emit_position_batch f id a)) = c_usage (fl_ctl f)
  /\ fl_pool (Ctx.emit_position_batch f id a) = fl_pool f
  /\ fl_host (Ctx.emit_position_batch f id a) = fl_host f.
Proof using.
  unfold Ctx.emit_position_batch.
  destruct (bf_supply_updates (fl_buf f)), (bf_debt_updates (fl_buf f)); by split_and!.
Qed.

Lemma persist_usage_settled f :
  settled f (Ctx.persist_spoke_usage f)
  /\ c_accounts (fl_ctl (Ctx.persist_spoke_usage f)) = c_accounts (fl_ctl f).
Proof using. unfold Ctx.persist_spoke_usage. destruct (bf_spoke_usage (fl_buf f)); by repeat split. Qed.

(** Removing an empty account. *)
Lemma remove_account_books f id f' u ds db :
  Store.get_supply_positions (fl_ctl f) id = [] -> Store.get_debt_positions (fl_ctl f) id = [] ->
  books (c_accounts (fl_ctl f)) u (fl_pool f) ds db ->
  Acct.remove_account_and_burn_nft f id = Ok f' ->
  books (c_accounts (fl_ctl f')) u (fl_pool f') ds db
  /\ settled f f' /\ c_usage (fl_ctl f') = c_usage (fl_ctl f).
Proof using.
  intros Es Eb Hb H. unfold Acct.remove_account_and_burn_nft in H.
  apply rbind_Ok in H as (nft & _ & H). apply rbind_Ok in H as (w & Hw & H). injection H as <-.
  unfold Store.nft_burn_call in Hw. apply rbind_Ok in Hw as (u' & _ & Hw). split_and!; [|split|].
  - by apply books_remove.
  - done.
  - done.
  - apply delete_subseteq.
  - done.
  - intros nft'. by eapply burn_keeps_ids.
  - done.
Qed.

Lemma write_side_get {V} (st : gmap Z (PositionMap V)) id (m : PositionMap V) :
  default [] (Store.write_side_map st id m !! id) = m.
Proof using. destruct m; simpl; [by rewrite lookup_delete_eq|by rewrite lookup_insert_eq]. Qed.

Lemma write_side_ne {V} (st : gmap Z (PositionMap V)) id (m : PositionMap V) i :
  i <> id -> Store.write_side_map st id m !! i = st !! i.
Proof using. intros Hi. destruct m; simpl; [by rewrite lookup_delete_ne|by rewrite lookup_insert_ne]. Qed.

Lemma remove_account_beside f id f' :
  Acct.remove_account_and_burn_nft f id = Ok f' -> beside [id] (fl_ctl f) (fl_ctl f').
Proof using.
  intros H. unfold Acct.remove_account_and_burn_nft in H. apply rbind_Ok in H as (nft & _ & H).
  apply rbind_Ok in H as (w & _ & H). injection H as <-. split; [|done..]. intros i Hi. simpl.
  rewrite !lookup_delete_ne by set_solver. done.
Qed.

Lemma emit_batch_beside f id a l : beside l (fl_ctl f) (fl_ctl (Ctx.emit_position_batch f id a)).
Proof using.
  unfold Ctx.emit_position_batch.
  destruct (bf_supply_updates (fl_buf f)), (bf_debt_updates (fl_buf f)); by apply beside_same.
Qed.

Lemma persist_usage_beside f l : beside l (fl_ctl f) (fl_ctl (Ctx.persist_spoke_usage f)).
Proof using.
  unfold Ctx.persist_spoke_usage. destruct (bf_spoke_usage (fl_buf f)); by apply beside_same.
Qed.

Lemma finalize_beside f id a sides rm f' :
  finalize_position_flow f id a sides rm = Ok f' -> beside [id] (fl_ctl f) (fl_ctl f').
Proof using.
  intros H. unfold finalize_position_flow in H. apply rbind_Ok in H as (f2 & H2 & H). injection H as <-.
  etransitivity; [|apply (emit_batch_beside f2)].
  etransitivity; [apply persist_usage_beside|].
  set (f0 := Ctx.persist_spoke_usage f) in *.
  unfold persist_account_positions, Acct.cleanup_account_if_empty in H2. cbv zeta in H2.
  match type of H2 with (if rm then (if _ then Acct.remove_account_and_burn_nft ?g _ else _) else _) = _ =>
    set (f1 := g) in * end.
  assert (beside [id] (fl_ctl f0) (fl_ctl f1)) as Hf1.
  { subst f1. split; [intros i Hi|..]; destruct sides; simpl; rewrite ?write_side_ne by set_solver; done. }
  destruct rm; [destruct (account_is_empty a)|]; [|by injection H2 as <-..].
  etransitivity; [exact Hf1|by apply remove_account_beside].
Qed.

(** Which of the account's maps a flow may write: those it holds. *)
Definition writes (sides : PositionSides) (c : Controller) (id : Z) a
    (sm : PositionMap AccountPositionRaw) (bm : PositionMap DebtPositionRaw) : Prop :=
  match sides with
  | SidesSupply => sm = supply_positions a /\ bm = Store.get_debt_positions c id
  | SidesDebt => sm = Store.get_supply_positions c id /\ bm = borrow_positions a
  | SidesBoth => sm = supply_positions a /\ bm = borrow_positions a
  end.

Lemma finalize_books f id m a sides rm sm bm f' :
  acs_meta (c_accounts (fl_ctl f)) !! id = Some m ->
  books (put_maps (c_accounts (fl_ctl f)) id sm bm) (flow_used f) (fl_pool f) nothing nothing ->
  writes sides (fl_ctl f) id a sm bm ->
  (rm = true -> supply_positions a = sm /\ borrow_positions a = bm) ->
  finalize_position_flow f id a sides rm = Ok f' ->
  stored_books (fl_ctl f') (fl_pool f') /\ settled f f'.
Proof using.
  intros Hm Hb Hwr Hrm H. unfold finalize_position_flow in H.
  apply rbind_Ok in H as (f2 & H2 & H). injection H as <-.
  destruct (emit_batch_ctl f2 id a) as (E1 & E2 & E3 & E4 & E5 & E6).
  assert (books (c_accounts (fl_ctl f2)) (used (c_usage (fl_ctl f2))) (fl_pool f2) nothing nothing
    /\ settled f f2) as [Hb2 Hs2].
  2:{ split; [unfold stored_books; by rewrite E3, E4, E5|]. destruct Hs2 as [S1 S2 S3 S4 S5].
      split; [by rewrite E1|by rewrite E2|by rewrite E3|by rewrite E5|by rewrite E6]. }
  destruct (persist_usage_settled f) as [Ps Pa].
  pose proof (persist_usage_used f) as Pu.
  set (f0 := Ctx.persist_spoke_usage f) in *. rewrite <- Pa in Hm, Hb.
  rewrite <- (st_pool _ _ Ps) in Hb.
  assert (books (put_maps (c_accounts (fl_ctl f0)) id sm bm) (used (c_usage (fl_ctl f0)))
    (fl_pool f0) nothing nothing) as Hb0 by (eapply books_ext; [exact Pu|done|done|exact Hb]).
  clear Hb. unfold persist_account_positions in H2. cbv zeta in H2.
  match type of H2 with (if rm then Acct.cleanup_account_if_empty ?g _ _ else _) = _ =>
    set (f1 := g) in * end.
  assert (settled f0 f1 /\ c_usage (fl_ctl f1) = c_usage (fl_ctl f0)) as [Hst Hus]
    by (subst f1; by destruct sides).
  assert (books (c_accounts (fl_ctl f1)) (used (c_usage (fl_ctl f1))) (fl_pool f1) nothing nothing
    /\ Store.get_supply_positions (fl_ctl f1) id = sm
    /\ Store.get_debt_positions (fl_ctl f1) id = bm) as (Hb1 & Gs & Gb).
  { subst f1. unfold Store.get_supply_positions, Store.get_debt_positions.
    destruct sides; destruct Hwr as [-> ->]; simpl; rewrite ?write_side_get; split_and!; try done;
      unfold Store.get_supply_positions, Store.get_debt_positions in *; rewrite <- ?Pa in *; try done.
    - by eapply books_store_supply.
    - by eapply books_store_debt.
    - by eapply books_store. }
  destruct rm.
  - unfold Acct.cleanup_account_if_empty in H2. destruct (Hrm eq_refl) as [Hs' Hb'].
    destruct (account_is_empty a) eqn:Ee.
    + unfold account_is_empty in Ee.
      destruct (supply_positions a); [|done]. destruct (borrow_positions a); [|done].
      apply (remove_account_books _ _ _ (used (c_usage (fl_ctl f1))) nothing nothing) in H2
        as (R1 & R2 & R3); [|congruence|congruence|done].
      rewrite R3. split; [done|]. etransitivity; [exact Ps|]. by transitivity f1.
    + injection H2 as <-. split; [done|]. by transitivity f0.
  - injection H2 as <-. split; [done|]. by transitivity f0.
Qed.

(** After the write-back the buffer shows what is stored. *)
Lemma seen_persisted st ctx h x : seen (persist st ctx) ctx h x = seen st ctx h x.
Proof using.
  destruct (persist_Ok st ctx) as [P1 _]. specialize (P1 h x). revert P1.
  unfold seen, used, row_of. destruct (suc_usage ctx !! h); [done|]. by intros ->.
Qed.

Definition usage_stored f : Prop :=
  forall sp h x, flow_used f sp h x = used (c_usage (fl_ctl f)) sp h x.

Lemma persist_usage_stored f : usage_stored (Ctx.persist_spoke_usage f).
Proof using.
  intros sp h x. unfold flow_used, Ctx.persist_spoke_usage.
  destruct (bf_spoke_usage (fl_buf f)) as [ctx|] eqn:E; simpl; rewrite E; [|done].
  destruct (Z.eqb_spec sp (suc_spoke_id ctx)) as [->|Hne]; [|done].
  rewrite seen_persisted. by rewrite (proj1 (persist_Ok _ _)).
Qed.

Lemma usage_stored_same f f' :
  c_usage (fl_ctl f') = c_usage (fl_ctl f) ->
  bf_spoke_usage (fl_buf f') = bf_spoke_usage (fl_buf f) -> usage_stored f -> usage_stored f'.
Proof using. intros H1 H2 H sp h x. specialize (H sp h x). unfold flow_used in *. by rewrite H1, H2. Qed.

Lemma remove_account_usage f id f' :
  Acct.remove_account_and_burn_nft f id = Ok f' ->
  c_usage (fl_ctl f') = c_usage (fl_ctl f) /\ fl_buf f' = fl_buf f.
Proof using.
  intros H. unfold Acct.remove_account_and_burn_nft in H. apply rbind_Ok in H as (nft & _ & H).
  apply rbind_Ok in H as (w & _ & H). by injection H as <-.
Qed.

Lemma finalize_usage f id a sides rm f' :
  finalize_position_flow f id a sides rm = Ok f' -> usage_stored f'.
Proof using.
  intros H. unfold finalize_position_flow in H. apply rbind_Ok in H as (f2 & H2 & H). injection H as <-.
  apply (usage_stored_same (Ctx.persist_spoke_usage f)); [| |apply persist_usage_stored].
  - destruct (emit_batch_ctl f2 id a) as (_ & _ & _ & -> & _).
    unfold persist_account_positions, Acct.cleanup_account_if_empty in H2.
    destruct rm; [destruct (account_is_empty a)|]; [apply remove_account_usage in H2 as [-> _]|..];
      try (injection H2 as <-); by destruct sides.
  - assert (bf_spoke_usage (fl_buf f2) = bf_spoke_usage (fl_buf (Ctx.persist_spoke_usage f))) as <-.
    { unfold persist_account_positions, Acct.cleanup_account_if_empty in H2.
      destruct rm; [destruct (account_is_empty a)|]; [apply remove_account_usage in H2 as [_ ->]|..];
        try (injection H2 as <-); by destruct sides. }
    unfold Ctx.emit_position_batch.
    by destruct (bf_supply_updates (fl_buf f2)), (bf_debt_updates (fl_buf f2)).
Qed.

End Keep.

End Keep.
