(* ===== verification/CtlSteps.v ===== *)
(** * Each position flow keeps the invariant *)

From S2P Require Import Prelude Errors FpCore Fp PoolTypes PoolCache PoolOps PoolSafety PoolContract ControllerTypes PoolView PoolMoves Account SpokeUsage Risk RiskParams Payments LiqPlan CtlState CtlContext CtlBooks CtlFlows CtlLegs CtlKeep.
From stdpp Require Import base numbers list gmap.
From Stdlib Require Import ZArith Lia Bool.

Open Scope Z_scope.

Module Steps.

Import SpokeUsage RiskParams Payments LiqPlan Positions Books Legs Keep.

Section Steps.

Context {W : Type} {HW : Host W} {HC : Chain W} {HS : SequentialIds W}.
Context (env : Env).
Implicit Types (f : Flow W) (a : Account) (h k : HubAssetKey) (s : Sys W).

Lemma settled_sane f f' :
  listings_ok (fl_ctl f) -> minted (fl_sys f) -> settled f f' ->
  stored_books (fl_ctl f') (fl_pool f') -> sane (fl_sys f').
Proof using.
  intros Hl Hm [S1 S2 S3 S4 S5] Hb. split; [done| |by eapply minted_le].
  intros sp h cfg. unfold Store.get_spoke_asset. rewrite S2. apply Hl.
Qed.

Lemma minted_same f f' :
  fl_ctl f' = fl_ctl f -> host_le (fl_host f) (fl_host f') -> minted (fl_sys f) -> minted (fl_sys f').
Proof using. intros Hc Hh. apply minted_le; [by rewrite Hc|by rewrite Hc|done]. Qed.

(** An account in flight since [f0], one side changed; the maps of the other are given. *)
Record carried side (f0 f : Flow W) (id : Z) (m : AccountMeta) a
    (sm : PositionMap AccountPositionRaw) (bm : PositionMap DebtPositionRaw) : Prop := {
  ca_ctl : fl_ctl f = fl_ctl f0;
  ca_host : host_le (fl_host f0) (fl_host f);
  ca_meta : acs_meta (c_accounts (fl_ctl f0)) !! id = Some m;
  ca_spoke : meta_spoke_id m = acc_spoke_id a;
  ca_books : in_flight side (c_accounts (fl_ctl f0)) id a f sm bm nothing nothing
}.

Lemma carried_start side f id m a :
  opened (fl_ctl f) id m a -> stored_books (fl_ctl f) (fl_pool f) ->
  bf_spoke_usage (fl_buf f) = None ->
  carried side f f id m a (Store.get_supply_positions (fl_ctl f) id)
    (Store.get_debt_positions (fl_ctl f) id).
Proof using.
  intros Ho Hb Hu. split; [done|done|apply Ho|apply Ho|by apply opened_in_flight with m].
Qed.

Lemma carried_drift side f0 f f' id m a sm bm :
  carried side f0 f id m a sm bm -> drift f f' -> carried side f0 f' id m a sm bm.
Proof using.
  intros [C1 C2 C3 C4 C5] Hd. pose proof Hd as [D1 D2 D3 D4].
  split; [congruence|by transitivity (fl_host f)|done|done|].
  unfold in_flight in *. rewrite D2. eapply books_ext; [|done|done|exact C5].
  intros. by apply drift_used.
Qed.

Lemma carried_ok side f0 f id m a sm bm : carried side f0 f id m a sm bm -> side_ok side a.
Proof using. intros [_ _ _ _ H]. by eapply in_flight_ok. Qed.

(** The batch of a flow: the call into the pool and the merge of its results. *)
Lemma carried_batch {X} side (lg : X -> Leg) (P : Leg -> Prop)
    (step : Account * Flow W -> X -> res (Account * Flow W)) pool l f0 f f1 id m a sm bm a' f' :
  (forall a f x a' f', fl_ctl f = fl_ctl f0 -> P (lg x) -> mergeable env side a f (lg x) ->
     step (a, f) x = Ok (a', f') -> merged env side a f (lg x) a' f') ->
  carried side f0 f id m a sm bm ->
  fl_ctl f1 = fl_ctl f -> fl_buf f1 = fl_buf f -> host_le (fl_host f) (fl_host f1) ->
  moved (Ctx.pool_env env pool) (fl_pool f) (fl_pool f1) (map lg l)
    (on_side side SupplySide (moved_by (map lg l))) (on_side side BorrowSide (moved_by (map lg l))) ->
  Forall (fun g => P g /\ share side a (leg_key g) = leg_old g) (map lg l) ->
  rfold step (a, f1) l = Ok (a', f') ->
  carried side f0 f' id m a' sm bm /\ calm env f1 f' /\ same_account a a' /\ same_other side a a'.
Proof using.
  intros Hstep [C1 C2 C3 C4 C5] Hc Hb Hh Hmv Hl H.
  eapply (batch_merged env side lg P (fl_ctl f0) step Hstep pool l) in H
    as (R1 & R2 & R3 & R4); [|exact C3|exact C4|exact C1|exact C5|exact Hc|exact Hb|exact Hmv|exact Hl].
  split_and!; [|done..]. pose proof (cm_sys _ _ _ R1) as Es.
  split; [rewrite Es; congruence| |done| |done].
  - rewrite Es. by transitivity (fl_host f).
  - destruct R2 as (_ & R2 & _). congruence.
Qed.

(** Writing one side back. *)
Lemma carried_close side f0 f id m a sides rm f' :
  carried side f0 f id m a (Store.get_supply_positions (fl_ctl f0) id)
    (Store.get_debt_positions (fl_ctl f0) id) -> listings_ok (fl_ctl f0) -> minted (fl_sys f0) ->
  (sides = match side with SupplySide => SidesSupply | BorrowSide => SidesDebt end) ->
  (rm = true -> supply_positions a = supply_of side a (Store.get_supply_positions (fl_ctl f0) id)
     /\ borrow_positions a = debt_of side a (Store.get_debt_positions (fl_ctl f0) id)) ->
  finalize_position_flow f id a sides rm = Ok f' ->
  sane (fl_sys f') /\ beside [id] (fl_ctl f0) (fl_ctl f').
Proof using.
  intros [C1 C2 C3 C4 C5] Hl Hm Hs Hrm H. rewrite <- C1 in *.
  split; [|by eapply finalize_beside].
  eapply finalize_books in H as [H1 H2]; [|exact C3|exact C5| |done].
  - eapply settled_sane; [exact Hl| |exact H2|exact H1]. by eapply minted_same.
  - subst sides. by destruct side.
Qed.

(** ** Supply *)

Lemma created_scaled a h cfg :
  ap_scaled_amount (get_or_create_supply_position a h cfg) = share SupplySide a h.
Proof using.
  unfold get_or_create_supply_position. simpl. unfold sup. by destruct (map_get _ h).
Qed.

Definition entry_held a (e : PoolSupplyEntry) : Prop :=
  share SupplySide a (pa_hub_asset (se_action e)) = scaled_amount (pa_position (se_action e)).

Lemma deposit_entries_Ok caller pool a f agg es f' :
  rfold (deposit_entry env caller pool a) ([], f) agg = Ok (es, f') ->
  drift f f' /\ Forall (entry_held a) es.
Proof using.
  intros H. apply (rfold_inv (fun '(es, f') => drift f f' /\ Forall (entry_held a) es))
    with (a := ([], f)) (a' := (es, f')) in H; [done| |done].
  intros [es1 f1] [h x] [es2 f2] _ [D1 E1] Hs. unfold deposit_entry in Hs.
  apply rbind_Ok in Hs as (cfg & _ & Hs). apply rbind_Ok in Hs as ([r f3] & Ht & Hs).
  injection Hs as <- <-. split; [transitivity f1; [done|by eapply transfer_drift]|].
  apply Forall_app. split; [done|]. constructor; [|constructor].
  unfold entry_held. simpl. symmetry. apply created_scaled.
Qed.

Lemma deposit_carried f0 f caller id m a agg sm bm a' f' :
  listings_ok (fl_ctl f0) -> carried SupplySide f0 f id m a sm bm ->
  process_deposit env f caller a agg = Ok (a', f') ->
  carried SupplySide f0 f' id m a' sm bm /\ same_account a a' /\ borrow_positions a' = borrow_positions a.
Proof using.
  intros Hl Hc H. unfold process_deposit in H.
  apply rbind_Ok in H as (u & _ & H). apply rbind_Ok in H as (f1 & H1 & H).
  apply rbind_Ok in H as (pool & _ & H). apply rbind_Ok in H as ([es f2] & H2 & H).
  apply rbind_Ok in H as ([rs f3] & H3 & H). unfold for_each_leg in H.
  apply rbind_Ok in H as (u2 & _ & H).
  assert (drift f f1) as D1.
  { unfold fetch_new_leg_prices in H1. destruct (debt_free a); [by injection H1 as <-|].
    eapply quiet_drift. by eapply (fetch_prices_quiet env). }
  apply deposit_entries_Ok in H2 as [D2 Hes].
  pose proof (carried_drift _ _ _ _ _ _ _ _ _ Hc (transitivity D1 D2)) as Hc2.
  apply pool_call_Ok in H3 as (p & Hp & P1 & P2 & P3).
  apply supply_moved in Hp as [Hlen Hmv]; [|apply (ca_books _ _ _ _ _ _ _ _ Hc2)].
  eapply (carried_batch SupplySide (fun x => leg_of (se_action x.1) x.2) (fun _ => True)) in H
    as (R1 & R2 & R3 & R4); [done|..].
  - intros a1 f4 [e r] a2 f5 Hctl _ Hmg Hs. apply merge_supply_Ok; [by rewrite Hctl|done|done].
  - exact Hc2.
  - done.
  - done.
  - done.
  - by apply moved_supply in Hmv.
  - apply Forall_forall. intros g Hg. apply list_elem_of_fmap in Hg as ([e r] & -> & Hin).
    split; [done|]. apply elem_of_zip_l in Hin. rewrite Forall_forall in Hes. by apply (Hes e).
Qed.

Lemma supply_sane s caller id0 spoke assets id s' :
  sane s -> process_supply env s caller id0 spoke assets = Ok (id, s') ->
  sane s' /\ beside [id] (sy_ctl s) (sy_ctl s').
Proof using.
  intros Hs H. unfold process_supply in H.
  apply rbind_Ok in H as (u & _ & H). apply rbind_Ok in H as (agg & _ & H).
  apply rbind_Ok in H as ([[id1 a] f1] & H1 & H). apply rbind_Ok in H as (u2 & _ & H).
  apply rbind_Ok in H as ([a2 f2] & H2 & H). apply rbind_Ok in H as (f3 & H3 & H).
  injection H as <- <-. pose proof (load_or_create_beside _ _ _ _ _ _ _ _ _ _ H1) as Hbe.
  apply load_or_create_sane in H1 as ([S1 S2 S3] & Hb & _ & m & Ho); [|done].
  eapply deposit_carried in H2 as (C1 & _ & _); [|exact S2|by apply carried_start; rewrite ?Hb].
  eapply carried_close in H3 as [H3 Hbe']; [|exact C1|done..]. split; [done|]. by etransitivity.
Qed.

Lemma supply_id s caller id0 spoke assets id s' :
  sane s -> process_supply env s caller id0 spoke assets = Ok (id, s') ->
  id = id0 \/ acs_meta (c_accounts (sy_ctl s)) !! id = None.
Proof using.
  intros Hs H. unfold process_supply in H. do 2 apply rbind_Ok in H as (? & _ & H).
  apply rbind_Ok in H as ([[id1 a] f1] & H1 & H). apply rbind_Ok in H as (? & _ & H).
  apply rbind_Ok in H as ([a2 f2] & _ & H). apply rbind_Ok in H as (? & _ & H). injection H as <- <-.
  apply load_or_create_id in H1; [exact H1|apply Hs].
Qed.

(** ** Withdrawal *)

Lemma held_supply_or_panic a h p :
  get_supply_position_or_panic a h = Ok p -> ap_scaled_amount p = share SupplySide a h.
Proof using.
  intros H. unfold get_supply_position_or_panic in H. apply rbind_Ok in H as (raw & Hr & H).
  injection H as <-. apply of_option_Ok in Hr. simpl. unfold sup. by rewrite Hr.
Qed.

Lemma held_debt_or_panic a h p :
  get_debt_position_or_panic a h = Ok p -> dp_scaled_amount p = share BorrowSide a h.
Proof using.
  intros H. unfold get_debt_position_or_panic in H. apply rbind_Ok in H as (raw & Hr & H).
  injection H as <-. apply of_option_Ok in Hr. simpl. unfold deb. by rewrite Hr.
Qed.

Definition exit_held a (e : PoolWithdrawEntry) : Prop :=
  share SupplySide a (pa_hub_asset (we_action e)) = scaled_amount (pa_position (we_action e)).

Lemma withdraw_batch_carried f0 f id m a to kind act es sm bm rs a' f' :
  listings_ok (fl_ctl f0) -> carried SupplySide f0 f id m a sm bm -> Forall (exit_held a) es ->
  apply_withdraw_batch env f a to kind act es = Ok (rs, a', f') ->
  carried SupplySide f0 f' id m a' sm bm /\ same_account a a' /\ borrow_positions a' = borrow_positions a
  /\ exists f1, bf_market_indexes (fl_buf f1) = bf_market_indexes (fl_buf f)
       /\ bf_token_prices (fl_buf f1) = bf_token_prices (fl_buf f) /\ calm env f1 f'.
Proof using.
  intros Hl Hc Hes H. unfold apply_withdraw_batch in H.
  apply rbind_Ok in H as ([rs1 f1] & H1 & H). apply rbind_Ok in H as ([a1 f2] & H2 & H).
  injection H as <- <- <-. unfold for_each_leg in H2. apply rbind_Ok in H2 as (u & _ & H2).
  apply pool_call_Ok in H1 as (p & Hp & P1 & P2 & P3).
  apply withdraw_moved in Hp as (Hlen & Hmv & Hsh); [|apply (ca_books _ _ _ _ _ _ _ _ Hc)].
  eapply (carried_batch SupplySide (fun x => leg_of (we_action x.1) x.2)
    (fun g => leg_new g <= leg_old g)) in H2 as (R1 & R2 & R3 & R4).
  - split_and!; [done|done|done|]. exists f1. by rewrite P2.
  - intros a2 f4 [e r] a3 f5 Hctl Hle Hmg Hs.
    apply (merge_withdraw_Ok env act kind a2 f4 (pa_hub_asset (we_action e)) (leg_outcome_of r)
      (scaled_amount (pa_position (we_action e))) (pm_asset_decimals r));
      [by rewrite Hctl|exact Hmg|exact Hle|exact Hs].
  - exact Hc.
  - done.
  - done.
  - done.
  - by apply moved_supply in Hmv.
  - apply Forall_forall. intros g Hg. unfold shrinks in Hsh. rewrite Forall_forall in Hsh.
    split; [by apply Hsh|]. apply list_elem_of_fmap in Hg as ([e r] & -> & Hin).
    apply elem_of_zip_l in Hin. rewrite Forall_forall in Hes. by apply (Hes e).
Qed.

(** ** Both sides in flight *)

Record whole (f0 f : Flow W) (id : Z) (m : AccountMeta) a : Prop := {
  wh_ctl : fl_ctl f = fl_ctl f0;
  wh_host : host_le (fl_host f0) (fl_host f);
  wh_meta : acs_meta (c_accounts (fl_ctl f0)) !! id = Some m;
  wh_spoke : meta_spoke_id m = acc_spoke_id a;
  wh_books : books (put_maps (c_accounts (fl_ctl f0)) id (supply_positions a) (borrow_positions a))
    (flow_used f) (fl_pool f) nothing nothing
}.

Lemma carried_whole side f0 f id m a0 a :
  carried side f0 f id m a (supply_positions a0) (borrow_positions a0) ->
  same_other side a0 a -> whole f0 f id m a.
Proof using.
  intros [C1 C2 C3 C4 C5] Ho. split; [done..|].
  unfold in_flight in C5. destruct side; simpl in *; congruence.
Qed.

Lemma whole_carried side f0 f id m a :
  whole f0 f id m a -> carried side f0 f id m a (supply_positions a) (borrow_positions a).
Proof using. intros [C1 C2 C3 C4 C5]. split; [done..|]. by destruct side. Qed.

Lemma whole_start f id m a :
  opened (fl_ctl f) id m a -> stored_books (fl_ctl f) (fl_pool f) ->
  bf_spoke_usage (fl_buf f) = None -> whole f f id m a.
Proof using.
  intros Ho Hb Hu. pose proof (carried_start SupplySide _ _ _ _ Ho Hb Hu) as Hc.
  rewrite <- (op_supply _ _ _ _ Ho), <- (op_borrow _ _ _ _ Ho) in Hc. by eapply carried_whole.
Qed.

Lemma whole_drift f0 f f' id m a : whole f0 f id m a -> drift f f' -> whole f0 f' id m a.
Proof using.
  intros [C1 C2 C3 C4 C5] Hd. pose proof Hd as [D1 D2 D3 D4].
  split; [congruence|by transitivity (fl_host f)|done|done|].
  rewrite D2. eapply books_ext; [|done|done|exact C5]. intros. by apply drift_used.
Qed.

Lemma whole_close f0 f id m a0 a sides rm f' :
  whole f0 f id m a -> opened (fl_ctl f0) id m a0 -> listings_ok (fl_ctl f0) -> minted (fl_sys f0) ->
  (sides = SidesSupply -> borrow_positions a = borrow_positions a0) ->
  (sides = SidesDebt -> supply_positions a = supply_positions a0) ->
  finalize_position_flow f id a sides rm = Ok f' ->
  sane (fl_sys f') /\ beside [id] (fl_ctl f0) (fl_ctl f').
Proof using.
  intros [C1 C2 C3 C4 C5] [_ _ O3 O4] Hl Hm Hs Hd H. rewrite <- C1 in *.
  split; [|by eapply finalize_beside].
  eapply finalize_books in H as [H1 H2]; [|exact C3|exact C5| |done].
  - eapply settled_sane; [exact Hl| |exact H2|exact H1]. by eapply minted_same.
  - destruct sides; simpl; split; try done.
    + by rewrite Hs by done.
    + by rewrite Hd by done.
Qed.

(** ** Restamping *)

(** The same shares under another risk tuple. *)
Definition restamped a a' : Prop :=
  same_account a a' /\ borrow_positions a' = borrow_positions a
  /\ supply_ok (supply_positions a')
  /\ forall k, sup (supply_positions a') k = sup (supply_positions a) k.

Lemma restamped_refl a : supply_ok (supply_positions a) -> restamped a a.
Proof using. intros Ha. by split_and!. Qed.

Lemma restamped_trans a1 a2 a3 : restamped a1 a2 -> restamped a2 a3 -> restamped a1 a3.
Proof using.
  intros ((A1&A2&A3) & A4 & _ & A5) ((B1&B2&B3) & B4 & B6 & B5).
  split_and!; [split_and!; congruence|congruence|done|]. intros k. by rewrite B5.
Qed.

Lemma restamped_write a h p :
  supply_ok (supply_positions a) -> tuple_ok p -> ap_scaled_amount p = share SupplySide a h ->
  ap_scaled_amount p <= i128_max ->
  restamped a (update_or_remove_supply_position a h p).
Proof using.
  intros Ha Hp Hs Hmax.
  assert (0 <= ap_scaled_amount p) by (rewrite Hs; by apply sup_nonneg).
  destruct (supply_written a h p Ha ltac:(lia) Hp) as [S1 S2].
  split_and!; [by split_and!|done|done|]. intros k.
  change (share SupplySide (update_or_remove_supply_position a h p) k = share SupplySide a k).
  rewrite S2, Hs. unfold at_key. destruct (decide _); lia.
Qed.

Lemma restamp_Ok cache a st :
  supply_ok (supply_positions a) -> restamp_listed_supply_ltv cache a = Ok st ->
  restamped a (rst_account st) /\ (rst_changed st = false -> rst_account st = a).
Proof using.
  intros Ha H. unfold restamp_listed_supply_ltv in H. revert H.
  apply (rfold_inv (fun st => restamped a (rst_account st)
    /\ (rst_changed st = false -> rst_account st = a))); [|by split; [apply restamped_refl|]].
  intros s1 h s2 _ [R1 R2] H. unfold restamp_step in H.
  destruct (cached_spoke_asset cache _ h) as [l|]; [|by injection H as <-].
  destruct (map_get _ h) as [raw|] eqn:Eg; [|by injection H as <-].
  destruct (_ =? _); [by injection H as <-|].
  apply rbind_Ok in H as (u & _ & H). apply rbind_Ok in H as (mi & _ & H). injection H as <-.
  split; [|done]. eapply restamped_trans; [exact R1|].
  pose proof (held_tuple_ok _ _ _ (proj1 (proj2 (proj2 R1))) Eg) as [Ht Hsc].
  apply restamped_write; [apply R1|done| |simpl; lia].
  simpl. unfold sup. by rewrite Eg.
Qed.

Lemma whole_restamped f0 f id m a a' :
  whole f0 f id m a -> restamped a a' -> whole f0 f id m a'.
Proof using.
  intros [C1 C2 C3 C4 C5] ((_ & R1 & _) & R2 & R3 & R4).
  split; [done|done|done|congruence|]. rewrite R2.
  by eapply books_restamp.
Qed.

(** ** The solvency gate *)

Lemma record_updates_quiet act (ups : list ParamUpdate) f :
  quiet env f (fold_left (fun f u => Ctx.record_supply_position_update f act (pu_hub_asset u)
    (pu_supply_index u) 0 (pu_position u)) ups f).
Proof using.
  revert f. induction ups as [|u ups IH]; intros f; [done|]. simpl.
  etransitivity; [apply record_supply_quiet|apply IH].
Qed.

Lemma solvency_gate_Ok f a a' ch f' :
  supply_ok (supply_positions a) -> Positions.enforce_post_pool_solvency env f a = Ok (a', ch, f') ->
  quiet env f f' /\ restamped a a' /\ (ch = false -> a' = a)
  /\ (debt_free a' = false -> exists f1, Ctx.load_markets env f1
        (Risk.portfolio_hub_keys (map_keys (supply_positions a')) (map_keys (borrow_positions a')))
        = Ok f' /\ quiet env f f1)
  /\ Risk.require_post_pool_risk_gates (Ctx.reads env f') a' = Ok tt.
Proof using.
  intros Ha H. unfold Positions.enforce_post_pool_solvency in H.
  apply rbind_Ok in H as (st & Hst & H). apply rbind_Ok in H as (f1 & H1 & H).
  apply rbind_Ok in H as (f2 & H2 & H). apply rbind_Ok in H as ([] & Hg & H).
  injection H as <- <- <-. apply restamp_Ok in Hst as [R1 R2]; [|done].
  assert (quiet env f f1) as Q1
    by (destruct (rst_changed st); [by eapply fetch_indexes_quiet|by injection H1 as <-]).
  set (g := fold_left _ (rst_updates st) f1) in *.
  assert (quiet env f g) as Qg by (etransitivity; [exact Q1|apply record_updates_quiet]).
  assert (quiet env g f2) as Q2
    by (destruct (debt_free (rst_account st)); [by injection H2 as <-|by eapply load_markets_quiet]).
  split_and!; [by transitivity g|done|done| |done].
  intros Hd. rewrite Hd in H2. by exists g.
Qed.

Lemma withdraw_entries_held f a agg es :
  rfold (withdraw_entry env f a) [] agg = Ok es -> Forall (exit_held a) es.
Proof using.
  apply (rfold_inv (Forall (exit_held a))); [|constructor].
  intros l [h x] l' _ Hl H. unfold withdraw_entry in H.
  apply rbind_Ok in H as (u & _ & H). apply rbind_Ok in H as (p & Hp & H). injection H as <-.
  apply Forall_app. split; [done|]. constructor; [|constructor].
  unfold exit_held. simpl. symmetry. by apply held_supply_or_panic.
Qed.

(** What a withdrawal does up to its last write: the batch, then the gate. *)
Lemma withdraw_run f id m a to agg paid a1 f1 a2 ch f2 :
  sane (fl_sys f) -> bf_spoke_usage (fl_buf f) = None -> opened (fl_ctl f) id m a ->
  settle_withdraw env f a to agg = Ok (paid, a1, f1) ->
  Positions.enforce_post_pool_solvency env f1 a1 = Ok (a2, ch, f2) ->
  whole f f2 id m a2 /\ same_account a a2 /\ borrow_positions a2 = borrow_positions a
  /\ supply_ok (supply_positions a1)
  /\ exists g, bf_market_indexes (fl_buf g) = bf_market_indexes (fl_buf f)
       /\ bf_token_prices (fl_buf g) = bf_token_prices (fl_buf f) /\ calm env g f1.
Proof using.
  intros [S1 S2 S3] Hu Ho H1 H2. unfold settle_withdraw in H1.
  apply rbind_Ok in H1 as (es & He & H1). apply rbind_Ok in H1 as ([[rs a1'] f1'] & Hb & H1).
  apply rbind_Ok in H1 as (pd & _ & H1). injection H1 as <- <- <-.
  apply withdraw_entries_held in He.
  eapply withdraw_batch_carried in Hb as (C1 & C2 & C3 & g & C4);
    [|exact S2|by apply whole_carried, whole_start|exact He].
  pose proof (carried_ok _ _ _ _ _ _ _ _ C1) as Hok. simpl in Hok.
  apply solvency_gate_Ok in H2 as (Q & R & _ & _ & _); [|done].
  split_and!.
  - eapply whole_drift; [|by eapply quiet_drift]. eapply whole_restamped; [|exact R].
    by eapply carried_whole.
  - destruct R as ((?&?&?)&_), C2 as (?&?&?). split_and!; congruence.
  - destruct R as (_&?&_). congruence.
  - done.
  - by exists g.
Qed.

Lemma withdraw_sane s caller id ws to paid s' :
  sane s -> process_withdraw env s caller id ws to = Ok (paid, s') ->
  sane s' /\ beside [id] (sy_ctl s) (sy_ctl s').
Proof using.
  intros Hs H. unfold process_withdraw in H.
  apply rbind_Ok in H as (u & _ & H). apply rbind_Ok in H as (a & Ha & H).
  do 2 apply rbind_Ok in H as (? & _ & H). apply rbind_Ok in H as (agg & _ & H).
  apply rbind_Ok in H as ([[pd a1] f1] & H1 & H). apply rbind_Ok in H as ([[a2 ch] f2] & H2 & H).
  apply rbind_Ok in H as (f3 & H3 & H). injection H as <- <-.
  apply get_account_opened in Ha as (m & Ho).
  eapply withdraw_run in H1 as (Hw & _ & Hbo & _); [|done|done|exact Ho|exact H2].
  eapply (whole_close (Ctx.new s)) in H3; [exact H3|exact Hw|exact Ho|apply Hs|apply Hs|done|done].
Qed.

(** ** Debt *)

Lemma borrow_run f id m a to agg a1 f1 :
  sane (fl_sys f) -> bf_spoke_usage (fl_buf f) = None -> opened (fl_ctl f) id m a ->
  settle_borrow env f a to agg = Ok (a1, f1) ->
  whole f f1 id m a1 /\ same_account a a1 /\ supply_positions a1 = supply_positions a
  /\ exists g, bf_market_indexes (fl_buf g) = bf_market_indexes (fl_buf f)
       /\ bf_token_prices (fl_buf g) = bf_token_prices (fl_buf f) /\ calm env g f1.
Proof using.
  intros [S1 S2 S3] Hu Ho H. unfold settle_borrow in H.
  apply rbind_Ok in H as ([rs g] & Hp & H). unfold for_each_leg in H.
  apply rbind_Ok in H as (u & _ & H). apply pool_call_Ok in Hp as (p & Hp & P1 & P2 & P3).
  apply borrow_moved in Hp as [Hlen Hmv]; [|apply S1].
  eapply (carried_batch BorrowSide (fun x => leg_of (be_action x.1) x.2) (fun _ => True)) in H
    as (R1 & R2 & R3 & R4).
  - split_and!; [by eapply carried_whole|done|done|]. exists g. by rewrite P2.
  - intros a2 f4 [e r] a3 f5 Hctl _ Hmg Hs.
    by apply (merge_debt_Ok env ActBorrow a2 f4 (pa_hub_asset (be_action e))
      (LegEntry (pm_asset_decimals r)) (leg_outcome_of r) (scaled_amount (pa_position (be_action e)))
      (pm_asset_decimals r)).
  - by apply whole_carried, whole_start.
  - done.
  - done.
  - done.
  - by apply moved_debt in Hmv.
  - apply Forall_forall. intros x Hx. apply list_elem_of_fmap in Hx as ([e r] & -> & Hin).
    split; [done|]. apply elem_of_zip_l in Hin. apply list_elem_of_fmap in Hin as (q & -> & _).
    simpl. unfold get_or_create_debt_position, deb. by destruct (map_get _ q.1).
Qed.

Lemma borrow_sane s caller id bs to s' :
  sane s -> process_borrow env s caller id bs to = Ok s' ->
  sane s' /\ beside [id] (sy_ctl s) (sy_ctl s').
Proof using.
  intros Hs H. unfold process_borrow in H.
  apply rbind_Ok in H as (u & _ & H). apply rbind_Ok in H as (a & Ha & H).
  do 2 apply rbind_Ok in H as (? & _ & H). apply rbind_Ok in H as (agg & _ & H).
  apply rbind_Ok in H as (? & _ & H).
  apply rbind_Ok in H as ([a1 f1] & H1 & H). apply rbind_Ok in H as ([[a2 ch] f2] & H2 & H).
  apply rbind_Ok in H as (f3 & H3 & H). injection H as <-.
  apply get_account_opened in Ha as (m & Ho).
  eapply borrow_run in H1 as (Hw & C2 & C3 & _); [|done|done|exact Ho].
  apply solvency_gate_Ok in H2 as (Q & R & R' & _).
  2:{ by apply (books_maps_ok _ _ _ _ _ _ _ _ (wh_books _ _ _ _ _ Hw)). }
  eapply (whole_close (Ctx.new s)) in H3; [exact H3| |exact Ho|apply Hs|apply Hs| |].
  - eapply whole_drift; [|by eapply quiet_drift]. by eapply whole_restamped.
  - by destruct ch.
  - destruct ch; [done|]. intros _. by rewrite R'.
Qed.

Definition repay_held a (x : PoolAction) : Prop :=
  share BorrowSide a (pa_hub_asset x) = scaled_amount (pa_position x).

Lemma repay_batch_carried f0 f id m a payer act xs sm bm rs a' f' :
  carried BorrowSide f0 f id m a sm bm -> Forall (repay_held a) xs ->
  apply_repay_batch env f a payer act xs = Ok (rs, a', f') ->
  carried BorrowSide f0 f' id m a' sm bm /\ same_account a a' /\ supply_positions a' = supply_positions a.
Proof using.
  intros Hc Hxs H. unfold apply_repay_batch in H.
  apply rbind_Ok in H as ([rs1 f1] & H1 & H). apply rbind_Ok in H as ([a1 f2] & H2 & H).
  injection H as <- <- <-. unfold for_each_leg in H2. apply rbind_Ok in H2 as (u & _ & H2).
  apply pool_call_Ok in H1 as (p & Hp & P1 & P2 & P3).
  apply repay_moved in Hp as (Hlen & Hmv & Hsh); [|apply (ca_books _ _ _ _ _ _ _ _ Hc)].
  eapply (carried_batch BorrowSide (fun x => leg_of x.1 x.2)
    (fun g => leg_new g <= leg_old g)) in H2 as (R1 & R2 & R3 & R4).
  - by split_and!.
  - intros a2 f4 [e r] a3 f5 Hctl Hle Hmg Hs.
    by apply (merge_debt_Ok env act a2 f4 (pa_hub_asset e) LegExit (leg_outcome_of r)
      (scaled_amount (pa_position e)) (pm_asset_decimals r)).
  - exact Hc.
  - done.
  - done.
  - done.
  - by apply moved_debt in Hmv.
  - apply Forall_forall. intros g Hg. unfold shrinks in Hsh. rewrite Forall_forall in Hsh.
    split; [by apply Hsh|]. apply list_elem_of_fmap in Hg as ([e r] & -> & Hin).
    apply elem_of_zip_l in Hin. rewrite Forall_forall in Hxs. by apply (Hxs e).
Qed.

Lemma repay_entries_Ok payer pool a f agg xs f' :
  rfold (repay_entry env payer pool a) ([], f) agg = Ok (xs, f') ->
  drift f f' /\ Forall (repay_held a) xs.
Proof using.
  intros H. apply (rfold_inv (fun '(xs, f') => drift f f' /\ Forall (repay_held a) xs))
    with (a := ([], f)) (a' := (xs, f')) in H; [done| |done].
  intros [es1 f1] [h x] [es2 f2] _ [D1 E1] Hs. unfold repay_entry in Hs.
  apply rbind_Ok in Hs as (u & _ & Hs). apply rbind_Ok in Hs as (p & Hp & Hs).
  apply rbind_Ok in Hs as ([r f3] & Ht & Hs).
  injection Hs as <- <-. split; [transitivity f1; [done|by eapply transfer_drift]|].
  apply Forall_app. split; [done|]. constructor; [|constructor].
  unfold repay_held. simpl. symmetry. by apply held_debt_or_panic.
Qed.

Lemma borrow_only_carried s id a :
  sane s -> Store.get_account_borrow_only s id = Ok a ->
  exists m, carried BorrowSide (Ctx.new s) (Ctx.new s) id m a
    (Store.get_supply_positions (sy_ctl s) id) (Store.get_debt_positions (sy_ctl s) id).
Proof using.
  intros [S1 _ _] H. unfold Store.get_account_borrow_only in H.
  apply rbind_Ok in H as (m & Hm & H). apply rbind_Ok in H as (o & _ & H). injection H as <-.
  apply of_option_Ok in Hm. exists m. split; [done..|].
  unfold in_flight, supply_of, debt_of. simpl. exact (books_load _ _ _ _ _ _ _ Hm S1).
Qed.

Lemma repay_sane s caller id ps s' :
  sane s -> process_repay env s caller id ps = Ok s' ->
  sane s' /\ beside [id] (sy_ctl s) (sy_ctl s').
Proof using.
  intros Hs H. unfold process_repay in H.
  apply rbind_Ok in H as (u & _ & H). apply rbind_Ok in H as (agg & _ & H).
  apply rbind_Ok in H as (a & Ha & H). apply rbind_Ok in H as ([a1 f1] & H1 & H).
  apply rbind_Ok in H as (f2 & H2 & H). injection H as <-.
  destruct (borrow_only_carried _ _ _ Hs Ha) as (m & Hc).
  unfold settle_repay in H1. apply rbind_Ok in H1 as (pool & _ & H1).
  apply rbind_Ok in H1 as ([xs g] & Hx & H1). apply rbind_Ok in H1 as ([[rs a2] g2] & Hr & H1).
  injection H1 as <- <-. apply repay_entries_Ok in Hx as [Hd Hx].
  eapply repay_batch_carried in Hr as (C1 & _ & _); [|by eapply carried_drift|exact Hx].
  eapply (carried_close BorrowSide (Ctx.new s)) in H2; [exact H2|exact C1|apply Hs|apply Hs|done|done].
Qed.

End Steps.

End Steps.
