(* ===== verification/CtlLiq.v ===== *)
(** * Liquidation and bad debt
    (contracts/controller/src/positions/liquidation/mod.rs, apply.rs, bad_debt.rs)

    Executing a plan: repayments from measured receipts, seizure scaled to them, as a
    withdrawal of underlying or as a transfer of shares to another account, then the
    removal of what is left when it is socializable bad debt. *)

From S2P Require Import Prelude Errors FpCore Fp PoolTypes PoolCache PoolOps PoolContract ControllerTypes PoolView Account SpokeUsage Risk RiskParams LiqCurve Payments LiqMath LiqPlan CtlState CtlContext CtlFlows.
From stdpp Require Import base numbers list gmap.
From Stdlib Require Import ZArith Lia Bool.

Open Scope Z_scope.

Module Liquidation.

Import Risk Payments LiqMath LiqPlan SpokeUsage Positions.

Section Liq.

Context {W : Type} `{Chain W}.
Context (env : Env).

Abbreviation FlowRes A := (res (A * Flow W)).

(** ** Bad debt (bad_debt.rs) *)

Definition seize_supply_entry (spoke_id : Z) (s : list PoolSeizeEntry * Flow W)
    (e : HubAssetKey * AccountPosition) : FlowRes (list PoolSeizeEntry) :=
  let (entries, f) := s in
  let* f := Ctx.apply_spoke_exit f spoke_id SupplySide e.1 (ap_scaled_amount e.2) in
  Ok (entries ++ [mkPoolSeizeEntry e.1 Deposit (mkScaledPosition (ap_scaled_amount e.2))], f).

Definition seize_debt_entry (spoke_id : Z) (s : list PoolSeizeEntry * Flow W)
    (e : HubAssetKey * DebtPosition) : FlowRes (list PoolSeizeEntry) :=
  let (entries, f) := s in
  let* f := Ctx.apply_spoke_exit f spoke_id BorrowSide e.1 (dp_scaled_amount e.2) in
  Ok (entries ++ [mkPoolSeizeEntry e.1 PoolTypes.Borrow
                    (mkScaledPosition (dp_scaled_amount e.2))], f).

Definition execute_bad_debt_cleanup (f : Flow W) (account_id : Z) (account : Account)
    (totals : AccountRiskTotals) : res (Flow W) :=
  let* (entries, f) := rfold (seize_supply_entry (acc_spoke_id account)) ([], f)
                         (iter_typed_positions (supply_positions account)) in
  let* (entries, f) := rfold (seize_debt_entry (acc_spoke_id account)) (entries, f)
                         (iter_debt_positions (borrow_positions account)) in
  let* f := Ctx.pool_seize_positions_call env f entries in
  let f := Ctx.persist_spoke_usage f in
  let f := on_ctl f (fun c => publish c
             (CleanBadDebtEvent account_id (rt_total_debt totals) (rt_total_collateral totals))) in
  Acct.remove_account_and_burn_nft f account_id.

Inductive BadDebtGate : Type := DustCapped | InsolventOnly.

Definition gate_admits (gate : BadDebtGate) (totals : AccountRiskTotals) : bool :=
  match gate with
  | DustCapped =>
      LiqCurve.is_socializable_bad_debt (rt_total_debt totals) (rt_total_collateral totals)
  | InsolventOnly => rt_total_collateral totals <? rt_total_debt totals
  end.

Definition socialize_bad_debt (s : Sys W) (account_id : Z) (gate : BadDebtGate) : res (Sys W) :=
  let f := Ctx.new s in
  let* account := Store.get_account s account_id in
  do! require (negb (debt_free account)) (ECollateral DebtPositionNotFound) in
  let* (totals, f) := Ctx.account_risk_totals env f (supply_positions account)
                        (borrow_positions account) in
  do! require (gate_admits gate totals) (ECollateral CannotCleanBadDebt) in
  let* f := execute_bad_debt_cleanup f account_id account totals in
  Ok (fl_sys f).

Definition clean_bad_debt_standalone (s : Sys W) (account_id : Z) : res (Sys W) :=
  socialize_bad_debt s account_id DustCapped.

Definition process_clean_bad_debt (s : Sys W) (caller : Address) (account_id : Z)
    : res (Sys W) :=
  do! Ctx.require_auth env caller in
  do! Ctx.require_not_flash_loaning s in
  clean_bad_debt_standalone s account_id.

Definition process_force_socialize_bad_debt (s : Sys W) (account_id : Z) : res (Sys W) :=
  do! Ctx.require_not_flash_loaning s in
  socialize_bad_debt s account_id InsolventOnly.

(** ** Applying a plan (apply.rs) *)

Definition offered_amount (offers : list HubPayment) (h : HubAssetKey) : res Z :=
  let* p := expect_invariant (List.find (fun p => bool_decide (p.1 = h)) offers) in
  Ok p.2.

Record RepayLegs : Type := mkRepayLegs {
  rl_actions : list PoolAction;
  rl_received_usd : Wad
}.

Definition repay_leg (liquidator pool : Address) (account : Account)
    (offered : option (list HubPayment)) (s : RepayLegs * Flow W) (entry : RepayEntry)
    : FlowRes RepayLegs :=
  let (legs, f) := s in
  let h := re_hub_asset entry in
  do! enforce_spoke_asset_flags (Ctx.reads env f) (acc_spoke_id account) h AllowOnExit in
  let* pull := (match offered with
                | None => Ok (re_amount entry)
                | Some offers => offered_amount offers h
                end) in
  let* (received, f) :=
    Ctx.transfer_amount_measured f (asset h) liquidator pool pull AmountMustBePositive in
  let* leg_usd :=
    (if re_amount entry <=? received then Ok (re_usd_wad entry)
     else FpCore.mul_div_floor (re_usd_wad entry) received (re_amount entry)) in
  let* received_usd := Wad.checked_add (rl_received_usd legs) leg_usd in
  let* raw := expect_invariant (map_get (borrow_positions account) h) in
  Ok (mkRepayLegs (rl_actions legs ++ [make_pool_action (dpr_scaled_amount raw) received h])
        received_usd, f).

Definition apply_liquidation_repayments (f : Flow W) (liquidator : Address) (account : Account)
    (repaid : list RepayEntry) (offered : option (list HubPayment))
    : res (Wad * Account * Flow W) :=
  let* pool := Ctx.cached_pool_address f in
  let* (legs, f) := rfold (repay_leg liquidator pool account offered)
                      (mkRepayLegs [] Wad.ZERO, f) repaid in
  let* (ra, f) := apply_repay_batch env f account liquidator ActLiqRepay (rl_actions legs) in
  Ok (rl_received_usd legs, ra.2, f).

Definition seizure_entry (f : Flow W) (account : Account) (entries : list PoolWithdrawEntry)
    (entry : SeizeEntry) : res (list PoolWithdrawEntry) :=
  let h := szn_hub_asset entry in
  do! enforce_spoke_asset_flags (Ctx.reads env f) (acc_spoke_id account) h SeizureLeg in
  let* raw := expect_invariant (map_get (supply_positions account) h) in
  Ok (entries ++ [mkPoolWithdrawEntry
        (make_pool_action (apr_scaled_amount raw) (szn_amount entry) h) (szn_protocol_fee entry)]).

Definition apply_liquidation_seizures (f : Flow W) (liquidator : Address) (account : Account)
    (seized : list SeizeEntry) : FlowRes Account :=
  let* entries := rfold (seizure_entry f account) [] seized in
  let* (ra, f) := apply_withdraw_batch env f account liquidator WithdrawLiquidation ActLiqSeize
                    entries in
  Ok (ra.2, f).

Definition credit_supply_shares (f : Flow W) (receiver : Account) (h : HubAssetKey)
    (scaled : Ray) : res Account :=
  if scaled =? Ray.ZERO then Ok receiver
  else
    let* position :=
      (match map_get (supply_positions receiver) h with
       | Some raw => Ok (account_position_of_raw raw)
       | None =>
           let* config := require_spoke_asset (Ctx.reads env f) (acc_spoke_id receiver) h in
           Ok (get_or_create_supply_position receiver h config)
       end) in
    let* amount := Ray.checked_add (ap_scaled_amount position) scaled in
    Ok (update_or_remove_supply_position receiver h (with_scaled position amount)).

(** One leg: the liquidated account, the receiver, the fee entries, the flow. *)
Definition credit_leg (s : Account * Account * list PoolSeizeEntry * Flow W)
    (entry : SeizeEntry) : res (Account * Account * list PoolSeizeEntry * Flow W) :=
  let '(account, receiver, fees, f) := s in
  let h := szn_hub_asset entry in
  do! enforce_spoke_asset_flags (Ctx.reads env f) (acc_spoke_id account) h SeizureLeg in
  let seized_scaled := szn_scaled_amount entry in
  let* (fee_scaled, liquidator_scaled) :=
    split_seized_shares seized_scaled (szn_bonus_scaled entry) (szn_liquidation_fees entry) in
  do! require (acc_spoke_id receiver =? acc_spoke_id account) (ESpoke SpokeMismatch) in
  let* rest := Ray.checked_sub seized_scaled liquidator_scaled in
  do! require (rest =? fee_scaled) (EGeneric InternalError) in
  let* position := get_supply_position_or_panic account h in
  let* remaining := Ray.checked_sub (ap_scaled_amount position) seized_scaled in
  let position := with_scaled position remaining in
  let account := update_or_remove_supply_position account h position in
  let f := Ctx.record_supply_position_update f ActLiqSeize h
             (mi_supply_index (szn_market_index entry)) (szn_amount entry) position in
  let* receiver := credit_supply_shares f receiver h liquidator_scaled in
  if Ray.ZERO <? fee_scaled then
    let* f := Ctx.apply_spoke_exit f (acc_spoke_id account) SupplySide h fee_scaled in
    Ok (account, receiver,
        fees ++ [mkPoolSeizeEntry h Deposit (mkScaledPosition fee_scaled)], f)
  else Ok (account, receiver, fees, f).

Definition apply_liquidation_share_credit (f : Flow W) (account receiver : Account)
    (seized : list SeizeEntry) : res (Account * Account * Flow W) :=
  let* (arf, f) := rfold credit_leg (account, receiver, [], f) seized in
  let '(account, receiver, fees) := arf in
  match fees with
  | [] => Ok (account, receiver, f)
  | _ =>
      let* f := Ctx.pool_seize_positions_call env f fees in
      Ok (account, receiver, f)
  end.

Definition credited_shares (entry : SeizeEntry) : res Ray :=
  let* (_, liquidator_scaled) :=
    split_seized_shares (szn_scaled_amount entry) (szn_bonus_scaled entry)
      (szn_liquidation_fees entry) in
  Ok liquidator_scaled.

Definition record_share_credit_step (receiver : Account) (f : Flow W) (entry : SeizeEntry)
    : res (Flow W) :=
  let* liquidator_scaled := credited_shares entry in
  if liquidator_scaled =? Ray.ZERO then Ok f
  else
    let h := szn_hub_asset entry in
    let* position := get_supply_position_or_panic receiver h in
    let* value := Ray.mul liquidator_scaled (mi_supply_index (szn_market_index entry)) in
    let* amount := Ray.to_asset_floor value (pfr_asset_decimals (szn_feed entry)) in
    Ok (Ctx.record_supply_position_update f ActLiqCredit h
          (mi_supply_index (szn_market_index entry)) amount position).

Definition record_share_credit_updates (f : Flow W) (receiver : Account)
    (seized : list SeizeEntry) : res (Flow W) :=
  rfold (record_share_credit_step receiver) f seized.

Definition require_credit_position_limit (f : Flow W) (receiver : Account)
    (seized : list SeizeEntry) (fresh : bool) : res unit :=
  let* aggregated := rfold (fun (acc : list HubPayment) entry =>
    let* shares := credited_shares entry in
    Ok (if Ray.ZERO <? shares then acc ++ [(szn_hub_asset entry, szn_amount entry)] else acc))
    [] seized in
  do! (if fresh then Ok tt
       else
         let* limits := Store.get_position_limits (fl_ctl f) in
         validate_bulk_position_limits limits receiver Deposit aggregated) in
  require_whole_unit_isolation (Ctx.market_decimals f) receiver aggregated.

Definition check_bad_debt_after_liquidation (f : Flow W) (account_id : Z) (account : Account)
    (totals : AccountRiskTotals) : res (Flow W) :=
  if debt_free account then Acct.cleanup_account_if_empty f account account_id
  else if LiqCurve.is_socializable_bad_debt (rt_total_debt totals) (rt_total_collateral totals)
  then execute_bad_debt_cleanup f account_id account totals
  else Ok f.

(** ** The flow (mod.rs) *)

Definition load_credit_receiver (s : Sys W) (account_id : Z) (account : Account)
    (requested : Z) : res Account :=
  do! require (negb (requested =? account_id)) (ECollateral SelfLiquidationNotAllowed) in
  let* receiver := Store.get_account s requested in
  do! require (acc_spoke_id receiver =? acc_spoke_id account) (ESpoke SpokeMismatch) in
  do! require (bool_decide (acc_mode receiver = Normal)) (EGeneric AccountModeMismatch) in
  Ok receiver.

Definition resolve_seize_receiver (f : Flow W) (liquidator : Address) (account_id : Z)
    (account : Account) (seize_mode : SeizeMode) : FlowRes (option (Z * Account)) :=
  match seize_mode with
  | SeizeTransfer => Ok (None, f)
  | SeizeCredit requested =>
      if requested =? 0 then
        let* (ida, f) := Acct.create_account_with env f liquidator (acc_spoke_id account) Normal
                           Acct.AllowDeprecated in
        Ok (Some ida, f)
      else
        let* receiver := load_credit_receiver (fl_sys f) account_id account requested in
        do! Acct.require_owner_or_delegate (fl_ctl f) requested liquidator
              (acc_owner receiver) in
        Ok (Some (requested, receiver), f)
  end.

(** The checks that precede the plan's valuation, the load of the account's markets,
    then the plan, which repeats those checks. *)
Definition build_plan (f : Flow W) (account : Account) (payments : list HubPayment)
    : FlowRes LiquidationPlan :=
  do! (if debt_free account then Err (ECollateral HealthFactorTooHigh) else Ok tt) in
  do! rfold (fun _ p => enforce_spoke_asset_flags (Ctx.reads env f) (acc_spoke_id account) p.1
                          AllowOnExit) tt payments in
  let* f := Ctx.load_markets env f (portfolio_hub_keys (map_keys (supply_positions account))
                                      (map_keys (borrow_positions account))) in
  let* plan := build_liquidation_plan account payments (Ctx.reads env f) in
  Ok (plan, f).

(** Delivery of the seizure: underlying, or shares to the receiver. *)
Definition deliver_seizure (f : Flow W) (liquidator : Address) (account : Account)
    (receiver : option (Z * Account)) (seized : list SeizeEntry) (seize_mode : SeizeMode)
    : res (Account * option (Z * Account) * Flow W) :=
  match receiver with
  | None =>
      let* (account, f) := apply_liquidation_seizures f liquidator account seized in
      Ok (account, None, f)
  | Some (id, receiving) =>
      do! require_credit_position_limit f receiving seized
            (bool_decide (seize_mode = SeizeCredit 0)) in
      let* (ar, f) := apply_liquidation_share_credit f account receiving seized in
      Ok (ar.1, Some (id, ar.2), f)
  end.

Definition process_liquidation (s : Sys W) (liquidator : Address) (account_id : Z)
    (debt_payments : list HubPayment) (seize_mode : SeizeMode) : res (Z * Sys W) :=
  do! Ctx.require_auth env liquidator in
  do! Ctx.require_not_flash_loaning s in
  let* account := Store.get_account s account_id in
  let f := Ctx.new s in
  do! require_non_empty_payments debt_payments in
  let* (receiver, f) := resolve_seize_receiver f liquidator account_id account seize_mode in
  let* (plan, f) := build_plan f account debt_payments in
  let* offered :=
    (if nrp_full_close (lp_repayment plan)
     then let* o := aggregate_positive_payments debt_payments in Ok (Some o)
     else Ok None) in
  let result := into_result plan in
  do! require (match lr_repaid result with [] => false | _ => true end)
        (EGeneric InvalidPayments) in
  let* (ra, f) := apply_liquidation_repayments f liquidator account (lr_repaid result) offered in
  let (received_usd, account) := ra in
  let* repay_usd := sum_repaid_usd (lr_repaid result) in
  let* seized := scale_seizures_to_received (lr_seized result) received_usd repay_usd in
  let* (ar, f) := deliver_seizure f liquidator account receiver seized seize_mode in
  let (account, receiver) := ar in
  let f := on_ctl f (fun c =>
             publish c (LiquidationEvent liquidator account_id received_usd (lr_bonus_bps result))) in
  let* (post_totals, f) := Ctx.account_risk_totals env f (supply_positions account)
                             (borrow_positions account) in
  let* f := finalize_position_flow f account_id account SidesBoth false in
  let* f :=
    (match receiver with
     | None => Ok f
     | Some (receiver_id, receiving) =>
         let* f := record_share_credit_updates f receiving seized in
         finalize_position_flow f receiver_id receiving SidesSupply false
     end) in
  let* f := check_bad_debt_after_liquidation f account_id account post_totals in
  Ok (match receiver with None => 0 | Some (id, _) => id end, fl_sys f).

End Liq.

End Liquidation.
