(* ===== verification/CtlLiqSteps.v ===== *)
(** * Liquidation and bad debt keep the invariant

    Seizing every position of an account hands its shares to the pool; crediting
    seized shares moves them between two accounts in flight. *)

From S2P Require Import Prelude Errors FpCore Fp PoolTypes PoolCache PoolOps PoolSafety PoolContract ControllerTypes PoolView PoolMoves Account SpokeUsage Risk RiskParams LiqCurve Payments LiqMath LiqPlan CtlState CtlContext CtlBooks CtlFlows CtlLiq CtlLegs CtlKeep CtlSteps.
From stdpp Require Import base numbers list gmap.
From Stdlib Require Import ZArith Lia Bool.

Open Scope Z_scope.

Module LiqSteps.

Import SpokeUsage RiskParams Payments LiqPlan Positions Liquidation Books Legs Keep Steps.

(** ** Taking the first position off a map *)

Lemma map_get_head {V} (m : PositionMap V) h v :
  map_sorted ((h, v) :: m) -> map_sorted m /\ map_get m h = None.
Proof.
  unfold map_sorted. simpl. intros Hs. inversion Hs as [|? ? Hs' Hall]; subst. split; [done|].
  apply map_get_None. intros Hin. rewrite Forall_forall in Hall.
  exact (key_lt_irrefl h (Hall _ Hin)).
Qed.

Lemma supply_cons h p m :
  supply_ok ((h, p) :: m) ->
  supply_ok m /\ 0 < apr_scaled_amount p
  /\ forall k, sup m k = sup ((h, p) :: m) k + at_key h k (- apr_scaled_amount p).
Proof.
  intros [Hs Hf]. apply map_get_head in Hs as [Hs Hn]. apply Forall_cons in Hf as [[Hp _] Hf].
  split_and!; [by split|done|]. intros k. unfold sup, at_key. simpl.
  destruct (decide (h = k)) as [<-|Hne].
  - rewrite bool_decide_true by done. rewrite Hn. simpl. lia.
  - rewrite bool_decide_false by done. lia.
Qed.

Lemma debt_cons h p m :
  debt_ok ((h, p) :: m) ->
  debt_ok m /\ 0 < dpr_scaled_amount p
  /\ forall k, deb m k = deb ((h, p) :: m) k + at_key h k (- dpr_scaled_amount p).
Proof.
  intros [Hs Hf]. apply map_get_head in Hs as [Hs Hn]. apply Forall_cons in Hf as [[Hp _] Hf].
  split_and!; [by split|done|]. intros k. unfold deb, at_key. simpl.
  destruct (decide (h = k)) as [<-|Hne].
  - rewrite bool_decide_true by done. rewrite Hn. simpl. lia.
  - rewrite bool_decide_false by done. lia.
Qed.

Lemma sup_head h p m : sup ((h, p) :: m) h = apr_scaled_amount p.
Proof. unfold sup. simpl. by rewrite bool_decide_true. Qed.
Lemma deb_head h p m : deb ((h, p) :: m) h = dpr_scaled_amount p.
Proof. unfold deb. simpl. by rewrite bool_decide_true. Qed.

Lemma seized_app side e1 e2 k : seized side (e1 ++ e2) k = seized side e1 k + seized side e2 k.
Proof. apply zsum_app. Qed.

Section LiqSteps.

Context {W : Type} {HW : Host W} {HC : Chain W} {HS : SequentialIds W}.
Context (env : Env).
Implicit Types (f : Flow W) (a : Account) (h k : HubAssetKey) (s : Sys W).

Section Cleanup.

Context (acs : AccountStore) (id : Z) (m : AccountMeta) (Hm : acs_meta acs !! id = Some m).

Lemma seize_supply_fold l b es f ds db es' f' :
  books (put_maps acs id l b) (flow_used f) (fl_pool f) ds db ->
  rfold (seize_supply_entry (meta_spoke_id m)) (es, f) (iter_typed_positions l) = Ok (es', f') ->
  calm env f f' /\ exists new, es' = es ++ new
    /\ (forall k, seized PoolTypes.Borrow new k = 0)
    /\ books (put_maps acs id [] b) (flow_used f') (fl_pool f')
         (fun k => ds k - seized Deposit new k) db.
Proof using Hm.
  revert es f ds. induction l as [|[h p] l IH]; intros es f ds Hb H; simpl in H.
  { injection H as <- <-. split; [done|]. exists []. split_and!; [by rewrite app_nil_r|done|].
    eapply books_ext; [done| |done|exact Hb]. intros. unfold seized. simpl. lia. }
  apply rbind_Ok in H as ([es1 f1] & H1 & H). unfold seize_supply_entry in H1.
  apply rbind_Ok in H1 as (f2 & H2 & H1). injection H1 as <- <-. cbn [fst snd] in *.
  destruct (supply_cons _ _ _ (proj1 (books_maps_ok _ _ _ _ _ _ _ _ Hb))) as (O1 & O2 & O3).
  destruct (books_usage_ge _ _ _ _ _ _ _ _ _ h Hm Hb) as [Hge _]. rewrite sup_head in Hge.
  apply (usage_exit env) in H2 as [U1 U2]; [|simpl; lia]. simpl in U2.
  eapply (books_set_supply _ _ _ _ _ _ _ _ _ l h (- apr_scaled_amount p) (flow_used f2) Hm) in Hb;
    [|done|done| |].
  - rewrite <- (cm_sys _ _ _ U1) in Hb.
    destruct (IH _ _ _ Hb H) as (C & new & -> & N1 & N2).
    split; [by transitivity f2|]. eexists (_ :: new). split_and!; [by rewrite <- app_assoc| |].
    + intros k. specialize (N1 k). unfold seized in *. simpl. rewrite N1. unfold at_key.
      by destruct (decide _).
    + eapply books_ext; [done| |done|exact N2]. intros k. unfold seized. simpl. lia.
  - intros sp k. rewrite U2, bool_decide_true by done. by rewrite andb_true_r.
  - intros sp k. rewrite U2, bool_decide_false by done. rewrite andb_false_r. lia.
Qed.

Lemma seize_debt_fold l sm es f ds db es' f' :
  books (put_maps acs id sm l) (flow_used f) (fl_pool f) ds db ->
  rfold (seize_debt_entry (meta_spoke_id m)) (es, f) (iter_debt_positions l) = Ok (es', f') ->
  calm env f f' /\ exists new, es' = es ++ new
    /\ (forall k, seized Deposit new k = 0)
    /\ books (put_maps acs id sm []) (flow_used f') (fl_pool f') ds
         (fun k => db k - seized PoolTypes.Borrow new k).
Proof using Hm.
  revert es f db. induction l as [|[h p] l IH]; intros es f db Hb H; simpl in H.
  { injection H as <- <-. split; [done|]. exists []. split_and!; [by rewrite app_nil_r|done|].
    eapply books_ext; [done|done| |exact Hb]. intros. unfold seized. simpl. lia. }
  apply rbind_Ok in H as ([es1 f1] & H1 & H). unfold seize_debt_entry in H1.
  apply rbind_Ok in H1 as (f2 & H2 & H1). injection H1 as <- <-. cbn [fst snd] in *.
  destruct (debt_cons _ _ _ (proj2 (books_maps_ok _ _ _ _ _ _ _ _ Hb))) as (O1 & O2 & O3).
  destruct (books_usage_ge _ _ _ _ _ _ _ _ _ h Hm Hb) as [_ Hge]. rewrite deb_head in Hge.
  apply (usage_exit env) in H2 as [U1 U2]; [|simpl; lia]. simpl in U2.
  eapply (books_set_debt _ _ _ _ _ _ _ _ _ l h (- dpr_scaled_amount p) (flow_used f2) Hm) in Hb;
    [|done|done| |].
  - rewrite <- (cm_sys _ _ _ U1) in Hb.
    destruct (IH _ _ _ Hb H) as (C & new & -> & N1 & N2).
    split; [by transitivity f2|]. eexists (_ :: new). split_and!; [by rewrite <- app_assoc| |].
    + intros k. specialize (N1 k). unfold seized in *. simpl. rewrite N1. unfold at_key.
      by destruct (decide _).
    + eapply books_ext; [done|done| |exact N2]. intros k. unfold seized. simpl. lia.
  - intros sp k. rewrite U2, bool_decide_true by done. by rewrite andb_true_r.
  - intros sp k. rewrite U2, bool_decide_false by done. rewrite andb_false_r. lia.
Qed.

End Cleanup.

Lemma seize_call_Ok f es f' acs u ds db :
  books acs u (fl_pool f) ds db -> Ctx.pool_seize_positions_call env f es = Ok f' ->
  fl_ctl f' = fl_ctl f /\ fl_buf f' = fl_buf f /\ host_le (fl_host f) (fl_host f')
  /\ books acs u (fl_pool f') (fun k => ds k + seized Deposit es k)
       (fun k => db k + seized PoolTypes.Borrow es k).
Proof using.
  intros Hb H. unfold Ctx.pool_seize_positions_call in H.
  apply rbind_Ok in H as ([[] f1] & H & E). injection E as <-.
  apply pool_call_Ok in H as (pool & Hp & P1 & P2 & P3). split_and!; [done..|].
  apply rbind_Ok in Hp as (p & Hp & E). injection E as ->. apply books_moved with (p := fl_pool f);
    [|done]. intros fs fb. by apply seize_backed with (env := Ctx.pool_env env pool).
Qed.

(** Seizing every position of a stored account and deleting it. *)
Lemma cleanup_books f id m a t f' :
  opened (fl_ctl f) id m a ->
  books (c_accounts (fl_ctl f)) (flow_used f) (fl_pool f) nothing nothing ->
  execute_bad_debt_cleanup env f id a t = Ok f' ->
  stored_books (fl_ctl f') (fl_pool f')
  /\ c_instance (fl_ctl f') = c_instance (fl_ctl f) /\ c_registry (fl_ctl f') = c_registry (fl_ctl f)
  /\ acs_meta (c_accounts (fl_ctl f')) = delete id (acs_meta (c_accounts (fl_ctl f)))
  /\ host_le (fl_host f) (fl_host f') /\ beside [id] (fl_ctl f) (fl_ctl f').
Proof using.
  intros [O1 O2 O3 O4] Hb H. unfold execute_bad_debt_cleanup in H. rewrite <- O2, O3, O4 in H.
  apply rbind_Ok in H as ([es1 f1] & H1 & H). apply rbind_Ok in H as ([es2 f2] & H2 & H).
  apply rbind_Ok in H as (f3 & H3 & H).
  pose proof (books_load _ _ _ _ _ _ _ O1 Hb) as Hb0.
  eapply (seize_supply_fold _ _ _ O1) in H1 as (C1 & n1 & -> & N1 & B1); [|exact Hb0].
  eapply (seize_debt_fold _ _ _ O1) in H2 as (C2 & n2 & -> & N2 & B2); [|exact B1].
  pose proof (transitivity C1 C2) as C. pose proof (cm_sys _ _ _ C) as Es.
  eapply seize_call_Ok in H3 as (P1 & P2 & P3 & B3); [|exact B2].
  rewrite Es in P1, P3.
  pose proof (remove_account_beside _ _ _ H) as Hbe.
  unfold Acct.remove_account_and_burn_nft in H. apply rbind_Ok in H as (nft & _ & H).
  apply rbind_Ok in H as (w & Hw & H). injection H as <-.
  unfold Store.nft_burn_call in Hw. apply rbind_Ok in Hw as (u' & _ & Hw).
  destruct (persist_usage_settled f3) as [[I1 I2 _ I4 I5] Pa].
  assert (host_le (fl_host f3) w) as Hle.
  { intros nft'. etransitivity; [apply (I5 nft')|]. by eapply burn_keeps_ids. }
  split_and!; simpl.
  - unfold stored_books. simpl. rewrite I4. simpl in Pa. rewrite Pa, P1. apply books_erase.
    eapply books_ext; [| | |exact B3].
    + intros. simpl. rewrite persist_usage_used. by apply called_used; [rewrite Es|].
    + intros k. cbv beta. rewrite !seized_app, N2. unfold nothing. simpl. lia.
    + intros k. cbv beta. rewrite !seized_app, N1. unfold nothing. simpl. lia.
  - simpl in I1. by rewrite I1, P1.
  - simpl in I2. by rewrite I2, P1.
  - simpl in Pa. by rewrite Pa, P1.
  - by transitivity (fl_host f3).
  - etransitivity; [|exact Hbe]. rewrite <- P1. etransitivity; [apply persist_usage_beside|].
    by apply beside_same.
Qed.

Lemma socialize_sane s id gate s' :
  sane s -> socialize_bad_debt env s id gate = Ok s' ->
  sane s' /\ beside [id] (sy_ctl s) (sy_ctl s').
Proof using.
  intros [S1 S2 S3] H. unfold socialize_bad_debt in H.
  apply rbind_Ok in H as (a & Ha & H). apply rbind_Ok in H as (u & _ & H).
  apply rbind_Ok in H as ([t f1] & H1 & H). apply rbind_Ok in H as (u2 & _ & H).
  apply rbind_Ok in H as (f2 & H2 & H). injection H as <-.
  apply get_account_opened in Ha as (m & Ho). apply risk_totals_quiet in H1 as Q.
  pose proof (quiet_drift _ _ _ Q) as [D1 D2 D3 D4].
  eapply cleanup_books in H2 as (B & I1 & I2 & I3 & I4 & I5).
  - rewrite D1 in *. split; [|exact I5]. split; [done| |].
    + intros sp h cfg. unfold Store.get_spoke_asset. rewrite I2. apply S2.
    + apply (minted_le s); [by rewrite I1|rewrite I3; apply delete_subseteq| |done].
      by transitivity (fl_host f1).
  - rewrite D1. exact Ho.
  - rewrite D1, D2. eapply books_ext; [|done|done|exact S1]. intros.
    rewrite (quiet_used _ _ _ _ _ _ Q). done.
Qed.

(** ** Share credit: two accounts in flight *)

Section Credit.

Context (acs : AccountStore) (id rid : Z) (m rm : AccountMeta) (Hne : rid <> id).
Context (Hm : acs_meta acs !! id = Some m) (Hrm : acs_meta acs !! rid = Some rm).
Context (Hspoke : meta_spoke_id rm = meta_spoke_id m).

Definition both f a r ds db : Prop :=
  books (put_maps (put_maps acs rid (supply_positions r) (borrow_positions r))
           id (supply_positions a) (borrow_positions a)) (flow_used f) (fl_pool f) ds db.

Lemma both_ok f a r ds db :
  both f a r ds db -> supply_ok (supply_positions a) /\ supply_ok (supply_positions r).
Proof using Hne.
  intros H. pose proof (books_maps_ok _ _ _ _ _ _ _ _ H) as [H1 _]. unfold both in H.
  rewrite put_maps_comm in H by done. apply books_maps_ok in H as [H2 _]. done.
Qed.

(** Shares leave one account and arrive, less [d1 + d2], at the other. *)
Lemma both_move f a r ds db a' r' f' h d1 d2 :
  both f a r ds db ->
  borrow_positions a' = borrow_positions a -> borrow_positions r' = borrow_positions r ->
  supply_ok (supply_positions a') -> supply_ok (supply_positions r') ->
  (forall k, sup (supply_positions a') k = sup (supply_positions a) k + at_key h k d1) ->
  (forall k, sup (supply_positions r') k = sup (supply_positions r) k + at_key h k d2) ->
  fl_pool f' = fl_pool f -> moves_used f f' (meta_spoke_id m) SupplySide h (d1 + d2) ->
  both f' a' r' (fun k => ds k - at_key h k (d1 + d2)) db.
Proof using Hne Hm Hrm Hspoke.
  intros Hb Ea Er Oa Or Sa Sr Hp Hu.
  set (u1 := fun sp k x => flow_used f sp k x
    + if (sp =? meta_spoke_id m) && bool_decide (x = SupplySide) then at_key h k d1 else 0).
  assert (forall k, at_key h k (d1 + d2) = at_key h k d1 + at_key h k d2) as Hd
    by (intros k; unfold at_key; destruct (decide _); lia).
  assert (acs_meta (put_maps acs rid (supply_positions r) (borrow_positions r)) !! id = Some m)
    as Hm' by done.
  unfold both in Hb.
  eapply (books_set_supply _ _ _ _ _ _ _ _ _ (supply_positions a') h d1 u1 Hm') in Hb;
    [|done|done| |].
  - rewrite put_maps_comm in Hb by done.
    assert (acs_meta (put_maps acs id (supply_positions a') (borrow_positions a)) !! rid = Some rm)
      as Hr' by done.
    eapply (books_set_supply _ _ _ _ _ _ _ _ _ (supply_positions r') h d2 (flow_used f') Hr') in Hb;
      [|done|done| |].
    + unfold both. rewrite Ea, Er, Hp, put_maps_comm by done.
      eapply books_ext; [done| |done|exact Hb]. intros k. cbv beta. rewrite Hd. lia.
    + intros sp k. subst u1. cbv beta. rewrite Hu, Hspoke, bool_decide_true by done.
      rewrite andb_true_r, Hd. destruct (sp =? _); lia.
    + intros sp k. subst u1. cbv beta. rewrite Hu, bool_decide_false by done.
      rewrite andb_false_r. lia.
  - intros sp k. subst u1. cbv beta. rewrite bool_decide_true by done. by rewrite andb_true_r.
  - intros sp k. subst u1. cbv beta. rewrite bool_decide_false by done. rewrite andb_false_r. lia.
Qed.

Lemma credit_shares_Ok f r h d r' :
  listings_ok (fl_ctl f) -> supply_ok (supply_positions r) -> 0 <= d ->
  credit_supply_shares env f r h d = Ok r' ->
  same_account r r' /\ borrow_positions r' = borrow_positions r /\ supply_ok (supply_positions r')
  /\ forall k, sup (supply_positions r') k = sup (supply_positions r) k + at_key h k d.
Proof using.
  intros Hl Hr Hd H. unfold credit_supply_shares, Ray.ZERO in H.
  destruct (Z.eqb_spec d 0) as [->|Hz].
  { injection H as <-. split_and!; [by split_and!|done|done|]. intros k. unfold at_key.
    destruct (decide _); lia. }
  apply rbind_Ok in H as (p & Hp & H). apply rbind_Ok in H as (x & Hx & H). injection H as <-.
  apply checked_add_Ok in Hx as [-> [_ Hmax]].
  assert (tuple_ok p /\ ap_scaled_amount p = share SupplySide r h) as [Ht Hsc].
  { destruct (map_get (supply_positions r) h) as [raw|] eqn:E.
    - injection Hp as <-. split; [by eapply held_tuple_ok|]. simpl. unfold sup. by rewrite E.
    - apply rbind_Ok in Hp as (cfg & Hcfg & Hp). injection Hp as <-.
      apply (listed_ok env _ _ _ _ Hl) in Hcfg. by apply new_tuple_ok. }
  assert (0 <= share SupplySide r h) by (by apply sup_nonneg).
  destruct (supply_written r h (with_scaled p (ap_scaled_amount p + d)) Hr ltac:(simpl; lia) Ht)
    as [S1 S2].
  split_and!; [by split_and!|done|done|]. intros k.
  match goal with |- sup (supply_positions ?x) k = _ =>
    change (share SupplySide x k = share SupplySide r k + at_key h k d) end.
  rewrite S2, Hsc. simpl. f_equal. unfold at_key. destruct (decide _); simpl; lia.
Qed.

Record credited f a r (fees : list PoolSeizeEntry) ds db f' a' r' fees' : Prop := {
  cr_calm : calm env f f';
  cr_account : same_account a a' /\ borrow_positions a' = borrow_positions a;
  cr_receiver : same_account r r' /\ borrow_positions r' = borrow_positions r;
  cr_fees : exists new, fees' = fees ++ new /\ (forall k, seized PoolTypes.Borrow new k = 0)
    /\ both f' a' r' (fun k => ds k - seized Deposit new k) db
}.

Lemma credit_leg_Ok a r fees f e a' r' fees' f' ds db :
  listings_ok (fl_ctl f) -> acc_spoke_id a = meta_spoke_id m -> both f a r ds db ->
  credit_leg env (a, r, fees, f) e = Ok (a', r', fees', f') ->
  credited f a r fees ds db f' a' r' fees'.
Proof using Hne Hm Hrm Hspoke.
  intros Hl Hsp Hb H. destruct (both_ok _ _ _ _ _ Hb) as [Oa Or].
  unfold credit_leg in H. apply rbind_Ok in H as (u & _ & H).
  apply rbind_Ok in H as ([fee liq] & _ & H). apply rbind_Ok in H as (u2 & _ & H).
  apply rbind_Ok in H as (rest & Hrest & H). apply rbind_Ok in H as (u3 & Hfee & H).
  apply rbind_Ok in H as (p & Hp & H). apply rbind_Ok in H as (rem & Hrem & H).
  apply rbind_Ok in H as (r1 & Hr & H).
  apply checked_sub_Ok in Hrest as [-> Hlq]. apply require_Ok in Hfee. b2p.
  apply checked_sub_Ok in Hrem as [-> Hsz].
  pose proof (held_supply_or_panic _ _ _ Hp) as Hsc. set (h := szn_hub_asset e) in *.
  assert (tuple_ok p) as Ht.
  { unfold get_supply_position_or_panic in Hp. apply rbind_Ok in Hp as (raw & Hraw & Hp).
    injection Hp as <-. apply of_option_Ok in Hraw. exact (proj1 (held_tuple_ok _ _ _ Oa Hraw)). }
  assert (ap_scaled_amount p <= i128_max) as Hmax.
  { unfold get_supply_position_or_panic in Hp. apply rbind_Ok in Hp as (raw & Hraw & Hp).
    injection Hp as <-. apply of_option_Ok in Hraw.
    pose proof (held_tuple_ok _ _ _ Oa Hraw) as [_ ?]. simpl. lia. }
  destruct (supply_written a h (with_scaled p (ap_scaled_amount p - szn_scaled_amount e)) Oa
    ltac:(simpl; lia) Ht) as [Sa1 Sa2].
  apply credit_shares_Ok in Hr as (R1 & R2 & R3 & R4); [|done|done|lia].
  set (a1 := update_or_remove_supply_position a h _) in *.
  set (f1 := Ctx.record_supply_position_update f _ _ _ _ _) in *.
  assert (quiet env f f1) as Q1 by apply record_supply_quiet.
  assert (forall k, sup (supply_positions a1) k
    = sup (supply_positions a) k + at_key h k (- szn_scaled_amount e)) as Sa3.
  { intros k. change (share SupplySide a1 k = share SupplySide a k + at_key h k (- szn_scaled_amount e)).
    rewrite Sa2, <- Hsc. simpl. f_equal. unfold at_key. destruct (decide _); lia. }
  destruct (Ray.ZERO <? fee) eqn:Ef; unfold Ray.ZERO in Ef; b2p.
  - apply rbind_Ok in H as (f2 & Hu & H). injection H as <- <- <- <-.
    destruct (books_usage_ge _ _ _ _ _ _ _ _ _ h
      (Hm : acs_meta (put_maps acs rid (supply_positions r) (borrow_positions r)) !! id = Some m) Hb)
      as [Hge _]. simpl in Hsc. rewrite <- Hsc, <- Hsp in Hge.
    change (acc_spoke_id a1) with (acc_spoke_id a) in Hu.
    apply (usage_exit env) in Hu as [U1 U2];
      [|rewrite (quiet_used _ _ _ _ _ _ Q1); lia].
    split; [transitivity f1; [apply Q1|done]|by split_and!|done|].
    eexists. split; [reflexivity|]. split; [intros k; unfold seized, at_key; simpl; by destruct (decide _)|].
    eapply books_ext; [done| |done|].
    2:{ eapply (both_move f a r ds db a1 r1 f2 h (- szn_scaled_amount e) liq);
        [exact Hb|done|done|exact Sa1|exact R3|exact Sa3|exact R4| |].
        - by rewrite (cm_sys _ _ _ U1).
        - rewrite <- Hsp. replace (- szn_scaled_amount e + liq) with (- fee) by lia.
          by eapply moves_quiet; [exact Q1|exact U2|]. }
    intros k. replace (- szn_scaled_amount e + liq) with (- fee) by lia.
    unfold seized. simpl. lia.
  - injection H as <- <- <- <-.
    assert (fee = 0) as -> by lia.
    split; [apply Q1|by split_and!|done|].
    exists []. split; [by rewrite app_nil_r|]. split; [done|].
    eapply books_ext; [done| |done|].
    2:{ eapply (both_move f a r ds db a1 r1 f1 h (- szn_scaled_amount e) liq);
        [exact Hb|done|done|exact Sa1|exact R3|exact Sa3|exact R4|done|].
        intros sp k x. rewrite (quiet_used _ _ _ _ _ _ Q1).
        replace (- szn_scaled_amount e + liq) with 0 by lia. unfold at_key.
        destruct (_ && _)%bool; [destruct (decide _)|]; lia. }
    intros k. replace (- szn_scaled_amount e + liq) with 0 by lia.
    unfold seized, at_key. simpl. destruct (decide _); lia.
Qed.

Lemma credit_fold l : forall a r fees f a' r' fees' f' ds db,
  listings_ok (fl_ctl f) -> acc_spoke_id a = meta_spoke_id m -> both f a r ds db ->
  rfold (credit_leg env) (a, r, fees, f) l = Ok (a', r', fees', f') ->
  credited f a r fees ds db f' a' r' fees'.
Proof using Hne Hm Hrm Hspoke.
  induction l as [|e l IH]; intros a r fees f a' r' fees' f' ds db Hl Hsp Hb H; simpl in H.
  { injection H as <- <- <- <-. split; [done|by split_and!|by split_and!|]. exists [].
    split_and!; [by rewrite app_nil_r|done|]. eapply books_ext; [done| |done|exact Hb].
    intros k. unfold seized. simpl. lia. }
  apply rbind_Ok in H as ([[[a1 r1] fees1] f1] & H1 & H).
  eapply credit_leg_Ok in H1 as [C1 [C2 C2'] [C3 C3'] (n1 & -> & N1 & B1)]; [|done..|exact Hb].
  eapply IH in H as [D1 [D2 D2'] [D3 D3'] (n2 & -> & N2 & B2)];
    [| | |exact B1].
  - split.
    + by transitivity f1.
    + destruct C2 as (?&?&?), D2 as (?&?&?). split; [split_and!|]; congruence.
    + destruct C3 as (?&?&?), D3 as (?&?&?). split; [split_and!|]; congruence.
    + exists (n1 ++ n2). rewrite app_assoc. split_and!; [done| |].
      * intros k. by rewrite seized_app, N1, N2.
      * eapply books_ext; [done| |done|exact B2]. intros k. cbv beta. rewrite seized_app. lia.
  - by rewrite (cm_sys _ _ _ C1).
  - destruct C2 as (_ & -> & _). done.
Qed.

Lemma share_credit_Ok f a r l a' r' f' :
  listings_ok (fl_ctl f) -> acc_spoke_id a = meta_spoke_id m -> both f a r nothing nothing ->
  apply_liquidation_share_credit env f a r l = Ok (a', r', f') ->
  both f' a' r' nothing nothing
  /\ fl_ctl f' = fl_ctl f /\ host_le (fl_host f) (fl_host f')
  /\ same_account a a' /\ borrow_positions a' = borrow_positions a
  /\ same_account r r' /\ borrow_positions r' = borrow_positions r.
Proof using Hne Hm Hrm Hspoke.
  intros Hl Hsp Hb H. unfold apply_liquidation_share_credit in H.
  apply rbind_Ok in H as ([[[a1 r1] fees] f1] & H1 & H).
  eapply credit_fold in H1 as [C1 [C2 C2'] [C3 C3'] (n1 & E & N1 & B1)]; [|done..|exact Hb].
  simpl in E. subst fees. pose proof (cm_sys _ _ _ C1) as Es. destruct n1 as [|e n1].
  - injection H as <- <- <-. by split_and!; try done; rewrite Es.
  - apply rbind_Ok in H as (f2 & H2 & H). injection H as <- <- <-.
    eapply seize_call_Ok in H2 as (P1 & P2 & P3 & B3); [|exact B1].
    split_and!; try done; [|congruence|by rewrite Es in P3].
    unfold both. eapply books_ext; [| | |exact B3].
    + intros. by apply called_used.
    + intros k. cbv beta. unfold nothing. lia.
    + intros k. cbv beta. rewrite N1. unfold nothing. lia.
Qed.

End Credit.

(** ** The parts of a liquidation *)

Lemma create_keeps f owner spoke mode adm rid r f' id m a :
  sane (fl_sys f) -> opened (fl_ctl f) id m a ->
  Acct.create_account_with env f owner spoke mode adm = Ok (rid, r, f') ->
  rid <> id /\ acc_spoke_id r = spoke /\ opened (fl_ctl f') id m a.
Proof using.
  intros [_ _ S3] [O1 O2 O3 O4] H. unfold Acct.create_account_with in H.
  apply rbind_Ok in H as (u & _ & H). apply rbind_Ok in H as (sc & _ & H).
  apply rbind_Ok in H as (nft & Hn & H). apply rbind_Ok in H as ([id' w] & Hw & H).
  injection H as <- <- <-. apply of_option_Ok in Hn.
  apply mint_sequential in Hw as (-> & _). pose proof (minted_fresh _ _ S3 Hn) as Hf. simpl in Hf.
  assert (nft_next (fl_host f) nft <> id) as Hne by congruence.
  split_and!; [done|done|]. split; [|done..]. simpl. by rewrite lookup_insert_ne.
Qed.

(** The account a seizure credits, beside the liquidated one. *)
Definition receives (c : Controller) (id : Z) a (ro : option (Z * Account)) : Prop :=
  match ro with
  | None => True
  | Some (rid, r) =>
      rid <> id /\ acc_spoke_id r = acc_spoke_id a /\ exists rm, opened c rid rm r
  end.

Lemma resolve_receiver_Ok f liq id m a mode ro f' :
  sane (fl_sys f) -> opened (fl_ctl f) id m a ->
  resolve_seize_receiver env f liq id a mode = Ok (ro, f') ->
  sane (fl_sys f') /\ fl_buf f' = fl_buf f /\ opened (fl_ctl f') id m a
  /\ receives (fl_ctl f') id a ro
  /\ beside (match ro with Some (rid, _) => [rid] | None => [] end) (fl_ctl f) (fl_ctl f').
Proof using.
  intros Hs Ho H. unfold resolve_seize_receiver in H. destruct mode as [|req].
  { injection H as <- <-. done. }
  destruct (req =? 0).
  - apply rbind_Ok in H as ([[rid r] f1] & H1 & H). injection H as <- <-.
    pose proof (create_account_beside _ _ _ _ _ _ _ _ _ H1) as Hbe.
    destruct (create_keeps _ _ _ _ _ _ _ _ _ _ _ Hs Ho H1) as (K1 & K2 & K3).
    apply create_account_sane in H1 as (S1 & S2 & _ & S4); [|done]. split_and!; [done..| |done].
    by split_and!.
  - apply rbind_Ok in H as (r & Hr & H). apply rbind_Ok in H as (u & _ & H). injection H as <- <-.
    unfold load_credit_receiver in Hr. apply rbind_Ok in Hr as (u1 & Hne & Hr).
    apply rbind_Ok in Hr as (r' & Hg & Hr). apply rbind_Ok in Hr as (u2 & Hsp & Hr).
    apply rbind_Ok in Hr as (u3 & _ & Hr). injection Hr as ->.
    apply require_Ok in Hne, Hsp. b2p. split_and!; [done|done|done| |done].
    simpl. split_and!; [done|done|by apply get_account_opened].
Qed.

Lemma repay_legs_Ok liq pool a off f es legs f' :
  rfold (repay_leg env liq pool a off) (mkRepayLegs [] Wad.ZERO, f) es = Ok (legs, f') ->
  drift f f' /\ Forall (repay_held a) (rl_actions legs).
Proof using.
  intros H. apply (rfold_inv (fun '(l, f') => drift f f' /\ Forall (repay_held a) (rl_actions l)))
    with (a := (mkRepayLegs [] Wad.ZERO, f)) (a' := (legs, f')) in H; [done| |by split].
  intros [l1 f1] e [l2 f2] _ [D1 E1] Hs. unfold repay_leg in Hs.
  apply rbind_Ok in Hs as (u & _ & Hs). apply rbind_Ok in Hs as (pull & _ & Hs).
  apply rbind_Ok in Hs as ([rc f3] & Ht & Hs). apply rbind_Ok in Hs as (lu & _ & Hs).
  apply rbind_Ok in Hs as (ru & _ & Hs). apply rbind_Ok in Hs as (raw & Hraw & Hs).
  injection Hs as <- <-. split; [transitivity f1; [done|by eapply transfer_drift]|].
  simpl. apply Forall_app. split; [done|]. constructor; [|constructor].
  unfold repay_held. simpl. unfold deb. apply of_option_Ok in Hraw. by rewrite Hraw.
Qed.

Lemma repayments_Ok f0 f liq id m a es off usd a' f' :
  whole f0 f id m a -> apply_liquidation_repayments env f liq a es off = Ok (usd, a', f') ->
  whole f0 f' id m a' /\ same_account a a'.
Proof using.
  intros Hw H. unfold apply_liquidation_repayments in H. apply rbind_Ok in H as (pool & _ & H).
  apply rbind_Ok in H as ([legs f1] & H1 & H). apply rbind_Ok in H as ([[rs a1] f2] & H2 & H).
  injection H as <- <- <-. apply repay_legs_Ok in H1 as [D Hl].
  eapply repay_batch_carried in H2 as (C1 & C2 & C3);
    [|by eapply carried_drift; [apply whole_carried|]|exact Hl].
  split; [|done]. by eapply carried_whole.
Qed.

Lemma seizure_entries_held f a l es :
  rfold (seizure_entry env f a) [] l = Ok es -> Forall (exit_held a) es.
Proof using.
  apply (rfold_inv (Forall (exit_held a))); [|constructor].
  intros l1 e l2 _ Hl H. unfold seizure_entry in H.
  apply rbind_Ok in H as (u & _ & H). apply rbind_Ok in H as (raw & Hraw & H). injection H as <-.
  apply Forall_app. split; [done|]. constructor; [|constructor].
  unfold exit_held. simpl. unfold sup. apply of_option_Ok in Hraw. by rewrite Hraw.
Qed.

(** Both accounts of a liquidation before it is written; [ro] is the receiver. *)
Record ready f (id : Z) (m : AccountMeta) a (ro : option (Z * Account)) : Prop := {
  rd_listings : listings_ok (fl_ctl f);
  rd_minted : minted (fl_sys f);
  rd_meta : acs_meta (c_accounts (fl_ctl f)) !! id = Some m;
  rd_spoke : meta_spoke_id m = acc_spoke_id a;
  rd_books : match ro with
    | None => books (put_maps (c_accounts (fl_ctl f)) id (supply_positions a) (borrow_positions a))
                (flow_used f) (fl_pool f) nothing nothing
    | Some (rid, r) =>
        rid <> id /\ borrow_positions r = Store.get_debt_positions (fl_ctl f) rid
        /\ (exists rm, acs_meta (c_accounts (fl_ctl f)) !! rid = Some rm)
        /\ both (c_accounts (fl_ctl f)) id rid f a r nothing nothing
    end
}.

Lemma deliver_Ok f0 f liq id m a ro l mode a' ro' f' :
  listings_ok (fl_ctl f0) -> minted (fl_sys f0) -> receives (fl_ctl f0) id a ro ->
  whole f0 f id m a -> deliver_seizure env f liq a ro l mode = Ok (a', ro', f') ->
  ready f' id m a' ro' /\ fl_ctl f' = fl_ctl f0 /\ fst <$> ro' = fst <$> ro.
Proof using.
  intros Hl Hmi Hr Hw H. unfold deliver_seizure in H. pose proof Hw as [W1 W2 W3 W4 W5].
  destruct ro as [[rid r]|].
  - destruct Hr as (Hne & Hsp & rm & [R1 R2 R3 R4]).
    apply rbind_Ok in H as (u & _ & H). apply rbind_Ok in H as ([[a1 r1] f1] & H1 & H).
    injection H as <- <- <-.
    assert (both (c_accounts (fl_ctl f0)) id rid f a r nothing nothing) as Hb.
    { unfold both. rewrite put_maps_comm by done.
      assert (acs_meta (put_maps (c_accounts (fl_ctl f0)) id (supply_positions a)
        (borrow_positions a)) !! rid = Some rm) as Hrm by done.
      pose proof (books_load _ _ _ _ _ _ _ Hrm W5) as Hb. simpl in Hb.
      rewrite !lookup_insert_ne in Hb by done. by rewrite R3, R4. }
    eapply (share_credit_Ok (c_accounts (fl_ctl f0)) id rid m rm Hne W3 R1) in H1
      as (B & P1 & P2 & Q1 & Q2 & Q3 & Q4); [|congruence|by rewrite W1|done|done].
    assert (fl_ctl f1 = fl_ctl f0) as Ec by congruence. split; [|by split].
    split; rewrite ?Ec; [done| |done| |].
    + eapply minted_same; [exact Ec| |done]. by transitivity (fl_host f).
    + destruct Q1 as (_ & Q1 & _). congruence.
    + split_and!; [done|congruence|by exists rm|done].
  - apply rbind_Ok in H as ([a1 f1] & H1 & H). injection H as <- <- <-.
    unfold apply_liquidation_seizures in H1. apply rbind_Ok in H1 as (es & He & H1).
    apply rbind_Ok in H1 as ([[rs a2] f2] & H2 & H1). injection H1 as <- <-.
    apply seizure_entries_held in He.
    eapply withdraw_batch_carried in H2 as (C1 & C2 & C3 & _); [|exact Hl|by apply whole_carried|done].
    apply carried_whole in C1; [|done]. destruct C1 as [V1 V2 V3 V4 V5]. split; [|by split].
    split; rewrite ?V1; [done| |done|done|done]. by eapply minted_same.
Qed.

Lemma ready_drift f f' id m a ro : ready f id m a ro -> drift f f' -> ready f' id m a ro.
Proof using.
  intros [R1 R2 R3 R4 R5] Hd. pose proof Hd as [D1 D2 D3 D4].
  split; rewrite ?D1; [done|by eapply minted_same|done|done|].
  destruct ro as [[rid r]|].
  - destruct R5 as (B1 & B2 & B3 & B4). split_and!; [done..|]. unfold both in *. rewrite D2.
    eapply books_ext; [|done|done|exact B4]. intros. by apply drift_used.
  - rewrite D2. eapply books_ext; [|done|done|exact R5]. intros. by apply drift_used.
Qed.

Lemma ready_publish f e id m a ro :
  ready f id m a ro -> ready (on_ctl f (fun c => publish c e)) id m a ro.
Proof using. intros [R1 R2 R3 R4 R5]. by split. Qed.


(** ** Writing both accounts *)

Definition written (sides : PositionSides) (acs : AccountStore) (id : Z) a : AccountStore :=
  mkAccountStore (acs_meta acs)
    (if bool_decide (sides = SidesDebt) then acs_supply acs
     else Store.write_side_map (acs_supply acs) id (supply_positions a))
    (if bool_decide (sides = SidesSupply) then acs_borrow acs
     else Store.write_side_map (acs_borrow acs) id (borrow_positions a))
    (acs_delegates acs).

Lemma finalize_written f id a sides f' :
  finalize_position_flow f id a sides false = Ok f' ->
  settled f f' /\ usage_stored f'
  /\ (forall sp h x, used (c_usage (fl_ctl f')) sp h x = flow_used f sp h x)
  /\ c_accounts (fl_ctl f') = written sides (c_accounts (fl_ctl f)) id a.
Proof using.
  intros H. pose proof (finalize_usage _ _ _ _ _ _ H) as Hu. unfold finalize_position_flow in H.
  apply rbind_Ok in H as (f2 & H2 & H). injection H as <-.
  destruct (emit_batch_ctl f2 id a) as (E1 & E2 & E3 & E4 & E5 & E6).
  destruct (persist_usage_settled f) as [[P1 P2 P3 P4 P5] Pa].
  pose proof (persist_usage_used f) as Pu. unfold persist_account_positions in H2.
  injection H2 as <-. cbv zeta in *.
  split_and!; [|done| |].
  - split; [rewrite E1|rewrite E2|rewrite E3|rewrite E5|rewrite E6]; by destruct sides.
  - intros sp h x. rewrite E4, <- Pu. by destruct sides.
  - rewrite E3. destruct sides; simpl; by rewrite Pa || (unfold written; simpl; rewrite Pa).
Qed.

(** Everything written: stored books, and account [id] stored as [a]. *)
Record filed f (id : Z) (m : AccountMeta) a : Prop := {
  fi_listings : listings_ok (fl_ctl f);
  fi_minted : minted (fl_sys f);
  fi_books : stored_books (fl_ctl f) (fl_pool f);
  fi_usage : usage_stored f;
  fi_opened : opened (fl_ctl f) id m a
}.

Lemma settled_listings f f' : settled f f' -> listings_ok (fl_ctl f) -> listings_ok (fl_ctl f').
Proof using.
  intros [_ S2 _ _ _] Hl sp h cfg. unfold Store.get_spoke_asset. rewrite S2. apply Hl.
Qed.

Lemma settled_minted f f' : settled f f' -> minted (fl_sys f) -> minted (fl_sys f').
Proof using. intros [S1 _ S3 _ S5]. by apply minted_le. Qed.

Lemma file_one f id m a f' :
  ready f id m a None -> finalize_position_flow f id a SidesBoth false = Ok f' -> filed f' id m a.
Proof using.
  intros [R1 R2 R3 R4 R5] H. apply finalize_written in H as (S & U & Eu & Ea). split.
  - by eapply settled_listings.
  - by eapply settled_minted.
  - unfold stored_books. rewrite Ea, (st_pool _ _ S). unfold written. simpl.
    eapply books_ext; [exact Eu|done|done|]. by eapply books_store.
  - done.
  - split; unfold Store.get_supply_positions, Store.get_debt_positions; rewrite ?Ea; simpl;
      rewrite ?write_side_get; done.
Qed.

Lemma write_side_other {V} (st : gmap Z (PositionMap V)) id id' (l : PositionMap V) :
  id <> id' -> Store.write_side_map st id l !! id' = st !! id'.
Proof using. intros Hne. destruct l; simpl; [by rewrite lookup_delete_ne|by rewrite lookup_insert_ne]. Qed.

Lemma file_receiver f id m a rid r f1 f2 f3 :
  ready f id m a (Some (rid, r)) ->
  finalize_position_flow f id a SidesBoth false = Ok f1 -> quiet env f1 f2 ->
  finalize_position_flow f2 rid r SidesSupply false = Ok f3 -> filed f3 id m a.
Proof using.
  intros [R1 R2 R3 R4 (N & Rb & (rm & Rm) & B)] H1 Q H3.
  apply finalize_written in H1 as (S & U & Eu & Ea).
  pose proof (quiet_drift _ _ _ Q) as [D1 D2 D3 D4].
  assert (books (put_maps (c_accounts (fl_ctl f1)) rid (supply_positions r) (borrow_positions r))
    (used (c_usage (fl_ctl f1))) (fl_pool f1) nothing nothing) as B1.
  { rewrite Ea, (st_pool _ _ S). eapply books_ext; [exact Eu|done|done|].
    unfold both in B. rewrite put_maps_comm in B by done. unfold written. simpl.
    eapply books_store_beside; [|exact R3|exact B]. congruence. }
  apply finalize_written in H3 as (S3 & U3 & Eu3 & Ea3). rewrite D1 in Ea3.
  assert (Store.get_debt_positions (fl_ctl f1) rid = borrow_positions r) as Gr.
  { unfold Store.get_debt_positions. rewrite Ea. simpl. rewrite write_side_other by congruence.
    by rewrite Rb. }
  split.
  - eapply settled_listings; [exact S3|]. rewrite D1. by eapply settled_listings.
  - eapply settled_minted; [exact S3|]. eapply minted_same; [exact D1|done|]. by eapply settled_minted.
  - unfold stored_books. rewrite Ea3, (st_pool _ _ S3), D2. unfold written. simpl.
    eapply books_ext; [intros; rewrite Eu3, (quiet_used _ _ _ _ _ _ Q); by apply U|done|done|].
    eapply (books_store_supply _ _ rm); [rewrite Ea; exact Rm|].
    unfold Store.get_debt_positions in Gr. by rewrite Gr.
  - done.
  - split; unfold Store.get_supply_positions, Store.get_debt_positions; rewrite ?Ea3; simpl;
      rewrite ?write_side_other by done; rewrite ?Ea; simpl; rewrite ?write_side_get; done.
Qed.

(** ** The check after a liquidation *)

Lemma post_check_sane f id m a t f' :
  filed f id m a -> check_bad_debt_after_liquidation env f id a t = Ok f' ->
  sane (fl_sys f') /\ beside [id] (fl_ctl f) (fl_ctl f').
Proof using.
  intros [F1 F2 F3 F4 F5] H. unfold check_bad_debt_after_liquidation in H.
  destruct (debt_free a).
  - unfold Acct.cleanup_account_if_empty in H. destruct (account_is_empty a) eqn:Ee;
      [|injection H as <-; by split; [split|]].
    split; [|by apply remove_account_beside].
    unfold account_is_empty in Ee. destruct (supply_positions a) eqn:Es; [|done].
    destruct (borrow_positions a) eqn:Eb; [|done].
    eapply remove_account_books in H as (B & S & U).
    + eapply settled_sane; [exact F1|exact F2|exact S|]. unfold stored_books. by rewrite U.
    + by rewrite <- (op_supply _ _ _ _ F5).
    + by rewrite <- (op_borrow _ _ _ _ F5).
    + exact F3.
  - destruct (LiqCurve.is_socializable_bad_debt _ _); [|injection H as <-; by split; [split|]].
    eapply cleanup_books in H as (B & I1 & I2 & I3 & I4 & I5); [|exact F5|].
    + split; [|exact I5]. split; [done| |].
      * intros sp h cfg. unfold Store.get_spoke_asset. rewrite I2. apply F1.
      * apply (minted_le (fl_sys f)); [done|rewrite I3; apply delete_subseteq|done|done].
    + eapply books_ext; [exact F4|done|done|exact F3].
Qed.

Lemma record_credit_quiet f r l f' : record_share_credit_updates f r l = Ok f' -> quiet env f f'.
Proof using.
  intros H. unfold record_share_credit_updates in H. revert H.
  apply (rfold_inv (fun x => quiet env f x)); [|done].
  intros f1 e f2 _ Q H. unfold record_share_credit_step in H.
  apply rbind_Ok in H as (x & _ & H). destruct (x =? _); [by injection H as <-|].
  do 3 apply rbind_Ok in H as (? & _ & H). injection H as <-.
  etransitivity; [exact Q|apply record_supply_quiet].
Qed.

(** The receiving account, if there is one. *)
Definition receiver_ids (ro : option (Z * Account)) : list Z :=
  match ro with Some (rid, _) => [rid] | None => [] end.

(** A liquidation from its delivered seizure to its end. *)
Lemma liquidation_end f id m a ro l t f1 f2 f3 :
  ready f id m a ro -> finalize_position_flow f id a SidesBoth false = Ok f1 ->
  (match ro with
   | None => Ok f1
   | Some (rid, r) =>
       let* f := record_share_credit_updates f1 r l in
       finalize_position_flow f rid r SidesSupply false
   end) = Ok f2 ->
  check_bad_debt_after_liquidation env f2 id a t = Ok f3 ->
  sane (fl_sys f3) /\ beside (id :: receiver_ids ro) (fl_ctl f) (fl_ctl f3).
Proof using.
  intros Hr H1 H2 H3. pose proof (finalize_beside _ _ _ _ _ _ H1) as B1.
  assert (filed f2 id m a /\ beside (id :: receiver_ids ro) (fl_ctl f1) (fl_ctl f2)) as [Hf B2].
  { destruct ro as [[rid r]|].
    - apply rbind_Ok in H2 as (g & Hg & H2). apply record_credit_quiet in Hg.
      pose proof (quiet_drift _ _ _ Hg) as [D1 _ _ _]. pose proof (finalize_beside _ _ _ _ _ _ H2) as B2.
      split; [by eapply file_receiver|]. rewrite D1 in B2. eapply beside_mono; [|exact B2]. set_solver.
    - injection H2 as <-. split; [by eapply file_one|done]. }
  eapply post_check_sane in H3 as [H3 B3]; [|exact Hf]. split; [done|].
  etransitivity; [|etransitivity; [exact B2|]]; (eapply beside_mono; [|eassumption]; set_solver).
Qed.

Lemma liquidation_sane s liq id ps mode rid s' :
  sane s -> process_liquidation env s liq id ps mode = Ok (rid, s') ->
  sane s' /\ beside [id; rid] (sy_ctl s) (sy_ctl s').
Proof using.
  intros Hs H. unfold process_liquidation in H.
  do 2 apply rbind_Ok in H as (? & _ & H). apply rbind_Ok in H as (a & Ha & H).
  apply rbind_Ok in H as (? & _ & H). apply rbind_Ok in H as ([ro f1] & H1 & H).
  apply rbind_Ok in H as ([plan f2] & H2 & H). apply rbind_Ok in H as (off & _ & H).
  apply rbind_Ok in H as (? & _ & H). apply rbind_Ok in H as ([[usd a1] f3] & H3 & H).
  apply rbind_Ok in H as (? & _ & H). apply rbind_Ok in H as (l & _ & H).
  apply rbind_Ok in H as ([[a2 ro2] f4] & H4 & H). apply rbind_Ok in H as ([t f5] & H5 & H).
  apply rbind_Ok in H as (f6 & H6 & H). apply rbind_Ok in H as (f7 & H7 & H).
  apply rbind_Ok in H as (f8 & H8 & H). injection H as Erid <-.
  apply get_account_opened in Ha as (m & Ho).
  apply (resolve_receiver_Ok _ _ _ m) in H1 as ([S1 S2 S3] & Hb & Ho1 & Hr & Hbe); [|done..].
  assert (quiet env f1 f2) as Q2.
  { unfold build_plan in H2. do 2 apply rbind_Ok in H2 as (? & _ & H2).
    apply rbind_Ok in H2 as (g & Hg & H2). apply rbind_Ok in H2 as (? & _ & H2).
    injection H2 as _ <-. by eapply load_markets_quiet. }
  assert (whole f1 f2 id m a) as Hw.
  { eapply whole_drift; [apply whole_start; [done|done|by rewrite Hb]|by eapply quiet_drift]. }
  eapply repayments_Ok in H3 as [Hw3 Hsa]; [|exact Hw].
  assert (receives (fl_ctl f1) id a1 ro) as Hr3.
  { destruct ro as [[rid' r]|]; [|done]. destruct Hr as (? & ? & ?), Hsa as (_ & Hsa & _).
    split_and!; [done|congruence|done]. }
  eapply deliver_Ok in H4 as (Hrd & Ec & Er); [|exact S2|exact S3|exact Hr3|exact Hw3].
  apply risk_totals_quiet, quiet_drift in H5.
  eapply liquidation_end in H8 as [H8 Hbe']; [|by eapply ready_drift, H5; apply ready_publish|exact H6|exact H7].
  split; [done|]. destruct H5 as [D1 _ _ _]. rewrite D1 in Hbe'. simpl in Hbe'.
  etransitivity; [eapply beside_mono, Hbe|].
  - destruct ro as [[i r]|], ro2 as [[i2 r2]|]; simpl in Er; try done; simplify_eq; set_solver.
  - etransitivity; [|eapply beside_mono, Hbe'].
    + rewrite <- Ec. by apply beside_same.
    + destruct ro2 as [[i2 r2]|]; simpl in *; subst; set_solver.
Qed.

(** The account a liquidation credits: the requested one, or a new one. *)
Lemma liquidation_id s liq id ps mode rid s' :
  sane s -> process_liquidation env s liq id ps mode = Ok (rid, s') ->
  (exists r, mode = SeizeCredit r /\ rid = r) \/ acs_meta (c_accounts (sy_ctl s)) !! rid = None.
Proof using.
  intros Hs H. unfold process_liquidation in H.
  do 2 apply rbind_Ok in H as (? & _ & H). apply rbind_Ok in H as (a & _ & H).
  apply rbind_Ok in H as (? & _ & H). apply rbind_Ok in H as ([ro f1] & H1 & H).
  apply rbind_Ok in H as ([plan f2] & _ & H). do 2 apply rbind_Ok in H as (? & _ & H).
  apply rbind_Ok in H as ([[usd a1] f3] & _ & H). do 2 apply rbind_Ok in H as (? & _ & H).
  apply rbind_Ok in H as ([[a2 ro2] f4] & H4 & H). apply rbind_Ok in H as ([t f5] & _ & H).
  do 3 apply rbind_Ok in H as (? & _ & H). injection H as Erid _.
  assert (fst <$> ro2 = fst <$> ro) as Er.
  { unfold deliver_seizure in H4. destruct ro as [[i r]|].
    - apply rbind_Ok in H4 as (? & _ & H4). apply rbind_Ok in H4 as ([[? ?] ?] & _ & H4).
      by injection H4 as <- <- <-.
    - apply rbind_Ok in H4 as ([? ?] & _ & H4). by injection H4 as <- <- <-. }
  unfold resolve_seize_receiver in H1. destruct mode as [|req].
  - right. injection H1 as <- <-. destruct ro2; [done|]. subst rid.
    destruct (acs_meta _ !! 0) eqn:E; [|done]. apply (sn_minted _ Hs) in E as (? & _ & ?). lia.
  - destruct (req =? 0).
    + right. apply rbind_Ok in H1 as ([[rid1 r1] f6] & H1 & E). injection E as <- <-.
      apply create_account_id in H1; [|apply Hs]. destruct ro2 as [[? ?]|]; [|done].
      simpl in Er. by simplify_eq.
    + left. do 2 apply rbind_Ok in H1 as (? & _ & H1). injection H1 as <- <-.
      destruct ro2 as [[? ?]|]; [|done]. simpl in Er. simplify_eq. eauto.
Qed.

End LiqSteps.

End LiqSteps.
