(* ===== verification/CtlStrategies.v ===== *)
(** * Strategies (contracts/controller/src/strategies/, positions/debt.rs,
    positions/supply.rs, external/blend.rs)

    Leveraged flows: borrow into the controller, trade, deposit or repay, under the
    reentry flag; every one ends with the solvency gate of a borrow.  The swap router,
    the callback receiver and the Blend pool are the interface [Venues]. *)

From S2P Require Import Prelude Errors FpCore Fp PoolTypes PoolCache PoolOps PoolContract ControllerTypes PoolView Account SpokeUsage Risk RiskParams Payments LiqPlan CtlState CtlContext CtlFlows.
From stdpp Require Import base numbers list gmap.
From Stdlib Require Import ZArith Lia Bool.

Open Scope Z_scope.

Abbreviation StrategySwap := (list N).

Record BlendRequest : Type := mkBlendRequest {
  request_type : Z;
  br_address : Address;
  br_amount : Z
}.

(** Contracts a strategy calls. *)
Class Venues (W : Type) : Type := {
  execute_strategy : W -> Address -> Address -> Z -> StrategySwap -> res W;
  execute_flash_position : W -> Address -> Address -> Z -> Address -> Z -> Z -> Z -> Address ->
    list N -> res W;
  blend_submit : W -> Address -> Address -> Address -> Address -> list BlendRequest -> res W
}.

Class VenueIds (W : Type) `{SequentialIds W} `{!Venues W} : Prop := {
  strategy_keeps_ids : forall w router sender x swap w' nft,
    execute_strategy w router sender x swap = Ok w' -> nft_next w nft <= nft_next w' nft;
  flash_position_keeps_ids : forall w receiver initiator id token x fee received ctl data w' nft,
    execute_flash_position w receiver initiator id token x fee received ctl data = Ok w' ->
    nft_next w nft <= nft_next w' nft;
  blend_keeps_ids : forall w pool from spender to reqs w' nft,
    blend_submit w pool from spender to reqs = Ok w' -> nft_next w nft <= nft_next w' nft
}.

Module Strategies.

Import RiskParams Payments LiqPlan SpokeUsage Positions.

Section Strategies.

Context {W : Type} `{Chain W} `{!Venues W}.
Context (env : Env).

Abbreviation FlowRes A := (res (A * Flow W)).
Abbreviation controller := (current_contract_address env).

(** ** Shared (strategies/mod.rs, payments.rs) *)

Definition account_price_assets (account : Account) (extras : list Address) : list Address :=
  fold_left push_unique_address extras
    (fold_left (fun out k => push_unique_address out (asset k))
       (map_keys (supply_positions account) ++ map_keys (borrow_positions account)) []).

Definition prefetch_strategy_prices (f : Flow W) (account : Account) (extra : list Address)
    : res (Flow W) := Ctx.fetch_prices f (account_price_assets account extra).

Definition strategy_finalize (f : Flow W) (account_id : Z) (account : Account)
    : FlowRes Account :=
  let* (ab, f) := enforce_post_pool_solvency env f account in
  let* f := finalize_position_flow f account_id ab.1 SidesBoth true in
  Ok (ab.1, f).

(** [snapshot_balances]: the first balance read for a token is kept. *)
Definition snapshot_balances (f : Flow W) (holder : Address) (assets : list Address)
    : gmap Address Z :=
  fold_left (fun snapshot a =>
    match snapshot !! a with
    | Some _ => snapshot
    | None => <[a := token_balance (fl_host f) a holder]> snapshot
    end) assets ∅.

(** ** Legs (positions/debt.rs, positions/supply.rs, strategies/legs.rs) *)

Definition execute_withdrawal (f : Flow W) (account : Account) (recipient : Address)
    (action : PositionAction) (h : HubAssetKey) (amount : Z) (position : AccountPosition)
    : FlowRes Account :=
  do! enforce_spoke_asset_flags (Ctx.reads env f) (acc_spoke_id account) h AllowOnExit in
  let entries := [mkPoolWithdrawEntry (make_pool_action (ap_scaled_amount position) amount h) 0] in
  let* (ra, f) := apply_withdraw_batch env f account recipient WithdrawNormal action entries in
  do! expect_invariant (head ra.1) in
  Ok (ra.2, f).

Definition repay_prefunded_position (f : Flow W) (account : Account) (refund_to : Address)
    (action : PositionAction) (h : HubAssetKey) (position : DebtPosition) (amount : Z)
    : FlowRes Account :=
  do! enforce_spoke_asset_flags (Ctx.reads env f) (acc_spoke_id account) h AllowOnExit in
  let actions := [make_pool_action (dp_scaled_amount position) amount h] in
  let* (ra, f) := apply_repay_batch env f account refund_to action actions in
  do! expect_invariant (head ra.1) in
  Ok (ra.2, f).

Definition borrow_into_controller (f : Flow W) (account : Account) (h : HubAssetKey)
    (amount : Z) (charge_fee : bool) (action : PositionAction) : res (Z * Account * Flow W) :=
  do! require_positive_amount amount in
  do! validate_position_entry_gates env f account [(h, amount)] PoolTypes.Borrow in
  let position := get_or_create_debt_position account h in
  do! Ctx.cached_pool_address f in
  let before := token_balance (fl_host f) (asset h) controller in
  let* (result, f) := Ctx.with_flash_guard f (fun f =>
    Ctx.pool_create_strategy_call env f controller
      (make_pool_action (dp_scaled_amount position) amount h) charge_fee) in
  let* measured := Ctx.balance_delta_since f (asset h) controller before in
  do! require (measured =? sm_amount_received result) (EGeneric InternalError) in
  do! require (0 <? measured) (EGeneric AmountMustBePositive) in
  let mutation := position_of_strategy_mutation result in
  let* (account, f) := merge_debt_leg env action (account, f) h
                         (LegEntry (pm_asset_decimals mutation)) (leg_outcome_of mutation) in
  Ok (measured, account, f).

Definition repay_debt_from_controller (f : Flow W) (account : Account) (caller : Address)
    (debt : HubAssetKey) (debt_available : Z) (debt_pos : DebtPosition)
    (action : PositionAction) : FlowRes Account :=
  let* pool := Ctx.cached_pool_address f in
  let* (received, f) := Ctx.transfer_amount_measured f (asset debt) controller pool debt_available
                          InternalError in
  let before := token_balance (fl_host f) (asset debt) controller in
  let* (account, f) := repay_prefunded_position f account controller action debt debt_pos received in
  let* f := Ctx.refund_controller_balance_delta env f (asset debt) before caller in
  Ok (account, f).

Definition withdraw_collateral_to_controller (f : Flow W) (account : Account) (h : HubAssetKey)
    (amount : Z) (position : AccountPosition) (action : PositionAction)
    : res (Z * Account * Flow W) :=
  let before := token_balance (fl_host f) (asset h) controller in
  let* (account, f) := Ctx.with_flash_guard f (fun f =>
    execute_withdrawal f account controller action h amount position) in
  let* delta := Ctx.balance_delta_since f (asset h) controller before in
  Ok (delta, account, f).

Definition withdraw_all_step (destination : Address) (s : Account * Flow W) (h : HubAssetKey)
    : FlowRes Account :=
  let (account, f) := s in
  match map_get (supply_positions account) h with
  | None => Ok (account, f)
  | Some raw =>
      execute_withdrawal f account destination ActCloseWd h WITHDRAW_ALL_SENTINEL
        (account_position_of_raw raw)
  end.

(** Collateral consumed by the repayment still gets a zero-share withdrawal, which
    renews its market. *)
Definition execute_withdraw_all (f : Flow W) (account : Account) (destination : Address)
    (repaid_collateral : HubAssetKey) : FlowRes Account :=
  let* f :=
    (match map_get (supply_positions account) repaid_collateral with
     | Some _ => Ok f
     | None =>
         let* (_, f) := Ctx.pool_withdraw_call env f destination false
           [mkPoolWithdrawEntry (make_pool_action 0 WITHDRAW_ALL_SENTINEL repaid_collateral) 0] in
         Ok f
     end) in
  rfold (withdraw_all_step destination) (account, f) (map_keys (supply_positions account)).

Definition net_settle_collateral_against_debt (f : Flow W) (account : Account)
    (h : HubAssetKey) (amount : Z) (action : PositionAction) : res (Z * Account * Flow W) :=
  do! enforce_spoke_asset_flags (Ctx.reads env f) (acc_spoke_id account) h AllowOnExit in
  let* supply_position := get_supply_position_or_panic account h in
  let* debt_position := get_debt_position_or_panic account h in
  let entry := {| ns_hub_asset := h;
                  ns_amount := amount;
                  ns_supply_position := mkScaledPosition (ap_scaled_amount supply_position);
                  ns_debt_position := mkScaledPosition (dp_scaled_amount debt_position) |} in
  let* (result, f) := Ctx.pool_net_settle_call env f entry in
  let* (account, f) := merge_withdraw_leg env action WithdrawNormal (account, f) h
    (mkLegOutcome (scaled_amount (nr_supply_position result)) (nr_market_index result)
       (nr_settled_amount result)) in
  let* (account, f) := merge_debt_leg env action (account, f) h LegExit
    (mkLegOutcome (scaled_amount (nr_debt_position result)) (nr_market_index result)
       (nr_settled_amount result)) in
  Ok (nr_settled_amount result, account, f).

(** ** Swaps (strategies/swap.rs) *)

Definition verify_router_output (f : Flow W) (token_out : Address) (balance_before : Z) : res Z :=
  let* received := Ctx.balance_delta_since f token_out controller balance_before in
  do! require (0 <? received) (EStrategy NoSwapOutput) in
  Ok received.

Definition swap_tokens (f : Flow W) (refund_to token_in : Address) (amount_in : Z)
    (token_out : Address) (swap : StrategySwap) : FlowRes Z :=
  do! require_positive_amount amount_in in
  do! require (match swap with [] => false | _ => true end) (EGeneric InvalidPayments) in
  let* router := Store.get_swap_aggregator (fl_ctl f) in
  let in_before := token_balance (fl_host f) token_in controller in
  let out_before := token_balance (fl_host f) token_out controller in
  let* (_, f) := Ctx.with_flash_guard f (fun f =>
    let* w := execute_strategy (fl_host f) router controller amount_in swap in
    Ok (tt, on_host f w)) in
  let in_after := token_balance (fl_host f) token_in controller in
  do! require (in_after <=? in_before) (EStrategy RouterOverspend) in
  let* actual_spent := i128_sub in_before in_after in
  do! require (actual_spent <=? amount_in) (EStrategy RouterOverspend) in
  let* leftover := i128_sub amount_in actual_spent in
  let* f :=
    (if 0 <? leftover then
       let* w := token_transfer (fl_host f) token_in controller refund_to leftover in
       Ok (on_host f w)
     else Ok f) in
  let* received := verify_router_output f token_out out_before in
  Ok (received, f).

Definition swap_tokens_or_passthrough (f : Flow W) (refund_to token_in : Address)
    (amount_in : Z) (token_out : Address) (swap : StrategySwap) : FlowRes Z :=
  if bool_decide (token_in = token_out) then
    do! require (match swap with [] => true | _ => false end) (EGeneric InvalidPayments) in
    Ok (amount_in, f)
  else swap_tokens f refund_to token_in amount_in token_out swap.

Definition withdraw_and_swap_from_supply (f : Flow W) (account : Account) (caller : Address)
    (from : HubAssetKey) (amount : Z) (token_out : Address) (swap : StrategySwap)
    (action : PositionAction) : res (Z * Account * Flow W) :=
  let* supply_pos := get_supply_position_or_panic account from in
  let* (wa, f) := withdraw_collateral_to_controller f account from amount supply_pos action in
  let (withdrawn, account) := wa in
  let* (out, f) := swap_tokens_or_passthrough f caller (asset from) withdrawn token_out swap in
  Ok (out, account, f).

(** ** Multiply (strategies/multiply.rs) *)

Record MultiplyParams : Type := mkMultiplyParams {
  mp_account_id : Z;
  mp_spoke_id : Z;
  mp_collateral : HubAssetKey;
  mp_debt_to_flash_loan : Z;
  mp_debt : HubAssetKey;
  mp_mode : PositionMode;
  mp_swap : StrategySwap;
  mp_initial_payment : option HubPayment;
  mp_convert_swap : option StrategySwap
}.

Definition validate_multiply_request (collateral debt : HubAssetKey) (mode : PositionMode)
    (debt_to_flash_loan : Z) : res unit :=
  do! (match mode with
       | Multiply => require (negb (bool_decide (collateral = debt))) (EGeneric AssetsAreTheSame)
       | Long | Short =>
           require (negb (bool_decide (asset collateral = asset debt))) (EGeneric AssetsAreTheSame)
       | Normal => Err (ECollateral InvalidPositionMode)
       end) in
  require_positive_amount debt_to_flash_loan.

Definition collect_initial_multiply_payment (f : Flow W) (caller : Address)
    (collateral debt : HubAssetKey) (initial_payment : option HubPayment)
    (convert_swap : option StrategySwap) : FlowRes (Z * Z) :=
  match initial_payment with
  | None => Ok (0, 0, f)
  | Some (payment, payment_amount) =>
      do! require_positive_amount payment_amount in
      let* (received, f) := Ctx.transfer_amount_measured f (asset payment) caller controller
                              payment_amount AmountMustBePositive in
      if bool_decide (asset payment = asset collateral) then Ok (received, 0, f)
      else if bool_decide (asset payment = asset debt) then Ok (0, received, f)
      else
        let* convert := of_option (EStrategy ConvertStepsRequired) convert_swap in
        let* (collateral_amount, f) := swap_tokens f caller (asset payment) received
                                         (asset collateral) convert in
        Ok (collateral_amount, 0, f)
  end.

Definition process_multiply (s : Sys W) (caller : Address) (p : MultiplyParams)
    : res (Z * Sys W) :=
  do! Ctx.require_authorized_caller env s caller in
  let collateral := mp_collateral p in
  let debt := mp_debt p in
  do! validate_multiply_request collateral debt (mp_mode p) (mp_debt_to_flash_loan p) in
  let f := Ctx.new s in
  let* (ida, f) := Acct.load_or_create_account env f caller (mp_account_id p) (mp_spoke_id p)
                     (mp_mode p) Acct.GuardMultiply in
  let (account_id, account) := ida in
  do! require_can_supply env f (acc_spoke_id account) collateral in
  let extra := [asset collateral; asset debt]
    ++ match mp_initial_payment p with Some (payment, _) => [asset payment] | None => [] end in
  let* f := prefetch_strategy_prices f account extra in
  let* (cd, f) := collect_initial_multiply_payment f caller collateral debt
                    (mp_initial_payment p) (mp_convert_swap p) in
  let (collateral_amount, debt_extra) := cd in
  let* (ra, f) := borrow_into_controller f account debt (mp_debt_to_flash_loan p) true
                    ActMultiply in
  let (amount_received, account) := ra in
  let* swap_amount_in :=
    of_option (EGeneric MathOverflow) (i128_checked_add amount_received debt_extra) in
  let* (swapped, f) := swap_tokens_or_passthrough f caller (asset debt) swap_amount_in
                         (asset collateral) (mp_swap p) in
  let* total_collateral :=
    of_option (EGeneric MathOverflow) (i128_checked_add collateral_amount swapped) in
  let* (account, f) := process_deposit env f controller account
                         [(collateral, total_collateral)] in
  let* (_, f) := strategy_finalize f account_id account in
  let f :=
    match mp_initial_payment p with
    | Some (payment, amount) =>
        on_ctl f (fun c => publish c (InitialMultiplyPaymentEvent (asset payment) amount account_id))
    | None => f
    end in
  Ok (account_id, fl_sys f).

(** ** Swapping debt or collateral (strategies/swap_debt.rs, swap_collateral.rs) *)

Definition process_swap_debt (s : Sys W) (caller : Address) (account_id : Z)
    (existing_debt : HubAssetKey) (new_debt_amount : Z) (new_debt : HubAssetKey)
    (swap : StrategySwap) : res (Sys W) :=
  do! Ctx.require_authorized_caller env s caller in
  do! require (negb (bool_decide (existing_debt = new_debt))) (EGeneric AssetsAreTheSame) in
  let f := Ctx.new s in
  do! Ctx.require_hub_active f (hub_id existing_debt) in
  do! require_positive_amount new_debt_amount in
  let* account := Store.get_account s account_id in
  do! Acct.require_owner_or_delegate (sy_ctl s) account_id caller (acc_owner account) in
  let* existing_pos := get_debt_position_or_panic account existing_debt in
  let* f := prefetch_strategy_prices f account [asset existing_debt; asset new_debt] in
  let* (ra, f) := borrow_into_controller f account new_debt new_debt_amount true ActSwDebtR in
  let (amount_received, account) := ra in
  let* (repay_amount, f) := swap_tokens_or_passthrough f caller (asset new_debt) amount_received
                              (asset existing_debt) swap in
  let* (account, f) := repay_debt_from_controller f account caller existing_debt repay_amount
                         existing_pos ActSwDebtR in
  let* (_, f) := strategy_finalize f account_id account in
  Ok (fl_sys f).

Definition process_swap_collateral (s : Sys W) (caller : Address) (account_id : Z)
    (current : HubAssetKey) (from_amount : Z) (new : HubAssetKey) (swap : StrategySwap)
    : res (Sys W) :=
  do! Ctx.require_authorized_caller env s caller in
  do! require (negb (bool_decide (current = new))) (EGeneric AssetsAreTheSame) in
  let f := Ctx.new s in
  do! Ctx.require_hub_active f (hub_id current) in
  do! require_positive_amount from_amount in
  let* account := Store.get_account s account_id in
  do! Acct.require_owner_or_delegate (sy_ctl s) account_id caller (acc_owner account) in
  do! require_can_supply env f (acc_spoke_id account) new in
  let* f := prefetch_strategy_prices f account [asset current; asset new] in
  let* (sa, f) := withdraw_and_swap_from_supply f account caller current from_amount (asset new)
                    swap ActSwColWd in
  let (swapped, account) := sa in
  let* (account, f) := process_deposit env f controller account [(new, swapped)] in
  let* (_, f) := strategy_finalize f account_id account in
  Ok (fl_sys f).

(** ** Repaying with collateral (strategies/repay_debt_with_collateral.rs) *)

Definition repay_via_collateral_swap (f : Flow W) (caller : Address) (account : Account)
    (collateral : HubAssetKey) (collateral_amount : Z) (debt : HubAssetKey) (swap : StrategySwap)
    : FlowRes Account :=
  let* debt_pos := get_debt_position_or_panic account debt in
  let* (da, f) := withdraw_and_swap_from_supply f account caller collateral collateral_amount
                    (asset debt) swap ActRpColWd in
  let (debt_available, account) := da in
  repay_debt_from_controller f account caller debt debt_available debt_pos ActRpColR.

Definition process_repay_debt_with_collateral (s : Sys W) (caller : Address) (account_id : Z)
    (collateral : HubAssetKey) (collateral_amount : Z) (debt : HubAssetKey) (swap : StrategySwap)
    (close_position : bool) : res (Sys W) :=
  do! Ctx.require_authorized_caller env s caller in
  do! require_positive_amount collateral_amount in
  let f := Ctx.new s in
  do! Ctx.require_hub_active f (hub_id collateral) in
  do! Ctx.require_hub_active f (hub_id debt) in
  let* account := Store.get_account s account_id in
  do! Acct.require_owner_or_delegate (sy_ctl s) account_id caller (acc_owner account) in
  let* f := prefetch_strategy_prices f account [asset collateral; asset debt] in
  let* (account, f) :=
    (if bool_decide (collateral = debt) then
       do! require (match swap with [] => true | _ => false end) (EGeneric InvalidPayments) in
       let* (ra, f) := net_settle_collateral_against_debt f account collateral collateral_amount
                         ActRpColNet in
       Ok (ra.2, f)
     else repay_via_collateral_swap f caller account collateral collateral_amount debt swap) in
  let* (account, f) :=
    (if close_position then
       do! require (debt_free account) (ECollateral CannotCloseWithRemainingDebt) in
       execute_withdraw_all f account caller collateral
     else Ok (account, f)) in
  let* (_, f) := strategy_finalize f account_id account in
  Ok (fl_sys f).

(** ** Flash positions (strategies/flash_position.rs) *)

Record FlashPositionParams : Type := mkFlashPositionParams {
  fp_account_id : Z;
  fp_spoke_id : Z;
  fp_mode : PositionMode;
  fp_debt : HubAssetKey;
  fp_amount : Z;
  fp_receiver : Address;
  fp_data : list N;
  fp_collaterals : list HubPayment;
  fp_refund_assets : list Address
}.

Definition collateral_step (f : Flow W) (account : Account) (s : list Address * bool)
    (p : HubPayment) : res (list Address * bool) :=
  let (seen_assets, positive) := s in
  let (h, min_amount) := p in
  do! require_nonneg_amount min_amount in
  do! require (negb (bool_decide (asset h ∈ seen_assets))) (EGeneric InvalidPayments) in
  do! require_can_supply env f (acc_spoke_id account) h in
  Ok (asset h :: seen_assets, positive || (0 <? min_amount)).

Definition validate_collaterals (f : Flow W) (account : Account) (collaterals : list HubPayment)
    : res unit :=
  do! require_non_empty_payments collaterals in
  let* limits := Store.get_position_limits (fl_ctl f) in
  do! require (Z.of_nat (length collaterals) <=? Risk.max_supply_positions limits)
        (EGeneric InvalidPayments) in
  let* (_, positive) := rfold (collateral_step f account) ([], false) collaterals in
  do! require positive (EStrategy CollateralRequired) in
  validate_position_entry_gates env f account collaterals Deposit.

Definition refund_step (f : Flow W) (spoke_id hub : Z) (collaterals : list HubPayment)
    (seen : list Address) (a : Address) : res (list Address) :=
  do! require (negb (bool_decide (a ∈ seen))) (EGeneric InvalidPayments) in
  do! require_listed_active_config (Ctx.reads env f) spoke_id (mkHubAssetKey hub a) in
  do! require (forallb (fun p : HubPayment => negb (bool_decide (a = asset p.1))) collaterals)
        (EGeneric InvalidPayments) in
  Ok (a :: seen).

Definition validate_refund_assets (f : Flow W) (spoke_id hub : Z)
    (collaterals : list HubPayment) (refund_assets : list Address) : res unit :=
  let* limits := Store.get_position_limits (fl_ctl f) in
  do! require (Z.of_nat (length refund_assets) <=? Risk.max_supply_positions limits)
        (EGeneric InvalidPayments) in
  do! rfold (refund_step f spoke_id hub collaterals) [] refund_assets in
  Ok tt.

Definition mint_and_forward (f : Flow W) (account : Account) (debt : HubAssetKey) (amount : Z)
    (receiver : Address) : res (Z * Account * Flow W) :=
  let before := token_balance (fl_host f) (asset debt) controller in
  let* (ra, f) := borrow_into_controller f account debt amount false ActFlashPos in
  let (reported, account) := ra in
  let* measured := Ctx.balance_delta_since f (asset debt) controller before in
  do! require (measured =? reported) (EGeneric InternalError) in
  do! require (0 <? measured) (EGeneric AmountMustBePositive) in
  let* (forwarded, f) := Ctx.transfer_amount_measured f (asset debt) controller receiver measured
                           AmountMustBePositive in
  do! require (0 <? forwarded) (EGeneric AmountMustBePositive) in
  Ok (forwarded, account, f).

Definition deposit_delta_step (f : Flow W) (before : gmap Address Z)
    (deposits : list HubPayment) (p : HubPayment) : res (list HubPayment) :=
  let (h, min_amount) := p in
  let* baseline := of_option (EGeneric InternalError) (before !! asset h) in
  let* delta := Ctx.balance_delta_since f (asset h) controller baseline in
  do! require (min_amount <=? delta) (EStrategy CollateralMinimumNotMet) in
  Ok (if 0 <? delta then deposits ++ [(h, delta)] else deposits).

Definition collect_collateral_deposits (f : Flow W) (collaterals : list HubPayment)
    (before : gmap Address Z) : res (list HubPayment) :=
  let* deposits := rfold (deposit_delta_step f before) [] collaterals in
  do! require (match deposits with [] => false | _ => true end)
        (EStrategy CollateralMinimumNotMet) in
  Ok deposits.

Definition require_flash_position_still_open (account : Account) (debt : HubAssetKey)
    : res unit :=
  do! require (negb (account_is_empty account) && negb (debt_free account))
        (EStrategy FlashPositionClosed) in
  let* pos := of_option (EStrategy FlashPositionClosed) (map_get (borrow_positions account) debt) in
  require ((0 <? dpr_scaled_amount pos)
           && (match supply_positions account with [] => false | _ => true end))
    (EStrategy FlashPositionClosed).

Definition refund_listed_assets (f : Flow W) (caller : Address) (refund_assets : list Address)
    (before : gmap Address Z) : res (Flow W) :=
  rfold (fun f a =>
    let* baseline := of_option (EGeneric InternalError) (before !! a) in
    Ctx.refund_controller_balance_delta env f a baseline caller) f refund_assets.

(** The guarded part: debt minted and forwarded, balances noted, the callback. *)
Definition run_flash_position (caller : Address) (p : FlashPositionParams) (account_id : Z)
    (account : Account) (f : Flow W)
    : FlowRes (Z * Account * gmap Address Z * gmap Address Z) :=
  let debt := fp_debt p in
  let* (ra, f) := mint_and_forward f account debt (fp_amount p) (fp_receiver p) in
  let (amount_received, account) := ra in
  let collateral_before :=
    snapshot_balances f controller (map (fun x : HubPayment => asset x.1) (fp_collaterals p)) in
  let refund_before := snapshot_balances f controller (fp_refund_assets p) in
  let* w := execute_flash_position (fl_host f) (fp_receiver p) caller account_id (asset debt)
              (fp_amount p) 0 amount_received controller (fp_data p) in
  Ok (amount_received, account, collateral_before, refund_before, on_host f w).

Definition process_flash_position (s : Sys W) (caller : Address) (p : FlashPositionParams)
    : res (Z * Sys W) :=
  do! Ctx.require_authorized_caller env s caller in
  let debt := fp_debt p in
  let receiver := fp_receiver p in
  do! require_positive_amount (fp_amount p) in
  let f := Ctx.new s in
  do! Ctx.require_hub_active f (hub_id debt) in
  do! require (match fp_mode p with Multiply | Long | Short => true | Normal => false end)
        (ECollateral InvalidPositionMode) in
  do! Flash.require_wasm_receiver (fl_host f) receiver in
  do! require (negb (bool_decide (receiver = controller))) (EFlashLoan InvalidFlashloanReceiver) in
  let* pool := Ctx.cached_pool_address f in
  do! require (negb (bool_decide (receiver = pool))) (EFlashLoan InvalidFlashloanReceiver) in
  let* sync := Storage.load_sync_data (fl_pool f) debt in
  do! require (rp_is_flashloanable (sync_params sync)) (EFlashLoan FlashloanNotEnabled) in
  let* (ida, f) := Acct.load_or_create_account env f caller (fp_account_id p) (fp_spoke_id p)
                     (fp_mode p) Acct.GuardMultiply in
  let (account_id, account) := ida in
  do! validate_collaterals f account (fp_collaterals p) in
  do! validate_refund_assets f (acc_spoke_id account) (hub_id debt) (fp_collaterals p)
        (fp_refund_assets p) in
  let* f := prefetch_strategy_prices f account
    (asset debt :: map (fun x : HubPayment => asset x.1) (fp_collaterals p)) in
  let* (r, f) := Ctx.with_flash_guard f (run_flash_position caller p account_id account) in
  let '(amount_received, account, collateral_before, refund_before) := r in
  let* deposits := collect_collateral_deposits f (fp_collaterals p) collateral_before in
  let* (account, f) := process_deposit env f controller account deposits in
  let* f := refund_listed_assets f caller (fp_refund_assets p) refund_before in
  do! require_flash_position_still_open account debt in
  let* (account, f) := strategy_finalize f account_id account in
  do! require_flash_position_still_open account debt in
  Ok (account_id, fl_sys (on_ctl f (fun c => publish c
        (FlashPositionEvent account_id debt receiver caller (fp_amount p) amount_received 0)))).

(** ** Migration from Blend (strategies/migrate_blend.rs, external/blend.rs) *)

Definition REQ_WITHDRAW : Z := 1.
Definition REQ_WITHDRAW_COLLATERAL : Z := 3.
Definition REQ_REPAY : Z := 5.
(** [constants::BLEND_WITHDRAW_ALL_AMOUNT] *)
Definition BLEND_WITHDRAW_ALL_AMOUNT : Z := 1000000000000000000000000000000.

Record MigrateBlendParams : Type := mkMigrateBlendParams {
  mb_account_id : Z;
  mb_spoke_id : Z;
  mb_hub_id : Z;
  mb_blend_pool : Address;
  mb_collateral_assets : list Address;
  mb_supply_assets : list Address;
  mb_debt_caps : list (Address * Z)
}.

Definition guarded_submit (f : Flow W) (blend_pool from : Address) (requests : list BlendRequest)
    : res (Flow W) :=
  let* (_, f) := Ctx.with_flash_guard f (fun f =>
    let* w := blend_submit (fl_host f) blend_pool from controller controller requests in
    Ok (tt, on_host f w)) in
  Ok f.

Definition blend_sweep_all (f : Flow W) (blend_pool from : Address)
    (collateral_assets supply_assets : list Address) : res (Flow W) :=
  guarded_submit f blend_pool from
    (map (fun a => mkBlendRequest REQ_WITHDRAW_COLLATERAL a BLEND_WITHDRAW_ALL_AMOUNT)
       collateral_assets
     ++ map (fun a => mkBlendRequest REQ_WITHDRAW a BLEND_WITHDRAW_ALL_AMOUNT) supply_assets).

Definition blend_repay_all (f : Flow W) (blend_pool from : Address)
    (debt_caps : list (Address * Z)) : res (Flow W) :=
  guarded_submit f blend_pool from
    (map (fun p : Address * Z => mkBlendRequest REQ_REPAY p.1 p.2) debt_caps).

Definition validate_migration_request (c : Controller) (blend_pool : Address)
    (collateral_assets supply_assets : list Address) (debt_caps : list (Address * Z)) : res unit :=
  do! require (match collateral_assets, supply_assets, debt_caps with
               | [], [], [] => false
               | _, _, _ => true
               end) (EGeneric InvalidPayments) in
  require (Store.is_blend_pool_approved c blend_pool) (EGeneric BlendPoolNotApproved).

Definition require_unique_debt_assets (debt_caps : list (Address * Z)) : res unit :=
  do! rfold (fun seen (p : Address * Z) =>
    do! require (negb (bool_decide (p.1 ∈ seen))) (EGeneric AssetsAreTheSame) in
    Ok (p.1 :: seen)) [] debt_caps in
  Ok tt.

Definition migrate_borrow_step (hub : Z) (s : Account * Flow W) (p : Address * Z)
    : FlowRes Account :=
  let (account, f) := s in
  do! require_positive_amount p.2 in
  let* (ra, f) := borrow_into_controller f account (mkHubAssetKey hub p.1) p.2 false ActMigrate in
  Ok (ra.2, f).

Definition reconcile_step (caller : Address) (hub : Z) (before : gmap Address Z)
    (s : Account * Flow W) (p : Address * Z) : FlowRes Account :=
  let (account, f) := s in
  let* refund := Ctx.balance_delta_since f p.1 controller (default 0 (before !! p.1)) in
  if 0 <? refund then
    let h := mkHubAssetKey hub p.1 in
    let* raw := expect_invariant (map_get (borrow_positions account) h) in
    repay_debt_from_controller f account caller h refund (debt_position_of_raw raw) ActMigrate
  else Ok (account, f).

Definition reconcile_debt_refunds (f : Flow W) (account : Account) (caller : Address) (hub : Z)
    (debt_caps : list (Address * Z)) (before : gmap Address Z) : FlowRes Account :=
  rfold (reconcile_step caller hub before) (account, f) debt_caps.

Definition execute_migration_debt_leg (f : Flow W) (caller blend_pool : Address) (hub : Z)
    (debt_caps : list (Address * Z)) (account : Account) : FlowRes Account :=
  match debt_caps with
  | [] => Ok (account, f)
  | _ =>
      let before := snapshot_balances f controller (map fst debt_caps) in
      let* (account, f) := rfold (migrate_borrow_step hub) (account, f) debt_caps in
      let* f := blend_repay_all f blend_pool caller debt_caps in
      reconcile_debt_refunds f account caller hub debt_caps before
  end.

Definition withdrawn_step (f : Flow W) (hub : Z) (before : gmap Address Z)
    (deposits : list HubPayment) (a : Address) : res (list HubPayment) :=
  let* received := Ctx.balance_delta_since f a controller (default 0 (before !! a)) in
  Ok (if 0 <? received then deposits ++ [(mkHubAssetKey hub a, received)] else deposits).

Definition deposit_withdrawn (f : Flow W) (account : Account) (hub : Z)
    (withdraw_assets : list Address) (before : gmap Address Z) : FlowRes Account :=
  let* deposits := rfold (withdrawn_step f hub before) [] withdraw_assets in
  match deposits with
  | [] => Ok (account, f)
  | _ => process_deposit env f controller account deposits
  end.

Definition process_migrate_blend (s : Sys W) (caller : Address) (p : MigrateBlendParams)
    : res (Z * Sys W) :=
  do! Ctx.require_authorized_caller env s caller in
  let hub := mb_hub_id p in
  let collateral_assets := mb_collateral_assets p in
  let supply_assets := mb_supply_assets p in
  let debt_caps := mb_debt_caps p in
  let f := Ctx.new s in
  do! Ctx.require_hub_active f hub in
  do! validate_migration_request (sy_ctl s) (mb_blend_pool p) collateral_assets supply_assets
        debt_caps in
  do! require_unique_debt_assets debt_caps in
  let* (ida, f) := Acct.load_or_create_account env f caller (mb_account_id p) (mb_spoke_id p)
                     Normal Acct.GuardMigrate in
  let (account_id, account) := ida in
  let withdraw_assets := fold_left push_unique_address (collateral_assets ++ supply_assets) [] in
  let* f := prefetch_strategy_prices f account (withdraw_assets ++ map fst debt_caps) in
  do! rfold (fun _ a => require_can_supply env f (mb_spoke_id p) (mkHubAssetKey hub a)) tt
        withdraw_assets in
  let* (account, f) := execute_migration_debt_leg f caller (mb_blend_pool p) hub debt_caps
                         account in
  let* (account, f) :=
    (match withdraw_assets with
     | [] => Ok (account, f)
     | _ =>
         let before := snapshot_balances f controller withdraw_assets in
         let* f := blend_sweep_all f (mb_blend_pool p) caller collateral_assets supply_assets in
         deposit_withdrawn f account hub withdraw_assets before
     end) in
  let* (_, f) := strategy_finalize f account_id account in
  Ok (account_id, fl_sys (on_ctl f (fun c => publish c
        (BlendMigrationEvent account_id (mb_blend_pool p)
           (Z.of_nat (length collateral_assets)) (Z.of_nat (length supply_assets))
           (Z.of_nat (length debt_caps)))))).

End Strategies.

End Strategies.
