(* ===== verification/CtlStrategySteps.v ===== *)
(** * Each strategy keeps the invariant *)

From S2P Require Import Prelude Errors FpCore Fp PoolTypes PoolCache PoolOps PoolSafety PoolContract ControllerTypes PoolView PoolMoves Account SpokeUsage Risk RiskParams Payments LiqPlan CtlState CtlContext CtlBooks CtlFlows CtlStrategies CtlLegs CtlKeep CtlSteps.
From stdpp Require Import base numbers list gmap.
From Stdlib Require Import ZArith Lia Bool.

Open Scope Z_scope.

Module StrategySteps.

Import SpokeUsage RiskParams Payments LiqPlan Positions Strategies Books Legs Keep Steps.

Section StrategySteps.

Context {W : Type} {HW : Host W} {HC : Chain W} {HS : SequentialIds W} {HV : Venues W}.
Context {HI : VenueIds W}.
Context (env : Env).
Implicit Types (f : Flow W) (a : Account) (h k : HubAssetKey) (s : Sys W).

(** ** The reentry flag *)

Definition raised f : Flow W := on_ctl f (fun c => Store.set_flash_loan_ongoing c true).

Lemma guard_Ok {A} f (body : Flow W -> res (A * Flow W)) x f' :
  Ctx.with_flash_guard f body = Ok (x, f') ->
  exists f1, body (raised f) = Ok (x, f1)
    /\ fl_buf f' = fl_buf f1 /\ fl_pool f' = fl_pool f1 /\ fl_host f' = fl_host f1
    /\ (forall c, fl_ctl f1 = Store.set_flash_loan_ongoing c true -> fl_ctl f = c -> fl_ctl f' = c).
Proof using.
  intros H. unfold Ctx.with_flash_guard in H. apply rbind_Ok in H as ([y f1] & Hb & H).
  injection H as <- <-. exists f1. split; [exact Hb|]. unfold Store.is_flash_loan_ongoing.
  destruct (c_flash_ongoing (fl_ctl f)) eqn:E; split_and!; try done; intros c Hc <-; simpl;
    rewrite Hc; destruct (fl_ctl f); simpl in *; by subst.
Qed.

Lemma guard_drift {A} f (body : Flow W -> res (A * Flow W)) x f' :
  (forall g y g', body g = Ok (y, g') -> drift g g') ->
  Ctx.with_flash_guard f body = Ok (x, f') -> drift f f'.
Proof using.
  intros Hd H. apply guard_Ok in H as (f1 & Hb & E1 & E2 & E3 & E4). apply Hd in Hb as [D1 D2 D3 D4].
  split; [by apply E4|by rewrite E2|by rewrite E1|by rewrite E3].
Qed.

Lemma raised_whole f0 f id m a : whole f0 f id m a -> whole (raised f0) (raised f) id m a.
Proof using. intros [C1 C2 C3 C4 C5]. split; try done. simpl. by rewrite C1. Qed.

(** A guarded step on an account in flight. *)
Lemma guard_whole {A} f0 f id m a (body : Flow W -> res (A * Flow W)) x f' :
  whole f0 f id m a -> Ctx.with_flash_guard f body = Ok (x, f') ->
  exists f1, body (raised f) = Ok (x, f1)
    /\ forall a', whole (raised f0) f1 id m a' -> whole f0 f' id m a'.
Proof using.
  intros [C1 C2 C3 C4 C5] H. apply guard_Ok in H as (f1 & Hb & E1 & E2 & E3 & E4).
  exists f1. split; [done|]. intros a' [D1 D2 D3 D4 D5].
  assert (fl_ctl f' = fl_ctl f0) as Ec by (apply E4; [exact D1|done]).
  split; [done|by rewrite E3|done|done|]. rewrite E2.
  eapply books_ext; [|done|done|exact D5]. intros. unfold flow_used. by rewrite Ec, E1, D1.
Qed.

(** ** Host steps *)

Lemma prefetch_drift f a l f' : prefetch_strategy_prices f a l = Ok f' -> drift f f'.
Proof using env. intros H. eapply quiet_drift. by eapply (fetch_prices_quiet env). Qed.

Lemma refund_drift f t b to f' :
  Ctx.refund_controller_balance_delta env f t b to = Ok f' -> drift f f'.
Proof using.
  intros H. unfold Ctx.refund_controller_balance_delta in H. apply rbind_Ok in H as (x & _ & H).
  destruct (0 <? x); [|by injection H as <-]. apply rbind_Ok in H as (w & Hw & H). injection H as <-.
  split; [done..|]. intros nft. by eapply transfer_keeps_ids.
Qed.

Lemma swap_drift f to t x t' sw r f' : swap_tokens env f to t x t' sw = Ok (r, f') -> drift f f'.
Proof using HI.
  intros H. unfold swap_tokens in H. do 2 apply rbind_Ok in H as (? & _ & H).
  apply rbind_Ok in H as (router & _ & H). apply rbind_Ok in H as ([[] f1] & H1 & H).
  apply rbind_Ok in H as (? & _ & H). apply rbind_Ok in H as (sp & _ & H).
  apply rbind_Ok in H as (? & _ & H). apply rbind_Ok in H as (lo & _ & H).
  apply rbind_Ok in H as (f2 & H2 & H). apply rbind_Ok in H as (rc & _ & H). injection H as <- <-.
  transitivity f1.
  - eapply guard_drift; [|exact H1]. intros g y g' Hg. apply rbind_Ok in Hg as (w & Hw & Hg).
    injection Hg as <- <-. split; [done..|]. intros nft. by eapply strategy_keeps_ids.
  - destruct (0 <? lo); [|by injection H2 as <-]. apply rbind_Ok in H2 as (w & Hw & H2).
    injection H2 as <-. split; [done..|]. intros nft. by eapply transfer_keeps_ids.
Qed.

Lemma swap_or_pass_drift f to t x t' sw r f' :
  swap_tokens_or_passthrough env f to t x t' sw = Ok (r, f') -> drift f f'.
Proof using HI.
  intros H. unfold swap_tokens_or_passthrough in H. case_bool_decide.
  - apply rbind_Ok in H as (u & _ & H). by injection H as <- <-.
  - by eapply swap_drift.
Qed.

(** ** Legs *)

Lemma whole_batch {X} side (lg : X -> Leg) (P : Leg -> Prop)
    (step : Account * Flow W -> X -> res (Account * Flow W)) pool l f0 f f1 id m a a' f' :
  (forall a f x a' f', fl_ctl f = fl_ctl f0 -> P (lg x) -> mergeable env side a f (lg x) ->
     step (a, f) x = Ok (a', f') -> merged env side a f (lg x) a' f') ->
  whole f0 f id m a ->
  fl_ctl f1 = fl_ctl f -> fl_buf f1 = fl_buf f -> host_le (fl_host f) (fl_host f1) ->
  moved (Ctx.pool_env env pool) (fl_pool f) (fl_pool f1) (map lg l)
    (on_side side SupplySide (moved_by (map lg l))) (on_side side BorrowSide (moved_by (map lg l))) ->
  Forall (fun g => P g /\ share side a (leg_key g) = leg_old g) (map lg l) ->
  rfold step (a, f1) l = Ok (a', f') -> whole f0 f' id m a'.
Proof using.
  intros Hst Hw Hc Hb Hh Hm Hl H.
  eapply (carried_batch env side lg P step pool l) in H as (R1 & _ & _ & R4);
    [|exact Hst|by apply whole_carried|done..].
  by eapply carried_whole.
Qed.

Lemma borrow_into_whole f0 f id m a h x fee act r a' f' :
  whole f0 f id m a -> borrow_into_controller env f a h x fee act = Ok (r, a', f') ->
  whole f0 f' id m a' /\ forall k, k <> h -> share BorrowSide a' k = share BorrowSide a k.
Proof using.
  intros Hw H. unfold borrow_into_controller in H. do 3 apply rbind_Ok in H as (? & _ & H).
  apply rbind_Ok in H as ([res f1] & H1 & H). apply rbind_Ok in H as (ms & _ & H).
  do 2 apply rbind_Ok in H as (? & _ & H). apply rbind_Ok in H as ([a1 f2] & H2 & H).
  injection H as <- <- <-.
  apply guard_Ok in H1 as (g & Hg & E1 & E2 & E3 & E4).
  apply pool_call_Ok in Hg as (pool & Hp & P1 & P2 & P3).
  pose proof (wh_books _ _ _ _ _ Hw) as Hb.
  apply strategy_moved in Hp; [|apply Hb].
  set (act0 := make_pool_action _ x h) in *.
  assert (share BorrowSide a h = dp_scaled_amount (get_or_create_debt_position a h)) as Hsh.
  { unfold get_or_create_debt_position. simpl. unfold deb. by destruct (map_get _ h). }
  assert (mergeable env BorrowSide a f1 (strategy_leg act0 res)
          -> merged env BorrowSide a f1 (strategy_leg act0 res) a1 f2) as Hmg.
  { intros Hmb. by apply (merge_debt_Ok env act a f1 h
      (LegEntry (pm_asset_decimals (position_of_strategy_mutation res)))
      (leg_outcome_of (position_of_strategy_mutation res)) _ (sm_asset_decimals res)). }
  assert (fl_ctl f1 = fl_ctl f) as Ec by (apply E4; [exact P1|done]).
  assert (merged env BorrowSide a f1 (strategy_leg act0 res) a1 f2) as Hm1.
  { apply Hmg. destruct Hp as [_ _ M3 _ _]. apply Forall_cons in M3 as [[M3 [M4 _]] _].
    pose proof (whole_carried BorrowSide _ _ _ _ _ Hw) as [_ _ K3 K4 K5].
    split; [by eapply in_flight_ok|exact Hsh| |done|].
    - simpl. rewrite <- Hsh. pose proof (in_flight_used BorrowSide _ _ _ _ _ _ _ _ _ h K3 K4 K5) as Hu.
      simpl in Hu. unfold flow_used in *. by rewrite Ec, E1, P2.
    - by rewrite E2, view_env in *. }
  split.
  - eapply (whole_batch BorrowSide (fun _ : unit => strategy_leg act0 res) (fun _ => True)
      (fun x0 _ => merge_debt_leg env act x0 h
        (LegEntry (pm_asset_decimals (position_of_strategy_mutation res)))
        (leg_outcome_of (position_of_strategy_mutation res))) pool [tt] f0 f f1);
      [|exact Hw|exact Ec|by rewrite E1|by rewrite E3|rewrite E2; by apply moved_debt| |].
    + intros a2 f3 u a3 f4 _ _ Hmb Hs. by apply (merge_debt_Ok env act a2 f3 h
        (LegEntry (pm_asset_decimals (position_of_strategy_mutation res)))
        (leg_outcome_of (position_of_strategy_mutation res)) _ (sm_asset_decimals res)).
    + constructor; [|constructor]. split; [done|exact Hsh].
    + cbn [rfold]. rewrite H2. done.
  - intros k Hk. rewrite (mg_share _ _ _ _ _ _ _ Hm1), at_key_other; [lia|]. simpl. congruence.
Qed.

Lemma execute_withdrawal_whole f0 f id m a to act h x p a' f' :
  listings_ok (fl_ctl f0) -> whole f0 f id m a -> ap_scaled_amount p = share SupplySide a h ->
  execute_withdrawal env f a to act h x p = Ok (a', f') ->
  whole f0 f' id m a' /\ borrow_positions a' = borrow_positions a.
Proof using.
  intros Hl Hw Hp H. unfold execute_withdrawal in H. apply rbind_Ok in H as (u & _ & H).
  apply rbind_Ok in H as ([[rs a1] f1] & H1 & H). apply rbind_Ok in H as (u2 & _ & H).
  injection H as <- <-.
  eapply withdraw_batch_carried in H1 as (C1 & _ & C3 & _); [|exact Hl|by apply whole_carried|].
  - split; [by eapply carried_whole|done].
  - by repeat constructor.
Qed.

Lemma repay_prefunded_whole f0 f id m a to act h p x a' f' :
  whole f0 f id m a -> dp_scaled_amount p = share BorrowSide a h ->
  repay_prefunded_position env f a to act h p x = Ok (a', f') -> whole f0 f' id m a'.
Proof using.
  intros Hw Hp H. unfold repay_prefunded_position in H. apply rbind_Ok in H as (u & _ & H).
  apply rbind_Ok in H as ([[rs a1] f1] & H1 & H). apply rbind_Ok in H as (u2 & _ & H).
  injection H as <- <-.
  eapply repay_batch_carried in H1 as (C1 & _ & C3); [|by apply whole_carried|].
  - by eapply carried_whole.
  - by repeat constructor.
Qed.

Lemma repay_from_controller_whole f0 f id m a caller h x p act a' f' :
  whole f0 f id m a -> dp_scaled_amount p = share BorrowSide a h ->
  repay_debt_from_controller env f a caller h x p act = Ok (a', f') -> whole f0 f' id m a'.
Proof using.
  intros Hw Hp H. unfold repay_debt_from_controller in H. apply rbind_Ok in H as (pool & _ & H).
  apply rbind_Ok in H as ([rc f1] & H1 & H). apply rbind_Ok in H as ([a1 f2] & H2 & H).
  apply rbind_Ok in H as (f3 & H3 & H). injection H as <- <-.
  apply transfer_drift in H1. apply refund_drift in H3.
  eapply repay_prefunded_whole in H2; [by eapply whole_drift|by eapply whole_drift|done].
Qed.

Lemma withdraw_and_swap_whole f0 f id m a caller h x t sw act r a' f' :
  listings_ok (fl_ctl f0) -> whole f0 f id m a ->
  withdraw_and_swap_from_supply env f a caller h x t sw act = Ok (r, a', f') ->
  whole f0 f' id m a' /\ borrow_positions a' = borrow_positions a.
Proof using HI.
  intros Hl Hw H. unfold withdraw_and_swap_from_supply in H. apply rbind_Ok in H as (p & Hp & H).
  apply rbind_Ok in H as ([[wd a1] f1] & H1 & H). apply rbind_Ok in H as ([out f2] & H2 & H).
  injection H as <- <- <-. unfold withdraw_collateral_to_controller in H1.
  apply rbind_Ok in H1 as ([a2 g] & Hg & H1). apply rbind_Ok in H1 as (d & _ & H1).
  injection H1 as <- <- <-. eapply guard_whole in Hg as (g1 & Hb & Hout); [|exact Hw].
  apply swap_or_pass_drift in H2.
  eapply (execute_withdrawal_whole (raised f0)) in Hb as [B1 B2];
    [|exact Hl|by apply raised_whole|by apply held_supply_or_panic].
  split; [|done]. eapply whole_drift; [|exact H2]. by apply Hout.
Qed.

Lemma net_settle_whole f0 f id m a h x act r a' f' :
  listings_ok (fl_ctl f0) -> whole f0 f id m a ->
  net_settle_collateral_against_debt env f a h x act = Ok (r, a', f') -> whole f0 f' id m a'.
Proof using.
  intros Hl Hw H. unfold net_settle_collateral_against_debt in H. apply rbind_Ok in H as (u & _ & H).
  apply rbind_Ok in H as (sp & Hsp & H). apply rbind_Ok in H as (dp & Hdp & H).
  apply rbind_Ok in H as ([res f1] & H1 & H). apply rbind_Ok in H as ([a1 f2] & H2 & H).
  apply rbind_Ok in H as ([a2 f3] & H3 & H). injection H as <- <- <-.
  apply held_supply_or_panic in Hsp. apply held_debt_or_panic in Hdp.
  apply pool_call_Ok in H1 as (pool & Hp & P1 & P2 & P3). pose proof Hw as [W1 W2 W3 W4 W5].
  pose proof Hp as Hp'. apply LiquidityPool.only_owner_Ok in Hp' as [Hp' _].
  apply rbind_Ok in Hp' as ([[res' sn] w1] & Hn & E). injection E as -> E.
  pose proof (net_settle_reported _ _ (proj1 (bk_backed _ _ _ _ _ W5)) _ _ _ _ Hn) as (dec & [Hv _]).
  apply net_settle_effect in Hn as (_ & N1 & N2 & _); [|apply W5]. simpl in Hsp, Hdp, Hv, N1, N2.
  assert (pool_view env (fl_pool f1) h = Ok (nr_market_index res)) as Hview.
  { rewrite <- (view_env env pool). rewrite <- Hv. by apply pool_view_same; rewrite <- ?E. }
  assert (forall fs fb, backed (fl_pool f) fs fb -> backed (fl_pool f1)
    (fun k => fs k + at_key h k (scaled_amount (nr_supply_position res) - ap_scaled_amount sp))
    (fun k => fb k + at_key h k (scaled_amount (nr_debt_position res) - dp_scaled_amount dp))) as Hbk
    by (intros fs fb Hb; exact (net_settle_backed _ _ _ _ _ _ _ Hp Hb)).
  pose proof (books_moved _ _ _ _ _ _ _ _ Hbk W5) as B1. cbv beta in B1.
  set (l1 := outcome_leg h (ap_scaled_amount sp) (mkLegOutcome
    (scaled_amount (nr_supply_position res)) (nr_market_index res) (nr_settled_amount res)) 0).
  set (l2 := outcome_leg h (dp_scaled_amount dp) (mkLegOutcome
    (scaled_amount (nr_debt_position res)) (nr_market_index res) (nr_settled_amount res)) 0).
  assert (forall sp0 k x0, flow_used f1 sp0 k x0 = flow_used f sp0 k x0) as Hus
    by (intros; by apply called_used).
  assert (in_flight SupplySide (c_accounts (fl_ctl f0)) id a f1 [] (borrow_positions a)
    (fun k => nothing k + on_side SupplySide SupplySide
       (fun k => at_key (leg_key l1) k (leg_new l1 - leg_old l1)) k)
    (fun k => at_key h k (leg_new l2 - leg_old l2) + on_side SupplySide BorrowSide
       (fun k => at_key (leg_key l1) k (leg_new l1 - leg_old l1)) k)) as F1.
  { unfold in_flight. simpl. eapply books_ext; [exact Hus| | |exact B1]; intros k;
      rewrite ?on_side_same, ?on_side_other by done; unfold nothing; simpl; lia. }
  apply (merge_withdraw_Ok env _ _ _ _ _ _ (ap_scaled_amount sp) 0) in H2; [| | |simpl; lia].
  2:{ rewrite P1, W1. exact Hl. }
  2:{ split; [by eapply in_flight_ok|by rewrite Hsp| |simpl; lia|done].
      simpl. rewrite Hsp. by eapply (in_flight_used SupplySide). }
  pose proof (in_flight_merged env SupplySide _ _ _ _ _ _ _ _ _ _ _ _ W3 W4 H2 F1) as F2.
  pose proof H2 as [G1 _ (_ & G3 & _) G4 _ _]. simpl in G4.
  assert (in_flight BorrowSide (c_accounts (fl_ctl f0)) id a1 f2 (supply_positions a1) []
    (fun k => nothing k + on_side BorrowSide SupplySide
       (fun k => at_key (leg_key l2) k (leg_new l2 - leg_old l2)) k)
    (fun k => nothing k + on_side BorrowSide BorrowSide
       (fun k => at_key (leg_key l2) k (leg_new l2 - leg_old l2)) k)) as F3.
  { unfold in_flight in *. simpl in *. rewrite G4. eapply books_ext; [done| | |exact F2]; intros k;
      rewrite ?on_side_same, ?on_side_other by done; unfold nothing; simpl; lia. }
  pose proof (cm_sys _ _ _ G1) as Es.
  apply (merge_debt_Ok env _ _ _ _ _ _ (dp_scaled_amount dp) 0) in H3; [| |simpl; lia].
  2:{ assert (share BorrowSide a1 h = dp_scaled_amount dp) as Hd by (simpl; by rewrite G4, Hdp).
      split; [by eapply in_flight_ok|done| |simpl; lia|by rewrite Es].
      simpl leg_old. rewrite <- Hd.
      eapply (in_flight_used BorrowSide); [exact W3|congruence|exact F3]. }
  assert (meta_spoke_id m = acc_spoke_id a1) as W4' by congruence.
  pose proof (in_flight_merged env BorrowSide _ _ _ _ _ _ _ _ _ _ _ _ W3 W4' H3 F3) as F4.
  pose proof H3 as [J1 _ (_ & J3 & _) J4 _ _]. simpl in J4.
  pose proof (cm_sys _ _ _ J1) as Es3.
  split; [congruence| |done|congruence|].
  - rewrite Es3, Es. by transitivity (fl_host f).
  - unfold in_flight in F4. simpl in F4. by rewrite J4.
Qed.

Lemma deposit_whole f0 f caller id m a agg a' f' :
  listings_ok (fl_ctl f0) -> whole f0 f id m a ->
  process_deposit env f caller a agg = Ok (a', f') -> whole f0 f' id m a'.
Proof using.
  intros Hl Hw H. eapply deposit_carried in H as (C1 & _ & C3); [|exact Hl|by apply whole_carried].
  by eapply carried_whole.
Qed.

Lemma withdraw_all_whole f0 f id m a to h a' f' :
  listings_ok (fl_ctl f0) -> whole f0 f id m a ->
  execute_withdraw_all env f a to h = Ok (a', f') -> whole f0 f' id m a'.
Proof using.
  intros Hl Hw H. unfold execute_withdraw_all in H. apply rbind_Ok in H as (f1 & H1 & H).
  assert (whole f0 f1 id m a) as Hw1.
  { destruct (map_get _ h); [by injection H1 as <-|].
    apply rbind_Ok in H1 as ([rs g] & Hg & E). injection E as <-.
    apply pool_call_Ok in Hg as (pool & Hp & P1 & P2 & P3). pose proof Hw as [W1 W2 W3 W4 W5].
    apply withdraw_moved in Hp as (Hlen & Hmv & Hsh); [|apply W5].
    destruct rs as [|r [|]]; try done. simpl in Hmv, Hsh.
    apply Forall_cons in Hsh as [Hsh _]. pose proof (mv_reported _ _ _ _ _ _ Hmv) as Hr.
    apply Forall_cons in Hr as [[Hr _] _]. simpl in Hsh, Hr.
    split; [congruence|by transitivity (fl_host f)|done|done|].
    eapply books_ext; [| | |exact (books_moved _ _ _ _ _ _ _ _ (mv_backed _ _ _ _ _ _ Hmv) W5)].
    - intros. by apply called_used.
    - intros k. unfold nothing, moved_by, at_key. simpl. destruct (decide _); lia.
    - done. }
  revert H. apply (rfold_inv (fun x => whole f0 x.2 id m x.1)
    (withdraw_all_step env to) (map_keys (supply_positions a))) with (a := (a, f1)) (a' := (a', f'));
    [|done].
  intros [a1 g1] k [a2 g2] _ Hx Hs. simpl in Hx. unfold withdraw_all_step in Hs.
  destruct (map_get (supply_positions a1) k) as [raw|] eqn:E; [|by injection Hs as <- <-].
  eapply execute_withdrawal_whole in Hs as [Hs _]; [exact Hs|exact Hl|exact Hx|].
  simpl. unfold sup. by rewrite E.
Qed.

(** The end of every strategy. *)
Lemma strategy_finalize_sane f0 f id m a0 a r f' :
  whole f0 f id m a -> opened (fl_ctl f0) id m a0 -> listings_ok (fl_ctl f0) ->
  minted (fl_sys f0) -> strategy_finalize env f id a = Ok (r, f') ->
  sane (fl_sys f') /\ beside [id] (fl_ctl f0) (fl_ctl f').
Proof using.
  intros Hw Ho Hl Hm H. unfold strategy_finalize in H.
  apply rbind_Ok in H as ([[a1 ch] f1] & H1 & H). apply rbind_Ok in H as (f2 & H2 & H).
  injection H as <- <-. simpl in H2.
  apply solvency_gate_Ok in H1 as (Q & R & _);
    [|by apply (books_maps_ok _ _ _ _ _ _ _ _ (wh_books _ _ _ _ _ Hw))].
  eapply (whole_close f0) in H2; [exact H2| |exact Ho|done..].
  eapply whole_drift; [|by eapply quiet_drift]. by eapply whole_restamped.
Qed.

Lemma sane_publish s e : sane s -> sane (with_ctl s (publish (sy_ctl s) e)).
Proof using. by intros [S1 S2 S3]. Qed.

Lemma sane_start s id a :
  sane s -> Store.get_account s id = Ok a ->
  exists m, opened (sy_ctl s) id m a /\ whole (Ctx.new s) (Ctx.new s) id m a.
Proof using.
  intros [S1 _ _] H. apply get_account_opened in H as (m & Ho). exists m. split; [done|].
  by apply whole_start.
Qed.

(** ** The strategies *)

Lemma multiply_sane s caller p id s' :
  sane s -> process_multiply env s caller p = Ok (id, s') ->
  sane s' /\ beside [id] (sy_ctl s) (sy_ctl s').
Proof using HI.
  intros Hs H. unfold process_multiply in H. do 2 apply rbind_Ok in H as (? & _ & H).
  apply rbind_Ok in H as ([[id1 a] f1] & H1 & H). apply rbind_Ok in H as (? & _ & H).
  apply rbind_Ok in H as (f2 & H2 & H). apply rbind_Ok in H as ([[ca de] f3] & H3 & H).
  apply rbind_Ok in H as ([[ar a4] f4] & H4 & H). apply rbind_Ok in H as (sa & _ & H).
  apply rbind_Ok in H as ([sw f5] & H5 & H). apply rbind_Ok in H as (tc & _ & H).
  apply rbind_Ok in H as ([a6 f6] & H6 & H). apply rbind_Ok in H as ([a7 f7] & H7 & H).
  injection H as <- <-.
  pose proof (load_or_create_beside _ _ _ _ _ _ _ _ _ _ H1) as Hbe.
  apply load_or_create_sane in H1 as ([S1 S2 S3] & Hb & _ & m & Ho); [|done].
  assert (whole f1 f1 id1 m a) as Hw by (apply whole_start; [done|done|by rewrite Hb]).
  apply prefetch_drift in H2.
  assert (drift f2 f3) as D3.
  { unfold collect_initial_multiply_payment in H3.
    destruct (mp_initial_payment p) as [[pk pa]|]; [|by injection H3 as <- <- <-].
    apply rbind_Ok in H3 as (? & _ & H3). apply rbind_Ok in H3 as ([rc g] & Ht & H3).
    apply transfer_drift in Ht. case_bool_decide; [by injection H3 as <- <- <-|].
    case_bool_decide; [by injection H3 as <- <- <-|]. apply rbind_Ok in H3 as (cv & _ & H3).
    apply rbind_Ok in H3 as ([cm g2] & Hsw & H3). injection H3 as <- <- <-.
    apply swap_drift in Hsw. by transitivity g. }
  eapply borrow_into_whole in H4 as [Hw4 _]; [|eapply whole_drift; [exact Hw|by transitivity f2]].
  apply swap_or_pass_drift in H5.
  eapply deposit_whole in H6; [|exact S2|by eapply whole_drift].
  eapply strategy_finalize_sane in H7 as [H7 Hbe']; [|exact H6|exact Ho|done..].
  split; [destruct (mp_initial_payment p) as [[pk pa]|]; [by apply sane_publish|done]|].
  etransitivity; [exact Hbe|]. etransitivity; [exact Hbe'|].
  destruct (mp_initial_payment p) as [[pk pa]|]; by apply beside_same.
Qed.

Lemma swap_debt_sane s caller id ed x nd sw s' :
  sane s -> process_swap_debt env s caller id ed x nd sw = Ok s' ->
  sane s' /\ beside [id] (sy_ctl s) (sy_ctl s').
Proof using HI.
  intros Hs H. unfold process_swap_debt in H. apply rbind_Ok in H as (? & _ & H).
  apply rbind_Ok in H as (u & Hne & H). do 2 apply rbind_Ok in H as (? & _ & H).
  apply rbind_Ok in H as (a & Ha & H). apply rbind_Ok in H as (? & _ & H).
  apply rbind_Ok in H as (ep & Hep & H). apply rbind_Ok in H as (f1 & H1 & H).
  apply rbind_Ok in H as ([[ar a2] f2] & H2 & H). apply rbind_Ok in H as ([ra f3] & H3 & H).
  apply rbind_Ok in H as ([a4 f4] & H4 & H). apply rbind_Ok in H as ([a5 f5] & H5 & H).
  injection H as <-. destruct (sane_start _ _ _ Hs Ha) as (m & Ho & Hw).
  apply require_Ok, negb_true_iff, bool_decide_eq_false in Hne.
  apply prefetch_drift in H1.
  eapply borrow_into_whole in H2 as [Hw2 Hk]; [|by eapply whole_drift].
  apply swap_or_pass_drift in H3.
  eapply repay_from_controller_whole in H4; [|by eapply whole_drift|].
  - eapply (strategy_finalize_sane (Ctx.new s)) in H5; [exact H5|exact H4|exact Ho|apply Hs|apply Hs].
  - rewrite Hk by done. by apply held_debt_or_panic.
Qed.

Lemma swap_collateral_sane s caller id ch x nh sw s' :
  sane s -> process_swap_collateral env s caller id ch x nh sw = Ok s' ->
  sane s' /\ beside [id] (sy_ctl s) (sy_ctl s').
Proof using HI.
  intros Hs H. unfold process_swap_collateral in H. do 4 apply rbind_Ok in H as (? & _ & H).
  apply rbind_Ok in H as (a & Ha & H). do 2 apply rbind_Ok in H as (? & _ & H).
  apply rbind_Ok in H as (f1 & H1 & H). apply rbind_Ok in H as ([[sa a2] f2] & H2 & H).
  apply rbind_Ok in H as ([a4 f4] & H4 & H). apply rbind_Ok in H as ([a5 f5] & H5 & H).
  injection H as <-. destruct (sane_start _ _ _ Hs Ha) as (m & Ho & Hw).
  apply prefetch_drift in H1. destruct Hs as [S1 S2 S3].
  eapply (withdraw_and_swap_whole (Ctx.new s)) in H2 as [Hw2 _]; [|exact S2|by eapply whole_drift].
  eapply (deposit_whole (Ctx.new s)) in H4; [|exact S2|exact Hw2].
  eapply (strategy_finalize_sane (Ctx.new s)) in H5; [exact H5|exact H4|exact Ho|done..].
Qed.

Lemma repay_with_collateral_sane s caller id ch x dh sw close s' :
  sane s -> process_repay_debt_with_collateral env s caller id ch x dh sw close = Ok s' ->
  sane s' /\ beside [id] (sy_ctl s) (sy_ctl s').
Proof using HI.
  intros Hs H. unfold process_repay_debt_with_collateral in H. do 4 apply rbind_Ok in H as (? & _ & H).
  apply rbind_Ok in H as (a & Ha & H). apply rbind_Ok in H as (? & _ & H).
  apply rbind_Ok in H as (f1 & H1 & H). apply rbind_Ok in H as ([a2 f2] & H2 & H).
  apply rbind_Ok in H as ([a3 f3] & H3 & H). apply rbind_Ok in H as ([a4 f4] & H4 & H).
  injection H as <-. destruct (sane_start _ _ _ Hs Ha) as (m & Ho & Hw).
  apply prefetch_drift in H1. destruct Hs as [S1 S2 S3].
  pose proof (whole_drift _ _ _ _ _ _ Hw H1) as Hw1.
  assert (whole (Ctx.new s) f2 id m a2) as Hw2.
  { case_bool_decide.
    - apply rbind_Ok in H2 as (? & _ & H2). apply rbind_Ok in H2 as ([[r a5] f5] & H2 & E).
      injection E as <- <-. by eapply (net_settle_whole (Ctx.new s)).
    - unfold repay_via_collateral_swap in H2. apply rbind_Ok in H2 as (dp & Hdp & H2).
      apply rbind_Ok in H2 as ([[da a5] f5] & H5 & H2).
      eapply (withdraw_and_swap_whole (Ctx.new s)) in H5 as [Hw5 Hb5]; [|exact S2|exact Hw1].
      eapply repay_from_controller_whole; [exact Hw5| |exact H2].
      apply held_debt_or_panic in Hdp. rewrite Hdp. simpl. by rewrite Hb5. }
  assert (whole (Ctx.new s) f3 id m a3) as Hw3.
  { destruct close; [|by injection H3 as <- <-]. apply rbind_Ok in H3 as (? & _ & H3).
    by eapply (withdraw_all_whole (Ctx.new s)). }
  eapply (strategy_finalize_sane (Ctx.new s)) in H4; [exact H4|exact Hw3|exact Ho|done..].
Qed.

Lemma refund_listed_drift f caller l b f' :
  refund_listed_assets env f caller l b = Ok f' -> drift f f'.
Proof using.
  unfold refund_listed_assets. apply (rfold_inv (fun x => drift f x)); [|done].
  intros g x g' _ D H. apply rbind_Ok in H as (bl & _ & H). transitivity g; [done|].
  by eapply refund_drift.
Qed.

Lemma flash_position_sane s caller p id s' :
  sane s -> process_flash_position env s caller p = Ok (id, s') ->
  sane s' /\ beside [id] (sy_ctl s) (sy_ctl s').
Proof using HI.
  intros Hs H. unfold process_flash_position in H. do 6 apply rbind_Ok in H as (? & _ & H).
  apply rbind_Ok in H as (pool & _ & H). apply rbind_Ok in H as (? & _ & H).
  apply rbind_Ok in H as (sync & _ & H). apply rbind_Ok in H as (? & _ & H).
  apply rbind_Ok in H as ([[id1 a] f1] & H1 & H). do 2 apply rbind_Ok in H as (? & _ & H).
  apply rbind_Ok in H as (f2 & H2 & H). apply rbind_Ok in H as ([r f3] & H3 & H).
  destruct r as [[[ar a3] cb] rb]. apply rbind_Ok in H as (deps & _ & H).
  apply rbind_Ok in H as ([a4 f4] & H4 & H). apply rbind_Ok in H as (f5 & H5 & H).
  apply rbind_Ok in H as (? & _ & H). apply rbind_Ok in H as ([a6 f6] & H6 & H).
  apply rbind_Ok in H as (? & _ & H). injection H as <- <-.
  pose proof (load_or_create_beside _ _ _ _ _ _ _ _ _ _ H1) as Hbe.
  apply load_or_create_sane in H1 as ([S1 S2 S3] & Hb & _ & m & Ho); [|done].
  assert (whole f1 f1 id1 m a) as Hw by (apply whole_start; [done|done|by rewrite Hb]).
  apply prefetch_drift in H2. pose proof (whole_drift _ _ _ _ _ _ Hw H2) as Hw2.
  eapply guard_whole in H3 as (g & Hg & Hout); [|exact Hw2].
  assert (whole f1 f3 id1 m a3) as Hw3.
  { apply Hout. unfold run_flash_position in Hg. apply rbind_Ok in Hg as ([[rc a7] g1] & Hm & Hg).
    apply rbind_Ok in Hg as (w & Hx & Hg). injection Hg as <- <- _ _ <-.
    unfold mint_and_forward in Hm. apply rbind_Ok in Hm as ([[rp a8] g2] & Hbo & Hm).
    apply rbind_Ok in Hm as (ms & _ & Hm). do 2 apply rbind_Ok in Hm as (? & _ & Hm).
    apply rbind_Ok in Hm as ([fw g3] & Ht & Hm). apply rbind_Ok in Hm as (? & _ & Hm).
    injection Hm as <- <- <-. apply transfer_drift in Ht.
    eapply borrow_into_whole in Hbo as [Hbo _]; [|by apply raised_whole].
    eapply whole_drift; [exact Hbo|]. transitivity g3; [done|].
    split; [done..|]. intros nft. by eapply flash_position_keeps_ids. }
  eapply deposit_whole in H4; [|exact S2|exact Hw3].
  apply refund_listed_drift in H5.
  eapply strategy_finalize_sane in H6 as [H6 Hbe']; [|by eapply whole_drift|exact Ho|done..].
  split; [by apply sane_publish|]. etransitivity; [exact Hbe|].
  etransitivity; [exact Hbe'|by apply beside_same].
Qed.

Lemma submit_drift f pool from l f' : guarded_submit env f pool from l = Ok f' -> drift f f'.
Proof using HI.
  intros H. unfold guarded_submit in H. apply rbind_Ok in H as ([[] f1] & H1 & H). injection H as <-.
  eapply guard_drift; [|exact H1]. intros g y g' Hg. apply rbind_Ok in Hg as (w & Hw & Hg).
  injection Hg as <- <-. split; [done..|]. intros nft. by eapply blend_keeps_ids.
Qed.

Lemma migration_debt_whole f0 f id m caller bp hub caps a a' f' :
  whole f0 f id m a -> execute_migration_debt_leg env f caller bp hub caps a = Ok (a', f') ->
  whole f0 f' id m a'.
Proof using HI.
  intros Hw H. unfold execute_migration_debt_leg in H. destruct caps as [|c caps]; [by injection H as <- <-|].
  apply rbind_Ok in H as ([a1 f1] & H1 & H). apply rbind_Ok in H as (f2 & H2 & H).
  assert (whole f0 f1 id m a1) as Hw1.
  { revert H1. apply (rfold_inv (fun x => whole f0 x.2 id m x.1)) with (a := (a, f)) (a' := (a1, f1));
      [|done].
    intros [a2 g] p [a3 g'] _ Hx Hs. simpl in Hx. unfold migrate_borrow_step in Hs.
    apply rbind_Ok in Hs as (? & _ & Hs). apply rbind_Ok in Hs as ([[r a4] g2] & Hb & Hs).
    injection Hs as <- <-. by eapply borrow_into_whole in Hb as [Hb _]. }
  apply submit_drift in H2. pose proof (whole_drift _ _ _ _ _ _ Hw1 H2) as Hw2.
  unfold reconcile_debt_refunds in H. revert H.
  apply (rfold_inv (fun x => whole f0 x.2 id m x.1)) with (a := (a1, f2)) (a' := (a', f')); [|done].
  intros [a2 g] p [a3 g'] _ Hx Hs. simpl in Hx. unfold reconcile_step in Hs.
  apply rbind_Ok in Hs as (rf & _ & Hs). destruct (0 <? rf); [|by injection Hs as <- <-].
  apply rbind_Ok in Hs as (raw & Hraw & Hs). apply of_option_Ok in Hraw.
  eapply repay_from_controller_whole; [exact Hx| |exact Hs]. simpl. unfold deb. by rewrite Hraw.
Qed.

Lemma migrate_blend_sane s caller p id s' :
  sane s -> process_migrate_blend env s caller p = Ok (id, s') ->
  sane s' /\ beside [id] (sy_ctl s) (sy_ctl s').
Proof using HI.
  intros Hs H. unfold process_migrate_blend in H. do 4 apply rbind_Ok in H as (? & _ & H).
  apply rbind_Ok in H as ([[id1 a] f1] & H1 & H). apply rbind_Ok in H as (f2 & H2 & H).
  apply rbind_Ok in H as (? & _ & H). apply rbind_Ok in H as ([a3 f3] & H3 & H).
  apply rbind_Ok in H as ([a4 f4] & H4 & H). apply rbind_Ok in H as ([a5 f5] & H5 & H).
  injection H as <- <-.
  pose proof (load_or_create_beside _ _ _ _ _ _ _ _ _ _ H1) as Hbe.
  apply load_or_create_sane in H1 as ([S1 S2 S3] & Hb & _ & m & Ho); [|done].
  assert (whole f1 f1 id1 m a) as Hw by (apply whole_start; [done|done|by rewrite Hb]).
  apply prefetch_drift in H2. pose proof (whole_drift _ _ _ _ _ _ Hw H2) as Hw2.
  eapply migration_debt_whole in H3; [|exact Hw2].
  assert (whole f1 f4 id1 m a4) as Hw4.
  { destruct (fold_left _ _ _); [by injection H4 as <- <-|].
    apply rbind_Ok in H4 as (g & Hg & H4). apply submit_drift in Hg.
    pose proof (whole_drift _ _ _ _ _ _ H3 Hg) as Hg'. unfold deposit_withdrawn in H4.
    apply rbind_Ok in H4 as (deps & _ & H4). destruct deps; [by injection H4 as <- <-|].
    by eapply deposit_whole. }
  eapply strategy_finalize_sane in H5 as [H5 Hbe']; [|exact Hw4|exact Ho|done..].
  split; [by apply sane_publish|]. etransitivity; [exact Hbe|].
  etransitivity; [exact Hbe'|by apply beside_same].
Qed.

(** ** The account a strategy opens *)

Lemma multiply_id s caller p id s' :
  sane s -> process_multiply env s caller p = Ok (id, s') ->
  id = mp_account_id p \/ acs_meta (c_accounts (sy_ctl s)) !! id = None.
Proof using.
  intros Hs H. unfold process_multiply in H. do 2 apply rbind_Ok in H as (? & _ & H).
  apply rbind_Ok in H as ([[id1 a] f1] & H1 & H). do 2 apply rbind_Ok in H as (? & _ & H).
  apply rbind_Ok in H as ([[? ?] ?] & _ & H). apply rbind_Ok in H as ([[? ?] ?] & _ & H).
  apply rbind_Ok in H as (? & _ & H). apply rbind_Ok in H as ([? ?] & _ & H).
  apply rbind_Ok in H as (? & _ & H). apply rbind_Ok in H as ([? ?] & _ & H).
  apply rbind_Ok in H as ([? ?] & _ & H). injection H as <- _.
  apply load_or_create_id in H1; [exact H1|apply Hs].
Qed.

Lemma flash_position_id s caller p id s' :
  sane s -> process_flash_position env s caller p = Ok (id, s') ->
  id = fp_account_id p \/ acs_meta (c_accounts (sy_ctl s)) !! id = None.
Proof using.
  intros Hs H. unfold process_flash_position in H. do 10 apply rbind_Ok in H as (? & _ & H).
  apply rbind_Ok in H as ([[id1 a] f1] & H1 & H). do 3 apply rbind_Ok in H as (? & _ & H).
  apply rbind_Ok in H as ([[[[? ?] ?] ?] ?] & _ & H). apply rbind_Ok in H as (? & _ & H).
  apply rbind_Ok in H as ([? ?] & _ & H). do 2 apply rbind_Ok in H as (? & _ & H).
  apply rbind_Ok in H as ([? ?] & _ & H). apply rbind_Ok in H as (? & _ & H). injection H as <- _.
  apply load_or_create_id in H1; [exact H1|apply Hs].
Qed.

Lemma migrate_blend_id s caller p id s' :
  sane s -> process_migrate_blend env s caller p = Ok (id, s') ->
  id = mb_account_id p \/ acs_meta (c_accounts (sy_ctl s)) !! id = None.
Proof using.
  intros Hs H. unfold process_migrate_blend in H. do 4 apply rbind_Ok in H as (? & _ & H).
  apply rbind_Ok in H as ([[id1 a] f1] & H1 & H). do 2 apply rbind_Ok in H as (? & _ & H).
  do 3 apply rbind_Ok in H as ([? ?] & _ & H). injection H as <- _.
  apply load_or_create_id in H1; [exact H1|apply Hs].
Qed.

End StrategySteps.

End StrategySteps.
