(* ===== verification/CtlConfig.v ===== *)
(** * Threshold updates (contracts/controller/src/risk/params.rs)

    Anyone may refresh the stored risk parameters of listed supply positions; the full
    refresh ends with a health check. *)

From S2P Require Import Prelude Errors FpCore Fp PoolTypes PoolCache PoolOps PoolContract ControllerTypes Risk Payments PoolView Account SpokeUsage RiskParams CtlState CtlContext CtlFlows.
From stdpp Require Import base numbers list gmap.
From Stdlib Require Import ZArith Lia Bool.

Open Scope Z_scope.

Module Thresholds.

Import RiskParams Payments.

Section Thresholds.

Context {W : Type} `{Chain W}.
Context (env : Env).

Definition sync_leg (scope : RiskRefreshScope) (s : Account * bool * Flow W) (h : HubAssetKey)
    : res (Account * bool * Flow W) :=
  let '(account, any_changed, f) := s in
  match cached_spoke_asset (Ctx.reads env f) (acc_spoke_id account) h with
  | None => Ok s
  | Some listed =>
      let* raw := expect_invariant (map_get (supply_positions account) h) in
      let* (r, f) := Positions.refresh_supply_risk_params env f account h
                       (account_position_of_raw raw) (asset_config_of listed) scope in
      let (updated, changed) := r in
      if negb changed then Ok (account, any_changed, f)
      else
        let account := update_or_remove_supply_position account h updated in
        let* (m, f) := Ctx.load_market_index env f h in
        Ok (account, true,
            Ctx.record_supply_position_update f ActParamUpd h (mi_supply_index m) 0 updated)
  end.

Definition sync_account_thresholds (scope : RiskRefreshScope) (f : Flow W) (account_id : Z)
    : res (Flow W) :=
  match Store.try_get_account_meta (fl_ctl f) account_id with
  | None => Ok f
  | Some m =>
      let supply := Store.get_supply_positions (fl_ctl f) account_id in
      match supply with
      | [] => Ok f
      | _ =>
          match Store.try_account_owner (fl_sys f) account_id with
          | None => Ok f
          | Some owner =>
              let full_tuple := bool_decide (scope = FullTuple) in
              let borrow := if full_tuple then Store.get_debt_positions (fl_ctl f) account_id
                            else [] in
              let account := Store.account_from_parts owner m supply borrow in
              let* (ac, f) := rfold (sync_leg scope) (account, false, f) (map_keys supply) in
              let (account, any_changed) := ac in
              let f := (if any_changed : bool
                        then on_ctl f (fun c =>
                               Store.set_supply_positions c account_id (supply_positions account))
                        else f) in
              let* f :=
                (if full_tuple then
                   let* (t, f) := Ctx.account_risk_totals env f (supply_positions account)
                                    (borrow_positions account) in
                   do! require (THRESHOLD_UPDATE_MIN_HF_RAW <=? Risk.rt_health_factor t)
                         (ECollateral HealthFactorTooLow) in
                   Ok f
                 else Ok f) in
              Ok (Ctx.emit_position_batch f account_id account)
          end
      end
  end.

Definition update_account_threshold (s : Sys W) (caller : Address) (has_risks : bool)
    (account_ids : list Z) : res (Sys W) :=
  do! Ctx.require_authorized_caller env s caller in
  let scope := if has_risks then FullTuple else LtvOnly in
  let* f := rfold (fun f id => sync_account_thresholds scope (Ctx.reset_spoke_context f) id)
              (Ctx.new s) account_ids in
  Ok (fl_sys f).

End Thresholds.

End Thresholds.

(** ** Controller configuration and markets
    (contracts/controller/src/config/asset.rs, config/spoke.rs, config/registry.rs,
    governance.rs, markets.rs, storage/protocol.rs, storage/hub.rs, storage/spoke.rs,
    common/src/validation.rs)

    Validated writes of hubs, spokes, listings and protocol settings, and the calls
    that reach the pool without touching an account. *)

(** ** Validation (common/src/validation.rs) *)

Module Validation.

Definition max_cap_for_decimals (asset_decimals : Z) : Z :=
  if RAY_DECIMALS <? asset_decimals then 0
  else i128_max / 10 ^ (RAY_DECIMALS - asset_decimals).

Definition require_cap_within_asset_domain (cap asset_decimals : Z) : res unit :=
  if RAY_DECIMALS <? asset_decimals then Err (ECollateral AssetDecimalsTooHigh)
  else require (cap <=? max_cap_for_decimals asset_decimals) (ECollateral InvalidBorrowParams).

Definition validate_liquidation_fees (fees_bps : Z) : res unit :=
  require (fees_bps <? BPS) (ECollateral InvalidLiqThreshold).

Definition validate_risk_bounds (ltv threshold bonus : Z) : res unit :=
  do! require ((ltv <? threshold) && (threshold <=? BPS)) (ECollateral InvalidLiqThreshold) in
  require (threshold * (BPS + bonus) <=? BPS * BPS) (ECollateral InvalidLiqThreshold).

Definition validate_liquidation_curve (target_hf_wad hf_for_max_bonus_wad bonus_factor_bps : Z)
    : res unit :=
  do! require ((WAD <? target_hf_wad) && (target_hf_wad <=? MAX_LIQUIDATION_TARGET_HF_WAD))
        (ECollateral InvalidLiquidationCurve) in
  do! require ((0 <? hf_for_max_bonus_wad) && (hf_for_max_bonus_wad <? target_hf_wad))
        (ECollateral InvalidLiquidationCurve) in
  require ((0 <? bonus_factor_bps) && (bonus_factor_bps <=? BPS))
    (ECollateral InvalidLiquidationCurve).

End Validation.

Module Config.

Import Validation.

(** [constants.rs] *)
Definition POSITION_LIMIT_MAX : Z := 5.
Definition INITIAL_APP_VERSION : Z := 1.
Definition DEFAULT_LIQUIDATION_TARGET_HF_WAD : Z := 1100000000000000000.
Definition DEFAULT_HF_FOR_MAX_BONUS_WAD : Z := 800000000000000000.
Definition DEFAULT_LIQUIDATION_BONUS_FACTOR_BPS : Z := BPS.

(** ** Storage writes (storage/protocol.rs, hub.rs, spoke.rs) *)

(** [increment_counter]: absent counts as zero; [u32] overflow fails. *)
Definition increment (current : option Z) : res Z :=
  let next := default 0 current + 1 in
  do! require (next <=? u32_max) (EGeneric MathOverflow) in
  Ok next.

Definition increment_spoke_id (c : Controller) : res (Z * Controller) :=
  let* next := increment (i_last_spoke_id (c_instance c)) in
  Ok (next, on_instance c (fun i => set_i_last_spoke_id i (Some next))).

Definition increment_hub_id (c : Controller) : res (Z * Controller) :=
  let* next := increment (i_last_hub_id (c_instance c)) in
  Ok (next, on_instance c (fun i => set_i_last_hub_id i (Some next))).

Definition set_spoke (c : Controller) (id : Z) (spoke : SpokeConfig) : Controller :=
  on_registry c (fun r => set_r_spokes r (<[id := spoke]> (r_spokes r))).

Definition set_hub (c : Controller) (id : Z) (hub : HubConfig) : Controller :=
  on_registry c (fun r => set_r_hubs r (<[id := hub]> (r_hubs r))).

Definition set_spoke_asset (c : Controller) (spoke : Z) (h : HubAssetKey)
    (config : SpokeAssetConfig) : Controller :=
  on_registry c (fun r =>
    set_r_spoke_assets r (<[(spoke, h) := config]> (r_spoke_assets r))).

Definition remove_spoke_asset (c : Controller) (spoke : Z) (h : HubAssetKey) : Controller :=
  on_registry c (fun r => set_r_spoke_assets r (delete (spoke, h) (r_spoke_assets r))).

Definition bump_spoke_flags_epoch (c : Controller) (spoke : Z) (h : HubAssetKey)
    : res Controller :=
  let next := Store.get_spoke_flags_epoch c spoke h + 1 in
  do! require (next <=? u64_max) (EGeneric MathOverflow) in
  Ok (on_registry c (fun r => set_r_flags_epoch r (<[(spoke, h) := next]> (r_flags_epoch r)))).

Definition set_position_manager (c : Controller) (manager : Address)
    (config : PositionManagerConfig) : Controller :=
  on_registry c (fun r => set_r_managers r
    (if manager_is_active config then <[manager := config]> (r_managers r)
     else delete manager (r_managers r))).

Definition set_blend_pool_approved (c : Controller) (pool : Address) (approved : bool)
    : Controller :=
  on_registry c (fun r => set_r_blend_pools r
    (if approved then <[pool := true]> (r_blend_pools r) else delete pool (r_blend_pools r))).

(** ** Hubs and spokes (config/spoke.rs) *)

Definition with_deprecated (s : SpokeConfig) : SpokeConfig :=
  {| sc_is_deprecated := true;
     sc_liquidation_target_hf_wad := sc_liquidation_target_hf_wad s;
     sc_hf_for_max_bonus_wad := sc_hf_for_max_bonus_wad s;
     sc_liquidation_bonus_factor_bps := sc_liquidation_bonus_factor_bps s |}.

Definition add_spoke (c : Controller) : res (Z * Controller) :=
  let* (id, c) := increment_spoke_id c in
  let spoke := {| sc_is_deprecated := false;
                  sc_liquidation_target_hf_wad := DEFAULT_LIQUIDATION_TARGET_HF_WAD;
                  sc_hf_for_max_bonus_wad := DEFAULT_HF_FOR_MAX_BONUS_WAD;
                  sc_liquidation_bonus_factor_bps := DEFAULT_LIQUIDATION_BONUS_FACTOR_BPS |} in
  Ok (id, publish (set_spoke c id spoke) (UpdateSpokeEvent id spoke)).

Definition remove_spoke (c : Controller) (id : Z) : res Controller :=
  let* spoke := Store.get_spoke c id in
  do! require (negb (sc_is_deprecated spoke)) (ESpoke SpokeDeprecated) in
  let spoke := with_deprecated spoke in
  Ok (publish (set_spoke c id spoke) (UpdateSpokeEvent id spoke)).

Definition set_spoke_liquidation_curve (c : Controller) (id target_hf_wad hf_for_max_bonus_wad
    liquidation_bonus_factor_bps : Z) : res Controller :=
  do! validate_liquidation_curve target_hf_wad hf_for_max_bonus_wad
        liquidation_bonus_factor_bps in
  let* spoke := Store.get_spoke c id in
  let spoke := {| sc_is_deprecated := sc_is_deprecated spoke;
                  sc_liquidation_target_hf_wad := target_hf_wad;
                  sc_hf_for_max_bonus_wad := hf_for_max_bonus_wad;
                  sc_liquidation_bonus_factor_bps := liquidation_bonus_factor_bps |} in
  Ok (publish (set_spoke c id spoke) (UpdateSpokeEvent id spoke)).

Definition create_hub (c : Controller) : res (Z * Controller) :=
  let* (id, c) := increment_hub_id c in
  Ok (id, publish (set_hub c id (mkHubConfig true)) (CreateHubEvent id)).

(** ** Listings (config/asset.rs) *)

Record SpokeAssetArgs : Type := mkSpokeAssetArgs {
  aa_hub_id : Z;
  aa_asset : Address;
  aa_spoke_id : Z;
  aa_can_collateral : bool;
  aa_can_borrow : bool;
  aa_paused : bool;
  aa_frozen : bool;
  aa_no_seize : bool;
  aa_ltv : Z;
  aa_threshold : Z;
  aa_bonus : Z;
  aa_liquidation_fees : Z;
  aa_supply_cap : Z;
  aa_borrow_cap : Z
}.

(** Fields of [SpokeAssetArgs] that are [u32] in the source. *)
Definition args_typed (x : SpokeAssetArgs) : Prop :=
  0 <= aa_ltv x <= u32_max /\ 0 <= aa_threshold x <= u32_max
  /\ 0 <= aa_bonus x <= u32_max /\ 0 <= aa_liquidation_fees x <= u32_max.

Inductive SpokeAssetMutation : Type := AddAsset | EditAsset.

Definition require_flag_ratchet (config : SpokeAssetConfig) (paused frozen no_seize : bool)
    : res unit :=
  require ((paused || negb (sa_paused config)) && (frozen || negb (sa_frozen config))
           && (no_seize || negb (sa_no_seize config))) (ESpoke SpokeAssetFlagRelaxation).

Definition flags (config : SpokeAssetConfig) : bool * bool * bool :=
  (sa_paused config, sa_frozen config, sa_no_seize config).

Definition config_of_args (args : SpokeAssetArgs) : SpokeAssetConfig :=
  {| sa_is_collateralizable := aa_can_collateral args;
     sa_is_borrowable := aa_can_borrow args;
     sa_paused := aa_paused args;
     sa_frozen := aa_frozen args;
     sa_no_seize := aa_no_seize args;
     sa_loan_to_value := aa_ltv args;
     sa_liquidation_threshold := aa_threshold args;
     sa_liquidation_bonus := aa_bonus args;
     sa_liquidation_fees := aa_liquidation_fees args;
     sa_supply_cap := aa_supply_cap args;
     sa_borrow_cap := aa_borrow_cap args |}.

Definition upsert_spoke_asset (pool : Pool) (c : Controller) (args : SpokeAssetArgs)
    (mutation : SpokeAssetMutation) : res Controller :=
  do! validate_risk_bounds (aa_ltv args) (aa_threshold args) (aa_bonus args) in
  do! validate_liquidation_fees (aa_liquidation_fees args) in
  do! require ((0 <=? aa_supply_cap args) && (0 <=? aa_borrow_cap args))
        (ECollateral InvalidBorrowParams) in
  let spoke_id := aa_spoke_id args in
  let h := mkHubAssetKey (aa_hub_id args) (aa_asset args) in
  let* stored :=
    (match mutation with
     | AddAsset =>
         let* spoke := Store.get_spoke c spoke_id in
         do! require (negb (sc_is_deprecated spoke)) (ESpoke SpokeDeprecated) in
         do! require (match Store.get_spoke_asset c spoke_id h with None => true | _ => false end)
               (ESpoke AssetAlreadyInSpoke) in
         Ok None
     | EditAsset =>
         do! Store.get_spoke c spoke_id in
         let* stored := of_option (ESpoke AssetNotInSpoke) (Store.get_spoke_asset c spoke_id h) in
         do! require_flag_ratchet stored (aa_paused args) (aa_frozen args) (aa_no_seize args) in
         Ok (Some stored)
     end) in
  do! Store.get_pool c in
  let* market := Storage.load_sync_data pool h in
  let decimals := rp_asset_decimals (sync_params market) in
  do! require_cap_within_asset_domain (aa_supply_cap args) decimals in
  do! require_cap_within_asset_domain (aa_borrow_cap args) decimals in
  do! require ((MIN_BORROWABLE_ASSET_DECIMALS <=? decimals)
               || (negb (aa_can_borrow args) && (aa_liquidation_fees args =? 0)))
        (ECollateral InvalidBorrowParams) in
  let config := config_of_args args in
  let c := set_spoke_asset c spoke_id h config in
  let* c :=
    (if (match stored with
         | None => true
         | Some stored => negb (bool_decide (flags stored = flags config))
         end)
     then bump_spoke_flags_epoch c spoke_id h else Ok c) in
  Ok (publish c (UpdateSpokeAssetEvent spoke_id h config)).

Definition add_asset_to_spoke (pool : Pool) (c : Controller) (args : SpokeAssetArgs)
    : res Controller := upsert_spoke_asset pool c args AddAsset.

Definition edit_asset_in_spoke (pool : Pool) (c : Controller) (args : SpokeAssetArgs)
    : res Controller := upsert_spoke_asset pool c args EditAsset.

Definition with_flags (config : SpokeAssetConfig) (paused frozen no_seize : bool)
    : SpokeAssetConfig :=
  {| sa_is_collateralizable := sa_is_collateralizable config;
     sa_is_borrowable := sa_is_borrowable config;
     sa_paused := paused;
     sa_frozen := frozen;
     sa_no_seize := no_seize;
     sa_loan_to_value := sa_loan_to_value config;
     sa_liquidation_threshold := sa_liquidation_threshold config;
     sa_liquidation_bonus := sa_liquidation_bonus config;
     sa_liquidation_fees := sa_liquidation_fees config;
     sa_supply_cap := sa_supply_cap config;
     sa_borrow_cap := sa_borrow_cap config |}.

Definition write_spoke_asset_flags (c : Controller) (spoke_id : Z) (h : HubAssetKey)
    (config : SpokeAssetConfig) (paused frozen no_seize : bool) : res Controller :=
  let config := with_flags config paused frozen no_seize in
  let* c := bump_spoke_flags_epoch (set_spoke_asset c spoke_id h config) spoke_id h in
  Ok (publish c (UpdateSpokeAssetEvent spoke_id h config)).

Definition set_spoke_asset_flags (c : Controller) (spoke_id : Z) (h : HubAssetKey)
    (paused frozen no_seize : bool) : res Controller :=
  let* config := of_option (ESpoke AssetNotInSpoke) (Store.get_spoke_asset c spoke_id h) in
  do! require_flag_ratchet config paused frozen no_seize in
  do! require (negb (bool_decide ((paused, frozen, no_seize) = flags config)))
        (ESpoke SpokeAssetFlagsUnchanged) in
  write_spoke_asset_flags c spoke_id h config paused frozen no_seize.

Definition relax_spoke_asset_flags (c : Controller) (spoke_id : Z) (h : HubAssetKey)
    (expected_epoch : Z) (paused frozen no_seize : bool) : res Controller :=
  let* config := of_option (ESpoke AssetNotInSpoke) (Store.get_spoke_asset c spoke_id h) in
  do! require (Store.get_spoke_flags_epoch c spoke_id h =? expected_epoch)
        (ESpoke SpokeFlagsEpochMismatch) in
  write_spoke_asset_flags c spoke_id h config paused frozen no_seize.

Definition remove_asset_from_spoke (c : Controller) (h : HubAssetKey) (spoke_id : Z)
    : res Controller :=
  do! require (match Store.get_spoke_asset c spoke_id h with Some _ => true | None => false end)
        (ESpoke AssetNotInSpoke) in
  let usage := default SpokeUsage.no_usage (SpokeUsage.get_spoke_usage (c_usage c) spoke_id h) in
  do! require ((SpokeUsage.supplied_scaled_ray usage =? 0)
               && (SpokeUsage.borrowed_scaled_ray usage =? 0)) (ESpoke SpokeAssetInUse) in
  Ok (publish (remove_spoke_asset c spoke_id h) (RemoveSpokeAssetEvent spoke_id h)).

(** ** Protocol settings (config/registry.rs) *)

Definition set_swap_aggregator (c : Controller) (addr : Address) : Controller :=
  publish (on_instance c (fun i => set_i_swap_aggregator i (Some addr)))
    (UpdateSwapAggregatorEvent addr).

Definition set_price_aggregator (c : Controller) (addr : Address) : Controller :=
  publish (on_instance c (fun i => set_i_price_aggregator i (Some addr)))
    (UpdatePriceAggregatorEvent addr).

Definition set_accumulator (c : Controller) (addr : Address) : Controller :=
  publish (on_instance c (fun i => set_i_accumulator i (Some addr))) (UpdateAccumulatorEvent addr).

Definition set_blend_pool_approval (c : Controller) (pool : Address) (approved : bool)
    : Controller :=
  publish (set_blend_pool_approved c pool approved) (ApproveBlendPoolEvent pool approved).

Definition in_limit (n : Z) : bool := (1 <=? n) && (n <=? POSITION_LIMIT_MAX).

Definition set_position_limits (c : Controller) (limits : Risk.PositionLimits)
    : res Controller :=
  do! require (in_limit (Risk.max_supply_positions limits)
               && in_limit (Risk.max_borrow_positions limits)) (EGeneric InvalidPositionLimits) in
  Ok (publish (on_instance c (fun i => set_i_position_limits i (Some limits)))
        (UpdatePositionLimitsEvent limits)).

Definition set_min_borrow_collateral_usd (c : Controller) (floor_wad : Z) : res Controller :=
  do! require (0 <=? floor_wad) (ECollateral InvalidBorrowParams) in
  Ok (publish (on_instance c (fun i => set_i_min_borrow_collateral i (Some floor_wad)))
        (UpdateMinBorrowCollateralEvent floor_wad)).

(** ** Governance (governance.rs)

    [pausable::pause] and [unpause] fail when the flag already has that value. *)

Definition pause (c : Controller) : res Controller :=
  do! require (negb (i_paused (c_instance c))) HostTrap in
  Ok (on_instance c (fun i => set_i_paused i true)).

Definition unpause (c : Controller) : res Controller :=
  do! require (i_paused (c_instance c)) HostTrap in
  Ok (on_instance c (fun i => set_i_paused i false)).

Definition get_app_version (c : Controller) : Z :=
  default INITIAL_APP_VERSION (i_app_version (c_instance c)).

Definition migrate (c : Controller) (new_version : Z) : res Controller :=
  do! require (get_app_version c <? new_version) (EGeneric InternalError) in
  Ok (on_instance c (fun i => set_i_app_version i (Some new_version))).

Definition empty_controller : Controller :=
  mkController (mkInstance None false None None None None None None None None None None)
    (mkRegistry ∅ ∅ ∅ ∅ ∅ ∅) (mkAccountStore ∅ ∅ ∅ ∅) ∅ false [].

Definition init (admin : Address) : res Controller :=
  let c := on_instance empty_controller (fun i => set_i_owner i (Some admin)) in
  let* c := set_position_limits c
              (Risk.mkPositionLimits POSITION_LIMIT_MAX POSITION_LIMIT_MAX) in
  let* c := set_min_borrow_collateral_usd c Store.DEFAULT_MIN_BORROW_COLLATERAL_USD_WAD in
  pause (on_instance c (fun i => set_i_app_version i (Some INITIAL_APP_VERSION))).

(** ** Markets (markets.rs) *)

Section Markets.

Context {W : Type} `{Chain W}.
Context (env : Env).

Definition create_liquidity_pool (s : Sys W) (hub : Z) (token : Address)
    (params : MarketParamsRaw) : res (Address * Sys W) :=
  let f := Ctx.new s in
  do! Ctx.require_hub_active f hub in
  do! require (bool_decide (rp_asset_id params = token)) (EGeneric WrongToken) in
  let* pool := Ctx.cached_pool_address f in
  let* (_, f) := Ctx.pool_call env f (fun e p =>
    let* p := LiquidityPool.create_market e p hub params in Ok (tt, p)) in
  let f := on_ctl f (fun c => publish c (CreateMarketEvent hub token pool params)) in
  Ok (pool, fl_sys f).

Definition upgrade_liquidity_pool_params (s : Sys W) (h : HubAssetKey)
    (params : InterestRateModel) : res (Sys W) :=
  let f := Ctx.new s in
  let* f := Ctx.pool_update_indexes_call env f [h] in
  let* (_, f) := Ctx.pool_call env f (fun e p =>
    let* p := LiquidityPool.update_params e p h params in Ok (tt, p)) in
  Ok (fl_sys (on_ctl f (fun c => publish c (UpdateMarketParamsEvent h params)))).

Definition update_indexes (s : Sys W) (caller : Address) (assets : list HubAssetKey)
    : res (Sys W) :=
  do! Ctx.require_authorized_caller env s caller in
  let* f := Ctx.pool_update_indexes_call env (Ctx.new s) assets in
  Ok (fl_sys f).

Definition claim_revenue_for_asset (caller : Address) (s : list Z * Flow W) (h : HubAssetKey)
    : res (list Z * Flow W) :=
  let (results, f) := s in
  let* accumulator := of_option (EOracle NoAccumulator) (i_accumulator (c_instance (fl_ctl f))) in
  let controller := current_contract_address env in
  let before := token_balance (fl_host f) (asset h) controller in
  let* (_, f) := Ctx.pool_claim_revenue_call env f h in
  let* received := Ctx.balance_delta_since f (asset h) controller before in
  let* f :=
    (if 0 <? received then
       let* (_, f) := Ctx.transfer_amount_measured f (asset h) controller accumulator received
                        AmountMustBePositive in
       Ok (on_ctl f (fun c => publish c (ClaimRevenueEvent h caller accumulator received)))
     else Ok f) in
  Ok (results ++ [received], f).

Definition claim_revenue (s : Sys W) (caller : Address) (assets : list HubAssetKey)
    : res (list Z * Sys W) :=
  do! Ctx.require_authorized_caller env s caller in
  let* (results, f) := rfold (claim_revenue_for_asset caller) ([], Ctx.new s) assets in
  Ok (results, fl_sys f).

Definition recapitalize (s : Sys W) (payer : Address) (h : HubAssetKey) (amount : Z)
    : res (Z * Sys W) :=
  do! Ctx.require_authorized_caller env s payer in
  do! require_positive_amount amount in
  let f := Ctx.new s in
  let* pool := Ctx.cached_pool_address f in
  let* (received, f) :=
    Ctx.transfer_amount_measured f (asset h) payer pool amount AmountMustBePositive in
  let* (m, f) := Ctx.pool_recapitalize_call env f h payer received in
  Ok (am_actual_amount m, fl_sys f).

(** strategies/flash_loan.rs: the pool lends, calls the receiver and collects under the
    guard. *)
Definition process_flash_loan (s : Sys W) (caller : Address) (h : HubAssetKey) (amount : Z)
    (receiver : Address) (data : list N) : res (Sys W) :=
  do! Ctx.require_authorized_caller env s caller in
  do! require_positive_amount amount in
  let f := Ctx.new s in
  do! Ctx.require_hub_active f (hub_id h) in
  do! Flash.require_wasm_receiver (fl_host f) receiver in
  let* pool := Ctx.cached_pool_address f in
  let* (fee, f) := Ctx.with_flash_guard f (fun f =>
    let* (fp, w) := LiquidityPool.flash_loan (Ctx.pool_env env pool) (fl_pool f) (fl_host f) h
                      caller receiver amount data in
    Ok (fp.1, mkFlow (mkSys (fl_ctl f) fp.2 w) (fl_buf f))) in
  Ok (fl_sys (on_ctl f (fun c => publish c (FlashLoanEvent h receiver caller amount fee)))).

End Markets.

End Config.
