(* ===== verification/CtlAdminSteps.v ===== *)
(** * Thresholds, delegates, markets and configuration keep the invariant *)

From S2P Require Import Prelude Errors FpCore Fp PoolTypes PoolCache PoolOps PoolSafety PoolContract PoolSolvency ControllerTypes PoolView PoolMoves Account SpokeUsage Risk RiskParams Payments LiqPlan CtlState CtlContext CtlBooks CtlFlows CtlConfig CtlLegs CtlKeep CtlSteps.
From stdpp Require Import base numbers list gmap.
From Stdlib Require Import ZArith Lia Bool.

Open Scope Z_scope.

Module AdminSteps.

Import SpokeUsage RiskParams Payments LiqPlan Positions Books Legs Keep Steps Config Validation.

Section AdminSteps.

Context {W : Type} {HW : Host W} {HC : Chain W} {HS : SequentialIds W}.
Context (env : Env).
Implicit Types (f : Flow W) (a : Account) (h k : HubAssetKey) (s : Sys W) (c : Controller).

(** ** Storage writes that leave accounts and usage alone *)

Record admin_step c c' : Prop := {
  ad_accounts : c_accounts c' = c_accounts c;
  ad_usage : c_usage c' = c_usage c;
  ad_nft : i_position_nft (c_instance c') = i_position_nft (c_instance c);
  ad_guard : c_flash_ongoing c' = c_flash_ongoing c;
  ad_listings : listings_ok c -> listings_ok c'
}.

#[export] Instance admin_preorder : PreOrder admin_step.
Proof using.
  split; [by split|]. intros c1 c2 c3 [A1 A2 A3 A5 A4] [B1 B2 B3 B5 B4]. split; [congruence..|auto].
Qed.

Lemma admin_sane s c : sane s -> admin_step (sy_ctl s) c -> sane (with_ctl s c).
Proof using.
  intros [S1 S2 S3] [A1 A2 A3 _ A4]. split; simpl.
  - unfold stored_books. by rewrite A1, A2.
  - by apply A4.
  - intros id m. simpl. rewrite A1, A3. apply S3.
Qed.

Lemma publish_admin c e : admin_step c (publish c e).
Proof using. by split. Qed.

Lemma instance_admin c g :
  (forall i, i_position_nft (g i) = i_position_nft i) -> admin_step c (on_instance c g).
Proof using. intros Hg. split; try done. simpl. apply Hg. Qed.

Lemma registry_admin c g :
  (forall r, r_spoke_assets (g r) = r_spoke_assets r) -> admin_step c (on_registry c g).
Proof using.
  intros Hg. split; try done. intros Hl sp h cfg. unfold Store.get_spoke_asset. simpl.
  rewrite Hg. apply Hl.
Qed.

Lemma listing_admin c sp h cfg :
  config_ok (asset_config_of cfg) -> admin_step c (set_spoke_asset c sp h cfg).
Proof using.
  intros Hc. split; try done. intros Hl sp' h' cfg'. unfold Store.get_spoke_asset. simpl.
  intros Hg. apply lookup_insert_Some in Hg as [[_ <-]|[_ Hg]]; [done|by apply (Hl sp' h')].
Qed.

Lemma bump_admin c sp h c' : bump_spoke_flags_epoch c sp h = Ok c' -> admin_step c c'.
Proof using.
  intros H. unfold bump_spoke_flags_epoch in H. apply rbind_Ok in H as (u & _ & H).
  injection H as <-. by apply registry_admin.
Qed.

Lemma upsert_admin p c x mut c' :
  args_typed x -> upsert_spoke_asset p c x mut = Ok c' -> admin_step c c'.
Proof using.
  intros (T1 & T2 & T3 & T4) H. unfold upsert_spoke_asset in H.
  apply rbind_Ok in H as (u1 & Hr & H). apply rbind_Ok in H as (u2 & Hf & H).
  apply rbind_Ok in H as (u3 & _ & H). apply rbind_Ok in H as (st & _ & H).
  do 5 apply rbind_Ok in H as (? & _ & H). apply rbind_Ok in H as (c1 & Hc1 & H). injection H as <-.
  unfold validate_risk_bounds in Hr. apply rbind_Ok in Hr as (u4 & Hr & _).
  apply require_Ok in Hr. apply require_Ok in Hf. b2p.
  etransitivity; [|apply publish_admin].
  etransitivity; [apply (listing_admin _ (aa_spoke_id x)
    (mkHubAssetKey (aa_hub_id x) (aa_asset x)) (config_of_args x))|].
  - assert (BPS <= u32_max) by zconst. unfold config_ok. simpl. lia.
  - match type of Hc1 with (if ?b then _ else _) = _ => destruct b end.
    + exact (bump_admin _ _ _ _ Hc1).
    + by injection Hc1 as <-.
Qed.

Lemma flags_admin c sp h cfg x y z c' :
  Store.get_spoke_asset c sp h = Some cfg -> listings_ok c ->
  write_spoke_asset_flags c sp h cfg x y z = Ok c' -> admin_step c c'.
Proof using.
  intros Hg Hl H. unfold write_spoke_asset_flags in H. apply rbind_Ok in H as (c1 & Hc1 & H).
  injection H as <-. etransitivity; [|apply publish_admin].
  etransitivity; [|by eapply bump_admin]. apply listing_admin. exact (Hl _ _ _ Hg).
Qed.

Lemma set_flags_admin c sp h x y z c' :
  listings_ok c -> set_spoke_asset_flags c sp h x y z = Ok c' -> admin_step c c'.
Proof using.
  intros Hl H. unfold set_spoke_asset_flags in H. apply rbind_Ok in H as (cfg & Hg & H).
  do 2 apply rbind_Ok in H as (? & _ & H). apply of_option_Ok in Hg. by eapply flags_admin.
Qed.

Lemma relax_flags_admin c sp h e x y z c' :
  listings_ok c -> relax_spoke_asset_flags c sp h e x y z = Ok c' -> admin_step c c'.
Proof using.
  intros Hl H. unfold relax_spoke_asset_flags in H. apply rbind_Ok in H as (cfg & Hg & H).
  apply rbind_Ok in H as (? & _ & H). apply of_option_Ok in Hg. by eapply flags_admin.
Qed.

Lemma remove_asset_admin c h sp c' : remove_asset_from_spoke c h sp = Ok c' -> admin_step c c'.
Proof using.
  intros H. unfold remove_asset_from_spoke in H. do 2 apply rbind_Ok in H as (? & _ & H).
  injection H as <-. etransitivity; [|apply publish_admin]. split; try done.
  intros Hl sp' h' cfg'. unfold Store.get_spoke_asset. simpl.
  intros Hg. apply lookup_delete_Some in Hg as [_ Hg]. by apply (Hl sp' h').
Qed.

Lemma add_spoke_admin c id c' : add_spoke c = Ok (id, c') -> admin_step c c'.
Proof using.
  intros H. unfold add_spoke in H. apply rbind_Ok in H as ([i c1] & H1 & H).
  injection H as <- <-. unfold increment_spoke_id in H1. apply rbind_Ok in H1 as (n & _ & H1).
  injection H1 as <- <-. etransitivity; [|apply publish_admin].
  etransitivity; [|by apply registry_admin]. by apply instance_admin.
Qed.

Lemma create_hub_admin c id c' : create_hub c = Ok (id, c') -> admin_step c c'.
Proof using.
  intros H. unfold create_hub in H. apply rbind_Ok in H as ([i c1] & H1 & H).
  injection H as <- <-. unfold increment_hub_id in H1. apply rbind_Ok in H1 as (n & _ & H1).
  injection H1 as <- <-. etransitivity; [|apply publish_admin].
  etransitivity; [|by apply registry_admin]. by apply instance_admin.
Qed.

Lemma remove_spoke_admin c id c' : remove_spoke c id = Ok c' -> admin_step c c'.
Proof using.
  intros H. unfold remove_spoke in H. do 2 apply rbind_Ok in H as (? & _ & H). injection H as <-.
  etransitivity; [|apply publish_admin]. by apply registry_admin.
Qed.

Lemma set_curve_admin c id x y z c' :
  set_spoke_liquidation_curve c id x y z = Ok c' -> admin_step c c'.
Proof using.
  intros H. unfold set_spoke_liquidation_curve in H. do 2 apply rbind_Ok in H as (? & _ & H).
  injection H as <-. etransitivity; [|apply publish_admin]. by apply registry_admin.
Qed.

Lemma set_limits_admin c l c' : Config.set_position_limits c l = Ok c' -> admin_step c c'.
Proof using.
  intros H. unfold Config.set_position_limits in H. apply rbind_Ok in H as (? & _ & H).
  injection H as <-. etransitivity; [|apply publish_admin]. by apply instance_admin.
Qed.

Lemma set_floor_admin c x c' : set_min_borrow_collateral_usd c x = Ok c' -> admin_step c c'.
Proof using.
  intros H. unfold set_min_borrow_collateral_usd in H. apply rbind_Ok in H as (? & _ & H).
  injection H as <-. etransitivity; [|apply publish_admin]. by apply instance_admin.
Qed.

(** ** Delegates *)

Lemma set_delegates_beside s id o l :
  beside [id] (sy_ctl s) (Store.set_delegates (sy_ctl s) id o l).
Proof using.
  unfold Store.set_delegates. destruct l; (split; [|done..]); intros i Hi; simpl;
    [rewrite lookup_delete_ne by set_solver|rewrite lookup_insert_ne by set_solver]; done.
Qed.

Lemma delegates_sane s st : sane s -> sane (with_ctl s (Store.write_delegates (sy_ctl s) st)).
Proof using.
  intros [[H1 H2 H3 H4 H5 H6] S2 S3]. split; [|exact S2|exact S3]. by split.
Qed.

Lemma set_delegates_sane s id o l : sane s -> sane (with_ctl s (Store.set_delegates (sy_ctl s) id o l)).
Proof using. intros Hs. unfold Store.set_delegates. destruct l; by apply delegates_sane. Qed.

Lemma with_ctl_same s : with_ctl s (sy_ctl s) = s.
Proof using. by destruct s. Qed.

Lemma set_delegate_sane s caller id d add s' :
  sane s -> Acct.set_account_delegate env s caller id d add = Ok s' ->
  sane s' /\ beside [id] (sy_ctl s) (sy_ctl s').
Proof using.
  intros Hs H. unfold Acct.set_account_delegate in H. do 3 apply rbind_Ok in H as (? & _ & H).
  apply rbind_Ok in H as ([ch c] & Hc & H). injection H as <-.
  assert (sane (with_ctl s c) /\ beside [id] (sy_ctl s) c) as [Hsc Hbe].
  { destruct add.
    - unfold Store.add_delegate in Hc. case_bool_decide;
        [injection Hc as <- <-; by rewrite with_ctl_same|].
      apply rbind_Ok in Hc as (? & _ & Hc). injection Hc as <- <-.
      split; [by apply set_delegates_sane|apply set_delegates_beside].
    - injection Hc as Hc. unfold Store.remove_delegate in Hc.
      destruct (acs_delegates _ !! id) as [g|]; [|injection Hc as <- <-; by rewrite with_ctl_same].
      destruct (negb _); [injection Hc as <- <-; split; [by apply delegates_sane|]|].
      { split; [|done..]. intros i Hi. simpl. by rewrite lookup_delete_ne by set_solver. }
      case_bool_decide; injection Hc as <- <-; [|by rewrite with_ctl_same].
      split; [by apply set_delegates_sane|apply set_delegates_beside]. }
  destruct ch; [|done]. split; [|etransitivity; [exact Hbe|by apply beside_same]]. apply (admin_sane (with_ctl s c)); [done|].
  apply publish_admin.
Qed.

(** ** Markets *)

(** A pool call that moves no shares. *)
Lemma backed_call_sane {R} f (call : Env -> Pool -> res (R * Pool)) r f' :
  sane (fl_sys f) ->
  (forall e p r p' fs fb, call e p = Ok (r, p') -> backed p fs fb -> backed p' fs fb) ->
  Ctx.pool_call env f call = Ok (r, f') -> sane (fl_sys f') /\ fl_ctl f' = fl_ctl f.
Proof using.
  intros [[H1 H2 H3 H4 H5 H6] S2 S3] Hc H. apply pool_call_Ok in H as (pool & Hp & P1 & P2 & P3).
  split; [|exact P1]. split.
  - unfold stored_books. rewrite P1. split; try done. by eapply Hc.
  - by rewrite P1.
  - by eapply minted_same.
Qed.

Lemma host_sane s w : sane s -> host_le (sy_host s) w -> sane (with_host s w).
Proof using.
  intros [S1 S2 S3] Hh. split; [done|done|]. by apply (minted_le s).
Qed.

Lemma drift_sane f f' : sane (fl_sys f) -> drift f f' -> sane (fl_sys f').
Proof using.
  intros [S1 S2 S3] [D1 D2 D3 D4]. split; [by rewrite D1, D2|by rewrite D1|by eapply minted_same].
Qed.

Lemma update_indexes_sane s caller hs s' :
  sane s -> Config.update_indexes env s caller hs = Ok s' ->
  sane s' /\ beside [] (sy_ctl s) (sy_ctl s').
Proof using.
  intros Hs H. unfold Config.update_indexes in H. apply rbind_Ok in H as (? & _ & H).
  apply rbind_Ok in H as (f & H1 & H). injection H as <-. unfold Ctx.pool_update_indexes_call in H1.
  apply rbind_Ok in H1 as ([[] f1] & H1 & E). injection E as <-.
  eapply backed_call_sane in H1 as [H1 E1]; [by rewrite E1|exact Hs|].
  intros e p r p' fs fb Hp Hb. apply rbind_Ok in Hp as (p1 & Hp & E). injection E as _ <-.
  by eapply accrue_backed.
Qed.

Lemma recapitalize_sane s payer h x r s' :
  sane s -> Config.recapitalize env s payer h x = Ok (r, s') ->
  sane s' /\ beside [] (sy_ctl s) (sy_ctl s').
Proof using.
  intros Hs H. unfold Config.recapitalize in H. do 2 apply rbind_Ok in H as (? & _ & H).
  apply rbind_Ok in H as (pool & _ & H). apply rbind_Ok in H as ([rc f1] & H1 & H).
  apply rbind_Ok in H as ([mu f2] & H2 & H). injection H as <- <-. apply transfer_drift in H1.
  eapply backed_call_sane in H2 as [H2 E2];
    [split; [exact H2|simpl; by rewrite E2, (dr_ctl _ _ H1)]|exact (drift_sane (Ctx.new s) _ Hs H1)|].
  intros e p q p' fs fb Hp Hb. exact (recapitalize_backed _ _ _ _ _ _ _ _ _ Hp Hb).
Qed.

Lemma claim_revenue_sane s caller hs rs s' :
  sane s -> Config.claim_revenue env s caller hs = Ok (rs, s') ->
  sane s' /\ beside [] (sy_ctl s) (sy_ctl s').
Proof using.
  intros Hs H. unfold Config.claim_revenue in H. apply rbind_Ok in H as (? & _ & H).
  apply rbind_Ok in H as ([rs' f] & H1 & H). injection H as <- <-. revert H1.
  apply (rfold_inv (fun x => sane (fl_sys x.2) /\ beside [] (sy_ctl s) (fl_ctl x.2)))
    with (a := ([], Ctx.new s)) (a' := (rs', f)); [|by split].
  intros [l g] h [l' g'] _ [Hg Ha] Hst. simpl in *. unfold claim_revenue_for_asset in Hst.
  apply rbind_Ok in Hst as (acc & _ & Hst). apply rbind_Ok in Hst as ([mu g1] & H1 & Hst).
  apply rbind_Ok in Hst as (rc & _ & Hst). apply rbind_Ok in Hst as (g2 & H2 & Hst).
  injection Hst as <- <-.
  eapply backed_call_sane in H1 as [Hg1 E1];
    [|exact Hg|intros e p q p' fs fb Hp Hb; exact (claim_backed _ _ _ _ _ _ _ Hp Hb)].
  destruct (0 <? rc); [|injection H2 as <-; by rewrite E1].
  apply rbind_Ok in H2 as ([y g3] & H3 & H2).
  injection H2 as <-. apply transfer_drift in H3. split.
  - apply (admin_sane (fl_sys g3)); [by eapply drift_sane|apply publish_admin].
  - etransitivity; [exact Ha|]. rewrite <- E1, <- (dr_ctl _ _ H3). by apply beside_same.
Qed.

Lemma create_market_sane s hub token params r s' :
  raw_params_typed params -> sane s ->
  create_liquidity_pool env s hub token params = Ok (r, s') ->
  sane s' /\ beside [] (sy_ctl s) (sy_ctl s').
Proof using.
  intros Ht Hs H. unfold create_liquidity_pool in H. do 2 apply rbind_Ok in H as (? & _ & H).
  apply rbind_Ok in H as (pool & _ & H). apply rbind_Ok in H as ([[] f] & H1 & H).
  injection H as <- <-.
  eapply backed_call_sane in H1 as [H1 E1]; [|exact Hs|].
  { split; [by apply (admin_sane (fl_sys f)), publish_admin|]. rewrite <- (E1 : _ = sy_ctl s). by apply beside_same. }
  intros e p q p' fs fb Hp Hb. apply rbind_Ok in Hp as (p1 & Hp & E). injection E as _ <-.
  by eapply create_backed.
Qed.

Lemma update_params_sane s h model s' :
  0 <= irm_reserve_factor model <= u32_max -> 0 <= irm_flashloan_fee model <= u32_max -> sane s ->
  upgrade_liquidity_pool_params env s h model = Ok s' ->
  sane s' /\ beside [] (sy_ctl s) (sy_ctl s').
Proof using.
  intros T1 T2 Hs H. unfold upgrade_liquidity_pool_params in H. apply rbind_Ok in H as (f & H1 & H).
  apply rbind_Ok in H as ([[] f2] & H2 & H). injection H as <-.
  unfold Ctx.pool_update_indexes_call in H1. apply rbind_Ok in H1 as ([[] f1] & H1 & E).
  injection E as <-. eapply backed_call_sane in H1 as [H1 E1]; [|exact Hs|].
  2:{ intros e p r p' fs fb Hp Hb. apply rbind_Ok in Hp as (p1 & Hp & E). injection E as _ <-.
      by eapply accrue_backed. }
  eapply backed_call_sane in H2 as [H2 E2]; [|exact H1|].
  - split; [by apply (admin_sane (fl_sys f2)), publish_admin|].
    rewrite <- (E1 : _ = sy_ctl s), <- E2. by apply beside_same.
  - intros e p q p' fs fb Hp Hb. apply rbind_Ok in Hp as (p1 & Hp & E). injection E as _ <-.
    by eapply update_params_backed.
Qed.

(** ** Thresholds *)

Lemma sync_leg_Ok scope a ch f h a' ch' f' :
  listings_ok (fl_ctl f) -> supply_ok (supply_positions a) ->
  Thresholds.sync_leg env scope (a, ch, f) h = Ok (a', ch', f') ->
  quiet env f f' /\ restamped a a' /\ (ch' = false -> ch = false /\ a' = a).
Proof using.
  intros Hl Ha H. unfold Thresholds.sync_leg in H.
  destruct (cached_spoke_asset _ _ h) as [cfg|] eqn:Ec.
  2:{ injection H as <- <- <-. split_and!; [done|by apply restamped_refl|done]. }
  apply rbind_Ok in H as (raw & Hraw & H). apply rbind_Ok in H as ([[p1 c1] f1] & Hr & H).
  apply of_option_Ok in Hraw. destruct (held_tuple_ok _ _ _ Ha Hraw) as [Ht Hsc].
  apply refresh_quiet in Hr as (Q & R1 & R2); [|exact (Hl _ _ _ Ec)|done]. simpl in R1.
  destruct c1; simpl in H.
  - apply rbind_Ok in H as ([mi f2] & Hm & H). injection H as <- <- <-.
    apply load_index_quiet in Hm. split_and!; [|apply restamped_write; [done|done| |lia]|done].
    + etransitivity; [exact Q|]. etransitivity; [exact Hm|apply record_supply_quiet].
    + rewrite R1. simpl. unfold sup. by rewrite Hraw.
  - injection H as <- <- <-. split_and!; [done|by apply restamped_refl|done].
Qed.

Lemma sync_account_sane scope f id f' :
  sane (fl_sys f) -> bf_spoke_usage (fl_buf f) = None ->
  Thresholds.sync_account_thresholds env scope f id = Ok f' ->
  sane (fl_sys f') /\ beside [id] (fl_ctl f) (fl_ctl f').
Proof using.
  intros [S1 S2 S3] Hu H. unfold Thresholds.sync_account_thresholds, Store.try_get_account_meta in H.
  destruct (acs_meta _ !! id) as [m|] eqn:Em; [|by injection H as <-].
  pose proof (books_load _ _ _ _ _ _ _ Em S1) as Hb.
  pose proof (proj1 (books_maps_ok _ _ _ _ _ _ _ _ Hb)) as Hok.
  destruct (Store.get_supply_positions (fl_ctl f) id) as [|e l] eqn:Es; [by injection H as <-|].
  destruct (Store.try_account_owner _ id) as [o|]; [|by injection H as <-].
  apply rbind_Ok in H as ([[a ch] f1] & H1 & H). apply rbind_Ok in H as (f2 & H2 & H).
  injection H as <-. unfold Store.get_supply_positions in Es. rewrite <- Es in H1.
  set (a0 := Store.account_from_parts o m (default [] (acs_supply (c_accounts (fl_ctl f)) !! id)) _) in *.
  assert (quiet env f f1 /\ restamped a0 a /\ (ch = false -> a = a0)) as (Q & R & Hch).
  { revert H1. apply (rfold_inv (fun x => quiet env f x.2 /\ restamped a0 x.1.1
      /\ (x.1.2 = false -> x.1.1 = a0))) with (a := (a0, false, f)) (a' := (a, ch, f1)).
    - intros [[a1 c1] g1] h [[a2 c2] g2] _ (Q & R & Hc) Hst. simpl in *.
      pose proof (quiet_drift _ _ _ Q) as [D1 _ _ _].
      apply sync_leg_Ok in Hst as (Q' & R' & Hc'); [|by rewrite D1|apply R].
      split_and!; [by transitivity g1|by eapply restamped_trans|].
      intros E. apply Hc' in E as [E ->]. by apply Hc.
    - split_and!; [done|by apply restamped_refl|done]. }
  pose proof (quiet_drift _ _ _ Q) as [D1 D2 D3 D4].
  set (g := if ch then _ else f1) in *.
  assert (sane (fl_sys g) /\ beside [id] (fl_ctl f) (fl_ctl g)) as [Hg Hbe].
  { subst g. destruct ch; [|split; [by apply (drift_sane f)|by rewrite D1]].
    split; [|split; [intros i Hi; simpl; rewrite write_side_ne by set_solver|..]; by simpl; rewrite D1].
    split.
    - unfold stored_books. simpl. rewrite D1, D2.
      eapply (books_store_supply (c_accounts (fl_ctl f)) id m); [exact Em|].
      eapply books_restamp; [exact Em|exact Hb|apply R|apply R].
    - simpl. rewrite D1. exact S2.
    - apply (minted_le (fl_sys f)); [by simpl; rewrite D1|by simpl; rewrite D1|done|done]. }
  assert (sane (fl_sys f2) /\ fl_ctl f2 = fl_ctl g) as [Hf2 Ec].
  { destruct (bool_decide _); [|by injection H2 as <-].
    apply rbind_Ok in H2 as ([t g2] & Ht & H2). apply rbind_Ok in H2 as (? & _ & H2).
    injection H2 as <-. apply risk_totals_quiet, quiet_drift in Ht.
    split; [by eapply drift_sane|apply Ht]. }
  destruct (emit_batch_ctl f2 id a) as (E1 & E2 & E3 & E4 & E5 & E6).
  split; [|etransitivity; [exact Hbe|rewrite <- Ec; apply emit_batch_beside]].
  destruct Hf2 as [F1 F2 F3]. split.
  - unfold stored_books. by rewrite E3, E4, E5.
  - intros sp h cfg. unfold Store.get_spoke_asset. rewrite E2. apply F2.
  - apply (minted_le (fl_sys f2)); [done|by rewrite E3|by rewrite E6|done].
Qed.

Lemma thresholds_sane s caller risks ids s' :
  sane s -> Thresholds.update_account_threshold env s caller risks ids = Ok s' ->
  sane s' /\ beside ids (sy_ctl s) (sy_ctl s').
Proof using.
  intros Hs H. unfold Thresholds.update_account_threshold in H. apply rbind_Ok in H as (? & _ & H).
  apply rbind_Ok in H as (f & H1 & H). injection H as <-. revert H1.
  apply (rfold_inv (fun x => sane (fl_sys x) /\ beside ids (sy_ctl s) (fl_ctl x))); [|by split].
  intros g id g' Hin [Hg Hb] Hst. eapply sync_account_sane in Hst as [H1 H2]; [|done|done].
  split; [done|]. etransitivity; [exact Hb|]. eapply beside_mono; [|exact H2].
  apply list_elem_of_In in Hin. set_solver.
Qed.

(** ** Flash loans *)

Lemma flash_ids e p w h i r x data fee p' w' :
  Flash.apply e p w h i r x data = Ok (fee, p', w') -> host_le w w'.
Proof using.
  intros H nft. unfold Flash.apply in H. do 3 apply rbind_Ok in H as (? & _ & H).
  apply rbind_Ok in H as (w1 & H1 & H). apply rbind_Ok in H as (? & _ & H).
  apply rbind_Ok in H as ([p2 w2] & H2 & H). apply rbind_Ok in H as (? & _ & H).
  apply rbind_Ok in H as (w3 & H3 & H). apply rbind_Ok in H as (? & _ & H). injection H as _ _ <-.
  unfold Flash.collect_repayment in H3. apply rbind_Ok in H3 as (? & _ & H3).
  apply rbind_Ok in H3 as (w4 & H4 & H3). apply rbind_Ok in H3 as (? & _ & H3). injection H3 as <-.
  etransitivity; [exact (transfer_keeps_ids _ _ _ _ _ _ nft H1)|].
  etransitivity; [exact (callback_keeps_ids _ _ _ _ _ _ _ _ _ _ _ nft H2)|].
  exact (pull_keeps_ids _ _ _ _ _ _ _ nft H4).
Qed.

Lemma flash_loan_sane `{!NoReentry W} s caller h x receiver data s' :
  sane s -> Config.process_flash_loan env s caller h x receiver data = Ok s' ->
  sane s' /\ beside [] (sy_ctl s) (sy_ctl s').
Proof using.
  intros [S1 S2 S3] H. unfold Config.process_flash_loan in H. do 4 apply rbind_Ok in H as (? & _ & H).
  apply rbind_Ok in H as (pool & _ & H). apply rbind_Ok in H as ([fee f] & H1 & H). injection H as <-.
  assert (sane (fl_sys f) /\ beside [] (sy_ctl s) (fl_ctl f)) as [Hf Ef];
    [|split; [by apply (admin_sane (fl_sys f)), publish_admin|etransitivity; [exact Ef|by apply beside_same]]].
  unfold Ctx.with_flash_guard in H1. apply rbind_Ok in H1 as ([y g] & Hg & H1).
  apply rbind_Ok in Hg as ([[fe p'] w'] & Hfl & Hg). injection Hg as <- <-. injection H1 as <- <-.
  simpl in Hfl. pose proof Hfl as Hfl'.
  assert (host_le (sy_host s) w') as Hle.
  { apply LiquidityPool.only_owner_Ok in Hfl' as [Hfl' _]. by eapply flash_ids. }
  destruct S1 as [H1 H2 H3 H4 H5 H6].
  assert (sane (mkSys (sy_ctl s) p' w')) as Hs'.
  { split; [|exact S2|by apply (minted_le s)]. split; try done. by eapply flash_backed. }
  destruct Hs' as [T1 T2 T3].
  destruct (Store.is_flash_loan_ongoing (sy_ctl s)) eqn:Eg; (split; [by split|by apply beside_same]).
Qed.

End AdminSteps.

End AdminSteps.
