(* ===== verification/CtlContract.v ===== *)
(** * Controller entrypoints (contracts/controller/src/lib.rs, governance.rs, markets.rs)

    The contract as its callers see it: every state-changing entrypoint with its
    [when_not_paused] or [only_owner] guard, and the transitions of a deployed system.
    [Call] is the contract's interface as data and [dispatch] runs a call.  Extensions
    of storage lifetimes are not represented; the deployer is the host's. *)

From S2P Require Import Prelude Errors FpCore Fp PoolTypes PoolCache PoolOps PoolContract ControllerTypes PoolView Account SpokeUsage Risk Payments LiqPlan CtlState CtlContext CtlFlows CtlLiq CtlConfig CtlStrategies.
From stdpp Require Import base numbers list gmap.
From Stdlib Require Import ZArith Lia Bool.

Open Scope Z_scope.

(** Constructor arguments of the contracts the controller deploys. *)
Inductive ConstructorArgs : Type :=
| PoolArgs (admin : Address)
| PositionNftArgs (owner : Address) (uri name symbol : list N).

(** [Env::deployer] with a salt and a Wasm hash, and the position token's renewal. *)
Class Deployer (W : Type) : Type := {
  deploy_contract : W -> Address -> list N -> list N -> ConstructorArgs -> res (Address * W);
  nft_renew : W -> Address -> Z -> res W
}.

Class DeployerIds (W : Type) `{SequentialIds W} `{!Deployer W} : Prop := {
  deploy_keeps_ids : forall w by_ salt hash args a w' nft,
    deploy_contract w by_ salt hash args = Ok (a, w') -> nft_next w nft <= nft_next w' nft;
  renew_keeps_ids : forall w nft id w' nft',
    nft_renew w nft id = Ok w' -> nft_next w nft' <= nft_next w' nft'
}.

Module Entry.

Import Payments Positions Liquidation Strategies Config.

Section Entry.

Context {W : Type} `{Chain W} `{!Venues W} `{!Deployer W}.
Context (env : Env).

(** ** Guards (stellar_macros) *)

Definition when_not_paused {A : Type} (s : Sys W) (body : res A) : res A :=
  if i_paused (c_instance (sy_ctl s)) then Err HostTrap else body.

Definition only_owner {A : Type} (s : Sys W) (body : res A) : res A :=
  match i_owner (c_instance (sy_ctl s)) with
  | Some o => if authorized env o then body else Err HostTrap
  | None => Err HostTrap
  end.

(** An owner-only write of storage. *)
Definition owner_write (s : Sys W) (write : Controller -> res Controller) : res (Sys W) :=
  only_owner s (let* c := write (sy_ctl s) in Ok (with_ctl s c)).

(** ** Positions *)

Definition supply (s : Sys W) (caller : Address) (account_id spoke_id : Z)
    (assets : list HubPayment) : res (Z * Sys W) :=
  when_not_paused s (process_supply env s caller account_id spoke_id assets).

Definition borrow (s : Sys W) (caller : Address) (account_id : Z) (borrows : list HubPayment)
    (to : option Address) : res (Sys W) :=
  when_not_paused s (process_borrow env s caller account_id borrows to).

Definition withdraw (s : Sys W) (caller : Address) (account_id : Z)
    (withdrawals : list HubPayment) (to : option Address) : res (list HubPayment * Sys W) :=
  process_withdraw env s caller account_id withdrawals to.

Definition repay (s : Sys W) (caller : Address) (account_id : Z) (payments : list HubPayment)
    : res (Sys W) := process_repay env s caller account_id payments.

Definition liquidate (s : Sys W) (liquidator : Address) (account_id : Z)
    (debt_payments : list HubPayment) (seize_mode : SeizeMode) : res (Z * Sys W) :=
  process_liquidation env s liquidator account_id debt_payments seize_mode.

Definition clean_bad_debt (s : Sys W) (caller : Address) (account_id : Z) : res (Sys W) :=
  process_clean_bad_debt env s caller account_id.

(** ** Flash loans and strategies *)

Definition flash_loan (s : Sys W) (caller : Address) (h : HubAssetKey) (amount : Z)
    (receiver : Address) (data : list N) : res (Sys W) :=
  when_not_paused s (process_flash_loan env s caller h amount receiver data).

Definition flash_position (s : Sys W) (caller : Address) (account_id spoke_id : Z)
    (mode : PositionMode) (debt : HubAssetKey) (amount : Z) (receiver : Address)
    (data : list N) (collaterals : list HubPayment) (refund_assets : list Address)
    : res (Z * Sys W) :=
  when_not_paused s (process_flash_position env s caller
    {| fp_account_id := account_id; fp_spoke_id := spoke_id; fp_mode := mode; fp_debt := debt;
       fp_amount := amount; fp_receiver := receiver; fp_data := data;
       fp_collaterals := collaterals; fp_refund_assets := refund_assets |}).

Definition multiply (s : Sys W) (caller : Address) (account_id spoke_id : Z)
    (collateral : HubAssetKey) (debt_to_flash_loan : Z) (debt : HubAssetKey)
    (mode : PositionMode) (swap : StrategySwap) (initial_payment : option HubPayment)
    (convert_swap : option StrategySwap) : res (Z * Sys W) :=
  when_not_paused s (process_multiply env s caller
    {| mp_account_id := account_id; mp_spoke_id := spoke_id; mp_collateral := collateral;
       mp_debt_to_flash_loan := debt_to_flash_loan; mp_debt := debt; mp_mode := mode;
       mp_swap := swap; mp_initial_payment := initial_payment;
       mp_convert_swap := convert_swap |}).

Definition swap_debt (s : Sys W) (caller : Address) (account_id : Z)
    (existing_debt : HubAssetKey) (amount : Z) (new_debt : HubAssetKey) (swap : StrategySwap)
    : res (Sys W) :=
  when_not_paused s (process_swap_debt env s caller account_id existing_debt amount new_debt swap).

Definition swap_collateral (s : Sys W) (caller : Address) (account_id : Z)
    (current : HubAssetKey) (amount : Z) (new : HubAssetKey) (swap : StrategySwap)
    : res (Sys W) :=
  when_not_paused s (process_swap_collateral env s caller account_id current amount new swap).

Definition repay_debt_with_collateral (s : Sys W) (caller : Address) (account_id : Z)
    (collateral : HubAssetKey) (collateral_amount : Z) (debt : HubAssetKey)
    (swap : StrategySwap) (close_position : bool) : res (Sys W) :=
  when_not_paused s (process_repay_debt_with_collateral env s caller account_id collateral
    collateral_amount debt swap close_position).

Definition migrate_from_blend (s : Sys W) (caller : Address) (account_id spoke_id hub_id : Z)
    (blend_pool : Address) (collateral_assets supply_assets : list Address)
    (debt_caps : list (Address * Z)) : res (Z * Sys W) :=
  when_not_paused s (process_migrate_blend env s caller
    {| mb_account_id := account_id; mb_spoke_id := spoke_id; mb_hub_id := hub_id;
       mb_blend_pool := blend_pool; mb_collateral_assets := collateral_assets;
       mb_supply_assets := supply_assets; mb_debt_caps := debt_caps |}).

(** ** Markets, thresholds and delegates *)

Definition update_indexes (s : Sys W) (caller : Address) (assets : list HubAssetKey)
    : res (Sys W) := when_not_paused s (Config.update_indexes env s caller assets).

Definition claim_revenue (s : Sys W) (caller : Address) (assets : list HubAssetKey)
    : res (list Z * Sys W) := when_not_paused s (Config.claim_revenue env s caller assets).

Definition update_account_threshold (s : Sys W) (caller : Address) (has_risks : bool)
    (account_ids : list Z) : res (Sys W) :=
  when_not_paused s (Thresholds.update_account_threshold env s caller has_risks account_ids).

Definition recapitalize (s : Sys W) (payer : Address) (h : HubAssetKey) (amount : Z)
    : res (Z * Sys W) := Config.recapitalize env s payer h amount.

Definition renew_account (s : Sys W) (caller : Address) (account_id : Z) : res (Sys W) :=
  do! Ctx.require_auth env caller in
  do! Acct.require_account_owner s account_id caller in
  let* nft := Store.get_position_nft (sy_ctl s) in
  do! require (account_id <=? u32_max) (EGeneric AccountNotFound) in
  let* w := nft_renew (sy_host s) nft account_id in
  Ok (with_host s w).

Definition add_delegate (s : Sys W) (caller : Address) (account_id : Z) (delegate : Address)
    : res (Sys W) := when_not_paused s (Acct.add_delegate env s caller account_id delegate).

Definition remove_delegate (s : Sys W) (caller : Address) (account_id : Z) (delegate : Address)
    : res (Sys W) := Acct.remove_delegate env s caller account_id delegate.

(** ** Owner *)

Definition set_swap_aggregator (s : Sys W) (a : Address) : res (Sys W) :=
  owner_write s (fun c => Ok (Config.set_swap_aggregator c a)).
Definition set_price_aggregator (s : Sys W) (a : Address) : res (Sys W) :=
  owner_write s (fun c => Ok (Config.set_price_aggregator c a)).
Definition set_accumulator (s : Sys W) (a : Address) : res (Sys W) :=
  owner_write s (fun c => Ok (Config.set_accumulator c a)).
Definition set_position_limits (s : Sys W) (limits : Risk.PositionLimits) : res (Sys W) :=
  owner_write s (fun c => Config.set_position_limits c limits).
Definition set_min_borrow_collateral_usd (s : Sys W) (floor_wad : Z) : res (Sys W) :=
  owner_write s (fun c => Config.set_min_borrow_collateral_usd c floor_wad).
Definition set_position_manager (s : Sys W) (manager : Address) (is_active : bool)
    : res (Sys W) :=
  owner_write s (fun c =>
    Ok (Config.set_position_manager c manager (mkPositionManagerConfig is_active))).
Definition approve_blend_pool (s : Sys W) (pool : Address) : res (Sys W) :=
  owner_write s (fun c => Ok (Config.set_blend_pool_approval c pool true)).
Definition revoke_blend_pool (s : Sys W) (pool : Address) : res (Sys W) :=
  owner_write s (fun c => Ok (Config.set_blend_pool_approval c pool false)).

Definition create_hub (s : Sys W) : res (Z * Sys W) :=
  only_owner s (let* (id, c) := Config.create_hub (sy_ctl s) in Ok (id, with_ctl s c)).
Definition add_spoke (s : Sys W) : res (Z * Sys W) :=
  only_owner s (let* (id, c) := Config.add_spoke (sy_ctl s) in Ok (id, with_ctl s c)).
Definition remove_spoke (s : Sys W) (id : Z) : res (Sys W) :=
  owner_write s (fun c => Config.remove_spoke c id).
Definition set_spoke_liquidation_curve (s : Sys W)
    (id target_hf_wad hf_for_max_bonus_wad liquidation_bonus_factor_bps : Z) : res (Sys W) :=
  owner_write s (fun c => Config.set_spoke_liquidation_curve c id target_hf_wad
    hf_for_max_bonus_wad liquidation_bonus_factor_bps).

Definition add_asset_to_spoke (s : Sys W) (input : SpokeAssetArgs) : res (Sys W) :=
  owner_write s (fun c => Config.add_asset_to_spoke (sy_pool s) c input).
Definition edit_asset_in_spoke (s : Sys W) (input : SpokeAssetArgs) : res (Sys W) :=
  owner_write s (fun c => Config.edit_asset_in_spoke (sy_pool s) c input).
Definition set_spoke_asset_flags (s : Sys W) (spoke_id : Z) (h : HubAssetKey)
    (paused frozen no_seize : bool) : res (Sys W) :=
  owner_write s (fun c => Config.set_spoke_asset_flags c spoke_id h paused frozen no_seize).
Definition relax_spoke_asset_flags (s : Sys W) (spoke_id : Z) (h : HubAssetKey)
    (expected_epoch : Z) (paused frozen no_seize : bool) : res (Sys W) :=
  owner_write s (fun c =>
    Config.relax_spoke_asset_flags c spoke_id h expected_epoch paused frozen no_seize).
Definition remove_asset_from_spoke (s : Sys W) (h : HubAssetKey) (spoke_id : Z) : res (Sys W) :=
  owner_write s (fun c => Config.remove_asset_from_spoke c h spoke_id).

(** [markets::deploy_pool]: the pool's storage is the pool constructor's until its address
    is recorded, since no call reaches the pool before. *)
Definition POOL_DEPLOY_SALT : list N := repeat 0%N 32.
Definition POSITION_NFT_DEPLOY_SALT : list N := repeat 1%N 32.

Definition deploy_pool (s : Sys W) (wasm_hash : list N) : res (Address * Sys W) :=
  only_owner s
    (do! require (match i_pool (c_instance (sy_ctl s)) with None => true | _ => false end)
           (EGeneric PoolAlreadyDeployed) in
     let* (pool, w) := deploy_contract (sy_host s) (current_contract_address env)
                         POOL_DEPLOY_SALT wasm_hash (PoolArgs (current_contract_address env)) in
     Ok (pool, mkSys (on_instance (sy_ctl s) (fun i => set_i_pool i (Some pool))) (sy_pool s) w)).

Definition deploy_position_nft (s : Sys W) (wasm_hash uri name symbol : list N)
    : res (Address * Sys W) :=
  only_owner s
    (do! require (match i_position_nft (c_instance (sy_ctl s)) with None => true | _ => false end)
           (EGeneric PositionNftAlreadyDeployed) in
     let* (nft, w) := deploy_contract (sy_host s) (current_contract_address env)
                        POSITION_NFT_DEPLOY_SALT wasm_hash
                        (PositionNftArgs (current_contract_address env) uri name symbol) in
     Ok (nft, mkSys (on_instance (sy_ctl s) (fun i => set_i_position_nft i (Some nft)))
                (sy_pool s) w)).

Definition create_liquidity_pool (s : Sys W) (hub : Z) (token : Address)
    (params : MarketParamsRaw) : res (Address * Sys W) :=
  only_owner s (Config.create_liquidity_pool env s hub token params).
Definition upgrade_liquidity_pool_params (s : Sys W) (h : HubAssetKey)
    (params : InterestRateModel) : res (Sys W) :=
  only_owner s (Config.upgrade_liquidity_pool_params env s h params).
Definition force_socialize_bad_debt (s : Sys W) (account_id : Z) : res (Sys W) :=
  only_owner s (process_force_socialize_bad_debt env s account_id).

Definition pause (s : Sys W) : res (Sys W) := owner_write s Config.pause.
Definition unpause (s : Sys W) : res (Sys W) := owner_write s Config.unpause.
Definition migrate (s : Sys W) (new_version : Z) : res (Sys W) :=
  owner_write s (fun c => Config.migrate c new_version).

(** [__constructor], with the pool's storage before deployment. *)
Definition constructor (admin : Address) (w : W) : res (Sys W) :=
  let* c := init admin in
  Ok (mkSys c (LiquidityPool.constructor (current_contract_address env)) w).

(** ** The interface as data *)

Inductive Call : Type :=
| Supply (caller : Address) (account_id spoke_id : Z) (assets : list HubPayment)
| Borrow (caller : Address) (account_id : Z) (borrows : list HubPayment) (to : option Address)
| Withdraw (caller : Address) (account_id : Z) (withdrawals : list HubPayment)
    (to : option Address)
| Repay (caller : Address) (account_id : Z) (payments : list HubPayment)
| Liquidate (liquidator : Address) (account_id : Z) (debt_payments : list HubPayment)
    (seize_mode : SeizeMode)
| CleanBadDebt (caller : Address) (account_id : Z)
| FlashLoan (caller : Address) (h : HubAssetKey) (amount : Z) (receiver : Address) (data : list N)
| FlashPosition (caller : Address) (account_id spoke_id : Z) (mode : PositionMode)
    (debt : HubAssetKey) (amount : Z) (receiver : Address) (data : list N)
    (collaterals : list HubPayment) (refund_assets : list Address)
| CallMultiply (caller : Address) (account_id spoke_id : Z) (collateral : HubAssetKey)
    (debt_to_flash_loan : Z) (debt : HubAssetKey) (mode : PositionMode) (swap : StrategySwap)
    (initial_payment : option HubPayment) (convert_swap : option StrategySwap)
| SwapDebt (caller : Address) (account_id : Z) (existing_debt : HubAssetKey) (amount : Z)
    (new_debt : HubAssetKey) (swap : StrategySwap)
| SwapCollateral (caller : Address) (account_id : Z) (current : HubAssetKey) (amount : Z)
    (new : HubAssetKey) (swap : StrategySwap)
| RepayDebtWithCollateral (caller : Address) (account_id : Z) (collateral : HubAssetKey)
    (collateral_amount : Z) (debt : HubAssetKey) (swap : StrategySwap) (close_position : bool)
| MigrateFromBlend (caller : Address) (account_id spoke_id hub_id : Z) (blend_pool : Address)
    (collateral_assets supply_assets : list Address) (debt_caps : list (Address * Z))
| UpdateIndexes (caller : Address) (assets : list HubAssetKey)
| ClaimRevenue (caller : Address) (assets : list HubAssetKey)
| UpdateAccountThreshold (caller : Address) (has_risks : bool) (account_ids : list Z)
| Recapitalize (payer : Address) (h : HubAssetKey) (amount : Z)
| RenewAccount (caller : Address) (account_id : Z)
| AddDelegate (caller : Address) (account_id : Z) (delegate : Address)
| RemoveDelegate (caller : Address) (account_id : Z) (delegate : Address)
| SetSwapAggregator (a : Address)
| SetPriceAggregator (a : Address)
| SetAccumulator (a : Address)
| SetPositionLimits (limits : Risk.PositionLimits)
| SetMinBorrowCollateralUsd (floor_wad : Z)
| SetPositionManager (manager : Address) (is_active : bool)
| ApproveBlendPool (pool : Address)
| RevokeBlendPool (pool : Address)
| CreateHub
| AddSpoke
| RemoveSpoke (id : Z)
| SetSpokeLiquidationCurve (id target_hf_wad hf_for_max_bonus_wad bonus_factor_bps : Z)
| AddAssetToSpoke (input : SpokeAssetArgs)
| EditAssetInSpoke (input : SpokeAssetArgs)
| SetSpokeAssetFlags (spoke_id : Z) (h : HubAssetKey) (paused frozen no_seize : bool)
| RelaxSpokeAssetFlags (spoke_id : Z) (h : HubAssetKey) (expected_epoch : Z)
    (paused frozen no_seize : bool)
| RemoveAssetFromSpoke (h : HubAssetKey) (spoke_id : Z)
| DeployPool (wasm_hash : list N)
| DeployPositionNft (wasm_hash uri name symbol : list N)
| CreateLiquidityPool (hub : Z) (token : Address) (params : MarketParamsRaw)
| UpgradeLiquidityPoolParams (h : HubAssetKey) (params : InterestRateModel)
| ForceSocializeBadDebt (account_id : Z)
| Pause
| Unpause
| Migrate (new_version : Z).

(** State after a call, its return value dropped. *)
Definition drop {R : Type} (r : res (R * Sys W)) : res (Sys W) := let* (_, s) := r in Ok s.

Definition dispatch (s : Sys W) (c : Call) : res (Sys W) :=
  match c with
  | Supply caller id spoke l => drop (supply s caller id spoke l)
  | Borrow caller id l to => borrow s caller id l to
  | Withdraw caller id l to => drop (withdraw s caller id l to)
  | Repay caller id l => repay s caller id l
  | Liquidate liq id l mode => drop (liquidate s liq id l mode)
  | CleanBadDebt caller id => clean_bad_debt s caller id
  | FlashLoan caller h x r d => flash_loan s caller h x r d
  | FlashPosition caller id spoke mode debt x r d cs rs =>
      drop (flash_position s caller id spoke mode debt x r d cs rs)
  | CallMultiply caller id spoke ch x dh mode sw ip cs =>
      drop (multiply s caller id spoke ch x dh mode sw ip cs)
  | SwapDebt caller id h x h' sw => swap_debt s caller id h x h' sw
  | SwapCollateral caller id h x h' sw => swap_collateral s caller id h x h' sw
  | RepayDebtWithCollateral caller id h x h' sw close =>
      repay_debt_with_collateral s caller id h x h' sw close
  | MigrateFromBlend caller id spoke hub pool cs ss ds =>
      drop (migrate_from_blend s caller id spoke hub pool cs ss ds)
  | UpdateIndexes caller l => update_indexes s caller l
  | ClaimRevenue caller l => drop (claim_revenue s caller l)
  | UpdateAccountThreshold caller risks ids => update_account_threshold s caller risks ids
  | Recapitalize payer h x => drop (recapitalize s payer h x)
  | RenewAccount caller id => renew_account s caller id
  | AddDelegate caller id d => add_delegate s caller id d
  | RemoveDelegate caller id d => remove_delegate s caller id d
  | SetSwapAggregator a => set_swap_aggregator s a
  | SetPriceAggregator a => set_price_aggregator s a
  | SetAccumulator a => set_accumulator s a
  | SetPositionLimits l => set_position_limits s l
  | SetMinBorrowCollateralUsd x => set_min_borrow_collateral_usd s x
  | SetPositionManager m b => set_position_manager s m b
  | ApproveBlendPool p => approve_blend_pool s p
  | RevokeBlendPool p => revoke_blend_pool s p
  | CreateHub => drop (create_hub s)
  | AddSpoke => drop (add_spoke s)
  | RemoveSpoke id => remove_spoke s id
  | SetSpokeLiquidationCurve id x y z => set_spoke_liquidation_curve s id x y z
  | AddAssetToSpoke x => add_asset_to_spoke s x
  | EditAssetInSpoke x => edit_asset_in_spoke s x
  | SetSpokeAssetFlags sp h x y z => set_spoke_asset_flags s sp h x y z
  | RelaxSpokeAssetFlags sp h e x y z => relax_spoke_asset_flags s sp h e x y z
  | RemoveAssetFromSpoke h sp => remove_asset_from_spoke s h sp
  | DeployPool hash => drop (deploy_pool s hash)
  | DeployPositionNft hash uri name symbol => drop (deploy_position_nft s hash uri name symbol)
  | CreateLiquidityPool hub token p => drop (create_liquidity_pool s hub token p)
  | UpgradeLiquidityPoolParams h p => upgrade_liquidity_pool_params s h p
  | ForceSocializeBadDebt id => force_socialize_bad_debt s id
  | Pause => pause s
  | Unpause => unpause s
  | Migrate v => migrate s v
  end.

(** [u32] arguments the storage keeps. *)
Definition call_typed (c : Call) : Prop :=
  match c with
  | AddAssetToSpoke x | EditAssetInSpoke x => args_typed x
  | CreateLiquidityPool _ _ p => raw_params_typed p
  | UpgradeLiquidityPoolParams _ m =>
      0 <= irm_reserve_factor m <= u32_max /\ 0 <= irm_flashloan_fee m <= u32_max
  | _ => True
  end.

End Entry.

End Entry.
