(* ===== verification/GovOps.v ===== *)
(** * Data and libraries of governance
    (interfaces/governance/src/lib.rs, contracts/governance/src/constants.rs, storage.rs)

    Admin operations, the encoded calls they become, the contract's own storage, and the
    interfaces of what it calls: the access library ([AccessLib]), the timelock library
    ([TimelockLib]) and the rest of the ledger ([GovHost]). *)

From S2P Require Import Prelude Errors FpCore Fp PoolTypes PoolCache ControllerTypes Risk OracleMath AggState AggContract CtlState CtlConfig.
From stdpp Require Import base numbers list gmap strings.
From Stdlib Require Import ZArith Lia Bool.

Open Scope Z_scope.

Module Gov.

Import Config.

(** ** Admin operations (interfaces/governance/src/lib.rs) *)

(** [BytesN<32>] *)
Abbreviation Hash := (list N).
Abbreviation Symbol := string.

Record RemoveAssetFromSpokeArgs : Type := mkRemoveAssetFromSpokeArgs {
  ra_hub_asset : HubAssetKey;
  ra_spoke_id : Z
}.

Record RelaxSpokeAssetFlagsArgs : Type := mkRelaxSpokeAssetFlagsArgs {
  rx_spoke_id : Z;
  rx_hub_asset : HubAssetKey;
  rx_expected_epoch : Z;
  rx_paused : bool;
  rx_frozen : bool;
  rx_no_seize : bool
}.

Record CreatePoolArgs : Type := mkCreatePoolArgs {
  cp_hub_id : Z;
  cp_asset : Address;
  cp_params : MarketParamsRaw
}.

Record UpgradePoolParamsArgs : Type := mkUpgradePoolParamsArgs {
  up_hub_asset : HubAssetKey;
  up_params : InterestRateModel
}.

Record DeployPositionNftArgs : Type := mkDeployPositionNftArgs {
  dn_wasm_hash : Hash;
  dn_uri : list N;
  dn_name : list N;
  dn_symbol : list N
}.

Record TransferOwnershipArgs : Type := mkTransferOwnershipArgs {
  to_new_owner : Address;
  to_live_until_ledger : Z
}.

Record ConfigureAssetOracleArgs : Type := mkConfigureAssetOracleArgs {
  co_key : PriceKey;
  co_oracle : AssetOracle
}.

Record EditToleranceArgs : Type := mkEditToleranceArgs {
  et_key : PriceKey;
  et_tolerance : Z
}.

Record SpokeLiquidationCurveArgs : Type := mkSpokeLiquidationCurveArgs {
  lc_spoke_id : Z;
  lc_target_hf_wad : Z;
  lc_hf_for_max_bonus_wad : Z;
  lc_liquidation_bonus_factor_bps : Z
}.

Record RoleArgs : Type := mkRoleArgs {
  ro_account : Address;
  ro_role : Symbol
}.

Inductive AdminOperation : Type :=
| SetSwapAggregator (a : Address)
| SetPriceAggregator (a : Address)
| SetAccumulator (a : Address)
| SetPositionLimits (limits : Risk.PositionLimits)
| SetMinBorrowCollateralUsd (floor_wad : Z)
| CreateHub
| AddSpoke
| RemoveSpoke (id : Z)
| AddAssetToSpoke (args : SpokeAssetArgs)
| EditAssetInSpoke (args : SpokeAssetArgs)
| RemoveAssetFromSpoke (args : RemoveAssetFromSpokeArgs)
| ApproveBlendPool (pool : Address)
| RevokeBlendPool (pool : Address)
| CreateLiquidityPool (args : CreatePoolArgs)
| UpgradeLiquidityPoolParams (args : UpgradePoolParamsArgs)
| DeployPool (hash : Hash)
| DeployPositionNft (args : DeployPositionNftArgs)
| UpgradePool (hash : Hash)
| UpgradePositionNft (hash : Hash)
| UpgradePriceAggregator (hash : Hash)
| SetPositionManager (manager : Address) (is_active : bool)
| UpgradeController (hash : Hash)
| MigrateController (version : Z)
| TransferCtrlOwnership (args : TransferOwnershipArgs)
| EditOracleTolerance (args : EditToleranceArgs)
| SetSpokeLiquidationCurve (args : SpokeLiquidationCurveArgs)
| ForceSocializeBadDebt (account_id : Z)
| Unpause
| UpgradeGov (hash : Hash)
| UpdateGovDelay (new_delay : Z)
| GrantGovRole (args : RoleArgs)
| RevokeGovRole (args : RoleArgs)
| TransferGovOwnership (args : TransferOwnershipArgs)
| ConfigureAssetOracle (args : ConfigureAssetOracleArgs)
| RelaxSpokeAssetFlags (args : RelaxSpokeAssetFlagsArgs).

(** ** Encoded calls

    [Val], one constructor per type that [into_val] encodes. *)

Inductive Val : Type :=
| VVoid
| VAddress (a : Address)
| VU32 (n : Z)
| VU64 (n : Z)
| VI128 (n : Z)
| VBool (b : bool)
| VHash (h : Hash)
| VString (s : list N)
| VSymbol (s : Symbol)
| VAddresses (l : list Address)
| VPositionLimits (l : Risk.PositionLimits)
| VSpokeAssetArgs (args : SpokeAssetArgs)
| VHubAssetKey (h : HubAssetKey)
| VMarketParams (p : MarketParamsRaw)
| VRateModel (m : InterestRateModel)
| VPriceKey (k : PriceKey)
| VAssetOracle (o : AssetOracle)
| VTolerance (t : OracleTolerance).

(** [stellar_governance::timelock::Operation], as the contract fills it. *)
Record Operation : Type := mkOperation {
  op_target : Address;
  op_function : Symbol;
  op_args : list Val;
  op_predecessor : Hash;
  op_salt : Hash
}.

Record GovEnv : Type := mkGovEnv {
  ledger_sequence : Z;
  gov_address : Address;
  gov_authorized : Address -> bool
}.

(** ** Libraries *)

(** [stellar_access]: the owner, the admin, their pending successors, and roles.  The members
    of a role are listed by [get_role_member]. *)
Class AccessLib : Type := {
  Access : Type;
  no_access : Access;
  get_owner : Access -> option Address;
  set_owner : Access -> Address -> res Access;
  get_admin : Access -> option Address;
  set_admin : Access -> Address -> res Access;
  put_admin : Access -> Address -> Access;
  drop_pending_admin : Access -> Access;
  transfer_owner_role : GovEnv -> Access -> Address -> Z -> res Access;
  transfer_admin_role : GovEnv -> Access -> Address -> Z -> res Access;
  lib_accept_ownership : GovEnv -> Access -> res Access;
  role_members : Access -> Symbol -> list Address;
  grant_role_no_auth : Access -> Address -> Symbol -> Access;
  revoke_role_no_auth : Access -> Address -> Symbol -> res Access
}.

(** What the library documents.  Granting adds one member, revoking removes a member and
    moves at most later ones; ownership passes to the pending owner who authorises it. *)
Class AccessLaws `{AccessLib} : Prop := {
  al_empty : get_owner no_access = None /\ forall r, role_members no_access r = [];
  al_set_owner : forall l a l', set_owner l a = Ok l' ->
    get_owner l' = Some a /\ forall r, role_members l' r = role_members l r;
  al_admin : forall l a l', set_admin l a = Ok l' ->
    get_owner l' = get_owner l /\ forall r, role_members l' r = role_members l r;
  al_put_admin : forall l a, get_owner (put_admin l a) = get_owner l
    /\ forall r, role_members (put_admin l a) r = role_members l r;
  al_drop_pending : forall l, get_owner (drop_pending_admin l) = get_owner l
    /\ forall r, role_members (drop_pending_admin l) r = role_members l r;
  al_transfer_owner : forall env l a n l', transfer_owner_role env l a n = Ok l' ->
    get_owner l' = get_owner l /\ forall r, role_members l' r = role_members l r;
  al_transfer_admin : forall env l a n l', transfer_admin_role env l a n = Ok l' ->
    get_owner l' = get_owner l /\ forall r, role_members l' r = role_members l r;
  al_accept : forall env l l', lib_accept_ownership env l = Ok l' ->
    (exists a, get_owner l' = Some a /\ gov_authorized env a = true)
    /\ forall r, role_members l' r = role_members l r;
  al_nodup : forall l r, NoDup (role_members l r);
  al_grant : forall l a r, get_owner (grant_role_no_auth l a r) = get_owner l
    /\ forall x r', x ∈ role_members (grant_role_no_auth l a r) r' <->
         x ∈ role_members l r' \/ (x = a /\ r' = r);
  al_revoke : forall l a r l', revoke_role_no_auth l a r = Ok l' ->
    a ∈ role_members l r /\ get_owner l' = get_owner l
    /\ (forall x r', x ∈ role_members l' r' <-> x ∈ role_members l r' /\ ~ (x = a /\ r' = r))
    /\ forall i j, role_members l r !! i = Some a -> (j < i)%nat ->
         role_members l' r !! j = role_members l r !! j;
  al_revoke_held : forall l a r, a ∈ role_members l r -> exists l', revoke_role_no_auth l a r = Ok l'
}.

(** [stellar_governance::timelock]: the minimum delay and the ready ledger of each operation
    id, 0 when unset and 1 when done. *)
Class TimelockLib : Type := {
  Timelock : Type;
  no_timelock : Timelock;
  hash_operation : Operation -> Hash;
  get_min_delay : Timelock -> option Z;
  set_min_delay : Timelock -> Z -> Timelock;
  get_operation_ledger : Timelock -> Hash -> Z;
  schedule_operation : GovEnv -> Timelock -> Operation -> Z -> res Timelock;
  set_execute_operation : GovEnv -> Timelock -> Operation -> res Timelock;
  cancel_operation : GovEnv -> Timelock -> Hash -> res Timelock;
  remove_operation_ledger : Timelock -> Hash -> Timelock
}.

Definition UNSET_LEDGER : Z := 0.
Definition DONE_LEDGER : Z := 1.

(** What the library documents: an unset operation is scheduled for the current ledger plus a
    delay of at least the minimum; an operation becomes executable at its ready ledger, and is
    then done; only a pending one is cancelled. *)
Class TimelockLaws `{TimelockLib} : Prop := {
  tl_empty : get_min_delay no_timelock = None /\ forall id, get_operation_ledger no_timelock id = UNSET_LEDGER;
  tl_set_delay : forall t n, get_min_delay (set_min_delay t n) = Some n
    /\ forall id, get_operation_ledger (set_min_delay t n) id = get_operation_ledger t id;
  tl_schedule : forall env t o d t', schedule_operation env t o d = Ok t' ->
    get_operation_ledger t (hash_operation o) = UNSET_LEDGER
    /\ (exists m, get_min_delay t = Some m /\ m <= d)
    /\ get_min_delay t' = get_min_delay t
    /\ forall id, get_operation_ledger t' id =
         if decide (id = hash_operation o) then ledger_sequence env + d else get_operation_ledger t id;
  tl_execute : forall env t o t', set_execute_operation env t o = Ok t' ->
    DONE_LEDGER < get_operation_ledger t (hash_operation o) <= ledger_sequence env
    /\ get_min_delay t' = get_min_delay t
    /\ forall id, get_operation_ledger t' id =
         if decide (id = hash_operation o) then DONE_LEDGER else get_operation_ledger t id;
  tl_cancel : forall env t id t', cancel_operation env t id = Ok t' ->
    DONE_LEDGER < get_operation_ledger t id /\ get_min_delay t' = get_min_delay t
    /\ forall j, get_operation_ledger t' j = if decide (j = id) then UNSET_LEDGER else get_operation_ledger t j;
  tl_remove : forall t id, get_min_delay (remove_operation_ledger t id) = get_min_delay t
    /\ forall j, get_operation_ledger (remove_operation_ledger t id) j =
         if decide (j = id) then UNSET_LEDGER else get_operation_ledger t j
}.

(** The rest of the ledger: contract calls and creation, code, and the reads of validation. *)
Class GovHost (W : Type) : Type := {
  invoke : W -> Address -> Symbol -> list Val -> res (Val * W);
  is_wasm_contract : W -> Address -> bool;
  token_decimals_of : W -> Address -> option Z;
  token_has_symbol : W -> Address -> bool;
  listed_oracle : W -> Address -> PriceKey -> res (option AssetOracle);
  flags_epoch : W -> Address -> Z -> HubAssetKey -> res Z;
  deploy_contract : W -> Hash -> Hash -> list Val -> res (Address * W);
  update_code : W -> Hash -> W
}.

(** ** Constants (constants.rs) *)

Definition TIMELOCK_MIN_DELAY_LEDGERS : Z := 34560.
Definition TIMELOCK_MAX_DELAY_LEDGERS : Z := 241920.
Definition TIMELOCK_SENSITIVE_MIN_DELAY_LEDGERS : Z := 12.
Definition TIMELOCK_OPERATION_GRACE_LEDGERS : Z := 120960.
Definition TIMELOCK_RECOVERY_MIN_DELAY_LEDGERS : Z := 518400.

(** ** Storage (storage.rs) *)

Inductive GovEvent : Type :=
| DeployControllerEvent (controller : Address) (wasm_hash : Hash)
| DeployPriceAggregatorEvent (price_aggregator : Address) (wasm_hash : Hash).

Section Storage.

Context `{AccessLib} `{TimelockLib} {W : Type}.

(** The contract's rows, its libraries' rows, and the rest of the ledger. *)
Record Governance : Type := mkGovernance {
  g_access : Access;
  g_timelock : Timelock;
  g_controller : option Address;
  g_price_aggregator : option Address;
  g_revocation_targets : gmap Hash Address;
  g_recovery_ops : gmap Hash bool;
  g_events : list GovEvent;
  g_world : W
}.

Definition with_access (g : Governance) (a : Access) : Governance :=
  mkGovernance a (g_timelock g) (g_controller g) (g_price_aggregator g) (g_revocation_targets g)
    (g_recovery_ops g) (g_events g) (g_world g).
Definition with_timelock (g : Governance) (t : Timelock) : Governance :=
  mkGovernance (g_access g) t (g_controller g) (g_price_aggregator g) (g_revocation_targets g)
    (g_recovery_ops g) (g_events g) (g_world g).
Definition with_world (g : Governance) (w : W) : Governance :=
  mkGovernance (g_access g) (g_timelock g) (g_controller g) (g_price_aggregator g)
    (g_revocation_targets g) (g_recovery_ops g) (g_events g) w.
Definition with_sidecars (g : Governance) (rt : gmap Hash Address) (rec : gmap Hash bool) : Governance :=
  mkGovernance (g_access g) (g_timelock g) (g_controller g) (g_price_aggregator g) rt rec (g_events g)
    (g_world g).
Definition with_contracts (g : Governance) (c p : option Address) : Governance :=
  mkGovernance (g_access g) (g_timelock g) c p (g_revocation_targets g) (g_recovery_ops g) (g_events g)
    (g_world g).
Definition publish (g : Governance) (e : GovEvent) : Governance :=
  mkGovernance (g_access g) (g_timelock g) (g_controller g) (g_price_aggregator g)
    (g_revocation_targets g) (g_recovery_ops g) (g_events g ++ [e]) (g_world g).

Definition mark_role_revocation_target (g : Governance) (id : Hash) (account : Address) : Governance :=
  with_sidecars g (<[id := account]> (g_revocation_targets g)) (g_recovery_ops g).
Definition mark_recovery_op (g : Governance) (id : Hash) : Governance :=
  with_sidecars g (g_revocation_targets g) (<[id := true]> (g_recovery_ops g)).
Definition clear_operation_sidecars (g : Governance) (id : Hash) : Governance :=
  with_sidecars g (delete id (g_revocation_targets g)) (delete id (g_recovery_ops g)).
Definition role_revocation_target (g : Governance) (id : Hash) : option Address :=
  g_revocation_targets g !! id.
Definition is_recovery_op (g : Governance) (id : Hash) : bool := default false (g_recovery_ops g !! id).

Definition has_controller (g : Governance) : bool :=
  match g_controller g with Some _ => true | None => false end.
Definition get_controller (g : Governance) : res Address :=
  of_option (EGeneric PoolNotInitialized) (g_controller g).
Definition set_controller (g : Governance) (a : Address) : Governance :=
  with_contracts g (Some a) (g_price_aggregator g).
Definition has_price_aggregator (g : Governance) : bool :=
  match g_price_aggregator g with Some _ => true | None => false end.
Definition get_price_aggregator (g : Governance) : res Address :=
  of_option (EGeneric AggregatorNotSet) (g_price_aggregator g).
Definition set_price_aggregator (g : Governance) (a : Address) : Governance :=
  with_contracts g (g_controller g) (Some a).

End Storage.

Arguments Governance {_ _} W.

End Gov.

(** ** Governance operations: roles, validation and resolution
    (contracts/governance/src/access.rs, validate/, op.rs, the delay rules of timelock/mod.rs) *)

Module GovOps.

Import Config Validation Gov.

Section GovOps.

Context `{HA : AccessLib} `{HT : TimelockLib} {W : Type} `{HW : !GovHost W}.

Implicit Types g : Governance W.

(** ** Roles (access.rs) *)

Definition ORACLE_ROLE : Symbol := "ORACLE".
Definition PROPOSER_ROLE : Symbol := "PROPOSER".
Definition EXECUTOR_ROLE : Symbol := "EXECUTOR".
Definition CANCELLER_ROLE : Symbol := "CANCELLER".
Definition GUARDIAN_ROLE : Symbol := "GUARDIAN".

Definition default_operational_roles : list Symbol :=
  [ORACLE_ROLE; PROPOSER_ROLE; EXECUTOR_ROLE; CANCELLER_ROLE; GUARDIAN_ROLE].

Definition require_known_governance_role (role : Symbol) : res unit :=
  require (bool_decide (role ∈ default_operational_roles)) (EGeneric InvalidRole).

(** [access_control::has_role], [ensure_role], [get_role_member_count], [get_role_member] *)
Definition has_role (g : Governance W) (account : Address) (role : Symbol) : bool :=
  bool_decide (account ∈ role_members (g_access g) role).
Definition ensure_role (g : Governance W) (role : Symbol) (account : Address) : res unit :=
  require (has_role g account role) HostTrap.
Definition get_role_member_count (g : Governance W) (role : Symbol) : nat :=
  length (role_members (g_access g) role).
Definition get_role_member (g : Governance W) (role : Symbol) (i : nat) : res Address :=
  of_option HostTrap (role_members (g_access g) role !! i).

Definition owner_or_panic (g : Governance W) : res Address :=
  of_option (EGeneric OwnerNotSet) (get_owner (g_access g)).

Definition grant (g : Governance W) (account : Address) (role : Symbol) : Governance W :=
  with_access g (grant_role_no_auth (g_access g) account role).
Definition revoke (g : Governance W) (account : Address) (role : Symbol) : res (Governance W) :=
  let* a := revoke_role_no_auth (g_access g) account role in Ok (with_access g a).

Definition sync_pending_admin_transfer (env : GovEnv) (g : Governance W) (new_owner : Address)
    (live_until_ledger : Z) : res (Governance W) :=
  let* a := (if live_until_ledger =? 0 then Ok (drop_pending_admin (g_access g))
             else transfer_admin_role env (g_access g) new_owner live_until_ledger) in
  let g := with_access g a in
  do! (match get_admin (g_access g) with
       | Some _ => Ok tt
       | None => let* _ := owner_or_panic g in Ok tt
       end) in
  Ok g.

Definition sync_owner_access_control (g : Governance W) (previous_owner new_owner : Address)
    : res (Governance W) :=
  let g := with_access g (drop_pending_admin (put_admin (g_access g) new_owner)) in
  rfold (fun g role =>
    let g := grant g new_owner role in
    if negb (bool_decide (previous_owner = new_owner)) && has_role g previous_owner role
    then revoke g previous_owner role
    else Ok g) g default_operational_roles.

Definition apply_upgrade (g : Governance W) (new_wasm_hash : Hash) : Governance W :=
  with_world g (update_code (g_world g) new_wasm_hash).

Definition apply_transfer_ownership (env : GovEnv) (g : Governance W) (new_owner : Address)
    (live_until_ledger : Z) : res (Governance W) :=
  do! owner_or_panic g in
  let* a := transfer_owner_role env (g_access g) new_owner live_until_ledger in
  sync_pending_admin_transfer env (with_access g a) new_owner live_until_ledger.

Definition require_executor_canceller_separation (g : Governance W) (owner account : Address)
    (role : Symbol) : res unit :=
  if bool_decide (account = owner) then Ok tt
  else if bool_decide (role = EXECUTOR_ROLE)
  then require (negb (has_role g account CANCELLER_ROLE)) (EGeneric InvalidRole)
  else if bool_decide (role = CANCELLER_ROLE)
  then require (negb (has_role g account EXECUTOR_ROLE)) (EGeneric InvalidRole)
  else Ok tt.

Definition apply_grant_role (g : Governance W) (account : Address) (role : Symbol) : res (Governance W) :=
  let* owner := owner_or_panic g in
  do! require_executor_canceller_separation g owner account role in
  Ok (grant g account role).

(** The loop of [apply_canceller_reset] from the highest index down. *)
Fixpoint revoke_cancellers (g : Governance W) (owner : Address) (count : nat) : res (Governance W) :=
  match count with
  | O => Ok g
  | S count =>
      let* holder := get_role_member g CANCELLER_ROLE count in
      let* g := (if bool_decide (holder = owner) then Ok g else revoke g holder CANCELLER_ROLE) in
      revoke_cancellers g owner count
  end.

Definition apply_canceller_reset (g : Governance W) (new_cancellers : list Address) : res (Governance W) :=
  let* owner := owner_or_panic g in
  let* g := revoke_cancellers g owner (get_role_member_count g CANCELLER_ROLE) in
  rfold (fun g account =>
    if negb (bool_decide (account = owner)) && negb (has_role g account CANCELLER_ROLE)
    then
      do! require_executor_canceller_separation g owner account CANCELLER_ROLE in
      Ok (grant g account CANCELLER_ROLE)
    else Ok g) g new_cancellers.

Definition apply_revoke_role (g : Governance W) (account : Address) (role : Symbol) : res (Governance W) :=
  do! require (has_role g account role) (EGeneric InvalidRole) in
  let* owner := owner_or_panic g in
  do! require (negb (bool_decide (account = owner))) (EGeneric NotAuthorized) in
  do! (if bool_decide (role = PROPOSER_ROLE)
       then require (1 <? get_role_member_count g role)%nat (EGeneric CannotRemoveLastProposer)
       else Ok tt) in
  revoke g account role.

Definition accept_ownership (env : GovEnv) (g : Governance W) : res (Governance W) :=
  let* previous_owner := owner_or_panic g in
  let* a := lib_accept_ownership env (g_access g) in
  let g := with_access g a in
  let* new_owner := owner_or_panic g in
  sync_owner_access_control g previous_owner new_owner.

(** ** Validation (validate/) *)

Definition require_contract_address (g : Governance W) (a : Address) (e : Error) : res unit :=
  require (is_wasm_contract (g_world g) a) e.

Definition require_nonzero_wasm_hash (hash : Hash) : res unit :=
  require (negb (bool_decide (hash = replicate 32 0%N))) (EGeneric InvalidWasmHash).

Definition validate_and_fetch_token_decimals (g : Governance W) (token : Address) : res Z :=
  let* d := of_option (EGeneric InvalidAsset) (token_decimals_of (g_world g) token) in
  do! require (token_has_symbol (g_world g) token) (EGeneric InvalidAsset) in
  Ok d.

Definition validate_position_limits (limits : Risk.PositionLimits) : res unit :=
  require (in_limit (Risk.max_supply_positions limits) && in_limit (Risk.max_borrow_positions limits))
    (EGeneric InvalidPositionLimits).

Definition listed_token_decimals (g : Governance W) (token : Address) (token_decimals : Z) : res Z :=
  if has_price_aggregator g then
    let* agg := get_price_aggregator g in
    let* o := listed_oracle (g_world g) agg (Token token) in
    Ok (match o with Some o => ao_asset_decimals o | None => token_decimals end)
  else Ok token_decimals.

Definition validate_market_creation (asset : Address) (params : MarketParamsRaw) (token_decimals : Z)
    : res unit :=
  do! require (bool_decide (rp_asset_id params = asset)) (EGeneric WrongToken) in
  do! require (rp_asset_decimals params =? token_decimals) (EGeneric InvalidAsset) in
  do! require ((OracleBounds.MIN_ASSET_DECIMALS <=? rp_asset_decimals params)
               && (rp_asset_decimals params <=? MAX_ASSET_DECIMALS)) (EGeneric InvalidAsset) in
  market_params_verify params.

Definition validate_spoke_cap_args (supply_cap borrow_cap : Z) : res unit :=
  require ((0 <=? supply_cap) && (0 <=? borrow_cap)) (ECollateral InvalidBorrowParams).

Definition bps_i128_to_u32 (v : Z) : res Z :=
  do! require ((0 <=? v) && (v <=? u32_max)) (EGeneric MathOverflow) in Ok v.

Definition calculate_tolerance_range (tolerance_bps : Z) : res (Z * Z) :=
  let* upper_bound := of_option (EGeneric MathOverflow) (i128_checked_add BPS tolerance_bps) in
  let* lower_bound := FpCore.mul_div_half_up BPS BPS upper_bound in
  Ok (upper_bound, lower_bound).

Definition validate_and_calculate_tolerances (tolerance : Z) : res OracleTolerance :=
  do! require ((MIN_TOLERANCE <=? tolerance) && (tolerance <=? MAX_TOLERANCE)) (EOracle BadLastTolerance) in
  let* (upper, lower) := calculate_tolerance_range tolerance in
  let* u := bps_i128_to_u32 upper in
  let* l := bps_i128_to_u32 lower in
  Ok (mkOracleTolerance u l).

(** ** Delays (timelock/mod.rs) *)

Inductive DelayTier : Type := Standard | Sensitive | Recovery.

(** [get_min_delay] panics when no delay is set. *)
Definition min_delay (g : Governance W) : res Z := of_option HostTrap (get_min_delay (g_timelock g)).

Definition operation_delay (g : Governance W) (tier : DelayTier) : res Z :=
  let* m := min_delay g in
  Ok (match tier with
      | Standard => m
      | Sensitive => Z.max m TIMELOCK_SENSITIVE_MIN_DELAY_LEDGERS
      | Recovery => Z.max m TIMELOCK_RECOVERY_MIN_DELAY_LEDGERS
      end).

Definition require_nonzero_delay (delay : Z) : res unit :=
  require (negb (delay =? 0)) (EGeneric InvalidTimelockDelay).

Definition validate_delay_update (g : Governance W) (new_delay : Z) : res unit :=
  do! require_nonzero_delay new_delay in
  let* current := min_delay g in
  require ((new_delay <=? TIMELOCK_MAX_DELAY_LEDGERS)
           && ((current <=? new_delay) || (TIMELOCK_MIN_DELAY_LEDGERS <=? new_delay)))
    (EGeneric InvalidTimelockDelay).

Definition apply_update_delay (g : Governance W) (new_delay : Z) : res (Governance W) :=
  do! validate_delay_update g new_delay in
  Ok (with_timelock g (set_min_delay (g_timelock g) new_delay)).

(** ** Resolution (op.rs) *)

Definition validate_spoke_asset (args : SpokeAssetArgs) : res unit :=
  do! validate_risk_bounds (aa_ltv args) (aa_threshold args) (aa_bonus args) in
  do! validate_liquidation_fees (aa_liquidation_fees args) in
  validate_spoke_cap_args (aa_supply_cap args) (aa_borrow_cap args).

Definition resolve_oracle (g : Governance W) (key : PriceKey) (oracle : AssetOracle) : res AssetOracle :=
  let* d := (match key with
             | Token asset =>
                 let* token_decimals := validate_and_fetch_token_decimals g asset in
                 listed_token_decimals g asset token_decimals
             | Ref _ => Ok 0
             end) in
  Ok (mkAssetOracle d (ao_max_price_stale_seconds oracle) (ao_sources oracle) (ao_tolerance oracle)
        (ao_independence oracle) (ao_min_sanity_price_wad oracle) (ao_max_sanity_price_wad oracle)).

Record ResolvedOperation : Type := mkResolvedOperation {
  rs_target : Address;
  rs_function : Symbol;
  rs_args : list Val;
  rs_delay_tier : DelayTier
}.

Definition controller_operation (g : Governance W) (function : Symbol) (args : list Val)
    : res ResolvedOperation :=
  let* target := get_controller g in
  Ok (mkResolvedOperation target function args Standard).

Definition sensitive_controller_operation (g : Governance W) (function : Symbol) (args : list Val)
    : res ResolvedOperation :=
  let* r := controller_operation g function args in
  Ok (mkResolvedOperation (rs_target r) (rs_function r) (rs_args r) Sensitive).

Definition price_aggregator_operation (g : Governance W) (function : Symbol) (args : list Val)
    : res ResolvedOperation :=
  let* target := get_price_aggregator g in
  Ok (mkResolvedOperation target function args Standard).

Definition sensitive_price_aggregator_operation (g : Governance W) (function : Symbol) (args : list Val)
    : res ResolvedOperation :=
  let* r := price_aggregator_operation g function args in
  Ok (mkResolvedOperation (rs_target r) (rs_function r) (rs_args r) Sensitive).

Definition self_operation (env : GovEnv) (function : Symbol) (args : list Val) (tier : DelayTier)
    : res ResolvedOperation :=
  Ok (mkResolvedOperation (gov_address env) function args tier).

End GovOps.

End GovOps.
