(* ===== verification/GovContract.v ===== *)
(** * The governance contract
    (contracts/governance/src/op.rs, timelock/, deploy.rs, access.rs, api.rs)

    Proposing, executing and cancelling timelocked operations, the immediate actions of
    guardians, and the entrypoints as values of [GovCall]. *)

From S2P Require Import Prelude Errors FpCore Fp PoolTypes PoolCache ControllerTypes Risk OracleMath AggState AggContract CtlState CtlConfig GovOps.
From stdpp Require Import base numbers list gmap strings.
From Stdlib Require Import ZArith Lia Bool.

Open Scope Z_scope.

Module GovContract.

Import Config Validation Gov GovOps.

Section Contract.

Context `{HA : AccessLib} `{HT : TimelockLib} {W : Type} `{HW : !GovHost W}.

(** ** Resolution (op.rs) *)

Definition resolve_op (env : GovEnv) (g : Governance W) (op : AdminOperation) : res ResolvedOperation :=
  match op with
  | UpgradeGov hash =>
      do! require_nonzero_wasm_hash hash in
      self_operation env "upgrade" [VHash hash] Sensitive
  | UpdateGovDelay new_delay =>
      do! validate_delay_update g new_delay in
      self_operation env "update_delay" [VU32 new_delay] Standard
  | GrantGovRole args =>
      do! require_known_governance_role (ro_role args) in
      self_operation env "grant_role" [VAddress (ro_account args); VSymbol (ro_role args)] Sensitive
  | RevokeGovRole args =>
      do! require_known_governance_role (ro_role args) in
      self_operation env "revoke_role" [VAddress (ro_account args); VSymbol (ro_role args)] Sensitive
  | TransferGovOwnership args =>
      self_operation env "transfer_ownership"
        [VAddress (to_new_owner args); VU32 (to_live_until_ledger args)] Sensitive
  | SetSwapAggregator addr =>
      do! require_contract_address g addr (EOracle InvalidAggregator) in
      sensitive_controller_operation g "set_swap_aggregator" [VAddress addr]
  | SetPriceAggregator addr =>
      do! require_contract_address g addr (EOracle InvalidAggregator) in
      self_operation env "set_price_aggregator" [VAddress addr] Sensitive
  | SetAccumulator addr => controller_operation g "set_accumulator" [VAddress addr]
  | SetPositionLimits limits =>
      do! validate_position_limits limits in
      controller_operation g "set_position_limits" [VPositionLimits limits]
  | SetMinBorrowCollateralUsd floor_wad =>
      do! require (0 <=? floor_wad) (ECollateral InvalidBorrowParams) in
      controller_operation g "set_min_borrow_collateral_usd" [VI128 floor_wad]
  | CreateHub => controller_operation g "create_hub" []
  | AddSpoke => controller_operation g "add_spoke" []
  | RemoveSpoke id => controller_operation g "remove_spoke" [VU32 id]
  | AddAssetToSpoke args =>
      do! validate_spoke_asset args in
      controller_operation g "add_asset_to_spoke" [VSpokeAssetArgs args]
  | EditAssetInSpoke args =>
      do! validate_spoke_asset args in
      controller_operation g "edit_asset_in_spoke" [VSpokeAssetArgs args]
  | RemoveAssetFromSpoke args =>
      controller_operation g "remove_asset_from_spoke" [VHubAssetKey (ra_hub_asset args); VU32 (ra_spoke_id args)]
  | RelaxSpokeAssetFlags args =>
      let* controller := get_controller g in
      let* epoch := flags_epoch (g_world g) controller (rx_spoke_id args) (rx_hub_asset args) in
      do! require (epoch =? rx_expected_epoch args) (ESpoke SpokeFlagsEpochMismatch) in
      controller_operation g "relax_spoke_asset_flags"
        [VU32 (rx_spoke_id args); VHubAssetKey (rx_hub_asset args); VU64 (rx_expected_epoch args);
         VBool (rx_paused args); VBool (rx_frozen args); VBool (rx_no_seize args)]
  | ApproveBlendPool pool =>
      do! require_contract_address g pool (EGeneric NotSmartContract) in
      controller_operation g "approve_blend_pool" [VAddress pool]
  | RevokeBlendPool pool =>
      do! require_contract_address g pool (EGeneric NotSmartContract) in
      controller_operation g "revoke_blend_pool" [VAddress pool]
  | CreateLiquidityPool args =>
      let* token_decimals := validate_and_fetch_token_decimals g (cp_asset args) in
      let* listed := listed_token_decimals g (cp_asset args) token_decimals in
      do! validate_market_creation (cp_asset args) (cp_params args) listed in
      controller_operation g "create_liquidity_pool"
        [VU32 (cp_hub_id args); VAddress (cp_asset args); VMarketParams (cp_params args)]
  | UpgradeLiquidityPoolParams args =>
      do! rate_model_verify (up_params args) in
      controller_operation g "upgrade_liquidity_pool_params"
        [VHubAssetKey (up_hub_asset args); VRateModel (up_params args)]
  | DeployPool hash =>
      do! require_nonzero_wasm_hash hash in
      controller_operation g "deploy_pool" [VHash hash]
  | DeployPositionNft args =>
      do! require_nonzero_wasm_hash (dn_wasm_hash args) in
      controller_operation g "deploy_position_nft"
        [VHash (dn_wasm_hash args); VString (dn_uri args); VString (dn_name args); VString (dn_symbol args)]
  | UpgradePool hash =>
      do! require_nonzero_wasm_hash hash in
      sensitive_controller_operation g "upgrade_pool" [VHash hash]
  | UpgradePositionNft hash =>
      do! require_nonzero_wasm_hash hash in
      sensitive_controller_operation g "upgrade_position_nft" [VHash hash]
  | UpgradePriceAggregator hash =>
      do! require_nonzero_wasm_hash hash in
      sensitive_price_aggregator_operation g "upgrade" [VHash hash]
  | SetPositionManager manager is_active =>
      sensitive_controller_operation g "set_position_manager" [VAddress manager; VBool is_active]
  | UpgradeController hash =>
      do! require_nonzero_wasm_hash hash in
      sensitive_controller_operation g "upgrade" [VHash hash]
  | MigrateController version => controller_operation g "migrate" [VU32 version]
  | TransferCtrlOwnership args =>
      do! require_contract_address g (to_new_owner args) (EGeneric NotSmartContract) in
      sensitive_controller_operation g "transfer_ownership"
        [VAddress (to_new_owner args); VU32 (to_live_until_ledger args)]
  | ConfigureAssetOracle args =>
      let* oracle := resolve_oracle g (co_key args) (co_oracle args) in
      price_aggregator_operation g "set_oracle" [VPriceKey (co_key args); VAssetOracle oracle]
  | EditOracleTolerance args =>
      let* tolerance := validate_and_calculate_tolerances (et_tolerance args) in
      price_aggregator_operation g "set_tolerance" [VPriceKey (et_key args); VTolerance tolerance]
  | Unpause => controller_operation g "unpause" []
  | ForceSocializeBadDebt account_id =>
      sensitive_controller_operation g "force_socialize_bad_debt" [VU64 account_id]
  | SetSpokeLiquidationCurve args =>
      do! validate_liquidation_curve (lc_target_hf_wad args) (lc_hf_for_max_bonus_wad args)
            (lc_liquidation_bonus_factor_bps args) in
      controller_operation g "set_spoke_liquidation_curve"
        [VU32 (lc_spoke_id args); VI128 (lc_target_hf_wad args); VI128 (lc_hf_for_max_bonus_wad args);
         VU32 (lc_liquidation_bonus_factor_bps args)]
  end.

(** A generated client: a contract call whose answer is decoded. *)
Definition call_contract (g : Governance W) (target : Address) (function : Symbol) (args : list Val)
    : res (Val * Governance W) :=
  let* (v, w) := invoke (g_world g) target function args in
  Ok (v, with_world g w).

Definition expect_u32 (v : Val) : res Z :=
  match v with VU32 n => Ok n | _ => Err HostTrap end.

Definition apply_self_op (env : GovEnv) (g : Governance W) (op : AdminOperation) : res (Governance W) :=
  match op with
  | UpgradeGov hash => Ok (apply_upgrade g hash)
  | UpdateGovDelay new_delay => apply_update_delay g new_delay
  | GrantGovRole args => apply_grant_role g (ro_account args) (ro_role args)
  | RevokeGovRole args => apply_revoke_role g (ro_account args) (ro_role args)
  | TransferGovOwnership args =>
      apply_transfer_ownership env g (to_new_owner args) (to_live_until_ledger args)
  | SetPriceAggregator addr =>
      do! require_contract_address g addr (EOracle InvalidAggregator) in
      let g := set_price_aggregator g addr in
      let* controller := get_controller g in
      let* (_, g) := call_contract g controller "set_price_aggregator" [VAddress addr] in
      Ok g
  | _ => Err (EGeneric InternalError)
  end.

(** ** The timelock (timelock/mod.rs) *)

Definition authorize_executor (env : GovEnv) (g : Governance W) (executor : option Address) : res unit :=
  match executor with
  | Some exec =>
      do! require (gov_authorized env exec) HostTrap in
      ensure_role g EXECUTOR_ROLE exec
  | None => Ok tt
  end.

Definition require_operation_not_expired (env : GovEnv) (g : Governance W) (operation_id : Hash) : res unit :=
  let ready_ledger := get_operation_ledger (g_timelock g) operation_id in
  if ready_ledger <=? 1 then Ok tt
  else
    let expires_at := Z.min (ready_ledger + TIMELOCK_OPERATION_GRACE_LEDGERS) u32_max in
    require (ledger_sequence env <=? expires_at) (EGeneric TimelockOperationExpired).

Definition hash_operation_parts (target : Address) (function : Symbol) (args : list Val)
    (predecessor salt : Hash) : Hash :=
  hash_operation (mkOperation target function args predecessor salt).

Definition NO_PREDECESSOR : Hash := replicate 32 0%N.

Definition operation_for_admin_op (env : GovEnv) (g : Governance W) (op : AdminOperation) (salt : Hash)
    : res (Operation * DelayTier) :=
  let* r := resolve_op env g op in
  Ok (mkOperation (rs_target r) (rs_function r) (rs_args r) NO_PREDECESSOR salt, rs_delay_tier r).

Definition canceller_reset_operation (env : GovEnv) (new_cancellers : list Address) (salt : Hash)
    : Operation :=
  mkOperation (gov_address env) "reset_cancellers" [VAddresses new_cancellers] NO_PREDECESSOR salt.

Definition begin_immediate (env : GovEnv) (g : Governance W) (caller : Address) (role : Symbol) : res unit :=
  do! require (gov_authorized env caller) HostTrap in
  ensure_role g role caller.

Definition prepare_execute (env : GovEnv) (g : Governance W) (executor : option Address)
    (operation : Operation) : res Hash :=
  do! authorize_executor env g executor in
  let operation_id := hash_operation operation in
  do! require_operation_not_expired env g operation_id in
  Ok operation_id.

Definition finish_execute (g : Governance W) (operation_id : Hash) : Governance W :=
  clear_operation_sidecars (with_timelock g (remove_operation_ledger (g_timelock g) operation_id))
    operation_id.

(** ** Lifecycle (timelock/lifecycle.rs) *)

(** The operations only the owner may propose. *)
Definition owner_only (op : AdminOperation) : bool :=
  match op with
  | TransferGovOwnership _ | TransferCtrlOwnership _ | UpgradeGov _ | UpgradeController _
  | UpgradePool _ | UpgradePositionNft _ | UpgradePriceAggregator _ | MigrateController _
  | UpdateGovDelay _ | SetPriceAggregator _ | ConfigureAssetOracle _ | EditOracleTolerance _
  | SetSwapAggregator _ | ApproveBlendPool _ | SetAccumulator _ | GrantGovRole _
  | SetPositionManager _ true => true
  | _ => false
  end.

Definition propose (env : GovEnv) (g : Governance W) (proposer : Address) (op : AdminOperation) (salt : Hash)
    : res (Hash * Governance W) :=
  do! begin_immediate env g proposer PROPOSER_ROLE in
  do! (match op with
       | RevokeGovRole args =>
           do! require (negb (bool_decide (ro_account args = proposer))) (EGeneric NotAuthorized) in
           let* owner := owner_or_panic g in
           require (negb (bool_decide (ro_account args = owner))) (EGeneric NotAuthorized)
       | _ =>
           if owner_only op then
             let* owner := owner_or_panic g in
             require (bool_decide (proposer = owner)) (EGeneric NotAuthorized)
           else Ok tt
       end) in
  let* (operation, tier) := operation_for_admin_op env g op salt in
  let* delay := operation_delay g tier in
  let* t := schedule_operation env (g_timelock g) operation delay in
  let operation_id := hash_operation operation in
  let g := with_timelock g t in
  Ok (operation_id,
      match op with
      | RevokeGovRole args => mark_role_revocation_target g operation_id (ro_account args)
      | _ => g
      end).

(** [execute_operation] marks the operation done, then invokes its target. *)
Definition execute (env : GovEnv) (g : Governance W) (executor : option Address) (target : Address)
    (function : Symbol) (args : list Val) (predecessor salt : Hash) : res (Val * Governance W) :=
  do! require (negb (bool_decide (target = gov_address env))) (EGeneric InternalError) in
  let operation := mkOperation target function args predecessor salt in
  let* operation_id := prepare_execute env g executor operation in
  let* t := set_execute_operation env (g_timelock g) operation in
  let* (result, g) := call_contract (with_timelock g t) target function args in
  Ok (result, finish_execute g operation_id).

Definition execute_self (env : GovEnv) (g : Governance W) (executor : option Address) (op : AdminOperation)
    (salt : Hash) : res (Governance W) :=
  let* (operation, _) := operation_for_admin_op env g op salt in
  do! require (bool_decide (op_target operation = gov_address env)) (EGeneric InternalError) in
  let* operation_id := prepare_execute env g executor operation in
  let* t := set_execute_operation env (g_timelock g) operation in
  let* g := apply_self_op env (with_timelock g t) op in
  Ok (finish_execute g operation_id).

Definition cancel (env : GovEnv) (g : Governance W) (canceller : Address) (operation_id : Hash)
    : res (Governance W) :=
  do! require (gov_authorized env canceller) HostTrap in
  do! ensure_role g CANCELLER_ROLE canceller in
  do! require (negb (is_recovery_op g operation_id)) (EGeneric OperationNotCancellable) in
  do! (match role_revocation_target g operation_id with
       | Some target => require (negb (bool_decide (target = canceller))) (EGeneric OperationNotCancellable)
       | None => Ok tt
       end) in
  let* t := cancel_operation env (g_timelock g) operation_id in
  Ok (clear_operation_sidecars (with_timelock g t) operation_id).

(** ** Recovery (timelock/recovery.rs) *)

Definition propose_canceller_reset (env : GovEnv) (g : Governance W) (new_cancellers : list Address)
    (salt : Hash) : res (Hash * Governance W) :=
  let operation := canceller_reset_operation env new_cancellers salt in
  let* delay := operation_delay g Recovery in
  let* t := schedule_operation env (g_timelock g) operation delay in
  let id := hash_operation operation in
  Ok (id, mark_recovery_op (with_timelock g t) id).

Definition execute_canceller_reset (env : GovEnv) (g : Governance W) (executor : option Address)
    (new_cancellers : list Address) (salt : Hash) : res (Governance W) :=
  let operation := canceller_reset_operation env new_cancellers salt in
  let* operation_id := prepare_execute env g executor operation in
  let* t := set_execute_operation env (g_timelock g) operation in
  let* g := apply_canceller_reset (with_timelock g t) new_cancellers in
  Ok (finish_execute g operation_id).

(** ** Immediate actions (timelock/immediate.rs) *)

(** A role holder's call of the controller. *)
Definition guardian_call (env : GovEnv) (g : Governance W) (caller : Address) (function : Symbol)
    (args : list Val) : res (Val * Governance W) :=
  do! begin_immediate env g caller GUARDIAN_ROLE in
  let* controller := get_controller g in
  call_contract g controller function args.

Definition pause (env : GovEnv) (g : Governance W) (caller : Address) : res (Governance W) :=
  let* (_, g) := guardian_call env g caller "pause" [] in Ok g.

Definition set_spoke_asset_flags (env : GovEnv) (g : Governance W) (caller : Address) (spoke_id : Z)
    (h : HubAssetKey) (paused frozen no_seize : bool) : res (Governance W) :=
  let* (_, g) := guardian_call env g caller "set_spoke_asset_flags"
                   [VU32 spoke_id; VHubAssetKey h; VBool paused; VBool frozen; VBool no_seize] in
  Ok g.

Definition set_sanity_band (env : GovEnv) (g : Governance W) (caller : Address) (key : PriceKey)
    (min_wad max_wad : Z) : res (Governance W) :=
  do! begin_immediate env g caller ORACLE_ROLE in
  let* aggregator := get_price_aggregator g in
  let* (_, g) := call_contract g aggregator "set_sanity_band" [VPriceKey key; VI128 min_wad; VI128 max_wad] in
  Ok g.

Definition create_hub (env : GovEnv) (g : Governance W) (caller : Address) : res (Z * Governance W) :=
  let* (v, g) := guardian_call env g caller "create_hub" [] in
  let* id := expect_u32 v in
  Ok (id, g).

Definition add_spoke (env : GovEnv) (g : Governance W) (caller : Address) : res (Z * Governance W) :=
  let* (v, g) := guardian_call env g caller "add_spoke" [] in
  let* id := expect_u32 v in
  Ok (id, g).

Definition deactivate_position_manager (env : GovEnv) (g : Governance W) (caller manager : Address)
    : res (Governance W) :=
  let* (_, g) := guardian_call env g caller "set_position_manager" [VAddress manager; VBool false] in
  Ok g.

Definition revoke_blend_pool (env : GovEnv) (g : Governance W) (caller pool : Address) : res (Governance W) :=
  let* (_, g) := guardian_call env g caller "revoke_blend_pool" [VAddress pool] in
  Ok g.

Definition revoke_role_immediate (g : Governance W) (account : Address) (role : Symbol) : res (Governance W) :=
  do! require (bool_decide (role = GUARDIAN_ROLE) || bool_decide (role = ORACLE_ROLE)) (EGeneric InvalidRole) in
  do! owner_or_panic g in
  apply_revoke_role g account role.

(** ** Deployment (deploy.rs, access.rs) *)

Definition CONTROLLER_DEPLOY_SALT : Hash := replicate 32 0%N.
Definition PRICE_AGGREGATOR_DEPLOY_SALT : Hash := replicate 32 1%N.

Definition deploy_controller (env : GovEnv) (g : Governance W) (wasm_hash : Hash)
    : res (Address * Governance W) :=
  do! require_nonzero_wasm_hash wasm_hash in
  do! require (negb (has_controller g)) (EGeneric PoolAlreadyDeployed) in
  let* (controller, w) := deploy_contract (g_world g) CONTROLLER_DEPLOY_SALT wasm_hash
                            [VAddress (gov_address env)] in
  let g := set_controller (with_world g w) controller in
  Ok (controller, publish g (DeployControllerEvent controller wasm_hash)).

Definition deploy_price_aggregator (env : GovEnv) (g : Governance W) (wasm_hash : Hash)
    : res (Address * Governance W) :=
  do! require_nonzero_wasm_hash wasm_hash in
  do! require (negb (has_price_aggregator g)) (EGeneric PoolAlreadyDeployed) in
  let* (price_aggregator, w) := deploy_contract (g_world g) PRICE_AGGREGATOR_DEPLOY_SALT wasm_hash
                                  [VAddress (gov_address env)] in
  let g := set_price_aggregator (with_world g w) price_aggregator in
  let* g := (if has_controller g then
               let* controller := get_controller g in
               let* (_, g) := call_contract g controller "set_price_aggregator" [VAddress price_aggregator] in
               Ok g
             else Ok g) in
  Ok (price_aggregator, publish g (DeployPriceAggregatorEvent price_aggregator wasm_hash)).

(** [__constructor] *)
Definition constructor (w : W) (admin : Address) (delay : Z) : res (Governance W) :=
  let* a := set_owner no_access admin in
  let* a := set_admin a admin in
  let a := fold_left (fun a role => grant_role_no_auth a admin role) default_operational_roles a in
  do! require_nonzero_delay delay in
  Ok (mkGovernance a (set_min_delay no_timelock delay) None None ∅ ∅ [] w).

End Contract.

End GovContract.

(** ** Entrypoints (api.rs) *)

Module GovApi.

Import Config Gov GovOps GovContract.

Section Api.

Context `{HA : AccessLib} `{HT : TimelockLib} {W : Type} `{HW : !GovHost W}.

Definition only_owner (env : GovEnv) (g : Governance W) : res unit :=
  match get_owner (g_access g) with
  | Some owner => require (gov_authorized env owner) HostTrap
  | None => Err HostTrap
  end.

Definition deploy_controller (env : GovEnv) (g : Governance W) (wasm_hash : Hash) : res (Address * Governance W) :=
  do! only_owner env g in GovContract.deploy_controller env g wasm_hash.

Definition deploy_price_aggregator (env : GovEnv) (g : Governance W) (wasm_hash : Hash)
    : res (Address * Governance W) :=
  do! only_owner env g in GovContract.deploy_price_aggregator env g wasm_hash.

Definition revoke_role_immediate (env : GovEnv) (g : Governance W) (account : Address) (role : Symbol)
    : res (Governance W) :=
  do! only_owner env g in GovContract.revoke_role_immediate g account role.

Definition propose_canceller_reset (env : GovEnv) (g : Governance W) (new_cancellers : list Address)
    (salt : Hash) : res (Hash * Governance W) :=
  do! only_owner env g in GovContract.propose_canceller_reset env g new_cancellers salt.

Definition controller (g : Governance W) : res Address := get_controller g.
Definition price_aggregator (g : Governance W) : res Address := get_price_aggregator g.
Definition get_min_delay (g : Governance W) : res Z := min_delay g.
Definition get_operation_ledger (g : Governance W) (id : Hash) : Z :=
  Gov.get_operation_ledger (g_timelock g) id.
Definition hash_operation (target : Address) (function : Symbol) (args : list Val) (predecessor salt : Hash)
    : Hash := hash_operation_parts target function args predecessor salt.
Definition resolve_oracle_tolerance (tolerance : Z) : res OracleTolerance :=
  validate_and_calculate_tolerances tolerance.
Definition resolve_asset_oracle (g : Governance W) (key : PriceKey) (oracle : AssetOracle) : res AssetOracle :=
  resolve_oracle g key oracle.
Definition has_role (g : Governance W) (account : Address) (role : Symbol) : bool := GovOps.has_role g account role.

(** The entrypoints that change state. *)
Inductive GovCall : Type :=
| DeployController (wasm_hash : Hash)
| DeployPriceAggregator (wasm_hash : Hash)
| Propose (proposer : Address) (op : AdminOperation) (salt : Hash)
| Execute (executor : option Address) (target : Address) (function : Symbol) (args : list Val)
    (predecessor salt : Hash)
| ExecuteSelf (executor : option Address) (op : AdminOperation) (salt : Hash)
| Cancel (canceller : Address) (operation_id : Hash)
| ProposeCancellerReset (new_cancellers : list Address) (salt : Hash)
| ExecuteCancellerReset (executor : option Address) (new_cancellers : list Address) (salt : Hash)
| Pause (caller : Address)
| SetSpokeAssetFlags (caller : Address) (spoke_id : Z) (h : HubAssetKey) (paused frozen no_seize : bool)
| SetSanityBand (caller : Address) (key : PriceKey) (min_wad max_wad : Z)
| CallCreateHub (caller : Address)
| CallAddSpoke (caller : Address)
| DeactivatePositionManager (caller manager : Address)
| CallRevokeBlendPool (caller pool : Address)
| RevokeRoleImmediate (account : Address) (role : Symbol)
| AcceptOwnership.

Definition drop {R : Type} (r : res (R * Governance W)) : res (Governance W) := let* (_, g) := r in Ok g.

Definition dispatch (env : GovEnv) (g : Governance W) (call : GovCall) : res (Governance W) :=
  match call with
  | DeployController h => drop (deploy_controller env g h)
  | DeployPriceAggregator h => drop (deploy_price_aggregator env g h)
  | Propose p op salt => drop (propose env g p op salt)
  | Execute ex target f args pred salt => drop (execute env g ex target f args pred salt)
  | ExecuteSelf ex op salt => execute_self env g ex op salt
  | Cancel c id => cancel env g c id
  | ProposeCancellerReset l salt => drop (propose_canceller_reset env g l salt)
  | ExecuteCancellerReset ex l salt => execute_canceller_reset env g ex l salt
  | Pause c => pause env g c
  | SetSpokeAssetFlags c sp h x y z => set_spoke_asset_flags env g c sp h x y z
  | SetSanityBand c k lo hi => set_sanity_band env g c k lo hi
  | CallCreateHub c => drop (create_hub env g c)
  | CallAddSpoke c => drop (add_spoke env g c)
  | DeactivatePositionManager c m => deactivate_position_manager env g c m
  | CallRevokeBlendPool c p => revoke_blend_pool env g c p
  | RevokeRoleImmediate a r => revoke_role_immediate env g a r
  | AcceptOwnership => accept_ownership env g
  end.

End Api.

End GovApi.
