(* ===== verification/GovReach.v ===== *)
(** * Reachable states of governance

    [gov_reachable] runs any calls from deployment and keeps the trace of states and calls.
    Every pending operation was proposed by a call of the trace ([pending_ok]); the owner holds
    every role and nobody else both executes and cancels ([roles_ok]). *)

From S2P Require Import Prelude Errors FpCore Fp PoolTypes PoolCache ControllerTypes Risk OracleMath AggState AggContract CtlState CtlConfig GovOps GovContract.
From stdpp Require Import base numbers list gmap strings.
From Stdlib Require Import ZArith Lia Bool.

Open Scope Z_scope.

Module GovReach.

Import Config Validation Gov GovOps GovContract GovApi.

Section Reach.

Context `{HA : AccessLib} `{HT : TimelockLib} {HAL : AccessLaws} {HTL : TimelockLaws}
  {W : Type} `{HW : !GovHost W}.

Implicit Types g : Governance W.

Abbreviation Step := (GovEnv * Governance W * GovCall)%type.
Abbreviation ledger_of g id := (Gov.get_operation_ledger (g_timelock g) id).

(** ** Roles *)

Definition members (g : Governance W) (r : Symbol) : list Address := role_members (g_access g) r.

Definition separated (owner : Address) (g : Governance W) : Prop :=
  forall a, a <> owner -> ~ (a ∈ members g EXECUTOR_ROLE /\ a ∈ members g CANCELLER_ROLE).

Record roles_ok (g : Governance W) (owner : Address) : Prop := {
  rk_owner : get_owner (g_access g) = Some owner;
  rk_holds : forall r, r ∈ default_operational_roles -> owner ∈ members g r;
  rk_separated : separated owner g
}.

Lemma members_grant g a r x r' : x ∈ members (grant g a r) r' <-> x ∈ members g r' \/ (x = a /\ r' = r).
Proof. apply (proj2 (al_grant (g_access g) a r)). Qed.

Lemma owner_grant g a r : get_owner (g_access (grant g a r)) = get_owner (g_access g).
Proof. apply (proj1 (al_grant (g_access g) a r)). Qed.

Lemma revoke_spec g a r g' : revoke g a r = Ok g' ->
  a ∈ members g r /\ get_owner (g_access g') = get_owner (g_access g)
  /\ (forall x r', x ∈ members g' r' <-> x ∈ members g r' /\ ~ (x = a /\ r' = r))
  /\ (forall i j, members g r !! i = Some a -> (j < i)%nat -> members g' r !! j = members g r !! j)
  /\ exists acc, g' = with_access g acc.
Proof.
  unfold revoke. intros H. apply rbind_Ok in H as (l & Hl & H). injection H as <-.
  destruct (al_revoke _ _ _ _ Hl) as (H1 & H2 & H3 & H4). eauto 10.
Qed.

Lemma separation_ok g owner a r u : require_executor_canceller_separation g owner a r = Ok u ->
  separated owner g -> separated owner (grant g a r).
Proof.
  intros H Hs x Hx. rewrite !members_grant. unfold require_executor_canceller_separation in H.
  destruct (bool_decide_reflect (a = owner)) as [->|Ha].
  { specialize (Hs x Hx). naive_solver. }
  specialize (Hs x Hx). intros [[He|[-> He]] [Hc|[Ec Hc]]]; [tauto| | |].
  - subst. rewrite bool_decide_false in H by done. rewrite bool_decide_true in H by done.
    apply require_Ok, negb_true_iff, bool_decide_eq_false in H. done.
  - rewrite <- He in H. rewrite bool_decide_true in H by done.
    apply require_Ok, negb_true_iff, bool_decide_eq_false in H. done.
  - rewrite <- He in Hc. discriminate Hc.
Qed.

Lemma grant_roles_ok g owner a r u : require_executor_canceller_separation g owner a r = Ok u ->
  roles_ok g owner -> roles_ok (grant g a r) owner.
Proof.
  intros H [H1 H2 H3]. split.
  - by rewrite owner_grant.
  - intros r' Hr. apply members_grant. auto.
  - by eapply separation_ok.
Qed.

Lemma revoke_roles_ok g owner a r g' : revoke g a r = Ok g' -> a <> owner -> roles_ok g owner -> roles_ok g' owner.
Proof.
  intros (_ & Ho & Hm & _)%revoke_spec Ha [H1 H2 H3]. split.
  - congruence.
  - intros r' Hr. apply Hm. split; [by apply H2|]. intros [-> _]. done.
  - intros x Hx. rewrite !Hm. specialize (H3 x Hx). tauto.
Qed.

Lemma apply_grant_role_ok g owner a r g' : apply_grant_role g a r = Ok g' -> roles_ok g owner -> roles_ok g' owner.
Proof.
  intros H Hr. unfold apply_grant_role, owner_or_panic in H. rewrite (rk_owner _ _ Hr) in H. cbn in H.
  apply rbind_Ok in H as (u & Hs & H). injection H as <-. by eapply grant_roles_ok.
Qed.

Lemma apply_revoke_role_ok g owner a r g' : apply_revoke_role g a r = Ok g' -> roles_ok g owner -> roles_ok g' owner.
Proof.
  intros H Hr. unfold apply_revoke_role, owner_or_panic in H. rewrite (rk_owner _ _ Hr) in H. cbn in H.
  apply rbind_Ok in H as (u & _ & H). apply rbind_Ok in H as (u1 & Ha%require_Ok & H).
  apply rbind_Ok in H as (u2 & _ & H). apply negb_true_iff, bool_decide_eq_false in Ha.
  by eapply revoke_roles_ok.
Qed.

(** ** Resetting the cancellers *)

(** Going down, the loop removes every holder but the owner among the first [n]. *)
Lemma revoke_cancellers_spec owner n g g' : revoke_cancellers g owner n = Ok g' -> roles_ok g owner ->
  roles_ok g' owner
  /\ (forall r x, r <> CANCELLER_ROLE -> x ∈ members g' r <-> x ∈ members g r)
  /\ (forall x, x ∈ members g' CANCELLER_ROLE -> x ∈ members g CANCELLER_ROLE)
  /\ (forall x i, (i < n)%nat -> members g CANCELLER_ROLE !! i = Some x -> x ∈ members g' CANCELLER_ROLE -> x = owner).
Proof.
  revert g. induction n as [|n IH]; intros g H Hr; cbn [revoke_cancellers] in H.
  { injection H as <-. split; [done|]. split; [done|]. split; [done|]. intros x i Hi. lia. }
  apply rbind_Ok in H as (holder & Hh%of_option_Ok & H). apply rbind_Ok in H as (g1 & H1 & H).
  destruct (bool_decide_reflect (holder = owner)) as [->|Hne].
  - injection H1 as <-. destruct (IH _ H Hr) as (Ha & Hb & Hc & Hd). split; [done|]. split; [done|].
    split; [done|]. intros x i Hi Hx Hin. destruct (decide (i = n)) as [->|].
    + unfold members in Hx. rewrite Hh in Hx. congruence.
    + eapply Hd; [|done|done]. lia.
  - pose proof (revoke_roles_ok _ _ _ _ _ H1 Hne Hr) as Hr1.
    apply revoke_spec in H1 as (_ & _ & Hm & Hlow & _).
    destruct (IH _ H Hr1) as (Ha & Hb & Hc & Hd). split; [done|]. split; [|split].
    + intros r x Hrole. rewrite Hb by done. rewrite Hm. naive_solver.
    + intros x Hx%Hc. by apply Hm in Hx as [? _].
    + intros x i Hi Hx Hin. destruct (decide (i = n)) as [->|].
      * unfold members in Hx. rewrite Hh in Hx. injection Hx as ->. apply Hc, Hm in Hin. tauto.
      * eapply (Hd x i); [lia| |done]. rewrite (Hlow n i) by (done || lia). done.
Qed.

Lemma add_cancellers_spec owner l g g' :
  rfold (fun g account =>
    if negb (bool_decide (account = owner)) && negb (GovOps.has_role g account CANCELLER_ROLE)
    then
      do! require_executor_canceller_separation g owner account CANCELLER_ROLE in
      Ok (grant g account CANCELLER_ROLE)
    else Ok g) g l = Ok g' ->
  roles_ok g owner ->
  roles_ok g' owner
  /\ forall x, x ∈ members g' CANCELLER_ROLE <-> x ∈ members g CANCELLER_ROLE \/ (x ∈ l /\ x <> owner).
Proof.
  revert g. induction l as [|a l IH]; intros g H Hr; cbn [rfold] in H.
  { injection H as <-. split; [done|]. intros x. rewrite elem_of_nil. tauto. }
  apply rbind_Ok in H as (g1 & H1 & H).
  destruct (bool_decide_reflect (a = owner)) as [->|Ha]; cbn [negb andb] in H1.
  { injection H1 as <-. destruct (IH _ H Hr) as [Hok Hx]. split; [done|]. intros x. rewrite Hx, elem_of_cons.
    naive_solver. }
  unfold GovOps.has_role in H1.
  destruct (bool_decide_reflect (a ∈ role_members (g_access g) CANCELLER_ROLE)) as [Hin|Hin]; cbn [negb] in H1.
  { injection H1 as <-. destruct (IH _ H Hr) as [Hok Hx]. split; [done|]. intros x. rewrite Hx, elem_of_cons.
    unfold members. naive_solver. }
  apply rbind_Ok in H1 as (u & Hs & H1). injection H1 as <-.
  destruct (IH _ H (grant_roles_ok _ _ _ _ _ Hs Hr)) as [Hok Hx]. split; [done|]. intros x.
  rewrite Hx, elem_of_cons, members_grant. naive_solver.
Qed.

(** After a reset the cancellers are the owner and the named accounts. *)
Lemma canceller_reset_spec g owner l g' : apply_canceller_reset g l = Ok g' -> roles_ok g owner ->
  roles_ok g' owner /\ forall x, x ∈ members g' CANCELLER_ROLE <-> x = owner \/ x ∈ l.
Proof.
  intros H Hr. unfold apply_canceller_reset, owner_or_panic in H. rewrite (rk_owner _ _ Hr) in H. cbn [of_option rbind] in H.
  apply rbind_Ok in H as (g1 & H1 & H).
  destruct (revoke_cancellers_spec _ _ _ _ H1 Hr) as (Hr1 & _ & Hsub & Hout).
  destruct (add_cancellers_spec _ _ _ _ H Hr1) as [Hok Hx]. split; [done|]. intros x. rewrite Hx. split.
  - intros [Hin|[Hin _]]; [|by right]. left. pose proof (Hsub _ Hin) as Hold.
    apply list_elem_of_lookup in Hold as [i Hi]. eapply (Hout x i); [|done|done].
    unfold get_role_member_count. fold (members g CANCELLER_ROLE). by apply lookup_lt_Some in Hi.
  - assert (owner ∈ members g1 CANCELLER_ROLE).
    { apply Hr1. unfold default_operational_roles. rewrite !elem_of_cons. tauto. }
    intros [->|Hin]; [by left|]. destruct (decide (x = owner)) as [->|]; [by left|by right].
Qed.

(** ** Handing over ownership *)

Record handed_over (prev new : Address) (l : list Symbol) g g' : Prop := {
  ho_owner : get_owner (g_access g') = get_owner (g_access g);
  ho_others : forall x r, x <> new -> x <> prev -> x ∈ members g' r <-> x ∈ members g r;
  ho_new : forall r, r ∈ l -> new ∈ members g' r;
  ho_prev : forall r, r ∈ l -> prev <> new -> prev ∉ members g' r;
  ho_rest : forall x r, r ∉ l -> x ∈ members g' r <-> x ∈ members g r
}.

Lemma hand_over_step prev new role g g' :
  (if negb (bool_decide (prev = new)) && GovOps.has_role (grant g new role) prev role
   then revoke (grant g new role) prev role else Ok (grant g new role)) = Ok g' ->
  handed_over prev new [role] g g'.
Proof.
  intros H. unfold GovOps.has_role in H. fold (members (grant g new role) role) in H.
  destruct (bool_decide_reflect (prev = new)) as [->|Hne]; cbn [negb andb] in H;
    [|destruct (bool_decide_reflect (prev ∈ members (grant g new role) role)) as [Hin|Hin]].
  2: { apply revoke_spec in H as (_ & Ho & Hm & _). split; [by rewrite Ho, owner_grant|..].
    - intros x r Hn Hp. rewrite Hm, members_grant. tauto.
    - intros r ->%list_elem_of_singleton. rewrite Hm, members_grant. split; [by right|]. intros [-> _]. done.
    - intros r ->%list_elem_of_singleton _. rewrite Hm. tauto.
    - intros x r Hr. rewrite list_elem_of_singleton in Hr. rewrite Hm, members_grant. tauto. }
  all: injection H as <-; split; [apply owner_grant|..].
  all: try (intros x r; rewrite members_grant, ?list_elem_of_singleton; tauto).
  all: intros r ->%list_elem_of_singleton; rewrite ?members_grant; try (by right).
  intros _. by rewrite members_grant in Hin.
Qed.

Lemma hand_over prev new l g g' :
  rfold (fun g role =>
    let g := grant g new role in
    if negb (bool_decide (prev = new)) && GovOps.has_role g prev role
    then revoke g prev role else Ok g) g l = Ok g' -> handed_over prev new l g g'.
Proof.
  revert g. induction l as [|role l IH]; intros g H; cbn [rfold] in H.
  { injection H as <-. split; try done; intros r Hr; by apply elem_of_nil in Hr. }
  apply rbind_Ok in H as (g1 & H1 & H). apply hand_over_step in H1 as [A1 A2 A3 A4 A5].
  apply IH in H as [B1 B2 B3 B4 B5].
  split; [congruence| | | |].
  - intros x r Hn Hp. rewrite B2, A2 by done. done.
  - intros r Hr. destruct (decide (r ∈ l)); [by apply B3|]. rewrite B5 by done. apply A3.
    apply elem_of_cons in Hr as [->|]; [by apply list_elem_of_singleton|done].
  - intros r Hr Hne. destruct (decide (r ∈ l)); [by apply B4|]. rewrite B5 by done. apply A4; [|done].
    apply elem_of_cons in Hr as [->|]; [by apply list_elem_of_singleton|done].
  - intros x r Hr. rewrite elem_of_cons in Hr. rewrite B5, A5; [done| |tauto].
    rewrite list_elem_of_singleton. tauto.
Qed.

Lemma accept_ownership_ok env g owner g' : accept_ownership env g = Ok g' -> roles_ok g owner ->
  exists new, roles_ok g' new /\ gov_authorized env new = true.
Proof.
  intros H [H1 H2 H3]. unfold accept_ownership, owner_or_panic in H. rewrite H1 in H. cbn [of_option rbind] in H.
  apply rbind_Ok in H as (acc & Hacc & H). destruct (al_accept _ _ _ Hacc) as [(new & Hnew & Hauth) Hm].
  cbn [with_access g_access] in H. rewrite Hnew in H. cbn [of_option rbind] in H.
  unfold sync_owner_access_control in H. apply hand_over in H as [B1 B2 B3 B4 B5].
  destruct (al_put_admin acc new) as [P1 P2]. destruct (al_drop_pending (put_admin acc new)) as [Q1 Q2].
  assert (forall r, members (with_access (with_access g acc) (drop_pending_admin (put_admin acc new))) r = members g r) as Hsame.
  { intros r. unfold members. cbn. by rewrite Q2, P2, Hm. }
  exists new. split; [|done]. split.
  - rewrite B1. cbn. congruence.
  - intros r Hr. by apply B3.
  - intros x Hx. destruct (decide (x = owner)) as [->|Hxo].
    + intros [Hex _]. apply (B4 EXECUTOR_ROLE) in Hex; [done| |congruence].
      unfold default_operational_roles. rewrite !elem_of_cons. tauto.
    + rewrite !B2, !Hsame by done. by apply H3.
Qed.

Lemma access_same_roles g acc owner : get_owner acc = get_owner (g_access g) ->
  (forall r, role_members acc r = role_members (g_access g) r) ->
  roles_ok g owner -> roles_ok (with_access g acc) owner.
Proof.
  intros Ho Hm [H1 H2 H3]. split; unfold members, separated in *; cbn.
  - congruence.
  - intros r. rewrite Hm. apply H2.
  - intros a. unfold members. cbn. rewrite !Hm. apply H3.
Qed.

Lemma apply_transfer_ownership_ok env g new live g' owner : apply_transfer_ownership env g new live = Ok g' ->
  roles_ok g owner -> roles_ok g' owner.
Proof.
  intros H Hr. unfold apply_transfer_ownership in H. apply rbind_Ok in H as (u & _ & H).
  apply rbind_Ok in H as (a & Ha & H). destruct (al_transfer_owner _ _ _ _ _ Ha) as [A1 A2].
  unfold sync_pending_admin_transfer in H. apply rbind_Ok in H as (a2 & Ha2 & H).
  apply rbind_Ok in H as (u2 & _ & H). injection H as <-.
  assert (get_owner a2 = get_owner a /\ forall r, role_members a2 r = role_members a r) as [B1 B2].
  { cbn in Ha2. destruct (live =? 0); [injection Ha2 as <-; apply al_drop_pending|].
    by apply al_transfer_admin in Ha2. }
  apply (access_same_roles g a2 owner); [congruence| |done]. intros r. by rewrite B2, A2.
Qed.

(** ** Timelock rows *)

Definition delay_ok g : Prop := exists m, Gov.get_min_delay (g_timelock g) = Some m /\ 0 < m.

(** Nothing but the roles and the rest of the ledger changes. *)
Record quiet g g' : Prop := {
  qu_timelock : g_timelock g' = g_timelock g;
  qu_targets : g_revocation_targets g' = g_revocation_targets g;
  qu_recovery : g_recovery_ops g' = g_recovery_ops g
}.

Lemma quiet_refl g : quiet g g.
Proof. by split. Qed.

Lemma quiet_trans g1 g2 g3 : quiet g1 g2 -> quiet g2 g3 -> quiet g1 g3.
Proof. intros [] []. split; congruence. Qed.

Lemma revoke_quiet g a r g' : revoke g a r = Ok g' -> quiet g g'.
Proof. intros (_ & _ & _ & _ & acc & ->)%revoke_spec. by split. Qed.

Lemma revoke_cancellers_quiet owner n g g' : revoke_cancellers g owner n = Ok g' -> quiet g g'.
Proof.
  revert g. induction n as [|n IH]; intros g H; cbn [revoke_cancellers] in H; [injection H as <-; apply quiet_refl|].
  apply rbind_Ok in H as (h & _ & H). apply rbind_Ok in H as (g1 & H1 & H).
  eapply quiet_trans; [|by apply IH]. destruct (bool_decide _); [injection H1 as <-; apply quiet_refl|].
  by eapply revoke_quiet.
Qed.

Lemma rfold_quiet {B} (f : Governance W -> B -> res (Governance W)) l :
  (forall g x g', f g x = Ok g' -> quiet g g') -> forall g g', rfold f g l = Ok g' -> quiet g g'.
Proof.
  intros Hf. induction l as [|x l IH]; intros g g' H; cbn [rfold] in H; [injection H as <-; apply quiet_refl|].
  apply rbind_Ok in H as (g1 & H1 & H). eapply quiet_trans; [by eapply Hf|by apply IH].
Qed.

Lemma apply_canceller_reset_quiet g l g' : apply_canceller_reset g l = Ok g' -> quiet g g'.
Proof.
  unfold apply_canceller_reset. intros H. apply rbind_Ok in H as (o & _ & H). apply rbind_Ok in H as (g1 & H1 & H).
  eapply quiet_trans; [by eapply revoke_cancellers_quiet|]. revert H. apply rfold_quiet.
  intros g2 x g3 H. destruct (_ && _); [|injection H as <-; apply quiet_refl].
  apply rbind_Ok in H as (u & _ & H). injection H as <-. by split.
Qed.

Lemma accept_ownership_quiet env g g' : accept_ownership env g = Ok g' -> quiet g g'.
Proof.
  unfold accept_ownership. intros H. apply rbind_Ok in H as (o & _ & H). apply rbind_Ok in H as (a & _ & H).
  apply rbind_Ok in H as (o2 & _ & H). unfold sync_owner_access_control in H.
  eapply rfold_quiet in H.
  - destruct H. by split.
  - intros g1 r g2 H2. cbn zeta in H2. destruct (_ && _); [|injection H2 as <-; by split].
    apply revoke_quiet in H2. destruct H2. by split.
Qed.

Lemma call_contract_frame g t f a v g' : call_contract g t f a = Ok (v, g') -> exists w, g' = with_world g w.
Proof. unfold call_contract. intros H. apply rbind_Ok in H as ([x w] & _ & H). injection H as _ <-. by exists w. Qed.

Record self_effect g g' : Prop := {
  se_targets : g_revocation_targets g' = g_revocation_targets g;
  se_recovery : g_recovery_ops g' = g_recovery_ops g;
  se_ledgers : forall id, ledger_of g' id = ledger_of g id;
  se_delay : delay_ok g -> delay_ok g';
  se_roles : forall owner, roles_ok g owner -> roles_ok g' owner
}.

Lemma quiet_effect g g' : quiet g g' -> (forall owner, roles_ok g owner -> roles_ok g' owner) -> self_effect g g'.
Proof. intros [Ht Hr Hc] Hro. split; try done; unfold delay_ok; by rewrite Ht. Qed.

Lemma delay_update_ok g n u : validate_delay_update g n = Ok u -> delay_ok g -> 0 < n.
Proof.
  intros H (m & Hm & Hp). unfold validate_delay_update, min_delay in H. rewrite Hm in H. cbn [of_option rbind] in H.
  ok_inv H. apply andb_true_iff in H as [_ H]. apply orb_true_iff in H as [H|H]; b2p; [lia|].
  unfold TIMELOCK_MIN_DELAY_LEDGERS in H. lia.
Qed.

Lemma world_roles g w owner : roles_ok g owner -> roles_ok (with_world g w) owner.
Proof. intros []. by split. Qed.

Lemma apply_self_op_effect env g op g' : apply_self_op env g op = Ok g' -> self_effect g g'.
Proof.
  intros H. destruct op; cbn [apply_self_op] in H; try discriminate H.
  - apply rbind_Ok in H as (u & _ & H). apply rbind_Ok in H as (c & _ & H). apply rbind_Ok in H as ([v g1] & H1 & H).
    injection H as <-. apply call_contract_frame in H1 as [w ->]. apply quiet_effect; [by split|]. intros o []. by split.
  - injection H as <-. apply quiet_effect; [by split|]. apply world_roles.
  - unfold apply_update_delay in H. apply rbind_Ok in H as (u & Hd & H). injection H as <-.
    destruct (tl_set_delay (g_timelock g) new_delay) as [D1 D2]. split; [done|done|exact D2| |].
    + intros Hok. exists new_delay. split; [exact D1|]. by eapply delay_update_ok.
    + intros o []. by split.
  - apply quiet_effect; [|intros o; by apply apply_grant_role_ok with (1 := H)].
    unfold apply_grant_role in H. apply rbind_Ok in H as (o & _ & H). apply rbind_Ok in H as (u & _ & H).
    injection H as <-. by split.
  - apply quiet_effect; [|intros o; by apply apply_revoke_role_ok with (1 := H)].
    unfold apply_revoke_role in H. apply rbind_Ok in H as (u & _ & H). apply rbind_Ok in H as (o & _ & H).
    apply rbind_Ok in H as (u1 & _ & H). apply rbind_Ok in H as (u2 & _ & H). by apply revoke_quiet in H.
  - apply quiet_effect; [|intros o; by apply apply_transfer_ownership_ok with (1 := H)].
    unfold apply_transfer_ownership in H. apply rbind_Ok in H as (u & _ & H). apply rbind_Ok in H as (a & _ & H).
    unfold sync_pending_admin_transfer in H. apply rbind_Ok in H as (a2 & _ & H).
    apply rbind_Ok in H as (u2 & _ & H). injection H as <-. by split.
Qed.

(** ** Pending operations *)

(** The call of a step scheduled [o] with delay [d]. *)
Definition proposed_by (step : Step) (o : Operation) (d : Z) : Prop :=
  match step with
  | (env, g, Propose p op salt) =>
      exists tier g', operation_for_admin_op env g op salt = Ok (o, tier)
        /\ operation_delay g tier = Ok d /\ propose env g p op salt = Ok (Gov.hash_operation o, g')
  | (env, g, ProposeCancellerReset l salt) =>
      exists g', o = canceller_reset_operation env l salt /\ operation_delay g Recovery = Ok d
        /\ GovApi.propose_canceller_reset env g l salt = Ok (Gov.hash_operation o, g')
  | _ => False
  end.

Definition step_ledger (step : Step) : Z := ledger_sequence step.1.1.

(** The marks that protect recovery and revocation operations from cancellation. *)
Definition marked g (o : Operation) : Prop :=
  (op_function o = "reset_cancellers" -> is_recovery_op g (Gov.hash_operation o) = true)
  /\ (forall a r, op_function o = "revoke_role" -> op_args o = [VAddress a; VSymbol r] ->
        role_revocation_target g (Gov.hash_operation o) = Some a).

Definition pending_ok (tr : list Step) g (id : Hash) : Prop :=
  exists step o d, step ∈ tr /\ proposed_by step o d /\ id = Gov.hash_operation o
    /\ ledger_of g id = step_ledger step + d /\ marked g o.

Definition pending_inv (tr : list Step) g : Prop :=
  forall id, DONE_LEDGER < ledger_of g id -> pending_ok tr g id.

(** An operation whose rows did not change. *)
Record kept g g' (id : Hash) : Prop := {
  kp_ledger : ledger_of g' id = ledger_of g id;
  kp_target : role_revocation_target g' id = role_revocation_target g id;
  kp_recovery : is_recovery_op g' id = is_recovery_op g id
}.

Lemma kept_pending tr g g' id step : kept g g' id -> DONE_LEDGER < ledger_of g' id -> pending_inv tr g ->
  pending_ok (tr ++ [step]) g' id.
Proof.
  intros [Hl Ht Hr] Hp Hinv. rewrite Hl in Hp. destruct (Hinv id Hp) as (st & o & d & Hin & Hby & -> & Hled & M1 & M2).
  exists st, o, d. split; [apply elem_of_app; by left|]. split; [done|]. split; [done|]. split; [congruence|].
  split; [rewrite Hr; exact M1|rewrite Ht; exact M2].
Qed.

Lemma quiet_kept g g' id : quiet g g' -> kept g g' id.
Proof. intros [Ht Hr Hc]. split; unfold role_revocation_target, is_recovery_op; congruence. Qed.

(** Marking an operation done, acting, then removing its rows keeps every other operation. *)
Lemma finish_kept env g o t g1 id : set_execute_operation env (g_timelock g) o = Ok t ->
  self_effect (with_timelock g t) g1 -> DONE_LEDGER < ledger_of (finish_execute g1 (Gov.hash_operation o)) id ->
  kept g (finish_execute g1 (Gov.hash_operation o)) id.
Proof.
  intros Ht [S1 S2 S3 _ _] Hp. destruct (tl_execute _ _ _ _ Ht) as (_ & _ & Hx).
  unfold finish_execute in *. cbn [g_timelock with_timelock clear_operation_sidecars with_sidecars] in *.
  destruct (tl_remove (g_timelock g1) (Gov.hash_operation o)) as [_ Hrm]. rewrite Hrm in Hp.
  destruct (decide (id = Gov.hash_operation o)) as [->|Hne]; [unfold DONE_LEDGER, UNSET_LEDGER in Hp; lia|].
  split; unfold role_revocation_target, is_recovery_op; cbn.
  - rewrite Hrm, decide_False by done. rewrite S3. cbn. by rewrite Hx, decide_False.
  - rewrite lookup_delete_ne by done. by rewrite S1.
  - rewrite lookup_delete_ne by done. by rewrite S2.
Qed.

Lemma resolved_function env g op salt o tier : operation_for_admin_op env g op salt = Ok (o, tier) ->
  op_function o <> "reset_cancellers"
  /\ (op_function o = "revoke_role" -> exists args, op = RevokeGovRole args
       /\ op_args o = [VAddress (ro_account args); VSymbol (ro_role args)]).
Proof.
  unfold operation_for_admin_op. intros H. apply rbind_Ok in H as (r & Hr & H). injection H as <- <-. cbn.
  destruct op; cbn [resolve_op] in Hr;
    unfold sensitive_controller_operation, sensitive_price_aggregator_operation, controller_operation,
      price_aggregator_operation, self_operation in Hr; ok_inv Hr; cbn; (split; [done|]); intros Hf;
    try discriminate Hf. by exists args.
Qed.

Lemma schedule_pending tr step g env o d t g' : proposed_by step o d -> step_ledger step = ledger_sequence env ->
  schedule_operation env (g_timelock g) o d = Ok t -> g_timelock g' = t ->
  marked g' o ->
  (forall id, id <> Gov.hash_operation o -> role_revocation_target g' id = role_revocation_target g id
     /\ is_recovery_op g' id = is_recovery_op g id) ->
  pending_inv tr g -> pending_inv (tr ++ [step]) g'.
Proof.
  intros Hby Hst Hs Ht Hm Hside Hinv id Hp. destruct (tl_schedule _ _ _ _ _ Hs) as (_ & _ & _ & Hx).
  destruct (decide (id = Gov.hash_operation o)) as [->|Hne].
  - exists step, o, d. split; [apply elem_of_app; right; by apply list_elem_of_singleton|]. split; [done|].
    split; [done|]. split; [|done]. by rewrite Ht, Hx, decide_True, Hst.
  - apply (kept_pending tr g); [|done|done]. destruct (Hside id Hne) as [S1 S2]. split; [|done|done].
    by rewrite Ht, Hx, decide_False.
Qed.

Lemma propose_pending env tr g p op salt id g' : propose env g p op salt = Ok (id, g') ->
  pending_inv tr g -> pending_inv (tr ++ [(env, g, Propose p op salt)]) g'.
Proof.
  intros H. pose proof H as Hcall. unfold propose in H.
  apply rbind_Ok in H as (u & _ & H). apply rbind_Ok in H as (u1 & _ & H).
  apply rbind_Ok in H as ([o tier] & Ho & H). apply rbind_Ok in H as (d & Hd & H). apply rbind_Ok in H as (t & Ht & H).
  cbn zeta in H. injection H as <- Hg.
  destruct (resolved_function _ _ _ _ _ _ Ho) as [Hnr Hrev].
  eapply (schedule_pending tr _ g env o d t); [|reflexivity|exact Ht|by rewrite <- Hg; destruct op|..].
  - exists tier, g'. split; [done|]. split; [done|]. done.
  - split; [done|]. intros a r Hf Hargs. destruct (Hrev Hf) as (args & -> & Ha). rewrite Ha in Hargs.
    injection Hargs as <- <-. rewrite <- Hg. unfold role_revocation_target. cbn. apply lookup_insert_eq.
  - intros id Hne. rewrite <- Hg. unfold role_revocation_target, is_recovery_op. destruct op; cbn; try done.
    by rewrite lookup_insert_ne.
Qed.

Lemma propose_reset_pending env tr g l salt id g' : GovApi.propose_canceller_reset env g l salt = Ok (id, g') ->
  pending_inv tr g -> pending_inv (tr ++ [(env, g, ProposeCancellerReset l salt)]) g'.
Proof.
  intros H. pose proof H as Hcall. unfold GovApi.propose_canceller_reset in H. apply rbind_Ok in H as (u & _ & H).
  unfold GovContract.propose_canceller_reset in H. cbn zeta in H. apply rbind_Ok in H as (d & Hd & H).
  apply rbind_Ok in H as (t & Ht & H). injection H as <- <-.
  eapply (schedule_pending tr _ g env _ d t); [|reflexivity|exact Ht|reflexivity|..].
  - exists (mark_recovery_op (with_timelock g t) (Gov.hash_operation (canceller_reset_operation env l salt))).
    split; [done|]. split; done.
  - split; [|done]. intros _. unfold is_recovery_op. cbn. by rewrite lookup_insert_eq.
  - intros id Hne. unfold role_revocation_target, is_recovery_op. cbn. by rewrite lookup_insert_ne.
Qed.

(** ** The invariant *)

Record gov_inv (tr : list Step) g : Prop := {
  gi_roles : exists owner, roles_ok g owner;
  gi_delay : delay_ok g;
  gi_pending : pending_inv tr g
}.

Lemma quiet_inv tr g g' step : quiet g g' -> (forall owner, roles_ok g owner -> exists owner', roles_ok g' owner') ->
  gov_inv tr g -> gov_inv (tr ++ [step]) g'.
Proof.
  intros Hq Hr [(owner & Ho) Hd Hp]. split.
  - by eapply Hr.
  - unfold delay_ok. by rewrite (qu_timelock _ _ Hq).
  - intros id Hid. eapply kept_pending; [by apply quiet_kept|done|done].
Qed.

Lemma world_inv tr g w step : gov_inv tr g -> gov_inv (tr ++ [step]) (with_world g w).
Proof. apply quiet_inv; [by split|]. intros o []. exists o. by split. Qed.

Lemma schedule_delay env g o d t : schedule_operation env (g_timelock g) o d = Ok t ->
  Gov.get_min_delay t = Gov.get_min_delay (g_timelock g).
Proof. intros H. by destruct (tl_schedule _ _ _ _ _ H) as (_ & _ & ? & _). Qed.

Lemma propose_inv env tr g p op salt id g' : propose env g p op salt = Ok (id, g') ->
  gov_inv tr g -> gov_inv (tr ++ [(env, g, Propose p op salt)]) g'.
Proof.
  intros H [(owner & [R1 R2 R3]) Hd Hp]. split; [| |by eapply propose_pending].
  all: unfold propose in H; apply rbind_Ok in H as (u & _ & H); apply rbind_Ok in H as (u1 & _ & H);
    apply rbind_Ok in H as ([o tier] & _ & H); apply rbind_Ok in H as (d & _ & H);
    apply rbind_Ok in H as (t & Ht & H); injection H as <- <-.
  - exists owner. destruct op; split; done.
  - unfold delay_ok in *. rewrite <- (schedule_delay _ _ _ _ _ Ht) in Hd. by destruct op.
Qed.

Lemma propose_reset_inv env tr g l salt id g' : GovApi.propose_canceller_reset env g l salt = Ok (id, g') ->
  gov_inv tr g -> gov_inv (tr ++ [(env, g, ProposeCancellerReset l salt)]) g'.
Proof.
  intros H [(owner & [R1 R2 R3]) Hd Hp]. split; [| |by eapply propose_reset_pending].
  all: unfold GovApi.propose_canceller_reset, GovContract.propose_canceller_reset in H;
    apply rbind_Ok in H as (u & _ & H); cbn zeta in H; apply rbind_Ok in H as (d & _ & H);
    apply rbind_Ok in H as (t & Ht & H); injection H as <- <-.
  - exists owner. by split.
  - unfold delay_ok in *. by rewrite <- (schedule_delay _ _ _ _ _ Ht) in Hd.
Qed.

(** Executing an operation. *)
Lemma finish_inv env tr step g o t g1 : set_execute_operation env (g_timelock g) o = Ok t ->
  self_effect (with_timelock g t) g1 -> gov_inv tr g ->
  gov_inv (tr ++ [step]) (finish_execute g1 (Gov.hash_operation o)).
Proof.
  intros Ht Hs [(owner & [R1 R2 R3]) Hd Hp]. split.
  - destruct (se_roles _ _ Hs owner) as [S1 S2 S3]; [by split|]. exists owner. by split.
  - destruct (se_delay _ _ Hs) as (m & Hm & Hpos).
    { unfold delay_ok in *. cbn. destruct (tl_execute _ _ _ _ Ht) as (_ & -> & _). exact Hd. }
    exists m. split; [|done]. unfold finish_execute. cbn. by rewrite (proj1 (tl_remove _ _)).
  - intros id Hid. apply (kept_pending tr g); [|done|done]. by eapply finish_kept.
Qed.

Lemma world_effect g w : self_effect g (with_world g w).
Proof. split; try done. intros o []. by split. Qed.

Lemma execute_inv env tr g ex target f args pred salt v g' step :
  execute env g ex target f args pred salt = Ok (v, g') -> gov_inv tr g -> gov_inv (tr ++ [step]) g'.
Proof.
  unfold execute. intros H. apply rbind_Ok in H as (u & _ & H). cbn zeta in H.
  apply rbind_Ok in H as (id & Hid & H). apply rbind_Ok in H as (t & Ht & H).
  apply rbind_Ok in H as ([x g1] & H1 & H). injection H as <- <-.
  unfold prepare_execute in Hid. apply rbind_Ok in Hid as (u2 & _ & Hid). apply rbind_Ok in Hid as (u3 & _ & Hid).
  injection Hid as <-. apply call_contract_frame in H1 as [w ->].
  apply (finish_inv env _ _ g _ t); [done|apply world_effect].
Qed.

Lemma execute_self_inv env tr g ex op salt g' step :
  execute_self env g ex op salt = Ok g' -> gov_inv tr g -> gov_inv (tr ++ [step]) g'.
Proof.
  unfold execute_self. intros H. apply rbind_Ok in H as ([o tier] & _ & H). apply rbind_Ok in H as (u & _ & H).
  apply rbind_Ok in H as (id & Hid & H). apply rbind_Ok in H as (t & Ht & H). apply rbind_Ok in H as (g1 & H1 & H).
  injection H as <-. unfold prepare_execute in Hid. apply rbind_Ok in Hid as (u2 & _ & Hid).
  apply rbind_Ok in Hid as (u3 & _ & Hid). injection Hid as <-.
  apply (finish_inv env _ _ g _ t); [done|by eapply apply_self_op_effect].
Qed.

Lemma execute_reset_inv env tr g ex l salt g' step :
  execute_canceller_reset env g ex l salt = Ok g' -> gov_inv tr g -> gov_inv (tr ++ [step]) g'.
Proof.
  unfold execute_canceller_reset. intros H. cbn zeta in H. apply rbind_Ok in H as (id & Hid & H).
  apply rbind_Ok in H as (t & Ht & H). apply rbind_Ok in H as (g1 & H1 & H). injection H as <-.
  unfold prepare_execute in Hid. apply rbind_Ok in Hid as (u2 & _ & Hid).
  apply rbind_Ok in Hid as (u3 & _ & Hid). injection Hid as <-.
  apply (finish_inv env _ _ g _ t); [done|].
  apply quiet_effect; [by eapply apply_canceller_reset_quiet|].
  intros o Ho. by eapply canceller_reset_spec in H1 as [? _].
Qed.

Lemma cancel_inv env tr g c id g' step : cancel env g c id = Ok g' -> gov_inv tr g -> gov_inv (tr ++ [step]) g'.
Proof.
  unfold cancel. intros H [(owner & [R1 R2 R3]) Hd Hp]. do 4 apply rbind_Ok in H as (? & _ & H).
  apply rbind_Ok in H as (t & Ht & H). injection H as <-. destruct (tl_cancel _ _ _ _ Ht) as (_ & Hdel & Hx). split.
  - exists owner. by split.
  - unfold delay_ok in *. cbn. by rewrite Hdel.
  - intros j Hj. apply (kept_pending tr g); [|done|done]. cbn in Hj. rewrite Hx in Hj.
    destruct (decide (j = id)) as [->|Hne]; [unfold DONE_LEDGER, UNSET_LEDGER in Hj; lia|].
    split; unfold role_revocation_target, is_recovery_op; cbn.
    + by rewrite Hx, decide_False.
    + by rewrite lookup_delete_ne.
    + by rewrite lookup_delete_ne.
Qed.

Lemma guardian_frame env g c f args v g' : guardian_call env g c f args = Ok (v, g') -> exists w, g' = with_world g w.
Proof.
  unfold guardian_call. intros H. do 2 apply rbind_Ok in H as (? & _ & H). by apply call_contract_frame in H.
Qed.

Lemma deploy_aggregator_quiet env g h a g' : GovContract.deploy_price_aggregator env g h = Ok (a, g') ->
  quiet g g' /\ g_access g' = g_access g.
Proof.
  unfold GovContract.deploy_price_aggregator. intros H. do 2 apply rbind_Ok in H as (? & _ & H).
  apply rbind_Ok in H as ([ad w] & _ & H). apply rbind_Ok in H as (g1 & H1 & H). injection H as <- <-.
  destruct (has_controller _) in H1; [|by injection H1 as <-].
  apply rbind_Ok in H1 as (c & _ & H1). apply rbind_Ok in H1 as ([v g2] & H2 & H1). injection H1 as <-.
  apply call_contract_frame in H2 as [w2 ->]. by split; [split|].
Qed.

Lemma same_access_roles g g' owner : g_access g' = g_access g -> roles_ok g owner -> exists owner', roles_ok g' owner'.
Proof. intros E []. exists owner. split; unfold separated, members in *; by rewrite E. Qed.

(** ** Every call keeps it *)

Lemma gov_dispatch_inv env tr g call g' : dispatch env g call = Ok g' -> gov_inv tr g ->
  gov_inv (tr ++ [(env, g, call)]) g'.
Proof.
  intros H Hi. destruct call; cbn [dispatch] in H; unfold drop in H.
  - apply rbind_Ok in H as ([a g1] & H & [= <-]). unfold GovApi.deploy_controller in H.
    apply rbind_Ok in H as (u & _ & H). unfold GovContract.deploy_controller in H.
    do 2 apply rbind_Ok in H as (? & _ & H). apply rbind_Ok in H as ([ad w] & _ & H). injection H as <- <-.
    revert Hi. apply quiet_inv; [by split|]. intros o. by apply same_access_roles.
  - apply rbind_Ok in H as ([a g1] & H & [= <-]). unfold GovApi.deploy_price_aggregator in H.
    apply rbind_Ok in H as (u & _ & H). apply deploy_aggregator_quiet in H as [Hq Ha].
    revert Hi. apply quiet_inv; [done|]. intros o. by apply same_access_roles.
  - apply rbind_Ok in H as ([id g1] & H & [= <-]). by eapply propose_inv.
  - apply rbind_Ok in H as ([v g1] & H & [= <-]). by eapply execute_inv.
  - by eapply execute_self_inv.
  - by eapply cancel_inv.
  - apply rbind_Ok in H as ([id g1] & H & [= <-]). by eapply propose_reset_inv.
  - by eapply execute_reset_inv.
  - apply rbind_Ok in H as ([v g1] & [w ->]%guardian_frame & [= <-]). by apply world_inv.
  - apply rbind_Ok in H as ([v g1] & [w ->]%guardian_frame & [= <-]). by apply world_inv.
  - unfold set_sanity_band in H. do 2 apply rbind_Ok in H as (? & _ & H).
    apply rbind_Ok in H as ([v g1] & [w ->]%call_contract_frame & [= <-]). by apply world_inv.
  - unfold create_hub in H. apply rbind_Ok in H as ([n g2] & H & [= <-]).
    apply rbind_Ok in H as ([v g1] & [w ->]%guardian_frame & H). apply rbind_Ok in H as (? & _ & [= _ <-]).
    by apply world_inv.
  - unfold add_spoke in H. apply rbind_Ok in H as ([n g2] & H & [= <-]).
    apply rbind_Ok in H as ([v g1] & [w ->]%guardian_frame & H). apply rbind_Ok in H as (? & _ & [= _ <-]).
    by apply world_inv.
  - apply rbind_Ok in H as ([v g1] & [w ->]%guardian_frame & [= <-]). by apply world_inv.
  - apply rbind_Ok in H as ([v g1] & [w ->]%guardian_frame & [= <-]). by apply world_inv.
  - unfold GovApi.revoke_role_immediate in H. apply rbind_Ok in H as (u & _ & H).
    unfold GovContract.revoke_role_immediate in H. do 2 apply rbind_Ok in H as (? & _ & H).
    pose proof (apply_self_op_effect env g (RevokeGovRole (mkRoleArgs account role)) g' H) as Heff.
    revert Hi. apply quiet_inv; [|intros o Ho; exists o; by apply Heff].
    unfold apply_revoke_role in H. do 4 apply rbind_Ok in H as (? & _ & H). by apply revoke_quiet in H.
  - revert Hi. apply quiet_inv; [by eapply accept_ownership_quiet|]. intros o Ho.
    destruct (accept_ownership_ok _ _ _ _ H Ho) as (n & ? & _). by exists n.
Qed.

(** ** Reachable states *)

Inductive gov_reachable (self : Address) : list Step -> Governance W -> Prop :=
| gr_init w admin delay g : 0 <= delay -> constructor w admin delay = Ok g -> gov_reachable self [] g
| gr_call tr g env call g' : gov_reachable self tr g -> gov_address env = self ->
    Forall (fun step => step_ledger step <= ledger_sequence env) tr ->
    dispatch env g call = Ok g' -> gov_reachable self (tr ++ [(env, g, call)]) g'
| gr_world tr g w : gov_reachable self tr g -> gov_reachable self tr (with_world g w).

Lemma gov_constructor_inv w admin delay g : 0 <= delay -> constructor w admin delay = Ok g -> gov_inv [] g.
Proof.
  intros Hd H. unfold constructor in H. apply rbind_Ok in H as (a & Ha & H). apply rbind_Ok in H as (a2 & Ha2 & H).
  apply rbind_Ok in H as (u & Hz%require_Ok & H). injection H as <-. b2p.
  destruct (al_set_owner _ _ _ Ha) as [O1 O2]. destruct (al_admin _ _ _ Ha2) as [P1 P2].
  destruct al_empty as [_ E].
  assert (forall l b, (forall r x, x ∈ role_members b r -> x = admin) -> get_owner b = Some admin ->
    let b' := fold_left (fun b role => grant_role_no_auth b admin role) l b in
    get_owner b' = Some admin /\ (forall r x, x ∈ role_members b' r -> x = admin)
    /\ (forall r, r ∈ l \/ admin ∈ role_members b r -> admin ∈ role_members b' r)) as Hfold.
  { induction l as [|r l IH]; intros b Hb Hob; cbn zeta; cbn [fold_left].
    - split; [done|]. split; [done|]. intros r [?%elem_of_nil|]; done.
    - destruct (al_grant b admin r) as [G1 G2]. destruct (IH (grant_role_no_auth b admin r)) as (I1 & I2 & I3).
      + intros r' x [Hx|[-> _]]%G2; [by eapply Hb|done].
      + congruence.
      + split; [done|]. split; [done|]. intros r' Hr. apply I3. rewrite G2. rewrite elem_of_cons in Hr. naive_solver. }
  destruct (Hfold default_operational_roles a2) as (F1 & F2 & F3).
  { intros r x Hx. rewrite P2, O2, E in Hx. by apply elem_of_nil in Hx. }
  { congruence. }
  destruct (tl_set_delay no_timelock delay) as [D1 D2]. split.
  - exists admin. split; [exact F1|intros r Hr; apply F3; by left|].
    intros x Hx [He _]. apply Hx. by eapply F2.
  - exists delay. split; [exact D1|lia].
  - intros id Hid. cbn in Hid. rewrite D2, (proj2 tl_empty) in Hid. unfold UNSET_LEDGER, DONE_LEDGER in Hid. lia.
Qed.

Theorem gov_reachable_inv self tr g : gov_reachable self tr g -> gov_inv tr g.
Proof.
  induction 1 as [w admin delay g Hd Hc|tr g env call g' _ IH _ _ Hc|tr g w _ [(o & []) Hd Hp]].
  - by eapply gov_constructor_inv.
  - by eapply gov_dispatch_inv.
  - split; [exists o; by split|done|done].
Qed.

End Reach.

End GovReach.
