(* ===== verification/GovProps.v ===== *)
(** * Properties of governance

    [GovSample.]: an implementation of the access and timelock interfaces and a ledger with
    one controller, so that the assumptions of the theorems can hold together.
    [GovTargets.]: the entry points that resolved operations become.  Then the properties
    with their witnesses. *)

From S2P Require Import Prelude Errors FpCore Fp PoolTypes PoolCache ControllerTypes Risk OracleMath AggState AggContract AggRegistry CtlState CtlConfig CtlContract GovOps GovContract GovReach.
From stdpp Require Import base numbers list gmap strings.
From Stdlib Require Import ZArith Lia Bool.

Open Scope Z_scope.

(** ** Concrete libraries *)

Module GovSample.

Import Config Gov GovOps GovContract GovApi GovReach.

(** ** Access *)

Record SampleAccess : Type := mkSampleAccess {
  sa_owner : option Address;
  sa_admin : option Address;
  sa_pending : option Address;
  sa_members : gmap string (list Address)
}.

Definition sample_members (l : SampleAccess) (r : string) : list Address :=
  remove_dups (default [] (sa_members l !! r)).

Definition with_owner (l : SampleAccess) (o p : option Address) : SampleAccess :=
  mkSampleAccess o (sa_admin l) p (sa_members l).
Definition with_members (l : SampleAccess) (r : string) (m : list Address) : SampleAccess :=
  mkSampleAccess (sa_owner l) (sa_admin l) (sa_pending l) (<[r := m]> (sa_members l)).

#[export] Instance sample_access : AccessLib := {|
  Access := SampleAccess;
  no_access := mkSampleAccess None None None ∅;
  get_owner := sa_owner;
  set_owner l a := match sa_owner l with None => Ok (with_owner l (Some a) None) | Some _ => Err HostTrap end;
  get_admin := sa_admin;
  set_admin l a := Ok (mkSampleAccess (sa_owner l) (Some a) (sa_pending l) (sa_members l));
  put_admin l a := mkSampleAccess (sa_owner l) (Some a) (sa_pending l) (sa_members l);
  drop_pending_admin l := l;
  transfer_owner_role _ l a n := Ok (with_owner l (sa_owner l) (if n =? 0 then None else Some a));
  transfer_admin_role _ l _ _ := Ok l;
  lib_accept_ownership env l :=
    match sa_pending l with
    | Some a => do! require (gov_authorized env a) HostTrap in Ok (with_owner l (Some a) None)
    | None => Err HostTrap
    end;
  role_members := sample_members;
  grant_role_no_auth l a r := with_members l r (default [] (sa_members l !! r) ++ [a]);
  revoke_role_no_auth l a r :=
    do! require (bool_decide (a ∈ sample_members l r)) HostTrap in
    Ok (with_members l r (filter (fun x => x <> a) (sample_members l r)))
|}.

Lemma filter_prefix (l : list Address) a i j : NoDup l -> l !! i = Some a -> (j < i)%nat ->
  filter (fun x => x <> a) l !! j = l !! j.
Proof.
  intros Hn. revert i j. induction Hn as [|x l Hx Hn IH]; intros i j Hi Hj; [done|].
  destruct i as [|i]; [lia|]. cbn in Hi. rewrite filter_cons_True.
  - destruct j as [|j]; [done|]. cbn. apply (IH i); [done|lia].
  - intros ->. apply Hx. by eapply list_elem_of_lookup_2.
Qed.

Lemma members_insert l r m r' : sample_members (with_members l r m) r'
  = if decide (r = r') then remove_dups m else sample_members l r'.
Proof.
  unfold sample_members. cbn. destruct (decide (r = r')) as [->|Hne].
  - by rewrite lookup_insert_eq.
  - by rewrite lookup_insert_ne.
Qed.

#[export] Instance sample_access_laws : AccessLaws.
Proof.
  split; cbn.
  - split; [done|]. intros r. unfold sample_members. cbn. by rewrite lookup_empty.
  - intros l a l'. destruct (sa_owner l); [done|]. intros [= <-]. done.
  - by intros l a l' [= <-].
  - done.
  - done.
  - by intros env l a n l' [= <-].
  - by intros env l a n l' [= <-].
  - intros env l l'. destruct (sa_pending l) as [a|]; [|done]. intros H. ok_inv H. split; [by exists a|done].
  - intros l r. apply NoDup_remove_dups.
  - intros l a r. split; [done|]. intros x r'. rewrite members_insert. destruct (decide (r = r')) as [->|Hne].
    + rewrite elem_of_remove_dups, elem_of_app, list_elem_of_singleton. unfold sample_members.
      rewrite elem_of_remove_dups. naive_solver.
    + naive_solver.
  - intros l a r l' H. apply rbind_Ok in H as (u & Ha%require_Ok & H). injection H as <-.
    apply bool_decide_eq_true in Ha. split; [done|]. split; [done|]. split.
    + intros x r'. rewrite members_insert. destruct (decide (r = r')) as [->|Hne].
      * rewrite elem_of_remove_dups, list_elem_of_filter. naive_solver.
      * naive_solver.
    + intros i j Hi Hj. rewrite members_insert, decide_True by done.
      assert (NoDup (sample_members l r)) as Hn by apply NoDup_remove_dups.
      assert (remove_dups (filter (fun x => x <> a) (sample_members l r)) = filter (fun x => x <> a) (sample_members l r)) as ->.
      { assert (forall k : list Address, NoDup k -> remove_dups k = k) as Hd.
        { induction 1 as [|y k Hy Hk IH]; cbn; [done|]. rewrite IH. by destruct (decide_rel _ _ _). }
        apply Hd. by apply NoDup_filter. }
      by apply (filter_prefix _ a i).
  - intros l a r Ha. rewrite bool_decide_true by done. cbn. eauto.
Qed.

(** ** Timelock *)

Record SampleTimelock : Type := mkSampleTimelock {
  st_delay : option Z;
  st_ledgers : gmap Hash Z
}.

Definition sample_ledger (t : SampleTimelock) (id : Hash) : Z := default 0 (st_ledgers t !! id).

#[export] Instance sample_timelock : TimelockLib := {|
  Timelock := SampleTimelock;
  no_timelock := mkSampleTimelock None ∅;
  Gov.hash_operation := op_salt;
  Gov.get_min_delay := st_delay;
  set_min_delay t n := mkSampleTimelock (Some n) (st_ledgers t);
  Gov.get_operation_ledger := sample_ledger;
  schedule_operation env t o d :=
    do! require (sample_ledger t (op_salt o) =? 0) HostTrap in
    let* m := of_option HostTrap (st_delay t) in
    do! require (m <=? d) HostTrap in
    Ok (mkSampleTimelock (st_delay t) (<[op_salt o := ledger_sequence env + d]> (st_ledgers t)));
  set_execute_operation env t o :=
    do! require ((1 <? sample_ledger t (op_salt o)) && (sample_ledger t (op_salt o) <=? ledger_sequence env)) HostTrap in
    Ok (mkSampleTimelock (st_delay t) (<[op_salt o := 1]> (st_ledgers t)));
  cancel_operation env t id :=
    do! require (1 <? sample_ledger t id) HostTrap in
    Ok (mkSampleTimelock (st_delay t) (delete id (st_ledgers t)));
  remove_operation_ledger t id := mkSampleTimelock (st_delay t) (delete id (st_ledgers t))
|}.

Lemma ledger_insert d m id n j : sample_ledger (mkSampleTimelock d (<[id := n]> m)) j
  = if decide (j = id) then n else sample_ledger (mkSampleTimelock d m) j.
Proof.
  unfold sample_ledger. cbn. destruct (decide (j = id)) as [->|].
  - by rewrite lookup_insert_eq.
  - by rewrite lookup_insert_ne.
Qed.

Lemma ledger_delete d m id j : sample_ledger (mkSampleTimelock d (delete id m)) j
  = if decide (j = id) then 0 else sample_ledger (mkSampleTimelock d m) j.
Proof.
  unfold sample_ledger. cbn. destruct (decide (j = id)) as [->|].
  - by rewrite lookup_delete_eq.
  - by rewrite lookup_delete_ne.
Qed.

#[export] Instance sample_timelock_laws : TimelockLaws.
Proof.
  split; cbn.
  - split; [done|]. intros id. unfold sample_ledger. cbn. by rewrite lookup_empty.
  - done.
  - intros env t o d t' H. ok_inv H. b2p. split; [done|]. split; [eauto|]. split; [done|].
    intros id. apply ledger_insert.
  - intros env t o t' H. ok_inv H. b2p. split; [unfold DONE_LEDGER; lia|]. split; [done|]. intros id. apply ledger_insert.
  - intros env t id t' H. ok_inv H. b2p. split; [unfold DONE_LEDGER; lia|]. split; [done|]. intros j. apply ledger_delete.
  - intros t id. split; [done|]. intros j. apply ledger_delete.
Qed.

(** ** A ledger that answers calls *)

Definition addr (n : N) : Address := mkAddress n.
Definition self : Address := addr 1.
Definition owner : Address := addr 2.
Definition canceller : Address := addr 3.
Definition guardian : Address := addr 4.
Definition controller : Address := addr 10.

#[export] Instance sample_host : GovHost unit := {|
  invoke w _ f _ := Ok (if bool_decide (f = "create_hub") then VU32 1 else VVoid, w);
  is_wasm_contract _ _ := true;
  token_decimals_of _ _ := Some 7;
  token_has_symbol _ _ := true;
  listed_oracle _ _ _ := Ok None;
  flags_epoch _ _ _ _ := Ok 0;
  deploy_contract w salt _ _ := Ok (if bool_decide (salt = CONTROLLER_DEPLOY_SALT) then controller else addr 11, w);
  update_code w _ := w
|}.

Definition at_ledger (n : Z) (who : Address) : GovEnv := mkGovEnv n self (fun a => bool_decide (a = who)).

Definition force (c : res (Governance unit)) : Governance unit :=
  match c with
  | Ok g => g
  | Err _ => mkGovernance no_access no_timelock None None ∅ ∅ [] tt
  end.

Definition salt (n : N) : Hash := replicate 32 n.
Definition code : Hash := replicate 32 7%N.

Definition deployed : Governance unit := Eval vm_compute in force (constructor tt owner 50000).

Definition wired : Governance unit :=
  Eval vm_compute in force (dispatch (at_ledger 100 owner) deployed (DeployController code)).

(** The owner proposes a canceller, a hub is proposed, and a lower delay. *)
Definition grant_op : AdminOperation := GrantGovRole (mkRoleArgs canceller CANCELLER_ROLE).
Definition proposed1 : Governance unit :=
  Eval vm_compute in force (dispatch (at_ledger 200 owner) wired (Propose owner grant_op (salt 1))).
Definition proposed2 : Governance unit :=
  Eval vm_compute in force (dispatch (at_ledger 210 owner) proposed1 (Propose owner CreateHub (salt 2))).
Definition proposed3 : Governance unit :=
  Eval vm_compute in force (dispatch (at_ledger 220 owner) proposed2 (ProposeCancellerReset [guardian] (salt 3))).

Definition trace : list (GovEnv * Governance unit * GovCall) :=
  [(at_ledger 100 owner, deployed, DeployController code);
   (at_ledger 200 owner, wired, Propose owner grant_op (salt 1));
   (at_ledger 210 owner, proposed1, Propose owner CreateHub (salt 2));
   (at_ledger 220 owner, proposed2, ProposeCancellerReset [guardian] (salt 3))].

Lemma gov_deployed_ok : constructor tt owner 50000 = Ok deployed.
Proof. vm_cast_no_check (eq_refl (Ok deployed : res (Governance unit))). Qed.
Lemma wired_ok : dispatch (at_ledger 100 owner) deployed (DeployController code) = Ok wired.
Proof. vm_cast_no_check (eq_refl (Ok wired : res (Governance unit))). Qed.
Lemma proposed1_ok : dispatch (at_ledger 200 owner) wired (Propose owner grant_op (salt 1)) = Ok proposed1.
Proof. vm_cast_no_check (eq_refl (Ok proposed1 : res (Governance unit))). Qed.
Lemma proposed2_ok : dispatch (at_ledger 210 owner) proposed1 (Propose owner CreateHub (salt 2)) = Ok proposed2.
Proof. vm_cast_no_check (eq_refl (Ok proposed2 : res (Governance unit))). Qed.
Lemma proposed3_ok :
  dispatch (at_ledger 220 owner) proposed2 (ProposeCancellerReset [guardian] (salt 3)) = Ok proposed3.
Proof. vm_cast_no_check (eq_refl (Ok proposed3 : res (Governance unit))). Qed.

Lemma sample_reachable : gov_reachable self trace proposed3.
Proof.
  apply (gr_call self (take 3 trace) proposed2 (at_ledger 220 owner) (ProposeCancellerReset [guardian] (salt 3)));
    [|reflexivity|repeat constructor; cbn; lia|exact proposed3_ok].
  apply (gr_call self (take 2 trace) proposed1 (at_ledger 210 owner) (Propose owner CreateHub (salt 2)));
    [|reflexivity|repeat constructor; cbn; lia|exact proposed2_ok].
  apply (gr_call self (take 1 trace) wired (at_ledger 200 owner) (Propose owner grant_op (salt 1)));
    [|reflexivity|repeat constructor; cbn; lia|exact proposed1_ok].
  apply (gr_call self [] deployed (at_ledger 100 owner) (DeployController code));
    [|reflexivity|constructor|exact wired_ok].
  apply (gr_init self tt owner 50000); [lia|exact gov_deployed_ok].
Qed.

End GovSample.

(** ** The calls that resolved operations become

    A contract exports its entrypoints by name; these are the administrative ones of
    contracts/controller/src/lib.rs and contracts/price-aggregator/src/lib.rs. *)

Module GovTargets.

Import Config Gov GovOps GovContract.

Definition controller_entry (function : Symbol) (args : list Val) : option Entry.Call :=
  match args with
  | [] =>
      if bool_decide (function = "create_hub") then Some Entry.CreateHub
      else if bool_decide (function = "add_spoke") then Some Entry.AddSpoke
      else if bool_decide (function = "pause") then Some Entry.Pause
      else if bool_decide (function = "unpause") then Some Entry.Unpause
      else None
  | [VAddress a] =>
      if bool_decide (function = "set_swap_aggregator") then Some (Entry.SetSwapAggregator a)
      else if bool_decide (function = "set_price_aggregator") then Some (Entry.SetPriceAggregator a)
      else if bool_decide (function = "set_accumulator") then Some (Entry.SetAccumulator a)
      else if bool_decide (function = "approve_blend_pool") then Some (Entry.ApproveBlendPool a)
      else if bool_decide (function = "revoke_blend_pool") then Some (Entry.RevokeBlendPool a)
      else None
  | [VPositionLimits l] =>
      if bool_decide (function = "set_position_limits") then Some (Entry.SetPositionLimits l) else None
  | [VI128 x] =>
      if bool_decide (function = "set_min_borrow_collateral_usd")
      then Some (Entry.SetMinBorrowCollateralUsd x) else None
  | [VAddress a; VBool b] =>
      if bool_decide (function = "set_position_manager") then Some (Entry.SetPositionManager a b) else None
  | [VU32 n] =>
      if bool_decide (function = "remove_spoke") then Some (Entry.RemoveSpoke n)
      else if bool_decide (function = "migrate") then Some (Entry.Migrate n)
      else None
  | [VU64 n] =>
      if bool_decide (function = "force_socialize_bad_debt") then Some (Entry.ForceSocializeBadDebt n)
      else None
  | [VU32 id; VI128 x; VI128 y; VU32 z] =>
      if bool_decide (function = "set_spoke_liquidation_curve")
      then Some (Entry.SetSpokeLiquidationCurve id x y z) else None
  | [VSpokeAssetArgs x] =>
      if bool_decide (function = "add_asset_to_spoke") then Some (Entry.AddAssetToSpoke x)
      else if bool_decide (function = "edit_asset_in_spoke") then Some (Entry.EditAssetInSpoke x)
      else None
  | [VU32 sp; VHubAssetKey h; VBool x; VBool y; VBool z] =>
      if bool_decide (function = "set_spoke_asset_flags") then Some (Entry.SetSpokeAssetFlags sp h x y z)
      else None
  | [VU32 sp; VHubAssetKey h; VU64 e; VBool x; VBool y; VBool z] =>
      if bool_decide (function = "relax_spoke_asset_flags")
      then Some (Entry.RelaxSpokeAssetFlags sp h e x y z) else None
  | [VHubAssetKey h; VU32 sp] =>
      if bool_decide (function = "remove_asset_from_spoke") then Some (Entry.RemoveAssetFromSpoke h sp)
      else None
  | [VHash hash] =>
      if bool_decide (function = "deploy_pool") then Some (Entry.DeployPool hash) else None
  | [VHash hash; VString uri; VString name; VString symbol] =>
      if bool_decide (function = "deploy_position_nft")
      then Some (Entry.DeployPositionNft hash uri name symbol) else None
  | [VU32 hub; VAddress token; VMarketParams p] =>
      if bool_decide (function = "create_liquidity_pool") then Some (Entry.CreateLiquidityPool hub token p)
      else None
  | [VHubAssetKey h; VRateModel m] =>
      if bool_decide (function = "upgrade_liquidity_pool_params")
      then Some (Entry.UpgradeLiquidityPoolParams h m) else None
  | _ => None
  end.

Definition aggregator_entry (function : Symbol) (args : list Val) : option AggRegistry.AdminCall :=
  match args with
  | [VPriceKey k; VAssetOracle o] =>
      if bool_decide (function = "set_oracle") then Some (AggRegistry.SetOracle k o) else None
  | [VPriceKey k; VI128 lo; VI128 hi] =>
      if bool_decide (function = "set_sanity_band") then Some (AggRegistry.SetSanityBand k lo hi) else None
  | [VPriceKey k; VTolerance t] =>
      if bool_decide (function = "set_tolerance") then Some (AggRegistry.SetTolerance k t) else None
  | _ => None
  end.

(** The administrative entrypoints an operation can stand for.  Code upgrades and the offer of
    ownership are not calls of the controller's and aggregator's own state machines. *)
Inductive Entrypoint : Type :=
| OnController (c : Entry.Call)
| UpgradeControllerCode (hash : Hash)
| UpgradePoolCode (hash : Hash)
| UpgradeNftCode (hash : Hash)
| OfferController (new_owner : Address) (live_until : Z)
| OnAggregator (c : AggRegistry.AdminCall)
| UpgradeAggregatorCode (hash : Hash)
| OnSelf (op : AdminOperation).

Definition controller_exports (function : Symbol) (args : list Val) : option Entrypoint :=
  match args with
  | [VHash hash] =>
      if bool_decide (function = "upgrade") then Some (UpgradeControllerCode hash)
      else if bool_decide (function = "upgrade_pool") then Some (UpgradePoolCode hash)
      else if bool_decide (function = "upgrade_position_nft") then Some (UpgradeNftCode hash)
      else OnController <$> controller_entry function args
  | [VAddress a; VU32 n] =>
      if bool_decide (function = "transfer_ownership") then Some (OfferController a n) else None
  | _ => OnController <$> controller_entry function args
  end.

Definition aggregator_exports (function : Symbol) (args : list Val) : option Entrypoint :=
  match args with
  | [VHash hash] => if bool_decide (function = "upgrade") then Some (UpgradeAggregatorCode hash) else None
  | _ => OnAggregator <$> aggregator_entry function args
  end.

(** The operation a self call encodes. *)
Definition self_decodes (function : Symbol) (args : list Val) : option AdminOperation :=
  match args with
  | [VHash hash] => if bool_decide (function = "upgrade") then Some (UpgradeGov hash) else None
  | [VU32 n] => if bool_decide (function = "update_delay") then Some (UpdateGovDelay n) else None
  | [VAddress a; VSymbol r] =>
      if bool_decide (function = "grant_role") then Some (GrantGovRole (mkRoleArgs a r))
      else if bool_decide (function = "revoke_role") then Some (RevokeGovRole (mkRoleArgs a r))
      else None
  | [VAddress a; VU32 n] =>
      if bool_decide (function = "transfer_ownership")
      then Some (TransferGovOwnership (mkTransferOwnershipArgs a n)) else None
  | [VAddress a] => if bool_decide (function = "set_price_aggregator") then Some (SetPriceAggregator a) else None
  | _ => None
  end.

(** Operations whose target is the governance contract. *)
Definition is_self_op (op : AdminOperation) : bool :=
  match op with
  | UpgradeGov _ | UpdateGovDelay _ | GrantGovRole _ | RevokeGovRole _ | TransferGovOwnership _
  | SetPriceAggregator _ => true
  | _ => false
  end.

(** Operations under the sensitive delay tier. *)
Definition is_sensitive (op : AdminOperation) : bool :=
  match op with
  | UpgradeGov _ | UpgradeController _ | UpgradePool _ | UpgradePositionNft _ | UpgradePriceAggregator _
  | GrantGovRole _ | RevokeGovRole _ | TransferGovOwnership _ | TransferCtrlOwnership _
  | SetPriceAggregator _ | SetSwapAggregator _ | SetPositionManager _ _ | ForceSocializeBadDebt _ => true
  | _ => false
  end.

Section Spec.

Context `{HA : AccessLib} `{HT : TimelockLib} {W : Type} `{HW : !GovHost W}.

Implicit Types g : Governance W.

(** The call a resolved operation makes, by the exports of the contract at its target. *)
Definition reaches (env : GovEnv) g (r : ResolvedOperation) (e : Entrypoint) : Prop :=
  match e with
  | OnSelf op => rs_target r = gov_address env /\ self_decodes (rs_function r) (rs_args r) = Some op
  | OnAggregator _ | UpgradeAggregatorCode _ =>
      g_price_aggregator g = Some (rs_target r) /\ aggregator_exports (rs_function r) (rs_args r) = Some e
  | _ => g_controller g = Some (rs_target r) /\ controller_exports (rs_function r) (rs_args r) = Some e
  end.

(** The decimals a price key is configured with: those the aggregator lists, else the token's,
    and none for a reference. *)
Definition decimals_for g (key : PriceKey) (d : Z) : Prop :=
  match key with
  | Ref _ => d = 0
  | Token a =>
      exists n, token_decimals_of (g_world g) a = Some n /\ token_has_symbol (g_world g) a = true
      /\ match g_price_aggregator g with
         | None => d = n
         | Some agg => exists o, listed_oracle (g_world g) agg (Token a) = Ok o
                       /\ d = default n (ao_asset_decimals <$> o)
         end
  end.

Definition with_decimals (o : AssetOracle) (d : Z) : AssetOracle :=
  mkAssetOracle d (ao_max_price_stale_seconds o) (ao_sources o) (ao_tolerance o) (ao_independence o)
    (ao_min_sanity_price_wad o) (ao_max_sanity_price_wad o).

(** The entrypoint an operation stands for, with its arguments. *)
Definition intended g (op : AdminOperation) (e : Entrypoint) : Prop :=
  match op with
  | SetSwapAggregator a => e = OnController (Entry.SetSwapAggregator a)
  | SetAccumulator a => e = OnController (Entry.SetAccumulator a)
  | SetPositionLimits l => e = OnController (Entry.SetPositionLimits l)
  | SetMinBorrowCollateralUsd x => e = OnController (Entry.SetMinBorrowCollateralUsd x)
  | CreateHub => e = OnController Entry.CreateHub
  | AddSpoke => e = OnController Entry.AddSpoke
  | RemoveSpoke n => e = OnController (Entry.RemoveSpoke n)
  | AddAssetToSpoke x => e = OnController (Entry.AddAssetToSpoke x)
  | EditAssetInSpoke x => e = OnController (Entry.EditAssetInSpoke x)
  | RemoveAssetFromSpoke x => e = OnController (Entry.RemoveAssetFromSpoke (ra_hub_asset x) (ra_spoke_id x))
  | RelaxSpokeAssetFlags x =>
      e = OnController (Entry.RelaxSpokeAssetFlags (rx_spoke_id x) (rx_hub_asset x) (rx_expected_epoch x)
                          (rx_paused x) (rx_frozen x) (rx_no_seize x))
  | ApproveBlendPool a => e = OnController (Entry.ApproveBlendPool a)
  | RevokeBlendPool a => e = OnController (Entry.RevokeBlendPool a)
  | CreateLiquidityPool x =>
      e = OnController (Entry.CreateLiquidityPool (cp_hub_id x) (cp_asset x) (cp_params x))
  | UpgradeLiquidityPoolParams x =>
      e = OnController (Entry.UpgradeLiquidityPoolParams (up_hub_asset x) (up_params x))
  | DeployPool h => e = OnController (Entry.DeployPool h)
  | DeployPositionNft x =>
      e = OnController (Entry.DeployPositionNft (dn_wasm_hash x) (dn_uri x) (dn_name x) (dn_symbol x))
  | UpgradePool h => e = UpgradePoolCode h
  | UpgradePositionNft h => e = UpgradeNftCode h
  | UpgradePriceAggregator h => e = UpgradeAggregatorCode h
  | SetPositionManager a b => e = OnController (Entry.SetPositionManager a b)
  | UpgradeController h => e = UpgradeControllerCode h
  | MigrateController v => e = OnController (Entry.Migrate v)
  | TransferCtrlOwnership x => e = OfferController (to_new_owner x) (to_live_until_ledger x)
  | SetSpokeLiquidationCurve x =>
      e = OnController (Entry.SetSpokeLiquidationCurve (lc_spoke_id x) (lc_target_hf_wad x)
                          (lc_hf_for_max_bonus_wad x) (lc_liquidation_bonus_factor_bps x))
  | ForceSocializeBadDebt id => e = OnController (Entry.ForceSocializeBadDebt id)
  | Unpause => e = OnController Entry.Unpause
  | ConfigureAssetOracle x =>
      exists d, decimals_for g (co_key x) d
      /\ e = OnAggregator (AggRegistry.SetOracle (co_key x) (with_decimals (co_oracle x) d))
  | EditOracleTolerance x =>
      e = OnAggregator (AggRegistry.SetTolerance (et_key x)
            (mkOracleTolerance (BPS + et_tolerance x) (half_up_div (BPS * BPS) (BPS + et_tolerance x))))
  | UpgradeGov _ | UpdateGovDelay _ | GrantGovRole _ | RevokeGovRole _ | TransferGovOwnership _
  | SetPriceAggregator _ => e = OnSelf op
  end.

(** ** Which operations are accepted *)

Definition rate_model_sane (m : InterestRateModel) : Prop :=
  0 <= irm_base_borrow_rate m <= irm_slope1 m /\ irm_slope1 m <= irm_slope2 m <= irm_slope3 m
  /\ irm_slope3 m <= irm_max_borrow_rate m <= MAX_BORROW_RATE_RAY
  /\ irm_base_borrow_rate m < irm_max_borrow_rate m
  /\ 0 < irm_mid_utilization m < irm_optimal_utilization m /\ irm_optimal_utilization m < RAY
  /\ irm_optimal_utilization m <= irm_max_utilization m <= RAY
  /\ irm_reserve_factor m < BPS /\ irm_flashloan_fee m <= MAX_FLASHLOAN_FEE_BPS.

Definition listing_sane (x : SpokeAssetArgs) : Prop :=
  aa_ltv x < aa_threshold x <= BPS /\ aa_threshold x * (BPS + aa_bonus x) <= BPS * BPS
  /\ aa_liquidation_fees x < BPS /\ 0 <= aa_supply_cap x /\ 0 <= aa_borrow_cap x.

Definition real_code (hash : Hash) : Prop := hash <> replicate 32 0%N.

Definition delay_allowed g (n : Z) : Prop :=
  n <> 0 /\ n <= TIMELOCK_MAX_DELAY_LEDGERS
  /\ exists m, Gov.get_min_delay (g_timelock g) = Some m /\ (m <= n \/ TIMELOCK_MIN_DELAY_LEDGERS <= n).

Definition admissible g (op : AdminOperation) : Prop :=
  match op with
  | UpgradeGov h | UpgradeController h | UpgradePool h | UpgradePositionNft h | UpgradePriceAggregator h
  | DeployPool h => real_code h
  | DeployPositionNft x => real_code (dn_wasm_hash x)
  | UpdateGovDelay n => delay_allowed g n
  | GrantGovRole x | RevokeGovRole x => ro_role x ∈ default_operational_roles
  | SetSwapAggregator a | SetPriceAggregator a | ApproveBlendPool a | RevokeBlendPool a =>
      is_wasm_contract (g_world g) a = true
  | TransferCtrlOwnership x => is_wasm_contract (g_world g) (to_new_owner x) = true
  | SetPositionLimits l =>
      1 <= Risk.max_supply_positions l <= POSITION_LIMIT_MAX
      /\ 1 <= Risk.max_borrow_positions l <= POSITION_LIMIT_MAX
  | SetMinBorrowCollateralUsd x => 0 <= x
  | AddAssetToSpoke x | EditAssetInSpoke x => listing_sane x
  | RelaxSpokeAssetFlags x =>
      exists c, g_controller g = Some c
      /\ flags_epoch (g_world g) c (rx_spoke_id x) (rx_hub_asset x) = Ok (rx_expected_epoch x)
  | CreateLiquidityPool x =>
      let p := cp_params x in
      rp_asset_id p = cp_asset x /\ decimals_for g (Token (cp_asset x)) (rp_asset_decimals p)
      /\ OracleBounds.MIN_ASSET_DECIMALS <= rp_asset_decimals p <= MAX_ASSET_DECIMALS
      /\ rp_asset_decimals p <= WAD_DECIMALS
      /\ (rp_is_flashloanable p = true -> MIN_BORROWABLE_ASSET_DECIMALS <= rp_asset_decimals p)
      /\ rate_model_sane (rate_model_view p)
  | UpgradeLiquidityPoolParams x => rate_model_sane (up_params x)
  | SetSpokeLiquidationCurve x =>
      WAD < lc_target_hf_wad x <= MAX_LIQUIDATION_TARGET_HF_WAD
      /\ 0 < lc_hf_for_max_bonus_wad x < lc_target_hf_wad x
      /\ 0 < lc_liquidation_bonus_factor_bps x <= BPS
  | ConfigureAssetOracle x => exists d, decimals_for g (co_key x) d
  | EditOracleTolerance x => MIN_TOLERANCE <= et_tolerance x <= MAX_TOLERANCE
  | SetAccumulator _ | CreateHub | AddSpoke | RemoveSpoke _ | RemoveAssetFromSpoke _
  | SetPositionManager _ _ | MigrateController _ | ForceSocializeBadDebt _ | Unpause
  | TransferGovOwnership _ => True
  end.

(** The contract an operation needs is deployed. *)
Definition target_known g (op : AdminOperation) : Prop :=
  match op with
  | UpgradePriceAggregator _ | ConfigureAssetOracle _ | EditOracleTolerance _ => is_Some (g_price_aggregator g)
  | _ => is_self_op op = true \/ is_Some (g_controller g)
  end.

(** ** Operations of governance on itself *)

(** What stands in the way of one when it is applied. *)
Definition self_allowed (env : GovEnv) g (op : AdminOperation) : Prop :=
  match op with
  | UpgradeGov _ => True
  | UpdateGovDelay n => delay_allowed g n
  | GrantGovRole x =>
      exists owner, get_owner (g_access g) = Some owner
      /\ (ro_account x = owner
          \/ (ro_role x = EXECUTOR_ROLE -> GovOps.has_role g (ro_account x) CANCELLER_ROLE = false)
             /\ (ro_role x = CANCELLER_ROLE -> GovOps.has_role g (ro_account x) EXECUTOR_ROLE = false))
  | RevokeGovRole x =>
      GovOps.has_role g (ro_account x) (ro_role x) = true
      /\ (exists owner, get_owner (g_access g) = Some owner /\ ro_account x <> owner)
      /\ (ro_role x = PROPOSER_ROLE -> (1 < get_role_member_count g PROPOSER_ROLE)%nat)
  | TransferGovOwnership x =>
      is_Some (get_owner (g_access g))
      /\ exists a, transfer_owner_role env (g_access g) (to_new_owner x) (to_live_until_ledger x) = Ok a
      /\ (to_live_until_ledger x <> 0 ->
          is_ok (transfer_admin_role env a (to_new_owner x) (to_live_until_ledger x)) = true)
  | SetPriceAggregator a =>
      is_wasm_contract (g_world g) a = true
      /\ exists c, g_controller g = Some c
         /\ is_ok (invoke (g_world g) c "set_price_aggregator" [VAddress a]) = true
  | _ => False
  end.

(** What it does: the roles, the owner, the delay, the code or the price aggregator it names
    change, and none of the others. *)
Definition self_applied (env : GovEnv) g (op : AdminOperation) g' : Prop :=
  get_owner (g_access g') = get_owner (g_access g)
  /\ (forall x r, GovOps.has_role g' x r = true <->
       match op with
       | GrantGovRole a => GovOps.has_role g x r = true \/ (x = ro_account a /\ r = ro_role a)
       | RevokeGovRole a => GovOps.has_role g x r = true /\ ~ (x = ro_account a /\ r = ro_role a)
       | _ => GovOps.has_role g x r = true
       end)
  /\ Gov.get_min_delay (g_timelock g')
     = match op with UpdateGovDelay n => Some n | _ => Gov.get_min_delay (g_timelock g) end
  /\ (forall id, Gov.get_operation_ledger (g_timelock g') id = Gov.get_operation_ledger (g_timelock g) id)
  /\ g_controller g' = g_controller g /\ g_events g' = g_events g
  /\ g_revocation_targets g' = g_revocation_targets g /\ g_recovery_ops g' = g_recovery_ops g
  /\ g_price_aggregator g'
     = match op with SetPriceAggregator a => Some a | _ => g_price_aggregator g end
  /\ match op with
     | UpgradeGov h => g_world g' = update_code (g_world g) h
     | SetPriceAggregator a =>
         exists c v, g_controller g = Some c
         /\ invoke (g_world g) c "set_price_aggregator" [VAddress a] = Ok (v, g_world g')
     | TransferGovOwnership x =>
         let (new_owner, live_until) := x in
         g_world g' = g_world g
         /\ exists l, transfer_owner_role env (g_access g) new_owner live_until = Ok l
            /\ if live_until =? 0 then g_access g' = drop_pending_admin l
               else transfer_admin_role env l new_owner live_until = Ok (g_access g')
     | _ => g_world g' = g_world g
     end.

End Spec.

End GovTargets.

(** ** Lemmas on proposals *)

Module GovFacts.

Ltac unresolve H :=
  unfold GovOps.sensitive_controller_operation, GovOps.sensitive_price_aggregator_operation,
    GovOps.controller_operation, GovOps.price_aggregator_operation, GovOps.self_operation,
    Gov.get_controller, Gov.get_price_aggregator in H; ok_inv H.

Import Config Validation Gov GovOps GovContract GovApi GovReach GovTargets.

Section Facts.

Context `{HA : AccessLib} `{HT : TimelockLib} {HAL : AccessLaws} {HTL : TimelockLaws}
  {W : Type} `{HW : !GovHost W}.

Implicit Types g : Governance W.

(** No two operations of the trace share an id with [o]. *)
Definition collision_free (tr : list (GovEnv * Governance W * GovCall)) (o : Operation) : Prop :=
  forall step o' d, step ∈ tr -> proposed_by step o' d -> Gov.hash_operation o' = Gov.hash_operation o -> o' = o.

Lemma trace_address self tr g : gov_reachable self tr g ->
  forall env g0 call, (env, g0, call) ∈ tr -> gov_address env = self.
Proof.
  induction 1 as [|tr g env call g' _ IH Ha _ _|tr g w _ IH]; intros e g0 c.
  - by intros ?%elem_of_nil.
  - rewrite elem_of_app, list_elem_of_singleton. intros [Hin|[= -> -> ->]]; [by eapply IH|done].
  - apply IH.
Qed.

Lemma propose_guards env g p op salt id g' : propose env g p op salt = Ok (id, g') ->
  gov_authorized env p = true /\ GovOps.has_role g p PROPOSER_ROLE = true
  /\ (owner_only op = true -> get_owner (g_access g) = Some p)
  /\ (forall args, op = RevokeGovRole args -> ro_account args <> p /\ get_owner (g_access g) <> Some (ro_account args)).
Proof.
  intros H. unfold propose in H. apply rbind_Ok in H as (u & Hb & H). apply rbind_Ok in H as (u1 & Hg & _).
  unfold begin_immediate in Hb. apply rbind_Ok in Hb as (u2 & Ha%require_Ok & Hr%require_Ok).
  split; [done|]. split; [done|]. unfold owner_or_panic in Hg.
  destruct op; cbn [owner_only] in *; (split; [|intros rargs Eop; try discriminate Eop]); try done;
    try (intros Ho; try discriminate Ho; rewrite ?Ho in Hg; apply rbind_Ok in Hg as (o & Ho'%of_option_Ok & Hg%require_Ok);
         apply bool_decide_eq_true in Hg; congruence).
  injection Eop as <-.
  apply rbind_Ok in Hg as (u3 & H1%require_Ok & Hg). apply rbind_Ok in Hg as (o & Ho%of_option_Ok & Hg%require_Ok).
  apply negb_true_iff, bool_decide_eq_false in H1. apply negb_true_iff, bool_decide_eq_false in Hg. split; [done|congruence].
Qed.

(** The window in which an operation executes. *)
Lemma prepared env g ex o id : prepare_execute env g ex o = Ok id -> id = Gov.hash_operation o
  /\ (DONE_LEDGER < Gov.get_operation_ledger (g_timelock g) (Gov.hash_operation o) ->
      ledger_sequence env <= Gov.get_operation_ledger (g_timelock g) (Gov.hash_operation o)
                             + TIMELOCK_OPERATION_GRACE_LEDGERS)
  /\ (forall e, ex = Some e -> gov_authorized env e = true /\ GovOps.has_role g e EXECUTOR_ROLE = true).
Proof.
  unfold prepare_execute. intros H. apply rbind_Ok in H as (u & Ha & H). apply rbind_Ok in H as (u1 & He & H).
  injection H as <-. split; [done|]. split.
  - unfold require_operation_not_expired in He. cbn zeta in He. intros Hp.
    destruct (_ <=? 1) eqn:Hl; b2p; [unfold DONE_LEDGER in Hp; lia|].
    apply require_Ok in He. b2p. lia.
  - intros e ->. unfold authorize_executor in Ha. apply rbind_Ok in Ha as (u2 & H1%require_Ok & H2%require_Ok). done.
Qed.

(** An executed operation was proposed, and its delay has passed. *)
Lemma executed_was_proposed self tr g env ex o id t : gov_reachable self tr g -> collision_free tr o ->
  prepare_execute env g ex o = Ok id -> set_execute_operation env (g_timelock g) o = Ok t ->
  exists step d, step ∈ tr /\ proposed_by step o d
    /\ step_ledger step + d <= ledger_sequence env
    /\ ledger_sequence env <= step_ledger step + d + TIMELOCK_OPERATION_GRACE_LEDGERS.
Proof.
  intros Hr Hc Hp Ht. apply gov_reachable_inv in Hr. destruct (tl_execute _ _ _ _ Ht) as ([Hd Hle] & _).
  destruct (gi_pending _ _ Hr _ Hd) as (step & o' & d & Hin & Hby & Hid & Hled & _).
  pose proof (Hc _ _ _ Hin Hby (eq_sym Hid)) as ->.
  destruct (prepared _ _ _ _ _ Hp) as (_ & Hexp & _). specialize (Hexp Hd).
  exists step, d. rewrite Hled in *. auto.
Qed.

Lemma for_admin_op env g op salt o tier : operation_for_admin_op env g op salt = Ok (o, tier) ->
  resolve_op env g op = Ok (mkResolvedOperation (op_target o) (op_function o) (op_args o) tier)
  /\ op_salt o = salt.
Proof.
  unfold operation_for_admin_op. intros H. apply rbind_Ok in H as ([a b c e] & Hr & H). injection H as <- <-. done.
Qed.

(** What a self operation encodes determines who may propose it. *)
Lemma same_owner_rule env g op tier env0 g0 op0 tier0 t f args : is_self_op op = true ->
  resolve_op env g op = Ok (mkResolvedOperation t f args tier) ->
  resolve_op env0 g0 op0 = Ok (mkResolvedOperation t f args tier0) ->
  owner_only op = true -> owner_only op0 = true.
Proof.
  intros Hs H H0 Ho. destruct op; cbn in Hs; try discriminate Hs; cbn [owner_only] in Ho; try discriminate Ho;
    cbn [resolve_op] in H; unresolve H; destruct op0; cbn [resolve_op] in H0; unresolve H0; try done; discriminate.
Qed.

(** A validated tolerance is one the aggregator accepts. *)
Lemma tolerance_accepted t tol : validate_and_calculate_tolerances t = Ok tol ->
  upper_ratio_bps tol = BPS + t /\ OracleBounds.validate_oracle_tolerance tol = Ok tt.
Proof.
  intros H. unfold validate_and_calculate_tolerances in H. apply rbind_Ok in H as (u & Ht%require_Ok & H).
  apply rbind_Ok in H as ([up lo] & Hr & H). unfold calculate_tolerance_range in Hr.
  apply rbind_Ok in Hr as (up' & Hup%of_option_Ok & Hr). apply rbind_Ok in Hr as (lo' & Hlo & Hr). injection Hr as <- <-.
  apply i128_checked_Some in Hup as [-> _]. apply rbind_Ok in H as (a & Ha & H). apply rbind_Ok in H as (b & Hb & H).
  injection H as <-. unfold bps_i128_to_u32 in Ha, Hb. ok_inv Ha. ok_inv Hb. b2p. cbn [upper_ratio_bps lower_ratio_bps].
  split; [done|]. unfold OracleBounds.validate_oracle_tolerance. cbn [upper_ratio_bps lower_ratio_bps].
  unfold MIN_TOLERANCE, MAX_TOLERANCE, BPS in *.
  assert (BPS - 2500 <= lo' <= BPS) as [L1 L2].
  { rewrite FpCore.mul_div_half_up_ref in Hlo by (split; unfold i128_min, i128_max; lia).
    destruct (_ =? 0); [done|]. destruct (_ || _); [done|].
    apply of_option_Ok, i128_checked_Some in Hlo as [-> _].
    pose proof (half_up_div_ge_iff (10000 * 10000) (10000 + t) 7500 ltac:(lia)).
    pose proof (half_up_div_le_iff (10000 * 10000) (10000 + t) 10000 ltac:(lia)).
    assert (0 <= (10000 + t) / 2 <= 10000 + t) by (split; [apply Z.div_pos; lia|apply Z.div_le_upper_bound; lia]).
    unfold BPS. lia. }
  unfold BPS in *.
  rewrite !(proj2 (Z.leb_le _ _)) by lia. cbn [andb require rbind]. rewrite Hlo. cbn [rbind].
  by rewrite Z.eqb_refl.
Qed.

Lemma applied_is_self env g op g' : apply_self_op env g op = Ok g' -> is_self_op op = true.
Proof. destruct op; done. Qed.

(** *** Validation, as inequalities *)

Lemma then_Ok {A} (m : res unit) (k : res A) v : rbind m (fun _ => k) = Ok v <-> m = Ok tt /\ k = Ok v.
Proof. destruct m as [[]|e]; cbn; naive_solver. Qed.

Lemma and_iff_compat_l_dep (A B C : Prop) : (A -> B <-> C) -> A /\ B <-> A /\ C.
Proof. tauto. Qed.

Lemma require_tt b (e : Error) : require b e = Ok tt <-> b = true.
Proof. apply require_Ok. Qed.

Lemma reject_tt (b : bool) (e : Error) : (if b then Err e else Ok tt) = Ok tt <-> b = false.
Proof. by destruct b. Qed.

Lemma rate_model_iff m : rate_model_verify m = Ok tt <-> rate_model_sane m.
Proof.
  unfold rate_model_verify, rate_model_sane. rewrite !then_Ok, !require_tt, !reject_tt.
  rewrite !orb_false_iff, !Z.ltb_ge, !Z.ltb_lt, !Z.leb_le. lia.
Qed.

Lemma listing_iff x : validate_spoke_asset x = Ok tt <-> listing_sane x.
Proof.
  unfold validate_spoke_asset, validate_risk_bounds, validate_liquidation_fees, validate_spoke_cap_args, listing_sane.
  rewrite !then_Ok, !require_tt, !andb_true_iff, !Z.ltb_lt, !Z.leb_le. tauto.
Qed.

Lemma hash_iff h : require_nonzero_wasm_hash h = Ok tt <-> real_code h.
Proof.
  unfold require_nonzero_wasm_hash, real_code. rewrite require_tt, negb_true_iff. apply bool_decide_eq_false.
Qed.

Lemma delay_iff g n : validate_delay_update g n = Ok tt <-> delay_allowed g n.
Proof.
  unfold validate_delay_update, require_nonzero_delay, delay_allowed, min_delay.
  rewrite then_Ok, require_tt, negb_true_iff, Z.eqb_neq.
  destruct (Gov.get_min_delay (g_timelock g)) as [m|]; cbn [of_option rbind];
    [rewrite require_tt, andb_true_iff, orb_true_iff, !Z.leb_le|]; naive_solver.
Qed.

Lemma decimals_iff {A} g a (k : Z -> res A) v :
  (let* n := validate_and_fetch_token_decimals g a in let* d := listed_token_decimals g a n in k d) = Ok v
  <-> exists d, decimals_for g (Token a) d /\ k d = Ok v.
Proof.
  unfold validate_and_fetch_token_decimals, listed_token_decimals, decimals_for, has_price_aggregator,
    get_price_aggregator.
  destruct (token_decimals_of (g_world g) a) as [n|]; cbn [of_option rbind]; [|naive_solver].
  destruct (token_has_symbol (g_world g) a); cbn [require rbind]; [|naive_solver].
  destruct (g_price_aggregator g) as [agg|]; cbn [of_option rbind]; [|naive_solver].
  destruct (listed_oracle (g_world g) agg (Token a)) as [o|e]; cbn [rbind]; [|naive_solver].
  split; [intros Hk; exists (default n (ao_asset_decimals <$> o)); by destruct o; eauto 10|].
  intros (d & (n' & [= <-] & _ & o' & [= <-] & ->) & Hk). by destruct o.
Qed.

Lemma oracle_iff g key o o' : resolve_oracle g key o = Ok o' <->
  exists d, decimals_for g key d /\ o' = with_decimals o d.
Proof.
  unfold resolve_oracle, with_decimals. destruct key as [a|s].
  - rewrite rbind_assoc, decimals_iff. split; intros (d & Hd & Ho); exists d; (split; [exact Hd|]); congruence.
  - cbn [rbind decimals_for]. split; [intros [= <-]; by exists 0|]. by intros (d & -> & ->).
Qed.

Lemma tolerance_value t : MIN_TOLERANCE <= t <= MAX_TOLERANCE ->
  validate_and_calculate_tolerances t
  = Ok (mkOracleTolerance (BPS + t) (half_up_div (BPS * BPS) (BPS + t))).
Proof.
  intros Ht. unfold validate_and_calculate_tolerances, calculate_tolerance_range.
  unfold MIN_TOLERANCE, MAX_TOLERANCE, BPS in *. rewrite !(proj2 (Z.leb_le _ _)) by lia. cbn [andb require rbind].
  assert (0 <= half_up_div (10000 * 10000) (10000 + t) <= 10000) as Hh.
  { pose proof (half_up_div_ge_iff (10000 * 10000) (10000 + t) 0 ltac:(lia)).
    pose proof (half_up_div_le_iff (10000 * 10000) (10000 + t) 10000 ltac:(lia)).
    assert (0 <= (10000 + t) / 2 <= 10000 + t) by (split; [apply Z.div_pos; lia|apply Z.div_le_upper_bound; lia]).
    lia. }
  unfold i128_checked_add. rewrite (i128_checked_in (10000 + t)) by (split; unfold i128_min, i128_max; lia).
  cbn [of_option rbind]. rewrite FpCore.mul_div_half_up_ref by (split; unfold i128_min, i128_max; lia).
  destruct (Z.eqb_spec (10000 + t) 0); [lia|]. destruct (Z.ltb_spec (10000 + t) 0); [lia|].
  change ((10000 <? 0) || (10000 <? 0) || false) with false. cbv iota. unfold FpCore.checked_or_overflow.
  set (l := half_up_div (10000 * 10000) (10000 + t)) in *.
  rewrite i128_checked_in by (split; unfold i128_min, i128_max; lia). cbn [of_option rbind].
  unfold bps_i128_to_u32, u32_max. rewrite !(proj2 (Z.leb_le _ _)) by lia. done.
Qed.

Lemma tolerance_iff t tol : validate_and_calculate_tolerances t = Ok tol <->
  MIN_TOLERANCE <= t <= MAX_TOLERANCE
  /\ tol = mkOracleTolerance (BPS + t) (half_up_div (BPS * BPS) (BPS + t)).
Proof.
  split; [intros Hv|intros [Ht ->]; by apply tolerance_value].
  assert (MIN_TOLERANCE <= t <= MAX_TOLERANCE) as Ht.
  { unfold validate_and_calculate_tolerances in Hv. apply then_Ok in Hv as [Ht _].
    by rewrite require_tt, andb_true_iff, !Z.leb_le in Ht. }
  split; [done|]. rewrite tolerance_value in Hv by done. congruence.
Qed.

(** *** Resolution *)

Lemma checked_iff {A} (m : res unit) (k : res A) :
  (exists r, rbind m (fun _ => k) = Ok r) <-> m = Ok tt /\ exists r, k = Ok r.
Proof. setoid_rewrite then_Ok. naive_solver. Qed.

Lemma controller_iff g f args : (exists r, controller_operation g f args = Ok r) <-> is_Some (g_controller g).
Proof. unfold controller_operation, get_controller. destruct (g_controller g); cbn; naive_solver. Qed.

Lemma sensitive_iff g f args : (exists r, sensitive_controller_operation g f args = Ok r) <-> is_Some (g_controller g).
Proof.
  unfold sensitive_controller_operation, controller_operation, get_controller.
  destruct (g_controller g); cbn; naive_solver.
Qed.

Lemma aggregator_iff g f args : (exists r, price_aggregator_operation g f args = Ok r) <-> is_Some (g_price_aggregator g).
Proof. unfold price_aggregator_operation, get_price_aggregator. destruct (g_price_aggregator g); cbn; naive_solver. Qed.

Lemma self_iff env f args t : (exists r, self_operation env f args t = Ok r) <-> True.
Proof. unfold self_operation. naive_solver. Qed.

Lemma sensitive_aggregator_iff g f args :
  (exists r, sensitive_price_aggregator_operation g f args = Ok r) <-> is_Some (g_price_aggregator g).
Proof.
  unfold sensitive_price_aggregator_operation, price_aggregator_operation, get_price_aggregator.
  destruct (g_price_aggregator g); cbn; naive_solver.
Qed.

Lemma contract_iff g a e : require_contract_address g a e = Ok tt <-> is_wasm_contract (g_world g) a = true.
Proof. apply require_tt. Qed.

Lemma limits_iff l : validate_position_limits l = Ok tt <->
  1 <= Risk.max_supply_positions l <= POSITION_LIMIT_MAX /\ 1 <= Risk.max_borrow_positions l <= POSITION_LIMIT_MAX.
Proof. unfold validate_position_limits, in_limit. by rewrite require_tt, !andb_true_iff, !Z.leb_le. Qed.

Lemma curve_iff t h f : validate_liquidation_curve t h f = Ok tt <->
  WAD < t <= MAX_LIQUIDATION_TARGET_HF_WAD /\ 0 < h < t /\ 0 < f <= BPS.
Proof.
  unfold validate_liquidation_curve. by rewrite !then_Ok, !require_tt, !andb_true_iff, !Z.leb_le, !Z.ltb_lt.
Qed.

Lemma role_iff r : require_known_governance_role r = Ok tt <-> r ∈ default_operational_roles.
Proof. unfold require_known_governance_role. by rewrite require_tt, bool_decide_eq_true. Qed.

Lemma market_iff a p d : validate_market_creation a p d = Ok tt <->
  rp_asset_id p = a /\ rp_asset_decimals p = d
  /\ OracleBounds.MIN_ASSET_DECIMALS <= rp_asset_decimals p <= MAX_ASSET_DECIMALS
  /\ rp_asset_decimals p <= WAD_DECIMALS
  /\ (rp_is_flashloanable p = true -> MIN_BORROWABLE_ASSET_DECIMALS <= rp_asset_decimals p)
  /\ rate_model_sane (rate_model_view p).
Proof.
  unfold validate_market_creation, market_params_verify.
  rewrite !then_Ok, !require_tt, rate_model_iff, bool_decide_eq_true, Z.eqb_eq, andb_true_iff, orb_true_iff,
    negb_true_iff, !Z.leb_le. destruct (rp_is_flashloanable p); naive_solver.
Qed.

(** The bind of a computation that returns exactly the values in [P]. *)
Lemma bind_iff {A B} (m : res A) (k : A -> res B) (P : A -> Prop) : (forall a, m = Ok a <-> P a) ->
  (exists r, rbind m k = Ok r) <-> exists a, P a /\ exists r, k a = Ok r.
Proof.
  intros Hm. split; [intros [r Hr]; apply rbind_Ok in Hr as (a & Ha%Hm & Hr); eauto|].
  intros (a & Ha%Hm & r & Hr). exists r. by rewrite Ha.
Qed.

(** An operation is accepted just when it is admissible and its target is known. *)
Lemma resolve_iff env g op :
  (exists r, resolve_op env g op = Ok r) <-> admissible g op /\ target_known g op.
Proof.
  destruct op; cbn [resolve_op admissible target_known is_self_op];
    rewrite ?checked_iff, ?controller_iff, ?sensitive_iff, ?sensitive_aggregator_iff, ?self_iff, ?hash_iff,
      ?listing_iff, ?delay_iff, ?rate_model_iff, ?contract_iff, ?limits_iff, ?curve_iff, ?role_iff, ?require_tt, ?Z.leb_le.
  all: try solve [split; intros Hr; destruct_and?; split_and?; auto; destruct_or?; done].
  - setoid_rewrite decimals_iff. setoid_rewrite then_Ok. setoid_rewrite market_iff.
    pose proof (controller_iff g "create_liquidity_pool" [VU32 (cp_hub_id args); VAddress (cp_asset args);
      VMarketParams (cp_params args)]). naive_solver.
  - rewrite (bind_iff _ _ _ (tolerance_iff (et_tolerance args))). setoid_rewrite aggregator_iff. naive_solver.
  - rewrite (bind_iff _ _ _ (oracle_iff g (co_key args) (co_oracle args))). setoid_rewrite aggregator_iff. naive_solver.
  - unfold get_controller. destruct (g_controller g) as [c|] eqn:Hc; cbn [of_option rbind]; [|naive_solver].
    rewrite (bind_iff _ _ (fun e => flags_epoch (g_world g) c (rx_spoke_id args) (rx_hub_asset args) = Ok e)) by done.
    setoid_rewrite checked_iff. setoid_rewrite controller_iff. setoid_rewrite require_tt. setoid_rewrite Z.eqb_eq.
    rewrite Hc. naive_solver.
Qed.

(** And it encodes the entrypoint it stands for. *)
Lemma resolved_entry env g op r : resolve_op env g op = Ok r ->
  rs_delay_tier r = (if is_sensitive op then Sensitive else Standard)
  /\ exists e, intended g op e /\ reaches env g r e.
Proof.
  intros Hr. destruct op; try (match goal with x : RoleArgs |- _ => destruct x end);
    try (match goal with x : TransferOwnershipArgs |- _ => destruct x end);
    cbn [resolve_op is_sensitive intended] in *.
  all: try (unresolve Hr; split; [done|]; eexists; (split; [reflexivity|]); by cbn).
  - apply rbind_Ok in Hr as (t & [_ ->]%tolerance_iff & Hr). unresolve Hr. split; [done|].
    eexists. split; [reflexivity|]. by cbn.
  - apply rbind_Ok in Hr as (o & (d & Hd & ->)%oracle_iff & Hr). unresolve Hr. split; [done|].
    eexists. split; [exists d; by split|]. by cbn.
Qed.

(** Only [EditOracleTolerance] sends a tolerance, and a validated one. *)
Lemma resolved_tolerance env g op k t r : resolve_op env g op = Ok r ->
  aggregator_entry (rs_function r) (rs_args r) = Some (AggRegistry.SetTolerance k t) ->
  OracleBounds.validate_oracle_tolerance t = Ok tt.
Proof.
  intros Hr Ha. destruct op; cbn [resolve_op] in Hr.
  all: try (unresolve Hr; discriminate Ha).
  apply rbind_Ok in Hr as (t' & [_ Hv]%tolerance_accepted & Hr). unresolve Hr. cbn in Ha. by injection Ha as _ <-.
Qed.

(** *** Operations on governance itself *)

Lemma separation_iff g owner a r : require_executor_canceller_separation g owner a r = Ok tt <->
  a = owner
  \/ (r = EXECUTOR_ROLE -> GovOps.has_role g a CANCELLER_ROLE = false)
     /\ (r = CANCELLER_ROLE -> GovOps.has_role g a EXECUTOR_ROLE = false).
Proof.
  unfold require_executor_canceller_separation.
  destruct (bool_decide_reflect (a = owner)) as [->|Ha]; [by split; [left|]|].
  destruct (bool_decide_reflect (r = EXECUTOR_ROLE)) as [->|He].
  { rewrite require_tt, negb_true_iff. split; [intros Hr; right; by split|]. intros [?|[Hr _]]; [done|auto]. }
  destruct (bool_decide_reflect (r = CANCELLER_ROLE)) as [->|Hc]; [|by split; [right|]].
  rewrite require_tt, negb_true_iff. split; [intros Hr; right; by split|]. intros [?|[_ Hr]]; [done|auto].
Qed.

Lemma apply_self_iff env g op : (exists g', apply_self_op env g op = Ok g') <-> self_allowed env g op.
Proof.
  destruct op; cbn [apply_self_op self_allowed]; try (split; [by intros [? ?]|done]).
  - rewrite checked_iff, contract_iff. apply and_iff_compat_l. unfold get_controller, call_contract. cbn.
    destruct (g_controller g) as [c|]; cbn [of_option rbind]; [|naive_solver].
    destruct (invoke (g_world g) c "set_price_aggregator" [VAddress a]) as [[v w]|e] eqn:Hi; cbn [rbind].
    + split; [|by eauto]. intros _. exists c. by rewrite Hi.
    + split; [by intros [? ?]|]. intros (c' & [= <-] & Hok). by rewrite Hi in Hok.
  - naive_solver.
  - unfold apply_update_delay. rewrite checked_iff, delay_iff. naive_solver.
  - unfold apply_grant_role, owner_or_panic. destruct (get_owner (g_access g)) as [o|]; cbn [of_option rbind]; [|naive_solver].
    rewrite checked_iff, separation_iff. naive_solver.
  - unfold apply_revoke_role, owner_or_panic. rewrite checked_iff, require_tt. apply and_iff_compat_l_dep. intros Hh.
    destruct (get_owner (g_access g)) as [o|]; cbn [of_option rbind]; [|naive_solver].
    rewrite !checked_iff, require_tt, negb_true_iff, bool_decide_eq_false.
    assert (exists g', revoke g (ro_account args) (ro_role args) = Ok g') as Hrev.
    { apply bool_decide_eq_true in Hh. destruct (al_revoke_held _ _ _ Hh) as [l Hl]. unfold revoke.
      rewrite Hl. by eexists. }
    destruct (bool_decide_reflect (ro_role args = PROPOSER_ROLE)) as [E|E];
      [rewrite require_tt, Nat.ltb_lt; rewrite E in Hrev |- *|].
    + split; [intros (H1 & H2 & _); split; [by exists o|done]|]. intros ((o' & [= <-] & H1) & H2). auto.
    + split; [intros (H1 & _); split; [by exists o|done]|]. intros ((o' & [= <-] & H1) & _). auto.
  - unfold apply_transfer_ownership, owner_or_panic.
    destruct (get_owner (g_access g)) as [o|] eqn:Ho; cbn [of_option rbind]; [|naive_solver].
    destruct (transfer_owner_role env (g_access g) (to_new_owner args) (to_live_until_ledger args)) as [l|e] eqn:Hl;
      cbn [rbind]; [|naive_solver].
    destruct (al_transfer_owner _ _ _ _ _ Hl) as [Hown _].
    unfold sync_pending_admin_transfer, owner_or_panic. cbn [g_access with_access].
    destruct (Z.eqb_spec (to_live_until_ledger args) 0) as [E|E]; cbn [rbind].
    + destruct (al_drop_pending l) as [Hd _]. cbn. rewrite Hd, Hown, Ho.
      split; [intros _; split; [done|]; by exists l|]. intros _. destruct (get_admin _); by eexists.
    + destruct (transfer_admin_role env l (to_new_owner args) (to_live_until_ledger args)) as [l'|e] eqn:Hl'; cbn [rbind].
      * destruct (al_transfer_admin _ _ _ _ _ Hl') as [Hd _]. cbn. rewrite Hd, Hown, Ho.
        split; [intros _; split; [done|]; exists l; split; [done|]; by rewrite Hl'|].
        intros _. destruct (get_admin _); by eexists.
      * split; [by intros [? ?]|]. intros (_ & l2 & [= <-] & Hok). specialize (Hok E). by rewrite Hl' in Hok.
Qed.

Lemma apply_self_done env g op g' : apply_self_op env g op = Ok g' -> self_applied env g op g'.
Proof.
  intros Hop. unfold self_applied, GovOps.has_role. destruct op; cbn [apply_self_op] in Hop; try discriminate Hop.
  - apply then_Ok in Hop as [_ Hop]. unfold get_controller, call_contract in Hop. cbn in Hop.
    apply rbind_Ok in Hop as (c & Hc%of_option_Ok & Hop). apply rbind_Ok in Hop as ([v g1] & Hi & [= <-]).
    apply rbind_Ok in Hi as ([v' w] & Hi & [= <- <-]). split_and!; try done. by exists c, v'.
  - injection Hop as <-. by split_and!.
  - apply then_Ok in Hop as [_ [= <-]]. destruct (tl_set_delay (g_timelock g) new_delay). by split_and!.
  - unfold apply_grant_role in Hop. apply rbind_Ok in Hop as (o & _ & Hop). apply then_Ok in Hop as [_ [= <-]].
    destruct (al_grant (g_access g) (ro_account args) (ro_role args)) as [Ho Hm]. split_and!; try done.
    intros x r. rewrite !bool_decide_eq_true. apply Hm.
  - unfold apply_revoke_role in Hop. apply then_Ok in Hop as [_ Hop]. apply rbind_Ok in Hop as (o & _ & Hop).
    apply then_Ok in Hop as [_ Hop]. apply then_Ok in Hop as [_ Hop]. unfold revoke in Hop.
    apply rbind_Ok in Hop as (l & Hl & [= <-]). destruct (al_revoke _ _ _ _ Hl) as (_ & Ho & Hm & _).
    split_and!; try done. intros x r. rewrite !bool_decide_eq_true. apply Hm.
  - unfold apply_transfer_ownership, sync_pending_admin_transfer in Hop. apply rbind_Ok in Hop as (o & _ & Hop).
    apply rbind_Ok in Hop as (l & Hl & Hop). apply rbind_Ok in Hop as (l' & Hl' & Hop). apply then_Ok in Hop as [_ [= <-]].
    destruct (al_transfer_owner _ _ _ _ _ Hl) as [Ho Hm]. cbn in Hl'.
    assert (get_owner l' = get_owner l /\ forall r, role_members l' r = role_members l r) as [Ho' Hm'].
    { destruct (_ =? 0); [injection Hl' as <-; apply al_drop_pending|by eapply al_transfer_admin]. }
    split_and!; try done; cbn; [congruence| |].
    + intros x r. by rewrite !bool_decide_eq_true, Hm', Hm.
    + destruct args as [n live]. split; [done|]. exists l. split; [done|]. cbn in Hl'.
      destruct (live =? 0); [congruence|done].
Qed.

End Facts.

End GovFacts.

(** ** Properties *)

Module GovProps.

Import Config Validation Gov GovOps GovContract GovApi GovReach GovTargets GovFacts.

Section Props.

Context `{HA : AccessLib} `{HT : TimelockLib} {HAL : AccessLaws} {HTL : TimelockLaws}
  {W : Type} `{HW : !GovHost W}.

Implicit Types g : Governance W.

(** C18: (safety) What the timelock executes on another contract was proposed (the immediate
    calls of the guardian and oracle roles do not pass through it): a successful execution has
    an earlier proposal, in a state where its proposer held the proposer role and, for the
    restricted operations, owned the contract, that resolved to exactly this target, function
    and arguments; and it runs no earlier than the delay its tier had then, no later than the
    grace period, whoever executes it. *)
Theorem external_execution_was_proposed self tr g env ex target f args pred salt v g' :
  gov_reachable self tr g -> gov_address env = self ->
  collision_free tr (mkOperation target f args pred salt) ->
  execute env g ex target f args pred salt = Ok (v, g') ->
  exists env0 g0 p op tier d, (env0, g0, Propose p op salt) ∈ tr
    /\ resolve_op env0 g0 op = Ok (mkResolvedOperation target f args tier)
    /\ gov_authorized env0 p = true /\ GovOps.has_role g0 p PROPOSER_ROLE = true
    /\ (owner_only op = true -> get_owner (g_access g0) = Some p)
    /\ operation_delay g0 tier = Ok d
    /\ ledger_sequence env0 + d <= ledger_sequence env
    /\ ledger_sequence env <= ledger_sequence env0 + d + TIMELOCK_OPERATION_GRACE_LEDGERS.
Proof.
  intros Hr Ha Hc H. unfold execute in H. apply rbind_Ok in H as (u & Ht%require_Ok & H). cbn zeta in H.
  apply rbind_Ok in H as (id & Hid & H). apply rbind_Ok in H as (t & Hx & _).
  destruct (executed_was_proposed _ _ _ _ _ _ _ _ Hr Hc Hid Hx) as ([[env0 g0] call] & d & Hin & Hby & H1 & H2).
  apply negb_true_iff, bool_decide_eq_false in Ht. destruct call; try contradiction Hby.
  - destruct Hby as (tier & g1 & Ho & Hd & Hp). destruct (for_admin_op _ _ _ _ _ _ Ho) as [Hres Hs].
    cbn in Hs. subst salt0. destruct (propose_guards _ _ _ _ _ _ _ Hp) as (P1 & P2 & P3 & _).
    exists env0, g0, proposer, op, tier, d. auto 10.
  - destruct Hby as (g1 & Ho & _). injection Ho as -> _ _ _ _. pose proof (trace_address _ _ _ Hr _ _ _ Hin). congruence.
Qed.

(** (safety) The same for what governance does to itself: new code, the delay, roles, a
    handover of ownership and the price aggregator change only by an operation proposed
    earlier and executed inside its window; all of them but revoking a role need a proposal
    of the owner. *)
Theorem self_execution_was_proposed self tr g env ex op salt o tier g' :
  gov_reachable self tr g -> operation_for_admin_op env g op salt = Ok (o, tier) -> collision_free tr o ->
  execute_self env g ex op salt = Ok g' ->
  exists env0 g0 p op0 tier0 d, (env0, g0, Propose p op0 salt) ∈ tr
    /\ operation_for_admin_op env0 g0 op0 salt = Ok (o, tier0)
    /\ gov_authorized env0 p = true /\ GovOps.has_role g0 p PROPOSER_ROLE = true
    /\ (owner_only op = true -> get_owner (g_access g0) = Some p)
    /\ (forall a, op = RevokeGovRole a -> ro_account a <> p)
    /\ operation_delay g0 tier0 = Ok d
    /\ ledger_sequence env0 + d <= ledger_sequence env
    /\ ledger_sequence env <= ledger_sequence env0 + d + TIMELOCK_OPERATION_GRACE_LEDGERS.
Proof.
  intros Hr Hop Hc H. unfold execute_self in H. rewrite Hop in H. cbn [rbind] in H.
  apply rbind_Ok in H as (u & _ & H). apply rbind_Ok in H as (id & Hid & H). apply rbind_Ok in H as (t & Hx & H).
  apply rbind_Ok in H as (g1 & Hself%applied_is_self & _).
  destruct (executed_was_proposed _ _ _ _ _ _ _ _ Hr Hc Hid Hx) as ([[env0 g0] call] & d & Hin & Hby & H1 & H2).
  destruct (for_admin_op _ _ _ _ _ _ Hop) as [Hres Hs]. destruct (resolved_function _ _ _ _ _ _ Hop) as [Hnr _].
  destruct call; try contradiction Hby.
  - destruct Hby as (tier0 & g2 & Ho & Hd & Hp). destruct (for_admin_op _ _ _ _ _ _ Ho) as [Hres0 Hs0].
    assert (salt0 = salt) as -> by congruence. destruct (propose_guards _ _ _ _ _ _ _ Hp) as (P1 & P2 & P3 & P4).
    exists env0, g0, proposer, op0, tier0, d. split; [done|]. split; [done|]. split; [done|]. split; [done|].
    split; [intros E; apply P3; by eapply same_owner_rule|]. split; [|auto].
    intros a ->. destruct (proj2 (resolved_function _ _ _ _ _ _ Ho)) as (a0 & -> & Ha0).
    { cbn [resolve_op] in Hres. unfold self_operation in Hres. ok_inv Hres. done. }
    destruct (P4 a0 eq_refl) as [Hne _]. cbn [resolve_op] in Hres. unfold self_operation in Hres.
    apply rbind_Ok in Hres as (? & _ & Hres). injection Hres as _ _ Hargs _. rewrite <- Hargs in Ha0.
    injection Ha0 as E _. congruence.
  - destruct Hby as (g2 & -> & _). done.
Qed.

(** C19: (invariant) In every reachable state the owner exists and holds every operational
    role, nobody else both executes and cancels, and operations have a positive delay. *)
Theorem governance_roles_invariant self tr g : gov_reachable self tr g ->
  exists owner, get_owner (g_access g) = Some owner
    /\ (forall r, r ∈ default_operational_roles -> GovOps.has_role g owner r = true)
    /\ (forall a, a <> owner -> GovOps.has_role g a EXECUTOR_ROLE && GovOps.has_role g a CANCELLER_ROLE = false)
    /\ (forall tier d, operation_delay g tier = Ok d -> 0 < d).
Proof.
  intros [(owner & [H1 H2 H3]) (m & Hm & Hp) _]%gov_reachable_inv. exists owner. split; [done|]. split; [|split].
  - intros r Hr. apply bool_decide_eq_true. by apply H2.
  - intros a Ha. apply not_true_is_false. intros [He Hc]%andb_true_iff.
    apply bool_decide_eq_true in He. apply bool_decide_eq_true in Hc. by apply (H3 a Ha).
  - intros tier d Hd. unfold operation_delay, min_delay in Hd. rewrite Hm in Hd. injection Hd as <-. destruct tier; lia.
Qed.

(** C20: (safety) A pending reset of the cancellers cannot be cancelled, and nobody can cancel
    the pending revocation of one of their own roles. *)
Theorem protected_operations_survive self tr g env c o :
  gov_reachable self tr g -> DONE_LEDGER < Gov.get_operation_ledger (g_timelock g) (Gov.hash_operation o) ->
  collision_free tr o ->
  op_function o = "reset_cancellers"
  \/ (exists r, op_function o = "revoke_role" /\ op_args o = [VAddress c; VSymbol r]) ->
  cancel env g c (Gov.hash_operation o) = Err HostTrap
  \/ cancel env g c (Gov.hash_operation o) = Err (EGeneric OperationNotCancellable).
Proof.
  intros Hr Hp Hc Ho. apply gov_reachable_inv in Hr.
  destruct (gi_pending _ _ Hr _ Hp) as (step & o' & d & Hin & Hby & Hid & _ & M1 & M2).
  pose proof (Hc _ _ _ Hin Hby (eq_sym Hid)) as ->. unfold cancel, ensure_role.
  destruct (gov_authorized env c); [|by left]. destruct (GovOps.has_role g c CANCELLER_ROLE); [|by left].
  right. cbn [require rbind]. destruct Ho as [Hf|(r & Hf & Hargs)].
  - by rewrite (M1 Hf).
  - destruct (is_recovery_op g (Gov.hash_operation o)); [done|]. cbn [negb require rbind].
    rewrite (M2 c r Hf Hargs). by rewrite bool_decide_true.
Qed.

(** (functional) Executing a reset leaves the owner and the named accounts as the only
    cancellers, whoever they were and in whatever order the role listed them. *)
Theorem canceller_reset_correct self tr g env ex l salt g' :
  gov_reachable self tr g -> execute_canceller_reset env g ex l salt = Ok g' ->
  exists owner, get_owner (g_access g') = Some owner
    /\ forall a, GovOps.has_role g' a CANCELLER_ROLE = true <-> a = owner \/ a ∈ l.
Proof.
  intros [(owner & Hr) _ _]%gov_reachable_inv H. unfold execute_canceller_reset in H. cbn zeta in H.
  apply rbind_Ok in H as (id & _ & H). apply rbind_Ok in H as (t & _ & H). apply rbind_Ok in H as (g1 & H1 & H).
  injection H as <-. destruct (canceller_reset_spec _ owner _ _ H1) as [[Ho _ _] Hm].
  { destruct Hr. by split. }
  exists owner. split; [done|]. intros a. unfold GovOps.has_role. rewrite bool_decide_eq_true. apply Hm.
Qed.

(** C21: (refinement) Administrative operations do what their names say.  The call an
    operation schedules can be resolved just when its arguments satisfy the protocol's bounds,
    written out in [admissible], and the contract it needs is deployed.  It resolves, under the
    sensitive tier for the operations listed in [is_sensitive] and the standard one otherwise,
    to the entrypoint it stands for, at the controller, the price aggregator or governance
    itself, by the exported name and with its own arguments; a tolerance it sends passes the
    aggregator's own check.  Applied to governance itself,
    exactly the six self operations succeed, each just when [self_allowed] holds, and change the
    role, delay, code, pending owner or price aggregator they name and nothing else. *)
Theorem admin_operations_exact env g op :
  ((exists r, resolve_op env g op = Ok r) <-> admissible g op /\ target_known g op)
  /\ (forall r, resolve_op env g op = Ok r ->
        rs_delay_tier r = (if is_sensitive op then Sensitive else Standard)
        /\ exists e, intended g op e /\ reaches env g r e)
  /\ (forall k t r, resolve_op env g op = Ok r ->
        aggregator_entry (rs_function r) (rs_args r) = Some (AggRegistry.SetTolerance k t) ->
        OracleBounds.validate_oracle_tolerance t = Ok tt)
  /\ ((exists g', apply_self_op env g op = Ok g') <-> self_allowed env g op)
  /\ (forall g', apply_self_op env g op = Ok g' -> self_applied env g op g').
Proof.
  split; [apply resolve_iff|]. split; [apply resolved_entry|]. split; [apply resolved_tolerance|].
  split; [apply apply_self_iff|apply apply_self_done].
Qed.

End Props.

(** ** Applications *)

Import GovSample.

Abbreviation Gov1 := (Governance unit).

Definition hub_operation : Operation := mkOperation controller "create_hub" [] NO_PREDECESSOR (salt 2).
Definition grant_operation : Operation :=
  mkOperation self "grant_role" [VAddress canceller; VSymbol CANCELLER_ROLE] NO_PREDECESSOR (salt 1).
Definition reset_operation : Operation := canceller_reset_operation (at_ledger 220 owner) [guardian] (salt 3).

Definition later : GovEnv := at_ledger 60000 guardian.

Definition hub_created : Gov1 :=
  Eval vm_compute in force (dispatch later proposed3 (Execute None controller "create_hub" [] NO_PREDECESSOR (salt 2))).
Definition role_granted : Gov1 :=
  Eval vm_compute in force (dispatch later proposed3 (ExecuteSelf None grant_op (salt 1))).
Definition much_later : GovEnv := at_ledger 520000 guardian.
Definition cancellers_reset : Gov1 :=
  Eval vm_compute in force (dispatch much_later proposed3 (ExecuteCancellerReset None [guardian] (salt 3))).

Lemma hub_created_ok :
  execute later proposed3 None controller "create_hub" [] NO_PREDECESSOR (salt 2) = Ok (VU32 1, hub_created).
Proof. vm_cast_no_check (eq_refl (Ok (VU32 1, hub_created) : res (Val * Gov1))). Qed.
Lemma role_granted_ok : execute_self later proposed3 None grant_op (salt 1) = Ok role_granted.
Proof. vm_cast_no_check (eq_refl (Ok role_granted : res Gov1)). Qed.
Lemma cancellers_reset_ok : execute_canceller_reset much_later proposed3 None [guardian] (salt 3) = Ok cancellers_reset.
Proof. vm_cast_no_check (eq_refl (Ok cancellers_reset : res Gov1)). Qed.

Lemma hub_resolved :
  operation_for_admin_op (at_ledger 210 owner) proposed1 CreateHub (salt 2) = Ok (hub_operation, Standard).
Proof. vm_cast_no_check (eq_refl (Ok (hub_operation, Standard) : res (Operation * DelayTier))). Qed.
Lemma grant_resolved :
  operation_for_admin_op (at_ledger 200 owner) wired grant_op (salt 1) = Ok (grant_operation, Sensitive).
Proof. vm_cast_no_check (eq_refl (Ok (grant_operation, Sensitive) : res (Operation * DelayTier))). Qed.
Lemma grant_resolved_later : operation_for_admin_op later proposed3 grant_op (salt 1) = Ok (grant_operation, Sensitive).
Proof. vm_cast_no_check (eq_refl (Ok (grant_operation, Sensitive) : res (Operation * DelayTier))). Qed.

(** The three proposals of the trace have three salts. *)
Lemma trace_collision_free o : o = hub_operation \/ o = grant_operation \/ o = reset_operation ->
  collision_free trace o.
Proof.
  intros Ho step o' d Hin Hby Hh. unfold trace in Hin. rewrite !elem_of_cons, elem_of_nil in Hin.
  destruct Hin as [->|[->|[->|[->|[]]]]]; [contradiction Hby| | |];
    [destruct Hby as (tier & g' & H & _)..|destruct Hby as (g' & -> & _)].
  - rewrite grant_resolved in H. injection H as <- _. destruct Ho as [->|[->| ->]]; done.
  - rewrite hub_resolved in H. injection H as <- _. destruct Ho as [->|[->| ->]]; done.
  - destruct Ho as [->|[->| ->]]; done.
Qed.

Lemma external_execution_was_proposed_witness :
  exists env0 g0 p op tier d, (env0, g0, Propose p op (salt 2)) ∈ trace
    /\ resolve_op env0 g0 op = Ok (mkResolvedOperation controller "create_hub" [] tier)
    /\ operation_delay g0 tier = Ok d /\ ledger_sequence env0 + d <= 60000.
Proof.
  destruct (external_execution_was_proposed self trace proposed3 later None controller "create_hub" []
    NO_PREDECESSOR (salt 2) (VU32 1) hub_created sample_reachable eq_refl
    (trace_collision_free hub_operation (or_introl eq_refl)) hub_created_ok)
    as (env0 & g0 & p & op & tier & d & H1 & H2 & _ & _ & _ & H3 & H4 & _).
  exists env0, g0, p, op, tier, d. split; [exact H1|]. split; [exact H2|]. split; [exact H3|exact H4].
Defined.

Lemma self_execution_was_proposed_witness :
  exists env0 g0 p op0 tier0 d, (env0, g0, Propose p op0 (salt 1)) ∈ trace
    /\ operation_for_admin_op env0 g0 op0 (salt 1) = Ok (grant_operation, tier0)
    /\ get_owner (g_access g0) = Some p /\ operation_delay g0 tier0 = Ok d
    /\ ledger_sequence env0 + d <= 60000.
Proof.
  destruct (self_execution_was_proposed self trace proposed3 later None grant_op (salt 1) grant_operation Sensitive
    role_granted sample_reachable grant_resolved_later
    (trace_collision_free grant_operation (or_intror (or_introl eq_refl))) role_granted_ok)
    as (env0 & g0 & p & op & tier & d & H1 & H2 & _ & _ & H3 & _ & H4 & H5 & _).
  exists env0, g0, p, op, tier, d. split; [exact H1|]. split; [exact H2|]. split; [exact (H3 eq_refl)|].
  split; [exact H4|exact H5].
Defined.

Lemma governance_roles_invariant_witness :
  exists o, get_owner (g_access proposed3) = Some o
    /\ (forall r, r ∈ default_operational_roles -> GovOps.has_role proposed3 o r = true).
Proof.
  destruct (governance_roles_invariant self trace proposed3 sample_reachable) as (o & H1 & H2 & _).
  exists o. split; [exact H1|exact H2].
Defined.

Lemma reset_pending : DONE_LEDGER < Gov.get_operation_ledger (g_timelock proposed3) (Gov.hash_operation reset_operation).
Proof. vm_cast_no_check (eq_refl Lt). Qed.

Lemma protected_operations_survive_witness :
  cancel later proposed3 owner (Gov.hash_operation reset_operation) = Err HostTrap
  \/ cancel later proposed3 owner (Gov.hash_operation reset_operation) = Err (EGeneric OperationNotCancellable).
Proof.
  exact (protected_operations_survive self trace proposed3 later owner reset_operation sample_reachable reset_pending
    (trace_collision_free reset_operation (or_intror (or_intror eq_refl))) (or_introl eq_refl)).
Defined.

Lemma canceller_reset_correct_witness :
  exists o, get_owner (g_access cancellers_reset) = Some o
    /\ forall a, GovOps.has_role cancellers_reset a CANCELLER_ROLE = true <-> a = o \/ a ∈ [guardian].
Proof.
  exact (canceller_reset_correct self trace proposed3 much_later None [guardian] (salt 3) cancellers_reset
    sample_reachable cancellers_reset_ok).
Defined.

Definition tolerance_op : AdminOperation := EditOracleTolerance (mkEditToleranceArgs (Token (addr 20)) 500).
Definition priced : Gov1 := Eval vm_compute in force (dispatch (at_ledger 300 owner) proposed3 (DeployPriceAggregator code)).
Definition tolerance_resolved : ResolvedOperation :=
  mkResolvedOperation (addr 11) "set_tolerance" [VPriceKey (Token (addr 20)); VTolerance (mkOracleTolerance 10500 9524)] Standard.

Lemma tolerance_resolved_ok : resolve_op later priced tolerance_op = Ok tolerance_resolved.
Proof. vm_cast_no_check (eq_refl (Ok tolerance_resolved : res ResolvedOperation)). Qed.

Lemma admin_operations_exact_witness :
  rs_delay_tier tolerance_resolved = Standard
  /\ (exists e, intended priced tolerance_op e /\ reaches later priced tolerance_resolved e)
  /\ admissible priced tolerance_op /\ self_allowed later proposed3 grant_op.
Proof.
  destruct (admin_operations_exact later priced tolerance_op) as (H1 & H2 & _).
  destruct (H2 tolerance_resolved tolerance_resolved_ok) as [Ht He]. split; [exact Ht|]. split; [exact He|].
  split; [exact (proj1 (proj1 H1 (ex_intro _ tolerance_resolved tolerance_resolved_ok)))|].
  exists owner. split; [vm_compute; reflexivity|]. right. split; intros _; vm_compute; reflexivity.
Defined.

(** The delay can be lowered, down to the floor of about two days. *)
Theorem delay_may_decrease :
  Gov.get_min_delay (g_timelock proposed3) = Some 50000
  /\ validate_delay_update proposed3 TIMELOCK_MIN_DELAY_LEDGERS = Ok tt
  /\ TIMELOCK_MIN_DELAY_LEDGERS < 50000.
Proof. vm_compute. split; [reflexivity|split; reflexivity]. Qed.

End GovProps.
