(* ===== verification/CtlReach.v ===== *)
(** * Reachable systems

    Transitions of a deployed controller with its pool and ledger, and the invariant that
    every reachable system satisfies. *)

From S2P Require Import Prelude Errors FpCore Fp PoolTypes PoolCache PoolOps PoolSafety PoolContract PoolSolvency ControllerTypes PoolView PoolMoves Account SpokeUsage Risk RiskParams Payments LiqPlan CtlState CtlContext CtlBooks CtlFlows CtlLiq CtlConfig CtlStrategies CtlContract CtlLegs CtlKeep CtlSteps CtlLiqSteps CtlStrategySteps CtlAdminSteps.
From stdpp Require Import base numbers list gmap.
From Stdlib Require Import ZArith Lia Bool.

Open Scope Z_scope.

Module Reach.

Import SpokeUsage Books Legs Keep Steps LiqSteps StrategySteps AdminSteps Config Entry.

Section Reach.

Context {W : Type} {HW : Host W} {HC : Chain W} {HS : SequentialIds W}.
Context {HV : Venues W} {HI : VenueIds W} {HD : Deployer W} {HDI : DeployerIds W}.
Context {HN : NoReentry W}.
Implicit Types (s : Sys W) (c : Controller).

(** A transaction that calls the controller, one that leaves it alone, or the end of the
    library's two-step ownership transfer.  [me] is the controller's address. *)
Inductive sys_step (me : Address) : Sys W -> Sys W -> Prop :=
| step_call env s call s' :
    current_contract_address env = me -> call_typed call ->
    dispatch env s call = Ok s' -> sys_step me s s'
| step_ledger s w : host_le (sy_host s) w -> sys_step me s (with_host s w)
| step_owner s o : sys_step me s (with_ctl s (on_instance (sy_ctl s) (fun i => set_i_owner i o))).

Inductive sys_reachable (me : Address) : Sys W -> Prop :=
| reach_construct env admin w s :
    current_contract_address env = me -> constructor env admin w = Ok s -> sys_reachable me s
| reach_sys_step s s' : sys_reachable me s -> sys_step me s s' -> sys_reachable me s'.

(** ** Guards *)

Lemma when_not_paused_Ok {A} s (body : res A) a :
  when_not_paused s body = Ok a -> body = Ok a /\ i_paused (c_instance (sy_ctl s)) = false.
Proof using. unfold when_not_paused. by destruct (i_paused _). Qed.

Lemma ctl_owner_Ok {A} env s (body : res A) a :
  only_owner env s body = Ok a ->
  body = Ok a /\ exists o, i_owner (c_instance (sy_ctl s)) = Some o /\ authorized env o = true.
Proof using.
  unfold only_owner. destruct (i_owner _) as [o|]; [|done].
  destruct (authorized env o) eqn:E; [|done]. eauto.
Qed.

Lemma drop_Ok {R} (r : res (R * Sys W)) s' : drop r = Ok s' -> exists x, r = Ok (x, s').
Proof using. intros H. unfold drop in H. apply rbind_Ok in H as ([x s1] & -> & H). injection H as ->. eauto. Qed.

(** Plain writes of the instance or the registry. *)
Lemma instance_write c c' g e :
  (Ok (publish (on_instance c g) e) : res Controller) = Ok c' ->
  (forall i, i_position_nft (g i) = i_position_nft i) -> admin_step c c'.
Proof using.
  intros H Hg. injection H as <-. etransitivity; [|apply publish_admin]. by apply instance_admin.
Qed.

Lemma pause_admin c c' : Config.pause c = Ok c' -> admin_step c c'.
Proof using.
  intros H. unfold Config.pause in H. apply rbind_Ok in H as (? & _ & H). injection H as <-.
  by apply instance_admin.
Qed.

Lemma unpause_admin c c' : Config.unpause c = Ok c' -> admin_step c c'.
Proof using.
  intros H. unfold Config.unpause in H. apply rbind_Ok in H as (? & _ & H). injection H as <-.
  by apply instance_admin.
Qed.

Lemma migrate_admin c v c' : Config.migrate c v = Ok c' -> admin_step c c'.
Proof using.
  intros H. unfold Config.migrate in H. apply rbind_Ok in H as (? & _ & H). injection H as <-.
  by apply instance_admin.
Qed.

Lemma init_admin admin c : init admin = Ok c -> admin_step empty_controller c.
Proof using.
  intros H. unfold init in H. apply rbind_Ok in H as (c1 & H1 & H). apply rbind_Ok in H as (c2 & H2 & H).
  apply set_limits_admin in H1. apply set_floor_admin in H2. apply pause_admin in H.
  etransitivity; [by apply (instance_admin _ (fun i => set_i_owner i (Some admin)))|].
  etransitivity; [exact H1|]. etransitivity; [exact H2|]. etransitivity; [|exact H].
  by apply instance_admin.
Qed.

(** ** Every call keeps the invariant *)

(** The accounts a call names. *)
Definition named (call : Call) : list Z :=
  match call with
  | Supply _ id _ _ | Borrow _ id _ _ | Withdraw _ id _ _ | Repay _ id _ | CleanBadDebt _ id
  | FlashPosition _ id _ _ _ _ _ _ _ _ | CallMultiply _ id _ _ _ _ _ _ _ _
  | SwapDebt _ id _ _ _ _ | SwapCollateral _ id _ _ _ _
  | RepayDebtWithCollateral _ id _ _ _ _ _ | MigrateFromBlend _ id _ _ _ _ _ _
  | RenewAccount _ id | AddDelegate _ id _ | RemoveDelegate _ id _ | ForceSocializeBadDebt id => [id]
  | Liquidate _ id _ SeizeTransfer => [id]
  | Liquidate _ id _ (SeizeCredit rid) => [id; rid]
  | UpdateAccountThreshold _ _ ids => ids
  | _ => []
  end.

(** Other accounts stay, and the guard is as it was; accounts a call creates have ids that
    were free. *)
Definition spares s (l : list Z) s' : Prop :=
  c_flash_ongoing (sy_ctl s') = c_flash_ongoing (sy_ctl s)
  /\ exists l', others l' (c_accounts (sy_ctl s)) (c_accounts (sy_ctl s'))
    /\ forall i, i ∈ l' -> i ∈ l \/ acs_meta (c_accounts (sy_ctl s)) !! i = None.

Lemma spares_beside s l s' : beside l (sy_ctl s) (sy_ctl s') -> spares s l s'.
Proof using. intros [H _ _ Hg]. split; [done|]. exists l. split; [done|]. intros i Hi. by left. Qed.

Lemma spares_same s l s' :
  c_accounts (sy_ctl s') = c_accounts (sy_ctl s) ->
  c_flash_ongoing (sy_ctl s') = c_flash_ongoing (sy_ctl s) -> spares s l s'.
Proof using.
  intros H Hg. split; [done|]. exists []. split; [intros i _; by rewrite H|]. intros i Hi. inversion Hi.
Qed.

Lemma spares_nil s l s' : beside [] (sy_ctl s) (sy_ctl s') -> spares s l s'.
Proof using.
  intros [H _ _ Hg]. split; [done|]. exists []. split; [done|]. intros i Hi. inversion Hi.
Qed.

Lemma spares_new s id0 id s' :
  beside [id] (sy_ctl s) (sy_ctl s') ->
  id = id0 \/ acs_meta (c_accounts (sy_ctl s)) !! id = None -> spares s [id0] s'.
Proof using.
  intros [H _ _ Hg] Hid. split; [done|]. exists [id]. split; [done|]. intros i Hi. apply list_elem_of_singleton in Hi as ->.
  destruct Hid as [->|Hid]; [left; by apply list_elem_of_singleton|by right].
Qed.

Lemma user_call_kept env s call s' :
  sane s -> match call with
  | Supply _ _ _ _ | Borrow _ _ _ _ | Withdraw _ _ _ _ | Repay _ _ _ | Liquidate _ _ _ _
  | CleanBadDebt _ _ | FlashLoan _ _ _ _ _ | FlashPosition _ _ _ _ _ _ _ _ _ _
  | CallMultiply _ _ _ _ _ _ _ _ _ _ | SwapDebt _ _ _ _ _ _ | SwapCollateral _ _ _ _ _ _
  | RepayDebtWithCollateral _ _ _ _ _ _ _ | MigrateFromBlend _ _ _ _ _ _ _ _ => True
  | _ => False
  end -> dispatch env s call = Ok s' -> sane s' /\ spares s (named call) s'.
Proof using HI HN.
  intros Hs Hc H. destruct call; try contradiction; clear Hc; simpl in H;
    try (apply drop_Ok in H as [r H]); try (apply when_not_paused_Ok in H as [H _]).
  - pose proof (supply_id _ _ _ _ _ _ _ _ Hs H). apply supply_sane in H as [? ?]; [|done].
    split; [done|by eapply spares_new].
  - apply borrow_sane in H as [? ?]; [|done]. split; [done|by apply spares_beside].
  - apply withdraw_sane in H as [? ?]; [|done]. split; [done|by apply spares_beside].
  - apply repay_sane in H as [? ?]; [|done]. split; [done|by apply spares_beside].
  - pose proof (liquidation_id _ _ _ _ _ _ _ _ Hs H) as Hid.
    apply liquidation_sane in H as [? [Hb _ _ Hg]]; [|done]. split; [done|]. split; [done|].
    exists [account_id; r]. split; [done|]. intros i Hi.
    apply elem_of_cons in Hi as [->|Hi]; [left; destruct seize_mode; apply elem_of_cons; by left|].
    apply list_elem_of_singleton in Hi as ->. destruct Hid as [(q & -> & ->)|Hid]; [left|by right].
    simpl. apply elem_of_cons. right. by apply list_elem_of_singleton.
  - unfold clean_bad_debt, Liquidation.process_clean_bad_debt in H.
    do 2 apply rbind_Ok in H as (? & _ & H). apply socialize_sane in H as [? ?]; [|done].
    split; [done|by apply spares_beside].
  - apply (flash_loan_sane env) in H as [? ?]; [|done..]. split; [done|by apply spares_nil].
  - pose proof (flash_position_id _ _ _ _ _ _ Hs H). apply flash_position_sane in H as [? ?]; [|done].
    split; [done|by eapply spares_new].
  - pose proof (multiply_id _ _ _ _ _ _ Hs H). apply multiply_sane in H as [? ?]; [|done].
    split; [done|by eapply spares_new].
  - apply swap_debt_sane in H as [? ?]; [|done]. split; [done|by apply spares_beside].
  - apply swap_collateral_sane in H as [? ?]; [|done]. split; [done|by apply spares_beside].
  - apply repay_with_collateral_sane in H as [? ?]; [|done]. split; [done|by apply spares_beside].
  - pose proof (migrate_blend_id _ _ _ _ _ _ Hs H). apply migrate_blend_sane in H as [? ?]; [|done].
    split; [done|by eapply spares_new].
Qed.

Lemma deploy_sane s by_ salt hash args a w c :
  sane s -> deploy_contract (sy_host s) by_ salt hash args = Ok (a, w) ->
  c_accounts c = c_accounts (sy_ctl s) -> c_usage c = c_usage (sy_ctl s) ->
  c_registry c = c_registry (sy_ctl s) ->
  (i_position_nft (c_instance c) = i_position_nft (c_instance (sy_ctl s))
   \/ i_position_nft (c_instance (sy_ctl s)) = None) ->
  sane (mkSys c (sy_pool s) w).
Proof using HDI.
  intros [S1 S2 S3] Hd E1 E2 E3 E4. split; simpl.
  - unfold stored_books. by rewrite E1, E2.
  - intros sp h cfg. unfold Store.get_spoke_asset. rewrite E3. apply S2.
  - intros id m. simpl. rewrite E1. intros Hm. destruct (S3 id m Hm) as (nft & Hn & Hid).
    destruct E4 as [E4|E4]; [|congruence]. exists nft. rewrite E4. split; [done|].
    pose proof (deploy_keeps_ids _ _ _ _ _ _ _ nft Hd). lia.
Qed.

Lemma owner_write_kept env s write l s' :
  sane s -> (forall c', write (sy_ctl s) = Ok c' -> admin_step (sy_ctl s) c') ->
  owner_write env s write = Ok s' -> sane s' /\ spares s l s'.
Proof using.
  intros Hs Hw H. apply ctl_owner_Ok in H as [H _]. apply rbind_Ok in H as (c & Hc & H).
  injection H as <-. apply Hw in Hc. split; [by apply admin_sane|]. apply spares_same; apply Hc.
Qed.

Lemma call_kept env s call s' :
  sane s -> call_typed call -> dispatch env s call = Ok s' -> sane s' /\ spares s (named call) s'.
Proof using HI HN HDI.
  intros Hs Ht H.
  destruct call; try (by eapply user_call_kept in H); simpl in H, Ht;
    try (apply drop_Ok in H as [r H]); try (apply when_not_paused_Ok in H as [H _]);
    try (eapply owner_write_kept in H; [exact H|exact Hs|]; intros c' Hw;
         try exact (instance_write _ _ _ _ Hw (fun _ => eq_refl))).
  - apply update_indexes_sane in H as [? ?]; [|done]. split; [done|by apply spares_nil].
  - apply claim_revenue_sane in H as [? ?]; [|done]. split; [done|by apply spares_nil].
  - apply thresholds_sane in H as [? ?]; [|done]. split; [done|by apply spares_beside].
  - apply recapitalize_sane in H as [? ?]; [|done]. split; [done|by apply spares_nil].
  - unfold renew_account in H. do 4 apply rbind_Ok in H as (? & _ & H).
    apply rbind_Ok in H as (w & Hw & H). injection H as <-. split; [|by apply spares_same].
    apply host_sane; [done|]. intros nft'. by eapply renew_keeps_ids.
  - apply set_delegate_sane in H as [? ?]; [|done]. split; [done|by apply spares_beside].
  - apply set_delegate_sane in H as [? ?]; [|done]. split; [done|by apply spares_beside].
  - by eapply set_limits_admin.
  - by eapply set_floor_admin.
  - injection Hw as <-. by apply registry_admin.
  - injection Hw as <-. etransitivity; [|apply publish_admin]. by apply registry_admin.
  - injection Hw as <-. etransitivity; [|apply publish_admin]. by apply registry_admin.
  - apply ctl_owner_Ok in H as [H _]. apply rbind_Ok in H as ([i c] & Hc & H). injection H as <- <-.
    apply create_hub_admin in Hc. split; [by apply admin_sane|apply spares_same; apply Hc].
  - apply ctl_owner_Ok in H as [H _]. apply rbind_Ok in H as ([i c] & Hc & H). injection H as <- <-.
    apply add_spoke_admin in Hc. split; [by apply admin_sane|apply spares_same; apply Hc].
  - by eapply remove_spoke_admin.
  - by eapply set_curve_admin.
  - by eapply upsert_admin.
  - by eapply upsert_admin.
  - eapply set_flags_admin; [apply Hs|exact Hw].
  - eapply relax_flags_admin; [apply Hs|exact Hw].
  - by eapply remove_asset_admin.
  - apply ctl_owner_Ok in H as [H _]. apply rbind_Ok in H as (? & _ & H).
    apply rbind_Ok in H as ([a w] & Hd & H). injection H as <- <-. split; [|by apply spares_same].
    eapply deploy_sane; [done|exact Hd|done..|by left].
  - apply ctl_owner_Ok in H as [H _]. apply rbind_Ok in H as (? & Hq & H).
    apply rbind_Ok in H as ([a w] & Hd & H). injection H as <- <-. apply require_Ok in Hq.
    split; [|by apply spares_same].
    eapply deploy_sane; [done|exact Hd|done..|right]. by destruct (i_position_nft _).
  - apply ctl_owner_Ok in H as [H _]. apply create_market_sane in H as [? ?]; [|done..].
    split; [done|by apply spares_nil].
  - apply ctl_owner_Ok in H as [H _]. destruct Ht. apply update_params_sane in H as [? ?]; [|done..].
    split; [done|by apply spares_nil].
  - apply ctl_owner_Ok in H as [H _]. apply rbind_Ok in H as (? & _ & H).
    apply socialize_sane in H as [? ?]; [|done]. split; [done|by apply spares_beside].
  - by eapply pause_admin.
  - by eapply unpause_admin.
  - by eapply migrate_admin.
Qed.

(** ** Configuration *)

Definition same_config (c c' : Controller) : Prop :=
  c_instance c' = c_instance c /\ c_registry c' = c_registry c.

Lemma beside_config l c c' : beside l c c' -> same_config c c'.
Proof using. by intros [_ H1 H2 _]. Qed.

Definition owner_call (call : Call) : bool :=
  match call with
  | SetSwapAggregator _ | SetPriceAggregator _ | SetAccumulator _ | SetPositionLimits _
  | SetMinBorrowCollateralUsd _ | SetPositionManager _ _ | ApproveBlendPool _ | RevokeBlendPool _
  | CreateHub | AddSpoke | RemoveSpoke _ | SetSpokeLiquidationCurve _ _ _ _ | AddAssetToSpoke _
  | EditAssetInSpoke _ | SetSpokeAssetFlags _ _ _ _ _ | RelaxSpokeAssetFlags _ _ _ _ _ _
  | RemoveAssetFromSpoke _ _ | DeployPool _ | DeployPositionNft _ _ _ _ | CreateLiquidityPool _ _ _
  | UpgradeLiquidityPoolParams _ _ | ForceSocializeBadDebt _ | Pause | Unpause | Migrate _ => true
  | _ => false
  end.

Lemma owner_call_authorized env s call s' :
  owner_call call = true -> dispatch env s call = Ok s' ->
  exists o, i_owner (c_instance (sy_ctl s)) = Some o /\ authorized env o = true.
Proof using.
  intros Ho H. destruct call; try done; simpl in H; try (apply drop_Ok in H as [r H]);
    by apply ctl_owner_Ok in H as [_ H].
Qed.

(** Calls that are not the owner's leave instance and registry alone. *)
Lemma user_call_config env s call s' :
  sane s -> owner_call call = false -> dispatch env s call = Ok s' ->
  same_config (sy_ctl s) (sy_ctl s').
Proof using HI HN.
  intros Hs Ho H.
  destruct call; try done; clear Ho; simpl in H; try (apply drop_Ok in H as [r H]);
    try (apply when_not_paused_Ok in H as [H _]); eapply beside_config.
  - by eapply supply_sane in H as [_ H].
  - by eapply borrow_sane in H as [_ H].
  - by eapply withdraw_sane in H as [_ H].
  - by eapply repay_sane in H as [_ H].
  - by eapply liquidation_sane in H as [_ H].
  - unfold clean_bad_debt, Liquidation.process_clean_bad_debt in H.
    do 2 apply rbind_Ok in H as (? & _ & H). by eapply socialize_sane in H as [_ H].
  - by eapply (flash_loan_sane env) in H as [_ H].
  - by eapply flash_position_sane in H as [_ H].
  - by eapply multiply_sane in H as [_ H].
  - by eapply swap_debt_sane in H as [_ H].
  - by eapply swap_collateral_sane in H as [_ H].
  - by eapply repay_with_collateral_sane in H as [_ H].
  - by eapply migrate_blend_sane in H as [_ H].
  - by eapply update_indexes_sane in H as [_ H].
  - by eapply claim_revenue_sane in H as [_ H].
  - by eapply thresholds_sane in H as [_ H].
  - by eapply recapitalize_sane in H as [_ H].
  - unfold renew_account in H. do 4 apply rbind_Ok in H as (? & _ & H).
    apply rbind_Ok in H as (w & Hw & H). injection H as <-. by apply (beside_same []).
  - by eapply set_delegate_sane in H as [_ H].
  - by eapply set_delegate_sane in H as [_ H].
Qed.

(** ** Deployment *)

Lemma fresh_books admin : stored_books empty_controller (LiquidityPool.constructor admin).
Proof using.
  split; try done.
  split; [eapply deployed_inv|]. intros h. unfold market_of. simpl.
  by rewrite lookup_empty.
Qed.

Lemma construct_sane env admin w s : constructor env admin w = Ok s -> sane s.
Proof using.
  intros H. unfold constructor in H. apply rbind_Ok in H as (c & Hc & H). injection H as <-.
  apply init_admin in Hc. change (mkSys c ?p w) with (with_ctl (mkSys empty_controller p w) c).
  apply admin_sane; [|done]. split; simpl.
  - apply fresh_books.
  - done.
  - done.
Qed.

Lemma sys_step_sane me s s' : sane s -> sys_step me s s' -> sane s'.
Proof using HI HN HDI.
  intros Hs Hst. inversion Hst as [env s0 call s1 _ Ht H|s0 w Hw|s0 o]; subst.
  - by eapply call_kept in H as [H _].
  - by apply host_sane.
  - apply admin_sane; [done|]. by apply instance_admin.
Qed.

Lemma reachable_sane me s : sys_reachable me s -> sane s.
Proof using HI HN HDI.
  induction 1; [by eapply construct_sane|by eapply sys_step_sane].
Qed.

(** Between transactions the guard is down. *)
Lemma reachable_guard me s : sys_reachable me s -> c_flash_ongoing (sy_ctl s) = false.
Proof using HI HN HDI.
  induction 1 as [env admin w s _ H|s s' Hr IH Hst].
  - unfold constructor in H. apply rbind_Ok in H as (c & Hc & H). injection H as <-.
    apply init_admin in Hc. apply Hc.
  - inversion Hst as [env s0 call s1 _ Ht H|s0 w Hw|s0 o]; subst; [|done..].
    apply reachable_sane in Hr. eapply call_kept in H as [_ [H _]]; [|done..]. congruence.
Qed.

End Reach.

End Reach.
