(* ===== verification/CtlSample.v ===== *)
(** * A concrete system

    A ledger with tokens, position NFTs, a price source and a router, and a controller
    deployed on it: two markets on one hub, both listed on a spoke, a lender and a
    borrower.  The theorems about the controller are applied to these states. *)

From S2P Require Import Prelude Errors FpCore Fp PoolTypes PoolCache PoolOps PoolSafety PoolContract Sample ControllerTypes PoolView Account SpokeUsage Risk Payments LiqPlan CtlState CtlContext CtlFlows CtlLiq CtlConfig CtlStrategies CtlContract CtlKeep CtlReach.
From stdpp Require Import base numbers list gmap.
From Stdlib Require Import ZArith Lia Bool.

Open Scope Z_scope.

Module Demo.

Import Config Entry Reach.

(** ** The ledger *)

Record World : Type := mkWorld {
  wd_balances : gmap (Address * Address) Z;
  wd_allowances : gmap (Address * Address * Address) Z;
  wd_owners : gmap (Address * Z) Address;
  wd_next : gmap Address Z;
  wd_prices : gmap Address PriceFeedRaw
}.

Definition wd_balance (w : World) (t a : Address) : Z := default 0 (wd_balances w !! (t, a)).
Definition with_balances (w : World) (b : gmap (Address * Address) Z) : World :=
  mkWorld b (wd_allowances w) (wd_owners w) (wd_next w) (wd_prices w).

Definition wd_transfer (w : World) (t from to : Address) (n : Z) : res World :=
  if (n <? 0) || (wd_balance w t from <? n) then Err HostTrap
  else
    let w := with_balances w (<[(t, from) := wd_balance w t from - n]> (wd_balances w)) in
    Ok (with_balances w (<[(t, to) := wd_balance w t to + n]> (wd_balances w))).

Definition wd_counter (w : World) (nft : Address) : Z := default 1 (wd_next w !! nft).

Definition wd_mint (w : World) (nft to : Address) : res (Z * World) :=
  let id := wd_counter w nft in
  if (0 <? id) && (id <=? u32_max) then
    Ok (id, mkWorld (wd_balances w) (wd_allowances w) (<[(nft, id) := to]> (wd_owners w))
              (<[nft := id + 1]> (wd_next w)) (wd_prices w))
  else Err HostTrap.

Definition wd_burn (w : World) (nft : Address) (id : Z) : res World :=
  match wd_owners w !! (nft, id) with
  | Some _ => Ok (mkWorld (wd_balances w) (wd_allowances w) (delete (nft, id) (wd_owners w))
                    (wd_next w) (wd_prices w))
  | None => Err HostTrap
  end.

Definition wd_feeds (w : World) (assets : list Address) : res (gmap Address PriceFeedRaw) :=
  rfold (fun m a =>
    let* p := of_option HostTrap (wd_prices w !! a) in
    do! require ((0 <? pfr_price_wad p) && (0 <=? pfr_asset_decimals p)
                 && (pfr_asset_decimals p <=? WAD_DECIMALS)) HostTrap in
    Ok (<[a := p]> m)) ∅ assets.

#[export] Instance world_host : Host World := {
  token_balance := wd_balance;
  token_transfer := wd_transfer;
  token_allowance := fun w t o s => default 0 (wd_allowances w !! (t, o, s));
  token_transfer_from := fun w t _ from to n => wd_transfer w t from to n;
  is_wasm_contract := fun _ a => bool_decide (a = Sample.bot);
  execute_flash_loan := fun r _ t amount fee pool _ pw =>
    Ok (pw.1, mkWorld (wd_balances pw.2) (<[(t, r, pool) := amount + fee]> (wd_allowances pw.2))
                (wd_owners pw.2) (wd_next pw.2) (wd_prices pw.2))
}.

#[export] Instance world_no_reentry : NoReentry World.
Proof. split. simpl. congruence. Defined.

#[export] Instance world_chain : Chain World := {
  nft_mint := wd_mint;
  nft_burn := wd_burn;
  nft_owner_of := fun w nft id => wd_owners w !! (nft, id);
  aggregator_prices := fun w _ assets => wd_feeds w assets
}.

(** The router swaps one for one out of its own reserves; the route is the pair of token
    numbers.  The flash position's receiver returns nothing, Blend is absent. *)
#[export] Instance world_venues : Venues World := {
  execute_strategy := fun w router sender amount swap =>
    match swap with
    | [a; b] =>
        let* w := wd_transfer w (mkAddress a) sender router amount in
        wd_transfer w (mkAddress b) router sender amount
    | _ => Err HostTrap
    end;
  execute_flash_position := fun w _ _ _ _ _ _ _ _ _ => Ok w;
  blend_submit := fun _ _ _ _ _ _ => Err HostTrap
}.

#[export] Instance world_deployer : Deployer World := {
  deploy_contract := fun w _ salt _ _ => Ok (mkAddress (100 + hd 0 salt)%N, w);
  nft_renew := fun w _ _ => Ok w
}.

(** ** Its ids *)

Lemma transfer_next w t from to n w' : wd_transfer w t from to n = Ok w' -> wd_next w' = wd_next w.
Proof. unfold wd_transfer. destruct (_ || _); [done|]. intros H. by injection H as <-. Qed.

Lemma counter_insert w nft nft' :
  let w' := mkWorld (wd_balances w) (wd_allowances w) (wd_owners w)
              (<[nft := wd_counter w nft + 1]> (wd_next w)) (wd_prices w) in
  wd_counter w nft' <= wd_counter w' nft' /\ wd_counter w' nft = wd_counter w nft + 1.
Proof.
  unfold wd_counter. simpl. rewrite lookup_insert_eq. split; [|done].
  destruct (decide (nft = nft')) as [<-|Hne]; [rewrite lookup_insert_eq; simpl; lia|].
  by rewrite lookup_insert_ne.
Qed.

#[export] Instance world_ids : SequentialIds World.
Proof.
  refine {| nft_next := wd_counter |}; simpl.
  - intros w nft to id w' H. unfold wd_mint in H.
    destruct (_ && _) eqn:E; [|done]. injection H as <- <-. b2p.
    split_and!; [done|lia|lia|apply (counter_insert w nft nft)|intros; apply (counter_insert w nft)].
  - intros w nft id w' nft' H. unfold wd_burn in H. destruct (wd_owners w !! _); [|done].
    injection H as <-. done.
  - intros w t from to a w' nft H. unfold wd_counter. by rewrite (transfer_next _ _ _ _ _ _ H).
  - intros w t _ from to a w' nft H. unfold wd_counter. by rewrite (transfer_next _ _ _ _ _ _ H).
  - intros r i t a fee pool data p w p' w' nft H. injection H as <- <-. done.
Defined.

#[export] Instance world_venue_ids : VenueIds World.
Proof.
  split; simpl.
  - intros w router sender x swap w' nft H. destruct swap as [|a [|b [|]]]; try done.
    apply rbind_Ok in H as (w1 & H1 & H). apply transfer_next in H1. apply transfer_next in H.
    unfold wd_counter. by rewrite H, H1.
  - intros. by injection H as <-.
  - done.
Defined.

#[export] Instance world_deployer_ids : DeployerIds World.
Proof. split; simpl; intros; [by injection H as _ <-|by injection H as <-]. Defined.

(** ** A deployment *)

Definition me : Address := Sample.controller.
Definition owner : Address := mkAddress 10.
Definition lender : Address := mkAddress 11.
Definition borrower : Address := mkAddress 12.
Definition liquidator : Address := mkAddress 13.
Definition router : Address := mkAddress 14.
Definition oracle : Address := mkAddress 15.
Definition usdc : Address := Sample.usdc.
Definition xlm : Address := mkAddress 6.
Definition usdc_market : HubAssetKey := mkHubAssetKey 1 usdc.
Definition xlm_market : HubAssetKey := mkHubAssetKey 1 xlm.

Definition env_at (t : Z) : Env :=
  {| ledger_timestamp := t; current_contract_address := me; authorized := fun _ => true |}.

Definition xlm_params : MarketParamsRaw :=
  {| rp_max_borrow_rate := RAY; rp_base_borrow_rate := RAY / 100; rp_slope1 := RAY / 50;
     rp_slope2 := RAY / 10; rp_slope3 := RAY * 4 / 5; rp_mid_utilization := RAY / 2;
     rp_optimal_utilization := RAY * 4 / 5; rp_max_utilization := RAY * 19 / 20;
     rp_reserve_factor := 1000; rp_is_flashloanable := true; rp_flashloan_fee := 9;
     rp_asset_id := xlm; rp_asset_decimals := 7 |}.

(** LTV 75%, threshold 80%, bonus 5%, fees 10%, caps of ten billion units. *)
Definition listing (token : Address) : SpokeAssetArgs :=
  {| aa_hub_id := 1; aa_asset := token; aa_spoke_id := 1; aa_can_collateral := true;
     aa_can_borrow := true; aa_paused := false; aa_frozen := false; aa_no_seize := false;
     aa_ltv := 7500; aa_threshold := 8000; aa_bonus := 500; aa_liquidation_fees := 1000;
     aa_supply_cap := 10 ^ 17; aa_borrow_cap := 10 ^ 17 |}.

Definition price (wad : Z) : PriceFeedRaw := mkPriceFeedRaw wad 7 1000.

Definition world0 : World :=
  mkWorld (<[(usdc, lender) := 10 ^ 12]> (<[(xlm, borrower) := 10 ^ 12]>
           (<[(usdc, router) := 10 ^ 12]> (<[(xlm, router) := 10 ^ 12]>
           (<[(usdc, liquidator) := 10 ^ 12]> {[ (usdc, Sample.bot) := 10 ^ 9 ]})))))
    ∅ ∅ ∅ (<[usdc := price WAD]> {[ xlm := price WAD ]}).

(** The owner's deployment and configuration. *)
Definition setup : list Call :=
  [SetPriceAggregator oracle; SetSwapAggregator router; SetAccumulator owner; CreateHub; AddSpoke;
   DeployPool []; DeployPositionNft [] [] [] []; CreateLiquidityPool 1 usdc Sample.params;
   CreateLiquidityPool 1 xlm xlm_params; AddAssetToSpoke (listing usdc);
   AddAssetToSpoke (listing xlm); Unpause].

Definition run (t : Z) (s : Sys World) (calls : list Call) : res (Sys World) :=
  rfold (dispatch (env_at t)) s calls.

Definition start : Sys World :=
  mkSys empty_controller (LiquidityPool.constructor me) world0.
Definition deployed : Sys World := Sample.ok_or start (constructor (env_at 1000) owner world0).
Definition configured : Sys World := Sample.ok_or deployed (run 1000 deployed setup).

(** The lender supplies 10,000 USDC, the borrower 2,000 XLM and borrows 1,400 USDC. *)
Definition opening : list Call :=
  [Supply lender 0 1 [(usdc_market, 10 ^ 11)]; Supply borrower 0 1 [(xlm_market, 2 * 10 ^ 10)];
   Borrow borrower 2 [(usdc_market, 14 * 10 ^ 9)] None].
Definition opened : Sys World := Sample.ok_or configured (run 1000 configured opening).

Lemma run_reachable t s calls s' :
  sys_reachable me s -> Forall call_typed calls -> run t s calls = Ok s' -> sys_reachable me s'.
Proof.
  intros Hs Ht H. revert H. unfold run.
  apply (rfold_inv (fun x => sys_reachable me x)); [|done].
  intros a c a' Hc Ha Hst. eapply reach_sys_step; [exact Ha|].
  eapply step_call; [| |exact Hst]; [done|]. rewrite Forall_forall in Ht. by apply Ht, list_elem_of_In.
Qed.

Lemma configured_reachable : sys_reachable me configured.
Proof.
  apply (run_reachable 1000 deployed setup).
  - eapply (reach_construct me (env_at 1000) owner world0); [done|by vm_compute].
  - repeat constructor; simpl; zconst.
  - by vm_compute.
Defined.

Lemma opened_reachable : sys_reachable me opened.
Proof.
  apply (run_reachable 1000 configured opening).
  - exact configured_reachable.
  - by repeat constructor.
  - by vm_compute.
Defined.

(** The price of XLM falls to 0.80 dollars. *)
Definition crash (s : Sys World) (wad : Z) : Sys World :=
  with_host s (mkWorld (wd_balances (sy_host s)) (wd_allowances (sy_host s))
    (wd_owners (sy_host s)) (wd_next (sy_host s)) (<[xlm := price wad]> (wd_prices (sy_host s)))).
Definition distressed : Sys World := crash opened (WAD * 4 / 5).

Lemma crash_reachable s wad : sys_reachable me s -> sys_reachable me (crash s wad).
Proof.
  intros Hs. eapply reach_sys_step; [exact Hs|]. apply step_ledger. by intros nft.
Defined.

End Demo.
