(* ===== verification/CtlHealth.v ===== *)
(** * Accounts that a flow leaves within their limits

    Borrowing and withdrawing end with the solvency gate, priced from the pool and the
    aggregator after the pool has moved.  [within_limits] is what the gate establishes of
    the stored account; a liquidation in the same ledger prices the account the same way
    and finds nothing to liquidate. *)

From S2P Require Import Prelude Errors FpCore Fp PoolTypes PoolCache PoolOps PoolSafety PoolContract ControllerTypes Risk Payments LiqPlan PoolView Account SpokeUsage RiskParams PoolMoves CtlState CtlContext CtlBooks CtlFlows CtlLegs CtlKeep CtlSteps CtlLiq CtlLiqSteps CtlStrategies CtlStrategySteps CtlConfig CtlAdminSteps CtlContract CtlReach.
From stdpp Require Import base numbers list gmap.
From Stdlib Require Import ZArith Lia Bool.

Open Scope Z_scope.

(** What a liquidation relies on from prices: one ledger quotes one price per asset, and
    minting a position token does not move it. *)
Class StableQuotes (W : Type) `{Chain W} : Prop := {
  quotes_pointwise : forall w agg l l' m m' x p p',
    aggregator_prices w agg l = Ok m -> aggregator_prices w agg l' = Ok m' ->
    m !! x = Some p -> m' !! x = Some p' -> p = p';
  mint_keeps_quotes : forall w nft to id w' agg l,
    nft_mint w nft to = Ok (id, w') -> aggregator_prices w' agg l = aggregator_prices w agg l
}.

Module Health.

Import SpokeUsage RiskParams Payments LiqPlan Positions Liquidation Books Legs Keep Steps Risk.

(** ** Two contexts that agree *)

Lemma rfold_agree {A B E} (g1 g2 : A -> B -> result E A) l a r1 r2 :
  (forall a x b1 b2, g1 a x = Ok b1 -> g2 a x = Ok b2 -> b1 = b2) ->
  rfold g1 a l = Ok r1 -> rfold g2 a l = Ok r2 -> r1 = r2.
Proof.
  intros Hg. revert a. induction l as [|x l IH]; simpl; intros a H1 H2; [congruence|].
  apply rbind_Ok in H1 as (b1 & E1 & H1). apply rbind_Ok in H2 as (b2 & E2 & H2).
  rewrite (Hg _ _ _ _ E1 E2) in H1. by eapply IH.
Qed.

(** Where both answer, they answer the same. *)
Definition agree (c1 c2 : Context) : Prop :=
  (forall h m1 m2, ctx_market_index c1 h = Ok m1 -> ctx_market_index c2 h = Ok m2 -> m1 = m2)
  /\ (forall x p1 p2, ctx_token_prices c1 !! x = Some p1 -> ctx_token_prices c2 !! x = Some p2 ->
        p1 = p2).

Lemma price_agree c1 c2 x p1 p2 :
  agree c1 c2 -> cached_price c1 x = Ok p1 -> cached_price c2 x = Ok p2 -> p1 = p2.
Proof.
  intros [_ H] H1 H2. unfold cached_price in *.
  apply rbind_Ok in H1 as (r1 & R1 & H1). apply rbind_Ok in H2 as (r2 & R2 & H2).
  apply of_option_Ok in R1, R2. rewrite (H _ _ _ R1 R2) in H1. congruence.
Qed.

Lemma index_agree c1 c2 h m1 m2 :
  agree c1 c2 -> cached_market_index c1 h = Ok m1 -> cached_market_index c2 h = Ok m2 -> m1 = m2.
Proof.
  intros [H _] H1 H2. unfold cached_market_index in *.
  apply rbind_Ok in H1 as (r1 & R1 & H1). apply rbind_Ok in H2 as (r2 & R2 & H2).
  rewrite (H _ _ _ R1 R2) in H1. congruence.
Qed.

Lemma totals_agree c1 c2 s b t1 t2 :
  agree c1 c2 -> calculate_account_risk_totals c1 s b = Ok t1 ->
  calculate_account_risk_totals c2 s b = Ok t2 -> t1 = t2.
Proof.
  intros Ha H1 H2. unfold calculate_account_risk_totals in *.
  apply rbind_Ok in H1 as (s1 & S1 & H1). apply rbind_Ok in H2 as (s2 & S2 & H2).
  apply rbind_Ok in H1 as (d1 & D1 & H1). apply rbind_Ok in H2 as (d2 & D2 & H2).
  assert (s1 = s2) as ->.
  { eapply rfold_agree; [|exact S1|exact S2]. intros a [h p] b1 b2 E1 E2. unfold collateral_step in *.
    apply rbind_Ok in E1 as (p1 & P1 & E1). apply rbind_Ok in E2 as (p2 & P2 & E2).
    apply rbind_Ok in E1 as (m1 & M1 & E1). apply rbind_Ok in E2 as (m2 & M2 & E2).
    rewrite (price_agree _ _ _ _ _ Ha P1 P2), (index_agree _ _ _ _ _ Ha M1 M2) in E1. congruence. }
  assert (d1 = d2) as ->.
  { unfold sum_debt_usd_loaded in *.
    eapply rfold_agree; [|exact D1|exact D2]. intros a e b1 b2 E1 E2. unfold debt_step in *.
    apply rbind_Ok in E1 as (p1 & P1 & E1). apply rbind_Ok in E2 as (p2 & P2 & E2).
    apply rbind_Ok in E1 as (m1 & M1 & E1). apply rbind_Ok in E2 as (m2 & M2 & E2).
    rewrite (price_agree _ _ _ _ _ Ha P1 P2), (index_agree _ _ _ _ _ Ha M1 M2) in E1. congruence. }
  congruence.
Qed.

Section Health.

Context {W : Type} {HW : Host W} {HC : Chain W} {HS : SequentialIds W}.
Implicit Types (env : Env) (f : Flow W) (a : Account) (s : Sys W).

(** ** Priced from the ledger *)

Definition priced_by env s (cache : Context) : Prop :=
  (forall h m, ctx_market_index cache h = Ok m -> pool_view env (sy_pool s) h = Ok m)
  /\ (forall x p, ctx_token_prices cache !! x = Some p -> quotes s x p).

(** The stored account, if it owes anything, owes no more than its LTV-weighted collateral
    and has a health factor of at least one, at this ledger's prices and indexes. *)
Definition within_limits env s (id : Z) : Prop :=
  forall a, Store.get_account s id = Ok a -> debt_free a = false ->
  exists cache t, priced_by env s cache
    /\ calculate_account_risk_totals cache (supply_positions a) (borrow_positions a) = Ok t
    /\ rt_total_debt t <= rt_ltv_collateral t /\ WAD <= rt_health_factor t.

Lemma reads_priced env f : current env f -> quoted f -> priced_by env (fl_sys f) (Ctx.reads env f).
Proof using.
  intros Hc Hq. split; [|exact Hq]. intros h m H. simpl in H. unfold Ctx.index_of in H.
  destruct (bf_market_indexes (fl_buf f) !! h) as [m'|] eqn:E; [injection H as ->; by apply Hc|].
  apply rbind_Ok in H as (pool & _ & H). by rewrite view_env in H.
Qed.

Lemma quotes_same s s' x p :
  c_instance (sy_ctl s') = c_instance (sy_ctl s) -> sy_host s' = sy_host s ->
  quotes s x p -> quotes s' x p.
Proof using.
  intros Hi Hh (agg & l & k & H1 & H2 & H3). exists agg, l, k.
  unfold Store.get_price_aggregator in *. by rewrite Hi, Hh.
Qed.

Lemma priced_same env s s' cache :
  sy_pool s' = sy_pool s -> c_instance (sy_ctl s') = c_instance (sy_ctl s) ->
  sy_host s' = sy_host s -> priced_by env s cache -> priced_by env s' cache.
Proof using.
  intros Hp Hi Hh [P1 P2]. split; [by rewrite Hp|]. intros x p H. by apply (quotes_same s), P2.
Qed.

Lemma priced_agree `{!StableQuotes W} env env' s c1 c2 :
  ledger_timestamp env' = ledger_timestamp env ->
  priced_by env s c1 -> priced_by env' s c2 -> agree c1 c2.
Proof using.
  intros Ht [P1 P2] [Q1 Q2]. split.
  - intros h m1 m2 H1 H2. apply P1 in H1. apply Q1 in H2.
    rewrite (pool_view_same env env' (sy_pool s) (sy_pool s)) in H2 by done. congruence.
  - intros x p1 p2 H1 H2. apply P2 in H1 as (a1 & l1 & k1 & A1 & B1 & C1).
    apply Q2 in H2 as (a2 & l2 & k2 & A2 & B2 & C2). assert (a2 = a1) as -> by congruence.
    exact (quotes_pointwise _ _ _ _ _ _ x _ _ B1 B2 C1 C2).
Qed.

(** ** The end of a flow *)

(** What the next read of the account returns. *)
Lemma finalize_reads f id a sides rm sm bm f' a' :
  writes sides (fl_ctl f) id a sm bm -> finalize_position_flow f id a sides rm = Ok f' ->
  Store.get_account (fl_sys f') id = Ok a' ->
  supply_positions a' = sm /\ borrow_positions a' = bm /\ fl_pool f' = fl_pool f
  /\ c_instance (fl_ctl f') = c_instance (fl_ctl f) /\ fl_host f' = fl_host f.
Proof using HS.
  intros Hwr H Ha. unfold finalize_position_flow in H. apply rbind_Ok in H as (f2 & H2 & H).
  injection H as <-. destruct (emit_batch_ctl f2 id a) as (E1 & E2 & E3 & E4 & E5 & E6).
  apply get_account_opened in Ha as (m & [O1 _ O3 O4]).
  unfold Store.get_supply_positions, Store.get_debt_positions in O3, O4. rewrite E3 in O1, O3, O4.
  rewrite E1, E5, E6, O3, O4.
  destruct (persist_usage_settled f) as [[P1 _ _ P4 _] Pa].
  assert (fl_host (Ctx.persist_spoke_usage f) = fl_host f) as Ph.
  { unfold Ctx.persist_spoke_usage. by destruct (bf_spoke_usage (fl_buf f)). }
  set (f0 := Ctx.persist_spoke_usage f) in *.
  unfold persist_account_positions, Acct.cleanup_account_if_empty in H2. cbv zeta in H2.
  match type of H2 with (if rm then (if _ then Acct.remove_account_and_burn_nft ?g _ else _) else _) = _ =>
    set (f1 := g) in * end.
  assert (f2 = f1) as ->.
  { destruct rm; [destruct (account_is_empty a)|]; [|by injection H2..].
    unfold Acct.remove_account_and_burn_nft in H2. apply rbind_Ok in H2 as (nft & _ & H2).
    apply rbind_Ok in H2 as (w & _ & H2). injection H2 as <-. simpl in O1.
    by rewrite lookup_delete_eq in O1. }
  clear H2 E1 E2 E3 E4 E5 E6 O1 O3 O4.
  unfold Store.get_supply_positions, Store.get_debt_positions in Hwr.
  subst f1. destruct sides; destruct Hwr as [-> ->]; simpl; rewrite ?write_side_get, ?Pa;
    by split_and!.
Qed.

(** The gate on an account in flight, then its write-back. *)
Lemma gate_within env s0 f a1 a ch f1 id sides rm f' :
  current env f -> quoted f -> supply_ok (supply_positions a1) ->
  enforce_post_pool_solvency env f a1 = Ok (a, ch, f1) ->
  writes sides (fl_ctl f1) id a (supply_positions a) (borrow_positions a) ->
  finalize_position_flow f1 id a sides rm = Ok f' -> fl_sys f' = s0 ->
  within_limits env s0 id.
Proof using HS.
  intros Hc Hq Hok Hg Hwr Hf <- a' Ha' Hd.
  apply solvency_gate_Ok in Hg as ([[Q1 Q2 Q3] _] & _ & _ & _ & Hg); [|done].
  destruct (finalize_reads _ _ _ _ _ _ _ _ _ Hwr Hf Ha') as (R1 & R2 & R3 & R4 & R5).
  unfold require_post_pool_risk_gates in Hg.
  assert (debt_free a = false) as Hda by (unfold debt_free in *; by rewrite <- R2).
  rewrite Hda in Hg. apply rbind_Ok in Hg as (t & Ht & Hg). apply rbind_Ok in Hg as ([] & G1 & Hg).
  apply rbind_Ok in Hg as ([] & G2 & _). apply require_Ok in G1, G2. b2p. unfold Wad.ONE in G2.
  exists (Ctx.reads env f1), t. rewrite R1, R2. split_and!; [|done|lia|lia].
  apply (priced_same env (fl_sys f1)); [done..|]. apply reads_priced; auto.
Qed.

Lemma fresh_calm env f g f1 :
  bf_market_indexes (fl_buf g) = bf_market_indexes (fl_buf f) ->
  bf_token_prices (fl_buf g) = bf_token_prices (fl_buf f) ->
  bf_market_indexes (fl_buf f) = ∅ -> bf_token_prices (fl_buf f) = ∅ ->
  calm env g f1 -> current env f1 /\ quoted f1.
Proof using.
  intros E1 E2 N1 N2 [_ C2 C3]. split; [apply C2|apply C3]; intros x m H; simpl in H.
  - by rewrite E1, N1 in H.
  - by rewrite E2, N2 in H.
Qed.

Lemma withdraw_within env s caller id ws to paid s' :
  sane s -> process_withdraw env s caller id ws to = Ok (paid, s') -> within_limits env s' id.
Proof using HS.
  intros Hs H. unfold process_withdraw in H.
  apply rbind_Ok in H as (u & _ & H). apply rbind_Ok in H as (a & Ha & H).
  do 2 apply rbind_Ok in H as (? & _ & H). apply rbind_Ok in H as (agg & _ & H).
  apply rbind_Ok in H as ([[pd a1] f1] & H1 & H). apply rbind_Ok in H as ([[a2 ch] f2] & H2 & H).
  apply rbind_Ok in H as (f3 & H3 & H). injection H as <- <-.
  apply get_account_opened in Ha as (m & Ho).
  eapply withdraw_run in H1 as (Hw & _ & Hbo & Hok & g & G1 & G2 & G3); [|done|done|exact Ho|exact H2].
  destruct (fresh_calm env _ _ _ G1 G2 eq_refl eq_refl G3) as [Hc Hq].
  eapply gate_within; [exact Hc|exact Hq|exact Hok|exact H2| |exact H3|done].
  split; [done|]. rewrite (wh_ctl _ _ _ _ _ Hw), Hbo. apply Ho.
Qed.

Lemma borrow_within env s caller id bs to s' :
  sane s -> process_borrow env s caller id bs to = Ok s' -> within_limits env s' id.
Proof using HS.
  intros Hs H. unfold process_borrow in H.
  apply rbind_Ok in H as (u & _ & H). apply rbind_Ok in H as (a & Ha & H).
  do 2 apply rbind_Ok in H as (? & _ & H). apply rbind_Ok in H as (agg & _ & H).
  apply rbind_Ok in H as (? & _ & H).
  apply rbind_Ok in H as ([a1 f1] & H1 & H). apply rbind_Ok in H as ([[a2 ch] f2] & H2 & H).
  apply rbind_Ok in H as (f3 & H3 & H). injection H as <-.
  apply get_account_opened in Ha as (m & Ho).
  eapply borrow_run in H1 as (Hw & _ & C3 & g & G1 & G2 & G3); [|done|done|exact Ho].
  destruct (fresh_calm env _ _ _ G1 G2 eq_refl eq_refl G3) as [Hc Hq].
  pose proof (books_maps_ok _ _ _ _ _ _ _ _ (wh_books _ _ _ _ _ Hw)) as [Hok _].
  eapply gate_within; [exact Hc|exact Hq|exact Hok|exact H2| |exact H3|done].
  apply solvency_gate_Ok in H2 as ([[Q1 _ _] _] & R & R' & _); [|done].
  destruct ch; [done|]. split; [|done]. rewrite (R' eq_refl), C3, Q1, (wh_ctl _ _ _ _ _ Hw). apply Ho.
Qed.

(** ** Liquidation of an account within its limits *)

Lemma resolve_quotes `{!StableQuotes W} env f liq id a mode ro f' :
  resolve_seize_receiver env f liq id a mode = Ok (ro, f') ->
  fl_pool f' = fl_pool f /\ fl_buf f' = fl_buf f
  /\ forall x p, quotes (fl_sys f') x p -> quotes (fl_sys f) x p.
Proof using.
  intros H. unfold resolve_seize_receiver in H. destruct mode as [|req]; [by injection H as <- <-|].
  destruct (req =? 0).
  - apply rbind_Ok in H as ([ida f1] & H1 & H). injection H as <- <-.
    unfold Acct.create_account_with in H1. do 2 apply rbind_Ok in H1 as (? & _ & H1).
    apply rbind_Ok in H1 as (nft & _ & H1). apply rbind_Ok in H1 as ([i w] & Hw & H1).
    injection H1 as <- <-. split_and!; [done..|].
    intros y p (agg & l & k & Q1 & Q2 & Q3). exists agg, l, k.
    split_and!; [exact Q1| |exact Q3]. simpl in Q2. by rewrite (mint_keeps_quotes _ _ _ _ _ _ _ Hw) in Q2.
  - apply rbind_Ok in H as (r & _ & H). apply rbind_Ok in H as (? & _ & H). by injection H as <- <-.
Qed.

Lemma within_not_liquidated `{!StableQuotes W} env env' s liq id ps mode r s' :
  ledger_timestamp env' = ledger_timestamp env -> within_limits env s id ->
  process_liquidation env' s liq id ps mode <> Ok (r, s').
Proof using.
  intros Ht Hl H. unfold process_liquidation in H.
  do 2 apply rbind_Ok in H as (? & _ & H). apply rbind_Ok in H as (a & Ha & H).
  apply rbind_Ok in H as (? & _ & H). apply rbind_Ok in H as ([ro f1] & H1 & H).
  apply rbind_Ok in H as ([plan f2] & H2 & _).
  unfold build_plan in H2. apply rbind_Ok in H2 as (? & Hdf & H2). apply rbind_Ok in H2 as (? & _ & H2).
  apply rbind_Ok in H2 as (g & Hg & H2). apply rbind_Ok in H2 as (pl & Hpl & _).
  destruct (debt_free a) eqn:Ed; [done|]. clear Hdf.
  destruct (Hl a Ha Ed) as (cache & t & Hp & Htot & _ & Hhf).
  unfold build_liquidation_plan in Hpl. do 2 apply rbind_Ok in Hpl as (? & _ & Hpl).
  apply rbind_Ok in Hpl as (t' & Ht' & Hpl). apply rbind_Ok in Hpl as (? & Hlt & _).
  apply require_Ok in Hlt. b2p. unfold Wad.ONE in Hlt.
  apply resolve_quotes in H1 as (R1 & R2 & R3).
  apply load_markets_quiet in Hg as [[G1 G2 G3] _].
  assert (priced_by env' s (Ctx.reads env' g)) as Hp'.
  { destruct (reads_priced env' g) as [P1 P2].
    - apply G2. intros h m Hm. by rewrite R2 in Hm.
    - apply G3. intros y q Hm. by rewrite R2 in Hm.
    - rewrite G1 in P1, P2. split.
      + intros h m Hm. apply P1 in Hm. by rewrite R1 in Hm.
      + intros y q Hm. by apply R3, P2. }
  rewrite (totals_agree _ _ _ _ _ _ (priced_agree _ _ _ _ _ Ht Hp Hp') Htot Ht') in Hhf. lia.
Qed.

End Health.

End Health.

(** ** Who may do what

    Authorization of the entrypoints, what outsiders can do to an account, and how listing
    flags and spokes may change. *)

Module Access.

Import SpokeUsage RiskParams Payments LiqPlan Positions Liquidation Strategies Config Entry Books Legs Keep Steps LiqSteps AdminSteps Reach.

Section Access.

Context {W : Type} {HW : Host W} {HC : Chain W} {HV : Venues W} {HD : Deployer W}.
Implicit Types (env : Env) (s : Sys W) (c : Controller).

(** ** Rights over an account *)

(** [caller] holds the account's token, or is an active manager whom the holder of the
    token appointed. *)
Definition entitled s (id : Z) (caller : Address) : Prop :=
  exists nft o, i_position_nft (c_instance (sy_ctl s)) = Some nft
    /\ nft_owner_of (sy_host s) nft id = Some o
    /\ (caller = o
        \/ (exists g cfg, r_managers (c_registry (sy_ctl s)) !! caller = Some cfg
              /\ manager_is_active cfg = true
              /\ acs_delegates (c_accounts (sy_ctl s)) !! id = Some g
              /\ granted_by g = o /\ caller ∈ delegates g)).

Lemma get_account_owner s id a :
  Store.get_account s id = Ok a ->
  exists nft, i_position_nft (c_instance (sy_ctl s)) = Some nft
    /\ nft_owner_of (sy_host s) nft id = Some (acc_owner a).
Proof using.
  intros H. unfold Store.get_account, Store.try_get_account in H. apply of_option_Ok in H.
  destruct (Store.try_get_account_meta _ id); [|done].
  destruct (Store.try_account_owner s id) as [o|] eqn:E; [|done]. injection H as <-.
  unfold Store.try_account_owner in E. destruct (i_position_nft _) as [nft|]; [|done].
  exists nft. unfold Store.nft_try_owner_of_call in E. by destruct (id <=? u32_max).
Qed.

Lemma delegate_entitled s id a caller :
  Store.get_account s id = Ok a ->
  Acct.is_owner_or_delegate (sy_ctl s) id caller (acc_owner a) = true -> entitled s id caller.
Proof using.
  intros Ha H. apply get_account_owner in Ha as (nft & Hn & Ho). exists nft, (acc_owner a).
  split_and!; [done..|]. unfold Acct.is_owner_or_delegate in H. apply orb_true_iff in H as [H|H].
  - left. by apply bool_decide_eq_true in H.
  - right. apply andb_true_iff in H as [H1 H2]. unfold Store.get_position_manager in H1.
    destruct (r_managers _ !! caller) as [cfg|]; [|done]. apply bool_decide_eq_true in H2.
    unfold Store.get_delegates in H2. destruct (acs_delegates _ !! id) as [g|]; [|inversion H2].
    case_bool_decide; [|inversion H2]. by exists g, cfg.
Qed.

Lemma require_entitled s id a caller u :
  Store.get_account s id = Ok a ->
  Acct.require_owner_or_delegate (sy_ctl s) id caller (acc_owner a) = Ok u -> entitled s id caller.
Proof using. intros Ha H. apply require_Ok in H. by eapply delegate_entitled. Qed.

(** Who acts, and on which existing account, where the call needs a right over it. *)
Definition acts_on (call : Call) : option (Address * Z) :=
  match call with
  | Borrow caller id _ _ | Withdraw caller id _ _ | SwapDebt caller id _ _ _ _
  | SwapCollateral caller id _ _ _ _ | RepayDebtWithCollateral caller id _ _ _ _ _ =>
      Some (caller, id)
  | FlashPosition caller id _ _ _ _ _ _ _ _ | CallMultiply caller id _ _ _ _ _ _ _ _
  | MigrateFromBlend caller id _ _ _ _ _ _ => if id =? 0 then None else Some (caller, id)
  | _ => None
  end.

Lemma caller_authorized env s caller u :
  Ctx.require_authorized_caller env s caller = Ok u ->
  authorized env caller = true /\ c_flash_ongoing (sy_ctl s) = false.
Proof using.
  intros H. unfold Ctx.require_authorized_caller in H. apply rbind_Ok in H as (? & H1 & H).
  apply require_Ok in H1. apply require_Ok in H. by apply negb_true_iff in H.
Qed.

Lemma guarded_entitled env f caller id0 spoke mode guard r :
  (id0 =? 0) = false -> guard <> Acct.GuardSupply ->
  Acct.load_or_create_account env f caller id0 spoke mode guard = Ok r ->
  entitled (fl_sys f) id0 caller.
Proof using.
  intros Hid Hg H. unfold Acct.load_or_create_account in H. rewrite Hid in H.
  apply rbind_Ok in H as (a & Ha & H). apply rbind_Ok in H as (u & Hu & _).
  destruct guard; [done|..]; apply rbind_Ok in Hu as (? & Hu & _); by eapply require_entitled.
Qed.

Lemma acting_entitled env s call caller id s' :
  acts_on call = Some (caller, id) -> dispatch env s call = Ok s' ->
  authorized env caller = true /\ entitled s id caller.
Proof using.
  intros Ha H. destruct call; simpl in Ha; try done;
    try (destruct (account_id =? 0) eqn:Eid; [done|]); injection Ha as <- <-; simpl in H;
    try (apply drop_Ok in H as [r H]); try (apply when_not_paused_Ok in H as [H _]).
  - unfold process_borrow in H. apply rbind_Ok in H as (? & H1 & H).
    apply rbind_Ok in H as (a & Ha & H). apply rbind_Ok in H as (? & H2 & _).
    apply caller_authorized in H1 as [? _]. split; [done|]. by eapply require_entitled.
  - unfold withdraw, process_withdraw in H. apply rbind_Ok in H as (? & H1 & H).
    apply rbind_Ok in H as (a & Ha & H). apply rbind_Ok in H as (? & H2 & _).
    apply caller_authorized in H1 as [? _]. split; [done|]. by eapply require_entitled.
  - unfold process_flash_position in H. apply rbind_Ok in H as (? & H1 & H).
    do 9 apply rbind_Ok in H as (? & _ & H). apply rbind_Ok in H as ([[? ?] ?] & H2 & _).
    apply caller_authorized in H1 as [? _]. split; [done|].
    eapply (guarded_entitled env (Ctx.new s)); [exact Eid| |exact H2]; done.
  - unfold process_multiply in H. apply rbind_Ok in H as (? & H1 & H).
    apply rbind_Ok in H as (? & _ & H). apply rbind_Ok in H as ([[? ?] ?] & H2 & _).
    apply caller_authorized in H1 as [? _]. split; [done|].
    eapply (guarded_entitled env (Ctx.new s)); [exact Eid| |exact H2]; done.
  - unfold process_swap_debt in H. apply rbind_Ok in H as (? & H1 & H).
    do 3 apply rbind_Ok in H as (? & _ & H). apply rbind_Ok in H as (a & Ha & H).
    apply rbind_Ok in H as (? & H2 & _).
    apply caller_authorized in H1 as [? _]. split; [done|]. by eapply require_entitled.
  - unfold process_swap_collateral in H. apply rbind_Ok in H as (? & H1 & H).
    do 3 apply rbind_Ok in H as (? & _ & H). apply rbind_Ok in H as (a & Ha & H).
    apply rbind_Ok in H as (? & H2 & _).
    apply caller_authorized in H1 as [? _]. split; [done|]. by eapply require_entitled.
  - unfold process_repay_debt_with_collateral in H. apply rbind_Ok in H as (? & H1 & H).
    do 3 apply rbind_Ok in H as (? & _ & H). apply rbind_Ok in H as (a & Ha & H).
    apply rbind_Ok in H as (? & H2 & _).
    apply caller_authorized in H1 as [? _]. split; [done|]. by eapply require_entitled.
  - unfold process_migrate_blend in H. apply rbind_Ok in H as (? & H1 & H).
    do 3 apply rbind_Ok in H as (? & _ & H). apply rbind_Ok in H as ([[? ?] ?] & H2 & _).
    apply caller_authorized in H1 as [? _]. split; [done|].
    eapply (guarded_entitled env (Ctx.new s)); [exact Eid| |exact H2]; done.
Qed.

(** ** Outsiders *)

Lemma merge_supply_elsewhere env a f e r a' f' h :
  merge_supply_leg env (a, f) (e, r) = Ok (a', f') -> pa_hub_asset (se_action e) <> h ->
  map_get (supply_positions a') h = map_get (supply_positions a) h.
Proof using.
  intros H Hne. unfold merge_supply_leg in H. apply rbind_Ok in H as (cfg & _ & H).
  apply rbind_Ok in H as ([[p1 ch] f1] & _ & H). apply rbind_Ok in H as (f2 & _ & H).
  injection H as <- <-. unfold update_or_remove_supply_position. cbn [supply_positions with_supply].
  destruct (negb (ap_scaled_amount p1 =? Ray.ZERO)); simpl; [rewrite map_get_set; by rewrite decide_False|by apply map_get_remove_ne].
Qed.

Lemma deposit_entries_keys env caller pool a f agg es f' :
  rfold (deposit_entry env caller pool a) ([], f) agg = Ok (es, f') ->
  Forall (fun e => exists p, p ∈ agg /\ p.1 = pa_hub_asset (se_action e)) es.
Proof using.
  intros H. apply (rfold_inv (fun '(es, f') =>
    Forall (fun e => exists p, p ∈ agg /\ p.1 = pa_hub_asset (se_action e)) es))
    with (a := ([], f)) (a' := (es, f')) in H; [done| |done].
  intros [es1 f1] [h x] [es2 f2] Hin E1 Hs. unfold deposit_entry in Hs.
  apply rbind_Ok in Hs as (cfg & _ & Hs). apply rbind_Ok in Hs as ([r f3] & Ht & Hs).
  injection Hs as <- <-. apply Forall_app. split; [done|]. constructor; [|constructor].
  exists (h, x). split; [by apply list_elem_of_In|done].
Qed.

(** A deposit leaves positions it does not name. *)
Lemma deposit_elsewhere env f caller a agg a' f' h :
  process_deposit env f caller a agg = Ok (a', f') -> Forall (fun p => p.1 <> h) agg ->
  map_get (supply_positions a') h = map_get (supply_positions a) h.
Proof using.
  intros H Hh. unfold process_deposit in H.
  apply rbind_Ok in H as (u & _ & H). apply rbind_Ok in H as (f1 & _ & H).
  apply rbind_Ok in H as (pool & _ & H). apply rbind_Ok in H as ([es f2] & H2 & H).
  apply rbind_Ok in H as ([rs f3] & _ & H). unfold for_each_leg in H.
  apply rbind_Ok in H as (u2 & _ & H). apply deposit_entries_keys in H2.
  revert H. apply (rfold_inv (fun x => map_get (supply_positions x.1) h
    = map_get (supply_positions a) h)) with (a := (a, f3)) (a' := (a', f')); [|done].
  intros [a1 g1] [e r] [a2 g2] Hin IH Hs. simpl in *. rewrite <- IH.
  eapply merge_supply_elsewhere; [exact Hs|]. apply list_elem_of_In, elem_of_zip_l in Hin.
  rewrite Forall_forall in H2. destruct (H2 _ Hin) as (p & Hp & <-).
  exact (proj1 (Forall_forall _ _) Hh p Hp).
Qed.

(** What the stored account looks like after a supply by somebody without rights over it. *)
Lemma outsider_supply `{!SequentialIds W} env s caller id spoke assets r s' :
  sane s -> id <> 0 -> ~ entitled s id caller ->
  process_supply env s caller id spoke assets = Ok (r, s') ->
  Store.get_debt_positions (sy_ctl s') id = Store.get_debt_positions (sy_ctl s) id
  /\ forall h, map_get (Store.get_supply_positions (sy_ctl s) id) h = None ->
       map_get (Store.get_supply_positions (sy_ctl s') id) h = None.
Proof using.
  intros Hs Hid Hne H. unfold process_supply in H.
  apply rbind_Ok in H as (? & _ & H). apply rbind_Ok in H as (agg & _ & H).
  apply rbind_Ok in H as ([[id1 a] f1] & H1 & H). apply rbind_Ok in H as ([] & H2 & H).
  apply rbind_Ok in H as ([a2 f2] & H3 & H). apply rbind_Ok in H as (f3 & H4 & H). injection H as <- <-.
  unfold Acct.load_or_create_account in H1. apply Z.eqb_neq in Hid as Ez. rewrite Ez in H1.
  apply rbind_Ok in H1 as (a0 & Ha & H1). apply rbind_Ok in H1 as (? & _ & H1). injection H1 as <- <- <-.
  unfold require_third_party_existing_supply in H2. rewrite Ez in H2. simpl in H2.
  destruct (Acct.is_owner_or_delegate (sy_ctl s) id caller (acc_owner a0)) eqn:Eo.
  { exfalso. apply Hne. by eapply delegate_entitled. }
  simpl in H2. apply get_account_opened in Ha as (m & Ho). pose proof Ho as [_ _ Em1 Em2].
  pose proof H3 as H5.
  eapply (deposit_carried env (Ctx.new s)) in H5 as ([Ec _ _ _ _] & _ & _);
    [|apply Hs|by apply carried_start; [exact Ho|apply Hs|]].
  apply finalize_written in H4 as (_ & _ & _ & Ea). rewrite Ec in Ea.
  unfold Store.get_debt_positions, Store.get_supply_positions at 2. simpl in Ea. rewrite Ea. simpl.
  rewrite write_side_get. split; [done|]. intros h Hh.
  rewrite (deposit_elsewhere _ _ _ _ _ _ _ h H3); [by rewrite Em1|].
  apply Forall_forall. intros p Hp E. subst h.
  assert (Forall (fun p => is_Some (map_get (supply_positions a0) p.1)) agg) as Hall.
  { clear -H2. induction agg as [|q l IH]; cbn [rfold] in H2; [constructor|].
    apply rbind_Ok in H2 as ([] & Hq & H2). constructor; [|by apply IH].
    apply require_Ok in Hq. destruct (map_get _ q.1); [by eexists|done]. }
  rewrite Forall_forall in Hall. apply Hall in Hp as [v Hv]. rewrite Em1 in Hv.
  change (map_get (Store.get_supply_positions (sy_ctl s) id) p.1 = Some v) in Hv. by rewrite Hh in Hv.
Qed.

(** ** Pause and reentrancy *)

(** Calls that fail while the controller is paused. *)
Definition pausable (call : Call) : bool :=
  match call with
  | Supply _ _ _ _ | Borrow _ _ _ _ | FlashLoan _ _ _ _ _ | FlashPosition _ _ _ _ _ _ _ _ _ _
  | CallMultiply _ _ _ _ _ _ _ _ _ _ | SwapDebt _ _ _ _ _ _ | SwapCollateral _ _ _ _ _ _
  | RepayDebtWithCollateral _ _ _ _ _ _ _ | MigrateFromBlend _ _ _ _ _ _ _ _
  | UpdateIndexes _ _ | ClaimRevenue _ _ | UpdateAccountThreshold _ _ _ | AddDelegate _ _ _ => true
  | _ => false
  end.

Lemma paused_fails env s call :
  i_paused (c_instance (sy_ctl s)) = true -> pausable call = true ->
  dispatch env s call = Err HostTrap.
Proof using.
  intros Hp Hc. destruct call; try done; simpl;
    unfold supply, borrow, flash_loan, flash_position, multiply, swap_debt, swap_collateral,
      repay_debt_with_collateral, migrate_from_blend, update_indexes, claim_revenue,
      update_account_threshold, add_delegate, when_not_paused, drop; by rewrite Hp.
Qed.

(** Calls that move shares or tokens. *)
Definition moves_value (call : Call) : bool :=
  match call with
  | Supply _ _ _ _ | Borrow _ _ _ _ | Withdraw _ _ _ _ | Repay _ _ _ | Liquidate _ _ _ _
  | CleanBadDebt _ _ | FlashLoan _ _ _ _ _ | FlashPosition _ _ _ _ _ _ _ _ _ _
  | CallMultiply _ _ _ _ _ _ _ _ _ _ | SwapDebt _ _ _ _ _ _ | SwapCollateral _ _ _ _ _ _
  | RepayDebtWithCollateral _ _ _ _ _ _ _ | MigrateFromBlend _ _ _ _ _ _ _ _
  | UpdateIndexes _ _ | ClaimRevenue _ _ | UpdateAccountThreshold _ _ _ | Recapitalize _ _ _
  | ForceSocializeBadDebt _ => true
  | _ => false
  end.

Lemma guard_blocks env s call s' :
  c_flash_ongoing (sy_ctl s) = true -> moves_value call = true -> dispatch env s call <> Ok s'.
Proof using.
  intros Hf Hc H.
  assert (forall caller u, Ctx.require_authorized_caller env s caller <> Ok u) as Hg.
  { intros caller u Hu. apply caller_authorized in Hu as [_ Hu]. congruence. }
  assert (forall u, Ctx.require_not_flash_loaning s <> Ok u) as Hg'.
  { intros u Hu. apply require_Ok, negb_true_iff in Hu. unfold Store.is_flash_loan_ongoing in Hu.
    congruence. }
  destruct call; try done; simpl in H; try (apply drop_Ok in H as [r H]);
    try (apply when_not_paused_Ok in H as [H _]); try (apply ctl_owner_Ok in H as [H _]);
    try (by apply rbind_Ok in H as (? & H & _); apply Hg in H);
    try (by apply rbind_Ok in H as (? & _ & H); apply rbind_Ok in H as (? & H & _); apply Hg' in H).
  apply rbind_Ok in H as (? & H & _). by apply Hg' in H.
Qed.

(** ** Listing flags *)

Definition flag_of (cfg : SpokeAssetConfig) (n : nat) : bool :=
  match n with 0%nat => sa_paused cfg | 1%nat => sa_frozen cfg | _ => sa_no_seize cfg end.

(** Flags of one listing only rise between [c] and [c']. *)
Definition flags_rise (spoke : Z) (h : HubAssetKey) c c' : Prop :=
  forall cfg n, Store.get_spoke_asset c spoke h = Some cfg -> flag_of cfg n = true ->
  Store.get_spoke_asset c' spoke h = None
  \/ exists cfg', Store.get_spoke_asset c' spoke h = Some cfg' /\ flag_of cfg' n = true.

Lemma registry_flags_rise spoke h c c' :
  r_spoke_assets (c_registry c') = r_spoke_assets (c_registry c) -> flags_rise spoke h c c'.
Proof using.
  intros E cfg n Hg Hn. right. exists cfg. unfold Store.get_spoke_asset in *. by rewrite E.
Qed.

Lemma ratchet_rise cfg x y z n :
  require_flag_ratchet cfg x y z = Ok tt -> flag_of cfg n = true ->
  flag_of (with_flags cfg x y z) n = true.
Proof using.
  intros H. apply require_Ok in H. destruct n as [|[|n]]; simpl;
    destruct (sa_paused cfg), (sa_frozen cfg), (sa_no_seize cfg), x, y, z; done.
Qed.

Lemma bump_listings c sp h c' :
  bump_spoke_flags_epoch c sp h = Ok c' ->
  r_spoke_assets (c_registry c') = r_spoke_assets (c_registry c)
  /\ Store.get_spoke_flags_epoch c' sp h = Store.get_spoke_flags_epoch c sp h + 1.
Proof using.
  intros H. unfold bump_spoke_flags_epoch in H. apply rbind_Ok in H as (? & _ & H). injection H as <-.
  split; [done|]. unfold Store.get_spoke_flags_epoch. simpl. by rewrite lookup_insert_eq.
Qed.

Lemma set_listing_rise spoke h c sp' h' cfg' c' :
  r_spoke_assets (c_registry c') = <[(sp', h') := cfg']> (r_spoke_assets (c_registry c)) ->
  (forall cfg n, Store.get_spoke_asset c sp' h' = Some cfg -> flag_of cfg n = true ->
     flag_of cfg' n = true) -> flags_rise spoke h c c'.
Proof using.
  intros E Hr cfg n Hg Hn. right. unfold Store.get_spoke_asset in *. rewrite E.
  destruct (decide ((sp', h') = (spoke, h))) as [Eq|Hne].
  - injection Eq as -> ->. rewrite lookup_insert_eq. eauto.
  - rewrite lookup_insert_ne by done. eauto.
Qed.

Lemma upsert_rise p c x mut c' spoke h :
  upsert_spoke_asset p c x mut = Ok c' -> flags_rise spoke h c c'.
Proof using.
  intros H. unfold upsert_spoke_asset in H. do 3 apply rbind_Ok in H as (? & _ & H).
  apply rbind_Ok in H as (st & Hst & H). do 5 apply rbind_Ok in H as (? & _ & H).
  apply rbind_Ok in H as (c1 & Hc1 & H). injection H as <-.
  apply (set_listing_rise spoke h c (aa_spoke_id x) (mkHubAssetKey (aa_hub_id x) (aa_asset x))
    (config_of_args x)).
  - simpl. match type of Hc1 with (if ?b then _ else _) = _ => destruct b end;
      [by apply bump_listings in Hc1 as [-> _]|by injection Hc1 as <-].
  - intros cfg n Hg Hn. destruct mut.
    + apply rbind_Ok in Hst as (? & _ & Hst). apply rbind_Ok in Hst as (? & _ & Hst).
      apply rbind_Ok in Hst as (? & Hq & _). apply require_Ok in Hq. by rewrite Hg in Hq.
    + apply rbind_Ok in Hst as (? & _ & Hst). apply rbind_Ok in Hst as (cfg' & Hq & Hst).
      apply rbind_Ok in Hst as ([] & Hr & _). apply of_option_Ok in Hq. rewrite Hg in Hq.
      injection Hq as <-. apply (ratchet_rise _ _ _ _ n) in Hr; [|done].
      destruct n as [|[|n]]; exact Hr.
Qed.

Lemma write_flags_listing c sp h cfg x y z c' :
  write_spoke_asset_flags c sp h cfg x y z = Ok c' ->
  r_spoke_assets (c_registry c')
    = <[(sp, h) := with_flags cfg x y z]> (r_spoke_assets (c_registry c))
  /\ Store.get_spoke_flags_epoch c' sp h = Store.get_spoke_flags_epoch c sp h + 1.
Proof using.
  intros H. unfold write_spoke_asset_flags in H. apply rbind_Ok in H as (c1 & Hc & H). injection H as <-.
  apply bump_listings in Hc as [E1 E2]. split; [exact E1|exact E2].
Qed.

Lemma set_flags_rise c sp h' x y z c' spoke h :
  Config.set_spoke_asset_flags c sp h' x y z = Ok c' -> flags_rise spoke h c c'.
Proof using.
  intros H. unfold Config.set_spoke_asset_flags in H. apply rbind_Ok in H as (cfg & Hg & H).
  apply rbind_Ok in H as ([] & Hr & H). apply rbind_Ok in H as (? & _ & H). apply of_option_Ok in Hg.
  apply write_flags_listing in H as [E _]. eapply set_listing_rise; [exact E|].
  intros cfg' n Hg' Hn. rewrite Hg in Hg'. injection Hg' as <-. by apply ratchet_rise.
Qed.

Lemma relax_flags_Ok c sp h e x y z c' :
  Config.relax_spoke_asset_flags c sp h e x y z = Ok c' ->
  Store.get_spoke_flags_epoch c sp h = e /\ Store.get_spoke_flags_epoch c' sp h = e + 1
  /\ forall sp' h', (sp', h') <> (sp, h) ->
       Store.get_spoke_asset c' sp' h' = Store.get_spoke_asset c sp' h'.
Proof using.
  intros H. unfold Config.relax_spoke_asset_flags in H. apply rbind_Ok in H as (cfg & _ & H).
  apply rbind_Ok in H as (? & He & H). apply require_Ok in He. b2p.
  apply write_flags_listing in H as [E1 E2]. split_and!; [done|lia|].
  intros sp' h' Hne. unfold Store.get_spoke_asset. rewrite E1. by rewrite lookup_insert_ne.
Qed.

Lemma owner_write_rise env s write s' spoke h :
  owner_write env s write = Ok s' ->
  (forall c', write (sy_ctl s) = Ok c' -> flags_rise spoke h (sy_ctl s) c') ->
  flags_rise spoke h (sy_ctl s) (sy_ctl s').
Proof using.
  intros H Hw. apply ctl_owner_Ok in H as [H _]. apply rbind_Ok in H as (c & Hc & H). injection H as <-.
  by apply Hw.
Qed.

Lemma remove_asset_rise c h' sp c' spoke h :
  Config.remove_asset_from_spoke c h' sp = Ok c' -> flags_rise spoke h c c'.
Proof using.
  intros H cfg n Hg Hn. unfold Config.remove_asset_from_spoke in H.
  do 2 apply rbind_Ok in H as (? & _ & H). injection H as <-. unfold Store.get_spoke_asset in *. simpl.
  destruct (decide ((sp, h') = (spoke, h))) as [Eq|Hne].
  - left. rewrite Eq. apply lookup_delete_eq.
  - right. rewrite lookup_delete_ne by done. eauto.
Qed.

(** ** Bad debt *)

Lemma socialize_removes env s id gate s' :
  socialize_bad_debt env s id gate = Ok s' ->
  acs_meta (c_accounts (sy_ctl s')) !! id = None /\ acs_supply (c_accounts (sy_ctl s')) !! id = None
  /\ acs_borrow (c_accounts (sy_ctl s')) !! id = None
  /\ acs_delegates (c_accounts (sy_ctl s')) !! id = None
  /\ exists a t f, Store.get_account s id = Ok a /\ debt_free a = false
       /\ Ctx.account_risk_totals env (Ctx.new s) (supply_positions a) (borrow_positions a) = Ok (t, f)
       /\ gate_admits gate t = true.
Proof using.
  intros H. unfold socialize_bad_debt in H.
  apply rbind_Ok in H as (a & Ha & H). apply rbind_Ok in H as (? & Hd & H).
  apply rbind_Ok in H as ([t f1] & H1 & H). apply rbind_Ok in H as (? & Hg & H).
  apply rbind_Ok in H as (f2 & H2 & H). injection H as <-. apply require_Ok in Hg.
  apply require_Ok, negb_true_iff in Hd.
  unfold execute_bad_debt_cleanup in H2. apply rbind_Ok in H2 as ([es1 g1] & _ & H2).
  apply rbind_Ok in H2 as ([es2 g2] & _ & H2). apply rbind_Ok in H2 as (g3 & _ & H2).
  unfold Acct.remove_account_and_burn_nft in H2. apply rbind_Ok in H2 as (nft & _ & H2).
  apply rbind_Ok in H2 as (w & _ & H2). injection H2 as <-. simpl.
  rewrite !lookup_delete_eq. split_and!; [done..|]. by exists a, t, f1.
Qed.

(** ** Swaps *)

Lemma swap_Ok env f refund tin x tout swap r f' :
  swap_tokens env f refund tin x tout swap = Ok (r, f') ->
  0 < x /\ 0 < r
  /\ fl_ctl f' = fl_ctl f /\ fl_pool f' = fl_pool f
  /\ token_balance (fl_host f') tout (current_contract_address env)
     = token_balance (fl_host f) tout (current_contract_address env) + r
  /\ exists router w, execute_strategy (fl_host f) router (current_contract_address env) x swap = Ok w
     /\ token_balance (fl_host f) tin (current_contract_address env) - x
        <= token_balance w tin (current_contract_address env)
        <= token_balance (fl_host f) tin (current_contract_address env).
Proof using.
  intros H. unfold swap_tokens in H. apply rbind_Ok in H as (? & Hx & H).
  apply rbind_Ok in H as (? & _ & H). apply rbind_Ok in H as (router & _ & H).
  apply rbind_Ok in H as ([[] f1] & H1 & H). apply rbind_Ok in H as (? & Hle & H).
  apply rbind_Ok in H as (sp & Hsp & H). apply rbind_Ok in H as (? & Hle2 & H).
  apply rbind_Ok in H as (lo & _ & H). apply rbind_Ok in H as (f2 & H2 & H).
  apply rbind_Ok in H as (rc & Hv & H). injection H as <- <-.
  unfold require_positive_amount in Hx. apply require_Ok in Hx, Hle, Hle2. b2p.
  unfold Ctx.with_flash_guard in H1. apply rbind_Ok in H1 as ([[] g] & Hg & H1). injection H1 as <-.
  apply rbind_Ok in Hg as (w & Hw & Hg). injection Hg as <-.
  unfold verify_router_output, Ctx.balance_delta_since in Hv.
  apply rbind_Ok in Hv as (d & Hd & Hv). apply rbind_Ok in Hv as (? & Hpos & Hv). injection Hv as <-.
  apply require_Ok in Hpos. b2p. apply of_option_Ok, i128_checked_Some in Hd as [Hd _].
  apply i128_sub_Ok in Hsp as ->.
  set (f1 := if _ : bool then _ else _) in *.
  assert (fl_host f1 = w /\ fl_pool f1 = fl_pool f /\ fl_ctl f1 = fl_ctl f) as (E1 & E2 & E3).
  { subst f1. unfold Store.is_flash_loan_ongoing. destruct f as [[[i r a u g l] p w0] b].
    destruct g; by split_and!. }
  assert (fl_pool f2 = fl_pool f1 /\ fl_ctl f2 = fl_ctl f1) as [E4 E5].
  { destruct (0 <? lo); [|by injection H2 as <-]. apply rbind_Ok in H2 as (w2 & _ & H2).
    by injection H2 as <-. }
  rewrite E1 in *. split_and!; [lia|lia|congruence|congruence|lia|].
  exists router, w. split; [done|]. lia.
Qed.

End Access.

(** ** The ratchet over the interface *)

Section Ratchet.

Context {W : Type} {HW : Host W} {HC : Chain W} {HS : SequentialIds W}.
Context {HV : Venues W} {HI : VenueIds W} {HD : Deployer W} {HN : NoReentry W}.
Implicit Types (env : Env) (s : Sys W).

Definition relaxes (call : Call) : bool :=
  match call with RelaxSpokeAssetFlags _ _ _ _ _ _ => true | _ => false end.

Lemma beside_rise l (c c' : Controller) spoke h : beside l c c' -> flags_rise spoke h c c'.
Proof using. intros [_ _ H _]. apply registry_flags_rise. by rewrite H. Qed.

Lemma created_rise env s (make : Controller -> res (Z * Controller)) r s' spoke h :
  only_owner env s (let* (id, c) := make (sy_ctl s) in Ok (id, with_ctl s c)) = Ok (r, s') ->
  (forall id c', make (sy_ctl s) = Ok (id, c') ->
     r_spoke_assets (c_registry c') = r_spoke_assets (c_registry (sy_ctl s))) ->
  flags_rise spoke h (sy_ctl s) (sy_ctl s').
Proof using.
  intros H Hm. apply ctl_owner_Ok in H as [H _]. apply rbind_Ok in H as ([i c] & Hc & H).
  injection H as <- <-. apply registry_flags_rise. by eapply Hm.
Qed.

Lemma owner_call_rise env s call s' spoke h :
  sane s -> call_typed call -> owner_call call = true -> relaxes call = false ->
  dispatch env s call = Ok s' -> flags_rise spoke h (sy_ctl s) (sy_ctl s').
Proof using.
  intros Hs Ht Ho Hr H. destruct call; try done; clear Ho Hr; simpl in H, Ht;
    try (apply drop_Ok in H as [r H]);
    try (eapply owner_write_rise; [exact H|]; intros c' Hw;
         try (injection Hw as <-; by apply registry_flags_rise)).
  - unfold Config.set_position_limits in Hw. apply rbind_Ok in Hw as (? & _ & Hw). injection Hw as <-; by apply registry_flags_rise.
  - unfold Config.set_min_borrow_collateral_usd in Hw. apply rbind_Ok in Hw as (? & _ & Hw).
    injection Hw as <-; by apply registry_flags_rise.
  - eapply created_rise; [exact H|]. intros i c' Hc. unfold Config.create_hub in Hc.
    apply rbind_Ok in Hc as ([n c1] & Hn & Hc). injection Hc as <- <-.
    unfold increment_hub_id in Hn. apply rbind_Ok in Hn as (? & _ & Hn). by injection Hn as <- <-.
  - eapply created_rise; [exact H|]. intros i c' Hc. unfold Config.add_spoke in Hc.
    apply rbind_Ok in Hc as ([n c1] & Hn & Hc). injection Hc as <- <-.
    unfold increment_spoke_id in Hn. apply rbind_Ok in Hn as (? & _ & Hn). by injection Hn as <- <-.
  - unfold Config.remove_spoke in Hw. do 2 apply rbind_Ok in Hw as (? & _ & Hw). injection Hw as <-; by apply registry_flags_rise.
  - unfold Config.set_spoke_liquidation_curve in Hw. do 2 apply rbind_Ok in Hw as (? & _ & Hw).
    injection Hw as <-; by apply registry_flags_rise.
  - unfold Config.add_asset_to_spoke in Hw. by eapply upsert_rise.
  - unfold Config.edit_asset_in_spoke in Hw. by eapply upsert_rise.
  - exact (set_flags_rise _ _ _ _ _ _ _ _ _ Hw).
  - exact (remove_asset_rise _ _ _ _ _ _ Hw).
  - apply ctl_owner_Ok in H as [H _]. apply rbind_Ok in H as (? & _ & H).
    apply rbind_Ok in H as ([a w] & _ & H). injection H as <- <-. by apply registry_flags_rise.
  - apply ctl_owner_Ok in H as [H _]. apply rbind_Ok in H as (? & _ & H).
    apply rbind_Ok in H as ([a w] & _ & H). injection H as <- <-. by apply registry_flags_rise.
  - apply ctl_owner_Ok in H as [H _]. apply create_market_sane in H as [_ H]; [|done..].
    by eapply beside_rise.
  - apply ctl_owner_Ok in H as [H _]. destruct Ht. apply update_params_sane in H as [_ H]; [|done..].
    by eapply beside_rise.
  - apply ctl_owner_Ok in H as [H _]. apply rbind_Ok in H as (? & _ & H).
    apply socialize_sane in H as [_ H]; [|done]. by eapply beside_rise.
  - unfold Config.pause in Hw. apply rbind_Ok in Hw as (? & _ & Hw). injection Hw as <-; by apply registry_flags_rise.
  - unfold Config.unpause in Hw. apply rbind_Ok in Hw as (? & _ & Hw). injection Hw as <-; by apply registry_flags_rise.
  - unfold Config.migrate in Hw. apply rbind_Ok in Hw as (? & _ & Hw). injection Hw as <-; by apply registry_flags_rise.
Qed.

End Ratchet.

End Access.
