(* ===== verification/CtlViews.v ===== *)
(** * Views of the controller (contracts/controller/src/views.rs, the views of lib.rs)

    Read-only projections of the stored accounts, priced like the flows price them, and
    the estimate of a liquidation. *)

From S2P Require Import Prelude Errors FpCore Fp PoolTypes RatesScaling PoolCache PoolInterest PoolOps PoolSafety PoolContract PoolSolvency ControllerTypes Risk LiqCurve Payments LiqMath LiqTrim LiqPlan PoolView Account SpokeUsage RiskParams OracleMath PoolMoves CtlState CtlContext CtlBooks CtlFlows CtlLegs CtlKeep CtlSteps CtlLiq CtlLiqSteps CtlHealth.
From stdpp Require Import base numbers list gmap.
From Stdlib Require Import ZArith Lia Bool.

Open Scope Z_scope.

(** The aggregator's detailed quotes. *)
Class StatusQuotes (W : Type) : Type := {
  aggregator_quotes : W -> Address -> list Address -> res (gmap Address PriceStatus)
}.

Module Views.

Import Risk RiskParams LiqMath LiqPlan Positions Liquidation.

Definition MAX_VIEW_INPUTS : Z := 256.

Record AccountAttributes : Type := mkAccountAttributes {
  aa_spoke : Z;
  aa_mode : PositionMode
}.

Record MarketIndexView : Type := mkMarketIndexView {
  mv_asset : Address;
  mv_supply_index : Z;
  mv_borrow_index : Z;
  mv_price_wad : Z;
  mv_primary_price_wad : Z;
  mv_anchor_price_wad : Z;
  mv_price_timestamp : Z;
  mv_stale : bool;
  mv_deviation : bool;
  mv_valid : bool;
  mv_error_code : option Z
}.

Record LiquidationEstimate : Type := mkLiquidationEstimate {
  le_seized_collaterals : list PaymentTuple;
  le_protocol_fees : list PaymentTuple;
  le_refunds : list PaymentTuple;
  le_max_payment_wad : Z;
  le_bonus_rate_bps : Z
}.

Section Views.

Context {W : Type} `{Chain W}.
Context (env : Env).

Definition require_view_inputs_bound {A : Type} (values : list A) : res unit :=
  require (Z.of_nat (length values) <=? MAX_VIEW_INPUTS) (EGeneric InvalidPayments).

(** ** Health *)

Definition health_factor (s : Sys W) (account_id : Z) : res Z :=
  match Store.try_get_account s account_id with
  | None => Ok i128_max
  | Some account =>
      if debt_free account then Ok i128_max
      else
        let* (totals, _) := Ctx.account_risk_totals env (Ctx.new s) (supply_positions account)
                              (borrow_positions account) in
        Ok (rt_health_factor totals)
  end.

Definition can_be_liquidated (s : Sys W) (account_id : Z) : res bool :=
  let* hf := health_factor s account_id in
  Ok (hf <? WAD).

Definition liquidation_collateral_available (s : Sys W) (account_id : Z) : res Z :=
  match Store.try_get_account s account_id with
  | None => Ok 0
  | Some account =>
      let* (totals, _) := Ctx.account_risk_totals env (Ctx.new s) (supply_positions account)
                            (borrow_positions account) in
      Ok (rt_weighted_collateral totals)
  end.

(** ** Amounts *)

(** storage/account.rs *)
Definition try_get_supply_position (s : Sys W) (account_id : Z) (h : HubAssetKey)
    : option AccountPosition :=
  account_position_of_raw <$> map_get (Store.get_supply_positions (sy_ctl s) account_id) h.

Definition try_get_debt_position (s : Sys W) (account_id : Z) (h : HubAssetKey)
    : option DebtPosition :=
  debt_position_of_raw <$> map_get (Store.get_debt_positions (sy_ctl s) account_id) h.

Definition collateral_amount_for_hub_asset (s : Sys W) (account_id : Z) (h : HubAssetKey)
    : res Z :=
  match try_get_supply_position s account_id h with
  | None => Ok 0
  | Some position =>
      let* index := Ctx.index_of env (Ctx.new s) h in
      let* decimals := Ctx.market_decimals (Ctx.new s) h in
      RatesScaling.unscale_supply (ap_scaled_amount position) (mi_supply_index index) decimals
  end.

Definition borrow_amount_for_hub_asset (s : Sys W) (account_id : Z) (h : HubAssetKey)
    : res Z :=
  match try_get_debt_position s account_id h with
  | None => Ok 0
  | Some position =>
      let* index := Ctx.index_of env (Ctx.new s) h in
      let* decimals := Ctx.market_decimals (Ctx.new s) h in
      RatesScaling.unscale_borrow (dp_scaled_amount position) (mi_borrow_index index) decimals
  end.

Definition account_exists (s : Sys W) (account_id : Z) : bool :=
  match Store.try_get_account_meta (sy_ctl s) account_id with Some _ => true | None => false end.

Definition get_account_positions (s : Sys W) (account_id : Z)
    : PositionMap AccountPositionRaw * PositionMap DebtPositionRaw :=
  if account_exists s account_id then
    (Store.get_supply_positions (sy_ctl s) account_id,
     Store.get_debt_positions (sy_ctl s) account_id)
  else ([], []).

Definition get_account_attributes (s : Sys W) (account_id : Z) : res AccountAttributes :=
  let* meta := Store.get_account_meta (sy_ctl s) account_id in
  Ok (mkAccountAttributes (meta_spoke_id meta) (meta_mode meta)).

(** ** Totals *)

(** Supply only: the empty debt map keeps the market load to the supply keys. *)
Definition total_collateral_in_usd (s : Sys W) (account_id : Z) : res Z :=
  match Store.try_get_account_meta (sy_ctl s) account_id with
  | None => Ok 0
  | Some _ =>
      match Store.get_supply_positions (sy_ctl s) account_id with
      | [] => Ok 0
      | supply =>
          let* (totals, _) := Ctx.account_risk_totals env (Ctx.new s) supply [] in
          Ok (rt_total_collateral totals)
      end
  end.

(** [risk::sum_debt_usd] over the loaded markets *)
Definition total_borrow_in_usd (s : Sys W) (account_id : Z) : res Z :=
  match Store.try_get_account_meta (sy_ctl s) account_id with
  | None => Ok 0
  | Some _ =>
      match Store.get_debt_positions (sy_ctl s) account_id with
      | [] => Ok 0
      | borrow =>
          let* f := Ctx.load_markets env (Ctx.new s) (map_keys borrow) in
          sum_debt_usd (Ctx.reads env f) borrow
      end
  end.

Definition ltv_collateral_in_usd (s : Sys W) (account_id : Z) : res Z :=
  match Store.try_get_account s account_id with
  | None => Ok 0
  | Some account =>
      let f := Ctx.new s in
      let* r := restamp_listed_supply_ltv (Ctx.reads env f) account in
      let* f := (if rst_changed r
                 then Ctx.fetch_market_indexes env f
                        (portfolio_hub_keys (map_keys (supply_positions account))
                           (map_keys (borrow_positions account)))
                 else Ok f) in
      let supply := supply_positions (rst_account r) in
      let* f := Ctx.load_markets env f (map_keys supply) in
      calculate_ltv_collateral_wad (Ctx.reads env f) supply
  end.

(** ** Markets *)

(** external/price_aggregator.rs *)
Definition fetch_prices_status `{!StatusQuotes W} (s : Sys W) (assets : list Address)
    : res (gmap Address PriceStatus) :=
  let* aggregator := Store.get_price_aggregator (sy_ctl s) in
  let* keyed := aggregator_quotes (sy_host s) aggregator assets in
  Ok (fold_left (fun (out : gmap Address PriceStatus) a =>
        <[a := default unusable (keyed !! a)]> out) assets ∅).

Definition market_index_view (h : HubAssetKey) (index : MarketIndexRaw) (status : PriceStatus)
    : MarketIndexView :=
  {| mv_asset := asset h;
     mv_supply_index := mi_supply_index index;
     mv_borrow_index := mi_borrow_index index;
     mv_price_wad := final_wad status;
     mv_primary_price_wad := primary_wad status;
     mv_anchor_price_wad := secondary_wad status;
     mv_price_timestamp := price_timestamp status;
     mv_stale := ps_stale status;
     mv_deviation := ps_deviation status;
     mv_valid := ps_valid status;
     mv_error_code := ps_error_code status |}.

Definition get_all_market_indexes_detailed `{!StatusQuotes W} (s : Sys W)
    (hub_assets : list HubAssetKey) : res (list MarketIndexView) :=
  do! require_view_inputs_bound hub_assets in
  let* f := Ctx.fetch_market_indexes env (Ctx.new s) hub_assets in
  let assets := unique_hub_tokens hub_assets in
  let* statuses := (match assets with
                    | [] => Ok ∅
                    | _ => fetch_prices_status s assets
                    end) in
  rfold (fun result h =>
    let* index := Ctx.index_of env f h in
    let status := default unusable (statuses !! asset h) in
    Ok (result ++ [market_index_view h index status])) [] hub_assets.

(** lib.rs *)
Definition get_market_index (s : Sys W) (h : HubAssetKey) : res MarketIndexRaw :=
  Ctx.index_of env (Ctx.new s) h.

Definition get_spoke_asset_view (s : Sys W) (spoke_id : Z) (h : HubAssetKey)
    : res SpokeAssetConfig :=
  of_option (ESpoke AssetNotInSpoke) (Store.get_spoke_asset (sy_ctl s) spoke_id h).

Definition get_spoke_usage_view (s : Sys W) (spoke_id : Z) (h : HubAssetKey) :=
  default SpokeUsage.no_usage (SpokeUsage.get_spoke_usage (c_usage (sy_ctl s)) spoke_id h).

(** ** Liquidation estimates *)

(** An empty receiver stands for the account [Credit(0)] would create. *)
Definition estimate_receiver (s : Sys W) (account_id : Z) (account : Account) (requested : Z)
    : res Account :=
  if requested =? 0 then Ok (with_borrow (with_supply account []) [])
  else load_credit_receiver s account_id account requested.

Definition estimate_entry (seize_mode : SeizeMode) (entry : SeizeEntry) : res (Z * Z) :=
  match seize_mode with
  | SeizeTransfer => Ok (szn_amount entry, szn_protocol_fee entry)
  | SeizeCredit _ =>
      let* (fee_scaled, _) := split_seized_shares (szn_scaled_amount entry)
                                (szn_bonus_scaled entry) (szn_liquidation_fees entry) in
      Ok (szn_scaled_amount entry, fee_scaled)
  end.

Definition liquidation_estimations_detailed (s : Sys W) (account_id : Z)
    (debt_payments : list HubPayment) (seize_mode : SeizeMode) : res LiquidationEstimate :=
  do! require_view_inputs_bound debt_payments in
  let* account := Store.get_account s account_id in
  let* (plan, f) := build_plan env (Ctx.new s) account debt_payments in
  let result := into_result plan in
  do! (match seize_mode with
       | SeizeTransfer => Ok tt
       | SeizeCredit requested =>
           let* receiver := estimate_receiver s account_id account requested in
           require_credit_position_limit f receiver (lr_seized result) (requested =? 0)
       end) in
  let* (seized, fees) :=
    rfold (fun (acc : list PaymentTuple * list PaymentTuple) entry =>
      let* (seized_amount, fee_amount) := estimate_entry seize_mode entry in
      let a := asset (szn_hub_asset entry) in
      Ok (acc.1 ++ [mkPaymentTuple a seized_amount], acc.2 ++ [mkPaymentTuple a fee_amount]))
      ([], []) (lr_seized result) in
  Ok {| le_seized_collaterals := seized;
        le_protocol_fees := fees;
        le_refunds := lr_refunds result;
        le_max_payment_wad := lr_max_debt_usd result;
        le_bonus_rate_bps := lr_bonus_bps result |}.

End Views.

End Views.

(** ** Views and the flows they describe

    A liquidation that pays out tokens builds its plan from the same reads as the health
    and estimate views, credits at most what the estimate announces, and logs the
    estimate's bonus. *)

(** What the price aggregator documents of the feeds it returns. *)
Class ListedPrices (W : Type) `{Chain W} : Prop := {
  quotes_ok : forall w agg l m, aggregator_prices w agg l = Ok m -> prices_ok m
}.

Module ViewSteps.

Import SpokeUsage RiskParams Payments LiqMath LiqTrim LiqPlan Positions Liquidation Books Legs Keep
  Steps LiqSteps Risk Health Views.

Section Views.

Context {W : Type} {HW : Host W} {HC : Chain W} {HS : SequentialIds W}.
Context (env : Env).
Implicit Types (f : Flow W) (a : Account) (s : Sys W).

(** ** The log only grows *)

Definition logs f f' : Prop := c_log (fl_ctl f) `prefix_of` c_log (fl_ctl f').

#[local] Instance logs_preorder : PreOrder logs.
Proof using. split; unfold logs; [by intros f|]. intros f1 f2 f3. apply transitivity. Qed.

Lemma same_ctl_logs f f' : fl_ctl f' = fl_ctl f -> logs f f'.
Proof using. unfold logs. by intros ->. Qed.

Lemma emit_batch_logs f id a : logs f (Ctx.emit_position_batch f id a).
Proof using.
  unfold Ctx.emit_position_batch, logs.
  destruct (bf_supply_updates (fl_buf f)), (bf_debt_updates (fl_buf f)); simpl; [done|..];
    by apply prefix_app_r.
Qed.

Lemma persist_usage_logs f : logs f (Ctx.persist_spoke_usage f).
Proof using.
  unfold Ctx.persist_spoke_usage, logs. by destruct (bf_spoke_usage (fl_buf f)).
Qed.

Lemma remove_account_logs f id f' : Acct.remove_account_and_burn_nft f id = Ok f' -> logs f f'.
Proof using.
  intros H. unfold Acct.remove_account_and_burn_nft in H. apply rbind_Ok in H as (nft & _ & H).
  apply rbind_Ok in H as (w & _ & H). injection H as <-. unfold logs. done.
Qed.

Lemma finalize_logs f id a sides rm f' :
  finalize_position_flow f id a sides rm = Ok f' -> logs f f'.
Proof using.
  intros H. unfold finalize_position_flow in H. apply rbind_Ok in H as (f2 & H2 & H).
  injection H as <-. etransitivity; [|apply emit_batch_logs].
  etransitivity; [apply persist_usage_logs|].
  unfold persist_account_positions, Acct.cleanup_account_if_empty in H2. cbv zeta in H2.
  assert (forall g, logs (Ctx.persist_spoke_usage f) g ->
    (if rm then if account_is_empty a then Acct.remove_account_and_burn_nft g id else Ok g else Ok g)
    = Ok f2 -> logs (Ctx.persist_spoke_usage f) f2) as Hend.
  { intros g Hg Hr. destruct rm; [destruct (account_is_empty a)|]; [|by injection Hr as <-..].
    etransitivity; [exact Hg|by eapply remove_account_logs]. }
  eapply Hend; [|exact H2]. unfold logs. by destruct sides.
Qed.

Lemma spoke_exit_ctl f sp side h d f' :
  Ctx.apply_spoke_exit f sp side h d = Ok f' -> fl_ctl f' = fl_ctl f.
Proof using.
  intros H. unfold Ctx.apply_spoke_exit in H. apply rbind_Ok in H as (c & _ & H).
  apply rbind_Ok in H as (c' & _ & H). by injection H as <-.
Qed.

Lemma seize_entries_ctl {X} (step : list PoolSeizeEntry * Flow W -> X -> res (list PoolSeizeEntry * Flow W)) es f l es' f' :
  (forall es f x es' f', step (es, f) x = Ok (es', f') -> fl_ctl f' = fl_ctl f) ->
  rfold step (es, f) l = Ok (es', f') -> fl_ctl f' = fl_ctl f.
Proof using.
  intros Hs H. apply (rfold_inv (fun p => fl_ctl p.2 = fl_ctl f)) in H; [done| |done].
  intros [e1 f1] x [e2 f2] _ H1 H2. simpl in *. rewrite <- H1. by eapply Hs.
Qed.

Lemma cleanup_logs f id a t f' : execute_bad_debt_cleanup env f id a t = Ok f' -> logs f f'.
Proof using HS.
  intros H. unfold execute_bad_debt_cleanup in H.
  apply rbind_Ok in H as ([e1 f1] & H1 & H). apply rbind_Ok in H as ([e2 f2] & H2 & H).
  apply rbind_Ok in H as (f3 & H3 & H). apply remove_account_logs in H.
  assert (logs f f3) as L3.
  { apply same_ctl_logs. unfold Ctx.pool_seize_positions_call in H3.
    apply rbind_Ok in H3 as ([[] g] & H3 & E). injection E as <-.
    apply pool_call_Ok in H3 as (_ & _ & -> & _). etransitivity;
      [eapply (seize_entries_ctl _ _ _ _ _ _ _ H2)|eapply (seize_entries_ctl _ _ _ _ _ _ _ H1)].
    Unshelve. all: intros ? ? ? ? ? Hx; cbn -[Ctx.apply_spoke_exit] in Hx;
      apply rbind_Ok in Hx as (g' & Hg & Hx); injection Hx as <- <-; by eapply spoke_exit_ctl. }
  etransitivity; [exact L3|]. etransitivity; [apply persist_usage_logs|].
  etransitivity; [|exact H]. apply prefix_app_r, reflexivity.
Qed.

(** ** Prices of a reachable ledger *)

Lemma priced_context_ok `{!ListedPrices W} s cache :
  sane s -> priced_by env s cache -> context_ok cache.
Proof using.
  intros Hs [P1 P2]. apply view_context_ok.
  - constructor. intros h m Hm. apply P1 in Hm. eapply pool_view_range; [|exact Hm].
    exact (proj1 (bk_backed _ _ _ _ _ (sn_books _ Hs))).
  - intros x p Hp. apply P2 in Hp as (agg & l & m & _ & Hm & Hx). exact (quotes_ok _ _ _ _ Hm _ _ Hx).
Qed.

Lemma stored_account_ok s id a :
  sane s -> Store.get_account s id = Ok a ->
  account_ok a /\ Forall (fun e => 0 < dpr_scaled_amount e.2 <= i128_max) (borrow_positions a).
Proof using.
  intros Hs Ha. apply get_account_opened in Ha as (m & [_ _ O3 O4]).
  pose proof (sn_books _ Hs) as B.
  assert (supply_ok (supply_positions a)) as [_ S].
  { rewrite O3. unfold Store.get_supply_positions. destruct (acs_supply _ !! id) eqn:E; simpl;
      [by eapply (bk_supply_ok _ _ _ _ _ B)|by split; constructor]. }
  assert (debt_ok (borrow_positions a)) as [_ D].
  { rewrite O4. unfold Store.get_debt_positions. destruct (acs_borrow _ !! id) eqn:E; simpl;
      [by eapply (bk_debt_ok _ _ _ _ _ B)|by split; constructor]. }
  split; [|done]. split; [eapply Forall_impl; [exact S|by intros ? []]|].
  eapply Forall_impl; [exact D|]. simpl. intros. lia.
Qed.

(** ** What a repayment is credited *)

Lemma repay_legs_credit liq pool a off es l0 f legs f' :
  Forall entry_ok es -> rfold (repay_leg env liq pool a off) (l0, f) es = Ok (legs, f') ->
  rl_received_usd legs <= rl_received_usd l0 + LiqTrim.credited es.
Proof using.
  revert l0 f. induction es as [|e es IH]; intros l0 f He H; cbn [rfold] in H.
  { injection H as <- _. unfold LiqTrim.credited. simpl. lia. }
  apply Forall_cons in He as [(E1 & E2 & _) He]. apply rbind_Ok in H as ([l1 f1] & H1 & H).
  apply (IH _ _ He) in H. cbn -[Ctx.transfer_amount_measured] in H1.
  apply rbind_Ok in H1 as (u & _ & H1). apply rbind_Ok in H1 as (pull & _ & H1).
  apply rbind_Ok in H1 as ([rc g] & _ & H1). apply rbind_Ok in H1 as (lu & Hlu & H1).
  apply rbind_Ok in H1 as (ru & Hru & H1). apply rbind_Ok in H1 as (raw & _ & H1).
  injection H1 as <- _. cbn [rl_received_usd] in H. apply checked_add_Ok in Hru as [-> _].
  assert (lu <= re_usd_wad e).
  { destruct (Z.leb_spec (re_amount e) rc) as [|Hlt]; [injection Hlu; lia|].
    apply FpCore.mul_div_floor_Ok in Hlu as (_ & -> & _). apply Z.div_le_upper_bound; nia. }
  unfold LiqTrim.credited in *. simpl. lia.
Qed.

(** ** The liquidation *)

(** What a plan that was built says of its own reads. *)
Lemma build_plan_reads f a ps plan f' :
  build_plan env f a ps = Ok (plan, f') ->
  debt_free a = false
  /\ Ctx.load_markets env f (portfolio_hub_keys (map_keys (supply_positions a))
                               (map_keys (borrow_positions a))) = Ok f'
  /\ build_liquidation_plan a ps (Ctx.reads env f') = Ok plan
  /\ (exists t, calculate_account_risk_totals (Ctx.reads env f') (supply_positions a)
                  (borrow_positions a) = Ok t /\ rt_health_factor t < WAD)
  /\ sum_repaid_usd (nrp_repaid (lp_repayment plan)) = Ok (nrp_repay_usd (lp_repayment plan)).
Proof using.
  intros H. unfold build_plan in H. apply rbind_Ok in H as (u & Hd & H).
  apply rbind_Ok in H as (u2 & _ & H). apply rbind_Ok in H as (g & Hg & H).
  apply rbind_Ok in H as (pl & Hpl & H). injection H as -> ->.
  destruct (debt_free a); [done|]. split_and!; [done..| |].
  - unfold build_liquidation_plan in Hpl. do 2 apply rbind_Ok in Hpl as (? & _ & Hpl).
    apply rbind_Ok in Hpl as (t & Ht & Hpl). apply rbind_Ok in Hpl as (? & Hhf & _).
    apply require_Ok in Hhf. b2p. exists t. by split.
  - unfold build_liquidation_plan in Hpl. do 4 apply rbind_Ok in Hpl as (? & _ & Hpl).
    apply rbind_Ok in Hpl as ([p bb] & _ & Hpl). do 2 apply rbind_Ok in Hpl as (? & _ & Hpl).
    apply rbind_Ok in Hpl as ([sz ub] & _ & Hpl). do 3 apply rbind_Ok in Hpl as (? & _ & Hpl).
    apply rbind_Ok in Hpl as (? & Hv & Hpl). injection Hpl as <-. simpl.
    unfold plan_validate, repayment_validate in Hv. apply rbind_Ok in Hv as (? & Hv & _).
    simpl in Hv. apply rbind_Ok in Hv as (sum & Hsum & Hv).
    match type of Hv with (if negb (_ =? ?y) then _ else _) = _ =>
      destruct (Z.eqb_spec sum y); [by subst|done] end.
Qed.

(** The estimate of a transfer lists the plan's entries. *)
Lemma estimate_transfer s id a ps plan f' :
  Z.of_nat (length ps) <= MAX_VIEW_INPUTS -> Store.get_account s id = Ok a ->
  build_plan env (Ctx.new s) a ps = Ok (plan, f') ->
  exists e, liquidation_estimations_detailed env s id ps SeizeTransfer = Ok e
    /\ le_max_payment_wad e = nrp_repay_usd (lp_repayment plan)
    /\ le_bonus_rate_bps e = nrp_bonus (lp_repayment plan).
Proof using.
  intros Hn Ha Hp. unfold liquidation_estimations_detailed, require_view_inputs_bound.
  apply Z.leb_le in Hn. rewrite Hn, Ha. cbn [require rbind]. rewrite Hp. cbn [rbind].
  match goal with |- context [rfold ?g _ _] => assert (forall l acc, exists p, rfold g acc l = Ok p) as Hf end.
  { induction l as [|x l IH]; intros acc; [by eexists|]. cbn [rfold estimate_entry rbind]. apply IH. }
  destruct (Hf (lr_seized (into_result plan)) ([], [])) as [[x y] E]. rewrite E. by eexists.
Qed.

Lemma estimate_too_long s id ps mode :
  MAX_VIEW_INPUTS < Z.of_nat (length ps) ->
  liquidation_estimations_detailed env s id ps mode = Err (EGeneric InvalidPayments).
Proof using.
  intros Hn. unfold liquidation_estimations_detailed, require_view_inputs_bound.
  apply Z.leb_gt in Hn. by rewrite Hn.
Qed.

Lemma transfer_liquidation_viewed `{!ListedPrices W} s liq id ps r s' :
  sane s -> process_liquidation env s liq id ps SeizeTransfer = Ok (r, s') ->
  can_be_liquidated env s id = Ok true
  /\ exists bonus usd max,
       usd <= max
       /\ c_log (sy_ctl s) ++ [LiquidationEvent liq id usd bonus] `prefix_of` c_log (sy_ctl s')
       /\ (Z.of_nat (length ps) <= MAX_VIEW_INPUTS ->
           exists e, liquidation_estimations_detailed env s id ps SeizeTransfer = Ok e
             /\ le_max_payment_wad e = max /\ le_bonus_rate_bps e = bonus).
Proof using HS.
  intros Hs H. unfold process_liquidation in H.
  do 2 apply rbind_Ok in H as (? & _ & H). apply rbind_Ok in H as (a & Ha & H).
  apply rbind_Ok in H as (? & _ & H). cbn [resolve_seize_receiver rbind] in H.
  apply rbind_Ok in H as ([plan f2] & H2 & H). apply rbind_Ok in H as (off & _ & H).
  apply rbind_Ok in H as (? & _ & H). apply rbind_Ok in H as ([[usd a1] f3] & H3 & H).
  apply rbind_Ok in H as (? & _ & H). apply rbind_Ok in H as (l & _ & H).
  apply rbind_Ok in H as ([[a2 ro2] f4] & H4 & H). apply rbind_Ok in H as ([t f5] & H5 & H).
  apply rbind_Ok in H as (f6 & H6 & H). apply rbind_Ok in H as (f7 & H7 & H).
  apply rbind_Ok in H as (f8 & H8 & H). injection H as _ <-.
  destruct (build_plan_reads _ _ _ _ _ H2) as (Hd & Hl & Hb & (tot & Ht & Hhf) & Hsum).
  split.
  { unfold can_be_liquidated, health_factor. unfold Store.get_account in Ha.
    apply of_option_Ok in Ha. rewrite Ha, Hd. unfold Ctx.account_risk_totals. rewrite Hl.
    cbn [rbind]. rewrite Ht. cbn [rbind]. do 2 f_equal. by apply Z.ltb_lt. }
  exists (nrp_bonus (lp_repayment plan)), usd, (nrp_repay_usd (lp_repayment plan)).
  apply and_assoc. split; [|intros Hn; by apply (estimate_transfer _ _ _ _ _ _ Hn Ha H2)].
  pose proof (load_markets_quiet _ _ _ _ Hl) as Q.
  destruct (stored_account_ok _ _ _ Hs Ha) as [Hao Hdb].
  apply get_account_opened in Ha as (m & Ho).
  assert (whole (Ctx.new s) f2 id m a) as Hw.
  { eapply whole_drift; [apply whole_start; [done|apply Hs|done]|by eapply quiet_drift]. }
  pose proof H3 as Hr3. eapply repayments_Ok in H3 as [Hw3 _]; [|exact Hw].
  split.
  - apply sum_repaid_Ok in Hsum. rewrite Hsum.
    assert (context_ok (Ctx.reads env f2)) as Hc.
    { apply (priced_context_ok s); [done|]. destruct Q as [[Q1 Q2 Q3] _].
      change s with (fl_sys (Ctx.new s)). rewrite <- Q1. by apply reads_priced; [apply Q2|apply Q3]. }
    destruct (build_plan_Ok _ Hc _ _ _ Hao Hdb Hb) as ([(R1 & _) _ _ _ _] & _).
    unfold apply_liquidation_repayments in Hr3. apply rbind_Ok in Hr3 as (pool & _ & Hr3).
    apply rbind_Ok in Hr3 as ([legs g] & Hlg & Hr3). apply rbind_Ok in Hr3 as ([? ?] & _ & Hr3).
    injection Hr3 as <- _ _. apply (repay_legs_credit _ _ _ _ _ _ _ _ _ R1) in Hlg.
    by rewrite Z.add_0_l in Hlg.
  - eapply (deliver_Ok env (Ctx.new s)) in H4 as (_ & Ec & Er);
      [|exact (sn_listings _ Hs)|exact (sn_minted _ Hs)|done|exact Hw3].
    destruct ro2; [done|]. injection H7 as <-.
    apply risk_totals_quiet, quiet_drift in H5. pose proof (dr_ctl _ _ H5) as D. simpl in D.
    rewrite Ec in D. assert (c_log (fl_ctl f5) = c_log (sy_ctl s)
      ++ [LiquidationEvent liq id usd (nrp_bonus (lp_repayment plan))]) as <- by by rewrite D.
    etransitivity; [by eapply finalize_logs|].
    unfold check_bad_debt_after_liquidation, Acct.cleanup_account_if_empty in H8.
    destruct (debt_free a2); [destruct (account_is_empty a2)|
      destruct (LiqCurve.is_socializable_bad_debt _ _)]; try (by injection H8 as <-).
    + by eapply remove_account_logs.
    + by eapply cleanup_logs.
Qed.

End Views.

End ViewSteps.
