(* ===== verification/Defindex.v ===== *)
(** * The DeFindex strategy (contracts/defindex-strategy/src/lib.rs)

    An adapter that keeps one controller account per vault.  [LendingClient] is what the
    strategy calls: the controller's client and the asset's token client; [LendingLaws] what
    it relies on.  [Strategy.] is the contract over that interface, [StrategyReach.] its
    lifetime between other transactions, and [CtlClient.] discharges the interface with the
    controller of [CtlContract]. *)

From S2P Require Import Prelude Errors FpCore Fp PoolTypes PoolCache PoolContract ControllerTypes PoolView Account Payments CtlState CtlContext CtlBooks CtlFlows CtlLegs CtlKeep CtlSteps CtlStrategies CtlContract CtlReach CtlViews CtlSample.
From stdpp Require Import base numbers list gmap.
From Stdlib Require Import ZArith Lia Bool.

Open Scope Z_scope.

(** Calls into the controller carry the host environment of the callee.
    [lc_account_exists] is [try_account_exists]: [None] when the call itself failed. *)
Class LendingClient (S : Type) : Type := {
  lc_supply : Env -> S -> Address -> Z -> Z -> list HubPayment -> res (Z * S);
  lc_withdraw : Env -> S -> Address -> Z -> list HubPayment -> option Address ->
    res (list HubPayment * S);
  lc_account_exists : S -> Z -> option bool;
  lc_collateral : Env -> S -> Z -> HubAssetKey -> res Z;
  lc_market_index : Env -> S -> HubAssetKey -> res MarketIndexRaw;
  lc_spoke : S -> Z -> res SpokeConfig;
  lc_spoke_asset : S -> Z -> HubAssetKey -> res SpokeAssetConfig;
  lc_pool_address : S -> res Address;
  lc_balance : S -> Address -> Address -> Z;
  lc_transfer : S -> Address -> Address -> Address -> Z -> res S
}.

(** Accounts have a row each; a call on one leaves the rows of the others.  Ids are issued
    once: an account that supply opens takes an id that never was.  [lc_moves] are the
    transactions of everyone else. *)
Class LendingLaws (S : Type) `{LendingClient S} : Type := {
  lc_ok : S -> Prop;
  lc_issued : S -> Z -> Prop;
  lc_Row : Type;
  lc_row : S -> Z -> lc_Row;
  lc_moves : S -> S -> Prop;
  issued_positive : forall s id, lc_issued s id -> 0 < id;
  supply_law : forall env s caller id0 spoke pay id s', lc_ok s ->
    lc_supply env s caller id0 spoke pay = Ok (id, s') ->
    lc_ok s' /\ (forall i, lc_issued s i -> lc_issued s' i)
    /\ (forall i, i <> id -> lc_row s' i = lc_row s i)
    /\ (if id0 =? 0 then ~ lc_issued s id /\ lc_issued s' id else id = id0);
  withdraw_law : forall env s caller id pay to paid s', lc_ok s ->
    lc_withdraw env s caller id pay to = Ok (paid, s') ->
    lc_ok s' /\ (forall i, lc_issued s i -> lc_issued s' i)
    /\ (forall i, i <> id -> lc_row s' i = lc_row s i);
  transfer_law : forall s token from to n s', lc_ok s ->
    lc_transfer s token from to n = Ok s' ->
    lc_ok s' /\ (forall i, lc_issued s i -> lc_issued s' i)
    /\ (forall i, lc_row s' i = lc_row s i);
  exists_law : forall s s' id, lc_row s' id = lc_row s id ->
    lc_account_exists s' id = lc_account_exists s id;
  moves_law : forall s s', lc_ok s -> lc_moves s s' ->
    lc_ok s' /\ (forall i, lc_issued s i -> lc_issued s' i)
}.

Inductive DeFindexStrategyError : Type :=
| NotInitialized
| AmountNotPositive
| InsufficientBalance
| ArithmeticError
| AccountLookupFailed.

Definition strategy_error_code (e : DeFindexStrategyError) : Z :=
  match e with
  | NotInitialized => 401
  | AmountNotPositive => 460
  | InsufficientBalance => 461
  | ArithmeticError => 462
  | AccountLookupFailed => 463
  end.

(** An error of the strategy's own, or one raised below it. *)
Inductive StrategyFailure : Type :=
| SError (e : DeFindexStrategyError)
| SCall (e : Error).

Abbreviation sres A := (result StrategyFailure A).

Definition call {A : Type} (r : res A) : sres A :=
  match r with Ok a => Ok a | Err e => Err (SCall e) end.

Lemma call_Ok {A} (r : res A) a : call r = Ok a <-> r = Ok a.
Proof. by destruct r; simpl; split; intros E; inversion E. Qed.

Module Strategy.

Record Config : Type := mkConfig {
  cf_hub_id : Z;
  cf_spoke_id : Z;
  cf_asset : Address;
  cf_controller : Address;
  cf_pool : Address
}.

(** What the contract publishes: events, and authorizations for calls made below it. *)
Inductive StrategyEvent : Type :=
| HarvestEvent (from : Address) (amount price_per_share : Z)
| AuthorizedTransfer (token from to : Address) (amount : Z).

(** [DataKey::Config], [DataKey::VaultAccount]. *)
Record Store : Type := mkStore {
  st_config : option Config;
  st_accounts : gmap Address Z;
  st_log : list StrategyEvent
}.

Definition with_accounts (st : Store) (m : gmap Address Z) : Store :=
  mkStore (st_config st) m (st_log st).
Definition publish (st : Store) (e : StrategyEvent) : Store :=
  mkStore (st_config st) (st_accounts st) (st_log st ++ [e]).

Definition PPS_DECIMALS : Z := 12.

(** The host's values, as far as the constructor tells them apart. *)
Inductive Val : Type :=
| VAddress (a : Address)
| VU32 (n : Z)
| VOther (n : N).

Definition config (st : Store) : sres Config := of_option (SError NotInitialized) (st_config st).

Definition set_vault_account (st : Store) (vault : Address) (account_id : Z) : Store :=
  with_accounts st (<[vault := account_id]> (st_accounts st)).

Definition clear_vault_account (st : Store) (vault : Address) : Store :=
  with_accounts st (delete vault (st_accounts st)).

Definition hub_asset (cfg : Config) : HubAssetKey := mkHubAssetKey (cf_hub_id cfg) (cf_asset cfg).

Definition to_payment (cfg : Config) (amount : Z) : list HubPayment := [(hub_asset cfg, amount)].

Section Strategy.

Context {S : Type} `{LendingClient S}.
Context (env : Env).

(** The controller's side of a call: the strategy is the direct invoker. *)
Definition callee (cfg : Config) : Env :=
  {| ledger_timestamp := ledger_timestamp env;
     current_contract_address := cf_controller cfg;
     authorized := fun a => bool_decide (a = current_contract_address env) || authorized env a |}.

Definition require_auth (a : Address) : sres unit := require (authorized env a) (SCall HostTrap).

Definition collateral (cfg : Config) (s : S) (account_id : Z) : sres Z :=
  call (lc_collateral (callee cfg) s account_id (hub_asset cfg)).

Definition resolve_vault_account (st : Store) (s : S) (vault : Address) (clear_if_gone : bool)
    : sres (Z * Store) :=
  let stored := default 0 (st_accounts st !! vault) in
  if stored =? 0 then Ok (0, st)
  else
    match lc_account_exists s stored with
    | Some true => Ok (stored, st)
    | Some false => Ok (0, if clear_if_gone then clear_vault_account st vault else st)
    | None => Err (SError AccountLookupFailed)
    end.

Definition vault_balance (st : Store) (cfg : Config) (s : S) (vault : Address) : sres Z :=
  let* (account_id, st) := resolve_vault_account st s vault false in
  if account_id =? 0 then Ok 0 else collateral cfg s account_id.

Definition harvest_price_per_share (cfg : Config) (s : S) : sres Z :=
  let* index := call (lc_market_index (callee cfg) s (hub_asset cfg)) in
  call (Ray.to_asset_floor (mi_supply_index index) PPS_DECIMALS).

Definition authorize_supply_to_pool (st : Store) (cfg : Config) (amount : Z) : Store :=
  publish st (AuthorizedTransfer (cf_asset cfg) (current_contract_address env) (cf_pool cfg) amount).

(** [transfer_amount_measured] of common/src/token.rs *)
Definition transfer_amount_measured (s : S) (token from to : Address) (amount : Z)
    (err : GenericError) : res (Z * S) :=
  do! require (0 <? amount) (EGeneric err) in
  let pre := lc_balance s token to in
  let* s := lc_transfer s token from to amount in
  let* received := of_option (EGeneric AmountMustBePositive)
                     (i128_checked_sub (lc_balance s token to) pre) in
  Ok (received, s).

(** ** Entry points *)

Definition address_arg (v : option Val) : sres Address :=
  match v with Some (VAddress a) => Ok a | _ => Err (SError NotInitialized) end.
Definition u32_arg (v : option Val) : sres Z :=
  match v with Some (VU32 n) => Ok n | _ => Err (SError NotInitialized) end.

Definition constructor (s : S) (asset : Address) (init_args : list Val) : sres Store :=
  let* controller := address_arg (init_args !! 0%nat) in
  let* hub_id := u32_arg (init_args !! 1%nat) in
  let* spoke_id := u32_arg (init_args !! 2%nat) in
  let h := mkHubAssetKey hub_id asset in
  let there := callee (mkConfig hub_id spoke_id asset controller controller) in
  let* _ := call (lc_market_index there s h) in
  let* _ := call (lc_spoke s spoke_id) in
  let* _ := call (lc_spoke_asset s spoke_id h) in
  let* pool := call (lc_pool_address s) in
  Ok (mkStore (Some (mkConfig hub_id spoke_id asset controller pool)) ∅ []).

Definition asset (st : Store) : sres Address :=
  let* cfg := config st in
  Ok (cf_asset cfg).

Definition deposit (st : Store) (s : S) (amount : Z) (from : Address) : sres (Z * Store * S) :=
  if amount <=? 0 then Err (SError AmountNotPositive)
  else
    do! require_auth from in
    let* cfg := config st in
    let strategy := current_contract_address env in
    let* (received, s) :=
      call (transfer_amount_measured s (cf_asset cfg) from strategy amount AmountMustBePositive) in
    let* (stored_id, st) := resolve_vault_account st s from true in
    let st := authorize_supply_to_pool st cfg received in
    let* (id, s) := call (lc_supply (callee cfg) s strategy stored_id (cf_spoke_id cfg)
                            (to_payment cfg received)) in
    let st := set_vault_account st from id in
    let* balance := collateral cfg s id in
    Ok (balance, st, s).

Definition harvest (st : Store) (s : S) (from : Address) : sres Store :=
  do! require_auth from in
  let* cfg := config st in
  let* price := harvest_price_per_share cfg s in
  Ok (publish st (HarvestEvent from 0 price)).

Definition balance (st : Store) (s : S) (from : Address) : sres Z :=
  let* cfg := config st in
  vault_balance st cfg s from.

Definition withdraw (st : Store) (s : S) (amount : Z) (from to : Address) : sres (Z * Store * S) :=
  if amount <=? 0 then Err (SError AmountNotPositive)
  else
    do! require_auth from in
    let* cfg := config st in
    let* (account_id, st) := resolve_vault_account st s from false in
    if account_id =? 0 then Err (SError InsufficientBalance)
    else
      let* held := collateral cfg s account_id in
      if held <? amount then Err (SError InsufficientBalance)
      else
        let is_full_withdraw := amount =? held in
        let withdraw_amount := if is_full_withdraw then 0 else amount in
        let* (_, s) := call (lc_withdraw (callee cfg) s (current_contract_address env) account_id
                               (to_payment cfg withdraw_amount) (Some to)) in
        let st := if is_full_withdraw then clear_vault_account st from else st in
        let* left_over := collateral cfg s account_id in
        Ok (left_over, st, s).

(** A transaction that calls the strategy; the views store nothing. *)
Inductive StrategyCall : Type :=
| Deposit (amount : Z) (from : Address)
| Harvest (from : Address)
| Withdraw (amount : Z) (from to : Address).

Definition caller_of (c : StrategyCall) : Address :=
  match c with Deposit _ from | Harvest from | Withdraw _ from _ => from end.

Definition dispatch (st : Store) (s : S) (c : StrategyCall) : sres (Store * S) :=
  match c with
  | Deposit amount from => let* (r, s) := deposit st s amount from in Ok (r.2, s)
  | Harvest from => let* st := harvest st s from in Ok (st, s)
  | Withdraw amount from to => let* (r, s) := withdraw st s amount from to in Ok (r.2, s)
  end.

End Strategy.

End Strategy.

(** ** The strategy between other transactions *)

Module StrategyReach.

Import Strategy.

Section Reach.

Context {S : Type} {HC : LendingClient S} {HL : LendingLaws S}.
Implicit Types (st : Store) (s : S).

(** [me] is the strategy's address. *)
Inductive strategy_reachable (me : Address) : Store -> S -> Prop :=
| strategy_deploy env s asset args st :
    current_contract_address env = me -> lc_ok s ->
    constructor env s asset args = Ok st -> strategy_reachable me st s
| strategy_call env st s c st' s' :
    strategy_reachable me st s -> current_contract_address env = me ->
    dispatch env st s c = Ok (st', s') -> strategy_reachable me st' s'
| strategy_world st s s' :
    strategy_reachable me st s -> lc_moves s s' -> strategy_reachable me st s'.

(** Every mapped account was issued, and no two vaults share one. *)
Record private (st : Store) (s : S) : Prop := {
  pv_ok : lc_ok s;
  pv_issued : forall v id, st_accounts st !! v = Some id -> lc_issued s id;
  pv_inj : forall v v' id, st_accounts st !! v = Some id -> st_accounts st !! v' = Some id -> v = v'
}.

Lemma private_move st s s' :
  private st s -> lc_ok s' -> (forall i, lc_issued s i -> lc_issued s' i) -> private st s'.
Proof using. intros [P1 P2 P3] Hok Hi. split; [done| |done]. eauto. Qed.

Lemma private_same st st' s :
  st_accounts st' = st_accounts st -> private st s -> private st' s.
Proof using. intros E [P1 P2 P3]. split; [done|..]; by rewrite E. Qed.

(** Mappings only of [v] changed. *)
Definition elsewhere (v : Address) st st' : Prop :=
  forall v', v' <> v -> st_accounts st' !! v' = st_accounts st !! v'.

Lemma private_clear st s v : private st s -> private (clear_vault_account st v) s.
Proof using.
  intros [P1 P2 P3]. split; [done|..]; unfold clear_vault_account; simpl.
  - intros w id Hw. apply lookup_delete_Some in Hw as [_ Hw]. eauto.
  - intros w w' id Hw Hw'. apply lookup_delete_Some in Hw as [_ Hw], Hw' as [_ Hw']. eauto.
Qed.

Lemma private_set st s v id :
  private st s -> lc_issued s id ->
  (forall v', v' <> v -> st_accounts st !! v' <> Some id) -> private (set_vault_account st v id) s.
Proof using.
  intros [P1 P2 P3] Hid Hne. split; [done|..]; unfold set_vault_account; simpl.
  - intros w i Hw. apply lookup_insert_Some in Hw as [[<- <-]|[_ Hw]]; eauto.
  - intros w w' i Hw Hw'. apply lookup_insert_Some in Hw as [[<- <-]|[H1 Hw]];
      apply lookup_insert_Some in Hw' as [[<- E]|[H2 Hw']]; [done| | |eauto].
    + exfalso. by apply (Hne w').
    + subst i. exfalso. by apply (Hne w).
Qed.

(** Resolution returns the stored id of a live account, or 0; it drops the mapping of an
    account the controller says is gone, if told to. *)
Lemma resolve_Ok st s v clear id st' :
  resolve_vault_account st s v clear = Ok (id, st') ->
  (st' = st \/ (clear = true /\ st' = clear_vault_account st v
     /\ exists i, st_accounts st !! v = Some i /\ lc_account_exists s i = Some false))
  /\ (id = 0 \/ (st_accounts st !! v = Some id /\ st' = st /\ lc_account_exists s id = Some true)).
Proof using.
  unfold resolve_vault_account. destruct (st_accounts st !! v) as [i|] eqn:E; simpl.
  2:{ intros H. injection H as <- <-. auto. }
  destruct (Z.eqb_spec i 0) as [->|Hi]; [intros H; injection H as <- <-; auto|].
  destruct (lc_account_exists s i) as [[]|] eqn:Ex; intros H; [| |done];
    injection H as <- <-; [auto|]. destruct clear; eauto 8.
Qed.

Lemma resolve_gone st s v clear st' :
  resolve_vault_account st s v clear = Ok (0, st') ->
  forall i, st_accounts st !! v = Some i -> i <> 0 -> lc_account_exists s i = Some false.
Proof using.
  unfold resolve_vault_account. intros H i Hi Hz. rewrite Hi in H. simpl in H.
  destruct (Z.eqb_spec i 0); [done|]. destruct (lc_account_exists s i) as [[]|]; [|done|done].
  injection H as -> _. done.
Qed.

Lemma measured_Ok s token from to n err r s' :
  lc_ok s -> transfer_amount_measured s token from to n err = Ok (r, s') ->
  lc_ok s' /\ (forall i, lc_issued s i -> lc_issued s' i) /\ (forall i, lc_row s' i = lc_row s i).
Proof using.
  intros Hs H. unfold transfer_amount_measured in H. apply rbind_Ok in H as (u & _ & H).
  apply rbind_Ok in H as (s1 & H1 & H). apply rbind_Ok in H as (d & _ & H). injection H as <- <-.
  by eapply transfer_law.
Qed.

(** What a call of the strategy does: [own] is the caller's account at its start. *)
Record strategy_step (env : Env) (v : Address) st s st' s' : Prop := {
  ss_auth : authorized env v = true;
  ss_private : private st' s';
  ss_issued : forall i, lc_issued s i -> lc_issued s' i;
  ss_else : elsewhere v st st';
  ss_rows : forall i, lc_issued s i -> st_accounts st !! v <> Some i -> lc_row s' i = lc_row s i
}.

Lemma require_auth_Ok env a u : require_auth env a = Ok u -> authorized env a = true.
Proof using. unfold require_auth. intros H. by apply require_Ok in H. Qed.

Lemma deposit_step env st s amount from r st' s' :
  private st s -> deposit env st s amount from = Ok (r, st', s') ->
  strategy_step env from st s st' s'
  /\ exists id, st_accounts st' !! from = Some id
    /\ (st_accounts st !! from = Some id
        \/ (~ lc_issued s id /\ forall i, st_accounts st !! from = Some i -> i <> 0 ->
             lc_account_exists s i = Some false)).
Proof using.
  intros Hp H. unfold deposit in H. destruct (amount <=? 0); [done|].
  apply rbind_Ok in H as (u & Hu & H). apply require_auth_Ok in Hu.
  apply rbind_Ok in H as (cfg & _ & H). cbv zeta in H.
  apply rbind_Ok in H as ([rc s1] & H1 & H). apply call_Ok in H1.
  apply rbind_Ok in H as ([id0 st1] & H2 & H). apply rbind_Ok in H as ([id s2] & H3 & H).
  apply call_Ok in H3. apply rbind_Ok in H as (b & _ & H). injection H as <- <- <-.
  apply measured_Ok in H1 as (K1 & I1 & R1); [|apply Hp].
  pose proof (private_move _ _ _ Hp K1 I1) as Hp1.
  assert (id0 = 0 -> forall i, st_accounts st !! from = Some i -> i <> 0 ->
            lc_account_exists s1 i = Some false) as Hg by (intros ->; by eapply resolve_gone).
  apply resolve_Ok in H2 as [Hst Hid].
  apply supply_law in H3 as (K2 & I2 & R2 & Hnew); [|done].
  assert (private st1 s1) as Hq by (destruct Hst as [->|(_ & -> & _)]; [done|by apply private_clear]).
  assert (elsewhere from st st1) as Hel.
  { intros v' Hv. destruct Hst as [->|(_ & -> & _)]; [done|]. simpl. by rewrite lookup_delete_ne. }
  assert (lc_issued s2 id /\ (st_accounts st !! from = Some id \/ ~ lc_issued s1 id)) as [Hi2 Hown].
  { destruct Hid as [->|(Hs & _ & _)].
    - simpl in Hnew. destruct Hnew as [? ?]. auto.
    - pose proof (issued_positive _ _ (pv_issued _ _ Hp1 _ _ Hs)).
      destruct (Z.eqb_spec id0 0); [lia|]. subst id0. split; [|auto]. eauto using pv_issued. }
  assert (forall v', v' <> from -> st_accounts st1 !! v' <> Some id) as Hfree.
  { intros v' Hv E. rewrite Hel in E by done. destruct Hown as [Ho|Ho].
    - by apply Hv, (pv_inj _ _ Hp _ _ _ E Ho).
    - by apply Ho, (pv_issued _ _ Hp1 v'). }
  split; [split|].
  - done.
  - apply private_set; [|done|exact Hfree]. apply (private_same st1); [done|].
    by apply (private_move st1 s1).
  - auto.
  - intros v' Hv. simpl. rewrite lookup_insert_ne by done. by apply Hel.
  - intros i Hi Hne. rewrite R2, R1; [done|]. intros ->. destruct Hown; [done|auto].
  - exists id. simpl. rewrite lookup_insert_eq. split; [done|]. destruct Hid as [->|(Hs & _ & _)].
    + right. split; [|intros i Hi Hz; rewrite <- (exists_law _ _ i (R1 i)); by apply Hg].
      simpl in Hnew. destruct Hnew as [Hn _]. auto.
    + left. pose proof (issued_positive _ _ (pv_issued _ _ Hp1 _ _ Hs)).
      destruct (Z.eqb_spec id0 0); [lia|]. by subst id0.
Qed.

Lemma withdraw_step env st s amount from to r st' s' :
  private st s -> withdraw env st s amount from to = Ok (r, st', s') ->
  strategy_step env from st s st' s'
  /\ exists cfg id held paid, st_config st = Some cfg /\ st_accounts st !! from = Some id
    /\ lc_collateral (callee env cfg) s id (hub_asset cfg) = Ok held /\ 0 < amount <= held
    /\ lc_withdraw (callee env cfg) s (current_contract_address env) id
         (to_payment cfg (if amount =? held then 0 else amount)) (Some to) = Ok (paid, s')
    /\ st' = (if amount =? held then clear_vault_account st from else st).
Proof using.
  intros Hp H. unfold withdraw in H. destruct (Z.leb_spec amount 0); [done|].
  apply rbind_Ok in H as (u & Hu & H). apply require_auth_Ok in Hu.
  apply rbind_Ok in H as (cfg & Hc & H). apply of_option_Ok in Hc.
  apply rbind_Ok in H as ([id st1] & H1 & H). apply resolve_Ok in H1 as [Hst Hid].
  destruct (Z.eqb_spec id 0) as [|Hz]; [done|].
  destruct Hid as [?|(Hs & -> & _)]; [done|]. apply rbind_Ok in H as (held & Hh & H).
  apply call_Ok in Hh. destruct (Z.ltb_spec held amount); [done|]. cbv zeta in H.
  apply rbind_Ok in H as ([paid s1] & H2 & H). apply call_Ok in H2.
  apply rbind_Ok in H as (b & _ & H). injection H as <- <- <-.
  pose proof H2 as Hw. apply withdraw_law in H2 as (K & I & R); [|apply Hp].
  pose proof (private_move _ _ _ Hp K I) as Hp1. split; [split|].
  - done.
  - destruct (amount =? held); [by apply private_clear|done].
  - done.
  - intros v' Hv. destruct (amount =? held); [|done]. simpl. by rewrite lookup_delete_ne.
  - intros i Hi Hne. apply R. congruence.
  - exists cfg, id, held, paid. split_and!; done.
Qed.

Lemma harvest_step env st s from st' :
  private st s -> harvest env st s from = Ok st' ->
  strategy_step env from st s st' s /\ st_accounts st' = st_accounts st.
Proof using.
  intros Hp H. unfold harvest in H. apply rbind_Ok in H as (u & Hu & H). apply require_auth_Ok in Hu.
  apply rbind_Ok in H as (cfg & _ & H). apply rbind_Ok in H as (pr & _ & H). injection H as <-.
  destruct Hp as [P1 P2 P3]. split; [by split|done].
Qed.

Lemma dispatch_step env st s c st' s' :
  private st s -> dispatch env st s c = Ok (st', s') ->
  strategy_step env (caller_of c) st s st' s'.
Proof using.
  intros Hp H. destruct c as [amount from|from|amount from to]; simpl in *.
  - apply rbind_Ok in H as ([[r st1] s1] & H & E). injection E as <- <-. by eapply deposit_step.
  - apply rbind_Ok in H as (st1 & H & E). injection E as <- <-. by eapply harvest_step.
  - apply rbind_Ok in H as ([[r st1] s1] & H & E). injection E as <- <-. by eapply withdraw_step.
Qed.

Lemma reachable_private me st s : strategy_reachable me st s -> private st s.
Proof using.
  induction 1 as [env s asset args st He Hok H|env st s c st' s' _ IH He H|st s s' _ IH Hm].
  - unfold constructor in H. do 3 apply rbind_Ok in H as (? & _ & H). cbv zeta in H.
    do 4 apply rbind_Ok in H as (? & _ & H). injection H as <-.
    split; [done|..]; simpl; intros ?; rewrite lookup_empty; done.
  - by eapply dispatch_step.
  - apply moves_law in Hm as [Hok Hi]; [|apply IH]. by eapply private_move.
Qed.

(** ** Theorems *)

(** C28: Over any sequence of strategy calls and transactions of others, every vault's mapping
    points to an account the controller issued, and no two vaults are mapped to the same
    account. *)
Theorem vault_accounts_private me st s :
  strategy_reachable me st s ->
  (forall v id, st_accounts st !! v = Some id -> 0 < id /\ lc_issued s id)
  /\ (forall v v' id, st_accounts st !! v = Some id -> st_accounts st !! v' = Some id -> v = v').
Proof using.
  intros Hr. apply reachable_private in Hr as [P1 P2 P3]. split; [|done].
  intros v id Hv. apply P2 in Hv. split; [by eapply issued_positive|done].
Qed.

(** A strategy call needs the authorization of the vault it names and is confined to it:
    every other vault keeps its mapping, and the controller's row of every other vault's
    account is untouched. *)
Theorem strategy_calls_confined me env st s c st' s' v id :
  strategy_reachable me st s -> dispatch env st s c = Ok (st', s') -> v <> caller_of c ->
  st_accounts st !! v = Some id ->
  authorized env (caller_of c) = true /\ st_accounts st' !! v = Some id
  /\ lc_row s' id = lc_row s id.
Proof using.
  intros Hr H Hv Hid. apply reachable_private in Hr as Hp.
  apply dispatch_step in H as [S1 _ _ S4 S5]; [|done]. split_and!; [done|by rewrite S4|].
  apply S5; [by eapply pv_issued|]. intros E. by apply Hv, (pv_inj _ _ Hp _ _ _ Hid E).
Qed.

(** A vault's mapping, its only route back to its collateral, survives every call but two:
    a deposit of the vault's own after the controller reported the account gone (a lookup
    that fails never counts as gone), and a withdrawal of the vault's own of exactly the
    balance the controller reports. *)
Theorem mapping_survives me env st s c st' s' v id :
  strategy_reachable me st s -> dispatch env st s c = Ok (st', s') ->
  st_accounts st !! v = Some id -> st_accounts st' !! v <> Some id ->
  (exists amount, c = Deposit amount v /\ lc_account_exists s id = Some false)
  \/ (exists amount to cfg, c = Withdraw amount v to /\ st_config st = Some cfg
       /\ lc_collateral (callee env cfg) s id (hub_asset cfg) = Ok amount).
Proof using.
  intros Hr H Hid Hne. apply reachable_private in Hr as Hp.
  assert (v = caller_of c) as ->.
  { destruct (decide (v = caller_of c)) as [|Hv]; [done|]. exfalso.
    apply dispatch_step in H as [_ _ _ S4 _]; [|done]. by rewrite S4 in Hne. }
  destruct c as [amount from|from|amount from to]; simpl in *.
  - left. exists amount. split; [done|]. apply rbind_Ok in H as ([[r st1] s1] & H & E).
    injection E as <- <-. apply deposit_step in H as (_ & id' & H1 & [H2|[_ H2]]); [congruence| |done].
    apply H2; [done|]. pose proof (issued_positive _ _ (pv_issued _ _ Hp _ _ Hid)). lia.
  - apply rbind_Ok in H as (st1 & H & E). injection E as <- <-.
    apply harvest_step in H as [_ H]; [|done]. by rewrite H in Hne.
  - right. apply rbind_Ok in H as ([[r st1] s1] & H & E). injection E as <- <-.
    apply withdraw_step in H as (_ & cfg & i & held & paid & H1 & H2 & H3 & _ & _ & ->); [|done].
    exists amount, to, cfg. split_and!; [done|done|]. simplify_eq.
    destruct (Z.eqb_spec amount held) as [->|]; [done|]. contradiction.
Qed.

End Reach.

End StrategyReach.

(** ** The controller as the strategy's client *)

Module CtlClient.

Import Positions Books Legs Keep Steps Entry Reach Views.

Section Client.

Context {W : Type} {HW : Host W} {HC : Chain W} {HS : SequentialIds W}.
Implicit Types (f : Flow W) (s : Sys W).

(** Entry points and views of the controller, transfers of the asset's token.  A call of
    [account_exists] reads storage only, so it does not fail. *)
#[export] Instance controller_client : LendingClient (Sys W) := {
  lc_supply env s caller id spoke pay := Entry.supply env s caller id spoke pay;
  lc_withdraw env s caller id pay to := Entry.withdraw env s caller id pay to;
  lc_account_exists s id := Some (account_exists s id);
  lc_collateral env s id h := collateral_amount_for_hub_asset env s id h;
  lc_market_index env s h := get_market_index env s h;
  lc_spoke s id := Store.get_spoke (sy_ctl s) id;
  lc_spoke_asset s spoke h := get_spoke_asset_view s spoke h;
  lc_pool_address s := Store.get_pool (sy_ctl s);
  lc_balance s token a := token_balance (sy_host s) token a;
  lc_transfer s token from to n := let* w := token_transfer (sy_host s) token from to n in
                                   Ok (with_host s w)
}.

Definition issued s (id : Z) : Prop :=
  exists nft, i_position_nft (c_instance (sy_ctl s)) = Some nft
    /\ 0 < id < nft_next (sy_host s) nft.

Definition account_row s (id : Z) :=
  (acs_meta (c_accounts (sy_ctl s)) !! id, acs_supply (c_accounts (sy_ctl s)) !! id,
   acs_borrow (c_accounts (sy_ctl s)) !! id, acs_delegates (c_accounts (sy_ctl s)) !! id).

Lemma issued_le s s' id :
  i_position_nft (c_instance (sy_ctl s')) = i_position_nft (c_instance (sy_ctl s)) ->
  host_le (sy_host s) (sy_host s') -> issued s id -> issued s' id.
Proof using.
  intros Hi Hh (nft & Hn & Hlt). exists nft. rewrite Hi. split; [done|]. specialize (Hh nft). lia.
Qed.

Lemma beside_row id i s s' :
  beside [id] (sy_ctl s) (sy_ctl s') -> i <> id -> account_row s' i = account_row s i.
Proof using.
  intros [Ho _ _ _] Hi. unfold account_row.
  destruct (Ho i) as (-> & -> & -> & ->); [|done]. by rewrite list_elem_of_singleton.
Qed.

(** *** The NFT's counter along a flow *)

Lemma finalize_le f id a sides rm f' :
  finalize_position_flow f id a sides rm = Ok f' -> host_le (fl_host f) (fl_host f').
Proof using.
  intros H. unfold finalize_position_flow in H. apply rbind_Ok in H as (f2 & H2 & H). injection H as <-.
  destruct (emit_batch_ctl f2 id a) as (_ & _ & _ & _ & _ & Hh). rewrite Hh. clear Hh.
  destruct (persist_usage_settled f) as [[_ _ _ _ Hp] _]. etransitivity; [exact Hp|]. clear Hp.
  unfold persist_account_positions, Acct.cleanup_account_if_empty in H2. cbv zeta in H2.
  destruct rm; [destruct (account_is_empty a)|]; [|injection H2 as <-; by destruct sides..].
  unfold Acct.remove_account_and_burn_nft in H2. apply rbind_Ok in H2 as (nft & _ & H2).
  apply rbind_Ok in H2 as (w & Hw & H2). injection H2 as <-.
  unfold Store.nft_burn_call in Hw. apply rbind_Ok in Hw as (u & _ & Hw).
  intros nft'. eapply burn_keeps_ids in Hw. destruct sides; exact Hw.
Qed.

Lemma load_or_create_issue env f caller id0 spoke mode guard id a f' :
  Acct.load_or_create_account env f caller id0 spoke mode guard = Ok (id, a, f') ->
  host_le (fl_host f) (fl_host f') /\ c_instance (fl_ctl f') = c_instance (fl_ctl f)
  /\ (if id0 =? 0 then exists nft, i_position_nft (c_instance (fl_ctl f)) = Some nft
        /\ id = nft_next (fl_host f) nft /\ 0 < id /\ nft_next (fl_host f') nft = id + 1
      else id = id0).
Proof using.
  intros H. unfold Acct.load_or_create_account in H. destruct (id0 =? 0).
  - unfold Acct.create_account_with in H. do 2 apply rbind_Ok in H as (? & _ & H).
    apply rbind_Ok in H as (nft & Hn & H). apply rbind_Ok in H as ([id' w] & Hw & H).
    injection H as <- <- <-. apply of_option_Ok in Hn.
    apply mint_sequential in Hw as (-> & Hp & Hx & Hm). split_and!; [done|done|].
    exists nft. split_and!; [done|done|lia|done].
  - apply rbind_Ok in H as (a0 & _ & H). apply rbind_Ok in H as (u & _ & H). by injection H as <- <- <-.
Qed.

Lemma supply_issue env s caller id0 spoke assets id s' :
  sane s -> process_supply env s caller id0 spoke assets = Ok (id, s') ->
  host_le (sy_host s) (sy_host s')
  /\ (if id0 =? 0 then ~ issued s id /\ issued s' id else id = id0).
Proof using.
  intros Hs H. pose proof (supply_sane _ _ _ _ _ _ _ _ Hs H) as [_ [_ Hi _ _]].
  unfold process_supply in H. do 2 apply rbind_Ok in H as (? & _ & H).
  apply rbind_Ok in H as ([[id1 a] f1] & H1 & H). apply rbind_Ok in H as (? & _ & H).
  apply rbind_Ok in H as ([a2 f2] & H2 & H). apply rbind_Ok in H as (f3 & H3 & H). injection H as <- <-.
  pose proof (load_or_create_issue _ _ _ _ _ _ _ _ _ _ H1) as (L1 & _ & L2).
  apply load_or_create_sane in H1 as ([S1 S2 S3] & Hb & _ & m & Ho); [|done].
  eapply deposit_carried in H2 as (C1 & _ & _); [|exact S2|by apply carried_start; rewrite ?Hb].
  apply finalize_le in H3. pose proof (ca_host _ _ _ _ _ _ _ _ C1) as L3.
  assert (host_le (fl_host f1) (sy_host (fl_sys f3))) as L4 by (by transitivity (fl_host f2)).
  split; [by transitivity (fl_host f1)|].
  destruct (id0 =? 0); [|done]. destruct L2 as (nft & Hn & -> & Hpos & Hx). split.
  - intros (nft' & Hn' & Hlt). change (sy_ctl s) with (fl_ctl (Ctx.new s)) in Hn'.
    rewrite Hn in Hn'. injection Hn' as <-. simpl in Hlt. lia.
  - exists nft. rewrite Hi. split; [done|]. specialize (L4 nft). simpl in *. lia.
Qed.

Lemma withdraw_le env s caller id ws to paid s' :
  sane s -> process_withdraw env s caller id ws to = Ok (paid, s') -> host_le (sy_host s) (sy_host s').
Proof using.
  intros Hs H. unfold process_withdraw in H.
  apply rbind_Ok in H as (u & _ & H). apply rbind_Ok in H as (a & Ha & H).
  do 2 apply rbind_Ok in H as (? & _ & H). apply rbind_Ok in H as (agg & _ & H).
  apply rbind_Ok in H as ([[pd a1] f1] & H1 & H). apply rbind_Ok in H as ([[a2 ch] f2] & H2 & H).
  apply rbind_Ok in H as (f3 & H3 & H). injection H as <- <-.
  apply get_account_opened in Ha as (m & Ho).
  eapply withdraw_run in H1 as (Hw & _ & _ & _); [|done|done|exact Ho|exact H2].
  apply finalize_le in H3. transitivity (fl_host f2); [apply (wh_host _ _ _ _ _ Hw)|done].
Qed.

(** The controller's theorems discharge the interface. *)
#[export] Instance controller_laws : LendingLaws (Sys W).
Proof using HS.
  refine {| lc_ok := sane; lc_issued := issued; lc_row := account_row;
            lc_moves := fun s s' => sane s' /\ host_le (sy_host s) (sy_host s')
              /\ i_position_nft (c_instance (sy_ctl s')) = i_position_nft (c_instance (sy_ctl s)) |}; simpl.
  - intros s id (nft & _ & ?). lia.
  - intros env s caller id0 spoke pay id s' Hs H. apply when_not_paused_Ok in H as [H _].
    pose proof (supply_issue _ _ _ _ _ _ _ _ Hs H) as [Hle Hid].
    apply supply_sane in H as [Hs' Hb]; [|done].
    split_and!; [done| |by intros; eapply beside_row|done].
    intros i. apply issued_le; [by rewrite (be_instance _ _ _ Hb)|done].
  - intros env s caller id pay to paid s' Hs H. pose proof (withdraw_le _ _ _ _ _ _ _ _ Hs H) as Hle.
    apply withdraw_sane in H as [Hs' Hb]; [|done].
    split_and!; [done| |by intros; eapply beside_row].
    intros i. apply issued_le; [by rewrite (be_instance _ _ _ Hb)|done].
  - intros s token from to n s' Hs H. apply rbind_Ok in H as (w & Hw & H). injection H as <-.
    assert (host_le (sy_host s) w) as Hle by (intros nft; by eapply transfer_keeps_ids).
    split_and!; [|intros i; by apply issued_le|done]. destruct Hs as [S1 S2 S3].
    split; [done|done|by eapply (minted_le s)].
  - intros s s' id H. unfold account_row in H. injection H as E1 _ _ _.
    unfold account_exists, Store.try_get_account_meta. by rewrite E1.
  - intros s s' _ (Hs & Hle & Hn). split; [done|]. intros i. by apply issued_le.
Defined.

End Client.

End CtlClient.

(** ** Two vaults on a running protocol *)

Module StrategySample.

Import Keep Reach Demo Strategy StrategyReach CtlClient.

Definition or_else {A : Type} (d : A) (r : sres A) : A := match r with Ok a => a | Err _ => d end.

Lemma or_else_Ok {A : Type} (d : A) (r : sres A) : is_ok r = true -> r = Ok (or_else d r).
Proof. destruct r; [done|]. intros E. discriminate E. Qed.

Definition here : Address := mkAddress 60.
Definition at_strategy : Env :=
  {| ledger_timestamp := 1000; current_contract_address := here; authorized := fun _ => true |}.

Definition blank : Store := mkStore None ∅ [].
Definition strategy0 : Store :=
  or_else blank (constructor at_strategy opened usdc [VAddress me; VU32 1; VU32 1]).

Definition after (p : Store * Sys World) (c : StrategyCall) : Store * Sys World :=
  or_else p (dispatch at_strategy p.1 p.2 c).

(** The lender's vault deposits 1,000 USDC, then the liquidator's 500. *)
Definition one_vault : Store * Sys World := after (strategy0, opened) (Deposit (10 ^ 10) lender).
Definition two_vaults : Store * Sys World := after one_vault (Deposit (5 * 10 ^ 9) liquidator).
(** The lender leaves with everything. *)
Definition left_vault : Store * Sys World := after two_vaults (Withdraw (10 ^ 10) lender lender).

Lemma opened_sane : sane opened.
Proof. exact (reachable_sane me opened opened_reachable). Qed.

Lemma deposits_run :
  is_ok (constructor at_strategy opened usdc [VAddress me; VU32 1; VU32 1])
  && is_ok (dispatch at_strategy strategy0 opened (Deposit (10 ^ 10) lender))
  && is_ok (dispatch at_strategy one_vault.1 one_vault.2 (Deposit (5 * 10 ^ 9) liquidator))
  && is_ok (dispatch at_strategy two_vaults.1 two_vaults.2 (Withdraw (10 ^ 10) lender lender)) = true.
Proof. vm_compute. reflexivity. Qed.

Lemma after_Ok p c : is_ok (dispatch at_strategy p.1 p.2 c) = true ->
  dispatch at_strategy p.1 p.2 c = Ok ((after p c).1, (after p c).2).
Proof.
  unfold after. destruct (dispatch at_strategy p.1 p.2 c) as [[a b]|]; [done|]. intros E. discriminate E.
Qed.

Lemma after_reachable p c : strategy_reachable here p.1 p.2 ->
  is_ok (dispatch at_strategy p.1 p.2 c) = true ->
  strategy_reachable here (after p c).1 (after p c).2.
Proof.
  intros Hp Hc. eapply (strategy_call here at_strategy); [exact Hp|reflexivity|by apply after_Ok].
Qed.

Lemma vaults_reachable :
  strategy_reachable here one_vault.1 one_vault.2 /\ strategy_reachable here two_vaults.1 two_vaults.2.
Proof.
  pose proof deposits_run as H. apply andb_prop in H as [H _]. apply andb_prop in H as [H H2].
  apply andb_prop in H as [H0 H1].
  assert (strategy_reachable here strategy0 opened) as R0.
  { eapply (strategy_deploy here at_strategy); [reflexivity|exact opened_sane|].
    exact (or_else_Ok blank _ H0). }
  assert (strategy_reachable here one_vault.1 one_vault.2) as R1
    by exact (after_reachable (strategy0, opened) _ R0 H1).
  split; [exact R1|exact (after_reachable one_vault _ R1 H2)].
Qed.

Lemma vaults_mapped :
  st_accounts one_vault.1 !! lender = Some 3 /\ st_accounts two_vaults.1 !! lender = Some 3
  /\ st_accounts two_vaults.1 !! liquidator = Some 4 /\ st_accounts left_vault.1 !! lender = None
  /\ st_accounts left_vault.1 !! liquidator = Some 4.
Proof. vm_compute. split_and!; reflexivity. Qed.

Lemma steps_run :
  dispatch at_strategy one_vault.1 one_vault.2 (Deposit (5 * 10 ^ 9) liquidator)
    = Ok (two_vaults.1, two_vaults.2)
  /\ dispatch at_strategy two_vaults.1 two_vaults.2 (Withdraw (10 ^ 10) lender lender)
    = Ok (left_vault.1, left_vault.2).
Proof.
  pose proof deposits_run as H. apply andb_prop in H as [H H3]. apply andb_prop in H as [_ H2].
  split; by apply after_Ok.
Qed.

Lemma vault_accounts_private_witness :
  st_accounts two_vaults.1 !! lender = Some 3 /\ lc_issued two_vaults.2 3.
Proof.
  pose proof vaults_mapped as (_ & H & _). split; [exact H|].
  destruct (vault_accounts_private here two_vaults.1 two_vaults.2 (proj2 vaults_reachable)) as [P _].
  apply (P lender 3 H).
Defined.

Lemma strategy_calls_confined_witness :
  st_accounts two_vaults.1 !! lender = Some 3
  /\ lc_row two_vaults.2 3 = lc_row one_vault.2 3.
Proof.
  pose proof vaults_mapped as (H & _).
  assert (lender <> caller_of (Deposit (5 * 10 ^ 9) liquidator)) as Hne by discriminate.
  destruct (strategy_calls_confined here at_strategy one_vault.1 one_vault.2
              (Deposit (5 * 10 ^ 9) liquidator) two_vaults.1 two_vaults.2 lender 3
              (proj1 vaults_reachable) (proj1 steps_run) Hne H) as (_ & H1 & H2).
  split; [exact H1|exact H2].
Defined.

Lemma mapping_survives_witness :
  (exists amount, Withdraw (10 ^ 10) lender lender = Deposit amount lender
     /\ lc_account_exists two_vaults.2 3 = Some false)
  \/ (exists amount to cfg, Withdraw (10 ^ 10) lender lender = Withdraw amount lender to
       /\ st_config two_vaults.1 = Some cfg
       /\ lc_collateral (callee at_strategy cfg) two_vaults.2 3 (hub_asset cfg) = Ok amount).
Proof.
  pose proof vaults_mapped as (_ & H & _ & Hg & _).
  assert (st_accounts left_vault.1 !! lender <> Some 3) as Hne by (rewrite Hg; discriminate).
  exact (mapping_survives here at_strategy two_vaults.1 two_vaults.2 _ left_vault.1 left_vault.2
           lender 3 (proj2 vaults_reachable) (proj2 steps_run) H Hne).
Defined.

End StrategySample.
