(* ===== verification/CtlProps.v ===== *)
(** * Theorems about the controller

    The statements a user of the protocol relies on, over reachable systems and whole
    entrypoints, each applied to the system of [CtlSample]. *)

From S2P Require Import Prelude Errors FpCore Fp PoolTypes PoolCache PoolOps PoolSafety PoolContract Sample ControllerTypes PoolView PoolMoves Account SpokeUsage Risk RiskParams Payments LiqCurve LiqPlan CtlState CtlContext CtlFlows CtlLiq CtlConfig CtlStrategies CtlContract CtlBooks CtlLegs CtlKeep CtlReach CtlHealth OracleMath CtlViews CtlSample.
From stdpp Require Import base numbers list gmap.
From Stdlib Require Import ZArith Lia Bool.

Open Scope Z_scope.

Import SpokeUsage RiskParams Payments Positions Liquidation Strategies Config Entry Books Legs Keep Reach Health Access Views ViewSteps.

(** ** Invariants of the system *)

Section Reachable.

Context {W : Type} {HW : Host W} {HC : Chain W} {HS : SequentialIds W}.
Context {HV : Venues W} {HI : VenueIds W} {HD : Deployer W} {HDI : DeployerIds W}.
Context {HN : NoReentry W}.

(** C1: in every reachable system the books balance.  For each market, the supply shares of
    all stored accounts add up to the pool's supply less protocol revenue and their debt
    shares to the pool's debt; for each spoke, the stored usage of the market is the sum
    over the spoke's accounts, on both sides. *)
Theorem controller_books_balance me (s : Sys W) :
  sys_reachable me s ->
  (forall h, match market_of (sy_pool s) h with
             | Some c => total sup everyone (acs_supply (c_accounts (sy_ctl s))) h = user_shares c
                 /\ total deb everyone (acs_borrow (c_accounts (sy_ctl s))) h = c_borrowed c
             | None => total sup everyone (acs_supply (c_accounts (sy_ctl s))) h = 0
                 /\ total deb everyone (acs_borrow (c_accounts (sy_ctl s))) h = 0
             end)
  /\ (forall spoke h,
        used (c_usage (sy_ctl s)) spoke h SupplySide
          = total sup (in_spoke (acs_meta (c_accounts (sy_ctl s))) spoke)
              (acs_supply (c_accounts (sy_ctl s))) h
        /\ used (c_usage (sy_ctl s)) spoke h BorrowSide
          = total deb (in_spoke (acs_meta (c_accounts (sy_ctl s))) spoke)
              (acs_borrow (c_accounts (sy_ctl s))) h).
Proof using HI HDI HN.
  intros Hr. destruct (reachable_sane me s Hr) as [[[_ B1] B2 B3 _ _ _] _ _].
  split; [|intros spoke h; split; [apply B2|apply B3]].
  intros h. specialize (B1 h). unfold nothing in B1.
  destruct (market_of (sy_pool s) h); rewrite !Z.add_0_r in B1; exact B1.
Qed.

(** C8: in every reachable system storage is well formed.  Each position map is sorted by
    market without duplicates, holds only positive share amounts in the [i128] range, with
    thresholds at most 100% and fees below; maps are stored only for accounts with
    metadata, whose ids the NFT contract has issued; and every listing has a threshold of
    at most 100% and fees below. *)
Theorem stored_accounts_well_formed me (s : Sys W) :
  sys_reachable me s ->
  (forall id m, acs_supply (c_accounts (sy_ctl s)) !! id = Some m -> supply_ok m)
  /\ (forall id m, acs_borrow (c_accounts (sy_ctl s)) !! id = Some m -> debt_ok m)
  /\ (forall id, acs_meta (c_accounts (sy_ctl s)) !! id = None ->
        acs_supply (c_accounts (sy_ctl s)) !! id = None
        /\ acs_borrow (c_accounts (sy_ctl s)) !! id = None)
  /\ (forall id m, acs_meta (c_accounts (sy_ctl s)) !! id = Some m ->
        exists nft, i_position_nft (c_instance (sy_ctl s)) = Some nft
          /\ 0 < id < nft_next (sy_host s) nft)
  /\ listings_ok (sy_ctl s).
Proof using HI HDI HN.
  intros Hr. destruct (reachable_sane me s Hr) as [[_ _ _ B4 B5 B6] S2 S3]. by split_and!.
Qed.

(** C7: a transaction changes only the accounts it names.  Whatever the call, an existing
    account that is not among its arguments keeps its metadata, positions and delegates. *)
Theorem unnamed_accounts_untouched me (s : Sys W) env call s' i m :
  sys_reachable me s -> call_typed call -> dispatch env s call = Ok s' ->
  acs_meta (c_accounts (sy_ctl s)) !! i = Some m -> i ∉ named call ->
  acs_meta (c_accounts (sy_ctl s')) !! i = Some m
  /\ acs_supply (c_accounts (sy_ctl s')) !! i = acs_supply (c_accounts (sy_ctl s)) !! i
  /\ acs_borrow (c_accounts (sy_ctl s')) !! i = acs_borrow (c_accounts (sy_ctl s)) !! i
  /\ acs_delegates (c_accounts (sy_ctl s')) !! i = acs_delegates (c_accounts (sy_ctl s)) !! i.
Proof using HI HDI HN.
  intros Hr Ht H Hm Hi. apply reachable_sane in Hr.
  eapply call_kept in H as [_ (_ & l & Hl & Hin)]; [|done..].
  destruct (Hl i) as (-> & ? & ? & ?).
  - intros Hil. apply Hin in Hil as [?|?]; [done|congruence].
  - by split_and!.
Qed.

(** between transactions the reentrancy guard is down, so no transaction locks the
    protocol; and while it is up every call that moves shares or tokens fails. *)
Theorem reentrancy_guard me (s : Sys W) :
  sys_reachable me s ->
  c_flash_ongoing (sy_ctl s) = false
  /\ forall env call s', moves_value call = true ->
       dispatch env (with_ctl s (Store.set_flash_loan_ongoing (sy_ctl s) true)) call <> Ok s'.
Proof using HI HDI HN.
  intros Hr. split; [by eapply reachable_guard|].
  intros env call s' Hc. by apply guard_blocks.
Qed.

(** a call that is not authorized by the controller's owner changes no setting: hubs,
    spokes, listings, managers, approvals, limits, addresses and the pause flag stay. *)
Theorem configuration_needs_owner me (s : Sys W) env call s' :
  sys_reachable me s -> dispatch env s call = Ok s' ->
  (forall o, i_owner (c_instance (sy_ctl s)) = Some o -> authorized env o = false) ->
  c_instance (sy_ctl s') = c_instance (sy_ctl s) /\ c_registry (sy_ctl s') = c_registry (sy_ctl s).
Proof using HI HDI HN.
  intros Hr H Ho. apply reachable_sane in Hr. destruct (owner_call call) eqn:E.
  - apply owner_call_authorized in H as (o & Eo & Ha); [|done]. rewrite (Ho o Eo) in Ha. done.
  - by eapply user_call_config.
Qed.

(** somebody without rights over an existing account can supply only to positions the
    account already has: no new collateral position appears and its debts stay. *)
Theorem outsiders_only_top_up me (s : Sys W) env caller id spoke assets r s' :
  sys_reachable me s -> id <> 0 -> ~ entitled s id caller ->
  supply env s caller id spoke assets = Ok (r, s') ->
  Store.get_debt_positions (sy_ctl s') id = Store.get_debt_positions (sy_ctl s) id
  /\ forall h, map_get (Store.get_supply_positions (sy_ctl s) id) h = None ->
       map_get (Store.get_supply_positions (sy_ctl s') id) h = None.
Proof using HI HDI HN.
  intros Hr Hid Hne H. apply reachable_sane in Hr. apply when_not_paused_Ok in H as [H _].
  by eapply outsider_supply in H.
Qed.

(** listing flags are a ratchet.  A call either leaves every raised flag of every
    listing raised, or removes the listing, or is [relax_spoke_asset_flags] naming that
    listing with its current flags epoch, which it advances; other listings then stay. *)
Theorem listing_flags_ratchet me (s : Sys W) env call s' :
  sys_reachable me s -> call_typed call -> dispatch env s call = Ok s' ->
  (forall spoke h, flags_rise spoke h (sy_ctl s) (sy_ctl s'))
  \/ (exists spoke h e x y z, call = RelaxSpokeAssetFlags spoke h e x y z
        /\ Store.get_spoke_flags_epoch (sy_ctl s) spoke h = e
        /\ Store.get_spoke_flags_epoch (sy_ctl s') spoke h = e + 1
        /\ forall spoke' h', (spoke', h') <> (spoke, h) ->
             Store.get_spoke_asset (sy_ctl s') spoke' h'
             = Store.get_spoke_asset (sy_ctl s) spoke' h').
Proof using HI HDI HN.
  intros Hr Ht H. apply reachable_sane in Hr. destruct (owner_call call) eqn:E.
  2:{ left. intros spoke h. eapply user_call_config in H as [_ H]; [|done..].
      apply registry_flags_rise. by rewrite H. }
  destruct (relaxes call) eqn:Er.
  - right. destruct call; try done. simpl in H. apply ctl_owner_Ok in H as [H _].
    apply rbind_Ok in H as (c & Hc & H). injection H as <-. apply relax_flags_Ok in Hc.
    do 6 eexists. split; [reflexivity|exact Hc].
  - left. intros spoke h. by eapply owner_call_rise.
Qed.

(** C4: borrowing and withdrawing leave the account within its limits: when the call
    returns, an account that still owes anything owes no more than its LTV-weighted
    collateral and has a health factor of at least one, at the pool's indexes and the
    aggregator's prices in the ledger the call leaves behind. *)
Theorem risk_flows_end_within_limits me (s : Sys W) env call id s' :
  sys_reachable me s ->
  (exists caller l to, call = Borrow caller id l to \/ call = Withdraw caller id l to) ->
  dispatch env s call = Ok s' -> within_limits env s' id.
Proof using HI HDI HN.
  intros Hr (caller & l & to & [-> | ->]) H; apply reachable_sane in Hr; simpl in H.
  - apply when_not_paused_Ok in H as [H _]. by eapply borrow_within.
  - apply drop_Ok in H as [r H]. by eapply withdraw_within.
Qed.

(** C5: nobody can liquidate an account in the ledger in which it has just borrowed or
    withdrawn: whoever calls, with whatever payments and delivery, [liquidate] does not
    return. *)
Theorem fresh_position_not_liquidatable `{!StableQuotes W} me (s : Sys W) env call id s'
    env' liquidator payments mode r s'' :
  sys_reachable me s ->
  (exists caller l to, call = Borrow caller id l to \/ call = Withdraw caller id l to) ->
  dispatch env s call = Ok s' -> ledger_timestamp env' = ledger_timestamp env ->
  liquidate env' s' liquidator id payments mode <> Ok (r, s'').
Proof using HI HDI HN.
  intros Hr (caller & l & to & [-> | ->]) H Ht; apply reachable_sane in Hr; simpl in H;
    (eapply within_not_liquidated; [exact Ht|]).
  - apply when_not_paused_Ok in H as [H _]. by eapply borrow_within.
  - apply drop_Ok in H as [x H]. by eapply withdraw_within.
Qed.

(** C12: what the views announce is what a liquidation does.  When a liquidation that pays
    out tokens returns, [is_liquidatable] was true and the liquidation appends its event to
    the log.  With at most [MAX_VIEW_INPUTS] (256) payments the estimate for the same payments
    returned, the event carries the estimate's bonus and a credited value of at most the
    estimate's maximum payment; with more payments than a view accepts the estimate fails with
    [InvalidPayments], although the liquidation returns. *)
Theorem liquidation_is_announced `{!ListedPrices W} me (s : Sys W) env liquidator id payments r s' :
  sys_reachable me s ->
  liquidate env s liquidator id payments SeizeTransfer = Ok (r, s') ->
  can_be_liquidated env s id = Ok true
  /\ exists usd bonus,
       c_log (sy_ctl s) ++ [LiquidationEvent liquidator id usd bonus] `prefix_of` c_log (sy_ctl s')
       /\ if Z.of_nat (length payments) <=? MAX_VIEW_INPUTS
          then exists e, liquidation_estimations_detailed env s id payments SeizeTransfer = Ok e
               /\ bonus = le_bonus_rate_bps e /\ usd <= le_max_payment_wad e
          else liquidation_estimations_detailed env s id payments SeizeTransfer
               = Err (EGeneric InvalidPayments).
Proof using HI HDI HN.
  intros Hr H. apply reachable_sane in Hr.
  destruct (transfer_liquidation_viewed _ _ _ _ _ _ _ Hr H) as (Hv & bonus & usd & max & Hu & Hl & He).
  split; [done|]. exists usd, bonus. split; [done|]. destruct (Z.leb_spec (Z.of_nat (length payments)) MAX_VIEW_INPUTS).
  - destruct He as (e & -> & <- & <-); [done|]. by exists e.
  - by apply estimate_too_long.
Qed.

End Reachable.

(** ** Entrypoints *)

Section Calls.

Context {W : Type} {HW : Host W} {HC : Chain W} {HV : Venues W} {HD : Deployer W}.

(** C6: debt and collateral of an existing account move only for its people.  A borrow, a
    withdrawal or a strategy on it returns only if its caller authorized the call and is
    the current holder of the account's token or an active manager appointed by that
    holder; grants of a previous holder do not count. *)
Theorem positions_move_for_owner_or_delegate (s : Sys W) env call caller id s' :
  acts_on call = Some (caller, id) -> dispatch env s call = Ok s' ->
  authorized env caller = true /\ entitled s id caller.
Proof using. apply acting_entitled. Qed.

(** While the controller is paused, supplying, borrowing, strategies, flash loans,
    accrual, revenue claims, threshold updates and delegations trap, whatever their
    arguments and whoever calls. *)
Theorem pause_stops_entry (s : Sys W) env call :
  i_paused (c_instance (sy_ctl s)) = true -> pausable call = true ->
  dispatch env s call = Err HostTrap.
Proof using. apply paused_fails. Qed.

(** C34: bad debt is written off only where there is some.  When cleanup returns, the account
    had debt worth more than its collateral, with at most the dust cap of collateral left
    unless the owner forced it; the account's metadata, positions and delegates are gone. *)
Theorem bad_debt_cleanup_correct (s : Sys W) env call id s' :
  (exists caller, call = CleanBadDebt caller id) \/ call = ForceSocializeBadDebt id ->
  dispatch env s call = Ok s' ->
  (exists a t f, Store.get_account s id = Ok a
     /\ Ctx.account_risk_totals env (Ctx.new s) (supply_positions a) (borrow_positions a) = Ok (t, f)
     /\ Risk.rt_total_collateral t < Risk.rt_total_debt t
     /\ (call <> ForceSocializeBadDebt id ->
          Risk.rt_total_collateral t <= LiqCurve.BAD_DEBT_USD_THRESHOLD))
  /\ Store.try_get_account_meta (sy_ctl s') id = None
  /\ Store.get_supply_positions (sy_ctl s') id = [] /\ Store.get_debt_positions (sy_ctl s') id = []
  /\ (forall o, Store.get_delegates (sy_ctl s') id o = []).
Proof using.
  intros Hc H.
  assert (exists gate, socialize_bad_debt env s id gate = Ok s'
    /\ (call <> ForceSocializeBadDebt id -> gate = DustCapped)) as (gate & Hs & Hg).
  { destruct Hc as [[caller ->]| ->]; simpl in H.
    - unfold clean_bad_debt, process_clean_bad_debt in H. do 2 apply rbind_Ok in H as (? & _ & H).
      by exists DustCapped.
    - apply ctl_owner_Ok in H as [H _]. apply rbind_Ok in H as (? & _ & H). by exists InsolventOnly. }
  apply socialize_removes in Hs as (R1 & R2 & R3 & R4 & a & t & f & Ha & _ & Ht & Hadm).
  unfold Store.try_get_account_meta, Store.get_supply_positions, Store.get_debt_positions,
    Store.get_delegates. rewrite R1, R2, R3, R4. split_and!; [|done..].
  exists a, t, f. unfold gate_admits, LiqCurve.is_socializable_bad_debt in Hadm. split_and!; [done..| |].
  - destruct gate; b2p; lia.
  - intros Hne. rewrite (Hg Hne) in Hadm. b2p. lia.
Qed.

(** a router never spends more than it was given.  When a swap returns, the router took
    at most [amount_in] of the input token, the controller received a positive amount of
    the output token, which is what the swap reports, and neither storage nor pool moved. *)
Theorem swap_is_bounded env (f : Flow W) refund_to token_in amount_in token_out swap out f' :
  swap_tokens env f refund_to token_in amount_in token_out swap = Ok (out, f') ->
  0 < amount_in /\ 0 < out
  /\ fl_ctl f' = fl_ctl f /\ fl_pool f' = fl_pool f
  /\ token_balance (fl_host f') token_out (current_contract_address env)
     = token_balance (fl_host f) token_out (current_contract_address env) + out
  /\ exists router w,
       execute_strategy (fl_host f) router (current_contract_address env) amount_in swap = Ok w
       /\ token_balance (fl_host f) token_in (current_contract_address env) - amount_in
          <= token_balance w token_in (current_contract_address env)
          <= token_balance (fl_host f) token_in (current_contract_address env).
Proof using. apply swap_Ok. Qed.

End Calls.

(** ** Applied to the sample system *)

Import Demo.

Lemma controller_books_balance_witness :
  total sup everyone (acs_supply (c_accounts (sy_ctl opened))) xlm_market
    = from_option user_shares 0 (market_of (sy_pool opened) xlm_market)
  /\ 0 < total sup everyone (acs_supply (c_accounts (sy_ctl opened))) xlm_market.
Proof.
  split; [|by vm_compute].
  pose proof (proj1 (controller_books_balance me opened opened_reachable) xlm_market) as H.
  destruct (market_of (sy_pool opened) xlm_market); apply H.
Defined.

Lemma stored_accounts_well_formed_witness :
  supply_ok (Store.get_supply_positions (sy_ctl opened) 2)
  /\ Store.get_supply_positions (sy_ctl opened) 2 <> [].
Proof.
  split; [|by vm_compute].
  apply (proj1 (stored_accounts_well_formed me opened opened_reachable) 2). by vm_compute.
Defined.

Definition lender_withdraw : Call := Withdraw lender 1 [(usdc_market, 10 ^ 9)] None.
Definition borrower_withdraw : Call := Withdraw borrower 2 [(xlm_market, 10 ^ 9)] None.
Definition after (s : Sys World) (c : Call) : Sys World :=
  Sample.ok_or s (dispatch (env_at 1000) s c).

Lemma unnamed_accounts_untouched_witness :
  acs_supply (c_accounts (sy_ctl (after opened lender_withdraw))) !! 2
  = acs_supply (c_accounts (sy_ctl opened)) !! 2.
Proof.
  refine (proj1 (proj2 (unnamed_accounts_untouched me opened (env_at 1000) lender_withdraw
    (after opened lender_withdraw) 2 (mkAccountMeta 1 Normal) opened_reachable I _ _ _))).
  - by vm_compute.
  - by vm_compute.
  - intros Hin. by apply list_elem_of_singleton in Hin.
Defined.

Lemma reentrancy_guard_witness :
  dispatch (env_at 1000) (with_ctl opened (Store.set_flash_loan_ongoing (sy_ctl opened) true))
    lender_withdraw = Err (EFlashLoan FlashLoanOngoing)
  /\ c_flash_ongoing (sy_ctl opened) = false.
Proof.
  split; [by vm_compute|]. exact (proj1 (reentrancy_guard me opened opened_reachable)).
Defined.

(** Nobody but the lender signs. *)
Definition lender_env : Env :=
  {| ledger_timestamp := 1000; current_contract_address := me;
     authorized := fun a => bool_decide (a = lender) |}.

Lemma configuration_needs_owner_witness :
  c_registry (sy_ctl (after opened lender_withdraw)) = c_registry (sy_ctl opened).
Proof.
  refine (proj2 (configuration_needs_owner me opened lender_env lender_withdraw
    (after opened lender_withdraw) opened_reachable _ _)).
  - by vm_compute.
  - intros o Ho. vm_compute in Ho. by injection Ho as <-.
Defined.

(** The lender has no right over the borrower's account; a supply of XLM tops it up. *)
Definition gifted : Sys World :=
  Sample.ok_or opened (let* (_, s) := supply (env_at 1000) opened router 2 1 [(xlm_market, 10 ^ 9)] in Ok s).

Lemma router_not_entitled : ~ entitled opened 2 router.
Proof.
  intros (nft & o & Hn & Ho & H). vm_compute in Hn. injection Hn as <-. vm_compute in Ho.
  injection Ho as <-. destruct H as [H|(g & cfg & Hm & _)]; [done|]. by vm_compute in Hm.
Qed.

Lemma outsiders_only_top_up_witness :
  map_get (Store.get_supply_positions (sy_ctl gifted) 2) usdc_market = None
  /\ sup (Store.get_supply_positions (sy_ctl opened) 2) xlm_market
     < sup (Store.get_supply_positions (sy_ctl gifted) 2) xlm_market.
Proof.
  split; [|by vm_compute].
  refine (proj2 (outsiders_only_top_up me opened (env_at 1000) router 2 1 [(xlm_market, 10 ^ 9)] 2
    gifted opened_reachable _ router_not_entitled _) usdc_market _); by vm_compute.
Defined.

Definition freeze : Call := SetSpokeAssetFlags 1 xlm_market false true false.
Definition frozen : Sys World := after opened freeze.
Definition thaw : Call := RelaxSpokeAssetFlags 1 xlm_market 2 false false false.

Lemma frozen_reachable : sys_reachable me frozen.
Proof.
  apply (run_reachable 1000 opened [freeze]); [exact opened_reachable|by repeat constructor|by vm_compute].
Defined.

Lemma listing_flags_ratchet_witness :
  (exists cfg, Store.get_spoke_asset (sy_ctl frozen) 1 xlm_market = Some cfg /\ sa_frozen cfg = true)
  /\ (exists cfg, Store.get_spoke_asset (sy_ctl (after frozen thaw)) 1 xlm_market = Some cfg
        /\ sa_frozen cfg = false)
  /\ Store.get_spoke_flags_epoch (sy_ctl (after frozen thaw)) 1 xlm_market = 3.
Proof.
  split_and!; [eexists; split; [by vm_compute|done]..|].
  destruct (listing_flags_ratchet me frozen (env_at 1000) thaw (after frozen thaw) frozen_reachable I)
    as [H|(sp & h & e & x & y & z & E & _ & H & _)]; [by vm_compute| |].
  - destruct (H 1 xlm_market (with_flags (config_of_args (listing xlm)) false true false) 1%nat)
      as [H1|(cfg & H1 & H2)]; [by vm_compute|done|by vm_compute in H1|].
    vm_compute in H1. by injection H1 as <-.
  - injection E as <- <- <- <- <- <-. exact H.
Defined.

Lemma risk_flows_end_within_limits_witness :
  within_limits (env_at 1000) (after opened borrower_withdraw) 2
  /\ 0 < deb (Store.get_debt_positions (sy_ctl (after opened borrower_withdraw)) 2) usdc_market.
Proof.
  split; [|by vm_compute].
  apply (risk_flows_end_within_limits me opened (env_at 1000) borrower_withdraw 2
    (after opened borrower_withdraw) opened_reachable).
  - exists borrower, [(xlm_market, 10 ^ 9)], None. by right.
  - by vm_compute.
Defined.

Lemma feeds_listed w l m x p :
  wd_feeds w l = Ok m -> m !! x = Some p ->
  wd_prices w !! x = Some p /\ 0 < pfr_price_wad p /\ valid_decimals (pfr_asset_decimals p).
Proof.
  intros H. revert x p. revert H. unfold wd_feeds.
  apply (rfold_inv (fun m => forall x p, m !! x = Some p -> wd_prices w !! x = Some p
    /\ 0 < pfr_price_wad p /\ valid_decimals (pfr_asset_decimals p)));
    [|intros x p; by rewrite lookup_empty].
  intros m1 y m2 _ IH Hs x p Hx. apply rbind_Ok in Hs as (q & Hq & Hs).
  apply rbind_Ok in Hs as (u & Hu & Hs). injection Hs as <-. apply require_Ok in Hu. b2p.
  apply of_option_Ok in Hq. apply lookup_insert_Some in Hx as [[<- <-]|[_ Hx]]; [|by apply IH].
  split_and!; [done|lia..].
Qed.

#[local] Instance world_quotes : StableQuotes World.
Proof.
  split; simpl.
  - intros w _ l l' m m' x p p' H H' Hx Hx'. pose proof (feeds_listed _ _ _ _ _ H Hx) as [? _].
    pose proof (feeds_listed _ _ _ _ _ H' Hx') as [? _]. congruence.
  - intros w nft to id w' _ l H. unfold wd_mint in H. destruct (_ && _); [|done].
    by injection H as <- <-.
Defined.

#[local] Instance world_prices : ListedPrices World.
Proof. split. intros w agg l m H x p Hx. exact (proj2 (feeds_listed _ _ _ _ _ H Hx)). Defined.

Lemma liquidation_is_announced_witness :
  can_be_liquidated (env_at 1000) distressed 2 = Ok true.
Proof.
  refine (proj1 (liquidation_is_announced me distressed (env_at 1000) liquidator 2
    [(usdc_market, 10 ^ 9)] 0 (after distressed (Liquidate liquidator 2 [(usdc_market, 10 ^ 9)] SeizeTransfer))
    (crash_reachable _ _ opened_reachable) _)). by vm_compute.
Defined.

Lemma fresh_position_not_liquidatable_witness :
  liquidate (env_at 1000) (after opened borrower_withdraw) liquidator 2
    [(usdc_market, 10 ^ 9)] SeizeTransfer = Err (ECollateral HealthFactorTooHigh)
  /\ liquidate (env_at 1000) (after opened borrower_withdraw) liquidator 2
       [(usdc_market, 10 ^ 9)] SeizeTransfer <> Ok (0, opened).
Proof.
  split; [by vm_compute|].
  apply (fresh_position_not_liquidatable me opened (env_at 1000) borrower_withdraw 2
    (after opened borrower_withdraw) (env_at 1000) liquidator _ _ 0 opened opened_reachable);
    [|by vm_compute|done].
  exists borrower, [(xlm_market, 10 ^ 9)], None. by right.
Defined.

Lemma positions_move_for_owner_or_delegate_witness : entitled opened 2 borrower.
Proof.
  refine (proj2 (positions_move_for_owner_or_delegate opened (env_at 1000) borrower_withdraw borrower 2
    (after opened borrower_withdraw) _ _)); by vm_compute.
Defined.

Lemma pause_stops_entry_witness :
  dispatch (env_at 1000) (after opened Pause) (Supply lender 1 1 [(usdc_market, 1)]) = Err HostTrap.
Proof.
  refine (pause_stops_entry (after opened Pause) (env_at 1000) _ _ _); by vm_compute.
Defined.

(** XLM worthless, the borrower's debt is bad. *)
Definition ruined : Sys World := crash opened 1.

Lemma bad_debt_cleanup_correct_witness :
  Store.try_get_account_meta (sy_ctl ruined) 2 <> None
  /\ Store.try_get_account_meta (sy_ctl (after ruined (CleanBadDebt liquidator 2))) 2 = None.
Proof.
  split; [by vm_compute|].
  refine (proj1 (proj2 (bad_debt_cleanup_correct ruined (env_at 1000) (CleanBadDebt liquidator 2) 2
    (after ruined (CleanBadDebt liquidator 2)) _ _))).
  - left. by exists liquidator.
  - by vm_compute.
Defined.

(** The controller swaps a thousand USDC units it holds. *)
Definition funded : Flow World :=
  Ctx.new (with_host opened (with_balances (sy_host opened)
    (<[(usdc, me) := 1000]> (wd_balances (sy_host opened))))).

Lemma swap_is_bounded_witness :
  exists f', swap_tokens (env_at 1000) funded lender usdc 1000 xlm [2%N; 6%N] = Ok (1000, f')
    /\ fl_pool f' = fl_pool funded.
Proof.
  assert (exists f', swap_tokens (env_at 1000) funded lender usdc 1000 xlm [2%N; 6%N] = Ok (1000, f'))
    as [f' Hf] by (eexists; vm_compute; reflexivity).
  exists f'. split; [exact Hf|].
  exact (proj1 (proj2 (proj2 (proj2 (swap_is_bounded (env_at 1000) funded lender usdc 1000 xlm
    [2%N; 6%N] 1000 f' Hf))))).
Defined.
