(* ===== verification/KeeperKeys.v ===== *)
(** * The keeper's ledger keys (services/keeper/src/keys.rs, classify.rs)

    The keeper renews the protocol's ledger entries, so it rebuilds every storage key from
    the outside.  [ScVal] and [LedgerKey] are the XDR values it works with; each enum of
    keys.rs is an inductive type with its [to_sc_val].  A failed conversion carries its
    message.

    The theorems at the end: no two keys the keeper builds have the same encoding, each is
    counted in its own group on the dashboard, and the price keys it reads back from the
    aggregator decode to what was encoded. *)

From S2P Require Import Prelude Errors FpCore.
From stdpp Require Import base numbers list gmap strings.
From Stdlib Require Import ZArith Lia Bool.

Open Scope Z_scope.

Abbreviation ares A := (result string A).

(** A 32-byte id: a contract, a Wasm hash or an ed25519 key. *)
Abbreviation Id := (list Z).

(** ** XDR values *)

Inductive ScAddress : Type :=
| ScContract (id : Id)
| ScAccount (key : Id).

#[export] Instance sc_address_dec : EqDecision ScAddress.
Proof. solve_decision. Defined.

Inductive ContractExecutable : Type :=
| ExecWasm (hash : Id)
| ExecStellarAsset
| ExecExternalRef (owner : ScAddress) (tag : N).

#[export] Instance executable_dec : EqDecision ContractExecutable.
Proof. solve_decision. Defined.

(** The variants the services build or read; any other is [ScOther].  Wide integers are
    their 64-bit parts, as in XDR. *)
Inductive ScVal : Type :=
| ScVoid
| ScBool (b : bool)
| ScU32 (n : Z)
| ScI32 (n : Z)
| ScU64 (n : Z)
| ScI64 (n : Z)
| ScU128 (hi lo : Z)
| ScI128 (hi lo : Z)
| ScI256 (hi_hi hi_lo lo_hi lo_lo : Z)
| ScBytes (l : list Z)
| ScString (s : string)
| ScSymbol (s : string)
| ScAddressVal (a : ScAddress)
| ScVec (l : option (list ScVal))
| ScMap (l : option (list (ScVal * ScVal)))
| ScInstance (executable : ContractExecutable) (storage : option (list (ScVal * ScVal)))
| ScLedgerKeyContractInstance
| ScOther (n : N).

#[export] Instance sc_val_dec : EqDecision ScVal.
Proof.
  refine (fix go x y := let _ : EqDecision ScVal := @go in
    match x, y with
    | ScVoid, ScVoid => left _
    | ScBool a, ScBool b => cast_if (decide (a = b))
    | ScU32 a, ScU32 b => cast_if (decide (a = b))
    | ScI32 a, ScI32 b => cast_if (decide (a = b))
    | ScU64 a, ScU64 b => cast_if (decide (a = b))
    | ScI64 a, ScI64 b => cast_if (decide (a = b))
    | ScU128 a b, ScU128 c d => cast_if_and (decide (a = c)) (decide (b = d))
    | ScI128 a b, ScI128 c d => cast_if_and (decide (a = c)) (decide (b = d))
    | ScI256 a b c d, ScI256 e f g h =>
        cast_if_and4 (decide (a = e)) (decide (b = f)) (decide (c = g)) (decide (d = h))
    | ScBytes a, ScBytes b => cast_if (decide (a = b))
    | ScString a, ScString b => cast_if (decide (a = b))
    | ScSymbol a, ScSymbol b => cast_if (decide (a = b))
    | ScAddressVal a, ScAddressVal b => cast_if (decide (a = b))
    | ScVec a, ScVec b => cast_if (decide (a = b))
    | ScMap a, ScMap b => cast_if (decide (a = b))
    | ScInstance e a, ScInstance f b => cast_if_and (decide (e = f)) (decide (a = b))
    | ScLedgerKeyContractInstance, ScLedgerKeyContractInstance => left _
    | ScOther a, ScOther b => cast_if (decide (a = b))
    | _, _ => right _
    end); congruence.
Defined.

Inductive Durability : Type := Temporary | Persistent.

#[export] Instance durability_dec : EqDecision Durability.
Proof. solve_decision. Defined.

Inductive LedgerKey : Type :=
| ContractData (contract : ScAddress) (key : ScVal) (durability : Durability)
| ContractCode (hash : Id).

#[export] Instance ledger_key_dec : EqDecision LedgerKey.
Proof. solve_decision. Defined.

(** [LedgerEntryData], as far as it is read. *)
Inductive LedgerEntryData : Type :=
| DataEntry (val : ScVal)
| OtherEntry (n : N).

(** stellar/client.rs *)
Record LedgerEntryQuery : Type := mkRow {
  lq_key : LedgerKey;
  lq_value : option LedgerEntryData;
  lq_live_until : option Z
}.

Module Keys.

(** ** Building values *)

(** [VecM::try_from]: XDR vectors hold at most [u32::MAX] elements. *)
Definition vec_m {A : Type} (l : list A) (message : string) : ares (list A) :=
  if Z.of_nat (length l) <=? u32_max then Ok l else Err message.

(** A symbol is a [StringM<32>]. *)
Definition symbol (text : string) : ares string :=
  if (String.length text <=? 32)%nat then Ok text else Err "symbol exceeds 32 bytes"%string.

Definition symbol_val (text : string) : ares ScVal :=
  let* s := symbol text in
  Ok (ScSymbol s).

Definition sc_enum (variant : string) (args : list ScVal) : ares ScVal :=
  let* s := symbol variant in
  let* elems := vec_m (ScSymbol s :: args) "too many args for ScVec" in
  Ok (ScVec (Some elems)).

Definition sc_address_contract (contract : Id) : ScVal := ScAddressVal (ScContract contract).

Record HubAssetKey : Type := mkHubKey { hk_hub_id : Z; hk_asset : Id }.

#[export] Instance hub_key_dec : EqDecision HubAssetKey.
Proof. solve_decision. Defined.

Definition hub_asset_key_sc_val (h : HubAssetKey) : ares ScVal :=
  let* k1 := symbol_val "asset" in
  let* k2 := symbol_val "hub_id" in
  let* entries := vec_m [(k1, sc_address_contract (hk_asset h)); (k2, ScU32 (hk_hub_id h))]
                    "hub asset map convert" in
  Ok (ScMap (Some entries)).

Definition role_account_key_map (role : string) (index : Z) : ares ScVal :=
  let* k1 := symbol_val "index" in
  let* k2 := symbol_val "role" in
  let* v2 := symbol_val role in
  let* entries := vec_m [(k1, ScU32 index); (k2, v2)] "role-account map convert" in
  Ok (ScMap (Some entries)).

Definition contract_data_key (contract_id : Id) (key : ScVal) (durability : Durability) : LedgerKey :=
  ContractData (ScContract contract_id) key durability.

Definition contract_instance_key (contract_id : Id) : LedgerKey :=
  contract_data_key contract_id ScLedgerKeyContractInstance Persistent.

Definition contract_code_key (wasm_hash : Id) : LedgerKey := ContractCode wasm_hash.

(** ** The enums of storage keys *)

Inductive ControllerPersistentKey : Type :=
| Hub (id : Z)
| Spoke (id : Z)
| SpokeAsset (spoke : Z) (h : HubAssetKey)
| SpokeUsage (spoke : Z) (h : HubAssetKey)
| SpokeFlagsEpoch (spoke : Z) (h : HubAssetKey)
| PositionManager (manager : ScAddress)
| BlendPoolAllowed (pool : ScAddress).

Definition controller_sc_val (k : ControllerPersistentKey) : ares ScVal :=
  match k with
  | Hub id => sc_enum "Hub" [ScU32 id]
  | Spoke id => sc_enum "Spoke" [ScU32 id]
  | SpokeAsset spoke h => let* v := hub_asset_key_sc_val h in sc_enum "SpokeAsset" [ScU32 spoke; v]
  | SpokeUsage spoke h => let* v := hub_asset_key_sc_val h in sc_enum "SpokeUsage" [ScU32 spoke; v]
  | SpokeFlagsEpoch spoke h =>
      let* v := hub_asset_key_sc_val h in sc_enum "SpokeFlagsEpoch" [ScU32 spoke; v]
  | PositionManager m => sc_enum "PositionManager" [ScAddressVal m]
  | BlendPoolAllowed p => sc_enum "BlendPoolAllowed" [ScAddressVal p]
  end.

Inductive AggregatorPriceKey : Type :=
| PriceToken (id : Id)
| PriceRef (name : string).

Definition price_key_sc_val (k : AggregatorPriceKey) : ares ScVal :=
  match k with
  | PriceToken id => sc_enum "Token" [sc_address_contract id]
  | PriceRef name => let* v := symbol_val name in sc_enum "Ref" [v]
  end.

Inductive PriceAggregatorPersistentKey : Type :=
| Oracle (k : AggregatorPriceKey).

Definition aggregator_sc_val (k : PriceAggregatorPersistentKey) : ares ScVal :=
  match k with Oracle k => let* v := price_key_sc_val k in sc_enum "Oracle" [v] end.

Inductive ControllerUserKey : Type :=
| AccountMeta (id : Z)
| SupplyPositions (id : Z)
| BorrowPositions (id : Z)
| Delegates (id : Z).

Definition user_sc_val (k : ControllerUserKey) : ares ScVal :=
  match k with
  | AccountMeta id => sc_enum "AccountMeta" [ScU64 id]
  | SupplyPositions id => sc_enum "SupplyPositions" [ScU64 id]
  | BorrowPositions id => sc_enum "BorrowPositions" [ScU64 id]
  | Delegates id => sc_enum "Delegates" [ScU64 id]
  end.

Inductive AccessControlPersistentKey : Type :=
| ExistingRoles
| RoleAccountsCount (role : string)
| RoleAccounts (role : string) (index : Z)
| HasRole (account : ScAddress) (role : string)
| RoleAdmin (role : string).

Definition access_sc_val (k : AccessControlPersistentKey) : ares ScVal :=
  match k with
  | ExistingRoles => sc_enum "ExistingRoles" []
  | RoleAccountsCount role => let* v := symbol_val role in sc_enum "RoleAccountsCount" [v]
  | RoleAccounts role i => let* v := role_account_key_map role i in sc_enum "RoleAccounts" [v]
  | HasRole a role => let* v := symbol_val role in sc_enum "HasRole" [ScAddressVal a; v]
  | RoleAdmin role => let* v := symbol_val role in sc_enum "RoleAdmin" [v]
  end.

Inductive PoolPersistentKey : Type :=
| Params (h : HubAssetKey)
| State (h : HubAssetKey).

Definition pool_sc_val (k : PoolPersistentKey) : ares ScVal :=
  match k with
  | Params h => let* v := hub_asset_key_sc_val h in sc_enum "Params" [v]
  | State h => let* v := hub_asset_key_sc_val h in sc_enum "State" [v]
  end.

Inductive OracleAdapterKey : Type :=
| AssetCount
| FeedCount
| AssetAt (i : Z)
| FeedAt (i : Z)
| AssetIndex (v : ScVal)
| FeedMapping (v : ScVal)
| FeedOwner (v : ScVal)
| FeedIndex (v : ScVal)
| CurrentAggregate (v : ScVal)
| History (v : ScVal)
| LatestSubmission (v : ScVal) (signer : ScAddress)
| SignerFeeds (signer : ScAddress).

Definition adapter_sc_val (k : OracleAdapterKey) : ares ScVal :=
  match k with
  | AssetCount => sc_enum "AssetCount" []
  | FeedCount => sc_enum "FeedCount" []
  | AssetAt i => sc_enum "AssetAt" [ScU32 i]
  | FeedAt i => sc_enum "FeedAt" [ScU32 i]
  | AssetIndex v => sc_enum "AssetIndex" [v]
  | FeedMapping v => sc_enum "FeedMapping" [v]
  | FeedOwner v => sc_enum "FeedOwner" [v]
  | FeedIndex v => sc_enum "FeedIndex" [v]
  | CurrentAggregate v => sc_enum "CurrentAggregate" [v]
  | History v => sc_enum "History" [v]
  | LatestSubmission v signer => sc_enum "LatestSubmission" [v; ScAddressVal signer]
  | SignerFeeds signer => sc_enum "SignerFeeds" [ScAddressVal signer]
  end.

Inductive PositionNftUserKey : Type :=
| Owner (token_id : Z).

Definition nft_sc_val (k : PositionNftUserKey) : ares ScVal :=
  match k with Owner id => sc_enum "Owner" [ScU32 id] end.

Inductive ControllerInstanceKey : Type := IkPool | IkPositionNft | IkLastHubId | IkLastSpokeId.

Definition instance_variant_name (k : ControllerInstanceKey) : string :=
  match k with
  | IkPool => "Pool"
  | IkPositionNft => "PositionNft"
  | IkLastHubId => "LastHubId"
  | IkLastSpokeId => "LastSpokeId"
  end.

Definition ORACLE_KEYS : string := "OracleKeys".
Definition TOKEN_ID_COUNTER : string := "TokenIdCounter".

(** Every kind of persistent key; [to_ledger_key] is the same for all of them. *)
Inductive StorageKey : Type :=
| KController (k : ControllerPersistentKey)
| KAggregator (k : PriceAggregatorPersistentKey)
| KUser (k : ControllerUserKey)
| KAccess (k : AccessControlPersistentKey)
| KPool (k : PoolPersistentKey)
| KAdapter (k : OracleAdapterKey)
| KNft (k : PositionNftUserKey).

Definition to_sc_val (k : StorageKey) : ares ScVal :=
  match k with
  | KController k => controller_sc_val k
  | KAggregator k => aggregator_sc_val k
  | KUser k => user_sc_val k
  | KAccess k => access_sc_val k
  | KPool k => pool_sc_val k
  | KAdapter k => adapter_sc_val k
  | KNft k => nft_sc_val k
  end.

Definition to_ledger_key (k : StorageKey) (contract_id : Id) : ares LedgerKey :=
  let* v := to_sc_val k in
  Ok (contract_data_key contract_id v Persistent).

(** discovery.rs [decode_price_key] *)
Definition decode_price_key (value : ScVal) : ares AggregatorPriceKey :=
  match value with
  | ScVec (Some parts) =>
      match parts with
      | [ScSymbol variant; payload] =>
          if bool_decide (variant = "Token"%string) then
            match payload with
            | ScAddressVal (ScContract id) => Ok (PriceToken id)
            | _ => Err "PriceKey::Token payload is not a contract address"%string
            end
          else if bool_decide (variant = "Ref"%string) then
            match payload with
            | ScSymbol name => Ok (PriceRef name)
            | _ => Err "PriceKey::Ref payload is not a symbol"%string
            end
          else Err "unknown PriceKey variant"%string
      | _ => Err "PriceKey has an unexpected shape"%string
      end
  | _ => Err "PriceKey is not an enum vec"%string
  end.

End Keys.

(** ** Groups (classify.rs) *)

Module Classify.

Import Keys.

Inductive KeyClass : Type :=
| PerAsset | SpokeClass | PerUser | Roles | Governance | OracleClass | OracleFeed
| InstanceClass | WasmCode | OtherClass.

#[export] Instance key_class_dec : EqDecision KeyClass.
Proof. solve_decision. Defined.

Definition title (c : KeyClass) : string :=
  match c with
  | PerAsset => "PER-ASSET" | SpokeClass => "HUB & SPOKE" | PerUser => "PER-USER"
  | Roles => "ROLES" | Governance => "GOVERNANCE" | OracleClass => "ORACLE"
  | OracleFeed => "ORACLE FEED" | InstanceClass => "INSTANCE" | WasmCode => "WASM CODE"
  | OtherClass => "OTHER"
  end.

Definition label (c : KeyClass) : string :=
  match c with
  | PerAsset => "per_asset" | SpokeClass => "hub_spoke" | PerUser => "per_user"
  | Roles => "roles" | Governance => "governance" | OracleClass => "oracle"
  | OracleFeed => "oracle_feed" | InstanceClass => "instance" | WasmCode => "wasm_code"
  | OtherClass => "other"
  end.

(** discovery.rs [ContractIds] *)
Record ContractIds : Type := mkIds {
  ci_controller : Id;
  ci_pool_wasm_hash : Id;
  ci_flash_receiver : option Id;
  ci_governance : option Id;
  ci_xoxno_oracle_adapter : option Id;
  ci_price_aggregator : option Id;
  ci_redstone_adapter : option Id;
  ci_swap_router : option Id
}.

(** [{:02x}] of a byte *)
Definition hex_digit (d : Z) : string :=
  String.substring (Z.to_nat d) 1 "0123456789abcdef".
Definition hex_byte (b : Z) : string := (hex_digit (b / 16) +:+ hex_digit (b mod 16))%string.

Fixpoint named_label (l : list (option Id * string)) (id : Id) : option string :=
  match l with
  | [] => None
  | (candidate, name) :: l => if bool_decide (candidate = Some id) then Some name else named_label l id
  end.

Definition contract_label (key : LedgerKey) (ids : ContractIds) (pool_id position_nft_id : option Id)
    : string :=
  match key with
  | ContractCode _ => "wasm_code"
  | ContractData (ScAccount _) _ _ => "unknown"
  | ContractData (ScContract id) _ _ =>
      match named_label
        [(Some (ci_controller ids), "controller"); (ci_governance ids, "governance");
         (ci_price_aggregator ids, "price_aggregator");
         (ci_xoxno_oracle_adapter ids, "xoxno_oracle_adapter");
         (ci_flash_receiver ids, "flash_loan_receiver");
         (ci_redstone_adapter ids, "redstone_adapter"); (ci_swap_router ids, "swap_router");
         (pool_id, "pool"); (position_nft_id, "position_nft")]%string id with
      | Some name => name
      | None => "other_" +:+ hex_byte (nth 0 id 0) +:+ hex_byte (nth 1 id 0)
                  +:+ hex_byte (nth 2 id 0) +:+ hex_byte (nth 3 id 0)
      end
  end.

Definition role_variants : list string :=
  ["ExistingRoles"; "RoleAccountsCount"; "RoleAccounts"; "HasRole"; "RoleAdmin"]%string.
Definition user_variants : list string :=
  ["AccountMeta"; "SupplyPositions"; "BorrowPositions"; "Delegates"]%string.
Definition feed_variants : list string :=
  ["AssetCount"; "FeedCount"; "AssetAt"; "FeedAt"; "AssetIndex"; "FeedMapping"; "FeedOwner";
   "FeedIndex"; "CurrentAggregate"; "History"; "LatestSubmission"; "SignerFeeds"]%string.
Definition asset_variants : list string := ["Market"; "Params"; "State"]%string.
Definition spoke_variants : list string :=
  ["Hub"; "Spoke"; "SpokeAsset"; "SpokeUsage"; "SpokeFlagsEpoch"; "PositionManager";
   "BlendPoolAllowed"]%string.

Definition mem (v : string) (l : list string) : bool := bool_decide (v ∈ l).

(** The storage key's variant: the symbol heading its vector. *)
Definition variant_of (key : ScVal) : option string :=
  match key with
  | ScVec (Some (ScSymbol s :: _)) => Some s
  | _ => None
  end.

Definition classify_persistent (row : LedgerEntryQuery) (controller_id : Id)
    (governance_id : option Id) : KeyClass :=
  match lq_key row with
  | ContractCode _ => OtherClass
  | ContractData contract key _ =>
      let on (id : option Id) :=
        match contract with ScContract b => bool_decide (Some b = id) | ScAccount _ => false end in
      let on_governance := on governance_id in
      let on_controller := on (Some controller_id) in
      let other := if on_governance then Governance else OtherClass in
      match variant_of key with
      | Some v =>
          if mem v role_variants then (if on_governance then Governance else Roles)
          else if mem v user_variants && on_controller then PerUser
          else if mem v ["Owner"%string] then PerUser
          else if mem v ["Oracle"%string] then OracleClass
          else if mem v feed_variants then OracleFeed
          else if mem v asset_variants then PerAsset
          else if mem v spoke_variants then SpokeClass
          else other
      | None => other
      end
  end.

End Classify.

(** ** Theorems *)

Module KeyProps.

Import Keys Classify.

Definition hub_val (h : HubAssetKey) : ScVal :=
  ScMap (Some [(ScSymbol "asset", sc_address_contract (hk_asset h));
               (ScSymbol "hub_id", ScU32 (hk_hub_id h))]).

(** The variant name and arguments of a key's encoding. *)
Definition shape (k : StorageKey) : string * list ScVal :=
  match k with
  | KController (Hub id) => ("Hub", [ScU32 id])
  | KController (Spoke id) => ("Spoke", [ScU32 id])
  | KController (SpokeAsset sp h) => ("SpokeAsset", [ScU32 sp; hub_val h])
  | KController (SpokeUsage sp h) => ("SpokeUsage", [ScU32 sp; hub_val h])
  | KController (SpokeFlagsEpoch sp h) => ("SpokeFlagsEpoch", [ScU32 sp; hub_val h])
  | KController (PositionManager m) => ("PositionManager", [ScAddressVal m])
  | KController (BlendPoolAllowed p) => ("BlendPoolAllowed", [ScAddressVal p])
  | KAggregator (Oracle (PriceToken id)) =>
      ("Oracle", [ScVec (Some [ScSymbol "Token"; sc_address_contract id])])
  | KAggregator (Oracle (PriceRef name)) =>
      ("Oracle", [ScVec (Some [ScSymbol "Ref"; ScSymbol name])])
  | KUser (AccountMeta id) => ("AccountMeta", [ScU64 id])
  | KUser (SupplyPositions id) => ("SupplyPositions", [ScU64 id])
  | KUser (BorrowPositions id) => ("BorrowPositions", [ScU64 id])
  | KUser (Delegates id) => ("Delegates", [ScU64 id])
  | KAccess ExistingRoles => ("ExistingRoles", [])
  | KAccess (RoleAccountsCount r) => ("RoleAccountsCount", [ScSymbol r])
  | KAccess (RoleAccounts r i) =>
      ("RoleAccounts", [ScMap (Some [(ScSymbol "index", ScU32 i); (ScSymbol "role", ScSymbol r)])])
  | KAccess (HasRole a r) => ("HasRole", [ScAddressVal a; ScSymbol r])
  | KAccess (RoleAdmin r) => ("RoleAdmin", [ScSymbol r])
  | KPool (Params h) => ("Params", [hub_val h])
  | KPool (State h) => ("State", [hub_val h])
  | KAdapter AssetCount => ("AssetCount", [])
  | KAdapter FeedCount => ("FeedCount", [])
  | KAdapter (AssetAt i) => ("AssetAt", [ScU32 i])
  | KAdapter (FeedAt i) => ("FeedAt", [ScU32 i])
  | KAdapter (AssetIndex v) => ("AssetIndex", [v])
  | KAdapter (FeedMapping v) => ("FeedMapping", [v])
  | KAdapter (FeedOwner v) => ("FeedOwner", [v])
  | KAdapter (FeedIndex v) => ("FeedIndex", [v])
  | KAdapter (CurrentAggregate v) => ("CurrentAggregate", [v])
  | KAdapter (History v) => ("History", [v])
  | KAdapter (LatestSubmission v s) => ("LatestSubmission", [v; ScAddressVal s])
  | KAdapter (SignerFeeds s) => ("SignerFeeds", [ScAddressVal s])
  | KNft (Owner id) => ("Owner", [ScU32 id])
  end%string.

Definition enum_val (p : string * list ScVal) : ScVal := ScVec (Some (ScSymbol p.1 :: p.2)).

Lemma symbol_Ok t s : symbol t = Ok s -> s = t.
Proof. unfold symbol. destruct (_ <=? _)%nat; [|done]. intros E. by injection E as <-. Qed.
Lemma symbol_val_Ok t v : symbol_val t = Ok v -> v = ScSymbol t.
Proof.
  intros H. unfold symbol_val in H. apply rbind_Ok in H as (s & Hs & H). apply symbol_Ok in Hs as ->.
  by injection H as <-.
Qed.
Lemma vec_m_Ok {A} (l r : list A) m : vec_m l m = Ok r -> r = l.
Proof. unfold vec_m. destruct (_ <=? _); [|done]. intros E. by injection E as <-. Qed.

Lemma sc_enum_Ok n args v : sc_enum n args = Ok v -> v = enum_val (n, args).
Proof.
  intros H. unfold sc_enum in H. apply rbind_Ok in H as (s & Hs & H). apply symbol_Ok in Hs as ->.
  apply rbind_Ok in H as (e & He & H). apply vec_m_Ok in He as ->. by injection H as <-.
Qed.

Lemma hub_val_Ok h v : hub_asset_key_sc_val h = Ok v -> v = hub_val h.
Proof. intros H. vm_compute in H. by injection H as <-. Qed.

Lemma role_map_Ok r i v : role_account_key_map r i = Ok v ->
  v = ScMap (Some [(ScSymbol "index", ScU32 i); (ScSymbol "role", ScSymbol r)]).
Proof.
  intros H. unfold role_account_key_map in H. cbn [symbol_val symbol rbind] in H.
  apply rbind_Ok in H as (k1 & H1 & H). apply symbol_val_Ok in H1 as ->.
  apply rbind_Ok in H as (k2 & H2 & H). apply symbol_val_Ok in H2 as ->.
  apply rbind_Ok in H as (k3 & H3 & H). apply symbol_val_Ok in H3 as ->.
  apply rbind_Ok in H as (e & He & H). apply vec_m_Ok in He as ->. by injection H as <-.
Qed.

Lemma price_val_Ok k v : price_key_sc_val k = Ok v ->
  v = match k with
      | PriceToken id => enum_val ("Token"%string, [sc_address_contract id])
      | PriceRef name => enum_val ("Ref"%string, [ScSymbol name])
      end.
Proof.
  intros H. destruct k as [id|name]; cbn [price_key_sc_val] in H; [by apply sc_enum_Ok|].
  apply rbind_Ok in H as (s & Hs & H). apply symbol_val_Ok in Hs as ->. by apply sc_enum_Ok.
Qed.

Ltac sc_step :=
  match goal with
  | H : rbind _ _ = Ok _ |- _ => apply rbind_Ok in H as (? & ? & H)
  | H : sc_enum _ _ = Ok _ |- _ => apply sc_enum_Ok in H as ->
  | H : hub_asset_key_sc_val _ = Ok _ |- _ => apply hub_val_Ok in H as ->
  | H : symbol_val _ = Ok _ |- _ => apply symbol_val_Ok in H as ->
  | H : role_account_key_map _ _ = Ok _ |- _ => apply role_map_Ok in H as ->
  | H : price_key_sc_val _ = Ok _ |- _ => apply price_val_Ok in H as ->
  end.

(** Whatever the keeper manages to encode has its key's shape. *)
Lemma to_sc_val_shape k v : to_sc_val k = Ok v -> v = enum_val (shape k).
Proof.
  intros H. destruct k as [[]|[[]]|[]|[]|[]|[]|[]]; cbn [to_sc_val] in H;
    cbn [controller_sc_val aggregator_sc_val user_sc_val access_sc_val pool_sc_val
         adapter_sc_val nft_sc_val] in H; repeat sc_step; reflexivity.
Qed.

Lemma shape_inj k k' : shape k = shape k' -> k = k'.
Proof.
  intros H. destruct k as [[]|[[]]|[]|[]|[]|[]|[]], k' as [[]|[[]]|[]|[]|[]|[]|[]];
    cbn [shape] in H; try discriminate H; try reflexivity;
    injection H; clear H; intros;
    subst; try reflexivity.
  all: match goal with a : HubAssetKey, b : HubAssetKey |- _ => destruct a, b end; simpl in *;
    by subst.
Qed.

(** The ledger keys the keeper builds never collide: two storage keys of any of the
    protocol's contracts (controller, pool, aggregator, oracle adapter, access control,
    NFT) that encode to the same ledger key are the same key of the same contract. *)
Theorem storage_keys_distinct k1 k2 id1 id2 key :
  to_ledger_key k1 id1 = Ok key -> to_ledger_key k2 id2 = Ok key -> k1 = k2 /\ id1 = id2.
Proof.
  unfold to_ledger_key. intros H1 H2.
  apply rbind_Ok in H1 as (v1 & E1 & H1). apply rbind_Ok in H2 as (v2 & E2 & H2).
  injection H1 as <-. injection H2 as E3 E4.
  apply to_sc_val_shape in E1 as ->, E2 as ->. split; [|done]. symmetry. apply shape_inj.
  unfold enum_val in E4. injection E4 as E4 E5. destruct (shape k1), (shape k2). simpl in *. congruence.
Qed.

(** The group a key belongs to. *)
Definition group (k : StorageKey) (on_governance : bool) : KeyClass :=
  match k with
  | KController _ => SpokeClass
  | KAggregator _ => OracleClass
  | KUser _ | KNft _ => PerUser
  | KAccess _ => if on_governance then Governance else Roles
  | KPool _ => PerAsset
  | KAdapter _ => OracleFeed
  end.

(** Every persistent key the keeper builds is counted in its own group, whatever the
    entry's value: listings and registries under hub and spoke, pool rows per asset, account
    rows (of the controller) and NFT owners per user, access-control rows as governance or
    roles by their contract, oracle configurations and feeds in theirs.  None falls into
    the group of unrecognised entries. *)
Theorem persistent_keys_classified k contract key value live ctl gov :
  to_ledger_key k contract = Ok key ->
  match k with KUser _ => contract = ctl | _ => True end ->
  classify_persistent (mkRow key value live) ctl gov = group k (bool_decide (Some contract = gov))
  /\ classify_persistent (mkRow key value live) ctl gov <> OtherClass.
Proof.
  intros H Hc. unfold to_ledger_key in H. apply rbind_Ok in H as (v & Hv & H). injection H as <-.
  apply to_sc_val_shape in Hv as ->.
  assert (classify_persistent (mkRow (contract_data_key contract (enum_val (shape k)) Persistent)
            value live) ctl gov = group k (bool_decide (Some contract = gov))) as E.
  { unfold classify_persistent, contract_data_key, enum_val. cbn [lq_key].
    destruct k as [[]|[[]]|[]|[]|[]|[]|[]]; subst; cbn [variant_of shape fst snd];
      try reflexivity; (rewrite (bool_decide_true (Some ctl = Some ctl)) by done; reflexivity). }
  split; [exact E|]. rewrite E. destruct k; try discriminate. simpl. by destruct (bool_decide _).
Qed.

(** Reading the aggregator's key index back is exact: a price key decodes from its
    encoding, and a value that decodes to a key is that key's encoding, so renewal covers
    the stored oracle rows and nothing else. *)
Theorem price_key_roundtrip v k w :
  (price_key_sc_val k = Ok v -> decode_price_key v = Ok k)
  /\ (decode_price_key v = Ok k -> price_key_sc_val k = Ok w -> w = v).
Proof.
  split.
  - intros H. apply price_val_Ok in H as ->. by destruct k.
  - intros H Hw. apply price_val_Ok in Hw as ->. unfold decode_price_key in H.
    destruct v; try discriminate H. destruct l as [[|t [|p []]]|]; try discriminate H.
    all: destruct t; try discriminate H.
    destruct (bool_decide_reflect (s = "Token"%string)) as [->|].
    + destruct p; try discriminate H. destruct a; try discriminate H. by injection H as <-.
    + destruct (bool_decide_reflect (s = "Ref"%string)) as [->|]; [|discriminate H].
      destruct p; try discriminate H. by injection H as <-.
Qed.

Lemma storage_keys_distinct_witness :
  exists key, to_ledger_key (KController (Hub 1)) [7] = Ok key
    /\ KController (Hub 1) = KController (Hub 1).
Proof.
  eexists. split; [reflexivity|].
  exact (proj1 (storage_keys_distinct (KController (Hub 1)) (KController (Hub 1)) [7] [7] _
                  eq_refl eq_refl)).
Defined.

Lemma persistent_keys_classified_witness :
  exists key, to_ledger_key (KUser (AccountMeta 3)) [7] = Ok key
    /\ classify_persistent (mkRow key None None) [7] None = PerUser.
Proof.
  eexists. split; [reflexivity|].
  exact (proj1 (persistent_keys_classified (KUser (AccountMeta 3)) [7] _ None None [7] None
                  eq_refl eq_refl)).
Defined.

Lemma price_key_roundtrip_witness :
  decode_price_key (ScVec (Some [ScSymbol "Ref"; ScSymbol "BTC"])) = Ok (PriceRef "BTC").
Proof.
  exact (proj1 (price_key_roundtrip (ScVec (Some [ScSymbol "Ref"; ScSymbol "BTC"])) (PriceRef "BTC")
                  ScVoid) eq_refl).
Defined.

End KeyProps.
