(* ===== verification/Keeper.v ===== *)
(** * The keeper (services/keeper/src/)

    A service that keeps the protocol's ledger entries alive: each TTL tick takes a
    [snapshot] of them over RPC, restores the expired, extends those inside the safety
    margin, and rotates through the accounts; an optional index tick refreshes the markets'
    indexes.

    The RPC nodes, the address codec and the signer are other people's code: [Rpc] and
    [Codec] are their interfaces.  A node may answer differently at every attempt, so
    answers depend on a counter of attempts.  Service state (active endpoint, scan cursor,
    metrics, transactions sent) is threaded by the monad [Svc.M], which keeps it across
    errors, as the process does.  A tick is one uninterrupted run; the two loops share only
    the cursor, which the index tick never writes.

    [Config.]: config.rs.  [Client.]: stellar/client.rs.  [Tx.]: stellar/tx.rs, ttl.rs,
    restore.rs, invoke.rs.  [Discovery.]: discovery.rs.  [Sched.]: policy.rs, scheduler/.
    Logging is left out; configuration strings are ASCII. *)

From S2P Require Import Prelude Errors FpCore KeeperKeys.
From stdpp Require Import base numbers list gmap strings.
From Stdlib Require Import ZArith Lia Bool Floats.SpecFloat.

Open Scope Z_scope.

(** ** Data of the libraries *)

Record ScContractInstance : Type := mkInstance {
  in_executable : ContractExecutable;
  in_storage : option (list (ScVal * ScVal))
}.

(** An entry as the node returns it. *)
Record FullEntry : Type := mkFullEntry {
  fe_key : LedgerKey;
  fe_val : LedgerEntryData;
  fe_live_until : option Z
}.

Inductive Credentials : Type :=
| SourceAccount
| OtherCredentials (n : N).

#[export] Instance credentials_dec : EqDecision Credentials.
Proof. solve_decision. Defined.

Inductive Operation : Type :=
| OpExtendFootprintTtl (extend_to : Z)
| OpRestoreFootprint
| OpInvoke (contract : Id) (function : string) (args : list ScVal) (auth : list Credentials).

(** [SorobanTransactionData] *)
Record SorobanData : Type := mkSorobanData {
  sd_read_only : list LedgerKey;
  sd_read_write : list LedgerKey;
  sd_instructions : Z;
  sd_disk_read_bytes : Z;
  sd_write_bytes : Z;
  sd_resource_fee : Z
}.

(** A v1 transaction envelope; memo and preconditions are always [None]. *)
Record Envelope : Type := mkEnvelope {
  ev_source : Id;
  ev_fee : Z;
  ev_seq : Z;
  ev_op : Operation;
  ev_data : SorobanData;
  ev_signatures : list (list Z)
}.

Inductive AuthMode : Type := Enforce | Record_ | RecordAllowNonRoot.

(** [SimulateTransactionResponse]: its error, its decoded data and, per host-function
    result, the credentials of the authorizations it asks for. *)
Record Simulation : Type := mkSimulation {
  si_error : option string;
  si_data : ares SorobanData;
  si_results : ares (list (list Credentials));
  si_min_resource_fee : Z
}.

(** How [send_transaction_polling] under a timeout ends. *)
Inductive SendResult : Type :=
| SendTimeout
| SendError (message : string)
| SendStatus (status : string).

(** Endpoint [i]'s answer to the [t]-th attempt of the process. *)
Class Rpc : Type := {
  rpc_latest_ledger : N -> nat -> ares Z;
  rpc_contract_instance : N -> nat -> Id -> ares ScContractInstance;
  rpc_ledger_entries : N -> nat -> list LedgerKey -> ares (list FullEntry);
  rpc_account_sequence : N -> nat -> Id -> ares Z;
  rpc_simulate : N -> nat -> Envelope -> option AuthMode -> ares Simulation;
  rpc_send : N -> nat -> Envelope -> SendResult
}.

(** [stellar_strkey], [hex] and the ed25519 signer. *)
Class Codec : Type := {
  contract_of_strkey : string -> ares Id;
  account_of_strkey : string -> ares Id;
  hex_decode : string -> ares (list Z);
  signer_account : Id;
  sign : Envelope -> ares (list Z)
}.

(** ** Configuration (config.rs) *)

Module Config.

Record MarketConfig : Type := mkMarket { mc_hub_id : Z; mc_asset : string }.

Record ContractsConfig : Type := mkContracts {
  cc_controller : string;
  cc_pool_wasm_hash : string;
  cc_flash_loan_receiver : option string;
  cc_markets : list MarketConfig;
  cc_market_assets : list string;
  cc_governance : option string;
  cc_xoxno_oracle_adapter : option string;
  cc_price_aggregator : option string;
  cc_redstone_adapter : option string;
  cc_swap_router : option string;
  cc_extra_instances : list string;
  cc_blend_pools : list string;
  cc_position_managers : list string
}.

Record ScheduleConfig : Type := mkSchedule {
  sc_ttl_safety_margin_days : Z;
  sc_asset_chunk : nat;
  sc_max_txs_per_tick : nat;
  sc_enable_index_refresh : bool;
  sc_scan_users : bool;
  sc_max_accounts_scan : Z
}.

Record KeeperConfig : Type := mkKeeperConfig {
  kc_network : string;
  kc_urls : list string;
  kc_passphrase : string;
  kc_contracts : ContractsConfig;
  kc_base_fee_stroops : Z;
  kc_resource_fee_multiplier : spec_float;
  kc_schedule : ScheduleConfig
}.

Definition LEDGERS_PER_DAY : Z := 17280.

Definition safety_margin_ledgers (cfg : KeeperConfig) : Z :=
  Z.min (sc_ttl_safety_margin_days (kc_schedule cfg) * LEDGERS_PER_DAY) u32_max.

(** [str::trim] on ASCII *)
Definition is_space (a : Ascii.ascii) : bool :=
  let n := Ascii.N_of_ascii a in (n =? 32)%N || ((9 <=? n) && (n <=? 13))%N.
Fixpoint trim_start (s : string) : string :=
  match s with
  | String.String a r => if is_space a then trim_start r else s
  | String.EmptyString => s
  end.
Definition trim (s : string) : string := String.rev (trim_start (String.rev (trim_start s))).
Definition blank (s : string) : bool := bool_decide (trim s = "")%string.

Definition starts_with (prefix s : string) : bool := String.prefix prefix s.

Definition c_address (s : string) : bool := starts_with "C" s.

(** [1.0_f64] *)
Definition ONE : spec_float := S754_finite false 4503599627370496 (-52).

Section Config.

Context `{Codec}.

(** stellar/client.rs *)
Definition sc_address_from_strkey (s : string) : ares ScAddress :=
  if starts_with "G" s then let* k := account_of_strkey s in Ok (ScAccount k)
  else let* k := contract_of_strkey s in Ok (ScContract k).

Definition hash32_from_hex (s : string) : ares Id :=
  let* bytes := hex_decode (trim s) in
  if (length bytes =? 32)%nat then Ok bytes else Err "expected 32 bytes"%string.

Definition require_aggregator_for_markets (c : ContractsConfig) : ares unit :=
  match cc_price_aggregator c, cc_markets c, cc_market_assets c with
  | None, _ :: _, _ | None, _, _ :: _ =>
      Err "config.contracts.price_aggregator is required when markets are configured"%string
  | _, _, _ => Ok tt
  end.

(** An optional address must be a [C...] one. *)
Definition c_when_set (o : option string) (message : string) : ares unit :=
  match o with Some s => require (c_address s) message | None => Ok tt end.

(** Adds a contract to those kept alive; it must parse and be new. *)
Definition keep_once (kept : list string) (s : string) : ares (list string) :=
  let* _ := contract_of_strkey s in
  do! require (negb (bool_decide (s ∈ kept))) "repeats a contract already kept alive"%string in
  Ok (s :: kept).

Definition validate (cfg : KeeperConfig) : ares unit :=
  let c := kc_contracts cfg in
  do! require (negb (blank (kc_network cfg))) "config.network is empty"%string in
  do! require (negb (bool_decide (kc_urls cfg = []))) "config.rpc.url lists no endpoint"%string in
  do! require (forallb (fun u => negb (blank u)) (kc_urls cfg)) "config.rpc.url is empty"%string in
  do! require (negb (blank (kc_passphrase cfg))) "config.rpc.passphrase is empty"%string in
  do! require (c_address (cc_controller c)) "config.contracts.controller must be a C... address"%string in
  do! c_when_set (cc_flash_loan_receiver c)
        "config.contracts.flash_loan_receiver must be a C... address when set" in
  do! c_when_set (cc_governance c) "config.contracts.governance must be a C... address when set" in
  do! c_when_set (cc_xoxno_oracle_adapter c)
        "config.contracts.xoxno_oracle_adapter must be a C... address when set" in
  do! c_when_set (cc_price_aggregator c)
        "config.contracts.price_aggregator must be a C... address when set" in
  let kept := cc_controller c :: omap id [cc_flash_loan_receiver c; cc_governance c;
                                         cc_xoxno_oracle_adapter c; cc_price_aggregator c] in
  let* kept := rfold keep_once kept (omap id [cc_redstone_adapter c; cc_swap_router c]) in
  let* _ := rfold keep_once kept (cc_extra_instances c) in
  do! rfold (fun _ p => let* _ := contract_of_strkey p in Ok tt) tt (cc_blend_pools c) in
  do! rfold (fun _ m => let* _ := sc_address_from_strkey m in Ok tt) tt (cc_position_managers c) in
  do! require_aggregator_for_markets c in
  do! require ((String.length (cc_pool_wasm_hash c) =? 64)%nat
               && is_ok (hex_decode (cc_pool_wasm_hash c)))
        "config.contracts.pool_wasm_hash must be a 32-byte hex string"%string in
  do! require (forallb c_address (cc_market_assets c))
        "config.contracts.market_assets entries must be contract IDs"%string in
  do! rfold (fun _ m =>
        do! require (negb (mc_hub_id m =? 0))
              "config.contracts.markets entries must use hub_id >= 1"%string in
        require (c_address (mc_asset m))
          "config.contracts.markets entries must use C... asset contract IDs"%string) tt (cc_markets c) in
  do! require (negb ((sc_asset_chunk (kc_schedule cfg) =? 0)%nat
                     || (sc_max_txs_per_tick (kc_schedule cfg) =? 0)%nat))
        "config.schedule.asset_chunk and max_txs_per_tick must be > 0"%string in
  require (negb (SFltb (kc_resource_fee_multiplier cfg) ONE))
    "config.fees.resource_fee_multiplier must be >= 1.0"%string.

(** main.rs [disable_index_refresh_on_failed_preflight] *)
Definition disable_index_refresh_on_failed_preflight (s : ScheduleConfig) (preflight : ares unit)
    : ScheduleConfig :=
  match preflight with
  | Ok _ => s
  | Err _ => mkSchedule (sc_ttl_safety_margin_days s) (sc_asset_chunk s) (sc_max_txs_per_tick s)
               false (sc_scan_users s) (sc_max_accounts_scan s)
  end.

End Config.

End Config.

(** ** Service state *)

Module Svc.

(** metrics.rs: the families that are written.  Counters and gauges by their labels. *)
Record Metrics : Type := mkMetrics {
  mx_tx_total : gmap (string * string) Z;
  mx_sim_failures : gmap (string * string) Z;
  mx_jobs_planned : gmap string Z;
  mx_tick_failed : gmap string Z;
  mx_sim_fee : gmap string Z;
  mx_entries_archived : Z;
  mx_max_account_id : Z;
  mx_current_ledger : Z;
  mx_safety_margin : Z;
  mx_entry_ttl_min : gmap (string * string) Z;
  mx_entries : gmap (string * string * string) Z
}.

Definition no_metrics : Metrics := mkMetrics ∅ ∅ ∅ ∅ ∅ 0 0 0 0 ∅ ∅.

(** The process: its endpoints, the active one, attempts so far, [USER_SCAN_CURSOR], the
    metrics, and the transactions handed to the network. *)
Record State : Type := mkState {
  ks_endpoints : nat;
  ks_active : nat;
  ks_attempts : N;
  ks_cursor : Z;
  ks_metrics : Metrics;
  ks_sent : list Envelope
}.

Definition M (A : Type) : Type := State -> ares A * State.

#[export] Instance svc_ret : MRet M := fun A a s => (Ok a, s).
#[export] Instance svc_bind : MBind M := fun A B k m s =>
  match m s with
  | (Ok a, s) => k a s
  | (Err e, s) => (Err e, s)
  end.

Definition lift {A : Type} (r : ares A) : M A := fun s => (r, s).
Definition fail {A : Type} (e : string) : M A := lift (Err e).

(** An [if let Err(e) = m] or [match m] that goes on after the error. *)
Definition attempt {A : Type} (m : M A) : M (ares A) := fun s => let (r, s) := m s in (Ok r, s).

Definition modify (g : State -> State) : M () := fun s => (Ok (), g s).
Definition gets {A : Type} (g : State -> A) : M A := fun s => (Ok (g s), s).

Definition on_metrics (g : Metrics -> Metrics) : M () :=
  modify (fun s => mkState (ks_endpoints s) (ks_active s) (ks_attempts s) (ks_cursor s)
                     (g (ks_metrics s)) (ks_sent s)).

(** [for x in l] with an accumulator. *)
Fixpoint mfold {A B : Type} (f : A -> B -> M A) (a : A) (l : list B) : M A :=
  match l with
  | [] => mret a
  | x :: l => a ← f a x; mfold f a l
  end.

(** [slice::chunks]; a size of 0 panics, every caller passes at least 1. *)
Fixpoint chunks_from {A : Type} (fuel n : nat) (l : list A) : list (list A) :=
  match fuel, l with
  | S fuel, _ :: _ => take n l :: chunks_from fuel n (drop n l)
  | _, _ => []
  end.
Definition chunks {A : Type} (n : nat) (l : list A) : list (list A) := chunks_from (length l) n l.

(** Keeps first occurrences; [seen] are the keys met so far. *)
Fixpoint dedup (seen : list LedgerKey) (l : list LedgerKey) : list LedgerKey :=
  match l with
  | [] => []
  | k :: l => if bool_decide (k ∈ seen) then dedup seen l else k :: dedup (k :: seen) l
  end.

End Svc.

(** ** The RPC client (stellar/client.rs) *)

Module Client.

Import Svc.

Section Client.

Context `{Rpc}.

Definition active_index (s : State) : nat := (ks_active s mod ks_endpoints s)%nat.

Definition set_active (s : State) (i : nat) : State :=
  mkState (ks_endpoints s) i (ks_attempts s) (ks_cursor s) (ks_metrics s) (ks_sent s).
Definition tried (s : State) : State :=
  mkState (ks_endpoints s) (ks_active s) (ks_attempts s + 1)%N (ks_cursor s) (ks_metrics s) (ks_sent s).

(** The attempts left of [try_all], from [offset]. *)
Fixpoint try_from {T : Type} (f : N -> nat -> ares T) (start : nat) (remaining offset : nat)
    (last_err : option string) (s : State) : ares T * State :=
  match remaining with
  | O => (Err (default "no RPC endpoint was tried"%string last_err), s)
  | S remaining =>
      let idx := ((start + offset) mod ks_endpoints s)%nat in
      match f (ks_attempts s) idx with
      | Ok v => (Ok v, if (idx =? start)%nat then tried s else set_active (tried s) idx)
      | Err e => try_from f start remaining (S offset) (Some e) (tried s)
      end
  end.

Definition try_all {T : Type} (f : N -> nat -> ares T) : M T := fun s =>
  try_from f (active_index s) (ks_endpoints s) 0 None s.

Definition simulate (e : Envelope) (mode : option AuthMode) : M Simulation :=
  try_all (fun t i => rpc_simulate t i e mode).
Definition latest_ledger : M Z := try_all rpc_latest_ledger.
Definition get_contract_instance (id : Id) : M ScContractInstance :=
  try_all (fun t i => rpc_contract_instance t i id).
Definition get_account_sequence (id : Id) : M Z := try_all (fun t i => rpc_account_sequence t i id).

(** The [HashMap] of entries found: the last one for a key counts. *)
Fixpoint find_entry (k : LedgerKey) (l : list FullEntry) : option FullEntry :=
  match l with
  | [] => None
  | e :: l => match find_entry k l with
              | Some x => Some x
              | None => if bool_decide (fe_key e = k) then Some e else None
              end
  end.

Definition row_of (found : list FullEntry) (k : LedgerKey) : LedgerEntryQuery :=
  match find_entry k found with
  | Some e => mkRow k (Some (fe_val e)) (fe_live_until e)
  | None => mkRow k None None
  end.

Definition get_ledger_entries (keys : list LedgerKey) : M (list LedgerEntryQuery) :=
  match keys with
  | [] => mret []
  | _ =>
      let unique := dedup [] keys in
      found ← try_all (fun t i => rpc_ledger_entries t i unique);
      mret (row_of found <$> keys)
  end.

(** [inner().send_transaction_polling] on the active endpoint, under the timeout: never
    repeated on another node. *)
Definition send (e : Envelope) : M SendResult := fun s =>
  (Ok (rpc_send (ks_attempts s) (active_index s) e),
   mkState (ks_endpoints s) (ks_active s) (ks_attempts s + 1)%N (ks_cursor s) (ks_metrics s)
     (ks_sent s ++ [e])).

End Client.

End Client.

(** ** Transactions (stellar/tx.rs, ttl.rs, restore.rs, invoke.rs) *)

Module Tx.

Import Keys Svc Client.

Inductive TxKind : Type := ExtendFootprintTtl | RestoreFootprint | UpdateIndexes.

#[export] Instance tx_kind_dec : EqDecision TxKind.
Proof. solve_decision. Defined.

Definition kind_str (k : TxKind) : string :=
  match k with
  | ExtendFootprintTtl => "extend_footprint_ttl"
  | RestoreFootprint => "restore_footprint"
  | UpdateIndexes => "update_indexes"
  end.

Definition is_footprint_op (k : TxKind) : bool :=
  match k with ExtendFootprintTtl | RestoreFootprint => true | UpdateIndexes => false end.

Record TxJob : Type := mkJob {
  tj_kind : TxKind;
  tj_op : Operation;
  tj_data : option SorobanData
}.

Inductive SubmitOutcome : Type :=
| Success (sim_resource_fee : Z)
| SkippedSimError (reason : string)
| Retriable (reason : string)
| Failed (reason : string).

Inductive SimReport : Type :=
| SimOk (resource_fee : Z) (read_only read_write : nat)
| SimRejected (reason : string).

Definition empty_soroban_data : SorobanData := mkSorobanData [] [] 0 0 0 0.

Definition MAX_LEDGERS_TO_EXTEND : Z := 535679.

Definition build_extend_soroban_data (keys : list LedgerKey) : ares SorobanData :=
  let* ks := vec_m keys "too many ExtendFootprintTtl read-only keys" in
  Ok (mkSorobanData ks [] 0 0 0 0).

Definition extend_footprint_ttl (keys : list LedgerKey) (extend_to : Z) : ares TxJob :=
  do! require (negb (extend_to =? 0)) "extend_to_ledgers must be > 0"%string in
  do! require (negb (bool_decide (keys = []))) "ExtendFootprintTtl needs at least one read-only key"%string in
  let* data := build_extend_soroban_data keys in
  Ok (mkJob ExtendFootprintTtl (OpExtendFootprintTtl extend_to) (Some data)).

Definition build_restore_soroban_data (keys : list LedgerKey) : ares SorobanData :=
  let* ks := vec_m keys "too many RestoreFootprint read-write keys" in
  Ok (mkSorobanData [] ks 0 0 0 0).

Definition restore_footprint (keys : list LedgerKey) : ares TxJob :=
  do! require (negb (bool_decide (keys = []))) "RestoreFootprint needs at least one read-write key"%string in
  let* data := build_restore_soroban_data keys in
  Ok (mkJob RestoreFootprint OpRestoreFootprint (Some data)).

(** The call carries the source account's authorization for itself. *)
Definition invoke_op (contract_id : Id) (function : string) (args : list ScVal) : ares Operation :=
  let* f := symbol function in
  Ok (OpInvoke contract_id f args [SourceAccount]).

Definition update_indexes (controller_id caller : Id) (assets : list HubAssetKey) : ares TxJob :=
  let* vals := rfold (fun acc h => let* v := hub_asset_key_sc_val h in Ok (acc ++ [v])) [] assets in
  let* vals := vec_m vals "ScVec capacity exceeded" in
  let* args := vec_m [ScAddressVal (ScAccount caller); ScVec (Some vals)] "too many args" in
  let* op := invoke_op controller_id "update_indexes" args in
  Ok (mkJob UpdateIndexes op None).

(** [bump_resource_fee]: f64 arithmetic to nearest-even, [ceil], the range test and the cast.
    The ceiling of a double is a double, so it is kept as an integer. *)
Definition f64_of_z (n : Z) : spec_float := binary_normalize 53 1024 n 0 false.
Definition f64_ceil (x : spec_float) : option Z :=
  match x with
  | S754_zero _ => Some 0
  | S754_finite s m e =>
      let v := if s then Zneg m else Zpos m in
      Some (if 0 <=? e then v * 2 ^ e else - ((- v) / 2 ^ (- e)))
  | S754_infinity _ | S754_nan => None
  end.
Definition bump_resource_fee (resource_fee : Z) (multiplier : spec_float) : Z :=
  match f64_ceil (SFmul 53 1024 (f64_of_z resource_fee) multiplier) with
  | Some b => if (0 <=? b) && (b <=? 2 ^ 63) then Z.min b (2 ^ 63 - 1) else resource_fee
  | None => resource_fee
  end.

Definition build_envelope (source : Id) (seq fee : Z) (op : Operation) (data : option SorobanData)
    : Envelope := mkEnvelope source fee seq op (default empty_soroban_data data) [].

Definition finalize_envelope (e : Envelope) (total_fee : Z) (data : SorobanData) : Envelope :=
  mkEnvelope (ev_source e) total_fee (ev_seq e) (ev_op e) data [].

Definition enforce_source_account_auth (sim : Simulation) (kind : TxKind) : ares unit :=
  let* results := si_results sim in
  if is_footprint_op kind then Ok tt
  else
    do! require (negb (bool_decide (results = []))) "simulation produced no host-function result"%string in
    rfold (fun _ auth => rfold (fun _ c =>
      require (bool_decide (c = SourceAccount)) "requires non-source-account auth; skipping"%string)
      tt auth) tt results.

Definition with_resource_fee (d : SorobanData) (fee : Z) : SorobanData :=
  mkSorobanData (sd_read_only d) (sd_read_write d) (sd_instructions d) (sd_disk_read_bytes d)
    (sd_write_bytes d) fee.

(** [u64 as i64] *)
Definition i64_of_u64 (n : Z) : Z := if n <? 2 ^ 63 then n else n - 2 ^ 64.

Definition saturating_succ_i64 (n : Z) : Z := Z.min (n + 1) (2 ^ 63 - 1).

Section Tx.

Context `{Rpc} `{Codec}.
Context (base_fee_stroops : Z) (resource_fee_multiplier : spec_float).

Definition sign_envelope (e : Envelope) : ares Envelope :=
  let* s := sign e in
  Ok (mkEnvelope (ev_source e) (ev_fee e) (ev_seq e) (ev_op e) (ev_data e) [s]).

Definition submit_polling (e : Envelope) (sim_resource_fee : Z) : M SubmitOutcome :=
  r ← send e;
  mret (match r with
        | SendTimeout => Retriable "submission poll exceeded its timeout"
        | SendError message => Retriable message
        | SendStatus status =>
            if bool_decide (status = "SUCCESS"%string) then Success sim_resource_fee
            else if bool_decide (status = "NOT_FOUND"%string)
                 then Retriable "polling completed without terminal status"
            else if bool_decide (status = "FAILED"%string) then Failed "on-chain FAILED status"
            else Failed "unknown status"
        end).

Definition build_and_simulate (kind : TxKind) (op : Operation) (data : option SorobanData) (seq : Z)
    : M (Envelope * Simulation) :=
  let envelope := build_envelope signer_account seq base_fee_stroops op data in
  let mode := if is_footprint_op kind then None else Some Enforce in
  sim ← simulate envelope mode;
  mret (envelope, sim).

Definition simulate_job (job : TxJob) : M SimReport :=
  es ← build_and_simulate (tj_kind job) (tj_op job) (tj_data job) 0;
  match si_error es.2 with
  | Some err => mret (SimRejected err)
  | None =>
      data ← lift (si_data es.2);
      mret (SimOk (sd_resource_fee data) (length (sd_read_only data)) (length (sd_read_write data)))
  end.

Definition submit_with_sim (job : TxJob) : M SubmitOutcome :=
  seq ← get_account_sequence signer_account;
  es ← build_and_simulate (tj_kind job) (tj_op job) (tj_data job) (saturating_succ_i64 seq);
  match si_error es.2 with
  | Some err => mret (SkippedSimError err)
  | None =>
      data ← lift (si_data es.2);
      _ ← lift (enforce_source_account_auth es.2 (tj_kind job));
      let resource_fee := sd_resource_fee data in
      let bumped := Z.max (bump_resource_fee resource_fee resource_fee_multiplier)
                      (i64_of_u64 (si_min_resource_fee es.2)) in
      let total := Z.min (base_fee_stroops + Z.max bumped 0) (2 ^ 64 - 1) in
      _ ← lift (require (total <=? u32_max) "computed fee exceeds u32"%string);
      signed ← lift (sign_envelope (finalize_envelope es.1 total (with_resource_fee data bumped)));
      submit_polling signed resource_fee
  end.

End Tx.

End Tx.

(** ** Discovery (discovery.rs) *)

Module Discovery.

Import Config Keys Classify Svc Client.

Record DiscoverySnapshot : Type := mkSnapshot {
  ds_current_ledger : Z;
  ds_assets : list HubAssetKey;
  ds_persistent : list LedgerEntryQuery;
  ds_instances : list LedgerEntryQuery;
  ds_wasm_code : list LedgerEntryQuery;
  ds_max_account_id : Z;
  ds_pool_id : option Id;
  ds_position_nft_id : option Id;
  ds_next_user_cursor : option Z
}.

(** *** Reading values *)

Definition wasm_hash_from_executable (e : ContractExecutable) : option Id :=
  match e with
  | ExecWasm h => Some h
  | ExecStellarAsset | ExecExternalRef _ _ => None
  end.

Definition contract_data_scval (row : LedgerEntryQuery) : option ScVal :=
  match lq_value row with Some (DataEntry v) => Some v | _ => None end.

Definition instance_from_row (row : LedgerEntryQuery) : option ScContractInstance :=
  match contract_data_scval row with
  | Some (ScInstance exe storage) => Some (mkInstance exe storage)
  | _ => None
  end.

Definition wasm_hash_from_instance_row (row : LedgerEntryQuery) : option Id :=
  inst ← instance_from_row row; wasm_hash_from_executable (in_executable inst).

Definition scval_u32 (v : ScVal) : option Z := match v with ScU32 n => Some n | _ => None end.
Definition scval_contract_id (v : ScVal) : option Id :=
  match v with ScAddressVal (ScContract id) => Some id | _ => None end.

Definition needle_for (variant_name : string) : ares ScVal :=
  let* s := symbol variant_name in
  Ok (ScVec (Some [ScSymbol s])).

Fixpoint find_val (needle : ScVal) (l : list (ScVal * ScVal)) : option ScVal :=
  match l with
  | [] => None
  | (k, v) :: l => if bool_decide (k = needle) then Some v else find_val needle l
  end.

Definition lookup_instance_scalar {T : Type} (inst : ScContractInstance) (variant_name : string)
    (extract : ScVal -> option T) : ares (option T) :=
  let* needle := needle_for variant_name in
  Ok (storage ← in_storage inst; v ← find_val needle storage; extract v).

Definition lookup_scalar {T : Type} (inst : ScContractInstance) (k : ControllerInstanceKey)
    (extract : ScVal -> option T) : ares (option T) :=
  lookup_instance_scalar inst (instance_variant_name k) extract.

Definition lookup_oracle_keys (inst : ScContractInstance) : ares (option (list AggregatorPriceKey)) :=
  let* raw := lookup_instance_scalar inst ORACLE_KEYS Some in
  match raw with
  | Some (ScVec (Some items)) =>
      let* out := rfold (fun acc v => let* k := decode_price_key v in Ok (acc ++ [k])) [] items in
      Ok (Some out)
  | _ => Ok None
  end.

Definition extract_existing_roles (rows : list LedgerEntryQuery) : option (list string) :=
  row ← head rows;
  v ← contract_data_scval row;
  match v with
  | ScVec (Some l) =>
      let out := omap (fun v => match v with ScSymbol s => Some s | _ => None end) l in
      if bool_decide (out = []) then None else Some out
  | _ => None
  end.

Definition extract_u32 (row : LedgerEntryQuery) : option Z :=
  v ← contract_data_scval row; scval_u32 v.
Definition extract_address (row : LedgerEntryQuery) : option ScAddress :=
  v ← contract_data_scval row; match v with ScAddressVal a => Some a | _ => None end.

Definition signers_from_instance (row : LedgerEntryQuery) : list ScAddress :=
  match (inst ← instance_from_row row; in_storage inst) with
  | Some storage =>
      match find_val (ScVec (Some [ScSymbol "Signers"])) storage with
      | Some (ScVec (Some l)) => omap (fun v => match v with ScAddressVal a => Some a | _ => None end) l
      | _ => []
      end
  | None => []
  end.

Definition max_account_id_from_counter (next_token_id : Z) : Z := Z.max (next_token_id - 1) 0.

(** *** The rotating window over accounts *)

(** [plan_user_scan] with the cursor it loads. *)
Definition plan_user_scan (cursor max_account_id max_accounts_scan : Z) : list Z * Z :=
  let window := Z.min (Z.max max_accounts_scan 1) max_account_id in
  let start := if (1 <=? cursor) && (cursor <=? max_account_id) then cursor else 1 in
  ((fun offset => (start - 1 + offset) mod max_account_id + 1) <$> seqZ 0 window,
   (start - 1 + window) mod max_account_id + 1).

Definition set_cursor (s : State) (n : Z) : State :=
  mkState (ks_endpoints s) (ks_active s) (ks_attempts s) n (ks_metrics s) (ks_sent s).

Definition commit_user_scan_cursor (snap : DiscoverySnapshot) : M () :=
  match ds_next_user_cursor snap with
  | Some next => modify (fun s => set_cursor s next)
  | None => mret ()
  end.

(** The keys of one account; the NFT has one while the id is a [u32]. *)
Definition account_keys (controller_id : Id) (position_nft_id : option Id) (id : Z)
    : ares (list LedgerKey) :=
  let* k1 := to_ledger_key (KUser (AccountMeta id)) controller_id in
  let* k2 := to_ledger_key (KUser (SupplyPositions id)) controller_id in
  let* k3 := to_ledger_key (KUser (BorrowPositions id)) controller_id in
  let* k4 := to_ledger_key (KUser (Delegates id)) controller_id in
  match position_nft_id with
  | Some nft =>
      if id <=? u32_max then
        let* k5 := to_ledger_key (KNft (Owner id)) nft in Ok [k1; k2; k3; k4; k5]
      else Ok [k1; k2; k3; k4]
  | None => Ok [k1; k2; k3; k4]
  end.

(** Keys collected by a loop that may fail. *)
Definition collect_keys {A : Type} (f : A -> ares (list LedgerKey)) (l : list A)
    : ares (list LedgerKey) :=
  rfold (fun acc x => let* ks := f x in Ok (acc ++ ks)) [] l.

Definition one_key (k : StorageKey) (id : Id) : ares (list LedgerKey) :=
  let* key := to_ledger_key k id in Ok [key].

Section Discovery.

Context `{Rpc} `{Codec}.

(** [for chunk in l.chunks(n)]: the keys of a chunk, then its rows. *)
Definition read_chunks {A : Type} (n : nat) (keys_of : list A -> ares (list LedgerKey)) (l : list A)
    : M (list LedgerEntryQuery) :=
  mfold (fun rows chunk =>
    keys ← lift (keys_of chunk);
    got ← get_ledger_entries keys;
    mret (rows ++ got)) [] (chunks n l).

Definition option_id (o : option string) : ares (option Id) :=
  match o with
  | Some s => let* id := contract_of_strkey s in Ok (Some id)
  | None => Ok None
  end.

(** [ContractIds::resolve] *)
Definition resolve (c : ContractsConfig) : ares ContractIds :=
  let* governance := option_id (cc_governance c) in
  let* adapter := option_id (cc_xoxno_oracle_adapter c) in
  let* aggregator := option_id (cc_price_aggregator c) in
  let* controller := contract_of_strkey (cc_controller c) in
  let* hash := hash32_from_hex (cc_pool_wasm_hash c) in
  let* flash := option_id (cc_flash_loan_receiver c) in
  let* redstone := option_id (cc_redstone_adapter c) in
  let* router := option_id (cc_swap_router c) in
  Ok (mkIds controller hash flash governance adapter aggregator redstone router).

Definition configured_market_assets (c : ContractsConfig) : ares (list HubAssetKey) :=
  let* m := rfold (fun acc m => let* id := contract_of_strkey (mc_asset m) in
                               Ok (acc ++ [mkHubKey (mc_hub_id m) id])) [] (cc_markets c) in
  rfold (fun acc s => let* id := contract_of_strkey s in Ok (acc ++ [mkHubKey 1 id])) m
    (cc_market_assets c).

(** Listings of every spoke and market, then the configured addresses, without repeats. *)
Definition controller_shared_keys (controller_id : Id) (last_spoke_id : Z)
    (assets : list HubAssetKey) (c : ContractsConfig) : ares (list LedgerKey) :=
  let* listed := collect_keys (fun spoke => collect_keys (fun h =>
      let* k1 := to_ledger_key (KController (SpokeAsset spoke h)) controller_id in
      let* k2 := to_ledger_key (KController (SpokeUsage spoke h)) controller_id in
      let* k3 := to_ledger_key (KController (SpokeFlagsEpoch spoke h)) controller_id in
      Ok [k1; k2; k3]) assets) (seqZ 1 last_spoke_id) in
  let* pools := collect_keys (fun p =>
      let* id := contract_of_strkey p in
      one_key (KController (BlendPoolAllowed (ScContract id))) controller_id) (cc_blend_pools c) in
  let* managers := collect_keys (fun m =>
      let* a := sc_address_from_strkey m in
      one_key (KController (PositionManager a)) controller_id) (cc_position_managers c) in
  Ok (dedup [] (listed ++ pools ++ managers)).

Definition discover_role_keys (contract : Id) (chunk_size : nat) : M (list LedgerEntryQuery) :=
  existing_key ← lift (one_key (KAccess ExistingRoles) contract);
  existing ← get_ledger_entries existing_key;
  let roles := default [] (extract_existing_roles existing) in
  role_keys ← lift (collect_keys (fun r =>
      let* k1 := to_ledger_key (KAccess (RoleAccountsCount r)) contract in
      let* k2 := to_ledger_key (KAccess (RoleAdmin r)) contract in Ok [k1; k2]) roles);
  role_rows ← get_ledger_entries role_keys;
  let counts := zip roles
    ((fun rows => default 0 (r ← head rows; extract_u32 r)) <$> chunks 2 role_rows) in
  let members := counts ≫= (fun rc => (fun i => (rc.1, i)) <$> seqZ 0 rc.2) in
  ra_keys ← lift (collect_keys (fun m => one_key (KAccess (RoleAccounts m.1 m.2)) contract) members);
  ra_rows ← read_chunks (chunk_size `max` 1) (fun c => Ok c) ra_keys;
  hr_keys ← lift (collect_keys (fun mr =>
      match extract_address mr.2 with
      | Some a => one_key (KAccess (HasRole a mr.1.1)) contract
      | None => Ok []
      end) (zip members ra_rows));
  hr_rows ← read_chunks (chunk_size `max` 1) (fun c => Ok c) hr_keys;
  mret (existing ++ role_rows ++ ra_rows ++ hr_rows).

Definition discover_governance (id : Id) (chunk_size : nat)
    : M (LedgerEntryQuery * list LedgerEntryQuery) :=
  rows ← get_ledger_entries [contract_instance_key id];
  inst ← lift (of_option "governance instance query returned no row"%string (head rows));
  roles ← discover_role_keys id chunk_size;
  mret (inst, roles).

(** One registry of the oracle adapter: its rows by index, and the keys derived from each. *)
Definition adapter_registry (adapter_id : Id) (chunk : nat) (count : Z)
    (at_ : Z -> OracleAdapterKey) (derive : ScVal -> list OracleAdapterKey)
    : M (list LedgerEntryQuery * list LedgerKey) :=
  rows ← read_chunks chunk (collect_keys (fun i => one_key (KAdapter (at_ i)) adapter_id)) (seqZ 0 count);
  keys ← lift (collect_keys (fun row =>
      match contract_data_scval row with
      | Some v => collect_keys (fun k => one_key (KAdapter k) adapter_id) (derive v)
      | None => Ok []
      end) rows);
  mret (rows, keys).

Definition discover_oracle_adapter (adapter_id : Id) (chunk_size : nat)
    : M (LedgerEntryQuery * list LedgerEntryQuery) :=
  let chunk := (chunk_size `max` 1)%nat in
  rows ← get_ledger_entries [contract_instance_key adapter_id];
  inst ← lift (of_option "oracle-adapter instance query returned no row"%string (head rows));
  match lq_value inst with
  | None => mret (inst, [])
  | Some _ =>
      let signers := signers_from_instance inst in
      count_keys ← lift (collect_keys (fun k => one_key (KAdapter k) adapter_id)
                           [AssetCount; FeedCount]);
      count_rows ← get_ledger_entries count_keys;
      let asset_count := default 0 (r ← count_rows !! 0%nat; extract_u32 r) in
      let feed_count := default 0 (r ← count_rows !! 1%nat; extract_u32 r) in
      signer_keys ← lift (collect_keys (fun s => one_key (KAdapter (SignerFeeds s)) adapter_id) signers);
      assets ← adapter_registry adapter_id chunk asset_count AssetAt
                 (fun v => [AssetIndex v; FeedMapping v]);
      feeds ← adapter_registry adapter_id chunk feed_count FeedAt
                (fun v => [FeedIndex v; FeedOwner v; CurrentAggregate v; History v]
                            ++ (LatestSubmission v <$> signers));
      derived ← read_chunks chunk (fun c => Ok c) (signer_keys ++ assets.2 ++ feeds.2);
      mret (inst, count_rows ++ assets.1 ++ feeds.1 ++ derived)
  end.

Definition discover_user_keys (controller_id : Id) (position_nft_id : option Id)
    (max_account_id max_accounts_scan : Z) (chunk_size : nat) : M (list LedgerEntryQuery * Z) :=
  cursor ← gets ks_cursor;
  let plan := plan_user_scan cursor max_account_id max_accounts_scan in
  rows ← read_chunks (chunk_size `max` 1) (collect_keys (account_keys controller_id position_nft_id))
           plan.1;
  mret (rows, plan.2).

(** *** The snapshot *)

(** Pool rows of the configured markets. *)
Definition pool_keys (pool_id : option Id) (chunk : list HubAssetKey) : ares (list LedgerKey) :=
  match pool_id with
  | Some pool => collect_keys (fun h =>
      let* k1 := to_ledger_key (KPool (Params h)) pool in
      let* k2 := to_ledger_key (KPool (Keys.State h)) pool in Ok [k1; k2]) chunk
  | None => Ok []
  end.

(** The NFT's counter, read so that a missing instance does not end the tick. *)
Definition read_max_account_id (position_nft_id : option Id) : M Z :=
  match position_nft_id with
  | None => mret 0
  | Some nft =>
      rows ← get_ledger_entries [contract_instance_key nft];
      next ← lift (match (r ← head rows; instance_from_row r) with
                   | Some inst => lookup_instance_scalar inst TOKEN_ID_COUNTER scval_u32
                   | None => Ok None
                   end);
      mret (match next with Some counter => max_account_id_from_counter counter | None => 0 end)
  end.

(** Oracle rows: the registered keys, or the configured markets without an index. *)
Definition discover_oracle_rows (aggregator_id : option Id) (assets : list HubAssetKey)
    (chunk_size : nat) : M (list LedgerEntryQuery) :=
  match aggregator_id with
  | None => mret []
  | Some agg =>
      got ← attempt (get_contract_instance agg);
      registered ← lift (match got with Ok inst => lookup_oracle_keys inst | Err _ => Ok None end);
      let oracle_keys := match registered with
                         | Some l => l
                         | None => PriceToken ∘ hk_asset <$> assets
                         end in
      read_chunks chunk_size (collect_keys (fun k => one_key (KAggregator (Oracle k)) agg)) oracle_keys
  end.

(** [InstancePlan]: keys, and where the pool's, receiver's and NFT's rows will be. *)
Record InstancePlan : Type := mkPlan {
  ip_keys : list LedgerKey;
  ip_pool_row : option nat;
  ip_flash_row : option nat;
  ip_nft_row : option nat
}.

Definition push_instance (keys : list LedgerKey) (id : option Id) : list LedgerKey * option nat :=
  match id with
  | Some id => (keys ++ [contract_instance_key id], Some (length keys))
  | None => (keys, None)
  end.

Definition plan_instance_keys (controller_id : Id) (pool_id flash_receiver position_nft_id : option Id)
    : InstancePlan :=
  let keys := [contract_instance_key controller_id] in
  let (keys, pool_row) := push_instance keys pool_id in
  let (keys, flash_row) := push_instance keys flash_receiver in
  let (keys, nft_row) := push_instance keys position_nft_id in
  mkPlan keys pool_row flash_row nft_row.

(** The Wasm hash of the instance at a planned row. *)
Definition planned_hash (entries : list LedgerEntryQuery) (row : option nat) : option Id :=
  i ← row; e ← entries !! i; wasm_hash_from_instance_row e.

Definition wasm_keys (ids : ContractIds) (controller_hash : option Id) (plan : InstancePlan)
    (entries : list LedgerEntryQuery) (adapter aggregator : option LedgerEntryQuery)
    (extra : list LedgerEntryQuery) : list LedgerKey :=
  let live_pool := planned_hash entries (ip_pool_row plan) in
  dedup [] (contract_code_key <$>
    ([ci_pool_wasm_hash ids] ++ omap id [controller_hash]
     ++ (match live_pool with
         | Some h => if bool_decide (h = ci_pool_wasm_hash ids) then [] else [h]
         | None => []
         end)
     ++ omap id [planned_hash entries (ip_flash_row plan); planned_hash entries (ip_nft_row plan);
                 (r ← adapter; wasm_hash_from_instance_row r);
                 (r ← aggregator; wasm_hash_from_instance_row r)]
     ++ omap wasm_hash_from_instance_row extra)).

(** A part whose failure is logged and skipped. *)
Definition optional_part {A : Type} (id : option Id) (discover : Id -> M A) : M (option A) :=
  match id with
  | None => mret None
  | Some id =>
      got ← attempt (discover id);
      mret (match got with Ok a => Some a | Err _ => None end)
  end.

Definition opt_rows (o : option LedgerEntryQuery) : list LedgerEntryQuery :=
  match o with Some r => [r] | None => [] end.

Definition snapshot (ids : ContractIds) (contracts : ContractsConfig) (schedule : ScheduleConfig)
    : M DiscoverySnapshot :=
  let chunk_size := (sc_asset_chunk schedule `max` 1)%nat in
  let controller_id := ci_controller ids in
  current_ledger ← latest_ledger;
  instance ← get_contract_instance controller_id;
  let controller_hash := wasm_hash_from_executable (in_executable instance) in
  pool_id ← lift (lookup_scalar instance IkPool scval_contract_id);
  last_spoke ← lift (lookup_scalar instance IkLastSpokeId scval_u32);
  let last_spoke_id := default 0 last_spoke in
  last_hub ← lift (lookup_scalar instance IkLastHubId scval_u32);
  let last_hub_id := default 0 last_hub in
  position_nft_id ← lift (lookup_scalar instance IkPositionNft scval_contract_id);
  max_account_id ← read_max_account_id position_nft_id;
  assets ← lift (configured_market_assets contracts);
  pool_rows ← read_chunks chunk_size (pool_keys pool_id) assets;
  oracle_rows ← discover_oracle_rows (ci_price_aggregator ids) assets chunk_size;
  spoke_rows ← read_chunks chunk_size
    (collect_keys (fun i => one_key (KController (Spoke i)) controller_id)) (seqZ 1 last_spoke_id);
  hub_rows ← read_chunks chunk_size
    (collect_keys (fun i => one_key (KController (Hub i)) controller_id)) (seqZ 1 last_hub_id);
  shared ← lift (controller_shared_keys controller_id last_spoke_id assets contracts);
  shared_rows ← read_chunks chunk_size (fun c => Ok c) shared;
  role_rows ← discover_role_keys controller_id chunk_size;
  user ← (if sc_scan_users schedule && (0 <? max_account_id) then
            r ← discover_user_keys controller_id position_nft_id max_account_id
                  (sc_max_accounts_scan schedule) chunk_size;
            mret (r.1, Some r.2)
          else mret ([], None));
  governance ← optional_part (ci_governance ids) (fun id => discover_governance id chunk_size);
  adapter ← optional_part (ci_xoxno_oracle_adapter ids) (fun id => discover_oracle_adapter id chunk_size);
  extra_ids ← lift (rfold (fun acc s => let* id := contract_of_strkey s in Ok (acc ++ [id])) []
                      (cc_extra_instances contracts));
  let extra_ids := extra_ids ++ omap id [ci_redstone_adapter ids; ci_swap_router ids] in
  extra ← get_ledger_entries (contract_instance_key <$> extra_ids);
  aggregator ← optional_part (ci_price_aggregator ids)
                 (fun id => rows ← get_ledger_entries [contract_instance_key id]; mret (last rows));
  let plan := plan_instance_keys controller_id pool_id (ci_flash_receiver ids) position_nft_id in
  entries ← get_ledger_entries (ip_keys plan);
  let aggregator := mjoin aggregator in
  let adapter_row := fst <$> adapter in
  code ← get_ledger_entries (wasm_keys ids controller_hash plan entries adapter_row aggregator extra);
  mret {| ds_current_ledger := current_ledger;
          ds_assets := assets;
          ds_persistent := pool_rows ++ oracle_rows ++ spoke_rows ++ hub_rows ++ shared_rows
                             ++ role_rows ++ user.1 ++ default [] (snd <$> governance)
                             ++ default [] (snd <$> adapter);
          ds_instances := entries ++ opt_rows (fst <$> governance) ++ opt_rows adapter_row
                            ++ opt_rows aggregator ++ extra;
          ds_wasm_code := code;
          ds_max_account_id := max_account_id;
          ds_pool_id := pool_id;
          ds_position_nft_id := position_nft_id;
          ds_next_user_cursor := user.2 |}.

End Discovery.

End Discovery.

(** ** Scheduling (policy.rs, scheduler/) *)

Module Sched.

Import Config Keys Classify Svc Client Tx Discovery.

Inductive Decision : Type := Extend | Restore | Skip.

#[export] Instance decision_dec : EqDecision Decision.
Proof. solve_decision. Defined.

(** policy.rs *)
Definition classify (live_until : option Z) (value_present : bool)
    (current_ledger safety_ledgers : Z) : Decision :=
  if negb value_present then Skip
  else match live_until with
       | None => Skip
       | Some live_until =>
           if live_until <? current_ledger then Restore
           else if live_until - current_ledger <? safety_ledgers then Extend
           else Skip
       end.

Definition is_some {A : Type} (o : option A) : bool := match o with Some _ => true | None => false end.

Definition decide_row (current_ledger safety_ledgers : Z) (row : LedgerEntryQuery) : Decision :=
  classify (lq_live_until row) (is_some (lq_value row)) current_ledger safety_ledgers.

(** scheduler/tasks.rs *)
Definition MAX_KEYS_PER_EXTEND_OP : nat := 60.

(** [collect_matching]: appends the keys of matching rows. *)
Fixpoint collect_matching (entries : list LedgerEntryQuery) (current_ledger safety_ledgers : Z)
    (want : Decision) (out : list LedgerKey) : list LedgerKey :=
  match entries with
  | [] => out
  | row :: entries =>
      collect_matching entries current_ledger safety_ledgers want
        (if bool_decide (decide_row current_ledger safety_ledgers row = want)
         then out ++ [lq_key row] else out)
  end.

Definition build_jobs (build : list LedgerKey -> ares TxJob) (cs : list (list LedgerKey))
    : ares (list TxJob) :=
  rfold (fun jobs c => let* j := build c in Ok (jobs ++ [j])) [] cs.

Definition plan_with_chunk (snap : DiscoverySnapshot) (safety_ledgers : Z) (want : Decision)
    (chunk : nat) (build : list LedgerKey -> ares TxJob) : ares (list TxJob) :=
  let now := ds_current_ledger snap in
  let targets := collect_matching (ds_persistent snap) now safety_ledgers want [] in
  let targets := collect_matching (ds_instances snap) now safety_ledgers want targets in
  let targets := collect_matching (ds_wasm_code snap) now safety_ledgers want targets in
  build_jobs build (chunks chunk targets).

Definition plan (snap : DiscoverySnapshot) (safety_ledgers : Z) (want : Decision)
    (build : list LedgerKey -> ares TxJob) : ares (list TxJob) :=
  plan_with_chunk snap safety_ledgers want MAX_KEYS_PER_EXTEND_OP build.

Definition extend_max (keys : list LedgerKey) : ares TxJob :=
  extend_footprint_ttl keys MAX_LEDGERS_TO_EXTEND.

Definition plan_extends_with_chunk (snap : DiscoverySnapshot) (safety_ledgers : Z) (chunk : nat)
    : ares (list TxJob) := plan_with_chunk snap safety_ledgers Extend chunk extend_max.

Definition plan_extends (snap : DiscoverySnapshot) (safety_ledgers : Z) : ares (list TxJob) :=
  plan_extends_with_chunk snap safety_ledgers MAX_KEYS_PER_EXTEND_OP.

Definition plan_restores (snap : DiscoverySnapshot) (safety_ledgers : Z) : ares (list TxJob) :=
  plan snap safety_ledgers Restore restore_footprint.

Definition restored_keys (jobs : list TxJob) : list LedgerKey :=
  jobs ≫= (fun j => match tj_kind j, tj_data j with
                    | RestoreFootprint, Some d => sd_read_write d
                    | _, _ => []
                    end).

Definition plan_extends_for_keys (keys : list LedgerKey) : ares (list TxJob) :=
  build_jobs extend_max (chunks MAX_KEYS_PER_EXTEND_OP keys).

Definition plan_index_refresh (controller_id caller : Id) (assets : list HubAssetKey)
    (asset_chunk : nat) : ares (list TxJob) :=
  rfold (fun jobs c => let* j := update_indexes controller_id caller c in Ok (jobs ++ [j])) []
    (chunks (asset_chunk `max` 1) assets).

(** scheduler/budget.rs *)
Record TickBudget : Type := mkBudget { tb_max_txs : nat; tb_remaining : nat }.

Definition new_budget (max_txs : nat) : TickBudget := mkBudget max_txs max_txs.
Definition try_spend (b : TickBudget) : option TickBudget :=
  match tb_remaining b with
  | O => None
  | S r => Some (mkBudget (tb_max_txs b) r)
  end.
Definition spent (b : TickBudget) : nat := (tb_max_txs b - tb_remaining b)%nat.

(** *** Metrics *)

Definition entry_state (row : LedgerEntryQuery) (current_ledger : Z) : string :=
  match lq_value row, lq_live_until row with
  | Some _, Some live_until => if live_until <? current_ledger then "expired" else "live"
  | Some _, None => "live"
  | None, _ => "never_created"
  end.

Definition bump {K : Type} `{Countable K} (m : gmap K Z) (k : K) (n : Z) : gmap K Z :=
  <[k := default 0 (m !! k) + n]> m.

Definition classified (snap : DiscoverySnapshot) (ids : ContractIds)
    : list (LedgerEntryQuery * KeyClass) :=
  ((fun r => (r, classify_persistent r (ci_controller ids) (ci_governance ids))) <$> ds_persistent snap)
  ++ ((fun r => (r, InstanceClass)) <$> ds_instances snap)
  ++ ((fun r => (r, WasmCode)) <$> ds_wasm_code snap).

(** One row of [publish_storage_gauges]: the lowest remaining TTL and the count per label. *)
Definition gauge_row (snap : DiscoverySnapshot) (ids : ContractIds)
    (acc : gmap (string * string) Z * gmap (string * string * string) Z)
    (rc : LedgerEntryQuery * KeyClass)
    : gmap (string * string) Z * gmap (string * string * string) Z :=
  let row := rc.1 in
  let contract := contract_label (lq_key row) ids (ds_pool_id snap) (ds_position_nft_id snap) in
  let group := label rc.2 in
  let counts := bump acc.2 (contract, group, entry_state row (ds_current_ledger snap)) 1 in
  match lq_value row, lq_live_until row with
  | Some _, Some live_until =>
      let remaining := Z.max (live_until - ds_current_ledger snap) 0 in
      let m := match acc.1 !! (contract, group) with
               | Some m => Z.min m remaining
               | None => remaining
               end in
      (<[(contract, group) := m]> acc.1, counts)
  | _, _ => (acc.1, counts)
  end.

Definition storage_gauges (snap : DiscoverySnapshot) (ids : ContractIds)
    : gmap (string * string) Z * gmap (string * string * string) Z :=
  foldl (gauge_row snap ids) (∅, ∅) (classified snap ids).

Definition record_snapshot_metrics (snap : DiscoverySnapshot) (ids : ContractIds)
    (safety_ledgers : Z) : M () :=
  on_metrics (fun m =>
    let g := storage_gauges snap ids in
    mkMetrics (mx_tx_total m) (mx_sim_failures m) (mx_jobs_planned m) (mx_tick_failed m)
      (mx_sim_fee m) (mx_entries_archived m) (ds_max_account_id snap) (ds_current_ledger snap)
      safety_ledgers g.1 g.2).

Definition count_tx (kind : TxKind) (status : string) : M () :=
  on_metrics (fun m => mkMetrics (bump (mx_tx_total m) (kind_str kind, status) 1) (mx_sim_failures m)
    (mx_jobs_planned m) (mx_tick_failed m) (mx_sim_fee m) (mx_entries_archived m)
    (mx_max_account_id m) (mx_current_ledger m) (mx_safety_margin m) (mx_entry_ttl_min m) (mx_entries m)).
Definition count_sim_failure (kind : TxKind) (reason : string) : M () :=
  on_metrics (fun m => mkMetrics (mx_tx_total m) (bump (mx_sim_failures m) (kind_str kind, reason) 1)
    (mx_jobs_planned m) (mx_tick_failed m) (mx_sim_fee m) (mx_entries_archived m)
    (mx_max_account_id m) (mx_current_ledger m) (mx_safety_margin m) (mx_entry_ttl_min m) (mx_entries m)).
Definition count_planned (loop : string) (n : Z) : M () :=
  on_metrics (fun m => mkMetrics (mx_tx_total m) (mx_sim_failures m) (bump (mx_jobs_planned m) loop n)
    (mx_tick_failed m) (mx_sim_fee m) (mx_entries_archived m)
    (mx_max_account_id m) (mx_current_ledger m) (mx_safety_margin m) (mx_entry_ttl_min m) (mx_entries m)).
Definition count_failed_tick (loop : string) : M () :=
  on_metrics (fun m => mkMetrics (mx_tx_total m) (mx_sim_failures m) (mx_jobs_planned m)
    (bump (mx_tick_failed m) loop 1) (mx_sim_fee m) (mx_entries_archived m)
    (mx_max_account_id m) (mx_current_ledger m) (mx_safety_margin m) (mx_entry_ttl_min m) (mx_entries m)).
Definition record_sim_fee (kind : TxKind) (fee : Z) : M () :=
  on_metrics (fun m => mkMetrics (mx_tx_total m) (mx_sim_failures m) (mx_jobs_planned m)
    (mx_tick_failed m) (<[kind_str kind := fee]> (mx_sim_fee m)) (mx_entries_archived m)
    (mx_max_account_id m) (mx_current_ledger m) (mx_safety_margin m) (mx_entry_ttl_min m) (mx_entries m)).
Definition set_archived (n : Z) : M () :=
  on_metrics (fun m => mkMetrics (mx_tx_total m) (mx_sim_failures m) (mx_jobs_planned m)
    (mx_tick_failed m) (mx_sim_fee m) n
    (mx_max_account_id m) (mx_current_ledger m) (mx_safety_margin m) (mx_entry_ttl_min m) (mx_entries m)).

(** [to_ascii_lowercase], [contains] *)
Definition lower_ascii (a : Ascii.ascii) : Ascii.ascii :=
  let n := Ascii.N_of_ascii a in
  if ((65 <=? n) && (n <=? 90))%N then Ascii.ascii_of_N (n + 32) else a.
Fixpoint lowercase (s : string) : string :=
  match s with
  | String.String a r => String.String (lower_ascii a) (lowercase r)
  | String.EmptyString => s
  end.
Definition contains (part s : string) : bool := is_some (String.index 0 part s).

Definition classify_reason (msg : string) : string :=
  let lower := lowercase msg in
  if contains "unauthor" lower || contains "role" lower then "unauthorized"
  else if contains "budget" lower || contains "instruction" lower then "budget"
  else if contains "archiv" lower then "archived"
  else "other".

Section Sched.

Context `{Rpc} `{Codec}.
Context (cfg : KeeperConfig) (dry_run : bool).

Definition record_submit_outcome (kind : TxKind) (outcome : ares SubmitOutcome) : M () :=
  match outcome with
  | Ok (Success fee) => _ ← record_sim_fee kind fee; count_tx kind "success"
  | Ok (SkippedSimError reason) => count_sim_failure kind (classify_reason reason)
  | Ok (Retriable _) => count_tx kind "retriable"
  | Ok (Failed _) => count_tx kind "failed"
  | Err _ => count_tx kind "error"
  end.

Definition drive_job (job : TxJob) : M () :=
  if dry_run then
    r ← attempt (simulate_job (kc_base_fee_stroops cfg) job);
    match r with
    | Ok (SimOk fee _ _) => _ ← count_tx (tj_kind job) "dry_run_ok"; record_sim_fee (tj_kind job) fee
    | Ok (SimRejected reason) => count_sim_failure (tj_kind job) (classify_reason reason)
    | Err _ => mret ()
    end
  else
    r ← attempt (submit_with_sim (kc_base_fee_stroops cfg) (kc_resource_fee_multiplier cfg) job);
    record_submit_outcome (tj_kind job) r.

(** The loop over the jobs stops when the tick's budget is spent. *)
Fixpoint drive_loop (jobs : list TxJob) (budget : TickBudget) : M TickBudget :=
  match jobs with
  | [] => mret budget
  | job :: jobs =>
      match try_spend budget with
      | None => mret budget
      | Some budget => _ ← drive_job job; drive_loop jobs budget
      end
  end.

Definition drive_jobs (jobs : list TxJob) (loop : string) (budget : TickBudget) : M TickBudget :=
  _ ← count_planned loop (Z.of_nat (length jobs));
  drive_loop jobs budget.

(** The second half of a TTL tick: restorations, then extensions, under one budget. *)
Definition run_ttl_jobs (restore_jobs extend_jobs : list TxJob) : M () :=
  let restored := restored_keys restore_jobs in
  _ ← set_archived (Z.of_nat (length restored));
  post_restore_extends ← lift (plan_extends_for_keys restored);
  let budget := new_budget (sc_max_txs_per_tick (kc_schedule cfg)) in
  budget ← drive_jobs restore_jobs "ttl" budget;
  let extends := if dry_run then extend_jobs else extend_jobs ++ post_restore_extends in
  _ ← drive_jobs extends "ttl" budget;
  mret ().

Definition run_ttl_tick (ids : ContractIds) : M () :=
  snap ← snapshot ids (kc_contracts cfg) (kc_schedule cfg);
  let safety := safety_margin_ledgers cfg in
  _ ← record_snapshot_metrics snap ids safety;
  restore_jobs ← lift (plan_restores snap safety);
  extend_jobs ← lift (plan_extends snap safety);
  _ ← commit_user_scan_cursor snap;
  run_ttl_jobs restore_jobs extend_jobs.

Definition run_index_tick (ids : ContractIds) : M () :=
  snap ← snapshot ids (kc_contracts cfg) (kc_schedule cfg);
  _ ← record_snapshot_metrics snap ids (safety_margin_ledgers cfg);
  if bool_decide (ds_assets snap = []) then mret ()
  else
    jobs ← lift (plan_index_refresh (ci_controller ids) signer_account (ds_assets snap)
                   (sc_asset_chunk (kc_schedule cfg)));
    _ ← drive_jobs jobs "index" (new_budget (sc_max_txs_per_tick (kc_schedule cfg)));
    mret ().

(** [prime_storage_metrics]: gauges at boot, nothing planned or sent. *)
Definition prime_storage_metrics (ids : ContractIds) : M () :=
  r ← attempt (snapshot ids (kc_contracts cfg) (kc_schedule cfg));
  match r with
  | Ok snap => record_snapshot_metrics snap ids (safety_margin_ledgers cfg)
  | Err _ => mret ()
  end.

(** What the two loops do when a tick comes: a failed tick is counted and the loop goes on. *)
Inductive Tick : Type := TtlTick | IndexTick | BootPrime.

Definition run_tick (ids : ContractIds) (t : Tick) : M () :=
  match t with
  | BootPrime => prime_storage_metrics ids
  | TtlTick =>
      r ← attempt (run_ttl_tick ids);
      match r with Ok _ => mret () | Err _ => count_failed_tick "ttl" end
  | IndexTick =>
      r ← attempt (run_index_tick ids);
      match r with Ok _ => mret () | Err _ => count_failed_tick "index" end
  end.

End Sched.

End Sched.
