(* ===== verification/KeeperProps.v ===== *)
(** * Properties of the keeper

    [KeeperSteps.]: what computations leave alone, and how many transactions they send.
    [KeeperPlans.]: a tick's plans are exact.  [KeeperCover.]: the rotating window reaches
    every account, a snapshot covers what it promises, only TTL ticks move the cursor,
    ticks keep their budget, submissions are guarded and reads fail over.
    [KeeperSample.]: two nodes, for the witnesses. *)

From S2P Require Import Prelude Errors FpCore KeeperKeys Keeper.
From stdpp Require Import base numbers list gmap strings.
From Stdlib Require Import ZArith Lia Bool Floats.SpecFloat.

Open Scope Z_scope.

(** ** What a computation leaves alone *)

Module KeeperSteps.

Import Config Keys Svc Client Tx Discovery Sched.

(** It sends nothing, and neither the cursor nor the endpoint list changes. *)
Definition quiet {A : Type} (m : M A) : Prop :=
  forall s, ks_sent (m s).2 = ks_sent s /\ ks_cursor (m s).2 = ks_cursor s
    /\ ks_endpoints (m s).2 = ks_endpoints s.

Lemma run_bind {A B} (m : M A) (k : A -> M B) s :
  (m ≫= k) s = match (m s).1 with Ok a => k a (m s).2 | Err e => (Err e, (m s).2) end.
Proof. unfold mbind, svc_bind. by destruct (m s) as [[a|e] s']. Qed.

Lemma quiet_ret {A} (a : A) : quiet (mret a).
Proof. by intros s. Qed.
Lemma quiet_lift {A} (r : ares A) : quiet (lift r).
Proof. by intros s. Qed.
Lemma quiet_gets {A} (g : State -> A) : quiet (gets g).
Proof. by intros s. Qed.
Lemma quiet_metrics g : quiet (on_metrics g).
Proof. by intros s. Qed.
Lemma quiet_bind {A B} (m : M A) (k : A -> M B) :
  quiet m -> (forall a, quiet (k a)) -> quiet (m ≫= k).
Proof.
  intros Hm Hk s. rewrite run_bind. destruct (Hm s) as (H1 & H2 & H3).
  destruct ((m s).1) as [a|e]; [|done]. destruct (Hk a (m s).2) as (K1 & K2 & K3). split_and!; congruence.
Qed.
Lemma quiet_attempt {A} (m : M A) : quiet m -> quiet (attempt m).
Proof. intros Hm s. unfold attempt. specialize (Hm s). by destruct (m s). Qed.
Lemma quiet_mfold {A B} (f : A -> B -> M A) l : (forall a x, quiet (f a x)) -> forall a, quiet (mfold f a l).
Proof.
  intros Hf. induction l as [|x l IH]; intros a; [apply quiet_ret|]. simpl. apply quiet_bind; auto.
Qed.
Lemma quiet_if {A} (b : bool) (m1 m2 : M A) : quiet m1 -> quiet m2 -> quiet (if b then m1 else m2).
Proof. by destruct b. Qed.

Create HintDb keeper.
#[export] Hint Resolve quiet_ret quiet_lift quiet_gets quiet_metrics quiet_attempt quiet_mfold quiet_if : keeper.

(** [quiet] of a sequence: binds first, then the lemma of each part. *)
Ltac quieten :=
  repeat match goal with
  | |- quiet (_ ≫= _) => apply quiet_bind; [|intros ?]
  | |- quiet (match ?x with _ => _ end) => destruct x
  | |- quiet _ => progress eauto with keeper
  | |- quiet (let _ := _ in _) => cbv zeta
  end.

Section Quiet.

Context `{Rpc} `{Codec}.

Lemma quiet_try_from {T} (f : N -> nat -> ares T) start n :
  forall offset err, quiet (try_from f start n offset err).
Proof.
  induction n as [|n IH]; intros offset err s; [done|]. cbn [try_from].
  destruct (f _ _) as [v|e].
  - cbn [snd]. by destruct (((start + offset) mod ks_endpoints s)%nat =? start)%nat.
  - exact (IH (S offset) (Some e) (tried s)).
Qed.

Lemma quiet_try_all {T} (f : N -> nat -> ares T) : quiet (try_all f).
Proof. intros s. apply quiet_try_from. Qed.

Lemma quiet_entries keys : quiet (get_ledger_entries keys).
Proof.
  unfold get_ledger_entries. destruct keys; [apply quiet_ret|]. apply quiet_bind; [apply quiet_try_all|].
  intros a. apply quiet_ret.
Qed.

Hint Resolve quiet_try_all quiet_entries : keeper.

Lemma quiet_chunks {A} n (f : list A -> ares (list LedgerKey)) l : quiet (read_chunks n f l).
Proof. unfold read_chunks. apply quiet_mfold. intros a x. quieten. Qed.
Hint Resolve quiet_chunks : keeper.

Lemma quiet_roles id n : quiet (discover_role_keys id n).
Proof. unfold discover_role_keys. quieten. Qed.
Hint Resolve quiet_roles : keeper.

Lemma quiet_governance id n : quiet (discover_governance id n).
Proof. unfold discover_governance. quieten. Qed.

Lemma quiet_registry id n c a d : quiet (adapter_registry id n c a d).
Proof. unfold adapter_registry. quieten. Qed.
Hint Resolve quiet_registry : keeper.

Lemma quiet_adapter id n : quiet (discover_oracle_adapter id n).
Proof. unfold discover_oracle_adapter. quieten. Qed.

Lemma quiet_users id nft m n c : quiet (discover_user_keys id nft m n c).
Proof. unfold discover_user_keys. quieten. Qed.

Lemma quiet_max_account nft : quiet (read_max_account_id nft).
Proof. unfold read_max_account_id. quieten. Qed.

Lemma quiet_oracle agg l n : quiet (discover_oracle_rows agg l n).
Proof. unfold discover_oracle_rows. quieten. Qed.

Lemma quiet_optional {A} id (f : Id -> M A) : (forall i, quiet (f i)) -> quiet (optional_part id f).
Proof. intros Hf. unfold optional_part. quieten. Qed.

Hint Resolve quiet_governance quiet_adapter quiet_users quiet_max_account quiet_oracle : keeper.

Lemma quiet_snapshot ids c sch : quiet (snapshot ids c sch).
Proof.
  unfold snapshot, latest_ledger, get_contract_instance. cbv zeta. quieten.
  all: try (apply quiet_optional; intros i; quieten).
Qed.

Lemma quiet_outcome kind r : quiet (record_submit_outcome kind r).
Proof.
  unfold record_submit_outcome, record_sim_fee, count_tx, count_sim_failure. quieten.
Qed.

(** *** Sequencing *)

Lemma bind_inv {A B} (m : M A) (k : A -> M B) s r s' :
  (m ≫= k) s = (r, s') ->
  (exists a s1, m s = (Ok a, s1) /\ k a s1 = (r, s')) \/ (exists e, m s = (Err e, s') /\ r = Err e).
Proof.
  unfold mbind, svc_bind. destruct (m s) as [[a|e] s1]; intros E; [eauto|].
  right. injection E as <- <-. eauto.
Qed.

Lemma try_all_Ok {T} (f : N -> nat -> ares T) s v s' :
  try_all f s = (Ok v, s') -> exists t i, f t i = Ok v.
Proof.
  unfold try_all. generalize (active_index s) at 1. intros start.
  generalize (@None string) 0%nat. generalize (ks_endpoints s) at 1. intros n. revert s.
  induction n as [|n IH]; intros s err offset E; [done|]. cbn [try_from] in E.
  destruct (f _ _) as [w|e] eqn:Ef; [injection E as <- _; eauto|by eapply IH].
Qed.

(** *** Transactions sent *)

(** It sends at most [n] transactions. *)
Definition sends {A : Type} (n : nat) (m : M A) : Prop :=
  forall s, exists es, ks_sent (m s).2 = ks_sent s ++ es /\ (length es <= n)%nat.

Lemma quiet_sends {A} (m : M A) n : quiet m -> sends n m.
Proof.
  intros Hm s. exists []. destruct (Hm s) as (-> & _). rewrite app_nil_r. simpl. split; [done|lia].
Qed.

Lemma sends_bind {A B} n k (m : M A) (f : A -> M B) :
  sends n m -> (forall a, sends k (f a)) -> sends (n + k) (m ≫= f).
Proof.
  intros Hm Hf s. rewrite run_bind. destruct (Hm s) as (es & E & Hl).
  destruct ((m s).1) as [a|e].
  - destruct (Hf a (m s).2) as (es' & E' & Hl'). exists (es ++ es').
    rewrite E', E, app_assoc, length_app. split; [done|lia].
  - exists es. simpl. rewrite E. split; [done|lia].
Qed.

Lemma quiet_then {A B} n (m : M A) (f : A -> M B) :
  quiet m -> (forall a, sends n (f a)) -> sends n (m ≫= f).
Proof. intros Hm Hf. apply (sends_bind 0 n); [by apply quiet_sends|done]. Qed.

Lemma attempt_run {A} (m : M A) s : attempt m s = (Ok (m s).1, (m s).2).
Proof. unfold attempt. by destruct (m s). Qed.

Lemma sends_attempt {A} n (m : M A) : sends n m -> sends n (attempt m).
Proof. intros Hm s. unfold attempt. specialize (Hm s). by destruct (m s). Qed.

Section Ticks.

Context (cfg : KeeperConfig) (dry_run : bool).

Lemma submit_sends base mult job : sends 1 (submit_with_sim base mult job).
Proof.
  unfold submit_with_sim, get_account_sequence, build_and_simulate, simulate.
  apply quiet_then; [auto with keeper|intros seq]. apply quiet_then; [quieten|intros es].
  destruct (si_error es.2); [by apply quiet_sends, quiet_ret|].
  apply quiet_then; [auto with keeper|intros data]. apply quiet_then; [auto with keeper|intros u].
  cbv zeta. apply quiet_then; [auto with keeper|intros u1].
  apply quiet_then; [auto with keeper|intros signed].
  unfold submit_polling. apply (sends_bind 1 0); [|intros r; by apply quiet_sends, quiet_ret].
  intros s. exists [signed]. done.
Qed.

Lemma quiet_simulate_job base job : quiet (simulate_job base job).
Proof. unfold simulate_job, build_and_simulate, simulate. quieten. Qed.

Lemma drive_job_sends job : sends (if dry_run then 0 else 1) (drive_job cfg dry_run job).
Proof.
  unfold drive_job. destruct dry_run.
  - apply quiet_sends. apply quiet_bind; [apply quiet_attempt, quiet_simulate_job|intros r].
    unfold count_tx, record_sim_fee, count_sim_failure. quieten.
  - apply (sends_bind 1 0); [apply sends_attempt, submit_sends|].
    intros r. apply quiet_sends, quiet_outcome.
Qed.

Lemma drive_job_ok job s e : (drive_job cfg dry_run job s).1 <> Err e.
Proof.
  unfold drive_job. destruct dry_run; rewrite run_bind, attempt_run; cbn [fst].
  - destruct ((simulate_job (kc_base_fee_stroops cfg) job s).1) as [[]|]; discriminate.
  - destruct ((submit_with_sim (kc_base_fee_stroops cfg) (kc_resource_fee_multiplier cfg) job s).1)
      as [[]|]; discriminate.
Qed.

(** What a loop sends it takes from the budget. *)
Lemma drive_loop_sends jobs : forall budget s,
  exists es b, (drive_loop cfg dry_run jobs budget s).1 = Ok b
    /\ ks_sent (drive_loop cfg dry_run jobs budget s).2 = ks_sent s ++ es
    /\ (length es + tb_remaining b <= tb_remaining budget)%nat
    /\ (dry_run = true -> es = []).
Proof.
  induction jobs as [|job jobs IH]; intros budget s; cbn [drive_loop].
  { exists [], budget. rewrite app_nil_r. simpl. auto. }
  unfold try_spend. destruct (tb_remaining budget) as [|r] eqn:Er.
  { exists [], budget. rewrite app_nil_r, Er. simpl. auto. }
  rewrite run_bind. destruct (drive_job_sends job s) as (es & E & Hl).
  destruct ((drive_job cfg dry_run job s).1) as [[]|e] eqn:Ed.
  - destruct (IH (mkBudget (tb_max_txs budget) r) (drive_job cfg dry_run job s).2)
      as (es' & b & E1 & E2 & Hl' & Hd). simpl in Hl'.
    exists (es ++ es'), b. rewrite E2, E, app_assoc, length_app. split_and!; [done|done| |].
    + destruct dry_run; lia.
    + intros ->. rewrite Hd by done. destruct es; [done|simpl in Hl; lia].
  - exfalso. by apply (drive_job_ok job s e).
Qed.

Lemma drive_jobs_run jobs loop budget s :
  drive_jobs cfg dry_run jobs loop budget s
  = drive_loop cfg dry_run jobs budget (count_planned loop (Z.of_nat (length jobs)) s).2.
Proof. unfold drive_jobs. by rewrite run_bind. Qed.

(** At most what the budget allows, and nothing in a dry run. *)
Definition allowed (n : nat) : nat := if dry_run then 0%nat else n.

Lemma drive_jobs_sends jobs loop n :
  sends (allowed n) (drive_jobs cfg dry_run jobs loop (new_budget n)).
Proof.
  intros s. rewrite drive_jobs_run.
  destruct (drive_loop_sends jobs (new_budget n) (count_planned loop (Z.of_nat (length jobs)) s).2)
    as (es & b & _ & E & Hl & Hd). exists es. split; [exact E|]. unfold allowed. simpl in Hl.
  destruct dry_run; [by rewrite Hd by done|lia].
Qed.

Lemma two_drives_send jobs1 (jobs2 : list TxJob) loop n :
  sends (allowed n) (budget ← drive_jobs cfg dry_run jobs1 loop (new_budget n);
                     _ ← drive_jobs cfg dry_run jobs2 loop budget; mret ()).
Proof.
  intros s. rewrite run_bind, drive_jobs_run.
  destruct (drive_loop_sends jobs1 (new_budget n) (count_planned loop (Z.of_nat (length jobs1)) s).2)
    as (es1 & b1 & E1 & S1 & L1 & D1). rewrite E1, run_bind, drive_jobs_run.
  set (s1 := (drive_loop cfg dry_run jobs1 (new_budget n) _).2) in *.
  destruct (drive_loop_sends jobs2 b1 (count_planned loop (Z.of_nat (length jobs2)) s1).2)
    as (es2 & b2 & E2 & S2 & L2 & D2). rewrite E2. exists (es1 ++ es2).
  unfold mret, svc_ret. cbn [snd].
  rewrite S2. change (ks_sent (count_planned loop (Z.of_nat (length jobs2)) s1).2) with (ks_sent s1).
  rewrite S1, app_assoc, length_app. split; [done|]. unfold allowed. simpl in L1.
  destruct dry_run; [rewrite D1, D2 by done; simpl; lia|lia].
Qed.

Lemma commit_sends snap : sends 0 (commit_user_scan_cursor snap).
Proof.
  intros s. exists []. rewrite app_nil_r. unfold commit_user_scan_cursor.
  by destruct (ds_next_user_cursor snap).
Qed.

Lemma ttl_tick_sends ids :
  sends (allowed (sc_max_txs_per_tick (kc_schedule cfg))) (run_ttl_tick cfg dry_run ids).
Proof.
  unfold run_ttl_tick. apply quiet_then; [apply quiet_snapshot|intros snap]. cbv zeta.
  apply quiet_then; [apply quiet_metrics|intros u].
  do 2 (apply quiet_then; [apply quiet_lift|intros ?]).
  apply (sends_bind 0); [apply commit_sends|intros u1]. unfold run_ttl_jobs. cbv zeta. apply quiet_then; [apply quiet_metrics|intros u2].
  apply quiet_then; [apply quiet_lift|intros post]. apply two_drives_send.
Qed.

Lemma index_tick_sends ids :
  sends (allowed (sc_max_txs_per_tick (kc_schedule cfg))) (run_index_tick cfg dry_run ids).
Proof.
  unfold run_index_tick. apply quiet_then; [apply quiet_snapshot|intros snap].
  apply quiet_then; [apply quiet_metrics|intros u]. destruct (bool_decide _); [apply quiet_sends, quiet_ret|].
  apply quiet_then; [apply quiet_lift|intros jobs]. rewrite <- (Nat.add_0_r (allowed _)).
  apply sends_bind; [apply drive_jobs_sends|intros b]. apply quiet_sends, quiet_ret.
Qed.

End Ticks.

End Quiet.

End KeeperSteps.

(** ** Plans *)

Module KeeperPlans.

Import Config Keys Svc Client Tx Discovery Sched.

(** A row with a value whose TTL has lapsed, and one that lapses within the margin. *)
Definition needs_restore (now : Z) (r : LedgerEntryQuery) : Prop :=
  match lq_value r, lq_live_until r with Some _, Some l => l < now | _, _ => False end.
Definition needs_extend (now safety : Z) (r : LedgerEntryQuery) : Prop :=
  match lq_value r, lq_live_until r with Some _, Some l => now <= l < now + safety | _, _ => False end.

#[export] Instance needs_restore_dec now r : base.Decision (needs_restore now r).
Proof. unfold needs_restore. destruct (lq_value r), (lq_live_until r); apply _. Defined.
#[export] Instance needs_extend_dec now safety r : base.Decision (needs_extend now safety r).
Proof. unfold needs_extend. destruct (lq_value r), (lq_live_until r); apply _. Defined.

Definition all_rows (snap : DiscoverySnapshot) : list LedgerEntryQuery :=
  ds_persistent snap ++ ds_instances snap ++ ds_wasm_code snap.

Definition expired_keys (snap : DiscoverySnapshot) : list LedgerKey :=
  lq_key <$> filter (needs_restore (ds_current_ledger snap)) (all_rows snap).
Definition expiring_keys (snap : DiscoverySnapshot) (safety : Z) : list LedgerKey :=
  lq_key <$> filter (needs_extend (ds_current_ledger snap) safety) (all_rows snap).

(** The footprint a job was built with. *)
Definition job_keys (j : TxJob) : list LedgerKey :=
  match tj_data j with Some d => sd_read_only d ++ sd_read_write d | None => [] end.

(** A well-formed job over [1..60] keys: extensions read, restorations write. *)
Definition extend_job (j : TxJob) : Prop :=
  exists ks, (0 < length ks <= MAX_KEYS_PER_EXTEND_OP)%nat
    /\ j = mkJob ExtendFootprintTtl (OpExtendFootprintTtl MAX_LEDGERS_TO_EXTEND)
             (Some (mkSorobanData ks [] 0 0 0 0)).
Definition restore_job (j : TxJob) : Prop :=
  exists ks, (0 < length ks <= MAX_KEYS_PER_EXTEND_OP)%nat
    /\ j = mkJob RestoreFootprint OpRestoreFootprint (Some (mkSorobanData [] ks 0 0 0 0)).

Lemma decide_restore now safety r : decide_row now safety r = Restore <-> needs_restore now r.
Proof.
  unfold decide_row, classify, needs_restore, is_some.
  destruct (lq_value r), (lq_live_until r) as [x|]; simpl; try done.
  destruct (Z.ltb_spec x now); [by split|].
  destruct (Z.ltb_spec (x - now) safety); split; try done; lia.
Qed.

Lemma decide_extend now safety r : decide_row now safety r = Extend <-> needs_extend now safety r.
Proof.
  unfold decide_row, classify, needs_extend, is_some.
  destruct (lq_value r), (lq_live_until r) as [x|]; simpl; try done.
  destruct (Z.ltb_spec x now); [split; [done|lia]|].
  destruct (Z.ltb_spec (x - now) safety); split; try done; lia.
Qed.

Lemma collect_matching_eq now safety want (P : LedgerEntryQuery -> Prop) `{forall r, base.Decision (P r)} l :
  (forall r, decide_row now safety r = want <-> P r) ->
  forall out, collect_matching l now safety want out = out ++ (lq_key <$> filter P l).
Proof.
  intros HP. induction l as [|r l IH]; intros out; simpl; [by rewrite app_nil_r|].
  rewrite IH, filter_cons.
  destruct (bool_decide_reflect (decide_row now safety r = want)) as [E|E], (decide (P r)) as [Hp|Hp].
  - simpl. by rewrite <- app_assoc.
  - exfalso. by apply Hp, HP.
  - exfalso. by apply E, HP.
  - done.
Qed.

Lemma chunks_spec {A} n (l : list A) : (0 < n)%nat ->
  mjoin (chunks n l) = l /\ Forall (fun c => 0 < length c <= n)%nat (chunks n l).
Proof.
  intros Hn. unfold chunks. assert (length l <= length l)%nat as Hl by lia. revert Hl.
  generalize (length l) at 2 3 4. intros fuel. revert l.
  induction fuel as [|fuel IH]; intros [|x l] Hl; simpl in *; try lia; try (by split).
  destruct (IH (drop n (x :: l))) as [E F].
  { rewrite length_drop. simpl. lia. }
  split.
  - change (take n (x :: l) ++ mjoin (chunks_from fuel n (drop n (x :: l))) = x :: l).
    by rewrite E, take_drop.
  - constructor; [|exact F]. rewrite length_take. simpl. lia.
Qed.

(** Building one job per chunk. *)
Lemma build_jobs_Ok build (P : list LedgerKey -> TxJob -> Prop) cs :
  (forall c, (0 < length c <= MAX_KEYS_PER_EXTEND_OP)%nat -> exists j, build c = Ok j /\ P c j) ->
  Forall (fun c => 0 < length c <= MAX_KEYS_PER_EXTEND_OP)%nat cs ->
  exists jobs, build_jobs build cs = Ok jobs /\ Forall2 P cs jobs.
Proof.
  intros Hb Hc. unfold build_jobs.
  assert (forall acc, exists jobs, rfold (fun jobs c => let* j := build c in Ok (jobs ++ [j])) acc cs
            = Ok (acc ++ jobs) /\ Forall2 P cs jobs) as G.
  { induction Hc as [|c cs Hl _ IH]; intros acc; [exists []; by rewrite app_nil_r|].
    destruct (Hb c Hl) as (j & Ej & HP). cbn [rfold]. rewrite Ej. cbn [rbind].
    destruct (IH (acc ++ [j])) as (jobs & -> & F). exists (j :: jobs).
    rewrite <- app_assoc. by split; [|constructor]. }
  destruct (G []) as (jobs & E & F). by exists jobs.
Qed.

Lemma small_vec {A} (l : list A) m :
  (length l <= MAX_KEYS_PER_EXTEND_OP)%nat -> vec_m l m = Ok l.
Proof.
  unfold vec_m, MAX_KEYS_PER_EXTEND_OP, u32_max. intros Hl.
  destruct (Z.leb_spec (Z.of_nat (length l)) 4294967295); [done|lia].
Qed.

Lemma extend_max_Ok c : (0 < length c <= MAX_KEYS_PER_EXTEND_OP)%nat ->
  exists j, extend_max c = Ok j /\ extend_job j /\ job_keys j = c.
Proof.
  intros Hc. eexists. split; [|split; [exists c; split; [exact Hc|reflexivity]|]].
  - unfold extend_max, extend_footprint_ttl, build_extend_soroban_data. simpl.
    rewrite bool_decide_false by (intros ->; simpl in Hc; lia). simpl. by rewrite small_vec by lia.
  - unfold job_keys. simpl. by rewrite app_nil_r.
Qed.

Lemma restore_Ok c : (0 < length c <= MAX_KEYS_PER_EXTEND_OP)%nat ->
  exists j, restore_footprint c = Ok j /\ restore_job j /\ job_keys j = c.
Proof.
  intros Hc. eexists. split; [|split; [exists c; split; [exact Hc|reflexivity]|done]].
  unfold restore_footprint, build_restore_soroban_data.
  rewrite bool_decide_false by (intros ->; simpl in Hc; lia). simpl. by rewrite small_vec by lia.
Qed.

(** Jobs over the chunks of [l] cover [l], in order. *)
Lemma chunked_jobs build (J : TxJob -> Prop) l :
  (forall c, (0 < length c <= MAX_KEYS_PER_EXTEND_OP)%nat ->
     exists j, build c = Ok j /\ J j /\ job_keys j = c) ->
  exists jobs, build_jobs build (chunks MAX_KEYS_PER_EXTEND_OP l) = Ok jobs
    /\ Forall J jobs /\ (jobs ≫= job_keys) = l.
Proof.
  intros Hb. destruct (chunks_spec MAX_KEYS_PER_EXTEND_OP l ltac:(unfold MAX_KEYS_PER_EXTEND_OP; lia))
    as [E F].
  destruct (build_jobs_Ok build (fun c j => J j /\ job_keys j = c) _ Hb F) as (jobs & Hj & F2).
  exists jobs. split; [exact Hj|]. rewrite <- E. clear E F Hj.
  induction F2 as [|c j cs js [HJ Hk] _ [IH1 IH2]]; [by split|]. split; [by constructor|].
  simpl. rewrite Hk. f_equal. exact IH2.
Qed.

Lemma plan_restores_Ok snap safety : exists jobs, plan_restores snap safety = Ok jobs
  /\ Forall restore_job jobs /\ (jobs ≫= job_keys) = expired_keys snap.
Proof.
  unfold plan_restores, plan, plan_with_chunk. cbv zeta.
  rewrite !(collect_matching_eq _ _ _ (needs_restore (ds_current_ledger snap)))
    by (intros r; apply decide_restore).
  unfold expired_keys, all_rows. rewrite !filter_app, !fmap_app, <- !app_assoc. simpl app at 1.
  apply chunked_jobs, restore_Ok.
Qed.

Lemma plan_extends_Ok snap safety : exists jobs, plan_extends snap safety = Ok jobs
  /\ Forall extend_job jobs /\ (jobs ≫= job_keys) = expiring_keys snap safety.
Proof.
  unfold plan_extends, plan_extends_with_chunk, plan_with_chunk. cbv zeta.
  rewrite !(collect_matching_eq _ _ _ (needs_extend (ds_current_ledger snap) safety))
    by (intros r; apply decide_extend).
  unfold expiring_keys, all_rows. rewrite !filter_app, !fmap_app, <- !app_assoc. simpl app at 1.
  apply chunked_jobs, extend_max_Ok.
Qed.

Lemma restored_keys_eq jobs : Forall restore_job jobs -> restored_keys jobs = jobs ≫= job_keys.
Proof.
  unfold restored_keys. induction 1 as [|j jobs (ks & _ & ->) _ IH]; [done|]. simpl. f_equal. exact IH.
Qed.

(** C30: A TTL tick's plans never fail and are exact: the restorations cover, in order and
    without loss or addition, the entries with a value whose TTL has lapsed; the extensions
    those whose TTL lapses within the safety margin; each job has 1 to 60 keys of its kind;
    and the extensions planned after restoring cover exactly the restored entries. *)
Theorem tick_plans_exact snap safety :
  exists restores extends later,
    plan_restores snap safety = Ok restores /\ plan_extends snap safety = Ok extends
    /\ plan_extends_for_keys (restored_keys restores) = Ok later
    /\ Forall restore_job restores /\ Forall extend_job extends /\ Forall extend_job later
    /\ (restores ≫= job_keys) = expired_keys snap
    /\ (extends ≫= job_keys) = expiring_keys snap safety
    /\ (later ≫= job_keys) = expired_keys snap.
Proof.
  destruct (plan_restores_Ok snap safety) as (rs & R1 & R2 & R3).
  destruct (plan_extends_Ok snap safety) as (es & E1 & E2 & E3).
  destruct (chunked_jobs extend_max extend_job (restored_keys rs) extend_max_Ok) as (ls & L1 & L2 & L3).
  exists rs, es, ls. split_and!; try done. by rewrite L3, restored_keys_eq.
Qed.

End KeeperPlans.

(** ** Coverage *)

Module KeeperCover.

Import Config Keys Classify Svc Client Tx Discovery Sched KeeperSteps KeeperPlans.

(** *** The rotating window *)

Definition window (m scan : Z) : Z := Z.min (Z.max scan 1) m.

(** The accounts scanned by [k] committed ticks while [m] is the highest id. *)
Fixpoint scan_rounds (m scan : Z) (k : nat) (cursor : Z) : list Z :=
  match k with
  | O => []
  | S k => let p := plan_user_scan cursor m scan in p.1 ++ scan_rounds m scan k p.2
  end.

Lemma plan_user_scan_eq cursor m scan : exists start, 1 <= start <= Z.max m 1
  /\ plan_user_scan cursor m scan
     = ((fun o => (start - 1 + o) mod m + 1) <$> seqZ 0 (window m scan),
        (start - 1 + window m scan) mod m + 1).
Proof.
  unfold plan_user_scan. cbv zeta. fold (window m scan).
  destruct (Z.leb_spec 1 cursor), (Z.leb_spec cursor m); simpl; eexists; (split; [|reflexivity]); lia.
Qed.

Lemma plan_user_scan_at start m scan : 1 <= start <= m ->
  plan_user_scan start m scan
  = ((fun o => (start - 1 + o) mod m + 1) <$> seqZ 0 (window m scan),
     (start - 1 + window m scan) mod m + 1).
Proof.
  intros Hs. unfold plan_user_scan. cbv zeta. fold (window m scan).
  destruct (Z.leb_spec 1 start), (Z.leb_spec start m); try lia. reflexivity.
Qed.

(** From a valid start, [k] rounds reach every offset below [k] windows. *)
Lemma rounds_reach m scan k : 0 < m -> forall start o, 1 <= start <= m ->
  0 <= o < Z.of_nat k * window m scan ->
  (start - 1 + o) mod m + 1 ∈ scan_rounds m scan k start.
Proof.
  intros Hm. induction k as [|k IH]; intros start o Hs Ho; [lia|]. cbn [scan_rounds]. cbv zeta.
  rewrite plan_user_scan_at by done. cbn [fst snd]. apply elem_of_app.
  assert (0 < window m scan) as Hw by (unfold window; lia).
  destruct (decide (o < window m scan)) as [Hlt|Hge].
  - left. apply list_elem_of_fmap. exists o. split; [done|]. apply elem_of_seqZ. lia.
  - right. pose proof (Z.mod_pos_bound (start - 1 + window m scan) m Hm) as Hb.
    assert (0 <= o - window m scan < Z.of_nat k * window m scan) as Ho' by lia.
    specialize (IH ((start - 1 + window m scan) mod m + 1) (o - window m scan) ltac:(lia) Ho').
    replace ((start - 1 + o) mod m)
      with (((start - 1 + window m scan) mod m + 1 - 1 + (o - window m scan)) mod m); [exact IH|].
    replace ((start - 1 + window m scan) mod m + 1 - 1 + (o - window m scan))
      with ((start - 1 + window m scan) mod m + (o - window m scan)) by lia.
    rewrite Z.add_mod_idemp_l by lia. f_equal. lia.
Qed.

(** Within one window offsets give different ids. *)
Lemma mod_inj m a o o' : 0 < m -> 0 <= o < m -> 0 <= o' < m ->
  (a + o) mod m = (a + o') mod m -> o = o'.
Proof.
  intros Hm Ho Ho' E. pose proof (Z.div_mod (a + o) m ltac:(lia)). pose proof (Z.div_mod (a + o') m ltac:(lia)).
  assert (m * ((a + o) / m - (a + o') / m) = o - o') as Hd by lia.
  destruct (Z.eq_dec ((a + o) / m) ((a + o') / m)) as [Ed|Ed]; [rewrite Ed in Hd; lia|]. nia.
Qed.

(** C29: The per-user scan misses nobody.  While the highest account id is [m], each tick's
    window holds distinct ids of accounts 1..[m], and [k] committed ticks scan every one of
    them as soon as [k] windows hold [m] ids (ceil([m] / window) ticks), wherever the cursor
    was, also when it had gone out of range. *)
Theorem user_scan_covers m scan k cursor id :
  1 <= id <= m -> m <= Z.of_nat k * window m scan ->
  id ∈ scan_rounds m scan k cursor
  /\ NoDup (plan_user_scan cursor m scan).1
  /\ Forall (fun i => 1 <= i <= m) (plan_user_scan cursor m scan).1.
Proof.
  intros Hid Hk. destruct (plan_user_scan_eq cursor m scan) as (start & Hs & E).
  rewrite Z.max_l in Hs by lia. split_and!.
  - assert (scan_rounds m scan k cursor = scan_rounds m scan k start) as ->.
    { destruct k; [done|]. cbn [scan_rounds]. by rewrite E, plan_user_scan_at. }
    pose proof (rounds_reach m scan k ltac:(lia) start ((id - start) mod m) Hs) as H.
    pose proof (Z.mod_pos_bound (id - start) m ltac:(lia)). specialize (H ltac:(lia)).
    replace ((start - 1 + (id - start) mod m) mod m + 1) with id in H; [exact H|].
    rewrite Z.add_mod_idemp_r by lia. replace (start - 1 + (id - start)) with (id - 1) by lia.
    rewrite Z.mod_small; lia.
  - rewrite E. cbn [fst]. apply NoDup_fmap_2_strong; [|apply NoDup_seqZ].
    intros o o' Ho Ho' Eo. apply elem_of_seqZ in Ho, Ho'. unfold window in *.
    apply (mod_inj m (start - 1)); lia.
  - rewrite E. cbn [fst]. apply Forall_forall. intros i Hi.
    apply list_elem_of_fmap in Hi as (o & -> & _).
    pose proof (Z.mod_pos_bound (start - 1 + o) m ltac:(lia)). lia.
Qed.

Lemma user_scan_covers_witness :
  7 ∈ scan_rounds 10 4 3 99 /\ (plan_user_scan 99 10 4).1 = [1; 2; 3; 4].
Proof.
  split; [|reflexivity].
  assert (1 <= 7 <= 10) as H1 by lia. assert (10 <= Z.of_nat 3 * window 10 4) as H2 by (vm_compute; discriminate).
  exact (proj1 (user_scan_covers 10 4 3 99 7 H1 H2)).
Defined.

(** *** Rows of a snapshot *)

Section Cover.

Context `{Rpc} `{Codec}.

Lemma rows_keys found (keys : list LedgerKey) : lq_key <$> (row_of found <$> keys) = keys.
Proof using.
  induction keys as [|k keys IH]; [done|]. cbn. f_equal; [|exact IH]. unfold row_of.
  by destruct (find_entry k found).
Qed.

(** One row per key, in order. *)
Lemma get_ledger_entries_Ok keys s rows s' :
  get_ledger_entries keys s = (Ok rows, s') -> lq_key <$> rows = keys.
Proof using.
  unfold get_ledger_entries. destruct keys as [|k keys]; [intros E; by injection E as <- _|].
  intros E. apply bind_inv in E as [(found & s1 & _ & E)|(e & _ & E)]; [|done].
  injection E as <- _. exact (rows_keys found (k :: keys)).
Qed.

Lemma collect_keys_Ok {A} (f : A -> ares (list LedgerKey)) l ks :
  collect_keys f l = Ok ks -> forall x kx k, x ∈ l -> f x = Ok kx -> k ∈ kx -> k ∈ ks.
Proof using.
  unfold collect_keys. intros H0' x kx k Hx Hf Hk. revert H0'. generalize (@nil LedgerKey).
  induction l as [|y l IH]; intros acc E; [by apply elem_of_nil in Hx|]. cbn [rfold] in E.
  apply rbind_Ok in E as (acc1 & E1 & E). apply rbind_Ok in E1 as (ky & Ey & E1). injection E1 as <-.
  apply elem_of_cons in Hx as [->|Hx]; [|by eapply IH].
  rewrite Hf in Ey. injection Ey as <-.
  assert (k ∈ acc ++ kx) as Hin by (apply elem_of_app; by right). clear -E Hin.
  revert Hin E. generalize (acc ++ kx). clear acc. induction l as [|z l IH]; intros acc Hin E; cbn [rfold] in E.
  - by injection E as <-.
  - apply rbind_Ok in E as (acc1 & E1 & E). apply rbind_Ok in E1 as (kz & _ & E1). injection E1 as <-.
    eapply IH; [|exact E]. apply elem_of_app. by left.
Qed.

Lemma read_fold_Ok {A} (keys_of : list A -> ares (list LedgerKey)) cs : forall acc s rows s',
  mfold (fun rows chunk => keys ← lift (keys_of chunk); got ← get_ledger_entries keys;
                           mret (rows ++ got)) acc cs s = (Ok rows, s') ->
  (forall k, k ∈ lq_key <$> acc -> k ∈ lq_key <$> rows)
  /\ (forall c, c ∈ cs -> exists ks, keys_of c = Ok ks /\ forall k, k ∈ ks -> k ∈ lq_key <$> rows).
Proof using.
  induction cs as [|c cs IH]; intros acc s rows s' E; cbn [mfold] in E.
  { injection E as <- _. split; [done|]. intros c Hc. by apply elem_of_nil in Hc. }
  apply bind_inv in E as [(acc1 & s1 & E1 & E)|(e & _ & E)]; [|done].
  apply bind_inv in E1 as [(ks1 & s2 & E2 & E1)|(e & _ & E1)]; [|done].
  injection E2 as E2 ->. apply bind_inv in E1 as [(got & s3 & E3 & E1)|(e & _ & E1)]; [|done].
  injection E1 as <- _. apply get_ledger_entries_Ok in E3.
  apply IH in E as [Ha Hc]. split.
  - intros k Hk. apply Ha. rewrite fmap_app, elem_of_app. by left.
  - intros c' Hin. apply elem_of_cons in Hin as [->|Hin]; [|by apply Hc].
    exists ks1. split; [done|]. intros k Hk. apply Ha. rewrite fmap_app, elem_of_app. right. by rewrite E3.
Qed.

Lemma read_chunks_Ok {A} n (f : A -> ares (list LedgerKey)) l s rows s' : (0 < n)%nat ->
  read_chunks n (collect_keys f) l s = (Ok rows, s') ->
  forall x kx k, x ∈ l -> f x = Ok kx -> k ∈ kx -> k ∈ lq_key <$> rows.
Proof using.
  intros Hn E x kx k Hx Hf Hk. unfold read_chunks in E.
  apply read_fold_Ok in E as [_ E]. destruct (chunks_spec n l Hn) as [Ej _].
  rewrite <- Ej in Hx. apply list_elem_of_join in Hx as (c & Hxc & Hc).
  destruct (E c Hc) as (ks & Hks & Hin). apply Hin. by eapply collect_keys_Ok.
Qed.

(** A successful sequence, one bind at a time: [x] is its result, [E] the step. *)
Tactic Notation "bind_step" hyp(H) ident(x) ident(E) :=
  let s1 := fresh "s" in let e := fresh "e" in let F := fresh "F" in
  apply bind_inv in H as [(x & s1 & E & H)|(e & _ & F)]; [|discriminate F].

Lemma quiet_cursor {A} (m : M A) s r s' : quiet m -> m s = (r, s') -> ks_cursor s' = ks_cursor s.
Proof using. intros Hm E. destruct (Hm s) as (_ & K & _). by rewrite E in K. Qed.

Lemma instance_planned ctl pool flash nft id :
  id ∈ ctl :: omap (fun o => o) [pool; flash; nft] ->
  contract_instance_key id ∈ ip_keys (plan_instance_keys ctl pool flash nft).
Proof using.
  unfold plan_instance_keys, push_instance. destruct pool, flash, nft; simpl; set_solver.
Qed.

Lemma user_rows_Ok ctl nft m scan n s r s' : (0 < n)%nat ->
  discover_user_keys ctl nft m scan n s = (Ok r, s') ->
  r.2 = (plan_user_scan (ks_cursor s) m scan).2
  /\ forall id keys key, id ∈ (plan_user_scan (ks_cursor s) m scan).1 ->
       account_keys ctl nft id = Ok keys -> key ∈ keys -> key ∈ lq_key <$> r.1.
Proof using.
  intros Hn E. unfold discover_user_keys in E. bind_step E cursor Ec. injection Ec as <- <-.
  cbv zeta in E. bind_step E rows Er. injection E as <- _. split; [done|]. cbn [fst].
  intros id keys key Hid Hk Hkey. eapply read_chunks_Ok; [|exact Er|exact Hid|exact Hk|exact Hkey]. lia.
Qed.

Lemma pool_rows_Ok n pool assets s rows s' h key : (0 < n)%nat ->
  read_chunks n (pool_keys (Some pool)) assets s = (Ok rows, s') -> h ∈ assets ->
  to_ledger_key (KPool (Params h)) pool = Ok key \/ to_ledger_key (KPool (Keys.State h)) pool = Ok key ->
  key ∈ lq_key <$> rows.
Proof using.
  intros Hn E Hh Hk. unfold pool_keys in E. cbv beta iota in E.
  assert (exists k1 k2, to_ledger_key (KPool (Params h)) pool = Ok k1
            /\ to_ledger_key (KPool (Keys.State h)) pool = Ok k2) as (k1 & k2 & H1 & H2)
    by (eexists _, _; split; reflexivity).
  eapply read_chunks_Ok with (kx := [k1; k2]); [exact Hn|exact E|exact Hh| |].
  - cbv beta. rewrite H1. cbn [rbind]. by rewrite H2.
  - rewrite H1, H2 in Hk. destruct Hk as [Hk|Hk]; injection Hk as <-; set_solver.
Qed.

(** What a snapshot is made of, as far as the theorems below need it. *)
Lemma snapshot_inv ids c sch s snap s' :
  snapshot ids c sch s = (Ok snap, s') ->
  (exists n s1 rows s2, (0 < n)%nat
     /\ read_chunks n (pool_keys (ds_pool_id snap)) (ds_assets snap) s1 = (Ok rows, s2)
     /\ rows ⊆ ds_persistent snap)
  /\ (sc_scan_users sch && (0 <? ds_max_account_id snap) = true -> exists n s1 r s2, (0 < n)%nat
     /\ ks_cursor s1 = ks_cursor s
     /\ discover_user_keys (ci_controller ids) (ds_position_nft_id snap) (ds_max_account_id snap)
          (sc_max_accounts_scan sch) n s1 = (Ok r, s2)
     /\ r.1 ⊆ ds_persistent snap /\ ds_next_user_cursor snap = Some r.2)
  /\ (forall k, k ∈ ip_keys (plan_instance_keys (ci_controller ids) (ds_pool_id snap)
                    (ci_flash_receiver ids) (ds_position_nft_id snap)) ->
       k ∈ lq_key <$> ds_instances snap).
Proof using.
  intros E. unfold snapshot in E. cbv zeta in E.
  set (n := (sc_asset_chunk sch `max` 1)%nat) in *. assert (0 < n)%nat as Hn by (subst n; lia).
  bind_step E ledger E1. bind_step E inst E2. bind_step E pool E3. injection E3 as E3 <-.
  bind_step E spoke E4. injection E4 as E4 <-. bind_step E hub E5. injection E5 as E5 <-.
  bind_step E nft E6. injection E6 as E6 <-. bind_step E maxid E7. bind_step E assets E8.
  injection E8 as E8 <-. bind_step E prows E9. bind_step E orows E10. bind_step E srows E11.
  bind_step E hrows E12. bind_step E shared E13. injection E13 as E13 <-. bind_step E shrows E14.
  bind_step E roles E15. bind_step E user E16. bind_step E gov E17. bind_step E adapter E18.
  bind_step E extras E19. injection E19 as E19 <-. bind_step E extra E20. bind_step E agg E21.
  bind_step E entries E22. bind_step E code E23. injection E as <- <-. cbn.
  split_and!.
  - eexists n, _, prows, _. split_and!; [exact Hn|exact E9|]. set_solver.
  - intros Hb. rewrite Hb in E16. bind_step E16 r Er. injection E16 as <- <-.
    eexists n, _, r, _. split_and!; [exact Hn| |exact Er|cbn; set_solver|done].
    apply quiet_cursor in E1; [|apply quiet_try_all]. apply quiet_cursor in E2; [|apply quiet_try_all].
    apply quiet_cursor in E7; [|apply quiet_max_account]. apply quiet_cursor in E9; [|apply quiet_chunks].
    apply quiet_cursor in E10; [|apply quiet_oracle]. apply quiet_cursor in E11; [|apply quiet_chunks].
    apply quiet_cursor in E12; [|apply quiet_chunks]. apply quiet_cursor in E14; [|apply quiet_chunks].
    apply quiet_cursor in E15; [|apply quiet_roles]. congruence.
  - intros k Hk. apply get_ledger_entries_Ok in E22. rewrite fmap_app, elem_of_app. left. by rewrite E22.
Qed.

(** A snapshot covers what it promises, whatever the nodes answer on the way: it holds a
    row for the parameters and the state of every configured market once the pool is known;
    for every account of the tick's window a row for its metadata, positions, delegates and
    NFT owner, with the cursor of the next window; and the instance rows of the controller,
    the pool, the flash-loan receiver and the position NFT. *)
Theorem snapshot_covers ids c sch s snap s' :
  snapshot ids c sch s = (Ok snap, s') ->
  (forall pool h key, ds_pool_id snap = Some pool -> h ∈ ds_assets snap ->
     to_ledger_key (KPool (Params h)) pool = Ok key
     \/ to_ledger_key (KPool (Keys.State h)) pool = Ok key ->
     key ∈ lq_key <$> ds_persistent snap)
  /\ (sc_scan_users sch = true -> 0 < ds_max_account_id snap ->
      let plan := plan_user_scan (ks_cursor s) (ds_max_account_id snap) (sc_max_accounts_scan sch) in
      ds_next_user_cursor snap = Some plan.2
      /\ forall id keys key, id ∈ plan.1 ->
           account_keys (ci_controller ids) (ds_position_nft_id snap) id = Ok keys -> key ∈ keys ->
           key ∈ lq_key <$> ds_persistent snap)
  /\ (forall id, id ∈ ci_controller ids :: omap (fun o => o) [ds_pool_id snap; ci_flash_receiver ids;
                                                             ds_position_nft_id snap] ->
       contract_instance_key id ∈ lq_key <$> ds_instances snap).
Proof using.
  intros E. apply snapshot_inv in E as ((n & s1 & rows & s2 & Hn & E1 & Hr) & Hu & Hi). split_and!.
  - intros pool h key Hp Hh Hk. rewrite Hp in E1.
    pose proof (pool_rows_Ok _ _ _ _ _ _ _ _ Hn E1 Hh Hk) as Hin.
    apply list_elem_of_fmap in Hin as (r & -> & Hin). apply list_elem_of_fmap_2. by apply Hr.
  - intros Hs Hm. rewrite Hs, (proj2 (Z.ltb_lt _ _) Hm) in Hu.
    destruct (Hu eq_refl) as (k & s3 & r & s4 & Hk & Hc & E3 & Hsub & Hnext).
    apply user_rows_Ok in E3 as [E4 E5]; [|done]. rewrite Hc in *. split; [by rewrite Hnext, E4|].
    intros id keys key Hid Hks Hkey. specialize (E5 _ _ _ Hid Hks Hkey).
    apply list_elem_of_fmap in E5 as (row & -> & Hin). apply list_elem_of_fmap_2. by apply Hsub.
  - intros id Hid. apply Hi. by apply instance_planned.
Qed.

(** *** Ticks *)

Context (cfg : KeeperConfig) (dry_run : bool).

(** The cursor stays. *)
Definition still {A : Type} (m : M A) : Prop := forall s, ks_cursor (m s).2 = ks_cursor s.

Lemma quiet_still {A} (m : M A) : quiet m -> still m.
Proof using. intros Hm s. by destruct (Hm s) as (_ & ? & _). Qed.
Lemma still_bind {A B} (m : M A) (k : A -> M B) : still m -> (forall a, still (k a)) -> still (m ≫= k).
Proof using.
  intros Hm Hk s. rewrite run_bind. destruct ((m s).1) as [a|e]; [|apply Hm]. by rewrite Hk, Hm.
Qed.
Lemma still_attempt {A} (m : M A) : still m -> still (attempt m).
Proof using. intros Hm s. rewrite attempt_run. apply Hm. Qed.

Lemma submit_still base mult job : still (submit_with_sim base mult job).
Proof using.
  unfold submit_with_sim, get_account_sequence, build_and_simulate, simulate.
  apply still_bind; [apply quiet_still, quiet_try_all|intros seq].
  apply still_bind; [apply quiet_still; quieten; apply quiet_try_all|intros es].
  destruct (si_error es.2); [apply quiet_still, quiet_ret|].
  do 2 (apply still_bind; [apply quiet_still, quiet_lift|intros ?]). cbv zeta.
  do 2 (apply still_bind; [apply quiet_still, quiet_lift|intros ?]).
  unfold submit_polling. apply still_bind; [by intros s|intros r; apply quiet_still, quiet_ret].
Qed.

Lemma drive_loop_still jobs : forall budget, still (drive_loop cfg dry_run jobs budget).
Proof using.
  induction jobs as [|job jobs IH]; intros budget; cbn [drive_loop]; [apply quiet_still, quiet_ret|].
  destruct (try_spend budget) as [b|]; [|apply quiet_still, quiet_ret].
  apply still_bind; [|intros u; apply IH]. unfold drive_job. destruct dry_run.
  - apply still_bind; [apply quiet_still, quiet_attempt, quiet_simulate_job|intros r].
    apply quiet_still. unfold count_tx, record_sim_fee, count_sim_failure. quieten.
  - apply still_bind; [apply still_attempt, submit_still|intros r]. apply quiet_still, quiet_outcome.
Qed.

Lemma drive_jobs_still jobs loop budget : still (drive_jobs cfg dry_run jobs loop budget).
Proof using.
  unfold drive_jobs, count_planned. apply still_bind; [apply quiet_still; apply quiet_metrics|intros u]. apply drive_loop_still.
Qed.

Lemma index_tick_still ids : still (run_index_tick cfg dry_run ids).
Proof using.
  unfold run_index_tick. apply still_bind; [apply quiet_still, quiet_snapshot|intros snap].
  apply still_bind; [apply quiet_still; apply quiet_metrics|intros u].
  destruct (bool_decide _); [apply quiet_still, quiet_ret|].
  apply still_bind; [apply quiet_still, quiet_lift|intros jobs].
  apply still_bind; [apply drive_jobs_still|intros b]. apply quiet_still, quiet_ret.
Qed.

Lemma ttl_jobs_still rs es : still (run_ttl_jobs cfg dry_run rs es).
Proof using.
  unfold run_ttl_jobs. cbv zeta. apply still_bind; [apply quiet_still; apply quiet_metrics|intros u].
  apply still_bind; [apply quiet_still, quiet_lift|intros post].
  apply still_bind; [apply drive_jobs_still|intros b].
  apply still_bind; [apply drive_jobs_still|intros b2]. apply quiet_still, quiet_ret.
Qed.

(** The snapshot a tick would take. *)
Definition snapshot_of (ids : ContractIds) (s : State) : ares DiscoverySnapshot :=
  (snapshot ids (kc_contracts cfg) (kc_schedule cfg) s).1.

Lemma ttl_tick_cursor ids s :
  ks_cursor (run_ttl_tick cfg dry_run ids s).2
  = match snapshot_of ids s with
    | Ok snap => default (ks_cursor s) (ds_next_user_cursor snap)
    | Err _ => ks_cursor s
    end.
Proof using.
  unfold run_ttl_tick, snapshot_of. rewrite run_bind.
  destruct (quiet_snapshot ids (kc_contracts cfg) (kc_schedule cfg) s) as (_ & Hc & _).
  destruct (snapshot _ _ _ s) as [[snap|e] s1]; cbn [fst snd] in *; [|done]. cbv zeta.
  rewrite run_bind. cbn [fst snd on_metrics record_snapshot_metrics modify].
  destruct (plan_restores_Ok snap (safety_margin_ledgers cfg)) as (rs & Er & _).
  destruct (plan_extends_Ok snap (safety_margin_ledgers cfg)) as (es & Ee & _).
  rewrite Er, run_bind. cbn [fst snd lift]. rewrite Ee, run_bind. cbn [fst snd lift].
  rewrite run_bind. unfold commit_user_scan_cursor.
  destruct (ds_next_user_cursor snap) as [next|];
    cbn -[run_ttl_jobs]; rewrite ttl_jobs_still; [done|exact Hc].
Qed.

(** Only a TTL tick moves the scan window, and exactly when its snapshot was taken: then
    the cursor becomes the one the snapshot planned, even if every transaction of the tick
    fails later; a tick without a snapshot leaves it, so no window is skipped.  The index
    loop and the priming at boot never move it. *)
Theorem cursor_moves_with_ttl ids t s :
  ks_cursor (run_tick cfg dry_run ids t s).2
  = match t, snapshot_of ids s with
    | TtlTick, Ok snap => default (ks_cursor s) (ds_next_user_cursor snap)
    | _, _ => ks_cursor s
    end.
Proof using.
  destruct t; unfold run_tick.
  - rewrite run_bind, attempt_run. cbn [fst snd]. rewrite <- ttl_tick_cursor.
    by destruct ((run_ttl_tick cfg dry_run ids s).1).
  - rewrite run_bind, attempt_run. cbn [fst snd]. rewrite <- (index_tick_still ids s).
    destruct ((run_index_tick cfg dry_run ids s).1); by destruct (snapshot_of ids s).
  - transitivity (ks_cursor s); [|by destruct (snapshot_of ids s)].
    apply quiet_still. unfold prime_storage_metrics.
    apply quiet_bind; [apply quiet_attempt, quiet_snapshot|intros r].
    destruct r; [apply quiet_metrics|apply quiet_ret].
Qed.

(** A tick never sends more transactions than [max_txs_per_tick], over its restorations
    and extensions together; a dry run and the priming at boot send none. *)
Theorem tick_budget_kept ids t s :
  exists es, ks_sent (run_tick cfg dry_run ids t s).2 = ks_sent s ++ es
    /\ (length es <= match t with
                     | BootPrime => 0
                     | _ => if dry_run then 0 else sc_max_txs_per_tick (kc_schedule cfg)
                     end)%nat.
Proof using.
  destruct t; unfold run_tick.
  - revert s. change (sends (allowed dry_run (sc_max_txs_per_tick (kc_schedule cfg)))
      (r ← attempt (run_ttl_tick cfg dry_run ids);
       match r with Ok _ => mret () | Err _ => count_failed_tick "ttl" end)).
    rewrite <- (Nat.add_0_r (allowed _ _)). apply sends_bind; [apply sends_attempt, ttl_tick_sends|].
    intros r. apply quiet_sends. destruct r; [apply quiet_ret|apply quiet_metrics].
  - revert s. change (sends (allowed dry_run (sc_max_txs_per_tick (kc_schedule cfg)))
      (r ← attempt (run_index_tick cfg dry_run ids);
       match r with Ok _ => mret () | Err _ => count_failed_tick "index" end)).
    rewrite <- (Nat.add_0_r (allowed _ _)). apply sends_bind; [apply sends_attempt, index_tick_sends|].
    intros r. apply quiet_sends. destruct r; [apply quiet_ret|apply quiet_metrics].
  - revert s. change (sends 0 (prime_storage_metrics cfg ids)). apply quiet_sends.
    unfold prime_storage_metrics. apply quiet_bind; [apply quiet_attempt, quiet_snapshot|intros r].
    destruct r; [apply quiet_metrics|apply quiet_ret].
Qed.

(** *** Submission *)

Lemma quiet_sent {A} (m : M A) s r s' : quiet m -> m s = (r, s') -> ks_sent s' = ks_sent s.
Proof using. intros Hm E. destruct (Hm s) as (K & _). by rewrite E in K. Qed.

(** A lifted result leaves the state. *)
Lemma lift_bind_inv {A B} (x : ares A) (k : A -> M B) s r s' :
  (lift x ≫= k) s = (r, s') -> (exists a, x = Ok a /\ k a s = (r, s')) \/ s' = s.
Proof using.
  intros E. apply bind_inv in E as [(a & s1 & E1 & E)|(e & E1 & _)].
  - injection E1 as -> <-. eauto.
  - injection E1 as _ <-. by right.
Qed.

Lemma source_auth_Ok sim kind : enforce_source_account_auth sim kind = Ok tt ->
  is_footprint_op kind = true
  \/ exists results, si_results sim = Ok results /\ results <> []
       /\ Forall (Forall (fun c => c = SourceAccount)) results.
Proof using.
  unfold enforce_source_account_auth. intros E. apply rbind_Ok in E as (results & Hr & E).
  destruct (is_footprint_op kind); [by left|]. right. apply rbind_Ok in E as (u & Hu & E).
  apply require_Ok in Hu. exists results. split_and!; [done| |].
  - intros ->. by rewrite bool_decide_true in Hu.
  - apply rfold_unit in E. eapply Forall_impl; [exact E|]. intros auth Ha.
    apply rfold_unit in Ha. eapply Forall_impl; [exact Ha|]. intros c Hc. cbv beta in Hc.
    apply require_Ok in Hc. by apply bool_decide_eq_true in Hc.
Qed.

(** C31: a job sends at most one transaction: the one it simulated, completed with the
    simulated resources and the fee, and signed as it is sent.  What is sent carries the job's operation from the keeper's account at the account's
    next sequence number, simulated without error; a contract call only when every authorization
    the simulation asks for is the source account's own.  Its resources are the simulated ones
    with the larger of the bumped and the node's minimum resource fee, both as [i64]; its fee is
    the base fee plus that resource fee if positive, and fits a [u32].  The one signature on it
    is the signer's over that very envelope.  The fee covers the base fee and the node's minimum
    whenever the minimum fits an [i64]: a minimum of [2 ^ 63] or more wraps to a negative number
    and does not count. *)
Theorem submission_guarded base mult job s r s' :
  submit_with_sim base mult job s = (r, s') ->
  ks_sent s' = ks_sent s
  \/ exists t i t' i' seq sim data sig,
       rpc_account_sequence t i signer_account = Ok seq
       /\ rpc_simulate t' i' (build_envelope signer_account (saturating_succ_i64 seq) base (tj_op job)
            (tj_data job)) (if is_footprint_op (tj_kind job) then None else Some Enforce) = Ok sim
       /\ si_error sim = None /\ si_data sim = Ok data
       /\ (is_footprint_op (tj_kind job) = true
           \/ exists results, si_results sim = Ok results /\ results <> []
                /\ Forall (Forall (fun c => c = SourceAccount)) results)
       /\ let resource_fee := Z.max (bump_resource_fee (sd_resource_fee data) mult)
                                (i64_of_u64 (si_min_resource_fee sim)) in
          let fee := base + Z.max resource_fee 0 in
          let envelope signatures :=
            {| ev_source := signer_account;
               ev_fee := fee;
               ev_seq := saturating_succ_i64 seq;
               ev_op := tj_op job;
               ev_data := {| sd_read_only := sd_read_only data;
                             sd_read_write := sd_read_write data;
                             sd_instructions := sd_instructions data;
                             sd_disk_read_bytes := sd_disk_read_bytes data;
                             sd_write_bytes := sd_write_bytes data;
                             sd_resource_fee := resource_fee |};
               ev_signatures := signatures |} in
          sign (envelope []) = Ok sig
          /\ ks_sent s' = ks_sent s ++ [envelope [sig]]
          /\ fee <= u32_max
          /\ (si_min_resource_fee sim < 2 ^ 63 -> base + si_min_resource_fee sim <= fee).
Proof using.
  intros E. unfold submit_with_sim in E.
  apply bind_inv in E as [(seq & s1 & E1 & E)|(x & E1 & _)].
  2: { left. eapply quiet_sent; [|exact E1]. apply quiet_try_all. }
  pose proof E1 as Eq. apply try_all_Ok in Eq as (t & i & Hseq).
  apply quiet_sent in E1; [|apply quiet_try_all]. unfold build_and_simulate in E. cbv zeta in E.
  apply bind_inv in E as [(es & s2 & E2 & E)|(x & E2 & _)].
  2: { left. rewrite <- E1. eapply quiet_sent; [|exact E2]. unfold simulate. quieten. apply quiet_try_all. }
  apply bind_inv in E2 as [(sim & s3 & E3 & E2)|(x & _ & E2)]; [|discriminate E2].
  injection E2 as <- <-. pose proof E3 as E3'. apply try_all_Ok in E3' as (t' & i' & Hsim).
  apply quiet_sent in E3; [|apply quiet_try_all]. cbn [fst snd] in E.
  destruct (si_error sim) as [err|] eqn:Hes; [left; injection E as _ <-; congruence|].
  apply lift_bind_inv in E as [(data & Hd & E)| ->]; [|left; congruence].
  apply lift_bind_inv in E as [([] & Ha & E)| ->]; [|left; congruence].
  apply lift_bind_inv in E as [([] & Hf & E)| ->]; [|left; congruence]. apply require_Ok in Hf.
  apply lift_bind_inv in E as [(signed & Hs & E)| ->]; [|left; congruence].
  unfold sign_envelope in Hs. apply rbind_Ok in Hs as (sig & Hsig & Hs). injection Hs as <-.
  unfold submit_polling in E. rewrite run_bind in E. injection E as _ <-.
  right. exists t, i, t', i', seq, sim, data, sig.
  do 5 (split; [first [exact Hseq|exact Hsim|exact Hes|exact Hd|by apply source_auth_Ok]|]). cbv zeta.
  change (2 ^ 64 - 1) with 18446744073709551615 in *. apply Z.leb_le in Hf. unfold u32_max in *.
  rewrite Z.min_l in * by lia. unfold finalize_envelope, with_resource_fee, build_envelope in *.
  cbn [ev_fee ev_op ev_source ev_seq ev_data fst] in *.
  split; [exact Hsig|]. split; [cbn [snd send ks_sent]; by rewrite E3, E1|]. split; [lia|].
  intros Hm. unfold i64_of_u64. apply Z.ltb_lt in Hm. rewrite Hm. lia.
Qed.

(** *** Failover *)

Lemma try_from_finds {T} (f : N -> nat -> ares T) start i off n : forall remaining offset err s,
  ks_endpoints s = n -> (remaining + offset = n)%nat -> (offset <= off < n)%nat ->
  ((start + off) mod n)%nat = i -> (forall t, is_ok (f t i) = true) -> (start < n)%nat ->
  exists v s', try_from f start remaining offset err s = (Ok v, s')
    /\ exists t, f t (active_index s') = Ok v \/ (active_index s' = active_index s /\ f t start = Ok v).
Proof using.
  induction remaining as [|remaining IH]; intros offset err s Hn Hr Ho Hi Hf Hst; [lia|].
  cbn [try_from]. rewrite Hn. destruct (f (ks_attempts s) ((start + offset) mod n)%nat) as [v|e] eqn:Ef.
  - eexists v, _. split; [done|]. exists (ks_attempts s).
    destruct (Nat.eqb_spec ((start + offset) mod n) start) as [E|E].
    + right. split; [done|]. by rewrite <- E.
    + left. unfold active_index. cbn. rewrite Hn, Nat.Div0.mod_mod. exact Ef.
  - destruct (decide (offset = off)) as [->|Hne].
    + rewrite Hi in Ef. specialize (Hf (ks_attempts s)). by rewrite Ef in Hf.
    + destruct (IH (S offset) (Some e) (tried s)) as (v & s' & E1 & t & E2);
        [done|lia|lia|done|done|done|]. exists v, s'. split; [exact E1|]. exists t. exact E2.
Qed.

(** A read or simulation succeeds as long as one configured endpoint answers, whichever
    is active and whatever the others do; and the endpoint active afterwards is one that
    gave the answer. *)
Theorem failover_finds {T} (f : N -> nat -> ares T) s i :
  (i < ks_endpoints s)%nat -> (forall t, is_ok (f t i) = true) ->
  exists v s', try_all f s = (Ok v, s') /\ exists t, f t (active_index s') = Ok v.
Proof using.
  intros Hi Hf. set (n := ks_endpoints s) in *. unfold try_all.
  assert (active_index s < n)%nat as Hst by (unfold active_index; apply Nat.mod_upper_bound; lia).
  set (off := ((i + (n - active_index s)) mod n)%nat).
  assert (off < n)%nat as Hoff by (apply Nat.mod_upper_bound; lia).
  assert ((active_index s + off) mod n = i)%nat as Hoi.
  { unfold off. rewrite Nat.Div0.add_mod_idemp_r.
    replace (active_index s + (i + (n - active_index s)))%nat with (i + 1 * n)%nat by lia.
    rewrite Nat.Div0.mod_add. by apply Nat.mod_small. }
  destruct (try_from_finds f (active_index s) i off n n 0 None s eq_refl ltac:(lia) ltac:(lia) Hoi Hf Hst)
    as (v & s' & E & t & [E2|[E2 E3]]); exists v, s'; (split; [exact E|]); exists t; [done|by rewrite E2].
Qed.

End Cover.

End KeeperCover.

(** ** Two nodes, the first of them down *)

Module KeeperSample.

Import Config Keys Classify Svc Client Tx Discovery Sched KeeperSteps KeeperPlans KeeperCover.

Definition controller_id : Id := [1].
Definition pool_id : Id := [2].
Definition nft_id : Id := [3].

Definition key_of (name : string) : ScVal := ScVec (Some [ScSymbol name]).

Definition controller_instance : ScContractInstance :=
  mkInstance (ExecWasm [9]) (Some
    [(key_of "Pool", ScAddressVal (ScContract pool_id));
     (key_of "PositionNft", ScAddressVal (ScContract nft_id));
     (key_of "LastHubId", ScU32 1); (key_of "LastSpokeId", ScU32 1)]).

(** Three accounts exist: the counter is at 4.  Every entry lives until ledger 1,100. *)
Definition node_entry (k : LedgerKey) : option FullEntry :=
  match k with
  | ContractData (ScContract c) ScLedgerKeyContractInstance _ =>
      if bool_decide (c = nft_id) then
        Some (mkFullEntry k (DataEntry (ScInstance (ExecWasm [8])
                (Some [(key_of "TokenIdCounter", ScU32 4)]))) (Some 1100))
      else Some (mkFullEntry k (DataEntry (ScInstance (ExecWasm [9]) None)) (Some 1100))
  | ContractData _ (ScVec (Some [ScSymbol "ExistingRoles"])) _ => None
  | _ => Some (mkFullEntry k (DataEntry (ScU32 0)) (Some 1100))
  end.

Definition when_up {A : Type} (i : nat) (a : A) : ares A :=
  if (i =? 1)%nat then Ok a else Err "connection refused"%string.

#[export] Instance sample_rpc : Rpc := {
  rpc_latest_ledger := fun _ i => when_up i 1000;
  rpc_contract_instance := fun _ i _ => when_up i controller_instance;
  rpc_ledger_entries := fun _ i keys => when_up i (omap node_entry keys);
  rpc_account_sequence := fun _ i _ => when_up i 41;
  rpc_simulate := fun _ i e _ => when_up i
    (mkSimulation None (Ok (mkSorobanData (sd_read_only (ev_data e)) (sd_read_write (ev_data e))
                              0 0 0 5000)) (Ok []) 5500);
  rpc_send := fun _ _ _ => SendStatus "SUCCESS"
}.

Definition bytes (s : string) : list Z :=
  map (fun a => Z.of_N (Ascii.N_of_ascii a)) (String.list_ascii_of_string s).

#[export] Instance sample_codec : Codec := {
  contract_of_strkey := fun s => Ok (bytes s);
  account_of_strkey := fun s => Ok (bytes s);
  hex_decode := fun s => Ok (bytes s);
  signer_account := [77];
  sign := fun e => Ok [ev_fee e]
}.

Definition sample_ids : ContractIds := mkIds controller_id [9] None None None None None None.
Definition sample_contracts : ContractsConfig :=
  mkContracts "C" "" None [mkMarket 1 "CA"] [] None None None None None [] [] [].
Definition sample_schedule : ScheduleConfig := mkSchedule 1 10 5 false true 2.
Definition boot : State := mkState 2 0 0 1 no_metrics [].

Definition taken : ares DiscoverySnapshot * State :=
  snapshot sample_ids sample_contracts sample_schedule boot.
Definition no_snapshot : DiscoverySnapshot := mkSnapshot 0 [] [] [] [] 0 None None None.
Definition sample_snapshot : DiscoverySnapshot :=
  match taken.1 with Ok snap => snap | Err _ => no_snapshot end.

Lemma taken_ok : snapshot sample_ids sample_contracts sample_schedule boot = (Ok sample_snapshot, taken.2).
Proof. vm_compute. reflexivity. Qed.

Lemma snapshot_covers_witness :
  ds_next_user_cursor sample_snapshot = Some 3 /\ ds_max_account_id sample_snapshot = 3
  /\ contract_data_key controller_id (ScVec (Some [ScSymbol "AccountMeta"; ScU64 2])) Persistent
       ∈ lq_key <$> ds_persistent sample_snapshot.
Proof.
  assert (ds_max_account_id sample_snapshot = 3) as Hm by (vm_compute; reflexivity).
  assert (ks_cursor boot = 1) as Hc by reflexivity.
  destruct (snapshot_covers sample_ids sample_contracts sample_schedule boot sample_snapshot taken.2
              taken_ok) as (_ & Hu & _).
  destruct (Hu eq_refl) as [Hn Hk]; [rewrite Hm; reflexivity|]. rewrite Hm, Hc in Hn, Hk.
  split; [exact Hn|split; [exact Hm|]].
  assert (exists keys, account_keys (ci_controller sample_ids) (ds_position_nft_id sample_snapshot) 2 = Ok keys
    /\ contract_data_key controller_id (ScVec (Some [ScSymbol "AccountMeta"; ScU64 2])) Persistent ∈ keys)
    as (keys & Ek & Hin).
  { eexists. split; [vm_compute; reflexivity|]. apply elem_of_cons. left. reflexivity. }
  apply (Hk 2 keys); [|exact Ek|exact Hin]. apply elem_of_cons. right. apply elem_of_cons. left. reflexivity.
Defined.

Definition sample_job : TxJob :=
  mkJob ExtendFootprintTtl (OpExtendFootprintTtl MAX_LEDGERS_TO_EXTEND)
    (Some (mkSorobanData [contract_instance_key controller_id] [] 0 0 0 0)).

Definition submitted : ares SubmitOutcome * State := submit_with_sim 100 ONE sample_job boot.

Lemma submission_guarded_witness :
  submitted.1 = Ok (Success 5000) /\ length (ks_sent submitted.2) = 1%nat
  /\ exists e sig, ks_sent submitted.2 = [e] /\ ev_fee e <= u32_max /\ ev_signatures e = [sig]
     /\ sign (mkEnvelope (ev_source e) (ev_fee e) (ev_seq e) (ev_op e) (ev_data e) []) = Ok sig.
Proof.
  assert (submitted.1 = Ok (Success 5000)) as Hr by (vm_compute; reflexivity).
  assert (length (ks_sent submitted.2) = 1%nat) as Hl by (vm_compute; reflexivity).
  split; [exact Hr|split; [exact Hl|]].
  destruct (submission_guarded 100 ONE sample_job boot submitted.1 submitted.2
              (surjective_pairing submitted))
    as [E|(t & i & t' & i' & seq & sim & data & sig & _ & _ & _ & _ & _ & G & E & F & _)].
  - exfalso. rewrite E in Hl. discriminate Hl.
  - eexists _, sig. split; [exact E|]. split; [exact F|]. split; [reflexivity|exact G].
Defined.

Lemma failover_finds_witness :
  exists v s', try_all (fun _ i => when_up i 1000) boot = (Ok v, s') /\ v = 1000.
Proof.
  assert (1 < ks_endpoints boot)%nat as H1 by (vm_compute; lia).
  destruct (failover_finds (fun _ i => when_up i 1000) boot 1 H1 (fun _ => eq_refl)) as (v & s' & E & t & Hv).
  exists v, s'. split; [exact E|]. unfold when_up in Hv. destruct (active_index s' =? 1)%nat; congruence.
Defined.

End KeeperSample.
