(* ===== verification/Exporter.v ===== *)
(** * The metrics exporter (services/lending-exporter/src/)

    The exporter reads the protocol through simulated views and publishes gauges.  Its state
    is the metrics registry, the cache of unlisted spoke assets and a count of simulations;
    [M] threads it, with [None] for a panic.  A node may answer each request as it likes
    ([Node]: the answer depends on how many requests were made before); string forms of
    addresses, lossy UTF-8, the text encoding of the registry and [f64::powi], whose precision
    Rust leaves open, are the parameters [Lib].  A float is a [spec_float] of the Standard
    Library, the binary64 of IEEE 754 with ties to even, as [f64].  Messages of errors are kept
    only where the code reads them.

    Modules: [F64] and [Model] (model.rs), [Text] (trimming, error codes), [XConfig]
    (config.rs), [Sc] (scval.rs), [XKeys] (keys.rs), [Decode] (contract/), [Reg] (metrics.rs),
    [View] (stellar/), [Collector] (collector.rs and the loop of main.rs). *)

From S2P Require Import Prelude Errors FpCore KeeperKeys Keeper.
From stdpp Require Import base numbers list gmap strings pretty.
From Stdlib Require Import ZArith Lia Bool SpecFloat Ascii.

Open Scope Z_scope.

(** ** Parameters *)

Class Lib : Type := {
  powi : spec_float -> Z -> spec_float;
  utf8_lossy : string -> string;
  contract_from_string : string -> ares Id;
  contract_to_string : Id -> string;
  account_to_string : Id -> string;
  encode_text : gmap (string * list string) spec_float -> gmap (string * list string) Z -> ares string
}.

(** [SimulateTransactionResponse]: the error and the decoded results. *)
Record SimResponse : Type := mkSim {
  sim_error : option string;
  sim_results : ares (list ScVal)
}.

Record NodeEntry : Type := mkNodeEntry { ne_key : LedgerKey; ne_val : LedgerEntryData }.

(** The node's answer to the [t]-th request of the process, and the clocks at that time: the
    monotonic one in nanoseconds, the wall clock in seconds. *)
Class Node : Type := {
  nd_simulate : N -> Envelope -> ares SimResponse;
  nd_latest_ledger : N -> ares Z;
  nd_close_time : N -> Z -> ares Z;
  nd_entries : N -> list LedgerKey -> ares (list NodeEntry);
  nd_instant : N -> Z;
  nd_wall : N -> Z
}.

(** ** Floats *)

Module F64.

Definition of_Z (z : Z) : spec_float := binary_normalize 53 1024 z 0 false.
Definition add : spec_float -> spec_float -> spec_float := SFadd 53 1024.
Definition sub : spec_float -> spec_float -> spec_float := SFsub 53 1024.
Definition mul : spec_float -> spec_float -> spec_float := SFmul 53 1024.
Definition div : spec_float -> spec_float -> spec_float := SFdiv 53 1024.
Definition ltb : spec_float -> spec_float -> bool := SFltb.
Definition zero : spec_float := S754_zero false.
Definition one : spec_float := of_Z 1.

Definition is_finite (x : spec_float) : bool :=
  match x with S754_zero _ | S754_finite _ _ _ => true | _ => false end.

Definition of_bool (b : bool) : spec_float := if b then one else zero.

(** [as i32], [as i64] and the wrapping of [i64] and [i128] arithmetic *)
Definition wrap (w z : Z) : Z := (z + 2 ^ (w - 1)) mod 2 ^ w - 2 ^ (w - 1).

End F64.

(** ** Denominations (model.rs) *)

Module Model.

Import F64.

Definition RAY_F64 : spec_float := of_Z (10 ^ 27).
Definition WAD_F64 : spec_float := of_Z (10 ^ 18).
Definition BPS_F64 : spec_float := of_Z (10 ^ 4).
Definition MS_PER_DAY : spec_float := of_Z 86400000.
Definition DAYS_PER_YEAR : Z := 365.
Definition MS_PER_YEAR : spec_float := of_Z 31556926000.

Definition ray_to_f64 (value : Z) : spec_float := div (of_Z value) RAY_F64.
Definition wad_to_f64 (value : Z) : spec_float := div (of_Z value) WAD_F64.
Definition bps_to_ratio (value : Z) : spec_float := div (of_Z value) BPS_F64.

Definition deviation_bps (primary_wad anchor_wad : Z) : option spec_float :=
  if anchor_wad =? 0 then None
  else
    let dev := div (SFabs (sub (of_Z primary_wad) (of_Z anchor_wad))) (of_Z anchor_wad) in
    Some (mul dev BPS_F64).

Definition scaled_usage_to_token (scaled_ray index_ray : Z) : spec_float :=
  mul (ray_to_f64 scaled_ray) (ray_to_f64 index_ray).

Definition seconds_until_stale (now_secs feed_ts_secs max_stale_secs : Z) : spec_float :=
  let age := wrap 64 (now_secs - wrap 64 feed_ts_secs) in
  sub (of_Z max_stale_secs) (of_Z age).

Definition market_closed (cap_base_units : Z) : spec_float :=
  if cap_base_units <=? 0 then one else zero.

Section Model.

Context `{Lib}.

(** [10f64.powi(decimals as i32)] *)
Definition ten_to (decimals : Z) : spec_float := powi (of_Z 10) (wrap 32 decimals).

Definition token_to_f64 (base_units decimals : Z) : spec_float :=
  div (of_Z base_units) (ten_to decimals).

Definition token_usd (base_units decimals price_wad : Z) : spec_float :=
  mul (token_to_f64 base_units decimals) (wad_to_f64 price_wad).

Definition apy_from_annual_ray (annual_rate_ray : Z) : spec_float :=
  let apr := div (of_Z annual_rate_ray) RAY_F64 in
  let daily := div (mul apr MS_PER_DAY) MS_PER_YEAR in
  sub (powi (add one daily) DAYS_PER_YEAR) one.

Definition effective_cap_tokens (cap_base_units decimals : Z) : option spec_float :=
  if cap_base_units <=? 0 then None
  else
    let cap := token_to_f64 cap_base_units decimals in
    if SFeqb cap zero || negb (is_finite cap) then None else Some cap.

Definition cap_utilization (usage_token : spec_float) (cap_base_units decimals : Z) : option spec_float :=
  (fun cap => div usage_token cap) <$> effective_cap_tokens cap_base_units decimals.

Definition market_closed_at (cap_base_units decimals : Z) : spec_float :=
  match effective_cap_tokens cap_base_units decimals with None => one | Some _ => zero end.

End Model.

End Model.

(** ** Strings *)

Module Text.

(** The UTF-8 encodings of the characters [str::trim] removes (Unicode's White_Space). *)
Definition white : list (list ascii) :=
  map (map ascii_of_nat)
    ([[9]; [10]; [11]; [12]; [13]; [32]; [194; 133]; [194; 160]; [225; 154; 128]]
     ++ map (fun b => [226; 128; 128 + b]) (seq 0 11)
     ++ [[226; 128; 168]; [226; 128; 169]; [226; 128; 175]; [226; 129; 159]; [227; 128; 128]])%nat.

(** Drops a prefix that is one of [ws]. *)
Fixpoint strip_one (ws : list (list ascii)) (l : list ascii) : option (list ascii) :=
  match ws with
  | [] => None
  | w :: ws => if bool_decide (take (length w) l = w) then Some (drop (length w) l) else strip_one ws l
  end.

Fixpoint strip (fuel : nat) (ws : list (list ascii)) (l : list ascii) : list ascii :=
  match fuel, strip_one ws l with
  | S fuel, Some l => strip fuel ws l
  | _, _ => l
  end.

Definition trim (s : string) : string :=
  let l := String.list_ascii_of_string s in
  let l := strip (length l) white l in
  String.string_of_list_ascii (rev (strip (length l) (map (@rev ascii) white) (rev l))).

(** [s.trim().is_empty()] *)
Definition blank (s : string) : bool := bool_decide (trim s = ""%string).

Definition is_digit (c : ascii) : bool := (48 <=? nat_of_ascii c)%nat && (nat_of_ascii c <=? 57)%nat.

(** What follows the first ['#'], if any. *)
Fixpoint after_hash (l : list ascii) : option (list ascii) :=
  match l with
  | [] => None
  | c :: l => if bool_decide (c = "#"%char) then Some l else after_hash l
  end.

Fixpoint take_digits (l : list ascii) : list ascii :=
  match l with
  | c :: l => if is_digit c then c :: take_digits l else []
  | [] => []
  end.

Definition bucket_error_code (msg : string) : string :=
  match after_hash (String.list_ascii_of_string msg) with
  | Some l =>
      let digits := take_digits l in
      match digits with [] => "unknown" | _ => String.string_of_list_ascii digits end
  | None => "unknown"
  end.

End Text.

(** ** Values (scval.rs) *)

Module Sc.

Import F64.

Section Sc.

Context `{Lib}.

Definition symbol_text (value : ScVal) : option string :=
  match value with ScSymbol s => Some (utf8_lossy s) | _ => None end.

Definition string_text (value : ScVal) : option string :=
  match value with ScString s => Some (utf8_lossy s) | _ => None end.

(** The first entry whose key is the symbol. *)
Fixpoint find_field (name : string) (l : list (ScVal * ScVal)) : option ScVal :=
  match l with
  | [] => None
  | (k, v) :: l => if bool_decide (symbol_text k = Some name) then Some v else find_field name l
  end.

Definition map_field (value : ScVal) (name : string) : option ScVal :=
  match value with ScMap (Some l) => find_field name l | _ => None end.

Definition as_i128 (value : ScVal) : option Z :=
  match value with
  | ScI128 hi lo => Some (Z.lor (Z.shiftl hi 64) lo)
  | ScU128 hi lo => Some (Z.lor (wrap 128 (Z.shiftl hi 64)) lo)
  | ScI64 v | ScU64 v | ScI32 v | ScU32 v => Some v
  | _ => None
  end.

Definition as_u64 (value : ScVal) : option Z :=
  match value with
  | ScU64 v | ScU32 v => Some v
  | ScI64 v => if 0 <=? v then Some v else None
  | _ => None
  end.

Definition as_u32 (value : ScVal) : option Z := match value with ScU32 v => Some v | _ => None end.
Definition as_bool (value : ScVal) : option bool := match value with ScBool b => Some b | _ => None end.

Definition field_i128 (value : ScVal) (name : string) : option Z := map_field value name ≫= as_i128.
Definition field_u64 (value : ScVal) (name : string) : option Z := map_field value name ≫= as_u64.
Definition field_u32 (value : ScVal) (name : string) : option Z := map_field value name ≫= as_u32.
Definition field_bool (value : ScVal) (name : string) : option bool := map_field value name ≫= as_bool.

Definition as_contract_id (value : ScVal) : option Id :=
  match value with ScAddressVal (ScContract c) => Some c | _ => None end.

Definition address_strkey (value : ScVal) : option string :=
  match value with
  | ScAddressVal (ScContract c) => Some (contract_to_string c)
  | ScAddressVal (ScAccount k) => Some (account_to_string k)
  | _ => None
  end.

Definition enum_variant (value : ScVal) : option (string * list ScVal) :=
  match value with
  | ScVec (Some (head :: rest)) => (fun tag => (tag, rest)) <$> symbol_text head
  | _ => None
  end.

Definition vec_items (value : ScVal) : option (list ScVal) :=
  match value with ScVec (Some items) => Some items | _ => None end.

End Sc.

End Sc.

(** ** Keys (keys.rs) *)

Module XKeys.

Import Keys.

Definition hub_asset_key_sc_val (hub_asset : HubAssetKey) : ares ScVal :=
  let* k1 := symbol_val "asset" in
  let* k2 := symbol_val "hub_id" in
  let* entries := vec_m [(k1, sc_address_contract (hk_asset hub_asset)); (k2, ScU32 (hk_hub_id hub_asset))]
                    "hub asset map convert" in
  Ok (ScMap (Some entries)).

(** [keys.iter().map(f).collect::<Result<Vec<_>>>()] *)
Fixpoint collect {A B : Type} (f : A -> ares B) (l : list A) : ares (list B) :=
  match l with
  | [] => Ok []
  | x :: l => let* y := f x in let* ys := collect f l in Ok (y :: ys)
  end.

Definition hub_asset_vec_sc_val (keys : list HubAssetKey) : ares ScVal :=
  let* items := collect hub_asset_key_sc_val keys in
  let* items := vec_m items "hub asset vec exceeds ScVec capacity" in
  Ok (ScVec (Some items)).

Definition asset_oracle_ledger_key (price_aggregator_id asset_id : Id) : ares LedgerKey :=
  let* price_key := sc_enum "Token" [sc_address_contract asset_id] in
  let* key := sc_enum "Oracle" [price_key] in
  Ok (contract_data_key price_aggregator_id key Persistent).

Definition contract_id_from_strkey `{Lib} (c_strkey : string) : ares Id :=
  contract_from_string (Text.trim c_strkey).

End XKeys.

(** ** Configuration (config.rs) *)

Module XConfig.

Import XKeys Text.

Definition MIN_SCRAPE_INTERVAL_SECONDS : Z := 5.

Record MarketConfig : Type := mkXMarket { xm_hub_id : Z; xm_asset : string; xm_symbol : string }.

Record ExporterConfig : Type := mkExporterConfig {
  xc_network : string;
  xc_rpc_url : string;
  xc_rpc_passphrase : string;
  xc_controller : string;
  xc_price_aggregator : option string;
  xc_xoxno_oracle_adapter : option string;
  xc_markets : list MarketConfig;
  xc_spokes : list Z;
  xc_hubs : gmap Z string;
  xc_spoke_names : gmap Z string;
  xc_scrape_interval_seconds : Z
}.

Record ResolvedMarket : Type := mkResolvedMarket {
  rm_hub_id : Z;
  rm_asset_id : Id;
  rm_asset_strkey : string;
  rm_symbol : string
}.

Record ResolvedContracts : Type := mkResolved {
  rc_controller : Id;
  rc_price_aggregator : option Id;
  rc_oracle_adapter : option Id;
  rc_markets : list ResolvedMarket
}.

Definition hub_name (cfg : ExporterConfig) (hub_id : Z) : string :=
  default ("Hub " +:+ pretty hub_id) (xc_hubs cfg !! hub_id).

Definition spoke_name (cfg : ExporterConfig) (spoke_id : Z) : string :=
  default ("Spoke " +:+ pretty spoke_id) (xc_spoke_names cfg !! spoke_id).

(** [std::env::var] *)
Definition override_nonempty (var : string -> option string) (name target : string) : string :=
  match var name with
  | Some value => if negb (blank value) then value else target
  | None => target
  end.

Definition override_optional (var : string -> option string) (name : string) (target : option string)
    : option string :=
  match var name with
  | Some value => if blank value then None else Some value
  | None => target
  end.

Definition apply_environment_overrides (var : string -> option string) (cfg : ExporterConfig)
    : ExporterConfig :=
  mkExporterConfig (xc_network cfg) (override_nonempty var "EXPORTER_RPC_URL" (xc_rpc_url cfg))
    (xc_rpc_passphrase cfg) (override_nonempty var "EXPORTER_CONTROLLER" (xc_controller cfg))
    (override_optional var "EXPORTER_PRICE_AGGREGATOR" (xc_price_aggregator cfg))
    (override_optional var "EXPORTER_XOXNO_ORACLE_ADAPTER" (xc_xoxno_oracle_adapter cfg))
    (xc_markets cfg) (xc_spokes cfg) (xc_hubs cfg) (xc_spoke_names cfg)
    (xc_scrape_interval_seconds cfg).

Section XConfig.

Context `{Lib}.

(** An address that may be absent or blank. *)
Definition optional_address (o : option string) : ares (option Id) :=
  match o with
  | Some a => if negb (blank a) then let* id := contract_id_from_strkey a in Ok (Some id) else Ok None
  | None => Ok None
  end.

Definition validate (cfg : ExporterConfig) : ares unit :=
  do! require (negb (blank (xc_rpc_url cfg))) "rpc.url is empty"%string in
  do! require (negb (blank (xc_rpc_passphrase cfg))) "rpc.passphrase is empty"%string in
  let* _ := contract_id_from_strkey (xc_controller cfg) in
  let* _ := optional_address (xc_price_aggregator cfg) in
  let* _ := optional_address (xc_xoxno_oracle_adapter cfg) in
  do! rfold (fun _ market =>
        let* _ := contract_id_from_strkey (xm_asset market) in
        require (negb (blank (xm_symbol market))) "market has an empty symbol"%string)
        tt (xc_markets cfg) in
  require (MIN_SCRAPE_INTERVAL_SECONDS <=? xc_scrape_interval_seconds cfg)
    "scrape_interval_seconds below minimum"%string.

Definition resolve_market (m : MarketConfig) : ares ResolvedMarket :=
  let* asset_id := contract_id_from_strkey (xm_asset m) in
  Ok (mkResolvedMarket (xm_hub_id m) asset_id (xm_asset m) (xm_symbol m)).

Definition resolve (cfg : ExporterConfig) : ares ResolvedContracts :=
  let* controller := contract_id_from_strkey (xc_controller cfg) in
  let* price_aggregator := optional_address (xc_price_aggregator cfg) in
  let* oracle_adapter := optional_address (xc_xoxno_oracle_adapter cfg) in
  let* markets := collect resolve_market (xc_markets cfg) in
  Ok (mkResolved controller price_aggregator oracle_adapter markets).

End XConfig.

End XConfig.

(** ** Decoders (contract/controller.rs, pool.rs, oracle.rs) *)

Module Decode.

Import Sc F64.

Record MarketIndexView : Type := mkIndexView {
  mi_supply_index_ray : Z;
  mi_borrow_index_ray : Z;
  mi_final_price_wad : Z;
  mi_primary_price_wad : Z;
  mi_anchor_price_wad : Z;
  mi_price_timestamp : Z;
  mi_stale : bool;
  mi_deviation : bool;
  mi_valid : bool;
  mi_error_code : option Z
}.

Record SpokeConfig : Type := mkXSpoke {
  xs_is_deprecated : bool;
  xs_liquidation_target_hf_wad : Z;
  xs_hf_for_max_bonus_wad : Z;
  xs_liquidation_bonus_factor_bps : Z
}.

Record SpokeAssetConfig : Type := mkXSpokeAsset {
  xa_is_collateralizable : bool;
  xa_is_borrowable : bool;
  xa_paused : bool;
  xa_frozen : bool;
  xa_loan_to_value_bps : Z;
  xa_liquidation_threshold_bps : Z;
  xa_liquidation_bonus_bps : Z;
  xa_liquidation_fees_bps : Z;
  xa_supply_cap : Z;
  xa_borrow_cap : Z
}.

Record SpokeUsage : Type := mkXUsage { xu_supplied_scaled_ray : Z; xu_borrowed_scaled_ray : Z }.

Record MarketParams : Type := mkXParams {
  xp_asset_decimals : Z;
  xp_reserve_factor_bps : Z;
  xp_is_flashloanable : bool;
  xp_flashloan_fee_bps : Z;
  xp_max_borrow_rate_ray : Z;
  xp_base_borrow_rate_ray : Z;
  xp_slope1_ray : Z;
  xp_slope2_ray : Z;
  xp_slope3_ray : Z;
  xp_mid_utilization_ray : Z;
  xp_optimal_utilization_ray : Z;
  xp_max_utilization_ray : Z
}.

Record MarketSync : Type := mkXSync { xy_params : MarketParams; xy_last_timestamp : Z }.

Inductive OracleKind : Type := KReflector | KRedStone | KXoxno | KChainlink.

Record OracleSource : Type := mkOracleSource {
  os_kind : OracleKind;
  os_contract : string;
  os_asset_ref : option ScVal;
  os_feed_id : option string;
  os_data_id : option ScVal;
  os_decimals : Z;
  os_max_stale_seconds : Z
}.

Record LpFloor : Type := mkLpFloor {
  lf_pool : string;
  lf_min_pool_value_wad : Z;
  lf_supply_view : string
}.

Record OracleConfig : Type := mkOracleConfig {
  og_max_price_stale_seconds : Z;
  og_tolerance_upper_bps : Z;
  og_tolerance_lower_bps : Z;
  og_source_count : Z;
  og_min_sanity_price_wad : Z;
  og_max_sanity_price_wad : Z;
  og_sources : list OracleSource;
  og_lp_floor : option LpFloor
}.

Section Decode.

Context `{Lib}.

Definition missing {A : Type} (o : option A) (what : string) : ares A :=
  of_option (what +:+ " missing") o.

Definition decode_market_index_row (value : ScVal) : ares MarketIndexView :=
  let* supply_index := missing (field_i128 value "supply_index") "supply_index" in
  let* borrow_index := missing (field_i128 value "borrow_index") "borrow_index" in
  let* price_wad := missing (field_i128 value "price_wad") "price_wad" in
  let* primary := missing (field_i128 value "primary_price_wad") "primary_price_wad" in
  let* anchor := missing (field_i128 value "anchor_price_wad") "anchor_price_wad" in
  Ok (mkIndexView supply_index borrow_index price_wad primary anchor
        (default 0 (field_u64 value "price_timestamp")) (default false (field_bool value "stale"))
        (default false (field_bool value "deviation")) (default false (field_bool value "valid"))
        (field_u32 value "error_code")).

Definition decode_market_indexes (value : ScVal) : ares (list MarketIndexView) :=
  let* items := of_option "expected Vec<MarketIndexView>"%string (vec_items value) in
  XKeys.collect decode_market_index_row items.

Definition decode_spoke (value : ScVal) : ares SpokeConfig :=
  Ok (mkXSpoke (default false (field_bool value "is_deprecated"))
        (default 0 (field_i128 value "liquidation_target_hf_wad"))
        (default 0 (field_i128 value "hf_for_max_bonus_wad"))
        (default 0 (field_u32 value "liquidation_bonus_factor_bps"))).

Definition decode_spoke_asset (value : ScVal) : ares SpokeAssetConfig :=
  let* supply_cap := missing (field_i128 value "supply_cap") "supply_cap" in
  let* borrow_cap := missing (field_i128 value "borrow_cap") "borrow_cap" in
  Ok (mkXSpokeAsset (default false (field_bool value "is_collateralizable"))
        (default false (field_bool value "is_borrowable"))
        (default false (field_bool value "paused")) (default false (field_bool value "frozen"))
        (default 0 (field_u32 value "loan_to_value"))
        (default 0 (field_u32 value "liquidation_threshold"))
        (default 0 (field_u32 value "liquidation_bonus"))
        (default 0 (field_u32 value "liquidation_fees")) supply_cap borrow_cap).

Definition decode_spoke_usage (value : ScVal) : ares SpokeUsage :=
  match value with
  | ScMap _ =>
      Ok (mkXUsage (default 0 (field_i128 value "supplied_scaled_ray"))
            (default 0 (field_i128 value "borrowed_scaled_ray")))
  | _ => Err "expected SpokeUsageRaw map"%string
  end.

Definition decode_i128 (value : ScVal) : ares Z := of_option "expected i128"%string (as_i128 value).

Definition decode_sync_data (value : ScVal) : ares MarketSync :=
  let* params := missing (map_field value "params") "PoolSyncData.params" in
  let* state := missing (map_field value "state") "PoolSyncData.state" in
  let* asset_decimals := missing (field_u32 params "asset_decimals") "params.asset_decimals" in
  let* reserve_factor := missing (field_u32 params "reserve_factor") "params.reserve_factor" in
  Ok (mkXSync
        (mkXParams asset_decimals reserve_factor (default false (field_bool params "is_flashloanable"))
           (default 0 (field_u32 params "flashloan_fee"))
           (default 0 (field_i128 params "max_borrow_rate"))
           (default 0 (field_i128 params "base_borrow_rate"))
           (default 0 (field_i128 params "slope1")) (default 0 (field_i128 params "slope2"))
           (default 0 (field_i128 params "slope3")) (default 0 (field_i128 params "mid_utilization"))
           (default 0 (field_i128 params "optimal_utilization"))
           (default 0 (field_i128 params "max_utilization")))
        (default 0 (field_u64 state "last_timestamp"))).

Definition decode_lp_floor (value : ScVal) : option LpFloor :=
  '(tag, payload) ← enum_variant value;
  inner ← head payload;
  pool ← map_field inner "pool" ≫= address_strkey;
  min_pool_value_wad ← field_i128 inner "min_pool_value_wad";
  Some (mkLpFloor pool min_pool_value_wad
          (if bool_decide (tag = "CurveStableLp"%string) then "total_supply" else "get_total_shares")).

Definition decode_feed_source (value : ScVal) : ares OracleSource :=
  let* provider := missing (map_field value "provider") "provider" in
  let* max_stale_seconds := missing (field_u64 value "max_stale_seconds") "max_stale_seconds" in
  let* decimals := missing (field_u32 value "decimals") "decimals" in
  let* (tag, payload) := of_option "provider not enum-tagged"%string (enum_variant provider) in
  let* inner := of_option "provider has no payload"%string (head payload) in
  let* contract := missing (map_field inner "contract" ≫= address_strkey) "provider contract" in
  if bool_decide (tag = "Reflector"%string) then
    let* asset_ref := missing (map_field inner "asset") "Reflector asset" in
    Ok (mkOracleSource KReflector contract (Some asset_ref) None None decimals max_stale_seconds)
  else if bool_decide (tag = "RedStone"%string) || bool_decide (tag = "Xoxno"%string) then
    let kind := if bool_decide (tag = "RedStone"%string) then KRedStone else KXoxno in
    let* feed_id := missing (map_field inner "feed_id" ≫= string_text) "feed_id" in
    Ok (mkOracleSource kind contract None (Some feed_id) None decimals max_stale_seconds)
  else if bool_decide (tag = "Chainlink"%string) then
    let* data_id := missing (map_field inner "data_id") "Chainlink data_id" in
    Ok (mkOracleSource KChainlink contract None None (Some data_id) decimals max_stale_seconds)
  else Err "unknown provider variant"%string.

Definition decode_price_source (value : ScVal) : ares (option OracleSource) :=
  let* (tag, payload) := of_option "price source not enum-tagged"%string (enum_variant value) in
  let* inner := of_option "price source has no payload"%string (head payload) in
  if bool_decide (tag = "Feed"%string) then
    let* s := decode_feed_source inner in Ok (Some s)
  else if bool_decide (tag = "Scaled"%string) then
    let* factor := missing (map_field inner "factor") "factor" in
    let* s := decode_feed_source factor in Ok (Some s)
  else if bool_decide (tag ∈ ["AquariusLp"; "AquariusStableLp"; "CurveStableLp"]%string) then Ok None
  else Err "unknown price source variant"%string.

Definition decode_oracle_config (value : ScVal) : ares OracleConfig :=
  let* max_price_stale_seconds :=
    missing (field_u64 value "max_price_stale_seconds") "max_price_stale_seconds" in
  let* tolerance := missing (map_field value "tolerance") "tolerance" in
  let* tolerance_upper_bps := missing (field_u32 tolerance "upper_ratio_bps") "upper_ratio_bps" in
  let* tolerance_lower_bps := missing (field_u32 tolerance "lower_ratio_bps") "lower_ratio_bps" in
  let* min_sanity := missing (field_i128 value "min_sanity_price_wad") "min_sanity_price_wad" in
  let* max_sanity := missing (field_i128 value "max_sanity_price_wad") "max_sanity_price_wad" in
  let* sources_val := missing (map_field value "sources") "sources" in
  let* raw_sources := of_option "sources not a Vec"%string (vec_items sources_val) in
  let source_count := Z.of_nat (length raw_sources) mod 2 ^ 32 in
  let* (sources, lp_floor) := rfold (fun acc raw =>
      let* decoded := decode_price_source raw in
      match decoded with
      | Some source => Ok (acc.1 ++ [source], acc.2)
      | None => Ok (acc.1, decode_lp_floor raw)
      end) ([], None) raw_sources in
  Ok (mkOracleConfig max_price_stale_seconds tolerance_upper_bps tolerance_lower_bps source_count
        min_sanity max_sanity sources lp_floor).

Definition retag_enum (variant : string) (payload : ScVal) : ares ScVal :=
  let* s := Keys.symbol variant in
  let* items := Keys.vec_m [ScSymbol s; payload] "retag vec" in
  Ok (ScVec (Some items)).

Definition oracle_asset_ref_to_reflector_arg (asset_ref : ScVal) : ares ScVal :=
  let* (tag, payload) := of_option "asset ref not enum-tagged"%string (enum_variant asset_ref) in
  if bool_decide (tag = "Stellar"%string) then Ok asset_ref
  else if bool_decide (tag = "Symbol"%string) then
    let* sym := of_option "Symbol asset ref empty"%string (head payload) in
    retag_enum "Other" sym
  else Err "unsupported oracle asset ref variant"%string.

(** [StringM]: at most [u32::MAX] bytes. *)
Definition feed_id_arg (feed_id : string) : ares ScVal :=
  if Z.of_nat (String.length feed_id) <=? u32_max then Ok (ScString feed_id)
  else Err "feed id too long"%string.

(** The decoders of prices return the feed's timestamp in seconds. *)
Definition decode_reflector_price (value : ScVal) : ares (option Z) :=
  match value with
  | ScVoid => Ok None
  | _ => let* ts := missing (field_u64 value "timestamp") "timestamp" in Ok (Some ts)
  end.

Definition decode_redstone_price (value : ScVal) : ares Z :=
  let* package_ms := missing (field_u64 value "package_timestamp") "package_timestamp" in
  let* write_ms := missing (field_u64 value "write_timestamp") "write_timestamp" in
  Ok (Z.min package_ms write_ms / 1000).

Definition decode_chainlink_round (value : ScVal) : ares Z :=
  match map_field value "answer" with
  | Some (ScI256 hi_hi hi_lo lo_hi lo_lo) =>
      do! require (negb ((hi_hi <? 0)
             || ((hi_hi =? 0) && (hi_lo =? 0) && (lo_hi =? 0) && (lo_lo =? 0))))
            "Chainlink Round.answer non-positive"%string in
      match map_field value "round_id" with
      | Some (ScU64 _) =>
          match map_field value "timestamp" with
          | Some (ScU64 ts) => Ok ts
          | _ => Err "Chainlink Round.timestamp missing"%string
          end
      | _ => Err "Chainlink Round.round_id missing"%string
      end
  | _ => Err "Chainlink Round.answer missing"%string
  end.

End Decode.

End Decode.

(** ** The registry (metrics.rs) *)

Module Reg.

Definition MARKET_LABELS : list string := ["network"; "hub_id"; "hub"; "asset"; "symbol"]%string.
Definition ORACLE_LABELS : list string := ["network"; "asset"; "symbol"]%string.
Definition SPOKE_LABELS : list string := ["network"; "spoke_id"; "spoke"]%string.
Definition SPOKE_ASSET_LABELS : list string :=
  ["network"; "spoke_id"; "spoke"; "hub_id"; "hub"; "asset"; "symbol"]%string.

(** The families [Metrics::new] registers: field, metric name and labels. *)
Definition gauge_families : list (string * string * list string) :=
  [("market_supplied", "lending_market_supplied_total", MARKET_LABELS);
   ("market_supplied_usd", "lending_market_supplied_total_usd", MARKET_LABELS);
   ("market_borrowed", "lending_market_borrowed_total", MARKET_LABELS);
   ("market_borrowed_usd", "lending_market_borrowed_total_usd", MARKET_LABELS);
   ("market_liquidity", "lending_market_available_liquidity", MARKET_LABELS);
   ("market_liquidity_usd", "lending_market_available_liquidity_usd", MARKET_LABELS);
   ("market_revenue", "lending_market_revenue", MARKET_LABELS);
   ("market_revenue_usd", "lending_market_revenue_usd", MARKET_LABELS);
   ("market_utilization", "lending_market_utilization_ratio", MARKET_LABELS);
   ("market_supply_apy", "lending_market_supply_apy", MARKET_LABELS);
   ("market_borrow_apy", "lending_market_borrow_apy", MARKET_LABELS);
   ("market_supply_index_ray", "lending_market_supply_index_ray", MARKET_LABELS);
   ("market_borrow_index_ray", "lending_market_borrow_index_ray", MARKET_LABELS);
   ("market_last_accrual_timestamp", "lending_market_last_accrual_timestamp", MARKET_LABELS);
   ("market_delta_time_seconds", "lending_market_delta_time_seconds", MARKET_LABELS);
   ("market_param", "lending_market_param", ["network"; "hub_id"; "hub"; "asset"; "symbol"; "param"]);
   ("oracle_price_usd", "lending_oracle_price_usd", ORACLE_LABELS);
   ("oracle_primary_price_usd", "lending_oracle_primary_price_usd", ORACLE_LABELS);
   ("oracle_anchor_price_usd", "lending_oracle_anchor_price_usd", ORACLE_LABELS);
   ("oracle_deviation_bps", "lending_oracle_deviation_bps", ORACLE_LABELS);
   ("oracle_healthy", "lending_oracle_healthy", ORACLE_LABELS);
   ("oracle_stale", "lending_oracle_stale", ORACLE_LABELS);
   ("oracle_deviation_flag", "lending_oracle_deviation_flag", ORACLE_LABELS);
   ("oracle_error_code", "lending_oracle_error_code", ORACLE_LABELS);
   ("oracle_status_timestamp", "lending_oracle_status_timestamp_seconds", ORACLE_LABELS);
   ("oracle_max_stale_seconds", "lending_oracle_max_stale_seconds", ORACLE_LABELS);
   ("oracle_effective_max_stale_seconds", "lending_oracle_effective_max_stale_seconds", ORACLE_LABELS);
   ("oracle_lp_total_shares", "lending_oracle_lp_total_shares", ORACLE_LABELS);
   ("oracle_lp_pool_floor_usd", "lending_oracle_lp_pool_floor_usd", ORACLE_LABELS);
   ("oracle_tolerance_upper_bps", "lending_oracle_tolerance_upper_bps", ORACLE_LABELS);
   ("oracle_tolerance_lower_bps", "lending_oracle_tolerance_lower_bps", ORACLE_LABELS);
   ("oracle_sanity_min_usd", "lending_oracle_sanity_min_usd", ORACLE_LABELS);
   ("oracle_sanity_max_usd", "lending_oracle_sanity_max_usd", ORACLE_LABELS);
   ("oracle_strategy", "lending_oracle_strategy", ORACLE_LABELS);
   ("oracle_price_timestamp", "lending_oracle_price_timestamp_seconds", ORACLE_LABELS);
   ("oracle_seconds_until_stale", "lending_oracle_seconds_until_stale", ORACLE_LABELS);
   ("spoke_paused", "lending_spoke_paused", SPOKE_ASSET_LABELS);
   ("spoke_frozen", "lending_spoke_frozen", SPOKE_ASSET_LABELS);
   ("spoke_collateral_enabled", "lending_spoke_collateral_enabled", SPOKE_ASSET_LABELS);
   ("spoke_borrow_enabled", "lending_spoke_borrow_enabled", SPOKE_ASSET_LABELS);
   ("spoke_deprecated", "lending_spoke_deprecated", SPOKE_ASSET_LABELS);
   ("spoke_liquidation_target_hf", "lending_spoke_liquidation_target_hf", SPOKE_LABELS);
   ("spoke_hf_for_max_bonus", "lending_spoke_hf_for_max_bonus", SPOKE_LABELS);
   ("spoke_liquidation_bonus_factor_bps", "lending_spoke_liquidation_bonus_factor_bps", SPOKE_LABELS);
   ("spoke_ltv_bps", "lending_spoke_ltv_bps", SPOKE_ASSET_LABELS);
   ("spoke_liq_threshold_bps", "lending_spoke_liquidation_threshold_bps", SPOKE_ASSET_LABELS);
   ("spoke_liq_bonus_bps", "lending_spoke_liquidation_bonus_bps", SPOKE_ASSET_LABELS);
   ("spoke_liq_fees_bps", "lending_spoke_liquidation_fees_bps", SPOKE_ASSET_LABELS);
   ("spoke_supply_cap", "lending_spoke_supply_cap", SPOKE_ASSET_LABELS);
   ("spoke_borrow_cap", "lending_spoke_borrow_cap", SPOKE_ASSET_LABELS);
   ("spoke_supply_closed", "lending_spoke_supply_closed", SPOKE_ASSET_LABELS);
   ("spoke_borrow_closed", "lending_spoke_borrow_closed", SPOKE_ASSET_LABELS);
   ("spoke_supply_usage", "lending_spoke_supply_usage", SPOKE_ASSET_LABELS);
   ("spoke_supply_usage_usd", "lending_spoke_supply_usage_usd", SPOKE_ASSET_LABELS);
   ("spoke_borrow_usage", "lending_spoke_borrow_usage", SPOKE_ASSET_LABELS);
   ("spoke_borrow_usage_usd", "lending_spoke_borrow_usage_usd", SPOKE_ASSET_LABELS);
   ("spoke_supply_cap_utilization", "lending_spoke_supply_cap_utilization", SPOKE_ASSET_LABELS);
   ("spoke_borrow_cap_utilization", "lending_spoke_borrow_cap_utilization", SPOKE_ASSET_LABELS);
   ("protocol_tvl_usd", "lending_protocol_tvl_usd", ["network"]);
   ("protocol_borrowed_usd", "lending_protocol_total_borrowed_usd", ["network"]);
   ("protocol_liquidity_usd", "lending_protocol_total_liquidity_usd", ["network"]);
   ("protocol_revenue_usd", "lending_protocol_total_revenue_usd", ["network"]);
   ("protocol_markets", "lending_protocol_markets_count", ["network"]);
   ("protocol_spokes", "lending_protocol_spokes_count", ["network"]);
   ("min_borrow_collateral_usd", "lending_min_borrow_collateral_usd", ["network"]);
   ("ledger_timestamp", "lending_ledger_timestamp_seconds", ["network"]);
   ("ledger_sequence", "lending_ledger_sequence", ["network"]);
   ("ledger_skew_seconds", "lending_exporter_ledger_skew_seconds", ["network"]);
   ("scrape_duration_seconds", "lending_exporter_scrape_duration_seconds", ["network"]);
   ("last_success_timestamp", "lending_exporter_last_success_timestamp", ["network"]);
   ("build_info", "lending_exporter_build_info", ["network"; "version"])]%string.

Definition counter_families : list (string * string * list string) :=
  [("rpc_errors", "lending_exporter_rpc_errors_total", ["network"; "op"]);
   ("view_failures", "lending_exporter_view_failures_total", ["network"; "view"; "asset"; "code"]);
   ("simulations", "lending_exporter_simulations_total", ["function"; "outcome"])]%string.

(** The gauges of one spoke asset, and those of one asset's oracle, that are removed together. *)
Definition spoke_asset_gauges : list string :=
  ["spoke_paused"; "spoke_frozen"; "spoke_collateral_enabled"; "spoke_borrow_enabled";
   "spoke_deprecated"; "spoke_ltv_bps"; "spoke_liq_threshold_bps"; "spoke_liq_bonus_bps";
   "spoke_liq_fees_bps"; "spoke_supply_cap"; "spoke_borrow_cap"; "spoke_supply_closed";
   "spoke_borrow_closed"; "spoke_supply_usage"; "spoke_supply_usage_usd";
   "spoke_borrow_usage"; "spoke_borrow_usage_usd"; "spoke_supply_cap_utilization";
   "spoke_borrow_cap_utilization"]%string.

Definition oracle_gauges : list string :=
  ["oracle_max_stale_seconds"; "oracle_effective_max_stale_seconds";
   "oracle_lp_total_shares"; "oracle_lp_pool_floor_usd"; "oracle_tolerance_upper_bps";
   "oracle_tolerance_lower_bps"; "oracle_sanity_min_usd"; "oracle_sanity_max_usd";
   "oracle_strategy"; "oracle_price_timestamp"; "oracle_seconds_until_stale"]%string.

(** A series: a family and its label values. *)
Abbreviation Series := (string * list string)%type.

Fixpoint arity_in (families : list (string * string * list string)) (family : string) : option nat :=
  match families with
  | [] => None
  | (field, _, labels) :: rest =>
      if bool_decide (field = family) then Some (length labels) else arity_in rest family
  end.

(** [with_label_values] panics unless there is one value per label. *)
Definition labelled (families : list (string * string * list string)) (s : Series) : bool :=
  bool_decide (arity_in families s.1 = Some (length s.2)).

Record State : Type := mkState {
  x_gauges : gmap Series spec_float;
  x_counters : gmap Series Z;
  x_unlisted : gmap (Z * Z * Id) Z;
  x_sent : Z;
  x_requests : N;
  x_rendered : string
}.

Definition M (A : Type) : Type := State -> option (A * State).

#[export] Instance m_ret : MRet M := fun A a s => Some (a, s).
#[export] Instance m_bind : MBind M := fun A B k m s =>
  match m s with Some (a, s) => k a s | None => None end.

Definition panic {A : Type} : M A := fun _ => None.
Definition modify (g : State -> State) : M () := fun s => Some ((), g s).
Definition gets {A : Type} (g : State -> A) : M A := fun s => Some (g s, s).

(** [for x in l] with an accumulator. *)
Fixpoint mfold {A B : Type} (f : A -> B -> M A) (a : A) (l : list B) : M A :=
  match l with
  | [] => mret a
  | x :: l => a ← f a x; mfold f a l
  end.

Definition mfor {B : Type} (l : list B) (f : B -> M ()) : M () := mfold (fun _ x => f x) () l.

Definition set_gauges (s : State) (g : gmap Series spec_float) : State :=
  mkState g (x_counters s) (x_unlisted s) (x_sent s) (x_requests s) (x_rendered s).
Definition set_counters (s : State) (c : gmap Series Z) : State :=
  mkState (x_gauges s) c (x_unlisted s) (x_sent s) (x_requests s) (x_rendered s).
Definition set_unlisted (s : State) (u : gmap (Z * Z * Id) Z) : State :=
  mkState (x_gauges s) (x_counters s) u (x_sent s) (x_requests s) (x_rendered s).
Definition set_rendered (s : State) (body : string) : State :=
  mkState (x_gauges s) (x_counters s) (x_unlisted s) (x_sent s) (x_requests s) body.

(** [metrics.<family>.with_label_values(labels).set(v)] *)
Definition set (family : string) (labels : list string) (v : spec_float) : M () := fun s =>
  if labelled gauge_families (family, labels)
  then Some ((), set_gauges s (<[(family, labels) := v]> (x_gauges s))) else None.

Definition set_all (labels : list string) (l : list (string * spec_float)) : M () :=
  mfor l (fun p => set p.1 labels p.2).

(** [let _ = gauge.remove_label_values(labels)] *)
Definition remove (family : string) (labels : list string) : M () :=
  modify (fun s => set_gauges s (delete (family, labels) (x_gauges s))).

(** [.with_label_values(labels).inc()] *)
Definition inc (family : string) (labels : list string) : M () := fun s =>
  if labelled counter_families (family, labels)
  then Some ((), set_counters s (<[(family, labels) := default 0 (x_counters s !! (family, labels)) + 1]>
                                   (x_counters s))) else None.

Definition remove_spoke_asset (labels : list string) : M () :=
  mfor spoke_asset_gauges (fun g => remove g labels).

Definition remove_oracle_config_and_freshness (labels : list string) : M () :=
  mfor oracle_gauges (fun g => remove g labels).

Definition set_or_remove (family : string) (labels : list string) (value : option spec_float) : M () :=
  match value with
  | Some v => set family labels v
  | None => remove family labels
  end.

(** [registry.gather()] and the text encoding, a library's, give the next body. *)
Definition publish_snapshot `{Lib} : M () :=
  modify (fun s => match encode_text (x_gauges s) (x_counters s) with
                   | Ok body => set_rendered s body
                   | Err _ => s
                   end).

Definition publish_startup `{Lib} (network : string) (started_at : Z) : M () :=
  set "build_info" [network; "0.1.0"]%string F64.one;;
  set "last_success_timestamp" [network] (F64.of_Z started_at);;
  publish_snapshot.

End Reg.

(** ** Views (stellar/view.rs, client.rs) *)

Module View.

Import Reg.

Inductive ViewError : Type :=
| Reverted (message : string)
| Rpc (message : string)
| NoResult.

Abbreviation vres A := (result ViewError A).

Definition rpc_error {A : Type} (r : ares A) : vres A :=
  match r with Ok a => Ok a | Err e => Err (Rpc e) end.

Definition invoke_op (contract_id : Id) (function : string) (args : list ScVal) : vres Operation :=
  let* function_name := rpc_error (Keys.symbol function) in
  let* args := rpc_error (Keys.vec_m args "too many view args") in
  Ok (OpInvoke contract_id function_name args []).

Definition empty_soroban_data : SorobanData := mkSorobanData [] [] 0 0 0 0.

(** Memo and preconditions are [None]. *)
Definition read_only_envelope (op : Operation) : Envelope :=
  mkEnvelope (replicate 32 0) 100 0 op empty_soroban_data [].

(** The node answers a request. *)
Definition request {A : Type} (f : N -> A) : M A := fun s =>
  Some (f (x_requests s),
        mkState (x_gauges s) (x_counters s) (x_unlisted s) (x_sent s) (x_requests s + 1)%N (x_rendered s)).

Definition count_simulation (s : State) : State :=
  mkState (x_gauges s) (x_counters s) (x_unlisted s) ((x_sent s + 1) mod 2 ^ 64) (x_requests s) (x_rendered s).

Section View.

Context `{Node}.

Definition simulate_view (contract_id : Id) (function : string) (args : list ScVal) : M (vres ScVal) :=
  match invoke_op contract_id function args with
  | Err e => mret (Err e)
  | Ok op =>
      modify count_simulation;;
      sim ← request (fun t => nd_simulate t (read_only_envelope op));
      let outcome := match sim with
                     | Ok r => match sim_error r with Some _ => "reverted" | None => "ok" end
                     | Err _ => "rpc_error"
                     end%string in
      inc "simulations" [function; outcome];;
      mret (let* r := rpc_error sim in
            match sim_error r with
            | Some err => Err (Reverted err)
            | None =>
                let* results := rpc_error (sim_results r) in
                of_option NoResult (head results)
            end)
  end.

Definition latest_ledger : M (ares Z) := request nd_latest_ledger.

Definition latest_close_time : M (ares Z) :=
  sequence ← latest_ledger;
  match sequence with
  | Err e => mret (Err e)
  | Ok sequence => request (fun t => nd_close_time t sequence)
  end.

(** The [HashMap] of entries found: the last one for a key counts. *)
Fixpoint find_entry (k : LedgerKey) (l : list NodeEntry) : option LedgerEntryData :=
  match l with
  | [] => None
  | e :: l => match find_entry k l with
              | Some x => Some x
              | None => if bool_decide (ne_key e = k) then Some (ne_val e) else None
              end
  end.

Definition get_ledger_entries (keys : list LedgerKey) : M (ares (list (LedgerKey * option LedgerEntryData))) :=
  match keys with
  | [] => mret (Ok [])
  | _ =>
      resp ← request (fun t => nd_entries t (Svc.dedup [] keys));
      mret (let* found := resp in Ok ((fun k => (k, find_entry k found)) <$> keys))
  end.

Definition instant_now : M Z := gets (fun s => nd_instant (x_requests s)).
Definition wall_clock_secs : M Z := gets (fun s => nd_wall (x_requests s)).

(** [Instant::elapsed], which saturates at zero, in nanoseconds. *)
Definition elapsed (since : Z) : M Z := now ← instant_now; mret (Z.max 0 (now - since)).

(** [Duration::as_secs_f64] *)
Definition as_secs_f64 (nanos : Z) : spec_float :=
  F64.add (F64.of_Z (nanos / 10 ^ 9)) (F64.div (F64.of_Z (nanos mod 10 ^ 9)) (F64.of_Z (10 ^ 9))).

End View.

End View.

(** ** The collector (collector.rs) *)

Module Collector.

Import F64 Model Text Sc XKeys XConfig Decode Reg View.

Definition INDEX_CHUNK_SIZE : nat := 3.

(** In nanoseconds. *)
Definition UNLISTED_SPOKE_ASSET_TTL : Z := 10 * 60 * 10 ^ 9.

Definition ASSET_NOT_IN_SPOKE : string := "307".

Record Aggregates : Type := mkAgg {
  ag_supplied_usd : spec_float;
  ag_borrowed_usd : spec_float;
  ag_liquidity_usd : spec_float;
  ag_revenue_usd : spec_float
}.

Definition no_aggregates : Aggregates := mkAgg zero zero zero zero.

Definition market_labels (net : string) (market : ResolvedMarket) (hub : string) : list string :=
  [net; pretty (rm_hub_id market); hub; rm_asset_strkey market; rm_symbol market].

Definition oracle_labels (net : string) (market : ResolvedMarket) : list string :=
  [net; rm_asset_strkey market; rm_symbol market].

Definition hub_key (market : ResolvedMarket) : Keys.HubAssetKey :=
  Keys.mkHubKey (rm_hub_id market) (rm_asset_id market).

Section Collector.

Context `{Lib} `{Node}.

Definition resolve_pool_id (controller : Id) : M (ares Id) :=
  scv ← simulate_view controller "get_pool_address" [];
  mret (match scv with
        | Err _ => Err "get_pool_address"%string
        | Ok scv => of_option "get_pool_address did not return a contract address"%string (as_contract_id scv)
        end).

Definition resolve_price_aggregator (controller : Id) (config_fallback : option Id) : M (option Id) :=
  scv ← simulate_view controller "price_aggregator" [];
  mret (match scv with
        | Ok scv => match as_contract_id scv with Some id => Some id | None => config_fallback end
        | Err _ => config_fallback
        end).

Definition read_ledger_now (net : string) : M Z :=
  wall ← wall_clock_secs;
  seq ← latest_ledger;
  match seq with Ok seq => set "ledger_sequence" [net] (of_Z seq) | Err _ => mret () end;;
  close ← latest_close_time;
  match close with
  | Ok close =>
      set "ledger_timestamp" [net] (of_Z close);;
      set "ledger_skew_seconds" [net] (of_Z (wrap 64 (close - wall)));;
      mret close
  | Err _ =>
      inc "rpc_errors" [net; "latest_close_time"]%string;;
      set "ledger_timestamp" [net] (of_Z wall);;
      mret wall
  end.

Definition try_index_batch (controller : Id) (keys : list Keys.HubAssetKey)
    : M (option (list MarketIndexView)) :=
  match hub_asset_vec_sc_val keys with
  | Err _ => mret None
  | Ok arg =>
      scv ← simulate_view controller "get_market_indexes_detailed" [arg];
      mret (match scv with
            | Ok scv => match decode_market_indexes scv with Ok rows => Some rows | Err _ => None end
            | Err _ => None
            end)
  end.

(** The fallback of one key of a chunk that failed. *)
Definition read_single_index (net : string) (controller : Id)
    (out : list (option MarketIndexView)) (market : ResolvedMarket) : M (list (option MarketIndexView)) :=
  single ← try_index_batch controller [hub_key market];
  match single ≫= last with
  | Some row => mret (out ++ [Some row])
  | None =>
      inc "view_failures" [net; "get_market_indexes_detailed"; rm_asset_strkey market; "batch_key"]%string;;
      mret (out ++ [None])
  end.

Definition read_index_chunk (net : string) (controller : Id) (out : list (option MarketIndexView))
    (chunk : list ResolvedMarket) : M (list (option MarketIndexView)) :=
  rows ← try_index_batch controller (hub_key <$> chunk);
  match rows with
  | Some rows =>
      if (length rows =? length chunk)%nat then mret (out ++ (Some <$> rows))
      else mfold (read_single_index net controller) out chunk
  | None => mfold (read_single_index net controller) out chunk
  end.

Definition read_market_indexes (net : string) (contracts : ResolvedContracts)
    : M (list (option MarketIndexView)) :=
  mfold (read_index_chunk net (rc_controller contracts)) [] (Svc.chunks INDEX_CHUNK_SIZE (rc_markets contracts)).

Definition publish_market_index_view (net : string) (market : ResolvedMarket) (lref : list string)
    (row : option MarketIndexView) : M () :=
  let olabels := oracle_labels net market in
  match row with
  | Some r =>
      set_all lref [("market_supply_index_ray", ray_to_f64 (mi_supply_index_ray r));
                    ("market_borrow_index_ray", ray_to_f64 (mi_borrow_index_ray r))]%string;;
      set_all olabels [("oracle_price_usd", wad_to_f64 (mi_final_price_wad r));
                       ("oracle_primary_price_usd", wad_to_f64 (mi_primary_price_wad r));
                       ("oracle_anchor_price_usd", wad_to_f64 (mi_anchor_price_wad r))]%string;;
      match deviation_bps (mi_primary_price_wad r) (mi_anchor_price_wad r) with
      | Some dev => set "oracle_deviation_bps" olabels dev
      | None => mret ()
      end;;
      set_all olabels [("oracle_status_timestamp", of_Z (mi_price_timestamp r));
                       ("oracle_stale", of_bool (mi_stale r));
                       ("oracle_deviation_flag", of_bool (mi_deviation r));
                       ("oracle_healthy", of_bool (mi_valid r));
                       ("oracle_error_code", of_Z (default 0 (mi_error_code r)))]%string
  | None =>
      set_all olabels [("oracle_healthy", zero); ("oracle_stale", zero);
                       ("oracle_deviation_flag", zero); ("oracle_error_code", zero)]%string
  end.

Definition publish_market_params (lref : list string) (sync : MarketSync) : M () :=
  let p := xy_params sync in
  mfor [("base_borrow_rate", ray_to_f64 (xp_base_borrow_rate_ray p));
        ("max_borrow_rate", ray_to_f64 (xp_max_borrow_rate_ray p));
        ("slope1", ray_to_f64 (xp_slope1_ray p));
        ("slope2", ray_to_f64 (xp_slope2_ray p));
        ("slope3", ray_to_f64 (xp_slope3_ray p));
        ("mid_utilization", ray_to_f64 (xp_mid_utilization_ray p));
        ("optimal_utilization", ray_to_f64 (xp_optimal_utilization_ray p));
        ("max_utilization", ray_to_f64 (xp_max_utilization_ray p));
        ("reserve_factor_bps", bps_to_ratio (xp_reserve_factor_bps p));
        ("flashloan_fee_bps", bps_to_ratio (xp_flashloan_fee_bps p));
        ("is_flashloanable", of_bool (xp_is_flashloanable p))]%string
    (fun pv => set "market_param" (lref ++ [pv.1]) pv.2).

Definition count_view_error (net view_label asset_label function : string) (error : ViewError) : M () :=
  match error with
  | Reverted msg => inc "view_failures" [net; view_label; asset_label; bucket_error_code msg]
  | NoResult => inc "view_failures" [net; view_label; asset_label; "no_result"]%string
  | Rpc _ => inc "rpc_errors" [net; function]
  end.

Definition read_view (net view_label asset_label : string) (contract : Id) (function : string)
    (args : list ScVal) : M (option ScVal) :=
  scv ← simulate_view contract function args;
  match scv with
  | Ok scv => mret (Some scv)
  | Err e => count_view_error net view_label asset_label function e;; mret None
  end.

(** [result.ok()] *)
Definition ok {A : Type} (r : ares A) : option A := match r with Ok a => Some a | Err _ => None end.

Definition read_view_i128 (net view_label asset_label : string) (contract : Id) (function : string)
    (args : list ScVal) : M (option Z) :=
  scv ← read_view net view_label asset_label contract function args;
  mret (scv ≫= fun scv => ok (decode_i128 scv)).

(** A pool view of one market. *)
Definition read_market_view (net : string) (pool_id : Id) (market : ResolvedMarket) (function : string)
    : M (option ScVal) :=
  match hub_asset_key_sc_val (hub_key market) with
  | Err _ => mret None
  | Ok arg => read_view net function (rm_asset_strkey market) pool_id function [arg]
  end.

Definition read_sync_data (net : string) (pool_id : Id) (market : ResolvedMarket) : M (option MarketSync) :=
  scv ← read_market_view net pool_id market "get_sync_data";
  mret (scv ≫= fun scv => ok (decode_sync_data scv)).

Definition read_market_scalar (net : string) (pool_id : Id) (market : ResolvedMarket) (function : string)
    : M (option Z) :=
  match hub_asset_key_sc_val (hub_key market) with
  | Err _ => mret None
  | Ok arg => read_view_i128 net function (rm_asset_strkey market) pool_id function [arg]
  end.

Definition read_market_scalar_u64 (net : string) (pool_id : Id) (market : ResolvedMarket)
    (function : string) : M (option Z) :=
  scv ← read_market_view net pool_id market function;
  mret (scv ≫= as_u64).

Definition on_some {A : Type} (o : option A) (f : A -> M ()) : M () :=
  match o with Some a => f a | None => mret () end.

(** A token amount and its value, which the aggregate adds up. *)
Definition publish_amount (net : string) (pool_id : Id) (market : ResolvedMarket) (lref : list string)
    (dec price_wad : Z) (function family family_usd : string) (total : spec_float) : M spec_float :=
  v ← read_market_scalar net pool_id market function;
  match v with
  | Some v =>
      let usd := token_usd v dec price_wad in
      set family lref (token_to_f64 v dec);;
      set family_usd lref usd;;
      mret (add total usd)
  | None => mret total
  end.

Definition publish_market_amounts (net : string) (pool_id : Id) (market : ResolvedMarket)
    (lref : list string) (dec price_wad : Z) (agg : Aggregates) : M Aggregates :=
  let amount := publish_amount net pool_id market lref dec price_wad in
  supplied ← amount "get_supplied_amount" "market_supplied" "market_supplied_usd" (ag_supplied_usd agg);
  borrowed ← amount "get_borrowed_amount" "market_borrowed" "market_borrowed_usd" (ag_borrowed_usd agg);
  liquidity ← amount "get_reserves" "market_liquidity" "market_liquidity_usd" (ag_liquidity_usd agg);
  revenue ← amount "get_revenue" "market_revenue" "market_revenue_usd" (ag_revenue_usd agg);
  v ← read_market_scalar net pool_id market "get_utilisation";
  on_some v (fun v => set "market_utilization" lref (ray_to_f64 v));;
  v ← read_market_scalar net pool_id market "get_deposit_rate";
  on_some v (fun v => set "market_supply_apy" lref (apy_from_annual_ray v));;
  v ← read_market_scalar net pool_id market "get_borrow_rate";
  on_some v (fun v => set "market_borrow_apy" lref (apy_from_annual_ray v));;
  mret (mkAgg supplied borrowed liquidity revenue).

(** *** Oracles *)

Definition decode_or_count {A : Type} (net view asset : string) (result : ares A) : M (option A) :=
  match result with
  | Ok value => mret (Some value)
  | Err _ => inc "view_failures" [net; view; asset; "decode"]%string;; mret None
  end.

Definition read_oracle_config (net : string) (market : ResolvedMarket) (aggregator_id : Id)
    : M (option OracleConfig) :=
  match asset_oracle_ledger_key aggregator_id (rm_asset_id market) with
  | Err _ => mret None
  | Ok key =>
      entries ← get_ledger_entries [key];
      match entries with
      | Err _ => inc "rpc_errors" [net; "get_ledger_entries"]%string;; mret None
      | Ok entries =>
          match head entries with
          | Some (_, Some (DataEntry val)) =>
              decode_or_count net "oracle_config" (rm_asset_strkey market) (decode_oracle_config val)
          | _ => mret None
          end
      end
  end.

(** One read of a provider: the view, then its decoder. *)
Definition probe {A : Type} (net : string) (market : ResolvedMarket) (contract : Id) (view : string)
    (args : list ScVal) (decode : ScVal -> ares A) : M (option A) :=
  scv ← read_view net view (rm_asset_strkey market) contract view args;
  match scv with
  | Some scv => decode_or_count net view (rm_asset_strkey market) (decode scv)
  | None => mret None
  end.

Definition read_feed_timestamp (net : string) (market : ResolvedMarket) (source : OracleSource)
    : M (option Z) :=
  match contract_id_from_strkey (os_contract source) with
  | Err _ => mret None
  | Ok contract =>
      match os_kind source with
      | KReflector =>
          match os_asset_ref source ≫= fun r => ok (oracle_asset_ref_to_reflector_arg r) with
          | Some arg =>
              ts ← probe net market contract "lastprice" [arg] decode_reflector_price;
              mret (mjoin ts)
          | None => mret None
          end
      | KRedStone | KXoxno =>
          match os_feed_id source ≫= fun f => ok (feed_id_arg f) with
          | Some arg => probe net market contract "read_price_data_for_feed" [arg] decode_redstone_price
          | None => mret None
          end
      | KChainlink =>
          match os_data_id source with
          | Some data_id =>
              probe net market contract "latest_round" [data_id; ScU32 (os_decimals source)]
                decode_chainlink_round
          | None => mret None
          end
      end
  end.

Definition publish_lp_floor_headroom (net : string) (market : ResolvedMarket) (olabels : list string)
    (floor : LpFloor) (share_decimals : Z) : M () :=
  set "oracle_lp_pool_floor_usd" olabels (wad_to_f64 (lf_min_pool_value_wad floor));;
  match contract_id_from_strkey (lf_pool floor) with
  | Err _ => mret ()
  | Ok pool =>
      shares ← read_view_i128 net (lf_supply_view floor) (rm_asset_strkey market) pool
                 (lf_supply_view floor) [];
      on_some shares (fun shares =>
        set "oracle_lp_total_shares" olabels (div (of_Z shares) (ten_to share_decimals)))
  end.

(** The leg that goes stale first: seconds left, timestamp, limit. *)
Definition Worst : Type := spec_float * Z * Z.

Definition replace_worst (worst : option Worst) (sut : spec_float) : bool :=
  match worst with Some (w, _, _) => ltb sut w | None => true end.

(** The loop over the sources; a leg that cannot be read ends the function, [None]. *)
Fixpoint worst_leg (net : string) (market : ResolvedMarket) (now_secs : Z) (worst : option Worst)
    (sources : list OracleSource) : M (option (option Worst)) :=
  match sources with
  | [] => mret (Some worst)
  | source :: sources =>
      ts ← read_feed_timestamp net market source;
      match ts with
      | None => mret None
      | Some feed_ts =>
          let sut := seconds_until_stale now_secs feed_ts (os_max_stale_seconds source) in
          let worst := if replace_worst worst sut then Some (sut, feed_ts, os_max_stale_seconds source)
                       else worst in
          worst_leg net market now_secs worst sources
      end
  end.

Definition publish_oracle_config_and_freshness (net : string) (market : ResolvedMarket) (now_secs : Z)
    (aggregator_id : Id) (decimals : option Z) : M () :=
  let olabels := oracle_labels net market in
  config ← read_oracle_config net market aggregator_id;
  match config with
  | None => mret ()
  | Some config =>
      match og_lp_floor config, decimals with
      | Some floor, Some dec =>
          if og_source_count config =? 1
          then publish_lp_floor_headroom net market olabels floor dec else mret ()
      | _, _ => mret ()
      end;;
      set_all olabels
        [("oracle_max_stale_seconds", of_Z (og_max_price_stale_seconds config));
         ("oracle_tolerance_upper_bps", of_Z (og_tolerance_upper_bps config));
         ("oracle_tolerance_lower_bps", of_Z (og_tolerance_lower_bps config));
         ("oracle_sanity_min_usd", wad_to_f64 (og_min_sanity_price_wad config));
         ("oracle_sanity_max_usd", wad_to_f64 (og_max_sanity_price_wad config));
         ("oracle_strategy", of_Z (Z.max 0 (og_source_count config - 1)))]%string;;
      worst ← worst_leg net market now_secs None (og_sources config);
      match worst with
      | Some (Some (sut, feed_ts, effective_max)) =>
          set_all olabels [("oracle_price_timestamp", of_Z feed_ts);
                           ("oracle_seconds_until_stale", sut);
                           ("oracle_effective_max_stale_seconds", of_Z effective_max)]%string
      | _ => mret ()
      end
  end.

(** *** Spokes *)

Definition read_spoke_config (net : string) (contracts : ResolvedContracts) (spoke_id : Z)
    : M (option SpokeConfig) :=
  scv ← read_view net "get_spoke" "*" (rc_controller contracts) "get_spoke" [ScU32 spoke_id];
  mret (scv ≫= fun s => ok (decode_spoke s)).

Definition spoke_asset_labels (net : string) (spoke_id : Z) (spoke hub : string) (market : ResolvedMarket)
    : list string :=
  [net; pretty spoke_id; spoke; pretty (rm_hub_id market); hub; rm_asset_strkey market; rm_symbol market].

(** The pair was found unlisted less than the TTL ago. *)
Definition recently_unlisted (key : Z * Z * Id) : M bool :=
  since ← gets (fun s => x_unlisted s !! key);
  match since with
  | Some since => e ← elapsed since; mret (e <? UNLISTED_SPOKE_ASSET_TTL)
  | None => mret false
  end.

Definition mark_unlisted (key : Z * Z * Id) : M () :=
  now ← instant_now;
  modify (fun s => set_unlisted s (<[key := now]> (x_unlisted s))).

Definition publish_spoke_usage (labels : list string) (cfg : SpokeAssetConfig) (dec : Z)
    (r : MarketIndexView) (usage : SpokeUsage) : M () :=
  let supply_tokens := scaled_usage_to_token (xu_supplied_scaled_ray usage) (mi_supply_index_ray r) in
  let borrow_tokens := scaled_usage_to_token (xu_borrowed_scaled_ray usage) (mi_borrow_index_ray r) in
  let price := wad_to_f64 (mi_final_price_wad r) in
  set_all labels [("spoke_supply_usage", supply_tokens);
                  ("spoke_supply_usage_usd", mul supply_tokens price);
                  ("spoke_borrow_usage", borrow_tokens);
                  ("spoke_borrow_usage_usd", mul borrow_tokens price)]%string;;
  set_or_remove "spoke_supply_cap_utilization" labels (cap_utilization supply_tokens (xa_supply_cap cfg) dec);;
  set_or_remove "spoke_borrow_cap_utilization" labels (cap_utilization borrow_tokens (xa_borrow_cap cfg) dec).

(** What follows once the listing was decoded. *)
Definition publish_listing (contracts : ResolvedContracts) (spoke_id : Z) (labels : list string)
    (hub_arg : ScVal) (cfg : SpokeAssetConfig) (row : option MarketIndexView) (decimals : option Z)
    (deprecated : option bool) : M () :=
  set_all labels [("spoke_paused", of_bool (xa_paused cfg));
                  ("spoke_frozen", of_bool (xa_frozen cfg));
                  ("spoke_collateral_enabled", of_bool (xa_is_collateralizable cfg));
                  ("spoke_borrow_enabled", of_bool (xa_is_borrowable cfg))]%string;;
  on_some deprecated (fun d => set "spoke_deprecated" labels (of_bool d));;
  set_all labels [("spoke_supply_closed", market_closed (xa_supply_cap cfg));
                  ("spoke_borrow_closed", market_closed (xa_borrow_cap cfg));
                  ("spoke_ltv_bps", of_Z (xa_loan_to_value_bps cfg));
                  ("spoke_liq_threshold_bps", of_Z (xa_liquidation_threshold_bps cfg));
                  ("spoke_liq_bonus_bps", of_Z (xa_liquidation_bonus_bps cfg));
                  ("spoke_liq_fees_bps", of_Z (xa_liquidation_fees_bps cfg))]%string;;
  match decimals with
  | None => mret ()
  | Some dec =>
      set_all labels [("spoke_supply_cap", token_to_f64 (xa_supply_cap cfg) dec);
                      ("spoke_borrow_cap", token_to_f64 (xa_borrow_cap cfg) dec);
                      ("spoke_supply_closed", market_closed_at (xa_supply_cap cfg) dec);
                      ("spoke_borrow_closed", market_closed_at (xa_borrow_cap cfg) dec)]%string;;
      match row with
      | None => mret ()
      | Some r =>
          scv ← simulate_view (rc_controller contracts) "get_spoke_usage" [ScU32 spoke_id; hub_arg];
          match scv with
          | Ok scv => on_some (ok (decode_spoke_usage scv)) (publish_spoke_usage labels cfg dec r)
          | Err _ => mret ()
          end
      end
  end.

Definition publish_spoke_asset (net : string) (contracts : ResolvedContracts) (spoke_id : Z)
    (spoke hub : string) (market : ResolvedMarket) (row : option MarketIndexView)
    (decimals : option Z) (deprecated : option bool) : M () :=
  match hub_asset_key_sc_val (hub_key market) with
  | Err _ => mret ()
  | Ok hub_arg =>
      let labels := spoke_asset_labels net spoke_id spoke hub market in
      let unlisted_key := (spoke_id, rm_hub_id market, rm_asset_id market) in
      skip ← recently_unlisted unlisted_key;
      if (skip : bool) then mret ()
      else
        cfg_scv ← simulate_view (rc_controller contracts) "get_spoke_asset" [ScU32 spoke_id; hub_arg];
        match cfg_scv with
        | Ok cfg_scv =>
            match decode_spoke_asset cfg_scv with
            | Ok cfg => publish_listing contracts spoke_id labels hub_arg cfg row decimals deprecated
            | Err _ =>
                inc "view_failures" [net; "get_spoke_asset"; rm_asset_strkey market; "decode"]%string;;
                remove_spoke_asset labels
            end
        | Err e =>
            if match e with
               | Reverted msg => bool_decide (bucket_error_code msg = ASSET_NOT_IN_SPOKE)
               | _ => false
               end
            then remove_spoke_asset labels;; mark_unlisted unlisted_key
            else count_view_error net "get_spoke_asset" (rm_asset_strkey market) "get_spoke_asset" e
        end
  end.

(** [contracts.markets.iter().zip(index_rows.iter()).enumerate()] *)
Definition enumerated (contracts : ResolvedContracts) (index_rows : list (option MarketIndexView))
    : list (nat * (ResolvedMarket * option MarketIndexView)) :=
  let pairs := zip (rc_markets contracts) index_rows in
  zip (seq 0 (length pairs)) pairs.

Definition publish_spoke_config (net : string) (spoke_id : Z) (spoke : string) (c : SpokeConfig) : M () :=
  set_all [net; pretty spoke_id; spoke]
    [("spoke_liquidation_target_hf", wad_to_f64 (xs_liquidation_target_hf_wad c));
     ("spoke_hf_for_max_bonus", wad_to_f64 (xs_hf_for_max_bonus_wad c));
     ("spoke_liquidation_bonus_factor_bps", of_Z (xs_liquidation_bonus_factor_bps c))]%string.

Definition publish_spokes (net : string) (cfg : ExporterConfig) (contracts : ResolvedContracts)
    (index_rows : list (option MarketIndexView)) (decimals : list (option Z)) : M () :=
  mfor (xc_spokes cfg) (fun spoke_id =>
    let spoke := spoke_name cfg spoke_id in
    spoke_cfg ← read_spoke_config net contracts spoke_id;
    on_some spoke_cfg (publish_spoke_config net spoke_id spoke);;
    mfor (enumerated contracts index_rows) (fun '(i, (market, row)) =>
      publish_spoke_asset net contracts spoke_id spoke (hub_name cfg (rm_hub_id market)) market row
        (mjoin (decimals !! i)) (xs_is_deprecated <$> spoke_cfg))).

(** *** A scrape *)

(** The pool's part of a market: its decimals, and the aggregates. *)
Definition scrape_pool_market (net : string) (pool : Id) (market : ResolvedMarket) (lref : list string)
    (price_wad : Z) (agg : Aggregates) : M (option Z * Aggregates) :=
  sync ← read_sync_data net pool market;
  match sync with
  | None => mret (None, agg)
  | Some sync =>
      let dec := xp_asset_decimals (xy_params sync) in
      publish_market_params lref sync;;
      set "market_last_accrual_timestamp" lref (div (of_Z (xy_last_timestamp sync)) (of_Z 1000));;
      agg ← publish_market_amounts net pool market lref dec price_wad agg;
      delta_ms ← read_market_scalar_u64 net pool market "get_delta_time";
      on_some delta_ms (fun ms => set "market_delta_time_seconds" lref (div (of_Z ms) (of_Z 1000)));;
      mret (Some dec, agg)
  end.

Definition scrape_market (net : string) (cfg : ExporterConfig) (pool_id aggregator_id : option Id)
    (now_secs : Z) (acc : Aggregates * list (option Z))
    (turn : nat * (ResolvedMarket * option MarketIndexView)) : M (Aggregates * list (option Z)) :=
  let '(i, (market, row)) := turn in
  let '(agg, decimals) := acc in
  let lref := market_labels net market (hub_name cfg (rm_hub_id market)) in
  let price_wad := default 0 (mi_final_price_wad <$> row) in
  publish_market_index_view net market lref row;;
  pooled ← match pool_id with
           | Some pool => scrape_pool_market net pool market lref price_wad agg
           | None => mret (None, agg)
           end;
  let '(dec, agg) := pooled in
  let decimals := match dec with Some d => <[i := Some d]> decimals | None => decimals end in
  remove_oracle_config_and_freshness (oracle_labels net market);;
  match aggregator_id with
  | Some agg_id => publish_oracle_config_and_freshness net market now_secs agg_id (mjoin (decimals !! i))
  | None => mret ()
  end;;
  mret (agg, decimals).

Definition scrape_once (cfg : ExporterConfig) (contracts : ResolvedContracts) : M () :=
  let net := xc_network cfg in
  started ← instant_now;
  now_secs ← read_ledger_now net;
  index_rows ← read_market_indexes net contracts;
  pool ← resolve_pool_id (rc_controller contracts);
  pool_id ← match pool with
            | Ok p => mret (Some p)
            | Err _ => inc "rpc_errors" [net; "get_pool_address"]%string;; mret None
            end;
  aggregator_id ← resolve_price_aggregator (rc_controller contracts) (rc_price_aggregator contracts);
  scraped ← mfold (scrape_market net cfg pool_id aggregator_id now_secs)
              (no_aggregates, replicate (length (rc_markets contracts)) None)
              (enumerated contracts index_rows);
  let '(agg, decimals) := scraped in
  v ← read_view_i128 net "get_min_borrow_collateral_usd" "*" (rc_controller contracts)
        "get_min_borrow_collateral_usd" [];
  on_some v (fun v => set "min_borrow_collateral_usd" [net] (wad_to_f64 v));;
  publish_spokes net cfg contracts index_rows decimals;;
  set_all [net] [("protocol_tvl_usd", ag_supplied_usd agg);
                 ("protocol_borrowed_usd", ag_borrowed_usd agg);
                 ("protocol_liquidity_usd", ag_liquidity_usd agg);
                 ("protocol_revenue_usd", ag_revenue_usd agg);
                 ("protocol_markets", of_Z (Z.of_nat (length (rc_markets contracts))));
                 ("protocol_spokes", of_Z (Z.of_nat (length (xc_spokes cfg))))]%string;;
  e ← elapsed started;
  set "scrape_duration_seconds" [net] (as_secs_f64 e);;
  wall ← wall_clock_secs;
  set "last_success_timestamp" [net] (of_Z wall).

(** One turn of [run_scrape_loop] of main.rs. *)
Definition scrape_tick (cfg : ExporterConfig) (contracts : ResolvedContracts) : M () :=
  scrape_once cfg contracts;; publish_snapshot.

End Collector.

End Collector.
