(* ===== verification/ExporterProps.v ===== *)
(** * What the exporter's gauges say

    [FloatFacts]: integers below 2^53 are exact and the sign of their difference survives
    rounding.  [Runs]: total runs of the collector.  [Freshness]: the staleness countdown
    against the aggregator's own rule.  [Unlisted]: the cache of unlisted spoke assets.
    [Abi]: the decoders against the contracts' types. *)

From S2P Require Import Prelude Errors FpCore Fp PoolTypes ControllerTypes SpokeUsage OracleMath CtlViews KeeperKeys Keeper KeeperProps Exporter.
From stdpp Require Import base numbers list gmap strings pretty.
From Stdlib Require Import ZArith Lia Bool SpecFloat.

Open Scope Z_scope.

(** ** Floats *)

Module FloatFacts.

Import F64 Model.

Lemma digits_log2 p : Zpos (digits2_pos p) = Z.log2 (Zpos p) + 1.
Proof.
  induction p as [p IH|p IH|]; [| |done]; cbn [digits2_pos]; rewrite Pos2Z.inj_succ, IH.
  - change (Z.pos p~1) with (2 * Z.pos p + 1). rewrite Z.log2_succ_double by lia. lia.
  - change (Z.pos p~0) with (2 * Z.pos p). rewrite Z.log2_double by lia. lia.
Qed.

Lemma shift_left_pos p d : Zpos (Pos.iter xO p d) = Zpos p * 2 ^ Zpos d.
Proof.
  induction d as [|d IH] using Pos.peano_ind; [simpl; lia|].
  rewrite Pos.iter_succ, Pos2Z.inj_succ, Z.pow_succ_r by lia.
  change (Z.pos (Pos.iter xO p d)~0) with (2 * Z.pos (Pos.iter xO p d)). rewrite IH. lia.
Qed.

(** Shifting right divides, whatever bits were lost before. *)
Lemma shr_1_div m r s : 0 <= m -> shr_m (shr_1 {| shr_m := m; shr_r := r; shr_s := s |}) = m / 2.
Proof.
  intros Hm. destruct m as [|[p|p|]|p]; try lia; try done; cbn [shr_1 shr_m].
  - change (Z.pos p~1) with (2 * Z.pos p + 1). apply (Z.div_unique _ _ _ 1); lia.
  - change (Z.pos p~0) with (2 * Z.pos p). apply (Z.div_unique _ _ _ 0); lia.
Qed.

Lemma shr_div n : forall rec, 0 <= shr_m rec ->
  shr_m (SpecFloat.iter_pos shr_1 n rec) = shr_m rec / 2 ^ Zpos n.
Proof.
  assert (forall rec, 0 <= shr_m rec -> shr_m (shr_1 rec) = shr_m rec / 2) as H1.
  { intros [m r s] Hm. by apply shr_1_div. }
  assert (forall m k, 0 <= m -> 0 < k -> 0 <= m / k) as Hd by (intros; apply Z.div_pos; lia).
  induction n as [n IH|n IH|]; intros rec Hm; cbn [SpecFloat.iter_pos].
  - pose proof (Z.pow_pos_nonneg 2 (Zpos n) ltac:(lia) ltac:(lia)) as Hn.
    assert (0 <= shr_m (shr_1 rec)) as P1 by (rewrite H1; [apply Hd|]; lia).
    assert (0 <= shr_m (SpecFloat.iter_pos shr_1 n (shr_1 rec))) as P2 by (rewrite IH; [apply Hd|]; lia).
    rewrite IH, IH, H1, !Z.div_div by lia. f_equal.
    rewrite (Pos2Z.inj_xI n), Z.pow_add_r by lia. replace (2 * Z.pos n) with (Z.pos n + Z.pos n) by lia.
    rewrite Z.pow_add_r by lia. lia.
  - pose proof (Z.pow_pos_nonneg 2 (Zpos n) ltac:(lia) ltac:(lia)) as Hn.
    assert (0 <= shr_m (SpecFloat.iter_pos shr_1 n rec)) as P2 by (rewrite IH; [apply Hd|]; lia).
    rewrite IH, IH, !Z.div_div by lia. f_equal.
    rewrite (Pos2Z.inj_xO n). replace (2 * Z.pos n) with (Z.pos n + Z.pos n) by lia.
    rewrite Z.pow_add_r by lia. lia.
  - rewrite H1 by done. by rewrite Z.pow_1_r.
Qed.

Lemma shr_nonneg m e n : 0 <= m -> 0 <= n ->
  exists r s, shr {| shr_m := m; shr_r := false; shr_s := false |} e n
    = ({| shr_m := m / 2 ^ n; shr_r := r; shr_s := s |}, e + n).
Proof.
  intros Hm Hn. destruct n as [|n|n]; [|..|lia].
  - exists false, false. unfold shr. by rewrite Z.pow_0_r, Z.div_1_r, Z.add_0_r.
  - unfold shr. pose proof (shr_div n {| shr_m := m; shr_r := false; shr_s := false |} Hm) as E.
    destruct (SpecFloat.iter_pos shr_1 n _) as [m' r s]. cbn [shr_m] in E. rewrite E. by exists r, s.
Qed.

Lemma digits2_eq m : 0 < m -> Zdigits2 m = Z.log2 m + 1.
Proof. intros Hm. destruct m; try lia. apply digits_log2. Qed.

(** The exponent to which a mantissa of normal size is brought. *)
Lemma fexp_normal d e : -1021 <= d + e -> fexp 53 1024 (d + e) = d + e - 53.
Proof. intros H. unfold fexp, emin. lia. Qed.

(** A mantissa of at least 53 bits keeps its sign when it is rounded. *)
Lemma round_aux_finite s m e : 2 ^ 52 <= m -> m < 2 ^ 400 -> -400 <= e <= 400 ->
  exists m' e', binary_round_aux 53 1024 s m e loc_Exact = S754_finite s m' e'.
Proof.
  intros Hm Hm' He. set (d := Z.log2 m + 1).
  assert (53 <= d <= 400) as Hd.
  { subst d. pose proof (Z.log2_le_mono _ _ Hm) as H1. rewrite Z.log2_pow2 in H1 by lia.
    apply Z.log2_lt_pow2 in Hm'; lia. }
  destruct (Z.log2_spec m ltac:(lia)) as [B1 B2].
  unfold binary_round_aux, shr_fexp. rewrite digits2_eq by lia. fold d. rewrite fexp_normal by lia.
  replace (d + e - 53 - e) with (d - 53) by lia. cbn [shr_record_of_loc].
  destruct (shr_nonneg m e (d - 53) ltac:(lia) ltac:(lia)) as (r & st & ->). cbn [shr_m loc_of_shr_record].
  set (m1 := m / 2 ^ (d - 53)). set (rounded := round_nearest_even m1 _).
  assert (2 ^ 52 <= m1 < 2 ^ 53) as Hm1.
  { subst m1. split; [apply Z.div_le_lower_bound|apply Z.div_lt_upper_bound]; try (apply Z.pow_pos_nonneg; lia).
    - rewrite <- Z.pow_add_r by lia. replace (d - 53 + 52) with (Z.log2 m) by lia. lia.
    - rewrite <- Z.pow_add_r by lia. replace (d - 53 + 53) with (Z.succ (Z.log2 m)) by lia. lia. }
  assert (m1 <= rounded <= m1 + 1) as Hr.
  { subst rounded. destruct r, st; cbn [round_nearest_even]; try destruct (Z.even m1); lia. }
  assert (53 <= Z.log2 rounded + 1 <= 54) as Hd2.
  { pose proof (Z.log2_le_mono (2 ^ 52) rounded ltac:(lia)) as H1.
    pose proof (Z.log2_le_mono rounded (2 ^ 53) ltac:(lia)) as H2. rewrite Z.log2_pow2 in H1, H2 by lia. lia. }
  rewrite digits2_eq, fexp_normal by lia.
  replace (Z.log2 rounded + 1 + (e + (d - 53)) - 53 - (e + (d - 53))) with (Z.log2 rounded - 52) by lia.
  destruct (shr_nonneg rounded (e + (d - 53)) (Z.log2 rounded - 52) ltac:(lia) ltac:(lia)) as (r2 & s2 & ->).
  cbn [shr_m]. assert (0 < rounded / 2 ^ (Z.log2 rounded - 52)) as Hp.
  { apply Z.div_str_pos. split; [apply Z.pow_pos_nonneg; lia|].
    transitivity (2 ^ 2); [apply Z.pow_le_mono_r; lia|lia]. }
  destruct (rounded / 2 ^ (Z.log2 rounded - 52)) as [|m'|m'] eqn:Em; try lia.
  rewrite (proj2 (Z.leb_le _ _)) by lia. by eexists _, _.
Qed.

(** One of exactly 53 bits is not rounded at all. *)
Lemma round_aux_exact s p e : 2 ^ 52 <= Zpos p < 2 ^ 53 -> -400 <= e <= 400 ->
  binary_round_aux 53 1024 s (Zpos p) e loc_Exact = S754_finite s p e.
Proof.
  intros Hp He. assert (Z.log2 (Zpos p) = 52) as El by (apply Z.log2_unique; lia).
  unfold binary_round_aux, shr_fexp. rewrite digits2_eq, El, fexp_normal by lia.
  replace (52 + 1 + e - 53 - e) with 0 by lia. cbn [shr shr_record_of_loc shr_m loc_of_shr_record round_nearest_even].
  rewrite digits2_eq, El, fexp_normal by lia. replace (52 + 1 + e - 53 - e) with 0 by lia.
  cbn [shr shr_record_of_loc shr_m]. by rewrite (proj2 (Z.leb_le _ _)) by lia.
Qed.

(** An integer below 2^53 is a float: a mantissa of 53 bits and an exponent in [-52, 0]. *)
Lemma of_pos_exact s p : Zpos p < 2 ^ 53 -> exists m e,
  binary_round 53 1024 s p 0 = S754_finite s m e /\ -52 <= e <= 0 /\ Zpos m = Zpos p * 2 ^ (- e).
Proof.
  intros Hp. unfold binary_round. rewrite digits_log2, fexp_normal
    by (pose proof (Z.log2_nonneg (Zpos p)); lia).
  set (k := Z.log2 (Zpos p)). assert (0 <= k <= 52) as Hk.
  { subst k. pose proof (Z.log2_nonneg (Zpos p)). apply Z.log2_lt_pow2 in Hp; lia. }
  destruct (Z.log2_spec (Zpos p) ltac:(lia)) as [B1 B2]. fold k in B1, B2.
  assert (exists m, shl_align p 0 (k + 1 + 0 - 53) = (m, k - 52) /\ Zpos m = Zpos p * 2 ^ (52 - k)) as (m & E & Em).
  { unfold shl_align. destruct (k + 1 + 0 - 53 - 0) as [|d|d] eqn:Ed; [..|].
    - exists p. split; [f_equal; lia|]. replace (52 - k) with 0 by lia. lia.
    - lia.
    - exists (Pos.iter xO p d). split; [f_equal; lia|]. rewrite shift_left_pos. do 2 f_equal. lia. }
  rewrite E. exists m, (k - 52). split_and!; [|lia..|rewrite Em; f_equal; f_equal; lia].
  apply round_aux_exact; [|lia]. rewrite Em. split.
  - replace (2 ^ 52) with (2 ^ k * 2 ^ (52 - k)) by (rewrite <- Z.pow_add_r by lia; f_equal; lia).
    apply Z.mul_le_mono_nonneg_r; lia.
  - replace (2 ^ 53) with (2 ^ Z.succ k * 2 ^ (52 - k)) by (rewrite <- Z.pow_add_r by lia; f_equal; lia).
    apply Z.mul_lt_mono_pos_r; [apply Z.pow_pos_nonneg; lia|lia].
Qed.

(** Normalising keeps the sign of a mantissa that is neither tiny nor huge. *)
Lemma normalize_finite m e : m <> 0 -> Z.abs m < 2 ^ 200 -> -100 <= e <= 0 ->
  exists m' e', binary_normalize 53 1024 m e false = S754_finite (m <? 0) m' e'.
Proof.
  intros Hm Hb He.
  assert (forall s p, Zpos p < 2 ^ 200 -> exists m' e', binary_round 53 1024 s p e = S754_finite s m' e') as H.
  { clear m Hm Hb. intros s p Hp. unfold binary_round. rewrite digits_log2, fexp_normal
      by (pose proof (Z.log2_nonneg (Zpos p)); lia).
    set (k := Z.log2 (Zpos p)). assert (0 <= k < 200) as Hk.
    { subst k. pose proof (Z.log2_nonneg (Zpos p)). apply Z.log2_lt_pow2 in Hp; lia. }
    destruct (Z.log2_spec (Zpos p) ltac:(lia)) as [B1 B2]. fold k in B1, B2.
    unfold shl_align. destruct (k + 1 + e - 53 - e) as [|d|d] eqn:Ed.
    - apply round_aux_finite; [|lia..]. transitivity (2 ^ k); [apply Z.pow_le_mono_r|]; lia.
    - apply round_aux_finite; [|lia..]. transitivity (2 ^ k); [apply Z.pow_le_mono_r|]; lia.
    - apply round_aux_finite; [| |lia]; rewrite shift_left_pos; replace (Zpos d) with (52 - k) by lia.
      + replace (2 ^ 52) with (2 ^ k * 2 ^ (52 - k)) by (rewrite <- Z.pow_add_r by lia; f_equal; lia).
        apply Z.mul_le_mono_nonneg_r; lia.
      + replace (2 ^ 400) with (2 ^ 200 * 2 ^ 200) by (rewrite <- Z.pow_add_r by lia; f_equal; lia).
        pose proof (Z.pow_le_mono_r 2 (52 - k) 200 ltac:(lia) ltac:(lia)).
        pose proof (Z.pow_pos_nonneg 2 (52 - k) ltac:(lia) ltac:(lia)). nia. }
  destruct m as [|p|p]; [done|..]; cbn [binary_normalize]; apply H; lia.
Qed.

Lemma of_Z_exact z : Z.abs z < 2 ^ 53 -> z <> 0 -> exists m e,
  of_Z z = S754_finite (z <? 0) m e /\ -52 <= e <= 0 /\ Zpos m = Z.abs z * 2 ^ (- e).
Proof. intros Hz Hn. destruct z as [|p|p]; [done|..]; unfold of_Z; cbn [binary_normalize]; by apply of_pos_exact. Qed.

Lemma align_down m e ez : ez <= e -> Zpos (fst (shl_align m e ez)) = Zpos m * 2 ^ (e - ez).
Proof.
  intros H. unfold shl_align. destruct (ez - e) as [|d|d] eqn:E; [|lia|]; cbn [fst].
  - replace (e - ez) with 0 by lia. lia.
  - rewrite shift_left_pos. do 2 f_equal. lia.
Qed.

(** A mantissa and sign of an integer, aligned to a smaller exponent. *)
Lemma aligned z m e ez : ez <= e <= 0 -> Zpos m = Z.abs z * 2 ^ (- e) ->
  cond_Zopp (z <? 0) (Zpos (fst (shl_align m e ez))) = z * 2 ^ (- ez).
Proof.
  intros He Hm. rewrite align_down, Hm, <- Z.mul_assoc, <- Z.pow_add_r by lia.
  replace (- e + (e - ez)) with (- ez) by lia. unfold cond_Zopp. destruct (Z.ltb_spec z 0); nia.
Qed.

(** The difference of two integers below 2^53 has the sign it has in [Z]. *)
Lemma sub_sign a b : Z.abs a < 2 ^ 53 -> Z.abs b < 2 ^ 53 ->
  (a = b /\ exists s, sub (of_Z a) (of_Z b) = S754_zero s)
  \/ (a <> b /\ exists m e, sub (of_Z a) (of_Z b) = S754_finite (a <? b) m e).
Proof.
  intros Ha Hb. destruct (Z.eq_dec a 0) as [->|Na], (Z.eq_dec b 0) as [->|Nb].
  - left. split; [done|]. by exists false.
  - right. destruct (of_Z_exact b Hb Nb) as (m & e & -> & _). split; [lia|]. exists m, e. simpl.
    f_equal. destruct (Z.ltb_spec b 0), (Z.ltb_spec 0 b); lia.
  - right. destruct (of_Z_exact a Ha Na) as (m & e & -> & _). split; [lia|]. by exists m, e.
  - destruct (of_Z_exact a Ha Na) as (m & e & -> & He & Em), (of_Z_exact b Hb Nb) as (n & k & -> & Hk & En).
    unfold sub, SFsub. set (ez := Z.min e k). rewrite (aligned a), (aligned b) by (lia || done).
    rewrite <- Z.mul_sub_distr_r. pose proof (Z.pow_pos_nonneg 2 (- ez) ltac:(lia) ltac:(lia)) as P1.
    pose proof (Z.pow_le_mono_r 2 (- ez) 52 ltac:(lia) ltac:(lia)) as P2.
    destruct (Z.eq_dec a b) as [->|Hab].
    + left. split; [done|]. rewrite Z.sub_diag, Z.mul_0_l. by exists false.
    + right. split; [done|].
      destruct (normalize_finite ((a - b) * 2 ^ (- ez)) ez) as (m' & e' & ->).
      * nia.
      * rewrite Z.abs_mul, (Z.abs_eq (2 ^ (- ez))) by lia.
        apply Z.le_lt_trans with (2 ^ 54 * 2 ^ 52); [apply Z.mul_le_mono_nonneg; lia|].
        rewrite <- Z.pow_add_r by lia. apply Z.pow_lt_mono_r; lia.
      * lia.
      * exists m', e'. f_equal. destruct (Z.ltb_spec a b); [apply Z.ltb_lt|apply Z.ltb_ge]; nia.
Qed.

(** *** Comparison *)

Lemma ltb_zero_sub a b : Z.abs a < 2 ^ 53 -> Z.abs b < 2 ^ 53 -> ltb (sub (of_Z a) (of_Z b)) zero = (a <? b).
Proof.
  intros Ha Hb. destruct (sub_sign a b Ha Hb) as [[-> [s ->]]|[H (m & e & ->)]].
  - rewrite Z.ltb_irrefl. done.
  - by destruct (a <? b).
Qed.

(** [SFcompare] as a comparison of triples. *)
Definition rank (x : spec_float) : option (Z * Z * Z) :=
  match x with
  | S754_nan => None
  | S754_infinity s => Some (if s then -2 else 2, 0, 0)
  | S754_zero _ => Some (0, 0, 0)
  | S754_finite s m e => Some (if s then (-1, - e, - Zpos m) else (1, e, Zpos m))
  end.

Definition rank_lt (a b : Z * Z * Z) : Prop :=
  a.1.1 < b.1.1 \/ a.1.1 = b.1.1 /\ (a.1.2 < b.1.2 \/ a.1.2 = b.1.2 /\ a.2 < b.2).

Lemma ltb_rank x y : ltb x y = true <-> exists a b, rank x = Some a /\ rank y = Some b /\ rank_lt a b.
Proof.
  assert (forall a b, (exists a' b', Some a = Some a' /\ Some b = Some b' /\ rank_lt a' b') <-> rank_lt a b) as Hs.
  { intros a b. split; [by intros (? & ? & [= <-] & [= <-] & H)|by eexists _, _]. }
  destruct x as [sx|sx| |sx mx ex], y as [sy|sy| |sy my ey]; cbn [rank];
    try (split; [discriminate|by intros (? & ? & ? & ? & _)]); rewrite ?Hs; unfold ltb, SFltb, SFcompare;
    destruct_and?; try destruct sx; try destruct sy; unfold rank_lt; cbn [fst snd];
    try (split; [discriminate||lia|done||lia]).
  all: change (Pos.compare_cont Eq mx my) with (Pos.compare mx my).
  all: destruct (Z.compare_spec ex ey); try destruct (Pos.compare_spec mx my); subst; cbn [CompOpp];
    try (split; [discriminate||lia|done||lia]).
Qed.

Lemma ltb_trans x y z : ltb x y = true -> ltb y z = true -> ltb x z = true.
Proof.
  rewrite !ltb_rank. intros (a & b & Ex & Ey & H1) (b' & c & Ey' & Ez & H2).
  exists a, c. split_and!; [done..|]. assert (b' = b) as -> by congruence. unfold rank_lt in *. lia.
Qed.

Lemma ltb_below x y : is_Some (rank y) -> ltb x zero = true -> ltb y zero = false -> ltb x y = true.
Proof.
  intros [b Hb] Hx Hy. apply ltb_rank in Hx as (a & z & Ex & [= <-] & H).
  apply ltb_rank. exists a, b. split_and!; [done..|].
  assert (~ rank_lt b (0, 0, 0)) as Hn.
  { intros Hl. rewrite (proj2 (ltb_rank y zero)) in Hy; [done|]. by exists b, (0, 0, 0). }
  unfold rank_lt in *. cbn [fst snd] in *. destruct y as [s|s| |s m e]; simplify_eq/=; try lia; destruct s; simplify_eq/=; lia.
Qed.

End FloatFacts.

(** ** Runs of the collector *)

Module Runs.

Import F64 Model Text Sc XKeys XConfig Decode Reg View Collector.

(** What a run leaves alone: the cache, and the series of [K]; requests only grow. *)
Record frame (K : Series -> bool) (s s' : State) : Prop := {
  fr_unlisted : x_unlisted s' = x_unlisted s;
  fr_requests : (x_requests s <= x_requests s')%N;
  fr_gauges : forall k, K k = true -> x_gauges s' !! k = x_gauges s !! k
}.

Definition framed {A} (K : Series -> bool) (m : M A) : Prop :=
  forall s a s', m s = Some (a, s') -> frame K s s'.

Lemma frame_refl K s : frame K s s.
Proof. by split. Qed.

Lemma frame_trans K s1 s2 s3 : frame K s1 s2 -> frame K s2 s3 -> frame K s1 s3.
Proof. intros [A1 A2 A3] [B1 B2 B3]. split; [congruence|lia|]. intros k Hk. rewrite B3, A3; done. Qed.

Lemma run_inv {A B} (m : M A) (f : A -> M B) s r : (m ≫= f) s = Some r ->
  exists a s1, m s = Some (a, s1) /\ f a s1 = Some r.
Proof. unfold mbind, m_bind. destruct (m s) as [[a s1]|]; [eauto|done]. Qed.

Lemma collect_elem {A B} (f : A -> ares B) l : forall ys y, collect f l = Ok ys -> y ∈ ys ->
  exists x, x ∈ l /\ f x = Ok y.
Proof.
  induction l as [|x l IH]; intros ys y E Hy; cbn [collect] in E.
  - injection E as <-. set_solver.
  - apply rbind_Ok in E as (z & E1 & E). apply rbind_Ok in E as (zs & E2 & E). injection E as <-.
    apply elem_of_cons in Hy as [->|Hy]; [exists x; set_solver|].
    destruct (IH _ _ E2 Hy) as (w & ? & ?). exists w. set_solver.
Qed.

Section Framed.

Context (K : Series -> bool).

Lemma framed_ret {A} (a : A) : framed K (mret a).
Proof. intros s b s' [= <- <-]. apply frame_refl. Qed.

Lemma framed_bind {A B} (m : M A) (f : A -> M B) :
  framed K m -> (forall a, framed K (f a)) -> framed K (m ≫= f).
Proof.
  intros Hm Hf s b s' E. apply run_inv in E as (a & s1 & E1 & E2).
  eapply frame_trans; [by eapply Hm|by eapply Hf].
Qed.

Lemma framed_mfold {A B} (f : A -> B -> M A) l : forall a,
  (forall a x, x ∈ l -> framed K (f a x)) -> framed K (mfold f a l).
Proof.
  induction l as [|x l IH]; intros a Hf; [apply framed_ret|]. cbn [mfold].
  apply framed_bind; [apply Hf; set_solver|]. intros b. apply IH. intros; apply Hf; set_solver.
Qed.

Lemma framed_mfor {B} (f : B -> M ()) l : (forall x, x ∈ l -> framed K (f x)) -> framed K (mfor l f).
Proof. intros Hf. apply framed_mfold. intros _. exact Hf. Qed.

Lemma framed_set family labels v : K (family, labels) = false -> framed K (set family labels v).
Proof.
  intros HK s a s' E. unfold set in E. destruct (labelled _ _); [|done]. injection E as <- <-.
  split; [done|reflexivity|]. intros k Hk. simpl. apply lookup_insert_ne. congruence.
Qed.

Lemma framed_set_all labels l : Forall (fun p => K (p.1, labels) = false) l -> framed K (set_all labels l).
Proof. intros H. apply framed_mfor. intros p Hp. apply framed_set. by eapply Forall_forall in H. Qed.

Lemma framed_remove family labels : K (family, labels) = false -> framed K (remove family labels).
Proof.
  intros HK s a s' [= <- <-]. split; [done|reflexivity|]. intros k Hk. simpl. apply lookup_delete_ne. congruence.
Qed.

Lemma framed_set_or_remove family labels v : K (family, labels) = false -> framed K (set_or_remove family labels v).
Proof. intros HK. destruct v; [by apply framed_set|by apply framed_remove]. Qed.

Lemma framed_inc family labels : framed K (inc family labels).
Proof. intros s a s' E. unfold inc in E. destruct (labelled _ _); [|done]. by injection E as <- <-. Qed.

Lemma framed_request {A} (f : N -> A) : framed K (request f).
Proof. intros s a s' [= <- <-]. split; [done|simpl; lia|done]. Qed.

Lemma framed_gets {A} (f : State -> A) : framed K (gets f).
Proof. by intros s a s' [= <- <-]. Qed.

Lemma framed_count : framed K (modify count_simulation).
Proof. by intros s a s' [= <- <-]. Qed.

Lemma framed_on_some {A} (o : option A) f : (forall a, framed K (f a)) -> framed K (on_some o f).
Proof. intros Hf. destruct o; [apply Hf|apply framed_ret]. Qed.

(** Removing a group of series leaves none of them and nothing else changed. *)
Lemma removed labels l : forall s a s', mfor l (fun g => remove g labels) s = Some (a, s') ->
  (forall g, g ∈ l -> x_gauges s' !! (g, labels) = None)
  /\ (forall k, x_gauges s !! k = None -> x_gauges s' !! k = None).
Proof.
  induction l as [|g l IH]; intros s a s' E; [injection E as <- <-; split; [set_solver|done]|].
  unfold mfor in E. cbn [mfold] in E. apply run_inv in E as ([] & s1 & [= <-] & E).
  apply IH in E as [E1 E2]. split.
  - intros g' Hg. apply elem_of_cons in Hg as [->|Hg]; [|by apply E1]. apply E2. simpl. apply lookup_delete_eq.
  - intros k Hk. apply E2. simpl. rewrite lookup_delete_None. by right.
Qed.

End Framed.

(** Walks the calls of a run; those with a lemma of their own are in the database. *)
Create HintDb framed.

Ltac outside := first [reflexivity | by apply negb_false_iff, bool_decide_eq_true].

Ltac run_step :=
  lazymatch goal with
  | |- framed _ (mret _) => apply framed_ret
  | |- framed _ (_ ≫= _) => apply framed_bind; [|intros ?]
  | |- framed _ (inc _ _) => apply framed_inc
  | |- framed _ (request _) => apply framed_request
  | |- framed _ (gets _) => apply framed_gets
  | |- framed _ (modify count_simulation) => apply framed_count
  | |- framed _ (set _ _ _) => apply framed_set; outside
  | |- framed _ (remove _ _) => apply framed_remove; outside
  | |- framed _ (set_or_remove _ _ _) => apply framed_set_or_remove; outside
  | |- framed _ (set_all _ _) => apply framed_set_all; repeat (constructor; [outside|]); constructor
  | |- framed _ (on_some _ _) => apply framed_on_some; intros ?
  | |- framed _ (match ?x with _ => _ end) => destruct x
  | |- framed _ _ => solve [eauto with framed]
  end.
Ltac run := repeat (cbv zeta; run_step).

Section Reads.

Context `{Lib} `{Node} (K : Series -> bool).

Lemma framed_simulate_view c f args : framed K (simulate_view c f args).
Proof. unfold simulate_view. run. Qed.
#[local] Hint Resolve framed_simulate_view : framed.

Lemma framed_read_view net v a c f args : framed K (read_view net v a c f args).
Proof. unfold read_view, count_view_error. run. Qed.
#[local] Hint Resolve framed_read_view : framed.

Lemma framed_read_i128 net v a c f args : framed K (read_view_i128 net v a c f args).
Proof. unfold read_view_i128. run. Qed.
#[local] Hint Resolve framed_read_i128 : framed.

Lemma framed_entries keys : framed K (get_ledger_entries keys).
Proof. unfold get_ledger_entries. run. Qed.
#[local] Hint Resolve framed_entries : framed.

Lemma framed_oracle_config net market c : framed K (read_oracle_config net market c).
Proof. unfold read_oracle_config, decode_or_count. run. Qed.
#[local] Hint Resolve framed_oracle_config : framed.

Lemma framed_probe {A} net market c v args (d : ScVal -> ares A) : framed K (probe net market c v args d).
Proof. unfold probe, decode_or_count. run. Qed.
#[local] Hint Resolve framed_probe : framed.

Lemma framed_feed_timestamp net market source : framed K (read_feed_timestamp net market source).
Proof. unfold read_feed_timestamp. run. Qed.
#[local] Hint Resolve framed_feed_timestamp : framed.

Lemma framed_worst_leg net market now : forall sources worst,
  framed K (worst_leg net market now worst sources).
Proof.
  intros sources. induction sources as [|src l IH]; intros worst; [apply framed_ret|]. cbn [worst_leg].
  apply framed_bind; [apply framed_feed_timestamp|]. intros [ts|]; [apply IH|apply framed_ret].
Qed.

End Reads.

#[export] Hint Resolve framed_simulate_view framed_read_view framed_read_i128 framed_entries
  framed_oracle_config framed_probe framed_feed_timestamp framed_worst_leg : framed.

End Runs.

(** ** Index rows *)

Module IndexRows.

Import XConfig Decode Reg View Collector Runs.

Section IndexRows.

Context `{Lib} `{Node} (controller : Id).

(** The controller's decoded answer to a batch of keys. *)
Definition batch_answer (keys : list Keys.HubAssetKey) (views : list MarketIndexView) : Prop :=
  exists s s', try_index_batch controller keys s = Some (Some views, s').

(** A market's row is the one its own key got: in a batch answered in full, or alone. *)
Definition answered (m : ResolvedMarket) (row : option MarketIndexView) : Prop :=
  match row with
  | None => True
  | Some r => exists keys views j, batch_answer keys views /\ keys !! j = Some (hub_key m)
      /\ (length views = length keys /\ views !! j = Some r \/ keys = [hub_key m] /\ last views = Some r)
  end.

Lemma singles_answered net chunk : forall out s rows s',
  mfold (read_single_index net controller) out chunk s = Some (rows, s') ->
  exists new, rows = out ++ new /\ Forall2 answered chunk new.
Proof using.
  induction chunk as [|m chunk IH]; intros out s rows s' E; cbn [mfold] in E.
  { injection E as <- <-. exists []. by rewrite app_nil_r. }
  apply run_inv in E as (out1 & s1 & E1 & E). apply IH in E as (new & -> & Hn).
  assert (exists row, out1 = out ++ [row] /\ answered m row) as (row & -> & Hrow).
  { unfold read_single_index in E1. apply run_inv in E1 as (single & s2 & E2 & E1).
    destruct (single ≫= last) as [r|] eqn:El.
    - injection E1 as <- _. exists (Some r). split; [done|]. destruct single as [views|]; [|done].
      exists [hub_key m], views, 0%nat. split_and!; [by exists s, s2|done|by right].
    - apply run_inv in E1 as (? & ? & _ & E1). injection E1 as <- _. by exists None. }
  exists (row :: new). rewrite <- app_assoc. split; [done|by constructor].
Qed.

Lemma chunk_answered net chunk out s rows s' :
  read_index_chunk net controller out chunk s = Some (rows, s') ->
  exists new, rows = out ++ new /\ Forall2 answered chunk new.
Proof using.
  intros E. unfold read_index_chunk in E. apply run_inv in E as (views & s1 & E1 & E).
  destruct views as [views|]; [|by eapply singles_answered].
  destruct (Nat.eqb_spec (length views) (length chunk)) as [Hl|]; [|by eapply singles_answered].
  injection E as <- _. exists (Some <$> views). split; [done|]. apply Forall2_same_length_lookup_2.
  { by rewrite length_fmap. }
  intros j m row Hm Hrow. apply list_lookup_fmap_Some in Hrow as (r & -> & Hr).
  exists (hub_key <$> chunk), views, j. split_and!; [by exists s, s1|by rewrite list_lookup_fmap, Hm|].
  left. by rewrite length_fmap.
Qed.

End IndexRows.

(** The index rows a scrape publishes line up with the markets: there is exactly one per
    market, in order, and a row that is there is the controller's answer for that market's own
    key, whether its batch was answered in full or it was asked alone.  A short, long or
    undecodable batch never shifts a price to another asset. *)
Theorem index_rows_aligned `{Lib} `{Node} net contracts s rows s' :
  read_market_indexes net contracts s = Some (rows, s') ->
  Forall2 (answered (rc_controller contracts)) (rc_markets contracts) rows.
Proof.
  intros E. unfold read_market_indexes in E.
  rewrite <- (proj1 (KeeperPlans.chunks_spec INDEX_CHUNK_SIZE (rc_markets contracts) ltac:(unfold INDEX_CHUNK_SIZE; lia))).
  revert E. generalize (Svc.chunks INDEX_CHUNK_SIZE (rc_markets contracts)). intros l.
  assert (forall out s, mfold (read_index_chunk net (rc_controller contracts)) out l s = Some (rows, s') ->
    exists new, rows = out ++ new /\ Forall2 (answered (rc_controller contracts)) (mjoin l) new) as Hl.
  { induction l as [|chunk l IH]; intros out s0 E; cbn [mfold] in E.
    - injection E as <- _. exists []. by rewrite app_nil_r.
    - apply run_inv in E as (out1 & s1 & E1 & E). apply IH in E as (new & -> & Hn).
      apply chunk_answered in E1 as (new1 & -> & Hn1). exists (new1 ++ new). rewrite <- app_assoc.
      split; [done|]. by apply Forall2_app. }
  intros E. by apply Hl in E as (new & -> & Hn).
Qed.

End IndexRows.

(** ** Freshness *)

Module Freshness.

Import F64 Model Text Sc XKeys XConfig Decode Reg View Collector FloatFacts Runs.

(** A provider leg and the timestamp read for it. *)
Abbreviation Leg := (OracleSource * Z)%type.

(** Seconds and limits far below 2^53, as real ones are. *)
Definition small (z : Z) : Prop := 0 <= z < 2 ^ 52.
Definition small_leg (leg : Leg) : Prop := small leg.2 /\ small (os_max_stale_seconds leg.1).

(** The timestamp read for the leg is older than its limit. *)
Definition overdue (now : Z) (leg : Leg) : bool := os_max_stale_seconds leg.1 <? now - leg.2.

Definition countdown (now : Z) (leg : Leg) : spec_float :=
  seconds_until_stale now leg.2 (os_max_stale_seconds leg.1).

Lemma wrap_small w z : 1 < w -> - 2 ^ (w - 1) <= z < 2 ^ (w - 1) -> wrap w z = z.
Proof.
  intros Hw Hz. unfold wrap. assert (2 ^ w = 2 * 2 ^ (w - 1)) as E.
  { rewrite <- Z.pow_succ_r by lia. f_equal. lia. }
  rewrite Z.mod_small; lia.
Qed.

(** The countdown is negative exactly when the leg is overdue. *)
Lemma countdown_overdue now leg : small now -> small_leg leg ->
  ltb (countdown now leg) zero = overdue now leg.
Proof.
  intros Hn [Ht Hm]. unfold small, countdown, seconds_until_stale, overdue in *.
  change (2 ^ 52) with 4503599627370496 in *.
  by rewrite (wrap_small 64 leg.2), wrap_small, ltb_zero_sub by lia.
Qed.

Lemma countdown_number now leg : small now -> small_leg leg -> is_Some (rank (countdown now leg)).
Proof.
  intros Hn [Ht Hm]. unfold small, countdown, seconds_until_stale in *.
  change (2 ^ 52) with 4503599627370496 in *. rewrite (wrap_small 64 leg.2), wrap_small by lia.
  destruct (sub_sign (os_max_stale_seconds leg.1) (now - leg.2)) as [[_ [s ->]]|[_ (m & e & ->)]]; [lia..|done|done].
Qed.

(** The loop over the legs once their timestamps are known. *)
Definition pick (now : Z) (worst : option Worst) (legs : list Leg) : option Worst :=
  foldl (fun worst leg => if replace_worst worst (countdown now leg)
                          then Some (countdown now leg, leg.2, os_max_stale_seconds leg.1) else worst)
    worst legs.

Lemma pick_stale now : small now -> forall legs w, Forall small_leg legs -> is_Some (rank w.1.1) ->
  exists w', pick now (Some w) legs = Some w'
    /\ ltb w'.1.1 zero = ltb w.1.1 zero || existsb (overdue now) legs.
Proof.
  intros Hn legs. induction legs as [|leg legs IH]; intros w Hl Hw.
  { exists w. simpl. by rewrite orb_false_r. }
  apply Forall_cons in Hl as [Hleg Hl]. cbn [pick foldl existsb]. rewrite <- (countdown_overdue now leg Hn Hleg).
  unfold replace_worst at 2. destruct w as [[v ts] mx]; cbn [fst snd] in *.
  destruct (ltb (countdown now leg) v) eqn:Elt.
  - destruct (IH (countdown now leg, leg.2, os_max_stale_seconds leg.1) Hl (countdown_number _ _ Hn Hleg))
      as (w' & E & Ew). exists w'. split; [exact E|]. rewrite Ew. cbn [fst snd].
    destruct (ltb v zero) eqn:Ev; [|done]. by rewrite (ltb_trans _ _ _ Elt Ev).
  - destruct (IH (v, ts, mx) Hl Hw) as (w' & E & Ew). exists w'. split; [exact E|]. rewrite Ew. cbn [fst snd].
    destruct (ltb v zero) eqn:Ev; [done|]. destruct (ltb (countdown now leg) zero) eqn:Es; [|done].
    by rewrite (ltb_below _ _ Hw Es Ev) in Elt.
Qed.

(** The leg picked is one of the legs, and none is below it. *)
Definition worst_of (now : Z) (legs : list Leg) (v : spec_float) : Prop :=
  (exists leg, leg ∈ legs /\ v = countdown now leg)
  /\ forall leg, leg ∈ legs -> ltb (countdown now leg) v = false.

Lemma ltb_irrefl x : ltb x x = false.
Proof.
  destruct (ltb x x) eqn:E; [|done]. apply ltb_rank in E as (a & b & Ea & Eb & H).
  assert (b = a) as -> by congruence. unfold rank_lt in H. lia.
Qed.

Lemma pick_worst now : forall legs seen w, worst_of now seen w.1.1 ->
  exists w', pick now (Some w) legs = Some w' /\ worst_of now (seen ++ legs) w'.1.1.
Proof.
  induction legs as [|leg legs IH]; intros seen [[v ts] mx] [(l0 & Hl0 & E0) Hv]; cbn [fst snd] in *.
  { exists (v, ts, mx). rewrite app_nil_r. split; [done|]. split; [by exists l0|done]. }
  cbn [pick foldl]. unfold replace_worst at 2. replace (seen ++ leg :: legs) with ((seen ++ [leg]) ++ legs)
    by (by rewrite <- app_assoc).
  destruct (ltb (countdown now leg) v) eqn:Elt; apply IH; split; cbn [fst snd].
  - exists leg. split; [set_solver|done].
  - intros x [Hx|Hx%list_elem_of_singleton]%elem_of_app; [|subst; apply ltb_irrefl].
    destruct (ltb (countdown now x) (countdown now leg)) eqn:E; [|done].
    pose proof (ltb_trans _ _ _ E Elt). by rewrite Hv in *.
  - exists l0. split; [set_solver|done].
  - intros x [Hx|Hx%list_elem_of_singleton]%elem_of_app; [by apply Hv|by subst].
Qed.

(** A first leg always counts. *)
Lemma pick_first_worst now legs v ts mx : pick now None legs = Some (v, ts, mx) -> worst_of now legs v.
Proof.
  intros E. destruct legs as [|leg legs]; [done|].
  destruct (pick_worst now legs [leg] (countdown now leg, leg.2, os_max_stale_seconds leg.1)) as (w' & E' & Hw).
  { cbn [fst]. split; [exists leg; by split; [left|]|]. intros x ->%list_elem_of_singleton. apply ltb_irrefl. }
  change (pick now None (leg :: legs)) with
    (pick now (Some (countdown now leg, leg.2, os_max_stale_seconds leg.1)) legs) in E.
  rewrite E in E'. injection E' as <-. exact Hw.
Qed.

Lemma pick_first now legs v ts mx : small now -> Forall small_leg legs ->
  pick now None legs = Some (v, ts, mx) -> ltb v zero = existsb (overdue now) legs.
Proof.
  intros Hn Hl E. destruct legs as [|leg legs]; [done|]. apply Forall_cons in Hl as [Hleg Hl].
  cbn [existsb]. rewrite <- (countdown_overdue now leg Hn Hleg).
  destruct (pick_stale now Hn legs (countdown now leg, leg.2, os_max_stale_seconds leg.1) Hl
              (countdown_number _ _ Hn Hleg)) as (w' & E' & Hw).
  change (pick now None (leg :: legs)) with
    (pick now (Some (countdown now leg, leg.2, os_max_stale_seconds leg.1)) legs) in E.
  rewrite E in E'. injection E' as <-. exact Hw.
Qed.

Section Freshness.

Context `{Lib} `{Node}.

(** A timestamp the provider of a leg gave in this process. *)
Definition leg_read (net : string) (market : ResolvedMarket) (source : OracleSource) (ts : Z) : Prop :=
  exists s s', read_feed_timestamp net market source s = Some (Some ts, s').

Definition config_read (net : string) (market : ResolvedMarket) (aggregator_id : Id) (c : OracleConfig) : Prop :=
  exists s s', read_oracle_config net market aggregator_id s = Some (Some c, s').

Lemma worst_leg_pick net market now : forall sources worst s w s',
  worst_leg net market now worst sources s = Some (Some w, s') ->
  exists stamps, Forall2 (leg_read net market) sources stamps /\ w = pick now worst (zip sources stamps).
Proof.
  intros sources. induction sources as [|src l IH]; intros worst s w s' E; cbn [worst_leg] in E.
  - injection E as <- <-. exists []. by split.
  - apply run_inv in E as (ts & s1 & E1 & E). destruct ts as [ts|]; [|discriminate E].
    apply IH in E as (stamps & Hs & ->). exists (ts :: stamps). split; [|done].
    constructor; [by exists s, s1|done].
Qed.

Definition countdown_series (net : string) (market : ResolvedMarket) : Series :=
  ("oracle_seconds_until_stale"%string, oracle_labels net market).

Lemma publish_fresh net market now agg dec s a s' v :
  publish_oracle_config_and_freshness net market now agg dec s = Some (a, s') ->
  x_gauges s !! countdown_series net market = None ->
  x_gauges s' !! countdown_series net market = Some v ->
  exists config stamps ts mx, config_read net market agg config
    /\ Forall2 (leg_read net market) (og_sources config) stamps
    /\ pick now None (zip (og_sources config) stamps) = Some (v, ts, mx).
Proof using.
  intros E Hs Hv. set (key := countdown_series net market) in *. set (K := fun k : Series => bool_decide (k = key)).
  assert (K key = true) as Kk by (by apply bool_decide_eq_true).
  unfold publish_oracle_config_and_freshness in E. apply run_inv in E as (config & s1 & E1 & E).
  pose proof (framed_oracle_config K _ _ _ _ _ _ E1) as F1.
  destruct config as [config|]; [|injection E as <- <-; rewrite (fr_gauges _ _ _ F1 _ Kk) in Hv; congruence].
  apply run_inv in E as (u & s2 & E2 & E). apply run_inv in E as (u' & s3 & E3 & E).
  apply run_inv in E as (worst & s4 & E4 & E).
  assert (frame K s s4) as F4.
  { eapply frame_trans; [exact F1|]. eapply frame_trans; [|eapply frame_trans].
    - refine ((_ : framed K _) _ _ _ E2). unfold publish_lp_floor_headroom. run.
    - refine ((_ : framed K _) _ _ _ E3). run.
    - exact (framed_worst_leg K _ _ _ _ _ _ _ _ E4). }
  pose proof (fr_gauges _ _ _ F4 _ Kk) as Hn.
  destruct worst as [[[[sut ts] mx]|]|]; [|injection E as <- <-; congruence..].
  apply worst_leg_pick in E4 as (stamps & Hl & Hp). exists config, stamps, ts, mx.
  split_and!; [by exists s, s1|done|]. rewrite <- Hp. do 3 f_equal.
  unfold set_all, mfor in E. cbn [mfold fst snd] in E. apply run_inv in E as (? & s5 & _ & E).
  apply run_inv in E as (? & s6 & E6 & E).
  unfold set in E6. destruct (labelled _ _); [|done]. injection E6 as <- <-.
  refine (_ (fr_gauges K _ _ ((_ : framed K _) _ _ _ E) _ Kk)); [|run].
  intros E7. rewrite Hv in E7. simpl in E7. unfold key, countdown_series in E7. rewrite lookup_insert_eq in E7. congruence.
Qed.

(** C32: the staleness countdown a market's scrape leaves is the worst provider leg's, and
    negative exactly when a leg is overdue.  When the gauge is there after the scrape, the
    asset's oracle configuration and a timestamp of every provider leg were read in it; the
    published float is the countdown of one of the legs, none of the legs has a smaller one, and,
    with seconds and limits below 2^52, it is below zero exactly when the timestamp read for one
    of the legs is older than that leg's limit: at zero no leg is older than its limit.  The
    timestamps are those the exporter probes ([lastprice] of a Reflector, also for a leg the
    aggregator averages).  A countdown of an earlier scrape never survives. *)
Theorem countdown_is_worst_leg net cfg pool agg now acc i market row s r s' v :
  scrape_market net cfg pool agg now acc (i, (market, row)) s = Some (r, s') ->
  x_gauges s' !! countdown_series net market = Some v ->
  exists agg_id config stamps, agg = Some agg_id /\ config_read net market agg_id config
    /\ Forall2 (leg_read net market) (og_sources config) stamps /\ og_sources config <> []
    /\ let legs := zip (og_sources config) stamps in
       worst_of now legs v
       /\ (small now -> Forall small_leg legs -> ltb v zero = existsb (overdue now) legs).
Proof using.
  intros E Hv. unfold scrape_market in E. destruct acc as [a0 d0]. cbv zeta in E.
  apply run_inv in E as (u & s1 & _ & E). apply run_inv in E as ([dec ag] & s2 & _ & E).
  apply run_inv in E as (u' & s3 & E3 & E). apply run_inv in E as (u'' & s4 & E4 & E). injection E as _ <-.
  apply removed in E3 as [E3 _]. specialize (E3 "oracle_seconds_until_stale"%string ltac:(set_solver)).
  destruct agg as [agg_id|]; [|injection E4 as _ <-; unfold countdown_series in Hv; congruence].
  destruct (publish_fresh _ _ _ _ _ _ _ _ _ E4 E3 Hv) as (config & stamps & ts & mx & Hc & Hl & Hp).
  exists agg_id, config, stamps. split_and!; [done|done|done|by intros Hnil; rewrite Hnil in Hp|].
  cbv zeta. split; [by eapply pick_first_worst|]. intros Hn Hs. by eapply pick_first.
Qed.

End Freshness.

End Freshness.

(** ** Unlisted spoke assets *)

Module Unlisted.

Import F64 Model Text Sc XKeys XConfig Decode Reg View Collector Runs.

(** The monotonic clock, as [Instant] documents it. *)
Class Clock `{Node} : Prop := {
  instant_mono : forall t t', (t <= t')%N -> nd_instant t <= nd_instant t'
}.

Section Spokes.

Context `{Lib} `{Node}.

(** *** What the rest of a scrape leaves alone *)

Definition of_spoke_asset (k : Series) : bool := bool_decide (k.1 ∈ spoke_asset_gauges).

Lemma framed_ledger_now net : framed of_spoke_asset (read_ledger_now net).
Proof using. unfold read_ledger_now, wall_clock_secs, latest_close_time, latest_ledger. run. Qed.

Lemma framed_index_batch c keys : framed of_spoke_asset (try_index_batch c keys).
Proof using. unfold try_index_batch. run. Qed.

Lemma framed_indexes net contracts : framed of_spoke_asset (read_market_indexes net contracts).
Proof using.
  assert (forall out m, framed of_spoke_asset (read_single_index net (rc_controller contracts) out m)) as Hs.
  { intros out m. unfold read_single_index. run. apply framed_index_batch. }
  apply framed_mfold. intros out chunk _. unfold read_index_chunk.
  apply framed_bind; [apply framed_index_batch|]. intros rows.
  destruct rows; [case_match; [apply framed_ret|]|]; apply framed_mfold; intros; apply Hs.
Qed.

Lemma framed_amounts net pool market lref dec price agg :
  framed of_spoke_asset (publish_market_amounts net pool market lref dec price agg).
Proof using.
  assert (forall f, framed of_spoke_asset (read_market_scalar net pool market f)) as Hs.
  { intros f. unfold read_market_scalar. run. }
  unfold publish_market_amounts, publish_amount. run; apply Hs.
Qed.

Lemma framed_scrape_market net cfg pool agg now acc turn :
  framed of_spoke_asset (scrape_market net cfg pool agg now acc turn).
Proof using.
  assert (forall p m f, framed of_spoke_asset (read_market_view net p m f)) as Hv.
  { intros p m f. unfold read_market_view. run. }
  destruct turn as [i [market row]], acc as [a d]. unfold scrape_market, scrape_pool_market, read_sync_data,
    read_market_scalar_u64, publish_market_index_view, publish_market_params, publish_oracle_config_and_freshness,
    publish_lp_floor_headroom, remove_oracle_config_and_freshness. run; try apply Hv; try apply framed_amounts.
  all: apply framed_mfor; intros x Hx; first [apply framed_set; reflexivity | apply framed_remove].
  set_unfold in Hx. destruct_or! Hx; subst; reflexivity.
Qed.

(** Publishing a listing touches the series of its labels only. *)
Lemma framed_listing contracts spoke labels arg cfg row dec depr :
  framed (fun k => negb (bool_decide (k.2 = labels)))
    (publish_listing contracts spoke labels arg cfg row dec depr).
Proof using. unfold publish_listing, publish_spoke_usage. run. Qed.

(** *** The invariant *)

Context (cfg : ExporterConfig) (contracts : ResolvedContracts).

Definition pair_key (spoke : Z) (m : ResolvedMarket) : Z * Z * Id := (spoke, rm_hub_id m, rm_asset_id m).

Definition pair_labels (spoke : Z) (m : ResolvedMarket) : list string :=
  spoke_asset_labels (xc_network cfg) spoke (spoke_name cfg spoke) (hub_name cfg (rm_hub_id m)) m.

(** The pair was found unlisted, less than the cache's lifetime ago. *)
Definition remembered (s : State) (spoke : Z) (m : ResolvedMarket) : Prop :=
  exists since, x_unlisted s !! pair_key spoke m = Some since
    /\ nd_instant (x_requests s) - since < UNLISTED_SPOKE_ASSET_TTL.

Definition silent (s : State) : Prop := forall spoke m g, m ∈ rc_markets contracts -> remembered s spoke m ->
  g ∈ spoke_asset_gauges -> x_gauges s !! (g, pair_labels spoke m) = None.

(** Each pair is configured once. *)
Definition distinct_markets : Prop := forall m m', m ∈ rc_markets contracts -> m' ∈ rc_markets contracts ->
  rm_hub_id m = rm_hub_id m' -> rm_asset_id m = rm_asset_id m' -> m = m'.

Context `{!Clock}.

Lemma remembered_back s s' spoke m : x_unlisted s' !! pair_key spoke m = x_unlisted s !! pair_key spoke m ->
  (x_requests s <= x_requests s')%N -> remembered s' spoke m -> remembered s spoke m.
Proof using All.
  intros E Hr (since & Hu & Ha). exists since. split; [congruence|]. apply instant_mono in Hr. lia.
Qed.

Lemma silent_frame s s' : frame of_spoke_asset s s' -> silent s -> silent s'.
Proof using All.
  intros [F1 F2 F3] Hs spoke m g Hm Hr Hg. rewrite F3 by (by apply bool_decide_eq_true).
  apply (Hs spoke m g Hm); [|done]. eapply remembered_back; [by rewrite F1|done|exact Hr].
Qed.

(** Resolved markets: the labels of a pair determine it. *)
Context (Hres : resolve cfg = Ok contracts).

Lemma market_of_strkey m : m ∈ rc_markets contracts -> contract_id_from_strkey (rm_asset_strkey m) = Ok (rm_asset_id m).
Proof using All.
  intros Hm. pose proof Hres as Hr. unfold resolve in Hr. do 4 apply rbind_Ok in Hr as (? & ?E & Hr). rewrite <- (f_equal (fun r => match r with Ok c => c | Err _ => contracts end) Hr) in Hm.
  cbn in Hm. eapply collect_elem in Hm as (c & _ & Hc); [|eassumption]. unfold resolve_market in Hc.
  apply rbind_Ok in Hc as (id & Hid & [= <-]). exact Hid.
Qed.

Lemma labels_inj spoke m spoke' m' : m ∈ rc_markets contracts -> m' ∈ rc_markets contracts ->
  pair_labels spoke m = pair_labels spoke' m' -> spoke = spoke' /\ m = m'.
Proof using All.
  intros Hm Hm' E. unfold pair_labels, spoke_asset_labels in E. injection E as E1 _ E2 _ E3 E4.
  apply (inj pretty) in E1, E2. split; [done|]. apply market_of_strkey in Hm, Hm'.
  destruct m, m'; cbn in *. subst. congruence.
Qed.

(** A run that changes nothing but the series of one pair that is not remembered. *)
Lemma silent_other s s' spoke m : m ∈ rc_markets contracts -> ~ remembered s spoke m ->
  frame (fun k => negb (bool_decide (k.2 = pair_labels spoke m))) s s' -> silent s -> silent s'.
Proof using All.
  intros Hm Hn [F1 F2 F3] Hs spoke' m' g Hm' Hr Hg.
  apply (remembered_back s) in Hr; [|by rewrite F1|done].
  rewrite F3; [by apply Hs|]. apply negb_true_iff, bool_decide_eq_false. cbn [snd].
  intros E. by apply labels_inj in E as [-> ->].
Qed.

(** Removing the series of a pair and remembering it. *)
Lemma silent_marked s s1 s2 u u' spoke m : distinct_markets -> m ∈ rc_markets contracts ->
  remove_spoke_asset (pair_labels spoke m) s = Some (u, s1) ->
  mark_unlisted (pair_key spoke m) s1 = Some (u', s2) -> silent s -> silent s2.
Proof using All.
  intros Hd Hm E1 E2 Hs. injection E2 as _ <-.
  assert (frame (fun k => negb (bool_decide (k.2 = pair_labels spoke m))) s s1) as F.
  { refine ((_ : framed _ _) _ _ _ E1). apply framed_mfor. intros g _. apply framed_remove. outside. }
  apply removed in E1 as [R1 R2]. intros spoke' m' g Hm' Hr Hg. cbn.
  destruct (decide (pair_key spoke' m' = pair_key spoke m)) as [E|E].
  - injection E as -> Eh Ea. rewrite (Hd m' m) by done. by apply R1.
  - apply R2. apply Hs; [done| |done]. eapply remembered_back; [| |exact Hr]; cbn; [|apply F].
    rewrite lookup_insert_ne by done. by rewrite (fr_unlisted _ _ _ F).
Qed.

Lemma recently_spec s key b s' : recently_unlisted key s = Some (b, s') -> s' = s /\
  (b = true <-> exists since, x_unlisted s !! key = Some since
                 /\ nd_instant (x_requests s) - since < UNLISTED_SPOKE_ASSET_TTL).
Proof using.
  intros E. unfold recently_unlisted in E. apply run_inv in E as (o & s1 & [= <- <-] & E).
  destruct (x_unlisted s !! key) as [since|].
  - injection E as <- <-. split; [done|]. rewrite Z.ltb_lt. assert (0 < UNLISTED_SPOKE_ASSET_TTL) by done. split.
    + intros Hlt. exists since. split; [done|lia].
    + intros (? & [= <-] & Hlt). lia.
  - injection E as <- <-. split; [done|]. split; [done|]. by intros (? & ? & _).
Qed.

Lemma silent_spoke_asset spoke m row dec depr s a s' : distinct_markets -> m ∈ rc_markets contracts ->
  publish_spoke_asset (xc_network cfg) contracts spoke (spoke_name cfg spoke) (hub_name cfg (rm_hub_id m)) m
    row dec depr s = Some (a, s') -> silent s -> silent s'.
Proof using All.
  intros Hd Hm E Hs. unfold publish_spoke_asset in E. destruct (hub_asset_key_sc_val _) as [arg|]; [|by injection E as _ <-].
  cbv zeta in E. apply run_inv in E as (skip & s0 & E0 & E). apply recently_spec in E0 as [-> Hsk].
  destruct skip; [by injection E as _ <-|].
  assert (~ remembered s spoke m) as Hn by (intros Hr; by apply Hsk in Hr). clear Hsk.
  apply run_inv in E as (scv & s1 & E1 & E). pose proof (framed_simulate_view of_spoke_asset _ _ _ _ _ _ E1) as F1.
  assert (~ remembered s1 spoke m) as Hn1.
  { intros Hr. apply Hn. eapply remembered_back; [by rewrite (fr_unlisted _ _ _ F1)|apply F1|exact Hr]. }
  apply silent_frame in F1; [|done]. clear Hs Hn E1. destruct scv as [scv|e].
  - destruct (decode_spoke_asset scv) as [c|e].
    + eapply silent_other; [exact Hm|exact Hn1| |exact F1]. eapply framed_listing. exact E.
    + apply run_inv in E as (u & s2 & E2 & E). eapply silent_other; [exact Hm|exact Hn1| |exact F1].
      refine ((_ : framed _ (inc _ _ ≫= fun _ => remove_spoke_asset _)) s1 a s' _).
      2: { unfold mbind, m_bind. rewrite E2. exact E. }
      apply framed_bind; [apply framed_inc|intros _]. apply framed_mfor. intros g _. apply framed_remove. outside.
  - case_match.
    + apply run_inv in E as (u & s2 & E2 & E). by eapply silent_marked.
    + eapply silent_frame; [|exact F1]. refine ((_ : framed _ _) _ _ _ E). unfold count_view_error. run.
Qed.

(** *** Runs *)

Definition keeps {A} (m : M A) : Prop := forall s a s', m s = Some (a, s') -> silent s -> silent s'.

Lemma keeps_framed {A} (m : M A) : framed of_spoke_asset m -> keeps m.
Proof using All. intros Hf s a s' E Hs. eapply silent_frame; [by eapply Hf|done]. Qed.

Lemma keeps_bind {A B} (m : M A) (f : A -> M B) : keeps m -> (forall a, keeps (f a)) -> keeps (m ≫= f).
Proof using All. intros Hm Hf s b s' E Hs. apply run_inv in E as (a & s1 & E1 & E2). eapply Hf; [done|]. by eapply Hm. Qed.

Lemma keeps_mfor {B} (f : B -> M ()) l : (forall x, x ∈ l -> keeps (f x)) -> keeps (mfor l f).
Proof using All.
  intros Hf. unfold mfor. induction l as [|x l IH]; cbn [mfold]; [by intros s a s' [= _ <-]|].
  apply keeps_bind; [apply Hf; set_solver|intros []; apply IH]. intros; apply Hf; set_solver.
Qed.

Lemma enumerated_elem rows i m row : (i, (m, row)) ∈ enumerated contracts rows -> m ∈ rc_markets contracts.
Proof using All.
  intros Hin. unfold enumerated in Hin. apply elem_of_zip_r in Hin. by apply elem_of_zip_l in Hin.
Qed.

Lemma keeps_spokes rows decimals : distinct_markets ->
  keeps (publish_spokes (xc_network cfg) cfg contracts rows decimals).
Proof using All.
  intros Hd. apply keeps_mfor. intros spoke _. cbv zeta. apply keeps_bind.
  { apply keeps_framed. unfold read_spoke_config. run. }
  intros sc. apply keeps_bind.
  { apply keeps_framed. unfold publish_spoke_config. run. }
  intros _. apply keeps_mfor. intros [i [m row]] Hin s0 b s1 E Hs. apply enumerated_elem in Hin.
  by eapply silent_spoke_asset.
Qed.

Ltac keep_step Hd :=
  lazymatch goal with
  | |- keeps (_ ≫= _) => apply keeps_bind; [|intros ?]
  | |- keeps (match ?x with _ => _ end) => destruct x
  | |- keeps (publish_spokes _ _ _ _ _) => apply keeps_spokes; exact Hd
  | |- keeps (read_ledger_now _) => apply keeps_framed, framed_ledger_now
  | |- keeps (read_market_indexes _ _) => apply keeps_framed, framed_indexes
  | |- keeps (mfold _ _ _) => apply keeps_framed, framed_mfold; intros; apply framed_scrape_market
  | |- keeps _ => apply keeps_framed; solve [run]
  end.

Lemma silent_scrape : distinct_markets -> keeps (scrape_tick cfg contracts).
Proof using All.
  intros Hd. unfold scrape_tick. apply keeps_bind.
  2: { intros _ s a s' [= _ <-] Hs. unfold publish_snapshot. destruct (encode_text _ _); exact Hs. }
  unfold scrape_once, resolve_pool_id, resolve_price_aggregator, elapsed, instant_now, wall_clock_secs.
  repeat (cbv beta zeta; keep_step Hd).
Qed.

End Spokes.

Section Reach.

Context `{Lib} `{Clock} (cfg : ExporterConfig) (contracts : ResolvedContracts).

Definition waited (s : State) (t : N) : State :=
  mkState (x_gauges s) (x_counters s) (x_unlisted s) (x_sent s) t (x_rendered s).

(** A process: its start, scrapes, and time passing between them. *)
Inductive exporter_reachable : State -> Prop :=
| xr_start t started a s :
    publish_startup (xc_network cfg) started (mkState ∅ ∅ ∅ 0 t "") = Some (a, s) -> exporter_reachable s
| xr_wait s t : exporter_reachable s -> (x_requests s <= t)%N -> exporter_reachable (waited s t)
| xr_scrape s a s' :
    exporter_reachable s -> scrape_tick cfg contracts s = Some (a, s') -> exporter_reachable s'.

Lemma reachable_silent s : resolve cfg = Ok contracts -> distinct_markets contracts ->
  exporter_reachable s -> silent cfg contracts s.
Proof using All.
  intros Hres Hd Hr. induction Hr as [t started a s E|s t _ IH Ht|s a s' _ IH E].
  - intros spoke m g _ (since & Hu & _). exfalso. unfold publish_startup in E.
    apply run_inv in E as (u1 & s1 & E1 & E). apply run_inv in E as (u2 & s2 & E2 & E).
    pose proof (framed_set (fun _ => false) _ _ _ eq_refl _ _ _ E1) as [F1 _ _].
    pose proof (framed_set (fun _ => false) _ _ _ eq_refl _ _ _ E2) as [F2 _ _].
    injection E as _ <-. rewrite F1 in F2. destruct (encode_text _ _); cbn in *; rewrite F2 in Hu; done.
  - refine (silent_frame _ _ s (waited s t) _ IH). by split.
  - by eapply silent_scrape.
Qed.

(** A spoke asset that the controller reported as unlisted stays off the dashboard: in every
    state the exporter can reach, while the cache remembers the pair none of its series is
    published, and the next look at it changes nothing and asks the node nothing. *)
Theorem unlisted_pairs_silent s spoke m : resolve cfg = Ok contracts -> distinct_markets contracts ->
  exporter_reachable s -> m ∈ rc_markets contracts -> remembered s spoke m ->
  (forall g, g ∈ spoke_asset_gauges -> x_gauges s !! (g, pair_labels cfg spoke m) = None)
  /\ forall row dec depr,
       publish_spoke_asset (xc_network cfg) contracts spoke (spoke_name cfg spoke)
         (hub_name cfg (rm_hub_id m)) m row dec depr s = Some ((), s).
Proof using All.
  intros Hres Hd Hr Hm Hrem. split; [intros g; by apply reachable_silent|].
  intros row dec depr. unfold publish_spoke_asset. destruct (hub_asset_key_sc_val _); [|done]. cbv zeta.
  assert (recently_unlisted (spoke, rm_hub_id m, rm_asset_id m) s = Some (true, s)) as E.
  { destruct Hrem as (since & Hu & Hlt). unfold pair_key in Hu. unfold recently_unlisted, elapsed, instant_now, gets, mret, m_ret, mbind, m_bind.
    rewrite Hu. do 2 f_equal. apply Z.ltb_lt. assert (0 < UNLISTED_SPOKE_ASSET_TTL) by done. lia. }
  unfold mbind, m_bind. by rewrite E.
Qed.

End Reach.

End Unlisted.

(** ** Scrapes complete *)

Module Complete.

Import F64 Model Text Sc XKeys XConfig Decode Reg View Collector Runs.

Definition total {A} (m : M A) : Prop := forall s, exists a s', m s = Some (a, s').

Lemma total_ret {A} (a : A) : total (mret a).
Proof. intros s. by exists a, s. Qed.

Lemma total_bind {A B} (m : M A) (f : A -> M B) : total m -> (forall a, total (f a)) -> total (m ≫= f).
Proof. intros Hm Hf s. destruct (Hm s) as (a & s1 & E). unfold mbind, m_bind. rewrite E. apply Hf. Qed.

Lemma total_mfold {A B} (f : A -> B -> M A) l : (forall a x, x ∈ l -> total (f a x)) -> forall a, total (mfold f a l).
Proof.
  intros Hf. induction l as [|x l IH]; intros a; [apply total_ret|]. cbn [mfold].
  apply total_bind; [apply Hf; set_solver|]. intros b. apply IH. intros; apply Hf; set_solver.
Qed.

Lemma total_mfor {B} (f : B -> M ()) l : (forall x, x ∈ l -> total (f x)) -> total (mfor l f).
Proof. intros Hf. apply total_mfold. intros _. exact Hf. Qed.

Lemma total_set family labels v : labelled gauge_families (family, labels) = true -> total (set family labels v).
Proof. intros E s. unfold set. rewrite E. eauto. Qed.

Lemma total_set_all labels l : Forall (fun p => labelled gauge_families (p.1, labels) = true) l -> total (set_all labels l).
Proof. intros Hl. apply total_mfor. intros p Hp. apply total_set. by eapply Forall_forall in Hl. Qed.

Lemma total_inc family labels : labelled counter_families (family, labels) = true -> total (inc family labels).
Proof. intros E s. unfold inc. rewrite E. eauto. Qed.

Lemma total_request {A} (f : N -> A) : total (request f).
Proof. intros s. eexists _, _. reflexivity. Qed.
Lemma total_gets {A} (f : State -> A) : total (gets f).
Proof. intros s. eexists _, _. reflexivity. Qed.
Lemma total_modify f : total (modify f).
Proof. intros s. eexists _, _. reflexivity. Qed.

Create HintDb total.

Ltac total_step :=
  lazymatch goal with
  | |- total (mret _) => apply total_ret
  | |- total (_ ≫= _) => apply total_bind; [|intros ?]
  | |- total (inc _ _) => apply total_inc; reflexivity
  | |- total (request _) => apply total_request
  | |- total (gets _) => apply total_gets
  | |- total (modify _) => apply total_modify
  | |- total (remove _ _) => apply total_modify
  | |- total (set _ _ _) => apply total_set; reflexivity
  | |- total (set_or_remove _ _ ?v) => destruct v; cbn [set_or_remove]
  | |- total (set_all _ _) => apply total_set_all; repeat (constructor; [reflexivity|]); constructor
  | |- total (on_some ?o _) => destruct o; cbn [on_some]
  | |- total (match ?x with _ => _ end) => destruct x
  | |- total (mfor _ (fun g => remove g _)) => apply total_mfor; intros; apply total_modify
  | |- total _ => solve [eauto with total]
  end.
Ltac complete := repeat (cbv beta zeta; total_step).

Section Complete.

Context `{Lib} `{Node}.

Lemma total_simulate c f args : total (simulate_view c f args).
Proof using. unfold simulate_view. complete. Qed.
#[local] Hint Resolve total_simulate : total.

Lemma total_view net v a c f args : total (read_view net v a c f args).
Proof using. unfold read_view, count_view_error. complete. Qed.
#[local] Hint Resolve total_view : total.

Lemma total_i128 net v a c f args : total (read_view_i128 net v a c f args).
Proof using. unfold read_view_i128. complete. Qed.
#[local] Hint Resolve total_i128 : total.

Lemma total_scalar net pool market f : total (read_market_scalar net pool market f).
Proof using. unfold read_market_scalar. complete. Qed.
#[local] Hint Resolve total_scalar : total.

Lemma total_market_view net pool market f : total (read_market_view net pool market f).
Proof using. unfold read_market_view. complete. Qed.
#[local] Hint Resolve total_market_view : total.

Lemma total_indexes net contracts : total (read_market_indexes net contracts).
Proof using.
  assert (forall c keys, total (try_index_batch c keys)) as Hb by (intros; unfold try_index_batch; complete).
  assert (forall c out m, total (read_single_index net c out m)) as Hs.
  { intros c out m. unfold read_single_index. complete. }
  apply total_mfold. intros out chunk _. unfold read_index_chunk.
  complete; apply total_mfold; intros; apply Hs.
Qed.
#[local] Hint Resolve total_indexes : total.

Lemma total_probe {A} net market c v args (d : ScVal -> ares A) : total (probe net market c v args d).
Proof using. unfold probe, decode_or_count. complete. Qed.
#[local] Hint Resolve total_probe : total.

Lemma total_worst net market now : forall sources worst, total (worst_leg net market now worst sources).
Proof using.
  intros sources. induction sources as [|src l IH]; intros worst; [apply total_ret|]. cbn [worst_leg].
  apply total_bind; [unfold read_feed_timestamp; complete|]. intros [ts|]; [apply IH|apply total_ret].
Qed.
#[local] Hint Resolve total_worst : total.

Lemma total_amounts net pool market hub dec price agg :
  total (publish_market_amounts net pool market (market_labels net market hub) dec price agg).
Proof using. unfold publish_market_amounts, publish_amount. complete. Qed.
#[local] Hint Resolve total_amounts : total.

Lemma total_scrape_market net cfg pool agg now acc turn : total (scrape_market net cfg pool agg now acc turn).
Proof using.
  destruct turn as [i [market row]], acc as [a d]. unfold scrape_market, scrape_pool_market, read_sync_data,
    read_market_scalar_u64, publish_market_index_view, publish_oracle_config_and_freshness, read_oracle_config,
    get_ledger_entries, decode_or_count, publish_lp_floor_headroom, remove_oracle_config_and_freshness.
  assert (forall sync, total (publish_market_params (market_labels net market (hub_name cfg (rm_hub_id market))) sync)) as Hp.
  { intros sync. apply total_mfor. intros x _. apply total_set. reflexivity. }
  complete.
Qed.

Lemma total_spoke_asset net contracts spoke sn hn market row dec depr :
  total (publish_spoke_asset net contracts spoke sn hn market row dec depr).
Proof using.
  unfold publish_spoke_asset, recently_unlisted, elapsed, mark_unlisted, instant_now, count_view_error,
    publish_listing, publish_spoke_usage, remove_spoke_asset. complete.
Qed.

Lemma total_ledger_now net : total (read_ledger_now net).
Proof using. unfold read_ledger_now, wall_clock_secs, latest_close_time, latest_ledger. complete. Qed.

Lemma total_spokes net cfg contracts rows decimals : total (publish_spokes net cfg contracts rows decimals).
Proof using.
  apply total_mfor. intros spoke _. unfold read_spoke_config, publish_spoke_config. complete;
    apply total_mfor; intros [i [m row]] _; apply total_spoke_asset.
Qed.

#[local] Hint Resolve total_ledger_now total_spokes : total.

(** A run whose last act is to stamp the success. *)
Definition stamps (net : string) (m : M ()) : Prop := forall s, exists s' t, m s = Some ((), s')
  /\ x_gauges s' !! ("last_success_timestamp"%string, [net]) = Some (of_Z (nd_wall t)).

Lemma stamps_bind {A} net (m : M A) (f : A -> M ()) : total m -> (forall a, stamps net (f a)) -> stamps net (m ≫= f).
Proof using. intros Hm Hf s. destruct (Hm s) as (a & s1 & E). unfold mbind, m_bind. rewrite E. apply Hf. Qed.

Lemma stamps_last net : stamps net (wall ← wall_clock_secs; set "last_success_timestamp" [net] (of_Z wall)).
Proof using. intros s. eexists _, (x_requests s). split; [reflexivity|]. apply lookup_insert_eq. Qed.

(** A scrape always runs to its end, whatever the node answers: every series it touches has the
    number of labels its family was registered with, so no gauge or counter panics, and the time
    of the last success is set to the wall clock.  The families have distinct metric names, so
    their registration succeeds. *)
Theorem scrape_completes cfg contracts s :
  (exists s' t, scrape_once cfg contracts s = Some ((), s')
     /\ x_gauges s' !! ("last_success_timestamp"%string, [xc_network cfg]) = Some (of_Z (nd_wall t)))
  /\ NoDup ((fun f => f.1.2) <$> gauge_families ++ counter_families).
Proof using.
  split; [|by apply (bool_decide_unpack _); vm_compute]. revert s.
  change (stamps (xc_network cfg) (scrape_once cfg contracts)).
  unfold scrape_once, resolve_pool_id, resolve_price_aggregator, elapsed, instant_now.
  repeat (cbv beta zeta; first
    [ apply stamps_last
    | apply stamps_bind; [complete; apply total_mfold; intros; apply total_scrape_market|intros ?]
    | lazymatch goal with |- stamps _ (match ?x with _ => _ end) => destruct x end ]).
Qed.

End Complete.

End Complete.

(** ** The contracts' values *)

(** [#[contracttype]]: a struct is a map from field names, in their order, to values; a variant
    a vector of its name and its payload. *)
Module Abi.

Import F64 Sc Decode.

Definition struct (l : list (string * ScVal)) : ScVal :=
  ScMap (Some ((fun p => (ScSymbol p.1, p.2)) <$> l)).

Definition variant (tag : string) (payload : list ScVal) : ScVal := ScVec (Some (ScSymbol tag :: payload)).

(** High and low 64 bits. *)
Definition i128_val (z : Z) : ScVal := ScI128 (Z.shiftr z 64) (z mod 2 ^ 64).

(** [Option<u32>] *)
Definition u32_option (o : option Z) : ScVal := match o with Some n => ScU32 n | None => ScVoid end.

Definition is_ascii (s : string) : bool :=
  forallb (fun c => (Ascii.nat_of_ascii c <? 128)%nat) (String.list_ascii_of_string s).

(** How the host represents addresses and 32-byte strings, and what is relied on of lossy
    UTF-8: it does not touch ASCII. *)
Class HostValues : Type := {
  sc_address : Address -> ScAddress;
  bytes32 : N -> list Z
}.

Class AsciiText `{Lib} : Prop := {
  lossy_ascii : forall s, is_ascii s = true -> utf8_lossy s = s
}.

Section Encode.

Context `{HostValues}.

Definition addr (a : Address) : ScVal := ScAddressVal (sc_address a).

Definition enc_spoke (c : ControllerTypes.SpokeConfig) : ScVal :=
  struct [("hf_for_max_bonus_wad", i128_val (sc_hf_for_max_bonus_wad c));
          ("is_deprecated", ScBool (sc_is_deprecated c));
          ("liquidation_bonus_factor_bps", ScU32 (sc_liquidation_bonus_factor_bps c));
          ("liquidation_target_hf_wad", i128_val (sc_liquidation_target_hf_wad c))]%string.

Definition enc_spoke_asset (c : ControllerTypes.SpokeAssetConfig) : ScVal :=
  struct [("borrow_cap", i128_val (sa_borrow_cap c));
          ("frozen", ScBool (sa_frozen c));
          ("is_borrowable", ScBool (sa_is_borrowable c));
          ("is_collateralizable", ScBool (sa_is_collateralizable c));
          ("liquidation_bonus", ScU32 (sa_liquidation_bonus c));
          ("liquidation_fees", ScU32 (sa_liquidation_fees c));
          ("liquidation_threshold", ScU32 (sa_liquidation_threshold c));
          ("loan_to_value", ScU32 (sa_loan_to_value c));
          ("no_seize", ScBool (sa_no_seize c));
          ("paused", ScBool (sa_paused c));
          ("supply_cap", i128_val (sa_supply_cap c))]%string.

Definition enc_usage (u : SpokeUsage.SpokeUsageRaw) : ScVal :=
  struct [("borrowed_scaled_ray", i128_val (SpokeUsage.borrowed_scaled_ray u));
          ("supplied_scaled_ray", i128_val (SpokeUsage.supplied_scaled_ray u))]%string.

Definition enc_index (v : Views.MarketIndexView) : ScVal :=
  struct [("anchor_price_wad", i128_val (Views.mv_anchor_price_wad v));
          ("asset", addr (Views.mv_asset v));
          ("borrow_index", i128_val (Views.mv_borrow_index v));
          ("deviation", ScBool (Views.mv_deviation v));
          ("error_code", u32_option (Views.mv_error_code v));
          ("price_timestamp", ScU64 (Views.mv_price_timestamp v));
          ("price_wad", i128_val (Views.mv_price_wad v));
          ("primary_price_wad", i128_val (Views.mv_primary_price_wad v));
          ("stale", ScBool (Views.mv_stale v));
          ("supply_index", i128_val (Views.mv_supply_index v));
          ("valid", ScBool (Views.mv_valid v))]%string.

Definition enc_params (p : MarketParamsRaw) : ScVal :=
  struct [("asset_decimals", ScU32 (rp_asset_decimals p));
          ("asset_id", addr (rp_asset_id p));
          ("base_borrow_rate", i128_val (rp_base_borrow_rate p));
          ("flashloan_fee", ScU32 (rp_flashloan_fee p));
          ("is_flashloanable", ScBool (rp_is_flashloanable p));
          ("max_borrow_rate", i128_val (rp_max_borrow_rate p));
          ("max_utilization", i128_val (rp_max_utilization p));
          ("mid_utilization", i128_val (rp_mid_utilization p));
          ("optimal_utilization", i128_val (rp_optimal_utilization p));
          ("reserve_factor", ScU32 (rp_reserve_factor p));
          ("slope1", i128_val (rp_slope1 p));
          ("slope2", i128_val (rp_slope2 p));
          ("slope3", i128_val (rp_slope3 p))]%string.

Definition enc_state (st : PoolStateRaw) : ScVal :=
  struct [("borrow_index", i128_val (rs_borrow_index st));
          ("borrowed", i128_val (rs_borrowed st));
          ("cash", i128_val (rs_cash st));
          ("last_timestamp", ScU64 (rs_last_timestamp st));
          ("revenue", i128_val (rs_revenue st));
          ("supplied", i128_val (rs_supplied st));
          ("supply_index", i128_val (rs_supply_index st))]%string.

Definition enc_sync (d : PoolSyncData) : ScVal :=
  struct [("params", enc_params (sync_params d)); ("state", enc_state (sync_state d))]%string.

Definition enc_asset_ref (r : OracleAssetRef) : ScVal :=
  match r with
  | AssetStellar a => variant "Stellar" [addr a]
  | AssetSymbol s => variant "Symbol" [ScSymbol s]
  | AssetString s => variant "String" [ScString s]
  end.

Definition enc_read_mode (m : OracleReadMode) : ScVal :=
  match m with Spot => variant "Spot" [] | Twap n => variant "Twap" [ScU32 n] end.

Definition enc_nature (n : FeedNature) : ScVal :=
  match n with Market => variant "Market" [] | Fundamental => variant "Fundamental" [] end.

Definition enc_multi_feed (r : MultiFeedRef) : ScVal :=
  struct [("contract", addr (mf_contract r)); ("feed_id", ScString (mf_feed_id r));
          ("nature", enc_nature (mf_nature r))]%string.

Definition enc_provider (p : ProviderRef) : ScVal :=
  match p with
  | Reflector r => variant "Reflector"
      [struct [("asset", enc_asset_ref (rf_asset r)); ("contract", addr (rf_contract r));
               ("read_mode", enc_read_mode (rf_read_mode r))]%string]
  | RedStone r => variant "RedStone" [enc_multi_feed r]
  | Xoxno r => variant "Xoxno" [enc_multi_feed r]
  | Chainlink r => variant "Chainlink"
      [struct [("contract", addr (cf_contract r)); ("data_id", ScBytes (bytes32 (cf_data_id r)))]%string]
  end.

Definition enc_feed (f : FeedSource) : ScVal :=
  struct [("decimals", ScU32 (fs_decimals f)); ("max_stale_seconds", ScU64 (fs_max_stale_seconds f));
          ("provider", enc_provider (fs_provider f))]%string.

Definition enc_price_key (k : PriceKey) : ScVal :=
  match k with Token a => variant "Token" [addr a] | Ref s => variant "Ref" [ScSymbol s] end.

Definition enc_aquarius (lp : AquariusLpSource) : ScVal :=
  struct [("key_a", enc_price_key (aq_key_a lp)); ("key_b", enc_price_key (aq_key_b lp));
          ("min_pool_value_wad", i128_val (aq_min_pool_value_wad lp)); ("pool", addr (aq_pool lp));
          ("reserve_a_decimals", ScU32 (aq_reserve_a_decimals lp));
          ("reserve_b_decimals", ScU32 (aq_reserve_b_decimals lp));
          ("token_a", addr (aq_token_a lp)); ("token_b", addr (aq_token_b lp))]%string.

Definition enc_source (src : PriceSource) : ScVal :=
  match src with
  | Feed f => variant "Feed" [enc_feed f]
  | Scaled s => variant "Scaled"
      [struct [("factor", enc_feed (ss_factor s)); ("max_factor_wad", i128_val (ss_max_factor_wad s));
               ("min_factor_wad", i128_val (ss_min_factor_wad s));
               ("quote", enc_price_key (ss_quote s))]%string]
  | AquariusLp lp => variant "AquariusLp" [enc_aquarius lp]
  | AquariusStableLp lp => variant "AquariusStableLp" [enc_aquarius lp]
  | CurveStableLp lp => variant "CurveStableLp"
      [struct [("coins", ScVec (Some (addr <$> cu_coins lp)));
               ("min_pool_value_wad", i128_val (cu_min_pool_value_wad lp));
               ("pool", addr (cu_pool lp)); ("wasm_hash", ScBytes (bytes32 (cu_wasm_hash lp)))]%string]
  end.

Definition enc_independence (p : IndependencePolicy) : ScVal :=
  match p with
  | RequireDisjoint => variant "RequireDisjoint" []
  | AllowShared l => variant "AllowShared" [ScVec (Some (addr <$> l))]
  end.

Definition enc_oracle (o : AssetOracle) : ScVal :=
  struct [("asset_decimals", ScU32 (ao_asset_decimals o));
          ("independence", enc_independence (ao_independence o));
          ("max_price_stale_seconds", ScU64 (ao_max_price_stale_seconds o));
          ("max_sanity_price_wad", i128_val (ao_max_sanity_price_wad o));
          ("min_sanity_price_wad", i128_val (ao_min_sanity_price_wad o));
          ("sources", ScVec (Some (enc_source <$> ao_sources o)));
          ("tolerance", struct [("lower_ratio_bps", ScU32 (lower_ratio_bps (ao_tolerance o)));
                                ("upper_ratio_bps", ScU32 (upper_ratio_bps (ao_tolerance o)))])]%string.

End Encode.

(** *** Reading fields back *)

Fixpoint assoc (name : string) (l : list (string * ScVal)) : option ScVal :=
  match l with
  | [] => None
  | (k, v) :: l => if bool_decide (k = name) then Some v else assoc name l
  end.

Section Read.

Context `{AsciiText}.

Lemma map_field_struct l name : forallb (fun p => is_ascii p.1) l = true ->
  map_field (struct l) name = assoc name l.
Proof using All.
  unfold struct. cbn [map_field]. induction l as [|[k v] l IH]; [done|]. cbn [forallb]. intros Hl.
  apply andb_true_iff in Hl as [Hk Hl]. rewrite fmap_cons. cbn [find_field assoc fst snd symbol_text] in *.
  rewrite IH, lossy_ascii by done.
  by destruct (bool_decide_reflect (k = name)) as [->|Hn]; [rewrite bool_decide_true|rewrite bool_decide_false by congruence].
Qed.

Lemma enum_variant_ok tag payload : is_ascii tag = true -> enum_variant (variant tag payload) = Some (tag, payload).
Proof using All. intros Ht. cbn. by rewrite lossy_ascii. Qed.

Lemma as_i128_val z : as_i128 (i128_val z) = Some z.
Proof using.
  cbn [as_i128 i128_val]. f_equal. apply Z.bits_inj'. intros n Hn.
  rewrite Z.lor_spec, Z.testbit_mod_pow2 by lia. destruct (Z.ltb_spec n 64).
  - by rewrite Z.shiftl_spec_low by lia.
  - rewrite Z.shiftl_spec_high, Z.shiftr_spec by lia. replace (n - 64 + 64) with n by lia. by rewrite orb_false_r.
Qed.

Section Fields.

Context (l : list (string * ScVal)) (name : string) (Hl : forallb (fun p => is_ascii p.1) l = true).

Lemma read_field {A} (f : ScVal -> option A) v : assoc name l = Some v -> map_field (struct l) name ≫= f = f v.
Proof using All. intros E. by rewrite map_field_struct, E. Qed.

Lemma field_i128_struct z : assoc name l = Some (i128_val z) -> field_i128 (struct l) name = Some z.
Proof using All. intros E. unfold field_i128. by rewrite (read_field _ _ E), as_i128_val. Qed.

Lemma field_u64_struct z : assoc name l = Some (ScU64 z) -> field_u64 (struct l) name = Some z.
Proof using All. intros E. unfold field_u64. by rewrite (read_field _ _ E). Qed.

Lemma field_u32_struct z : assoc name l = Some (ScU32 z) -> field_u32 (struct l) name = Some z.
Proof using All. intros E. unfold field_u32. by rewrite (read_field _ _ E). Qed.

Lemma field_u32_void : assoc name l = Some ScVoid -> field_u32 (struct l) name = None.
Proof using All. intros E. unfold field_u32. by rewrite (read_field _ _ E). Qed.

Lemma field_bool_struct b : assoc name l = Some (ScBool b) -> field_bool (struct l) name = Some b.
Proof using All. intros E. unfold field_bool. by rewrite (read_field _ _ E). Qed.

End Fields.

Ltac fields :=
  repeat first
    [ erewrite field_i128_struct by reflexivity | erewrite field_u64_struct by reflexivity
    | erewrite field_u32_struct by reflexivity | erewrite field_u32_void by reflexivity
    | erewrite field_bool_struct by reflexivity | rewrite map_field_struct by reflexivity ].

Context `{HostValues}.

(** What the exporter shows of each. *)
Definition index_view (v : Views.MarketIndexView) : MarketIndexView :=
  mkIndexView (Views.mv_supply_index v) (Views.mv_borrow_index v) (Views.mv_price_wad v)
    (Views.mv_primary_price_wad v) (Views.mv_anchor_price_wad v) (Views.mv_price_timestamp v)
    (Views.mv_stale v) (Views.mv_deviation v) (Views.mv_valid v) (Views.mv_error_code v).

Definition spoke_view (c : ControllerTypes.SpokeConfig) : SpokeConfig :=
  mkXSpoke (sc_is_deprecated c) (sc_liquidation_target_hf_wad c) (sc_hf_for_max_bonus_wad c)
    (sc_liquidation_bonus_factor_bps c).

Definition listing_view (c : ControllerTypes.SpokeAssetConfig) : SpokeAssetConfig :=
  mkXSpokeAsset (sa_is_collateralizable c) (sa_is_borrowable c) (sa_paused c) (sa_frozen c)
    (sa_loan_to_value c) (sa_liquidation_threshold c) (sa_liquidation_bonus c)
    (sa_liquidation_fees c) (sa_supply_cap c) (sa_borrow_cap c).

Definition usage_view (u : SpokeUsage.SpokeUsageRaw) : Decode.SpokeUsage :=
  mkXUsage (SpokeUsage.supplied_scaled_ray u) (SpokeUsage.borrowed_scaled_ray u).

Definition sync_view (d : PoolSyncData) : MarketSync :=
  let p := sync_params d in
  mkXSync (mkXParams (rp_asset_decimals p) (rp_reserve_factor p) (rp_is_flashloanable p)
    (rp_flashloan_fee p) (rp_max_borrow_rate p) (rp_base_borrow_rate p) (rp_slope1 p) (rp_slope2 p)
    (rp_slope3 p) (rp_mid_utilization p) (rp_optimal_utilization p) (rp_max_utilization p))
    (rs_last_timestamp (sync_state d)).

Lemma decode_index_ok v : decode_market_index_row (enc_index v) = Ok (index_view v).
Proof using All.
  destruct v as [? ? ? ? ? ? ? ? ? ? [code|]]; unfold decode_market_index_row, enc_index; fields; reflexivity.
Qed.

Lemma decode_spoke_ok c : decode_spoke (enc_spoke c) = Ok (spoke_view c).
Proof using All. unfold decode_spoke, enc_spoke. fields. reflexivity. Qed.

Lemma decode_spoke_asset_ok c : decode_spoke_asset (enc_spoke_asset c) = Ok (listing_view c).
Proof using All. unfold decode_spoke_asset, enc_spoke_asset. fields. reflexivity. Qed.

Lemma decode_usage_ok u : decode_spoke_usage (enc_usage u) = Ok (usage_view u).
Proof using All.
  unfold decode_spoke_usage, enc_usage. unfold struct at 1. cbv iota. fold (struct []). fields. reflexivity.
Qed.

Lemma decode_sync_ok d : decode_sync_data (enc_sync d) = Ok (sync_view d).
Proof using All.
  assert (map_field (enc_sync d) "params" = Some (enc_params (sync_params d))) as Ep by (by apply map_field_struct).
  assert (map_field (enc_sync d) "state" = Some (enc_state (sync_state d))) as Es by (by apply map_field_struct).
  unfold decode_sync_data, missing. rewrite Ep, Es. cbn [of_option rbind]. unfold enc_params, enc_state.
  fields. reflexivity.
Qed.

(** *** Oracles *)

Definition strkey (a : Address) : string :=
  match sc_address a with ScContract c => contract_to_string c | ScAccount k => account_to_string k end.

(** What the exporter needs to know of a feed; a feed id is any byte string, shown as lossy
    UTF-8. *)
Definition feed_view (f : FeedSource) : OracleSource :=
  let mk kind c a i d := mkOracleSource kind (strkey c) a i d (fs_decimals f) (fs_max_stale_seconds f) in
  match fs_provider f with
  | Reflector r => mk KReflector (rf_contract r) (Some (enc_asset_ref (rf_asset r))) None None
  | RedStone r => mk KRedStone (mf_contract r) None (Some (utf8_lossy (mf_feed_id r))) None
  | Xoxno r => mk KXoxno (mf_contract r) None (Some (utf8_lossy (mf_feed_id r))) None
  | Chainlink r => mk KChainlink (cf_contract r) None None (Some (ScBytes (bytes32 (cf_data_id r))))
  end.

(** The legs with a provider of their own: feeds, and the factors of scaled sources. *)
Definition leg_view (src : PriceSource) : option OracleSource :=
  match src with
  | Feed f => Some (feed_view f)
  | Scaled s => Some (feed_view (ss_factor s))
  | AquariusLp _ | AquariusStableLp _ | CurveStableLp _ => None
  end.

Definition floor_view (src : PriceSource) : option LpFloor :=
  match src with
  | AquariusLp lp | AquariusStableLp lp =>
      Some (mkLpFloor (strkey (aq_pool lp)) (aq_min_pool_value_wad lp) "get_total_shares")
  | CurveStableLp lp => Some (mkLpFloor (strkey (cu_pool lp)) (cu_min_pool_value_wad lp) "total_supply")
  | Feed _ | Scaled _ => None
  end.

Definition oracle_view (o : AssetOracle) : OracleConfig :=
  mkOracleConfig (ao_max_price_stale_seconds o) (upper_ratio_bps (ao_tolerance o))
    (lower_ratio_bps (ao_tolerance o)) (Z.of_nat (length (ao_sources o)) mod 2 ^ 32)
    (ao_min_sanity_price_wad o) (ao_max_sanity_price_wad o) (omap leg_view (ao_sources o))
    (last (omap floor_view (ao_sources o))).

Lemma address_strkey_ok a : address_strkey (addr a) = Some (strkey a).
Proof using. unfold addr, strkey. by destruct (sc_address a). Qed.

Lemma provider_field l name v : forallb (fun p => is_ascii p.1) l = true -> assoc name l = Some (addr v) ->
  (map_field (struct l) name ≫= address_strkey) = Some (strkey v).
Proof using All. intros Hl E. rewrite (read_field _ _ Hl _ _ E). apply address_strkey_ok. Qed.

Lemma decode_feed_ok f : decode_feed_source (enc_feed f) = Ok (feed_view f).
Proof using All.
  unfold decode_feed_source, enc_feed, missing. fields. cbn [assoc]. rewrite !bool_decide_false by done.
  rewrite bool_decide_true by done. cbn [of_option rbind].
  unfold feed_view. destruct (fs_provider f) as [r|r|r|r]; cbn [enc_provider]; rewrite enum_variant_ok by reflexivity;
    cbn [of_option rbind head hd_error]; unfold enc_multi_feed; erewrite provider_field by reflexivity; cbn [of_option rbind].
  - rewrite map_field_struct by reflexivity. reflexivity.
  - erewrite read_field by reflexivity. reflexivity.
  - erewrite read_field by reflexivity. reflexivity.
  - rewrite !map_field_struct by reflexivity. reflexivity.
Qed.

Lemma lp_floor_ok tag l pool z : is_ascii tag = true -> forallb (fun p => is_ascii p.1) l = true ->
  assoc "pool" l = Some (addr pool) -> assoc "min_pool_value_wad" l = Some (i128_val z) ->
  decode_lp_floor (variant tag [struct l]) = Some (mkLpFloor (strkey pool) z
    (if bool_decide (tag = "CurveStableLp"%string) then "total_supply" else "get_total_shares")).
Proof using All.
  intros Ht Hl Ep Ez. unfold decode_lp_floor. rewrite enum_variant_ok by done.
  apply (field_i128_struct _ _ Hl) in Ez. rewrite <- (map_field_struct _ _ Hl) in Ep.
  cbn [mbind option_bind head hd_error]. rewrite Ep. cbn [mbind option_bind]. rewrite address_strkey_ok.
  cbn [mbind option_bind]. rewrite Ez. reflexivity.
Qed.

Lemma decode_source_ok src :
  decode_price_source (enc_source src) = Ok (leg_view src)
  /\ match leg_view src with
     | None => decode_lp_floor (enc_source src) = floor_view src /\ is_Some (floor_view src)
     | Some _ => floor_view src = None
     end.
Proof using All.
  unfold decode_price_source. destruct src as [f|sc|lp|lp|lp]; cbn [enc_source leg_view floor_view];
    rewrite enum_variant_ok by reflexivity; cbn [of_option rbind head hd_error]; split; try done.
  - change (bool_decide ("Feed" = "Feed")%string) with true. cbv iota. by rewrite decode_feed_ok.
  - change (bool_decide ("Scaled" = "Feed")%string) with false. change (bool_decide ("Scaled" = "Scaled")%string) with true.
    cbv iota. unfold missing. rewrite map_field_struct by reflexivity.
    change (assoc "factor" _) with (Some (enc_feed (ss_factor sc))). cbn [of_option rbind]. by rewrite decode_feed_ok.
  - split; [|done]. unfold enc_aquarius. by erewrite lp_floor_ok by reflexivity.
  - split; [|done]. unfold enc_aquarius. by erewrite lp_floor_ok by reflexivity.
  - split; [|done]. unfold enc_aquarius. by erewrite lp_floor_ok by reflexivity.
Qed.

Lemma decode_oracle_ok o : decode_oracle_config (enc_oracle o) = Ok (oracle_view o).
Proof using All.
  unfold decode_oracle_config, enc_oracle, missing. fields. cbn [of_option rbind].
  change (assoc "tolerance" _) with (Some (struct
    [("lower_ratio_bps", ScU32 (lower_ratio_bps (ao_tolerance o)));
     ("upper_ratio_bps", ScU32 (upper_ratio_bps (ao_tolerance o)))]%string)).
  cbn [of_option rbind]. fields. cbn [of_option rbind].
  change (assoc "sources" _) with (Some (ScVec (Some (enc_source <$> ao_sources o)))).
  cbn [of_option rbind vec_items]. rewrite length_fmap. unfold oracle_view.
  match goal with |- context [rfold ?f _ _] => assert (forall l done,
    rfold f (omap leg_view done, last (omap floor_view done)) (enc_source <$> l)
    = Ok (omap leg_view (done ++ l), last (omap floor_view (done ++ l)))) as Hf end.
  { intros l. induction l as [|src l IH]; intros done; [by rewrite app_nil_r|].
    rewrite fmap_cons. cbn [rfold]. destruct (decode_source_ok src) as [-> Hsrc]. cbn [rbind].
    replace (done ++ src :: l) with ((done ++ [src]) ++ l) by (by rewrite <- app_assoc).
    rewrite <- IH. rewrite !omap_app. cbn [omap list_omap fst snd].
    destruct (leg_view src) as [leg|]; cbn [rbind].
    - rewrite Hsrc. by rewrite app_nil_r.
    - destruct Hsrc as [-> [fl ->]]. rewrite app_nil_r. by rewrite last_snoc. }
  specialize (Hf (ao_sources o) []). cbn [omap list_omap last] in Hf. rewrite Hf. reflexivity.
Qed.

(** C33: the exporter reads back what the contracts publish: under the host's encoding of
    contract types, with the field names of the contracts' structs, its decoders succeed and
    return every field they show of the controller's index rows, spokes, listings and usage, of
    the pool's parameters and clock, and of the aggregator's oracle configurations, with every
    provider leg, its limit and the floor of a pool share.  Of lossy UTF-8 it relies only on
    ASCII passing unchanged, for field and variant names; the feed id of a leg, any byte string
    in the contract, is shown as its lossy UTF-8 text, so an ASCII id as it is. *)
Theorem exporter_reads_contracts views sync spoke listing usage oracle :
  decode_market_indexes (ScVec (Some (enc_index <$> views))) = Ok (index_view <$> views)
  /\ decode_sync_data (enc_sync sync) = Ok (sync_view sync)
  /\ decode_spoke (enc_spoke spoke) = Ok (spoke_view spoke)
  /\ decode_spoke_asset (enc_spoke_asset listing) = Ok (listing_view listing)
  /\ decode_spoke_usage (enc_usage usage) = Ok (usage_view usage)
  /\ decode_oracle_config (enc_oracle oracle) = Ok (oracle_view oracle).
Proof using All.
  split_and!.
  - unfold decode_market_indexes. cbn [vec_items of_option rbind].
    induction views as [|v views IH]; [done|]. rewrite !fmap_cons. cbn [XKeys.collect].
    rewrite decode_index_ok, IH. reflexivity.
  - apply decode_sync_ok.
  - apply decode_spoke_ok.
  - apply decode_spoke_asset_ok.
  - apply decode_usage_ok.
  - apply decode_oracle_ok.
Qed.

End Read.

End Abi.

(** ** One market, one spoke, a stale feed and an unlisted pair *)

Module ExporterSample.

Import F64 Model Text Sc XKeys XConfig Decode Reg View Collector Runs IndexRows Freshness Unlisted Abi.

(** Multiplication bit by bit, as the compiler's runtime does it. *)
Fixpoint pow_bits (fuel : nat) (r a : spec_float) (b : Z) : spec_float :=
  match fuel with
  | O => r
  | S fuel => pow_bits fuel (if Z.odd b then mul r a else r) (mul a a) (b / 2)
  end.

#[export] Instance plain_lib : Lib := {|
  powi a b := let r := pow_bits 31 one a (Z.abs b) in if b <? 0 then div one r else r;
  utf8_lossy s := s;
  contract_from_string s := Ok ((fun c => Z.of_nat (Ascii.nat_of_ascii c)) <$> String.list_ascii_of_string s);
  contract_to_string l := String.string_of_list_ascii ((fun z => Ascii.ascii_of_nat (Z.to_nat z)) <$> l);
  account_to_string l := String.string_of_list_ascii ((fun z => Ascii.ascii_of_nat (Z.to_nat z)) <$> l);
  encode_text _ _ := Ok "body"%string
|}.

#[export] Instance plain_text : AsciiText.
Proof. by split. Qed.

#[export] Instance plain_values : HostValues := {|
  sc_address a := ScContract [Z.of_N (address_id a)];
  bytes32 n := [Z.of_N n]
|}.

Definition sample_oracle : AssetOracle :=
  mkAssetOracle 7 3600
    [Feed (mkFeedSource (Reflector (mkReflectorFeedRef (mkAddress 65) (AssetSymbol "BTC") Spot)) 14 60);
     Scaled (mkScaledSource (mkFeedSource (RedStone (mkMultiFeedRef (mkAddress 66) "SolvBTC" Fundamental)) 8 600)
               (Ref "USD") 0 1)]
    (mkOracleTolerance 11000 9091) RequireDisjoint 1 (10 ^ 30).

Definition sample_index : Views.MarketIndexView :=
  Views.mkMarketIndexView (mkAddress 84) (10 ^ 27) (10 ^ 27) (10 ^ 18) (10 ^ 18) 0 990 false false true None.

(** It knows the index and the oracle, answers feeds, and reverts every listing as not in the
    spoke. *)
Definition answer (function : string) : ares SimResponse :=
  if bool_decide (function = "get_spoke_asset"%string)
  then Ok (mkSim (Some "HostError: Error(Contract, #307)"%string) (Ok []))
  else if bool_decide (function = "get_market_indexes_detailed"%string)
  then Ok (mkSim None (Ok [ScVec (Some [enc_index sample_index])]))
  else if bool_decide (function = "lastprice"%string)
  then Ok (mkSim None (Ok [struct [("timestamp", ScU64 900)]%string]))
  else if bool_decide (function = "read_price_data_for_feed"%string)
  then Ok (mkSim None (Ok [struct [("package_timestamp", ScU64 950000); ("write_timestamp", ScU64 990000)]%string]))
  else Err "unknown"%string.

#[export] Instance node : Node := {|
  nd_simulate _ e := match ev_op e with OpInvoke _ f _ _ => answer f | _ => Err "not a call"%string end;
  nd_latest_ledger _ := Ok 5;
  nd_close_time _ _ := Ok 1000;
  nd_entries _ keys := Ok ((fun k => mkNodeEntry k (DataEntry (enc_oracle sample_oracle))) <$> keys);
  nd_instant t := Z.of_N t;
  nd_wall _ := 1001
|}.

#[export] Instance node_clock : Clock.
Proof. split. intros t t' Ht. simpl. lia. Qed.

Definition cfg : ExporterConfig :=
  mkExporterConfig "testnet" "http://rpc" "net" "C" (Some "A"%string) None [mkXMarket 1 "T" "TOK"] [2] ∅ ∅ 30.

Definition market : ResolvedMarket := mkResolvedMarket 1 [84] "T" "TOK".
Definition contracts : ResolvedContracts := mkResolved [67] (Some [65]) None [market].

Definition blank_state : State := mkState ∅ ∅ ∅ 0 0 "".

Definition run_state {A} (m : M A) (s : State) : State := match m s with Some (_, s') => s' | None => s end.

Definition started : State := run_state (publish_startup "testnet" 999) blank_state.
Definition scraped : State := run_state (scrape_tick cfg contracts) started.

Definition runs {A} (m : M A) (s : State) : bool := match m s with Some _ => true | None => false end.

Lemma run_state_Some {A} (m : M A) s : runs m s = true -> exists a, m s = Some (a, run_state m s).
Proof. unfold runs, run_state. destruct (m s) as [[a s']|]; [by exists a|done]. Qed.

Lemma started_ok : exists a, publish_startup "testnet" 999 blank_state = Some (a, started).
Proof. unfold started. apply run_state_Some. vm_compute. reflexivity. Qed.

Lemma scraped_ok : exists a, scrape_tick cfg contracts started = Some (a, scraped).
Proof. unfold scraped. apply run_state_Some. vm_compute. reflexivity. Qed.

Lemma resolved : resolve cfg = Ok contracts.
Proof. reflexivity. Qed.

Lemma one_market : distinct_markets contracts.
Proof. intros m m' Hm Hm' _ _. apply list_elem_of_singleton in Hm, Hm'. by rewrite Hm, Hm'. Qed.

Lemma scraped_reachable : exporter_reachable cfg contracts scraped.
Proof.
  destruct scraped_ok as [b Hb]. apply (xr_scrape _ _ started b); [|exact Hb].
  destruct started_ok as [a Ha]. exact (xr_start cfg contracts 0%N 999 a started Ha).
Qed.

Lemma scraped_remembers : remembered scraped 2 market.
Proof. exists 12. split; vm_compute; reflexivity. Qed.

Lemma unlisted_pairs_silent_witness :
  remembered scraped 2 market
  /\ x_gauges scraped !! ("spoke_paused"%string, pair_labels cfg 2 market) = None.
Proof.
  split; [exact scraped_remembers|].
  refine (proj1 (unlisted_pairs_silent cfg contracts scraped 2 market resolved one_market scraped_reachable _
                   scraped_remembers) _ _).
  - apply list_elem_of_singleton. reflexivity.
  - apply elem_of_cons. left. reflexivity.
Defined.

Lemma exporter_reads_contracts_witness :
  decode_oracle_config (enc_oracle sample_oracle) = Ok (oracle_view sample_oracle)
  /\ length (og_sources (oracle_view sample_oracle)) = 2%nat.
Proof.
  split; [|reflexivity].
  exact (proj2 (proj2 (proj2 (proj2 (proj2 (exporter_reads_contracts [] 
    (mkPoolSyncData (mkMarketParamsRaw 0 0 0 0 0 0 0 0 0 false 0 (mkAddress 1) 7) (mkPoolStateRaw 0 0 0 0 0 0 0))
    (ControllerTypes.mkSpokeConfig false 0 0 0)
    (ControllerTypes.mkSpokeAssetConfig false false false false false 0 0 0 0 0 0)
    (SpokeUsage.mkSpokeUsageRaw 0 0) sample_oracle)))))).
Defined.

(** The first leg is 100 seconds old with a limit of 60. *)
Definition step : M (Aggregates * list (option Z)) :=
  scrape_market "testnet" cfg None (Some [65]) 1000 (no_aggregates, [None]) (0%nat, (market, None)).

Definition stepped : State := run_state step started.

Lemma step_ok : exists r, scrape_market "testnet" cfg None (Some [65]) 1000 (no_aggregates, [None])
  (0%nat, (market, None)) started = Some (r, stepped).
Proof. unfold stepped, step. apply run_state_Some. vm_compute. reflexivity. Qed.

Lemma step_countdown : x_gauges stepped !! countdown_series "testnet" market = Some (of_Z (-40)).
Proof. vm_compute. reflexivity. Qed.

Lemma negative_countdown : ltb (of_Z (-40)) zero = true.
Proof. reflexivity. Qed.

Lemma countdown_is_worst_leg_witness :
  exists v agg_id config stamps, x_gauges stepped !! countdown_series "testnet" market = Some v
    /\ Some [65] = Some agg_id /\ Forall2 (leg_read "testnet" market) (og_sources config) stamps
    /\ worst_of 1000 (zip (og_sources config) stamps) v /\ ltb v zero = true.
Proof.
  destruct step_ok as [r Hr].
  destruct (countdown_is_worst_leg "testnet" cfg None (Some [65]) 1000 (no_aggregates, [None]) 0 market None
              started r stepped _ Hr step_countdown) as (id & c & st & E1 & _ & E2 & _ & E3 & _).
  exists (of_Z (-40)), id, c, st. split; [exact step_countdown|]. split; [exact E1|]. split; [exact E2|].
  split; [exact E3|]. exact negative_countdown.
Defined.

Definition indexed : State := run_state (read_market_indexes "testnet" contracts) started.

Lemma index_run : read_market_indexes "testnet" contracts started = Some ([Some (index_view sample_index)], indexed).
Proof. vm_compute. reflexivity. Qed.

Lemma index_rows_aligned_witness : Forall2 (answered (rc_controller contracts)) [market] [Some (index_view sample_index)].
Proof. exact (index_rows_aligned "testnet" contracts started _ indexed index_run). Defined.

End ExporterSample.
